(* ===== verification/_CoqProject ===== *)
-Q . S2P
Prelude.v
CoreTypes.v
GatewayTypes.v
GatewayStore.v
RouteModel.v
Capabilities.v
KeyPlan.v
GatewayErrors.v
Ir.v
Json.v
Upstream.v
MemberPlan.v
Breaker.v
ModelResolve.v
Failover.v
Limiter.v
Relay.v
Storage.v
Schedule.v
Sse.v
Wire.v
AnthropicStream.v
ChatStream.v
ToolNames.v
Forward.v
Bodies.v
AnthropicBody.v
ChatBody.v
GeminiBody.v
ResponsesBody.v
Renaming.v
Crossing.v
ResponsesStream.v
AutomationGraph.v
Automation.v
Trust.v
TrustHistory.v
LanPairing.v
PeerLimiter.v
RemoteGateway.v
RemoteHistory.v
Rows.v
Team.v
TeamStore.v
TeamWork.v
TeamHistory.v
TeamDelete.v
TeamInbox.v
TeamRounds.v
TeamSafety.v
TeamTree.v
TeamScenario.v
TrustScenario.v
RemoteScenario.v
ScheduleScenario.v
AutomationScenario.v
StreamScenario.v
BodyScenario.v
Scenario.v
