(* ===== verification/Prelude.v ===== *)
    (** * Vibex: the model gateway, schedules, automations, Team work and remote
    access

    Vibex runs coding Agents against language models.  Its model gateway
    (crates/model-gateway, with the records of crates/core and the tables of
    crates/db) is a local HTTP server: an Agent speaks one of four wire
    protocols to it, the gateway finds the model group and the members that may
    answer, orders members and Keys, calls one upstream after another until
    one answers, and relays the reply in the Agent's own protocol.  Beside it
    stand the scheduled tasks (crates/agent/src/scheduler.rs), which start
    Agent turns at their times, the automations (crates/agent/src/automation.rs),
    which run a graph of prompts and approvals, Team work
    (crates/db/src/vibex_use.rs), in which Agents hand tasks and messages to
    sessions of other Agents and a person may step in, the relay session
    (crates/relay), which carries a remote device's requests end to end
    encrypted, and the remote gateway (crates/remote), which pairs phones and
    other clients with the desktop and answers their requests.

    ** The parts, in the order they build on each other

    - Prelude: results with early return, strings as lists of characters,
      sorting, tactics.  CoreTypes: VibexError and the prefixed ids
      (core/src/error.rs, ids.rs).
    - The gateway's data.  GatewayTypes: settings, policy, account states,
      ledger rows (core/src/model_gateway.rs).  GatewayStore: the tables
      (db/src/model_gateway.rs).  RouteModel: groups, members and rules
      (core/src/model_route.rs).  Capabilities: reasoning-effort tables
      (core/src/provider.rs).  GatewayErrors: model-gateway/src/error.rs.
      Ir: the canonical request and reply (ir.rs).
    - Choosing.  KeyPlan: the order of one Provider's Keys and what a failure
      says of a Key (route.rs).  Upstream: endpoints, protocol choice and the
      Keys of a member (service.rs).  MemberPlan: the seven strategies
      (route.rs).  ModelResolve: from a model id to the members of a turn
      (route.rs, service.rs).  Breaker: groups that stepped aside and the
      probe slot (service.rs).
    - Calling.  Failover: open_member_attempt, open_attempt, decide_failover
      and record of service.rs, patience and perimeter of server.rs.  Limiter:
      the lane and the rolling minute of one account (limit.rs).
    - Replying. Json: serde_json's accessors and the interface of its text. Sse:
      the event-stream buffer, parser and writer (stream.rs, wire/mod.rs). Wire:
      canonical events, the two stream traits as classes, the reply that events
      add up to (wire/mod.rs, stream.rs). AnthropicStream, ChatStream,
      ResponsesStream: the stream halves of wire/anthropic.rs, wire/chat.rs and
      wire/responses.rs. ToolNames: tool_names.rs. Forward: forward and the
      reading half of gather (service.rs), over any decoder and encoder.
    - Bodies.  Bodies: the interface of a protocol's body codec with the laws a
      faithful one has, build_upstream_request (wire/mod.rs), and the gist of a
      request or reply.  AnthropicBody, ChatBody, GeminiBody, ResponsesBody:
      parse_request, build_request, render_response and parse_response of
      wire/anthropic.rs, chat.rs, gemini.rs and responses.rs; the first two are
      instances of the laws.  Renaming: what the rewriting of tool names
      (tool_names.rs) does to the bodies of those two.  Crossing: the dispatch
      of wire/mod.rs; build_member_body, the body of a call and the half of
      gather that reads one JSON object (service.rs); gateways in a row.
    - Storage: repository calls as a monad over a database, with a logic of
      pre- and postconditions, and the bounds of db/src/lib.rs on stored texts.
      Schedule: core/src/scheduled_task.rs, ScheduledTaskRepository of
      db/src/lib.rs and agent/src/scheduler.rs.  AutomationGraph, Automation:
      core/src/automation_graph.rs, AutomationGraphRepository and
      PermissionRepository of db/src/lib.rs and agent/src/automation.rs.
    - Relay: relay/src/lib.rs, core/src/relay.rs, core/src/canonical_json.rs.
    - Remote access.  Trust: RemoteTrustService (remote/src/lib.rs,
      pairing_v2.rs) with its repositories (db/src/lib.rs, db/src/remote_v2.rs)
      and records (core/src/remote.rs, remote_v2.rs).  TrustHistory: histories
      of the service.  LanPairing: remote/src/lan_pairing.rs.  PeerLimiter and
      RemoteGateway: the limiter, tickets, connections and requests of
      remote/src/gateway.rs.  RemoteHistory: histories of the gateway, seen
      as histories of the service.
    - Team work.  Rows: SQL tables as lists of rows and the statements on them.
      Team: references, tasks, rounds, messages, controllers, events,
      operations, budgets (core/src/vibex_use.rs, vibex_use/budget.rs,
      delegation.rs, and the submission vocabulary of runtime.rs).  TeamStore:
      the tables and the repositories that read or write one of them
      (db/src/vibex_use.rs, vibex_use/budget.rs, vibex_use/cancellation.rs,
      AgentDelegationRepository of db/src/lib.rs).  TeamWork: what moves
      several tables at once: authorizing, accepting, sending, ending,
      interrupting and cancelling (db/src/vibex_use.rs and its submodules,
      MessageSubmissionRepository of db/src/runtime.rs).  TeamHistory: every
      writer of these repositories as one kind of step, and what any list of
      steps keeps; no step deletes a session.  TeamDelete: the deletion of a
      session (agent/src/manager.rs) with what the foreign keys of
      db/src/lib.rs remove and clear, and histories with deletions.
      TeamRounds: the end of a round.  TeamInbox: reading and acknowledging
      task events.  TeamSafety: theorems on histories without deletions.
      TeamTree: the tasks below a task and their cancellation, in such
      histories.
    - TeamScenario, ScheduleScenario, AutomationScenario, TrustScenario,
      RemoteScenario, StreamScenario, BodyScenario, Scenario: concrete
      configurations on which every theorem with hypotheses is instantiated.

    A Rust struct is a record with the source's field names under a short
    prefix, an enum an inductive type, a method T::m the definition [T_m] or
    [m].  Results are [VibexResult] or [GatewayResult]; [?] is the prelude's
    bind.  Strings are lists of Unicode scalar values; machine integers are [N]
    or [Z] with saturation and wrap-around written out where the code has them.

    ** Where the outside enters

    - Failover runs over a [World]: what the network, the secret store, the
      limiter and the user answer to the n-th question.
    - Breaker and Limiter run over lists of events: one event is one call under
      the component's lock, so a list is an interleaving.  The instants of the
      rolling minute start at the origin of the clock, before which it names
      none ([checked_sub_ms]).
    - PeerLimiter runs over steps that each hold the lock once: the check, the
      record of a wrong guess and the count of other requests.  The guess is
      tried between them, so guesses are in flight together, and the bound of
      [wrong_guesses_are_bounded] counts them.
    - Schedule and Automation run over a setting: what the Agent's turn or the
      gate's request returns, and what other connections write in between.
      The repository of schedules reads a row and writes it in two statements:
      [sched_step] is one statement of one of many connections, so a list of
      them is an interleaving ([call_is_two_statements]); only claiming is a
      transaction.  In an automation other connections write before every
      repository call of the runner ([AutoPause]), and each such call is one
      step.  Of the failures of SQLite only missing and duplicate rows are
      modelled.
    - Forward takes the upstream's body as the list of what reading it gives,
      and the client as the number of writes it accepts.
    - Trust and RemoteGateway run over lists of operations.  One transaction is
      one step, so a call that reads before its transaction is two, and what
      other calls do in between is an argument of it.  Identifiers, random
      bytes, the dispatcher of the other operations and the runtime's own
      sources are arguments; digest, base64 and URLs are [Platform], HMAC is
      [LanPlatform], serde is [WireFormat].
    - Team work runs over a list of steps, one for each call of a writer: every
      such call is one transaction of SQLite, so a list is an interleaving.
      Sessions, the timeline, usage facts and the clock are written by others
      and may be anything at any step ([OpWorld]); new ids come from a stream.
    - serde_json's text is the class [JsonText] with the laws [JsonTextLaws],
      its numbers with a fraction are [JsonNumbers] with [JsonNumbersLaws];
      cryptography and the encoding of a frame are [Crypto] with [CryptoLaws],
      which promise a payload back only where serde_json documents it
      ([sendable]: no repeated key, unsigned integers, bounded nesting);
      the fingerprint of an id is [StreamPlatform]; SHA-256 of a long tool name
      and str::to_lowercase are arguments.  Each has an instance in a
      scenario that meets its laws.

    ** What the theorems show

    - Requests: a group is accepted exactly when it meets its contract, every
      listed id reaches its group, a turn's members are the strategy's plan
      reordered, a target protocol is allowed and callable, Keys offered are
      the member's own and usable, plans are reorderings (with the weighted
      exception, proved), the first member that answers wins and everything
      before it is accounted for, marks on Keys are earned, some answer
      suffices, patience ends.
    - Shared state: the lane is bounded and refines a FIFO semaphore, the
      rolling minute is bounded, the published breaker state covers the
      breakers, one probe at a time, ledger pages are complete.
    - Replies: while the network cuts between characters, frames do not depend on
      how it cuts them and a translated relay is decode-then-encode; a reply
      survives the Anthropic stream whole, and a Responses stream but for
      cached writes, signatures and a stop reason other than a cut; an
      Anthropic client sees bracketed blocks whatever upstreams say, a Chat
      stream keeps one tool call, tool names are accepted, distinct and
      restored; and what happens to CRLF streams, to a character cut in two and
      to replies that break.
    - Bodies: a conversation crosses any row of gateways that translate into
      Chat or Anthropic upstreams with its gist, tools named as the first
      gateway's map gives them, and a whole reply comes back through one gateway
      under the names the client declared; what Responses and Gemini upstreams
      read of a conversation, and what is lost on the way; the ids of Gemini
      calls are paired with their results; a passthrough changes only the model,
      the stream flag and the tools no upstream serves.
    - Schedules: an occurrence is claimed once unless a writer that read
      before the claim writes after it, a tick accounts for its runs,
      daily and interval runs are the next ones, recovery re-arms.
    - Automations: a stored graph is ordered along its edges or refused as
      cyclic, a stale draft is refused, a run executes a prefix of the order and
      ends by its last step, a waiting run goes by the answer to its request,
      and what becomes of a step nobody can answer.
    - Team work: a message is prompted at most once, a message key names one
      message with one round (which the deletion of its lead may take away),
      work that was interrupted, cancelled or finished is never sent, a person
      keeps the session they took over and handing it back revives no older
      round, a finished task stays finished, cancelling a task stops everything
      below it and nothing else, the end of a round moves its task by the
      outcome, an operation is claimed once, an unacknowledged event stays
      readable, references round-trip.
    - Relay: peers agree on keys, a sealed stream opens in order, no frame is
      accepted twice.
    - Remote access: a code or an offer is claimed once, the store implements a
      table of grants driven by the events of its history, claims and audit rows
      are never undone, one client has one row (and the race that gives it two),
      an offer goes to the request the operator approved, wrong guesses are
      bounded by the budget and the guesses in flight, a ticket opens one
      connection, only full control manages devices, and a repeated mutation is
      applied once.

    ** Bounds and fuel

    [patience_loop] is given twelve rounds: the steps of patience_delay exceed
    any budget a route can save after ten retries ([patience_is_bounded]).
    [reserve_minute] needs two passes, since the second finds the window
    expired.  [interval_fuel] is the distance to the completed instant, and
    each round of [interval_loop] advances by at least one millisecond.
    [kahn_fuel] is one more than the nodes: each is queued once, and
    [stored_graph_is_ordered_or_cyclic] says the queue ends empty.
    [WALK_FUEL] is one more than the bound 32 the code itself puts on a walk up
    a team, past which the code answers with the same error.
    [task_subtree] is given one more than the tasks: each is read once
    ([expand_complete]).
    [unused_fuel] is two more than the names taken, by the pigeonhole
    argument of [first_unused_spec].  Each bound is proved sufficient, so no
    theorem speaks only of runs that end.

    ** Not modelled

    The Gemini streams; cache breakpoints, which no codec carries; the
    classifier's upstream call; model-group suggestions; the sockets, file and
    terminal streams and zero-config sessions of the remote gateway. Of Team
    work: session groups and the presentation of a team, migrations, the loops
    of the desktop that call the repositories, and the failures of SQLite other
    than its unique indexes and the foreign key of event deliveries; revision
    counters are integers without a width. The Agent manager, session state
    machine and goals, whose decisions rest on the state of provider processes,
    and the tables of sessions and timelines. The adapters of external Agents,
    the user interfaces and the wrappers of browser, file system, git, terminal,
    update and backup are input and output, and stay out. *)
From stdpp Require Import prelude strings list gmap sorting.
From Stdlib Require Import NArith ZArith Lia Ascii Permutation Sorted.

(** ** Results and early returns *)

(** [Result<A, E>]. *)
Inductive result (A E : Type) : Type :=
| Ok (a : A)
| Err (e : E).
Arguments Ok {A E} _.
Arguments Err {A E} _.

Definition result_bind {A B E} (c : result A E) (k : A -> result B E) : result B E :=
  match c with
  | Ok a => k a
  | Err e => Err e
  end.

Definition is_ok {A E} (c : result A E) : bool :=
  match c with Ok _ => true | Err _ => false end.

(** [option.ok_or_else(e)?]. *)
Definition ok_or {A E} (o : option A) (e : E) : result A E :=
  match o with Some a => Ok a | None => Err e end.

Declare Scope rust_scope.
Delimit Scope rust_scope with rust.
Open Scope rust_scope.

Notation "'let?' x := c 'in' k" := (result_bind c (fun x => k))
  (at level 10, x pattern, c at level 99, k at level 200) : rust_scope.
(** [if b { return Err(e) } k]. *)
Notation "'reject' b 'with' e ;; k" := (if b then Err e else k)
  (at level 10, b at level 99, e at level 99, k at level 200) : rust_scope.
(** [try c ;; k] is [c?; k] for a [c] that returns unit. *)
Notation "'try' c ;; k" := (result_bind c (fun _ : unit => k))
  (at level 10, c at level 99, k at level 200) : rust_scope.

Lemma reject_ok {A E} (b : bool) (e : E) (k : result A E) (a : A) :
  (reject b with e ;; k) = Ok a <-> b = false /\ k = Ok a.
Proof. destruct b; naive_solver. Qed.

Lemma bind_ok {A B E} (c : result A E) (k : A -> result B E) (b : B) :
  result_bind c k = Ok b <-> exists a, c = Ok a /\ k a = Ok b.
Proof. destruct c; naive_solver. Qed.

Lemma bind_unit_ok {B E} (c : result unit E) (k : result B E) (b : B) :
  result_bind c (fun _ => k) = Ok b <-> c = Ok tt /\ k = Ok b.
Proof. destruct c as [[]|]; naive_solver. Qed.

Lemma ok_or_ok {A E} (o : option A) (e : E) (a : A) : ok_or o e = Ok a <-> o = Some a.
Proof. destruct o; naive_solver. Qed.

(** [for x in l { f(x)?; }]. *)
Fixpoint for_each {A E} (f : A -> result unit E) (l : list A) : result unit E :=
  match l with
  | [] => Ok tt
  | x :: l => try f x ;; for_each f l
  end.

Lemma for_each_ok {A E} (f : A -> result unit E) (l : list A) :
  for_each f l = Ok tt <-> Forall (fun x => f x = Ok tt) l.
Proof.
  induction l as [|x l IH]; simpl.
  - split; [constructor|done].
  - rewrite bind_unit_ok, IH, Forall_cons. done.
Qed.

(** ** Fixed-width integers *)

Definition u64_max : Z := 2 ^ 64 - 1.
Definition i64_max : Z := 2 ^ 63 - 1.
Definition i64_min : Z := - 2 ^ 63.
Definition u32_max : Z := 2 ^ 32 - 1.

Definition in_u64 (z : Z) : Prop := (0 <= z <= u64_max)%Z.
Definition in_i64 (z : Z) : Prop := (i64_min <= z <= i64_max)%Z.
Definition in_u32 (z : Z) : Prop := (0 <= z <= u32_max)%Z.

(** [u64::saturating_add], [i64::saturating_add], [i64::saturating_sub],
    [u64::saturating_sub] and [i64 as u64]-style wrapping. *)
Definition u64_saturating_add (a b : Z) : Z := Z.min u64_max (a + b).
Definition u32_saturating_add (a b : Z) : Z := Z.min u32_max (a + b).
Definition u64_saturating_sub (a b : Z) : Z := Z.max 0 (a - b).
Definition i64_clamp (z : Z) : Z := Z.max i64_min (Z.min i64_max z).
Definition i64_saturating_add (a b : Z) : Z := i64_clamp (a + b).
Definition i64_saturating_sub (a b : Z) : Z := i64_clamp (a - b).
(** [x as i64] for an [x : u64]. *)
Definition u64_as_i64 (x : Z) : Z := if (x <=? i64_max)%Z then x else (x - 2 ^ 64)%Z.

Create HintDb ints.
#[global] Hint Unfold in_u64 in_i64 in_u32 u64_max i64_max i64_min u32_max
  u64_saturating_add u32_saturating_add u64_saturating_sub i64_clamp
  i64_saturating_add i64_saturating_sub : ints.

(** Unfolds the machine-integer vocabulary and calls [lia]. *)
Ltac int_lia := repeat autounfold with ints in *; lia.

Lemma i64_saturating_add_range a b : in_i64 (i64_saturating_add a b).
Proof. int_lia. Qed.
Lemma u64_saturating_add_range a b : in_u64 a -> in_u64 b -> in_u64 (u64_saturating_add a b).
Proof. int_lia. Qed.
Lemma i64_saturating_add_exact a b : in_i64 (a + b) -> i64_saturating_add a b = (a + b)%Z.
Proof. int_lia. Qed.

(** ** Strings

    A Rust [str] is a sequence of Unicode scalar values; it is modelled as the
    list of their code points, so [chars().count()] is [length].  Ids are
    newtypes over [String] and compare as strings. *)

Abbreviation str := (list N).
Abbreviation ident := (list N).

(** An ASCII literal of the source. *)
Definition lit (s : string) : str := Ascii.N_of_ascii <$> String.list_ascii_of_string s.

(** [char::is_whitespace]: the Unicode property White_Space. *)
Definition is_whitespace (c : N) : bool :=
  ((9 <=? c) && (c <=? 13) || (c =? 32) || (c =? 133) || (c =? 160) || (c =? 5760)
   || (8192 <=? c) && (c <=? 8202) || (c =? 8232) || (c =? 8233) || (c =? 8239)
   || (c =? 8287) || (c =? 12288))%N.

Fixpoint drop_while {A} (p : A -> bool) (l : list A) : list A :=
  match l with
  | [] => []
  | x :: r => if p x then drop_while p r else l
  end.

Definition trim_end_matches (p : N -> bool) (s : str) : str := reverse (drop_while p (reverse s)).
Definition trim_matches (p : N -> bool) (s : str) : str := trim_end_matches p (drop_while p s).
(** [str::trim]. *)
Definition trim (s : str) : str := trim_matches is_whitespace s.

Definition is_empty {A} (l : list A) : bool := match l with [] => true | _ => false end.

Definition is_ascii_upper (c : N) : bool := ((65 <=? c) && (c <=? 90))%N.
Definition is_ascii_lower (c : N) : bool := ((97 <=? c) && (c <=? 122))%N.
Definition is_ascii_digit (c : N) : bool := ((48 <=? c) && (c <=? 57))%N.
Definition is_ascii_alphanumeric (c : N) : bool :=
  is_ascii_upper c || is_ascii_lower c || is_ascii_digit c.
(** [char::is_control]. *)
Definition is_control (c : N) : bool := ((c <? 32) || ((127 <=? c) && (c <? 160)))%N.
(** A match on literals. *)
Definition named {A} (table : list (string * A)) (name : str) : option A :=
  snd <$> List.find (fun row => bool_decide (lit row.1 = name)) table.
Definition ascii_to_lower (c : N) : N := if is_ascii_upper c then (c + 32)%N else c.
(** [str::to_ascii_lowercase] and [str::eq_ignore_ascii_case]. *)
(** One digit of [format!("{:x}", _)]. *)
Definition hex_char (d : Z) : N := Z.to_N (if (d <? 10)%Z then d + 48 else d + 87).
Definition to_ascii_lowercase (s : str) : str := ascii_to_lower <$> s.
Definition eq_ignore_ascii_case (a b : str) : bool :=
  bool_decide (to_ascii_lowercase a = to_ascii_lowercase b).

(** [str::strip_prefix]. *)
Fixpoint strip_prefix (p s : str) : option str :=
  match p, s with
  | [], _ => Some s
  | c :: p, d :: s => if (c =? d)%N then strip_prefix p s else None
  | _ :: _, [] => None
  end.
Definition starts_with (p s : str) : bool := bool_decide (is_Some (strip_prefix p s)).
Definition strip_suffix (p s : str) : option str := reverse <$> strip_prefix (reverse p) (reverse s).

(** [str::split_once(c)]: splits at the first occurrence. *)
Fixpoint split_once (c : N) (s : str) : option (str * str) :=
  match s with
  | [] => None
  | d :: s => if (c =? d)%N then Some ([], s)
              else match split_once c s with
                   | Some (a, b) => Some (d :: a, b)
                   | None => None
                   end
  end.

(** [hay.contains(needle)] on strings. *)
Fixpoint str_contains (hay needle : str) : bool :=
  starts_with needle hay ||
  match hay with
  | [] => false
  | _ :: hay => str_contains hay needle
  end.

(** Bytes of one scalar value in UTF-8, and [str::len]. *)
Definition utf8_width (c : N) : nat :=
  if (c <? 128)%N then 1 else if (c <? 2048)%N then 2 else if (c <? 65536)%N then 3 else 4.
Definition utf8_len (s : str) : nat := list_sum (utf8_width <$> s).

(** [str::as_bytes]: the UTF-8 encoding. *)
Definition utf8_char (c : N) : list N :=
  (if c <? 128 then [c]
   else if c <? 2048 then [192 + c / 64; 128 + c mod 64]
   else if c <? 65536 then [224 + c / 4096; 128 + c / 64 mod 64; 128 + c mod 64]
   else [240 + c / 262144; 128 + c / 4096 mod 64; 128 + c / 64 mod 64; 128 + c mod 64])%N.
Definition as_bytes (s : str) : list N := s ≫= utf8_char.

Lemma drop_while_suffix {A} (p : A -> bool) l :
  exists pre, l = pre ++ drop_while p l /\ Forall (fun x => p x = true) pre.
Proof.
  induction l as [|x l (pre & Hl & Hp)]; simpl; [by exists []|].
  destruct (p x) eqn:Hx; [|by exists []].
  exists (x :: pre). simpl. split; [by f_equal|by constructor].
Qed.

Lemma drop_while_head {A} (p : A -> bool) l x r : drop_while p l = x :: r -> p x = false.
Proof.
  induction l as [|y l IH]; simpl; [done|].
  destruct (p y) eqn:Hy; [done|]. naive_solver.
Qed.

Lemma drop_while_none {A} (p : A -> bool) l :
  Forall (fun x => p x = false) l -> drop_while p l = l.
Proof. destruct 1 as [|x l H _]; simpl; [done|]. by rewrite H. Qed.

Lemma strip_prefix_Some p s r : strip_prefix p s = Some r <-> s = p ++ r.
Proof.
  revert s. induction p as [|c p IH]; intros [|d s]; simpl; try naive_solver.
  destruct (N.eqb_spec c d) as [->|Hne]; [|naive_solver].
  rewrite IH. naive_solver.
Qed.

Lemma strip_prefix_app p r : strip_prefix p (p ++ r) = Some r.
Proof. by apply strip_prefix_Some. Qed.

Lemma starts_with_spec p s : starts_with p s = true <-> exists r, s = p ++ r.
Proof.
  unfold starts_with. rewrite bool_decide_eq_true. unfold is_Some.
  by setoid_rewrite strip_prefix_Some.
Qed.

Lemma split_once_None c s : split_once c s = None <-> c ∉ s.
Proof.
  induction s as [|d s IH]; simpl; [set_solver|].
  destruct (N.eqb_spec c d) as [->|Hne]; [set_solver|].
  destruct (split_once c s) as [[]|]; set_solver.
Qed.

Lemma split_once_app c a b : c ∉ a -> split_once c (a ++ c :: b) = Some (a, b).
Proof.
  induction a as [|d a IH]; simpl; intros Hn.
  - by rewrite N.eqb_refl.
  - destruct (N.eqb_spec c d) as [->|Hne]; [set_solver|].
    by rewrite IH by set_solver.
Qed.

Lemma split_once_Some c s a b : split_once c s = Some (a, b) -> s = a ++ c :: b /\ c ∉ a.
Proof.
  revert a. induction s as [|d s IH]; intros a; simpl; [done|].
  destruct (N.eqb_spec c d) as [->|Hne]; [intros [= <- <-]; set_solver|].
  destruct (split_once c s) as [[a' b']|]; [|done].
  intros [= <- <-]. destruct (IH a' eq_refl) as [-> Hn]. set_solver.
Qed.

(** [str::rsplit_once] on one character. *)
Definition rsplit_once (c : N) (s : str) : option (str * str) :=
  (fun ab => (reverse ab.2, reverse ab.1)) <$> split_once c (reverse s).
Lemma rsplit_once_app c a b : c ∉ b -> rsplit_once c (a ++ c :: b) = Some (a, b).
Proof.
  intros Hb. unfold rsplit_once. rewrite reverse_app, reverse_cons, <- (assoc (++)). simpl.
  rewrite split_once_app by (by rewrite elem_of_reverse). simpl. by rewrite !reverse_involutive.
Qed.

Lemma str_contains_spec hay needle :
  str_contains hay needle = true <-> exists a b, hay = a ++ needle ++ b.
Proof.
  induction hay as [|c hay IH]; simpl; rewrite orb_true_iff, starts_with_spec.
  - split.
    + intros [[r Hr]|[=]]. by exists [], r.
    + intros (a & b & H). left. exists b. by destruct a.
  - rewrite IH. split.
    + intros [[r Hr]|(a & b & ->)]; [by exists [], r|by exists (c :: a), b].
    + intros ([|x a] & b & H); simpl in H; [left; by exists b|].
      injection H as -> ->. right. by exists a, b.
Qed.

Lemma eq_ignore_ascii_case_refl a : eq_ignore_ascii_case a a = true.
Proof. unfold eq_ignore_ascii_case. by apply bool_decide_eq_true. Qed.

Lemma elem_of_drop_while {A} (p : A -> bool) l x : x ∈ drop_while p l -> x ∈ l.
Proof. destruct (drop_while_suffix p l) as (pre & E & _). rewrite E at 2. set_solver. Qed.
Lemma elem_of_trim s c : c ∈ trim s -> c ∈ s.
Proof.
  unfold trim, trim_matches, trim_end_matches. rewrite elem_of_reverse.
  intros H%elem_of_drop_while. rewrite elem_of_reverse in H. by apply elem_of_drop_while in H.
Qed.

(** A string whose ends are not white space is its own trim. *)
Definition trimmed (s : str) : Prop := trim s = s.

Lemma trim_no_ws s : Forall (fun c => is_whitespace c = false) s -> trim s = s.
Proof.
  intros H. unfold trim, trim_matches, trim_end_matches.
  rewrite (drop_while_none _ s), drop_while_none, reverse_involutive; [done| |done].
  by apply Forall_reverse.
Qed.

Lemma trim_end_matches_prefix p s :
  exists suf, s = trim_end_matches p s ++ suf.
Proof.
  unfold trim_end_matches. destruct (drop_while_suffix p (reverse s)) as (pre & H & _).
  exists (reverse pre). rewrite <- reverse_app, <- H. by rewrite reverse_involutive.
Qed.

Lemma drop_while_idem {A} (p : A -> bool) l : drop_while p (drop_while p l) = drop_while p l.
Proof.
  destruct (drop_while p l) as [|x r] eqn:E; [done|]. simpl.
  by rewrite (drop_while_head _ _ _ _ E).
Qed.

Lemma trim_end_matches_idem p s :
  trim_end_matches p (trim_end_matches p s) = trim_end_matches p s.
Proof. unfold trim_end_matches. by rewrite reverse_involutive, drop_while_idem. Qed.

Lemma trim_matches_idem p s : trim_matches p (trim_matches p s) = trim_matches p s.
Proof.
  unfold trim_matches at 1.
  assert (drop_while p (trim_matches p s) = trim_matches p s) as ->.
  { unfold trim_matches. destruct (trim_end_matches_prefix p (drop_while p s)) as [suf Hs].
    destruct (trim_end_matches p (drop_while p s)) as [|x r] eqn:E; [done|]. simpl.
    by rewrite (drop_while_head p s x (r ++ suf)). }
  apply trim_end_matches_idem.
Qed.

Lemma trim_idem s : trim (trim s) = trim s.
Proof. apply trim_matches_idem. Qed.

(** ** Lists *)

(** [Vec::retain] and [Iterator::filter] on a boolean test. *)
Notation retain := List.filter (only parsing).

(** [Iterator::position]. *)
Fixpoint position {A} (p : A -> bool) (l : list A) : option nat :=
  match l with
  | [] => None
  | x :: l => if p x then Some 0 else S <$> position p l
  end.

(** [let x = v.remove(i); v.insert(0, x)]. *)
Definition move_to_front {A} (i : nat) (l : list A) : list A :=
  match l !! i with
  | Some x => x :: delete i l
  | None => l
  end.

(** [<[T]>::rotate_left]. *)
Definition rotate_left {A} (n : nat) (l : list A) : list A := drop n l ++ take n l.

(** [rotation as usize % l.len()] for a non-empty [l]. *)
Definition rotation_offset (rotation : Z) (len : nat) : nat := Z.to_nat (rotation mod Z.of_nat len).

(** Appends the elements not already present, first occurrence wins. *)
Definition push_new `{EqDecision A} (acc : list A) (x : A) : list A :=
  if bool_decide (x ∈ acc) then acc else acc ++ [x].

Lemma position_Some {A} (p : A -> bool) l i :
  position p l = Some i ->
  exists x, l !! i = Some x /\ p x = true /\ Forall (fun y => p y = false) (take i l).
Proof.
  revert i. induction l as [|x l IH]; intros i; simpl; [done|].
  destruct (p x) eqn:Hx; [intros [= <-]; by exists x|].
  destruct (position p l) as [j|]; [|done]. intros [= <-].
  destruct (IH j eq_refl) as (y & ? & ? & ?). exists y. repeat split; [done..|].
  by constructor.
Qed.

Lemma position_None {A} (p : A -> bool) l :
  position p l = None <-> Forall (fun y => p y = false) l.
Proof.
  induction l as [|x l IH]; simpl; [split; [constructor|done]|].
  rewrite Forall_cons, <- IH. destruct (p x), (position p l); naive_solver.
Qed.

Lemma move_to_front_perm {A} i (l : list A) : move_to_front i l ≡ₚ l.
Proof.
  unfold move_to_front. destruct (l !! i) eqn:E; [|done].
  symmetry. by apply delete_Permutation.
Qed.

Lemma rotate_left_perm {A} n (l : list A) : rotate_left n l ≡ₚ l.
Proof. unfold rotate_left. by rewrite Permutation_app_comm, take_drop. Qed.

Lemma rotate_left_lookup {A} n (l : list A) i :
  n < length l -> i < length l ->
  rotate_left n l !! i = l !! ((i + n) mod length l).
Proof.
  intros Hn Hi. unfold rotate_left.
  destruct (decide (i < length l - n)) as [H|H].
  - rewrite lookup_app_l by (rewrite length_drop; lia).
    rewrite lookup_drop, Nat.mod_small by lia. f_equal. lia.
  - rewrite lookup_app_r by (rewrite length_drop; lia).
    rewrite length_drop.
    replace ((i + n) mod length l) with (i - (length l - n)).
    + apply lookup_take_lt. lia.
    + apply Nat.mod_unique with 1; lia.
Qed.

Lemma rotation_offset_lt rotation len : 0 < len -> rotation_offset rotation len < len.
Proof.
  intros H. unfold rotation_offset.
  pose proof (Z.mod_pos_bound rotation (Z.of_nat len)). lia.
Qed.

Lemma retain_perm_split {A} (p : A -> bool) (l : list A) :
  retain p l ++ retain (fun x => negb (p x)) l ≡ₚ l.
Proof.
  induction l as [|x l IH]; simpl; [done|].
  destruct (p x); simpl; [by rewrite IH|].
  by rewrite <- Permutation_middle, IH.
Qed.

Lemma elem_of_retain {A} (p : A -> bool) (l : list A) x :
  x ∈ retain p l <-> x ∈ l /\ p x = true.
Proof. rewrite !list_elem_of_In. apply filter_In. Qed.

Lemma retain_all {A} (p : A -> bool) (l : list A) :
  Forall (fun x => p x = true) l -> retain p l = l.
Proof. induction 1 as [|x l H _ IH]; simpl; [done|]. by rewrite H, IH. Qed.

Lemma retain_none {A} (p : A -> bool) (l : list A) :
  Forall (fun x => p x = false) l -> retain p l = [].
Proof. induction 1 as [|x l H _ IH]; simpl; [done|]. by rewrite H. Qed.

Lemma Forall_retain {A} (p : A -> bool) (l : list A) : Forall (fun x => p x = true) (retain p l).
Proof. apply Forall_forall. intros x Hx. by apply elem_of_retain in Hx as [_ ?]. Qed.

Lemma retain_and {A} (p q : A -> bool) l :
  retain p (retain q l) = retain (fun x => q x && p x) l.
Proof.
  induction l as [|x l IH]; simpl; [done|].
  destruct (q x); simpl; [destruct (p x)|]; by rewrite IH.
Qed.

Lemma retain_ext {A} (p q : A -> bool) l : (forall x, p x = q x) -> retain p l = retain q l.
Proof. intros H. induction l as [|x l IH]; simpl; [done|]. by rewrite H, IH. Qed.

#[global] Instance retain_proper {A} (p : A -> bool) :
  Proper ((≡ₚ) ==> (≡ₚ)) (retain p).
Proof.
  induction 1 as [|x l k _ IH|x y l|]; simpl; [done| | |by etrans].
  - destruct (p x); [by constructor|done].
  - destruct (p x), (p y); try done. apply perm_swap.
Qed.

Lemma push_new_NoDup `{EqDecision A} (acc : list A) x : NoDup acc -> NoDup (push_new acc x).
Proof.
  intros H. unfold push_new. case_bool_decide as E; [done|].
  apply NoDup_app. repeat split; [done| |apply NoDup_singleton]. set_solver.
Qed.

Lemma elem_of_push_new `{EqDecision A} (acc : list A) x y :
  y ∈ push_new acc x <-> y ∈ acc \/ y = x.
Proof. unfold push_new. case_bool_decide; set_solver. Qed.

(** ** Lexicographic keys and stable sorting

    Rust's [sort_by] and [sort_by_key] are stable; a stable sort has one
    possible result, which insertion from the right computes.  A key tuple is
    the list of its components as integers ([false < true] as [0 < 1]). *)

Fixpoint lex_le (a b : list Z) : bool :=
  match a, b with
  | [], _ => true
  | _ :: _, [] => false
  | x :: a, y :: b => match (x ?= y)%Z with
                      | Lt => true
                      | Eq => lex_le a b
                      | Gt => false
                      end
  end.

(** [str::cmp] is the order of the UTF-8 bytes, which is that of the scalars. *)
Definition str_le (a b : str) : bool := lex_le (Z.of_N <$> a) (Z.of_N <$> b).

Lemma lex_le_refl a : lex_le a a = true.
Proof. induction a as [|x a IH]; simpl; [done|]. by rewrite Z.compare_refl. Qed.

Lemma lex_le_total a b : lex_le a b = true \/ lex_le b a = true.
Proof.
  revert b. induction a as [|x a IH]; intros [|y b]; simpl; try naive_solver.
  rewrite (Z.compare_antisym x y). destruct (x ?= y)%Z; simpl; naive_solver.
Qed.

Lemma lex_le_trans a b c : lex_le a b = true -> lex_le b c = true -> lex_le a c = true.
Proof.
  revert b c. induction a as [|x a IH]; intros [|y b] [|z c]; simpl; try done.
  destruct (Z.compare_spec x y), (Z.compare_spec y z), (Z.compare_spec x z);
    subst; try done; try lia. apply IH.
Qed.

Lemma lex_le_antisym a b : lex_le a b = true -> lex_le b a = true -> a = b.
Proof.
  revert b. induction a as [|x a IH]; intros [|y b]; simpl; try done.
  rewrite (Z.compare_antisym x y). destruct (Z.compare_spec x y); simpl; try done.
  subst. intros. f_equal. by apply IH.
Qed.

Section stable_sort.
Context {A : Type} (le : A -> A -> bool).

Fixpoint insert_sorted (x : A) (l : list A) : list A :=
  match l with
  | [] => [x]
  | y :: r => if le x y then x :: l else y :: insert_sorted x r
  end.

Definition stable_sort (l : list A) : list A := foldr insert_sorted [] l.

Lemma insert_sorted_perm x l : insert_sorted x l ≡ₚ x :: l.
Proof.
  induction l as [|y l IH]; simpl; [done|].
  destruct (le x y); [done|]. rewrite IH. apply perm_swap.
Qed.

Lemma stable_sort_perm l : stable_sort l ≡ₚ l.
Proof. induction l as [|x l IH]; simpl; [done|]. by rewrite insert_sorted_perm, IH. Qed.

(** Elements that compare equal keep their relative order. *)
Lemma stable_sort_stable (p : A -> bool) l :
  (forall x y, p x = true -> p y = true -> le x y = true) ->
  retain p (stable_sort l) = retain p l.
Proof.
  intros Hp. induction l as [|x l IH]; simpl; [done|].
  rewrite <- IH. generalize (stable_sort l) as k. clear IH l.
  induction k as [|y k IH]; simpl; [done|].
  destruct (le x y) eqn:Hxy; simpl; [done|]. rewrite IH.
  destruct (p x) eqn:Hx, (p y) eqn:Hy; try done.
  by rewrite Hp in Hxy.
Qed.

Hypothesis le_total : forall x y, le x y = true \/ le y x = true.
Hypothesis le_trans : forall x y z, le x y = true -> le y z = true -> le x z = true.

Lemma insert_sorted_sorted x l :
  StronglySorted (fun a b => le a b = true) l ->
  StronglySorted (fun a b => le a b = true) (insert_sorted x l).
Proof.
  induction 1 as [|y l Hl IH Hy]; simpl; [repeat constructor|].
  destruct (le x y) eqn:Hxy.
  - constructor; [by constructor|]. constructor; [done|].
    eapply Forall_impl; [exact Hy|]. intros z Hz. by eapply le_trans.
  - constructor; [done|]. destruct (le_total x y) as [?|Hyx]; [congruence|].
    rewrite insert_sorted_perm. by constructor.
Qed.

Lemma stable_sort_sorted l : StronglySorted (fun a b => le a b = true) (stable_sort l).
Proof. induction l; simpl; [constructor|by apply insert_sorted_sorted]. Qed.

Lemma insert_sorted_retain (p : A -> bool) x l :
  StronglySorted (fun a b => le a b = true) l ->
  retain p (insert_sorted x l) =
  if p x then insert_sorted x (retain p l) else retain p l.
Proof.
  induction 1 as [|y l Hl IH Hy]; simpl; [by destruct (p x)|].
  destruct (le x y) eqn:Hxy; simpl.
  - destruct (p x); [|done]. destruct (p y); simpl; [by rewrite Hxy|].
    assert (Hall : Forall (fun z => le x z = true) (retain p l)).
    { apply Forall_forall. intros z [Hz _]%elem_of_retain.
      rewrite Forall_forall in Hy. eapply le_trans; [exact Hxy|by apply Hy]. }
    destruct Hall as [|z k Hz _]; simpl; [done|]. by rewrite Hz.
  - rewrite IH. destruct (p x), (p y); simpl; try done. by rewrite Hxy.
Qed.

(** Filtering before or after a stable sort is the same. *)
Lemma stable_sort_retain (p : A -> bool) l :
  retain p (stable_sort l) = stable_sort (retain p l).
Proof.
  induction l as [|x l IH]; simpl; [done|].
  rewrite insert_sorted_retain by apply stable_sort_sorted.
  rewrite IH. by destruct (p x).
Qed.

Lemma stable_sort_id l :
  StronglySorted (fun a b => le a b = true) l -> stable_sort l = l.
Proof.
  induction 1 as [|x l Hl IH Hx]; simpl; [done|]. rewrite IH.
  destruct Hx as [|y l' Hy _]; simpl; [done|]. by rewrite Hy.
Qed.
End stable_sort.

(** [v.sort_by_key(key)]. *)
Definition sort_by_key {A} (key : A -> list Z) (l : list A) : list A :=
  stable_sort (fun x y => lex_le (key x) (key y)) l.

Definition key_sorted {A} (key : A -> list Z) (l : list A) : Prop :=
  StronglySorted (fun x y => lex_le (key x) (key y) = true) l.

Section sort_by_key.
Context {A : Type} (key : A -> list Z).

Lemma sort_by_key_perm l : sort_by_key key l ≡ₚ l.
Proof. apply stable_sort_perm. Qed.

Lemma sort_by_key_sorted l : key_sorted key (sort_by_key key l).
Proof. apply stable_sort_sorted; [intros; apply lex_le_total|intros ???; apply lex_le_trans]. Qed.

Lemma sort_by_key_retain (p : A -> bool) l :
  retain p (sort_by_key key l) = sort_by_key key (retain p l).
Proof. apply stable_sort_retain; [intros; apply lex_le_total|intros ???; apply lex_le_trans]. Qed.

(** In a sorted list without duplicate keys, the elements strictly above
    one of them are those after it. *)
Lemma key_sorted_after pre x post :
  key_sorted key (pre ++ x :: post) -> NoDup (key <$> pre ++ x :: post) ->
  retain (fun y => negb (lex_le (key y) (key x))) (pre ++ x :: post) = post.
Proof.
  unfold key_sorted. induction pre as [|z pre IH]; simpl.
  - intros [_ Hx]%StronglySorted_inv [Hn _]%NoDup_cons. rewrite lex_le_refl. simpl.
    apply retain_all, Forall_forall. intros y Hy.
    destruct (lex_le (key y) (key x)) eqn:E; [|done]. exfalso. apply Hn.
    rewrite Forall_forall in Hx. rewrite (lex_le_antisym _ _ (Hx y Hy) E).
    by apply list_elem_of_fmap_2.
  - intros [Hs Hz]%StronglySorted_inv [Hn Hd]%NoDup_cons.
    rewrite Forall_forall in Hz. rewrite (Hz x) by set_solver. simpl. by apply IH.
Qed.

(** The elements of one key keep their order. *)
Lemma sort_by_key_stable k l :
  retain (fun x => bool_decide (key x = k)) (sort_by_key key l) =
  retain (fun x => bool_decide (key x = k)) l.
Proof.
  apply stable_sort_stable. intros x y ->%bool_decide_eq_true ->%bool_decide_eq_true.
  apply lex_le_refl.
Qed.
End sort_by_key.

Create HintDb perms.
#[export] Hint Rewrite @move_to_front_perm @rotate_left_perm @stable_sort_perm
  @sort_by_key_perm : perms.
#[export] Hint Resolve move_to_front_perm rotate_left_perm stable_sort_perm
  sort_by_key_perm retain_perm_split : perms.

(** Closes a goal [f l ≡ₚ l] for the reorderings above. *)
Ltac perm := autorewrite with perms; auto with perms.

Lemma forallb_Forall {A} (p : A -> bool) (l : list A) :
  forallb p l = true <-> Forall (fun x => p x = true) l.
Proof. rewrite forallb_forall, Forall_forall. by setoid_rewrite list_elem_of_In. Qed.

Lemma existsb_elem {A} (p : A -> bool) (l : list A) :
  existsb p l = true <-> exists x, x ∈ l /\ p x = true.
Proof. rewrite existsb_exists. by setoid_rewrite list_elem_of_In. Qed.

Lemma length_omap {A B} (f : A -> option B) (l : list A) : length (omap f l) <= length l.
Proof. induction l as [|x l IH]; csimpl; [done|]. destruct (f x); simpl; lia. Qed.

(** ** Loops with an accumulator *)

(** [for x in l { s = f(s, x)?; }]. *)
Fixpoint for_fold {S A E} (f : S -> A -> result S E) (s : S) (l : list A) : result S E :=
  match l with
  | [] => Ok s
  | x :: l => let? s := f s x in for_fold f s l
  end.

Lemma Forall_key_not_in_app {A K} (key : A -> K) (k : K) (seen : list K) (l : list A) :
  Forall (fun x => key x ∉ seen ++ [k]) l <->
  Forall (fun x => key x ∉ seen) l /\ k ∉ key <$> l.
Proof.
  rewrite list_elem_of_fmap, !Forall_forall. setoid_rewrite elem_of_app.
  setoid_rewrite list_elem_of_singleton. naive_solver.
Qed.

Lemma Forall_key_not_in_nil {A K} (key : A -> K) (l : list A) : Forall (fun x => key x ∉ []) l.
Proof. apply Forall_forall. intros x _. apply not_elem_of_nil. Qed.

(** A loop that checks each element and refuses a key it has already seen. *)
Lemma for_fold_seen {A K E} (f : list K -> A -> result (list K) E) (P : A -> Prop)
  (key : A -> K) (l : list A) (seen : list K) :
  (forall s x s', f s x = Ok s' <-> P x /\ key x ∉ s /\ s' = s ++ [key x]) ->
  (exists s', for_fold f seen l = Ok s') <->
  Forall P l /\ NoDup (key <$> l) /\ Forall (fun x => key x ∉ seen) l.
Proof.
  intros Hf. revert seen. induction l as [|x l IH]; intros seen; simpl.
  - split; [intros _; repeat constructor|by eexists].
  - setoid_rewrite bind_ok. rewrite !Forall_cons, NoDup_cons. split.
    + intros (s' & s1 & (Hp & Hn & ->)%Hf & Hrest).
      destruct (proj1 (IH (seen ++ [key x]))) as (HP & Hd & Ha%Forall_key_not_in_app); [by eexists|].
      naive_solver.
    + intros ((Hp & HP) & (Hx & Hd) & Hn & Ha).
      destruct (proj2 (IH (seen ++ [key x]))) as [s' Hs']; [by rewrite Forall_key_not_in_app|].
      exists s', (seen ++ [key x]). split; [by apply Hf|done].
Qed.

Lemma for_fold_inv {S A E} (f : S -> A -> result S E) (I : S -> Prop) (l : list A) (s s' : S) :
  (forall s x s', x ∈ l -> I s -> f s x = Ok s' -> I s') ->
  I s -> for_fold f s l = Ok s' -> I s'.
Proof.
  revert s. induction l as [|x l IH]; intros s Hf Hs; simpl; [by intros [= <-]|].
  intros (s1 & H1 & H2)%bind_ok. eapply (IH s1); [|by eapply Hf; [apply list_elem_of_here|..]|done].
  intros. eapply Hf; [by apply list_elem_of_further|done..].
Qed.

(** ** White space at the ends *)

Lemma trim_end_matches_last p s c :
  trim_end_matches p s = s -> last s = Some c -> p c = false.
Proof.
  unfold trim_end_matches. intros H Hl. apply last_Some in Hl as [l ->].
  rewrite reverse_app in H. simpl in H. destruct (p c) eqn:Hc; [|done].
  exfalso. apply (f_equal length) in H. rewrite length_reverse, length_app in H.
  destruct (drop_while_suffix p (reverse l)) as (pre & Hpre & _).
  apply (f_equal length) in Hpre. rewrite length_reverse, length_app in Hpre.
  simpl in H. lia.
Qed.

Lemma trim_ends s :
  (forall c, head s = Some c -> is_whitespace c = false) ->
  (forall c, last s = Some c -> is_whitespace c = false) -> trim s = s.
Proof.
  intros Hh Hl. unfold trim, trim_matches, trim_end_matches.
  assert (drop_while is_whitespace s = s) as ->.
  { destruct s as [|c s]; simpl; [done|]. by rewrite Hh. }
  destruct (reverse s) as [|c l] eqn:E.
  - apply (f_equal reverse) in E. by rewrite reverse_involutive in E.
  - simpl. apply (f_equal reverse) in E. rewrite reverse_involutive, reverse_cons in E.
    rewrite Hl by (by rewrite E, last_snoc). by rewrite E, reverse_cons.
Qed.

Lemma trimmed_last s c : trim s = s -> last s = Some c -> is_whitespace c = false.
Proof.
  intros H. apply trim_end_matches_last. rewrite <- H. unfold trim, trim_matches.
  apply trim_end_matches_idem.
Qed.

Lemma trim_submseteq s : trim s ⊆ s.
Proof.
  intros c Hc. unfold trim, trim_matches in Hc.
  destruct (drop_while_suffix is_whitespace s) as (pre & Hs & _).
  destruct (trim_end_matches_prefix is_whitespace (drop_while is_whitespace s)) as [suf Hd].
  rewrite Hs, Hd. set_solver.
Qed.

Lemma trim_space s : trim (32%N :: s) = trim s.
Proof. reflexivity. Qed.

(** ** Sorting by a key that splits the list *)

(** [iter().take_while(p).count()]. *)
Fixpoint count_while {A} (p : A -> bool) (l : list A) : nat :=
  match l with
  | [] => 0
  | x :: l => if p x then S (count_while p l) else 0
  end.

Lemma stable_sort_ext {A} (le le' : A -> A -> bool) l :
  (forall x y, x ∈ l -> y ∈ l -> le x y = le' x y) -> stable_sort le l = stable_sort le' l.
Proof.
  induction l as [|x l IH]; intros H; [done|]. unfold stable_sort in *. simpl.
  rewrite IH by (intros; apply H; by apply list_elem_of_further).
  assert (Hin : forall y, y ∈ foldr (insert_sorted le') [] l -> y ∈ l).
  { intros y. change (foldr _ _ _) with (stable_sort le' l). by rewrite stable_sort_perm. }
  revert Hin. generalize (foldr (insert_sorted le') [] l) as k. clear IH. intros k Hin.
  induction k as [|y k IHk]; simpl; [done|].
  rewrite H; [|apply list_elem_of_here|apply list_elem_of_further, Hin, list_elem_of_here].
  destruct (le' x y); [done|]. f_equal. apply IHk. intros z Hz. apply Hin.
  by apply list_elem_of_further.
Qed.

Lemma sort_by_key_ext {A} (k k' : A -> list Z) l :
  (forall x y, x ∈ l -> y ∈ l -> lex_le (k x) (k y) = lex_le (k' x) (k' y)) ->
  sort_by_key k l = sort_by_key k' l.
Proof. apply stable_sort_ext. Qed.

(** A sorted list whose order puts [p] first is its [p] part, then the rest. *)
Lemma count_while_split {A} (le : A -> A -> Prop) (p : A -> bool) l :
  (forall x y, le x y -> p y = true -> p x = true) -> StronglySorted le l ->
  take (count_while p l) l = retain p l /\
  drop (count_while p l) l = retain (fun x => negb (p x)) l.
Proof.
  intros Hle. induction 1 as [|x l _ [IH1 IH2] Hx]; [done|]. simpl.
  destruct (p x) eqn:Ep; simpl; [by rewrite IH1, IH2|].
  assert (Hall : Forall (fun y => p y = false) l).
  { eapply Forall_impl; [exact Hx|]. intros y Hy. destruct (p y) eqn:E; [|done].
    by rewrite (Hle x y) in Ep. }
  rewrite retain_none by done. split; [done|]. f_equal. symmetry. apply retain_all.
  eapply Forall_impl; [exact Hall|]. by intros y ->.
Qed.

Lemma retain_delete_false {A} (p : A -> bool) l i x :
  l !! i = Some x -> p x = false -> retain p (delete i l) = retain p l.
Proof.
  intros Hx Hp. rewrite <- (take_drop_middle l i x Hx) at 2.
  rewrite delete_take_drop, !List.filter_app. simpl. by rewrite Hp.
Qed.

Lemma retain_move_to_front_false {A} (p : A -> bool) l i x :
  l !! i = Some x -> p x = false -> retain p (move_to_front i l) = retain p l.
Proof.
  intros Hx Hp. unfold move_to_front. rewrite Hx. simpl. rewrite Hp.
  by apply retain_delete_false with x.
Qed.

Lemma eq_Permutation {A} (l k : list A) : l = k -> l ≡ₚ k.
Proof. by intros ->. Qed.

(** The heads of all rotations of a list are the list. *)
Lemma omap_lookup_seq {A} (l : list A) : omap (fun i => l !! i) (seq 0 (length l)) = l.
Proof.
  assert (H : forall k, omap (fun i => l !! i) (seq k (length l - k)) = drop k l).
  { intros k. remember (length l - k) as n eqn:Hn. revert k Hn.
    induction n as [|n IH]; intros k Hn; csimpl; [by rewrite drop_ge by lia|].
    destruct (l !! k) as [x|] eqn:E; [|apply lookup_ge_None in E; lia].
    rewrite (drop_S l x k E). f_equal. apply IH. lia. }
  specialize (H 0). by rewrite Nat.sub_0_r in H.
Qed.

Lemma head_rotate_left {A} n (l : list A) : n < length l -> head (rotate_left n l) = l !! n.
Proof.
  intros H. rewrite head_lookup, rotate_left_lookup by lia.
  f_equal. by rewrite Nat.mod_small.
Qed.

Lemma rotations_heads {A} (start : nat) (l : list A) :
  omap (fun j => l !! ((j + start) mod length l)) (seq 0 (length l)) ≡ₚ l.
Proof.
  destruct (decide (length l = 0)) as [H0|H0].
  { apply length_zero_iff_nil in H0. by subst. }
  set (m := start mod length l).
  assert (Hm : m < length l) by (by apply Nat.mod_upper_bound).
  transitivity (rotate_left m l); [|apply rotate_left_perm].
  assert (Hlen : length (rotate_left m l) = length l)
    by (apply Permutation_length, rotate_left_perm).
  rewrite <- (omap_lookup_seq (rotate_left m l)), Hlen. apply eq_Permutation.
  apply list_omap_ext, Forall_Forall2_diag, Forall_seq. intros j Hj. simpl in *.
  rewrite rotate_left_lookup by lia. f_equal. unfold m. by rewrite Nat.Div0.add_mod_idemp_r.
Qed.

Lemma StronglySorted_delete {A} (R : A -> A -> Prop) i l :
  StronglySorted R l -> StronglySorted R (delete i l).
Proof.
  intros H. revert i. induction H as [|x l Hl IH Hx]; intros [|i]; simpl; try constructor; try done.
  by apply Forall_delete.
Qed.

Lemma StronglySorted_weaken {A} (R R' : A -> A -> Prop) l :
  (forall x y, R x y -> R' x y) -> StronglySorted R l -> StronglySorted R' l.
Proof.
  intros HR. induction 1 as [|x l _ IH Hx]; constructor; [done|].
  eapply Forall_impl; [exact Hx|]. intros y. apply HR.
Qed.

Lemma lex_le_single x y : lex_le [x] [y] = true <-> (x <= y)%Z.
Proof. simpl. destruct (Z.compare_spec x y); naive_solver lia. Qed.

(** Sorting by one integer. *)
Lemma sort_by_int_sorted {A} (f : A -> Z) l :
  StronglySorted (fun a b => f a <= f b)%Z (sort_by_key (fun x => [f x]) l).
Proof.
  eapply StronglySorted_weaken; [|apply sort_by_key_sorted].
  intros x y. apply lex_le_single.
Qed.

Lemma StronglySorted_lookup_lt {A} (R : A -> A -> Prop) l i j x y :
  StronglySorted R l -> l !! i = Some x -> l !! j = Some y -> i < j -> R x y.
Proof.
  intros H. revert i j. induction H as [|z l Hl IH Hz]; intros i j Hi Hj Hlt; [done|].
  destruct j as [|j]; [lia|]. destruct i as [|i]; simpl in *.
  - injection Hi as ->. rewrite Forall_lookup in Hz. by eapply Hz.
  - apply (IH i j); [done|done|lia].
Qed.

Lemma drop_while_length {A} (p : A -> bool) l : length (drop_while p l) <= length l.
Proof. induction l as [|x l IH]; simpl; [done|]. destruct (p x); simpl; lia. Qed.

Lemma trimmed_head s c : trim s = s -> head s = Some c -> is_whitespace c = false.
Proof.
  intros H Hc. destruct s as [|x s]; [done|]. injection Hc as ->.
  destruct (is_whitespace c) eqn:E; [|done]. exfalso. apply (f_equal length) in H.
  unfold trim, trim_matches in H. cbn [drop_while] in H. rewrite E in H.
  destruct (trim_end_matches_prefix is_whitespace (drop_while is_whitespace s)) as [suf Hd].
  pose proof (drop_while_length is_whitespace s) as Hl. apply (f_equal length) in Hd.
  rewrite length_app in Hd. cbn [length] in H. lia.
Qed.

(** Trimmed text stays trimmed when text that ends in no blank is appended. *)
Lemma trim_app s t :
  trim s = s -> s <> [] -> (forall c, last t = Some c -> is_whitespace c = false) ->
  trim (s ++ t) = s ++ t.
Proof.
  intros Hs Hne Ht. apply trim_ends.
  - intros c Hc. destruct s as [|x s]; [done|]. by apply (trimmed_head (x :: s)).
  - intros c Hc. destruct t as [|y t] using rev_ind; [|].
    + rewrite app_nil_r in Hc. by apply (trimmed_last s).
    + apply Ht. by rewrite (assoc (++)), !last_snoc in *.
Qed.

(** ** The one element a test keeps *)

Lemma retain_unique {A} (p : A -> bool) (l : list A) (x : A) :
  NoDup l -> x ∈ l -> p x = true -> (forall y, y ∈ l -> p y = true -> y = x) ->
  retain p l = [x].
Proof.
  intros Hd Hin Hx Hu. induction Hd as [|y l Hy Hd IH]; [by apply not_elem_of_nil in Hin|].
  simpl. destruct (p y) eqn:E.
  - assert (y = x) as -> by (by apply Hu; [apply list_elem_of_here|]).
    f_equal. apply retain_none, Forall_forall. intros z Hz.
    destruct (p z) eqn:Ez; [|done]. destruct Hy.
    by rewrite <- (Hu z (list_elem_of_further _ _ _ Hz) Ez).
  - apply IH.
    + apply elem_of_cons in Hin as [->|]; [congruence|done].
    + intros z Hz. apply Hu. by apply list_elem_of_further.
Qed.

Lemma length_le_1 {A} (l : list A) x y : length l <= 1 -> x ∈ l -> y ∈ l -> x = y.
Proof.
  destruct l as [|a [|b l]]; intros Hl Hx Hy; [by apply not_elem_of_nil in Hx| |simpl in Hl; lia].
  apply list_elem_of_singleton in Hx as ->. by apply list_elem_of_singleton in Hy as ->.
Qed.

Lemma find_unique {A K} `{EqDecision K} (key : A -> K) (l : list A) (x : A) :
  NoDup (key <$> l) -> x ∈ l -> List.find (fun y => bool_decide (key y = key x)) l = Some x.
Proof.
  induction l as [|y l IH]; intros Hd Hx; [by apply not_elem_of_nil in Hx|]. csimpl.
  apply NoDup_cons in Hd as [Hy Hd]. apply elem_of_cons in Hx as [->|Hx].
  - by rewrite bool_decide_eq_true_2.
  - rewrite bool_decide_eq_false_2; [by apply IH|].
    intros Heq. apply Hy. rewrite Heq. by apply list_elem_of_fmap_2.
Qed.
