(* ===== verification/CoreTypes.v ===== *)
(** The shared vocabulary of the product: the structured error of
    crates/core/src/error.rs and the prefixed identifiers of
    crates/core/src/ids.rs. *)
From S2P Require Import Prelude.
From stdpp Require Import prelude strings list pretty.
From Stdlib Require Import NArith ZArith Lia.

(** ** Errors (core/src/error.rs) *)

Inductive ErrorCategory : Type :=
| Validation | Capability | Permission | Provider | Process | Storage | Remote | Conflict.

Record RedactedDiagnostic : Type := mkDiagnostic { diag_key : str; diag_value : str }.

Record VibexError : Type := mkVibexError {
  err_category : ErrorCategory;
  err_code : str;
  err_message : str;
  err_recovery_hint : option str;
  err_correlation_id : option ident;
  err_diagnostics : list RedactedDiagnostic
}.

Abbreviation VibexResult A := (result A VibexError).

Definition VibexError_new (category : ErrorCategory) (code message : str) : VibexError :=
  {| err_category := category; err_code := code; err_message := message;
     err_recovery_hint := None; err_correlation_id := None; err_diagnostics := [] |}.

Definition VibexError_validation (code message : str) : VibexError :=
  VibexError_new Validation code message.
Definition VibexError_conflict (code message : str) : VibexError :=
  VibexError_new Conflict code message.

Definition with_diagnostic (e : VibexError) (key value : str) : VibexError :=
  {| err_category := err_category e; err_code := err_code e; err_message := err_message e;
     err_recovery_hint := err_recovery_hint e; err_correlation_id := err_correlation_id e;
     err_diagnostics := err_diagnostics e ++ [mkDiagnostic key value] |}.

(** A validation error from ASCII literals. *)
Definition invalid (code message : string) : VibexError :=
  VibexError_validation (lit code) (lit message).

(** [u64::to_string]. *)
Definition decimal (z : Z) : str := lit (pretty (Z.to_N z)).

#[export] Instance ErrorCategory_eq_dec : EqDecision ErrorCategory.
Proof. solve_decision. Defined.
#[export] Instance RedactedDiagnostic_eq_dec : EqDecision RedactedDiagnostic.
Proof. solve_decision. Defined.
#[export] Instance VibexError_eq_dec : EqDecision VibexError.
Proof. solve_decision. Defined.

(** ** Identifiers (core/src/ids.rs, macro [vibex_id!]) *)

Record id_kind : Type := mkIdKind { id_name : string; id_prefix : string }.

Definition ModelProviderProfileId : id_kind := mkIdKind "ModelProviderProfileId" "model_provider".
Definition ModelRouteId : id_kind := mkIdKind "ModelRouteId" "model_route".
Definition ModelRouteMemberId : id_kind := mkIdKind "ModelRouteMemberId" "model_route_member".
Definition RequestId : id_kind := mkIdKind "RequestId" "request".

(** [Id::parse]: the prefix, an underscore and at least one more byte. *)
Definition id_parse (k : id_kind) (value : str) : VibexResult ident :=
  if starts_with (lit (id_prefix k) ++ lit "_") value
     && (String.length (id_prefix k) + 1 <? utf8_len value)
  then Ok value
  else Err (VibexError_validation (lit "invalid_id")
              (lit "expected " ++ lit (id_name k) ++ lit " id with '"
               ++ lit (id_prefix k) ++ lit "' prefix")).

(** [Id::new] prefixes a generated suffix ([Uuid::new_v4().simple()]). *)
Definition id_new (k : id_kind) (uuid : str) : ident := lit (id_prefix k) ++ lit "_" ++ uuid.

Lemma utf8_len_app a b : utf8_len (a ++ b) = utf8_len a + utf8_len b.
Proof. unfold utf8_len. by rewrite fmap_app, list_sum_app. Qed.

Lemma utf8_len_cons c s : utf8_len (c :: s) = utf8_width c + utf8_len s.
Proof. reflexivity. Qed.

Lemma utf8_width_pos c : 1 <= utf8_width c.
Proof. unfold utf8_width. repeat case_match; lia. Qed.

Lemma utf8_len_pos s : s <> [] -> 0 < utf8_len s.
Proof.
  destruct s as [|c s]; [done|]. intros _. rewrite utf8_len_cons.
  pose proof (utf8_width_pos c). lia.
Qed.

Lemma length_le_utf8_len s : length s <= utf8_len s.
Proof.
  induction s as [|c s IH]; [done|]. rewrite utf8_len_cons. simpl.
  pose proof (utf8_width_pos c). lia.
Qed.

Lemma id_parse_ok k value v :
  id_parse k value = Ok v -> v = value /\ exists s, value = lit (id_prefix k) ++ lit "_" ++ s.
Proof.
  unfold id_parse. destruct (starts_with _ _) eqn:E; [|done].
  destruct (_ <? _); [|done]. intros [= <-]. split; [done|].
  apply starts_with_spec in E as [s Hs]. exists s. by rewrite Hs, <- app_assoc.
Qed.
