(* ===== verification/GatewayTypes.v ===== *)
(** The gateway contracts of crates/core/src/model_gateway.rs: the closed
    enumerations and their persisted ids, the durable policy and its
    validation, the listener's runtime state, the per-Key account state, the
    request ledger row and the model reference. *)
From S2P Require Import Prelude CoreTypes.
From stdpp Require Import prelude strings list pretty.
From Stdlib Require Import NArith ZArith Lia.

(** ** Closed enumerations with persisted ids *)

Inductive GatewayRoutingStrategy : Type := KeyOrdered | KeyRoundRobin | KeyLeastUsed.

Definition GatewayRoutingStrategy_ALL : list GatewayRoutingStrategy :=
  [KeyOrdered; KeyRoundRobin; KeyLeastUsed].
Definition GatewayRoutingStrategy_id (s : GatewayRoutingStrategy) : str :=
  match s with
  | KeyOrdered => lit "ordered"
  | KeyRoundRobin => lit "round_robin"
  | KeyLeastUsed => lit "least_used"
  end.

(** [ALL.into_iter().find(|x| x.id() == value.trim())]. *)
Definition find_by_id {A} (all : list A) (id : A -> str) (value : str) : option A :=
  List.find (fun x => bool_decide (id x = trim value)) all.

Definition GatewayRoutingStrategy_from_id (value : str) : option GatewayRoutingStrategy :=
  find_by_id GatewayRoutingStrategy_ALL GatewayRoutingStrategy_id value.

Inductive GatewayFailoverAnswer : Type := AnswerSwitch | AnswerStay | AnswerAlwaysSwitch.
Definition GatewayFailoverAnswer_id (a : GatewayFailoverAnswer) : str :=
  match a with
  | AnswerSwitch => lit "switch"
  | AnswerStay => lit "stay"
  | AnswerAlwaysSwitch => lit "always_switch"
  end.

Inductive GatewayPinScope : Type := PinOff | PinConversation.
Definition GatewayPinScope_ALL : list GatewayPinScope := [PinOff; PinConversation].
Definition GatewayPinScope_id (s : GatewayPinScope) : str :=
  match s with PinOff => lit "off" | PinConversation => lit "conversation" end.
Definition GatewayPinScope_from_id (value : str) : option GatewayPinScope :=
  find_by_id GatewayPinScope_ALL GatewayPinScope_id value.

Inductive GatewayFailover : Type := FailoverAuto | FailoverAsk.
Definition GatewayFailover_ALL : list GatewayFailover := [FailoverAuto; FailoverAsk].
Definition GatewayFailover_id (f : GatewayFailover) : str :=
  match f with FailoverAuto => lit "auto" | FailoverAsk => lit "ask" end.
Definition GatewayFailover_from_id (value : str) : option GatewayFailover :=
  find_by_id GatewayFailover_ALL GatewayFailover_id value.

Inductive GatewayTokenWindow : Type := WindowDay | WindowWeek | WindowMonth.
Definition GatewayTokenWindow_id (w : GatewayTokenWindow) : str :=
  match w with WindowDay => lit "day" | WindowWeek => lit "week" | WindowMonth => lit "month" end.
Definition GatewayTokenWindow_duration_ms (w : GatewayTokenWindow) : Z :=
  let day_ms := (24 * 60 * 60 * 1000)%Z in
  match w with WindowDay => day_ms | WindowWeek => 7 * day_ms | WindowMonth => 30 * day_ms end%Z.

Inductive GatewayFailureKind : Type :=
| KindCredit | KindQuota | KindRate | KindAuth | KindProxy | KindUpstream | KindOther.
Definition GatewayFailureKind_all : list GatewayFailureKind :=
  [KindCredit; KindQuota; KindRate; KindAuth; KindProxy; KindUpstream; KindOther].
Definition GatewayFailureKind_id (k : GatewayFailureKind) : str :=
  match k with
  | KindCredit => lit "credit"
  | KindQuota => lit "quota"
  | KindRate => lit "rate"
  | KindAuth => lit "auth"
  | KindProxy => lit "proxy"
  | KindUpstream => lit "upstream"
  | KindOther => lit "other"
  end.
Definition GatewayFailureKind_from_id (value : str) : option GatewayFailureKind :=
  find_by_id GatewayFailureKind_all GatewayFailureKind_id value.
Definition cooldown_ms (k : GatewayFailureKind) : option Z :=
  match k with
  | KindCredit => Some (30 * 60 * 1000)
  | KindQuota => Some (15 * 60 * 1000)
  | KindRate => Some (30 * 1000)
  | KindAuth => None
  | KindProxy => Some (60 * 1000)
  | KindUpstream | KindOther => Some (10 * 1000)
  end%Z.
Definition should_fail_over (k : GatewayFailureKind) : bool := true.

Inductive GatewayRequestOutcome : Type :=
| OutcomeOk | OutcomeFailover | OutcomeCooldown | OutcomeRejected | OutcomeFailed.
Definition GatewayRequestOutcome_all : list GatewayRequestOutcome :=
  [OutcomeOk; OutcomeFailover; OutcomeCooldown; OutcomeRejected; OutcomeFailed].
Definition GatewayRequestOutcome_id (o : GatewayRequestOutcome) : str :=
  match o with
  | OutcomeOk => lit "ok"
  | OutcomeFailover => lit "failover"
  | OutcomeCooldown => lit "cooldown"
  | OutcomeRejected => lit "rejected"
  | OutcomeFailed => lit "failed"
  end.
Definition GatewayRequestOutcome_from_id (value : str) : option GatewayRequestOutcome :=
  find_by_id GatewayRequestOutcome_all GatewayRequestOutcome_id value.

#[export] Instance GatewayRoutingStrategy_eq_dec : EqDecision GatewayRoutingStrategy.
Proof. solve_decision. Defined.
#[export] Instance GatewayPinScope_eq_dec : EqDecision GatewayPinScope.
Proof. solve_decision. Defined.
#[export] Instance GatewayFailover_eq_dec : EqDecision GatewayFailover.
Proof. solve_decision. Defined.
#[export] Instance GatewayTokenWindow_eq_dec : EqDecision GatewayTokenWindow.
Proof. solve_decision. Defined.
#[export] Instance GatewayFailureKind_eq_dec : EqDecision GatewayFailureKind.
Proof. solve_decision. Defined.
#[export] Instance GatewayRequestOutcome_eq_dec : EqDecision GatewayRequestOutcome.
Proof. solve_decision. Defined.

(** ** Durable policy *)

Record GatewayTokenLimit : Type := mkTokenLimit { tl_window : GatewayTokenWindow; tl_tokens : Z }.
#[export] Instance GatewayTokenLimit_eq_dec : EqDecision GatewayTokenLimit.
Proof. solve_decision. Defined.

Definition GatewayTokenLimit_validate (l : GatewayTokenLimit) : VibexResult unit :=
  reject (tl_tokens l =? 0)%Z with
    (invalid "model_gateway_token_limit_invalid" "a token limit must be greater than zero") ;;
  Ok tt.

(** The wire protocol ids of core/src/provider_projection.rs. *)
Definition WIRE_PROTOCOL_OPENAI_RESPONSES : str := lit "openai_responses".
Definition WIRE_PROTOCOL_OPENAI_CHAT_COMPLETIONS : str := lit "openai_chat_completions".
Definition WIRE_PROTOCOL_ANTHROPIC_MESSAGES : str := lit "anthropic_messages".
Definition WIRE_PROTOCOL_GOOGLE_GENERATIVE_AI : str := lit "google_generative_ai".

Record GatewayTranslatePolicy : Type := mkTranslatePolicy {
  tp_openai_chat_completions : bool;
  tp_openai_responses : bool;
  tp_anthropic_messages : bool;
  tp_google_generative_ai : bool
}.
Definition GatewayTranslatePolicy_default : GatewayTranslatePolicy :=
  mkTranslatePolicy true true true true.
Definition GatewayTranslatePolicy_allows (p : GatewayTranslatePolicy) (id : str) : bool :=
  if bool_decide (id = WIRE_PROTOCOL_OPENAI_CHAT_COMPLETIONS) then tp_openai_chat_completions p
  else if bool_decide (id = WIRE_PROTOCOL_OPENAI_RESPONSES) then tp_openai_responses p
  else if bool_decide (id = WIRE_PROTOCOL_ANTHROPIC_MESSAGES) then tp_anthropic_messages p
  else if bool_decide (id = WIRE_PROTOCOL_GOOGLE_GENERATIVE_AI) then tp_google_generative_ai p
  else true.

Record GatewayAccountLimits : Type := mkAccountLimits {
  al_max_concurrency : option Z;
  al_max_rpm : option Z;
  al_queue_limit : option Z;
  al_queue_wait_ms : option Z
}.
Definition GatewayAccountLimits_default : GatewayAccountLimits :=
  mkAccountLimits None None None None.
Definition DEFAULT_QUEUE_WAIT_MS : Z := 30000.
Definition GatewayAccountLimits_is_configured (l : GatewayAccountLimits) : bool :=
  bool_decide (is_Some (al_max_concurrency l)) || bool_decide (is_Some (al_max_rpm l)).
Definition GatewayAccountLimits_validate (l : GatewayAccountLimits) : VibexResult unit :=
  reject (bool_decide (al_max_concurrency l = Some 0%Z)) with
    (invalid "model_gateway_concurrency_invalid" "a concurrency limit must be at least one") ;;
  reject (bool_decide (al_max_rpm l = Some 0%Z)) with
    (invalid "model_gateway_rpm_invalid" "an RPM limit must be at least one") ;;
  reject (bool_decide (al_queue_limit l = Some 0%Z)) with
    (invalid "model_gateway_queue_limit_invalid" "a queue limit must be at least one") ;;
  reject (bool_decide (al_queue_wait_ms l = Some 0%Z)) with
    (invalid "model_gateway_queue_wait_invalid" "a queue wait must be at least one millisecond") ;;
  Ok tt.
Definition GatewayAccountLimits_queue_wait (l : GatewayAccountLimits) : Z :=
  default DEFAULT_QUEUE_WAIT_MS (al_queue_wait_ms l).

(** A [BTreeMap] is the association list of its entries in key order. *)
Definition btree_get {K V} `{EqDecision K} (k : K) (m : list (K * V)) : option V :=
  snd <$> List.find (fun e => bool_decide (e.1 = k)) m.

Record GatewayPolicy : Type := mkPolicy {
  gp_enabled : bool;
  gp_token_limit : option GatewayTokenLimit;
  gp_translate : GatewayTranslatePolicy;
  gp_account_limits : list (ident * GatewayAccountLimits);
  gp_preferred_keys : list (ident * ident);
  gp_error_rate_warn_percent : option Z;
  gp_latency_warn_ms : option Z;
  gp_default_connect_timeout_ms : option Z;
  gp_default_request_timeout_ms : option Z;
  gp_default_stream_idle_timeout_ms : option Z;
  gp_cooldown_overrides_ms : list (str * Z)
}.
Definition GatewayPolicy_default : GatewayPolicy :=
  {| gp_enabled := true; gp_token_limit := None; gp_translate := GatewayTranslatePolicy_default;
     gp_account_limits := []; gp_preferred_keys := []; gp_error_rate_warn_percent := None;
     gp_latency_warn_ms := None; gp_default_connect_timeout_ms := None;
     gp_default_request_timeout_ms := None; gp_default_stream_idle_timeout_ms := None;
     gp_cooldown_overrides_ms := [] |}.

(** One entry of the cooldown loop of [GatewayPolicy::validate]. *)
Definition validate_cooldown_override (entry : str * Z) : VibexResult unit :=
  let '(kind, milliseconds) := entry in
  let? parsed := ok_or (GatewayFailureKind_from_id kind)
    (with_diagnostic (invalid "model_gateway_cooldown_kind_invalid"
        "a cooldown override names an unknown failure kind") (lit "failureKind") kind) in
  reject (bool_decide (parsed = KindAuth)) with
    (invalid "model_gateway_cooldown_kind_invalid"
      "an authentication failure does not cool down with time") ;;
  reject ((milliseconds =? 0) || (24 * 60 * 60 * 1000 <? milliseconds))%Z with
    (with_diagnostic (with_diagnostic (invalid "model_gateway_cooldown_invalid"
        "a cooldown override must be between one millisecond and one day")
        (lit "failureKind") kind) (lit "milliseconds") (decimal milliseconds)) ;;
  Ok tt.

Definition GatewayPolicy_validate (p : GatewayPolicy) : VibexResult unit :=
  try (match gp_token_limit p with
       | Some limit => GatewayTokenLimit_validate limit
       | None => Ok tt
       end) ;;
  try (for_each (fun e => GatewayAccountLimits_validate e.2) (gp_account_limits p)) ;;
  reject (match gp_error_rate_warn_percent p with Some v => 100 <? v | None => false end)%Z with
    (invalid "model_gateway_error_rate_threshold_invalid"
      "an error-rate threshold must be between zero and one hundred") ;;
  try (for_each (fun value =>
        reject (bool_decide (value = Some 0%Z)) with
          (invalid "model_gateway_timeout_invalid"
            "a timeout or latency threshold must be at least one millisecond") ;; Ok tt)
      [gp_latency_warn_ms p; gp_default_connect_timeout_ms p;
       gp_default_request_timeout_ms p; gp_default_stream_idle_timeout_ms p]) ;;
  for_each validate_cooldown_override (gp_cooldown_overrides_ms p).

Record ModelGatewaySettings : Type := mkSettings {
  gs_display_name : str;
  gs_port : Z;
  gs_policy : GatewayPolicy;
  gs_revision : Z;
  gs_updated_at_ms : Z
}.
Definition ModelGatewaySettings_default : ModelGatewaySettings :=
  mkSettings (lit "Vibex Gateway") 0 GatewayPolicy_default 1 0.
Definition MAX_DISPLAY_NAME_LEN : nat := 160.
Definition ModelGatewaySettings_validate (s : ModelGatewaySettings) : VibexResult unit :=
  let name := trim (gs_display_name s) in
  reject (is_empty name || (MAX_DISPLAY_NAME_LEN <? length name)) with
    (invalid "model_gateway_display_name_invalid"
      "gateway display name must be non-empty and within the supported length") ;;
  reject ((1 <=? gs_port s) && (gs_port s <? 1024))%Z with
    (invalid "model_gateway_port_invalid" "the gateway port must be above 1023") ;;
  GatewayPolicy_validate (gs_policy s).

(** ** Runtime state of the listener *)

Inductive ModelGatewayStatus : Type :=
| StatusStarting | StatusRunning | StatusUnavailable | StatusDegraded | StatusDisabled.
#[export] Instance ModelGatewayStatus_eq_dec : EqDecision ModelGatewayStatus.
Proof. solve_decision. Defined.
Definition is_routable (s : ModelGatewayStatus) : bool :=
  match s with StatusRunning | StatusDegraded => true | _ => false end.
Definition is_listening (s : ModelGatewayStatus) : bool :=
  match s with StatusRunning | StatusDegraded => true | _ => false end.

Record ModelGatewayRuntimeState : Type := mkRuntime {
  rt_status : ModelGatewayStatus;
  rt_port : option Z;
  rt_route_count : option nat;
  rt_degraded_routes : nat;
  rt_notice : option str;
  rt_started_at_ms : option Z;
  rt_updated_at_ms : Z
}.
Definition RuntimeState_running (now port : Z) (route_count : nat) : ModelGatewayRuntimeState :=
  {| rt_status := StatusRunning; rt_port := Some port; rt_route_count := Some route_count;
     rt_degraded_routes := 0; rt_notice := None; rt_started_at_ms := Some now;
     rt_updated_at_ms := now |}.
Definition RuntimeState_unavailable (now : Z) (notice : str) : ModelGatewayRuntimeState :=
  {| rt_status := StatusUnavailable; rt_port := None; rt_route_count := None;
     rt_degraded_routes := 0; rt_notice := Some notice; rt_started_at_ms := None;
     rt_updated_at_ms := now |}.
Definition RuntimeState_base_url (s : ModelGatewayRuntimeState) : option str :=
  match rt_port s with
  | Some port => if is_listening (rt_status s)
                 then Some (lit "http://127.0.0.1:" ++ decimal port) else None
  | None => None
  end.

(** ** Per-Key account state *)

Record ModelProviderAccountState : Type := mkAccount {
  as_profile_id : ident;
  as_credential_id : ident;
  as_enabled : bool;
  as_priority : Z;
  as_cooldown_until_ms : option Z;
  as_cooldown_reason : option GatewayFailureKind;
  as_consecutive_failures : Z;
  as_updated_at_ms : Z
}.
Definition AccountState_ready (now : Z) (profile credential : ident) : ModelProviderAccountState :=
  {| as_profile_id := profile; as_credential_id := credential; as_enabled := true;
     as_priority := 0; as_cooldown_until_ms := None; as_cooldown_reason := None;
     as_consecutive_failures := 0; as_updated_at_ms := now |}.

Definition is_ready_at (s : ModelProviderAccountState) (now_ms : Z) : bool :=
  as_enabled s
  && negb (bool_decide (as_cooldown_reason s = Some KindAuth))
  && match as_cooldown_until_ms s with None => true | Some until => (until <=? now_ms)%Z end.

Inductive GatewayKeyState : Type :=
| KeyReady
| KeyCooling (kind : GatewayFailureKind) (until_ms : option Z)
| KeyInvalid
| KeyDisabled.
Definition GatewayKeyState_is_ready (s : GatewayKeyState) : bool :=
  match s with KeyReady => true | _ => false end.
Definition GatewayKeyState_id (s : GatewayKeyState) : str :=
  match s with
  | KeyReady => lit "ready"
  | KeyCooling _ _ => lit "cooling"
  | KeyInvalid => lit "invalid"
  | KeyDisabled => lit "disabled"
  end.

Definition visibility_at (s : ModelProviderAccountState) (now_ms : Z) : GatewayKeyState :=
  if negb (as_enabled s) then KeyDisabled
  else match as_cooldown_reason s with
       | Some KindAuth => KeyInvalid
       | Some kind =>
         if match as_cooldown_until_ms s with Some until => (now_ms <? until)%Z | None => false end
         then KeyCooling kind (as_cooldown_until_ms s)
         else KeyReady
       | None => KeyReady
       end.

(** ** The request ledger *)

Record GatewayRouteAttempt : Type := mkAttempt {
  at_credential_id : ident;
  at_failure : GatewayFailureKind
}.
Record GatewaySkippedMember : Type := mkSkipped {
  sk_profile_id : ident;
  sk_wire_protocol_id : str;
  sk_failure : GatewayFailureKind
}.
Record GatewayRouteDecisionTrace : Type := mkDecision {
  dt_rule_index : option nat;
  dt_rule_id : option str;
  dt_reason : option str;
  dt_classifier : option str;
  dt_classifier_error : option str;
  dt_intent : option str;
  dt_effort : option str;
  dt_strategy : option str;
  dt_patience_ms : option Z;
  dt_retries : Z
}.
Definition GatewayRouteDecisionTrace_default : GatewayRouteDecisionTrace :=
  mkDecision None None None None None None None None None 0.

Definition is_none {A} (o : option A) : bool := match o with None => true | Some _ => false end.

Definition DecisionTrace_is_unremarkable (d : GatewayRouteDecisionTrace) : bool :=
  is_none (dt_rule_index d) && is_none (dt_rule_id d) && is_none (dt_reason d)
  && is_none (dt_classifier d) && is_none (dt_classifier_error d) && is_none (dt_intent d)
  && is_none (dt_effort d) && is_none (dt_strategy d) && is_none (dt_patience_ms d)
  && (dt_retries d =? 0)%Z.

Definition GATEWAY_ROUTE_TRACE_SCHEMA_VERSION : Z := 1.

Record GatewayRouteTrace : Type := mkTrace {
  tr_schema_version : Z;
  tr_skipped_cooling : Z;
  tr_skipped_over_limit : Z;
  tr_failed_attempts : list GatewayRouteAttempt;
  tr_skipped_members : list GatewaySkippedMember;
  tr_error_code : option str;
  tr_error_message : option str;
  tr_decision : option GatewayRouteDecisionTrace
}.

(** [u32::try_from(n).unwrap_or(u32::MAX)]. *)
Definition u32_try_from (n : nat) : Z := Z.min (Z.of_nat n) u32_max.

Definition GatewayRouteTrace_new (skipped_cooling skipped_over_limit : nat) : GatewayRouteTrace :=
  {| tr_schema_version := GATEWAY_ROUTE_TRACE_SCHEMA_VERSION;
     tr_skipped_cooling := u32_try_from skipped_cooling;
     tr_skipped_over_limit := u32_try_from skipped_over_limit;
     tr_failed_attempts := []; tr_skipped_members := [];
     tr_error_code := None; tr_error_message := None; tr_decision := None |}.

Definition GatewayRouteTrace_is_unremarkable (t : GatewayRouteTrace) : bool :=
  is_none (tr_error_code t) && is_none (tr_error_message t)
  && (tr_skipped_cooling t =? 0)%Z && (tr_skipped_over_limit t =? 0)%Z
  && is_empty (tr_failed_attempts t) && is_empty (tr_skipped_members t)
  && match tr_decision t with None => true | Some d => DecisionTrace_is_unremarkable d end.

(** The token counters of one ledger row. *)
Record ModelGatewayRequestLog : Type := mkLog {
  lg_request_id : ident;
  lg_agent_id : option str;
  lg_profile_id : ident;
  lg_credential_id : option ident;
  lg_model_requested : str;
  lg_model_served : option str;
  lg_wire_in : str;
  lg_wire_out : str;
  lg_status : option Z;
  lg_input_tokens : Z;
  lg_output_tokens : Z;
  lg_cached_read_tokens : Z;
  lg_cached_write_tokens : Z;
  lg_reasoning_tokens : Z;
  lg_latency_ms : option Z;
  lg_outcome : GatewayRequestOutcome;
  lg_route : option GatewayRouteTrace;
  lg_created_at_ms : Z
}.
Definition total_tokens (l : ModelGatewayRequestLog) : Z :=
  u64_saturating_add (u64_saturating_add (u64_saturating_add (u64_saturating_add
    (lg_input_tokens l) (lg_output_tokens l)) (lg_cached_read_tokens l))
    (lg_cached_write_tokens l)) (lg_reasoning_tokens l).

(** The ellipsis character. *)
Definition ellipsis : N := 8230%N.
Definition gateway_diagnostic_text (message : str) : str :=
  let max := 512 in
  let trimmed := trim message in
  if is_empty trimmed then []
  else if length trimmed <=? max then trimmed
  else take max trimmed ++ [ellipsis].

Record GatewayTokenWindowUsage : Type := mkWindowUsage {
  wu_profile_id : ident;
  wu_window : GatewayTokenWindow;
  wu_window_start_ms : Z;
  wu_window_end_ms : Z;
  wu_used_tokens : Z
}.
Definition WindowUsage_is_open_at (u : GatewayTokenWindowUsage) (now_ms : Z) : bool :=
  ((wu_window_start_ms u <=? now_ms) && (now_ms <? wu_window_end_ms u))%Z.
Definition WindowUsage_remaining (u : GatewayTokenWindowUsage) (limit_tokens : Z) : Z :=
  u64_saturating_sub limit_tokens (wu_used_tokens u).

Record GatewayConversationPin : Type := mkPin {
  pin_conversation_key : str;
  pin_profile_id : ident;
  pin_credential_id : ident;
  pin_chosen_at_ms : Z;
  pin_expires_at_ms : Z
}.
Definition PIN_TTL_MS : Z := 30 * 60 * 1000.
Definition pin_is_live_at (p : GatewayConversationPin) (now_ms : Z) : bool :=
  (now_ms <? pin_expires_at_ms p)%Z.

(** The code point of a slash. *)
Definition slash : N := 47%N.

Record GatewayModelRef : Type := mkModelRef { mr_provider : option str; mr_model : str }.
Definition GatewayModelRef_parse (value : str) : GatewayModelRef :=
  match split_once slash value with
  | Some (provider, model) =>
    if negb (is_empty provider) && negb (is_empty model)
    then mkModelRef (Some provider) model
    else mkModelRef None value
  | None => mkModelRef None value
  end.

(** ** Key health after a failure (route.rs, and its twin [GatewayKeyHealth]) *)

Inductive KeyHealth : Type :=
| HealthReady
| HealthCooling (kind : GatewayFailureKind) (until_ms : Z)
| HealthInvalid.
Definition KeyHealth_from_failure (kind : GatewayFailureKind) (now_ms : Z) : KeyHealth :=
  match cooldown_ms kind with
  | Some duration => HealthCooling kind (i64_saturating_add now_ms duration)
  | None => HealthInvalid
  end.

(** * Theorems *)

(** ** Ids *)

Lemma find_by_id_inv {A} (all : list A) (id : A -> str) value x :
  find_by_id all id value = Some x -> x ∈ all /\ id x = trim value.
Proof.
  intros H. apply List.find_some in H as [Hin Hid].
  split; [by apply list_elem_of_In|by apply bool_decide_eq_true in Hid].
Qed.

(** Persisted ids are read back as the value that was written. *)
Theorem gateway_ids_round_trip :
  (forall s, GatewayRoutingStrategy_from_id (GatewayRoutingStrategy_id s) = Some s) /\
  (forall s, GatewayPinScope_from_id (GatewayPinScope_id s) = Some s) /\
  (forall f, GatewayFailover_from_id (GatewayFailover_id f) = Some f) /\
  (forall k, GatewayFailureKind_from_id (GatewayFailureKind_id k) = Some k) /\
  (forall o, GatewayRequestOutcome_from_id (GatewayRequestOutcome_id o) = Some o).
Proof. repeat split; intros []; vm_compute; reflexivity. Qed.

Lemma GatewayFailureKind_from_id_inv value k :
  GatewayFailureKind_from_id value = Some k -> trim value = GatewayFailureKind_id k.
Proof. intros H. symmetry. by apply find_by_id_inv in H as [_ ?]. Qed.

(** ** Policy validation *)

(** What a saved policy promises to the router. *)
Record policy_valid (p : GatewayPolicy) : Prop := {
  pv_token_limit : forall l, gp_token_limit p = Some l -> tl_tokens l <> 0%Z;
  pv_account_limits : forall k l, (k, l) ∈ gp_account_limits p ->
    al_max_concurrency l <> Some 0%Z /\ al_max_rpm l <> Some 0%Z /\
    al_queue_limit l <> Some 0%Z /\ al_queue_wait_ms l <> Some 0%Z;
  pv_error_rate : forall v, gp_error_rate_warn_percent p = Some v -> (v <= 100)%Z;
  pv_timeouts : gp_latency_warn_ms p <> Some 0%Z /\ gp_default_connect_timeout_ms p <> Some 0%Z /\
    gp_default_request_timeout_ms p <> Some 0%Z /\ gp_default_stream_idle_timeout_ms p <> Some 0%Z;
  pv_overrides : forall name ms, (name, ms) ∈ gp_cooldown_overrides_ms p ->
    ms <> 0%Z /\ (ms <= 24 * 60 * 60 * 1000)%Z /\
    exists k, GatewayFailureKind_from_id name = Some k /\ k <> KindAuth
}.

Lemma GatewayTokenLimit_validate_ok l :
  GatewayTokenLimit_validate l = Ok tt <-> tl_tokens l <> 0%Z.
Proof. unfold GatewayTokenLimit_validate. rewrite reject_ok, Z.eqb_neq. naive_solver. Qed.

Lemma GatewayAccountLimits_validate_ok l :
  GatewayAccountLimits_validate l = Ok tt <->
  al_max_concurrency l <> Some 0%Z /\ al_max_rpm l <> Some 0%Z /\
  al_queue_limit l <> Some 0%Z /\ al_queue_wait_ms l <> Some 0%Z.
Proof.
  unfold GatewayAccountLimits_validate.
  rewrite !reject_ok, !bool_decide_eq_false. naive_solver.
Qed.

Lemma validate_cooldown_override_ok name ms :
  validate_cooldown_override (name, ms) = Ok tt <->
  ms <> 0%Z /\ (ms <= 24 * 60 * 60 * 1000)%Z /\
  exists k, GatewayFailureKind_from_id name = Some k /\ k <> KindAuth.
Proof.
  unfold validate_cooldown_override.
  destruct (GatewayFailureKind_from_id name) as [k|]; simpl; [|naive_solver].
  rewrite !reject_ok, bool_decide_eq_false, orb_false_iff, Z.eqb_neq, Z.ltb_ge. naive_solver.
Qed.

Lemma GatewayPolicy_validate_ok p : GatewayPolicy_validate p = Ok tt <-> policy_valid p.
Proof.
  unfold GatewayPolicy_validate.
  rewrite !bind_unit_ok, reject_ok, bind_unit_ok, !for_each_ok, !Forall_forall.
  split.
  - intros (Ht & Ha & He & Hz & Ho). split.
    + intros l Hl. rewrite Hl in Ht. by apply GatewayTokenLimit_validate_ok.
    + intros k l Hin. apply GatewayAccountLimits_validate_ok. by apply (Ha (k, l)).
    + intros v Hv. rewrite Hv in He. by apply Z.ltb_ge in He.
    + assert (Hn : forall o, o ∈ [gp_latency_warn_ms p; gp_default_connect_timeout_ms p;
        gp_default_request_timeout_ms p; gp_default_stream_idle_timeout_ms p] -> o <> Some 0%Z).
      { intros o Ho'. specialize (Hz o Ho'). apply reject_ok in Hz as [Hz _].
        by apply bool_decide_eq_false in Hz. }
      repeat split; apply Hn; set_solver.
    + intros name ms Hin. by apply validate_cooldown_override_ok, Ho.
  - intros [Ht Ha He Hz Ho]. repeat split.
    + destruct (gp_token_limit p) as [l|]; [|done]. by apply GatewayTokenLimit_validate_ok, Ht.
    + intros [k l] Hin. by apply GatewayAccountLimits_validate_ok, (Ha k l).
    + destruct (gp_error_rate_warn_percent p) as [v|]; [|done]. by apply Z.ltb_ge, He.
    + intros o Hin. apply reject_ok. split; [|done]. apply bool_decide_eq_false.
      destruct Hz as (? & ? & ? & ?). set_solver.
    + intros [name ms] Hin. by apply validate_cooldown_override_ok, Ho.
Qed.

(** Saving the gateway's settings accepts exactly the settings that satisfy the
    declarative contract. *)
Theorem settings_validate_spec (s : ModelGatewaySettings) :
  ModelGatewaySettings_validate s = Ok tt <->
  trim (gs_display_name s) <> [] /\ length (trim (gs_display_name s)) <= MAX_DISPLAY_NAME_LEN /\
  ~ (1 <= gs_port s < 1024)%Z /\ policy_valid (gs_policy s).
Proof.
  unfold ModelGatewaySettings_validate.
  rewrite !reject_ok, GatewayPolicy_validate_ok, orb_false_iff, andb_false_iff,
    Nat.ltb_ge, Z.leb_gt, Z.ltb_ge.
  destruct (trim (gs_display_name s)); simpl; naive_solver lia.
Qed.

(** ** Account state *)

(** A stored cooldown always carries its reason. *)
Definition account_wf (s : ModelProviderAccountState) : Prop :=
  is_Some (as_cooldown_until_ms s) -> is_Some (as_cooldown_reason s).

Lemma is_ready_at_spec s now :
  is_ready_at s now = true <->
  as_enabled s = true /\ as_cooldown_reason s <> Some KindAuth /\
  (forall until, as_cooldown_until_ms s = Some until -> (until <= now)%Z).
Proof.
  unfold is_ready_at. rewrite !andb_true_iff, negb_true_iff, bool_decide_eq_false.
  destruct (as_cooldown_until_ms s); [rewrite Z.leb_le|]; naive_solver.
Qed.

(** The router's readiness test and the state the user is shown agree. *)
Lemma visibility_ready (s : ModelProviderAccountState) (now : Z) :
  account_wf s ->
  GatewayKeyState_is_ready (visibility_at s now) = is_ready_at s now.
Proof.
  intros Hwf. unfold visibility_at, is_ready_at, account_wf in *.
  destruct (as_enabled s); simpl; [|done].
  destruct (as_cooldown_reason s) as [[]|], (as_cooldown_until_ms s) as [u|]; simpl; try done;
    try (destruct (Z.ltb_spec now u), (Z.leb_spec u now); simpl; first [done|lia]).
  destruct Hwf; [by eexists|done].
Qed.

(** ** Counters and text bounds *)

(** The ledger's token total is the sum of the counters, capped at [u64::MAX]. *)
Theorem total_tokens_spec (l : ModelGatewayRequestLog) :
  in_u64 (lg_input_tokens l) -> in_u64 (lg_output_tokens l) ->
  in_u64 (lg_cached_read_tokens l) -> in_u64 (lg_cached_write_tokens l) ->
  in_u64 (lg_reasoning_tokens l) ->
  total_tokens l = Z.min u64_max (lg_input_tokens l + lg_output_tokens l
    + lg_cached_read_tokens l + lg_cached_write_tokens l + lg_reasoning_tokens l).
Proof. unfold total_tokens. int_lia. Qed.

(** A ledger message keeps the vendor's text up to 512 characters and never
    exceeds 513. *)
Theorem diagnostic_text_bounded (m : str) :
  length (gateway_diagnostic_text m) <= 513 /\
  take 512 (gateway_diagnostic_text m) = take 512 (trim m).
Proof.
  unfold gateway_diagnostic_text.
  destruct (trim m) as [|c t] eqn:E; cbv zeta; cbn [is_empty].
  { split; [simpl; lia|done]. }
  rewrite <- E. destruct (Nat.leb_spec (length (trim m)) 512); [split; [lia|done]|].
  split; [rewrite length_app, length_take; cbn [length]; lia|].
  rewrite take_app_le by (rewrite length_take; lia). by rewrite take_take, Nat.min_id.
Qed.

(** Every model id of the form [a/b] with both halves non-empty is read as
    Provider-qualified, whether or not [a] is a Provider. *)
Theorem model_ref_splits_at_first_slash (provider model : str) :
  slash ∉ provider -> provider <> [] -> model <> [] ->
  GatewayModelRef_parse (provider ++ slash :: model) = mkModelRef (Some provider) model.
Proof.
  intros Hn Hp Hm. unfold GatewayModelRef_parse. rewrite split_once_app by done.
  by destruct provider, model.
Qed.
