(* ===== verification/GatewayStore.v ===== *)
(** The gateway's durable tables (crates/db/src/model_gateway.rs) and the two
    service operations that write Key health
    ([mark_failure] and [clear_failure] of crates/model-gateway/src/service.rs):
    account states, local token windows, conversation pins and the request
    ledger with its cursor pages.  A table is a finite map from its primary
    key; an SQL ORDER BY is a sort on the listed columns. *)
From S2P Require Import Prelude CoreTypes GatewayTypes.
From stdpp Require Import prelude strings list gmap pretty.
From Stdlib Require Import NArith ZArith Lia Sorted.

(** ** Account states *)

Abbreviation AccountTable := (gmap (ident * ident) ModelProviderAccountState).

(** The rows of one Provider, ORDER BY priority, credential_id. *)
Definition account_rows (t : AccountTable) (profile : ident) : list ModelProviderAccountState :=
  (map_to_list t).*2 ≫= fun s => if bool_decide (as_profile_id s = profile) then [s] else [].
Definition account_list (t : AccountTable) (profile : ident) : list ModelProviderAccountState :=
  sort_by_key (fun s => as_priority s :: (Z.of_N <$> as_credential_id s)) (account_rows t profile).

(** [list(..).into_iter().find(|s| s.credential_id == credential)
    .unwrap_or_else(|| ready(..))]. *)
Definition account_find (t : AccountTable) (now : Z) (profile credential : ident)
  : ModelProviderAccountState :=
  default (AccountState_ready now profile credential)
    (List.find (fun s => bool_decide (as_credential_id s = credential)) (account_list t profile)).

Definition account_upsert (t : AccountTable) (s : ModelProviderAccountState) : AccountTable :=
  <[(as_profile_id s, as_credential_id s) := s]> t.

Definition set_health (s : ModelProviderAccountState) (until : option Z)
  (reason : option GatewayFailureKind) (failures now : Z) : ModelProviderAccountState :=
  {| as_profile_id := as_profile_id s; as_credential_id := as_credential_id s;
     as_enabled := as_enabled s; as_priority := as_priority s;
     as_cooldown_until_ms := until; as_cooldown_reason := reason;
     as_consecutive_failures := failures; as_updated_at_ms := now |}.

(** [ModelProviderAccountStateRepository::clear_cooldown], and the service's
    [clear_failure] that calls it. *)
Definition account_clear_cooldown (t : AccountTable) (now : Z) (profile credential : ident)
  : AccountTable :=
  alter (fun s => set_health s None None 0 now) (profile, credential) t.

Record GatewayAccountUpdate : Type := mkAccountUpdate {
  au_profile_id : ident;
  au_credential_id : ident;
  au_enabled : option bool;
  au_preferred : option bool
}.
Definition GatewayAccountUpdate_validate (u : GatewayAccountUpdate) : VibexResult unit :=
  reject (is_none (au_enabled u) && is_none (au_preferred u)) with
    (invalid "model_gateway_account_update_empty"
      "an account update must change `enabled` or `preferred`") ;;
  Ok tt.

Definition apply_enabled (s : ModelProviderAccountState) (enabled : option bool)
  : ModelProviderAccountState :=
  match enabled with
  | None => s
  | Some true =>
    {| as_profile_id := as_profile_id s; as_credential_id := as_credential_id s;
       as_enabled := true; as_priority := as_priority s;
       as_cooldown_until_ms := None; as_cooldown_reason := None;
       as_consecutive_failures := 0; as_updated_at_ms := as_updated_at_ms s |}
  | Some false =>
    {| as_profile_id := as_profile_id s; as_credential_id := as_credential_id s;
       as_enabled := false; as_priority := as_priority s;
       as_cooldown_until_ms := as_cooldown_until_ms s;
       as_cooldown_reason := as_cooldown_reason s;
       as_consecutive_failures := as_consecutive_failures s;
       as_updated_at_ms := as_updated_at_ms s |}
  end.

Definition account_apply_update (t : AccountTable) (u : GatewayAccountUpdate) (now : Z)
  : AccountTable * ModelProviderAccountState :=
  let s := account_find t now (au_profile_id u) (au_credential_id u) in
  let s := apply_enabled s (au_enabled u) in
  let s := set_health s (as_cooldown_until_ms s) (as_cooldown_reason s)
             (as_consecutive_failures s) now in
  (account_upsert t s, s).

(** The new health of a Key after one failure of [kind] at [now]; [policy] is
    the saved gateway policy. *)
Definition failed_account (s : ModelProviderAccountState) (policy : GatewayPolicy)
  (kind : GatewayFailureKind) (now : Z) : ModelProviderAccountState :=
  let failures := i64_saturating_add (as_consecutive_failures s) 1 in
  let override_ms := btree_get (GatewayFailureKind_id kind) (gp_cooldown_overrides_ms policy) in
  match KeyHealth_from_failure kind now with
  | HealthInvalid => set_health s None (Some KindAuth) failures now
  | HealthCooling kind until_ms =>
    set_health s
      (Some (match override_ms with
             | Some milliseconds => i64_saturating_add now (u64_as_i64 milliseconds)
             | None => until_ms
             end)) (Some kind) failures now
  | HealthReady => set_health s None None failures now
  end.

(** [ModelGatewayService::mark_failure]. *)
Definition mark_failure (t : AccountTable) (policy : GatewayPolicy)
  (profile credential : ident) (kind : GatewayFailureKind) (now : Z) : AccountTable :=
  account_upsert t (failed_account (account_find t now profile credential) policy kind now).

(** Every write the program makes to the account table. *)
Inductive account_op : Type :=
| OpFailure (policy : GatewayPolicy) (profile credential : ident)
    (kind : GatewayFailureKind) (now : Z)
| OpSuccess (profile credential : ident) (now : Z)
| OpUpdate (u : GatewayAccountUpdate) (now : Z).

Definition account_step (t : AccountTable) (op : account_op) : AccountTable :=
  match op with
  | OpFailure policy p c kind now => mark_failure t policy p c kind now
  | OpSuccess p c now => account_clear_cooldown t now p c
  | OpUpdate u now => (account_apply_update t u now).1
  end.
Definition account_run (ops : list account_op) (t : AccountTable) : AccountTable :=
  foldl account_step t ops.

(** ** Token windows *)

(** [window_start]: [div_euclid] by a positive constant is [Z.div]. *)
Definition window_start (w : GatewayTokenWindow) (now_ms : Z) : Z :=
  let day_ms := (24 * 60 * 60 * 1000)%Z in
  let days := (now_ms / day_ms)%Z in
  match w with
  | WindowDay => days * day_ms
  | WindowWeek => days / 7 * 7 * day_ms
  | WindowMonth => days / 30 * 30 * day_ms
  end%Z.

#[export] Instance GatewayTokenWindow_countable : Countable GatewayTokenWindow.
Proof.
  refine (inj_countable' (fun w => match w with WindowDay => 0 | WindowWeek => 1 | WindowMonth => 2 end)
    (fun n => match n with 0 => WindowDay | 1 => WindowWeek | _ => WindowMonth end) _).
  by intros [].
Defined.

(** [(window_end_ms, used_tokens)] by [window_id = profile:kind:start]. *)
Abbreviation WindowTable := (gmap (ident * GatewayTokenWindow * Z) (Z * Z)).

(** [i64::try_from(n).unwrap_or(i64::MAX)] for an [n : u64]. *)
Definition i64_try_from_u64 (n : Z) : Z := Z.min n i64_max.

Definition window_record (t : WindowTable) (profile : ident) (w : GatewayTokenWindow)
  (tokens now_ms : Z) : WindowTable :=
  let start := window_start w now_ms in
  let stop := i64_saturating_add start (GatewayTokenWindow_duration_ms w) in
  let key := (profile, w, start) in
  match t !! key with
  | Some (stop', used) => <[key := (stop', (used + i64_try_from_u64 tokens)%Z)]> t
  | None => <[key := (stop, i64_try_from_u64 tokens)]> t
  end.

Definition window_current (t : WindowTable) (profile : ident) (w : GatewayTokenWindow)
  (now_ms : Z) : option GatewayTokenWindowUsage :=
  let start := window_start w now_ms in
  (fun row => mkWindowUsage profile w start row.1 (Z.max 0 row.2)) <$> t !! (profile, w, start).

(** ** Conversation pins *)

Abbreviation PinTable := (gmap str GatewayConversationPin).
Definition pin_get (t : PinTable) (key : str) : option GatewayConversationPin := t !! key.
Definition pin_upsert (t : PinTable) (p : GatewayConversationPin) : PinTable :=
  <[pin_conversation_key p := p]> t.
Definition pin_delete (t : PinTable) (key : str) : PinTable := delete key t.

(** ** The request ledger *)

Record GatewayRequestCursor : Type := mkCursor { cu_created_at_ms : Z; cu_request_id : ident }.
Record GatewayRequestQuery : Type := mkQuery {
  q_since_ms : option Z;
  q_until_ms : option Z;
  q_before : option GatewayRequestCursor;
  q_limit : nat
}.
Definition GATEWAY_REQUEST_PAGE_LIMIT : nat := 500.
Definition GATEWAY_REQUEST_PAGE_MAX : nat := 1000.
Definition GatewayRequestQuery_default : GatewayRequestQuery :=
  mkQuery None None None GATEWAY_REQUEST_PAGE_LIMIT.
Definition query_in_window (since_ms until_ms : Z) : GatewayRequestQuery :=
  mkQuery (Some since_ms) (Some until_ms) None GATEWAY_REQUEST_PAGE_LIMIT.
Definition query_after (q : GatewayRequestQuery) (c : GatewayRequestCursor) : GatewayRequestQuery :=
  mkQuery (q_since_ms q) (q_until_ms q) (Some c) (q_limit q).
(** [limit.clamp(1, GATEWAY_REQUEST_PAGE_MAX)]. *)
Definition clamp_limit (limit : nat) : nat := Nat.max 1 (Nat.min limit GATEWAY_REQUEST_PAGE_MAX).
Definition query_with_limit (q : GatewayRequestQuery) (limit : nat) : GatewayRequestQuery :=
  mkQuery (q_since_ms q) (q_until_ms q) (q_before q) (clamp_limit limit).

(** [ORDER BY created_at_ms DESC, request_id ASC]. *)
Definition ledger_key (l : ModelGatewayRequestLog) : list Z :=
  (- lg_created_at_ms l)%Z :: (Z.of_N <$> lg_request_id l).

(** The WHERE clause: the half-open window and the cursor. *)
Definition in_window (since_ms until_ms : option Z) (l : ModelGatewayRequestLog) : bool :=
  match since_ms with Some s => (s <=? lg_created_at_ms l)%Z | None => true end
  && match until_ms with Some u => (lg_created_at_ms l <? u)%Z | None => true end.
(** [request_id > cursor.request_id] in SQLite's binary collation. *)
Definition str_lt (a b : str) : bool := negb (str_le b a).
Definition past_cursor (before : option GatewayRequestCursor) (l : ModelGatewayRequestLog) : bool :=
  match before with
  | None => true
  | Some c => (lg_created_at_ms l <? cu_created_at_ms c)%Z
              || ((lg_created_at_ms l =? cu_created_at_ms c)%Z
                  && str_lt (cu_request_id c) (lg_request_id l))
  end.

Definition ledger_query (rows : list ModelGatewayRequestLog) (since_ms until_ms : option Z)
  (before : option GatewayRequestCursor) (limit : nat) : list ModelGatewayRequestLog :=
  take limit (sort_by_key ledger_key
    (retain (fun l => in_window since_ms until_ms l && past_cursor before l) rows)).
Definition ledger_recent (rows : list ModelGatewayRequestLog) (limit : nat)
  : list ModelGatewayRequestLog := ledger_query rows None None None limit.
Definition ledger_page (rows : list ModelGatewayRequestLog) (q : GatewayRequestQuery)
  : list ModelGatewayRequestLog :=
  ledger_query rows (q_since_ms q) (q_until_ms q) (q_before q) (clamp_limit (q_limit q)).

Definition RETENTION_MS : Z := 7 * 24 * 60 * 60 * 1000.
Definition ledger_prune (rows : list ModelGatewayRequestLog) (now_ms : Z)
  : list ModelGatewayRequestLog :=
  let cutoff := i64_saturating_sub now_ms RETENTION_MS in
  retain (fun l => negb (lg_created_at_ms l <? cutoff)%Z) rows.

(** The cursor a client builds from the last row it holds. *)
Definition cursor_of (l : ModelGatewayRequestLog) : GatewayRequestCursor :=
  mkCursor (lg_created_at_ms l) (lg_request_id l).

(** Loading page after page until [pages] pages were asked for. *)
Fixpoint ledger_pages (rows : list ModelGatewayRequestLog) (q : GatewayRequestQuery)
  (pages : nat) : list ModelGatewayRequestLog :=
  match pages with
  | 0 => []
  | S pages =>
    let page := ledger_page rows q in
    match last page with
    | None => []
    | Some l => page ++ ledger_pages rows (query_after q (cursor_of l)) pages
    end
  end.

(** * Theorems *)

(** ** Account states *)

(** Rows sit under their own key and a cooldown carries its reason. *)
Definition table_wf (t : AccountTable) : Prop :=
  forall k s, t !! k = Some s -> k = (as_profile_id s, as_credential_id s) /\ account_wf s.

Lemma elem_of_account_rows t p s :
  s ∈ account_rows t p <-> as_profile_id s = p /\ exists k, t !! k = Some s.
Proof.
  unfold account_rows. rewrite list_elem_of_bind. split.
  - intros (s' & Hs & Hin). case_bool_decide; [|set_solver].
    apply list_elem_of_singleton in Hs as ->. split; [done|].
    apply list_elem_of_fmap in Hin as ([k s''] & -> & Hk). exists k. by apply elem_of_map_to_list in Hk.
  - intros [<- [k Hk]]. exists s. rewrite bool_decide_eq_true_2 by done.
    split; [set_solver|]. apply list_elem_of_fmap. exists (k, s). by rewrite elem_of_map_to_list.
Qed.

Lemma account_find_lookup t now p c :
  table_wf t -> account_find t now p c = default (AccountState_ready now p c) (t !! (p, c)).
Proof.
  intros Hwf. unfold account_find.
  destruct (List.find _ _) as [s|] eqn:E; simpl.
  - apply List.find_some in E as [Hin Hc]. apply bool_decide_eq_true in Hc as <-.
    apply list_elem_of_In in Hin. unfold account_list in Hin.
    rewrite sort_by_key_perm in Hin. apply elem_of_account_rows in Hin as [<- [k Hk]].
    destruct (Hwf _ _ Hk) as [-> _]. by rewrite Hk.
  - destruct (t !! (p, c)) as [s|] eqn:Hs; [|done]. exfalso.
    destruct (Hwf _ _ Hs) as [[= -> ->] _].
    pose proof (List.find_none _ _ E s) as Hn. simpl in Hn.
    rewrite bool_decide_eq_true_2 in Hn by done. discriminate Hn.
    apply list_elem_of_In. unfold account_list. rewrite sort_by_key_perm.
    apply elem_of_account_rows. eauto.
Qed.

Lemma ready_wf now p c : account_wf (AccountState_ready now p c).
Proof. intros [? [=]]. Qed.

Lemma account_find_wf t now p c :
  table_wf t ->
  account_wf (account_find t now p c) /\ as_profile_id (account_find t now p c) = p /\
  as_credential_id (account_find t now p c) = c.
Proof.
  intros Hwf. rewrite account_find_lookup by done.
  destruct (t !! (p, c)) as [s|] eqn:E; simpl; [|split; [apply ready_wf|done]].
  by destruct (Hwf _ _ E) as [[= -> ->] ?].
Qed.

Lemma account_upsert_wf t s : table_wf t -> account_wf s -> table_wf (account_upsert t s).
Proof.
  intros Ht Hs k s' H. unfold account_upsert in H.
  apply lookup_insert_Some in H as [[<- <-]|[_ H]]; [done|by apply Ht].
Qed.

Lemma failed_account_wf s policy kind now : account_wf (failed_account s policy kind now).
Proof.
  unfold failed_account, account_wf. destruct (KeyHealth_from_failure kind now); simpl.
  - by intros [? [=]].
  - by eexists.
  - by intros [? [=]].
Qed.

Lemma account_step_wf t op : table_wf t -> table_wf (account_step t op).
Proof.
  intros Ht. destruct op as [policy p c kind now|p c now|u now]; simpl.
  - apply account_upsert_wf; [done|apply failed_account_wf].
  - unfold account_clear_cooldown. intros k s H.
    apply lookup_alter_Some in H as [(<- & s' & Hs & ->)|[_ H]]; [|by apply Ht].
    destruct (Ht _ _ Hs) as [-> _]. split; [done|]. by intros [? [=]].
  - apply account_upsert_wf; [done|].
    destruct (account_find_wf t now (au_profile_id u) (au_credential_id u) Ht) as [Hw _].
    unfold account_wf in *. destruct (au_enabled u) as [[]|]; simpl; [|done..].
    by intros [? [=]].
Qed.

Lemma account_run_wf ops t : table_wf t -> table_wf (account_run ops t).
Proof.
  revert t. induction ops as [|op ops IH]; intros t Ht; simpl; [done|].
  by apply IH, account_step_wf.
Qed.

Lemma table_wf_empty : table_wf ∅.
Proof. intros k s H. by rewrite lookup_empty in H. Qed.

(** Whatever sequence of failures, successes and user updates the table went
    through, the state shown for a Key is "ready" exactly when the router may
    select it. *)
Theorem account_history_visibility (ops : list account_op) (k : ident * ident)
  (s : ModelProviderAccountState) (now : Z) :
  account_run ops ∅ !! k = Some s ->
  GatewayKeyState_is_ready (visibility_at s now) = is_ready_at s now.
Proof.
  intros H. destruct (account_run_wf ops ∅ table_wf_empty _ _ H) as [_ Hwf].
  by apply visibility_ready.
Qed.

Lemma mark_failure_lookup t policy p c kind now :
  table_wf t ->
  mark_failure t policy p c kind now !! (p, c) =
  Some (failed_account (account_find t now p c) policy kind now).
Proof.
  intros Ht. unfold mark_failure, account_upsert.
  destruct (account_find_wf t now p c Ht) as (_ & Hp & Hc).
  assert (as_profile_id (failed_account (account_find t now p c) policy kind now) = p) as ->.
  { unfold failed_account. by destruct (KeyHealth_from_failure kind now). }
  assert (as_credential_id (failed_account (account_find t now p c) policy kind now) = c) as ->.
  { unfold failed_account. by destruct (KeyHealth_from_failure kind now). }
  by rewrite lookup_insert_eq.
Qed.

(** The cooldown a failure of [kind] imposes: the policy's override, else the
    built-in duration. *)
Definition effective_cooldown (policy : GatewayPolicy) (kind : GatewayFailureKind) : option Z :=
  match cooldown_ms kind with
  | None => None
  | Some duration =>
    Some (default duration
      (u64_as_i64 <$> btree_get (GatewayFailureKind_id kind) (gp_cooldown_overrides_ms policy)))
  end.

(** A Key that failed for a reason that heals is out of rotation for exactly
    the effective cooldown, and its state names the reason. *)
Theorem cooldown_is_exact (t : AccountTable) (policy : GatewayPolicy) (p c : ident)
  (kind : GatewayFailureKind) (now d now' : Z) (s : ModelProviderAccountState) :
  table_wf t ->
  effective_cooldown policy kind = Some d ->
  in_i64 (now + d) ->
  mark_failure t policy p c kind now !! (p, c) = Some s ->
  as_enabled s = as_enabled (account_find t now p c) /\
  as_cooldown_reason s = Some kind /\
  is_ready_at s now' = as_enabled s && (now + d <=? now')%Z.
Proof.
  intros Ht Hd Hr Hs. rewrite mark_failure_lookup in Hs by done. injection Hs as <-.
  unfold effective_cooldown in Hd. unfold failed_account, KeyHealth_from_failure.
  destruct (cooldown_ms kind) as [dur|] eqn:Hk; [|done]. injection Hd as <-.
  assert (kind <> KindAuth) by (by intros ->).
  unfold is_ready_at. simpl.
  rewrite bool_decide_eq_false_2 by congruence. simpl. rewrite andb_true_r.
  split; [done|]. split; [done|]. do 2 f_equal.
  destruct (btree_get _ _); simpl in *; by rewrite i64_saturating_add_exact.
Qed.

(** An operation that cannot lift an authentication verdict on [(p, c)]. *)
Definition keeps_auth_verdict (p c : ident) (op : account_op) : Prop :=
  match op with
  | OpFailure _ p' c' kind _ => (p', c') = (p, c) -> kind = KindAuth
  | OpSuccess p' c' _ => (p', c') <> (p, c)
  | OpUpdate u _ => (au_profile_id u, au_credential_id u) = (p, c) -> au_enabled u <> Some true
  end.

Definition auth_failed (t : AccountTable) (p c : ident) : Prop :=
  exists s, t !! (p, c) = Some s /\ as_cooldown_reason s = Some KindAuth.

Lemma account_step_keeps_auth t op p c :
  table_wf t -> keeps_auth_verdict p c op -> auth_failed t p c -> auth_failed (account_step t op) p c.
Proof.
  intros Ht Hk (s & Hs & Ha). destruct op as [policy p' c' kind now|p' c' now|u now]; simpl in *.
  - destruct (decide ((p', c') = (p, c))) as [[= -> ->]|Hne].
    + rewrite Hk by done. exists (failed_account (account_find t now p c) policy KindAuth now).
      by rewrite mark_failure_lookup.
    + exists s. split; [|done]. unfold mark_failure, account_upsert.
      destruct (account_find_wf t now p' c' Ht) as (_ & Hp & Hc).
      rewrite lookup_insert_ne; [done|]. unfold failed_account.
      destruct (KeyHealth_from_failure kind now); simpl; congruence.
  - exists s. split; [|done]. unfold account_clear_cooldown. by rewrite lookup_alter_ne.
  - set (f := account_find t now (au_profile_id u) (au_credential_id u)).
    destruct (account_find_wf t now (au_profile_id u) (au_credential_id u) Ht) as (_ & Hp & Hc).
    fold f in Hp, Hc. unfold auth_failed, account_upsert. simpl.
    assert (as_profile_id (apply_enabled f (au_enabled u)) = au_profile_id u) as ->
      by (destruct (au_enabled u) as [[]|]; simpl; congruence).
    assert (as_credential_id (apply_enabled f (au_enabled u)) = au_credential_id u) as ->
      by (destruct (au_enabled u) as [[]|]; simpl; congruence).
    destruct (decide ((au_profile_id u, au_credential_id u) = (p, c))) as [Heq|Hne].
    + rewrite Heq, lookup_insert_eq. eexists. split; [done|]. simpl.
      assert (f = s) as ->.
      { unfold f. rewrite account_find_lookup by done. by rewrite Heq, Hs. }
      destruct (au_enabled u) as [[]|]; simpl; naive_solver.
    + exists s. by rewrite lookup_insert_ne.
Qed.

(** A Key that failed authentication is not selectable again, at any later
    time, until a reply succeeds on it, the user re-enables it, or a failure of
    another kind is recorded against it. *)
Theorem auth_failure_is_permanent (t : AccountTable) (policy : GatewayPolicy) (p c : ident)
  (now : Z) (ops : list account_op) :
  table_wf t -> Forall (keeps_auth_verdict p c) ops ->
  exists s, account_run (OpFailure policy p c KindAuth now :: ops) t !! (p, c) = Some s /\
            forall now', is_ready_at s now' = false.
Proof.
  intros Ht Hops. simpl.
  assert (Hw : table_wf (mark_failure t policy p c KindAuth now)) by exact (account_step_wf t (OpFailure policy p c KindAuth now) Ht).
  assert (Ha : auth_failed (mark_failure t policy p c KindAuth now) p c).
  { exists (failed_account (account_find t now p c) policy KindAuth now).
    by rewrite mark_failure_lookup. }
  revert Hw Ha. generalize (mark_failure t policy p c KindAuth now) as t'. clear Ht t.
  induction Hops as [|op ops Hop _ IH]; intros t Hw Ha; simpl.
  - destruct Ha as (s & Hs & Hr). exists s. split; [done|]. intros now'.
    unfold is_ready_at. rewrite Hr. simpl. by rewrite andb_false_r.
  - apply IH; [by apply account_step_wf|by apply account_step_keeps_auth].
Qed.

(** A later failure of another kind replaces the verdict: the rejected Key
    becomes selectable again when that cooldown ends. *)
Theorem auth_verdict_overwritten (policy : GatewayPolicy) (p c : ident) (now : Z) :
  gp_cooldown_overrides_ms policy = [] -> in_i64 (now + 30001) ->
  exists s,
    account_run [OpFailure policy p c KindAuth now; OpFailure policy p c KindRate (now + 1)] ∅
      !! (p, c) = Some s /\ is_ready_at s (now + 30001) = true.
Proof.
  intros Ho Hr. simpl.
  pose proof (account_step_wf ∅ (OpFailure policy p c KindAuth now) table_wf_empty) as Hw.
  simpl in Hw. eexists. rewrite mark_failure_lookup by done. split; [done|].
  rewrite account_find_lookup by done.
  rewrite (mark_failure_lookup ∅ policy p c KindAuth now table_wf_empty). simpl.
  rewrite account_find_lookup by apply table_wf_empty. rewrite lookup_empty.
  unfold failed_account at 1. rewrite Ho. unfold is_ready_at. simpl.
  unfold i64_saturating_add, i64_clamp. int_lia.
Qed.

(** ** Token windows *)

Lemma duration_pos w : (0 < GatewayTokenWindow_duration_ms w)%Z.
Proof. by destruct w. Qed.

Lemma window_start_bounds w now :
  (window_start w now <= now < window_start w now + GatewayTokenWindow_duration_ms w)%Z.
Proof.
  unfold window_start, GatewayTokenWindow_duration_ms.
  pose proof (Z.div_mod now 86400000) as H1. pose proof (Z.mod_pos_bound now 86400000) as H2.
  pose proof (Z.div_mod (now / 86400000) 7) as H3.
  pose proof (Z.mod_pos_bound (now / 86400000) 7) as H4.
  pose proof (Z.div_mod (now / 86400000) 30) as H5.
  pose proof (Z.mod_pos_bound (now / 86400000) 30) as H6.
  change (24 * 60 * 60 * 1000)%Z with 86400000%Z. destruct w; lia.
Qed.

(** The window a timestamp falls into contains it, starts on a whole UTC day,
    and two timestamps of one window get the same start. *)
Theorem window_start_partition (w : GatewayTokenWindow) (now now' : Z) :
  (window_start w now <= now < window_start w now + GatewayTokenWindow_duration_ms w)%Z /\
  (window_start w now mod GatewayTokenWindow_duration_ms WindowDay = 0)%Z /\
  ((window_start w now <= now' < window_start w now + GatewayTokenWindow_duration_ms w)%Z ->
   window_start w now' = window_start w now).
Proof.
  split; [apply window_start_bounds|]. split.
  - unfold window_start. destruct w; apply Z.mod_mul; done.
  - intros H. pose proof (window_start_bounds w now') as H'.
    assert (exists q q', window_start w now = q * GatewayTokenWindow_duration_ms w /\
      window_start w now' = q' * GatewayTokenWindow_duration_ms w)%Z as (q & q' & Hq & Hq').
    { unfold window_start, GatewayTokenWindow_duration_ms.
      destruct w; [do 2 eexists; split; reflexivity|..].
      - exists (now / (24 * 60 * 60 * 1000) / 7)%Z, (now' / (24 * 60 * 60 * 1000) / 7)%Z. lia.
      - exists (now / (24 * 60 * 60 * 1000) / 30)%Z, (now' / (24 * 60 * 60 * 1000) / 30)%Z. lia. }
    rewrite Hq, Hq' in *. pose proof (duration_pos w). f_equal. nia.
Qed.

(** The records of one request stream against one Provider and window kind. *)
Definition window_run (t : WindowTable) (p : ident) (w : GatewayTokenWindow)
  (records : list (Z * Z)) : WindowTable :=
  foldl (fun t r => window_record t p w r.1 r.2) t records.

Definition window_sum (w : GatewayTokenWindow) (start : Z) (records : list (Z * Z)) : Z :=
  foldr (fun r acc => if bool_decide (window_start w r.2 = start)
                      then (i64_try_from_u64 r.1 + acc)%Z else acc) 0%Z records.

Lemma window_record_lookup t p w tokens now start :
  (exists stop, window_record t p w tokens now !! (p, w, start) =
     if bool_decide (window_start w now = start)
     then Some (default stop (fst <$> t !! (p, w, start)),
                default 0 (snd <$> t !! (p, w, start)) + i64_try_from_u64 tokens)%Z
     else t !! (p, w, start)).
Proof.
  unfold window_record.
  exists (i64_saturating_add (window_start w now) (GatewayTokenWindow_duration_ms w)).
  case_bool_decide as Hs.
  - subst start. destruct (t !! _) as [[stop used]|]; by rewrite lookup_insert_eq.
  - destruct (t !! (p, w, window_start w now)) as [[stop used]|];
      rewrite lookup_insert_ne by congruence; done.
Qed.

Lemma window_run_used t p w records start :
  default 0%Z (snd <$> window_run t p w records !! (p, w, start)) =
  (default 0%Z (snd <$> t !! (p, w, start)) + window_sum w start records)%Z.
Proof.
  revert t. induction records as [|[tokens now] records IH]; intros t; simpl; [lia|].
  rewrite IH. destruct (window_record_lookup t p w tokens now start) as [stop ->].
  case_bool_decide; simpl; lia.
Qed.

Lemma window_sum_nonneg w start records :
  Forall (fun r => (0 <= r.1)%Z) records -> (0 <= window_sum w start records)%Z.
Proof.
  induction 1 as [|r l Hr _ IH]; simpl; [done|].
  case_bool_decide; [|done]. unfold i64_try_from_u64, i64_max in *. lia.
Qed.

(** The usage reported for a window is the sum of the tokens recorded inside
    it, whatever other windows were recorded in between. *)
Theorem window_usage_is_the_sum (p : ident) (w : GatewayTokenWindow)
  (records : list (Z * Z)) (now : Z) :
  Forall (fun r => (0 <= r.1)%Z) records ->
  default 0%Z (wu_used_tokens <$> window_current (window_run ∅ p w records) p w now) =
  window_sum w (window_start w now) records.
Proof.
  intros Hpos.
  pose proof (window_run_used ∅ p w records (window_start w now)) as H.
  rewrite lookup_empty in H. simpl in H.
  pose proof (window_sum_nonneg w (window_start w now) records Hpos) as Hn.
  unfold window_current. destruct (window_run _ _ _ _ !! _) as [[stop used]|]; simpl in *; lia.
Qed.

(** ** Ledger pages *)

Lemma ledger_key_inj (a b : ModelGatewayRequestLog) :
  ledger_key a = ledger_key b ->
  lg_created_at_ms a = lg_created_at_ms b /\ lg_request_id a = lg_request_id b.
Proof.
  unfold ledger_key. intros [= Ht Hi]. split; [lia|].
  by apply (inj (fmap Z.of_N)) in Hi.
Qed.

(** The cursor test is the strict order of the listing. *)
Lemma past_cursor_lex r l :
  past_cursor (Some (cursor_of r)) l = negb (lex_le (ledger_key l) (ledger_key r)).
Proof.
  unfold past_cursor, cursor_of, str_lt, str_le, ledger_key. simpl.
  destruct (Z.compare_spec (- lg_created_at_ms l) (- lg_created_at_ms r)) as [H|H|H].
  - rewrite (proj2 (Z.ltb_ge _ _)), (proj2 (Z.eqb_eq _ _)) by lia. done.
  - rewrite (proj2 (Z.ltb_ge _ _)), (proj2 (Z.eqb_neq _ _)) by lia. done.
  - by rewrite (proj2 (Z.ltb_lt _ _)) by lia.
Qed.

(** The rows one query selects, in listing order, before LIMIT. *)
Definition ledger_listing (rows : list ModelGatewayRequestLog) (q : GatewayRequestQuery)
  : list ModelGatewayRequestLog :=
  sort_by_key ledger_key
    (retain (fun l => in_window (q_since_ms q) (q_until_ms q) l && past_cursor (q_before q) l) rows).

Lemma ledger_listing_NoDup rows q :
  NoDup (lg_request_id <$> rows) -> NoDup (ledger_key <$> ledger_listing rows q).
Proof.
  intros H. unfold ledger_listing. rewrite sort_by_key_perm.
  apply NoDup_fmap_2_strong.
  - intros x y Hx Hy Hk. apply ledger_key_inj in Hk as [_ Hk].
    apply elem_of_retain in Hx as [Hx _], Hy as [Hy _].
    apply list_elem_of_lookup in Hx as [i Hi], Hy as [j Hj].
    assert (i = j) as ->; [|congruence].
    apply (NoDup_lookup _ i j (lg_request_id x) H); rewrite list_lookup_fmap.
    + by rewrite Hi.
    + by rewrite Hj, Hk.
  - apply NoDup_fmap_1 in H. clear -H. induction H as [|x l Hx _ IH]; simpl; [constructor|].
    case_match; [|done]. constructor; [|done]. intros [Hin _]%elem_of_retain. done.
Qed.

Lemma past_cursor_trans before r l :
  past_cursor before r = true -> past_cursor (Some (cursor_of r)) l = true ->
  past_cursor before l = true.
Proof.
  destruct before as [[t i]|]; [|done].
  set (r0 := {| lg_request_id := i; lg_created_at_ms := t; lg_agent_id := None;
    lg_profile_id := []; lg_credential_id := None; lg_model_requested := [];
    lg_model_served := None; lg_wire_in := []; lg_wire_out := []; lg_status := None;
    lg_input_tokens := 0; lg_output_tokens := 0; lg_cached_read_tokens := 0;
    lg_cached_write_tokens := 0; lg_reasoning_tokens := 0; lg_latency_ms := None;
    lg_outcome := OutcomeOk; lg_route := None |}).
  change (mkCursor t i) with (cursor_of r0). rewrite !past_cursor_lex, !negb_true_iff.
  intros Hr Hl. destruct (lex_le (ledger_key l) (ledger_key r0)) eqn:E; [|done].
  destruct (lex_le_total (ledger_key l) (ledger_key r)) as [?|Hrl]; [congruence|].
  rewrite (lex_le_trans _ _ _ Hrl E) in Hr. done.
Qed.

Lemma ledger_listing_after rows q pre r post :
  NoDup (lg_request_id <$> rows) ->
  ledger_listing rows q = pre ++ r :: post ->
  ledger_listing rows (query_after q (cursor_of r)) = post.
Proof.
  intros Hnd Heq.
  assert (Hr : past_cursor (q_before q) r = true).
  { assert (Hin : r ∈ ledger_listing rows q) by (rewrite Heq; set_solver).
    unfold ledger_listing in Hin. rewrite sort_by_key_perm in Hin.
    apply elem_of_retain in Hin as [_ Hin]. by apply andb_true_iff in Hin as [_ ?]. }
  transitivity (retain (past_cursor (Some (cursor_of r))) (ledger_listing rows q)).
  - unfold ledger_listing at 2. rewrite sort_by_key_retain, retain_and.
    unfold ledger_listing. cbn [query_after q_since_ms q_until_ms q_before].
    f_equal. apply retain_ext. intros l.
    destruct (in_window _ _ l); cbn [andb]; [|done].
    destruct (past_cursor (Some (cursor_of r)) l) eqn:E; [|by rewrite andb_false_r].
    by rewrite (past_cursor_trans _ _ _ Hr E).
  - rewrite Heq. rewrite <- (key_sorted_after ledger_key pre r post) at 2.
    + apply retain_ext. intros l. apply past_cursor_lex.
    + rewrite <- Heq. apply sort_by_key_sorted.
    + rewrite <- Heq. by apply ledger_listing_NoDup.
Qed.

(** Following the cursor of the last row, page after page, lists every row of
    the window once and in order: [n] pages are the first [n * limit] rows. *)
Theorem ledger_pages_complete (rows : list ModelGatewayRequestLog) (q : GatewayRequestQuery)
  (n : nat) :
  NoDup (lg_request_id <$> rows) ->
  ledger_pages rows q n = take (n * clamp_limit (q_limit q)) (ledger_listing rows q).
Proof.
  intros Hnd. revert q. induction n as [|n IH]; intros q; simpl; [done|].
  assert (Hpage : ledger_page rows q = take (clamp_limit (q_limit q)) (ledger_listing rows q)) by done.
  rewrite Hpage. set (k := clamp_limit (q_limit q)). set (L := ledger_listing rows q).
  assert (Hk : 1 <= k) by (unfold k, clamp_limit; lia).
  destruct (last (take k L)) as [r|] eqn:Hl.
  - apply last_Some in Hl as [pre Hpre].
    assert (HL : L = pre ++ r :: drop k L).
    { rewrite <- (take_drop k L) at 1. by rewrite Hpre, <- app_assoc. }
    rewrite IH. simpl. fold k. rewrite (ledger_listing_after rows q pre r (drop k L)) by done.
    rewrite <- (take_drop k (take (k + n * k) L)) at 1.
    rewrite take_take, (Nat.min_l k) by lia. f_equal.
    rewrite skipn_firstn_comm. f_equal. lia.
  - apply last_None in Hl. destruct L as [|x L']; [by rewrite !take_nil|].
    destruct k; [lia|done].
Qed.
