(* ===== verification/RouteModel.v ===== *)
(** Model routes (crates/core/src/model_route.rs): the route, its members and
    rules, the validation of a route, the rule matcher and the group-qualified
    model ids.  A [Vec] loop that remembers what it has seen is a [for_fold]
    over the list of keys, with the source's early returns. *)
From stdpp Require Import prelude strings list sorting.
From Stdlib Require Import NArith ZArith Lia Sorted.
From S2P Require Import Prelude CoreTypes GatewayTypes.

Definition MAX_ROUTE_MEMBERS : nat := 16.
Definition MAX_ROUTES : nat := 32.
Definition ROUTE_GROUP_MODEL_PREFIX : str := lit "group/".
Definition MAX_MEMBER_WEIGHT : Z := 100.
Definition DEFAULT_MEMBER_WEIGHT : Z := 1.
Definition MAX_ROUTE_LEVELS : nat := 8.
Definition MAX_ROUTE_PATIENCE_MS : Z := 240000.

(** ** Enumerations *)

Inductive RouteKind : Type := ModelGroup | Direct.
Definition RouteKind_ALL : list RouteKind := [ModelGroup; Direct].
Definition RouteKind_id (k : RouteKind) : str :=
  match k with ModelGroup => lit "model_group" | Direct => lit "direct" end.
Definition RouteKind_from_id (value : str) : option RouteKind :=
  let v := trim value in
  if bool_decide (v = lit "provider_group") || bool_decide (v = lit "model_group")
  then Some ModelGroup
  else if bool_decide (v = lit "direct") then Some Direct else None.
Definition via_gateway (k : RouteKind) : bool :=
  match k with ModelGroup => true | Direct => false end.
Definition member_limit (k : RouteKind) : nat :=
  match k with ModelGroup => MAX_ROUTE_MEMBERS | Direct => 1 end.

Inductive RouteStrategy : Type :=
| Ordered | RoundRobin | LeastUsed | Smart | LowestLatency | Weighted | Manual.
Definition RouteStrategy_ALL : list RouteStrategy :=
  [Ordered; RoundRobin; LeastUsed; Smart; LowestLatency; Weighted; Manual].
Definition RouteStrategy_id (s : RouteStrategy) : str :=
  match s with
  | Ordered => lit "ordered"
  | RoundRobin => lit "round_robin"
  | LeastUsed => lit "least_used"
  | Smart => lit "smart"
  | LowestLatency => lit "lowest_latency"
  | Weighted => lit "weighted"
  | Manual => lit "manual"
  end.
Definition RouteStrategy_from_id (value : str) : option RouteStrategy :=
  find_by_id RouteStrategy_ALL RouteStrategy_id value.

Inductive RouteStatus : Type := RouteEnabled | RouteDisabled.
Definition RouteStatus_ALL : list RouteStatus := [RouteEnabled; RouteDisabled].
Definition RouteStatus_id (s : RouteStatus) : str :=
  match s with RouteEnabled => lit "enabled" | RouteDisabled => lit "disabled" end.
Definition RouteStatus_from_id (value : str) : option RouteStatus :=
  find_by_id RouteStatus_ALL RouteStatus_id value.

#[export] Instance RouteKind_eq_dec : EqDecision RouteKind.
Proof. solve_decision. Defined.
#[export] Instance RouteStrategy_eq_dec : EqDecision RouteStrategy.
Proof. solve_decision. Defined.
#[export] Instance RouteStatus_eq_dec : EqDecision RouteStatus.
Proof. solve_decision. Defined.

(** ** Members *)

Record ModelRouteMember : Type := mkMember {
  rm_id : ident;
  rm_profile_id : ident;
  rm_model_id : str;
  rm_enabled : bool;
  rm_order_index : Z;
  rm_reasoning_effort : option str;
  rm_weight : Z;
  rm_context_tokens : option Z;
  rm_first_token_timeout_ms : option Z
}.
#[export] Instance ModelRouteMember_eq_dec : EqDecision ModelRouteMember.
Proof. solve_decision. Defined.

(** [uuid] is the random suffix [ModelRouteMemberId::new] draws. *)
Definition ModelRouteMember_new (uuid : str) (profile : ident) (model : str) (order_index : Z)
  : ModelRouteMember :=
  {| rm_id := id_new ModelRouteMemberId uuid; rm_profile_id := profile; rm_model_id := model;
     rm_enabled := true; rm_order_index := order_index; rm_reasoning_effort := None;
     rm_weight := DEFAULT_MEMBER_WEIGHT; rm_context_tokens := None;
     rm_first_token_timeout_ms := None |}.
Definition ModelRouteMember_provider (uuid : str) (profile : ident) (order_index : Z)
  : ModelRouteMember := ModelRouteMember_new uuid profile [] order_index.

Definition names_model (m : ModelRouteMember) : bool := negb (is_empty (trim (rm_model_id m))).

(** [s.trim()] is empty or longer than [max] characters. *)
Definition out_of_bounds (max : nat) (s : str) : bool :=
  is_empty (trim s) || (max <? length (trim s)).

Definition ModelRouteMember_validate (m : ModelRouteMember) : VibexResult unit :=
  reject (rm_order_index m <? 0)%Z with
    (invalid "route_member_order_invalid" "a route member order must not be negative") ;;
  reject ((rm_weight m =? 0) || (MAX_MEMBER_WEIGHT <? rm_weight m))%Z with
    (invalid "route_member_weight_invalid"
      "a route member weight must be between one and one hundred") ;;
  reject (bool_decide (rm_context_tokens m = Some 0%Z)) with
    (invalid "route_member_context_invalid"
      "a route member context window must be greater than zero") ;;
  reject (bool_decide (rm_first_token_timeout_ms m = Some 0%Z)) with
    (invalid "route_member_first_token_timeout_invalid"
      "a route member first-token timeout must be greater than zero") ;;
  reject (match rm_reasoning_effort m with Some e => out_of_bounds 64 e | None => false end) with
    (invalid "route_member_effort_invalid"
      "a route member reasoning effort must be non-empty and bounded") ;;
  Ok tt.

Definition ModelRouteMember_validate_model (m : ModelRouteMember) : VibexResult unit :=
  let model := trim (rm_model_id m) in
  reject (is_empty model) with
    (invalid "route_member_model_invalid" "a route member must name a model") ;;
  reject (256 <? length model) with
    (invalid "route_member_model_invalid"
      "a route member model id is longer than the supported length") ;;
  Ok tt.

(** ** Rules *)

Record RouteTimeWindow : Type := mkTimeWindow {
  tw_days : list Z;
  tw_start_minute : Z;
  tw_end_minute : Z;
  tw_zone : option str
}.

Definition validate_day (seen : list Z) (day : Z) : VibexResult (list Z) :=
  reject (negb ((1 <=? day) && (day <=? 7)))%Z with
    (invalid "route_rule_time_day_invalid"
      "a weekday must be between Monday (1) and Sunday (7)") ;;
  reject (bool_decide (day ∈ seen)) with
    (invalid "route_rule_time_day_duplicate" "a time window lists the same weekday twice") ;;
  Ok (seen ++ [day]).

Definition RouteTimeWindow_validate (w : RouteTimeWindow) : VibexResult unit :=
  reject (is_empty (tw_days w)) with
    (invalid "route_rule_time_days_missing" "a time window must name at least one weekday") ;;
  let? _ := for_fold validate_day [] (tw_days w) in
  reject ((24 * 60 <=? tw_start_minute w) || (24 * 60 <=? tw_end_minute w))%Z with
    (invalid "route_rule_time_minute_invalid" "a time window must stay within one day") ;;
  reject (tw_start_minute w =? tw_end_minute w)%Z with
    (invalid "route_rule_time_empty" "a time window must start and end at different minutes") ;;
  reject (match tw_zone w with Some z => out_of_bounds 64 z | None => false end) with
    (invalid "route_rule_time_zone_invalid" "a timezone name must be non-empty and bounded") ;;
  Ok tt.

Definition RouteTimeWindow_contains (w : RouteTimeWindow) (day minute : Z) : bool :=
  if negb (bool_decide (day ∈ tw_days w)) then false
  else if (tw_start_minute w <=? tw_end_minute w)%Z
  then (tw_start_minute w <=? minute)%Z && (minute <? tw_end_minute w)%Z
  else (tw_start_minute w <=? minute)%Z || (minute <? tw_end_minute w)%Z.

Record ModelRouteRule : Type := mkRule {
  ru_id : str;
  ru_use_member_id : option ident;
  ru_more_member_ids : list ident;
  ru_use_effort : option str;
  ru_tokens_min : option Z;
  ru_images : option bool;
  ru_effort : option str;
  ru_agents : list str;
  ru_intent : option str;
  ru_compact : option bool;
  ru_time : option RouteTimeWindow;
  ru_folders : list str;
  ru_except_folders : list str;
  ru_pause : bool
}.

Definition is_some {A} (o : option A) : bool := match o with Some _ => true | None => false end.

Definition has_condition (r : ModelRouteRule) : bool :=
  is_some (ru_tokens_min r) || is_some (ru_images r) || is_some (ru_effort r)
  || negb (is_empty (ru_agents r)) || is_some (ru_intent r) || is_some (ru_compact r)
  || is_some (ru_time r) || negb (is_empty (ru_folders r))
  || negb (is_empty (ru_except_folders r)).
Definition selects_member (r : ModelRouteRule) : bool := is_some (ru_use_member_id r).

(** One turn of the [more_member_ids] loop of [ModelRouteRule::validate]. *)
Definition validate_more_member (member_ids : list ident) (use_member : option ident)
  (seen : list ident) (member : ident) : VibexResult (list ident) :=
  reject (negb (bool_decide (member ∈ member_ids))) with
    (invalid "route_rule_member_unknown" "a rule names a member that is not part of the route") ;;
  reject (bool_decide (use_member = Some member) || bool_decide (member ∈ seen)) with
    (invalid "route_rule_member_duplicate" "a rule lists the same member twice") ;;
  Ok (seen ++ [member]).

(** The action checks: a pause rule chooses nothing, any other rule names the
    member it starts with. *)
Definition validate_rule_action (r : ModelRouteRule) : VibexResult unit :=
  if ru_pause r then
    reject (selects_member r || negb (is_empty (ru_more_member_ids r))
            || is_some (ru_use_effort r)) with
      (invalid "route_rule_pause_action_invalid"
        "a pause rule cannot choose a member or an effort") ;;
    Ok tt
  else
    reject (negb (selects_member r)) with
      (invalid "route_rule_member_missing" "a rule must name the member it tries first") ;;
    reject (match ru_intent r with Some i => is_empty (trim i) | None => false end) with
      (invalid "route_rule_intent_invalid" "a rule intent must be non-empty when present") ;;
    Ok tt.

Definition ModelRouteRule_validate (member_ids : list ident) (r : ModelRouteRule)
  : VibexResult unit :=
  reject (out_of_bounds 128 (ru_id r)) with
    (invalid "route_rule_id_invalid" "a rule id must be non-empty and bounded") ;;
  reject (negb (has_condition r)) with
    (invalid "route_rule_condition_missing" "a rule must name at least one match condition") ;;
  try (match ru_time r with Some window => RouteTimeWindow_validate window | None => Ok tt end) ;;
  reject (match ru_use_member_id r with
          | Some member => negb (bool_decide (member ∈ member_ids))
          | None => false
          end) with
    (invalid "route_rule_member_unknown" "a rule names a member that is not part of the route") ;;
  let? _ := for_fold (validate_more_member member_ids (ru_use_member_id r)) []
              (ru_more_member_ids r) in
  reject (match ru_use_effort r with Some e => out_of_bounds 64 e | None => false end) with
    (invalid "route_rule_effort_invalid" "a rule effort must be non-empty and bounded") ;;
  try (validate_rule_action r) ;;
  try (for_each (fun agent =>
        reject (is_empty (trim agent) || (128 <? length agent)) with
          (invalid "route_rule_agent_invalid" "a rule Agent id must be non-empty and bounded") ;;
        Ok tt) (ru_agents r)) ;;
  for_each (fun folder =>
    reject (is_empty (trim folder) || (512 <? length folder)) with
      (invalid "route_rule_folder_invalid" "a rule folder must be non-empty and bounded") ;;
    Ok tt) (ru_folders r ++ ru_except_folders r).

(** ** Matching *)

Record RouteRuleContext : Type := mkRuleContext {
  rc_agent_id : option str;
  rc_context_tokens : option Z;
  rc_has_images : bool;
  rc_requested_effort : option str;
  rc_compact : bool;
  rc_intent : option str;
  rc_workspace_root : option str;
  rc_local_weekday : option Z;
  rc_local_minute : option Z
}.

(** The early returns of [rule_matches], in order. *)
Definition rule_matches (rule : ModelRouteRule) (context : RouteRuleContext) : bool :=
  (if is_empty (ru_agents rule) then true
   else match rc_agent_id context with
        | None => false
        | Some agent_id => existsb (fun agent => bool_decide (trim agent = agent_id)) (ru_agents rule)
        end)
  && match ru_tokens_min rule with
     | None => true
     | Some minimum => match rc_context_tokens context with
                       | None => false
                       | Some tokens => negb (tokens <? minimum)%Z
                       end
     end
  && match ru_images rule with
     | None => true
     | Some images => eqb images (rc_has_images context)
     end
  && match ru_effort rule with
     | None => true
     | Some effort => match rc_requested_effort context with
                      | None => false
                      | Some requested => eq_ignore_ascii_case requested (trim effort)
                      end
     end
  && match ru_compact rule with
     | None => true
     | Some compact => eqb compact (rc_compact context)
     end
  && match ru_intent rule with
     | None => true
     | Some intent => match rc_intent context with
                      | None => false
                      | Some actual => eq_ignore_ascii_case actual (trim intent)
                      end
     end
  && match ru_time rule with
     | None => true
     | Some window =>
       match rc_local_weekday context, rc_local_minute context with
       | Some day, Some minute =>
         match tw_zone window with
         | Some zone => eq_ignore_ascii_case (trim zone) (lit "local")
         | None => true
         end && RouteTimeWindow_contains window day minute
       | _, _ => false
       end
     end
  && (if is_empty (ru_folders rule) then true
      else match rc_workspace_root context with
           | None => false
           | Some root => existsb (fun fragment => str_contains root (trim fragment)) (ru_folders rule)
           end)
  && negb (existsb (fun fragment =>
        match rc_workspace_root context with
        | Some root => str_contains root (trim fragment)
        | None => false
        end) (ru_except_folders rule)).

Definition first_matching_rule (rules : list ModelRouteRule) (context : RouteRuleContext)
  : option (nat * ModelRouteRule) :=
  match position (fun rule => rule_matches rule context) rules with
  | None => None
  | Some index => (pair index) <$> rules !! index
  end.

(** ** Routes *)

Record ModelRoute : Type := mkRoute {
  mr_id : ident;
  mr_display_name : str;
  mr_description : option str;
  mr_kind : RouteKind;
  mr_members : list ModelRouteMember;
  mr_strategy : RouteStrategy;
  mr_agent_model_id : option str;
  mr_rules : list ModelRouteRule;
  mr_classifier : option str;
  mr_effort : option str;
  mr_patience_ms : option Z;
  mr_sink : bool;
  mr_unlists : bool;
  mr_levels : list str;
  mr_pick_member_id : option ident;
  mr_first_token_timeout_ms : option Z;
  mr_context_tokens : option Z;
  mr_pin : GatewayPinScope;
  mr_failover : GatewayFailover;
  mr_token_limit : option GatewayTokenLimit;
  mr_status : RouteStatus;
  mr_revision : Z;
  mr_created_at_ms : Z;
  mr_updated_at_ms : Z;
  mr_deleted_at_ms : option Z
}.

(** [ModelRoute::default]; [uuid] is the random suffix of the new id. *)
Definition ModelRoute_default (uuid : str) : ModelRoute :=
  {| mr_id := id_new ModelRouteId uuid; mr_display_name := []; mr_description := None;
     mr_kind := ModelGroup; mr_members := []; mr_strategy := Ordered; mr_agent_model_id := None;
     mr_rules := []; mr_classifier := None; mr_effort := None; mr_patience_ms := None;
     mr_sink := false; mr_unlists := false; mr_levels := []; mr_pick_member_id := None;
     mr_first_token_timeout_ms := None; mr_context_tokens := None; mr_pin := PinConversation;
     mr_failover := FailoverAuto; mr_token_limit := None; mr_status := RouteDisabled;
     mr_revision := 1; mr_created_at_ms := 0; mr_updated_at_ms := 0; mr_deleted_at_ms := None |}.

Definition ModelRoute_MAX_DISPLAY_NAME_LEN : nat := 160.

Definition enabled_members (r : ModelRoute) : list ModelRouteMember :=
  retain rm_enabled (mr_members r).
Definition is_model_group (r : ModelRoute) : bool := bool_decide (mr_kind r = ModelGroup).

(** The Agent-facing model id, trimmed; an empty one is absent. *)
Definition agent_model (r : ModelRoute) : option str :=
  match mr_agent_model_id r with
  | None => None
  | Some id => if is_empty (trim id) then None else Some (trim id)
  end.

Definition distinct_models (r : ModelRoute) : list str :=
  if is_model_group r
  then match agent_model r with Some m => [m] | None => [] end
  else foldl (fun seen m => push_new seen (rm_model_id m)) []
         (retain names_model (enabled_members r)).

Definition set_agent_model_id (r : ModelRoute) (id : option str) : ModelRoute :=
  {| mr_id := mr_id r; mr_display_name := mr_display_name r; mr_description := mr_description r;
     mr_kind := mr_kind r; mr_members := mr_members r; mr_strategy := mr_strategy r;
     mr_agent_model_id := id; mr_rules := mr_rules r; mr_classifier := mr_classifier r;
     mr_effort := mr_effort r; mr_patience_ms := mr_patience_ms r; mr_sink := mr_sink r;
     mr_unlists := mr_unlists r; mr_levels := mr_levels r;
     mr_pick_member_id := mr_pick_member_id r;
     mr_first_token_timeout_ms := mr_first_token_timeout_ms r;
     mr_context_tokens := mr_context_tokens r; mr_pin := mr_pin r; mr_failover := mr_failover r;
     mr_token_limit := mr_token_limit r; mr_status := mr_status r; mr_revision := mr_revision r;
     mr_created_at_ms := mr_created_at_ms r; mr_updated_at_ms := mr_updated_at_ms r;
     mr_deleted_at_ms := mr_deleted_at_ms r |}.
Definition sync_agent_model_id (r : ModelRoute) : ModelRoute :=
  set_agent_model_id r (if is_model_group r then Some (trim (mr_display_name r)) else None).
Definition source_count (r : ModelRoute) : nat := length (enabled_members r).

(** [ModelRoute::model_id]: the prefix of every id the route publishes. *)
Definition route_model_id (r : ModelRoute) : str :=
  ROUTE_GROUP_MODEL_PREFIX ++ mr_id r ++ [slash].
Definition group_model_id (r : ModelRoute) (model : str) : str :=
  route_model_id r ++ trim_matches (N.eqb slash) (trim model).
Definition gateway_model_id (r : ModelRoute) : option str := group_model_id r <$> agent_model r.

Record RouteGroupModelRef : Type := mkGroupRef { gr_group_id : str; gr_model_id : str }.
Definition route_group_model_ref (requested : str) : option RouteGroupModelRef :=
  match strip_prefix ROUTE_GROUP_MODEL_PREFIX requested with
  | None => None
  | Some rest =>
    match split_once slash rest with
    | None => None
    | Some (group_id, model_id) =>
      let group_id := trim group_id in
      let model_id := trim model_id in
      if negb (is_empty group_id) && negb (is_empty model_id)
      then Some (mkGroupRef group_id model_id) else None
    end
  end.

Definition serves_model_group_id (r : ModelRoute) (requested : str) : bool :=
  match route_group_model_ref requested with
  | None => false
  | Some parsed =>
    bool_decide (gr_group_id parsed = mr_id r) && is_model_group r
    && bool_decide (agent_model r = Some (gr_model_id parsed))
  end.

Definition member_order_key (m : ModelRouteMember) : list Z :=
  rm_order_index m :: (Z.of_N <$> rm_id m).
(** [ModelRoute::sort_members], on the member list. *)
Definition sort_members (members : list ModelRouteMember) : list ModelRouteMember :=
  sort_by_key member_order_key members.

(** ** Validation of a route *)

(** One turn of the member loop: [seen] is the pair of ids and orders. *)
Definition validate_member (seen : list ident * list Z) (m : ModelRouteMember)
  : VibexResult (list ident * list Z) :=
  try (ModelRouteMember_validate m) ;;
  try (ModelRouteMember_validate_model m) ;;
  reject (bool_decide (rm_id m ∈ seen.1)) with
    (invalid "route_member_duplicate" "a route contains the same member twice") ;;
  let order := if (rm_order_index m <? 0)%Z then u64_max else rm_order_index m in
  reject (bool_decide (order ∈ seen.2)) with
    (invalid "route_member_order_duplicate"
      "two route members claim the same place in the order") ;;
  Ok (seen.1 ++ [rm_id m], seen.2 ++ [order]).

Definition member_model_key (m : ModelRouteMember) : ident * str :=
  (rm_profile_id m, trim (rm_model_id m)).
Definition validate_member_model (seen : list (ident * str)) (m : ModelRouteMember)
  : VibexResult (list (ident * str)) :=
  reject (bool_decide (member_model_key m ∈ seen)) with
    (invalid "route_member_duplicate_model"
      "a model group lists the same Provider and model twice") ;;
  Ok (seen ++ [member_model_key m]).

Definition validate_model_group (r : ModelRoute) : VibexResult unit :=
  let? model := ok_or (agent_model r)
    (invalid "route_agent_model_missing" "a model group must name the model Agents ask for") in
  reject (256 <? length model) with
    (invalid "route_agent_model_invalid"
      "a model group's Agent-facing id is longer than the supported length") ;;
  reject (bool_decide (slash ∈ model)) with
    (invalid "route_agent_model_invalid"
      "a model group's Agent-facing id must not contain a slash") ;;
  reject (is_empty (enabled_members r)) with
    (invalid "route_group_no_enabled_member" "a model group needs at least one enabled member") ;;
  let? _ := for_fold validate_member_model [] (mr_members r) in
  Ok tt.

Definition validate_level (seen : list str) (level : str) : VibexResult (list str) :=
  reject (out_of_bounds 64 level) with
    (invalid "route_level_invalid" "a route level must be non-empty and bounded") ;;
  reject (bool_decide (trim level ∈ seen)) with
    (invalid "route_level_duplicate" "the route lists the same level twice") ;;
  Ok (seen ++ [trim level]).

Definition validate_rule (member_ids : list ident) (seen : list str) (rule : ModelRouteRule)
  : VibexResult (list str) :=
  try (ModelRouteRule_validate member_ids rule) ;;
  reject (bool_decide (trim (ru_id rule) ∈ seen)) with
    (invalid "route_rule_id_duplicate" "the route lists the same rule id twice") ;;
  Ok (seen ++ [trim (ru_id rule)]).

Definition validate_effort (r : ModelRoute) : VibexResult unit :=
  match mr_effort r with
  | None => Ok tt
  | Some effort =>
    reject (out_of_bounds 64 effort) with
      (invalid "route_effort_invalid" "a route effort must be non-empty and bounded") ;;
    reject (negb (bool_decide (trim effort = lit "auto"))) with
      (invalid "route_effort_invalid" "a route effort is either absent or auto") ;;
    Ok tt
  end.

Definition validate_classifier (r : ModelRoute) : VibexResult unit :=
  match mr_classifier r with
  | None => Ok tt
  | Some classifier =>
    reject (out_of_bounds 256 classifier) with
      (invalid "route_classifier_invalid" "a route classifier must be non-empty and bounded") ;;
    reject (bool_decide (Some (trim classifier) = agent_model r)) with
      (invalid "route_classifier_cycle" "a route cannot classify itself") ;;
    Ok tt
  end.

Definition ModelRoute_validate (r : ModelRoute) : VibexResult unit :=
  reject (out_of_bounds ModelRoute_MAX_DISPLAY_NAME_LEN (mr_display_name r)) with
    (invalid "route_display_name_invalid"
      "a route name must be non-empty and within the supported length") ;;
  reject (is_empty (mr_members r)) with
    (invalid "route_member_missing" "a route must name at least one model") ;;
  reject (MAX_ROUTE_MEMBERS <? length (mr_members r)) with
    (invalid "route_member_limit_exceeded" "the route has more members than it supports") ;;
  reject (bool_decide (mr_kind r = Direct) && negb (length (mr_members r) =? 1)) with
    (invalid "route_direct_member_count_invalid" "a direct route must name exactly one model") ;;
  let? _ := for_fold validate_member ([], []) (mr_members r) in
  try (if is_model_group r then validate_model_group r
       else reject (is_some (mr_agent_model_id r)) with
              (invalid "route_agent_model_unexpected"
                "only a model group has an Agent-facing model id") ;; Ok tt) ;;
  reject (bool_decide (mr_first_token_timeout_ms r = Some 0%Z)) with
    (invalid "route_first_token_timeout_invalid"
      "a first-token timeout must be greater than zero") ;;
  reject (bool_decide (mr_context_tokens r = Some 0%Z)) with
    (invalid "route_context_invalid" "a route context window must be greater than zero") ;;
  reject (match mr_patience_ms r with
          | Some patience => (patience =? 0)%Z || (MAX_ROUTE_PATIENCE_MS <? patience)%Z
          | None => false
          end) with
    (invalid "route_patience_invalid"
      "route patience must be between one millisecond and four minutes") ;;
  try (validate_effort r) ;;
  try (validate_classifier r) ;;
  reject (MAX_ROUTE_LEVELS <? length (mr_levels r)) with
    (invalid "route_level_limit_exceeded" "the route has more levels than it supports") ;;
  let? _ := for_fold validate_level [] (mr_levels r) in
  let member_ids := rm_id <$> mr_members r in
  reject (match mr_pick_member_id r with
          | Some pick => negb (bool_decide (pick ∈ member_ids))
          | None => false
          end) with
    (invalid "route_manual_member_unknown"
      "the manually picked member is not part of the route") ;;
  reject (bool_decide (mr_strategy r = Manual) && is_none (mr_pick_member_id r)) with
    (invalid "route_manual_member_missing" "a manual route must name the member it uses") ;;
  let? _ := for_fold (validate_rule member_ids) [] (mr_rules r) in
  Ok tt.

Record AgentModelRouteBinding : Type := mkBinding {
  rb_id : ident;
  rb_agent_id : str;
  rb_model_route_id : ident;
  rb_is_default : bool;
  rb_revision : Z;
  rb_created_at_ms : Z;
  rb_updated_at_ms : Z;
  rb_deleted_at_ms : option Z
}.
Definition AgentModelRouteBinding_new (id : ident) (agent : str) (route : ident)
  : AgentModelRouteBinding :=
  {| rb_id := id; rb_agent_id := agent; rb_model_route_id := route; rb_is_default := false;
     rb_revision := 1; rb_created_at_ms := 0; rb_updated_at_ms := 0; rb_deleted_at_ms := None |}.

(** * Theorems *)

(** ** The declarative contract of a saved route *)

Definition bounded (max : nat) (s : str) : Prop := trim s <> [] /\ length (trim s) <= max.
Definition on_some {A} (P : A -> Prop) (o : option A) : Prop := forall x, o = Some x -> P x.

Record member_valid (m : ModelRouteMember) : Prop := {
  mv_order : (0 <= rm_order_index m)%Z;
  mv_weight : rm_weight m <> 0%Z /\ (rm_weight m <= MAX_MEMBER_WEIGHT)%Z;
  mv_context : rm_context_tokens m <> Some 0%Z;
  mv_timeout : rm_first_token_timeout_ms m <> Some 0%Z;
  mv_effort : on_some (bounded 64) (rm_reasoning_effort m);
  mv_model : bounded 256 (rm_model_id m)
}.

Record window_valid (w : RouteTimeWindow) : Prop := {
  wv_days : tw_days w <> [] /\ NoDup (tw_days w) /\ Forall (fun d => 1 <= d <= 7)%Z (tw_days w);
  wv_minutes : (tw_start_minute w < 1440)%Z /\ (tw_end_minute w < 1440)%Z /\
    tw_start_minute w <> tw_end_minute w;
  wv_zone : on_some (bounded 64) (tw_zone w)
}.

Record rule_valid (member_ids : list ident) (r : ModelRouteRule) : Prop := {
  rv_id : bounded 128 (ru_id r);
  rv_condition : has_condition r = true;
  rv_time : on_some window_valid (ru_time r);
  rv_members : on_some (fun m => m ∈ member_ids) (ru_use_member_id r) /\
    Forall (fun m => m ∈ member_ids) (ru_more_member_ids r);
  rv_distinct : NoDup (ru_more_member_ids r) /\
    on_some (fun m => m ∉ ru_more_member_ids r) (ru_use_member_id r);
  rv_effort : on_some (bounded 64) (ru_use_effort r);
  rv_action : if ru_pause r
    then ru_use_member_id r = None /\ ru_more_member_ids r = [] /\ ru_use_effort r = None
    else is_Some (ru_use_member_id r) /\ on_some (fun i => trim i <> []) (ru_intent r);
  rv_agents : Forall (fun a => trim a <> [] /\ length a <= 128) (ru_agents r);
  rv_folders : Forall (fun f => trim f <> [] /\ length f <= 512)
    (ru_folders r ++ ru_except_folders r)
}.

Record group_valid (r : ModelRoute) : Prop := {
  gv_model : exists m, agent_model r = Some m /\ length m <= 256 /\ slash ∉ m;
  gv_enabled : exists m, m ∈ mr_members r /\ rm_enabled m = true;
  gv_distinct : NoDup (member_model_key <$> mr_members r)
}.

Record route_valid (r : ModelRoute) : Prop := {
  ro_name : bounded ModelRoute_MAX_DISPLAY_NAME_LEN (mr_display_name r);
  ro_count : 1 <= length (mr_members r) <= member_limit (mr_kind r);
  ro_members : Forall member_valid (mr_members r);
  ro_ids : NoDup (rm_id <$> mr_members r);
  ro_orders : NoDup (rm_order_index <$> mr_members r);
  ro_group : if is_model_group r then group_valid r else mr_agent_model_id r = None;
  ro_timeout : mr_first_token_timeout_ms r <> Some 0%Z;
  ro_context : mr_context_tokens r <> Some 0%Z;
  ro_patience : on_some (fun p => p <> 0%Z /\ (p <= MAX_ROUTE_PATIENCE_MS)%Z) (mr_patience_ms r);
  ro_effort : on_some (fun e => trim e = lit "auto") (mr_effort r);
  ro_classifier : on_some (fun c => bounded 256 c /\ agent_model r <> Some (trim c))
    (mr_classifier r);
  ro_levels : length (mr_levels r) <= MAX_ROUTE_LEVELS /\ Forall (bounded 64) (mr_levels r) /\
    NoDup (trim <$> mr_levels r);
  ro_pick : on_some (fun p => p ∈ rm_id <$> mr_members r) (mr_pick_member_id r) /\
    (mr_strategy r = Manual -> is_Some (mr_pick_member_id r));
  ro_rules : Forall (rule_valid (rm_id <$> mr_members r)) (mr_rules r) /\
    NoDup (trim ∘ ru_id <$> mr_rules r)
}.

Lemma is_empty_false {A} (l : list A) : is_empty l = false <-> l <> [].
Proof. by destruct l. Qed.

Lemma out_of_bounds_false max s : out_of_bounds max s = false <-> bounded max s.
Proof.
  unfold out_of_bounds, bounded. by rewrite orb_false_iff, is_empty_false, Nat.ltb_ge.
Qed.

Lemma on_some_None {A} (P : A -> Prop) : on_some P None.
Proof. done. Qed.
Lemma on_some_Some {A} (P : A -> Prop) x : on_some P (Some x) <-> P x.
Proof. unfold on_some. naive_solver. Qed.

(** A boolean test of an option that [None] passes. *)
Lemma on_some_test {A} (f : A -> bool) (P : A -> Prop) (o : option A) :
  (forall x, f x = false <-> P x) ->
  match o with Some x => f x | None => false end = false <-> on_some P o.
Proof. intros H. destruct o; [by rewrite on_some_Some|by unfold on_some]. Qed.

Lemma for_each_test {A} (test : A -> bool) (e : VibexError) (l : list A) :
  for_each (fun x => reject (test x) with e ;; Ok tt) l = Ok tt <->
  Forall (fun x => test x = false) l.
Proof.
  rewrite for_each_ok. rewrite !Forall_forall. setoid_rewrite reject_ok. naive_solver.
Qed.

Lemma bind_discard_ok {A E B} (c : result A E) (k : result B E) (b : B) :
  result_bind c (fun _ => k) = Ok b <-> (exists a, c = Ok a) /\ k = Ok b.
Proof. destruct c; naive_solver. Qed.

Lemma exists_unit_ok {E} (c : result unit E) : (exists a, c = Ok a) <-> c = Ok tt.
Proof. destruct c as [[]|]; naive_solver. Qed.

#[export] Hint Rewrite @reject_ok @bind_discard_ok @exists_unit_ok orb_false_iff andb_false_iff
  @bool_decide_eq_false negb_false_iff @bool_decide_eq_true out_of_bounds_false
  @is_empty_false Nat.ltb_ge Nat.ltb_lt Z.ltb_ge Z.leb_gt Z.eqb_neq : validate.

Lemma ModelRouteMember_validate_ok m :
  ModelRouteMember_validate m = Ok tt /\ ModelRouteMember_validate_model m = Ok tt <->
  member_valid m.
Proof.
  unfold ModelRouteMember_validate, ModelRouteMember_validate_model. cbv zeta.
  autorewrite with validate. rewrite (on_some_test _ _ _ (out_of_bounds_false 64)).
  split; [intros; split; unfold bounded; naive_solver|].
  intros [? [] ? ? ? []]. naive_solver.
Qed.

Lemma RouteTimeWindow_validate_ok w : RouteTimeWindow_validate w = Ok tt <-> window_valid w.
Proof.
  unfold RouteTimeWindow_validate. autorewrite with validate.
  rewrite (on_some_test _ _ _ (out_of_bounds_false 64)).
  rewrite (for_fold_seen validate_day (fun d => 1 <= d <= 7)%Z id).
  2:{ intros s x s'. unfold validate_day. autorewrite with validate.
      rewrite andb_true_iff, !Z.leb_le. naive_solver. }
  rewrite list_fmap_id. split.
  - intros (? & (? & ? & _) & (? & ?) & ? & ? & _). split; [done|lia|done].
  - intros [(? & ? & ?) ? ?]. split_and!; try done; try lia.
    apply Forall_forall. set_solver.
Qed.

Lemma more_members_ok ids use more :
  (exists s, for_fold (validate_more_member ids use) [] more = Ok s) <->
  Forall (fun m => m ∈ ids) more /\ NoDup more /\ on_some (fun m => m ∉ more) use.
Proof.
  rewrite (for_fold_seen _ (fun m => m ∈ ids /\ use <> Some m) id).
  2:{ intros s x s'. unfold validate_more_member. autorewrite with validate. naive_solver. }
  rewrite list_fmap_id, !Forall_forall. unfold on_some. split.
  - intros (Hf & ? & _). split_and!; [naive_solver|done|]. intros x -> Hin. by apply (Hf x Hin).
  - intros (Hf & ? & Hu). split_and!; [|done|set_solver].
    intros x Hin. split; [by apply Hf|]. intros ->. by apply (Hu x).
Qed.

Lemma rule_action_ok r :
  validate_rule_action r = Ok tt <->
  if ru_pause r
  then ru_use_member_id r = None /\ ru_more_member_ids r = [] /\ ru_use_effort r = None
  else is_Some (ru_use_member_id r) /\ on_some (fun i => trim i <> []) (ru_intent r).
Proof.
  unfold validate_rule_action, selects_member. destruct (ru_pause r).
  - rewrite reject_ok. destruct (ru_use_member_id r), (ru_more_member_ids r), (ru_use_effort r);
      simpl; naive_solver.
  - autorewrite with validate. rewrite (on_some_test _ (fun i => trim i <> [])).
    + destruct (ru_use_member_id r); simpl; naive_solver.
    + intros i. apply is_empty_false.
Qed.

Lemma on_some_validate {A} (f : A -> VibexResult unit) (P : A -> Prop) (o : option A) :
  (forall x, f x = Ok tt <-> P x) ->
  match o with Some x => f x | None => Ok tt end = Ok tt <-> on_some P o.
Proof. intros H. destruct o; [by rewrite on_some_Some|by unfold on_some]. Qed.

Lemma ModelRouteRule_validate_ok ids r :
  ModelRouteRule_validate ids r = Ok tt <-> rule_valid ids r.
Proof.
  unfold ModelRouteRule_validate.
  autorewrite with validate.
  rewrite (on_some_validate _ _ _ RouteTimeWindow_validate_ok).
  rewrite (on_some_test _ (fun m => m ∈ ids)).
  2:{ intros m. by rewrite negb_false_iff, bool_decide_eq_true. }
  rewrite more_members_ok, (on_some_test _ _ _ (out_of_bounds_false 64)), rule_action_ok.
  rewrite !for_each_test. setoid_rewrite orb_false_iff. setoid_rewrite is_empty_false.
  setoid_rewrite Nat.ltb_ge. split.
  - intros (? & ? & ? & ? & (? & ? & ?) & ? & ? & ? & ?). by split.
  - intros [? ? ? [] [] ? ? ? ?]. by split_and!.
Qed.

Lemma elem_of_filter_nonempty {A} (p : A -> bool) l :
  retain p l <> [] <-> exists x, x ∈ l /\ p x = true.
Proof.
  split.
  - destruct (retain p l) as [|x k] eqn:E; [done|]. intros _. exists x.
    apply elem_of_retain. rewrite E. set_solver.
  - intros (x & Hx)  E. apply elem_of_retain in Hx. rewrite E in Hx. set_solver.
Qed.

Lemma member_models_ok members :
  (exists s, for_fold validate_member_model [] members = Ok s) <->
  NoDup (member_model_key <$> members).
Proof.
  rewrite (for_fold_seen _ (fun _ => True) member_model_key).
  - split; [naive_solver|]. intros ?. split_and!; try done; apply Forall_forall; set_solver.
  - intros s x s'. unfold validate_member_model. autorewrite with validate. naive_solver.
Qed.

Lemma validate_model_group_ok r : validate_model_group r = Ok tt <-> group_valid r.
Proof.
  unfold validate_model_group. rewrite bind_ok. setoid_rewrite ok_or_ok.
  setoid_rewrite reject_ok. setoid_rewrite reject_ok. setoid_rewrite reject_ok.
  setoid_rewrite bind_discard_ok. setoid_rewrite member_models_ok.
  setoid_rewrite Nat.ltb_ge. setoid_rewrite bool_decide_eq_false.
  setoid_rewrite is_empty_false. unfold enabled_members. setoid_rewrite elem_of_filter_nonempty.
  split.
  - intros (m & Hm & ? & ? & ? & ? & _). split; [by exists m|done|done].
  - intros [(m & ? & ? & ?) ? ?]. by exists m.
Qed.

Lemma validate_member_step seen m s' :
  validate_member seen m = Ok s' <->
  member_valid m /\ rm_id m ∉ seen.1 /\ rm_order_index m ∉ seen.2 /\
  s' = (seen.1 ++ [rm_id m], seen.2 ++ [rm_order_index m]).
Proof.
  unfold validate_member. rewrite !bind_unit_ok, !reject_ok.
  rewrite <- Logic.and_assoc, ModelRouteMember_validate_ok, !bool_decide_eq_false.
  split.
  - intros (Hm & ? & Ho & [= <-]). destruct (Z.ltb_spec (rm_order_index m) 0); [|done].
    pose proof (mv_order _ Hm). lia.
  - intros (Hm & ? & ? & ->). pose proof (mv_order _ Hm).
    destruct (Z.ltb_spec (rm_order_index m) 0); [lia|done].
Qed.

(** The member loop checks each member and both keys. *)
Lemma validate_members_ok members :
  (exists s, for_fold validate_member ([], []) members = Ok s) <->
  Forall member_valid members /\ NoDup (rm_id <$> members) /\ NoDup (rm_order_index <$> members).
Proof.
  assert (Hgen : forall ids orders,
    (exists s, for_fold validate_member (ids, orders) members = Ok s) <->
    (Forall member_valid members /\ NoDup (rm_id <$> members) /\
       Forall (fun m => rm_id m ∉ ids) members) /\
    (NoDup (rm_order_index <$> members) /\ Forall (fun m => rm_order_index m ∉ orders) members)).
  { induction members as [|m l IH]; intros ids orders; simpl.
    { split; [intros _; repeat constructor|by eexists]. }
    setoid_rewrite bind_ok. rewrite !Forall_cons, !NoDup_cons. split.
    - intros (s & s1 & (Hm & Hi & Ho & ->)%validate_member_step & Hs). simpl in *.
      destruct (proj1 (IH _ _) (ex_intro _ s Hs)) as ((? & ? & Hi') & (? & Ho')).
      apply Forall_key_not_in_app in Hi' as [? ?], Ho' as [? ?]. naive_solver.
    - intros (((Hm & ?) & (Hi & ?) & ? & Hi') & ((Ho & ?) & ? & Ho')).
      destruct (proj2 (IH (ids ++ [rm_id m]) (orders ++ [rm_order_index m]))) as [s Hs];
        [by rewrite !Forall_key_not_in_app|].
      exists s, (ids ++ [rm_id m], orders ++ [rm_order_index m]).
      split; [by apply validate_member_step|done]. }
  rewrite Hgen. split; [intros ((? & ? & _) & (? & _)); done|].
  intros (? & ? & ?). split_and!; try done; apply Forall_key_not_in_nil.
Qed.

Lemma levels_ok levels :
  (exists s, for_fold validate_level [] levels = Ok s) <->
  Forall (bounded 64) levels /\ NoDup (trim <$> levels).
Proof.
  rewrite (for_fold_seen _ (bounded 64) trim).
  - pose proof (Forall_key_not_in_nil trim levels). naive_solver.
  - intros s x s'. unfold validate_level. autorewrite with validate. naive_solver.
Qed.

Lemma rules_ok ids rules :
  (exists s, for_fold (validate_rule ids) [] rules = Ok s) <->
  Forall (rule_valid ids) rules /\ NoDup (trim ∘ ru_id <$> rules).
Proof.
  rewrite (for_fold_seen _ (rule_valid ids) (trim ∘ ru_id)).
  - pose proof (Forall_key_not_in_nil (trim ∘ ru_id) rules). naive_solver.
  - intros s x s'. unfold validate_rule.
    rewrite bind_unit_ok, ModelRouteRule_validate_ok, reject_ok, bool_decide_eq_false.
    simpl. naive_solver.
Qed.

Lemma validate_effort_ok r :
  validate_effort r = Ok tt <-> on_some (fun e => trim e = lit "auto") (mr_effort r).
Proof.
  apply on_some_validate. intros e. autorewrite with validate. unfold bounded.
  split; [naive_solver|]. intros ->. split_and!; [done|vm_compute; lia|done..].
Qed.

Lemma validate_classifier_ok r :
  validate_classifier r = Ok tt <->
  on_some (fun c => bounded 256 c /\ agent_model r <> Some (trim c)) (mr_classifier r).
Proof.
  apply on_some_validate. intros c. autorewrite with validate. naive_solver.
Qed.

Lemma member_count_ok r :
  mr_members r <> [] /\ length (mr_members r) <= MAX_ROUTE_MEMBERS /\
  (mr_kind r <> Direct \/ (length (mr_members r) =? 1) = true) <->
  1 <= length (mr_members r) <= member_limit (mr_kind r).
Proof.
  rewrite Nat.eqb_eq, <- length_zero_iff_nil. unfold member_limit, MAX_ROUTE_MEMBERS.
  destruct (mr_kind r); simpl; [|naive_solver lia].
  split; [lia|]. intros. split_and!; [lia..|by left].
Qed.

Lemma group_check_ok r :
  (if is_model_group r then validate_model_group r
   else reject (is_some (mr_agent_model_id r)) with
          (invalid "route_agent_model_unexpected"
            "only a model group has an Agent-facing model id") ;; Ok tt) = Ok tt <->
  if is_model_group r then group_valid r else mr_agent_model_id r = None.
Proof.
  destruct (is_model_group r); [apply validate_model_group_ok|].
  rewrite reject_ok. destruct (mr_agent_model_id r); simpl; naive_solver.
Qed.

Lemma manual_pick_ok r :
  mr_strategy r <> Manual \/ is_none (mr_pick_member_id r) = false <->
  (mr_strategy r = Manual -> is_Some (mr_pick_member_id r)).
Proof.
  destruct (decide (mr_strategy r = Manual)); destruct (mr_pick_member_id r); simpl;
    unfold is_Some; naive_solver.
Qed.

Lemma route_validate_ok (r : ModelRoute) : ModelRoute_validate r = Ok tt <-> route_valid r.
Proof.
  unfold ModelRoute_validate. cbv zeta.
  autorewrite with validate.
  rewrite group_check_ok, validate_effort_ok, validate_classifier_ok, levels_ok, rules_ok,
    validate_members_ok, manual_pick_ok.
  rewrite (on_some_test _ (fun p => p <> 0%Z /\ (p <= MAX_ROUTE_PATIENCE_MS)%Z)).
  2:{ intros p. by rewrite orb_false_iff, Z.eqb_neq, Z.ltb_ge. }
  rewrite (on_some_test _ (fun p => p ∈ rm_id <$> mr_members r)).
  2:{ intros p. by rewrite negb_false_iff, bool_decide_eq_true. }
  pose proof (member_count_ok r) as Hc. split.
  - intros (? & ? & ? & ? & (? & ? & ?) & ? & ? & ? & ? & ? & ? & ? & (? & ?) & ? & ? & ? & _).
    split; try done. by apply Hc.
  - intros [? (? & ? & ?)%Hc ? ? ? ? ? ? ? ? ? (? & ? & ?) [] []]. by split_and!.
Qed.

(** A route is saved exactly when it satisfies the declarative contract
    [route_valid]: bounded names, one to sixteen members (one for a direct
    route) that are valid, with distinct ids and distinct orders, the group
    checks, bounded timings, distinct levels, a picked member of the route for
    the manual strategy, and rules that name members of the route. *)
Theorem route_validate_spec (r : ModelRoute) : ModelRoute_validate r = Ok tt <-> route_valid r.
Proof. apply route_validate_ok. Qed.

(** ** Rules *)

(** The minute [m] lies in the window that starts at [a] and lasts until [b],
    counting around midnight. *)
Definition in_day_window (a b m : Z) : Prop := ((m - a) mod 1440 < (b - a) mod 1440)%Z.

(** A window of a saved rule holds at a minute of a named weekday exactly when
    the minute is inside the window around the clock; a window that crosses
    midnight covers both ends of the day it names. *)
Theorem window_contains_spec (w : RouteTimeWindow) (day minute : Z) :
  RouteTimeWindow_validate w = Ok tt -> (0 <= tw_start_minute w)%Z -> (0 <= tw_end_minute w)%Z ->
  (0 <= minute < 1440)%Z ->
  RouteTimeWindow_contains w day minute = true <->
  day ∈ tw_days w /\ in_day_window (tw_start_minute w) (tw_end_minute w) minute.
Proof.
  rewrite RouteTimeWindow_validate_ok. intros [_ (Ha & Hb & Hne) _] Ha' Hb' Hm.
  unfold RouteTimeWindow_contains, in_day_window.
  case_bool_decide as Hd; simpl; [|naive_solver].
  set (a := tw_start_minute w) in *. set (b := tw_end_minute w) in *.
  assert (Hmod : forall x, (-1440 < x < 1440)%Z -> (x mod 1440)%Z = if (x <? 0)%Z then (x + 1440)%Z else x).
  { intros x Hx. destruct (Z.ltb_spec x 0); [|apply Z.mod_small; lia].
    symmetry. apply Z.mod_unique with (-1)%Z; lia. }
  rewrite !Hmod by lia.
  destruct (Z.ltb_spec (minute - a) 0), (Z.ltb_spec (b - a) 0), (Z.leb_spec a b); try lia;
    rewrite ?andb_true_iff, ?orb_true_iff, !Z.leb_le, !Z.ltb_lt; split; try lia;
    intros; split; try done; lia.
Qed.

(** An overnight rule named for one weekday also holds in the early hours of
    that weekday, and not in those of the next one. *)
Theorem overnight_window_stays_on_its_day (w : RouteTimeWindow) (day next minute : Z) :
  (tw_end_minute w < tw_start_minute w)%Z -> (minute < tw_end_minute w)%Z ->
  day ∈ tw_days w -> next ∉ tw_days w ->
  RouteTimeWindow_contains w day minute = true /\
  RouteTimeWindow_contains w next minute = false.
Proof.
  intros Hw Hm Hd Hn. unfold RouteTimeWindow_contains.
  rewrite bool_decide_eq_true_2, bool_decide_eq_false_2 by done. simpl.
  destruct (Z.leb_spec (tw_start_minute w) (tw_end_minute w)); [lia|].
  split; [|done]. apply orb_true_iff. right. by apply Z.ltb_lt.
Qed.

(** Every condition the rule names holds of the request. *)
Definition names_folder (folders : list str) (root : str) : Prop :=
  exists f, f ∈ folders /\ exists a b, root = a ++ trim f ++ b.

Record rule_applies (rule : ModelRouteRule) (c : RouteRuleContext) : Prop := {
  ra_agent : ru_agents rule = [] \/
    exists a, a ∈ ru_agents rule /\ rc_agent_id c = Some (trim a);
  ra_tokens : on_some (fun m => exists t, rc_context_tokens c = Some t /\ (m <= t)%Z)
    (ru_tokens_min rule);
  ra_images : on_some (fun i => rc_has_images c = i) (ru_images rule);
  ra_effort : on_some (fun e => exists q, rc_requested_effort c = Some q /\
    to_ascii_lowercase q = to_ascii_lowercase (trim e)) (ru_effort rule);
  ra_compact : on_some (fun b => rc_compact c = b) (ru_compact rule);
  ra_intent : on_some (fun i => exists q, rc_intent c = Some q /\
    to_ascii_lowercase q = to_ascii_lowercase (trim i)) (ru_intent rule);
  ra_time : on_some (fun w => exists d m, rc_local_weekday c = Some d /\
    rc_local_minute c = Some m /\ RouteTimeWindow_contains w d m = true /\
    on_some (fun z => to_ascii_lowercase (trim z) = lit "local") (tw_zone w)) (ru_time rule);
  ra_folders : ru_folders rule = [] \/
    exists root, rc_workspace_root c = Some root /\ names_folder (ru_folders rule) root;
  ra_except : on_some (fun root => ~ names_folder (ru_except_folders rule) root)
    (rc_workspace_root c)
}.

(** A boolean test of an option that [None] satisfies. *)
Lemma on_some_holds {A} (f : A -> bool) (P : A -> Prop) (o : option A) :
  (forall x, f x = true <-> P x) ->
  match o with Some x => f x | None => true end = true <-> on_some P o.
Proof. intros H. destruct o; [by rewrite on_some_Some|by unfold on_some]. Qed.

Lemma some_holds {A} (f : A -> bool) (P : A -> Prop) (o : option A) :
  (forall x, f x = true <-> P x) ->
  match o with Some x => f x | None => false end = true <-> exists x, o = Some x /\ P x.
Proof. intros H. destruct o; naive_solver. Qed.

Lemma existsb_folder folders root :
  existsb (fun fragment => str_contains root (trim fragment)) folders = true <->
  names_folder folders root.
Proof.
  rewrite existsb_exists. unfold names_folder. setoid_rewrite str_contains_spec.
  by setoid_rewrite list_elem_of_In.
Qed.

Lemma eq_ignore_ascii_case_true a b :
  eq_ignore_ascii_case a b = true <-> to_ascii_lowercase a = to_ascii_lowercase b.
Proof. apply bool_decide_eq_true. Qed.

Lemma agents_hold agents id :
  (if is_empty agents then true
   else match id with
        | None => false
        | Some agent_id => existsb (fun agent => bool_decide (trim agent = agent_id)) agents
        end) = true <->
  agents = [] \/ exists a, a ∈ agents /\ id = Some (trim a).
Proof.
  destruct agents as [|a0 agents]; [naive_solver|]. cbn [is_empty].
  rewrite (some_holds _ (fun i => exists a, a ∈ a0 :: agents /\ trim a = i)); [naive_solver|].
  intros i. rewrite existsb_exists. setoid_rewrite bool_decide_eq_true.
  by setoid_rewrite list_elem_of_In.
Qed.

Lemma folders_hold folders root :
  (if is_empty folders then true
   else match root with
        | None => false
        | Some root => existsb (fun fragment => str_contains root (trim fragment)) folders
        end) = true <->
  folders = [] \/ exists r, root = Some r /\ names_folder folders r.
Proof.
  destruct folders as [|f0 folders]; [naive_solver|]. cbn [is_empty].
  rewrite (some_holds _ _ _ (existsb_folder (f0 :: folders))). naive_solver.
Qed.

Lemma except_holds folders root :
  negb (existsb (fun fragment =>
    match root with Some root => str_contains root (trim fragment) | None => false end) folders)
  = true <-> on_some (fun r => ~ names_folder folders r) root.
Proof.
  rewrite negb_true_iff. destruct root as [r|].
  - rewrite on_some_Some, <- existsb_folder. by rewrite not_true_iff_false.
  - split; [by unfold on_some|]. intros _. by induction folders.
Qed.

Lemma time_holds w c :
  match rc_local_weekday c, rc_local_minute c with
  | Some day, Some minute =>
    match tw_zone w with
    | Some zone => eq_ignore_ascii_case (trim zone) (lit "local")
    | None => true
    end && RouteTimeWindow_contains w day minute
  | _, _ => false
  end = true <->
  exists d m, rc_local_weekday c = Some d /\ rc_local_minute c = Some m /\
    RouteTimeWindow_contains w d m = true /\
    on_some (fun z => to_ascii_lowercase (trim z) = lit "local") (tw_zone w).
Proof.
  assert (Hz : match tw_zone w with
    | Some zone => eq_ignore_ascii_case (trim zone) (lit "local")
    | None => true
    end = true <-> on_some (fun z => to_ascii_lowercase (trim z) = lit "local") (tw_zone w)).
  { apply on_some_holds. intros z. by rewrite eq_ignore_ascii_case_true. }
  destruct (rc_local_weekday c), (rc_local_minute c); rewrite ?andb_true_iff, ?Hz; naive_solver.
Qed.

Lemma rule_matches_iff rule c : rule_matches rule c = true <-> rule_applies rule c.
Proof.
  unfold rule_matches. rewrite !andb_true_iff, agents_hold, folders_hold, except_holds.
  rewrite (on_some_holds _ _ (ru_time rule) (fun w => time_holds w c)).
  rewrite (on_some_holds _ (fun m => exists t, rc_context_tokens c = Some t /\ (m <= t)%Z)).
  2:{ intros m. apply some_holds. intros t. by rewrite negb_true_iff, Z.ltb_ge. }
  rewrite (on_some_holds _ (fun i => rc_has_images c = i)).
  2:{ intros i. rewrite eqb_true_iff. naive_solver. }
  rewrite (on_some_holds _ (fun i => rc_compact c = i)).
  2:{ intros i. rewrite eqb_true_iff. naive_solver. }
  rewrite (on_some_holds _ (fun e => exists q, rc_requested_effort c = Some q /\
    to_ascii_lowercase q = to_ascii_lowercase (trim e))).
  2:{ intros e. apply some_holds. intros q. apply eq_ignore_ascii_case_true. }
  rewrite (on_some_holds _ (fun i => exists q, rc_intent c = Some q /\
    to_ascii_lowercase q = to_ascii_lowercase (trim i))).
  2:{ intros e. apply some_holds. intros q. apply eq_ignore_ascii_case_true. }
  split; [intros; destruct_and!; by split|intros []; by split_and!].
Qed.

Lemma rule_matches_false rule c : rule_matches rule c = false <-> ~ rule_applies rule c.
Proof. rewrite <- rule_matches_iff. by rewrite not_true_iff_false. Qed.

(** [o] is the decision the documentation describes. *)
Definition decides (rules : list ModelRouteRule) (c : RouteRuleContext)
  (o : option (nat * ModelRouteRule)) : Prop :=
  match o with
  | Some (i, rule) => rules !! i = Some rule /\ rule_applies rule c /\
      forall j other, j < i -> rules !! j = Some other -> ~ rule_applies other c
  | None => forall rule, rule ∈ rules -> ~ rule_applies rule c
  end.

Lemma first_matching_rule_decides rules c : decides rules c (first_matching_rule rules c).
Proof.
  unfold first_matching_rule. destruct (position _ rules) as [i|] eqn:E; simpl.
  - apply position_Some in E as (x & Hx & Hm & Hf). rewrite Hx. simpl.
    split_and!; [done|by apply rule_matches_iff|]. intros j other Hj Ho.
    apply rule_matches_false. rewrite Forall_lookup in Hf.
    apply (Hf j). rewrite lookup_take_lt by lia. done.
  - apply position_None in E. rewrite Forall_forall in E. intros rule Hr.
    apply rule_matches_false. by apply E.
Qed.

Lemma decides_unique rules c o o' : decides rules c o -> decides rules c o' -> o = o'.
Proof.
  assert (Hlt : forall i r i' r', decides rules c (Some (i, r)) ->
    decides rules c (Some (i', r')) -> ~ i < i').
  { intros i r i' r' (H1 & H2 & _) (_ & _ & H3) Hlt. by apply (H3 i r Hlt). }
  destruct o as [[i r]|], o' as [[i' r']|]; intros H H'; [| | |done].
  - pose proof (Hlt _ _ _ _ H H'). pose proof (Hlt _ _ _ _ H' H).
    assert (i = i') as -> by lia. destruct H as (H & _), H' as (H' & _). congruence.
  - destruct H as (H1 & H2 & _). apply list_elem_of_lookup_2 in H1. by destruct (H' r H1).
  - destruct H' as (H1 & H2 & _). apply list_elem_of_lookup_2 in H1. by destruct (H r' H1).
Qed.

(** The rule that decides a request is the first one all of whose conditions
    hold, and no rule decides when there is none. *)
Theorem first_matching_rule_spec (rules : list ModelRouteRule) (c : RouteRuleContext)
  (o : option (nat * ModelRouteRule)) :
  first_matching_rule rules c = o <-> decides rules c o.
Proof.
  split; [intros <-; apply first_matching_rule_decides|].
  apply decides_unique, first_matching_rule_decides.
Qed.

(** ** Group model ids *)

Lemma trim_matches_none p s : Forall (fun c => p c = false) s -> trim_matches p s = s.
Proof.
  intros H. unfold trim_matches, trim_end_matches. rewrite (drop_while_none p s) by done.
  rewrite drop_while_none, reverse_involutive; [done|by apply Forall_reverse].
Qed.

Lemma no_slash_Forall s : slash ∉ s -> Forall (fun c => N.eqb slash c = false) s.
Proof.
  intros H. apply Forall_forall. intros c Hc. apply N.eqb_neq. intros <-. done.
Qed.

(** A route id as the program creates one: trimmed, without a slash. *)
Definition route_id_ok (id : ident) : Prop := trim id = id /\ id <> [] /\ slash ∉ id.

Lemma route_group_model_ref_intro id model :
  route_id_ok id -> trim model = model -> model <> [] ->
  route_group_model_ref (ROUTE_GROUP_MODEL_PREFIX ++ id ++ [slash] ++ model) =
  Some (mkGroupRef id model).
Proof.
  intros (Hid & Hne & Hs) Hm Hmne. unfold route_group_model_ref.
  rewrite strip_prefix_app. change ([slash] ++ model) with (slash :: model).
  rewrite split_once_app by done. cbv zeta. rewrite Hid, Hm.
  by destruct id, model.
Qed.

(** The id a saved group publishes reads back as its route and its model, the
    group answers to it, and no route with another id does. *)
Theorem group_model_id_round_trip (r other : ModelRoute) (id : str) :
  ModelRoute_validate r = Ok tt -> route_id_ok (mr_id r) ->
  gateway_model_id r = Some id -> mr_kind r = ModelGroup ->
  (exists m, agent_model r = Some m /\ route_group_model_ref id = Some (mkGroupRef (mr_id r) m)) /\
  serves_model_group_id r id = true /\
  (mr_id other <> mr_id r -> serves_model_group_id other id = false).
Proof.
  rewrite route_validate_ok. intros Hr Hid Hg Hk. pose proof (ro_group r Hr) as Hgroup.
  assert (His : is_model_group r = true) by (by apply bool_decide_eq_true).
  rewrite His in Hgroup. destruct (gv_model r Hgroup) as (m & Hm & _ & Hns).
  unfold gateway_model_id in Hg. rewrite Hm in Hg. injection Hg as <-.
  assert (trim m = m /\ m <> []) as [Ht Hne].
  { unfold agent_model in Hm. destruct (mr_agent_model_id r) as [a|]; [|done].
    destruct (is_empty (trim a)) eqn:E; [done|]. injection Hm as <-.
    apply is_empty_false in E. by rewrite trim_idem. }
  assert (Href : route_group_model_ref (group_model_id r m) = Some (mkGroupRef (mr_id r) m)).
  { unfold group_model_id, route_model_id. rewrite Ht, trim_matches_none by (by apply no_slash_Forall).
    rewrite <- !app_assoc. by apply route_group_model_ref_intro. }
  unfold serves_model_group_id. rewrite Href. simpl. split_and!.
  - by exists m.
  - by rewrite His, !bool_decide_eq_true_2.
  - intros Ho. by rewrite bool_decide_eq_false_2 by congruence.
Qed.

(** ** The attempt order *)

Lemma member_order_key_inj m m' :
  member_order_key m = member_order_key m' -> rm_order_index m = rm_order_index m' /\ rm_id m = rm_id m'.
Proof.
  unfold member_order_key. intros [= Ho Hi]. split; [done|]. by apply (inj (fmap Z.of_N)) in Hi.
Qed.

(** Stored members have one attempt order, whatever order they were edited in:
    sorting is a permutation, ascending in the order index, and two lists of
    the same members of a saved route sort to the same list. *)
Theorem sort_members_canonical (r : ModelRoute) (edited : list ModelRouteMember) :
  ModelRoute_validate r = Ok tt -> edited ≡ₚ mr_members r ->
  sort_members edited ≡ₚ edited /\
  StronglySorted (fun a b => rm_order_index a < rm_order_index b)%Z (sort_members edited) /\
  sort_members edited = sort_members (mr_members r).
Proof.
  rewrite route_validate_ok. intros Hr Hp. split; [apply sort_by_key_perm|].
  assert (Hs : forall l, l ≡ₚ mr_members r ->
    StronglySorted (fun a b => rm_order_index a < rm_order_index b)%Z (sort_members l)).
  { intros l Hl.
    pose proof (sort_by_key_sorted member_order_key l) as Hk.
    assert (Hd : NoDup (rm_order_index <$> sort_by_key member_order_key l)).
    { rewrite sort_by_key_perm, Hl. apply (ro_orders r Hr). }
    unfold sort_members. unfold key_sorted in Hk. clear Hl Hp.
    induction Hk as [|x k Hk IH Hx]; [constructor|]. apply NoDup_cons in Hd as [Hn Hd].
    constructor; [by apply IH|]. rewrite Forall_forall in Hx |- *. intros y Hy.
    specialize (Hx y Hy). simpl in Hx.
    destruct (Z.compare_spec (rm_order_index x) (rm_order_index y)); [|done|done].
    exfalso. apply Hn. apply list_elem_of_fmap. by exists y. }
  split; [by apply Hs|].
  apply (StronglySorted_unique_strong (fun a b => rm_order_index a < rm_order_index b)%Z).
  - intros x y _ _ ? ?. lia.
  - by apply Hs.
  - by apply Hs.
  - unfold sort_members. by rewrite !sort_by_key_perm.
Qed.
