(* ===== verification/Capabilities.v ===== *)
(** Per-model capabilities (crates/core/src/provider.rs) and what a route may
    claim from its members' (crates/core/src/model_route.rs): the reasoning
    effort table with its compact text form, and the intersection of the
    members' declarations. *)
From stdpp Require Import prelude strings list gmap.
From Stdlib Require Import NArith ZArith Lia.
From S2P Require Import Prelude CoreTypes.

(** ** Reasoning effort levels *)

Inductive ProviderReasoningEffortLevel : Type :=
| Off | Minimal | Low | Medium | High | Xhigh | Max.
#[export] Instance ProviderReasoningEffortLevel_eq_dec : EqDecision ProviderReasoningEffortLevel.
Proof. solve_decision. Defined.
#[export] Instance ProviderReasoningEffortLevel_countable : Countable ProviderReasoningEffortLevel.
Proof.
  refine (inj_countable'
    (fun l => match l with Off => 0 | Minimal => 1 | Low => 2 | Medium => 3 | High => 4
              | Xhigh => 5 | Max => 6 end)
    (fun n => match n with 0 => Off | 1 => Minimal | 2 => Low | 3 => Medium | 4 => High
              | 5 => Xhigh | _ => Max end) _).
  by intros [].
Defined.

Definition Level_ALL : list ProviderReasoningEffortLevel :=
  [Off; Minimal; Low; Medium; High; Xhigh; Max].
Definition Level_as_str (l : ProviderReasoningEffortLevel) : str :=
  match l with
  | Off => lit "off"
  | Minimal => lit "minimal"
  | Low => lit "low"
  | Medium => lit "medium"
  | High => lit "high"
  | Xhigh => lit "xhigh"
  | Max => lit "max"
  end.
Definition Level_parse (value : str) : option ProviderReasoningEffortLevel :=
  List.find (fun level => eq_ignore_ascii_case (trim value) (Level_as_str level)) Level_ALL.

(** The table: a level is offered when it is bound; its value is the spelling
    sent on the wire, [None] for "send nothing". *)
Abbreviation ProviderModelReasoningEfforts :=
  (gmap ProviderReasoningEffortLevel (option str)).

Definition declared_levels (e : ProviderModelReasoningEfforts)
  : list (ProviderReasoningEffortLevel * option str) :=
  omap (fun level => pair level <$> e !! level) Level_ALL.

Definition quote : str := [34%N].

(** One turn of the loop of [ProviderModelReasoningEfforts::validate]; the
    state counts the levels beyond [Off]. *)
Definition validate_effort_level (thinking : nat)
  (declared : ProviderReasoningEffortLevel * option str) : result nat str :=
  let '(level, wire) := declared in
  match wire with
  | Some wire =>
    if is_empty (trim wire)
    then Err (lit "level " ++ quote ++ Level_as_str level ++ quote
              ++ lit " declares an empty wire spelling")
    else if negb (bool_decide (level = Off)) then Ok (S thinking) else Ok thinking
  | None =>
    if negb (bool_decide (level = Off))
    then Err (lit "level " ++ quote ++ Level_as_str level ++ quote
              ++ lit " needs the wire spelling dispatch sends; only " ++ quote ++ lit "off" ++ quote
              ++ lit " may leave it empty")
    else Ok thinking
  end.

Definition Efforts_validate (e : ProviderModelReasoningEfforts) : result unit str :=
  reject (bool_decide (e = ∅)) with
    (lit "declares no level; declare the offered levels or leave the field unset") ;;
  let? thinking := for_fold validate_effort_level 0 (declared_levels e) in
  reject (thinking =? 0) with
    (lit "offers no level beyond " ++ quote ++ lit "off" ++ quote
     ++ lit "; declare a thinking level or mark the Model as non-reasoning") ;;
  Ok tt.

Definition comma : N := 44%N.
Definition equals : N := 61%N.

(** [str::split(c)]. *)
Fixpoint split_on (c : N) (s : str) : list str :=
  match s with
  | [] => [[]]
  | d :: s =>
    if (c =? d)%N then [] :: split_on c s
    else match split_on c s with
         | [] => [[d]]
         | part :: parts => (d :: part) :: parts
         end
  end.
(** [parts.join(sep)]. *)
Fixpoint join (sep : str) (parts : list str) : str :=
  match parts with
  | [] => []
  | [part] => part
  | part :: parts => part ++ sep ++ join sep parts
  end.

(** One turn of the loop of [ProviderModelReasoningEfforts::parse]. *)
Definition parse_effort_entry (efforts : ProviderModelReasoningEfforts) (entry : str)
  : result ProviderModelReasoningEfforts str :=
  let entry := trim entry in
  if is_empty entry then Ok efforts
  else
    let '(level, wire) := match split_once equals entry with
                          | Some (level, wire) => (trim level, Some (trim wire))
                          | None => (entry, None)
                          end in
    match Level_parse level with
    | None => Err (quote ++ level ++ quote ++ lit " is not a thinking level; use one of "
                   ++ join (lit ", ") (Level_as_str <$> Level_ALL))
    | Some level =>
      if bool_decide (is_Some (efforts !! level))
      then Err (lit "level " ++ quote ++ Level_as_str level ++ quote
                ++ lit " is declared more than once")
      else match wire with
           | Some [] => Err (lit "level " ++ quote ++ Level_as_str level ++ quote
                             ++ lit " declares an empty wire spelling")
           | Some wire => Ok (<[level := Some wire]> efforts)
           | None => if bool_decide (level = Off) then Ok (<[level := None]> efforts)
                     else Ok (<[level := Some (Level_as_str level)]> efforts)
           end
    end.

Definition Efforts_parse (input : str) : result (option ProviderModelReasoningEfforts) str :=
  let? efforts := for_fold parse_effort_entry ∅ (split_on comma input) in
  if bool_decide (efforts = ∅) then Ok None
  else try (Efforts_validate efforts) ;; Ok (Some efforts).

(** [Display]: the levels in escalation order, the wire only when it differs. *)
Definition show_effort (declared : ProviderReasoningEffortLevel * option str) : str :=
  let '(level, wire) := declared in
  match wire with
  | Some wire => if bool_decide (wire = Level_as_str level) then Level_as_str level
                 else Level_as_str level ++ [equals] ++ wire
  | None => Level_as_str level
  end.
Definition Efforts_display (e : ProviderModelReasoningEfforts) : str :=
  join (lit ", ") (show_effort <$> declared_levels e).

(** ** Model capabilities *)

Inductive ModelCapabilitySource : Type := Declared | Catalog.

Record ProviderModelCapabilities : Type := mkCapabilities {
  pc_reasoning : option bool;
  pc_image_input : option bool;
  pc_pdf_input : option bool;
  pc_temperature : option bool;
  pc_context_tokens : option Z;
  pc_output_tokens : option Z;
  pc_reasoning_efforts : option ProviderModelReasoningEfforts;
  pc_sources : list (str * ModelCapabilitySource)
}.
Definition ProviderModelCapabilities_default : ProviderModelCapabilities :=
  mkCapabilities None None None None None None None [].

Definition adopted_from_catalog (c : ProviderModelCapabilities) : list str :=
  omap (fun e => match e.2 with Catalog => Some e.1 | Declared => None end) (pc_sources c).

(** [Iterator::min]. *)
Definition list_min (l : list Z) : option Z :=
  match l with
  | [] => None
  | x :: l => Some (foldl Z.min x l)
  end.

Definition intersect_reasoning_efforts (caps : list ProviderModelCapabilities)
  : option ProviderModelReasoningEfforts :=
  let declared := omap pc_reasoning_efforts caps in
  if negb (length declared =? length caps) then None
  else match declared with
       | [] => None
       | first :: _ =>
         let levels := filter (fun kv : ProviderReasoningEffortLevel * option str =>
             Forall (fun efforts : ProviderModelReasoningEfforts => is_Some (efforts !! kv.1)) declared)
             first in
         if bool_decide (levels = ∅) then None else Some levels
       end.

Definition every_declared (pick : ProviderModelCapabilities -> option bool)
  (caps : list ProviderModelCapabilities) : option bool :=
  if forallb (fun c => bool_decide (pick c = Some true)) caps then Some true else None.
Definition smallest_declared (pick : ProviderModelCapabilities -> option Z)
  (caps : list ProviderModelCapabilities) : option Z := list_min (omap pick caps).

Definition intersect_route_capabilities (caps : list ProviderModelCapabilities)
  : ProviderModelCapabilities :=
  match caps with
  | [] => ProviderModelCapabilities_default
  | _ =>
    {| pc_reasoning := every_declared pc_reasoning caps;
       pc_image_input := every_declared pc_image_input caps;
       pc_pdf_input := every_declared pc_pdf_input caps;
       pc_temperature := every_declared pc_temperature caps;
       pc_context_tokens := smallest_declared pc_context_tokens caps;
       pc_output_tokens := smallest_declared pc_output_tokens caps;
       pc_reasoning_efforts := intersect_reasoning_efforts caps;
       pc_sources := [] |}
  end.

(** * Theorems *)

(** ** The intersection of the members *)

Lemma every_declared_true pick caps :
  every_declared pick caps = Some true <-> Forall (fun c => pick c = Some true) caps.
Proof.
  unfold every_declared. setoid_rewrite <- (bool_decide_eq_true (_ = Some true)).
  rewrite <- forallb_Forall. destruct (forallb _ caps); naive_solver.
Qed.

Lemma foldl_min_spec x l :
  foldl Z.min x l ∈ x :: l /\ Forall (fun y => (foldl Z.min x l <= y)%Z) (x :: l).
Proof.
  revert x. induction l as [|y l IH]; intros x; simpl.
  - split; [set_solver|]. repeat constructor; lia.
  - destruct (IH (Z.min x y)) as [Hin Hf]. inversion_clear Hf as [|? ? Hle Hf'].
    split.
    + apply elem_of_cons in Hin as [->|]; [|set_solver].
      destruct (Z.min_spec x y) as [[_ ->]|[_ ->]]; set_solver.
    + repeat constructor; [lia|lia|done].
Qed.

Lemma smallest_declared_spec pick caps m :
  smallest_declared pick caps = Some m <->
  (exists c, c ∈ caps /\ pick c = Some m) /\
  Forall (fun c => forall n, pick c = Some n -> (m <= n)%Z) caps.
Proof.
  unfold smallest_declared.
  assert (Hin : forall n, n ∈ omap pick caps <-> exists c, c ∈ caps /\ pick c = Some n)
    by (intros n; apply list_elem_of_omap).
  assert (Hf : forall n, Forall (fun c => forall k, pick c = Some k -> (n <= k)%Z) caps <->
    Forall (fun k => (n <= k)%Z) (omap pick caps)).
  { intros n. rewrite !Forall_forall. setoid_rewrite Hin. naive_solver. }
  rewrite <- Hin, Hf. destruct (omap pick caps) as [|x l]; cbn [list_min]; [set_solver|].
  destruct (foldl_min_spec x l) as [Hm Hle]. split; [by intros [= <-]|].
  intros [Hm' Hle']. rewrite Forall_forall in Hle, Hle'.
  specialize (Hle _ Hm'). specialize (Hle' _ Hm). f_equal. lia.
Qed.

(** Reading the effort table of a claim. *)
Lemma intersect_efforts_lookup caps e level :
  intersect_reasoning_efforts caps = Some e -> is_Some (e !! level) ->
  Forall (fun c => exists e', pc_reasoning_efforts c = Some e' /\ is_Some (e' !! level)) caps.
Proof.
  unfold intersect_reasoning_efforts.
  destruct (Nat.eqb_spec (length (omap pc_reasoning_efforts caps)) (length caps)) as [Hlen|];
    simpl; [|done].
  destruct (omap pc_reasoning_efforts caps) as [|first rest] eqn:E; [done|].
  case_bool_decide; [done|]. intros [= <-] [wire Hw].
  apply map_lookup_filter_Some in Hw as [_ Hall]. cbn [fst] in Hall. rewrite <- E in Hall, Hlen.
  clear first rest E H. induction caps as [|c caps IH]; [constructor|].
  revert Hall Hlen. csimpl. destruct (pc_reasoning_efforts c) as [e'|] eqn:Hc; intros Hall Hlen.
  - inversion_clear Hall. constructor; [by exists e'|]. apply IH; [simpl in Hlen; lia|done].
  - pose proof (length_omap pc_reasoning_efforts caps). lia.
Qed.

(** A route claims a capability only when every member declares it, claims the
    smallest declared window, and offers a reasoning level only when every
    member offers it. *)
Theorem route_claims_what_every_member_has (caps : list ProviderModelCapabilities)
  (c : ProviderModelCapabilities) :
  c ∈ caps ->
  let route := intersect_route_capabilities caps in
  (pc_reasoning route = Some true -> pc_reasoning c = Some true) /\
  (pc_image_input route = Some true -> pc_image_input c = Some true) /\
  (pc_pdf_input route = Some true -> pc_pdf_input c = Some true) /\
  (pc_temperature route = Some true -> pc_temperature c = Some true) /\
  (forall m n, pc_context_tokens route = Some m -> pc_context_tokens c = Some n -> (m <= n)%Z) /\
  (forall m n, pc_output_tokens route = Some m -> pc_output_tokens c = Some n -> (m <= n)%Z) /\
  (forall e level, pc_reasoning_efforts route = Some e -> is_Some (e !! level) ->
     exists e', pc_reasoning_efforts c = Some e' /\ is_Some (e' !! level)).
Proof.
  intros Hc. destruct caps as [|c0 rest]; [set_solver|]. simpl.
  set (caps := c0 :: rest) in *.
  assert (He : forall pick, every_declared pick caps = Some true -> pick c = Some true).
  { intros pick H%every_declared_true. rewrite Forall_forall in H. by apply H. }
  assert (Hs : forall pick m n, smallest_declared pick caps = Some m -> pick c = Some n -> (m <= n)%Z).
  { intros pick m n [_ H]%smallest_declared_spec. rewrite Forall_forall in H. by apply H. }
  split_and!; [by apply He..|by apply Hs|by apply Hs|].
  intros e level H1 H2. pose proof (intersect_efforts_lookup _ _ _ H1 H2) as H.
  rewrite Forall_forall in H. by apply H.
Qed.

(** A member that declares no window does not lower the one the route claims. *)
Theorem undeclared_window_ignored (c : ProviderModelCapabilities)
  (caps : list ProviderModelCapabilities) :
  caps <> [] -> pc_context_tokens c = None ->
  pc_context_tokens (intersect_route_capabilities (c :: caps)) =
  pc_context_tokens (intersect_route_capabilities caps).
Proof.
  intros Hne Hc. destruct caps as [|c' caps]; [done|].
  cbn [intersect_route_capabilities pc_context_tokens]. unfold smallest_declared. csimpl.
  by rewrite Hc.
Qed.

(** ** Reading and printing the effort table *)

Lemma split_on_none c s : c ∉ s -> split_on c s = [s].
Proof.
  induction s as [|d s IH]; simpl; [done|]. intros H.
  destruct (N.eqb_spec c d) as [->|]; [set_solver|]. by rewrite IH by set_solver.
Qed.

Lemma split_on_app c a b : c ∉ a -> split_on c (a ++ c :: b) = a :: split_on c b.
Proof.
  induction a as [|d a IH]; simpl; intros H; [by rewrite N.eqb_refl|].
  destruct (N.eqb_spec c d) as [->|]; [set_solver|]. by rewrite IH by set_solver.
Qed.

Lemma split_on_not_in c s part : part ∈ split_on c s -> c ∉ part.
Proof.
  revert part. induction s as [|d s IH]; intros part; simpl.
  { intros ->%list_elem_of_singleton. apply not_elem_of_nil. }
  destruct (N.eqb_spec c d) as [->|].
  { intros [->|Hin]%elem_of_cons; [apply not_elem_of_nil|by apply IH]. }
  destruct (split_on c s) as [|p ps].
  { intros ->%list_elem_of_singleton. by rewrite list_elem_of_singleton. }
  intros [->|Hin]%elem_of_cons; [|by apply IH, elem_of_cons; right].
  rewrite not_elem_of_cons. split; [done|]. apply IH, list_elem_of_here.
Qed.

(** Splitting a joined list gives the parts back, with the space of the
    separator in front of all but the first. *)
Lemma split_on_join_after pre part parts :
  comma ∉ pre -> Forall (fun p => comma ∉ p) (part :: parts) ->
  split_on comma (pre ++ join (lit ", ") (part :: parts)) =
  (pre ++ part) :: (cons 32%N <$> parts).
Proof.
  revert pre part. induction parts as [|q parts IH]; intros pre part Hpre Hp;
    inversion_clear Hp as [|? ? H1 H2].
  - apply split_on_none. simpl. set_solver.
  - change (join (lit ", ") (part :: q :: parts))
      with (part ++ comma :: [32%N] ++ join (lit ", ") (q :: parts)).
    rewrite (assoc (++)), split_on_app by set_solver. f_equal.
    rewrite (IH [32%N] q); [done| |done]. by rewrite list_elem_of_singleton.
Qed.

Lemma split_on_join parts part :
  Forall (fun p => comma ∉ p) (part :: parts) ->
  split_on comma (join (lit ", ") (part :: parts)) = part :: (cons 32%N <$> parts).
Proof. apply (split_on_join_after []), not_elem_of_nil. Qed.

(** What the reader stores: a trimmed spelling without a comma, and no
    spelling only for [Off]. *)
Definition entry_clean (level : ProviderReasoningEffortLevel) (wire : option str) : Prop :=
  match wire with
  | None => level = Off
  | Some w => w <> [] /\ trim w = w /\ comma ∉ w
  end.

Lemma Level_parse_as_str level : Level_parse (Level_as_str level) = Some level.
Proof. by destruct level. Qed.

Lemma Level_as_str_plain level :
  equals ∉ Level_as_str level /\ comma ∉ Level_as_str level /\
  trim (Level_as_str level) = Level_as_str level /\ Level_as_str level <> [].
Proof.
  split; [|split]; [| |by destruct level];
    apply (bool_decide_unpack _); destruct level; vm_compute; exact I.
Qed.

Lemma show_effort_trimmed level wire :
  entry_clean level wire -> trim (show_effort (level, wire)) = show_effort (level, wire).
Proof.
  destruct (Level_as_str_plain level) as (_ & _ & Ht & _).
  destruct wire as [w|]; simpl; [|done]. intros (Hne & Hw & _). case_bool_decide; [done|].
  apply trim_ends.
  - intros c. destruct level; by intros [= <-].
  - intros c Hl. rewrite last_app in Hl. simpl in Hl.
    destruct w as [|x w]; [done|]. apply (trimmed_last (x :: w)); [done|].
    change (last (equals :: x :: w)) with (last (x :: w)) in Hl. by destruct (last (x :: w)) eqn:El; [|by apply last_None in El].
Qed.

Lemma show_effort_no_comma level wire : entry_clean level wire -> comma ∉ show_effort (level, wire).
Proof.
  destruct (Level_as_str_plain level) as (_ & Hc & _ & _).
  destruct wire as [w|]; simpl; [|done]. intros (_ & _ & Hw). case_bool_decide; [done|].
  rewrite not_elem_of_app, not_elem_of_cons. by split_and!.
Qed.

(** Reading one printed entry binds its level, unless the level is [Off] with
    the spelling of its own name. *)
Lemma parse_show_effort (m : ProviderModelReasoningEfforts) level wire :
  entry_clean level wire -> (level, wire) <> (Off, Some (lit "off")) -> m !! level = None ->
  parse_effort_entry m (show_effort (level, wire)) = Ok (<[level := wire]> m).
Proof.
  intros Hc Hoff Hm. unfold parse_effort_entry. cbv zeta. rewrite show_effort_trimmed by done.
  destruct (Level_as_str_plain level) as (He & _ & Ht & Hne).
  destruct wire as [w|]; simpl in Hc |- *.
  - destruct Hc as (Hw & Htw & _). case_bool_decide as Hsame.
    + subst w. destruct (Level_as_str level) eqn:El; [done|]. cbn [is_empty].
      rewrite <- El in *. rewrite (proj2 (split_once_None _ _) He), Level_parse_as_str.
      rewrite bool_decide_eq_false_2 by (rewrite Hm; by intros [? [=]]).
      rewrite bool_decide_eq_false_2; [done|]. intros ->. apply Hoff. done.
    + destruct (Level_as_str level ++ equals :: w) eqn:El; [by destruct (Level_as_str level)|].
      cbn [is_empty]. rewrite <- El. rewrite split_once_app by done.
      rewrite Ht, Htw, Level_parse_as_str.
      rewrite bool_decide_eq_false_2 by (rewrite Hm; by intros [? [=]]).
      by destruct w.
  - subst level. simpl. rewrite bool_decide_eq_false_2 by (rewrite Hm; by intros [? [=]]). done.
Qed.

Lemma parse_space (m : ProviderModelReasoningEfforts) entry :
  parse_effort_entry m (32%N :: entry) = parse_effort_entry m entry.
Proof. unfold parse_effort_entry. by rewrite trim_space. Qed.

Lemma for_fold_parse_space m entries :
  for_fold parse_effort_entry m (cons 32%N <$> entries) = for_fold parse_effort_entry m entries.
Proof.
  revert m. induction entries as [|e l IH]; intros m; [done|]. csimpl. cbn [for_fold].
  rewrite parse_space. destruct (parse_effort_entry m e); simpl; [apply IH|done].
Qed.

(** Reading the printed entries in turn binds them all. *)
Lemma for_fold_parse_show m kvs :
  NoDup kvs.*1 -> Forall (fun kv => m !! kv.1 = None) kvs ->
  Forall (fun kv => entry_clean kv.1 kv.2 /\ kv <> (Off, Some (lit "off"))) kvs ->
  for_fold parse_effort_entry m (show_effort <$> kvs) =
  Ok (foldl (fun (m : ProviderModelReasoningEfforts) kv => <[kv.1 := kv.2]> m) m kvs).
Proof.
  revert m. induction kvs as [|[level wire] kvs IH]; intros m Hd Hm Hc; [done|].
  inversion_clear Hd as [|? ? Hn Hd']. inversion_clear Hm as [|? ? Hm1 Hm'].
  inversion_clear Hc as [|? ? [Hc1 Hc2] Hc']. rewrite fmap_cons. cbn [for_fold].
  rewrite parse_show_effort by done. cbn [result_bind]. apply IH; [done| |done].
  rewrite Forall_forall in Hm' |- *. intros kv Hkv. rewrite lookup_insert_ne; [by apply Hm'|].
  intros ->. apply Hn. by apply list_elem_of_fmap_2.
Qed.

Lemma elem_of_declared e kv : kv ∈ declared_levels e <-> e !! kv.1 = Some kv.2.
Proof.
  unfold declared_levels. rewrite list_elem_of_omap. split.
  - intros (level & _ & H). apply fmap_Some in H as (w & Hw & ->). done.
  - intros H. exists kv.1. rewrite H. destruct kv as [level w]. split; [|done].
    destruct level; set_solver.
Qed.

Lemma declared_levels_NoDup e : NoDup (declared_levels e).*1.
Proof.
  unfold declared_levels.
  assert (Hsub : forall l : list ProviderReasoningEffortLevel,
    (omap (fun level => pair level <$> e !! level) l).*1 `sublist_of` l).
  { induction l as [|x l IH]; [done|]. csimpl. destruct (e !! x); simpl; by constructor. }
  apply (sublist_NoDup _ Level_ALL); [|apply Hsub]. by apply (bool_decide_unpack _).
Qed.

Lemma foldl_insert_lookup (m : ProviderModelReasoningEfforts) kvs level :
  NoDup kvs.*1 ->
  (forall w, (level, w) ∈ kvs ->
     foldl (fun (m : ProviderModelReasoningEfforts) kv => <[kv.1 := kv.2]> m) m kvs !! level = Some w) /\
  (level ∉ kvs.*1 ->
     foldl (fun (m : ProviderModelReasoningEfforts) kv => <[kv.1 := kv.2]> m) m kvs !! level =
     m !! level).
Proof.
  revert m. induction kvs as [|[l w] kvs IH]; intros m Hd; [split; [set_solver|done]|].
  inversion_clear Hd as [|? ? Hn Hd']. simpl. destruct (IH (<[l:=w]> m) Hd') as [IH1 IH2].
  split.
  - intros w' [[= -> ->]|Hin]%elem_of_cons; [|by apply IH1].
    rewrite IH2 by done. by rewrite lookup_insert_eq.
  - rewrite not_elem_of_cons. intros [Hne Hni]. rewrite IH2 by done.
    by rewrite lookup_insert_ne.
Qed.

Lemma foldl_insert_declared e :
  foldl (fun (m : ProviderModelReasoningEfforts) kv => <[kv.1 := kv.2]> m) ∅ (declared_levels e) = e.
Proof.
  apply map_eq. intros level.
  destruct (foldl_insert_lookup ∅ (declared_levels e) level (declared_levels_NoDup e)) as [H1 H2].
  destruct (e !! level) as [w|] eqn:E.
  - apply H1. by apply elem_of_declared.
  - rewrite H2; [apply lookup_empty|]. intros ([l w] & -> & Hin)%list_elem_of_fmap.
    apply elem_of_declared in Hin. simpl in *. congruence.
Qed.

(** What [parse] stores is clean. *)
Definition efforts_clean (e : ProviderModelReasoningEfforts) : Prop := map_Forall entry_clean e.

Lemma parse_effort_entry_clean m entry m' :
  comma ∉ entry -> efforts_clean m -> parse_effort_entry m entry = Ok m' -> efforts_clean m'.
Proof.
  intros Hcomma Hm. unfold parse_effort_entry. cbv zeta.
  destruct (is_empty (trim entry)); [by intros [= <-]|].
  assert (Hlevels : forall l, entry_clean l (Some (Level_as_str l))).
  { intros l. by destruct (Level_as_str_plain l) as (? & ? & ? & ?). }
  destruct (split_once equals (trim entry)) as [[lv w]|] eqn:E.
  - destruct (Level_parse (trim lv)) as [level|]; [|done]. case_bool_decide; [done|].
    destruct (trim w) as [|c w'] eqn:Ew; [done|]. intros [= <-].
    apply map_Forall_insert_2; [|done]. simpl. rewrite <- Ew.
    split_and!; [by rewrite Ew|apply trim_idem|]. intros Hin. apply Hcomma.
    apply trim_submseteq. apply split_once_Some in E as [-> _].
    apply trim_submseteq in Hin. set_solver.
  - destruct (Level_parse (trim entry)) as [level|]; [|done]. case_bool_decide; [done|].
    case_bool_decide; intros [= <-]; apply map_Forall_insert_2; done.
Qed.

Lemma Efforts_parse_clean s e : Efforts_parse s = Ok (Some e) ->
  efforts_clean e /\ Efforts_validate e = Ok tt /\ e <> ∅.
Proof.
  unfold Efforts_parse. intros (m & Hm & H)%bind_ok.
  case_bool_decide as He; [done|]. apply bind_unit_ok in H as [Hv [= <-]].
  split_and!; [|done|done].
  eapply (for_fold_inv parse_effort_entry efforts_clean); [|apply map_Forall_empty|exact Hm].
  intros m1 x m2 Hx. apply parse_effort_entry_clean. by eapply split_on_not_in.
Qed.

(** The printed form of a declaration the reader accepted reads back as the
    same table, when [Off] is not spelled by its own name. *)
Theorem efforts_round_trip (s : str) (e : ProviderModelReasoningEfforts) :
  Efforts_parse s = Ok (Some e) -> e !! Off <> Some (Some (lit "off")) ->
  Efforts_parse (Efforts_display e) = Ok (Some e).
Proof.
  intros (Hc & Hv & Hne)%Efforts_parse_clean Hoff. unfold Efforts_parse, Efforts_display.
  assert (Hd : Forall (fun kv => entry_clean kv.1 kv.2 /\ kv <> (Off, Some (lit "off")))
    (declared_levels e)).
  { apply Forall_forall. intros [l w] Hin%elem_of_declared. simpl in Hin. split; [by apply Hc|].
    intros [= -> ->]. done. }
  assert (Hfold : for_fold parse_effort_entry ∅
    (split_on comma (join (lit ", ") (show_effort <$> declared_levels e))) = Ok e).
  { rewrite <- (foldl_insert_declared e) at 2.
    rewrite <- for_fold_parse_show; [|apply declared_levels_NoDup|by apply Forall_forall|done].
    destruct (show_effort <$> declared_levels e) as [|p ps] eqn:E; [done|].
    rewrite split_on_join.
    - cbn [for_fold]. destruct (parse_effort_entry ∅ p); simpl; [|done].
      apply for_fold_parse_space.
    - rewrite <- E. apply Forall_fmap. eapply Forall_impl; [exact Hd|].
      intros [l w] [H _]. by apply show_effort_no_comma. }
  rewrite Hfold. cbn [result_bind]. rewrite bool_decide_eq_false_2 by done. by rewrite Hv.
Qed.

(** A table that spells [Off] by its own name does not survive its printed
    form: the spelling is dropped, and dispatch then sends nothing for it. *)
Theorem off_spelling_lost :
  exists e e', Efforts_parse (lit "off=off,low") = Ok (Some e) /\
    Efforts_parse (Efforts_display e) = Ok (Some e') /\
    e !! Off = Some (Some (lit "off")) /\ e' !! Off = Some None.
Proof. do 2 eexists. split_and!; vm_compute; reflexivity. Qed.
