(* ===== verification/KeyPlan.v ===== *)
(** Key selection and failure classification
    (crates/model-gateway/src/route.rs): the attempt order of one Provider's
    Keys for one request, and the cooldown vocabulary of an upstream failure. *)
From stdpp Require Import prelude strings list sorting.
From Stdlib Require Import NArith ZArith Lia Sorted.
From S2P Require Import Prelude CoreTypes GatewayTypes.

(** ** Candidates *)

Record CandidateKey : Type := mkCandidate {
  ck_profile : ident;
  ck_credential : ident;
  ck_priority : Z;
  ck_preferred : bool;
  ck_ready : bool;
  ck_cooling : option GatewayFailureKind;
  ck_used_tokens : Z;
  ck_token_limit : option GatewayTokenLimit;
  ck_window_used_tokens : option Z
}.
#[export] Instance CandidateKey_eq_dec : EqDecision CandidateKey.
Proof. solve_decision. Defined.

Definition CandidateKey_new (profile credential : ident) (priority : Z) : CandidateKey :=
  {| ck_profile := profile; ck_credential := credential; ck_priority := priority;
     ck_preferred := false; ck_ready := true; ck_cooling := None; ck_used_tokens := 0;
     ck_token_limit := None; ck_window_used_tokens := None |}.
Definition preferred (c : CandidateKey) : CandidateKey :=
  {| ck_profile := ck_profile c; ck_credential := ck_credential c; ck_priority := ck_priority c;
     ck_preferred := true; ck_ready := ck_ready c; ck_cooling := ck_cooling c;
     ck_used_tokens := ck_used_tokens c; ck_token_limit := ck_token_limit c;
     ck_window_used_tokens := ck_window_used_tokens c |}.
Definition cooling (c : CandidateKey) (kind : GatewayFailureKind) : CandidateKey :=
  {| ck_profile := ck_profile c; ck_credential := ck_credential c; ck_priority := ck_priority c;
     ck_preferred := ck_preferred c; ck_ready := false; ck_cooling := Some kind;
     ck_used_tokens := ck_used_tokens c; ck_token_limit := ck_token_limit c;
     ck_window_used_tokens := ck_window_used_tokens c |}.
Definition with_usage (c : CandidateKey) (used : Z) : CandidateKey :=
  {| ck_profile := ck_profile c; ck_credential := ck_credential c; ck_priority := ck_priority c;
     ck_preferred := ck_preferred c; ck_ready := ck_ready c; ck_cooling := ck_cooling c;
     ck_used_tokens := used; ck_token_limit := ck_token_limit c;
     ck_window_used_tokens := ck_window_used_tokens c |}.
Definition with_token_limit (c : CandidateKey) (limit : GatewayTokenLimit) (used : Z)
  : CandidateKey :=
  {| ck_profile := ck_profile c; ck_credential := ck_credential c; ck_priority := ck_priority c;
     ck_preferred := ck_preferred c; ck_ready := ck_ready c; ck_cooling := ck_cooling c;
     ck_used_tokens := ck_used_tokens c; ck_token_limit := Some limit;
     ck_window_used_tokens := Some used |}.

Definition over_token_limit (c : CandidateKey) : bool :=
  match ck_token_limit c, ck_window_used_tokens c with
  | Some limit, Some used => (tl_tokens limit <=? used)%Z
  | _, _ => false
  end.
(** The test the planner makes of every candidate. *)
Definition usable (c : CandidateKey) : bool := ck_ready c && negb (over_token_limit c).

Record RouteRequest : Type := mkRouteRequest {
  rq_candidates : list CandidateKey;
  rq_strategy : GatewayRoutingStrategy;
  rq_rotation : Z;
  rq_pinned : option (ident * ident)
}.

Record RoutePlan : Type := mkPlan {
  pl_order : list CandidateKey;
  pl_skipped_cooling : nat;
  pl_skipped_over_limit : nat;
  pl_pinned : bool
}.

Definition attemptable (p : RoutePlan) : list CandidateKey :=
  take (length (pl_order p) - pl_skipped_cooling p) (pl_order p).
Definition RoutePlan_is_empty (p : RoutePlan) : bool := is_empty (pl_order p).
(** [order.iter().rev().find_map(|c| c.cooling)]. *)
Definition retry_after_hint (p : RoutePlan) : option GatewayFailureKind :=
  head (omap ck_cooling (reverse (pl_order p))).
Definition may_fail_over (p : RoutePlan) : bool := 1 <? length (attemptable p).

(** ** The order *)

Definition pinned_matches (pinned : option (ident * ident)) (c : CandidateKey) : bool :=
  match pinned with
  | Some (profile, credential) =>
    bool_decide (ck_profile c = profile) && bool_decide (ck_credential c = credential)
  | None => false
  end.

(** [!candidate.preferred] as the first component of a sort key. *)
Definition preferred_key (c : CandidateKey) : list Z :=
  [if ck_preferred c then 0 else 1; ck_priority c]%Z.
Definition usage_key (c : CandidateKey) : list Z := [ck_used_tokens c; ck_priority c].

(** The reordering of the candidates after the preferred ones. *)
Definition strategy_order (strategy : GatewayRoutingStrategy) (rotation : Z)
  (rest : list CandidateKey) : list CandidateKey :=
  match strategy with
  | KeyOrdered => rest
  | KeyRoundRobin =>
    if is_empty rest then rest else rotate_left (rotation_offset rotation (length rest)) rest
  | KeyLeastUsed => sort_by_key usage_key rest
  end.

Definition sort_ready (ready : list CandidateKey) (strategy : GatewayRoutingStrategy)
  (rotation : Z) : list CandidateKey :=
  let ready := sort_by_key preferred_key ready in
  let n := count_while ck_preferred ready in
  take n ready ++ strategy_order strategy rotation (drop n ready).

(** The candidates with a usable pinned Key moved to the front, and whether
    there was one. *)
Definition apply_pin (pinned : option (ident * ident)) (candidates : list CandidateKey)
  : list CandidateKey * bool :=
  match position (pinned_matches pinned) candidates with
  | None => (candidates, false)
  | Some index =>
    match candidates !! index with
    | Some c => if usable c then (move_to_front index candidates, true) else (candidates, false)
    | None => (candidates, false)
    end
  end.

Definition plan_route (request : RouteRequest) : RoutePlan :=
  let pinned := rq_pinned request in
  let '(candidates, pinned_hit) := apply_pin pinned (rq_candidates request) in
  let ready := retain usable candidates in
  let skipped := retain (fun c => negb (usable c)) candidates in
  let skipped_over_limit := length (retain ck_ready skipped) in
  let ready :=
    if pinned_hit then
      let ready := sort_by_key (fun c => [ck_priority c]) ready in
      match position (pinned_matches pinned) ready with
      | Some index => move_to_front index ready
      | None => ready
      end
    else sort_ready ready (rq_strategy request) (rq_rotation request) in
  {| pl_order := ready ++ skipped; pl_skipped_cooling := length skipped;
     pl_skipped_over_limit := skipped_over_limit; pl_pinned := pinned_hit |}.

(** ** Failure classification

    [words] is [body.to_lowercase()]; the definitions take the lowering as an
    argument. *)

Definition credit_words : list str :=
  [lit "insufficient_quota"; lit "insufficient balance"; lit "insufficient_credit";
   lit "credit balance"; lit "billing"; lit "payment required"; lit "out of credit";
   lit "balance is"; [20313; 39069]%N; [27424; 36153]%N].
Definition quota_words : list str :=
  [lit "quota"; lit "usage limit"; lit "usage_limit"; lit "limit reached"; lit "exceeded your";
   lit "plan limit"; lit "out of budget"; [39069; 24230]%N; [19978; 38480]%N].
Definition rate_words : list str :=
  [lit "rate limit"; lit "rate_limit"; lit "too many requests"; lit "requests per";
   lit "tokens per minute"; lit "slow down"; [38480; 27969]%N; [39057; 29575]%N].
Definition auth_words : list str :=
  [lit "api key"; lit "unauthorized"; lit "authentication"; lit "invalid key"].
Definition shape_words : list str :=
  [lit "unknown variant"; lit "unknown field"; lit "missing field"; lit "unexpected field";
   lit "failed to deserialize"; lit "invalid type"; lit "expected one of"; lit "unsupported";
   lit "not supported"; lit "no such"].

Definition mentions (words : str) (needles : list str) : bool :=
  existsb (str_contains words) needles.

Definition classify_failure (to_lowercase : str -> str) (status : Z) (body : str)
  : GatewayFailureKind :=
  let words := to_lowercase body in
  if (status =? 401)%Z then KindAuth
  else if (status =? 402)%Z then
    if mentions words quota_words && negb (mentions words credit_words) then KindQuota
    else KindCredit
  else if (status =? 403)%Z then
    if mentions words auth_words then KindAuth else KindOther
  else if (status =? 404)%Z then KindOther
  else if (status =? 408)%Z || (status =? 504)%Z then KindUpstream
  else if (status =? 429)%Z then
    if mentions words credit_words then KindCredit
    else if mentions words quota_words && negb (mentions words rate_words) then KindQuota
    else KindRate
  else if (500 <=? status)%Z && (status <=? 599)%Z then KindUpstream
  else KindOther.

Definition is_protocol_mismatch (to_lowercase : str -> str) (status : Z) (body : str) : bool :=
  let words := to_lowercase body in
  if (status =? 415)%Z || (status =? 422)%Z then true
  else if (status =? 400)%Z then mentions words shape_words
  else false.

(** * Theorems *)

(** ** The pin *)

Lemma apply_pin_perm pinned cs : (apply_pin pinned cs).1 ≡ₚ cs.
Proof.
  unfold apply_pin. destruct (position _ cs) as [i|]; [|done].
  destruct (cs !! i) as [c|]; [|done]. destruct (usable c); [|done]. apply move_to_front_perm.
Qed.

(** Moving a usable Key does not disturb the skipped ones. *)
Lemma apply_pin_skipped pinned cs :
  retain (fun c => negb (usable c)) (apply_pin pinned cs).1 = retain (fun c => negb (usable c)) cs.
Proof.
  unfold apply_pin. destruct (position _ cs) as [i|]; [|done].
  destruct (cs !! i) as [c|] eqn:E; [|done]. destruct (usable c) eqn:Eu; [|done]. simpl.
  apply retain_move_to_front_false with c; [done|]. by rewrite Eu.
Qed.

Lemma apply_pin_miss pinned cs : (apply_pin pinned cs).2 = false -> (apply_pin pinned cs).1 = cs.
Proof.
  unfold apply_pin. destruct (position _ cs) as [i|]; [|done].
  destruct (cs !! i) as [c|]; [|done]. by destruct (usable c).
Qed.

(** The pin is honoured exactly when the first Key it names can answer. *)
Lemma apply_pin_hit pinned cs :
  (apply_pin pinned cs).2 = true <->
  exists i c, cs !! i = Some c /\ pinned_matches pinned c = true /\ usable c = true /\
    Forall (fun d => pinned_matches pinned d = false) (take i cs).
Proof.
  unfold apply_pin. destruct (position _ cs) as [i|] eqn:E.
  - destruct (position_Some _ _ _ E) as (c & Hc & Hm & Hf). rewrite Hc.
    destruct (usable c) eqn:Eu; simpl; split; try done.
    + intros _. by exists i, c.
    + intros (j & d & Hd & Hmd & Hud & Hfd). assert (i = j) as ->; [|congruence].
      rewrite Forall_lookup in Hf, Hfd.
      destruct (Nat.lt_trichotomy i j) as [Hlt|[?|Hlt]]; [|done|].
      * rewrite (Hfd i c) in Hm; [done|]. by rewrite lookup_take_lt.
      * rewrite (Hf j d) in Hmd; [done|]. by rewrite lookup_take_lt.
  - split; [done|]. intros (i & c & Hc & Hm & _). apply position_None in E.
    rewrite Forall_forall in E. rewrite E in Hm; [done|]. by eapply list_elem_of_lookup_2.
Qed.

(** ** The parts of a plan *)

Lemma strategy_order_perm strategy rotation rest : strategy_order strategy rotation rest ≡ₚ rest.
Proof.
  destruct strategy; simpl; [done| |apply sort_by_key_perm].
  destruct (is_empty rest); [done|apply rotate_left_perm].
Qed.

Lemma sort_ready_perm ready strategy rotation : sort_ready ready strategy rotation ≡ₚ ready.
Proof.
  unfold sort_ready. rewrite strategy_order_perm, take_drop. apply sort_by_key_perm.
Qed.

(** The attemptable part of a plan. *)
Definition planned_ready (request : RouteRequest) : list CandidateKey :=
  let '(candidates, pinned_hit) := apply_pin (rq_pinned request) (rq_candidates request) in
  let ready := retain usable candidates in
  if pinned_hit then
    let ready := sort_by_key (fun c => [ck_priority c]) ready in
    match position (pinned_matches (rq_pinned request)) ready with
    | Some index => move_to_front index ready
    | None => ready
    end
  else sort_ready ready (rq_strategy request) (rq_rotation request).

Definition skipped_of (request : RouteRequest) : list CandidateKey :=
  retain (fun c => negb (usable c)) (rq_candidates request).

Lemma plan_route_shape request :
  pl_order (plan_route request) = planned_ready request ++ skipped_of request /\
  pl_skipped_cooling (plan_route request) = length (skipped_of request) /\
  pl_skipped_over_limit (plan_route request) = length (retain ck_ready (skipped_of request)) /\
  pl_pinned (plan_route request) = (apply_pin (rq_pinned request) (rq_candidates request)).2.
Proof.
  unfold plan_route, planned_ready, skipped_of.
  rewrite <- (apply_pin_skipped (rq_pinned request) (rq_candidates request)).
  by destruct (apply_pin (rq_pinned request) (rq_candidates request)) as [cs hit].
Qed.

Lemma attemptable_ready request : attemptable (plan_route request) = planned_ready request.
Proof.
  unfold attemptable. destruct (plan_route_shape request) as (-> & -> & _).
  rewrite length_app, Nat.add_sub. apply take_app_length.
Qed.

Lemma planned_ready_perm request : planned_ready request ≡ₚ retain usable (rq_candidates request).
Proof.
  unfold planned_ready.
  pose proof (apply_pin_perm (rq_pinned request) (rq_candidates request)) as Hp.
  destruct (apply_pin _ _) as [cs []]; simpl in Hp.
  - destruct (position _ _); [rewrite move_to_front_perm|]; by rewrite sort_by_key_perm, Hp.
  - by rewrite sort_ready_perm, Hp.
Qed.

(** A plan loses no candidate and invents none: the attemptable part is a
    reordering of the Keys that can answer, what follows is the others in their
    configured order, and the two counters say how many were skipped and how
    many of those only for their token ceiling. *)
Theorem plan_route_partition (request : RouteRequest) :
  let plan := plan_route request in
  pl_order plan ≡ₚ rq_candidates request /\
  attemptable plan ≡ₚ retain usable (rq_candidates request) /\
  drop (length (attemptable plan)) (pl_order plan) =
    retain (fun c => negb (usable c)) (rq_candidates request) /\
  pl_skipped_cooling plan = length (drop (length (attemptable plan)) (pl_order plan)) /\
  pl_skipped_over_limit plan =
    length (retain (fun c => ck_ready c && over_token_limit c) (rq_candidates request)).
Proof.
  cbv zeta. rewrite attemptable_ready. destruct (plan_route_shape request) as (-> & -> & -> & _).
  rewrite drop_app_length. split_and!; [|apply planned_ready_perm|done|done|].
  - rewrite planned_ready_perm. apply retain_perm_split.
  - unfold skipped_of, usable. rewrite retain_and. f_equal. apply retain_ext. intros c.
    by destruct (ck_ready c), (over_token_limit c).
Qed.

Lemma planned_ready_pinned request :
  pl_pinned (plan_route request) = true ->
  exists c rest, planned_ready request = c :: rest /\
    pinned_matches (rq_pinned request) c = true /\ usable c = true /\
    StronglySorted (fun a b => ck_priority a <= ck_priority b)%Z rest.
Proof.
  destruct (plan_route_shape request) as (_ & _ & _ & ->).
  intros Hhit. pose proof Hhit as Hex.
  apply apply_pin_hit in Hex as (i & c & Hc & Hm & Hu & _).
  pose proof (planned_ready_perm request) as Hperm. unfold planned_ready in *.
  pose proof (apply_pin_perm (rq_pinned request) (rq_candidates request)) as Hp.
  destruct (apply_pin _ _) as [cs hit]. simpl in Hhit, Hp. subst hit.
  set (ready := sort_by_key (fun c => [ck_priority c]) (retain usable cs)) in *.
  assert (Hin : c ∈ ready).
  { unfold ready. rewrite sort_by_key_perm, Hp. apply elem_of_retain. split; [|done].
    by eapply list_elem_of_lookup_2. }
  destruct (position (pinned_matches (rq_pinned request)) ready) as [j|] eqn:E.
  2:{ apply position_None in E. rewrite Forall_forall in E. by rewrite (E c Hin) in Hm. }
  destruct (position_Some _ _ _ E) as (d & Hd & Hmd & _). unfold move_to_front in *.
  rewrite Hd in *. exists d, (delete j ready). split_and!; [done|done| |].
  - assert (Hd' : d ∈ retain usable (rq_candidates request)).
    { rewrite <- Hperm. apply list_elem_of_here. }
    by apply elem_of_retain in Hd' as [_ ?].
  - apply StronglySorted_delete, sort_by_int_sorted.
Qed.

(** The plan holds a conversation on its Key exactly when the first Key the pin
    names can answer; that Key then comes first and the others follow by
    configured priority. *)
Theorem pinned_key_leads (request : RouteRequest) :
  (pl_pinned (plan_route request) = true <->
   exists i c, rq_candidates request !! i = Some c /\
     pinned_matches (rq_pinned request) c = true /\ usable c = true /\
     Forall (fun d => pinned_matches (rq_pinned request) d = false)
       (take i (rq_candidates request))) /\
  (pl_pinned (plan_route request) = true ->
   exists c rest, attemptable (plan_route request) = c :: rest /\
     pinned_matches (rq_pinned request) c = true /\ usable c = true /\
     StronglySorted (fun a b => ck_priority a <= ck_priority b)%Z rest).
Proof.
  rewrite attemptable_ready. split; [|apply planned_ready_pinned].
  destruct (plan_route_shape request) as (_ & _ & _ & ->). apply apply_pin_hit.
Qed.

(** ** The strategy's order *)

Lemma preferred_key_le x y :
  lex_le (preferred_key x) (preferred_key y) = true -> ck_preferred y = true -> ck_preferred x = true.
Proof. unfold preferred_key. intros H Hy. rewrite Hy in H. by destruct (ck_preferred x). Qed.

Lemma preferred_key_same x y :
  ck_preferred x = ck_preferred y ->
  lex_le (preferred_key x) (preferred_key y) = lex_le [ck_priority x] [ck_priority y].
Proof. unfold preferred_key. intros ->. by destruct (ck_preferred y). Qed.

Lemma sort_preferred_part (p : CandidateKey -> bool) ready :
  (forall x y, p x = true -> p y = true -> ck_preferred x = ck_preferred y) ->
  retain p (sort_by_key preferred_key ready) =
  sort_by_key (fun c => [ck_priority c]) (retain p ready).
Proof.
  intros Hp. rewrite sort_by_key_retain. apply sort_by_key_ext. intros x y Hx Hy.
  apply elem_of_retain in Hx as [_ Hx], Hy as [_ Hy]. by apply preferred_key_same, Hp.
Qed.

Lemma sort_ready_parts ready strategy rotation :
  sort_ready ready strategy rotation =
  sort_by_key (fun c => [ck_priority c]) (retain ck_preferred ready) ++
  strategy_order strategy rotation
    (sort_by_key (fun c => [ck_priority c]) (retain (fun c => negb (ck_preferred c)) ready)).
Proof.
  unfold sort_ready. cbv zeta.
  destruct (count_while_split _ ck_preferred (sort_by_key preferred_key ready)
    preferred_key_le (sort_by_key_sorted preferred_key ready)) as [-> ->].
  rewrite !sort_preferred_part; [done| |]; intros x y; [|congruence].
  rewrite !negb_true_iff. congruence.
Qed.

(** Without a pin the Keys the user prefers come first, by priority, and the
    strategy decides the order of the rest: by priority, rotated, or by usage
    and then priority. *)
Theorem unpinned_order (request : RouteRequest) :
  pl_pinned (plan_route request) = false ->
  let ready := retain usable (rq_candidates request) in
  let by_priority := sort_by_key (fun c => [ck_priority c]) in
  let rest := by_priority (retain (fun c => negb (ck_preferred c)) ready) in
  attemptable (plan_route request) =
  by_priority (retain ck_preferred ready) ++
  match rq_strategy request with
  | KeyOrdered => rest
  | KeyRoundRobin => rotate_left (rotation_offset (rq_rotation request) (length rest)) rest
  | KeyLeastUsed => sort_by_key (fun c => [ck_used_tokens c; ck_priority c]) rest
  end.
Proof.
  destruct (plan_route_shape request) as (_ & _ & _ & ->). intros Hmiss. cbv zeta.
  rewrite attemptable_ready. unfold planned_ready.
  pose proof (apply_pin_miss _ _ Hmiss) as Hcs. destruct (apply_pin _ _) as [cs hit].
  simpl in Hmiss, Hcs. subst hit cs. rewrite sort_ready_parts. f_equal.
  unfold strategy_order. destruct (rq_strategy request); [done| |done].
  destruct (sort_by_key _ _); [|done]. unfold rotate_left. by rewrite drop_nil, take_nil.
Qed.

Definition with_rotation (request : RouteRequest) (rotation : Z) : RouteRequest :=
  {| rq_candidates := rq_candidates request; rq_strategy := rq_strategy request;
     rq_rotation := rotation; rq_pinned := rq_pinned request |}.

Lemma rotation_offset_nat (start j n : nat) :
  0 < n -> rotation_offset (Z.of_nat start + Z.of_nat j) n = (j + start) mod n.
Proof.
  intros H. unfold rotation_offset. rewrite <- Nat2Z.inj_add, <- Nat2Z.inj_mod, Nat2Z.id.
  f_equal. lia.
Qed.

(** Rotation is fair: over as many consecutive requests as there are Keys that
    can answer, each of them is tried first exactly once. *)
Theorem round_robin_is_fair (request : RouteRequest) (start : nat) :
  rq_strategy request = KeyRoundRobin -> rq_pinned request = None ->
  Forall (fun c => ck_preferred c = false) (rq_candidates request) ->
  let n := length (retain usable (rq_candidates request)) in
  omap (fun j => head (attemptable (plan_route
      (with_rotation request (Z.of_nat start + Z.of_nat j))))) (seq 0 n)
  ≡ₚ retain usable (rq_candidates request).
Proof.
  intros Hs Hp Hf. cbv zeta.
  set (ready := retain usable (rq_candidates request)).
  set (sorted := sort_by_key (fun c => [ck_priority c]) ready).
  assert (Hperm : sorted ≡ₚ ready) by apply sort_by_key_perm.
  rewrite <- Hperm at 2. rewrite <- (Permutation_length Hperm).
  transitivity (omap (fun j => sorted !! ((j + start) mod length sorted)) (seq 0 (length sorted)));
    [|apply rotations_heads].
  apply eq_Permutation, list_omap_ext, Forall_Forall2_diag, Forall_seq. intros j Hj. simpl in Hj.
  rewrite attemptable_ready. unfold planned_ready. simpl. rewrite Hp.
  assert (apply_pin None (rq_candidates request) = (rq_candidates request, false)) as ->.
  { unfold apply_pin. rewrite (proj2 (position_None _ _)); [done|]. by apply Forall_true. }
  fold ready. rewrite sort_ready_parts, Hs.
  assert (Hr : Forall (fun c => ck_preferred c = false) ready).
  { apply Forall_forall. intros c [Hc _]%elem_of_retain. rewrite Forall_forall in Hf. by apply Hf. }
  rewrite retain_none by done. rewrite retain_all.
  2:{ eapply Forall_impl; [exact Hr|]. by intros c ->. }
  simpl. fold sorted. destruct sorted as [|c l] eqn:E; [simpl in Hj; lia|]. rewrite <- E in *.
  assert (is_empty sorted = false) as -> by (by rewrite E).
  rewrite rotation_offset_nat by lia. rewrite head_rotate_left; [done|].
  apply Nat.mod_upper_bound. lia.
Qed.

(** ** Classification *)

Lemma mentions_spec words needles :
  mentions words needles = true <-> exists w a b, w ∈ needles /\ words = a ++ w ++ b.
Proof.
  unfold mentions. rewrite existsb_elem. setoid_rewrite str_contains_spec. naive_solver.
Qed.

(** A Key is declared invalid only by a 401, or by a 403 whose body names the
    credential; a failure that only says the request had the wrong shape never
    is, and cools the Key for the shortest time. *)
Theorem auth_verdict_causes (to_lowercase : str -> str) (status : Z) (body : str) :
  (classify_failure to_lowercase status body = KindAuth <->
   status = 401%Z \/
   status = 403%Z /\ exists w a b, w ∈ auth_words /\ to_lowercase body = a ++ w ++ b) /\
  (is_protocol_mismatch to_lowercase status body = true ->
   classify_failure to_lowercase status body = KindOther).
Proof.
  rewrite <- mentions_spec. unfold classify_failure, is_protocol_mismatch. cbv zeta.
  split; repeat case_match; rewrite ?orb_true_iff, ?Z.eqb_eq, ?Z.eqb_neq in *;
    naive_solver lia.
Qed.
