(* ===== verification/GatewayErrors.v ===== *)
(** The gateway's error surface (crates/model-gateway/src/error.rs): the HTTP
    status, the stable code, the message, and what an error says about the
    upstream, the Key and a later retry. *)
From stdpp Require Import prelude strings list.
From Stdlib Require Import NArith ZArith Lia.
From S2P Require Import Prelude CoreTypes GatewayTypes KeyPlan Capabilities.

Inductive GatewayError : Type :=
| ModelNotFound (model : str) (closest : list str)
| AllKeysCooling (model : str) (retry_after_ms : option Z)
| TokenCeilingReached (provider : str)
| TranslationDisabled (wire_protocol_id : str)
| UnsupportedImageReference
| MalformedRequest (detail : str)
| Upstream (status : Z) (message : str)
| ProtocolMismatch (wire_protocol_id : str) (status : Z) (message : str)
| TranslationFailed (wire_protocol_id : str) (status : Z) (message : str)
| RoutePaused (group reason : str)
| NotConfigured (detail : str)
| Internal (detail : str).

#[export] Instance GatewayError_eq_dec : EqDecision GatewayError.
Proof. solve_decision. Defined.

Abbreviation GatewayResult A := (result A GatewayError).

Definition GatewayError_status (e : GatewayError) : Z :=
  match e with
  | ModelNotFound _ _ => 404
  | AllKeysCooling _ _ => 429
  | TokenCeilingReached _ => 429
  | TranslationDisabled _ => 400
  | UnsupportedImageReference => 400
  | MalformedRequest _ => 400
  | Upstream status _ => status
  | ProtocolMismatch _ _ _ | TranslationFailed _ _ _ => 502
  | RoutePaused _ _ => 503
  | NotConfigured _ => 503
  | Internal _ => 500
  end.

Definition GatewayError_code (e : GatewayError) : str :=
  match e with
  | ModelNotFound _ _ => lit "model_not_found"
  | AllKeysCooling _ _ => lit "model_gateway_keys_cooling"
  | TokenCeilingReached _ => lit "model_gateway_token_ceiling_reached"
  | TranslationDisabled _ => lit "model_gateway_translation_disabled"
  | UnsupportedImageReference => lit "unsupported_image_reference"
  | MalformedRequest _ => lit "model_gateway_request_invalid"
  | Upstream _ _ => lit "model_gateway_upstream_failed"
  | ProtocolMismatch _ _ _ => lit "model_gateway_protocol_mismatch"
  | TranslationFailed _ _ _ => lit "model_gateway_translation_failed"
  | RoutePaused _ _ => lit "model_gateway_route_paused"
  | NotConfigured _ => lit "model_gateway_not_configured"
  | Internal _ => lit "model_gateway_internal"
  end.

(** A Markdown code span. *)
Definition ticked (s : str) : str := lit "`" ++ s ++ lit "`".

Definition GatewayError_message (e : GatewayError) : str :=
  match e with
  | ModelNotFound model [] =>
    lit "No configured Provider serves the model " ++ ticked model ++ lit "."
  | ModelNotFound model closest =>
    lit "No configured Provider serves the model " ++ ticked model
    ++ lit ". Closest configured models: " ++ join (lit ", ") closest ++ lit "."
  | AllKeysCooling model _ =>
    lit "Every Key serving " ++ ticked model
    ++ lit " is cooling down after a failure. Requests will resume when one recovers."
  | TokenCeilingReached provider =>
    ticked provider
    ++ lit " reached the token ceiling you set. Requests will resume when the window rolls over."
  | TranslationDisabled wire =>
    lit "This request needs a translation to " ++ ticked wire
    ++ lit ", which is turned off for this Provider."
  | UnsupportedImageReference =>
    lit "This request references a vendor-side file, which the gateway cannot forward across Providers. Upload the image directly, or use a direct Provider for this model."
  | MalformedRequest detail => lit "The gateway could not read this request: " ++ detail
  | Upstream _ message => message
  | ProtocolMismatch wire _ message =>
    ticked wire ++ lit " is the wrong protocol for this endpoint: " ++ message
  | TranslationFailed wire _ message =>
    lit "The gateway could not build a " ++ ticked wire
    ++ lit " request this endpoint accepts: " ++ message
  | RoutePaused group reason => lit "Routing for " ++ ticked group ++ lit " is paused: " ++ reason
  | NotConfigured detail => lit "The gateway is not configured: " ++ detail
  | Internal detail => lit "The gateway could not complete this request: " ++ detail
  end.

Definition classify_status (status : Z) : GatewayFailureKind :=
  if (status =? 401)%Z || (status =? 403)%Z then KindAuth
  else if (status =? 402)%Z then KindCredit
  else if (status =? 408)%Z || (status =? 504)%Z then KindUpstream
  else if (status =? 429)%Z then KindRate
  else if (status =? 502)%Z || (status =? 503)%Z || (status =? 529)%Z then KindProxy
  else KindOther.

Definition key_failure (e : GatewayError) : option GatewayFailureKind :=
  match e with Upstream status _ => Some (classify_status status) | _ => None end.

Definition blames_upstream (e : GatewayError) : bool :=
  match e with
  | Upstream _ _ | AllKeysCooling _ _ | TokenCeilingReached _ => true
  | _ => false
  end.

Definition retry_after_ms (e : GatewayError) : option Z :=
  match e with AllKeysCooling _ retry => retry | _ => None end.

Definition recoverable_status (status : Z) : bool :=
  existsb (Z.eqb status) [408; 429; 500; 502; 503; 504; 529]%Z.
Definition is_recoverable (e : GatewayError) : bool :=
  match e with
  | Upstream status _ => recoverable_status status
  | AllKeysCooling _ _ => true
  | _ => false
  end.

(** [impl From<GatewayError> for VibexError]. *)
Definition VibexError_of_gateway (e : GatewayError) : VibexError :=
  with_diagnostic (VibexError_new Provider (GatewayError_code e) (GatewayError_message e))
    (lit "httpStatus") (decimal (GatewayError_status e)).
Definition GatewayError_of_vibex (e : VibexError) : GatewayError := Internal (err_code e).

(** [member_failure_kind] of service.rs: how a failed member reads in a trace. *)
Definition member_failure_kind (to_lowercase : str -> str) (e : GatewayError)
  : GatewayFailureKind :=
  match e with
  | Upstream status message => classify_failure to_lowercase status message
  | AllKeysCooling _ _ => KindRate
  | TokenCeilingReached _ => KindQuota
  | ProtocolMismatch _ _ _ | TranslationFailed _ _ _ => KindOther
  | NotConfigured _ => KindAuth
  | TranslationDisabled _ | UnsupportedImageReference | MalformedRequest _ | RoutePaused _ _ =>
    KindOther
  | ModelNotFound _ _ | Internal _ => KindOther
  end.

(** * Theorems *)

(** Only a failure that says something about the upstream or its Keys is
    retried under patience, and the retried ones are exactly the capacity and
    transport statuses; every error answers with an HTTP error status when the
    upstream's own status is one. *)
Theorem recoverable_blames_upstream (e : GatewayError) :
  (is_recoverable e = true -> blames_upstream e = true) /\
  (is_recoverable e = true <->
   (exists model retry, e = AllKeysCooling model retry) \/
   exists status message, e = Upstream status message /\
     status ∈ [408; 429; 500; 502; 503; 504; 529]%Z) /\
  (match e with Upstream status _ => (400 <= status <= 599)%Z | _ => True end ->
   (400 <= GatewayError_status e <= 599)%Z).
Proof.
  split_and!.
  - by destruct e.
  - destruct e; simpl; try naive_solver.
    unfold recoverable_status. rewrite existsb_elem. setoid_rewrite Z.eqb_eq. naive_solver.
  - destruct e; simpl; lia.
Qed.

(** The two readings of an upstream status agree on a rejected Key only for
    401: the status-only reading also blames the Key for every 403, which the
    body-aware one reserves for a body that names the credential. *)
Theorem status_readings_differ (to_lowercase : str -> str) (body : str) :
  classify_status 401 = KindAuth /\ classify_failure to_lowercase 401 body = KindAuth /\
  classify_status 403 = KindAuth /\
  (mentions (to_lowercase body) auth_words = false ->
   classify_failure to_lowercase 403 body = KindOther).
Proof. split_and!; try done. unfold classify_failure. simpl. by intros ->. Qed.
