(* ===== verification/Ir.v ===== *)
(** The intermediate representation the four wire protocols convert through
    (crates/model-gateway/src/ir.rs), with the request scans of
    crates/model-gateway/src/service.rs that routing rules read.  A JSON value
    is the tree serde_json documents; a number is the text of its literal and
    an [f64] is its bit pattern, and no operation computes with one but to
    compare it with zero. *)
From stdpp Require Import prelude strings list.
From Stdlib Require Import NArith ZArith Lia.
From S2P Require Import Prelude CoreTypes.

(** [serde_json::Value]. *)
Inductive json : Type :=
| JNull
| JBool (b : bool)
| JNumber (literal : str)
| JString (s : str)
| JArray (items : list json)
| JObject (fields : list (str * json)).

(** [value.get(key)] on a value: an object's field. *)
Definition json_get (key : str) (v : json) : option json :=
  match v with
  | JObject fields => snd <$> List.find (fun f => bool_decide (f.1 = key)) fields
  | _ => None
  end.
Definition json_as_str (v : json) : option str := match v with JString s => Some s | _ => None end.
Definition json_as_array (v : json) : option (list json) :=
  match v with JArray items => Some items | _ => None end.

(** ** Roles and stop reasons *)

Inductive Role : Type := User | Assistant.
#[export] Instance Role_eq_dec : EqDecision Role.
Proof. solve_decision. Defined.
Definition Role_as_str (r : Role) : str :=
  match r with User => lit "user" | Assistant => lit "assistant" end.

Inductive StopReason : Type :=
| EndTurn | MaxTokens | ToolUse | StopSequence | ContentFilter | OtherStop.

Definition StopReason_chat (r : StopReason) : str :=
  match r with
  | EndTurn => lit "stop"
  | MaxTokens => lit "length"
  | ToolUse => lit "tool_calls"
  | StopSequence => lit "stop"
  | ContentFilter => lit "content_filter"
  | OtherStop => lit "stop"
  end.
Definition StopReason_anthropic (r : StopReason) : str :=
  match r with
  | EndTurn => lit "end_turn"
  | MaxTokens => lit "max_tokens"
  | ToolUse => lit "tool_use"
  | StopSequence => lit "stop_sequence"
  | ContentFilter => lit "refusal"
  | OtherStop => lit "end_turn"
  end.
Definition StopReason_gemini (r : StopReason) : str :=
  match r with
  | EndTurn => lit "STOP"
  | MaxTokens => lit "MAX_TOKENS"
  | ToolUse => lit "STOP"
  | StopSequence => lit "STOP"
  | ContentFilter => lit "SAFETY"
  | OtherStop => lit "OTHER"
  end.

(** A [match] on string literals: the first literal that is the value. *)
Fixpoint match_str {A} (value : str) (arms : list (str * A)) (otherwise : A) : A :=
  match arms with
  | [] => otherwise
  | (literal, a) :: arms =>
    if bool_decide (value = literal) then a else match_str value arms otherwise
  end.

Definition StopReason_from_anthropic (value : str) : StopReason :=
  match_str value
    [(lit "end_turn", EndTurn); (lit "max_tokens", MaxTokens); (lit "tool_use", ToolUse);
     (lit "stop_sequence", StopSequence); (lit "refusal", ContentFilter)] OtherStop.
Definition StopReason_from_gemini (value : str) : StopReason :=
  match_str value
    [(lit "STOP", EndTurn); (lit "MAX_TOKENS", MaxTokens); (lit "SAFETY", ContentFilter);
     (lit "RECITATION", ContentFilter); (lit "BLOCKLIST", ContentFilter);
     (lit "PROHIBITED_CONTENT", ContentFilter)] OtherStop.
Definition StopReason_from_chat (value : str) : StopReason :=
  match_str value
    [(lit "stop", EndTurn); (lit "length", MaxTokens); (lit "tool_calls", ToolUse);
     (lit "function_call", ToolUse); (lit "content_filter", ContentFilter)] OtherStop.

(** ** Requests *)

Inductive ImageSource : Type :=
| ImageBase64 (media_type data : str)
| ImageUrl (url : str)
| ImageVendorFileId (id : str).

Record OpaqueSignature : Type := mkSignature { os_protocol : str; os_value : str }.

Inductive ContentPart : Type :=
| Text (text : str)
| Reasoning (text : str) (signature : option OpaqueSignature)
| Image (source : ImageSource)
| ToolCall (id name : str) (arguments : json)
| ToolResult (call_id : str) (content : list ContentPart) (is_error : bool)
| Opaque (protocol : str) (payload : json).

Record CanonicalMessage : Type := mkMessage { msg_role : Role; msg_parts : list ContentPart }.

Record ToolDefinition : Type := mkToolDefinition {
  td_name : str; td_description : str; td_parameters : json; td_strict : bool
}.
Inductive ToolChoice : Type :=
| ChoiceAuto | ChoiceNone | ChoiceRequired | ChoiceNamed (name : str).
Record SamplingParams : Type := mkSampling {
  sp_temperature : option Z; sp_top_p : option Z; sp_max_tokens : option Z; sp_stop : list str
}.
Record ReasoningRequest : Type := mkReasoning { rr_disabled : bool; rr_effort : option str }.

Record CanonicalRequest : Type := mkRequest {
  cr_model : str;
  cr_system : list ContentPart;
  cr_messages : list CanonicalMessage;
  cr_tools : list ToolDefinition;
  cr_tool_choice : ToolChoice;
  cr_parallel_tool_calls : option bool;
  cr_sampling : SamplingParams;
  cr_reasoning : ReasoningRequest;
  cr_stream : bool;
  cr_opaque : list json
}.
Definition CanonicalRequest_for_model (model : str) : CanonicalRequest :=
  {| cr_model := model; cr_system := []; cr_messages := []; cr_tools := [];
     cr_tool_choice := ChoiceAuto; cr_parallel_tool_calls := None;
     cr_sampling := mkSampling None None None []; cr_reasoning := mkReasoning false None;
     cr_stream := false; cr_opaque := [] |}.

(** The scans that look inside tool results: [any_in] with the test of the
    image branch. *)
Fixpoint part_has_image (test : ImageSource -> bool) (part : ContentPart) : bool :=
  match part with
  | Image source => test source
  | ToolResult _ content _ => existsb (part_has_image test) content
  | _ => false
  end.
Definition any_in (test : ImageSource -> bool) (parts : list ContentPart) : bool :=
  existsb (part_has_image test) parts.
Definition request_any_image (test : ImageSource -> bool) (r : CanonicalRequest) : bool :=
  any_in test (cr_system r) || existsb (fun m => any_in test (msg_parts m)) (cr_messages r).

Definition has_vendor_file_image (r : CanonicalRequest) : bool :=
  request_any_image (fun s => match s with ImageVendorFileId _ => true | _ => false end) r.
Definition request_has_images (r : CanonicalRequest) : bool := request_any_image (fun _ => true) r.

Definition first_text (parts : list ContentPart) : option str :=
  head (omap (fun part => match part with
                          | Text text => if is_empty (trim text) then None else Some text
                          | _ => None
                          end) parts).
Definition first_user_text (r : CanonicalRequest) : option str :=
  head (omap (fun m => if bool_decide (msg_role m = User) then first_text (msg_parts m) else None)
          (cr_messages r)).

(** [estimate_request_tokens]: the characters of the text parts and 180 per
    tool, over four. *)
Definition add_parts (chars : Z) (parts : list ContentPart) : Z :=
  foldl (fun chars part =>
    match part with
    | Text text => u64_saturating_add chars (Z.of_nat (length text))
    | _ => chars
    end) chars parts.
Definition estimate_request_tokens (r : CanonicalRequest) : Z :=
  let chars := add_parts 0 (cr_system r) in
  let chars := foldl (fun chars m => add_parts chars (msg_parts m)) chars (cr_messages r) in
  (u64_saturating_add chars (Z.of_nat (length (cr_tools r)) * 180) / 4)%Z.

(** ** Usage *)

Record CanonicalUsage : Type := mkUsage {
  us_input_tokens : Z;
  us_output_tokens : Z;
  us_cached_read_tokens : Z;
  us_cached_write_tokens : Z;
  us_reasoning_tokens : Z
}.
Definition CanonicalUsage_default : CanonicalUsage := mkUsage 0 0 0 0 0.
Definition CanonicalUsage_total (u : CanonicalUsage) : Z :=
  u64_saturating_add (u64_saturating_add (u64_saturating_add (u64_saturating_add
    (us_input_tokens u) (us_output_tokens u)) (us_cached_read_tokens u))
    (us_cached_write_tokens u)) (us_reasoning_tokens u).
Definition CanonicalUsage_merge (u other : CanonicalUsage) : CanonicalUsage :=
  mkUsage (Z.max (us_input_tokens u) (us_input_tokens other))
          (Z.max (us_output_tokens u) (us_output_tokens other))
          (Z.max (us_cached_read_tokens u) (us_cached_read_tokens other))
          (Z.max (us_cached_write_tokens u) (us_cached_write_tokens other))
          (Z.max (us_reasoning_tokens u) (us_reasoning_tokens other)).

(** * Theorems *)

(** A stop reason survives each protocol's own spelling when the protocol has
    one for it: Anthropic for every named reason, Chat for all but a stop
    sequence, Gemini for all but a tool call and a stop sequence.  What a
    protocol cannot spell reads back as the end of the turn. *)
Theorem stop_reason_crossing (r : StopReason) :
  StopReason_from_anthropic (StopReason_anthropic r) =
    match r with OtherStop => EndTurn | _ => r end /\
  StopReason_from_chat (StopReason_chat r) =
    match r with StopSequence | OtherStop => EndTurn | _ => r end /\
  StopReason_from_gemini (StopReason_gemini r) =
    match r with ToolUse | StopSequence => EndTurn | _ => r end.
Proof. by destruct r. Qed.

(** Field-wise order of usage counters. *)
Definition usage_le (u v : CanonicalUsage) : Prop :=
  (us_input_tokens u <= us_input_tokens v)%Z /\ (us_output_tokens u <= us_output_tokens v)%Z /\
  (us_cached_read_tokens u <= us_cached_read_tokens v)%Z /\
  (us_cached_write_tokens u <= us_cached_write_tokens v)%Z /\
  (us_reasoning_tokens u <= us_reasoning_tokens v)%Z.

Lemma merge_le_l u v : usage_le u (CanonicalUsage_merge u v).
Proof. unfold usage_le. simpl. lia. Qed.
Lemma merge_le_r u v : usage_le v (CanonicalUsage_merge u v).
Proof. unfold usage_le. simpl. lia. Qed.
Lemma merge_least u v w : usage_le u w -> usage_le v w -> usage_le (CanonicalUsage_merge u v) w.
Proof. unfold usage_le. simpl. lia. Qed.
Lemma merge_absorb u v : usage_le u v -> CanonicalUsage_merge u v = v.
Proof.
  destruct u, v. unfold usage_le, CanonicalUsage_merge. simpl. intros (? & ? & ? & ? & ?).
  f_equal; lia.
Qed.
Lemma usage_le_trans u v w : usage_le u v -> usage_le v w -> usage_le u w.
Proof. unfold usage_le. lia. Qed.
Lemma usage_le_refl u : usage_le u u.
Proof. unfold usage_le. lia. Qed.

Lemma merges_upper u events :
  usage_le u (foldl CanonicalUsage_merge u events) /\
  Forall (fun e => usage_le e (foldl CanonicalUsage_merge u events)) events.
Proof.
  revert u. induction events as [|e l IH]; intros u; simpl; [split; [apply usage_le_refl|done]|].
  destruct (IH (CanonicalUsage_merge u e)) as [H1 H2].
  split; [by eapply usage_le_trans; [apply merge_le_l|]|].
  constructor; [by eapply usage_le_trans; [apply merge_le_r|]|done].
Qed.

Lemma merges_least u events w :
  usage_le u w -> Forall (fun e => usage_le e w) events ->
  usage_le (foldl CanonicalUsage_merge u events) w.
Proof.
  revert u. induction events as [|e l IH]; intros u Hu He; simpl; [done|].
  inversion_clear He. apply IH; [by apply merge_least|done].
Qed.

(** Folding a stream's usage events gives the least counters above all of them,
    whatever their order and repetition; when a vendor repeats cumulative
    counters the result is the last event's, so nothing is counted twice. *)
Theorem usage_events_merge (events : list CanonicalUsage) :
  let merged := foldl CanonicalUsage_merge CanonicalUsage_default events in
  Forall (fun e => usage_le e merged) events /\
  (forall w, usage_le CanonicalUsage_default w -> Forall (fun e => usage_le e w) events ->
     usage_le merged w) /\
  (forall final, last events = Some final -> usage_le CanonicalUsage_default final ->
     Forall (fun e => usage_le e final) events -> merged = final).
Proof.
  cbv zeta. destruct (merges_upper CanonicalUsage_default events) as [H0 Hall]. split_and!.
  - done.
  - intros w. apply merges_least.
  - intros final Hl Hd Hf. apply last_Some in Hl as [l ->]. rewrite foldl_app. simpl.
    apply merge_absorb, merges_least; [done|]. by apply Forall_app in Hf as [? _].
Qed.

(** The estimate a rule's threshold reads ignores tool results: a request whose
    context is one tool result of any size is estimated as empty. *)
Theorem tool_results_not_estimated (call_id text : str) (is_error : bool) :
  estimate_request_tokens
    {| cr_model := []; cr_system := [];
       cr_messages := [mkMessage User [ToolResult call_id [Text text] is_error]];
       cr_tools := []; cr_tool_choice := ChoiceAuto; cr_parallel_tool_calls := None;
       cr_sampling := mkSampling None None None []; cr_reasoning := mkReasoning false None;
       cr_stream := false; cr_opaque := [] |} = 0%Z.
Proof. reflexivity. Qed.
