(* ===== verification/Json.v ===== *)
(** Reading JSON values the way the wire codecs do (the field helpers of
    crates/model-gateway/src/wire/mod.rs over serde_json's accessors), and the
    text of a value.  serde_json's printer and parser are an interface, the
    class [JsonText]; what the codecs rely on of them is [JsonTextLaws]. *)
From S2P Require Import Prelude CoreTypes Ir.
From stdpp Require Import prelude strings list pretty.
From Stdlib Require Import NArith ZArith Lia.

(** ** Accessors (serde_json) *)

(** The value of a literal made of digits only. *)
Definition digits_value (s : str) : option Z :=
  if is_empty s then None
  else if forallb is_ascii_digit s
  then Some (foldl (fun acc c => acc * 10 + (Z.of_N c - 48))%Z 0%Z s)
  else None.

(** [Value::as_u64]: an integer literal that fits. *)
Definition json_as_u64 (v : json) : option Z :=
  match v with
  | JNumber literal =>
      match digits_value literal with
      | Some z => if (z <=? u64_max)%Z then Some z else None
      | None => None
      end
  | _ => None
  end.
Definition json_as_bool (v : json) : option bool := match v with JBool b => Some b | _ => None end.
Definition json_is_null (v : json) : bool := match v with JNull => true | _ => false end.
Definition json_as_object (v : json) : option (list (str * json)) :=
  match v with JObject fields => Some fields | _ => None end.

(** [Value::pointer]: one token per step, an array index being a decimal
    without a leading zero. *)
Definition json_token (token : str) (v : json) : option json :=
  match v with
  | JObject _ => json_get token v
  | JArray items =>
      if bool_decide (head token = Some 48%N) && (1 <? length token) then None
      else match digits_value token with
           | Some i => items !! Z.to_nat i
           | None => None
           end
  | _ => None
  end.
Definition json_pointer (path : list str) (v : json) : option json :=
  foldl (fun acc token => match acc with Some v => json_token token v | None => None end) (Some v) path.

(** [Map::insert] into the insertion-ordered map. *)
Fixpoint object_insert (k : str) (v : json) (m : list (str * json)) : list (str * json) :=
  match m with
  | [] => [(k, v)]
  | (k', v') :: m => if bool_decide (k = k') then (k, v) :: m else (k', v') :: object_insert k v m
  end.

(** [json!(n)] for an unsigned integer. *)
Definition json_u64 (z : Z) : json := JNumber (decimal z).

(** ** Field helpers (wire/mod.rs) *)

Definition string_field (v : json) (key : str) : option str :=
  match json_get key v with Some f => json_as_str f | None => None end.
Definition uint_field (v : json) (key : str) : option Z :=
  match json_get key v with Some f => json_as_u64 f | None => None end.

(** [value.get(key).unwrap_or(&Value::Null)]. *)
Definition get_or_null (key : str) (v : json) : json := default JNull (json_get key v).
(** [value.get(key).filter(|v| !v.is_null())]. *)
Definition get_non_null (key : str) (v : json) : option json :=
  match json_get key v with
  | Some f => if json_is_null f then None else Some f
  | None => None
  end.
(** [.and_then(Value::as_str)] and [.and_then(Value::as_array)] after a lookup. *)
Definition str_of (o : option json) : option str := match o with Some v => json_as_str v | None => None end.
Definition array_of (o : option json) : option (list json) :=
  match o with Some v => json_as_array v | None => None end.
Definition u64_of (o : option json) : option Z := match o with Some v => json_as_u64 v | None => None end.

(** [get_mut] along keys, and what is done there. *)
Fixpoint modify_field (k : str) (f : json -> json) (fields : list (str * json)) : list (str * json) :=
  match fields with
  | [] => []
  | (k', v) :: fields => if bool_decide (k' = k) then (k', f v) :: fields else (k', v) :: modify_field k f fields
  end.
Fixpoint modify_at (path : list str) (f : json -> json) (v : json) : json :=
  match path with
  | [] => f v
  | k :: path => match v with JObject fields => JObject (modify_field k (modify_at path f) fields) | _ => v end
  end.
(** ** The text of a value *)

Class JsonText : Type := {
  json_to_string : json -> str;
  json_from_str : str -> option json
}.

(** Values the parser gives back unchanged: no object repeats a key, and a
    number is an unsigned integer in canonical form. *)
Fixpoint json_plain (v : json) : Prop :=
  match v with
  | JNumber literal => exists z, (0 <= z <= u64_max)%Z /\ literal = decimal z
  | JArray items => foldr (fun v P => json_plain v /\ P) True items
  | JObject fields => NoDup fields.*1 /\ foldr (fun f P => json_plain f.2 /\ P) True fields
  | _ => True
  end.

(** The printer is compact (a string's control characters are escaped, so the
    text is one line), the parser inverts it, and the Chat protocol's end marker
    is not a JSON text. *)
Class JsonTextLaws `{JsonText} : Prop := {
  json_parses : forall v, json_plain v -> json_from_str (json_to_string v) = Some v;
  json_one_line : forall v, 10%N ∉ json_to_string v /\ 13%N ∉ json_to_string v;
  json_not_done : forall v, trim (json_to_string v) <> lit "[DONE]"
}.

(** * Lemmas *)

Lemma json_get_cons k k' v fields :
  json_get k (JObject ((k', v) :: fields)) =
  if bool_decide (k' = k) then Some v else json_get k (JObject fields).
Proof. unfold json_get. simpl. by case_bool_decide. Qed.

Lemma json_get_nil k : json_get k (JObject []) = None.
Proof. reflexivity. Qed.

Definition digit_char (d : Z) : N := Z.to_N (d + 48).

Lemma digits_fold s acc :
  foldl (fun acc c => acc * 10 + (Z.of_N c - 48))%Z acc s =
  (acc * 10 ^ Z.of_nat (length s) + foldl (fun acc c => acc * 10 + (Z.of_N c - 48)) 0 s)%Z.
Proof.
  revert acc. induction s as [|c s IH]; intros acc; [simpl; lia|].
  cbn [foldl length]. rewrite IH, (IH (0 * 10 + _)%Z), Nat2Z.inj_succ, Z.pow_succ_r by lia. lia.
Qed.

Lemma pretty_char_code x :
  (x < 10)%N -> Ascii.N_of_ascii (pretty_N_char x) = (x + 48)%N.
Proof. intros Hx. destruct x as [|p]; [done|]. do 4 (destruct p as [p|p|]; try done; try lia). Qed.

Lemma pretty_go_digits x s :
  exists ds, lit (pretty_N_go x s) = ds ++ lit s /\ forallb is_ascii_digit ds = true /\
    foldl (fun acc c => acc * 10 + (Z.of_N c - 48))%Z 0%Z ds = Z.of_N x /\ (x <> 0%N -> ds <> []).
Proof.
  revert s. induction (N.lt_wf_0 x) as [x _ IH]; intros s.
  destruct (decide (x = 0%N)) as [->|Hx].
  - exists []. rewrite pretty_N_go_0. by split_and!.
  - rewrite pretty_N_go_step by lia.
    assert (Hlt : (x `div` 10 < x)%N) by (apply N.div_lt; lia).
    assert (Hm : (x mod 10 < 10)%N) by (by apply N.mod_lt).
    destruct (IH _ Hlt (String (pretty_N_char (x mod 10)) s)) as (ds & H1 & H2 & H3 & _).
    exists (ds ++ [(x mod 10 + 48)%N]). split_and!.
    + rewrite H1, <- app_assoc. f_equal. unfold lit. simpl. by rewrite pretty_char_code.
    + rewrite forallb_app, H2. revert Hm. generalize (x mod 10)%N. intros d Hd.
      destruct d as [|d]; [done|]. do 4 (destruct d as [d|d|]; try done; try lia).
    + rewrite foldl_app, H3. simpl. pose proof (N.div_mod x 10 ltac:(lia)). lia.
    + intros _ E. by apply app_eq_nil in E as [_ ?].
Qed.

Lemma decimal_digits z :
  (0 <= z)%Z -> exists ds, decimal z = ds /\ ds <> [] /\ forallb is_ascii_digit ds = true /\
    foldl (fun acc c => acc * 10 + (Z.of_N c - 48))%Z 0%Z ds = z.
Proof.
  intros Hz. unfold decimal, pretty, pretty_N. case_decide as H.
  - exists (lit "0"). assert (z = 0%Z) as -> by lia. by split_and!.
  - destruct (pretty_go_digits (Z.to_N z) "") as (ds & H1 & H2 & H3 & H4).
    exists ds. rewrite app_nil_r in H1. split_and!; [done|by apply H4|done|lia].
Qed.

Lemma decimal_inj a b : (0 <= a)%Z -> (0 <= b)%Z -> decimal a = decimal b -> a = b.
Proof.
  intros Ha Hb E. destruct (decimal_digits a Ha) as (da & <- & _ & _ & Va).
  destruct (decimal_digits b Hb) as (db & <- & _ & _ & Vb). by rewrite <- Va, <- Vb, E.
Qed.

(** An integer written by [json!] reads back. *)
Lemma as_u64_of_u64 z : in_u64 z -> json_as_u64 (json_u64 z) = Some z.
Proof.
  intros Hz. unfold json_as_u64, json_u64, digits_value.
  destruct (decimal_digits z) as (ds & -> & Hne & Hd & Hv); [int_lia|].
  destruct ds as [|c ds]; [done|]. cbn [is_empty]. rewrite Hd, Hv.
  destruct (Z.leb_spec z u64_max); [done|int_lia].
Qed.

Lemma plain_u64 z : in_u64 z -> json_plain (json_u64 z).
Proof. intros Hz. exists z. by split; [int_lia|]. Qed.

Lemma object_insert_get k v m k' :
  json_get k' (JObject (object_insert k v m)) =
  if bool_decide (k = k') then Some v else json_get k' (JObject m).
Proof.
  induction m as [|[k1 v1] m IH]; cbn [object_insert].
  - by rewrite json_get_cons, json_get_nil.
  - destruct (decide (k = k1)) as [->|Hne].
    + rewrite bool_decide_eq_true_2 by done. rewrite !json_get_cons. by case_bool_decide.
    + rewrite (bool_decide_eq_false_2 (k = k1)) by done. rewrite !json_get_cons, IH.
      repeat case_bool_decide; congruence.
Qed.

Lemma object_insert_keys k v m x : x ∈ (object_insert k v m).*1 <-> x = k \/ x ∈ m.*1.
Proof.
  induction m as [|[k1 v1] m IH]; simpl; [set_solver|].
  case_bool_decide; subst; simpl; set_solver.
Qed.

Lemma object_insert_plain k v m :
  json_plain (JObject m) -> json_plain v -> json_plain (JObject (object_insert k v m)).
Proof.
  intros [Hn Hp] Hv. split.
  - clear Hp. induction m as [|[k1 v1] m IH]; simpl in *; [apply NoDup_singleton|].
    apply NoDup_cons in Hn as [Hni Hn]. case_bool_decide; subst; simpl; apply NoDup_cons; [done|].
    split; [|by apply IH]. intros [->|?]%object_insert_keys; done.
  - clear Hn. induction m as [|[k1 v1] m IH]; simpl in *; [done|]. destruct Hp as [H1 H2].
    case_bool_decide; simpl; [done|]. split; [done|by apply IH].
Qed.

(** Reads a field of a literal object. *)
Ltac json_field := rewrite ?json_get_cons, ?json_get_nil;
  repeat (rewrite bool_decide_eq_false_2 by done); rewrite ?bool_decide_eq_true_2 by done.


Lemma plain_object fields :
  NoDup fields.*1 -> Forall (fun f => json_plain f.2) fields -> json_plain (JObject fields).
Proof. intros Hn Hf. split; [done|]. clear Hn. induction Hf; simpl; by split. Qed.
Lemma plain_array items : Forall json_plain items -> json_plain (JArray items).
Proof. induction 1; simpl; by split. Qed.

(** A literal value is plain when its numbers are. *)
Ltac json_plain :=
  lazymatch goal with
  | |- json_plain (JObject _) =>
      apply plain_object; [apply (bool_decide_unpack _); by vm_compute|json_plain_all]
  | |- json_plain (JArray _) => apply plain_array; json_plain_all
  | |- json_plain (json_u64 _) => apply plain_u64
  | |- json_plain (JString _) => exact I
  | |- json_plain (JBool _) => exact I
  | |- json_plain JNull => exact I
  | |- _ => idtac
  end
with json_plain_all :=
  lazymatch goal with
  | |- Forall _ [] => apply List.Forall_nil
  | |- Forall _ _ => apply Forall_cons; split; [cbn [snd]; json_plain|json_plain_all]
  end.
