(* ===== verification/Upstream.v ===== *)
(** One upstream as the gateway may call it: its endpoints, its Keys, the
    protocol it is called with and the Keys a request may use
    (GatewayUpstream, choose_target, prepare_member and
    drop_tools_the_target_cannot_express of
    crates/model-gateway/src/service.rs, WireProtocol of
    crates/model-gateway/src/wire/mod.rs, the endpoint and credential records of
    crates/core/src/provider_projection.rs).  The records carry the fields
    routing reads; headers, projection metadata and the Secret itself are left
    out. *)
From stdpp Require Import prelude strings list gmap.
From Stdlib Require Import NArith ZArith Lia.
From S2P Require Import Prelude CoreTypes GatewayTypes GatewayStore KeyPlan GatewayErrors Ir.

(** ** Protocols *)

Inductive WireProtocol : Type :=
| ChatCompletions | Responses | AnthropicMessages | GeminiGenerateContent.
#[export] Instance WireProtocol_eq_dec : EqDecision WireProtocol.
Proof. solve_decision. Defined.

Definition WireProtocol_ALL : list WireProtocol :=
  [ChatCompletions; Responses; AnthropicMessages; GeminiGenerateContent].
Definition wire_protocol_id (p : WireProtocol) : str :=
  match p with
  | ChatCompletions => WIRE_PROTOCOL_OPENAI_CHAT_COMPLETIONS
  | Responses => WIRE_PROTOCOL_OPENAI_RESPONSES
  | AnthropicMessages => WIRE_PROTOCOL_ANTHROPIC_MESSAGES
  | GeminiGenerateContent => WIRE_PROTOCOL_GOOGLE_GENERATIVE_AI
  end.
Definition from_wire_protocol_id (value : str) : option WireProtocol :=
  find_by_id WireProtocol_ALL wire_protocol_id value.
Definition short_name (p : WireProtocol) : str :=
  match p with
  | ChatCompletions => lit "chat"
  | Responses => lit "responses"
  | AnthropicMessages => lit "messages"
  | GeminiGenerateContent => lit "gemini"
  end.
Definition auth_header (p : WireProtocol) : str :=
  match p with
  | ChatCompletions | Responses => lit "authorization"
  | AnthropicMessages => lit "x-api-key"
  | GeminiGenerateContent => lit "x-goog-api-key"
  end.

(** [percent_encode_path]: [bytes] is the UTF-8 encoding of the model. *)
Definition hex_digit (n : N) : N := if (n <? 10)%N then (48 + n)%N else (55 + n)%N.
Definition path_byte_safe (b : N) : bool :=
  is_ascii_alphanumeric b || existsb (N.eqb b) [45; 95; 46; 126; 47]%N.
Definition percent_encode_path (bytes : list N) : str :=
  bytes ≫= fun b =>
    if path_byte_safe b then [b] else [37%N; hex_digit (b / 16); hex_digit (b mod 16)].
Definition path (p : WireProtocol) (model_bytes : list N) (stream : bool) : str :=
  match p with
  | ChatCompletions => lit "/v1/chat/completions"
  | Responses => lit "/v1/responses"
  | AnthropicMessages => lit "/v1/messages"
  | GeminiGenerateContent =>
    if stream
    then lit "/v1beta/models/" ++ percent_encode_path model_bytes
         ++ lit ":streamGenerateContent?alt=sse"
    else lit "/v1beta/models/" ++ percent_encode_path model_bytes ++ lit ":generateContent"
  end.

(** ** Endpoints, credentials, upstreams *)

Inductive ModelProviderEndpointKind : Type := EndpointApi | EndpointAuth | EndpointCatalog | EndpointProxy.
#[export] Instance ModelProviderEndpointKind_eq_dec : EqDecision ModelProviderEndpointKind.
Proof. solve_decision. Defined.
Record ModelProviderEndpoint : Type := mkEndpoint {
  ep_id : str;
  ep_kind : ModelProviderEndpointKind;
  ep_url : str;
  ep_wire_protocol_id : option str
}.
#[export] Instance ModelProviderEndpoint_eq_dec : EqDecision ModelProviderEndpoint.
Proof. solve_decision. Defined.

Record ModelProviderCredentialReference : Type := mkCredential {
  cd_id : ident;
  cd_display_name : str;
  cd_masked_hint : str;
  cd_models : list str;
  cd_proxy_url : option str
}.

Definition has_generated_name (c : ModelProviderCredentialReference) : bool :=
  bool_decide (trim (cd_display_name c) = lit "Key " ++ cd_id c).
Definition stars : str := lit "********".
Definition display_label (c : ModelProviderCredentialReference) : str :=
  let name := trim (cd_display_name c) in
  if negb (is_empty name) && negb (has_generated_name c) then name
  else if negb (is_empty (cd_masked_hint c)) then cd_masked_hint c
  else stars.
Definition masked_secret_hint (secret : str) : str :=
  if is_empty secret then []
  else if length secret <=? 2 then stars
  else
    let visible := Nat.max 1 (Nat.min 4 (length secret / 4)) in
    take visible secret ++ stars ++ drop (length secret - visible) secret.

Record GatewayKeySummary : Type := mkKeySummary {
  gk_credential_id : ident;
  gk_display_name : str;
  gk_masked_hint : str;
  gk_state : GatewayKeyState;
  gk_used_tokens : Z;
  gk_models : list str;
  gk_proxy_url : option str
}.

(** [alias] served under the vendor's own [upstream] spelling. *)
Record ProviderModelAlias : Type := mkAlias { al_alias : str; al_upstream : str }.

Record GatewayUpstream : Type := mkUpstream {
  up_profile_id : ident;
  up_display_name : str;
  up_endpoints : list ModelProviderEndpoint;
  up_models : list str;
  up_model_aliases : list ProviderModelAlias;
  up_credentials : list ModelProviderCredentialReference;
  up_keys : list GatewayKeySummary
}.

Definition endpoint_for (u : GatewayUpstream) (wire : str) : option ModelProviderEndpoint :=
  List.find (fun e => bool_decide (ep_kind e = EndpointApi)
                      && bool_decide (ep_wire_protocol_id e = Some wire)) (up_endpoints u).
Definition untyped_endpoint (u : GatewayUpstream) : option ModelProviderEndpoint :=
  List.find (fun e => bool_decide (ep_kind e = EndpointApi)
                      && bool_decide (ep_wire_protocol_id e = None)) (up_endpoints u).
Definition endpoint_for_call (u : GatewayUpstream) (p : WireProtocol)
  : option ModelProviderEndpoint :=
  match endpoint_for u (wire_protocol_id p) with
  | Some e => Some e
  | None => untyped_endpoint u
  end.
Definition supports (u : GatewayUpstream) (p : WireProtocol) : bool :=
  bool_decide (is_Some (endpoint_for u (wire_protocol_id p))).

(** ** The protocol of a call *)

Record TargetPlan : Type := mkTarget {
  tp_target : WireProtocol;
  tp_passthrough : bool;
  tp_alternates : list (WireProtocol * bool)
}.
Definition TRANSLATION_PREFERENCE : list WireProtocol :=
  [AnthropicMessages; ChatCompletions; Responses; GeminiGenerateContent].

Definition choose_target (inbound : WireProtocol) (u : GatewayUpstream)
  (learned : option WireProtocol) (policy : GatewayPolicy) : GatewayResult TargetPlan :=
  let allowed := fun p => GatewayTranslatePolicy_allows (gp_translate policy) (wire_protocol_id p) in
  match learned with
  | Some learned => Ok (mkTarget learned (bool_decide (learned = inbound)) [])
  | None =>
    if supports u inbound then Ok (mkTarget inbound true [])
    else if bool_decide (is_Some (untyped_endpoint u)) then
      Ok (mkTarget inbound true
           ((fun p => (p, false)) <$>
             retain (fun p => negb (bool_decide (p = inbound)) && allowed p) TRANSLATION_PREFERENCE))
    else
      match List.find (fun p => supports u p && allowed p) TRANSLATION_PREFERENCE with
      | Some p => Ok (mkTarget p false [])
      | None => Err (TranslationDisabled (wire_protocol_id inbound))
      end
  end.

(** A JSON map is its list of fields; [get_mut] and [remove] act on the field
    of that name. *)
Definition fields_get (key : str) (fields : list (str * json)) : option json :=
  snd <$> List.find (fun f => bool_decide (f.1 = key)) fields.
Definition fields_set (key : str) (v : json) (fields : list (str * json)) : list (str * json) :=
  (fun f => if bool_decide (f.1 = key) then (f.1, v) else f) <$> fields.
Definition fields_remove (key : str) (fields : list (str * json)) : list (str * json) :=
  retain (fun f => negb (bool_decide (f.1 = key))) fields.

Definition tool_kept (tool : json) : bool :=
  match json_get (lit "type") tool with
  | None => true
  | Some v => match json_as_str v with
              | None => true
              | Some kind => bool_decide (kind = lit "function")
              end
  end.
Definition drop_tools_the_target_cannot_express (fields : list (str * json))
  : list (str * json) :=
  match fields_get (lit "tools") fields with
  | None => fields
  | Some v =>
    match json_as_array v with
    | None => fields
    | Some tools =>
      let kept := retain tool_kept tools in
      if length kept =? length tools then fields
      else if is_empty kept then fields_remove (lit "tools") fields
      else fields_set (lit "tools") (JArray kept) fields
    end
  end.

(** ** The Keys of one member *)

(** The Key scope check of [prepare_member]. *)
Definition key_serves (u : GatewayUpstream) (member_model : str)
  (c : ModelProviderCredentialReference) : bool :=
  let served_model :=
    match List.find (fun a => bool_decide (al_alias a = member_model)) (up_model_aliases u) with
    | Some a => al_upstream a
    | None => member_model
    end in
  is_empty (cd_models c)
  || existsb (fun m => bool_decide (m = member_model) || bool_decide (m = served_model)) (cd_models c).

(** One turn of the credential loop: the candidate built from the policy, the
    stored account state and the shared usage counter. *)
Definition member_candidate (u : GatewayUpstream) (policy : GatewayPolicy) (used_tokens : Z)
  (accounts : AccountTable) (now : Z) (index : nat) (c : ModelProviderCredentialReference)
  : CandidateKey :=
  let state := account_find accounts now (up_profile_id u) (cd_id c) in
  let candidate := CandidateKey_new (up_profile_id u) (cd_id c) (Z.of_nat index) in
  let candidate :=
    if bool_decide (btree_get (up_profile_id u) (gp_preferred_keys policy) = Some (cd_id c))
    then preferred candidate else candidate in
  let candidate :=
    match gp_token_limit policy with
    | Some limit => with_token_limit candidate limit used_tokens
    | None => candidate
    end in
  match visibility_at state now with
  | KeyReady => candidate
  | KeyCooling kind _ => cooling candidate kind
  | KeyInvalid => cooling candidate KindAuth
  | KeyDisabled => cooling candidate KindOther
  end.

Definition member_candidates (u : GatewayUpstream) (policy : GatewayPolicy) (used_tokens : Z)
  (accounts : AccountTable) (now : Z) (member_model : str)
  : list (CandidateKey * ModelProviderCredentialReference) :=
  omap (fun e : nat * ModelProviderCredentialReference =>
      if key_serves u member_model e.2
      then Some (member_candidate u policy used_tokens accounts now e.1 e.2, e.2) else None)
    (zip (seq 0 (length (up_credentials u))) (up_credentials u)).

(** The Key part of [prepare_member]: the ordered attempts and what the plan
    set aside. *)
Definition member_keys (u : GatewayUpstream) (policy : GatewayPolicy) (used_tokens : Z)
  (accounts : AccountTable) (now : Z) (requested_model member_model : str)
  (key_strategy : GatewayRoutingStrategy) (rotation : Z) (pinned : option (ident * ident))
  : GatewayResult (list (CandidateKey * ModelProviderCredentialReference) * RoutePlan) :=
  let candidates := member_candidates u policy used_tokens accounts now member_model in
  if is_empty candidates
  then Err (NotConfigured (ticked (up_display_name u) ++ lit " has no API Key"))
  else
    let member_pin :=
      match pinned with
      | Some (profile, credential) =>
        if bool_decide (profile = up_profile_id u) then Some (profile, credential) else None
      | None => None
      end in
    let plan := plan_route {| rq_candidates := candidates.*1; rq_strategy := key_strategy;
                              rq_rotation := rotation; rq_pinned := member_pin |} in
    if length (attemptable plan) =? 0 then Err (AllKeysCooling requested_model None)
    else
      Ok (omap (fun c => List.find (fun e => bool_decide (ck_credential e.1 = ck_credential c))
                           candidates) (attemptable plan), plan).

(** * Theorems *)

Lemma find_Some_elem {A} (p : A -> bool) l x : List.find p l = Some x -> x ∈ l /\ p x = true.
Proof. intros [H Hp]%List.find_some. by rewrite list_elem_of_In. Qed.

Lemma find_None_all {A} (p : A -> bool) l :
  List.find p l = None <-> forall x, x ∈ l -> p x = false.
Proof.
  split.
  - intros H x Hx. apply (List.find_none _ _ H). by apply list_elem_of_In.
  - intros H. induction l as [|x l IH]; [done|]. simpl.
    rewrite H by apply list_elem_of_here. apply IH. intros y Hy. apply H.
    by apply list_elem_of_further.
Qed.

(** ** The protocol of a call *)

(** The protocol may be translated into under the policy. *)
Definition translatable (policy : GatewayPolicy) (p : WireProtocol) : bool :=
  GatewayTranslatePolicy_allows (gp_translate policy) (wire_protocol_id p).

Lemma supports_callable u p : supports u p = true -> is_Some (endpoint_for_call u p).
Proof.
  unfold supports, endpoint_for_call. intros [e He]%bool_decide_eq_true. rewrite He. by eexists.
Qed.

Lemma untyped_callable u p : is_Some (untyped_endpoint u) -> is_Some (endpoint_for_call u p).
Proof. unfold endpoint_for_call. intros [e ->]. destruct (endpoint_for _ _); by eexists. Qed.

(** The chosen protocol can be called, a passthrough is exactly a call in the
    client's own protocol, every translation (the target or an alternate) is
    one the policy allows, and the endpoint is one the upstream declares or has
    left untyped.  The refusal means that nothing the upstream declares may be
    translated into. *)
Theorem choose_target_sound (inbound : WireProtocol) (u : GatewayUpstream) (policy : GatewayPolicy) :
  match choose_target inbound u None policy with
  | Ok plan =>
    is_Some (endpoint_for_call u (tp_target plan)) /\
    (tp_passthrough plan = true <-> tp_target plan = inbound) /\
    (tp_passthrough plan = false -> translatable policy (tp_target plan) = true /\
       supports u (tp_target plan) = true) /\
    NoDup (tp_alternates plan).*1 /\
    forall p b, (p, b) ∈ tp_alternates plan ->
      b = false /\ p <> inbound /\ translatable policy p = true /\ is_Some (endpoint_for_call u p)
  | Err e =>
    e = TranslationDisabled (wire_protocol_id inbound) /\ untyped_endpoint u = None /\
    forall p, supports u p = true -> p <> inbound /\ translatable policy p = false
  end.
Proof.
  unfold choose_target. cbv zeta. destruct (supports u inbound) eqn:Es.
  { cbn. split_and!; try done; [by apply supports_callable|constructor|set_solver]. }
  case_bool_decide as Hu.
  { cbn [tp_target tp_passthrough tp_alternates]. split_and!; try done.
    - by apply untyped_callable.
    - assert (Hid : forall l : list WireProtocol, ((fun p => (p, false)) <$> l).*1 = l).
      { intros l. rewrite <- list_fmap_compose. apply list_fmap_id. }
      rewrite Hid. apply NoDup_ListNoDup, List.NoDup_filter, NoDup_ListNoDup.
      by apply (bool_decide_unpack _).
    - intros p b Hin. apply list_elem_of_fmap in Hin as (q & Heq & Hq).
      injection Heq as -> ->. apply elem_of_retain in Hq as [_ [Hne Ha]%andb_true_iff].
      apply negb_true_iff, bool_decide_eq_false in Hne. split_and!; try done.
      by apply untyped_callable. }
  assert (Hnone : untyped_endpoint u = None)
    by (destruct (untyped_endpoint u); [destruct Hu; by eexists|done]).
  destruct (List.find _ _) as [p|] eqn:E.
  - apply find_Some_elem in E as [_ [Hs Ha]%andb_true_iff].
    cbn [tp_target tp_passthrough tp_alternates]. split_and!; try done.
    + by apply supports_callable.
    + split; [done|]. intros ->. congruence.
    + constructor.
    + set_solver.
  - split_and!; try done. intros p Hp. split; [congruence|].
    pose proof (proj1 (find_None_all _ _) E p) as H. cbv beta in H. rewrite Hp in H.
    apply H. destruct p; set_solver.
Qed.

(** A lesson is used whatever the policy or a declared endpoint says: the
    gateway translates into a protocol whose translation is turned off, and
    leaves the passthrough an endpoint declares. *)
Theorem lesson_outranks_policy :
  exists (u : GatewayUpstream) (policy : GatewayPolicy) (plan : TargetPlan),
    supports u Responses = true /\ translatable policy ChatCompletions = false /\
    choose_target Responses u (Some ChatCompletions) policy = Ok plan /\
    tp_target plan = ChatCompletions /\ tp_passthrough plan = false.
Proof.
  set (policy := {| gp_enabled := true; gp_token_limit := None;
    gp_translate := mkTranslatePolicy false true true true; gp_account_limits := [];
    gp_preferred_keys := []; gp_error_rate_warn_percent := None; gp_latency_warn_ms := None;
    gp_default_connect_timeout_ms := None; gp_default_request_timeout_ms := None;
    gp_default_stream_idle_timeout_ms := None; gp_cooldown_overrides_ms := [] |}).
  exists {| up_profile_id := lit "p"; up_display_name := lit "P"; up_endpoints :=
      [mkEndpoint (lit "a") EndpointApi (lit "https://a") (Some WIRE_PROTOCOL_OPENAI_RESPONSES);
       mkEndpoint (lit "b") EndpointApi (lit "https://b") None];
    up_models := []; up_model_aliases := []; up_credentials := []; up_keys := [] |}, policy.
  eexists. split_and!; [vm_compute; reflexivity|vm_compute; reflexivity|reflexivity..].
Qed.

(** ** Tools *)

Lemma fields_get_set key key' v fields :
  fields_get key (fields_set key' v fields) =
  if bool_decide (key = key')
  then match fields_get key fields with Some _ => Some v | None => None end
  else fields_get key fields.
Proof.
  unfold fields_get, fields_set. induction fields as [|[k w] l IH]; csimpl; [by case_match|].
  destruct (decide (k = key')) as [->|Hk].
  - rewrite (bool_decide_eq_true_2 (key' = key')) by done. simpl.
    destruct (decide (key = key')) as [->|Hne].
    + by rewrite !(bool_decide_eq_true_2 (key' = key')).
    + rewrite !(bool_decide_eq_false_2 (key' = key)), !(bool_decide_eq_false_2 (key = key'))
        by congruence. by rewrite IH, bool_decide_eq_false_2.
  - rewrite (bool_decide_eq_false_2 (k = key')) by done. simpl.
    destruct (decide (k = key)) as [->|Hne].
    + rewrite !(bool_decide_eq_true_2 (key = key)) by done. by rewrite bool_decide_eq_false_2.
    + by rewrite !(bool_decide_eq_false_2 (k = key)) by done.
Qed.

Lemma fields_get_remove key key' fields :
  fields_get key (fields_remove key' fields) =
  if bool_decide (key = key') then None else fields_get key fields.
Proof.
  unfold fields_get, fields_remove. induction fields as [|[k w] l IH]; simpl; [by case_match|].
  destruct (decide (k = key')) as [->|Hk].
  - rewrite (bool_decide_eq_true_2 (key' = key')) by done. simpl. rewrite IH.
    case_bool_decide as E; [done|]. by rewrite bool_decide_eq_false_2 by congruence.
  - rewrite (bool_decide_eq_false_2 (k = key')) by done. simpl.
    destruct (decide (k = key)) as [->|Hne].
    + rewrite (bool_decide_eq_true_2 (key = key)) by done. by rewrite bool_decide_eq_false_2.
    + by rewrite !(bool_decide_eq_false_2 (k = key)) by done.
Qed.

Lemma retain_same_length {A} (p : A -> bool) l : length (retain p l) = length l -> retain p l = l.
Proof.
  induction l as [|x l IH]; simpl; [done|]. pose proof (List.filter_length_le p l) as Hle.
  destruct (p x); simpl; intros H; [f_equal; apply IH; lia|lia].
Qed.

(** Dropping tools touches no other field, keeps exactly the tools without a
    vendor type in their order, and removes the list rather than leave an empty
    one behind. *)
Theorem dropped_tools_only (fields : list (str * json)) (tools : list json) (key : str) :
  fields_get (lit "tools") fields = Some (JArray tools) ->
  (key <> lit "tools" ->
   fields_get key (drop_tools_the_target_cannot_express fields) = fields_get key fields) /\
  fields_get (lit "tools") (drop_tools_the_target_cannot_express fields) =
    (if is_empty (retain tool_kept tools) && negb (is_empty tools) then None
     else Some (JArray (retain tool_kept tools))).
Proof.
  intros Ht. unfold drop_tools_the_target_cannot_express. rewrite Ht. cbn [json_as_array].
  destruct (Nat.eqb_spec (length (retain tool_kept tools)) (length tools)) as [Hl|Hl].
  { split; [done|]. rewrite (retain_same_length _ _ Hl), Ht. by destruct tools. }
  destruct (is_empty (retain tool_kept tools)) eqn:E.
  - rewrite !fields_get_remove. split; [intros; by rewrite bool_decide_eq_false_2|].
    rewrite bool_decide_eq_true_2 by done. by destruct tools.
  - rewrite !fields_get_set, Ht. split; [intros; by rewrite bool_decide_eq_false_2|].
    by rewrite bool_decide_eq_true_2.
Qed.

(** A same-protocol Messages call loses a client tool that states its default
    type. *)
Theorem messages_custom_tool_dropped :
  exists tool, json_get (lit "type") tool = Some (JString (lit "custom")) /\
    json_get (lit "name") tool = Some (JString (lit "grep")) /\
    drop_tools_the_target_cannot_express [(lit "tools", JArray [tool])] = [].
Proof.
  exists (JObject [(lit "type", JString (lit "custom")); (lit "name", JString (lit "grep"))]).
  split_and!; vm_compute; reflexivity.
Qed.

(** ** The Keys of one member *)

Lemma elem_of_member_candidates u policy used accounts now model c cred :
  (c, cred) ∈ member_candidates u policy used accounts now model ->
  exists i, up_credentials u !! i = Some cred /\ key_serves u model cred = true /\
    c = member_candidate u policy used accounts now i cred.
Proof.
  unfold member_candidates. intros ([i cr] & Hin & H)%list_elem_of_omap. simpl in H.
  destruct (key_serves u model cr) eqn:Ek; [|done]. injection H as <- <-.
  apply elem_of_lookup_zip_with in Hin as (n & a & b & [= -> ->] & Ha & Hb).
  apply lookup_seq in Ha as [-> _]. by exists n.
Qed.

Lemma member_candidate_identity u policy used accounts now i cred :
  let c := member_candidate u policy used accounts now i cred in
  ck_profile c = up_profile_id u /\ ck_credential c = cd_id cred /\ ck_priority c = Z.of_nat i.
Proof. unfold member_candidate. cbv zeta. by repeat case_match. Qed.

(** A candidate can answer exactly when its stored state is shown as ready and
    the policy's ceiling, read against the shared counter, is not reached. *)
Lemma member_candidate_usable u policy used accounts now i cred :
  usable (member_candidate u policy used accounts now i cred) = true <->
  visibility_at (account_find accounts now (up_profile_id u) (cd_id cred)) now = KeyReady /\
  forall limit, gp_token_limit policy = Some limit -> (used < tl_tokens limit)%Z.
Proof.
  unfold member_candidate. cbv zeta.
  destruct (visibility_at _ _), (gp_token_limit policy) as [limit|]; case_bool_decide;
    unfold usable, over_token_limit; simpl; rewrite ?negb_true_iff, ?Z.leb_gt;
    split; naive_solver lia.
Qed.

Lemma omap_find_lift {A B} (key : A -> B) `{EqDecision B} (candidates : list (A * ModelProviderCredentialReference)) l :
  NoDup (key <$> candidates.*1) -> l ⊆ candidates.*1 ->
  (omap (fun c => List.find (fun e : A * ModelProviderCredentialReference =>
      bool_decide (key e.1 = key c)) candidates) l).*1 = l /\
  omap (fun c => List.find (fun e : A * ModelProviderCredentialReference =>
      bool_decide (key e.1 = key c)) candidates) l ⊆ candidates.
Proof.
  intros Hd. induction l as [|c l IH]; intros Hsub; [split; [done|set_solver]|].
  assert (Hc : c ∈ candidates.*1) by set_solver.
  apply list_elem_of_fmap in Hc as ([c' cred] & -> & Hc).
  assert (Hf : List.find (fun e : A * ModelProviderCredentialReference =>
      bool_decide (key e.1 = key c')) candidates = Some (c', cred)).
  { clear IH Hsub. induction candidates as [|[d cr] rest IH]; [set_solver|].
    inversion_clear Hd as [|? ? Hn Hd']. simpl.
    apply elem_of_cons in Hc as [[= <- <-]|Hc]; [by rewrite bool_decide_eq_true_2|].
    rewrite bool_decide_eq_false_2; [by apply IH|]. intros Heq. apply Hn.
    rewrite Heq. apply list_elem_of_fmap. exists c'. split; [done|].
    apply list_elem_of_fmap. by exists (c', cred). }
  destruct IH as [IH1 IH2]; [set_solver|]. csimpl. rewrite Hf. csimpl.
  split; [by rewrite IH1|]. intros e [->|He]%elem_of_cons; [done|by apply IH2].
Qed.

Lemma member_candidates_snd u policy used accounts now model :
  (member_candidates u policy used accounts now model).*2 =
  retain (key_serves u model) (up_credentials u).
Proof.
  unfold member_candidates. generalize 0.
  induction (up_credentials u) as [|c l IH]; intros k; [done|]. csimpl.
  destruct (key_serves u model c); csimpl; by rewrite IH.
Qed.

Lemma member_candidates_NoDup u policy used accounts now model :
  NoDup (cd_id <$> up_credentials u) ->
  NoDup (ck_credential <$> (member_candidates u policy used accounts now model).*1).
Proof.
  intros Hd.
  assert (Heq : ck_credential <$> (member_candidates u policy used accounts now model).*1 =
    cd_id <$> (member_candidates u policy used accounts now model).*2).
  { rewrite <- !list_fmap_compose. apply list_fmap_ext. intros i [c cred] Hi.
    apply list_elem_of_lookup_2, elem_of_member_candidates in Hi as (n & _ & _ & ->).
    apply member_candidate_identity. }
  rewrite Heq, member_candidates_snd. eapply sublist_NoDup; [exact Hd|].
  apply fmap_sublist. clear. induction (up_credentials u) as [|c l IH]; simpl; [done|].
  destruct (key_serves u model c); by constructor.
Qed.

(** A member is offered to the caller with at least one Key, every Key it
    offers belongs to the Provider, may serve the member's model, is shown as
    ready and is under the ceiling, the attempts follow the plan, and the
    conversation's own Key comes first when it is one of them. *)
Theorem member_keys_sound (u : GatewayUpstream) (policy : GatewayPolicy) (used : Z)
  (accounts : AccountTable) (now : Z) (requested model : str)
  (strategy : GatewayRoutingStrategy) (rotation : Z) (pinned : option (ident * ident))
  (keys : list (CandidateKey * ModelProviderCredentialReference)) (plan : RoutePlan) :
  NoDup (cd_id <$> up_credentials u) ->
  member_keys u policy used accounts now requested model strategy rotation pinned =
    Ok (keys, plan) ->
  keys <> [] /\ keys.*1 = attemptable plan /\
  (forall c cred, (c, cred) ∈ keys ->
     cred ∈ up_credentials u /\ key_serves u model cred = true /\
     visibility_at (account_find accounts now (up_profile_id u) (cd_id cred)) now = KeyReady /\
     forall limit, gp_token_limit policy = Some limit -> (used < tl_tokens limit)%Z) /\
  (pl_pinned plan = true -> exists c rest credential, keys.*1 = c :: rest /\
     pinned = Some (up_profile_id u, credential) /\ ck_credential c = credential).
Proof.
  intros Hd. pose proof (member_candidates_NoDup u policy used accounts now model Hd) as Hnd.
  unfold member_keys. cbv zeta.
  set (candidates := member_candidates u policy used accounts now model) in *.
  destruct (is_empty candidates); [done|].
  set (request := {| rq_candidates := candidates.*1; rq_strategy := _; rq_rotation := _;
    rq_pinned := _ |}).
  destruct (Nat.eqb_spec (length (attemptable (plan_route request))) 0) as [|Hne]; [done|].
  intros [= <- <-].
  assert (Hready : attemptable (plan_route request) ≡ₚ retain usable candidates.*1)
    by (rewrite attemptable_ready; apply planned_ready_perm).
  destruct (omap_find_lift ck_credential candidates (attemptable (plan_route request)) Hnd)
    as [Hfst Hsub].
  { intros c Hc. rewrite Hready in Hc. by apply elem_of_retain in Hc as [? _]. }
  set (keys := omap _ _) in *. split_and!.
  - intros E. rewrite E in Hfst. by rewrite <- Hfst in Hne.
  - done.
  - intros c cred Hin. pose proof (Hsub _ Hin) as Hc.
    apply elem_of_member_candidates in Hc as (i & Hi & Hk & ->).
    split; [by eapply list_elem_of_lookup_2|]. split; [done|].
    assert (Hu : member_candidate u policy used accounts now i cred ∈ retain usable candidates.*1).
    { rewrite <- Hready, <- Hfst. apply list_elem_of_fmap. eexists (_, cred). split; [reflexivity|exact Hin]. }
    apply elem_of_retain in Hu as [_ Hu]. by apply member_candidate_usable in Hu.
  - intros Hp. destruct (planned_ready_pinned request Hp) as (c & rest & Hc & Hm & _).
    rewrite <- attemptable_ready in Hc. exists c, rest.
    unfold pinned_matches in Hm. simpl in Hm. destruct pinned as [[profile credential]|]; [|done].
    case_bool_decide as Hpr; [|done]. subst profile.
    apply andb_true_iff in Hm as [_ Hm%bool_decide_eq_true]. exists credential.
    by rewrite Hfst.
Qed.

(** ** Display of a Secret *)

(** The mask of a Secret shows at most its four first and four last characters
    and always hides part of it; the number of stars does not depend on it. *)
Theorem mask_hides_the_secret (secret : str) :
  secret <> [] ->
  exists front back, masked_secret_hint secret = front ++ stars ++ back /\
    (exists hidden, secret = front ++ hidden ++ back /\ hidden <> []) /\
    length front <= 4 /\ length back <= 4 /\
    2 * (length front + length back) <= Nat.max 4 (length secret).
Proof.
  intros Hne. unfold masked_secret_hint.
  assert (Hlen : 1 <= length secret) by (destruct secret; [done|simpl; lia]).
  destruct (is_empty secret) eqn:E; [by destruct secret|].
  destruct (Nat.leb_spec (length secret) 2) as [H2|H2].
  { exists [], []. rewrite app_nil_r. split_and!; try done; [|simpl; lia..].
    exists secret. by rewrite app_nil_r. }
  set (v := Nat.max 1 (Nat.min 4 (length secret / 4))).
  pose proof (Nat.Div0.mul_div_le (length secret) 4) as Hdiv.
  assert (Hv : v <= 4 /\ 2 * v < length secret /\ 4 * v <= Nat.max 4 (length secret)) by (unfold v; lia).
  exists (take v secret), (drop (length secret - v) secret).
  rewrite length_take, length_drop. split_and!; [done| |lia|lia|lia].
  exists (take (length secret - 2 * v) (drop v secret)). split.
  - rewrite <- (take_drop v secret) at 1. f_equal.
    rewrite <- (take_drop (length secret - 2 * v) (drop v secret)) at 1. f_equal.
    rewrite drop_drop. f_equal. lia.
  - intros Hn. apply (f_equal length) in Hn. rewrite length_take, length_drop in Hn. simpl in Hn. lia.
Qed.

(** ** Model paths *)

(** The path of a model is made of unreserved characters and escapes, and two
    models never share one. *)
Lemma hex_digit_inj a b : (a < 16)%N -> (b < 16)%N -> hex_digit a = hex_digit b -> a = b.
Proof.
  intros Ha Hb. unfold hex_digit. destruct (N.ltb_spec a 10), (N.ltb_spec b 10); lia.
Qed.

Lemma percent_not_safe : path_byte_safe 37 = false.
Proof. reflexivity. Qed.

Theorem percent_encode_injective (a b : list N) :
  Forall (fun x => (x < 256)%N) a -> Forall (fun x => (x < 256)%N) b ->
  percent_encode_path a = percent_encode_path b -> a = b.
Proof.
  intros Ha. revert b. unfold percent_encode_path.
  induction Ha as [|x a Hx Ha IH]; intros b Hb; destruct Hb as [|y b Hy Hb]; csimpl; intros H;
    [done|by destruct (path_byte_safe y)|by destruct (path_byte_safe x)|].
  destruct (path_byte_safe x) eqn:Ex, (path_byte_safe y) eqn:Ey; simpl in H.
  - injection H as -> H. f_equal. by apply IH.
  - injection H as -> _. by rewrite percent_not_safe in Ex.
  - injection H as <- _. by rewrite percent_not_safe in Ey.
  - injection H as H1 H2 H.
    assert (x / 16 = y / 16)%N by (apply hex_digit_inj; [apply N.Div0.div_lt_upper_bound; lia..|done]).
    assert (x mod 16 = y mod 16)%N by (apply hex_digit_inj; [apply N.mod_lt; lia..|done]).
    f_equal; [|by apply IH]. rewrite (N.div_mod' x 16), (N.div_mod' y 16). lia.
Qed.
