(* ===== verification/MemberPlan.v ===== *)
(** The order in which a route's members are tried: the strategies of
    crates/model-gateway/src/route.rs, and the observations, rule order and pin
    that crates/model-gateway/src/service.rs applies around them. *)
From stdpp Require Import prelude strings list gmap sorting.
From Stdlib Require Import NArith ZArith Lia Sorted.
From S2P Require Import Prelude CoreTypes GatewayTypes RouteModel Upstream.

(** ** Members and observations *)

Record RouteMemberRef : Type := mkMemberRef {
  mm_member_id : option ident;
  mm_profile : ident;
  mm_model : str;
  mm_reasoning_effort : option str;
  mm_weight : Z;
  mm_context_tokens : option Z;
  mm_first_token_timeout_ms : option Z
}.
#[export] Instance RouteMemberRef_eq_dec : EqDecision RouteMemberRef.
Proof. solve_decision. Defined.
Definition RouteMemberRef_new (profile : ident) (model : str) : RouteMemberRef :=
  {| mm_member_id := None; mm_profile := profile; mm_model := model; mm_reasoning_effort := None;
     mm_weight := DEFAULT_MEMBER_WEIGHT; mm_context_tokens := None;
     mm_first_token_timeout_ms := None |}.

Record MemberObservation : Type := mkObservation {
  mo_used_tokens : Z;
  mo_p50_ms : option Z;
  mo_p95_ms : option Z;
  mo_cooling : bool;
  mo_inflight : Z
}.
Definition MemberObservation_default : MemberObservation := mkObservation 0 None None false 0.

Abbreviation Observations := (list (ident * MemberObservation)).

Definition observation (observations : Observations) (m : RouteMemberRef) : MemberObservation :=
  match List.find (fun o => bool_decide (o.1 = mm_profile m)) observations with
  | Some (_, o) => o
  | None => MemberObservation_default
  end.

(** [false < true] as a sort component. *)
Definition bool_key (b : bool) : Z := if b then 1 else 0.

Definition used_key (o : MemberObservation) : list Z := [mo_used_tokens o].
Definition smart_key (o : MemberObservation) : list Z :=
  [bool_key (mo_cooling o); default u64_max (mo_p50_ms o); mo_inflight o; mo_used_tokens o].
Definition latency_key (o : MemberObservation) : list Z :=
  [bool_key (mo_cooling o); default u64_max (mo_p50_ms o); default u64_max (mo_p95_ms o)].

(** ** The weighted cycle *)

(** [member.weight.max(1) as usize]. *)
Definition effective_weight (m : RouteMemberRef) : nat := Z.to_nat (Z.max 1 (mm_weight m)).

(** Each member once per weight unit, round by round. *)
Definition weighted_cycle (members : list RouteMemberRef) : list RouteMemberRef :=
  seq 0 (list_max (effective_weight <$> members)) ≫= fun round =>
    retain (fun m => round <? effective_weight m) members.

(** The deduplicating loop over the members taken from the cycle, which stops
    once [len] are ordered. *)
Fixpoint collect_order (len : nat) (ordered taken : list RouteMemberRef) : list RouteMemberRef :=
  match taken with
  | [] => ordered
  | m :: taken =>
    let ordered := push_new ordered m in
    if length ordered =? len then ordered else collect_order len ordered taken
  end.

(** [cycle.into_iter().cycle().skip(start).take(n)]. *)
Definition cycle_skip_take {A} (cycle : list A) (start n : nat) : list A :=
  omap (fun i => cycle !! ((i + start) mod length cycle)) (seq 0 n).

Definition weighted_order (members : list RouteMemberRef) (rotation : Z) : list RouteMemberRef :=
  if list_sum (effective_weight <$> members) =? 0 then members
  else
    let cycle := weighted_cycle members in
    let start := rotation_offset rotation (Nat.max 1 (length cycle)) in
    collect_order (length members) [] (cycle_skip_take cycle start (length members * 2)).

(** ** The strategies *)

Definition plan_members (members : list RouteMemberRef) (strategy : RouteStrategy) (rotation : Z)
  (observations : Observations) (pick_member_id : option ident) : list RouteMemberRef :=
  match strategy with
  | Ordered => members
  | RoundRobin =>
    if is_empty members then members
    else rotate_left (rotation_offset rotation (length members)) members
  | LeastUsed => sort_by_key (fun m => used_key (observation observations m)) members
  | Smart => sort_by_key (fun m => smart_key (observation observations m)) members
  | LowestLatency => sort_by_key (fun m => latency_key (observation observations m)) members
  | Weighted => weighted_order members rotation
  | Manual =>
    match pick_member_id with
    | Some picked => retain (fun m => bool_decide (mm_member_id m = Some picked)) members
    | None => members
    end
  end.

(** ** Rules and the pin *)

(** The members a rule wants, starter first. *)
Definition wanted_members (rule : ModelRouteRule) : list ident :=
  match ru_use_member_id rule with Some m => [m] | None => [] end ++ ru_more_member_ids rule.

Definition find_member (plans : list RouteMemberRef) (id : ident) : option RouteMemberRef :=
  match position (fun plan => bool_decide (mm_member_id plan = Some id)) plans with
  | Some index => plans !! index
  | None => None
  end.

Definition reorder_for_rule (plans : list RouteMemberRef) (rule : ModelRouteRule)
  : list RouteMemberRef :=
  let wanted := wanted_members rule in
  if is_empty wanted then plans
  else
    let ordered := foldl (fun ordered id =>
      match find_member plans id with
      | Some plan => push_new ordered plan
      | None => ordered
      end) [] wanted in
    foldl push_new ordered plans.

Definition hoist_pinned (plans : list RouteMemberRef) (pinned : option ident)
  : list RouteMemberRef :=
  match pinned with
  | None => plans
  | Some pinned =>
    match position (fun plan => bool_decide (mm_profile plan = pinned)) plans with
    | None => plans
    | Some index => if 0 <? index then move_to_front index plans else plans
    end
  end.

(** ** Observations *)

(** [percentile(samples, num / den)]: nearest rank, halves rounded up. *)
Definition percentile (samples : list Z) (num den : nat) : option Z :=
  match samples with
  | [] => None
  | _ =>
    let sorted := sort_by_key (fun x => [x]) samples in
    let index := (2 * (length sorted - 1) * num + den) / (2 * den) in
    match sorted !! Nat.min index (length sorted - 1) with
    | Some v => if (0 <=? v)%Z then Some v else None
    | None => None
    end
  end.

Definition LATENCY_WINDOW : nat := 32.

Abbreviation LatencyTable := (gmap ident (list Z)).

(** [note_latency]: the newest 32 positive samples of each Provider. *)
Definition note_latency (t : LatencyTable) (profile : ident) (latency_ms : Z) : LatencyTable :=
  if (latency_ms <=? 0)%Z then t
  else
    let window := default [] (t !! profile) ++ [latency_ms] in
    <[profile := drop (length window - LATENCY_WINDOW) window]> t.

(** [member_observations]; [inflight] lists the Provider of each request in
    flight. *)
Definition member_observations (upstreams : list GatewayUpstream) (latencies : LatencyTable)
  (inflight : list ident) : Observations :=
  (fun up =>
    let samples := latencies !! up_profile_id up in
    (up_profile_id up,
     {| mo_used_tokens := match up_keys up with [] => 0 | key :: _ => gk_used_tokens key end;
        mo_p50_ms := match samples with Some s => percentile s 50 100 | None => None end;
        mo_p95_ms := match samples with Some s => percentile s 95 100 | None => None end;
        mo_cooling := negb (is_empty (up_keys up))
          && negb (existsb (fun key => GatewayKeyState_is_ready (gk_state key)) (up_keys up));
        mo_inflight := Z.of_nat (length (retain (fun p => bool_decide (p = up_profile_id up)) inflight))
     |})) <$> upstreams.

(** * Theorems *)

(** ** The weighted cycle *)

Lemma bind_app_perm {A B} (f g : A -> list B) (l : list A) :
  (l ≫= fun x => f x ++ g x) ≡ₚ (l ≫= f) ++ (l ≫= g).
Proof.
  induction l as [|x l IH]; csimpl; [done|]. rewrite IH.
  rewrite <- !(assoc (++)). apply Permutation_app_head.
  rewrite !(assoc (++)). apply Permutation_app_tail, Permutation_app_comm.
Qed.

Lemma bind_retain {A} (p : A -> bool) (l : list A) :
  (l ≫= fun x => if p x then [x] else []) = retain p l.
Proof. induction l as [|x l IH]; csimpl; [done|]. rewrite IH. by destruct (p x). Qed.

Lemma bind_ext_in {A B} (f g : A -> list B) (l : list A) :
  (forall x, x ∈ l -> f x = g x) -> l ≫= f = l ≫= g.
Proof.
  induction l as [|x l IH]; csimpl; intros H; [done|].
  rewrite H, IH; [done| |apply list_elem_of_here].
  intros y Hy. apply H. by apply list_elem_of_further.
Qed.

(** [n] rounds place each member as often as its weight allows. *)
Lemma rounds_perm (members : list RouteMemberRef) n :
  (seq 0 n ≫= fun round => retain (fun m => round <? effective_weight m) members) ≡ₚ
  (members ≫= fun m => replicate (Nat.min n (effective_weight m)) m).
Proof.
  induction n as [|n IH].
  { simpl. induction members as [|m l IHm]; [done|]. csimpl. by rewrite <- IHm. }
  rewrite seq_S, bind_app, bind_singleton, Nat.add_0_l, IH, <- bind_retain, <- bind_app_perm.
  apply eq_Permutation, bind_ext_in. intros m _.
  destruct (Nat.ltb_spec n (effective_weight m)).
  - rewrite !Nat.min_l by lia. by rewrite replicate_S_end.
  - rewrite !Nat.min_r by lia. apply app_nil_r.
Qed.

Lemma list_max_ge (l : list nat) x : x ∈ l -> x <= list_max l.
Proof.
  induction l as [|y l IH]; [set_solver|]. intros [->|H]%elem_of_cons; simpl; [lia|].
  specialize (IH H). lia.
Qed.

Lemma weighted_cycle_perm (members : list RouteMemberRef) :
  weighted_cycle members ≡ₚ (members ≫= fun m => replicate (effective_weight m) m).
Proof.
  unfold weighted_cycle. rewrite rounds_perm. apply eq_Permutation, bind_ext_in. intros m Hm.
  rewrite Nat.min_r; [done|]. apply list_max_ge. by apply list_elem_of_fmap_2.
Qed.

Lemma effective_weight_pos m : 1 <= effective_weight m.
Proof. unfold effective_weight. lia. Qed.

Lemma length_weighted_cycle members :
  length (weighted_cycle members) = list_sum (effective_weight <$> members).
Proof.
  rewrite weighted_cycle_perm. induction members as [|m l IH]; csimpl; [done|].
  by rewrite length_app, length_replicate, IH.
Qed.

Lemma length_cycle_ge members : length members <= length (weighted_cycle members).
Proof.
  rewrite length_weighted_cycle. induction members as [|m l IH]; csimpl; [lia|].
  pose proof (effective_weight_pos m). lia.
Qed.

Lemma elem_of_weighted_cycle members m : m ∈ weighted_cycle members <-> m ∈ members.
Proof.
  rewrite weighted_cycle_perm, list_elem_of_bind. setoid_rewrite elem_of_replicate. split.
  - by intros (x & [-> _] & Hx).
  - intros Hm. exists m. pose proof (effective_weight_pos m). split; [split; [done|lia]|done].
Qed.

(** The loop keeps the first occurrences of what it is given. *)
Lemma collect_order_spec len acc taken :
  NoDup acc ->
  NoDup (collect_order len acc taken) /\
  (forall m, m ∈ collect_order len acc taken -> m ∈ acc \/ m ∈ taken) /\
  (exists rest, collect_order len acc taken = acc ++ rest).
Proof.
  revert acc. induction taken as [|m taken IH]; intros acc Hd; cbn [collect_order].
  { split_and!; [done|by left|exists []; by rewrite app_nil_r]. }
  pose proof (push_new_NoDup acc m Hd) as Hd'.
  assert (Hpre : exists rest, push_new acc m = acc ++ rest).
  { unfold push_new. case_bool_decide; [exists []; by rewrite app_nil_r|by eexists]. }
  destruct (_ =? len).
  - split_and!; [done| |done]. intros x Hx%elem_of_push_new. set_solver.
  - destruct (IH (push_new acc m) Hd') as (H1 & H2 & rest & H3). split_and!; [done| |].
    + intros x [Hx%elem_of_push_new|Hx]%H2; set_solver.
    + destruct Hpre as [r Hr]. exists (r ++ rest). by rewrite H3, Hr, (assoc (++)).
Qed.

(** Until it stops early, the loop keeps every element it is given. *)
Lemma collect_order_complete len acc taken m :
  m ∈ acc \/ m ∈ taken ->
  m ∈ collect_order len acc taken \/ length (collect_order len acc taken) = len.
Proof.
  revert acc. induction taken as [|x taken IH]; intros acc H; cbn [collect_order].
  { left. set_solver. }
  destruct (Nat.eqb_spec (length (push_new acc x)) len) as [|Hne]; [by right|].
  apply IH. rewrite elem_of_push_new. set_solver.
Qed.

Lemma cycle_skip_take_head {A} (cycle : list A) start n :
  0 < n -> start < length cycle -> head (cycle_skip_take cycle start n) = cycle !! start.
Proof.
  intros Hn Hs. destruct n as [|n]; [lia|]. unfold cycle_skip_take. csimpl.
  rewrite Nat.mod_small by lia. destruct (cycle !! start) eqn:E; [done|].
  apply lookup_ge_None in E. lia.
Qed.

Lemma elem_of_cycle_skip_take {A} (cycle : list A) start n x :
  x ∈ cycle_skip_take cycle start n -> x ∈ cycle.
Proof.
  unfold cycle_skip_take. intros (i & _ & H)%list_elem_of_omap. by eapply list_elem_of_lookup_2.
Qed.

Lemma cycle_skip_take_full {A} (cycle : list A) start n x :
  length cycle <= n -> x ∈ cycle -> x ∈ cycle_skip_take cycle start n.
Proof.
  intros Hn Hx. assert (Hp : x ∈ cycle_skip_take cycle start (length cycle)).
  { unfold cycle_skip_take. rewrite (rotations_heads start cycle). done. }
  unfold cycle_skip_take in *. apply list_elem_of_omap in Hp as (i & Hi & He).
  apply list_elem_of_omap. exists i. split; [|done]. apply elem_of_seq. apply elem_of_seq in Hi. lia.
Qed.

Lemma weighted_order_unfold members rotation :
  members <> [] ->
  weighted_order members rotation =
  collect_order (length members) []
    (cycle_skip_take (weighted_cycle members)
       (rotation_offset rotation (length (weighted_cycle members))) (length members * 2)).
Proof.
  intros Hne. pose proof (length_cycle_ge members) as Hge.
  assert (1 <= length members) by (destruct members; [done|simpl; lia]).
  unfold weighted_order. rewrite <- length_weighted_cycle.
  destruct (Nat.eqb_spec (length (weighted_cycle members)) 0); [lia|].
  by rewrite Nat.max_r by lia.
Qed.

Lemma weighted_order_head members rotation :
  members <> [] ->
  head (weighted_order members rotation) =
  weighted_cycle members !! rotation_offset rotation (length (weighted_cycle members)).
Proof.
  intros Hne. rewrite weighted_order_unfold by done.
  pose proof (length_cycle_ge members) as Hge.
  assert (1 <= length members) by (destruct members; [done|simpl; lia]).
  rewrite <- (cycle_skip_take_head _ _ (length members * 2)); [|lia|apply rotation_offset_lt; lia].
  destruct (cycle_skip_take _ _ _) as [|m taken]; [done|]. cbn [collect_order].
  destruct (_ =? _); [done|].
  destruct (collect_order_spec (length members) (push_new [] m) taken) as (_ & _ & rest & ->);
    [by apply push_new_NoDup, NoDup_nil|done].
Qed.

(** Weights are shares of the first attempt: over one cycle of consecutive
    requests each member is tried first exactly as often as its weight. *)
Theorem weighted_share_of_first_attempts (members : list RouteMemberRef) (start : nat)
  (observations : Observations) (pick : option ident) :
  members <> [] ->
  omap (fun j => head (plan_members members Weighted (Z.of_nat start + Z.of_nat j) observations pick))
    (seq 0 (list_sum (effective_weight <$> members)))
  ≡ₚ (members ≫= fun m => replicate (effective_weight m) m).
Proof.
  intros Hne. rewrite <- length_weighted_cycle, <- weighted_cycle_perm.
  etrans; [|apply (rotations_heads start)]. apply eq_Permutation, list_omap_ext.
  apply Forall_Forall2_diag, Forall_seq. intros j Hj. cbn [plan_members].
  rewrite weighted_order_head by done. f_equal.
  unfold rotation_offset. rewrite <- Nat2Z.inj_add, <- Nat2Z.inj_mod, Nat2Z.id. f_equal. lia.
Qed.

Lemma NoDup_incl_length_perm {A} (l k : list A) :
  NoDup l -> (forall x, x ∈ l -> x ∈ k) -> length l = length k -> l ≡ₚ k.
Proof.
  intros Hd Hs Hl. apply submseteq_length_Permutation; [by apply NoDup_submseteq|lia].
Qed.

Lemma weighted_order_facts members rotation :
  members <> [] ->
  NoDup (weighted_order members rotation) /\
  (forall m, m ∈ weighted_order members rotation -> m ∈ members).
Proof.
  intros Hne. rewrite weighted_order_unfold by done.
  edestruct (collect_order_spec (length members) []) as (H1 & H2 & _); [apply NoDup_nil_2|].
  split; [exact H1|]. intros m [Hm|Hm]%H2; [set_solver|].
  apply elem_of_weighted_cycle. by eapply elem_of_cycle_skip_take.
Qed.

(** When one cycle fits in twice the number of members, failover keeps every
    member. *)
Theorem weighted_order_keeps_members (members : list RouteMemberRef) (rotation : Z) :
  NoDup members -> list_sum (effective_weight <$> members) <= length members * 2 ->
  weighted_order members rotation ≡ₚ members.
Proof.
  intros Hd Hsum. destruct (decide (members = [])) as [->|Hne]; [done|].
  destruct (weighted_order_facts members rotation Hne) as [H1 H2].
  rewrite weighted_order_unfold in * by done. rewrite <- length_weighted_cycle in Hsum.
  set (taken := cycle_skip_take _ _ _) in *.
  assert (Hc : forall m, m ∈ members ->
    m ∈ collect_order (length members) [] taken \/
    length (collect_order (length members) [] taken) = length members).
  { intros m Hm. apply collect_order_complete. right.
    apply cycle_skip_take_full; [done|by apply elem_of_weighted_cycle]. }
  destruct (decide (length (collect_order (length members) [] taken) = length members)) as [Hl|Hl].
  - by apply NoDup_incl_length_perm.
  - apply NoDup_Permutation; [done..|]. intros m. split; [apply H2|].
    intros Hm. by destruct (Hc m Hm).
Qed.

(** In general it does not: with weights ten and one the third request of a
    cycle is planned on the heavy member alone, and cannot fail over. *)
Theorem weighted_order_drops_a_member :
  exists (members : list RouteMemberRef) (heavy light : RouteMemberRef),
    members = [heavy; light] /\ heavy <> light /\
    mm_weight heavy = 10%Z /\ mm_weight light = 1%Z /\
    plan_members members Weighted 2 [] None = [heavy].
Proof.
  exists [mkMemberRef (Some (lit "a")) (lit "p") (lit "m") None 10 None None;
          mkMemberRef (Some (lit "b")) (lit "q") (lit "m") None 1 None None].
  do 2 eexists. split_and!; [reflexivity|done|done|done|vm_compute; reflexivity].
Qed.

(** ** The other strategies *)

(** Every strategy but the weighted cycle and a manual pick keeps the members;
    a manual pick keeps the picked one alone; smart and lowest latency try no
    member whose Keys are all cooling before one that has a ready Key. *)
Theorem plan_members_reorders (members : list RouteMemberRef) (strategy : RouteStrategy)
  (rotation : Z) (observations : Observations) (pick : option ident) :
  let planned := plan_members members strategy rotation observations pick in
  match strategy with
  | Weighted => forall m, m ∈ planned -> m ∈ members
  | Manual => forall picked, pick = Some picked ->
      planned = retain (fun m => bool_decide (mm_member_id m = Some picked)) members
  | _ => planned ≡ₚ members
  end /\
  match strategy with
  | Smart | LowestLatency =>
    StronglySorted (fun a b => mo_cooling (observation observations a) = true ->
                               mo_cooling (observation observations b) = true) planned
  | LeastUsed =>
    StronglySorted (fun a b => mo_used_tokens (observation observations a) <=
                               mo_used_tokens (observation observations b))%Z planned
  | _ => True
  end.
Proof.
  assert (Hcool : forall (a b : MemberObservation) ka kb,
    lex_le (bool_key (mo_cooling a) :: ka) (bool_key (mo_cooling b) :: kb) = true ->
    mo_cooling a = true -> mo_cooling b = true).
  { intros a b ka kb H Ha. rewrite Ha in H. by destruct (mo_cooling b). }
  destruct strategy; cbn [plan_members]; split; try done; try apply sort_by_key_perm.
  - destruct (is_empty members); [done|apply rotate_left_perm].
  - eapply StronglySorted_weaken; [|apply sort_by_key_sorted]. intros a b. apply lex_le_single.
  - eapply StronglySorted_weaken; [|apply sort_by_key_sorted]. intros a b. apply Hcool.
  - eapply StronglySorted_weaken; [|apply sort_by_key_sorted]. intros a b. apply Hcool.
  - intros m. destruct (decide (members = [])) as [->|Hne]; [done|].
    by apply weighted_order_facts.
  - by intros picked ->.
Qed.

(** ** Rules and the pin *)

Lemma foldl_push_new (acc l : list RouteMemberRef) :
  NoDup l -> foldl push_new acc l = acc ++ retain (fun x => negb (bool_decide (x ∈ acc))) l.
Proof.
  revert acc. induction l as [|x l IH]; intros acc Hd; simpl; [by rewrite app_nil_r|].
  inversion_clear Hd as [|? ? Hn Hd']. rewrite IH by done. unfold push_new.
  destruct (decide (x ∈ acc)) as [Hx|Hx].
  - by rewrite !(bool_decide_eq_true_2 (x ∈ acc)) by done.
  - rewrite !(bool_decide_eq_false_2 (x ∈ acc)) by done. simpl.
    rewrite <- (assoc (++)). simpl. do 2 f_equal.
    assert (Hr : forall k, x ∉ k ->
      retain (fun y => negb (bool_decide (y ∈ acc ++ [x]))) k =
      retain (fun y => negb (bool_decide (y ∈ acc))) k).
    { induction k as [|y k IHk]; intros Hk; [done|]. simpl.
      rewrite IHk by set_solver. destruct (decide (y ∈ acc)) as [Hy|Hy].
      - rewrite !bool_decide_eq_true_2; [done|done|set_solver].
      - rewrite !bool_decide_eq_false_2; [done|done|set_solver]. }
    by apply Hr.
Qed.

Lemma find_member_Some plans id m :
  find_member plans id = Some m -> m ∈ plans /\ mm_member_id m = Some id.
Proof.
  unfold find_member. destruct (position _ plans) as [i|] eqn:E; [|done]. intros Hi.
  apply position_Some in E as (x & Hx & Hp & _). rewrite Hx in Hi. injection Hi as ->.
  split; [by eapply list_elem_of_lookup_2|]. by apply bool_decide_eq_true in Hp.
Qed.

Lemma find_member_None plans id :
  find_member plans id = None <-> forall m, m ∈ plans -> mm_member_id m <> Some id.
Proof.
  unfold find_member. destruct (position _ plans) as [i|] eqn:E.
  - apply position_Some in E as (x & Hx & Hp & _). rewrite Hx. split; [done|]. intros H.
    apply bool_decide_eq_true in Hp. by destruct (H x (list_elem_of_lookup_2 _ _ _ Hx)).
  - apply position_None in E. rewrite Forall_forall in E. split; [|done].
    intros _ m Hm. specialize (E m Hm). by apply bool_decide_eq_false in E.
Qed.

Lemma rule_starters plans wanted acc :
  NoDup wanted ->
  (forall id m, id ∈ wanted -> m ∈ acc -> mm_member_id m <> Some id) ->
  foldl (fun ordered id => match find_member plans id with
                           | Some plan => push_new ordered plan
                           | None => ordered
                           end) acc wanted = acc ++ omap (find_member plans) wanted.
Proof.
  revert acc. induction wanted as [|id wanted IH]; intros acc Hd Hacc; [by rewrite app_nil_r|].
  inversion_clear Hd as [|? ? Hn Hd']. csimpl.
  destruct (find_member plans id) as [m|] eqn:E.
  - apply find_member_Some in E as [_ Hm].
    assert (Hnew : push_new acc m = acc ++ [m]).
    { unfold push_new. rewrite bool_decide_eq_false_2; [done|]. intros Hin.
      by apply (Hacc id m (list_elem_of_here _ _) Hin). }
    rewrite Hnew, IH; [by rewrite <- (assoc (++))|done|].
    intros id' m' Hid' [Hm'| ->%list_elem_of_singleton]%elem_of_app.
    + apply Hacc; [by apply list_elem_of_further|done].
    + intros Heq. apply Hn. congruence.
  - apply IH; [done|]. intros id' m' Hid'. apply Hacc. by apply list_elem_of_further.
Qed.

Lemma reorder_for_rule_facts (plans : list RouteMemberRef) (rule : ModelRouteRule) :
  NoDup (mm_member_id <$> plans) -> NoDup (wanted_members rule) ->
  let named := omap (find_member plans) (wanted_members rule) in
  reorder_for_rule plans rule =
    named ++ retain (fun m => negb (bool_decide (m ∈ named))) plans /\
  reorder_for_rule plans rule ≡ₚ plans.
Proof.
  intros Hids Hw. cbv zeta.
  assert (Hd : NoDup plans) by (by eapply NoDup_fmap_1).
  assert (Heq : reorder_for_rule plans rule =
    omap (find_member plans) (wanted_members rule) ++
    retain (fun m => negb (bool_decide (m ∈ omap (find_member plans) (wanted_members rule)))) plans).
  { unfold reorder_for_rule. cbv zeta. destruct (wanted_members rule) as [|id wanted].
    - simpl. rewrite retain_all; [done|]. apply Forall_forall. intros m _.
      by rewrite ?bool_decide_eq_false_2 by apply not_elem_of_nil.
    - cbn [is_empty]. rewrite rule_starters, foldl_push_new; [done|done|done|].
      intros ? ? _ Hn. by apply not_elem_of_nil in Hn. }
  split; [exact Heq|]. rewrite Heq. set (named := omap _ _) in *.
  assert (Hnamed : NoDup named).
  { unfold named. clear Heq named. induction Hw as [|id wanted Hn Hw IH]; [constructor|]. csimpl.
    destruct (find_member plans id) as [m|] eqn:E; [|done]. constructor; [|done].
    intros (id' & Hid' & E')%list_elem_of_omap.
    apply find_member_Some in E as [_ E], E' as [_ E']. congruence. }
  assert (Hsub : forall m, m ∈ named -> m ∈ plans).
  { intros m (id & _ & Hm)%list_elem_of_omap. by apply find_member_Some in Hm as [? _]. }
  apply NoDup_Permutation; [|done|].
  - apply NoDup_app. split_and!; [done| |].
    + intros m Hm Hin. apply elem_of_retain in Hin as [_ Hin].
      by rewrite bool_decide_eq_true_2 in Hin.
    + by apply NoDup_ListNoDup, List.NoDup_filter, NoDup_ListNoDup.
  - intros m. rewrite elem_of_app, elem_of_retain, negb_true_iff, bool_decide_eq_false.
    destruct (decide (m ∈ named)); naive_solver.
Qed.

(** A matched rule changes the order and not the set: the members it names come
    first in the order it names them, and the others follow in the order the
    strategy produced. *)
Theorem rule_order_keeps_members (plans : list RouteMemberRef) (rule : ModelRouteRule) :
  NoDup (mm_member_id <$> plans) -> NoDup (wanted_members rule) ->
  let named := omap (find_member plans) (wanted_members rule) in
  reorder_for_rule plans rule =
    named ++ retain (fun m => negb (bool_decide (m ∈ named))) plans /\
  reorder_for_rule plans rule ≡ₚ plans.
Proof. apply reorder_for_rule_facts. Qed.

(** Hoisting changes only which member is tried first. *)
Lemma hoist_pinned_perm plans pinned : hoist_pinned plans pinned ≡ₚ plans.
Proof.
  unfold hoist_pinned. destruct pinned as [p|]; [|done].
  destruct (position _ plans) as [i|]; [|done]. destruct (0 <? i); [apply move_to_front_perm|done].
Qed.

Lemma hoist_pinned_head plans p m :
  m ∈ plans -> mm_profile m = p ->
  exists first, head (hoist_pinned plans (Some p)) = Some first /\ mm_profile first = p.
Proof.
  intros Hm Hp. unfold hoist_pinned.
  destruct (position _ plans) as [i|] eqn:E.
  - apply position_Some in E as (x & Hx & Hpx & _). apply bool_decide_eq_true in Hpx.
    destruct i as [|i]; simpl.
    + exists x. split; [|done]. by rewrite head_lookup.
    + unfold move_to_front. rewrite Hx. by exists x.
  - apply position_None in E. rewrite Forall_forall in E.
    specialize (E m Hm). by apply bool_decide_eq_false in E.
Qed.

(** ** Latency *)

Definition note_all (t : LatencyTable) (notes : list (ident * Z)) : LatencyTable :=
  foldl (fun t n => note_latency t n.1 n.2) t notes.
Definition last_n {A} (n : nat) (l : list A) : list A := drop (length l - n) l.

Lemma last_n_app {A} n (l k : list A) : last_n n (last_n n l ++ k) = last_n n (l ++ k).
Proof.
  unfold last_n. rewrite !length_app, length_drop.
  destruct (decide (length l <= n)) as [H|H].
  - replace (length l - n) with 0 by lia. simpl. by rewrite Nat.sub_0_r.
  - assert (Hl : l ++ k = take (length l - n) l ++ (drop (length l - n) l ++ k))
      by (by rewrite (assoc (++)), take_drop).
    rewrite Hl, (drop_app_ge (take (length l - n) l)) by (rewrite length_take; lia).
    rewrite length_take. f_equal. lia.
Qed.

(** What the router remembers of a Provider is its 32 newest positive latencies,
    in the order they were observed, whatever was observed of others. *)
Theorem latency_window_is_newest (notes : list (ident * Z)) (p : ident) :
  default [] (note_all ∅ notes !! p) =
  last_n LATENCY_WINDOW
    (snd <$> retain (fun n => bool_decide (n.1 = p) && (0 <? n.2)%Z) notes).
Proof.
  assert (Hgen : forall t l, default [] (t !! p) = last_n LATENCY_WINDOW l ->
    default [] (note_all t notes !! p) = last_n LATENCY_WINDOW
      (l ++ (snd <$> retain (fun n => bool_decide (n.1 = p) && (0 <? n.2)%Z) notes))).
  { induction notes as [|[q z] notes IH]; intros t l Ht; [by rewrite app_nil_r|]. simpl.
    unfold note_all in *. simpl. unfold note_latency at 2.
    destruct (Z.leb_spec z 0), (Z.ltb_spec 0 z); try lia.
    - rewrite andb_false_r. by apply IH.
    - rewrite andb_true_r. destruct (decide (q = p)) as [->|Hne].
      + rewrite bool_decide_eq_true_2 by done. csimpl.
        rewrite (cons_middle z l), (assoc (++)). apply IH. rewrite lookup_insert_eq, Ht. simpl.
        change (drop _ ?k) with (last_n LATENCY_WINDOW k). apply last_n_app.
      + rewrite bool_decide_eq_false_2 by done. apply IH. by rewrite lookup_insert_ne. }
  apply (Hgen ∅ []). by rewrite lookup_empty.
Qed.

(** A percentile is one of the samples, and a larger fraction never gives a
    smaller one. *)
Theorem percentile_monotone (samples : list Z) (num num' den : nat) (a b : Z) :
  0 < den -> num <= num' <= den ->
  percentile samples num den = Some a -> percentile samples num' den = Some b ->
  a ∈ samples /\ (0 <= a <= b)%Z.
Proof.
  intros Hden Hn. unfold percentile.
  destruct samples as [|s0 rest] eqn:Es; [done|]. rewrite <- Es. clear Es s0 rest.
  pose proof (sort_by_int_sorted id samples) as Hs. unfold id in Hs.
  set (sorted := sort_by_key (fun x => [x]) samples) in *. cbv zeta.
  set (i := Nat.min _ (length sorted - 1)). set (j := Nat.min _ (length sorted - 1)).
  assert (Hij : i <= j).
  { unfold i, j. apply Nat.min_le_compat_r, Nat.Div0.div_le_mono. nia. }
  destruct (sorted !! i) as [x|] eqn:Hi; [|done]. destruct (sorted !! j) as [y|] eqn:Hj; [|done].
  destruct (Z.leb_spec 0 x), (Z.leb_spec 0 y); try done. intros [= <-] [= <-].
  split; [unfold sorted in Hi; apply list_elem_of_lookup_2 in Hi; by rewrite sort_by_key_perm in Hi|].
  split; [done|]. destruct (decide (i = j)) as [Heq|Hne].
  - rewrite Heq, Hj in Hi. injection Hi as ->. lia.
  - by apply (StronglySorted_lookup_lt _ sorted i j); [..|lia].
Qed.
