(* ===== verification/Breaker.v ===== *)
(** The breaker of each route group and the runtime state derived from it
    (RouteBreaker, begin_attempt, finish_attempt, note_success, note_failure,
    publish_degraded_routes, publish and shutdown of
    crates/model-gateway/src/service.rs), and the table of requests in flight.
    One [breaker_op] is one call under the service's lock, so an interleaving
    of concurrent requests is a list of operations. *)
From stdpp Require Import prelude strings list gmap.
From Stdlib Require Import NArith ZArith Lia.
From S2P Require Import Prelude CoreTypes GatewayTypes GatewayErrors.

Definition DEGRADE_AFTER_FAILURES : Z := 3.
Definition FAILURE_MEMORY_MS : Z := 2 * 60 * 1000.
Definition MAX_INFLIGHT : nat := 8.

Record RouteBreaker : Type := mkBreaker {
  br_consecutive_failures : Z;
  br_last_failure_at_ms : Z;
  br_probe_in_flight : bool
}.
Definition RouteBreaker_default : RouteBreaker := mkBreaker 0 0 false.
Definition breaker_is_degraded (b : RouteBreaker) : bool :=
  (DEGRADE_AFTER_FAILURES <=? br_consecutive_failures b)%Z.

Abbreviation Breakers := (gmap str RouteBreaker).

(** The locked map and the published runtime state. *)
Record BreakerState : Type := mkBreakerState {
  bs_breakers : Breakers;
  bs_runtime : ModelGatewayRuntimeState
}.

(** [breakers.entry(group).or_default()]. *)
Definition breaker_entry (bs : Breakers) (group : str) : RouteBreaker :=
  default RouteBreaker_default (bs !! group).

Definition STEPPED_ASIDE : str :=
  lit "this route group stepped aside after repeated upstream failures; let one request through at a time until an upstream answers, or use a direct Provider".

Definition begin_attempt (bs : Breakers) (group : str) : Breakers * GatewayResult bool :=
  let b := breaker_entry bs group in
  if negb (breaker_is_degraded b) then (<[group := b]> bs, Ok false)
  else if br_probe_in_flight b then (<[group := b]> bs, Err (NotConfigured STEPPED_ASIDE))
  else (<[group := mkBreaker (br_consecutive_failures b) (br_last_failure_at_ms b) true]> bs, Ok true).

Definition finish_attempt (bs : Breakers) (group : str) (probe : bool) : Breakers :=
  if negb probe then bs
  else alter (fun b => mkBreaker (br_consecutive_failures b) (br_last_failure_at_ms b) false) group bs.

(** [breakers.values().filter(|b| b.is_degraded()).count()]. *)
Definition degraded_count (bs : Breakers) : nat :=
  size (filter (fun kv : str * RouteBreaker => breaker_is_degraded kv.2 = true) bs).

Definition publish (old state : ModelGatewayRuntimeState) (now : Z) : ModelGatewayRuntimeState :=
  if is_none (rt_started_at_ms state) && is_listening (rt_status state)
  then {| rt_status := rt_status state; rt_port := rt_port state;
          rt_route_count := rt_route_count state; rt_degraded_routes := rt_degraded_routes state;
          rt_notice := rt_notice state;
          rt_started_at_ms := match rt_started_at_ms old with Some s => Some s | None => Some now end;
          rt_updated_at_ms := rt_updated_at_ms state |}
  else state.

Definition degraded_notice (degraded : nat) (routes : nat) : str :=
  decimal (Z.of_nat degraded) ++ lit " of " ++ decimal (Z.of_nat routes)
  ++ lit " route groups stepped aside after repeated upstream failures: each lets one request through at a time until an upstream answers.".

Definition publish_degraded_routes (state : ModelGatewayRuntimeState) (degraded : nat) (now : Z)
  : ModelGatewayRuntimeState :=
  if negb (is_listening (rt_status state)) then state
  else
    publish state
      {| rt_status := if degraded =? 0 then StatusRunning else StatusDegraded;
         rt_port := rt_port state; rt_route_count := rt_route_count state;
         rt_degraded_routes := degraded;
         rt_notice := if 0 <? degraded
                      then Some (degraded_notice degraded (default 0 (rt_route_count state)))
                      else None;
         rt_started_at_ms := rt_started_at_ms state; rt_updated_at_ms := now |} now.

Definition note_success (s : BreakerState) (group : str) (now : Z) : BreakerState :=
  let bs := <[group := RouteBreaker_default]> (bs_breakers s) in
  mkBreakerState bs (publish_degraded_routes (bs_runtime s) (degraded_count bs) now).

(** The entry of a failed group after the failure. *)
Definition failed_breaker (b : RouteBreaker) (now : Z) : RouteBreaker :=
  let failures :=
    if negb (br_last_failure_at_ms b =? 0)%Z
       && (FAILURE_MEMORY_MS <? i64_saturating_sub now (br_last_failure_at_ms b))%Z
    then 1%Z
    else u64_saturating_add (br_consecutive_failures b) 1 in
  mkBreaker failures now (br_probe_in_flight b).

Definition note_failure (s : BreakerState) (group : str) (now : Z) : BreakerState :=
  let b := failed_breaker (breaker_entry (bs_breakers s) group) now in
  let bs := <[group := b]> (bs_breakers s) in
  if (br_consecutive_failures b <? DEGRADE_AFTER_FAILURES)%Z
  then mkBreakerState bs (bs_runtime s)
  else mkBreakerState bs (publish_degraded_routes (bs_runtime s) (degraded_count bs) now).

Definition is_degraded (s : BreakerState) : bool := 0 <? rt_degraded_routes (bs_runtime s).
Definition group_is_degraded (s : BreakerState) (group : str) : bool :=
  match bs_breakers s !! group with Some b => breaker_is_degraded b | None => false end.

(** The state part of [shutdown]. *)
Definition shutdown (s : BreakerState) (now : Z) : BreakerState :=
  let r := bs_runtime s in
  mkBreakerState (bs_breakers s)
    (publish r
      {| rt_status := StatusUnavailable; rt_port := None; rt_route_count := rt_route_count r;
         rt_degraded_routes := rt_degraded_routes r;
         rt_notice := Some (lit "The gateway is stopped");
         rt_started_at_ms := rt_started_at_ms r; rt_updated_at_ms := rt_updated_at_ms r |} now).

Inductive breaker_op : Type :=
| OpBegin (group : str)
| OpFinish (group : str) (probe : bool)
| OpNoteSuccess (group : str) (now : Z)
| OpNoteFailure (group : str) (now : Z).

Definition op_group (op : breaker_op) : str :=
  match op with
  | OpBegin g | OpFinish g _ | OpNoteSuccess g _ | OpNoteFailure g _ => g
  end.

Definition breaker_step (s : BreakerState) (op : breaker_op) : BreakerState :=
  match op with
  | OpBegin g => mkBreakerState (begin_attempt (bs_breakers s) g).1 (bs_runtime s)
  | OpFinish g probe => mkBreakerState (finish_attempt (bs_breakers s) g probe) (bs_runtime s)
  | OpNoteSuccess g now => note_success s g now
  | OpNoteFailure g now => note_failure s g now
  end.
Definition breaker_run (ops : list breaker_op) (s : BreakerState) : BreakerState :=
  foldl breaker_step s ops.

(** The answer a new request for [group] would get. *)
Definition admits (s : BreakerState) (group : str) : GatewayResult bool :=
  (begin_attempt (bs_breakers s) group).2.

(** ** Requests in flight *)

Record GatewayInflight : Type := mkInflight {
  if_request_id : ident;
  if_profile_id : ident;
  if_attempt : Z;
  if_first_token_at_ms : option Z
}.

Definition note_inflight (table : list GatewayInflight) (entry : GatewayInflight)
  : list GatewayInflight :=
  let table := retain (fun e => negb (bool_decide (if_request_id e = if_request_id entry))) table
               ++ [entry] in
  drop (length table - MAX_INFLIGHT) table.

Fixpoint note_first_token (table : list GatewayInflight) (request : ident) (at_ms : Z)
  : list GatewayInflight :=
  match table with
  | [] => []
  | e :: table =>
    if bool_decide (if_request_id e = request) then
      match if_first_token_at_ms e with
      | Some _ => e :: table
      | None => mkInflight (if_request_id e) (if_profile_id e) (if_attempt e) (Some at_ms) :: table
      end
    else e :: note_first_token table request at_ms
  end.

Definition note_finished (table : list GatewayInflight) (request : ident) : list GatewayInflight :=
  retain (fun e => negb (bool_decide (if_request_id e = request))) table.

(** * Theorems *)

(** ** Isolation *)

Lemma breaker_step_other s op g :
  op_group op <> g -> bs_breakers (breaker_step s op) !! g = bs_breakers s !! g.
Proof.
  intros Hne. destruct op as [h|h []|h now|h now]; simpl in *.
  - unfold begin_attempt. repeat case_match; simpl; by rewrite lookup_insert_ne.
  - unfold finish_attempt. cbn [negb]. by rewrite lookup_alter_ne.
  - done.
  - by rewrite lookup_insert_ne.
  - unfold note_failure. cbv zeta. case_match; simpl; by rewrite lookup_insert_ne.
Qed.

Lemma breaker_run_other ops s g :
  Forall (fun op => op_group op <> g) ops -> bs_breakers (breaker_run ops s) !! g = bs_breakers s !! g.
Proof.
  revert s. induction ops as [|op ops IH]; intros s H; [done|]. inversion_clear H. simpl.
  unfold breaker_run in *. simpl. rewrite IH by done. by apply breaker_step_other.
Qed.

Lemma admits_lookup s s' g : bs_breakers s !! g = bs_breakers s' !! g -> admits s g = admits s' g.
Proof. unfold admits, begin_attempt, breaker_entry. intros ->. by repeat case_match. Qed.

(** A healthy group does not pay for a neighbour: whatever happens to other
    groups, the answer a group gives its next request is unchanged. *)
Theorem groups_are_isolated (ops : list breaker_op) (s : BreakerState) (g : str) :
  Forall (fun op => op_group op <> g) ops -> admits (breaker_run ops s) g = admits s g.
Proof. intros H. by apply admits_lookup, breaker_run_other. Qed.

(** ** Opening and closing *)

(** The failures of one group, each within the memory of the one before. *)
Fixpoint in_memory (last : Z) (times : list Z) : Prop :=
  match times with
  | [] => True
  | t :: times => (last < t)%Z /\ (t - last <= FAILURE_MEMORY_MS)%Z /\ in_i64 t /\ in_memory t times
  end.

Lemma failed_breaker_counts b now :
  (br_last_failure_at_ms b = 0%Z \/ now - br_last_failure_at_ms b <= FAILURE_MEMORY_MS)%Z ->
  (0 <= br_last_failure_at_ms b <= now)%Z -> in_i64 now ->
  br_consecutive_failures (failed_breaker b now) =
    u64_saturating_add (br_consecutive_failures b) 1 /\
  br_last_failure_at_ms (failed_breaker b now) = now.
Proof.
  intros H Hr Hi. unfold failed_breaker. cbn [br_consecutive_failures br_last_failure_at_ms].
  split; [|done].
  destruct (Z.eqb_spec (br_last_failure_at_ms b) 0) as [|Hz]; [done|]. simpl.
  destruct (Z.ltb_spec FAILURE_MEMORY_MS (i64_saturating_sub now (br_last_failure_at_ms b))); [|done].
  unfold FAILURE_MEMORY_MS in *. int_lia.
Qed.

Lemma failures_lookup g times s :
  let b := breaker_entry (bs_breakers s) g in
  (0 <= br_consecutive_failures b)%Z -> (0 <= br_last_failure_at_ms b)%Z ->
  (br_consecutive_failures b + Z.of_nat (length times) <= u64_max)%Z ->
  in_memory (br_last_failure_at_ms b) times \/
    (br_last_failure_at_ms b = 0%Z /\ match times with
     | [] => True | t :: times => (0 < t)%Z /\ in_i64 t /\ in_memory t times end) ->
  br_consecutive_failures
    (breaker_entry (bs_breakers (breaker_run (OpNoteFailure g <$> times) s)) g) =
  (br_consecutive_failures b + Z.of_nat (length times))%Z.
Proof.
  cbv zeta. revert s. induction times as [|t times IH]; intros s H0 Hl Hmax Hm; [simpl; lia|].
  assert (Hstep : breaker_entry (bs_breakers (breaker_step s (OpNoteFailure g t))) g =
    failed_breaker (breaker_entry (bs_breakers s) g) t).
  { cbn [breaker_step]. unfold note_failure, breaker_entry. cbv zeta.
    destruct (_ <? DEGRADE_AFTER_FAILURES)%Z; cbn [bs_breakers]; by rewrite lookup_insert_eq. }
  change (breaker_run (OpNoteFailure g <$> t :: times) s)
    with (breaker_run (OpNoteFailure g <$> times) (breaker_step s (OpNoteFailure g t))).
  destruct (failed_breaker_counts (breaker_entry (bs_breakers s) g) t) as [Hc Ht].
  { destruct Hm as [Hm|[? _]]; [right; simpl in Hm; lia|by left]. }
  { destruct Hm as [Hm|[-> Hm]]; simpl in Hm; lia. }
  { destruct Hm as [Hm|[_ Hm]]; simpl in Hm; tauto. }
  assert (Hsat : br_consecutive_failures (failed_breaker (breaker_entry (bs_breakers s) g) t) =
    (br_consecutive_failures (breaker_entry (bs_breakers s) g) + 1)%Z).
  { rewrite Hc. cbn [length] in Hmax. unfold u64_saturating_add. lia. }
  cbn [length] in *. rewrite IH; rewrite Hstep; rewrite ?Hsat, ?Ht; try lia.
  - destruct Hm as [Hm|[? Hm]]; simpl in Hm; lia.
  - left. destruct Hm as [Hm|[_ Hm]]; simpl in Hm; tauto.
Qed.

(** A group steps aside after exactly three failed requests that follow each
    other within two minutes, and one success makes it serve again. *)
Theorem breaker_opens_after_three (s : BreakerState) (g : str) (t1 t2 t3 now : Z) :
  bs_breakers s !! g = None ->
  (0 < t1 < t2)%Z -> (t2 < t3)%Z -> (t2 - t1 <= FAILURE_MEMORY_MS)%Z ->
  (t3 - t2 <= FAILURE_MEMORY_MS)%Z -> in_i64 t3 ->
  group_is_degraded (breaker_run [OpNoteFailure g t1; OpNoteFailure g t2] s) g = false /\
  group_is_degraded (breaker_run [OpNoteFailure g t1; OpNoteFailure g t2; OpNoteFailure g t3] s) g
    = true /\
  admits (breaker_run [OpNoteFailure g t1; OpNoteFailure g t2; OpNoteFailure g t3;
                       OpNoteSuccess g now] s) g = Ok false.
Proof.
  intros Hn H1 H2 H3 H4 Hi.
  assert (Hdef : breaker_entry (bs_breakers s) g = RouteBreaker_default)
    by (unfold breaker_entry; by rewrite Hn).
  assert (Hdeg : forall s', group_is_degraded s' g =
    breaker_is_degraded (breaker_entry (bs_breakers s') g)).
  { intros s'. unfold group_is_degraded, breaker_entry. by destruct (bs_breakers s' !! g). }
  rewrite !Hdeg. unfold breaker_is_degraded. split_and!.
  - change [OpNoteFailure g t1; OpNoteFailure g t2] with (OpNoteFailure g <$> [t1; t2]).
    rewrite (failures_lookup g [t1; t2] s); rewrite Hdef; simpl; try lia.
    + done.
    + unfold u64_max. lia.
    + right. unfold in_i64, i64_min, i64_max in *. repeat split; lia.
  - change [OpNoteFailure g t1; OpNoteFailure g t2; OpNoteFailure g t3]
      with (OpNoteFailure g <$> [t1; t2; t3]).
    rewrite (failures_lookup g [t1; t2; t3] s); rewrite Hdef; simpl; try lia.
    + done.
    + unfold u64_max. lia.
    + right. unfold in_i64, i64_min, i64_max in *. repeat split; lia.
  - change (breaker_run _ s) with
      (note_success (breaker_run [OpNoteFailure g t1; OpNoteFailure g t2; OpNoteFailure g t3] s) g now).
    generalize (breaker_run [OpNoteFailure g t1; OpNoteFailure g t2; OpNoteFailure g t3] s) as s3.
    intros s3. unfold admits, begin_attempt, note_success, breaker_entry. cbn [bs_breakers].
    by rewrite lookup_insert_eq.
Qed.

(** ** The probe slot *)

(** [g] is degraded and its probe slot is taken. *)
Definition probe_taken (s : BreakerState) (g : str) : Prop :=
  exists b, bs_breakers s !! g = Some b /\ breaker_is_degraded b = true /\
            br_probe_in_flight b = true.

Lemma probe_taken_refuses s g : probe_taken s g -> admits s g = Err (NotConfigured STEPPED_ASIDE).
Proof.
  intros (b & Hb & Hd & Hp). unfold admits, begin_attempt, breaker_entry. rewrite Hb.
  change (default _ (Some b)) with b. by rewrite Hd, Hp.
Qed.

Lemma begin_claims s g :
  admits s g = Ok true -> probe_taken (breaker_step s (OpBegin g)) g.
Proof.
  unfold admits, begin_attempt, probe_taken. cbn [breaker_step bs_breakers].
  unfold begin_attempt. destruct (breaker_is_degraded _) eqn:Ed; [|done].
  destruct (br_probe_in_flight _); [done|]. intros _. simpl.
  exists (mkBreaker (br_consecutive_failures (breaker_entry (bs_breakers s) g))
    (br_last_failure_at_ms (breaker_entry (bs_breakers s) g)) true).
  rewrite lookup_insert_eq. by split_and!.
Qed.

(** An operation other requests may make while the probe is out: a begin of
    the same group, or anything on another group. *)
Definition leaves_probe (g : str) (op : breaker_op) : Prop := op = OpBegin g \/ op_group op <> g.

Lemma leaves_probe_step s g op :
  probe_taken s g -> leaves_probe g op -> probe_taken (breaker_step s op) g.
Proof.
  intros (b & Hb & Hd & Hp) [->|Hne]; exists b.
  - cbn [breaker_step bs_breakers]. unfold begin_attempt, breaker_entry. rewrite Hb.
    change (default _ (Some b)) with b. rewrite Hd, Hp. cbn [negb fst]. by rewrite lookup_insert_eq.
  - by rewrite breaker_step_other.
Qed.

(** While the request that claimed a degraded group's slot is out, every other
    request for the group is refused, in any interleaving.  The refusals do not
    count as failures, so when that request is dropped before it reports, the
    group stays closed. *)
Theorem one_probe_at_a_time (s : BreakerState) (g : str) (ops : list breaker_op) :
  admits s g = Ok true -> Forall (leaves_probe g) ops ->
  admits (breaker_run ops (breaker_step s (OpBegin g))) g = Err (NotConfigured STEPPED_ASIDE) /\
  blames_upstream (NotConfigured STEPPED_ASIDE) = false.
Proof.
  intros Ha Hops. split; [|done]. apply probe_taken_refuses.
  assert (Hp : probe_taken (breaker_step s (OpBegin g)) g) by (by apply begin_claims).
  revert Hp. generalize (breaker_step s (OpBegin g)) as s'. clear Ha s.
  induction Hops as [|op ops Hop _ IH]; intros s Hp; [done|].
  apply IH. by apply leaves_probe_step.
Qed.

(** Releasing an earlier probe frees the slot a later one holds: after a
    success and three new failures two requests can be out at once. *)
Theorem stale_release_admits_second_probe :
  exists (ops : list breaker_op) (g : str),
    let run := fun n => breaker_run (take n ops) (mkBreakerState ∅ (RuntimeState_running 0 0 1)) in
    admits (run 3) g = Ok true /\ ops !! 3 = Some (OpBegin g) /\
    admits (run 8) g = Ok true /\ ops !! 8 = Some (OpBegin g) /\
    Forall (fun op => op <> OpFinish g true) (take 9 ops) /\ ops !! 9 = Some (OpFinish g true) /\
    admits (run 10) g = Ok true.
Proof.
  exists [OpNoteFailure (lit "g") 1; OpNoteFailure (lit "g") 2; OpNoteFailure (lit "g") 3;
          OpBegin (lit "g"); OpNoteSuccess (lit "g") 4;
          OpNoteFailure (lit "g") 5; OpNoteFailure (lit "g") 6; OpNoteFailure (lit "g") 7;
          OpBegin (lit "g"); OpFinish (lit "g") true], (lit "g").
  cbv zeta. split_and!; try (vm_compute; reflexivity).
  repeat constructor; done.
Qed.

(** ** The published state *)

(** The published counter covers the degraded groups, and the status says
    whether it is zero. *)
Definition runtime_covers (s : BreakerState) : Prop :=
  (is_listening (rt_status (bs_runtime s)) = true ->
   degraded_count (bs_breakers s) <= rt_degraded_routes (bs_runtime s)) /\
  (rt_status (bs_runtime s) = StatusDegraded <->
   is_listening (rt_status (bs_runtime s)) = true /\ 0 < rt_degraded_routes (bs_runtime s)).

Definition degraded_in (bs : Breakers) (g : str) : bool :=
  match bs !! g with Some b => breaker_is_degraded b | None => false end.

Lemma degraded_count_mono bs bs' :
  (forall g, degraded_in bs' g = true -> degraded_in bs g = true) ->
  degraded_count bs' <= degraded_count bs.
Proof.
  intros H. unfold degraded_count. rewrite <- !size_dom. apply subseteq_size. intros g.
  rewrite !elem_of_dom. intros [b [Hb Hd]%map_lookup_filter_Some]. simpl in Hd.
  specialize (H g). unfold degraded_in in H. rewrite Hb in H. specialize (H Hd).
  destruct (bs !! g) as [b'|] eqn:E; [|done]. exists b'. by apply map_lookup_filter_Some.
Qed.

Lemma publish_status old state now :
  rt_status (publish old state now) = rt_status state /\
  rt_degraded_routes (publish old state now) = rt_degraded_routes state.
Proof. unfold publish. by case_match. Qed.

Lemma publish_covers bs r now :
  runtime_covers (mkBreakerState bs (publish_degraded_routes r (degraded_count bs) now)).
Proof.
  unfold publish_degraded_routes, runtime_covers. cbn [bs_runtime bs_breakers].
  destruct (is_listening (rt_status r)) eqn:El; cbn [negb].
  - match goal with |- context [publish ?o ?s ?n] => destruct (publish_status o s n) as [-> ->] end.
    cbn [rt_status rt_degraded_routes]. split; [done|].
    destruct (Nat.eqb_spec (degraded_count bs) 0) as [->|]; split; try done.
    + intros [_ ?]. lia.
    + intros _. split; [done|lia].
  - split; [congruence|]. split; [intros Hd; by rewrite Hd in El|by intros [? _]; congruence].
Qed.

Lemma covers_mono bs bs' r :
  (forall g, degraded_in bs' g = true -> degraded_in bs g = true) ->
  runtime_covers (mkBreakerState bs r) -> runtime_covers (mkBreakerState bs' r).
Proof.
  intros H [Hc Hs]. split; [|done]. cbn [bs_breakers bs_runtime] in *. intros Hl.
  specialize (Hc Hl). pose proof (degraded_count_mono _ _ H). lia.
Qed.

Lemma breaker_step_covers s op : runtime_covers s -> runtime_covers (breaker_step s op).
Proof.
  destruct s as [bs r]. intros H. destruct op as [g|g probe|g now|g now]; cbn [breaker_step].
  - apply (covers_mono bs); [|done]. intros h. unfold degraded_in, begin_attempt, breaker_entry.
    destruct (decide (g = h)) as [->|Hne].
    + cbn [bs_breakers]. destruct (bs !! h) as [b|]; cbn [default].
      * repeat case_match; simpl in *; simplify_eq; rewrite ?lookup_insert_eq in *; simplify_eq; done.
      * simpl. by rewrite lookup_insert_eq.
    + repeat case_match; simpl in *; simplify_eq; rewrite ?lookup_insert_ne in * by done; congruence.
  - apply (covers_mono bs); [|done]. intros h. unfold degraded_in, finish_attempt.
    destruct probe; cbn [negb bs_breakers]; [|done]. destruct (decide (g = h)) as [->|Hne].
    + rewrite lookup_alter_eq. by destruct (bs !! h).
    + by rewrite lookup_alter_ne.
  - apply publish_covers.
  - unfold note_failure. cbv zeta. destruct (Z.ltb_spec (br_consecutive_failures
      (failed_breaker (breaker_entry (bs_breakers (mkBreakerState bs r)) g) now)) DEGRADE_AFTER_FAILURES).
    + apply (covers_mono bs); [|done]. intros h. unfold degraded_in. destruct (decide (g = h)) as [->|Hne].
      * rewrite lookup_insert_eq. unfold breaker_is_degraded. intros Hd%Z.leb_le. lia.
      * by rewrite lookup_insert_ne.
    + apply publish_covers.
Qed.

(** The published counter never understates the groups that stepped aside,
    and while the gateway listens the status is [degraded] exactly when the
    counter is positive, after any interleaving of requests. *)
Theorem published_state_covers (ops : list breaker_op) (s : BreakerState) :
  runtime_covers s -> runtime_covers (breaker_run ops s).
Proof.
  revert s. induction ops as [|op ops IH]; intros s H; [done|]. by apply IH, breaker_step_covers.
Qed.

(** The other direction fails: the failure that falls outside the memory
    window closes the group's breaker without publishing, so the state keeps
    saying [degraded] with no group aside. *)
Theorem published_state_overstates :
  exists ops : list breaker_op,
    let s := breaker_run ops (mkBreakerState ∅ (RuntimeState_running 0 0 1)) in
    degraded_count (bs_breakers s) = 0 /\ rt_status (bs_runtime s) = StatusDegraded /\
    rt_degraded_routes (bs_runtime s) = 1.
Proof.
  exists [OpNoteFailure (lit "g") 1; OpNoteFailure (lit "g") 2; OpNoteFailure (lit "g") 3;
          OpNoteFailure (lit "g") 120004].
  by vm_compute.
Qed.
