(* ===== verification/ModelResolve.v ===== *)
(** How a request finds its members: model ids against namespaces and route
    groups, the snapshot the router reads, the classifier's target, the members
    of one turn in attempt order, and the key a conversation pins to
    (crates/model-gateway/src/route.rs and src/service.rs). *)
From stdpp Require Import prelude strings list sorting.
From Stdlib Require Import NArith ZArith Lia.
From S2P Require Import Prelude CoreTypes GatewayTypes RouteModel Capabilities GatewayErrors Ir.
From S2P Require Import Upstream MemberPlan.

(** ** Model ids against namespaces (route.rs) *)

Record ModelNamespace : Type := mkNamespace {
  ns_profile : ident;
  ns_alias : str;
  ns_models : list str
}.

Inductive ResolvedModel : Type :=
| ResolvedRoute (route_id requested : str)
| ResolvedQualified (profile : ident) (model : str)
| ResolvedBare (profile : ident) (model : str)
| ResolvedAmbiguous (candidates : list ident) (model : str)
| ResolvedNotFound (requested : str) (closest : list str).

Definition ResolvedModel_model (r : ResolvedModel) : str :=
  match r with
  | ResolvedRoute _ requested => requested
  | ResolvedQualified _ model | ResolvedBare _ model | ResolvedAmbiguous _ model => model
  | ResolvedNotFound requested _ => requested
  end.
Definition ResolvedModel_profile (r : ResolvedModel) : option ident :=
  match r with
  | ResolvedQualified profile _ | ResolvedBare profile _ => Some profile
  | _ => None
  end.
Definition ResolvedModel_route_id (r : ResolvedModel) : option str :=
  match r with ResolvedRoute route_id _ => Some route_id | _ => None end.

Fixpoint common_prefix_len (l r : str) : nat :=
  match l, r with
  | a :: l, b :: r => if bool_decide (a = b) then S (common_prefix_len l r) else 0
  | _, _ => 0
  end.

Definition closest_score (candidate needle : str) : Z :=
  if str_contains candidate needle || str_contains needle candidate then 2
  else if 3 <=? common_prefix_len candidate needle then 1 else 0.

(** [to_lowercase] is the Unicode case mapping of the standard library. *)
Definition closest_models (to_lowercase : str -> str) (requested : str)
  (namespaces : list ModelNamespace) : list str :=
  let needle := to_lowercase (mr_model (GatewayModelRef_parse requested)) in
  let scored := namespaces ≫= fun namespace => omap (fun model =>
    let score := closest_score (to_lowercase model) needle in
    if (0 <? score)%Z then Some (score, ns_alias namespace ++ [slash] ++ model) else None)
    (ns_models namespace) in
  take 3 (snd <$> sort_by_key (fun s => (- s.1)%Z :: (Z.of_N <$> s.2)) scored).

Definition serves_prefix (prefix : str) (n : ModelNamespace) : bool :=
  bool_decide (ns_profile n = prefix) || bool_decide (ns_alias n = prefix).
Definition serves_model (model : str) (n : ModelNamespace) : bool :=
  bool_decide (model ∈ ns_models n).

Definition resolve_model (to_lowercase : str -> str) (requested : str)
  (namespaces : list ModelNamespace) : ResolvedModel :=
  let parsed := GatewayModelRef_parse requested in
  match mr_provider parsed with
  | Some prefix =>
    match retain (serves_prefix prefix) namespaces with
    | [n] => ResolvedQualified (ns_profile n) (mr_model parsed)
    | _ => ResolvedNotFound requested (closest_models to_lowercase requested namespaces)
    end
  | None =>
    match ns_profile <$> retain (serves_model (mr_model parsed)) namespaces with
    | [] => ResolvedNotFound requested (closest_models to_lowercase requested namespaces)
    | [profile] => ResolvedBare profile (mr_model parsed)
    | candidates => ResolvedAmbiguous candidates (mr_model parsed)
    end
  end.

Definition dash : N := 45%N.

(** One character of [provider_alias]: the alias so far and whether it ends in
    a dash. *)
Definition alias_step (acc : str * bool) (c : N) : str * bool :=
  if is_ascii_alphanumeric c then (acc.1 ++ [ascii_to_lower c], false)
  else if negb acc.2 && negb (is_empty acc.1) then (acc.1 ++ [dash], true)
  else acc.
Definition provider_alias (display_name : str) : str :=
  let alias := trim_end_matches (N.eqb dash) (foldl alias_step ([], false) display_name).1 in
  if is_empty alias then lit "provider" else alias.

(** ** The snapshot (service.rs) *)

Record GatewayGroupModel : Type := mkGroupModel {
  gm_model : str;
  gm_providers : list ident
}.

Record GatewayRouteGroup : Type := mkGroup {
  gg_group_id : str;
  gg_display_name : str;
  gg_strategy : RouteStrategy;
  gg_key_strategy : GatewayRoutingStrategy;
  gg_first_token_timeout_ms : option Z;
  gg_pin : GatewayPinScope;
  gg_failover : GatewayFailover;
  gg_token_limit : option GatewayTokenLimit;
  gg_providers : list RouteMemberRef;
  gg_models : list GatewayGroupModel;
  gg_agent_model_id : option str;
  gg_rules : list ModelRouteRule;
  gg_classifier : option str;
  gg_effort : option str;
  gg_patience_ms : option Z;
  gg_sink : bool;
  gg_unlists : bool;
  gg_levels : list str;
  gg_pick_member_id : option ident
}.

(** [groups] is a BTreeMap: the entries in the order of their keys. *)
Record GatewaySnapshot : Type := mkSnapshot {
  sn_settings : ModelGatewaySettings;
  sn_upstreams : list GatewayUpstream;
  sn_gateway_used_tokens : Z;
  sn_groups : list (str * GatewayRouteGroup)
}.

Record GatewayModelEntry : Type := mkModelEntry {
  me_id : str;
  me_model : str;
  me_provider : ident;
  me_provider_name : str
}.

Definition group_model_ref_id (g : GatewayRouteGroup) (model : str) : str :=
  ROUTE_GROUP_MODEL_PREFIX ++ gg_group_id g ++ [slash] ++ model.

Definition model_of (g : GatewayRouteGroup) (requested : str) : option str :=
  match route_group_model_ref requested with
  | Some parsed =>
    if bool_decide (gr_group_id parsed = gg_group_id g) then Some (gr_model_id parsed) else None
  | None => None
  end.

Definition find_model (g : GatewayRouteGroup) (model : str) : option GatewayGroupModel :=
  List.find (fun entry => bool_decide (gm_model entry = model)) (gg_models g).
Definition providers_for (g : GatewayRouteGroup) (model : str) : list ident :=
  match find_model g model with Some entry => gm_providers entry | None => [] end.

(** The base model of [<model>-high], [-medium] or [-low]. *)
Definition strip_level (model suffix : str) : option str :=
  match strip_suffix suffix model with
  | Some base => if is_empty base then None else Some base
  | None => None
  end.
Fixpoint find_map {A B} (f : A -> option B) (l : list A) : option B :=
  match l with
  | [] => None
  | x :: l => match f x with Some y => Some y | None => find_map f l end
  end.
Definition LEVEL_SUFFIXES : list str := [lit "-high"; lit "-medium"; lit "-low"].
Definition reasoning_variant_base (model : str) : option str :=
  find_map (strip_level model) LEVEL_SUFFIXES.

Definition group_for_model (sn : GatewaySnapshot) (requested : str)
  : option (GatewayRouteGroup * str) :=
  match route_group_model_ref requested with
  | None => None
  | Some parsed =>
    match btree_get (gr_group_id parsed) (sn_groups sn) with
    | None => None
    | Some group =>
      match find_model group (gr_model_id parsed) with
      | Some model => Some (group, gm_model model)
      | None =>
        match reasoning_variant_base (gr_model_id parsed) with
        | None => None
        | Some base => (fun model => (group, gm_model model)) <$> find_model group base
        end
      end
    end
  end.

Definition upstream_of (sn : GatewaySnapshot) (profile : ident) : option GatewayUpstream :=
  List.find (fun u => bool_decide (up_profile_id u = profile)) (sn_upstreams sn).
Definition models_by_upstream (sn : GatewaySnapshot) (profile : ident) : list str :=
  match upstream_of sn profile with Some u => up_models u | None => [] end.

(** The group and model of each catalogue entry. *)
Definition listed_models (sn : GatewaySnapshot) : list (GatewayRouteGroup * GatewayGroupModel) :=
  (snd <$> sn_groups sn) ≫= fun group =>
    if gg_unlists group || gg_sink group then [] else pair group <$> gg_models group.

(** [model_catalog]; [fresh i] is the id the [i]-th entry generates. *)
Definition model_catalog (fresh : nat -> ident) (sn : GatewaySnapshot) : list GatewayModelEntry :=
  imap (fun i (e : GatewayRouteGroup * GatewayGroupModel) =>
    {| me_id := group_model_ref_id e.1 (gm_model e.2); me_model := gm_model e.2;
       me_provider := fresh i; me_provider_name := gg_display_name e.1 |}) (listed_models sn).
Definition catalog_ids (sn : GatewaySnapshot) : list str :=
  (fun e => group_model_ref_id e.1 (gm_model e.2)) <$> listed_models sn.

(** The alias an upstream is addressed by: its short name, unless two share it. *)
Definition upstream_alias (ups : list GatewayUpstream) (u : GatewayUpstream) : str :=
  let aliases := (fun u => (up_profile_id u, provider_alias (up_display_name u))) <$> ups in
  let alias := match List.find (fun a => bool_decide (a.1 = up_profile_id u)) aliases with
               | Some (_, alias) => alias
               | None => up_profile_id u
               end in
  if 1 <? length (retain (fun a => bool_decide (a.2 = alias)) aliases)
  then up_profile_id u else alias.
Definition model_namespaces (sn : GatewaySnapshot) : list ModelNamespace :=
  (fun u => {| ns_profile := up_profile_id u; ns_alias := upstream_alias (sn_upstreams sn) u;
               ns_models := up_models u |}) <$> sn_upstreams sn.

(** ** The groups of a snapshot *)

Record ModelProviderCatalogEntry : Type := mkCatalogEntry { ce_id : str; ce_enabled : bool }.
(** The fields of a Provider Profile that group building reads. *)
Record ModelProviderProfile : Type := mkProfile {
  pp_id : ident;
  pp_display_name : str;
  pp_configured_models : list ModelProviderCatalogEntry;
  pp_model_aliases : list ProviderModelAlias
}.
Abbreviation Profiles := (list (ident * ModelProviderProfile)).

Definition member_is_served (profile : ModelProviderProfile) (model : str) : bool :=
  let model := trim model in
  if is_empty (pp_configured_models profile) then negb (is_empty model)
  else existsb (fun entry =>
    ce_enabled entry
    && (bool_decide (ce_id entry = model)
        || existsb (fun a => bool_decide (al_alias a = model) && bool_decide (al_upstream a = ce_id entry))
             (pp_model_aliases profile))) (pp_configured_models profile).

Definition member_ref (profiles : Profiles) (member : ModelRouteMember) (model : str)
  : option RouteMemberRef :=
  (fun profile =>
    {| mm_member_id := Some (rm_id member); mm_profile := pp_id profile; mm_model := model;
       mm_reasoning_effort := rm_reasoning_effort member;
       mm_weight := Z.max (rm_weight member) DEFAULT_MEMBER_WEIGHT;
       mm_context_tokens := rm_context_tokens member;
       mm_first_token_timeout_ms := rm_first_token_timeout_ms member |})
  <$> btree_get (rm_profile_id member) profiles.

Definition group_key_strategy (s : RouteStrategy) : GatewayRoutingStrategy :=
  match s with
  | Ordered | LowestLatency | Weighted | Manual => KeyOrdered
  | RoundRobin => KeyRoundRobin
  | LeastUsed | Smart => KeyLeastUsed
  end.

Definition route_served (profiles : Profiles) (member : ModelRouteMember) : bool :=
  match btree_get (rm_profile_id member) profiles with
  | Some profile => member_is_served profile (rm_model_id member)
  | None => false
  end.

(** The members of a route the router may call, in the route's order. *)
Definition group_members (profiles : Profiles) (route : ModelRoute) : list RouteMemberRef :=
  omap (fun m => member_ref profiles m (trim (rm_model_id m)))
    (retain (route_served profiles) (enabled_members route)).

Definition build_group (profiles : Profiles) (route : ModelRoute)
  : option (str * GatewayRouteGroup) :=
  match agent_model route with
  | None => None
  | Some agent_model_id =>
    let providers := group_members profiles route in
    if is_empty providers then None
    else
      let serving := foldl push_new [] (mm_profile <$> providers) in
      Some (mr_id route,
        {| gg_group_id := mr_id route; gg_display_name := mr_display_name route;
           gg_strategy := mr_strategy route;
           gg_key_strategy := group_key_strategy (mr_strategy route);
           gg_first_token_timeout_ms := mr_first_token_timeout_ms route;
           gg_pin := mr_pin route; gg_failover := mr_failover route;
           gg_token_limit := mr_token_limit route; gg_providers := providers;
           gg_models := [mkGroupModel agent_model_id serving];
           gg_agent_model_id := Some agent_model_id; gg_rules := mr_rules route;
           gg_classifier := mr_classifier route; gg_effort := mr_effort route;
           gg_patience_ms := mr_patience_ms route; gg_sink := mr_sink route;
           gg_unlists := mr_unlists route; gg_levels := mr_levels route;
           gg_pick_member_id := mr_pick_member_id route |})
  end.

(** [BTreeMap::insert] and [collect]: the entries stay in key order and a later
    value replaces an earlier one. *)
Fixpoint btree_insert {V} (k : str) (v : V) (m : list (str * V)) : list (str * V) :=
  match m with
  | [] => [(k, v)]
  | (k', v') :: m =>
    if bool_decide (k = k') then (k, v) :: m
    else if str_le k k' then (k, v) :: (k', v') :: m
    else (k', v') :: btree_insert k v m
  end.
Definition btree_collect {V} (l : list (str * V)) : list (str * V) :=
  foldl (fun m e => btree_insert e.1 e.2 m) [] l.

Definition build_groups (profiles : Profiles) (routes : list ModelRoute)
  : list (str * GatewayRouteGroup) :=
  btree_collect (omap (build_group profiles)
    (retain (fun r => via_gateway (mr_kind r)) routes)).

(** ** The classifier's target *)

Definition classifier_provider (classifier : str) (route : ModelRoute) (profiles : Profiles)
  : option ident :=
  let classifier := trim classifier in
  match List.find (fun m => bool_decide (rm_id m = classifier)) (mr_members route) with
  | Some member => Some (rm_profile_id member)
  | None =>
    match split_once slash classifier with
    | None => None
    | Some (prefix, _) =>
      pp_id <$> List.find (fun p => bool_decide (pp_id p = prefix)
                                    || bool_decide (provider_alias (pp_display_name p) = prefix))
                  (snd <$> profiles)
    end
  end.

Definition resolve_classifier_target (sn : GatewaySnapshot) (group : GatewayRouteGroup)
  (classifier : str) : option (ident * str) :=
  let classifier := trim classifier in
  match List.find (fun m => bool_decide (mm_member_id m = Some classifier)) (gg_providers group) with
  | Some member => Some (mm_profile member, mm_model member)
  | None =>
    match split_once slash classifier with
    | None => None
    | Some (prefix, model) =>
      let model := trim model in
      if is_empty model then None
      else
        match List.find (fun u => bool_decide (up_profile_id u = prefix)
                || bool_decide (provider_alias (up_display_name u) = prefix)) (sn_upstreams sn) with
        | None => None
        | Some upstream =>
          let model :=
            match List.find (fun a => bool_decide (al_alias a = model)) (up_model_aliases upstream) with
            | Some alias => al_upstream alias
            | None => model
            end in
          if negb (is_empty (up_models upstream)) && negb (bool_decide (model ∈ up_models upstream))
          then None else Some (up_profile_id upstream, model)
        end
    end
  end.

(** The Providers a snapshot reads: every enabled member of a gateway route,
    and the Provider its classifier names. *)
Definition referenced_step (profiles : Profiles) (acc : list ident) (route : ModelRoute) : list ident :=
  if negb (via_gateway (mr_kind route)) then acc
  else
    let acc := foldl (fun acc m => push_new acc (rm_profile_id m)) acc (enabled_members route) in
    match mr_classifier route with
    | None => acc
    | Some classifier =>
      match classifier_provider classifier route profiles with
      | Some profile_id => push_new acc profile_id
      | None => acc
      end
    end.
Definition referenced (profiles : Profiles) (routes : list ModelRoute) : list ident :=
  foldl (referenced_step profiles) [] routes.

(** ** The members of one turn *)

Definition resolved_group_id (model : str) : option str :=
  gr_group_id <$> route_group_model_ref model.
Definition bare_model_name (requested : str) : str :=
  match route_group_model_ref requested with
  | Some parsed => gr_model_id parsed
  | None => requested
  end.

(** [header name] is the header's value as text, and the clock is the local
    weekday and minute. *)
Definition header_value (header : str -> option str) (name : str) : option str :=
  match header name with
  | Some value => if is_empty (trim value) then None else Some (trim value)
  | None => None
  end.
Definition route_rule_context (request : CanonicalRequest) (agent_id : option str)
  (header : str -> option str) (intent : option str) (weekday minute : Z) : RouteRuleContext :=
  {| rc_agent_id := agent_id;
     rc_context_tokens := Some (estimate_request_tokens request);
     rc_has_images := request_has_images request;
     rc_requested_effort := rr_effort (cr_reasoning request);
     rc_compact := match header_value header (lit "x-vibex-compact") with
                   | Some value => eq_ignore_ascii_case value (lit "true")
                   | None => false
                   end;
     rc_intent := match intent with
                  | Some intent => Some intent
                  | None => header_value header (lit "x-vibex-intent")
                  end;
     rc_workspace_root := header_value header (lit "x-vibex-workspace");
     rc_local_weekday := Some weekday;
     rc_local_minute := Some minute |}.

Record ResolvedMember : Type := mkResolved {
  rs_profile : ident;
  rs_model : str;
  rs_reasoning_effort : option str;
  rs_first_token_timeout_ms : option Z;
  rs_key_strategy : GatewayRoutingStrategy
}.

Definition or_else {A} (a b : option A) : option A := match a with Some _ => a | None => b end.

Definition set_effort (effort : str) (m : RouteMemberRef) : RouteMemberRef :=
  {| mm_member_id := mm_member_id m; mm_profile := mm_profile m; mm_model := mm_model m;
     mm_reasoning_effort := Some effort; mm_weight := mm_weight m;
     mm_context_tokens := mm_context_tokens m;
     mm_first_token_timeout_ms := mm_first_token_timeout_ms m |}.

(** A matched rule's part of the plan: its order, and its effort on the first. *)
Definition apply_rule (rule : ModelRouteRule) (plans : list RouteMemberRef) : list RouteMemberRef :=
  match ru_use_effort rule, reorder_for_rule plans rule with
  | Some effort, first :: rest => set_effort (trim effort) first :: rest
  | _, plans => plans
  end.

(** The decision before any rule is read. *)
Definition strategy_decision (group : GatewayRouteGroup) (intent forced_effort : option str)
  : GatewayRouteDecisionTrace :=
  {| dt_rule_index := None; dt_rule_id := None;
     dt_reason := if bool_decide (gg_strategy group = Manual) then Some (lit "manual") else None;
     dt_classifier := None; dt_classifier_error := None; dt_intent := intent;
     dt_effort := forced_effort;
     dt_strategy := if bool_decide (gg_strategy group = Ordered) then None
                    else Some (RouteStrategy_id (gg_strategy group));
     dt_patience_ms := gg_patience_ms group; dt_retries := 0 |}.
Definition rule_decision (index : nat) (rule : ModelRouteRule) (d : GatewayRouteDecisionTrace)
  : GatewayRouteDecisionTrace :=
  {| dt_rule_index := Some index; dt_rule_id := Some (ru_id rule); dt_reason := Some (lit "rule");
     dt_classifier := dt_classifier d; dt_classifier_error := dt_classifier_error d;
     dt_intent := dt_intent d;
     dt_effort := or_else (trim <$> ru_use_effort rule) (dt_effort d);
     dt_strategy := dt_strategy d; dt_patience_ms := dt_patience_ms d; dt_retries := dt_retries d |}.

Definition finish_members (group : GatewayRouteGroup) (pinned : option ident)
  (forced_effort : option str) (plans : list RouteMemberRef) : list ResolvedMember :=
  (fun m => {| rs_profile := mm_profile m; rs_model := mm_model m;
               rs_reasoning_effort := or_else (mm_reasoning_effort m) forced_effort;
               rs_first_token_timeout_ms :=
                 or_else (mm_first_token_timeout_ms m) (gg_first_token_timeout_ms group);
               rs_key_strategy := gg_key_strategy group |}) <$> hoist_pinned plans pinned.

Definition group_model_ids (g : GatewayRouteGroup) : list str :=
  (fun entry => group_model_ref_id g (gm_model entry)) <$> gg_models g.

(** What the ids offered instead are when no group answers. *)
Definition closest_ids (sn : GatewaySnapshot) (requested : str) : list str :=
  match route_group_model_ref requested with
  | None => catalog_ids sn
  | Some parsed =>
    match btree_get (gr_group_id parsed) (sn_groups sn) with
    | Some group => group_model_ids group
    | None => catalog_ids sn
    end
  end.

Definition pause_reason (index : nat) : str :=
  lit "rule " ++ decimal (Z.of_nat (index + 1)) ++ lit " paused routing for this request".

(** [resolve_members]: [context] is [route_rule_context] of the request,
    [rotation] the counter's value and [observations] what is known of each
    upstream. *)
Definition resolve_members (sn : GatewaySnapshot) (requested : str) (context : RouteRuleContext)
  (pinned : option ident) (intent forced_effort : option str) (rotation : Z)
  (observations : Observations)
  : GatewayResult (list ResolvedMember * GatewayRouteDecisionTrace) :=
  match group_for_model sn requested with
  | None => Err (ModelNotFound requested (closest_ids sn requested))
  | Some (group, _) =>
    reject (is_empty (gg_providers group)) with (ModelNotFound requested (group_model_ids group)) ;;
    let plans := plan_members (gg_providers group) (gg_strategy group) rotation observations
                   (gg_pick_member_id group) in
    let decision := strategy_decision group intent forced_effort in
    match first_matching_rule (gg_rules group) context with
    | None => Ok (finish_members group pinned forced_effort plans, decision)
    | Some (index, rule) =>
      reject (ru_pause rule) with (RoutePaused (gg_display_name group) (pause_reason index)) ;;
      Ok (finish_members group pinned forced_effort (apply_rule rule plans),
          rule_decision index rule decision)
    end
  end.

(** ** What [prepare] decides before the members (service.rs) *)

Definition route_group_of (sn : GatewaySnapshot) (model : str) : option GatewayRouteGroup :=
  match resolved_group_id model with
  | Some id => btree_get id (sn_groups sn)
  | None => None
  end.

(** The group's ceiling stands instead of the gateway's. *)
Definition token_ceiling (sn : GatewaySnapshot) (model : str) : option Z :=
  let route_limit := match route_group_of sn model with
                     | Some group => gg_token_limit group
                     | None => None
                     end in
  tl_tokens <$> or_else route_limit (gp_token_limit (gs_policy (sn_settings sn))).
Definition check_ceiling (sn : GatewaySnapshot) (model : str) : GatewayResult unit :=
  match token_ceiling sn model with
  | Some tokens =>
    if (tokens <=? sn_gateway_used_tokens sn)%Z
    then Err (TokenCeilingReached (gs_display_name (sn_settings sn)))
    else Ok tt
  | None => Ok tt
  end.

Definition pin_scope (sn : GatewaySnapshot) (model : str) : GatewayPinScope :=
  match route_group_of sn model with Some group => gg_pin group | None => PinOff end.

(** The conversation a turn pins, and the live pin it finds under that key. *)
Definition pinned_conversation (scope : GatewayPinScope) (key : option str) : option str :=
  if bool_decide (scope = PinConversation) then key else None.
Definition live_pin (lookup : str -> option GatewayConversationPin) (conversation : option str)
  (now : Z) : option (ident * ident) :=
  match conversation with
  | None => None
  | Some key =>
    match lookup key with
    | Some pin => if pin_is_live_at pin now then Some (pin_profile_id pin, pin_credential_id pin) else None
    | None => None
    end
  end.

(** ** The key a conversation pins to (route.rs) *)

Definition hex_byte (b : N) : str :=
  let digit := fun n : N => if (n <? 10)%N then (48 + n)%N else (87 + n)%N in
  [digit (b / 16)%N; digit (b mod 16)%N].

(** What the digest of a conversation is taken over. *)
Definition conversation_material (agent_id : option str) (material : str) : list N :=
  as_bytes (default [] agent_id) ++ [0%N] ++ as_bytes material.
Definition stable_conversation_key (sha256 : list N -> list N) (agent_id : option str)
  (material : str) : str :=
  take 12 (sha256 (conversation_material agent_id material)) ≫= hex_byte.

Definition get_or (v : json) (keys : list str) : option json := find_map (fun k => json_get k v) keys.

Definition part_text (part : json) : option str :=
  match json_get (lit "text") part with Some t => json_as_str t | None => None end.

(** The text of one message when it is a user's and has any. *)
Definition user_text (item : json) : option str :=
  let role := default (lit "user")
    (match json_get (lit "role") item with Some r => json_as_str r | None => None end) in
  if bool_decide (role = lit "assistant") || bool_decide (role = lit "model") then None
  else
    let text :=
      match get_or item [lit "content"; lit "parts"] with
      | Some (JString text) => Some text
      | Some (JArray parts) => Some (concat (omap part_text parts))
      | _ => None
      end in
    match text with
    | Some text => if is_empty (trim text) then None else Some text
    | None => None
    end.

Definition first_user_message (body : json) : option str :=
  match get_or body [lit "messages"; lit "contents"; lit "input"] with
  | Some items => match json_as_array items with Some items => find_map user_text items | None => None end
  | None => None
  end.

Definition SESSION_HEADERS : list str :=
  [lit "x-vibex-session"; lit "x-session-id"; lit "session_id"; lit "conversation_id"].
Definition session_header (headers : list (str * str)) (header : str) : option str :=
  match List.find (fun h => eq_ignore_ascii_case h.1 header) headers with
  | Some (_, value) =>
    let value := trim value in
    if negb (is_empty value) && (utf8_len value <=? 256) then Some value else None
  | None => None
  end.

Definition pipe : str := lit "|".

(** The key of a request that names no thread of its own: a session header, or
    the prompt, the tools and the first user message.  [to_string] is
    serde_json's text of a value and [sha256] the digest. *)
Definition conversation_key_of (sha256 : list N -> list N) (to_string : json -> str)
  (agent_id : option str) (headers : list (str * str)) (body : json) : option str :=
  match find_map (session_header headers) SESSION_HEADERS with
  | Some value => Some (stable_conversation_key sha256 agent_id value)
  | None =>
    let system := match get_or body [lit "system"; lit "instructions"] with
                  | Some v => to_string v
                  | None => []
                  end in
    let tools := match json_get (lit "tools") body with Some v => to_string v | None => [] end in
    match first_user_message body with
    | None => None
    | Some first_user =>
      Some (stable_conversation_key sha256 agent_id
        (default [] agent_id ++ pipe ++ system ++ pipe ++ tools ++ pipe ++ first_user))
    end
  end.

Definition conversation_key (sha256 : list N -> list N) (to_string : json -> str)
  (agent_id : option str) (headers : list (str * str)) (body : json) : option str :=
  let thread := match json_get (lit "prompt_cache_key") body with
                | Some v => json_as_str v
                | None => None
                end in
  match thread with
  | Some key =>
    if negb (is_empty (trim key)) then Some (stable_conversation_key sha256 agent_id key)
    else conversation_key_of sha256 to_string agent_id headers body
  | None => conversation_key_of sha256 to_string agent_id headers body
  end.

(** * Theorems *)

(** ** Aliases *)

Definition alias_char (c : N) : bool := is_ascii_lower c || is_ascii_digit c || bool_decide (c = dash).

Lemma alias_step_chars acc c :
  Forall (fun c => alias_char c = true) acc.1 ->
  Forall (fun c => alias_char c = true) (alias_step acc c).1.
Proof.
  intros H. unfold alias_step. destruct (is_ascii_alphanumeric c) eqn:E; simpl.
  - apply Forall_app. split; [done|]. apply Forall_singleton.
    unfold is_ascii_alphanumeric in E. unfold alias_char, ascii_to_lower.
    destruct (is_ascii_upper c) eqn:Eu; cbn [orb] in E.
    + replace (is_ascii_lower (c + 32)) with true; [done|]. symmetry.
      unfold is_ascii_upper, is_ascii_lower in *.
      apply andb_true_iff in Eu as [H1%N.leb_le H2%N.leb_le].
      apply andb_true_iff. split; apply N.leb_le; lia.
    + destruct (is_ascii_lower c), (is_ascii_digit c); done.
  - destruct (negb acc.2 && _); [|done]. simpl. apply Forall_app. split; [done|].
    by apply Forall_singleton.
Qed.

Lemma provider_alias_chars name : Forall (fun c => alias_char c = true) (provider_alias name).
Proof.
  unfold provider_alias. cbv zeta. destruct (is_empty _).
  { apply Forall_forall. intros c Hc.
    assert (Hall : forallb alias_char (lit "provider") = true) by reflexivity.
    rewrite forallb_Forall, Forall_forall in Hall. by apply Hall. }
  assert (H : forall acc, Forall (fun c => alias_char c = true) acc.1 ->
    Forall (fun c => alias_char c = true) (foldl alias_step acc name).1).
  { induction name as [|c name IH]; intros acc Ha; [done|]. simpl. by apply IH, alias_step_chars. }
  specialize (H ([], false) (Forall_nil_2 _)).
  destruct (trim_end_matches_prefix (N.eqb dash) (foldl alias_step ([], false) name).1) as [suf Hs].
  rewrite Hs in H. by apply Forall_app in H as [H _].
Qed.

Lemma provider_alias_not_in name c : alias_char c = false -> c ∉ provider_alias name.
Proof.
  intros Hc Hin. pose proof (provider_alias_chars name) as H. rewrite Forall_forall in H.
  specialize (H c Hin). congruence.
Qed.

Lemma provider_alias_nonempty name : provider_alias name <> [].
Proof. unfold provider_alias. cbv zeta. destruct (is_empty _) eqn:E; [done|]. by apply is_empty_false. Qed.

(** A Provider id: the prefix, an underscore, and no slash. *)
Definition provider_id_ok (id : ident) : Prop :=
  (exists s, id = lit "model_provider_" ++ s) /\ slash ∉ id.

Lemma provider_id_not_alias id name : provider_id_ok id -> id <> provider_alias name.
Proof.
  intros [(s & ->) _] H. apply (provider_alias_not_in name 95%N); [done|]. rewrite <- H.
  apply elem_of_app. left. cbv. set_solver.
Qed.

Lemma upstream_alias_cases ups u :
  NoDup (up_profile_id <$> ups) -> u ∈ ups ->
  upstream_alias ups u = up_profile_id u \/
  (upstream_alias ups u = provider_alias (up_display_name u) /\
   forall v, v ∈ ups -> provider_alias (up_display_name v) = provider_alias (up_display_name u) -> v = u).
Proof.
  intros Hd Hu. unfold upstream_alias.
  set (aliases := (fun u => (up_profile_id u, provider_alias (up_display_name u))) <$> ups).
  assert (Hfst : aliases.*1 = up_profile_id <$> ups).
  { unfold aliases. rewrite <- list_fmap_compose. by apply list_fmap_ext. }
  assert (Hin : forall v, v ∈ ups -> (up_profile_id v, provider_alias (up_display_name v)) ∈ aliases).
  { intros v Hv. apply list_elem_of_fmap. by exists v. }
  rewrite (find_unique fst aliases (up_profile_id u, provider_alias (up_display_name u)))
    by (rewrite ?Hfst; auto).
  destruct (Nat.ltb_spec 1 (length (retain (fun a => bool_decide
    (a.2 = provider_alias (up_display_name u))) aliases))) as [|Hle]; [by left|right].
  split; [done|]. intros v Hv Heq.
  assert ((up_profile_id v, provider_alias (up_display_name v)) =
          (up_profile_id u, provider_alias (up_display_name u))) as [= Hpid _].
  { apply (length_le_1 _ _ _ Hle); apply elem_of_retain; split; auto; by apply bool_decide_eq_true. }
  pose proof (find_unique up_profile_id ups u Hd Hu) as Hf. rewrite <- Hpid in Hf.
  rewrite (find_unique up_profile_id ups v Hd Hv) in Hf. congruence.
Qed.

Lemma upstream_alias_ok ups u :
  NoDup (up_profile_id <$> ups) -> Forall (fun v => provider_id_ok (up_profile_id v)) ups -> u ∈ ups ->
  slash ∉ upstream_alias ups u /\ upstream_alias ups u <> [].
Proof.
  intros Hd Hok Hu. rewrite Forall_forall in Hok. destruct (Hok u Hu) as [(s & Hs) Hn].
  destruct (upstream_alias_cases ups u Hd Hu) as [->|[-> _]].
  - split; [done|]. by rewrite Hs.
  - split; [by apply provider_alias_not_in|apply provider_alias_nonempty].
Qed.

(** A prefix that names one upstream only qualifies its models. *)
Lemma resolve_prefix (to_lowercase : str -> str) (sn : GatewaySnapshot) (u : GatewayUpstream)
  (model prefix : str) :
  let ups := sn_upstreams sn in
  NoDup (up_profile_id <$> ups) -> u ∈ ups -> model <> [] -> slash ∉ prefix -> prefix <> [] ->
  serves_prefix prefix (mkNamespace (up_profile_id u) (upstream_alias ups u) (up_models u)) = true ->
  (forall v, v ∈ ups -> up_profile_id v = prefix \/ upstream_alias ups v = prefix -> v = u) ->
  resolve_model to_lowercase (prefix ++ slash :: model) (model_namespaces sn) =
    ResolvedQualified (up_profile_id u) model.
Proof.
  intros ups Hd Hu Hm Hs Hne Hp Huniq. unfold resolve_model, GatewayModelRef_parse.
  rewrite split_once_app by done.
  replace (negb (is_empty prefix) && negb (is_empty model)) with true by (by destruct prefix, model).
  cbn [mr_provider mr_model].
  rewrite (retain_unique _ _ (mkNamespace (up_profile_id u) (upstream_alias ups u) (up_models u))).
  - done.
  - apply (NoDup_fmap_1 ns_profile). unfold model_namespaces. fold ups.
    rewrite <- list_fmap_compose. exact Hd.
  - apply list_elem_of_fmap. by exists u.
  - done.
  - intros n (v & -> & Hv)%list_elem_of_fmap Hn. rewrite (Huniq v); [done|done|].
    unfold serves_prefix in Hn. apply orb_true_iff in Hn.
    by destruct Hn as [Hn%bool_decide_eq_true|Hn%bool_decide_eq_true]; [left|right].
Qed.

(** The id a listing publishes for an upstream's model resolves to that
    upstream, even when display names collide. *)
Theorem listed_upstream_resolves (to_lowercase : str -> str) (sn : GatewaySnapshot)
  (u : GatewayUpstream) (model : str) :
  NoDup (up_profile_id <$> sn_upstreams sn) ->
  Forall (fun v => provider_id_ok (up_profile_id v)) (sn_upstreams sn) ->
  u ∈ sn_upstreams sn -> model <> [] ->
  resolve_model to_lowercase (upstream_alias (sn_upstreams sn) u ++ slash :: model)
    (model_namespaces sn) = ResolvedQualified (up_profile_id u) model /\
  resolve_model to_lowercase (up_profile_id u ++ slash :: model) (model_namespaces sn) =
    ResolvedQualified (up_profile_id u) model.
Proof.
  intros Hd Hok Hu Hm.
  pose proof (fun prefix => resolve_prefix to_lowercase sn u model prefix Hd Hu Hm) as Hone.
  set (ups := sn_upstreams sn) in *.
  rewrite Forall_forall in Hok.
  assert (Hsame : forall v, v ∈ ups -> up_profile_id v = up_profile_id u -> v = u).
  { intros v Hv Heq. pose proof (find_unique up_profile_id ups v Hd Hv) as H1.
    rewrite Heq, (find_unique up_profile_id ups u Hd Hu) in H1. congruence. }
  assert (Hprof : forall v, v ∈ ups -> up_profile_id v = up_profile_id u \/
    upstream_alias ups v = up_profile_id u -> v = u).
  { intros v Hv [Heq|Heq]; [by apply Hsame|].
    destruct (upstream_alias_cases ups v Hd Hv) as [Ha|[Ha _]].
    - apply Hsame; congruence.
    - rewrite Ha in Heq. symmetry in Heq. by apply provider_id_not_alias in Heq; [|apply Hok]. }
  destruct (Hok u Hu) as [(s & Hs) Hn].
  split; apply Hone.
  - by apply upstream_alias_ok; [|apply Forall_forall|].
  - by apply upstream_alias_ok; [|apply Forall_forall|].
  - apply orb_true_iff. right. by apply bool_decide_eq_true.
  - destruct (upstream_alias_cases ups u Hd Hu) as [->|[Ha Huniq]]; [done|].
    rewrite Ha. intros v Hv [Heq|Heq].
    + by apply provider_id_not_alias in Heq; [|apply Hok].
    + destruct (upstream_alias_cases ups v Hd Hv) as [Hb|[Hb _]].
      * rewrite Hb in Heq. by apply provider_id_not_alias in Heq; [|apply Hok].
      * apply Huniq; [done|congruence].
  - done.
  - by rewrite Hs.
  - apply orb_true_iff. left. by apply bool_decide_eq_true.
  - exact Hprof.
Qed.

(** ** Groups *)

Definition str_lt (a b : str) : Prop := str_le a b = true /\ a <> b.

Lemma str_le_antisym a b : str_le a b = true -> str_le b a = true -> a = b.
Proof. intros H1 H2. apply (inj (fmap Z.of_N)). by apply lex_le_antisym. Qed.

Lemma str_lt_trans a b c : str_lt a b -> str_lt b c -> str_lt a c.
Proof.
  intros [H1 Hn1] [H2 Hn2]. split; [by eapply lex_le_trans|]. intros ->. by apply Hn1, str_le_antisym.
Qed.

Lemma str_lt_flip a b : str_le a b = false -> str_lt b a.
Proof.
  intros H. unfold str_lt. destruct (lex_le_total (Z.of_N <$> a) (Z.of_N <$> b)) as [E|E].
  - unfold str_le in H. congruence.
  - split; [done|]. intros ->. unfold str_le in H. by rewrite lex_le_refl in H.
Qed.

Lemma btree_insert_keys {V} k (v : V) m x :
  x ∈ (btree_insert k v m).*1 <-> x = k \/ x ∈ m.*1.
Proof.
  induction m as [|[k' v'] m IH]; simpl; [by rewrite list_elem_of_singleton, elem_of_nil; tauto|].
  destruct (decide (k = k')) as [->|Hne].
  - rewrite bool_decide_eq_true_2 by done. csimpl. rewrite !elem_of_cons. tauto.
  - rewrite bool_decide_eq_false_2 by done. destruct (str_le k k'); csimpl;
      rewrite !elem_of_cons, ?IH; tauto.
Qed.

Lemma btree_insert_sorted {V} k (v : V) m :
  StronglySorted str_lt m.*1 -> StronglySorted str_lt (btree_insert k v m).*1.
Proof.
  induction m as [|[k' v'] m IH]; csimpl; intros Hs; [by repeat constructor|].
  apply StronglySorted_inv in Hs as [Hs Hf]. rewrite Forall_forall in Hf.
  destruct (decide (k = k')) as [->|Hne].
  - rewrite bool_decide_eq_true_2 by done. constructor; [done|by apply Forall_forall].
  - rewrite bool_decide_eq_false_2 by done. destruct (str_le k k') eqn:E; csimpl.
    + constructor; [constructor; [done|by apply Forall_forall]|constructor; [done|]].
      apply Forall_forall. intros x Hx. apply (str_lt_trans _ k'); [done|by apply Hf].
    + constructor; [by apply IH|]. apply Forall_forall. intros x [->|Hx]%btree_insert_keys.
      * by apply str_lt_flip.
      * by apply Hf.
Qed.

Lemma btree_insert_elem {V} k (v : V) m e : e ∈ btree_insert k v m -> e = (k, v) \/ e ∈ m.
Proof.
  induction m as [|[k' v'] m IH]; simpl; [by rewrite list_elem_of_singleton; left|].
  destruct (bool_decide (k = k')); [rewrite !elem_of_cons; tauto|].
  destruct (str_le k k'); rewrite !elem_of_cons; tauto.
Qed.

Lemma btree_collect_facts {V} (l : list (str * V)) :
  StronglySorted str_lt (btree_collect l).*1 /\ (forall e, e ∈ btree_collect l -> e ∈ l).
Proof.
  unfold btree_collect.
  assert (Hgen : forall m, StronglySorted str_lt m.*1 ->
    StronglySorted str_lt (foldl (fun m (e : str * V) => btree_insert e.1 e.2 m) m l).*1 /\
    forall e, e ∈ foldl (fun m (e : str * V) => btree_insert e.1 e.2 m) m l -> e ∈ l \/ e ∈ m).
  { induction l as [|[k v] l IH]; intros m Hm; simpl; [split; [done|]; by right|].
    destruct (IH (btree_insert k v m)) as [H1 H2]; [by apply btree_insert_sorted|].
    split; [done|]. intros e [He|[->|He]%btree_insert_elem]%H2; rewrite elem_of_cons; tauto. }
  destruct (Hgen [] ltac:(constructor)) as [H1 H2]. split; [done|].
  intros e [He|He%not_elem_of_nil]%H2; done.
Qed.

Lemma btree_get_elem {V} (m : list (str * V)) k v :
  StronglySorted str_lt m.*1 -> (k, v) ∈ m -> btree_get k m = Some v.
Proof.
  intros Hs Hin. unfold btree_get.
  assert (Hd : NoDup m.*1).
  { clear Hin. induction m as [|[k' v'] m IH]; csimpl in *; [constructor|].
    apply StronglySorted_inv in Hs as [Hs Hf]. constructor; [|by apply IH].
    rewrite Forall_forall in Hf. intros Hx. by destruct (Hf k' Hx) as [_ []]. }
  by rewrite (find_unique fst m (k, v)).
Qed.

(** A route the router serves: saved, of a gateway kind, under an id that can
    be a path segment. *)
Definition served_route (r : ModelRoute) : Prop :=
  ModelRoute_validate r = Ok tt /\ route_id_ok (mr_id r).

Lemma build_group_model profiles r k g :
  served_route r -> via_gateway (mr_kind r) = true -> build_group profiles r = Some (k, g) ->
  k = mr_id r /\ gg_group_id g = k /\ gg_providers g = group_members profiles r /\
  gg_providers g <> [] /\
  exists m ps, agent_model r = Some m /\ gg_models g = [mkGroupModel m ps] /\
    trim m = m /\ m <> [] /\ slash ∉ m.
Proof.
  intros [Hv Hid] Hk Hb. rewrite route_validate_ok in Hv. pose proof (ro_group r Hv) as Hg.
  replace (is_model_group r) with true in Hg
    by (unfold is_model_group; by destruct (mr_kind r)).
  destruct (gv_model r Hg) as (m & Hm & _ & Hs). unfold build_group in Hb. rewrite Hm in Hb.
  cbv zeta in Hb. destruct (is_empty (group_members profiles r)) eqn:E; [done|].
  injection Hb as <- <-. apply is_empty_false in E. cbn. split_and!; try done.
  eexists m, _. split_and!; try done.
  - unfold agent_model in Hm. destruct (mr_agent_model_id r) as [a|]; [|done].
    destruct (is_empty (trim a)); [done|]. injection Hm as <-. apply trim_idem.
  - unfold agent_model in Hm. destruct (mr_agent_model_id r) as [a|]; [|done].
    destruct (is_empty (trim a)) eqn:Ea; [done|]. injection Hm as <-. by apply is_empty_false.
Qed.

Lemma strip_suffix_app m suffix : strip_suffix suffix (m ++ suffix) = Some m.
Proof. unfold strip_suffix. by rewrite reverse_app, strip_prefix_app; simpl; rewrite reverse_involutive. Qed.

Lemma variant_base m suffix :
  m <> [] -> suffix ∈ LEVEL_SUFFIXES -> reasoning_variant_base (m ++ suffix) = Some m.
Proof.
  intros Hm Hs. unfold reasoning_variant_base, LEVEL_SUFFIXES in *.
  assert (Hok : strip_level (m ++ suffix) suffix = Some m)
    by (unfold strip_level; rewrite strip_suffix_app; by destruct m).
  repeat (apply elem_of_cons in Hs as [->|Hs]); [..|by apply not_elem_of_nil in Hs];
    cbn [find_map]; try (by rewrite Hok).
  - replace (strip_level (m ++ lit "-medium") (lit "-high")) with (@None str)
      by (unfold strip_level, strip_suffix; by rewrite reverse_app). by rewrite Hok.
  - replace (strip_level (m ++ lit "-low") (lit "-high")) with (@None str)
      by (unfold strip_level, strip_suffix; by rewrite reverse_app).
    replace (strip_level (m ++ lit "-low") (lit "-medium")) with (@None str)
      by (unfold strip_level, strip_suffix; by rewrite reverse_app). by rewrite Hok.
Qed.

Definition snapshot_of (settings : ModelGatewaySettings) (ups : list GatewayUpstream) (used : Z)
  (profiles : Profiles) (routes : list ModelRoute) : GatewaySnapshot :=
  mkSnapshot settings ups used (build_groups profiles routes).

Lemma build_groups_elem profiles routes k g :
  (k, g) ∈ build_groups profiles routes ->
  btree_get k (build_groups profiles routes) = Some g /\
  exists r, r ∈ routes /\ via_gateway (mr_kind r) = true /\ build_group profiles r = Some (k, g).
Proof.
  intros H. destruct (btree_collect_facts (omap (build_group profiles)
    (retain (fun r => via_gateway (mr_kind r)) routes))) as [Hs He].
  split; [by apply btree_get_elem|].
  apply He in H as (r & Hr & Hb)%list_elem_of_omap. apply elem_of_retain in Hr as [Hr Hk]. by exists r.
Qed.

Lemma group_answers sn k g m ps :
  btree_get k (sn_groups sn) = Some g -> route_id_ok k -> gg_group_id g = k ->
  gg_models g = [mkGroupModel m ps] -> trim m = m -> m <> [] ->
  group_for_model sn (group_model_ref_id g m) = Some (g, m) /\
  forall suffix, suffix ∈ LEVEL_SUFFIXES ->
    group_for_model sn (group_model_ref_id g m ++ suffix) = Some (g, m).
Proof.
  intros Hget Hid Hg Hm Ht Hne. unfold group_for_model, group_model_ref_id, find_model. rewrite Hg.
  split.
  - rewrite route_group_model_ref_intro by done. cbn [gr_group_id gr_model_id].
    rewrite Hget, Hm. cbn. by rewrite bool_decide_eq_true_2.
  - intros suffix Hs.
    assert (Hlast : forall c, last suffix = Some c -> is_whitespace c = false).
    { unfold LEVEL_SUFFIXES in Hs.
      repeat (apply elem_of_cons in Hs as [->|Hs]); [..|by apply not_elem_of_nil in Hs];
        by intros c [= <-]. }
    assert (Hlen : suffix <> []).
    { intros ->. unfold LEVEL_SUFFIXES in Hs. rewrite !elem_of_cons in Hs.
      destruct Hs as [Hs|[Hs|[Hs|Hs%not_elem_of_nil]]]; done. }
    replace ((ROUTE_GROUP_MODEL_PREFIX ++ k ++ [slash] ++ m) ++ suffix)
      with (ROUTE_GROUP_MODEL_PREFIX ++ k ++ [slash] ++ (m ++ suffix)) by (by rewrite <- !(assoc (++))).
    rewrite route_group_model_ref_intro; [|done|by apply trim_app|by destruct m].
    cbn [gr_group_id gr_model_id]. rewrite Hget, Hm. cbn [List.find gm_model].
    rewrite bool_decide_eq_false_2.
    + rewrite variant_base by done. cbn. by rewrite bool_decide_eq_true_2.
    + intros Heq. apply (f_equal length) in Heq. rewrite length_app in Heq.
      destruct suffix; [done|]. simpl in Heq. lia.
Qed.

(** Every id the catalogue lists reaches its own group and model, also with the
    depth an Agent appends to it, and the group has a member to call. *)
Theorem catalogue_is_reachable (settings : ModelGatewaySettings) (ups : list GatewayUpstream)
  (used : Z) (profiles : Profiles) (routes : list ModelRoute) (fresh : nat -> ident)
  (e : GatewayModelEntry) :
  Forall served_route routes ->
  let sn := snapshot_of settings ups used profiles routes in
  e ∈ model_catalog fresh sn ->
  exists g, group_for_model sn (me_id e) = Some (g, me_model e) /\
    (forall suffix, suffix ∈ LEVEL_SUFFIXES ->
       group_for_model sn (me_id e ++ suffix) = Some (g, me_model e)) /\
    gg_unlists g = false /\ gg_sink g = false /\ gg_providers g <> [].
Proof.
  intros Hok sn (i & [g gm] & -> & He)%elem_of_lookup_imap. simpl in *.
  apply list_elem_of_lookup_2, list_elem_of_bind in He as (g' & He & Hg').
  apply list_elem_of_fmap in Hg' as ([k g''] & -> & Hg'). cbn [snd] in He.
  destruct (gg_unlists g'' || gg_sink g'') eqn:Eu; [by apply not_elem_of_nil in He|].
  apply orb_false_iff in Eu as [Eu Es].
  apply list_elem_of_fmap in He as (gm' & [= -> ->] & Hgm).
  destruct (build_groups_elem _ _ _ _ Hg') as (Hget & r & Hr & Hk & Hb).
  rewrite Forall_forall in Hok. pose proof (Hok r Hr) as Hs.
  destruct (build_group_model _ _ _ _ Hs Hk Hb) as (Hkid & Hgid & _ & Hne & m & ps & _ & Hms & Ht & Hmne & _).
  rewrite Hms in Hgm. apply list_elem_of_singleton in Hgm as ->. cbn [gm_model].
  destruct (group_answers sn k g'' m ps) as [H1 H2]; try done.
  { rewrite Hkid. apply Hs. }
  by exists g''.
Qed.

(** Every source of a served group is an enabled member of its route whose
    Provider is enabled and serves the member's model. *)
Theorem group_sources_are_served (profiles : Profiles) (routes : list ModelRoute)
  (k : str) (g : GatewayRouteGroup) (s : RouteMemberRef) :
  (k, g) ∈ build_groups profiles routes -> s ∈ gg_providers g ->
  exists r member profile, r ∈ routes /\ mr_id r = k /\ via_gateway (mr_kind r) = true /\
    member ∈ mr_members r /\ rm_enabled member = true /\
    btree_get (rm_profile_id member) profiles = Some profile /\
    member_is_served profile (rm_model_id member) = true /\
    mm_member_id s = Some (rm_id member) /\ mm_profile s = pp_id profile /\
    mm_model s = trim (rm_model_id member) /\ (1 <= mm_weight s)%Z.
Proof.
  intros Hg Hs. destruct (build_groups_elem _ _ _ _ Hg) as (_ & r & Hr & Hk & Hb).
  assert (mr_id r = k /\ gg_providers g = group_members profiles r) as [Hid Hp].
  { unfold build_group in Hb. destruct (agent_model r); [|done]. cbv zeta in Hb.
    destruct (is_empty _); [done|]. by injection Hb as <- <-. }
  rewrite Hp in Hs. unfold group_members in Hs.
  apply list_elem_of_omap in Hs as (member & Hm & Href). apply elem_of_retain in Hm as [Hm Hserved].
  apply elem_of_retain in Hm as [Hm Hen]. unfold route_served in Hserved. unfold member_ref in Href.
  destruct (btree_get (rm_profile_id member) profiles) as [profile|] eqn:E; [|done].
  injection Href as <-. exists r, member, profile. cbn. unfold DEFAULT_MEMBER_WEIGHT.
  split_and!; try done. lia.
Qed.

(** ** The members of one turn *)

Definition source_of (m : RouteMemberRef) : ident * str := (mm_profile m, mm_model m).
Definition resolved_source (m : ResolvedMember) : ident * str := (rs_profile m, rs_model m).

Lemma finish_members_sources group pinned forced plans :
  resolved_source <$> finish_members group pinned forced plans ≡ₚ source_of <$> plans.
Proof.
  unfold finish_members. rewrite <- list_fmap_compose.
  transitivity (source_of <$> hoist_pinned plans pinned); [apply eq_Permutation; by apply list_fmap_ext|].
  by rewrite hoist_pinned_perm.
Qed.

Lemma finish_members_head group p forced plans m :
  m ∈ plans -> mm_profile m = p ->
  exists first, head (finish_members group (Some p) forced plans) = Some first /\ rs_profile first = p.
Proof.
  intros Hm Hp. destruct (hoist_pinned_head plans p m Hm Hp) as (x & Hx & Hxp).
  unfold finish_members. destruct (hoist_pinned plans (Some p)) as [|y l]; [done|].
  injection Hx as ->. csimpl. eexists. by split.
Qed.

Lemma apply_rule_sources rule plans :
  NoDup (mm_member_id <$> plans) -> NoDup (wanted_members rule) ->
  source_of <$> apply_rule rule plans ≡ₚ source_of <$> plans.
Proof.
  intros Hd Hw. destruct (reorder_for_rule_facts plans rule Hd Hw) as [_ Hp].
  unfold apply_rule. destruct (ru_use_effort rule) as [effort|]; [|by rewrite Hp].
  transitivity (source_of <$> reorder_for_rule plans rule); [|by rewrite Hp].
  by destruct (reorder_for_rule plans rule).
Qed.

Lemma sources_elem (l k : list RouteMemberRef) p :
  source_of <$> l ≡ₚ source_of <$> k -> (exists m, m ∈ k /\ mm_profile m = p) ->
  exists m, m ∈ l /\ mm_profile m = p.
Proof.
  intros Hp (m & Hm & Hmp).
  assert (Hin : source_of m ∈ source_of <$> l) by (rewrite Hp; by apply list_elem_of_fmap_2).
  apply list_elem_of_fmap in Hin as (m' & Heq & Hm'). exists m'. split; [done|].
  unfold source_of in Heq. congruence.
Qed.

(** The members a matched rule names, as far as they are planned, in its order. *)
Definition named_by (o : option (nat * ModelRouteRule)) (plans : list RouteMemberRef) : list RouteMemberRef :=
  match o with Some (_, rule) => omap (find_member plans) (wanted_members rule) | None => [] end.
Definition pauses (o : option (nat * ModelRouteRule)) : bool :=
  match o with Some (_, rule) => ru_pause rule | None => false end.

Lemma apply_rule_order rule plans :
  NoDup (mm_member_id <$> plans) -> NoDup (wanted_members rule) ->
  let named := omap (find_member plans) (wanted_members rule) in
  source_of <$> apply_rule rule plans = source_of <$> (named ++ retain (fun m => negb (bool_decide (m ∈ named))) plans).
Proof.
  intros Hd Hw named. destruct (reorder_for_rule_facts plans rule Hd Hw) as [Heq _].
  unfold named. rewrite <- Heq. unfold apply_rule. destruct (ru_use_effort rule); [|done].
  by destruct (reorder_for_rule plans rule).
Qed.

(** Without a pin the members are the planned ones in order. *)
Lemma finish_members_order group forced plans :
  resolved_source <$> finish_members group None forced plans = source_of <$> plans.
Proof. unfold finish_members. rewrite <- list_fmap_compose. by apply list_fmap_ext. Qed.

Lemma decides_wanted rules c i rule :
  Forall (fun r => NoDup (wanted_members r)) rules -> decides rules c (Some (i, rule)) ->
  NoDup (wanted_members rule).
Proof. intros Hr (Hi & _ & _). rewrite Forall_forall in Hr. by apply Hr, list_elem_of_lookup_2 with i. Qed.


(** A manual group whose picked member is switched off plans nothing, although
    the route is valid and its other members could answer. *)
Theorem manual_pick_strands_the_group (sn : GatewaySnapshot) (profiles : Profiles)
  (routes : list ModelRoute) (r : ModelRoute) (picked : ident) (requested k model : str)
  (g : GatewayRouteGroup) (c : RouteRuleContext) (pinned : option ident)
  (intent forced : option str) (rotation : Z) (obs : Observations) :
  build_group profiles r = Some (k, g) -> mr_strategy r = Manual ->
  mr_pick_member_id r = Some picked -> mr_rules r = [] ->
  Forall (fun m => rm_id m = picked -> rm_enabled m = false) (mr_members r) ->
  group_for_model sn requested = Some (g, model) ->
  gg_providers g <> [] /\
  exists d, resolve_members sn requested c pinned intent forced rotation obs = Ok ([], d).
Proof.
  intros Hb Hs Hp Hrules Hoff Hg. unfold build_group in Hb. destruct (agent_model r); [|done].
  cbv zeta in Hb. destruct (is_empty (group_members profiles r)) eqn:E; [done|].
  injection Hb as <- <-. split; [by apply is_empty_false in E|].
  unfold resolve_members. rewrite Hg. cbn [gg_providers gg_rules gg_strategy gg_pick_member_id].
  rewrite E, Hs, Hp, Hrules. cbn [plan_members first_matching_rule position].
  rewrite retain_none; [by eexists; destruct pinned|].
  apply Forall_forall. intros x Hx. apply bool_decide_eq_false. intros Hid.
  apply list_elem_of_omap in Hx as (m & Hm & Href). apply elem_of_retain in Hm as [Hm _].
  apply elem_of_retain in Hm as [Hm Hen].
  unfold member_ref in Href. destruct (btree_get _ _); [|done]. injection Href as <-.
  cbn in Hid. injection Hid as Hid. rewrite Forall_forall in Hoff. specialize (Hoff m Hm Hid). congruence.
Qed.

(** ** The conversation key *)

Lemma find_map_app {A B} (f : A -> option B) l k y :
  find_map f l = Some y -> find_map f (l ++ k) = Some y.
Proof. induction l as [|x l IH]; simpl; [done|]. by destruct (f x). Qed.

Lemma find_map_ext {A B} (f g : A -> option B) l :
  Forall (fun x => f x = g x) l -> find_map f l = find_map g l.
Proof. induction 1 as [|x l Hx _ IH]; simpl; [done|]. by rewrite Hx, IH. Qed.

Lemma get_or_ext body body' keys :
  Forall (fun k => json_get k body' = json_get k body) keys -> get_or body' keys = get_or body keys.
Proof. intros H. apply find_map_ext. done. Qed.

(** A conversation keeps its key: the later turns of a transcript, which repeat
    the earlier messages and append new ones, map to the key of its first turn,
    whatever the thread is named by. *)
Theorem conversation_key_is_stable (sha256 : list N -> list N) (to_string : json -> str)
  (agent_id : option str) (headers : list (str * str)) (body body' : json)
  (field : str) (items later : list json) :
  field ∈ [lit "messages"; lit "contents"; lit "input"] ->
  get_or body [lit "messages"; lit "contents"; lit "input"] = Some (JArray items) ->
  get_or body' [lit "messages"; lit "contents"; lit "input"] = Some (JArray (items ++ later)) ->
  (forall k, k ≠ field -> json_get k body' = json_get k body) ->
  is_Some (first_user_message body) ->
  conversation_key sha256 to_string agent_id headers body' =
    conversation_key sha256 to_string agent_id headers body /\
  is_Some (conversation_key sha256 to_string agent_id headers body).
Proof.
  intros Hf Hb Hb' Hsame [first Hfirst].
  assert (Hne : Forall (fun k => k ≠ field) [lit "prompt_cache_key"; lit "system"; lit "instructions"; lit "tools"]).
  { repeat (apply elem_of_cons in Hf as [->|Hf]); [..|by apply not_elem_of_nil in Hf];
      repeat constructor; done. }
  assert (Hfirst' : first_user_message body' = Some first).
  { unfold first_user_message in *. rewrite Hb in Hfirst. rewrite Hb'. cbn [json_as_array] in *.
    by apply find_map_app. }
  repeat (apply Forall_cons in Hne as [? Hne]).
  assert (Hrest : conversation_key_of sha256 to_string agent_id headers body' =
                  conversation_key_of sha256 to_string agent_id headers body).
  { unfold conversation_key_of. rewrite Hfirst, Hfirst'.
    rewrite (get_or_ext body body' [lit "system"; lit "instructions"])
      by (repeat constructor; by apply Hsame). by rewrite (Hsame (lit "tools")). }
  split.
  - unfold conversation_key. rewrite Hsame, Hrest by done. done.
  - assert (is_Some (conversation_key_of sha256 to_string agent_id headers body)).
    { unfold conversation_key_of. destruct (find_map _ _); [by eexists|]. rewrite Hfirst. by eexists. }
    unfold conversation_key. destruct (match json_get _ _ with Some v => _ | None => _ end) as [key|]; [|done].
    destruct (negb _); [by eexists|done].
Qed.

Lemma utf8_char_not_zero c : c <> 0%N -> 0%N ∉ utf8_char c.
Proof.
  intros Hc. unfold utf8_char.
  repeat match goal with |- context [N.ltb ?a ?b] => destruct (N.ltb_spec a b) end;
    rewrite !not_elem_of_cons; split_and!; try apply not_elem_of_nil;
    try (intros E; by rewrite <- E in Hc);
    match goal with |- 0%N <> (?a + ?b)%N => pose proof (N.le_add_r a b); intros E; rewrite <- E in *; lia end.
Qed.

Lemma as_bytes_not_zero s : 0%N ∉ s -> 0%N ∉ as_bytes s.
Proof.
  intros Hs (c & Hc & Hin)%list_elem_of_bind. apply (utf8_char_not_zero c); [|done]. by intros ->.
Qed.

(** Two Agents share no conversation key by construction: the text the digest
    is taken over determines the Agent and the material, whenever no Agent id
    holds a NUL. *)
Theorem conversation_material_separates_agents (a a' : option str) (m m' : str) :
  0%N ∉ default [] a -> 0%N ∉ default [] a' ->
  conversation_material a m = conversation_material a' m' ->
  as_bytes (default [] a) = as_bytes (default [] a') /\ as_bytes m = as_bytes m'.
Proof.
  intros Ha Ha' Heq. unfold conversation_material in Heq. simpl in Heq.
  pose proof (split_once_app 0%N _ (as_bytes m) (as_bytes_not_zero _ Ha)) as H1.
  pose proof (split_once_app 0%N _ (as_bytes m') (as_bytes_not_zero _ Ha')) as H2.
  rewrite Heq, H2 in H1. by injection H1 as -> ->.
Qed.
