(* ===== verification/Failover.v ===== *)
(** Opening one request: every call of a member, every Key of a call, every
    member of a route, the decision a pinned member's failure asks for, the
    ledger row, and the patience around it all (open_member_attempt,
    open_attempt, decide_failover and record of
    crates/model-gateway/src/service.rs; perimeter, patience_delay and serve of
    src/server.rs).  What the network, the secret store, the limiter and the
    user answer is a [World]; a run is then a function of it. *)
From stdpp Require Import prelude strings list gmap.
From Stdlib Require Import NArith ZArith Lia.
From S2P Require Import Prelude CoreTypes GatewayTypes GatewayStore RouteModel KeyPlan.
From S2P Require Import GatewayErrors Ir Upstream MemberPlan ModelResolve Breaker.

(** ** What a request meets *)

Inductive SecretReading : Type := SecretFound | SecretMissing | SecretError (code : str).

Inductive WireReply : Type :=
| Success
| Refused (status : Z) (body : str)
| TransportError (is_timeout : bool) (message : str).

(** A reply with the milliseconds it takes to arrive. *)
Record Timed (A : Type) : Type := mkTimed { after_ms : Z; arrives : A }.
Arguments mkTimed {A}. Arguments after_ms {A}. Arguments arrives {A}.

Inductive FirstChunk : Type := Chunk | BrokenStream.

(** Members are named by their position in the plan and calls by theirs. *)
Record World : Type := mkWorld {
  w_to_lowercase : str -> str;
  w_parse_json : str -> option json;
  w_secret : ident -> SecretReading;
  w_slot : nat -> ident -> option GatewayError;
  w_reply : nat -> ident -> nat -> Timed WireReply;
  w_first_chunk : nat -> Timed FirstChunk;
  w_listening : bool;
  w_answer : option (Timed GatewayFailoverAnswer)
}.

(** [tokio::time::timeout]: an answer that is ready by the deadline wins. *)
Definition in_time {A} (timeout : option Z) (t : Timed A) : option A :=
  match timeout with
  | Some ms => if (ms <? after_ms t)%Z then None else Some (arrives t)
  | None => Some (arrives t)
  end.

(** ** A prepared call *)

Record MemberCall : Type := mkCall {
  mc_target : WireProtocol;
  mc_passthrough : bool;
  mc_endpoint : ModelProviderEndpoint;
  mc_body : json
}.
Record PreparedMember : Type := mkPreparedMember {
  mp_profile_id : ident;
  mp_provider_name : str;
  mp_model : str;
  mp_model_aliases : list ProviderModelAlias;
  mp_call : MemberCall;
  mp_alternates : list MemberCall;
  mp_keys : list (CandidateKey * ModelProviderCredentialReference);
  mp_skipped_cooling : nat;
  mp_skipped_over_limit : nat;
  mp_first_token_timeout_ms : option Z
}.
Record PreparedCall : Type := mkPrepared {
  pc_inbound : WireProtocol;
  pc_requested_model : str;
  pc_members : list PreparedMember;
  pc_agent_id : option str;
  pc_stream : bool;
  pc_group_id : option str;
  pc_probe : bool;
  pc_request_id : ident;
  pc_failover : GatewayFailover;
  pc_patience_ms : option Z;
  pc_route_decision : GatewayRouteDecisionTrace;
  pc_pinned : bool
}.

Definition first_member (p : PreparedCall) : option PreparedMember := head (pc_members p).
Definition may_try_next (p : PreparedCall) (index : nat) : bool :=
  index + 1 <? length (pc_members p).
Definition member_for (p : PreparedCall) (profile : ident) : option PreparedMember :=
  List.find (fun m => bool_decide (mp_profile_id m = profile)) (pc_members p).

(** ** One address *)

Definition ends_with (suffix s : str) : bool := bool_decide (is_Some (strip_suffix suffix s)).
Definition VERSION_PREFIXES : list str := [lit "/v1beta"; lit "/v1"].
Definition versioned_url (base p prefix : str) : option str :=
  match strip_prefix prefix p with
  | Some rest => Some (if ends_with prefix base then base ++ rest else base ++ p)
  | None => None
  end.
Definition endpoint_url (base : str) (protocol : WireProtocol) (model : str) (stream : bool)
  : GatewayResult str :=
  let base := trim_end_matches (N.eqb slash) (trim base) in
  reject (is_empty base) with (NotConfigured (lit "the upstream Provider has an empty address")) ;;
  let p := path protocol (as_bytes model) stream in
  Ok (default (base ++ p) (find_map (versioned_url base p) VERSION_PREFIXES)).

(** ** Reading a refusal *)

Definition truncate (value : str) : str :=
  if length value <=? 512 then value else take 512 value ++ [ellipsis].
Definition json_path (keys : list str) (v : json) : option json :=
  foldl (fun acc key => match acc with Some v => json_get key v | None => None end) (Some v) keys.
Definition MESSAGE_POINTERS : list (list str) :=
  [[lit "error"; lit "message"]; [lit "error"; lit "msg"]; [lit "message"]; [lit "error"];
   [lit "detail"]].
Definition pointed_message (v : json) (keys : list str) : option str :=
  match json_path keys v with Some v => json_as_str v | None => None end.
Definition upstream_message (parse_json : str -> option json) (body : str) : str :=
  let trimmed := trim body in
  let fallback := if is_empty trimmed then lit "the upstream refused the request without a message"
                  else truncate trimmed in
  match parse_json trimmed with
  | Some value =>
    match find_map (pointed_message value) MESSAGE_POINTERS with
    | Some message => truncate message
    | None => fallback
    end
  | None => fallback
  end.

(** ** One Key of one member *)

(** A write to the account states or the remembered protocols. *)
Inductive effect : Type :=
| EffMarkFailure (profile credential : ident) (kind : GatewayFailureKind)
| EffRememberProtocol (profile : ident) (endpoint_id : str) (protocol : WireProtocol)
| EffClearFailure (profile credential : ident)
| EffInflight (profile : ident) (attempt : Z)
| EffNoteSuccess (group : str)
| EffAlwaysSwitch (group : str).

(** What a walk leaves behind: the Keys it walked past and its writes. *)
Record WalkLog : Type := mkLogs {
  wl_attempts : list GatewayRouteAttempt;
  wl_effects : list effect
}.
Definition log_attempt (cred : ident) (kind : GatewayFailureKind) (l : WalkLog) : WalkLog :=
  mkLogs (wl_attempts l ++ [mkAttempt cred kind]) (wl_effects l).
Definition log_effect (e : effect) (l : WalkLog) : WalkLog :=
  mkLogs (wl_attempts l) (wl_effects l ++ [e]).

Inductive KeyVerdict : Type :=
| KeyAnswered (call : MemberCall)
| KeyFailed (error : option GatewayError)
| KeyAborted (error : GatewayError).

Definition sent_model (m : PreparedMember) : str :=
  match List.find (fun a => bool_decide (al_alias a = mp_model m)) (mp_model_aliases m) with
  | Some alias => al_upstream alias
  | None => mp_model m
  end.
Definition member_calls (m : PreparedMember) : list MemberCall := mp_call m :: mp_alternates m.
(** More than one call means the first is a guess. *)
Definition guessing (m : PreparedMember) : bool := 1 <? length (member_calls m).

Definition late_message (m : PreparedMember) (timeout : Z) : str :=
  mp_provider_name m ++ lit " did not answer within " ++ decimal timeout ++ lit " ms".

(** What the status and body of a refusal make of the call: the error, the
    attempt's kind, whether the Key is marked, and whether another protocol may
    still be tried. *)
Record Refusal : Type := mkRefusal {
  rf_error : GatewayError;
  rf_kind : GatewayFailureKind;
  rf_marks_key : bool;
  rf_tries_next_call : bool
}.
Definition read_refusal (w : World) (guess more_calls : bool) (call : MemberCall)
  (status : Z) (body : str) : Refusal :=
  let wire := wire_protocol_id (mc_target call) in
  let message := upstream_message (w_parse_json w) body in
  let wrong_shape := is_protocol_mismatch (w_to_lowercase w) status body
                     || ((status =? 404)%Z && more_calls) in
  if wrong_shape && negb guess then mkRefusal (TranslationFailed wire status message) KindOther false false
  else if wrong_shape then mkRefusal (ProtocolMismatch wire status message) KindOther false more_calls
  else mkRefusal (Upstream status message) (classify_failure (w_to_lowercase w) status body) true false.

(** The calls of one Key, from the [index]-th on. *)
Fixpoint try_calls (w : World) (stream : bool) (mi : nat) (m : PreparedMember) (cred : ident)
  (index : nat) (calls : list MemberCall) (call_error : option GatewayError) (log : WalkLog)
  : KeyVerdict * WalkLog :=
  match calls with
  | [] => (KeyFailed call_error, log)
  | call :: rest =>
    match endpoint_url (ep_url (mc_endpoint call)) (mc_target call) (sent_model m) stream with
    | Err e => (KeyAborted e, log)
    | Ok _ =>
      match in_time (mp_first_token_timeout_ms m) (w_reply w mi cred index) with
      | None =>
        (KeyFailed (Some (GatewayErrors.Upstream 504
           (late_message m (default 0%Z (mp_first_token_timeout_ms m))))),
         log_attempt cred KindUpstream log)
      | Some (TransportError is_timeout message) =>
        let kind := if is_timeout then KindUpstream else KindProxy in
        (KeyFailed (Some (GatewayErrors.Upstream 502
           (mp_provider_name m ++ lit ": " ++ truncate message))),
         log_attempt cred kind (log_effect (EffMarkFailure (mp_profile_id m) cred kind) log))
      | Some Success =>
        (KeyAnswered call,
         if guessing m
         then log_effect (EffRememberProtocol (mp_profile_id m) (ep_id (mc_endpoint call))
                            (mc_target call)) log
         else log)
      | Some (Refused status body) =>
        let r := read_refusal w (guessing m) (negb (is_empty rest)) call status body in
        let log := if rf_marks_key r
                   then log_effect (EffMarkFailure (mp_profile_id m) cred (rf_kind r)) log else log in
        let log := log_attempt cred (rf_kind r) log in
        if rf_tries_next_call r
        then try_calls w stream mi m cred (S index) rest (Some (rf_error r)) log
        else (KeyFailed (Some (rf_error r)), log)
      end
    end
  end.

(** ** Every Key of one member *)

Definition no_key (m : PreparedMember) (detail : str) : GatewayError :=
  NotConfigured (ticked (mp_provider_name m) ++ lit " has no usable Key" ++ detail).

Fixpoint try_keys (w : World) (p : PreparedCall) (mi : nat) (m : PreparedMember)
  (keys : list (CandidateKey * ModelProviderCredentialReference))
  (last_error : option GatewayError) (log : WalkLog)
  : GatewayResult (MemberCall * ident) * WalkLog :=
  match keys with
  | [] => (Err (default (AllKeysCooling (pc_requested_model p) None) last_error), log)
  | (candidate, credential) :: keys =>
    let cred := ck_credential candidate in
    match w_secret w (cd_id credential) with
    | SecretMissing => try_keys w p mi m keys (Some (no_key m [])) (log_attempt cred KindAuth log)
    | SecretError code =>
      try_keys w p mi m keys (Some (no_key m (lit ": " ++ code))) (log_attempt cred KindAuth log)
    | SecretFound =>
      match w_slot w mi cred with
      | Some e => try_keys w p mi m keys (Some e) (log_attempt cred KindRate log)
      | None =>
        match try_calls w (pc_stream p) mi m cred 0 (member_calls m) None log with
        | (KeyAnswered call, log) => (Ok (call, cred), log)
        | (KeyAborted e, log) => (Err e, log)
        | (KeyFailed call_error, log) =>
          try_keys w p mi m keys (or_else call_error last_error) log
        end
      end
    end
  end.
Definition open_member_attempt (w : World) (p : PreparedCall) (mi : nat) (m : PreparedMember)
  (log : WalkLog) : GatewayResult (MemberCall * ident) * WalkLog :=
  try_keys w p mi m (mp_keys m) None log.

(** ** Leaving the pinned member *)

Definition ANSWER_WINDOW_MS : Z := 5000.

(** [ask_failover]: nobody listening is no answer; a late or missing one is an
    accepted switch. *)
Definition ask_failover (w : World) : option GatewayFailoverAnswer :=
  if negb (w_listening w) then None
  else Some (default AnswerSwitch
    (match w_answer w with Some answer => in_time (Some ANSWER_WINDOW_MS) answer | None => None end)).

Inductive FailoverDecision : Type := Switch (announce : bool) | Stay.

Definition decide_failover (w : World) (p : PreparedCall) (error : GatewayError)
  : FailoverDecision * list effect :=
  if negb (blames_upstream error) then (Switch false, [])
  else if bool_decide (pc_failover p = FailoverAuto) then (Switch true, [])
  else
    match ask_failover w with
    | None => (Switch true, [])
    | Some AnswerStay => (Stay, [])
    | Some AnswerAlwaysSwitch =>
      (Switch true, match pc_group_id p with Some g => if is_empty g then [] else [EffAlwaysSwitch g]
                                        | None => [] end)
    | Some AnswerSwitch => (Switch true, [])
    end.

(** ** Every member of a route *)

Record UpstreamAttempt : Type := mkAttemptWon {
  ua_call : MemberCall;
  ua_profile_id : ident;
  ua_credential : ident;
  ua_prefetched : bool
}.

(** The walk's state: the log, and the members it walked past. *)
Record WalkState : Type := mkWalk {
  ws_log : WalkLog;
  ws_skipped : list GatewaySkippedMember;
  ws_announced : list (str * str)
}.
Definition skip_member (m : PreparedMember) (kind : GatewayFailureKind) (s : WalkState) : WalkState :=
  mkWalk (ws_log s)
    (ws_skipped s ++ [mkSkipped (mp_profile_id m) (wire_protocol_id (mc_target (mp_call m))) kind])
    (ws_announced s).
Definition with_log (log : WalkLog) (s : WalkState) : WalkState :=
  mkWalk log (ws_skipped s) (ws_announced s).
Definition announce (from to : str) (s : WalkState) : WalkState :=
  mkWalk (ws_log s) (ws_skipped s) (ws_announced s ++ [(from, to)]).

(** Whether the first chunk has to be seen before committing to the member, and
    the error when it does not come. *)
Definition first_chunk_deadline (p : PreparedCall) (mi : nat) (m : PreparedMember) : option Z :=
  if pc_stream p && may_try_next p mi then mp_first_token_timeout_ms m else None.
Definition ENDED_EARLY : GatewayError :=
  GatewayErrors.Upstream 502 (lit "the upstream reply ended before its first token").
Definition NO_FIRST_TOKEN : GatewayError :=
  GatewayErrors.Upstream 504 (lit "the member produced no first token in time").
Definition prove_first_chunk (w : World) (p : PreparedCall) (mi : nat) (m : PreparedMember)
  : option GatewayError :=
  match first_chunk_deadline p mi m with
  | None => None
  | Some ms =>
    match in_time (Some ms) (w_first_chunk w mi) with
    | Some Chunk => None
    | Some BrokenStream => Some ENDED_EARLY
    | None => Some NO_FIRST_TOKEN
    end
  end.

Definition won_effects (p : PreparedCall) (profile cred : ident) : list effect :=
  match pc_group_id p with Some g => [EffNoteSuccess g] | None => [] end
  ++ [EffClearFailure profile cred].
Definition log_effects (es : list effect) (l : WalkLog) : WalkLog :=
  mkLogs (wl_attempts l) (wl_effects l ++ es).

(** [(index as u32).saturating_add(1)]. *)
Definition attempt_number (mi : nat) : Z := u32_saturating_add (Z.of_nat mi mod 2 ^ 32) 1.

Fixpoint try_members (w : World) (p : PreparedCall) (mi : nat) (members : list PreparedMember)
  (last_error : option GatewayError) (s : WalkState)
  : GatewayResult UpstreamAttempt * WalkState :=
  match members with
  | [] => (Err (default (AllKeysCooling (pc_requested_model p) None) last_error), s)
  | m :: rest =>
    match open_member_attempt w p mi m (log_effect (EffInflight (mp_profile_id m) (attempt_number mi))
                                          (ws_log s)) with
    | (Ok (call, cred), log) =>
      let s := with_log log s in
      match prove_first_chunk w p mi m with
      | Some e => try_members w p (S mi) rest (Some e) (skip_member m KindUpstream s)
      | None =>
        (Ok {| ua_call := call; ua_profile_id := mp_profile_id m; ua_credential := cred;
               ua_prefetched := bool_decide (is_Some (first_chunk_deadline p mi m)) |},
         with_log (log_effects (won_effects p (mp_profile_id m) cred) log) s)
      end
    | (Err e, log) =>
      let s := skip_member m (member_failure_kind (w_to_lowercase w) e) (with_log log s) in
      match rest with
      | [] => (Err e, s)
      | next :: _ =>
        if (mi =? 0) && pc_pinned p then
          match decide_failover w p e with
          | (Stay, _) => (Err e, s)
          | (Switch tell, es) =>
            let s := with_log (log_effects es (ws_log s)) s in
            let s := if tell then announce (mp_provider_name m) (mp_provider_name next) s else s in
            try_members w p (S mi) rest (Some e) s
          end
        else try_members w p (S mi) rest (Some e) s
      end
    end
  end.

Definition empty_walk : WalkState := mkWalk (mkLogs [] []) [] [].
Definition walk_members (w : World) (p : PreparedCall) : GatewayResult UpstreamAttempt * WalkState :=
  try_members w p 0 (pc_members p) None empty_walk.

(** ** The service's state *)

Record Service : Type := mkService {
  sv_breaker : BreakerState;
  sv_inflight : list GatewayInflight;
  sv_latency : LatencyTable;
  sv_accounts : AccountTable;
  sv_windows : WindowTable;
  sv_ledger : list ModelGatewayRequestLog;
  sv_lessons : gmap (ident * str) WireProtocol;
  sv_routes : gmap ident ModelRoute;
  sv_settings : ModelGatewaySettings;
  sv_shutting_down : bool
}.

Definition set_failover_auto (r : ModelRoute) (now : Z) : ModelRoute :=
  {| mr_id := mr_id r; mr_display_name := mr_display_name r; mr_description := mr_description r;
     mr_kind := mr_kind r; mr_members := mr_members r; mr_strategy := mr_strategy r;
     mr_agent_model_id := mr_agent_model_id r; mr_rules := mr_rules r;
     mr_classifier := mr_classifier r; mr_effort := mr_effort r;
     mr_patience_ms := mr_patience_ms r; mr_sink := mr_sink r; mr_unlists := mr_unlists r;
     mr_levels := mr_levels r; mr_pick_member_id := mr_pick_member_id r;
     mr_first_token_timeout_ms := mr_first_token_timeout_ms r;
     mr_context_tokens := mr_context_tokens r; mr_pin := mr_pin r; mr_failover := FailoverAuto;
     mr_token_limit := mr_token_limit r; mr_status := mr_status r;
     mr_revision := i64_saturating_add (mr_revision r) 1; mr_created_at_ms := mr_created_at_ms r;
     mr_updated_at_ms := now; mr_deleted_at_ms := mr_deleted_at_ms r |}.

(** [remember_route_failover]: the update is keyed on the revision just read. *)
Definition remember_route_failover (routes : gmap ident ModelRoute) (group : str) (now : Z)
  : gmap ident ModelRoute :=
  if is_empty group then routes
  else
    match id_parse ModelRouteId group with
    | Err _ => routes
    | Ok id =>
      match routes !! id with
      | Some r => if bool_decide (mr_failover r = FailoverAuto) then routes
                  else <[id := set_failover_auto r now]> routes
      | None => routes
      end
    end.

Definition apply_effect (request : ident) (now : Z) (s : Service) (e : effect) : Service :=
  match s with
  | mkService b inflight latency accounts windows ledger lessons routes settings down =>
    match e with
    | EffMarkFailure profile cred kind =>
      mkService b inflight latency (mark_failure accounts (gs_policy settings) profile cred kind now)
        windows ledger lessons routes settings down
    | EffClearFailure profile cred =>
      mkService b inflight latency (account_clear_cooldown accounts now profile cred)
        windows ledger lessons routes settings down
    | EffRememberProtocol profile endpoint protocol =>
      mkService b inflight latency accounts windows ledger (<[(profile, endpoint) := protocol]> lessons)
        routes settings down
    | EffInflight profile attempt =>
      mkService b (note_inflight inflight (mkInflight request profile attempt None)) latency accounts
        windows ledger lessons routes settings down
    | EffNoteSuccess group =>
      mkService (note_success b group now) inflight latency accounts windows ledger lessons routes
        settings down
    | EffAlwaysSwitch group =>
      mkService b inflight latency accounts windows ledger lessons
        (remember_route_failover routes group now) settings down
    end
  end.

(** ** The ledger row *)

Record RequestOutcome : Type := mkOutcome {
  ro_kind : GatewayRequestOutcome;
  ro_profile_id : option ident;
  ro_target : option WireProtocol;
  ro_skipped_cooling : nat;
  ro_skipped_over_limit : nat;
  ro_credential : option ident;
  ro_status : option Z;
  ro_usage : CanonicalUsage;
  ro_latency_ms : option Z;
  ro_served : option str;
  ro_failed_attempts : list GatewayRouteAttempt;
  ro_skipped_members : list GatewaySkippedMember;
  ro_error_code : option str;
  ro_error_message : option str
}.

(** [unreadable] is the id a row carries when the request matched no member. *)
Definition outcome_log (p : PreparedCall) (o : RequestOutcome) (unreadable : ident) (now : Z)
  : ModelGatewayRequestLog :=
  let base := GatewayRouteTrace_new (ro_skipped_cooling o) (ro_skipped_over_limit o) in
  {| lg_request_id := pc_request_id p; lg_agent_id := pc_agent_id p;
     lg_profile_id := default unreadable (or_else (ro_profile_id o) (mp_profile_id <$> first_member p));
     lg_credential_id := ro_credential o; lg_model_requested := pc_requested_model p;
     lg_model_served := ro_served o; lg_wire_in := wire_protocol_id (pc_inbound p);
     lg_wire_out := wire_protocol_id (default ChatCompletions
       (or_else (ro_target o) ((fun m => mc_target (mp_call m)) <$> first_member p)));
     lg_status := ro_status o; lg_input_tokens := us_input_tokens (ro_usage o);
     lg_output_tokens := us_output_tokens (ro_usage o);
     lg_cached_read_tokens := us_cached_read_tokens (ro_usage o);
     lg_cached_write_tokens := us_cached_write_tokens (ro_usage o);
     lg_reasoning_tokens := us_reasoning_tokens (ro_usage o);
     lg_latency_ms := ro_latency_ms o; lg_outcome := ro_kind o;
     lg_route := Some {| tr_schema_version := tr_schema_version base;
       tr_skipped_cooling := tr_skipped_cooling base;
       tr_skipped_over_limit := tr_skipped_over_limit base;
       tr_failed_attempts := ro_failed_attempts o; tr_skipped_members := ro_skipped_members o;
       tr_error_code := ro_error_code o; tr_error_message := ro_error_message o;
       tr_decision := if DecisionTrace_is_unremarkable (pc_route_decision p) then None
                      else Some (pc_route_decision p) |};
     lg_created_at_ms := now |}.

(** [record]: the probe, the request in flight, the latency, the row, and the
    tokens when the gateway itself has a ceiling. *)
Definition record (p : PreparedCall) (o : RequestOutcome) (unreadable : ident) (now : Z) (s : Service)
  : Service :=
  match s with
  | mkService b inflight latency accounts windows ledger lessons routes settings down =>
    let b := match pc_group_id p with
             | Some g => mkBreakerState (finish_attempt (bs_breakers b) g (pc_probe p)) (bs_runtime b)
             | None => b
             end in
    let inflight := note_finished inflight (pc_request_id p) in
    let latency := match ro_profile_id o, ro_latency_ms o with
                   | Some profile, Some ms => note_latency latency profile ms
                   | _, _ => latency
                   end in
    let ledger := ledger ++ [outcome_log p o unreadable now] in
    let answered := or_else (ro_profile_id o) (mp_profile_id <$> first_member p) in
    let windows :=
      match answered, gp_token_limit (gs_policy settings) with
      | Some profile, Some limit =>
        if (0 <? CanonicalUsage_total (ro_usage o))%Z
        then window_record windows profile (tl_window limit) (CanonicalUsage_total (ro_usage o)) now
        else windows
      | _, _ => windows
      end in
    mkService b inflight latency accounts windows ledger lessons routes settings down
  end.

(** The row of a request no member answered. *)
Definition failed_outcome (p : PreparedCall) (e : GatewayError) (s : WalkState) : RequestOutcome :=
  {| ro_kind := OutcomeFailed; ro_profile_id := mp_profile_id <$> first_member p;
     ro_target := (fun m => mc_target (mp_call m)) <$> first_member p;
     ro_skipped_cooling := match first_member p with Some m => mp_skipped_cooling m | None => 0 end;
     ro_skipped_over_limit := match first_member p with Some m => mp_skipped_over_limit m | None => 0 end;
     ro_credential := None; ro_status := Some (GatewayError_status e);
     ro_usage := CanonicalUsage_default; ro_latency_ms := None; ro_served := None;
     ro_failed_attempts := wl_attempts (ws_log s); ro_skipped_members := ws_skipped s;
     ro_error_code := Some (GatewayError_code e);
     ro_error_message := Some (gateway_diagnostic_text (GatewayError_message e)) |}.

Definition SHUTTING_DOWN : GatewayError := NotConfigured (lit "the gateway is shutting down").
Definition release_probe (p : PreparedCall) (s : Service) : Service :=
  match s with
  | mkService b inflight latency accounts windows ledger lessons routes settings down =>
    mkService (mkBreakerState (finish_attempt (bs_breakers b) (default [] (pc_group_id p)) (pc_probe p))
                 (bs_runtime b))
      inflight latency accounts windows ledger lessons routes settings down
  end.

Definition open_attempt (w : World) (p : PreparedCall) (unreadable : ident) (now : Z) (s : Service)
  : GatewayResult (UpstreamAttempt * WalkState) * Service :=
  if sv_shutting_down s then (Err SHUTTING_DOWN, release_probe p s)
  else
    let '(r, walk) := walk_members w p in
    let s := foldl (apply_effect (pc_request_id p) now) s (wl_effects (ws_log walk)) in
    match r with
    | Ok won => (Ok (won, walk), s)
    | Err e => (Err e, record p (failed_outcome p e walk) unreadable now s)
    end.

(** ** The listener (server.rs) *)

Definition is_bracket (c : N) : bool := bool_decide (c = 91%N) || bool_decide (c = 93%N).
Definition host_name (host : str) : str :=
  trim_matches is_bracket (match rsplit_once 58%N host with Some (name, _) => name | None => host end).
Definition LOOPBACK : list str := [lit "127.0.0.1"; lit "localhost"; lit "::1"].
Definition perimeter (host : option str) (has_origin : bool) : GatewayResult unit :=
  reject (negb (bool_decide (host_name (default [] host) ∈ LOOPBACK))) with
    (NotConfigured (lit "the gateway only accepts loopback requests")) ;;
  reject has_origin with (NotConfigured (lit "the gateway does not accept browser requests")) ;;
  Ok tt.

Definition PATIENCE_STEPS_MS : list Z := [2000; 4000; 8000; 16000; 30000]%Z.
Definition patience_delay (retries : nat) : option Z :=
  match PATIENCE_STEPS_MS !! retries with
  | Some ms => Some ms
  | None => last PATIENCE_STEPS_MS
  end.

(** The retry loop of [serve].  [retry n] prepares and opens the request the
    [n]-th time; [log] is the delays slept. [None] is out of fuel. *)
Fixpoint patience_loop {A} (fuel : nat) (retry : nat -> Timed (GatewayResult A)) (deadline : option Z)
  (retries : nat) (slept : list Z) (now : Z) (r : GatewayResult A)
  : option (GatewayResult A * nat * list Z) :=
  match fuel with
  | 0 => None
  | S fuel =>
    let stop := Some (r, retries, slept) in
    match r, deadline with
    | Err e, Some deadline =>
      if negb (is_recoverable e) then stop
      else
        match patience_delay retries with
        | None => stop
        | Some delay =>
          if (deadline <=? now + delay)%Z then stop
          else
            let again := retry (S retries) in
            patience_loop fuel retry (Some deadline) (S retries) (slept ++ [delay])
              (now + delay + after_ms again)%Z (arrives again)
        end
    | _, _ => stop
    end
  end.

Definition patience_deadline (patience_ms : option Z) (now : Z) : option Z :=
  match patience_ms with
  | Some ms => if (0 <? ms)%Z then Some (now + ms)%Z else None
  | None => None
  end.

(** What [serve] does with the breaker once the request has failed for good. *)
Definition count_failure (b : BreakerState) (group : option str) (e : GatewayError) (now : Z)
  : BreakerState :=
  match group with
  | Some g => if blames_upstream e then note_failure b g now else b
  | None => b
  end.

(** The usage a snapshot reads: the current window of each referenced Provider,
    the window being the gateway's own or a day. *)
Definition snapshot_window (settings : ModelGatewaySettings) : GatewayTokenWindow :=
  match gp_token_limit (gs_policy settings) with Some limit => tl_window limit | None => WindowDay end.
Definition gateway_used (windows : WindowTable) (settings : ModelGatewaySettings) (ids : list ident)
  (now : Z) : Z :=
  foldr (fun id acc => (default 0 (wu_used_tokens <$>
    window_current windows id (snapshot_window settings) now) + acc)%Z) 0%Z ids.

(** * Theorems *)

(** ** What a member's calls leave behind *)

(** The reply a call of a member met, when it came in time. *)
Definition met (w : World) (mi : nat) (m : PreparedMember) (cred : ident) (j : nat) (call : MemberCall)
  (reply : WireReply) : Prop :=
  member_calls m !! j = Some call /\
  in_time (mp_first_token_timeout_ms m) (w_reply w mi cred j) = Some reply.

Definition has_key (m : PreparedMember) (cred : ident) : Prop :=
  exists key, key ∈ mp_keys m /\ ck_credential key.1 = cred.

(** A write the member's replies justify: a Key is marked for a transport error
    or for a refusal that is not about the protocol, with the kind the reply
    names; a protocol is remembered when a guess at it was answered. *)
Definition earned (w : World) (mi : nat) (m : PreparedMember) (e : effect) : Prop :=
  match e with
  | EffMarkFailure profile cred kind =>
    profile = mp_profile_id m /\ has_key m cred /\
    exists j call,
      (exists timeout message, met w mi m cred j call (TransportError timeout message) /\
         kind = if timeout then KindUpstream else KindProxy) \/
      (exists status body, met w mi m cred j call (Refused status body) /\
         is_protocol_mismatch (w_to_lowercase w) status body = false /\
         kind = classify_failure (w_to_lowercase w) status body)
  | EffRememberProtocol profile endpoint protocol =>
    profile = mp_profile_id m /\ 1 < length (member_calls m) /\
    exists cred j call, has_key m cred /\ met w mi m cred j call Success /\
      endpoint = ep_id (mc_endpoint call) /\ protocol = mc_target call
  | _ => True
  end.

(** [log'] extends [log] by attempts [ats] and writes [es]. *)
Definition extends (log log' : WalkLog) (ats : list GatewayRouteAttempt) (es : list effect) : Prop :=
  wl_attempts log' = wl_attempts log ++ ats /\ wl_effects log' = wl_effects log ++ es.

Lemma extends_refl log : extends log log [] [].
Proof. split; by rewrite app_nil_r. Qed.
Lemma extends_trans a b c ats es ats' es' :
  extends a b ats es -> extends b c ats' es' -> extends a c (ats ++ ats') (es ++ es').
Proof. intros [H1 H2] [H3 H4]. split; by rewrite ?H3, ?H4, ?H1, ?H2, (assoc (++)). Qed.
Lemma extends_attempt cred kind log : extends log (log_attempt cred kind log) [mkAttempt cred kind] [].
Proof. split; [done|]. simpl. by rewrite app_nil_r. Qed.
Lemma extends_effect e log : extends log (log_effect e log) [] [e].
Proof. split; [|done]. simpl. by rewrite app_nil_r. Qed.

Definition key_verdict_ok (w : World) (mi : nat) (m : PreparedMember) (stream : bool) (cred : ident)
  (ats : list GatewayRouteAttempt) (v : KeyVerdict) : Prop :=
  match v with
  | KeyAnswered call => exists j, met w mi m cred j call Success
  | KeyFailed e => ats <> [] /\ is_Some e
  | KeyAborted e => exists call, call ∈ member_calls m /\
      endpoint_url (ep_url (mc_endpoint call)) (mc_target call) (sent_model m) stream = Err e
  end.

Lemma read_refusal_marks w guess more call status body :
  rf_marks_key (read_refusal w guess more call status body) = true ->
  is_protocol_mismatch (w_to_lowercase w) status body = false /\
  rf_kind (read_refusal w guess more call status body) =
    classify_failure (w_to_lowercase w) status body.
Proof. unfold read_refusal. cbv zeta. destruct (is_protocol_mismatch _ _ _), guess, more, (status =? 404)%Z; done. Qed.

Lemma read_refusal_next w guess more call status body :
  rf_tries_next_call (read_refusal w guess more call status body) = true -> more = true.
Proof. unfold read_refusal. cbv zeta. by repeat case_match. Qed.

Lemma try_calls_facts w stream mi m cred :
  has_key m cred ->
  forall calls index call_error log v log',
  drop index (member_calls m) = calls -> (calls = [] -> False) ->
  try_calls w stream mi m cred index calls call_error log = (v, log') ->
  exists ats es, extends log log' ats es /\ Forall (earned w mi m) es /\
    Forall (fun a => at_credential_id a = cred) ats /\ key_verdict_ok w mi m stream cred ats v.
Proof.
  intros Hkey calls. induction calls as [|call rest IH]; intros index call_error log v log' Hd Hne Ht;
    [by destruct (Hne eq_refl)|].
  assert (Hcall : member_calls m !! index = Some call) by (by rewrite <- (Nat.add_0_r index), <- lookup_drop, Hd).
  assert (Hrest : drop (S index) (member_calls m) = rest).
  { replace (S index) with (index + 1) by lia. by rewrite <- drop_drop, Hd. }
  cbn [try_calls] in Ht. destruct (endpoint_url _ _ _ _) as [url|e] eqn:Eu.
  2:{ injection Ht as <- <-. exists [], []. split_and!; [apply extends_refl|constructor|constructor|].
      exists call. split; [by eapply list_elem_of_lookup_2|done]. }
  destruct (in_time _ _) as [[|status body|timeout message]|] eqn:Er.
  - injection Ht as <- <-.
    assert (Hmet : met w mi m cred index call Success) by done.
    destruct (guessing m) eqn:Eg.
    + eexists [], [_]. split_and!; [apply extends_effect| |constructor|by exists index].
      apply Forall_singleton. split; [done|]. split; [by apply Nat.ltb_lt|]. by exists cred, index, call.
    + exists [], []. split_and!; [apply extends_refl|constructor|constructor|by exists index].
  - set (r := read_refusal w (guessing m) (negb (is_empty rest)) call status body) in Ht. cbv zeta in Ht.
    assert (Hstep : exists es, extends log (log_attempt cred (rf_kind r) (if rf_marks_key r
        then log_effect (EffMarkFailure (mp_profile_id m) cred (rf_kind r)) log else log))
        [mkAttempt cred (rf_kind r)] es /\ Forall (earned w mi m) es).
    { destruct (rf_marks_key r) eqn:Em.
      - eexists. split; [eapply (extends_trans _ _ _ [] _ _ []); [apply extends_effect|apply extends_attempt]|].
        apply Forall_singleton. split; [done|]. split; [done|]. exists index, call. right.
        exists status, body. apply read_refusal_marks in Em as [? ?]. done.
      - exists []. split; [apply extends_attempt|constructor]. }
    destruct Hstep as (es & Hstep & Hes).
    destruct (rf_tries_next_call r) eqn:En.
    + apply IH in Ht as (ats' & es' & Hx & Hes' & Hats' & Hv); [|done|].
      * exists ([mkAttempt cred (rf_kind r)] ++ ats'), (es ++ es').
        split_and!; [by eapply extends_trans|by apply Forall_app|by constructor|].
        destruct v; [done| |done]. by destruct Hv as [_ Hv].
      * apply read_refusal_next in En. by intros ->.
    + injection Ht as <- <-. exists [mkAttempt cred (rf_kind r)], es.
      split_and!; [done|done|by constructor|]. by split; [|eexists].
  - injection Ht as <- <-. eexists ([] ++ [_]), ([_] ++ []).
    split_and!; [eapply extends_trans; [apply extends_effect|apply extends_attempt]| |by constructor|].
    + apply Forall_singleton. split; [done|]. split; [done|]. exists index, call. left.
      by exists timeout, message.
    + by split; [|eexists].
  - injection Ht as <- <-. eexists [_], [].
    split_and!; [apply extends_attempt|constructor|by constructor|]. by split; [|eexists].
Qed.

(** A member that gives up accounts for every one of its Keys, unless one of
    its addresses could not be built. *)
Definition member_verdict_ok (w : World) (p : PreparedCall) (mi : nat) (m : PreparedMember)
  (keys : list (CandidateKey * ModelProviderCredentialReference)) (ats : list GatewayRouteAttempt)
  (r : GatewayResult (MemberCall * ident)) : Prop :=
  match r with
  | Ok (call, cred) => has_key m cred /\ exists j, met w mi m cred j call Success
  | Err e =>
    (forall key, key ∈ keys -> exists a, a ∈ ats /\ at_credential_id a = ck_credential key.1) \/
    exists call, call ∈ member_calls m /\
      endpoint_url (ep_url (mc_endpoint call)) (mc_target call) (sent_model m) (pc_stream p) = Err e
  end.

Lemma accounted_cons keys key ats ats' :
  (exists a, a ∈ ats /\ at_credential_id a = ck_credential key.1) ->
  (forall k : CandidateKey * ModelProviderCredentialReference,
     k ∈ keys -> exists a, a ∈ ats' /\ at_credential_id a = ck_credential k.1) ->
  forall k, k ∈ key :: keys -> exists a, a ∈ ats ++ ats' /\ at_credential_id a = ck_credential k.1.
Proof.
  intros (a & Ha & Hc) H k [->|Hk]%elem_of_cons.
  - exists a. by split; [apply elem_of_app; left|].
  - destruct (H k Hk) as (b & Hb & Hbc). exists b. by split; [apply elem_of_app; right|].
Qed.

Lemma member_verdict_cons w p mi m key keys ats ats' r :
  (exists a, a ∈ ats /\ at_credential_id a = ck_credential key.1) ->
  member_verdict_ok w p mi m keys ats' r ->
  member_verdict_ok w p mi m (key :: keys) (ats ++ ats') r.
Proof.
  intros Ha. unfold member_verdict_ok. destruct r as [[call cred]|e]; [done|].
  intros [H|H]; [left|by right]. by apply accounted_cons.
Qed.

Lemma try_keys_facts w p mi m keys last_error log r log' :
  (forall key, key ∈ keys -> key ∈ mp_keys m) ->
  try_keys w p mi m keys last_error log = (r, log') ->
  exists ats es, extends log log' ats es /\ Forall (earned w mi m) es /\
    member_verdict_ok w p mi m keys ats r.
Proof.
  revert last_error log r log'. induction keys as [|[candidate credential] keys IH];
    intros last_error log r log' Hin Ht.
  { injection Ht as <- <-. exists [], []. split_and!; [apply extends_refl|constructor|].
    left. by intros key Hk%not_elem_of_nil. }
  assert (Hk : has_key m (ck_credential candidate))
    by (exists (candidate, credential); split; [by apply Hin, list_elem_of_here|done]).
  assert (Hin' : forall key, key ∈ keys -> key ∈ mp_keys m)
    by (intros key Hkey; by apply Hin, list_elem_of_further).
  assert (Hskip : forall e kind, try_keys w p mi m keys e (log_attempt (ck_credential candidate) kind log) = (r, log') ->
    exists ats es, extends log log' ats es /\ Forall (earned w mi m) es /\
      member_verdict_ok w p mi m ((candidate, credential) :: keys) ats r).
  { intros e kind H. apply IH in H as (ats & es & Hx & Hes & Hv); [|done].
    exists ([mkAttempt (ck_credential candidate) kind] ++ ats), ([] ++ es). split_and!; [|done|].
    - eapply extends_trans; [apply extends_attempt|done].
    - apply member_verdict_cons; [|done]. eexists. by split; [apply list_elem_of_here|]. }
  cbn [try_keys] in Ht. destruct (w_secret w (cd_id credential)); [|by eapply Hskip..].
  destruct (w_slot w mi (ck_credential candidate)) as [e|]; [by eapply Hskip|].
  destruct (try_calls _ _ _ _ _ _ _ _ _) as [v log1] eqn:Ec.
  apply try_calls_facts in Ec as (ats & es & Hx & Hes & Hcred & Hv); [|done|done|done].
  destruct v as [call|call_error|e].
  - injection Ht as <- <-. by exists ats, es.
  - destruct Hv as [Hne _]. apply IH in Ht as (ats' & es' & Hx' & Hes' & Hv'); [|done].
    exists (ats ++ ats'), (es ++ es'). split_and!; [by eapply extends_trans|by apply Forall_app|].
    apply member_verdict_cons; [|done]. destruct ats as [|a ats]; [done|].
    exists a. split; [apply list_elem_of_here|]. by inversion_clear Hcred.
  - injection Ht as <- <-. exists ats, es. split_and!; [done|done|by right].
Qed.

Lemma open_member_facts w p mi m log r log' :
  open_member_attempt w p mi m log = (r, log') ->
  exists ats es, extends log log' ats es /\ Forall (earned w mi m) es /\
    member_verdict_ok w p mi m (mp_keys m) ats r.
Proof. by apply try_keys_facts. Qed.

(** ** The decision on the pinned member *)

(** The request stays only when the failure blames the member, the route asks,
    somebody listens, and that answer arrives within five seconds; no answer is
    a switch. *)
Theorem stay_needs_an_answer (w : World) (p : PreparedCall) (e : GatewayError) :
  (exists es, decide_failover w p e = (Stay, es)) <->
  blames_upstream e = true /\ pc_failover p = FailoverAsk /\ w_listening w = true /\
  exists ms, (ms <= ANSWER_WINDOW_MS)%Z /\ w_answer w = Some (mkTimed ms AnswerStay).
Proof.
  unfold decide_failover, ask_failover, in_time. split.
  - intros [es H]. destruct (blames_upstream e); [|done].
    destruct (bool_decide _) eqn:Ef; [done|]. apply bool_decide_eq_false in Ef.
    destruct (w_listening w); [|done]. cbn [negb] in H.
    destruct (w_answer w) as [[ms answer]|]; [|done]. cbn [after_ms arrives] in H.
    destruct (Z.ltb_spec ANSWER_WINDOW_MS ms); [done|]. destruct answer; try done.
    split_and!; [done|by destruct (pc_failover p)|done|by exists ms].
  - intros (-> & Hf & -> & ms & Hms & ->). rewrite Hf. exists []. cbn [negb after_ms arrives].
    rewrite bool_decide_eq_false_2 by done. destruct (Z.ltb_spec ANSWER_WINDOW_MS ms); [lia|done].
Qed.

(** ** What it takes to answer *)

Definition address (p : PreparedCall) (m : PreparedMember) (call : MemberCall) : GatewayResult str :=
  endpoint_url (ep_url (mc_endpoint call)) (mc_target call) (sent_model m) (pc_stream p).

(** The [j]-th call of a Key is made: every call before it had an address and
    was refused in time for its shape, or as not found. *)
Definition call_reached (w : World) (p : PreparedCall) (mi : nat) (m : PreparedMember) (cred : ident) (j : nat) : Prop :=
  forall i, i < j -> exists call status body, met w mi m cred i call (Refused status body) /\
    is_ok (address p m call) = true /\
    (is_protocol_mismatch (w_to_lowercase w) status body = true \/ status = 404%Z).
(** A Key serves the member by one of its calls. *)
Definition key_serves (w : World) (p : PreparedCall) (mi : nat) (m : PreparedMember)
    (key : CandidateKey * ModelProviderCredentialReference) (call : MemberCall) : Prop :=
  w_secret w (cd_id key.2) = SecretFound /\ w_slot w mi (ck_credential key.1) = None /\
  exists j, call_reached w p mi m (ck_credential key.1) j /\ met w mi m (ck_credential key.1) j call Success /\
    is_ok (address p m call) = true.
(** A Key gets to a call without an address. *)
Definition key_blocked (w : World) (p : PreparedCall) (mi : nat) (m : PreparedMember)
    (key : CandidateKey * ModelProviderCredentialReference) : Prop :=
  w_secret w (cd_id key.2) = SecretFound /\ w_slot w mi (ck_credential key.1) = None /\
  exists j call, call_reached w p mi m (ck_credential key.1) j /\ member_calls m !! j = Some call /\
    is_ok (address p m call) = false.
Definition key_silent (w : World) (p : PreparedCall) (mi : nat) (m : PreparedMember)
    (key : CandidateKey * ModelProviderCredentialReference) : Prop :=
  forall call, ~ key_serves w p mi m key call.

(** The first Key in order that serves is the one that answers for a member. *)
Definition served_by (w : World) (p : PreparedCall) (mi : nat) (m : PreparedMember)
    (keys : list (CandidateKey * ModelProviderCredentialReference)) (cred : ident) (call : MemberCall) : Prop :=
  exists before key after, keys = before ++ key :: after /\ ck_credential key.1 = cred /\
    key_serves w p mi m key call /\ Forall (key_silent w p mi m) before.
(** No Key of a member serves, as far as they are tried. *)
Definition unserved (w : World) (p : PreparedCall) (mi : nat) (m : PreparedMember)
    (keys : list (CandidateKey * ModelProviderCredentialReference)) : Prop :=
  Forall (key_silent w p mi m) keys \/
  exists before key after, keys = before ++ key :: after /\ key_blocked w p mi m key /\
    Forall (key_silent w p mi m) before.
(** A streamed reply that another member could still give must begin in time. *)
Definition first_token_missing (w : World) (p : PreparedCall) (mi : nat) (m : PreparedMember) : Prop :=
  pc_stream p = true /\ S mi < length (pc_members p) /\
  exists ms, mp_first_token_timeout_ms m = Some ms /\ in_time (Some ms) (w_first_chunk w mi) <> Some Chunk.
Definition gives_way (w : World) (p : PreparedCall) (mi : nat) (m : PreparedMember) : Prop :=
  unserved w p mi m (mp_keys m) \/ first_token_missing w p mi m.

(** Calls stop at the first that is answered or that no other may follow. *)
Lemma refusal_follows w m call status body more :
  guessing m = true ->
  rf_tries_next_call (read_refusal w (guessing m) more call status body) =
  (is_protocol_mismatch (w_to_lowercase w) status body || ((status =? 404)%Z && more)) && more.
Proof. intros ->. unfold read_refusal. cbv zeta. destruct (_ || _); by destruct more. Qed.

Lemma try_calls_exact w p mi m cred :
  forall calls index call_error log v log',
  drop index (member_calls m) = calls -> (calls = [] -> False) -> call_reached w p mi m cred index ->
  try_calls w (pc_stream p) mi m cred index calls call_error log = (v, log') ->
  match v with
  | KeyAnswered call => exists j, call_reached w p mi m cred j /\ met w mi m cred j call Success /\
      is_ok (address p m call) = true
  | KeyFailed _ => forall j call, call_reached w p mi m cred j -> ~ met w mi m cred j call Success
  | KeyAborted _ => exists j call, call_reached w p mi m cred j /\ member_calls m !! j = Some call /\
      is_ok (address p m call) = false
  end.
Proof.
  intros calls. induction calls as [|call rest IH]; intros index call_error log v log' Hd Hne Hr Ht;
    [by destruct (Hne eq_refl)|].
  assert (Hcall : member_calls m !! index = Some call) by (by rewrite <- (Nat.add_0_r index), <- lookup_drop, Hd).
  assert (Hrest : drop (S index) (member_calls m) = rest).
  { replace (S index) with (index + 1) by lia. by rewrite <- drop_drop, Hd. }
  cbn [try_calls] in Ht. fold (address p m call) in Ht. destruct (address p m call) as [url|e] eqn:Eu.
  2:{ injection Ht as <- <-. exists index, call. by rewrite Eu. }
  (* What was met here decides for every later call. *)
  assert (Hend : (forall c, ~ met w mi m cred index c Success) ->
    ~ call_reached w p mi m cred (S index) \/ rest = [] ->
    forall j c, call_reached w p mi m cred j -> ~ met w mi m cred j c Success).
  { intros Hs Hn j c Hj Hm. destruct (lt_eq_lt_dec j index) as [[Hlt| ->]|Hlt].
    - destruct (Hr j Hlt) as (c' & st & b & [_ Hb] & _). destruct Hm as [_ Hm]. congruence.
    - by apply (Hs c).
    - destruct Hn as [Hn| ->]; [apply Hn; intros i Hi; apply Hj; lia|]. destruct Hm as [Hm _].
      apply lookup_lt_Some in Hm. apply (f_equal length) in Hrest. rewrite length_drop in Hrest. simpl in *. lia. }
  destruct (in_time _ _) as [[|status body|timeout message]|] eqn:Er.
  - injection Ht as <- <-. exists index. split_and!; [done|by split|by rewrite Eu].
  - cbv zeta in Ht. set (rr := read_refusal w (guessing m) (negb (is_empty rest)) call status body) in Ht.
    assert (Hs : forall c, ~ met w mi m cred index c Success) by (intros c [_ Hc]; congruence).
    destruct (rf_tries_next_call rr) eqn:En.
    + apply IH in Ht; [done|done| |].
      * apply read_refusal_next in En. by intros ->.
      * intros i Hi. destruct (decide (i = index)) as [->|]; [|apply Hr; lia].
        exists call, status, body. split; [by split|]. rewrite Eu. split; [done|].
        unfold rr, read_refusal in En. cbv zeta in En. destruct (is_protocol_mismatch _ _ _); [by left|right].
        destruct (Z.eqb_spec status 404); [done|]. by destruct (guessing m), rest.
    + injection Ht as <- <-. apply Hend; [done|]. destruct rest as [|next rest]; [by right|left].
      intros Hn. destruct (Hn index ltac:(lia)) as (c & st & b & [Hc Hb] & _ & Hwrong).
      rewrite Er in Hb. injection Hb as <- <-. unfold rr in En; rewrite (refusal_follows w m) in En.
      * cbn in En. rewrite !andb_true_r in En. apply orb_false_iff in En as [E1 E2].
        destruct Hwrong as [?| ->]; [congruence|done].
      * unfold guessing. apply Nat.ltb_lt. apply (f_equal length) in Hrest. rewrite length_drop in Hrest. simpl in *. lia.
  - injection Ht as <- <-. apply Hend; [intros c [_ Hc]; congruence|left].
    intros Hn. destruct (Hn index ltac:(lia)) as (c & st & b & [_ Hb] & _). congruence.
  - injection Ht as <- <-. apply Hend; [intros c [_ Hc]; congruence|left].
    intros Hn. destruct (Hn index ltac:(lia)) as (c & st & b & [_ Hb] & _). congruence.
Qed.

Lemma try_keys_exact w p mi m keys last_error log r log' :
  try_keys w p mi m keys last_error log = (r, log') ->
  match r with
  | Ok (call, cred) => served_by w p mi m keys cred call
  | Err _ => unserved w p mi m keys
  end.
Proof.
  revert last_error log r log'. induction keys as [|[candidate credential] keys IH]; intros last_error log r log' Ht.
  { injection Ht as <- <-. left. constructor. }
  assert (Hskip : forall e log1, try_keys w p mi m keys e log1 = (r, log') ->
    key_silent w p mi m (candidate, credential) ->
    match r with
    | Ok (call, cred) => served_by w p mi m ((candidate, credential) :: keys) cred call
    | Err _ => unserved w p mi m ((candidate, credential) :: keys)
    end).
  { intros e log1 H Hsil. apply IH in H. destruct r as [[call cred]|].
    - destruct H as (b & k & a & -> & Hc & Hs & Hf). exists ((candidate, credential) :: b), k, a. by split_and!; [..|constructor].
    - destruct H as [H|(b & k & a & -> & Hb & Hf)]; [by left; constructor|right].
      exists ((candidate, credential) :: b), k, a. by split_and!; [..|constructor]. }
  cbn [try_keys] in Ht. destruct (w_secret w (cd_id credential)) eqn:Es.
  2,3: (eapply Hskip; [exact Ht|]; intros c (Hs & _); simpl in Hs; congruence).
  destruct (w_slot w mi (ck_credential candidate)) as [e|] eqn:El.
  { eapply Hskip; [exact Ht|]. intros c (_ & Hs & _). simpl in Hs. congruence. }
  destruct (try_calls _ _ _ _ _ _ _ _ _) as [v log1] eqn:Ec.
  apply try_calls_exact in Ec; [|done|done|intros i Hi; lia].
  destruct v as [call|call_error|e].
  - injection Ht as <- <-. exists [], (candidate, credential), keys. split_and!; [done|done| |constructor]. by split_and!.
  - eapply Hskip; [exact Ht|]. intros c (_ & _ & j & Hj & Hm & _). by eapply Ec.
  - injection Ht as <- <-. right. exists [], (candidate, credential), keys. split_and!; [done| |constructor]. by split_and!.
Qed.

Lemma first_chunk_exact w p mi m :
  match prove_first_chunk w p mi m with
  | None => ~ first_token_missing w p mi m
  | Some _ => first_token_missing w p mi m
  end.
Proof.
  unfold prove_first_chunk, first_chunk_deadline, first_token_missing, may_try_next. rewrite Nat.add_1_r.
  destruct (pc_stream p); cbn [andb]; [|by intros (? & _)].
  destruct (Nat.ltb_spec (S mi) (length (pc_members p))); [|intros (_ & ? & _); lia].
  destruct (mp_first_token_timeout_ms m) as [ms|]; [|by intros (_ & _ & ms & ? & _)].
  destruct (in_time (Some ms) (w_first_chunk w mi)) as [[|]|] eqn:E.
  - intros (_ & _ & ms' & [= <-] & Hc). congruence.
  - split_and!; [done|done|]. exists ms. split; [done|]. congruence.
  - split_and!; [done|done|]. exists ms. split; [done|]. congruence.
Qed.

(** ** What a walk leaves behind *)

Definition earned_by_some (w : World) (p : PreparedCall) (e : effect) : Prop :=
  exists mi m, pc_members p !! mi = Some m /\ earned w mi m e.

(** The members before the [i]-th each gave way before a byte was sent. *)
Definition walk_verdict_ok (w : World) (p : PreparedCall) (from : nat) (s s' : WalkState)
  (r : GatewayResult UpstreamAttempt) : Prop :=
  exists n passed, ws_skipped s' = ws_skipped s ++ passed /\
    sk_profile_id <$> passed = mp_profile_id <$> take n (drop from (pc_members p)) /\
    (forall i m, i < n -> drop from (pc_members p) !! i = Some m -> gives_way w p (from + i) m) /\
    match r with
    | Ok won => exists m, drop from (pc_members p) !! n = Some m /\ ua_profile_id won = mp_profile_id m /\
        served_by w p (from + n) m (mp_keys m) (ua_credential won) (ua_call won) /\
        ~ first_token_missing w p (from + n) m
    | Err e => from + n = length (pc_members p) \/
        (from = 0 /\ n = 1 /\ pc_pinned p = true /\ 1 < length (pc_members p) /\
         exists es, decide_failover w p e = (Stay, es))
    end.

Lemma take_step {A} (l : list A) from n m rest :
  drop from l = m :: rest -> take (S n) (drop from l) = m :: take n (drop (S from) l).
Proof.
  intros Hd. rewrite Hd. simpl. f_equal. replace (S from) with (from + 1) by lia.
  by rewrite <- drop_drop, Hd.
Qed.

Lemma walk_verdict_step w p from m rest s s1 s' r kind :
  drop from (pc_members p) = m :: rest -> gives_way w p from m ->
  ws_skipped s1 = ws_skipped s ++ [mkSkipped (mp_profile_id m) (wire_protocol_id (mc_target (mp_call m))) kind] ->
  walk_verdict_ok w p (S from) s1 s' r -> walk_verdict_ok w p from s s' r.
Proof.
  intros Hd Hg Hs (n & passed & Hp & Hm & Hw & Hr).
  exists (S n), (mkSkipped (mp_profile_id m) (wire_protocol_id (mc_target (mp_call m))) kind :: passed).
  assert (Hlook : forall i, drop (S from) (pc_members p) !! i = drop from (pc_members p) !! S i).
  { intros i. rewrite !lookup_drop. f_equal. lia. }
  split_and!.
  - by rewrite Hp, Hs, <- (assoc (++)).
  - rewrite (take_step _ _ _ _ _ Hd). csimpl. by rewrite Hm.
  - intros [|i] m' Hi Hm'; [|rewrite <- Nat.add_succ_comm; apply Hw; [lia|by rewrite Hlook]].
    rewrite Hd in Hm'. injection Hm' as <-. by rewrite Nat.add_0_r.
  - replace (from + S n) with (S from + n) by lia. rewrite <- Hlook.
    destruct r as [won|e]; [done|]. destruct Hr as [Hr|[Hr _]]; [by left|done].
Qed.

Lemma decide_effects_earned w p e m mi :
  pc_members p !! mi = Some m -> Forall (earned_by_some w p) (decide_failover w p e).2.
Proof.
  intros Hm. unfold decide_failover.
  repeat case_match; simpl; repeat constructor; exists mi, m; done.
Qed.

Lemma try_members_facts w p members :
  forall from last_error s r s',
  drop from (pc_members p) = members -> from <= length (pc_members p) ->
  try_members w p from members last_error s = (r, s') ->
  exists ats es, extends (ws_log s) (ws_log s') ats es /\ Forall (earned_by_some w p) es /\
    walk_verdict_ok w p from s s' r.
Proof.
  induction members as [|m rest IH]; intros from last_error s r s' Hd Hle Ht.
  { injection Ht as <- <-. exists [], []. split_and!; [apply extends_refl|constructor|].
    exists 0, []. split_and!; [by rewrite app_nil_r|done|intros i m Hi; lia|]. left.
    apply (f_equal length) in Hd. rewrite length_drop in Hd. simpl in Hd. lia. }
  assert (Hm : pc_members p !! from = Some m) by (by rewrite <- (Nat.add_0_r from), <- lookup_drop, Hd).
  assert (Hlen : S from + length rest = length (pc_members p)).
  { apply (f_equal length) in Hd. rewrite length_drop in Hd. simpl in Hd. lia. }
  assert (Hrest : drop (S from) (pc_members p) = rest).
  { replace (S from) with (from + 1) by lia. by rewrite <- drop_drop, Hd. }
  cbn [try_members] in Ht.
  set (inflight := EffInflight (mp_profile_id m) (attempt_number from)) in Ht.
  destruct (open_member_attempt _ _ _ _ _) as [mr log] eqn:Eo.
  pose proof (try_keys_exact _ _ _ _ _ _ _ _ _ Eo) as Hserved.
  apply open_member_facts in Eo as (ats & es & Hx & Hes & Hv).
  assert (Hx0 : extends (ws_log s) log ats (inflight :: es))
    by (apply (extends_trans _ _ _ [] [inflight] ats es (extends_effect _ _) Hx)).
  assert (Hes0 : Forall (earned_by_some w p) (inflight :: es)).
  { constructor; [by exists from, m|]. eapply Forall_impl; [exact Hes|]. intros e He. by exists from, m. }
  destruct mr as [[call cred]|e]; cbn [member_verdict_ok] in Hv; cbv zeta in Ht.
  - destruct (prove_first_chunk w p from m) as [e|] eqn:Ef.
    + apply IH in Ht as (ats' & es' & Hx' & Hes' & Hv'); [|done|lia].
      exists (ats ++ ats'), ((inflight :: es) ++ es').
      split_and!; [by eapply extends_trans|by apply Forall_app|].
      eapply walk_verdict_step; [exact Hd| | |exact Hv']; [|done].
      right. pose proof (first_chunk_exact w p from m) as Hn. by rewrite Ef in Hn.
    + injection Ht as <- <-. cbn [ws_log with_log].
      exists (ats ++ []), ((inflight :: es) ++ won_effects p (mp_profile_id m) cred). split_and!.
      * eapply extends_trans; [exact Hx0|]. by split; [rewrite app_nil_r|].
      * apply Forall_app. split; [done|]. unfold won_effects. apply Forall_app.
        split; [destruct (pc_group_id p); repeat constructor|repeat constructor]; by exists from, m.
      * exists 0, []. split_and!; [by rewrite app_nil_r|done|intros i m' Hi; lia|]. exists m.
        rewrite Nat.add_0_r, Hd. pose proof (first_chunk_exact w p from m) as Hn. rewrite Ef in Hn. by split_and!.
  - set (s1 := skip_member m _ _) in Ht.
    assert (Hs1 : ws_skipped s1 = ws_skipped s ++ [mkSkipped (mp_profile_id m)
      (wire_protocol_id (mc_target (mp_call m))) (member_failure_kind (w_to_lowercase w) e)]) by done.
    assert (Hgives : gives_way w p from m) by by left.
    assert (Hone : forall i m', i < 1 -> drop from (pc_members p) !! i = Some m' -> gives_way w p (from + i) m').
    { intros i m' Hi Hm'. replace i with 0 in * by lia. rewrite Hd in Hm'. injection Hm' as <-. by rewrite Nat.add_0_r. }
    assert (Hgive : forall n passed', n = 1 -> passed' = [mkSkipped (mp_profile_id m)
      (wire_protocol_id (mc_target (mp_call m))) (member_failure_kind (w_to_lowercase w) e)] ->
      sk_profile_id <$> passed' = mp_profile_id <$> take n (drop from (pc_members p)))
      by (intros n passed' -> ->; by rewrite Hd).
    destruct rest as [|next rest'].
    { injection Ht as <- <-. exists ats, (inflight :: es). split_and!; [done|done|].
      eexists 1, _. split_and!; [exact Hs1|by eapply Hgive|exact Hone|]. left. simpl in Hlen. lia. }
    assert (Hgo : forall log2 ann es2, extends log log2 [] es2 -> Forall (earned_by_some w p) es2 ->
      try_members w p (S from) (next :: rest') (Some e)
        (mkWalk log2 (ws_skipped s1) ann) = (r, s') ->
      exists ats es, extends (ws_log s) (ws_log s') ats es /\ Forall (earned_by_some w p) es /\
        walk_verdict_ok w p from s s' r).
    { intros log2 ann es2 Hx2 Hes2 Hgo. apply IH in Hgo as (ats' & es' & Hx' & Hes' & Hv'); [|done|lia].
      exists ((ats ++ []) ++ ats'), (((inflight :: es) ++ es2) ++ es'). split_and!.
      - eapply extends_trans; [by eapply extends_trans|done].
      - by rewrite !Forall_app.
      - eapply walk_verdict_step; [exact Hd|done| |exact Hv']; done. }
    destruct ((from =? 0) && pc_pinned p) eqn:Ep.
    2:{ eapply (Hgo log (ws_announced s) []); [apply extends_refl|constructor|exact Ht]. }
    pose proof (decide_effects_earned w p e m from Hm) as Hde.
    destruct (decide_failover w p e) as [[tell|] es2] eqn:Ed.
    + destruct tell; (eapply Hgo; [|exact Hde|exact Ht]); by split; [rewrite app_nil_r|].
    + injection Ht as <- <-. exists ats, (inflight :: es). split_and!; [done|done|].
      eexists 1, _. split_and!; [exact Hs1|by eapply Hgive|exact Hone|]. right.
      apply andb_true_iff in Ep as [->%Nat.eqb_eq Hp]. split_and!; [done|done|done|simpl in Hlen; lia|].
      by eexists.
Qed.


(** C2. A Key is marked failed only for what its own upstream answered: a transport
    error, or a refusal that is not about the protocol, under the kind the
    reply names; and a protocol is remembered only for an endpoint that
    answered a guess. *)
Theorem marks_are_earned (w : World) (p : PreparedCall) (e : effect) :
  e ∈ wl_effects (ws_log (walk_members w p).2) -> earned_by_some w p e.
Proof.
  destruct (walk_members w p) as [r s] eqn:Hw. intros He.
  apply try_members_facts in Hw as (ats & es & [_ Hx] & Hes & _); [|done|lia].
  cbn [snd] in He. rewrite Hx in He. rewrite Forall_forall in Hes. by apply Hes.
Qed.

(** A member gives up only after each of its Keys was tried and noted in the
    ledger's trace, or on an address that cannot be built. *)
Theorem every_key_is_accounted (w : World) (p : PreparedCall) (mi : nat) (m : PreparedMember)
  (log log' : WalkLog) (e : GatewayError) :
  open_member_attempt w p mi m log = (Err e, log') ->
  (forall key, key ∈ mp_keys m ->
     exists a, a ∈ wl_attempts log' /\ at_credential_id a = ck_credential key.1) \/
  (exists call, call ∈ member_calls m /\
     endpoint_url (ep_url (mc_endpoint call)) (mc_target call) (sent_model m) (pc_stream p) = Err e).
Proof.
  intros H. apply open_member_facts in H as (ats & es & [Hx _] & _ & [Hv|Hv]); [left|by right].
  intros key Hk. destruct (Hv key Hk) as (a & Ha & Hc). exists a. split; [|done].
  rewrite Hx. apply elem_of_app. by right.
Qed.

(** ** A member that answers is reached *)

Lemma try_calls_verdict w stream mi m cred index calls err log log' :
  (try_calls w stream mi m cred index calls err log).1 =
  (try_calls w stream mi m cred index calls err log').1.
Proof.
  revert index err log log'. induction calls as [|call rest IH]; intros index err log log'; [done|].
  cbn [try_calls]. destruct (endpoint_url _ _ _ _); [|done].
  destruct (in_time _ _) as [[|status body|]|]; try done. cbv zeta.
  destruct (rf_tries_next_call _); [apply IH|done].
Qed.

Lemma try_keys_verdict w p mi m keys err log log' :
  (try_keys w p mi m keys err log).1 = (try_keys w p mi m keys err log').1.
Proof.
  revert err log log'. induction keys as [|[candidate credential] keys IH]; intros err log log'; [done|].
  cbn [try_keys]. destruct (w_secret _ _); [|by apply IH..].
  destruct (w_slot _ _ _); [by apply IH|].
  pose proof (try_calls_verdict w (pc_stream p) mi m (ck_credential candidate) 0 (member_calls m)
    None log log') as Hv.
  destruct (try_calls _ _ _ _ _ _ _ _ log) as [v l], (try_calls _ _ _ _ _ _ _ _ log') as [v' l'].
  simpl in Hv. subst v'. destruct v; [done|apply IH|done].
Qed.

(** The member would answer on its own. *)
Definition member_answers (w : World) (p : PreparedCall) (mi : nat) (m : PreparedMember) : bool :=
  is_ok (open_member_attempt w p mi m (mkLogs [] [])).1
  && bool_decide (prove_first_chunk w p mi m = None).

(** C3. A request whose conversation is free to move is answered whenever any
    member of its route would answer. *)
Theorem some_answer_suffices (w : World) (p : PreparedCall) (i : nat) (m : PreparedMember) :
  pc_members p !! i = Some m -> member_answers w p i m = true ->
  (pc_pinned p = true -> pc_failover p = FailoverAuto) ->
  exists won s, walk_members w p = (Ok won, s).
Proof.
  intros Hm Ha Hp. unfold walk_members.
  assert (Hgen : forall members from err s, drop from (pc_members p) = members -> from <= i ->
    exists won s', try_members w p from members err s = (Ok won, s')).
  { induction members as [|m' rest IH]; intros from err s Hd Hle.
    { exfalso. assert (Hl : length (drop from (pc_members p)) = 0) by (by rewrite Hd).
      rewrite length_drop in Hl. apply lookup_lt_Some in Hm. lia. }
    assert (Hm' : pc_members p !! from = Some m')
      by (by rewrite <- (Nat.add_0_r from), <- lookup_drop, Hd).
    assert (Hrest : drop (S from) (pc_members p) = rest).
    { replace (S from) with (from + 1) by lia. by rewrite <- drop_drop, Hd. }
    assert (Hnext : member_answers w p from m' = false -> S from <= i).
    { intros Hf. destruct (decide (from = i)) as [->|]; [|lia]. congruence. }
    cbn [try_members]. set (log0 := log_effect _ _).
    pose proof (try_keys_verdict w p from m' (mp_keys m') None log0 (mkLogs [] [])) as Hv.
    unfold open_member_attempt at 1. unfold member_answers, open_member_attempt in Hnext.
    rewrite <- Hv in Hnext. destruct (try_keys _ _ _ _ _ _ log0) as [r log]. cbn [fst] in Hnext.
    destruct r as [[call cred]|e]; cbn [is_ok] in Hnext; cbv zeta.
    - destruct (prove_first_chunk w p from m') as [e|]; [|by eexists _, _].
      apply IH; [done|]. apply Hnext. by rewrite bool_decide_eq_false_2.
    - specialize (Hnext eq_refl). destruct rest as [|next rest'].
      { exfalso. assert (Hl : length (drop (S from) (pc_members p)) = 0) by (by rewrite Hrest).
        rewrite length_drop in Hl. apply lookup_lt_Some in Hm. lia. }
      destruct ((from =? 0) && pc_pinned p) eqn:Ep; [|by apply IH].
      apply andb_true_iff in Ep as [_ Ep]. unfold decide_failover. rewrite (Hp Ep).
      destruct (negb (blames_upstream e)); [by apply IH|].
      rewrite bool_decide_eq_true_2 by done. by apply IH. }
  by apply (Hgen (pc_members p) 0); [|lia].
Qed.

(** ** The ledger and the probe *)

Lemma effects_keep (request : ident) (now : Z) (es : list effect) (s : Service) :
  let s' := foldl (apply_effect request now) s es in
  sv_ledger s' = sv_ledger s /\ sv_windows s' = sv_windows s /\ sv_settings s' = sv_settings s.
Proof.
  revert s. induction es as [|e es IH]; intros s; [done|]. simpl.
  destruct (IH (apply_effect request now s e)) as (-> & -> & ->). by destruct s, e.
Qed.

Lemma finish_clears bs g b : finish_attempt bs g true !! g = Some b -> br_probe_in_flight b = false.
Proof.
  unfold finish_attempt. cbn [negb]. rewrite lookup_alter_eq.
  destruct (bs !! g); intros [= <-]. done.
Qed.

(** A request that fails leaves exactly one row, which names the error; it is
    no longer drawn as running, spends no tokens, and gives its probe back.  A
    request that is answered writes its row later. *)
Theorem failure_is_recorded_once (w : World) (p : PreparedCall) (unreadable : ident) (now : Z)
  (s : Service) :
  sv_shutting_down s = false ->
  let '(r, s') := open_attempt w p unreadable now s in
  sv_windows s' = sv_windows s /\
  match r with
  | Ok _ => sv_ledger s' = sv_ledger s
  | Err e => exists row, sv_ledger s' = sv_ledger s ++ [row] /\
      lg_request_id row = pc_request_id p /\ lg_outcome row = OutcomeFailed /\
      lg_status row = Some (GatewayError_status e) /\
      (forall entry, entry ∈ sv_inflight s' -> if_request_id entry <> pc_request_id p) /\
      (forall g b, pc_group_id p = Some g -> pc_probe p = true ->
         bs_breakers (sv_breaker s') !! g = Some b -> br_probe_in_flight b = false)
  end.
Proof.
  intros Hdown. unfold open_attempt. rewrite Hdown.
  destruct (walk_members w p) as [r walk].
  pose proof (effects_keep (pc_request_id p) now (wl_effects (ws_log walk)) s) as Hk. cbv zeta in Hk.
  set (s1 := foldl _ s _) in *. destruct Hk as (Hl & Hw & Hs).
  destruct r as [won|e]; [done|]. unfold record.
  destruct s1 as [b inflight latency accounts windows ledger lessons routes settings down].
  cbn [sv_ledger sv_windows sv_settings sv_inflight sv_breaker] in *. subst ledger windows. split.
  - cbn [failed_outcome ro_usage]. by repeat case_match.
  - eexists. split_and!; [done|done|done|done| |].
    + intros entry [_ Hin]%elem_of_retain. by apply negb_true_iff, bool_decide_eq_false in Hin.
    + intros g br -> -> Hb. by eapply finish_clears.
Qed.

Definition run_records (records : list (PreparedCall * RequestOutcome * ident * Z)) (s : Service)
  : Service :=
  foldl (fun s r => let '(p, o, unreadable, now) := r in record p o unreadable now s) s records.

(** A group's own ceiling never refuses anything while the gateway has none:
    no finished request is counted, so every snapshot reads no usage. *)
Theorem group_ceiling_is_blind (s : Service) (records : list (PreparedCall * RequestOutcome * ident * Z))
  (sn : GatewaySnapshot) (ids : list ident) (now : Z) (model : str) :
  sv_windows s = ∅ -> gp_token_limit (gs_policy (sv_settings s)) = None ->
  sn_settings sn = sv_settings s ->
  sn_gateway_used_tokens sn = gateway_used (sv_windows (run_records records s)) (sv_settings s) ids now ->
  (forall g limit, route_group_of sn model = Some g -> gg_token_limit g = Some limit ->
     (0 < tl_tokens limit)%Z) ->
  check_ceiling sn model = Ok tt.
Proof.
  intros Hw Hs Hset Hused Hpos.
  assert (Hnone : sv_windows (run_records records s) = ∅).
  { clear Hused. revert s Hw Hs Hset. induction records as [|[[[p o] u] t] records IH]; intros s Hw Hs Hset; [done|].
    simpl. destruct s as [b inflight latency accounts windows ledger lessons routes settings down].
    simpl in *. apply IH; simpl; [|done|done]. rewrite Hs. by repeat case_match. }
  rewrite Hnone in Hused.
  assert (Hzero : gateway_used ∅ (sv_settings s) ids now = 0%Z).
  { clear Hused. induction ids as [|id ids IH]; [done|]. simpl. unfold window_current.
    by rewrite lookup_empty. }
  unfold check_ceiling, token_ceiling. rewrite Hset, Hs, Hused, Hzero.
  destruct (route_group_of sn model) as [g|] eqn:Eg; [|done].
  destruct (gg_token_limit g) as [limit|] eqn:El; [|done]. simpl.
  specialize (Hpos g limit eq_refl El). destruct (Z.leb_spec (tl_tokens limit) 0); [lia|done].
Qed.

(** ** Patience *)

(** The delays slept after [n] retries. *)
Definition delays (n : nat) : list Z := omap patience_delay (seq 0 n).

Lemma patience_delay_step n : exists d, patience_delay n = Some d /\ (2000 <= d <= 30000)%Z /\
  (4 <= n -> d = 30000%Z).
Proof.
  unfold patience_delay, PATIENCE_STEPS_MS.
  do 5 (destruct n as [|n]; [eexists; split; [done|]; lia|]). simpl. eexists. split; [done|]. lia.
Qed.

Lemma delays_S n : exists d, patience_delay n = Some d /\ delays (S n) = delays n ++ [d].
Proof.
  destruct (patience_delay_step n) as (d & Hd & _). exists d. split; [done|].
  unfold delays. rewrite seq_S, omap_app. simpl. by rewrite Hd.
Qed.

Lemma sum_app (l k : list Z) : foldr Z.add 0%Z (l ++ k) = (foldr Z.add 0 l + foldr Z.add 0 k)%Z.
Proof. induction l as [|x l IH]; simpl; lia. Qed.

(** Ten retries already sleep three and a half minutes. *)
Lemma delays_sum n : 4 <= n -> foldr Z.add 0%Z (delays n) = (30000 * Z.of_nat n - 90000)%Z.
Proof.
  induction n as [|n IH]; [lia|]. intros Hn. destruct (delays_S n) as (d & Hd & ->).
  destruct (decide (n = 3)) as [->|]; [by injection Hd as <-|].
  rewrite sum_app, IH by lia. destruct (patience_delay_step n) as (d' & Hd' & _ & H).
  rewrite Hd in Hd'. injection Hd' as <-. rewrite H by lia. simpl. lia.
Qed.

(** The [n]-th result, and when it is in: every retry waits its delay and then
    for what [retry] takes. *)
Definition nth_result {A} (retry : nat -> Timed (GatewayResult A)) (r : GatewayResult A) (n : nat)
  : GatewayResult A := match n with 0 => r | S _ => arrives (retry n) end.
Fixpoint nth_result_at {A} (retry : nat -> Timed (GatewayResult A)) (now : Z) (n : nat) : Z :=
  match n with
  | 0 => now
  | S n => (nth_result_at retry now n + default 0 (patience_delay n) + after_ms (retry (S n)))%Z
  end.
(** The [n]-th result is retried: it is a recoverable error, and the wait ends
    before the deadline. *)
Definition goes_on {A} (retry : nat -> Timed (GatewayResult A)) (r : GatewayResult A) (now deadline : Z) (n : nat)
  : Prop :=
  match nth_result retry r n with
  | Ok _ => False
  | Err e => is_recoverable e = true /\
      (nth_result_at retry now n + default 0 (patience_delay n) < deadline)%Z
  end.

Lemma result_at_late {A} (retry : nat -> Timed (GatewayResult A)) now n :
  (forall k, 0 <= after_ms (retry k))%Z -> (now + foldr Z.add 0 (delays n) <= nth_result_at retry now n)%Z.
Proof.
  intros Hpos. induction n as [|n IH]; [simpl; lia|]. destruct (delays_S n) as (d & Hd & ->).
  rewrite sum_app. cbn [nth_result_at foldr]. rewrite Hd. cbn. specialize (Hpos (S n)). lia.
Qed.

Lemma patience_loop_spec {A} (retry : nat -> Timed (GatewayResult A)) (deadline now : Z) (r : GatewayResult A)
  (fuel n : nat) :
  (forall k, 0 <= after_ms (retry k))%Z -> (deadline <= now + MAX_ROUTE_PATIENCE_MS)%Z ->
  (forall k, k < n -> goes_on retry r now deadline k) -> 12 <= n + fuel ->
  exists n', patience_loop fuel retry (Some deadline) n (delays n) (nth_result_at retry now n) (nth_result retry r n) =
    Some (nth_result retry r n', n', delays n') /\
    (forall k, k < n' -> goes_on retry r now deadline k) /\ ~ goes_on retry r now deadline n'.
Proof.
  intros Hpos Hdl. revert n. induction fuel as [|fuel IH]; intros n Hgo Hfuel.
  { exfalso. destruct n as [|n]; [lia|]. specialize (Hgo n ltac:(lia)). unfold goes_on in Hgo.
    destruct (nth_result retry r n) as [|e]; [done|]. destruct Hgo as [_ Hlt].
    pose proof (result_at_late retry now n Hpos) as Hat. destruct (patience_delay_step n) as (d & Hd & Hr & _).
    rewrite Hd in Hlt. cbn in Hlt. rewrite delays_sum in Hat by lia. unfold MAX_ROUTE_PATIENCE_MS in Hdl. lia. }
  cbn [patience_loop]. cbv zeta.
  assert (Hstop : ~ goes_on retry r now deadline n -> exists n', Some (nth_result retry r n, n, delays n) =
    Some (nth_result retry r n', n', delays n') /\
    (forall k, k < n' -> goes_on retry r now deadline k) /\ ~ goes_on retry r now deadline n') by by exists n.
  destruct (nth_result retry r n) as [a|e] eqn:Er.
  { apply Hstop. unfold goes_on. rewrite Er. tauto. }
  destruct (is_recoverable e) eqn:Erec; cbn [negb].
  2:{ apply Hstop. unfold goes_on. rewrite Er, Erec. by intros []. }
  destruct (delays_S n) as (d & Hd & HS). rewrite Hd. rewrite <- HS.
  destruct (Z.leb_spec deadline (nth_result_at retry now n + d)) as [Hlate|Hlate].
  { apply Hstop. unfold goes_on. rewrite Er, Hd. cbn. lia. }
  replace (nth_result_at retry now n + d + after_ms (retry (S n)))%Z with (nth_result_at retry now (S n))
    by (cbn [nth_result_at]; by rewrite Hd).
  change (arrives (retry (S n))) with (nth_result retry r (S n)). apply IH; [|lia].
  intros k Hk. destruct (decide (k = n)) as [->|]; [|by apply Hgo; lia]. unfold goes_on. rewrite Er, Hd. by split.
Qed.

(** C40. Patience is bounded and exact: with a budget a saved route can have, the
    loop returns the first result that is an answer, or an error not worth
    retrying, or one whose wait would reach the deadline; every result before it
    was retried.  That takes at most ten retries, which together sleep less than
    the budget, in steps of 2, 4, 8, 16 and then 30 seconds. *)
Theorem patience_is_bounded {A} (retry : nat -> Timed (GatewayResult A)) (budget start now : Z)
  (r : GatewayResult A) :
  (forall k, 0 <= after_ms (retry k))%Z -> (0 < budget <= MAX_ROUTE_PATIENCE_MS)%Z ->
  (start <= now)%Z ->
  exists n, patience_loop 12 retry (patience_deadline (Some budget) start) 0 [] now r =
      Some (nth_result retry r n, n, delays n) /\
    (forall k, k < n -> goes_on retry r now (start + budget) k) /\ ~ goes_on retry r now (start + budget) n /\
    n <= 10 /\ (foldr Z.add 0 (delays n) < budget)%Z /\
    delays 10 = [2000; 4000; 8000; 16000; 30000; 30000; 30000; 30000; 30000; 30000]%Z.
Proof.
  intros Hpos Hb Hnow. unfold patience_deadline. destruct (Z.ltb_spec 0 budget); [|lia].
  destruct (patience_loop_spec retry (start + budget) now r 12 0) as (n & Hl & Hgo & Hend); [done|lia|lia|lia|].
  exists n. split; [exact Hl|]. split; [done|]. split; [done|].
  assert (Hs : (foldr Z.add 0 (delays n) < budget)%Z).
  { destruct n as [|n]; [simpl; lia|]. specialize (Hgo n ltac:(lia)). unfold goes_on in Hgo.
    destruct (nth_result retry r n) as [|e]; [done|]. destruct Hgo as [_ Hlt].
    pose proof (result_at_late retry now n Hpos). destruct (delays_S n) as (d & Hd & ->).
    rewrite sum_app. rewrite Hd in Hlt. cbn in *. lia. }
  split_and!; [|done|by vm_compute].
  destruct (decide (n <= 10)); [done|]. rewrite delays_sum in Hs by lia. unfold MAX_ROUTE_PATIENCE_MS in Hb. lia.
Qed.

(** Without a budget the first result stands. *)
Lemma no_patience {A} fuel (retry : nat -> Timed (GatewayResult A)) now start (r : GatewayResult A) :
  patience_loop (S fuel) retry (patience_deadline None start) 0 [] now r = Some (r, 0, []).
Proof. by destruct r. Qed.

(** ** The perimeter *)

Lemma host_name_port name port :
  58%N ∉ port -> Forall (fun c => is_bracket c = false) name ->
  host_name (name ++ 58%N :: port) = name.
Proof. intros Hp Hn. unfold host_name. rewrite rsplit_once_app by done. by apply trim_matches_none. Qed.

(** Only a request addressed to the loopback host, with no browser origin,
    gets past the perimeter; the port is free.  The IPv6 host needs its port: a
    bare [[::1]] is refused. *)
Theorem perimeter_is_loopback_only (name port : str) (has_origin : bool) :
  58%N ∉ port -> 58%N ∉ name -> Forall (fun c => is_bracket c = false) name ->
  (perimeter (Some (name ++ 58%N :: port)) has_origin = Ok tt <->
   has_origin = false /\ name ∈ [lit "127.0.0.1"; lit "localhost"]) /\
  perimeter (Some (lit "[::1]" ++ 58%N :: port)) false = Ok tt /\
  perimeter (Some (lit "[::1]")) false <> Ok tt.
Proof.
  intros Hp Hn Hb. unfold perimeter. split_and!.
  - change (default [] (Some ?x)) with x. rewrite host_name_port by done. rewrite !reject_ok.
    rewrite negb_false_iff, bool_decide_eq_true. unfold LOOPBACK. rewrite !elem_of_cons. split.
    + intros (H & -> & _). split; [done|].
      destruct H as [H|[H|[H|H%not_elem_of_nil]]]; [by left|right; by left| |done].
      exfalso. apply Hn. rewrite H. apply list_elem_of_here.
    + intros [-> H]. split_and!; [|done|done].
      destruct H as [H|[H|H%not_elem_of_nil]]; [by left|right; by left|done].
  - replace (host_name (default [] (Some (lit "[::1]" ++ 58%N :: port)))) with (lit "::1"); [done|].
    unfold host_name. change (default [] (Some ?x)) with x. by rewrite rsplit_once_app.
  - done.
Qed.
