(* ===== verification/Limiter.v ===== *)
(** The per-account limits of crates/model-gateway/src/limit.rs: the lane that
    caps the requests in flight with a bounded queue in arrival order, and the
    window that caps the starts of any rolling minute.  Every operation takes
    the entry of one account in the lane table, so the accounts are independent
    by construction; an interleaving of the requests of one account is a list
    of events. *)
From stdpp Require Import prelude sorting strings list.
From Stdlib Require Import NArith ZArith Lia Sorted.
From S2P Require Import Prelude CoreTypes GatewayTypes RouteModel GatewayErrors.

(** ** Lanes *)

Record Lane : Type := mkLane {
  ln_limit : Z;
  ln_busy : Z;
  ln_queue : list Z;
  ln_next_ticket : Z
}.
Definition Lane_default : Lane := mkLane 0 0 [] 0.

(** What the first locked section of [acquire] decides. *)
Inductive Arrival : Type := Unlimited | Granted | QueueFull | Queued (ticket : Z).

Definition QUEUE_FULL : GatewayError :=
  GatewayErrors.Upstream 429 (lit "every request slot for this account is busy and its queue is full").
Definition gave_up (wait_ms : Z) : GatewayError :=
  GatewayErrors.Upstream 429
    (lit "waited " ++ decimal (wait_ms / 1000) ++ lit "s for a request slot and gave up").

Definition arrive (e : option Lane) (max_concurrency queue_limit : option Z) : Arrival * option Lane :=
  match max_concurrency with
  | None => (Unlimited, e)
  | Some limit =>
    if (limit <=? 0)%Z then (Unlimited, e)
    else
      let lane := default Lane_default e in
      if (ln_busy lane <? limit)%Z && is_empty (ln_queue lane)
      then (Granted, Some (mkLane limit (ln_busy lane + 1) (ln_queue lane) (ln_next_ticket lane)))
      else if match queue_limit with Some q => (q <=? Z.of_nat (length (ln_queue lane)))%Z | None => false end
      then (QueueFull, Some (mkLane limit (ln_busy lane) (ln_queue lane) (ln_next_ticket lane)))
      else
        let ticket := (ln_next_ticket lane + 1)%Z in
        (Queued ticket, Some (mkLane limit (ln_busy lane) (ln_queue lane ++ [ticket]) ticket))
  end.

(** One turn of the polling loop: whether the ticket is granted. *)
Definition poll (e : option Lane) (ticket : Z) : bool * option Lane :=
  let lane := default Lane_default e in
  match ln_queue lane with
  | front :: queue =>
    if (front =? ticket)%Z && (ln_busy lane <? ln_limit lane)%Z
    then (true, Some (mkLane (ln_limit lane) (ln_busy lane + 1) queue (ln_next_ticket lane)))
    else (false, Some lane)
  | [] => (false, Some lane)
  end.

(** The deadline: the waiter takes its own ticket out. *)
Definition leave_queue (e : option Lane) (ticket : Z) : option Lane :=
  (fun lane => mkLane (ln_limit lane) (ln_busy lane)
    (retain (fun queued => negb (queued =? ticket)%Z) (ln_queue lane)) (ln_next_ticket lane)) <$> e.

Definition release (e : option Lane) : option Lane :=
  match e with
  | None => None
  | Some lane =>
    let busy := Z.max 0 (ln_busy lane - 1) in
    if (busy =? 0)%Z && is_empty (ln_queue lane) then None
    else Some (mkLane (ln_limit lane) busy (ln_queue lane) (ln_next_ticket lane))
  end.

Definition in_flight (e : option Lane) : Z := match e with Some lane => ln_busy lane | None => 0 end.
Definition queued (e : option Lane) : nat :=
  match e with Some lane => length (ln_queue lane) | None => 0 end.

(** ** One account over time *)

(** The lane entry with the permits outstanding and the waiters that poll. *)
Record Account : Type := mkAccountState {
  ac_entry : option Lane;
  ac_permits : nat;
  ac_waiters : list Z
}.
Definition Account_idle : Account := mkAccountState None 0 [].

Inductive event : Type :=
| Arrive (limit : Z) (queue_limit : option Z)
| Poll (ticket : Z)
| GiveUp (ticket : Z)
| Release
| Cancel (ticket : Z).

(** A waiter polls or gives up only while it waits; a permit is released once;
    a cancelled waiter is dropped where it sleeps and touches nothing. *)
Inductive account_step : Account -> event -> Account -> Prop :=
| step_granted a limit q e :
    arrive (ac_entry a) (Some limit) q = (Granted, e) ->
    account_step a (Arrive limit q) (mkAccountState e (S (ac_permits a)) (ac_waiters a))
| step_full a limit q e :
    arrive (ac_entry a) (Some limit) q = (QueueFull, e) ->
    account_step a (Arrive limit q) (mkAccountState e (ac_permits a) (ac_waiters a))
| step_queued a limit q e ticket :
    arrive (ac_entry a) (Some limit) q = (Queued ticket, e) ->
    account_step a (Arrive limit q) (mkAccountState e (ac_permits a) (ac_waiters a ++ [ticket]))
| step_poll_granted a ticket e :
    ticket ∈ ac_waiters a -> poll (ac_entry a) ticket = (true, e) ->
    account_step a (Poll ticket)
      (mkAccountState e (S (ac_permits a))
         (retain (fun t => negb (t =? ticket)%Z) (ac_waiters a)))
| step_poll_waits a ticket e :
    ticket ∈ ac_waiters a -> poll (ac_entry a) ticket = (false, e) ->
    account_step a (Poll ticket) (mkAccountState e (ac_permits a) (ac_waiters a))
| step_give_up a ticket :
    ticket ∈ ac_waiters a ->
    account_step a (GiveUp ticket)
      (mkAccountState (leave_queue (ac_entry a) ticket) (ac_permits a)
         (retain (fun t => negb (t =? ticket)%Z) (ac_waiters a)))
| step_release a permits :
    ac_permits a = S permits ->
    account_step a Release (mkAccountState (release (ac_entry a)) permits (ac_waiters a))
| step_cancel a ticket :
    ticket ∈ ac_waiters a ->
    account_step a (Cancel ticket)
      (mkAccountState (ac_entry a) (ac_permits a)
         (retain (fun t => negb (t =? ticket)%Z) (ac_waiters a))).

Inductive account_run : Account -> list event -> Account -> Prop :=
| run_nil a : account_run a [] a
| run_snoc a evs b ev c : account_run a evs b -> account_step b ev c -> account_run a (evs ++ [ev]) c.

(** ** The rolling minute *)

Definition RPM_WINDOW_MS : Z := 60000.
Definition RPM_SLACK_MS : Z := 1000.

Inductive Reservation : Type := Started | WaitUntil (at_ms : Z).

(** [Instant::checked_sub] is [None] before the earliest instant the clock of the
    platform can name, given as [origin]. *)
Definition checked_sub_ms (origin now d : Z) : option Z :=
  if (now - d <? origin)%Z then None else Some (now - d)%Z.

(** One pass of [reserve_minute]'s loop at [now]. *)
Definition reserve_pass (origin : Z) (starts : list Z) (limit : nat) (now : Z) : Reservation * list Z :=
  let horizon := default now (checked_sub_ms origin now (RPM_WINDOW_MS + RPM_SLACK_MS)) in
  let starts := drop_while (fun start => start <=? horizon)%Z starts in
  match starts with
  | oldest :: _ =>
    if length starts <? limit then (Started, starts ++ [now])
    else (WaitUntil (oldest + RPM_WINDOW_MS + RPM_SLACK_MS)%Z, starts)
  | [] => (Started, starts ++ [now])
  end.

(** The whole call: passes at the arrival and then at each wake-up, which comes
    [lag] after the moment it asked for; the result is the start, or the
    refusal. *)
Fixpoint reserve_minute (origin : Z) (fuel : nat) (starts : list Z) (limit : nat) (deadline now : Z)
  (lag : nat -> Z) : option (option Z) * list Z :=
  match fuel with
  | 0 => (None, starts)
  | S fuel =>
    match reserve_pass origin starts limit now with
    | (Started, starts) => (Some (Some now), starts)
    | (WaitUntil at_ms, starts) =>
      if (deadline <? at_ms)%Z then (Some None, starts)
      else reserve_minute origin fuel starts limit deadline (at_ms + lag fuel)%Z lag
    end
  end.

(** The starts granted by passes at the given times. *)
Fixpoint reserve_run (origin : Z) (starts : list Z) (limit : nat) (times : list Z) : list Z :=
  match times with
  | [] => []
  | now :: times =>
    match reserve_pass origin starts limit now with
    | (Started, starts) => now :: reserve_run origin starts limit times
    | (WaitUntil _, starts) => reserve_run origin starts limit times
    end
  end.

(** * Theorems *)

(** ** The lane *)

(** The busy count is the permits outstanding; the queue is strictly increasing
    tickets the lane has issued; every waiter is queued, in the same order. *)
Definition lane_ok (a : Account) : Prop :=
  match ac_entry a with
  | None => ac_permits a = 0 /\ ac_waiters a = []
  | Some lane =>
    ln_busy lane = Z.of_nat (ac_permits a) /\ StronglySorted Z.lt (ln_queue lane) /\
    Forall (fun t => t <= ln_next_ticket lane)%Z (ln_queue lane) /\
    ac_waiters a `sublist_of` ln_queue lane
  end.

Lemma arrive_cases e limit q r e' :
  arrive e (Some limit) q = (r, e') ->
  r = Unlimited /\ (limit <= 0)%Z \/
  (0 < limit)%Z /\ let lane := default Lane_default e in
  (r = Granted /\ (ln_busy lane < limit)%Z /\ ln_queue lane = [] /\
     e' = Some (mkLane limit (ln_busy lane + 1) [] (ln_next_ticket lane))) \/
  (r = QueueFull /\ ((limit <= ln_busy lane)%Z \/ ln_queue lane <> []) /\
     (exists n, q = Some n /\ (n <= Z.of_nat (length (ln_queue lane)))%Z) /\
     e' = Some (mkLane limit (ln_busy lane) (ln_queue lane) (ln_next_ticket lane))) \/
  (exists t, t = (ln_next_ticket lane + 1)%Z /\ r = Queued t /\
     ((limit <= ln_busy lane)%Z \/ ln_queue lane <> []) /\
     (forall n, q = Some n -> Z.of_nat (length (ln_queue lane)) < n)%Z /\
     e' = Some (mkLane limit (ln_busy lane) (ln_queue lane ++ [t]) t)).
Proof.
  unfold arrive. destruct (Z.leb_spec limit 0); [intros [= <- <-]; by left|]. cbv zeta.
  intros Ha. right. split; [done|]. set (lane := default Lane_default e) in *.
  destruct ((ln_busy lane <? limit)%Z && is_empty (ln_queue lane)) eqn:E1.
  { apply andb_true_iff in E1 as [Hb%Z.ltb_lt Hq]. left. injection Ha as <- <-.
    destruct (ln_queue lane); [|done]. by split_and!. }
  assert (Hfull : (limit <= ln_busy lane)%Z \/ ln_queue lane <> []).
  { apply andb_false_iff in E1 as [Hb%Z.ltb_ge|Hq%is_empty_false]; [by left|by right]. }
  right. destruct q as [n|]; [destruct (Z.leb_spec n (Z.of_nat (length (ln_queue lane)))) as [Hn|Hn]|];
    injection Ha as <- <-.
  - left. split_and!; [done|done|by exists n|done].
  - right. eexists. split_and!; [done|done|done|by intros ? [= <-]|done].
  - right. eexists. split_and!; [done|done|done|done|done].
Qed.

Lemma retain_sublist {A} (p : A -> bool) (l k : list A) :
  l `sublist_of` k -> retain p l `sublist_of` retain p k.
Proof.
  induction 1 as [|x l k _ IH|x l k _ IH]; simpl; [done| |].
  - destruct (p x); [by constructor|done].
  - destruct (p x); [by constructor|done].
Qed.

Lemma retain_sublist_self {A} (p : A -> bool) (l : list A) : retain p l `sublist_of` l.
Proof. induction l as [|x l IH]; simpl; [done|]. destruct (p x); by constructor. Qed.

Lemma retain_front t queue :
  StronglySorted Z.lt (t :: queue) -> retain (fun x => negb (x =? t)%Z) (t :: queue) = queue.
Proof.
  intros [_ Hf]%StronglySorted_inv. simpl. rewrite Z.eqb_refl. apply retain_all.
  eapply Forall_impl; [exact Hf|]. intros x Hx. simpl in Hx. destruct (Z.eqb_spec x t); [lia|done].
Qed.

Lemma StronglySorted_sublist {A} (R : A -> A -> Prop) (l k : list A) :
  l `sublist_of` k -> StronglySorted R k -> StronglySorted R l.
Proof.
  induction 1 as [|x l k Hs IH|x l k _ IH]; [done| |]; intros [H Hf]%StronglySorted_inv.
  - constructor; [by apply IH|]. rewrite Forall_forall in *. intros y Hy. by eapply Hf, elem_of_sublist.
  - by apply IH.
Qed.

Lemma StronglySorted_snoc {A} (R : A -> A -> Prop) (l : list A) x :
  StronglySorted R l -> Forall (fun y => R y x) l -> StronglySorted R (l ++ [x]).
Proof.
  induction l as [|y l IH]; intros Hs Hf; simpl; [by repeat constructor|].
  apply StronglySorted_inv in Hs as [Hs Hy]. apply Forall_cons in Hf as [Hyx Hf].
  constructor; [by apply IH|]. apply Forall_app. by split; [|constructor].
Qed.

(** [lane_ok] of the lane an operation reads. *)
Lemma lane_ok_read a :
  lane_ok a ->
  let lane := default Lane_default (ac_entry a) in
  ln_busy lane = Z.of_nat (ac_permits a) /\ StronglySorted Z.lt (ln_queue lane) /\
  Forall (fun t => t <= ln_next_ticket lane)%Z (ln_queue lane) /\
  ac_waiters a `sublist_of` ln_queue lane.
Proof.
  unfold lane_ok. destruct (ac_entry a) as [lane|]; [done|]. intros [-> ->]. simpl.
  by repeat constructor.
Qed.

Lemma poll_granted e t e' :
  poll e t = (true, e') ->
  let lane := default Lane_default e in
  exists queue, ln_queue lane = t :: queue /\ (ln_busy lane < ln_limit lane)%Z /\
    e' = Some (mkLane (ln_limit lane) (ln_busy lane + 1) queue (ln_next_ticket lane)).
Proof.
  unfold poll. cbv zeta. destruct (ln_queue _) as [|front queue]; [done|].
  destruct (Z.eqb_spec front t) as [->|]; [|done].
  destruct (Z.ltb_spec (ln_busy (default Lane_default e)) (ln_limit (default Lane_default e))); [|done].
  intros [= <-]. by exists queue.
Qed.

Lemma poll_waits e t e' : poll e t = (false, e') -> e' = Some (default Lane_default e).
Proof. unfold poll. cbv zeta. by repeat case_match; intros [= <-]. Qed.

Lemma account_step_ok a ev b : account_step a ev b -> lane_ok a -> lane_ok b.
Proof.
  intros Hstep Hok. pose proof (lane_ok_read a Hok) as (Hb & Hs & Hn & Hw). cbv zeta in *.
  destruct Hstep as [a limit q e Ha|a limit q e Ha|a limit q e t Ha|a t e Ht Hp|a t e Ht Hp|a t Ht
                    |a n Hr|a t Ht]; unfold lane_ok; cbn [ac_entry ac_permits ac_waiters].
  - apply arrive_cases in Ha as [[? _]|(_ & [(_ & _ & Hq & ->)|[(? & _)|(t & _ & ? & _)]])]; try done.
    cbn [ln_busy ln_queue ln_next_ticket]. rewrite Hq in Hw. split_and!; [lia|constructor|constructor|done].
  - apply arrive_cases in Ha as [[? _]|(_ & [(? & _)|[(_ & _ & _ & ->)|(t & _ & ? & _)]])]; try done.
  - apply arrive_cases in Ha as [[? _]|(_ & [(? & _)|[(? & _)|(t' & Ht' & [= ->] & _ & _ & ->)]])]; try done.
    cbn [ln_busy ln_queue ln_next_ticket]. split_and!; [done| | |by apply sublist_app].
    + apply StronglySorted_snoc; [done|]. eapply Forall_impl; [exact Hn|]. simpl. lia.
    + apply Forall_app. split; [|by constructor; [lia|]].
      eapply Forall_impl; [exact Hn|]. simpl. lia.
  - apply poll_granted in Hp as (queue & Hq & _ & ->). rewrite Hq in *.
    cbn [ln_busy ln_queue ln_next_ticket]. split_and!; [lia|by apply StronglySorted_inv in Hs as [? _]|by apply Forall_cons in Hn as [_ ?]|].
    rewrite <- (retain_front t queue) by done. by apply retain_sublist.
  - apply poll_waits in Hp as ->. done.
  - unfold leave_queue, lane_ok in *. destruct (ac_entry a) as [lane|]; simpl in *.
    + split_and!; [done| | |by apply retain_sublist].
      * by apply (StronglySorted_sublist _ _ (ln_queue lane)); [apply retain_sublist_self|].
      * apply Forall_forall; intros x Hx; rewrite Forall_forall in *; by apply Hn, (elem_of_sublist _ _ _ Hx), retain_sublist_self.
    + destruct Hok as [_ Hok]. rewrite Hok in Ht. by apply not_elem_of_nil in Ht.
  - unfold release, lane_ok in *. destruct (ac_entry a) as [lane|]; [|destruct Hok as [Hok _]; congruence].
    destruct Hok as (Hb' & _). cbv zeta.
    destruct ((Z.max 0 (ln_busy lane - 1) =? 0)%Z && is_empty (ln_queue lane)) eqn:E.
    + apply andb_true_iff in E as [E%Z.eqb_eq Eq]. simpl in *. split; [lia|].
      destruct (ln_queue lane); [|done]. by apply sublist_nil_r in Hw.
    + cbn [ln_busy ln_queue ln_next_ticket]. simpl in *. split_and!; try done. lia.
  - unfold lane_ok in Hok. destruct (ac_entry a) as [lane|].
    + simpl in *. split_and!; try done. by etransitivity; [apply retain_sublist_self|].
    + destruct Hok as [_ Hok]. rewrite Hok in Ht. by apply not_elem_of_nil in Ht.
Qed.

Lemma account_run_ok a evs b : account_run a evs b -> lane_ok a -> lane_ok b.
Proof. induction 1 as [|a evs b ev c _ IH Hs]; intros Ha; [done|]. by eapply account_step_ok, IH. Qed.

Lemma idle_ok : lane_ok Account_idle.
Proof. by split. Qed.

(** The account's limits while nobody edits them. *)
Definition limits_are (limit : Z) (queue_limit : option Z) (ev : event) : Prop :=
  match ev with Arrive l q => l = limit /\ q = queue_limit | _ => True end.
Definition no_cancel (ev : event) : Prop := match ev with Cancel _ => False | _ => True end.

(** Within the limits, and with the limit the events carry. *)
Definition bounded_lane (limit : Z) (queue_limit : option Z) (a : Account) : Prop :=
  match ac_entry a with
  | None => True
  | Some lane => ln_limit lane = limit /\ (ln_busy lane <= limit)%Z /\
      (forall q, queue_limit = Some q -> (0 <= q)%Z -> Z.of_nat (length (ln_queue lane)) <= q)%Z
  end.

Lemma bounded_read limit ql a :
  (0 < limit)%Z -> bounded_lane limit ql a ->
  let lane := default Lane_default (ac_entry a) in
  (ln_busy lane <= limit)%Z /\
  (forall q, ql = Some q -> (0 <= q)%Z -> Z.of_nat (length (ln_queue lane)) <= q)%Z.
Proof.
  unfold bounded_lane. destruct (ac_entry a); simpl; [tauto|]. intros H _. split; [lia|].
  intros q _ Hq. lia.
Qed.

Lemma retain_length_le {A} (p : A -> bool) (l : list A) : length (retain p l) <= length l.
Proof. apply sublist_length, retain_sublist_self. Qed.

Lemma account_step_bounded limit ql a ev b :
  (0 < limit)%Z -> account_step a ev b -> limits_are limit ql ev -> lane_ok a ->
  bounded_lane limit ql a -> bounded_lane limit ql b.
Proof.
  intros Hl Hstep Hev Hok Hb. pose proof (bounded_read limit ql a Hl Hb) as (Hbusy & Hq). cbv zeta in *.
  destruct Hstep as [a l q e Ha|a l q e Ha|a l q e t Ha|a t e Ht Hp|a t e Ht Hp|a t Ht|a n Hr|a t Ht];
    unfold bounded_lane in *; cbn [ac_entry].
  - destruct Hev as [-> ->].
    apply arrive_cases in Ha as [[? _]|(_ & [(_ & ? & He & ->)|[(? & _)|(t & _ & ? & _)]])]; try done.
    cbn [ln_limit ln_busy ln_queue length]. split_and!; [done|lia|intros; lia].
  - destruct Hev as [-> ->].
    apply arrive_cases in Ha as [[? _]|(_ & [(? & _)|[(_ & _ & _ & ->)|(t & _ & ? & _)]])]; done.
  - destruct Hev as [-> ->].
    apply arrive_cases in Ha as [[? _]|(_ & [(? & _)|[(? & _)|(t' & _ & _ & _ & Hn & ->)]])]; try done.
    cbn [ln_limit ln_busy ln_queue]. split_and!; [done|done|]. intros q' Hq' _.
    rewrite length_app. simpl. specialize (Hn q' Hq'). lia.
  - apply poll_granted in Hp as (queue & He & Hlt & ->). cbn [ln_limit ln_busy ln_queue].
    destruct (ac_entry a) as [lane|]; simpl in *; [|done]. destruct Hb as (Hlim & _ & _).
    rewrite He in Hq. rewrite Hlim in *.
    split_and!; [done|lia|]. intros q Hq' H0. specialize (Hq q Hq' H0). simpl in Hq. lia.
  - apply poll_waits in Hp as ->. unfold lane_ok in Hok. destruct (ac_entry a) as [lane|]; [done|].
    destruct Hok as [_ Hw]. rewrite Hw in Ht. by apply not_elem_of_nil in Ht.
  - unfold leave_queue. destruct (ac_entry a) as [lane|]; [|done]. destruct Hb as (Hb1 & Hb2 & Hb3).
    cbn [fmap option_fmap option_map ln_limit ln_busy ln_queue]. split_and!; [done|done|].
    intros q Hq' H0. pose proof (retain_length_le (fun queued => negb (queued =? t)%Z) (ln_queue lane)).
    specialize (Hq q Hq' H0). simpl in Hq. lia.
  - unfold release. destruct (ac_entry a) as [lane|]; [|done]. destruct Hb as (Hb1 & Hb2 & Hb3). cbv zeta.
    destruct (_ && _); [done|]. cbn [ln_limit ln_busy ln_queue]. split_and!; [done|lia|done].
  - done.
Qed.

(** C37. An account never holds more permits than its limit, and never queues more
    than its bound, in any interleaving of arrivals, grants, deadlines,
    releases and cancelled waits. *)
Theorem lane_is_bounded (limit : Z) (queue_limit : option Z) (evs : list event) (a : Account) :
  (0 < limit)%Z -> account_run Account_idle evs a -> Forall (limits_are limit queue_limit) evs ->
  (Z.of_nat (ac_permits a) <= limit)%Z /\ in_flight (ac_entry a) = Z.of_nat (ac_permits a) /\
  (forall q, queue_limit = Some q -> (0 <= q)%Z -> (Z.of_nat (queued (ac_entry a)) <= q)%Z).
Proof.
  intros Hl Hrun Hev.
  assert (H : lane_ok a /\ bounded_lane limit queue_limit a).
  { remember Account_idle as s eqn:Es. induction Hrun as [|s evs b ev c _ IH Hs]; subst.
    - split; [apply idle_ok|done].
    - apply Forall_app in Hev as [Hev [Hev1 _]%Forall_cons]. destruct IH as [H1 H2]; [done|done|].
      split; [by eapply account_step_ok|].
      by apply (account_step_bounded limit queue_limit b ev c). }
  destruct H as [Hok Hb]. unfold lane_ok, bounded_lane, in_flight, queued in *.
  destruct (ac_entry a) as [lane|].
  - destruct Hok as (He & _), Hb as (_ & ? & Hq). split_and!; [lia|done|]. intros q Hq' H0. by apply Hq.
  - destruct Hok as [-> _]. simpl. split_and!; [lia|done|]. intros; lia.
Qed.

(** Requests of one account start in the order they came: a newcomer is let in
    only when nobody waits, and a grant from the queue goes to the waiter that
    has waited longest. *)
Theorem lane_is_fair (evs : list event) (a b : Account) (ev : event) :
  account_run Account_idle evs a -> account_step a ev b ->
  ac_permits b = S (ac_permits a) ->
  match ev with
  | Arrive _ _ => ac_waiters a = []
  | Poll t => exists rest, ac_waiters a = t :: rest /\ ac_waiters b = rest /\ Forall (Z.lt t) rest
  | _ => False
  end.
Proof.
  intros Hrun Hstep Hp. pose proof (account_run_ok _ _ _ Hrun idle_ok) as Hok.
  pose proof (lane_ok_read a Hok) as (_ & Hs & _ & Hw). cbv zeta in *.
  destruct Hstep as [a l q e Ha|a l q e Ha|a l q e t Ha|a t e Ht Hg|a t e Ht Hg|a t Ht|a n Hr|a t Ht];
    cbn [ac_permits ac_waiters] in *; try lia.
  - apply arrive_cases in Ha as [[? _]|(_ & [(_ & _ & He & _)|[(? & _)|(t & _ & ? & _)]])]; try done.
    rewrite He in Hw. by apply sublist_nil_r in Hw.
  - apply poll_granted in Hg as (queue & Hq & _ & _). rewrite Hq in *.
    pose proof (StronglySorted_sublist _ _ _ Hw Hs) as Hsw.
    apply sublist_cons_r in Hw as [Hw|(rest & Heq & Hw)].
    + exfalso. apply StronglySorted_inv in Hs as [_ Hf]. rewrite Forall_forall in Hf.
      specialize (Hf t (elem_of_sublist _ _ _ Ht Hw)). lia.
    + rewrite Heq in *. exists rest. split_and!; [done|by apply retain_front|].
      by apply StronglySorted_inv in Hsw as [_ ?].
Qed.

(** Without cancelled waits the queue is exactly the waiters. *)
Lemma queue_is_waiters a ev b :
  account_step a ev b -> no_cancel ev -> lane_ok a ->
  ln_queue (default Lane_default (ac_entry a)) = ac_waiters a ->
  ln_queue (default Lane_default (ac_entry b)) = ac_waiters b.
Proof.
  intros Hstep Hev Hok Heq. pose proof (lane_ok_read a Hok) as (_ & Hs & _ & _). cbv zeta in *.
  destruct Hstep as [a l q e Ha|a l q e Ha|a l q e t Ha|a t e Ht Hg|a t e Ht Hg|a t Ht|a n Hr|a t Ht];
    cbn [ac_entry ac_waiters] in *.
  - apply arrive_cases in Ha as [[? _]|(_ & [(_ & _ & He & ->)|[(? & _)|(t & _ & ? & _)]])]; try done.
    rewrite He in Heq. exact Heq.
  - apply arrive_cases in Ha as [[? _]|(_ & [(? & _)|[(_ & _ & _ & ->)|(t & _ & ? & _)]])]; done.
  - apply arrive_cases in Ha as [[? _]|(_ & [(? & _)|[(? & _)|(t' & _ & [= ->] & _ & _ & ->)]])]; try done.
    simpl. by rewrite Heq.
  - apply poll_granted in Hg as (queue & Hq & _ & ->). simpl. rewrite <- Heq, Hq in *.
    by rewrite retain_front.
  - apply poll_waits in Hg as ->. exact Heq.
  - unfold leave_queue. rewrite <- Heq. by destruct (ac_entry a).
  - unfold release. destruct (ac_entry a) as [lane|]; [|done]. cbv zeta. simpl in Heq.
    destruct (_ && _) eqn:E; [|done]. apply andb_true_iff in E as [_ E]. simpl.
    rewrite <- Heq. by destruct (ln_queue lane).
  - done.
Qed.

(** What every interleaving without cancelled waits keeps. *)
Lemma reachable_lane limit ql evs a :
  (0 < limit)%Z -> account_run Account_idle evs a -> Forall (limits_are limit ql) evs ->
  Forall no_cancel evs ->
  lane_ok a /\ bounded_lane limit ql a /\
  ln_queue (default Lane_default (ac_entry a)) = ac_waiters a.
Proof.
  intros Hl Hrun Hev Hnc. remember Account_idle as s eqn:Es.
  induction Hrun as [|s evs b ev c _ IH Hs]; subst.
  - split_and!; [apply idle_ok|done|done].
  - apply Forall_app in Hev as [Hev [Hev1 _]%Forall_cons], Hnc as [Hnc [Hnc1 _]%Forall_cons].
    destruct IH as (H1 & H2 & H3); [done..|].
    split_and!; [by eapply account_step_ok| |by eapply queue_is_waiters].
    by apply (account_step_bounded limit ql b ev c).
Qed.

(** While every waiter is awaited, a free slot is granted to the first one the
    next time it polls. *)
Theorem free_slot_is_granted (limit : Z) (queue_limit : option Z) (evs : list event) (a : Account)
  (t : Z) (rest : list Z) :
  (0 < limit)%Z -> account_run Account_idle evs a -> Forall (limits_are limit queue_limit) evs ->
  Forall no_cancel evs -> ac_waiters a = t :: rest -> (Z.of_nat (ac_permits a) < limit)%Z ->
  exists b, account_step a (Poll t) b /\ ac_permits b = S (ac_permits a) /\ ac_waiters b = rest.
Proof.
  intros Hl Hrun Hev Hnc Hw Hp.
  pose proof (reachable_lane limit queue_limit evs a Hl Hrun Hev Hnc) as H.
  destruct H as (Hok & Hb & Hq). pose proof (lane_ok_read a Hok) as (Hbusy & Hs & _ & _). cbv zeta in *.
  rewrite Hw in Hq. rewrite Hq in Hs.
  assert (Hlim : ln_limit (default Lane_default (ac_entry a)) = limit).
  { unfold bounded_lane in Hb. destruct (ac_entry a); [by destruct Hb|done]. }
  eexists (mkAccountState _ _ _). split_and!.
  - apply step_poll_granted; [rewrite Hw; apply list_elem_of_here|].
    unfold poll. rewrite Hq, Z.eqb_refl, Hlim, Hbusy.
    destruct (Z.ltb_spec (Z.of_nat (ac_permits a)) limit); [done|lia].
  - done.
  - cbn [ac_waiters]. rewrite Hw. by apply retain_front.
Qed.

(** ** The lane as a FIFO semaphore *)

(** The contract: [held] slots out of [limit], and the waiters in arrival
    order, at most [ql] of them.  Nothing of tickets, counters or of the lane
    entry that is dropped when the account falls idle. *)
Record Fifo : Type := mkFifo { ff_held : nat; ff_waiting : list Z }.
Definition fifo_of (a : Account) : Fifo := mkFifo (ac_permits a) (ac_waiters a).
Definition busy (limit : Z) (s : Fifo) : Prop :=
  (limit <= Z.of_nat (ff_held s))%Z \/ ff_waiting s <> [].

Inductive fifo_step (limit : Z) (ql : option Z) : Fifo -> event -> Fifo -> Prop :=
| fifo_start s :
    (Z.of_nat (ff_held s) < limit)%Z -> ff_waiting s = [] ->
    fifo_step limit ql s (Arrive limit ql) (mkFifo (S (ff_held s)) [])
| fifo_refuse s n :
    busy limit s -> ql = Some n -> (n <= Z.of_nat (length (ff_waiting s)))%Z ->
    fifo_step limit ql s (Arrive limit ql) s
| fifo_join s t :
    busy limit s -> (forall n, ql = Some n -> Z.of_nat (length (ff_waiting s)) < n)%Z ->
    t ∉ ff_waiting s ->
    fifo_step limit ql s (Arrive limit ql) (mkFifo (ff_held s) (ff_waiting s ++ [t]))
| fifo_next s t rest :
    ff_waiting s = t :: rest -> (Z.of_nat (ff_held s) < limit)%Z ->
    fifo_step limit ql s (Poll t) (mkFifo (S (ff_held s)) rest)
| fifo_wait s t :
    t ∈ ff_waiting s -> head (ff_waiting s) <> Some t \/ (limit <= Z.of_nat (ff_held s))%Z ->
    fifo_step limit ql s (Poll t) s
| fifo_leave s t :
    t ∈ ff_waiting s ->
    fifo_step limit ql s (GiveUp t)
      (mkFifo (ff_held s) (retain (fun x => negb (x =? t)%Z) (ff_waiting s)))
| fifo_finish s n :
    ff_held s = S n -> fifo_step limit ql s Release (mkFifo n (ff_waiting s)).

Inductive fifo_run (limit : Z) (ql : option Z) : Fifo -> list event -> Fifo -> Prop :=
| fifo_nil s : fifo_run limit ql s [] s
| fifo_snoc s evs s' ev s'' :
    fifo_run limit ql s evs s' -> fifo_step limit ql s' ev s'' -> fifo_run limit ql s (evs ++ [ev]) s''.

(** The lane a polling waiter reads carries the limit. *)
Lemma waiter_limit limit ql a t :
  lane_ok a -> bounded_lane limit ql a -> t ∈ ac_waiters a ->
  ln_limit (default Lane_default (ac_entry a)) = limit.
Proof.
  unfold lane_ok, bounded_lane. destruct (ac_entry a) as [lane|]; [by intros _ [? _]|].
  intros [_ ->] _ []%not_elem_of_nil.
Qed.

Lemma poll_waits_why e t e' :
  poll e t = (false, e') ->
  let lane := default Lane_default e in
  head (ln_queue lane) <> Some t \/ (ln_limit lane <= ln_busy lane)%Z.
Proof.
  unfold poll. cbv zeta. destruct (ln_queue _) as [|front queue]; [by left|].
  destruct (Z.eqb_spec front t) as [->|Hne]; simpl.
  - destruct (Z.ltb_spec (ln_busy (default Lane_default e)) (ln_limit (default Lane_default e))); [done|].
    by right.
  - left. congruence.
Qed.

Lemma account_step_fifo limit ql a ev b :
  (0 < limit)%Z -> account_step a ev b -> limits_are limit ql ev -> no_cancel ev ->
  lane_ok a -> bounded_lane limit ql a ->
  ln_queue (default Lane_default (ac_entry a)) = ac_waiters a ->
  fifo_step limit ql (fifo_of a) ev (fifo_of b).
Proof.
  intros Hl Hstep Hev Hnc Hok Hb Hq. pose proof (lane_ok_read a Hok) as (Hbusy & Hs & Hn & _).
  cbv zeta in *. unfold fifo_of.
  destruct Hstep as [a l q e Ha|a l q e Ha|a l q e t Ha|a t e Ht Hp|a t e Ht Hp|a t Ht|a n Hr|a t Ht];
    cbn [ac_permits ac_waiters ac_entry] in *; try done.
  - destruct Hev as [-> ->].
    apply arrive_cases in Ha as [[? _]|(_ & [(_ & Hlt & He & _)|[(? & _)|(t & _ & ? & _)]])]; try done.
    rewrite He in Hq. rewrite <- Hq. apply (fifo_start limit ql (mkFifo _ _)); [simpl; lia|done].
  - destruct Hev as [-> ->].
    apply arrive_cases in Ha as [[? _]|(_ & [(? & _)|[(_ & Hf & (n & -> & Hle) & _)|(t & _ & ? & _)]])]; try done.
    rewrite Hq, Hbusy in *. by apply (fifo_refuse limit _ (mkFifo _ _) n).
  - destruct Hev as [-> ->].
    apply arrive_cases in Ha as [[? _]|(_ & [(? & _)|[(? & _)|(t' & Ht' & [= ->] & Hf & Hroom & _)]])]; try done.
    rewrite Hq, Hbusy in *. apply (fifo_join limit ql (mkFifo _ _)); [done|done|]. simpl.
    intros Hin. rewrite Forall_forall in Hn. specialize (Hn _ Hin). simpl in Hn. lia.
  - pose proof (waiter_limit limit ql a t Hok Hb Ht) as Hlim.
    apply poll_granted in Hp as (queue & He & Hlt & _). rewrite Hq in *. rewrite He in *.
    rewrite retain_front by done. apply (fifo_next limit ql (mkFifo _ _)); [done|simpl; lia].
  - pose proof (waiter_limit limit ql a t Hok Hb Ht) as Hlim.
    apply poll_waits_why in Hp. cbv zeta in Hp. rewrite Hq, Hlim, Hbusy in Hp.
    by apply (fifo_wait limit ql (mkFifo _ _)).
  - by apply (fifo_leave limit ql (mkFifo _ _)).
  - by apply (fifo_finish limit ql (mkFifo _ _)).
Qed.

Lemma fifo_step_enabled limit ql a ev s :
  (0 < limit)%Z -> fifo_step limit ql (fifo_of a) ev s -> lane_ok a -> exists b, account_step a ev b.
Proof.
  intros Hl Hstep Hok. remember (fifo_of a) as f eqn:Ef.
  destruct Hstep as [f|f n|f t|f t rest Hw|f t Hw|f t Hw|f n Hn]; subst f; cbn [ff_held ff_waiting fifo_of] in *.
  1-3: destruct (arrive (ac_entry a) (Some limit) ql) as [[| | |t'] e] eqn:Ea;
    [apply arrive_cases in Ea as [[_ ?]|(_ & [(? & _)|[(? & _)|(? & _ & ? & _)]])]; [lia|done..]
    |eexists; by apply step_granted|eexists; by apply step_full|eexists; by apply step_queued].
  - assert (t ∈ ac_waiters a) by (rewrite Hw; apply list_elem_of_here).
    destruct (poll (ac_entry a) t) as [[] e] eqn:Ep;
      eexists; [by apply step_poll_granted|by apply step_poll_waits].
  - destruct (poll (ac_entry a) t) as [[] e] eqn:Ep;
      eexists; [by apply step_poll_granted|by apply step_poll_waits].
  - eexists. by apply step_give_up.
  - eexists. by eapply step_release.
Qed.

(** C38. The lane implements a FIFO semaphore: while every waiter is awaited, each
    interleaving of the code's steps is an interleaving of the semaphore's
    with the same slots held and the same waiters in the same order, and the
    code can take every event the semaphore can. *)
Theorem lane_refines_fifo (limit : Z) (ql : option Z) (evs : list event) (a : Account) :
  (0 < limit)%Z -> account_run Account_idle evs a -> Forall (limits_are limit ql) evs ->
  Forall no_cancel evs ->
  fifo_run limit ql (mkFifo 0 []) evs (fifo_of a) /\
  forall ev s, fifo_step limit ql (fifo_of a) ev s -> exists b, account_step a ev b.
Proof.
  intros Hl Hrun Hev Hnc. split.
  - change (mkFifo 0 []) with (fifo_of Account_idle).
    remember Account_idle as s eqn:Es. induction Hrun as [|s evs b ev c Hrun IH Hs]; subst; [constructor|].
    apply Forall_app in Hev as [Hev [Hev1 _]%Forall_cons], Hnc as [Hnc [Hnc1 _]%Forall_cons].
    destruct (reachable_lane limit ql evs b Hl Hrun Hev Hnc) as (H1 & H2 & H3).
    econstructor; [by apply IH|by apply account_step_fifo].
  - intros ev s Hstep. destruct (reachable_lane limit ql evs a Hl Hrun Hev Hnc) as (H1 & _).
    by eapply fifo_step_enabled.
Qed.

(** The front of the queue is a ticket nobody waits for. *)
Definition orphaned (t : Z) (a : Account) : Prop :=
  t ∉ ac_waiters a /\ exists lane queue, ac_entry a = Some lane /\ ln_queue lane = t :: queue.

Lemma orphaned_step t a ev b :
  account_step a ev b -> lane_ok a -> orphaned t a ->
  orphaned t b /\ ac_permits b <= ac_permits a.
Proof.
  intros Hstep Hok [Hn (lane & queue & He & Hq)]. pose proof (lane_ok_read a Hok) as (_ & Hs & Hf & _).
  rewrite He in Hs, Hf. cbn [from_option] in Hs, Hf. unfold id in Hs, Hf. rewrite Hq in Hs, Hf. apply Forall_cons in Hf as [Ht Hf].
  assert (Hret : forall (p : Z -> bool), t ∉ retain p (ac_waiters a))
    by (intros p [? _]%elem_of_retain; done).
  destruct Hstep as [a l q e Ha|a l q e Ha|a l q e t' Ha|a t' e Ht' Hg|a t' e Ht' Hg|a t' Ht'|a n Hr|a t' Ht'];
    cbn [ac_permits ac_waiters] in *; rewrite ?He in *.
  - apply arrive_cases in Ha as [[? _]|(_ & [(_ & _ & Hnil & _)|[(? & _)|(t2 & _ & ? & _)]])]; try done.
    simpl in Hnil. congruence.
  - apply arrive_cases in Ha as [[? _]|(_ & [(? & _)|[(_ & _ & _ & ->)|(t2 & _ & ? & _)]])]; try done.
    split; [|done]. split; [done|]. by eexists _, queue.
  - apply arrive_cases in Ha as [[? _]|(_ & [(? & _)|[(? & _)|(t2 & Ht2 & [= ->] & _ & _ & ->)]])]; try done.
    simpl in Ht2. split; [|done]. split.
    + simpl. rewrite elem_of_app, list_elem_of_singleton. intros [?|?]; [done|lia].
    + eexists _, (queue ++ [t2]). split; [done|]. simpl. by rewrite Hq.
  - apply poll_granted in Hg as (queue' & Hq' & _ & _). simpl in Hq'. congruence.
  - apply poll_waits in Hg as ->. split; [|done]. split; [done|]. by eexists lane, queue.
  - split; [|done]. split; [apply Hret|]. eexists _, _. split; [done|]. simpl. rewrite Hq. simpl.
    destruct (Z.eqb_spec t t') as [->|]; [done|done].
  - split; [|lia]. split; [done|]. cbn [ac_entry]. unfold release. cbv zeta. rewrite Hq. cbn [is_empty].
    rewrite andb_false_r. eexists _, queue. split; [done|done].
  - split; [|done]. split; [apply Hret|]. by exists lane, queue.
Qed.

Lemma orphaned_forever t a evs b :
  account_run a evs b -> lane_ok a -> orphaned t a -> orphaned t b /\ ac_permits b <= ac_permits a.
Proof.
  induction 1 as [|a evs b ev c Hrun IH Hs]; intros Hok Ho; [done|].
  destruct (IH Hok Ho) as [Hob Hle].
  destruct (orphaned_step t b ev c Hs) as [? ?]; [by eapply account_run_ok|done|]. split; [done|lia].
Qed.

(** A request that is dropped while it waits leaves its ticket at the front of
    the queue, and no request of the account starts ever again: nothing that
    happens later, releases and new arrivals included, grants a slot. *)
Theorem cancelled_waiter_blocks_the_lane :
  exists evs a, account_run Account_idle evs a /\ Forall (limits_are 1 None) evs /\
    ac_permits a = 0 /\
    forall later b, account_run a later b -> ac_permits b = 0 /\ orphaned 1 b.
Proof.
  exists ([] ++ [Arrive 1 None] ++ [Arrive 1 None] ++ [Cancel 1] ++ [Release]).
  eexists. split; [|split; [by repeat constructor|]].
  - rewrite !(assoc (++)). eapply run_snoc; [eapply run_snoc; [eapply run_snoc; [eapply run_snoc;
      [constructor|]|]|]|].
    + by apply step_granted.
    + by apply step_queued.
    + apply step_cancel. apply list_elem_of_here.
    + by apply step_release.
  - split; [done|]. intros later b Hrun. apply (orphaned_forever 1) in Hrun as [Ho Hp].
    + split; [|done]. simpl in Hp. lia.
    + split_and!; [done|by repeat constructor|by repeat constructor; simpl; lia|apply sublist_nil_l].
    + split; [apply not_elem_of_nil|]. by eexists _, _.
Qed.

(** ** The minute *)

Lemma drop_while_sorted h l :
  StronglySorted Z.le l -> drop_while (fun x => x <=? h)%Z l = retain (fun x => h <? x)%Z l.
Proof.
  induction l as [|x l IH]; intros Hs; [done|]. apply StronglySorted_inv in Hs as [Hs Hf]. simpl.
  destruct (Z.leb_spec x h), (Z.ltb_spec h x); try lia; [by apply IH|].
  f_equal. symmetry. apply retain_all. eapply Forall_impl; [exact Hf|]. intros y Hy. simpl in Hy.
  apply Z.ltb_lt. lia.
Qed.

Lemma retain_later h h' l :
  (h <= h')%Z -> retain (fun x => h' <? x)%Z (retain (fun x => h <? x)%Z l) = retain (fun x => h' <? x)%Z l.
Proof.
  intros Hh. induction l as [|x l IH]; simpl; [done|].
  destruct (Z.ltb_spec h x); simpl; destruct (Z.ltb_spec h' x); try lia; by rewrite IH.
Qed.

(** The width of the window with its slack. *)
Definition span : Z := (RPM_WINDOW_MS + RPM_SLACK_MS)%Z.

(** The starts after [t] within the window and its slack. *)
Definition starts_in (t : Z) (g : list Z) : list Z :=
  retain (fun x => (t <? x) && (x <=? t + RPM_WINDOW_MS + RPM_SLACK_MS))%Z g.

(** From [from] on no window holds more than [limit] starts. *)
Definition minute_ok (from : Z) (limit : nat) (g : list Z) : Prop :=
  forall t, (from <= t)%Z -> length (starts_in t g) <= limit.

Lemma starts_in_snoc t g now :
  starts_in t (g ++ [now]) = starts_in t g ++ starts_in t [now].
Proof. apply List.filter_app. Qed.

Lemma starts_in_after t g : length (starts_in t g) <= length (retain (fun x => t <? x)%Z g).
Proof.
  unfold starts_in. induction g as [|x g IH]; simpl; [done|].
  destruct (Z.ltb_spec t x); simpl; [|done].
  destruct (Z.leb_spec x (t + RPM_WINDOW_MS + RPM_SLACK_MS)); simpl; lia.
Qed.

(** The first instant from which the clock can name the start of a window. *)
Definition first_window (origin : Z) : Z := (origin + span)%Z.

(** What a pass forgets: the starts up to its horizon, which is the start of the
    window, or the pass itself while the clock cannot name that. *)
Definition pass_horizon (origin now : Z) : Z := default now (checked_sub_ms origin now span).

Lemma pass_horizon_bounds origin now :
  (now - span <= pass_horizon origin now <= Z.max (now - span) (first_window origin))%Z.
Proof.
  unfold pass_horizon, checked_sub_ms, first_window, span, RPM_WINDOW_MS, RPM_SLACK_MS.
  destruct (Z.ltb_spec (now - (60000 + 1000)) origin); simpl; lia.
Qed.

Lemma pass_horizon_late origin now :
  (first_window origin <= now)%Z -> pass_horizon origin now = (now - span)%Z.
Proof.
  unfold pass_horizon, checked_sub_ms, first_window, span. intros H.
  destruct (Z.ltb_spec (now - (RPM_WINDOW_MS + RPM_SLACK_MS)) origin); simpl; lia.
Qed.

Lemma reserve_pass_sorted origin limit l now :
  0 < limit -> StronglySorted Z.le l ->
  let kept := retain (fun x => pass_horizon origin now <? x)%Z l in
  reserve_pass origin l limit now =
    if length kept <? limit then (Started, kept ++ [now])
    else (WaitUntil (default 0%Z (head kept) + RPM_WINDOW_MS + RPM_SLACK_MS)%Z, kept).
Proof.
  intros Hl Hs. cbv zeta. unfold reserve_pass. cbv zeta. fold span. fold (pass_horizon origin now).
  rewrite drop_while_sorted by done.
  destruct (retain _ l) as [|oldest kept]; [|done].
  cbn [length]. destruct (Nat.ltb_spec 0 limit); [done|lia].
Qed.

(** The list the limiter keeps agrees with the starts [g] it granted, as far as a
    window from [now] on can see. *)
Definition remembers (origin now : Z) (starts g : list Z) : Prop :=
  StronglySorted Z.le starts /\ Forall (fun x => x <= now)%Z starts /\
  forall t, (first_window origin <= t)%Z -> (now - span <= t)%Z ->
    retain (fun x => t <? x)%Z starts = retain (fun x => t <? x)%Z g.

Lemma remembers_pass origin now now' starts g :
  remembers origin now starts g -> (now <= now')%Z ->
  remembers origin now' (retain (fun x => pass_horizon origin now' <? x)%Z starts) g.
Proof.
  intros (Hs & Hf & Hg) Hle. split_and!.
  - by eapply StronglySorted_sublist; [apply retain_sublist_self|].
  - apply Forall_forall. intros x [Hx _]%elem_of_retain.
    rewrite Forall_forall in Hf. specialize (Hf x Hx). lia.
  - intros t Ht Hn. rewrite retain_later by (pose proof (pass_horizon_bounds origin now'); lia).
    apply Hg; lia.
Qed.

Lemma remembers_start origin now starts g :
  remembers origin now starts g -> remembers origin now (starts ++ [now]) (g ++ [now]).
Proof.
  intros (Hs & Hf & Hg). split_and!; [by apply StronglySorted_snoc|apply Forall_app; by repeat constructor; try lia|].
  intros t Ht Hn. rewrite !List.filter_app. by rewrite Hg.
Qed.

Lemma minute_ok_snoc origin limit kept g now :
  minute_ok (first_window origin) limit g -> remembers origin now kept g -> length kept < limit ->
  minute_ok (first_window origin) limit (g ++ [now]).
Proof.
  intros Hok (_ & _ & Hg) Hlen t Ht. rewrite starts_in_snoc, length_app. unfold starts_in at 2. simpl.
  destruct ((t <? now) && (now <=? t + RPM_WINDOW_MS + RPM_SLACK_MS))%Z eqn:E;
    [|simpl; rewrite Nat.add_0_r; by apply Hok].
  simpl. apply andb_true_iff in E as [E1%Z.ltb_lt E2%Z.leb_le].
  pose proof (starts_in_after t g) as Ha.
  rewrite <- Hg in Ha by (unfold span; lia).
  pose proof (retain_length_le (fun x => t <? x)%Z kept). lia.
Qed.

Lemma reserve_run_ok origin limit times starts g now :
  0 < limit -> remembers origin now starts g -> StronglySorted Z.le (now :: times) ->
  minute_ok (first_window origin) limit g ->
  minute_ok (first_window origin) limit (g ++ reserve_run origin starts limit times).
Proof.
  intros Hl. revert starts g now. induction times as [|t times IH];
    intros starts g now Hr Ht Hg; [by rewrite app_nil_r|].
  apply StronglySorted_inv in Ht as [Ht [Hnt _]%Forall_cons].
  cbn [reserve_run]. rewrite reserve_pass_sorted by (done || apply Hr). cbv zeta.
  apply (remembers_pass _ _ t) in Hr; [|done].
  destruct (Nat.ltb_spec (length (retain (fun x => pass_horizon origin t <? x)%Z starts)) limit)
    as [Hlt|Hge]; [|by apply (IH _ _ t)].
  rewrite cons_middle, (assoc (++)). apply (IH _ _ t); [by apply remembers_start|done|].
  by eapply minute_ok_snoc.
Qed.

(** C39. However the requests of an account arrive, no window of sixty-one seconds ever
    sees more starts than the limit. The clock has to name the start of the window
    before the first request of it: a window that begins in the first sixty-one
    seconds the clock can name is not bounded ([early_minute_is_open]). *)
Theorem minute_is_bounded (origin : Z) (limit : nat) (times : list Z) (t : Z) :
  0 < limit -> StronglySorted Z.le times -> (first_window origin <= t)%Z ->
  length (starts_in t (reserve_run origin [] limit times)) <= limit.
Proof.
  intros Hl Hs Ht. destruct times as [|now times]; [simpl; lia|].
  assert (Hd : StronglySorted Z.le (now :: now :: times)).
  { pose proof Hs as Hs'. apply StronglySorted_inv in Hs' as [_ Hf]. constructor; [done|].
    by constructor; [lia|]. }
  apply (reserve_run_ok origin limit (now :: times) [] [] now); [done| |done|intros t' _; simpl; lia|done].
  split_and!; [constructor|constructor|done].
Qed.

(** While the clock cannot name an instant one window back, every pass forgets all
    the starts before it, and the limit bounds nothing. *)
Theorem early_minute_is_open (origin : Z) (limit : nat) (times starts : list Z) :
  0 < limit -> StronglySorted Z.le (starts ++ times) -> Forall (fun t => t < first_window origin)%Z times ->
  reserve_run origin starts limit times = times.
Proof.
  intros Hl. revert starts. induction times as [|t times IH]; intros starts Hs Hf; [done|].
  apply Forall_cons in Hf as [Ht Hf].
  apply StronglySorted_app in Hs as (Hx & Hs & Hts). cbn [reserve_run].
  rewrite reserve_pass_sorted by done. cbv zeta.
  assert (Hnone : retain (fun x => pass_horizon origin t <? x)%Z starts = []).
  { apply retain_none, Forall_forall. intros x Hin. apply Z.ltb_ge.
    unfold pass_horizon, checked_sub_ms, first_window in *.
    destruct (Z.ltb_spec (t - span) origin); [simpl|lia]. apply Hx; [done|apply list_elem_of_here]. }
  rewrite Hnone. simpl. destruct (Nat.ltb_spec 0 limit); [|lia]. f_equal. by apply (IH [t]).
Qed.

(** A request that finds its minute full waits at most once when nobody else
    takes the freed start: it starts as the oldest one leaves the window, or it
    is refused at once because that is past its deadline. *)
Theorem minute_wait_is_single (origin : Z) (limit : nat) (starts : list Z) (deadline now : Z) (lag : nat -> Z)
  (fuel : nat) :
  0 < limit -> length starts <= limit -> StronglySorted Z.le starts ->
  (forall n, 0 <= lag n)%Z -> (first_window origin <= now)%Z ->
  exists r starts', reserve_minute origin (S (S fuel)) starts limit deadline now lag = (Some r, starts') /\
    length starts' <= limit /\
    match r with
    | Some at_ms => (at_ms = now \/ now < at_ms <= deadline + lag (S fuel))%Z
    | None => exists oldest, oldest ∈ starts /\ (deadline < oldest + RPM_WINDOW_MS + RPM_SLACK_MS)%Z
    end.
Proof.
  intros Hl Hlen Hs Hlag Hnow. cbn [reserve_minute]. rewrite reserve_pass_sorted by done. cbv zeta.
  rewrite (pass_horizon_late origin now) by done.
  set (kept := retain _ starts).
  assert (Hk : length kept <= length starts) by apply retain_length_le.
  assert (Hks : StronglySorted Z.le kept) by (eapply StronglySorted_sublist; [apply retain_sublist_self|done]).
  destruct (Nat.ltb_spec (length kept) limit) as [Hlt|Hge].
  { eexists (Some now), _. split; [done|]. split; [rewrite length_app; simpl; lia|by left]. }
  destruct kept as [|oldest rest] eqn:Ek; [simpl in Hge; lia|]. cbn [head].
  change (default 0%Z (Some oldest)) with oldest.
  assert (Hold : oldest ∈ retain (fun x => now - span <? x)%Z starts).
  { change (oldest ∈ kept). rewrite Ek. apply list_elem_of_here. }
  apply elem_of_retain in Hold as [Hin Hafter%Z.ltb_lt].
  destruct (Z.ltb_spec deadline (oldest + RPM_WINDOW_MS + RPM_SLACK_MS)) as [Hd|Hd].
  { eexists None, _. split; [done|]. split; [simpl in *; lia|]. by exists oldest. }
  specialize (Hlag (S fuel)) as Hl1. set (next := (_ + lag (S fuel))%Z).
  rewrite reserve_pass_sorted by done. cbv zeta.
  rewrite (pass_horizon_late origin next) by (unfold next, span in *; lia).
  assert (Hfree : length (retain (fun x => next - span <? x)%Z (oldest :: rest)) < limit).
  { pose proof (retain_length_le (fun x => next - span <? x)%Z rest). simpl in *.
    destruct (Z.ltb_spec (next - span) oldest) as [Hx|]; [unfold next, span in Hx; lia|lia]. }
  destruct (Nat.ltb_spec (length (retain (fun x => next - span <? x)%Z (oldest :: rest))) limit); [|lia].
  eexists (Some next), _. split; [done|]. split; [rewrite length_app; cbn [length]; lia|].
  right. unfold next, span in *. lia.
Qed.
