(* ===== verification/Relay.v ===== *)
(** The end-to-end encrypted relay session (crates/relay/src/lib.rs) over the
    wire types of crates/core/src/relay.rs and the canonical JSON of
    crates/core/src/canonical_json.rs.  The cryptographic crates, base64 and
    serde's text of a value are an interface, the class [Crypto]; what the
    session relies on of them is the class [CryptoLaws]; a concrete instance is
    in the file Scenario. *)
From stdpp Require Import prelude strings list sorting.
From Stdlib Require Import NArith ZArith Lia Sorted.
From S2P Require Import Prelude CoreTypes GatewayTypes Ir Json ModelResolve.

Abbreviation bytes := (list N).

(** ** Wire types *)

Record RelayProtocolVersion : Type := mkVersion { pv_major : Z; pv_minor : Z }.
#[export] Instance RelayProtocolVersion_eq_dec : EqDecision RelayProtocolVersion.
Proof. solve_decision. Defined.
Definition foundation : RelayProtocolVersion := mkVersion 0 5.

Inductive RelayFrameKind : Type :=
| PairRequest | PairResponse | Command | Response | Event | Heartbeat | HeartbeatAck | ErrorFrame.
#[export] Instance RelayFrameKind_eq_dec : EqDecision RelayFrameKind.
Proof. solve_decision. Defined.

Inductive RelayErrorCode : Type :=
| UnsupportedProtocol | InvalidFrame | InvalidRoom | InvalidCorrelation | CryptoSetupFailed
| DecryptFailed | ReplayDetected | FrameOutOfOrder | ConnectionLimit | QueueLimit | RateLimit
| BandwidthLimit | PeerNotFound | SessionRevoked | PushAuthenticationRequired
| PushProviderUnavailable.
Definition RelayErrorCode_as_str (c : RelayErrorCode) : str :=
  match c with
  | UnsupportedProtocol => lit "relay_unsupported_protocol"
  | InvalidFrame => lit "relay_invalid_frame"
  | InvalidRoom => lit "relay_invalid_room"
  | InvalidCorrelation => lit "relay_invalid_correlation"
  | CryptoSetupFailed => lit "relay_crypto_setup_failed"
  | DecryptFailed => lit "relay_decrypt_failed"
  | ReplayDetected => lit "relay_replay_detected"
  | FrameOutOfOrder => lit "relay_frame_out_of_order"
  | ConnectionLimit => lit "relay_connection_limit"
  | QueueLimit => lit "relay_queue_limit"
  | RateLimit => lit "relay_rate_limit"
  | BandwidthLimit => lit "relay_bandwidth_limit"
  | PeerNotFound => lit "relay_peer_not_found"
  | SessionRevoked => lit "relay_session_revoked"
  | PushAuthenticationRequired => lit "relay_push_authentication_required"
  | PushProviderUnavailable => lit "relay_push_provider_unavailable"
  end.
Definition relay_error (code : RelayErrorCode) (message : string) : VibexError :=
  VibexError_new Remote (RelayErrorCode_as_str code) (lit message).

Record RelayPlaintextEnvelope : Type := mkEnvelope {
  en_room_id : ident;
  en_session_id : ident;
  en_sender_peer_id : ident;
  en_recipient_peer_id : ident;
  en_correlation_id : option ident;
  en_kind : RelayFrameKind;
  en_counter : Z;
  en_issued_at_ms : Z;
  en_payload : json
}.
Record RelayVisibleFrameMetadata : Type := mkVisible {
  vi_version : RelayProtocolVersion;
  vi_room_id : ident;
  vi_session_id : ident;
  vi_sender_peer_id : ident;
  vi_recipient_peer_id : ident;
  vi_correlation_id : option ident;
  vi_kind : RelayFrameKind;
  vi_counter : Z
}.
Record RelayEncryptedFrame : Type := mkFrame {
  fr_version : RelayProtocolVersion;
  fr_room_id : ident;
  fr_session_id : ident;
  fr_frame_id : ident;
  fr_sender_peer_id : ident;
  fr_recipient_peer_id : ident;
  fr_correlation_id : option ident;
  fr_kind : RelayFrameKind;
  fr_nonce : str;
  fr_ciphertext : str;
  fr_counter : Z;
  fr_created_at_ms : Z
}.

(** ** What the session is built on *)

Definition KEY_SIZE : nat := 32.
Definition NONCE_SIZE : nat := 24.

(** X25519, HKDF and HMAC over SHA-256, XChaCha20-Poly1305, the two base64
    alphabets, and serde's encodings. *)
Class Crypto : Type := {
  public_of : bytes -> bytes;
  dh : bytes -> bytes -> bytes;
  contributory : bytes -> bool;
  hkdf : option bytes -> bytes -> bytes -> nat -> option bytes;
  hmac : bytes -> bytes -> bytes;
  aead_encrypt : bytes -> bytes -> bytes -> bytes -> option bytes;
  aead_decrypt : bytes -> bytes -> bytes -> bytes -> option bytes;
  base64 : bytes -> str;
  base64_decode : str -> option bytes;
  base64url : bytes -> str;
  base64url_decode : str -> option bytes;
  encode_metadata : RelayVisibleFrameMetadata -> option bytes;
  encode_envelope : RelayPlaintextEnvelope -> option bytes;
  decode_envelope : bytes -> option RelayPlaintextEnvelope;
  encode_json : json -> option bytes
}.

(** How deep a value nests: a scalar is no level. *)
Fixpoint json_depth (v : json) : nat :=
  match v with
  | JArray items => S (foldr (fun v d => Nat.max (json_depth v) d) 0 items)
  | JObject fields => S (foldr (fun f d => Nat.max (json_depth f.2) d) 0 fields)
  | _ => 0
  end.
(** serde_json refuses a text once 128 levels are open, and the envelope that
    holds the payload is one of them. *)
Definition PAYLOAD_DEPTH : nat := 126.
(** A payload the parser gives back from its text: see [json_plain]. *)
Definition sendable (v : json) : Prop := json_plain v /\ json_depth v <= PAYLOAD_DEPTH.

(** Their documented behaviour. *)
Class CryptoLaws `{Crypto} : Prop := {
  dh_agrees : forall a b, dh a (public_of b) = dh b (public_of a);
  public_length : forall a, length (public_of a) = KEY_SIZE;
  hkdf_length : forall salt ikm info n out, hkdf salt ikm info n = Some out -> length out = n;
  aead_opens : forall key nonce aad msg c,
    aead_encrypt key nonce aad msg = Some c -> aead_decrypt key nonce aad c = Some msg;
  base64_decodes : forall b, base64_decode (base64 b) = Some b;
  base64url_decodes : forall b, base64url_decode (base64url b) = Some b;
  envelope_decodes : forall e b,
    sendable (en_payload e) -> encode_envelope e = Some b -> decode_envelope b = Some e
}.

(** ** Canonical JSON (core/src/canonical_json.rs) *)

Definition field_key (f : str * json) : list Z := Z.of_N <$> f.1.
(** [Map::insert]: a repeated key keeps one entry. *)
Fixpoint map_insert (k : str) (v : json) (m : list (str * json)) : list (str * json) :=
  match m with
  | [] => [(k, v)]
  | (k', v') :: m => if bool_decide (k = k') then (k, v) :: m else (k', v') :: map_insert k v m
  end.
Fixpoint normalize (v : json) : json :=
  match v with
  | JObject fields =>
    JObject (foldl (fun m f => map_insert f.1 f.2 m) []
      (sort_by_key field_key ((fun f => (f.1, normalize f.2)) <$> fields)))
  | JArray items => JArray (normalize <$> items)
  | other => other
  end.

Section session.
Context `{Crypto}.

Definition canonical_json_vec (v : json) : option bytes := encode_json (normalize v).

(** ** Keys *)

(** A key pair is its private key. *)
Record RelayKeypair : Type := mkKeypair { kp_secret : bytes }.
Definition public_key (k : RelayKeypair) : bytes := public_of (kp_secret k).
Definition public_key_base64 (k : RelayKeypair) : str := base64 (public_key k).
Definition from_private_key_base64url (value : str) : VibexResult RelayKeypair :=
  let? b := ok_or (base64url_decode value)
    (relay_error CryptoSetupFailed "relay private key was not valid base64url") in
  if length b =? KEY_SIZE then Ok (mkKeypair b)
  else Err (relay_error CryptoSetupFailed "relay private key had an invalid length").

Definition decode_public_key (value : str) : VibexResult bytes :=
  let? b := ok_or (base64_decode value)
    (relay_error CryptoSetupFailed "relay public key was not valid base64") in
  if length b =? KEY_SIZE then Ok b
  else Err (relay_error CryptoSetupFailed "relay public key had an invalid length").
Definition decode_nonce (value : str) : VibexResult bytes :=
  let? b := ok_or (base64_decode value)
    (relay_error InvalidFrame "relay frame nonce was not valid base64") in
  if length b =? NONCE_SIZE then Ok b
  else Err (relay_error InvalidFrame "relay frame nonce had an invalid length").
Definition decode_ciphertext (value : str) : VibexResult bytes :=
  ok_or (base64_decode value)
    (relay_error InvalidFrame "relay frame ciphertext was not valid base64").
Definition associated_data (m : RelayVisibleFrameMetadata) : VibexResult bytes :=
  ok_or (encode_metadata m) (relay_error InvalidFrame "failed to serialize relay associated data").

Inductive RelayCryptoSuite : Type := LegacyV1 | DirectionalV2.
#[export] Instance RelayCryptoSuite_eq_dec : EqDecision RelayCryptoSuite.
Proof. solve_decision. Defined.
Definition RelayCryptoSuite_as_str (s : RelayCryptoSuite) : str :=
  match s with
  | LegacyV1 => lit "x25519-hkdf-sha256-xchacha20poly1305-v1"
  | DirectionalV2 => lit "x25519-hkdf-sha256-xchacha20poly1305-v2"
  end.
Definition negotiate (value : option str) : VibexResult RelayCryptoSuite :=
  match value with
  | None => Ok LegacyV1
  | Some v =>
    if bool_decide (v = RelayCryptoSuite_as_str LegacyV1) then Ok LegacyV1
    else if bool_decide (v = RelayCryptoSuite_as_str DirectionalV2) then Ok DirectionalV2
    else Err (relay_error UnsupportedProtocol "relay crypto suite is not supported")
  end.

Record RelaySessionConfig : Type := mkConfig {
  cf_room_id : ident;
  cf_session_id : ident;
  cf_local_peer_id : ident;
  cf_remote_peer_id : ident
}.
Record RelaySession : Type := mkSession {
  se_config : RelaySessionConfig;
  se_suite : RelayCryptoSuite;
  se_send_key : bytes;
  se_receive_key : bytes;
  se_next_send : Z;
  se_next_receive : Z
}.

(** The two strings in order, as [sort] leaves a pair. *)
Definition ordered (a b : str) : str * str := if str_le a b then (a, b) else (b, a).
Definition colon : str := lit ":".
Definition salt_of (c : RelaySessionConfig) : bytes :=
  as_bytes (cf_room_id c ++ colon ++ cf_session_id c).
Definition pair_text (p : str * str) : str := p.1 ++ colon ++ p.2.
Definition peers_text (c : RelaySessionConfig) : str :=
  pair_text (ordered (cf_local_peer_id c) (cf_remote_peer_id c)).

Definition legacy_info (c : RelaySessionConfig) (local_key remote_key : str) : str :=
  lit "vibex-relay-e2ee-v1:" ++ peers_text c ++ colon ++ pair_text (ordered local_key remote_key).
Definition direction_info (c : RelaySessionConfig) (local_key remote_key : str) (sender : ident)
  (endpoint : option str) : str :=
  lit "vibex-relay-e2ee-v2:" ++ peers_text c ++ colon ++ pair_text (ordered local_key remote_key)
  ++ colon ++ sender ++ colon ++ trim (default [] endpoint).
Definition ephemeral_info (c : RelaySessionConfig) (local_static remote_static local_eph remote_eph : str)
  (sender : ident) (endpoint : option str) : str :=
  lit "vibex-relay-e2ee-v2-ephemeral:" ++ peers_text c ++ colon
  ++ pair_text (ordered local_static remote_static) ++ colon
  ++ pair_text (ordered local_eph remote_eph) ++ colon ++ sender ++ colon
  ++ trim (default [] endpoint) ++ colon ++ cf_session_id c.
Definition derive_key (shared : bytes) (c : RelaySessionConfig) (info : str) (failure : string)
  : VibexResult bytes :=
  ok_or (hkdf (Some (salt_of c)) shared (as_bytes info) KEY_SIZE)
    (relay_error CryptoSetupFailed failure).
Definition derive_nonce (key : bytes) (counter : Z) : VibexResult bytes :=
  ok_or (hkdf None key (as_bytes (lit "vibex-relay-nonce-v1:" ++ decimal counter)) NONCE_SIZE)
    (relay_error CryptoSetupFailed "failed to derive relay frame nonce").

(** ** Establishing *)

Definition agree (local : RelayKeypair) (remote_base64 : str) (failure : string) : VibexResult bytes :=
  let? remote := decode_public_key remote_base64 in
  let shared := dh (kp_secret local) remote in
  reject (negb (contributory shared)) with (relay_error CryptoSetupFailed failure) ;;
  Ok shared.

Definition establish_with_suite (local : RelayKeypair) (remote_base64 : str) (c : RelaySessionConfig)
  (suite : RelayCryptoSuite) (endpoint : option str) : VibexResult RelaySession :=
  let? shared := agree local remote_base64
    "relay key agreement did not produce a contributory secret" in
  let mine := public_key_base64 local in
  match suite with
  | LegacyV1 =>
    let? key := derive_key shared c (legacy_info c mine remote_base64)
      "failed to derive legacy relay session key" in
    Ok (mkSession c suite key key 1 1)
  | DirectionalV2 =>
    let? send := derive_key shared c
      (direction_info c mine remote_base64 (cf_local_peer_id c) endpoint)
      "failed to derive relay session key" in
    let? receive := derive_key shared c
      (direction_info c mine remote_base64 (cf_remote_peer_id c) endpoint)
      "failed to derive relay session key" in
    Ok (mkSession c suite send receive 1 1)
  end.
Definition establish (local : RelayKeypair) (remote_base64 : str) (c : RelaySessionConfig)
  : VibexResult RelaySession := establish_with_suite local remote_base64 c LegacyV1 None.
Definition establish_with_endpoint (local : RelayKeypair) (remote_base64 : str)
  (c : RelaySessionConfig) (endpoint : option str) : VibexResult RelaySession :=
  establish_with_suite local remote_base64 c DirectionalV2 endpoint.

Definition establish_with_ephemeral (local : RelayKeypair) (remote_base64 : str)
  (c : RelaySessionConfig) (endpoint : option str) (local_static remote_static : str)
  : VibexResult RelaySession :=
  let? shared := agree local remote_base64
    "relay ephemeral key agreement did not produce a contributory secret" in
  let info := fun sender =>
    ephemeral_info c local_static remote_static (public_key_base64 local) remote_base64 sender endpoint in
  let? send := derive_key shared c (info (cf_local_peer_id c))
    "failed to derive ephemeral relay session key" in
  let? receive := derive_key shared c (info (cf_remote_peer_id c))
    "failed to derive ephemeral relay session key" in
  Ok (mkSession c DirectionalV2 send receive 1 1).

(** ** Frames *)

Definition set_counters (s : RelaySession) (send receive : Z) : RelaySession :=
  mkSession (se_config s) (se_suite s) (se_send_key s) (se_receive_key s) send receive.
Definition checked_add_u64 (a b : Z) : option Z :=
  if (a + b <=? u64_max)%Z then Some (a + b)%Z else None.

Definition envelope_of (s : RelaySession) (kind : RelayFrameKind) (corr : option ident)
  (payload : json) (now : Z) : RelayPlaintextEnvelope :=
  mkEnvelope (cf_room_id (se_config s)) (cf_session_id (se_config s))
    (cf_local_peer_id (se_config s)) (cf_remote_peer_id (se_config s)) corr kind
    (se_next_send s) now payload.
Definition visible_of (s : RelaySession) (kind : RelayFrameKind) (corr : option ident)
  : RelayVisibleFrameMetadata :=
  mkVisible foundation (cf_room_id (se_config s)) (cf_session_id (se_config s))
    (cf_local_peer_id (se_config s)) (cf_remote_peer_id (se_config s)) corr kind (se_next_send s).

(** [seal_json]: [random] is the nonce the legacy suite draws, [frame_id] the
    fresh frame id. The counter is spent before anything can fail. *)
Definition seal_json (s : RelaySession) (kind : RelayFrameKind) (corr : option ident)
  (payload : json) (random : bytes) (frame_id : ident) (now created : Z)
  : VibexResult RelayEncryptedFrame * RelaySession :=
  match checked_add_u64 (se_next_send s) 1 with
  | None => (Err (relay_error FrameOutOfOrder "relay counter overflow"), s)
  | Some next =>
    (let? plain := ok_or (encode_envelope (envelope_of s kind corr payload now))
       (relay_error InvalidFrame "failed to serialize relay plaintext envelope") in
     let? nonce := match se_suite s with
                   | LegacyV1 => Ok random
                   | DirectionalV2 => derive_nonce (se_send_key s) (se_next_send s)
                   end in
     let? aad := associated_data (visible_of s kind corr) in
     let? cipher := ok_or (aead_encrypt (se_send_key s) nonce aad plain)
       (relay_error CryptoSetupFailed "relay encryption failed") in
     Ok {| fr_version := foundation; fr_room_id := cf_room_id (se_config s);
           fr_session_id := cf_session_id (se_config s); fr_frame_id := frame_id;
           fr_sender_peer_id := cf_local_peer_id (se_config s);
           fr_recipient_peer_id := cf_remote_peer_id (se_config s);
           fr_correlation_id := corr; fr_kind := kind; fr_nonce := base64 nonce;
           fr_ciphertext := base64 cipher; fr_counter := se_next_send s;
           fr_created_at_ms := created |},
     set_counters s next (se_next_receive s))
  end.

Definition validate_visible_frame (s : RelaySession) (f : RelayEncryptedFrame) : VibexResult unit :=
  reject (negb (bool_decide (fr_version f = foundation))) with
    (relay_error UnsupportedProtocol "unsupported relay protocol version") ;;
  reject (negb (bool_decide (fr_room_id f = cf_room_id (se_config s)))
          || negb (bool_decide (fr_session_id f = cf_session_id (se_config s)))) with
    (relay_error InvalidRoom "relay frame does not belong to this room or session") ;;
  reject (negb (bool_decide (fr_sender_peer_id f = cf_remote_peer_id (se_config s)))) with
    (relay_error InvalidFrame "relay frame sender does not match the remote peer") ;;
  reject (negb (bool_decide (fr_recipient_peer_id f = cf_local_peer_id (se_config s)))) with
    (relay_error InvalidFrame "relay frame recipient does not match the local peer") ;;
  Ok tt.
Definition validate_plaintext_matches_frame (f : RelayEncryptedFrame) (e : RelayPlaintextEnvelope)
  : VibexResult unit :=
  reject (negb (bool_decide (en_room_id e = fr_room_id f))
          || negb (bool_decide (en_session_id e = fr_session_id f))
          || negb (bool_decide (en_sender_peer_id e = fr_sender_peer_id f))
          || negb (bool_decide (en_recipient_peer_id e = fr_recipient_peer_id f))
          || negb (bool_decide (en_correlation_id e = fr_correlation_id f))
          || negb (bool_decide (en_kind e = fr_kind f))
          || negb (en_counter e =? fr_counter f)%Z) with
    (relay_error InvalidFrame "relay plaintext metadata does not match the encrypted frame") ;;
  Ok tt.

Definition metadata_of (f : RelayEncryptedFrame) : RelayVisibleFrameMetadata :=
  mkVisible (fr_version f) (fr_room_id f) (fr_session_id f) (fr_sender_peer_id f)
    (fr_recipient_peer_id f) (fr_correlation_id f) (fr_kind f) (fr_counter f).

(** Everything [open_json] decides before it moves its counter. *)
Definition read_frame (s : RelaySession) (f : RelayEncryptedFrame)
  : VibexResult RelayPlaintextEnvelope :=
  try validate_visible_frame s f ;;
  reject (fr_counter f <? se_next_receive s)%Z with
    (relay_error ReplayDetected "relay frame counter was already accepted") ;;
  reject (se_next_receive s <? fr_counter f)%Z with
    (relay_error FrameOutOfOrder "relay frame counter arrived out of order") ;;
  let? nonce := decode_nonce (fr_nonce f) in
  let? cipher := decode_ciphertext (fr_ciphertext f) in
  let? aad := associated_data (metadata_of f) in
  let? plain := ok_or (aead_decrypt (se_receive_key s) nonce aad cipher)
    (relay_error DecryptFailed "relay frame failed authenticated decryption") in
  try (match se_suite s with
       | LegacyV1 => Ok tt
       | DirectionalV2 =>
         let? expected := derive_nonce (se_receive_key s) (fr_counter f) in
         reject (negb (bool_decide (nonce = expected))) with
           (relay_error InvalidFrame "relay frame nonce does not match its direction and counter") ;;
         Ok tt
       end) ;;
  let? e := ok_or (decode_envelope plain)
    (relay_error InvalidFrame "relay plaintext envelope was not valid JSON") in
  try validate_plaintext_matches_frame f e ;;
  Ok e.
Definition open_json (s : RelaySession) (f : RelayEncryptedFrame)
  : VibexResult RelayPlaintextEnvelope * RelaySession :=
  match read_frame s f with
  | Err e => (Err e, s)
  | Ok e =>
    match checked_add_u64 (se_next_receive s) 1 with
    | None => (Err (relay_error FrameOutOfOrder "relay receive counter overflow"), s)
    | Some next => (Ok e, set_counters s (se_next_send s) next)
    end
  end.

(** The frames one side opens in turn, with what each gave. *)
Fixpoint open_all (s : RelaySession) (fs : list RelayEncryptedFrame)
  : list (VibexResult RelayPlaintextEnvelope) * RelaySession :=
  match fs with
  | [] => ([], s)
  | f :: fs =>
    let '(r, s) := open_json s f in
    let '(rs, s) := open_all s fs in (r :: rs, s)
  end.

(** ** The handshake *)

(** One peer of a transcript: its id and its two public keys. *)
Record Peer : Type := mkPeer { pr_id : ident; pr_static : str; pr_ephemeral : str }.
Definition sort_peers (a b : Peer) : Peer * Peer :=
  if str_le (pr_id a) (pr_id b) then (a, b) else (b, a).
Definition peer_json (p : Peer) : json :=
  JObject [(lit "peerId", JString (pr_id p)); (lit "staticPublicKey", JString (pr_static p));
           (lit "ephemeralPublicKey", JString (pr_ephemeral p))].
Definition version_json (v : RelayProtocolVersion) : json :=
  JObject [(lit "major", JNumber (decimal (pv_major v))); (lit "minor", JNumber (decimal (pv_minor v)))].
Definition transcript_json (v : RelayProtocolVersion) (endpoint : str) (room : ident)
  (session : option ident) (first second : Peer) (permission : option str) (suite : RelayCryptoSuite)
  : json :=
  let peers := sort_peers first second in
  JObject [(lit "protocolVersion", version_json v); (lit "endpoint", JString (trim endpoint));
           (lit "roomId", JString room); (lit "sessionId", JString (default [] session));
           (lit "peers", JArray [peer_json peers.1; peer_json peers.2]);
           (lit "permissionContext", JString (default [] permission));
           (lit "cryptoSuite", JString (RelayCryptoSuite_as_str suite))].
Definition relay_handshake_transcript (v : RelayProtocolVersion) (endpoint : str) (room : ident)
  (session : option ident) (first second : Peer) (permission : option str) (suite : RelayCryptoSuite)
  : VibexResult bytes :=
  ok_or (canonical_json_vec (transcript_json v endpoint room session first second permission suite))
    (relay_error CryptoSetupFailed "relay handshake transcript could not be encoded").

Definition handshake_key (local : RelayKeypair) (remote_base64 : str) (transcript : bytes)
  : VibexResult bytes :=
  let? shared := agree local remote_base64
    "relay static identity key agreement was not contributory" in
  ok_or (hkdf (Some (as_bytes (lit "vibex-relay-handshake-auth-v1"))) shared transcript KEY_SIZE)
    (relay_error CryptoSetupFailed "relay handshake authentication key derivation failed").
Definition relay_handshake_authentication_tag (local : RelayKeypair) (remote_base64 : str)
  (transcript : bytes) : VibexResult str :=
  let? key := handshake_key local remote_base64 transcript in
  Ok (base64url (hmac key transcript)).
Definition verify_relay_handshake_authentication_tag (local : RelayKeypair) (remote_base64 : str)
  (transcript : bytes) (supplied : str) : VibexResult unit :=
  let? tag := ok_or (base64url_decode supplied)
    (relay_error InvalidFrame "relay handshake authentication proof is malformed") in
  let? key := handshake_key local remote_base64 transcript in
  reject (negb (bool_decide (tag = hmac key transcript))) with
    (relay_error InvalidFrame "relay handshake authentication proof did not match") ;;
  Ok tt.

(** * Theorems *)

Context `{!CryptoLaws}.

Lemma ordered_comm a b : ordered a b = ordered b a.
Proof.
  unfold ordered. destruct (str_le a b) eqn:E1, (str_le b a) eqn:E2; try done.
  - by rewrite (str_le_antisym a b).
  - apply str_lt_flip in E1 as [E1 _]. congruence.
Qed.

Lemma decode_own_key k : decode_public_key (public_key_base64 k) = Ok (public_key k).
Proof.
  unfold decode_public_key, public_key_base64, public_key. rewrite base64_decodes. cbn.
  by rewrite public_length.
Qed.

Lemma agree_comm a b failure :
  agree a (public_key_base64 b) failure = agree b (public_key_base64 a) failure.
Proof. unfold agree. rewrite !decode_own_key. unfold public_key. cbn. by rewrite dh_agrees. Qed.

(** The configuration of the other end. *)
Definition mirror (c : RelaySessionConfig) : RelaySessionConfig :=
  mkConfig (cf_room_id c) (cf_session_id c) (cf_remote_peer_id c) (cf_local_peer_id c).

(** Two ends of one session. *)
Record matched (a b : RelaySession) : Prop := {
  mt_config : se_config b = mirror (se_config a);
  mt_suite : se_suite b = se_suite a;
  mt_send : se_receive_key b = se_send_key a;
  mt_receive : se_send_key b = se_receive_key a
}.

Lemma peers_text_mirror c : peers_text (mirror c) = peers_text c.
Proof. unfold peers_text. cbn. by rewrite ordered_comm. Qed.

Lemma legacy_info_mirror c x y : legacy_info (mirror c) x y = legacy_info c y x.
Proof. unfold legacy_info. by rewrite peers_text_mirror, (ordered_comm x y). Qed.
Lemma direction_info_mirror c x y sender e e' :
  trim (default [] e) = trim (default [] e') ->
  direction_info (mirror c) x y sender e = direction_info c y x sender e'.
Proof. intros He. unfold direction_info. by rewrite peers_text_mirror, (ordered_comm x y), He. Qed.
Lemma ephemeral_info_mirror c a b x y sender e e' :
  trim (default [] e) = trim (default [] e') ->
  ephemeral_info (mirror c) a b x y sender e = ephemeral_info c b a y x sender e'.
Proof.
  intros He. unfold ephemeral_info. by rewrite peers_text_mirror, (ordered_comm x y), (ordered_comm a b), He.
Qed.

Lemma derive_key_mirror shared c info failure :
  derive_key shared (mirror c) info failure = derive_key shared c info failure.
Proof. reflexivity. Qed.

(** Whenever one end can establish a session, so can the other, from its own
    key, the mirrored configuration and the same endpoint up to blanks; each
    end's sending key is the other's receiving key and both count from one.
    It holds for either suite and for fresh ephemeral keys. *)
Theorem peers_agree_on_keys (ka kb : RelayKeypair) (c : RelaySessionConfig)
  (suite : RelayCryptoSuite) (e e' : option str) (sa sb : str) (a : RelaySession) :
  trim (default [] e) = trim (default [] e') ->
  (establish_with_suite ka (public_key_base64 kb) c suite e = Ok a ->
   exists b, establish_with_suite kb (public_key_base64 ka) (mirror c) suite e' = Ok b /\
     matched a b /\ se_next_send a = 1%Z /\ se_next_receive b = 1%Z) /\
  (establish_with_ephemeral ka (public_key_base64 kb) c e sa sb = Ok a ->
   exists b, establish_with_ephemeral kb (public_key_base64 ka) (mirror c) e' sb sa = Ok b /\
     matched a b /\ se_next_send a = 1%Z /\ se_next_receive b = 1%Z).
Proof.
  intros He. assert (He' := eq_sym He). split; intros Ha.
  - unfold establish_with_suite in *. rewrite (agree_comm kb ka).
    apply bind_ok in Ha as (shared & -> & Ha). cbn [result_bind]. destruct suite.
    + apply bind_ok in Ha as (key & Hk & [= <-]).
      rewrite derive_key_mirror, legacy_info_mirror, Hk. by eexists.
    + apply bind_ok in Ha as (send & Hs & Ha). apply bind_ok in Ha as (receive & Hr & [= <-]).
      rewrite !derive_key_mirror, !(direction_info_mirror _ _ _ _ e' e) by done.
      cbn [mirror cf_local_peer_id cf_remote_peer_id]. rewrite Hr. cbn [result_bind].
      rewrite Hs. by eexists.
  - unfold establish_with_ephemeral in *. rewrite (agree_comm kb ka).
    apply bind_ok in Ha as (shared & -> & Ha). cbn [result_bind].
    apply bind_ok in Ha as (send & Hs & Ha). apply bind_ok in Ha as (receive & Hr & [= <-]).
    rewrite !derive_key_mirror, !(ephemeral_info_mirror _ _ _ _ _ _ e' e) by done.
    cbn [mirror cf_local_peer_id cf_remote_peer_id]. rewrite Hr. cbn [result_bind].
    rewrite Hs. by eexists.
Qed.

(** ** Frames *)

Lemma checked_add_ok a n : checked_add_u64 a 1 = Some n -> n = (a + 1)%Z.
Proof. unfold checked_add_u64. by destruct (_ <=? _)%Z; intros [= <-]. Qed.

(** What a sealed frame is made of. *)
Lemma seal_ok s kind corr payload random id now created f s' :
  seal_json s kind corr payload random id now created = (Ok f, s') ->
  checked_add_u64 (se_next_send s) 1 = Some (se_next_send s + 1)%Z /\
  s' = set_counters s (se_next_send s + 1) (se_next_receive s) /\
  metadata_of f = visible_of s kind corr /\
  exists plain nonce aad cipher,
    encode_envelope (envelope_of s kind corr payload now) = Some plain /\
    (match se_suite s with
     | LegacyV1 => nonce = random
     | DirectionalV2 => derive_nonce (se_send_key s) (se_next_send s) = Ok nonce
     end) /\
    associated_data (visible_of s kind corr) = Ok aad /\
    aead_encrypt (se_send_key s) nonce aad plain = Some cipher /\
    fr_nonce f = base64 nonce /\ fr_ciphertext f = base64 cipher.
Proof.
  unfold seal_json. destruct (checked_add_u64 _ _) as [next|] eqn:Ec; [|done].
  pose proof (checked_add_ok _ _ Ec) as ->. intros Hs. apply pair_equal_spec in Hs as [Hs <-].
  apply bind_ok in Hs as (plain & Hp & Hs). apply ok_or_ok in Hp.
  apply bind_ok in Hs as (nonce & Hn & Hs). apply bind_ok in Hs as (aad & Ha & Hs).
  apply bind_ok in Hs as (cipher & Hc & [= <-]). apply ok_or_ok in Hc.
  split_and!; [done|done|done|]. exists plain, nonce, aad, cipher. split_and!; try done.
  destruct (se_suite s); [congruence|done].
Qed.

(** A 24-byte nonce, as both suites use. *)
Lemma derive_nonce_length key counter nonce :
  derive_nonce key counter = Ok nonce -> length nonce = NONCE_SIZE.
Proof. unfold derive_nonce. rewrite ok_or_ok. apply hkdf_length. Qed.

Lemma read_sealed a b kind corr payload random id now created f a' :
  matched a b -> se_next_receive b = se_next_send a ->
  length random = NONCE_SIZE -> sendable payload ->
  seal_json a kind corr payload random id now created = (Ok f, a') ->
  read_frame b f = Ok (envelope_of a kind corr payload now).
Proof.
  intros [Hc Hsu Hk _] Hn Hrand Hpl Hs.
  apply seal_ok in Hs as (_ & _ & Hm & plain & nonce & aad & cipher & Hp & Hno & Ha & He & Hfn & Hfc).
  assert (Hlen : length nonce = NONCE_SIZE).
  { destruct (se_suite a); [by subst|by eapply derive_nonce_length]. }
  assert (Hmeta := Hm). unfold metadata_of, visible_of in Hmeta. injection Hmeta as H1 H2 H3 H4 H5 H6 H7 H8.
  unfold read_frame.
  assert (Hv : validate_visible_frame b f = Ok tt).
  { unfold validate_visible_frame. rewrite Hc. cbn [mirror cf_room_id cf_session_id cf_local_peer_id cf_remote_peer_id].
    rewrite H1, H2, H3, H4, H5. by rewrite !bool_decide_eq_true_2. }
  rewrite Hv. cbn [result_bind]. rewrite H8, Hn, Z.ltb_irrefl.
  unfold decode_nonce, decode_ciphertext. rewrite Hfn, Hfc, !base64_decodes. cbn [ok_or result_bind].
  rewrite Hlen, Nat.eqb_refl. cbn [result_bind]. rewrite Hm, Ha. cbn [result_bind].
  rewrite Hk, (aead_opens _ _ _ _ _ He). cbn [ok_or result_bind]. rewrite Hsu.
  assert (Hnonce : (match se_suite a with
     | LegacyV1 => Ok tt
     | DirectionalV2 => let? expected := derive_nonce (se_send_key a) (se_next_send a) in
       reject (negb (bool_decide (nonce = expected))) with
         (relay_error InvalidFrame "relay frame nonce does not match its direction and counter") ;;
       Ok tt end) = Ok tt).
  { destruct (se_suite a); [done|]. rewrite Hno. cbn [result_bind]. by rewrite bool_decide_eq_true_2. }
  rewrite Hnonce. cbn [result_bind]. rewrite (envelope_decodes (envelope_of a kind corr payload now) _ Hpl Hp). cbn [ok_or result_bind].
  unfold validate_plaintext_matches_frame, envelope_of.
  cbn [en_room_id en_session_id en_sender_peer_id en_recipient_peer_id en_correlation_id en_kind en_counter].
  rewrite H2, H3, H4, H5, H6, H7, H8, Z.eqb_refl. by rewrite !bool_decide_eq_true_2.
Qed.

Lemma open_sealed a b kind corr payload random id now created f a' :
  matched a b -> se_next_receive b = se_next_send a ->
  length random = NONCE_SIZE -> sendable payload ->
  seal_json a kind corr payload random id now created = (Ok f, a') ->
  exists b', open_json b f = (Ok (envelope_of a kind corr payload now), b') /\
    matched a' b' /\ se_next_receive b' = se_next_send a'.
Proof.
  intros Hm Hn Hr Hp Hs. pose proof (read_sealed _ _ _ _ _ _ _ _ _ _ _ Hm Hn Hr Hp Hs) as Hread.
  apply seal_ok in Hs as (Hadd & -> & _). unfold open_json. rewrite Hread, Hn, Hadd.
  eexists. split; [done|]. split; [|done]. destruct Hm. by split.
Qed.

(** One message to seal. *)
Record Message : Type := mkMessage {
  ms_kind : RelayFrameKind; ms_correlation : option ident; ms_payload : json;
  ms_random : bytes; ms_frame_id : ident; ms_now : Z; ms_created : Z
}.
Fixpoint seal_all (s : RelaySession) (ms : list Message)
  : list (VibexResult RelayEncryptedFrame) * RelaySession :=
  match ms with
  | [] => ([], s)
  | m :: ms =>
    let '(r, s) := seal_json s (ms_kind m) (ms_correlation m) (ms_payload m) (ms_random m)
                     (ms_frame_id m) (ms_now m) (ms_created m) in
    let '(rs, s) := seal_all s ms in (r :: rs, s)
  end.

(** C34. Everything one end seals, the other opens in order, and reads exactly
    the payloads, kinds and correlations that were sent, as long as the payloads
    are values a JSON text gives back: [sendable]. *)
Theorem sealed_stream_opens (a b a' : RelaySession) (ms : list Message)
  (frames : list RelayEncryptedFrame) :
  matched a b -> se_next_receive b = se_next_send a ->
  Forall (fun m => length (ms_random m) = NONCE_SIZE /\ sendable (ms_payload m)) ms ->
  seal_all a ms = (Ok <$> frames, a') ->
  exists envelopes b', open_all b frames = (Ok <$> envelopes, b') /\
    (fun e => (en_kind e, en_correlation_id e, en_payload e)) <$> envelopes =
    (fun m => (ms_kind m, ms_correlation m, ms_payload m)) <$> ms /\
    matched a' b' /\ se_next_receive b' = se_next_send a'.
Proof.
  revert a b frames. induction ms as [|m ms IH]; intros a b frames Hm Hn Hr Hs.
  { injection Hs as Hf <-. destruct frames; [|done]. by exists [], b. }
  apply Forall_cons in Hr as [[Hr Hp] Hrs]. cbn [seal_all] in Hs.
  destruct (seal_json _ _ _ _ _ _ _ _) as [r a1] eqn:E1. destruct (seal_all a1 ms) as [rs a2] eqn:E2.
  injection Hs as Hf <-. destruct frames as [|f frames]; [done|]. injection Hf as -> ->.
  destruct (open_sealed _ _ _ _ _ _ _ _ _ _ _ Hm Hn Hr Hp E1) as (b1 & Ho & Hm1 & Hn1).
  destruct (IH a1 b1 frames Hm1 Hn1 Hrs E2) as (envs & b2 & Hos & Hps & Hm2 & Hn2).
  exists (envelope_of a (ms_kind m) (ms_correlation m) (ms_payload m) (ms_now m) :: envs), b2.
  cbn [open_all]. rewrite Ho, Hos. split_and!; [done| |done|done]. csimpl. by rewrite Hps.
Qed.

Definition accepted (rs : list (VibexResult RelayPlaintextEnvelope)) : list RelayPlaintextEnvelope :=
  omap (fun r => match r with Ok e => Some e | Err _ => None end) rs.

Lemma read_frame_ok s f e :
  read_frame s f = Ok e ->
  fr_counter f = se_next_receive s /\ en_counter e = se_next_receive s /\
  en_sender_peer_id e = cf_remote_peer_id (se_config s) /\
  en_recipient_peer_id e = cf_local_peer_id (se_config s) /\
  en_session_id e = cf_session_id (se_config s) /\ en_kind e = fr_kind f /\
  en_correlation_id e = fr_correlation_id f.
Proof.
  unfold read_frame. intros H1. apply bind_ok in H1 as ([] & Hv & H1).
  apply reject_ok in H1 as [Hlt%Z.ltb_ge H1]. apply reject_ok in H1 as [Hgt%Z.ltb_ge H1].
  apply bind_ok in H1 as (nonce & _ & H1). apply bind_ok in H1 as (cipher & _ & H1).
  apply bind_ok in H1 as (aad & _ & H1). apply bind_ok in H1 as (plain & _ & H1).
  apply bind_ok in H1 as ([] & _ & H1). apply bind_ok in H1 as (e' & _ & H1).
  apply bind_ok in H1 as ([] & Hp & [= ->]).
  unfold validate_visible_frame in Hv. apply reject_ok in Hv as [_ Hv].
  apply reject_ok in Hv as [Hrs Hv]. apply reject_ok in Hv as [Hs Hv]. apply reject_ok in Hv as [Hr _].
  unfold validate_plaintext_matches_frame in Hp. apply reject_ok in Hp as [Hp _].
  rewrite !orb_false_iff, !negb_false_iff, !bool_decide_eq_true, Z.eqb_eq in Hp.
  rewrite orb_false_iff, !negb_false_iff, !bool_decide_eq_true in Hrs.
  rewrite negb_false_iff, bool_decide_eq_true in Hs, Hr.
  destruct Hp as ((((((? & ?) & ?) & ?) & ?) & ?) & ?), Hrs. split_and!; try congruence; lia.
Qed.

(** C35. A session accepts each counter once and in order: whatever frames arrive,
    replayed, reordered, forged or dropped, the accepted ones count up from
    the first without a gap, come from the remote peer to the local one, and a
    rejected frame leaves the session as it was. *)
Theorem no_frame_is_accepted_twice (s s' : RelaySession) (fs : list RelayEncryptedFrame)
  (rs : list (VibexResult RelayPlaintextEnvelope)) :
  open_all s fs = (rs, s') ->
  en_counter <$> accepted rs =
    (fun i => se_next_receive s + Z.of_nat i)%Z <$> seq 0 (length (accepted rs)) /\
  s' = set_counters s (se_next_send s) (se_next_receive s + Z.of_nat (length (accepted rs))) /\
  Forall (fun e => en_sender_peer_id e = cf_remote_peer_id (se_config s) /\
                   en_recipient_peer_id e = cf_local_peer_id (se_config s) /\
                   en_session_id e = cf_session_id (se_config s)) (accepted rs).
Proof.
  revert s rs. induction fs as [|f fs IH]; intros s rs Ho.
  { injection Ho as <- <-. split_and!; [done| |constructor]. simpl.
    rewrite Z.add_0_r. by destruct s. }
  cbn [open_all] in Ho. destruct (open_json s f) as [r s1] eqn:E1.
  destruct (open_all s1 fs) as [rs1 s2] eqn:E2. injection Ho as <- <-.
  destruct (IH s1 rs1 E2) as (Hc & Hs & Hf). unfold open_json in E1.
  destruct (read_frame s f) as [e|er] eqn:Er.
  2:{ injection E1 as <- <-. by split_and!. }
  destruct (checked_add_u64 (se_next_receive s) 1) as [n|] eqn:Ea.
  2:{ injection E1 as <- <-. by split_and!. }
  apply checked_add_ok in Ea as ->. injection E1 as <- <-.
  apply read_frame_ok in Er as (_ & He & Hse & Hre & Hsi & _).
  change (accepted (Ok e :: rs1)) with (e :: accepted rs1). csimpl. split_and!.
  - rewrite He, Z.add_0_r. f_equal. rewrite Hc, <- fmap_S_seq, <- list_fmap_compose.
    apply list_fmap_ext. intros i x _. cbn [set_counters se_next_receive compose]. lia.
  - rewrite Hs. unfold set_counters. cbn. f_equal. lia.
  - constructor; [done|exact Hf].
Qed.

(** A frame does not open at the end that sealed it, also under the legacy
    suite where both directions share one key. *)
Theorem reflected_frame_is_refused (a : RelaySession) (kind : RelayFrameKind) (corr : option ident)
  (payload : json) (random : bytes) (id : ident) (now created : Z) (f : RelayEncryptedFrame)
  (a' : RelaySession) :
  cf_local_peer_id (se_config a) <> cf_remote_peer_id (se_config a) ->
  seal_json a kind corr payload random id now created = (Ok f, a') ->
  open_json a' f =
    (Err (relay_error InvalidFrame "relay frame sender does not match the remote peer"), a').
Proof.
  intros Hne Hs. apply seal_ok in Hs as (_ & -> & Hm & _).
  unfold metadata_of, visible_of in Hm. injection Hm as H1 H2 H3 H4 H5 H6 H7 H8.
  assert (Hv : validate_visible_frame (set_counters a (se_next_send a + 1) (se_next_receive a)) f =
    Err (relay_error InvalidFrame "relay frame sender does not match the remote peer")).
  { unfold validate_visible_frame. cbn [set_counters se_config]. rewrite H1, H2, H3, H4.
    rewrite !(bool_decide_eq_true_2 (_ = _)) by done. cbn [negb orb].
    by rewrite bool_decide_eq_false_2. }
  unfold open_json, read_frame. by rewrite Hv.
Qed.

(** The two directions of a version-2 session are derived from different
    inputs, and no version-2 input equals a version-1 one. *)
Theorem directions_are_separated (c : RelaySessionConfig) (x y : str) (e : option str) :
  cf_local_peer_id c <> cf_remote_peer_id c ->
  direction_info c x y (cf_local_peer_id c) e <> direction_info c x y (cf_remote_peer_id c) e /\
  (forall sender, direction_info c x y sender e <> legacy_info c x y) /\
  (forall a b sender, ephemeral_info c a b x y sender e <> direction_info c x y sender e).
Proof.
  intros Hne. split_and!.
  - unfold direction_info. intros Heq. do 4 apply app_inv_head in Heq. apply app_inv_head in Heq.
    apply Hne. by apply app_inv_tail in Heq.
  - intros sender Heq. by apply (f_equal (fun s => s !! 18)) in Heq.
  - intros a b sender Heq. by apply (f_equal (fun s => s !! 19)) in Heq.
Qed.

(** ** The handshake *)

(** Both peers hash one transcript: naming the peers in either order gives the
    same bytes, as long as their ids differ. *)
Theorem transcript_is_role_independent (v : RelayProtocolVersion) (endpoint : str) (room : ident)
  (session : option ident) (first second : Peer) (permission : option str) (suite : RelayCryptoSuite) :
  pr_id first <> pr_id second ->
  relay_handshake_transcript v endpoint room session first second permission suite =
  relay_handshake_transcript v endpoint room session second first permission suite.
Proof.
  intros Hne. unfold relay_handshake_transcript, transcript_json.
  replace (sort_peers first second) with (sort_peers second first); [done|].
  unfold sort_peers. destruct (str_le (pr_id second) (pr_id first)) eqn:E1,
    (str_le (pr_id first) (pr_id second)) eqn:E2; try done.
  - by destruct Hne; apply str_le_antisym.
  - apply str_lt_flip in E1 as [E1 _]. congruence.
Qed.

(** The proof one peer makes is the proof the other accepts, and nothing else
    is: the verifier accepts a tag exactly when it is the one the static keys
    give for the transcript. *)
Theorem handshake_proof_verifies (ka kb : RelayKeypair) (transcript : bytes) (tag : str) :
  relay_handshake_authentication_tag ka (public_key_base64 kb) transcript = Ok tag ->
  verify_relay_handshake_authentication_tag kb (public_key_base64 ka) transcript tag = Ok tt /\
  forall supplied,
    verify_relay_handshake_authentication_tag kb (public_key_base64 ka) transcript supplied = Ok tt ->
    base64url_decode supplied = base64url_decode tag.
Proof.
  unfold relay_handshake_authentication_tag, verify_relay_handshake_authentication_tag, handshake_key.
  rewrite (agree_comm kb ka). intros Ht. apply bind_ok in Ht as (key & Hk & [= <-]).
  rewrite base64url_decodes, Hk. cbn [ok_or result_bind]. split; [by rewrite bool_decide_eq_true_2|].
  intros supplied Hs. apply bind_ok in Hs as (tag & Ht & Hs). apply ok_or_ok in Ht. rewrite Ht.
  apply reject_ok in Hs as [Hs _]. apply negb_false_iff, bool_decide_eq_true in Hs. by rewrite Hs.
Qed.
End session.

(** ** Canonical JSON *)

Lemma sorted_keys_unique (l k : list (str * json)) :
  NoDup l.*1 -> l ≡ₚ k -> sort_by_key field_key l = sort_by_key field_key k.
Proof.
  intros Hd Hp.
  assert (Hs : forall m, m ≡ₚ l -> StronglySorted (fun a b => str_lt a.1 b.1) (sort_by_key field_key m)).
  { intros m Hm. pose proof (sort_by_key_sorted field_key m) as Hk. unfold key_sorted in Hk.
    assert (Hdm : NoDup (sort_by_key field_key m).*1) by (by rewrite sort_by_key_perm, Hm).
    clear Hp Hm. induction Hk as [|x r Hk IH Hx]; [constructor|]. apply NoDup_cons in Hdm as [Hn Hdm].
    constructor; [by apply IH|]. rewrite Forall_forall in Hx |- *. intros y Hy. split.
    - by apply Hx.
    - intros Heq. apply Hn. rewrite Heq. by apply list_elem_of_fmap_2. }
  apply (StronglySorted_unique_strong (fun a b => str_lt a.1 b.1)).
  - intros x y _ _ [H1 Hn] [H2 _]. by destruct Hn; apply str_le_antisym.
  - by apply Hs.
  - by apply Hs; rewrite Hp.
  - by rewrite !sort_by_key_perm.
Qed.

(** Two documents equal up to the order of object fields, at any depth. *)
Inductive same_json : json -> json -> Prop :=
| same_refl v : same_json v v
| same_array xs ys : Forall2 same_json xs ys -> same_json (JArray xs) (JArray ys)
| same_object fs gs hs :
    Forall2 (fun f g => f.1 = g.1 /\ same_json f.2 g.2) fs gs -> NoDup fs.*1 -> gs ≡ₚ hs ->
    same_json (JObject fs) (JObject hs).

Lemma normalize_object fs :
  normalize (JObject fs) =
  JObject (foldl (fun m (f : str * json) => map_insert f.1 f.2 m) []
    (sort_by_key field_key ((fun f => (f.1, normalize f.2)) <$> fs))).
Proof. reflexivity. Qed.

Lemma normalize_same : forall v w, same_json v w -> normalize v = normalize w.
Proof.
  fix IH 3. intros v w [v'|xs ys Hxy|fs gs hs Hfg Hd Hp].
  - reflexivity.
  - change (JArray (normalize <$> xs) = JArray (normalize <$> ys)). f_equal.
    induction Hxy as [|x y xs ys H _ IHl]; [reflexivity|]. csimpl.
    rewrite (IH x y H), IHl. reflexivity.
  - rewrite !normalize_object. do 2 f_equal.
    assert (Hmap : (fun f : str * json => (f.1, normalize f.2)) <$> fs =
                   (fun f : str * json => (f.1, normalize f.2)) <$> gs).
    { clear Hp Hd. induction Hfg as [|f g fs gs [Hk H] _ IHl]; [reflexivity|]. csimpl.
      rewrite Hk, (IH _ _ H), IHl. reflexivity. }
    rewrite Hmap. apply sorted_keys_unique; [|by rewrite Hp].
    rewrite <- Hmap, <- list_fmap_compose. exact Hd.
Qed.

(** Canonical JSON does not depend on the order in which a map stores its
    fields, at any depth: peers built with different map orders encode the same
    document to the same bytes. *)
Theorem canonical_json_ignores_field_order `{Crypto} (v w : json) :
  same_json v w -> canonical_json_vec v = canonical_json_vec w.
Proof. intros Hs. unfold canonical_json_vec. by rewrite (normalize_same v w). Qed.
