(* ===== verification/Storage.v ===== *)
(** What the durable components share: a repository call as a function on the
    database with the writes made before an error kept, the bounds the
    repositories of crates/db/src/lib.rs put on stored texts and lists, and the
    session vocabulary of crates/core that tasks and automations name. *)
From stdpp Require Import prelude strings list gmap.
From Stdlib Require Import NArith ZArith Lia.
From S2P Require Import Prelude.
From S2P Require Import CoreTypes.

(** ** Repository calls *)

(** A call returns a [VibexResult] and leaves a database; what it wrote before
    an error is still written. *)
Definition db_call (DB A : Type) : Type := DB -> VibexResult A * DB.
Definition db_ret {DB A} (a : A) : db_call DB A := fun db => (Ok a, db).
Definition db_fail {DB A} (e : VibexError) : db_call DB A := fun db => (Err e, db).
Definition db_bind {DB A B} (c : db_call DB A) (k : A -> db_call DB B) : db_call DB B := fun db =>
  match c db with
  | (Ok a, db') => k a db'
  | (Err e, db') => (Err e, db')
  end.
Definition db_read {DB A} (f : DB -> A) : db_call DB A := fun db => (Ok (f db), db).
Definition db_write {DB} (f : DB -> DB) : db_call DB unit := fun db => (Ok tt, f db).
(** [c?] on a plain result. *)
Definition db_lift {DB A} (c : VibexResult A) : db_call DB A := fun db => (c, db).

Notation "'let!' x := c 'in' k" := (db_bind c (fun x => k))
  (at level 10, x pattern, c at level 99, k at level 200) : rust_scope.

(** [for x in l { s = f(s, x)?; }]. *)
Fixpoint db_for {DB S A} (f : S -> A -> db_call DB S) (s : S) (l : list A) : db_call DB S :=
  match l with
  | [] => db_ret s
  | x :: l => let! s := f s x in db_for f s l
  end.

(** [for x in l { f(x)?; }]. *)
Definition db_each {DB A} (f : A -> db_call DB unit) (l : list A) : db_call DB unit :=
  db_for (fun _ x => f x) tt l.

(** INSERT: the primary key is unique. *)
Definition insert_row {DB A} (table : DB -> gmap ident A) (key : A -> ident) (put : A -> DB -> DB)
    (e : VibexError) (row : A) : db_call DB unit := fun db =>
  match table db !! key row with
  | Some _ => (Err e, db)
  | None => (Ok tt, put row db)
  end.
(** UPDATE ... WHERE id: nothing happens when the row is gone. *)
Definition update_row {DB A} (table : DB -> gmap ident A) (key : A -> ident) (put : A -> DB -> DB)
    (row : A) : db_call DB unit :=
  db_write (fun db => if table db !! key row is Some _ then put row db else db).

(** A transaction: an error undoes what was written. *)
Definition db_transaction {DB A} (c : db_call DB A) : db_call DB A := fun db =>
  match c db with
  | (Ok a, db') => (Ok a, db')
  | (Err e, _) => (Err e, db)
  end.

(** A call that ended well, step by step. *)
Lemma db_bind_ok {DB A B} (c : db_call DB A) (k : A -> db_call DB B) b db db' :
  db_bind c k db = (Ok b, db') <-> exists a db1, c db = (Ok a, db1) /\ k a db1 = (Ok b, db').
Proof.
  unfold db_bind. destruct (c db) as [[a|e] db1]; split.
  - intros H. by exists a, db1.
  - intros (? & ? & [= <- <-] & H). done.
  - done.
  - by intros (? & ? & ? & _).
Qed.
Lemma db_lift_ok {DB A} (c : VibexResult A) (a : A) (db db' : DB) :
  db_lift c db = (Ok a, db') <-> c = Ok a /\ db' = db.
Proof. unfold db_lift. split; [by intros [= -> ->]|by intros [-> ->]]. Qed.
Lemma db_transaction_ok {DB A} (c : db_call DB A) (a : A) (db db' : DB) :
  db_transaction c db = (Ok a, db') -> c db = (Ok a, db').
Proof. unfold db_transaction. by destruct (c db) as [[?|?] ?]. Qed.

Definition VibexError_storage (code message : str) : VibexError :=
  VibexError_new Storage code message.

(** ** Bounds on what is stored *)

Definition SCHEDULED_TASK_LIST_DEFAULT_LIMIT : Z := 100.
Definition SCHEDULED_TASK_LIST_MAX_LIMIT : Z := 500.
Definition SCHEDULED_TASK_ERROR_CODE_MAX_CHARS : nat := 128.
Definition SCHEDULED_TASK_ERROR_MESSAGE_MAX_CHARS : nat := 1024.
Definition SCHEDULED_TASK_DIAGNOSTIC_KEY_MAX_CHARS : nat := 128.
Definition SCHEDULED_TASK_DIAGNOSTIC_VALUE_MAX_CHARS : nat := 2048.

(** [i64::clamp(1, MAX)]. *)
Definition bounded_limit (limit : option Z) : Z :=
  Z.max 1 (Z.min (default SCHEDULED_TASK_LIST_DEFAULT_LIMIT limit) SCHEDULED_TASK_LIST_MAX_LIMIT).
Definition truncate_chars (value : str) (max_chars : nat) : str := take max_chars value.
Definition bound_scheduled_task_diagnostics (l : list RedactedDiagnostic) : list RedactedDiagnostic :=
  (fun d => mkDiagnostic (truncate_chars (diag_key d) SCHEDULED_TASK_DIAGNOSTIC_KEY_MAX_CHARS)
              (truncate_chars (diag_value d) SCHEDULED_TASK_DIAGNOSTIC_VALUE_MAX_CHARS)) <$> l.

(** [if let Some(x) = new { Some(x) } else if clear { None } else { old }]. *)
Definition set_or_clear {A} (new : option A) (clear : bool) (old : option A) : option A :=
  match new with
  | Some x => Some x
  | None => if clear then None else old
  end.

(** ** Sessions and their settings *)

Inductive WorkspaceMode : Type := CurrentCheckout | VibexWorktree.
Inductive ProviderKind : Type := Codex | Claude | Acp.
Inductive PermissionMode : Type := WorkspaceWrite | AskOnRisk | BypassAll.
Record AgentSessionSafety : Type := mkSafety {
  sf_permission_mode : PermissionMode;
  sf_ask_on_risk : bool;
  sf_bypass_all_permissions : bool
}.
Definition workspace_write_ask_on_risk : AgentSessionSafety := mkSafety WorkspaceWrite true false.

Inductive AgentSessionState : Type :=
| Initializing | Idle | Running | NeedsInput | SessionError | Closed | Archived.
#[export] Instance AgentSessionState_eq_dec : EqDecision AgentSessionState.
Proof. solve_decision. Defined.

(** What the Agent manager answers to one prompt: a session is opened, the
    prompt is sent and the session's state is read. *)
Inductive Turn : Type :=
| NoRuntime (err : VibexError)
| NoSession (err : VibexError)
| NotSent (session : ident) (err : VibexError)
| NotRead (session : ident) (err : VibexError)
| Settled (session : ident) (state : AgentSessionState).

(** [format!("{:?}", category)]. *)
Definition category_debug (c : ErrorCategory) : str :=
  lit match c with
      | Validation => "Validation" | Capability => "Capability" | Permission => "Permission"
      | Provider => "Provider" | Process => "Process" | Storage => "Storage"
      | Remote => "Remote" | Conflict => "Conflict"
      end.

(** ** Triples over repository calls *)

(** From a database in [P] the call leaves one in [Q] with its result, or one
    in [E] with an error. *)
Definition triple {DB A} (P : DB -> Prop) (c : db_call DB A) (Q : A -> DB -> Prop)
    (E : DB -> Prop) : Prop :=
  forall db, P db -> match c db with (Ok a, db') => Q a db' | (Err _, db') => E db' end.

Lemma triple_ret {DB A} (P : DB -> Prop) (a : A) (Q : A -> DB -> Prop) E :
  (forall db, P db -> Q a db) -> triple P (db_ret a) Q E.
Proof. intros H db HP. by apply H. Qed.

Lemma triple_bind {DB A B} P (c : db_call DB A) (k : A -> db_call DB B) R Q E :
  triple P c R E -> (forall a, triple (R a) (k a) Q E) -> triple P (db_bind c k) Q E.
Proof.
  intros Hc Hk db HP. specialize (Hc db HP). unfold db_bind.
  destruct (c db) as [[a|e] db']; [by apply Hk|done].
Qed.

Lemma triple_read {DB A} P (f : DB -> A) (Q : A -> DB -> Prop) E :
  (forall db, P db -> Q (f db) db) -> triple P (db_read f) Q E.
Proof. intros H db HP. by apply H. Qed.

Lemma triple_write {DB} (P : DB -> Prop) f (Q : unit -> DB -> Prop) E :
  (forall db, P db -> Q tt (f db)) -> triple P (db_write f) Q E.
Proof. intros H db HP. by apply H. Qed.

(** A call whose result does not matter. *)
Lemma triple_any {DB A} (c : db_call DB A) : triple (fun _ => True) c (fun _ _ => True) (fun _ => True).
Proof. intros db _. by destruct (c db) as [[?|?] ?]. Qed.

Lemma triple_then {DB A B} (c : db_call DB A) (k : A -> db_call DB B) (Q : B -> Prop) :
  (forall a, triple (fun _ => True) (k a) (fun b _ => Q b) (fun _ => True)) ->
  triple (fun _ => True) (db_bind c k) (fun b _ => Q b) (fun _ => True).
Proof. intros H. eapply triple_bind; [apply triple_any|]. intros a. apply H. Qed.

(** A call that keeps its result through a bind, whatever is called in between. *)
Lemma triple_keep {DB A B} (c : db_call DB A) (d : db_call DB B) (Q : A -> Prop) :
  triple (fun _ => True) c (fun a _ => Q a) (fun _ => True) ->
  triple (fun _ => True) (let! a := c in let! _ := d in db_ret a) (fun a _ => Q a) (fun _ => True).
Proof.
  intros Hc. eapply triple_bind; [apply Hc|]. intros a db HQ. unfold db_bind.
  by destruct (d db) as [[?|?] ?].
Qed.

Lemma triple_transaction {DB A} (P : DB -> Prop) (c : db_call DB A) Q E :
  triple P c Q E -> triple P (db_transaction c) Q P.
Proof.
  intros H db HP. specialize (H db HP). unfold db_transaction. by destruct (c db) as [[a|e] db'].
Qed.

Lemma triple_lift {DB A} (P : DB -> Prop) (c : VibexResult A) (Q : A -> DB -> Prop) E :
  (forall a db, c = Ok a -> P db -> Q a db) -> (forall db, P db -> E db) -> triple P (db_lift c) Q E.
Proof. intros H1 H2 db HP. unfold db_lift. destruct c as [a|e]; [by apply H1|by apply H2]. Qed.

Lemma triple_weaken {DB A} (P P' : DB -> Prop) (c : db_call DB A) Q Q' E E' :
  triple P c Q E -> (forall db, P' db -> P db) -> (forall a db, Q a db -> Q' a db) ->
  (forall db, E db -> E' db) -> triple P' c Q' E'.
Proof.
  intros H H1 H2 H3 db HP. specialize (H db (H1 db HP)). destruct (c db) as [[a|e] db']; auto.
Qed.

(** A bind, with the errors of the first call among those of the whole. *)
Lemma triple_seq {DB A B} (P : DB -> Prop) (c : db_call DB A) (k : A -> db_call DB B) Q (E E' : DB -> Prop)
    (R : A -> DB -> Prop) :
  triple P c R E' -> (forall db, E' db -> E db) -> (forall a, triple (R a) (k a) Q E) ->
  triple P (db_bind c k) Q E.
Proof.
  intros H1 H2 H3. eapply triple_bind; [|apply H3]. by eapply triple_weaken; [apply H1| | |apply H2].
Qed.

Lemma triple_pre {DB A} (P P' : DB -> Prop) (c : db_call DB A) Q E :
  triple P c Q E -> (forall db, P' db -> P db) -> triple P' c Q E.
Proof. intros H1 H2 db HP. by apply H1, H2. Qed.

(** A fact that does not speak of the database may be taken from the assertion. *)
Lemma triple_fact {DB A} (P : DB -> Prop) (F : Prop) (c : db_call DB A) Q E :
  (forall db, P db -> F) -> (F -> triple P c Q E) -> triple P c Q E.
Proof. intros H1 H2 db HP. by apply H2; [apply (H1 db)|]. Qed.

(** ** Rows *)

Section rows.
Context {DB A : Type} (table : DB -> gmap ident A) (key : A -> ident) (put : A -> DB -> DB).
Context (e : VibexError).
Context (table_put : forall row db, table (put row db) = <[key row := row]> (table db)).

Definition put_rows (rows : list A) (db : DB) : DB := foldl (fun db row => put row db) db rows.

Lemma insert_rows_ok rows db r db' :
  db_each (insert_row table key put e) rows db = (Ok r, db') ->
  db' = put_rows rows db /\ NoDup (key <$> rows) /\
  forall row, row ∈ rows -> table db !! key row = None.
Proof.
  unfold db_each. destruct r. revert db. induction rows as [|row rows IH]; intros db; cbn [db_for].
  - intros [= ->]. split_and!; [done|constructor|set_solver].
  - unfold db_bind, insert_row at 1. destruct (table db !! key row) eqn:Er; [done|]. intros H.
    destruct (IH _ H) as (-> & Hn & Hfree). clear IH H. split_and!; [done| |].
    + rewrite fmap_cons. constructor; [|done]. intros (x & Ek & Hx)%list_elem_of_fmap.
      specialize (Hfree x Hx). rewrite table_put, <- Ek, lookup_insert_eq in Hfree. done.
    + intros x [->|Hx]%elem_of_cons; [done|]. specialize (Hfree x Hx). rewrite table_put in Hfree.
      by apply lookup_insert_None in Hfree as [? _].
Qed.

Lemma lookup_put_rows rows db k row :
  NoDup (key <$> rows) ->
  table (put_rows rows db) !! k = Some row <->
  (row ∈ rows /\ key row = k) \/ (k ∉ key <$> rows /\ table db !! k = Some row).
Proof.
  unfold put_rows. revert db. induction rows as [|r rows IH]; intros db Hn; cbn [foldl].
  - rewrite fmap_nil. set_solver.
  - apply NoDup_cons in Hn as [Hr Hn]. rewrite IH, table_put, fmap_cons by done.
    destruct (decide (k = key r)) as [->|Hne].
    + rewrite lookup_insert_eq. split; [intros [[? E]|[? [= ->]]]|intros [[[->|?]%elem_of_cons E]|[Hk _]]].
      * left. split; [by right|done].
      * left. split; [by left|done].
      * by right.
      * by left.
      * exfalso. apply Hk. by left.
    + rewrite lookup_insert_ne by done. split; [intros [[? E]|[Hk E]]|intros [[[->|?]%elem_of_cons E]|[Hk E]]].
      * left. split; [by right|done].
      * right. split; [|done]. by intros [?|?]%elem_of_cons.
      * done.
      * by left.
      * right. split; [|done]. intros ?. apply Hk. by right.
Qed.

(** What putting one row keeps, putting many keeps. *)
Lemma put_rows_keeps {B} (f : DB -> B) rows db :
  (forall row db, f (put row db) = f db) -> f (put_rows rows db) = f db.
Proof.
  intros H. unfold put_rows. revert db. induction rows as [|row rows IH]; intros db; simpl; [done|].
  by rewrite IH, H.
Qed.
End rows.

(** ** Calls that keep an assertion *)

Definition keeps {DB A} (R : DB -> Prop) (c : db_call DB A) : Prop := triple R c (fun _ => R) R.

Section keeps.
Context {DB : Type} (R : DB -> Prop).

Lemma keeps_ret {A} (a : A) : keeps R (db_ret a).
Proof. by apply triple_ret. Qed.
Lemma keeps_fail {A} e : keeps R (@db_fail DB A e).
Proof. by intros db. Qed.
Lemma keeps_read {A} (f : DB -> A) : keeps R (db_read f).
Proof. by apply triple_read. Qed.
Lemma keeps_lift {A} (c : VibexResult A) : keeps R (db_lift c).
Proof. by apply triple_lift. Qed.
Lemma keeps_write (f : DB -> DB) : (forall db, R db -> R (f db)) -> keeps R (db_write f).
Proof. intros H. by apply triple_write. Qed.
Lemma keeps_bind {A B} (c : db_call DB A) (k : A -> db_call DB B) :
  keeps R c -> (forall a, keeps R (k a)) -> keeps R (db_bind c k).
Proof. intros H1 H2. by eapply triple_bind. Qed.
Lemma keeps_transaction {A} (c : db_call DB A) : keeps R c -> keeps R (db_transaction c).
Proof. intros H. by eapply triple_transaction. Qed.
Lemma keeps_run {A} (c : db_call DB A) db : keeps R c -> R db -> R (c db).2.
Proof. intros H HR. specialize (H db HR). by destruct (c db) as [[?|?] ?]. Qed.
End keeps.
#[export] Hint Resolve keeps_ret keeps_fail keeps_read keeps_lift : keeps.

(** One step through the code of a call. *)
Ltac keep :=
  lazymatch goal with
  | |- keeps _ (db_bind _ _) => apply keeps_bind; [|intros ?]
  | |- keeps _ (db_transaction _) => apply keeps_transaction
  | |- keeps _ (match ?x with _ => _ end) => destruct x
  | |- keeps _ (let '_ := _ in _) => cbv zeta
  | |- _ => solve [auto with keeps]
  end.
Ltac keeping := repeat keep.
