(* ===== verification/Schedule.v ===== *)
(** Scheduled tasks: the records of crates/core/src/scheduled_task.rs, the
    repository of crates/db/src/lib.rs (ScheduledTaskRepository) and the runner
    of crates/agent/src/scheduler.rs.  A repository call reads and writes the
    two tables under one connection and is one step; a call of the runner is a
    composition of such steps in which the writes made before an error stay.
    What the Agent answers and what other connections do while the runner waits
    is a [Setting]; a tick is then a function of it. *)
From stdpp Require Import prelude strings list gmap.
From Stdlib Require Import NArith ZArith Lia Sorted.
From S2P Require Import Prelude CoreTypes Storage.

(** ** Records (core/src/scheduled_task.rs) *)

Inductive ScheduledTaskStatus : Type := Active | Paused | Deleted.
#[export] Instance ScheduledTaskStatus_eq_dec : EqDecision ScheduledTaskStatus.
Proof. solve_decision. Defined.

Record ScheduledTaskOneShotSchedule : Type := mkOneShot { os_run_at_ms : Z }.
Record ScheduledTaskIntervalSchedule : Type := mkInterval {
  iv_every_seconds : Z;
  iv_start_at_ms : Z;
  iv_end_at_ms : option Z
}.
Record ScheduledTaskDailySchedule : Type := mkDaily {
  dy_local_time_minutes : Z;
  dy_timezone : str;
  dy_start_at_ms : Z;
  dy_end_at_ms : option Z
}.
Inductive ScheduledTaskSchedule : Type :=
| OneShot (schedule : ScheduledTaskOneShotSchedule)
| Interval (schedule : ScheduledTaskIntervalSchedule)
| Daily (schedule : ScheduledTaskDailySchedule).

Record ScheduledTask : Type := mkTask {
  tk_id : ident;
  tk_title : str;
  tk_prompt : str;
  tk_project_id : option ident;
  tk_workspace_id : option ident;
  tk_workspace_root : str;
  tk_workspace_mode : WorkspaceMode;
  tk_provider_kind : ProviderKind;
  tk_provider_profile_id : option ident;
  tk_schedule : ScheduledTaskSchedule;
  tk_status : ScheduledTaskStatus;
  tk_safety : AgentSessionSafety;
  tk_next_run_at_ms : option Z;
  tk_created_at_ms : Z;
  tk_updated_at_ms : Z;
  tk_deleted_at_ms : option Z
}.

Record ScheduledTaskCreateRequest : Type := mkTaskCreate {
  tc_title : str;
  tc_prompt : str;
  tc_project_id : option ident;
  tc_workspace_id : option ident;
  tc_workspace_root : str;
  tc_workspace_mode : WorkspaceMode;
  tc_provider_kind : ProviderKind;
  tc_provider_profile_id : option ident;
  tc_schedule : ScheduledTaskSchedule;
  tc_safety : option AgentSessionSafety;
  tc_next_run_at_ms : option Z
}.

Record ScheduledTaskUpdateRequest : Type := mkTaskUpdate {
  tu_id : ident;
  tu_title : option str;
  tu_prompt : option str;
  tu_project_id : option ident;
  tu_clear_project_id : bool;
  tu_workspace_id : option ident;
  tu_clear_workspace_id : bool;
  tu_workspace_root : option str;
  tu_workspace_mode : option WorkspaceMode;
  tu_provider_kind : option ProviderKind;
  tu_provider_profile_id : option ident;
  tu_clear_provider_profile_id : bool;
  tu_schedule : option ScheduledTaskSchedule;
  tu_safety : option AgentSessionSafety;
  tu_next_run_at_ms : option Z;
  tu_clear_next_run_at_ms : bool
}.

Inductive ScheduledTaskRunStatus : Type :=
| RunQueued | RunRunning | RunSucceeded | RunFailed | RunSkipped | RunCanceled.
#[export] Instance ScheduledTaskRunStatus_eq_dec : EqDecision ScheduledTaskRunStatus.
Proof. solve_decision. Defined.
Inductive ScheduledTaskRunTrigger : Type := TriggerScheduler | TriggerManual | TriggerRecovery.

Record ScheduledTaskRun : Type := mkRun {
  rn_id : ident;
  rn_task_id : ident;
  rn_status : ScheduledTaskRunStatus;
  rn_trigger : ScheduledTaskRunTrigger;
  rn_session_id : option ident;
  rn_due_at_ms : Z;
  rn_started_at_ms : option Z;
  rn_ended_at_ms : option Z;
  rn_attempt : Z;
  rn_error_code : option str;
  rn_error_message : option str;
  rn_redacted_diagnostics : list RedactedDiagnostic;
  rn_created_at_ms : Z;
  rn_updated_at_ms : Z
}.

Record ScheduledTaskRunUpdateRequest : Type := mkRunUpdate {
  ru_id : ident;
  ru_status : option ScheduledTaskRunStatus;
  ru_session_id : option ident;
  ru_clear_session_id : bool;
  ru_started_at_ms : option Z;
  ru_clear_started_at_ms : bool;
  ru_ended_at_ms : option Z;
  ru_clear_ended_at_ms : bool;
  ru_attempt : option Z;
  ru_error_code : option str;
  ru_clear_error_code : bool;
  ru_error_message : option str;
  ru_clear_error_message : bool;
  ru_redacted_diagnostics : option (list RedactedDiagnostic)
}.

(** ** The database *)

(** The two tables, by primary key, and the wall clock
    ([unix_timestamp_ms()]). *)
Record SchedDb : Type := mkSchedDb {
  sd_tasks : gmap ident ScheduledTask;
  sd_runs : gmap ident ScheduledTaskRun;
  sd_clock : Z
}.

Abbreviation sched_call := (db_call SchedDb).

Definition ScheduledTaskId : id_kind := mkIdKind "ScheduledTaskId" "scheduled_task".
Definition ScheduledTaskRunId : id_kind := mkIdKind "ScheduledTaskRunId" "scheduled_run".

Definition put_task (task : ScheduledTask) (db : SchedDb) : SchedDb :=
  mkSchedDb (<[tk_id task := task]> (sd_tasks db)) (sd_runs db) (sd_clock db).
Definition put_run (run : ScheduledTaskRun) (db : SchedDb) : SchedDb :=
  mkSchedDb (sd_tasks db) (<[rn_id run := run]> (sd_runs db)) (sd_clock db).

(** UPDATE ... WHERE id: nothing happens when the row is gone. *)
Definition update_scheduled_task (task : ScheduledTask) : sched_call unit :=
  db_write (fun db => if sd_tasks db !! tk_id task is Some _ then put_task task db else db).
Definition update_scheduled_task_run (run : ScheduledTaskRun) : sched_call unit :=
  db_write (fun db => if sd_runs db !! rn_id run is Some _ then put_run run db else db).
(** INSERT: the primary key is unique. *)
Definition insert_scheduled_task (task : ScheduledTask) : sched_call unit := fun db =>
  match sd_tasks db !! tk_id task with
  | Some _ => (Err (VibexError_storage (lit "scheduled_task_insert_failed")
                      (lit "failed to insert scheduled task")), db)
  | None => (Ok tt, put_task task db)
  end.
Definition insert_scheduled_task_run (run : ScheduledTaskRun) : sched_call unit := fun db =>
  match sd_runs db !! rn_id run with
  | Some _ => (Err (VibexError_storage (lit "scheduled_task_run_insert_failed")
                      (lit "failed to insert scheduled task run")), db)
  | None => (Ok tt, put_run run db)
  end.

Definition find_task (task_id : ident) (include_deleted : bool) (db : SchedDb) : option ScheduledTask :=
  match sd_tasks db !! task_id with
  | Some task =>
      if include_deleted || bool_decide (tk_deleted_at_ms task = None) then Some task else None
  | None => None
  end.
Definition get_scheduled_task (task_id : ident) (include_deleted : bool) : sched_call (option ScheduledTask) :=
  db_read (find_task task_id include_deleted).
Definition TASK_NOT_FOUND (task_id : ident) : VibexError :=
  with_diagnostic (VibexError_storage (lit "scheduled_task_not_found")
                     (lit "scheduled task was not found"))
    (lit "scheduledTaskId") task_id.
Definition RUN_NOT_FOUND (run_id : ident) : VibexError :=
  with_diagnostic (VibexError_storage (lit "scheduled_task_run_not_found")
                     (lit "scheduled task run was not found"))
    (lit "scheduledTaskRunId") run_id.
Definition require_scheduled_task (task_id : ident) (include_deleted : bool) : sched_call ScheduledTask :=
  let! found := get_scheduled_task task_id include_deleted in
  db_lift (ok_or found (TASK_NOT_FOUND task_id)).
Definition get_scheduled_task_run (run_id : ident) : sched_call (option ScheduledTaskRun) :=
  db_read (fun db => sd_runs db !! run_id).
Definition require_scheduled_task_run (run_id : ident) : sched_call ScheduledTaskRun :=
  let! found := get_scheduled_task_run run_id in
  db_lift (ok_or found (RUN_NOT_FOUND run_id)).

(** ** Repository (ScheduledTaskRepository) *)

Definition task_create (uuid : str) (r : ScheduledTaskCreateRequest) : sched_call ScheduledTask :=
  let! now := db_read sd_clock in
  let task := {| tk_id := id_new ScheduledTaskId uuid; tk_title := tc_title r;
    tk_prompt := tc_prompt r; tk_project_id := tc_project_id r;
    tk_workspace_id := tc_workspace_id r; tk_workspace_root := tc_workspace_root r;
    tk_workspace_mode := tc_workspace_mode r; tk_provider_kind := tc_provider_kind r;
    tk_provider_profile_id := tc_provider_profile_id r; tk_schedule := tc_schedule r;
    tk_status := Active; tk_safety := default workspace_write_ask_on_risk (tc_safety r);
    tk_next_run_at_ms := tc_next_run_at_ms r; tk_created_at_ms := now;
    tk_updated_at_ms := now; tk_deleted_at_ms := None |} in
  let! _ := insert_scheduled_task task in
  db_ret task.

(** The row an update writes. *)
Definition updated_task (r : ScheduledTaskUpdateRequest) (now : Z) (task : ScheduledTask) : ScheduledTask :=
  {| tk_id := tk_id task;
     tk_title := default (tk_title task) (tu_title r);
     tk_prompt := default (tk_prompt task) (tu_prompt r);
     tk_project_id := set_or_clear (tu_project_id r) (tu_clear_project_id r) (tk_project_id task);
     tk_workspace_id :=
      set_or_clear (tu_workspace_id r) (tu_clear_workspace_id r) (tk_workspace_id task);
     tk_workspace_root := default (tk_workspace_root task) (tu_workspace_root r);
     tk_workspace_mode := default (tk_workspace_mode task) (tu_workspace_mode r);
     tk_provider_kind := default (tk_provider_kind task) (tu_provider_kind r);
     tk_provider_profile_id :=
      set_or_clear (tu_provider_profile_id r) (tu_clear_provider_profile_id r)
        (tk_provider_profile_id task);
     tk_schedule := default (tk_schedule task) (tu_schedule r);
     tk_status := tk_status task;
     tk_safety := default (tk_safety task) (tu_safety r);
     tk_next_run_at_ms :=
      set_or_clear (tu_next_run_at_ms r) (tu_clear_next_run_at_ms r) (tk_next_run_at_ms task);
     tk_created_at_ms := tk_created_at_ms task; tk_updated_at_ms := now;
     tk_deleted_at_ms := tk_deleted_at_ms task |}.
(** The writers of a task row that follow take two statements, each on its own:
    a SELECT, and an UPDATE of the whole row.  What another connection does
    between the two is in [sched_step] below. *)
Definition task_update (r : ScheduledTaskUpdateRequest) : sched_call ScheduledTask :=
  let! task := require_scheduled_task (tu_id r) false in
  let! now := db_read sd_clock in
  let task := updated_task r now task in
  let! _ := update_scheduled_task task in
  db_ret task.

(** A task with the four fields the scheduler writes. *)
Definition task_with (task : ScheduledTask) (status : ScheduledTaskStatus) (next : option Z)
    (updated : Z) (deleted : option Z) : ScheduledTask :=
  {| tk_id := tk_id task; tk_title := tk_title task; tk_prompt := tk_prompt task;
     tk_project_id := tk_project_id task; tk_workspace_id := tk_workspace_id task;
     tk_workspace_root := tk_workspace_root task; tk_workspace_mode := tk_workspace_mode task;
     tk_provider_kind := tk_provider_kind task;
     tk_provider_profile_id := tk_provider_profile_id task; tk_schedule := tk_schedule task;
     tk_status := status; tk_safety := tk_safety task; tk_next_run_at_ms := next;
     tk_created_at_ms := tk_created_at_ms task; tk_updated_at_ms := updated;
     tk_deleted_at_ms := deleted |}.

Definition mark_task_after_run (task_id : ident) (status : ScheduledTaskStatus) (next : option Z)
    (now_ms : Z) : sched_call ScheduledTask :=
  let! task := require_scheduled_task task_id false in
  let task := task_with task status next now_ms (tk_deleted_at_ms task) in
  let! _ := update_scheduled_task task in
  db_ret task.

Definition update_scheduled_task_status (task_id : ident) (status : ScheduledTaskStatus)
  : sched_call ScheduledTask :=
  let! task := require_scheduled_task task_id false in
  let! now := db_read sd_clock in
  let task := task_with task status (tk_next_run_at_ms task) now (tk_deleted_at_ms task) in
  let! _ := update_scheduled_task task in
  db_ret task.
Definition task_pause (task_id : ident) : sched_call ScheduledTask :=
  update_scheduled_task_status task_id Paused.
Definition task_resume (task_id : ident) : sched_call ScheduledTask :=
  update_scheduled_task_status task_id Active.
Definition soft_delete (task_id : ident) : sched_call ScheduledTask :=
  let! task := require_scheduled_task task_id false in
  let! now := db_read sd_clock in
  let task := task_with task Deleted (tk_next_run_at_ms task) now (Some now) in
  let! _ := update_scheduled_task task in
  db_ret task.

(** The rows [list_due] selects, before the limit. *)
Definition is_due (now_ms : Z) (task : ScheduledTask) : bool :=
  bool_decide (tk_deleted_at_ms task = None) && bool_decide (tk_status task = Active)
  && match tk_next_run_at_ms task with Some next => (next <=? now_ms)%Z | None => false end.
Definition list_due (now_ms : Z) (limit : option Z) : sched_call (list ScheduledTask) :=
  db_read (fun db =>
    take (Z.to_nat (bounded_limit limit))
      (sort_by_key (fun t => default 0%Z (tk_next_run_at_ms t) :: tk_created_at_ms t
                              :: (Z.of_N <$> tk_id t))
         (retain (is_due now_ms) ((map_to_list (sd_tasks db)).*2)))).

(** One transaction: the UPDATE repeats the guard and sees the row just read,
    so it changes it. *)
Definition claim_due (task_id : ident) (uuid : str) (now_ms : Z)
  : sched_call (option (ScheduledTask * ScheduledTaskRun)) := fun db =>
  match find_task task_id false db with
  | None => (Ok None, db)
  | Some task =>
      match tk_next_run_at_ms task with
      | None => (Ok None, db)
      | Some due_at_ms =>
          if bool_decide (tk_status task <> Active) || (now_ms <? due_at_ms)%Z
          then (Ok None, db)
          else
            let task := task_with task (tk_status task) None now_ms (tk_deleted_at_ms task) in
            let run := {| rn_id := id_new ScheduledTaskRunId uuid; rn_task_id := tk_id task;
              rn_status := RunRunning; rn_trigger := TriggerScheduler; rn_session_id := None;
              rn_due_at_ms := due_at_ms; rn_started_at_ms := Some now_ms; rn_ended_at_ms := None;
              rn_attempt := 1; rn_error_code := None; rn_error_message := None;
              rn_redacted_diagnostics := []; rn_created_at_ms := now_ms;
              rn_updated_at_ms := now_ms |} in
            match insert_scheduled_task_run run (put_task task db) with
            | (Ok _, db') => (Ok (Some (task, run)), db')
            | (Err e, _) => (Err e, db)
            end
      end
  end.

(** The row [update_run] writes. *)
Definition updated_run (r : ScheduledTaskRunUpdateRequest) (clock : Z) (run : ScheduledTaskRun)
  : ScheduledTaskRun :=
  {| rn_id := rn_id run; rn_task_id := rn_task_id run;
     rn_status := default (rn_status run) (ru_status r); rn_trigger := rn_trigger run;
     rn_session_id := set_or_clear (ru_session_id r) (ru_clear_session_id r) (rn_session_id run);
     rn_due_at_ms := rn_due_at_ms run;
     rn_started_at_ms :=
       set_or_clear (ru_started_at_ms r) (ru_clear_started_at_ms r) (rn_started_at_ms run);
     rn_ended_at_ms :=
       set_or_clear (ru_ended_at_ms r) (ru_clear_ended_at_ms r) (rn_ended_at_ms run);
     rn_attempt := default (rn_attempt run) (ru_attempt r);
     rn_error_code :=
       set_or_clear ((fun c => truncate_chars c SCHEDULED_TASK_ERROR_CODE_MAX_CHARS) <$> ru_error_code r)
         (ru_clear_error_code r) (rn_error_code run);
     rn_error_message :=
       set_or_clear
         ((fun m => truncate_chars m SCHEDULED_TASK_ERROR_MESSAGE_MAX_CHARS) <$> ru_error_message r)
         (ru_clear_error_message r) (rn_error_message run);
     rn_redacted_diagnostics :=
       match ru_redacted_diagnostics r with
       | Some l => bound_scheduled_task_diagnostics l
       | None => rn_redacted_diagnostics run
       end;
     rn_created_at_ms := rn_created_at_ms run; rn_updated_at_ms := clock |}.

Definition update_run (r : ScheduledTaskRunUpdateRequest) : sched_call ScheduledTaskRun :=
  let! run := require_scheduled_task_run (ru_id r) in
  let! now := db_read sd_clock in
  let run := updated_run r now run in
  let! _ := update_scheduled_task_run run in
  db_ret run.

(** [COALESCE(started_at_ms, created_at_ms)]. *)
Definition run_began (run : ScheduledTaskRun) : Z :=
  default (rn_created_at_ms run) (rn_started_at_ms run).
Definition list_stale_running_runs (before_ms : Z) (limit : option Z)
  : sched_call (list ScheduledTaskRun) :=
  db_read (fun db =>
    take (Z.to_nat (bounded_limit limit))
      (sort_by_key (fun r => run_began r :: (Z.of_N <$> rn_id r))
         (retain (fun r => bool_decide (rn_status r = RunRunning) && (run_began r <=? before_ms)%Z)
            ((map_to_list (sd_runs db)).*2)))).

(** ** When a task runs next (agent/src/scheduler.rs) *)

Definition timezone_offset_minutes (timezone : str) : option Z :=
  if bool_decide (timezone ∈ [lit "UTC"; lit "Etc/UTC"; lit "Z"]) then Some 0%Z
  else if bool_decide (timezone = lit "Asia/Shanghai") then Some (8 * 60)%Z
  else None.

Definition MINUTE_MS : Z := 60 * 1000.
Definition DAY_MS : Z := 24 * 60 * MINUTE_MS.

Definition next_daily_candidate (after_ms local_time_minutes offset_minutes : Z) : Z :=
  let offset_ms := (offset_minutes * MINUTE_MS)%Z in
  let local_after_ms := i64_saturating_add after_ms offset_ms in
  let local_day_start := (local_after_ms / DAY_MS * DAY_MS)%Z in
  let local_candidate := (local_day_start + local_time_minutes * MINUTE_MS)%Z in
  let local_candidate :=
    if (local_candidate <=? local_after_ms)%Z then (local_candidate + DAY_MS)%Z
    else local_candidate in
  (local_candidate - offset_ms)%Z.

(** [end.is_some_and(|end| candidate > end)]. *)
Definition past_end (end_at_ms : option Z) (candidate : Z) : bool :=
  match end_at_ms with Some e => (e <? candidate)%Z | None => false end.

Definition next_daily_run_after (s : ScheduledTaskDailySchedule) (completed_at_ms : Z)
  : VibexResult (option Z) :=
  reject (24 * 60 <=? dy_local_time_minutes s)%Z
    with invalid "scheduler/invalid_daily_schedule"
           "daily schedule localTimeMinutes must be less than 1440" ;;
  let? offset_minutes := ok_or (timezone_offset_minutes (dy_timezone s))
    (with_diagnostic (invalid "scheduler/unsupported_timezone"
       "daily scheduled task timezone is not supported by the local scheduler")
       (lit "timezone") (dy_timezone s)) in
  let candidate := next_daily_candidate completed_at_ms (dy_local_time_minutes s) offset_minutes in
  let candidate :=
    if (candidate <? dy_start_at_ms s)%Z
    then next_daily_candidate (i64_saturating_sub (dy_start_at_ms s) 1)
           (dy_local_time_minutes s) offset_minutes
    else candidate in
  Ok (if past_end (dy_end_at_ms s) candidate then None else Some candidate).

(** [while candidate <= completed { candidate += step; if past end return
    None }]; the outer [None] is a loop still running when the fuel ends. *)
Fixpoint interval_loop (fuel : nat) (step_ms : Z) (end_at_ms : option Z)
    (completed_at_ms candidate : Z) : option (option Z) :=
  match fuel with
  | O => None
  | S fuel =>
      if (candidate <=? completed_at_ms)%Z then
        let candidate := i64_saturating_add candidate step_ms in
        if past_end end_at_ms candidate then Some None
        else interval_loop fuel step_ms end_at_ms completed_at_ms candidate
      else Some (Some candidate)
  end.
(** Each turn moves the candidate by at least a millisecond. *)
Definition interval_fuel (completed_at_ms candidate : Z) : nat :=
  S (S (Z.to_nat (completed_at_ms - candidate))).

Definition next_interval_run_after (s : ScheduledTaskIntervalSchedule)
    (completed_due_at_ms completed_at_ms : Z) : VibexResult (option Z) :=
  reject (iv_every_seconds s =? 0)%Z
    with invalid "scheduler/invalid_interval_schedule"
           "interval schedule everySeconds must be greater than zero" ;;
  let step_ms := (iv_every_seconds s * 1000)%Z in
  let candidate := i64_saturating_add completed_due_at_ms step_ms in
  let candidate :=
    if (candidate <? iv_start_at_ms s)%Z then iv_start_at_ms s else candidate in
  Ok (match interval_loop (interval_fuel completed_at_ms candidate) step_ms (iv_end_at_ms s)
              completed_at_ms candidate with
      | Some (Some candidate) =>
          if past_end (iv_end_at_ms s) candidate then None else Some candidate
      | _ => None
      end).

Definition next_run_after (schedule : ScheduledTaskSchedule)
    (completed_due_at_ms completed_at_ms : Z) : VibexResult (option Z) :=
  match schedule with
  | OneShot _ => Ok None
  | Interval s => next_interval_run_after s completed_due_at_ms completed_at_ms
  | Daily s => next_daily_run_after s completed_at_ms
  end.

Definition next_task_state_after_run (task : option ScheduledTask)
    (completed_due_at_ms completed_at_ms : Z)
  : option Z * ScheduledTaskStatus * list RedactedDiagnostic :=
  match task with
  | None => (None, Paused, [])
  | Some task =>
      match next_run_after (tk_schedule task) completed_due_at_ms completed_at_ms with
      | Ok next => (next, if next is Some _ then Active else Paused, [])
      | Err err => (None, Paused, [mkDiagnostic (lit "scheduleErrorCode") (err_code err);
                                   mkDiagnostic (lit "scheduleErrorMessage") (err_message err)])
      end
  end.

(** ** The runner (ScheduledTaskRunner) *)

(** The update a finished run asks for: the fields that differ between the
    outcomes. *)
Definition run_ending (run : ScheduledTaskRun) (status : ScheduledTaskRunStatus)
    (session_id : option ident) (now_ms : Z) (error : option (str * str))
    (diagnostics : list RedactedDiagnostic) : ScheduledTaskRunUpdateRequest :=
  {| ru_id := rn_id run; ru_status := Some status; ru_session_id := session_id;
     ru_clear_session_id := false; ru_started_at_ms := None; ru_clear_started_at_ms := false;
     ru_ended_at_ms := Some now_ms; ru_clear_ended_at_ms := false; ru_attempt := None;
     ru_error_code := fst <$> error; ru_clear_error_code := bool_decide (error = None);
     ru_error_message := snd <$> error; ru_clear_error_message := bool_decide (error = None);
     ru_redacted_diagnostics := Some diagnostics |}.

Definition complete_run_success (task : ScheduledTask) (run : ScheduledTaskRun) (now_ms : Z)
  : sched_call ScheduledTaskRun :=
  match next_task_state_after_run (Some task) (rn_due_at_ms run) now_ms with
  | (next_run_at_ms, task_status, []) =>
      let! run := update_run (run_ending run RunSucceeded (rn_session_id run) now_ms None []) in
      let! _ := mark_task_after_run (tk_id task) task_status next_run_at_ms now_ms in
      db_ret run
  | (_, task_status, diagnostics) =>
      let err := VibexError_validation
        (default (lit "scheduler/schedule_next_run_failed")
           (diag_value <$> List.find (fun d => bool_decide (diag_key d = lit "scheduleErrorCode"))
                             diagnostics))
        (lit "scheduled task next run could not be computed") in
      let! _ := mark_task_after_run (tk_id task) task_status None now_ms in
      update_run (run_ending run RunFailed (rn_session_id run) now_ms
                    (Some (err_code err, err_message err)) diagnostics)
  end.

Definition complete_run_with_error (task : ScheduledTask) (run : ScheduledTaskRun)
    (status : ScheduledTaskRunStatus) (now_ms : Z) (err : VibexError) : sched_call ScheduledTaskRun :=
  let '(next_run_at_ms, task_status, diagnostics) :=
    next_task_state_after_run (Some task) (rn_due_at_ms run) now_ms in
  let diagnostics := diagnostics
    ++ [mkDiagnostic (lit "errorCategory") (category_debug (err_category err))]
    ++ err_diagnostics err in
  let! run := update_run (run_ending run status (rn_session_id run) now_ms
                            (Some (err_code err, err_message err)) diagnostics) in
  let! _ := mark_task_after_run (tk_id task) task_status next_run_at_ms now_ms in
  db_ret run.

(** Where the runner waits or opens a new connection, so that another
    connection may write. *)
Inductive Pause : Type := BeforeClaim | OpeningSession | Answering.

Record Setting : Type := mkSetting {
  se_turn : ScheduledTask -> Turn;
  se_others : ident -> Pause -> SchedDb -> SchedDb;
  se_run_uuid : ident -> str
}.

Record ScheduledTaskRunOutcome : Type := mkRunOutcome {
  ro_task_id : ident;
  ro_run_id : ident;
  ro_session_id : option ident;
  ro_status : ScheduledTaskRunStatus;
  ro_error_code : option str
}.
Definition outcome_from_run (run : ScheduledTaskRun) : ScheduledTaskRunOutcome :=
  mkRunOutcome (rn_task_id run) (rn_id run) (rn_session_id run) (rn_status run) (rn_error_code run).

Record ScheduledTaskTickResult : Type := mkTickResult {
  ti_checked : nat;
  ti_claimed : nat;
  ti_succeeded : nat;
  ti_failed : nat;
  ti_skipped : nat;
  ti_recovered : nat;
  ti_outcomes : list ScheduledTaskRunOutcome
}.
Definition TickResult_empty : ScheduledTaskTickResult := mkTickResult 0 0 0 0 0 0 [].
Definition push_outcome (r : ScheduledTaskTickResult) (o : ScheduledTaskRunOutcome)
  : ScheduledTaskTickResult :=
  let '(s, f, k) := match ro_status o with
    | RunSucceeded => (1, 0, 0)
    | RunFailed => (0, 1, 0)
    | RunSkipped | RunCanceled => (0, 0, 1)
    | RunQueued | RunRunning => (0, 0, 0)
    end in
  mkTickResult (ti_checked r) (ti_claimed r) (ti_succeeded r + s) (ti_failed r + f)
    (ti_skipped r + k) (ti_recovered r) (ti_outcomes r ++ [o]).

Definition PERMISSION_REQUIRED : VibexError :=
  VibexError_new Permission (lit "scheduler/permission_required")
    (lit "scheduled task run requires user input or permission").

(** The update that ties a run to its session. *)
Definition run_opened (run : ScheduledTaskRun) (session : ident) : ScheduledTaskRunUpdateRequest :=
  {| ru_id := rn_id run; ru_status := Some RunRunning; ru_session_id := Some session;
     ru_clear_session_id := false; ru_started_at_ms := None; ru_clear_started_at_ms := false;
     ru_ended_at_ms := None; ru_clear_ended_at_ms := false; ru_attempt := None;
     ru_error_code := None; ru_clear_error_code := false; ru_error_message := None;
     ru_clear_error_message := false; ru_redacted_diagnostics := None |}.

Section runner.
Context (setting : Setting) (due_limit : Z) (stale_after_ms : Z).

(** The others' writes at a pause. *)
Definition pause_for (task : ident) (p : Pause) : sched_call unit :=
  db_write (se_others setting task p).

Definition execute_claimed_task (task : ScheduledTask) (run : ScheduledTaskRun) (now_ms : Z)
  : sched_call ScheduledTaskRunOutcome :=
  let turn := se_turn setting task in
  match turn with
  | NoRuntime err => db_fail err
  | NoSession err =>
      let! _ := pause_for (tk_id task) OpeningSession in
      let! completed := complete_run_with_error task run RunFailed now_ms err in
      db_ret (outcome_from_run completed)
  | NotSent session _ | NotRead session _ | Settled session _ =>
      let! _ := pause_for (tk_id task) OpeningSession in
      let! run := update_run (run_opened run session) in
      let! _ := pause_for (tk_id task) Answering in
      let! run :=
        match turn with
        | NotSent _ err => complete_run_with_error task run RunFailed now_ms err
        | NotRead _ err => db_fail err
        | Settled _ state =>
            if bool_decide (state = NeedsInput)
            then complete_run_with_error task run RunSkipped now_ms PERMISSION_REQUIRED
            else complete_run_success task run now_ms
        | _ => db_ret run
        end in
      db_ret (outcome_from_run run)
  end.

Definition recover_run (now_ms : Z) (recovered : list ScheduledTaskRun) (run : ScheduledTaskRun)
  : sched_call (list ScheduledTaskRun) :=
  let! task := get_scheduled_task (rn_task_id run) false in
  let '(next_run_at_ms, task_status, diagnostics) :=
    next_task_state_after_run task (rn_due_at_ms run) now_ms in
  let diagnostics := diagnostics ++ [mkDiagnostic (lit "recoveredBy") (lit "scheduler_tick")] in
  let! updated := update_run (run_ending run RunFailed None now_ms
    (Some (lit "scheduler/recovered_stale_run",
           lit "scheduled task run was recovered after restart")) diagnostics) in
  let! _ := match task with
            | Some task =>
                let! _ := mark_task_after_run (tk_id task) task_status next_run_at_ms now_ms in
                db_ret tt
            | None => db_ret tt
            end in
  db_ret (recovered ++ [updated]).

Definition recover_stale_runs (now_ms : Z) : sched_call (list ScheduledTaskRun) :=
  let! stale_runs :=
    list_stale_running_runs (i64_saturating_sub now_ms stale_after_ms) (Some due_limit) in
  db_for (recover_run now_ms) [] stale_runs.

Definition run_due_task (now_ms : Z) (result : ScheduledTaskTickResult) (task : ScheduledTask)
  : sched_call ScheduledTaskTickResult :=
  let! _ := pause_for (tk_id task) BeforeClaim in
  let! claimed := claim_due (tk_id task) (se_run_uuid setting (tk_id task)) now_ms in
  match claimed with
  | None => db_ret result
  | Some (claimed_task, run) =>
      let result := mkTickResult (ti_checked result) (S (ti_claimed result)) (ti_succeeded result)
        (ti_failed result) (ti_skipped result) (ti_recovered result) (ti_outcomes result) in
      let! outcome := execute_claimed_task claimed_task run now_ms in
      db_ret (push_outcome result outcome)
  end.

Definition tick (now_ms : Z) : sched_call ScheduledTaskTickResult :=
  let! recovered := recover_stale_runs now_ms in
  let result := mkTickResult 0 0 0 0 0 (length recovered) [] in
  let result := foldl push_outcome result (outcome_from_run <$> recovered) in
  let! due := list_due now_ms (Some due_limit) in
  let result := mkTickResult (length due) (ti_claimed result) (ti_succeeded result)
    (ti_failed result) (ti_skipped result) (ti_recovered result) (ti_outcomes result) in
  db_for (run_due_task now_ms) result due.
End runner.

(** ** The next run of a schedule *)

(** Instants a schedule may name: half of the i64 range, so no sum saturates. *)
Definition sane_ms (t : Z) : Prop := (- 2 ^ 62 <= t <= 2 ^ 62)%Z.

(** An instant at the schedule's local time of day. *)
Definition at_local_minute (minutes offset_minutes t : Z) : Prop :=
  ((t + offset_minutes * MINUTE_MS) mod DAY_MS = minutes * MINUTE_MS)%Z.

(** [t] is the least instant of [P]. *)
Definition least (P : Z -> Prop) (t : Z) : Prop := P t /\ forall t', P t' -> (t <= t')%Z.

Lemma timezone_offset_range timezone offset :
  timezone_offset_minutes timezone = Some offset -> (0 <= offset <= 480)%Z.
Proof. unfold timezone_offset_minutes. repeat case_bool_decide; intros [= <-]; lia. Qed.

Lemma next_daily_candidate_least after minutes offset :
  (- 2 ^ 62 - 1 <= after <= 2 ^ 62)%Z -> (0 <= offset <= 480)%Z -> (0 <= minutes < 24 * 60)%Z ->
  least (fun t => at_local_minute minutes offset t /\ (after < t)%Z)
    (next_daily_candidate after minutes offset).
Proof.
  intros Ha Ho Hm. unfold next_daily_candidate, at_local_minute, least. cbv zeta.
  rewrite i64_saturating_add_exact by (unfold MINUTE_MS; int_lia).
  set (off := (offset * MINUTE_MS)%Z). set (m := (minutes * MINUTE_MS)%Z).
  assert (Hmr : (0 <= m < DAY_MS)%Z) by (unfold m, DAY_MS, MINUTE_MS; lia).
  assert (Hd : (0 < DAY_MS)%Z) by (unfold DAY_MS, MINUTE_MS; lia).
  set (l := (after + off)%Z). pose proof (Z.div_mod l DAY_MS ltac:(lia)) as Hl.
  pose proof (Z.mod_pos_bound l DAY_MS Hd) as Hb.
  set (q := (l / DAY_MS)%Z) in *. set (r := (l mod DAY_MS)%Z) in *.
  assert (Hmod : forall k, ((k * DAY_MS + m) mod DAY_MS = m)%Z).
  { intros k. rewrite Z.add_comm, Z.mod_add by lia. by apply Z.mod_small. }
  assert (Hleast : forall t', ((t' + off) mod DAY_MS = m)%Z ->
            exists k, (t' + off = k * DAY_MS + m)%Z).
  { intros t' Ht. exists ((t' + off) / DAY_MS)%Z. rewrite (Z.div_mod (t' + off) DAY_MS) at 1 by lia. lia. }
  destruct (Z.leb_spec (q * DAY_MS + m) l) as [H|H].
  - split; [split|].
    + replace (_ - off + off)%Z with ((q + 1) * DAY_MS + m)%Z by lia. apply Hmod.
    + subst l. nia.
    + intros t' [Ht Hlt]. destruct (Hleast t' Ht) as [k Hk]. subst l.
      assert (q < k)%Z by nia. nia.
  - split; [split|].
    + replace (_ - off + off)%Z with (q * DAY_MS + m)%Z by lia. apply Hmod.
    + subst l. lia.
    + intros t' [Ht Hlt]. destruct (Hleast t' Ht) as [k Hk]. subst l.
      assert (q <= k)%Z by nia. nia.
Qed.

(** A daily task runs next at the first instant of its local time of day that
    is after the run just completed and not before the schedule starts, in a
    supported time zone, unless that instant is past the schedule's end. *)
Theorem daily_run_is_next (s : ScheduledTaskDailySchedule) (completed offset : Z) :
  (0 <= dy_local_time_minutes s < 24 * 60)%Z ->
  timezone_offset_minutes (dy_timezone s) = Some offset ->
  sane_ms completed -> sane_ms (dy_start_at_ms s) ->
  exists t,
    least (fun t => at_local_minute (dy_local_time_minutes s) offset t /\
                    (completed < t)%Z /\ (dy_start_at_ms s <= t)%Z) t /\
    next_run_after (Daily s) 0 completed =
      Ok (if past_end (dy_end_at_ms s) t then None else Some t).
Proof.
  intros Hm Htz Hc Hs. pose proof (timezone_offset_range _ _ Htz) as Ho. unfold sane_ms in *.
  pose proof (next_daily_candidate_least completed _ offset ltac:(lia) Ho Hm) as [[H1 H2] H3].
  unfold next_run_after, next_daily_run_after. rewrite Htz.
  destruct (Z.leb_spec (24 * 60) (dy_local_time_minutes s)) as [H|_]; [lia|]. cbn [result_bind ok_or].
  set (c := next_daily_candidate completed _ offset) in *.
  destruct (Z.ltb_spec c (dy_start_at_ms s)) as [Hlt|Hge]; eexists; (split; [|done]).
  - rewrite (ltac:(unfold i64_saturating_sub, i64_clamp, i64_min, i64_max; lia) :
      i64_saturating_sub (dy_start_at_ms s) 1 = (dy_start_at_ms s - 1)%Z).
    pose proof (next_daily_candidate_least (dy_start_at_ms s - 1) _ offset ltac:(lia) Ho Hm)
      as [[G1 G2] G3].
    split; [split; [done|lia]|]. intros t' (T1 & T2 & T3). apply G3. split; [done|lia].
  - split; [done|]. intros t' (T1 & T2 & _). by apply H3.
Qed.

Lemma interval_loop_spec fuel step e done c :
  (0 < step <= 2 ^ 50)%Z -> (- 2 ^ 62 <= c <= 2 ^ 62 + 2 ^ 50)%Z -> (done <= 2 ^ 62)%Z ->
  Z.to_nat (done - c + 1) < fuel ->
  exists t, least (fun t => (done < t)%Z /\ exists k, (0 <= k)%Z /\ (t = c + k * step)%Z) t /\
    match interval_loop fuel step e done c with
    | None => False
    | Some None => past_end e t = true
    | Some (Some c') => c' = t
    end.
Proof.
  intros Hstep. revert c. induction fuel as [|fuel IH]; intros c Hc Hd Hf; [lia|]. simpl.
  destruct (Z.leb_spec c done) as [H|H].
  - rewrite i64_saturating_add_exact by int_lia.
    destruct (IH (c + step)%Z ltac:(lia) Hd ltac:(lia)) as (t & [[Ht (k & Hk & ->)] Hmin] & Hres).
    exists (c + step + k * step)%Z. split.
    + split; [split; [lia|]; exists (k + 1)%Z; lia|].
      intros t' (Hlt & k' & Hk' & ->). apply Hmin. split; [lia|]. exists (k' - 1)%Z. nia.
    + destruct (past_end e (c + step)) eqn:E; [|done].
      unfold past_end in *. destruct e as [e|]; [|done]. apply Z.ltb_lt in E. apply Z.ltb_lt. nia.
  - exists c. split; [|done]. split; [split; [lia|]; exists 0%Z; lia|].
    intros t' (Hlt & k & Hk & ->). nia.
Qed.

(** An interval task runs next at the first multiple of its interval, counted
    from the due time of the run just completed or from the schedule's start
    when that is later, that lies after the completion; the loop always ends,
    and past the schedule's end the task has no next run. *)
Theorem interval_run_is_next (s : ScheduledTaskIntervalSchedule) (due completed : Z) :
  (0 < iv_every_seconds s <= u32_max)%Z -> sane_ms due -> sane_ms completed ->
  sane_ms (iv_start_at_ms s) ->
  let step := (iv_every_seconds s * 1000)%Z in
  let first := Z.max (due + step) (iv_start_at_ms s) in
  exists t,
    least (fun t => (completed < t)%Z /\ exists k, (0 <= k)%Z /\ (t = first + k * step)%Z) t /\
    next_run_after (Interval s) due completed =
      Ok (if past_end (iv_end_at_ms s) t then None else Some t).
Proof.
  intros He Hd Hc Hs step first. unfold sane_ms, u32_max in *.
  unfold next_run_after, next_interval_run_after.
  destruct (Z.eqb_spec (iv_every_seconds s) 0) as [?|_]; [lia|]. fold step. cbv zeta.
  rewrite i64_saturating_add_exact by int_lia.
  replace (if (due + step <? iv_start_at_ms s)%Z then iv_start_at_ms s else (due + step)%Z) with first
    by (subst first; destruct (Z.ltb_spec (due + step) (iv_start_at_ms s)); lia).
  destruct (interval_loop_spec (interval_fuel completed first) step (iv_end_at_ms s) completed first)
    as (t & Ht & Hres); [lia|lia|lia|unfold interval_fuel; lia|].
  exists t. split; [done|]. destruct (interval_loop _ _ _ _ _) as [[c'|]|]; [..|done].
  - by subst c'.
  - by rewrite Hres.
Qed.

(** ** The tables *)

(** Every row sits under its own key. *)
Definition keyed (db : SchedDb) : Prop :=
  map_Forall (fun k t => tk_id t = k) (sd_tasks db) /\
  map_Forall (fun k r => rn_id r = k) (sd_runs db).

Lemma keyed_put_task task db : keyed db -> keyed (put_task task db).
Proof. intros [H1 H2]. split; [|done]. by apply map_Forall_insert_2. Qed.

Lemma keyed_put_run run db : keyed db -> keyed (put_run run db).
Proof. intros [H1 H2]. split; [done|]. by apply map_Forall_insert_2. Qed.

Lemma find_task_Some id task db :
  find_task id false db = Some task <-> sd_tasks db !! id = Some task /\ tk_deleted_at_ms task = None.
Proof.
  unfold find_task. destruct (sd_tasks db !! id) as [t|]; simpl; [|naive_solver].
  case_bool_decide; naive_solver.
Qed.

Lemma find_task_id id task db : keyed db -> find_task id false db = Some task -> tk_id task = id.
Proof. intros [Hk _] [H _]%find_task_Some. by apply (Hk id). Qed.

Lemma find_put_task task db :
  find_task (tk_id task) false (put_task task db) =
  if bool_decide (tk_deleted_at_ms task = None) then Some task else None.
Proof. unfold find_task, put_task. simpl. by rewrite lookup_insert_eq. Qed.

Lemma find_put_task_ne task db id :
  id <> tk_id task -> find_task id false (put_task task db) = find_task id false db.
Proof. intros Hne. unfold find_task, put_task. simpl. by rewrite lookup_insert_ne. Qed.

Lemma require_task_found id task db :
  find_task id false db = Some task -> require_scheduled_task id false db = (Ok task, db).
Proof. intros H. unfold require_scheduled_task, db_bind, get_scheduled_task, db_read. by rewrite H. Qed.

Lemma require_task_missing id db :
  find_task id false db = None -> require_scheduled_task id false db = (Err (TASK_NOT_FOUND id), db).
Proof. intros H. unfold require_scheduled_task, db_bind, get_scheduled_task, db_read. by rewrite H. Qed.

(** A call that reads the row of a task, computes the row to write and writes it. *)
Lemma write_task_found id task task' db :
  keyed db -> find_task id false db = Some task -> tk_id task' = id ->
  update_scheduled_task task' db = (Ok tt, put_task task' db).
Proof.
  intros Hk [H _]%find_task_Some Hid. unfold update_scheduled_task, db_write. by rewrite Hid, H.
Qed.

Lemma mark_found id status next now task db :
  keyed db -> find_task id false db = Some task ->
  let task' := task_with task status next now None in
  mark_task_after_run id status next now db = (Ok task', put_task task' db).
Proof.
  intros Hk Hf task'. pose proof (find_task_id id task db Hk Hf) as Hid.
  unfold mark_task_after_run, db_bind. rewrite (require_task_found id task db Hf).
  pose proof (proj1 (find_task_Some _ _ _) Hf) as [_ ->].
  by rewrite (write_task_found id task _ db Hk Hf).
Qed.

Lemma mark_missing id status next now db :
  find_task id false db = None ->
  mark_task_after_run id status next now db = (Err (TASK_NOT_FOUND id), db).
Proof. intros H. unfold mark_task_after_run, db_bind. by rewrite (require_task_missing id db H). Qed.

Lemma require_run r db :
  require_scheduled_task_run r db =
  match sd_runs db !! r with Some run => (Ok run, db) | None => (Err (RUN_NOT_FOUND r), db) end.
Proof.
  unfold require_scheduled_task_run, get_scheduled_task_run, db_bind, db_read, db_lift.
  by destruct (sd_runs db !! r).
Qed.

Lemma update_run_found r run db :
  keyed db -> sd_runs db !! ru_id r = Some run ->
  let run' := updated_run r (sd_clock db) run in
  update_run r db = (Ok run', put_run run' db).
Proof.
  intros [_ Hk] H run'. pose proof (Hk _ _ H) as Hid. simpl in Hid.
  unfold update_run, db_bind. rewrite require_run, H. unfold db_read. fold run'.
  unfold update_scheduled_task_run, db_write. change (rn_id run') with (rn_id run). by rewrite Hid, H.
Qed.

Lemma update_run_ok r db run' db' :
  update_run r db = (Ok run', db') ->
  exists run, sd_runs db !! ru_id r = Some run /\ run' = updated_run r (sd_clock db) run.
Proof.
  unfold update_run, db_bind. rewrite require_run. destruct (sd_runs db !! ru_id r) as [run|]; [|done].
  intros [= <- _]. by exists run.
Qed.

(** ** One claim per occurrence *)

(** What the writers of a task row ask for. *)
Inductive task_write : Type :=
| WriteUpdate (r : ScheduledTaskUpdateRequest)
| WriteStatus (id : ident) (status : ScheduledTaskStatus)
| WriteDelete (id : ident)
| WriteMark (id : ident) (status : ScheduledTaskStatus) (next : option Z) (now : Z).
Definition task_call (write : task_write) : sched_call ScheduledTask :=
  match write with
  | WriteUpdate r => task_update r
  | WriteStatus id status => update_scheduled_task_status id status
  | WriteDelete id => soft_delete id
  | WriteMark id status next now => mark_task_after_run id status next now
  end.
Definition written_id (write : task_write) : ident :=
  match write with
  | WriteUpdate r => tu_id r
  | WriteStatus id _ | WriteDelete id | WriteMark id _ _ _ => id
  end.
(** The row that is written, from the row that was read. *)
Definition written_task (write : task_write) (clock : Z) (task : ScheduledTask) : ScheduledTask :=
  match write with
  | WriteUpdate r => updated_task r clock task
  | WriteStatus _ status => task_with task status (tk_next_run_at_ms task) clock (tk_deleted_at_ms task)
  | WriteDelete _ => task_with task Deleted (tk_next_run_at_ms task) clock (Some clock)
  | WriteMark _ status next now => task_with task status next now (tk_deleted_at_ms task)
  end.

(** The database and, by connection, the row its owner is about to write. *)
Inductive held_row : Type := TaskRow (task : ScheduledTask) | RunRow (run : ScheduledTaskRun).
Record Shared : Type := mkShared { sh_db : SchedDb; sh_held : gmap nat held_row }.

(** One statement, or one transaction, of some connection. *)
Inductive sched_op : Type :=
| OpCreate (uuid : str) (r : ScheduledTaskCreateRequest)
| OpReadTask (connection : nat) (write : task_write)
| OpReadRun (connection : nat) (r : ScheduledTaskRunUpdateRequest)
| OpWrite (connection : nat)
| OpClaim (id : ident) (uuid : str) (now : Z)
| OpClock (now : Z).

Definition hold (connection : nat) (row : option held_row) (s : Shared) : Shared :=
  mkShared (sh_db s) (match row with
                      | Some row => <[connection := row]> (sh_held s)
                      | None => delete connection (sh_held s)
                      end).
Definition on_shared (f : SchedDb -> SchedDb) (s : Shared) : Shared := mkShared (f (sh_db s)) (sh_held s).
Definition sched_step (s : Shared) (op : sched_op) : Shared :=
  match op with
  | OpCreate uuid r => on_shared (fun db => (task_create uuid r db).2) s
  | OpReadTask c write =>
      hold c ((fun task => TaskRow (written_task write (sd_clock (sh_db s)) task)) <$>
                find_task (written_id write) false (sh_db s)) s
  | OpReadRun c r =>
      hold c ((fun run => RunRow (updated_run r (sd_clock (sh_db s)) run)) <$> sd_runs (sh_db s) !! ru_id r) s
  | OpWrite c =>
      match sh_held s !! c with
      | Some (TaskRow task) => hold c None (on_shared (fun db => (update_scheduled_task task db).2) s)
      | Some (RunRow run) => hold c None (on_shared (fun db => (update_scheduled_task_run run db).2) s)
      | None => s
      end
  | OpClaim id uuid now => on_shared (fun db => (claim_due id uuid now db).2) s
  | OpClock now => on_shared (fun db => mkSchedDb (sd_tasks db) (sd_runs db) now) s
  end.

(** The writers that give task [id] a next run. *)
Definition arms (id : ident) (op : sched_op) : Prop :=
  match op with
  | OpReadTask _ (WriteUpdate r) => tu_id r = id /\ is_Some (tu_next_run_at_ms r)
  | OpReadTask _ (WriteMark id' _ next _) => id' = id /\ is_Some next
  | _ => False
  end.
(** The connections that hold a row of task [id]. *)
Definition holds (id : ident) (s : Shared) (connection : nat) : Prop :=
  exists task, sh_held s !! connection = Some (TaskRow task) /\ tk_id task = id.

(** The row of [id] is there and has no next run it could be claimed for. *)
Definition unarmed (id : ident) (db : SchedDb) : Prop :=
  exists task, sd_tasks db !! id = Some task /\
    (tk_deleted_at_ms task = None -> tk_next_run_at_ms task = None).

(** ** Triples over repository calls *)

Lemma triple_require P id (Q : ScheduledTask -> SchedDb -> Prop) (E : SchedDb -> Prop) :
  (forall db task, P db -> find_task id false db = Some task -> Q task db) ->
  (forall db, P db -> E db) -> triple P (require_scheduled_task id false) Q E.
Proof.
  intros H1 H2 db HP. destruct (find_task id false db) as [task|] eqn:Hf.
  - rewrite (require_task_found _ _ _ Hf). by apply H1.
  - rewrite (require_task_missing _ _ Hf). by apply H2.
Qed.

(** A stable assertion is kept by writing a row. *)
Lemma triple_update_task (P : SchedDb -> Prop) task E :
  (forall db, P db -> P (put_task task db)) -> triple P (update_scheduled_task task) (fun _ => P) E.
Proof. intros H. apply triple_write. intros db HP. case_match; [by apply H|done]. Qed.

Lemma unarmed_put_run id run db : unarmed id db -> unarmed id (put_run run db).
Proof. by intros (task & ? & ?); exists task. Qed.

Lemma unarmed_insert id task db :
  keyed db -> unarmed id db ->
  let db' := (insert_scheduled_task task db).2 in keyed db' /\ unarmed id db'.
Proof.
  intros Hk Hu. unfold insert_scheduled_task. destruct (sd_tasks db !! tk_id task) eqn:E; [done|].
  split; [by apply keyed_put_task|]. destruct Hu as (row & Hl & Hn). exists row. split; [|done].
  simpl. rewrite lookup_insert_ne; [done|]. congruence.
Qed.

Lemma unarmed_write id task db :
  (tk_id task = id -> tk_next_run_at_ms task = None) -> keyed db -> unarmed id db ->
  let db' := (update_scheduled_task task db).2 in keyed db' /\ unarmed id db'.
Proof.
  intros Hn Hk Hu. unfold update_scheduled_task, db_write. cbn [snd].
  destruct (sd_tasks db !! tk_id task) eqn:E; [|done]. split; [by apply keyed_put_task|].
  destruct Hu as (row & Hl & Hr). unfold unarmed. simpl. destruct (decide (tk_id task = id)) as [<-|Hne].
  - rewrite lookup_insert_eq. eexists. split; [done|]. intros _. by apply Hn.
  - rewrite lookup_insert_ne by done. by exists row.
Qed.
Lemma unarmed_write_run id run db :
  keyed db -> unarmed id db ->
  let db' := (update_scheduled_task_run run db).2 in keyed db' /\ unarmed id db'.
Proof.
  intros Hk Hu. unfold update_scheduled_task_run, db_write. cbn [snd]. destruct (sd_runs db !! rn_id run); [|done].
  split; [by apply keyed_put_run|by apply unarmed_put_run].
Qed.

(** What a claim does: nothing, or one row disarmed and one run written. *)
Lemma claim_due_cases id uuid now db :
  ((exists r, claim_due id uuid now db = (r, db) /\ forall c, r <> Ok (Some c)) \/
  exists task due run, find_task id false db = Some task /\ tk_status task = Active /\
    tk_next_run_at_ms task = Some due /\ (due <= now)%Z /\
    let task' := task_with task Active None now None in
    rn_due_at_ms run = due /\ rn_task_id run = tk_id task /\ rn_status run = RunRunning /\
    sd_runs db !! rn_id run = None /\
    claim_due id uuid now db = (Ok (Some (task', run)), put_run run (put_task task' db))).
Proof.
  unfold claim_due. destruct (find_task id false db) as [task|] eqn:Hf; [|left; by eexists].
  destruct (tk_next_run_at_ms task) as [due|] eqn:Hn; [|left; by eexists].
  case_bool_decide as Hs; simpl; [left; by eexists|].
  destruct (Z.ltb_spec now due) as [?|Hle]; [left; by eexists|].
  assert (Hact : tk_status task = Active) by (destruct (decide (tk_status task = Active)); [done|by destruct Hs]).
  pose proof (proj1 (find_task_Some _ _ _) Hf) as [_ Hdel]. rewrite Hact, Hdel.
  unfold insert_scheduled_task_run.
  match goal with |- context [sd_runs _ !! rn_id ?r] => set (run := r) end.
  destruct (sd_runs _ !! rn_id run) eqn:E; [left; by eexists|].
  right. by exists task, due, run.
Qed.

Lemma unarmed_claim id id' uuid now db :
  keyed db -> unarmed id db ->
  let db' := (claim_due id' uuid now db).2 in keyed db' /\ unarmed id db'.
Proof.
  intros Hk Hu. destruct (claim_due_cases id' uuid now db) as [(r & -> & _)|(task & due & run & Hf & _ & _ & _ & H)]; [done|].
  cbv zeta in H. destruct H as (_ & _ & _ & _ & ->). simpl.
  split; [by apply keyed_put_run, keyed_put_task|]. apply unarmed_put_run.
  destruct Hu as (row & Hl & Hn). unfold unarmed. simpl. rewrite (find_task_id _ _ _ Hk Hf).
  destruct (decide (id' = id)) as [->|Hne].
  - rewrite lookup_insert_eq. by eexists.
  - rewrite lookup_insert_ne by done. by exists row.
Qed.

(** Two statements one after the other are the call. *)
Lemma call_is_two_statements write c s :
  keyed (sh_db s) ->
  foldl sched_step s [OpReadTask c write; OpWrite c] = mkShared (task_call write (sh_db s)).2 (delete c (sh_held s)).
Proof.
  intros Hk. destruct s as [db held]. cbn [foldl sched_step hold sh_db sh_held] in *.
  assert (Hcall : forall c', c' = task_call write db -> c' =
    match find_task (written_id write) false db with
    | Some task => (Ok (written_task write (sd_clock db) task), put_task (written_task write (sd_clock db) task) db)
    | None => (Err (TASK_NOT_FOUND (written_id write)), db)
    end).
  { intros c' ->. destruct (find_task (written_id write) false db) as [task|] eqn:Hf.
    - assert (Hw : update_scheduled_task (written_task write (sd_clock db) task) db =
        (Ok tt, put_task (written_task write (sd_clock db) task) db)).
      { apply (write_task_found (written_id write) task); [done..|].
        rewrite <- (find_task_id _ _ _ Hk Hf). by destruct write. }
      destruct write; cbn [task_call written_id written_task] in *;
        unfold task_update, update_scheduled_task_status, soft_delete, mark_task_after_run, db_bind;
        rewrite (require_task_found _ _ _ Hf); unfold db_read; by rewrite Hw.
    - destruct write; cbn [task_call written_id] in *;
        unfold task_update, update_scheduled_task_status, soft_delete, mark_task_after_run, db_bind;
        by rewrite (require_task_missing _ _ Hf). }
  rewrite (Hcall _ eq_refl). destruct (find_task (written_id write) false db) as [task|] eqn:Hf; cbn [fmap option_fmap option_map snd].
  - rewrite lookup_insert_eq. unfold on_shared, hold. cbn [sh_db sh_held]. rewrite delete_insert_eq. f_equal.
    rewrite (write_task_found (written_id write) task); [done..|]. rewrite <- (find_task_id _ _ _ Hk Hf). by destruct write.
  - by rewrite lookup_delete_eq.
Qed.

(** ** A claimed occurrence *)

(** What is kept: the row has no next run, and the rows that connections hold
    have none either, those apart that held one at the claim. *)
Record claimed (id : ident) (late : nat -> Prop) (s : Shared) : Prop := {
  cl_keyed : keyed (sh_db s);
  cl_unarmed : unarmed id (sh_db s);
  cl_held : forall c task, sh_held s !! c = Some (TaskRow task) -> tk_id task = id ->
    late c \/ tk_next_run_at_ms task = None
}.

Lemma written_unarmed id write c clock db task :
  ~ arms id (OpReadTask c write) -> keyed db -> unarmed id db -> find_task (written_id write) false db = Some task ->
  tk_id (written_task write clock task) = id -> tk_next_run_at_ms (written_task write clock task) = None.
Proof.
  intros Ha Hk (row & Hl & Hn) Hf Hid. pose proof (find_task_id _ _ _ Hk Hf) as Hw.
  assert (Hrow : tk_id (written_task write clock task) = tk_id task) by by destruct write.
  apply find_task_Some in Hf as [Hr Hdel]. assert (He : written_id write = id) by congruence.
  rewrite He, Hl in Hr. injection Hr as <-. specialize (Hn Hdel).
  destruct write as [r| | |id' status next now]; cbn [arms written_id] in *; cbn; [|done..|].
  - destruct (tu_next_run_at_ms r) as [n|]; [by destruct Ha|]. simpl. rewrite Hn. by destruct (tu_clear_next_run_at_ms r).
  - destruct next; [by destruct Ha|done].
Qed.
Lemma held_hold id late c row s :
  claimed id late s ->
  (forall task, row = Some (TaskRow task) -> tk_id task = id -> tk_next_run_at_ms task = None) ->
  claimed id late (hold c row s).
Proof.
  intros [Hk Hu Hh] Hr. split; [done..|]. intros c' task. destruct row as [row|]; cbn [hold sh_held].
  - rewrite lookup_insert_Some. intros [[<- ->]|[_ Hl]] Hid; [right; by apply Hr|by apply (Hh c' task)].
  - rewrite lookup_delete_Some. intros [_ Hl] Hid. by apply (Hh c' task).
Qed.
Lemma claimed_db id late f s :
  claimed id late s -> keyed (f (sh_db s)) /\ unarmed id (f (sh_db s)) -> claimed id late (on_shared f s).
Proof. intros [_ _ Hh] [Hk Hu]. by split. Qed.

Lemma claimed_step id (late : nat -> Prop) op s :
  ~ arms id op -> (forall c, op = OpWrite c -> ~ late c) -> claimed id late s -> claimed id late (sched_step s op).
Proof.
  intros Ha Hw Hc. pose proof Hc as [Hk Hu Hh]. destruct op as [uuid r|c write|c r|c|id' uuid now|now]; cbn [sched_step].
  - apply claimed_db; [done|]. unfold task_create, db_bind, db_read.
    match goal with |- context [insert_scheduled_task ?t ?db] =>
      pose proof (unarmed_insert id t db Hk Hu) as H; by destruct (insert_scheduled_task t db) as [[?|?] ?] end.
  - apply held_hold; [done|]. intros task. destruct (find_task _ _ _) as [t|] eqn:Hf; [|done]. intros [= <-].
    by apply (written_unarmed id write c (sd_clock (sh_db s)) (sh_db s) t).
  - apply held_hold; [done|]. intros task. by destruct (sd_runs _ !! _).
  - destruct (sh_held s !! c) as [[task|run]|] eqn:E; [..|done].
    + apply held_hold; [|done]. apply claimed_db; [done|]. apply unarmed_write; [|done..].
      intros Hid. destruct (Hh c task E Hid) as [Hl|]; [|done]. by destruct (Hw c eq_refl).
    + apply held_hold; [|done]. apply claimed_db; [done|]. by apply unarmed_write_run.
  - apply claimed_db; [done|]. by apply unarmed_claim.
  - by apply claimed_db.
Qed.

(** C30. An occurrence of a scheduled task is run once: after one claim succeeded,
    whatever statements on whichever connections follow, in whatever order, no
    claim of that task succeeds until its next run is set again: by a writer
    that asks for one, or by one that read the row before the claim and writes
    it back afterwards. *)
Theorem occurrence_is_claimed_once (id uuid uuid' : ident) (now now' : Z) (s : Shared) (db' : SchedDb)
    (task : ScheduledTask) (run : ScheduledTaskRun) (ops : list sched_op) :
  keyed (sh_db s) -> claim_due id uuid now (sh_db s) = (Ok (Some (task, run)), db') ->
  Forall (fun op => ~ arms id op /\ forall c, op = OpWrite c -> ~ holds id s c) ops ->
  (claim_due id uuid' now' (sh_db (foldl sched_step (mkShared db' (sh_held s)) ops))).1 = Ok None.
Proof.
  intros Hk Hc Hops. assert (Hs : claimed id (holds id s) (mkShared db' (sh_held s))).
  { destruct (claim_due_cases id uuid now (sh_db s)) as [(r & Hr & Hno)|(t & due & rn & Hf & _ & _ & _ & H)].
    { rewrite Hc in Hr. injection Hr as <- _. by destruct (Hno (task, run)). }
    cbv zeta in H. destruct H as (_ & _ & _ & _ & H). rewrite Hc in H. injection H as -> -> ->.
    split; cbn [sh_db sh_held]; [by apply keyed_put_run, keyed_put_task| |intros c t' Hl Hid; left; by exists t'].
    apply unarmed_put_run. eexists. simpl. rewrite (find_task_id _ _ _ Hk Hf), lookup_insert_eq. by split. }
  revert Hops Hs. generalize (mkShared db' (sh_held s)) as s'. intros s' Hops.
  revert s'. induction Hops as [|op ops [Ha Hw] _ IH]; intros s' Hs.
  - destruct Hs as [_ (row & Hl & Hn) _]. cbn [foldl]. unfold claim_due.
    destruct (find_task id false _) as [row'|] eqn:Hf; [|done].
    apply find_task_Some in Hf as [Hl' Hd]. assert (row' = row) as -> by congruence. by rewrite Hn.
  - cbn [foldl]. by apply IH, claimed_step.
Qed.

(** ** The end of a run *)

(** How a successful turn ends, from the schedule the run was claimed with. *)
Definition ends_with_next (next : option Z) : ScheduledTaskStatus := if next is Some _ then Active else Paused.

Lemma find_task_put_run id run db : find_task id false (put_run run db) = find_task id false db.
Proof. reflexivity. Qed.

(** The end of a successful turn goes by the schedule the run was claimed with,
    whatever the task row holds by then: the run succeeds and the row is armed
    with the next run, or paused when there is none; when no next run can be
    computed the run fails and the row is paused; when the row was deleted the
    run has succeeded and the call still returns an error. *)
Theorem completion_goes_by_the_claimed_task (task : ScheduledTask) (run stored : ScheduledTaskRun)
    (now : Z) (db : SchedDb) :
  keyed db -> sd_runs db !! rn_id run = Some stored ->
  match next_run_after (tk_schedule task) (rn_due_at_ms run) now, find_task (tk_id task) false db with
  | Ok next, Some row => exists run' db',
      complete_run_success task run now db = (Ok run', db') /\
      rn_status run' = RunSucceeded /\ rn_ended_at_ms run' = Some now /\ rn_error_code run' = None /\
      sd_runs db' = <[rn_id run := run']> (sd_runs db) /\
      sd_tasks db' = <[tk_id task := task_with row (ends_with_next next) next now None]> (sd_tasks db)
  | Err e, Some row => exists run' db',
      complete_run_success task run now db = (Ok run', db') /\
      rn_status run' = RunFailed /\ rn_ended_at_ms run' = Some now /\
      rn_error_code run' = Some (truncate_chars (err_code e) SCHEDULED_TASK_ERROR_CODE_MAX_CHARS) /\
      sd_runs db' = <[rn_id run := run']> (sd_runs db) /\
      sd_tasks db' = <[tk_id task := task_with row Paused None now None]> (sd_tasks db)
  | Ok _, None => exists run' db',
      complete_run_success task run now db = (Err (TASK_NOT_FOUND (tk_id task)), db') /\
      rn_status run' = RunSucceeded /\ sd_runs db' = <[rn_id run := run']> (sd_runs db)
  | Err _, None => complete_run_success task run now db = (Err (TASK_NOT_FOUND (tk_id task)), db)
  end.
Proof.
  intros Hk Hrun. pose proof (proj2 Hk _ _ Hrun) as Hid. simpl in Hid.
  unfold complete_run_success, next_task_state_after_run, db_bind.
  destruct (next_run_after _ _ _) as [next|e].
  - rewrite (update_run_found _ stored) by done. cbv zeta.
    match goal with |- context [put_run ?r db] => set (run' := r) end.
    assert (Hk' : keyed (put_run run' db)) by by apply keyed_put_run.
    destruct (find_task (tk_id task) false db) as [row|] eqn:Hf.
    + rewrite (mark_found _ _ _ _ row) by (done || by rewrite find_task_put_run).
      eexists run', _. split_and!; try done; simpl; [by rewrite Hid|].
      by rewrite (find_task_id _ _ _ Hk Hf).
    + rewrite mark_missing by (by rewrite find_task_put_run). eexists run', _. split_and!; try done.
      simpl. by rewrite Hid.
  - destruct (find_task (tk_id task) false db) as [row|] eqn:Hf; [|by rewrite mark_missing].
    rewrite (mark_found _ _ _ _ row) by done. cbv zeta.
    rewrite (update_run_found _ stored) by (done || by apply keyed_put_task).
    eexists _, _. split; [reflexivity|]. split_and!; try done; simpl; [by rewrite Hid|].
    by rewrite (find_task_id _ _ _ Hk Hf).
Qed.

(** ** The tick *)

(** A run that is over. *)
Definition settled (status : ScheduledTaskRunStatus) : Prop :=
  status = RunSucceeded \/ status = RunFailed \/ status = RunSkipped.

(** The counters of a tick agree with its outcomes, which are all over. *)
Definition tick_counts (extra : nat) (r : ScheduledTaskTickResult) : Prop :=
  Forall (fun o => settled (ro_status o)) (ti_outcomes r) /\
  ti_succeeded r + ti_failed r + ti_skipped r = length (ti_outcomes r) /\
  length (ti_outcomes r) = extra + ti_claimed r.

Lemma triple_update_run P r (Q : ScheduledTaskRun -> Prop) :
  (forall clock run, Q (updated_run r clock run)) ->
  triple P (update_run r) (fun run _ => Q run) (fun _ => True).
Proof.
  intros H db _. destruct (update_run r db) as [[run|e] db'] eqn:E; [|done].
  apply update_run_ok in E as (run0 & _ & ->). apply H.
Qed.

Lemma completes_settled task run now :
  triple (fun _ => True) (complete_run_success task run now) (fun r _ => settled (rn_status r)) (fun _ => True).
Proof.
  unfold complete_run_success. destruct (next_task_state_after_run _ _ _) as [[next st] [|d l]].
  - apply triple_keep. apply (triple_update_run _ _ (fun r => settled (rn_status r))). by left.
  - apply triple_then. intros _. apply (triple_update_run _ _ (fun r => settled (rn_status r))). by right; left.
Qed.

Lemma errs_settled task run st now e :
  settled st ->
  triple (fun _ => True) (complete_run_with_error task run st now e) (fun r _ => settled (rn_status r)) (fun _ => True).
Proof.
  intros Hs. unfold complete_run_with_error. destruct (next_task_state_after_run _ _ _) as [[next st'] l].
  apply triple_keep. by apply (triple_update_run _ _ (fun r => settled (rn_status r))).
Qed.

Lemma triple_outcome (c : sched_call ScheduledTaskRun) :
  triple (fun _ => True) c (fun r _ => settled (rn_status r)) (fun _ => True) ->
  triple (fun _ => True) (let! r := c in db_ret (outcome_from_run r))
    (fun o _ => settled (ro_status o)) (fun _ => True).
Proof. intros H. eapply triple_bind; [apply H|]. intros r. by apply triple_ret. Qed.

Lemma execute_settled setting task run now :
  triple (fun _ => True) (execute_claimed_task setting task run now)
    (fun o _ => settled (ro_status o)) (fun _ => True).
Proof.
  unfold execute_claimed_task.
  destruct (se_turn setting task) as [e|e|s e|s e|s st]; [done| |..].
  1: apply triple_then; intros ?; apply triple_outcome, errs_settled; unfold settled; auto.
  all: do 3 (apply triple_then; intros ?); apply triple_outcome.
  - apply errs_settled; unfold settled; auto.
  - done.
  - case_bool_decide; [apply errs_settled; unfold settled; auto|apply completes_settled].
Qed.

Definition settled_count (r : ScheduledTaskTickResult) : nat :=
  ti_succeeded r + ti_failed r + ti_skipped r.

Lemma push_outcome_spec r o :
  settled (ro_status o) ->
  let r' := push_outcome r o in
  ti_outcomes r' = ti_outcomes r ++ [o] /\ settled_count r' = S (settled_count r) /\
  ti_claimed r' = ti_claimed r /\ ti_checked r' = ti_checked r /\ ti_recovered r' = ti_recovered r.
Proof.
  unfold settled, settled_count, push_outcome.
  intros [H|[H|H]]; rewrite H; simpl; split_and!; try done; lia.
Qed.

Lemma run_due_counts setting now extra r task :
  tick_counts extra r ->
  triple (fun _ => True) (run_due_task setting now r task)
    (fun r' _ => tick_counts extra r' /\ ti_checked r' = ti_checked r /\ ti_recovered r' = ti_recovered r /\
                 ti_claimed r' <= S (ti_claimed r)) (fun _ => True).
Proof.
  intros Hr. unfold run_due_task. apply (triple_then _ _ (fun r' => _ /\ _)). intros _.
  apply (triple_then _ _ (fun r' => _ /\ _)). intros [[task' run]|].
  - eapply triple_bind; [apply execute_settled|]. intros o db Ho. cbn beta iota delta [db_ret].
    match goal with |- context [push_outcome ?r1 o] => destruct (push_outcome_spec r1 o Ho) as (E1 & E2 & E3 & E4 & E5) end.
    destruct Hr as (H1 & H2 & H3). unfold tick_counts. fold (settled_count r) in H2.
    split_and!; rewrite ?E1, ?E3, ?E4, ?E5; simpl; try done.
    + apply Forall_app. split; [done|]. by apply Forall_singleton.
    + match type of E2 with settled_count ?x = _ => change (settled_count x = length (ti_outcomes r ++ [o])) end.
      rewrite E2, length_app, <- H2. unfold settled_count. simpl. lia.
    + rewrite length_app. simpl. lia.
  - apply triple_ret. intros _ _. split_and!; try done; lia.
Qed.

Lemma run_all_counts setting now extra l r :
  tick_counts extra r ->
  triple (fun _ => True) (db_for (run_due_task setting now) r l)
    (fun r' _ => tick_counts extra r' /\ ti_checked r' = ti_checked r /\ ti_recovered r' = ti_recovered r /\
                 ti_claimed r' <= length l + ti_claimed r) (fun _ => True).
Proof.
  revert r. induction l as [|task l IH]; intros r Hr; simpl.
  - by apply triple_ret.
  - eapply triple_bind; [by apply run_due_counts|]. intros r1 db (H1 & H2 & H3 & H4).
    pose proof (IH r1 H1 db I) as H. destruct (db_for _ _ _ db) as [[r2|e] db2]; [|done].
    destruct H as (G1 & G2 & G3 & G4). split_and!; [done|congruence|congruence|lia].
Qed.

Lemma recover_failed now l acc :
  Forall (fun r => rn_status r = RunFailed) acc ->
  triple (fun _ => True) (db_for (recover_run now) acc l)
    (fun rs _ => Forall (fun r => rn_status r = RunFailed) rs /\ length rs = length acc + length l) (fun _ => True).
Proof.
  revert acc. induction l as [|run l IH]; intros acc Hacc; simpl.
  - apply triple_ret. intros _ _. split; [done|lia].
  - apply (triple_bind _ _ _ (fun acc' _ => Forall (fun r => rn_status r = RunFailed) acc' /\
                                            length acc' = S (length acc))).
    + unfold recover_run. apply (triple_then _ _ (fun r => _ /\ _)). intros task.
      destruct (next_task_state_after_run task _ now) as [[next st] ds].
      eapply triple_bind; [apply (triple_update_run _ _ (fun r => rn_status r = RunFailed)); done|].
      intros upd. eapply (triple_bind _ _ _ (fun _ _ => rn_status upd = RunFailed)).
      { intros db H. by match goal with |- context [?c db] => destruct (c db) as [[?|?] ?] end. }
      intros _. apply triple_ret. intros _ H. rewrite length_app. simpl. split; [|lia].
      apply Forall_app. split; [done|]. by apply Forall_singleton.
    + intros acc' db [H1 H2]. pose proof (IH acc' H1 db I) as H.
      destruct (db_for _ _ _ db) as [[rs|e] db2]; [|done]. destruct H as [G1 G2]. split; [done|lia].
Qed.

Lemma push_all_counts os r extra :
  Forall (fun o => settled (ro_status o)) os -> tick_counts extra r ->
  tick_counts (length os + extra) (foldl push_outcome r os) /\
  ti_claimed (foldl push_outcome r os) = ti_claimed r /\
  ti_recovered (foldl push_outcome r os) = ti_recovered r.
Proof.
  revert r extra. induction os as [|o os IH]; intros r extra Hos Hr; [done|].
  apply Forall_cons in Hos as [Ho Hos]. simpl.
  destruct (push_outcome_spec r o Ho) as (E1 & E2 & E3 & _ & E5). destruct Hr as (H1 & H2 & H3).
  destruct (IH (push_outcome r o) (S extra) Hos) as (G1 & G2 & G3); [|split_and!; [|congruence..]].
  - unfold tick_counts. fold (settled_count (push_outcome r o)). fold (settled_count r) in H2.
    rewrite E1, E2, E3, length_app. simpl. split_and!; [|lia..].
    apply Forall_app. split; [done|]. by apply Forall_singleton.
  - by rewrite Nat.add_succ_r in G1.
Qed.

(** A tick that returns accounts for every run it touched, whatever the Agents
    answered and whatever other connections wrote meanwhile: every outcome is a
    run that is over, the three counters add up to the outcomes, the outcomes
    are the recovered and the claimed runs, and no more tasks are claimed than
    were found due, at most the limit. *)
Theorem tick_accounts_for_its_runs (setting : Setting) (due_limit stale_after_ms now : Z)
    (db db' : SchedDb) (r : ScheduledTaskTickResult) :
  tick setting due_limit stale_after_ms now db = (Ok r, db') ->
  Forall (fun o => settled (ro_status o)) (ti_outcomes r) /\
  ti_succeeded r + ti_failed r + ti_skipped r = length (ti_outcomes r) /\
  length (ti_outcomes r) = ti_recovered r + ti_claimed r /\
  ti_claimed r <= ti_checked r /\ (Z.of_nat (ti_checked r) <= bounded_limit (Some due_limit))%Z.
Proof.
  intros Ht.
  pose (Q r := tick_counts (ti_recovered r) r /\ ti_claimed r <= ti_checked r /\
               (Z.of_nat (ti_checked r) <= bounded_limit (Some due_limit))%Z).
  assert (H : triple (fun _ => True) (tick setting due_limit stale_after_ms now) (fun r _ => Q r) (fun _ => True)).
  { unfold tick. eapply triple_bind.
    { unfold recover_stale_runs. apply (triple_then _ _ (fun rs => Forall (fun r => rn_status r = RunFailed) rs)).
      intros stale db1 _. pose proof (recover_failed now stale [] ltac:(constructor) db1 I) as Hr.
      destruct (db_for _ _ _ db1) as [[rs|e] db2]; [|done]. exact (proj1 Hr). }
    intros rs. cbv zeta.
    eapply (triple_bind _ _ _ (fun due _ => Forall (fun r => rn_status r = RunFailed) rs /\
      (Z.of_nat (length due) <= bounded_limit (Some due_limit))%Z)).
    { apply triple_read. intros db1 Hrs. split; [done|]. rewrite length_take. unfold bounded_limit. lia. }
    intros due db1 [Hrs Hlen].
    destruct (push_all_counts (outcome_from_run <$> rs) (mkTickResult 0 0 0 0 0 (length rs) []) 0)
      as (G1 & G2 & G3).
    { apply Forall_fmap. eapply Forall_impl; [exact Hrs|]. intros x Hx. unfold settled. simpl. auto. }
    { done. }
    rewrite length_fmap, Nat.add_0_r in G1. simpl in G2, G3.
    match goal with |- context [db_for _ ?r0 due] =>
      pose proof (run_all_counts setting now (length rs) due r0 G1 db1 I) as Hr;
      destruct (db_for _ r0 due db1) as [[r1|e] db2]; [|done] end.
    destruct Hr as (K1 & K2 & K3 & K4). simpl in K2, K3, K4. unfold Q. rewrite K2, K3, G3. split_and!; [done|lia|done]. }
  specialize (H db I). rewrite Ht in H. destruct H as ((H1 & H2 & H3) & H4 & H5). by split_and!.
Qed.

(** Recovery closes a run that started too long ago as failed and arms its task
    again, so the task can be claimed as soon as its next run is due; nothing
    in the tables tells a run that was abandoned from one that is still going. *)
Theorem recovery_rearms_the_task (run : ScheduledTaskRun) (task : ScheduledTask) (next now later : Z)
    (uuid : str) (db : SchedDb) :
  keyed db -> sd_runs db !! rn_id run = Some run ->
  find_task (rn_task_id run) false db = Some task ->
  next_run_after (tk_schedule task) (rn_due_at_ms run) now = Ok (Some next) ->
  (next <= later)%Z -> sd_runs db !! id_new ScheduledTaskRunId uuid = None ->
  exists failed db' again db'',
    recover_run now [] run db = (Ok [failed], db') /\
    rn_status failed = RunFailed /\ sd_runs db' !! rn_id run = Some failed /\
    claim_due (rn_task_id run) uuid later db' = (Ok (Some again), db'').
Proof.
  intros Hk Hrun Hf Hnext Hlater Hfresh. pose proof (find_task_id _ _ _ Hk Hf) as Hid.
  unfold recover_run, db_bind, get_scheduled_task, db_read. rewrite Hf.
  unfold next_task_state_after_run. rewrite Hnext. cbn beta iota.
  rewrite (update_run_found _ run) by done. cbv zeta. rewrite Hid.
  match goal with |- context [put_run ?r db] => set (failed := r) end.
  assert (Hk' : keyed (put_run failed db)) by by apply keyed_put_run.
  rewrite (mark_found _ _ _ _ task) by (done || by rewrite find_task_put_run). cbv zeta.
  match goal with |- context [put_task ?t _] => set (row := t) end.
  assert (Hrow : find_task (rn_task_id run) false (put_task row (put_run failed db)) = Some row)
    by (change (tk_id task) with (tk_id row) in Hid; rewrite <- Hid, find_put_task; done).
  destruct (claim_due_cases (rn_task_id run) uuid later (put_task row (put_run failed db)))
    as [(r & Hr & Hno)|(task1 & due1 & run1 & H1 & _ & _ & _ & Hclaim)].
  - exfalso. revert Hr Hno. unfold claim_due. rewrite Hrow. cbn -[lit id_new].
    destruct (Z.ltb_spec later next) as [?|_]; [lia|]. cbn -[lit id_new insert_scheduled_task_run].
    unfold insert_scheduled_task_run. cbn [rn_id sd_runs put_task put_run].
    change (rn_id failed) with (rn_id run).
    destruct (decide (rn_id run = id_new ScheduledTaskRunId uuid)) as [E|E]; [by rewrite E, Hfresh in Hrun|].
    rewrite lookup_insert_ne, Hfresh by done. intros [= <-] Hno. by eapply Hno.
  - cbv zeta in Hclaim. destruct Hclaim as (_ & _ & _ & _ & Hclaim).
    eexists failed, _, _, _. split_and!; [reflexivity|done| |exact Hclaim].
    simpl. by rewrite lookup_insert_eq.
Qed.
