(* ===== verification/Sse.v ===== *)
(** Server-sent events on the way through the gateway: the byte buffer that
    cuts a stream into frames (SseBuffer of
    crates/model-gateway/src/stream.rs) and the frame parser and writer
    (parse_sse, sse_frame of src/wire/mod.rs), over the standard library's
    lossy UTF-8 decoding and line splitting. *)
From stdpp Require Import prelude strings list.
From Stdlib Require Import NArith ZArith Lia.
From S2P Require Import Prelude CoreTypes Ir Json.

(** ** Decoding (String::from_utf8_lossy) *)

Definition REPLACEMENT : N := 65533.
Definition in_range (lo hi b : N) : bool := ((lo <=? b) && (b <=? hi))%N.
Definition is_continuation (b : N) : bool := in_range 128 191 b.
(** The second bytes a three- and a four-byte sequence may have. *)
Definition second_of_three (b0 b : N) : bool :=
  if (b0 =? 224)%N then in_range 160 191 b
  else if (b0 =? 237)%N then in_range 128 159 b
  else is_continuation b.
Definition second_of_four (b0 b : N) : bool :=
  if (b0 =? 240)%N then in_range 144 191 b
  else if (b0 =? 244)%N then in_range 128 143 b
  else is_continuation b.

(** Every maximal prefix of a sequence that goes on wrongly is one
    replacement character, and decoding resumes at the byte that was wrong. *)
Fixpoint from_utf8_lossy (bytes : list N) : str :=
  match bytes with
  | [] => []
  | b0 :: r0 =>
      if (b0 <? 128)%N then b0 :: from_utf8_lossy r0
      else if in_range 194 223 b0 then
        match r0 with
        | b1 :: r1 =>
            if is_continuation b1
            then ((b0 - 192) * 64 + (b1 - 128))%N :: from_utf8_lossy r1
            else REPLACEMENT :: from_utf8_lossy r0
        | [] => [REPLACEMENT]
        end
      else if in_range 224 239 b0 then
        match r0 with
        | b1 :: r1 =>
            if second_of_three b0 b1 then
              match r1 with
              | b2 :: r2 =>
                  if is_continuation b2
                  then ((b0 - 224) * 4096 + (b1 - 128) * 64 + (b2 - 128))%N :: from_utf8_lossy r2
                  else REPLACEMENT :: from_utf8_lossy r1
              | [] => [REPLACEMENT]
              end
            else REPLACEMENT :: from_utf8_lossy r0
        | [] => [REPLACEMENT]
        end
      else if in_range 240 244 b0 then
        match r0 with
        | b1 :: r1 =>
            if second_of_four b0 b1 then
              match r1 with
              | b2 :: r2 =>
                  if is_continuation b2 then
                    match r2 with
                    | b3 :: r3 =>
                        if is_continuation b3
                        then ((b0 - 240) * 262144 + (b1 - 128) * 4096 + (b2 - 128) * 64
                              + (b3 - 128))%N :: from_utf8_lossy r3
                        else REPLACEMENT :: from_utf8_lossy r2
                    | [] => [REPLACEMENT]
                    end
                  else REPLACEMENT :: from_utf8_lossy r1
              | [] => [REPLACEMENT]
              end
            else REPLACEMENT :: from_utf8_lossy r0
        | [] => [REPLACEMENT]
        end
      else REPLACEMENT :: from_utf8_lossy r0
  end.

(** ** Lines (str::lines) *)

Definition LF : N := 10.
Definition CR : N := 13.
Definition strip_cr (line : str) : str := default line (strip_suffix [CR] line).
(** [lines()] with the line read so far. *)
Fixpoint lines_from (line s : str) : list str :=
  match s with
  | [] => if is_empty line then [] else [line]
  | c :: s => if (c =? LF)%N then strip_cr line :: lines_from [] s else lines_from (line ++ [c]) s
  end.
Definition lines (s : str) : list str := lines_from [] s.

(** ** Frames (wire/mod.rs) *)

Abbreviation Frame := (option str * str)%type.

Record SseState : Type := mkSseState {
  ss_event : option str;
  ss_data : list str;
  ss_events : list Frame
}.
Definition join_lines (data : list str) : str :=
  match data with
  | [] => []
  | line :: data => line ++ (data ≫= fun line => LF :: line)
  end.
Definition sse_flush (s : SseState) : SseState :=
  match ss_data s with
  | [] => mkSseState None [] (ss_events s)
  | data => mkSseState None [] (ss_events s ++ [(ss_event s, join_lines data)])
  end.
Definition sse_line (s : SseState) (line : str) : SseState :=
  let line := strip_cr line in
  if is_empty line then sse_flush s
  else if bool_decide (head line = Some 58%N) then s
  else
    let '(field, value) :=
      match split_once 58%N line with
      | Some (field, value) => (field, default value (strip_prefix [32%N] value))
      | None => (line, [])
      end in
    if bool_decide (field = lit "event") then mkSseState (Some value) (ss_data s) (ss_events s)
    else if bool_decide (field = lit "data")
    then mkSseState (ss_event s) (ss_data s ++ [value]) (ss_events s)
    else s.
Definition parse_sse (input : str) : list Frame :=
  ss_events (sse_flush (foldl sse_line (mkSseState None [] []) (lines input))).

Definition sse_frame `{JsonText} (event : option str) (data : json) : str :=
  match event with
  | Some event => lit "event: " ++ event ++ [LF] ++ lit "data: " ++ json_to_string data ++ [LF; LF]
  | None => lit "data: " ++ json_to_string data ++ [LF; LF]
  end.

(** ** The buffer (stream.rs) *)

(** The text up to and after the last blank line ([rfind]). *)
Fixpoint rsplit_blank (s : str) : option (str * str) :=
  match s with
  | [] => None
  | c :: s' =>
      match rsplit_blank s' with
      | Some (a, b) => Some (c :: a, b)
      | None =>
          match s' with
          | c' :: s'' => if ((c =? LF) && (c' =? LF))%N then Some ([c; c'], s'') else None
          | [] => None
          end
      end
  end.

Definition SseBuffer_push (pending : str) (chunk : list N) : list Frame * str :=
  let pending := pending ++ from_utf8_lossy chunk in
  match rsplit_blank pending with
  | Some (complete, rest) => (parse_sse complete, rest)
  | None => ([], pending)
  end.
Definition SseBuffer_finish (pending : str) : list Frame * str :=
  if is_empty (trim pending) then ([], pending) else (parse_sse pending, []).

(** The frames of a whole stream. *)
Fixpoint push_all (pending : str) (chunks : list (list N)) : list Frame * str :=
  match chunks with
  | [] => ([], pending)
  | chunk :: chunks =>
      let '(frames, pending) := SseBuffer_push pending chunk in
      let '(more, pending) := push_all pending chunks in
      (frames ++ more, pending)
  end.
Definition stream_frames (chunks : list (list N)) : list Frame :=
  let '(frames, pending) := push_all [] chunks in
  frames ++ fst (SseBuffer_finish pending).

(** * Theorems *)

Lemma lossy_ascii bs : Forall (fun b => b < 128)%N bs -> from_utf8_lossy bs = bs.
Proof.
  induction 1 as [|b bs Hb _ IH]; [done|]. simpl. by rewrite (proj2 (N.ltb_lt _ _) Hb), IH.
Qed.

(** A Unicode scalar value. *)
Definition scalar (c : N) : Prop := (c < 55296 \/ 57344 <= c < 1114112)%N.

Lemma in_range_true lo hi b : (lo <= b <= hi)%N -> in_range lo hi b = true.
Proof. intros [H1 H2]. unfold in_range. by rewrite (proj2 (N.leb_le _ _) H1), (proj2 (N.leb_le _ _) H2). Qed.
Lemma in_range_false lo hi b : (b < lo \/ hi < b)%N -> in_range lo hi b = false.
Proof.
  unfold in_range. intros [H|H].
  - by rewrite (proj2 (N.leb_gt _ _) H).
  - by rewrite (proj2 (N.leb_gt _ _) H), andb_false_r.
Qed.
Lemma continuation_of b : (b < 64)%N -> is_continuation (128 + b) = true.
Proof. intros H. apply in_range_true. lia. Qed.
Lemma not_ascii b : (128 <= b)%N -> (b <? 128)%N = false.
Proof. apply N.ltb_ge. Qed.

Lemma lossy_two q l rest :
  (2 <= q < 32 -> l < 64 ->
   from_utf8_lossy (192 + q :: 128 + l :: rest) = (q * 64 + l)%N :: from_utf8_lossy rest)%N.
Proof.
  intros Hq Hl. cbn [from_utf8_lossy].
  rewrite not_ascii, (in_range_true 194), continuation_of by lia. f_equal. lia.
Qed.

Lemma lossy_three q m l rest :
  (q < 16 -> m < 64 -> l < 64 -> (q = 0 -> 32 <= m) -> (q = 13 -> m < 32) ->
   from_utf8_lossy (224 + q :: 128 + m :: 128 + l :: rest) =
   (q * 4096 + m * 64 + l)%N :: from_utf8_lossy rest)%N.
Proof.
  intros Hq Hm Hl H0 H13. cbn [from_utf8_lossy].
  rewrite not_ascii, (in_range_false 194), (in_range_true 224), (continuation_of l) by lia.
  assert (second_of_three (224 + q) (128 + m) = true) as ->; [|f_equal; lia].
  unfold second_of_three. destruct (N.eqb_spec (224 + q) 224); [apply in_range_true; lia|].
  destruct (N.eqb_spec (224 + q) 237); [apply in_range_true; lia|by apply continuation_of].
Qed.

Lemma lossy_four p q m l rest :
  (p < 5 -> q < 64 -> m < 64 -> l < 64 -> (p = 0 -> 16 <= q) -> (p = 4 -> q < 16) ->
   from_utf8_lossy (240 + p :: 128 + q :: 128 + m :: 128 + l :: rest) =
   (p * 262144 + q * 4096 + m * 64 + l)%N :: from_utf8_lossy rest)%N.
Proof.
  intros Hp Hq Hm Hl H0 H4. cbn [from_utf8_lossy].
  rewrite not_ascii, (in_range_false 194), (in_range_false 224), (in_range_true 240),
    (continuation_of l), (continuation_of m) by lia.
  assert (second_of_four (240 + p) (128 + q) = true) as ->; [|f_equal; lia].
  unfold second_of_four. destruct (N.eqb_spec (240 + p) 240); [apply in_range_true; lia|].
  destruct (N.eqb_spec (240 + p) 244); [apply in_range_true; lia|by apply continuation_of].
Qed.

Lemma lossy_char c rest :
  scalar c -> from_utf8_lossy (utf8_char c ++ rest) = c :: from_utf8_lossy rest.
Proof.
  intros Hc. unfold scalar in Hc. unfold utf8_char.
  pose proof (N.div_mod c 64 ltac:(lia)) as D1. pose proof (N.mod_lt c 64 ltac:(lia)).
  assert (D2 : (c / 4096 = c / 64 / 64)%N) by (rewrite N.Div0.div_div; done).
  pose proof (N.div_mod (c / 64) 64 ltac:(lia)) as D3. pose proof (N.mod_lt (c / 64) 64 ltac:(lia)).
  assert (D4 : (c / 262144 = c / 4096 / 64)%N) by (rewrite N.Div0.div_div; done).
  pose proof (N.div_mod (c / 4096) 64 ltac:(lia)) as D5. pose proof (N.mod_lt (c / 4096) 64 ltac:(lia)).
  rewrite <- D2 in D3. rewrite <- D4 in D5.
  clear D2 D4. revert D1 D3 D5 H H0 H1.
  generalize (c mod 64)%N ((c / 64) mod 64)%N ((c / 4096) mod 64)%N. intros l m q.
  generalize (c / 64)%N (c / 4096)%N (c / 262144)%N. intros d1 d2 d3 D1 D3 D5 H H0 H1.
  destruct (N.ltb_spec c 128) as [K1|K1]; [simpl; by rewrite (proj2 (N.ltb_lt _ _) K1)|].
  destruct (N.ltb_spec c 2048) as [K2|K2].
  { cbn [app]. rewrite lossy_two by lia. f_equal. lia. }
  destruct (N.ltb_spec c 65536) as [K3|K3].
  { cbn [app]. rewrite lossy_three by lia. f_equal. lia. }
  cbn [app]. rewrite lossy_four by lia. f_equal. lia.
Qed.

Lemma lossy_bytes s rest :
  Forall scalar s -> from_utf8_lossy (as_bytes s ++ rest) = s ++ from_utf8_lossy rest.
Proof.
  induction 1 as [|c s Hc _ IH]; [done|]. unfold as_bytes in *. cbn [mbind list_bind].
  by rewrite <- app_assoc, lossy_char, IH.
Qed.

(** ** Blank lines separate *)

Lemma lines_from_app line a b :
  lines_from line (a ++ LF :: b) = lines_from line (a ++ [LF]) ++ lines b.
Proof.
  revert line. induction a as [|c a IH]; intros line; simpl; [done|].
  destruct (c =? LF)%N; [|apply IH]. simpl. f_equal. apply IH.
Qed.

Lemma flush_eta s : sse_flush s = mkSseState None [] (ss_events (sse_flush s)).
Proof. unfold sse_flush. by destruct (ss_data s). Qed.

Lemma flush_out pre e d out :
  ss_events (sse_flush (mkSseState e d (pre ++ out))) = pre ++ ss_events (sse_flush (mkSseState e d out)).
Proof. unfold sse_flush. destruct d; simpl; by rewrite ?app_assoc. Qed.

Lemma sse_line_out pre s line :
  sse_line (mkSseState (ss_event s) (ss_data s) (pre ++ ss_events s)) line =
  mkSseState (ss_event (sse_line s line)) (ss_data (sse_line s line))
    (pre ++ ss_events (sse_line s line)).
Proof.
  destruct s as [e d out]. unfold sse_line, sse_flush. simpl. repeat case_match; simplify_eq; try done;
    simpl; by rewrite ?app_assoc.
Qed.

Lemma sse_lines_out pre s l :
  foldl sse_line (mkSseState (ss_event s) (ss_data s) (pre ++ ss_events s)) l =
  mkSseState (ss_event (foldl sse_line s l)) (ss_data (foldl sse_line s l))
    (pre ++ ss_events (foldl sse_line s l)).
Proof.
  revert s. induction l as [|line l IH]; intros s; simpl; [done|]. by rewrite sse_line_out, IH.
Qed.

(** A text that ends with a blank line is parsed on its own. *)
Lemma parse_sse_app a b : parse_sse (a ++ LF :: LF :: b) = parse_sse (a ++ [LF; LF]) ++ parse_sse b.
Proof.
  unfold parse_sse, lines. rewrite (lines_from_app [] a (LF :: b)), (lines_from_app [] a [LF]).
  unfold lines. change (lines_from [] (LF :: b)) with ([] :: lines_from [] b).
  change (lines_from [] [LF]) with [[] : str].
  set (l := lines_from [] (a ++ [LF])). rewrite !foldl_app. cbn [foldl].
  set (s := foldl sse_line _ l). change (sse_line s []) with (sse_flush s).
  rewrite (flush_eta s). set (pre := ss_events (sse_flush s)).
  replace (mkSseState None [] pre) with
    (mkSseState (ss_event (mkSseState None [] [])) (ss_data (mkSseState None [] []))
       (pre ++ ss_events (mkSseState None [] []))) by (simpl; by rewrite app_nil_r).
  rewrite sse_lines_out, flush_out. cbn [ss_event ss_data ss_events]. rewrite app_nil_r.
  by destruct (foldl _ _ _).
Qed.

Lemma rsplit_blank_Some s a b :
  rsplit_blank s = Some (a, b) -> exists a', a = a' ++ [LF; LF] /\ s = a ++ b.
Proof.
  revert a b. induction s as [|c s IH]; intros a b; simpl; [done|].
  destruct (rsplit_blank s) as [[a1 b1]|] eqn:E.
  - intros [= <- <-]. destruct (IH a1 b1 eq_refl) as (a' & -> & ->). by exists (c :: a').
  - destruct s as [|c' s']; [done|]. destruct (N.eqb_spec c LF) as [->|]; simpl; [|done].
    destruct (N.eqb_spec c' LF) as [->|]; [|done]. intros [= <- <-]. by exists [].
Qed.

Lemma rsplit_blank_None s : rsplit_blank s = None <-> ~ exists a b, s = a ++ LF :: LF :: b.
Proof.
  induction s as [|c s IH]; simpl.
  - split; [|done]. intros _ (a & b & E). by destruct a as [|? [|]].
  - destruct (rsplit_blank s) as [[a1 b1]|] eqn:E.
    + split; [done|]. intros H. exfalso. destruct (rsplit_blank_Some s a1 b1 E) as (a' & -> & ->).
      apply H. exists (c :: a'), b1. by rewrite <- app_assoc.
    + destruct IH as [IH _]. specialize (IH eq_refl). split.
      * intros Hs (a & b & Hab). destruct a as [|c1 a]; injection Hab as -> ->.
        -- by rewrite !N.eqb_refl in Hs.
        -- apply IH. by exists a, b.
      * intros H. destruct s as [|c' s']; [done|]. destruct (N.eqb_spec c LF) as [->|]; [|done].
        destruct (N.eqb_spec c' LF) as [->|]; [|done]. exfalso. apply H. by exists [], s'.
Qed.

Lemma strip_cr_ws line :
  Forall (fun c => is_whitespace c = true) line -> Forall (fun c => is_whitespace c = true) (strip_cr line).
Proof.
  intros Hl. unfold strip_cr, strip_suffix. destruct (strip_prefix _ _) as [r|] eqn:E; [|done]. simpl.
  apply strip_prefix_Some in E. rewrite <- (reverse_involutive line), E, reverse_app in Hl.
  by apply Forall_app in Hl as [? _].
Qed.

(** A line without a colon that names neither field says nothing. *)
Lemma blank_line_silent s line :
  Forall (fun c => is_whitespace c = true) line -> ss_data s = [] -> ss_event s = None ->
  sse_line s line = s.
Proof.
  intros Hw Hd He. pose proof (strip_cr_ws line Hw) as Hs.
  unfold sse_line. destruct (strip_cr line) as [|c l]; cbn [is_empty].
  - unfold sse_flush. destruct s; simpl in *. by subst.
  - case_bool_decide as Hc; [done|]. rewrite (proj2 (split_once_None 58%N (c :: l))).
    + rewrite !bool_decide_eq_false_2; [done|..]; intros E; rewrite E in Hs; by apply Forall_cons in Hs as [? _].
    + intros Hin. rewrite Forall_forall in Hs. by specialize (Hs _ Hin).
Qed.

Lemma lines_from_ws line s :
  Forall (fun c => is_whitespace c = true) line -> Forall (fun c => is_whitespace c = true) s ->
  Forall (Forall (fun c => is_whitespace c = true)) (lines_from line s).
Proof.
  intros Hl Hs. revert line Hl. induction Hs as [|c s Hc Hs IH]; intros line Hl; simpl.
  - destruct line; simpl; [constructor|by apply Forall_singleton].
  - destruct (c =? LF)%N.
    + constructor; [by apply strip_cr_ws|by apply IH].
    + apply IH, Forall_app. split; [done|]. by apply Forall_singleton.
Qed.

Lemma trim_empty_ws s : trim s = [] -> Forall (fun c => is_whitespace c = true) s.
Proof.
  unfold trim, trim_matches, trim_end_matches. intros H.
  assert (Hd : forall l, drop_while is_whitespace l = [] -> Forall (fun c => is_whitespace c = true) l).
  { induction l as [|c l IH]; simpl; [constructor|]. destruct (is_whitespace c) eqn:E; [|done].
    intros Hl. constructor; [done|by apply IH]. }
  assert (Hr : drop_while is_whitespace (reverse (drop_while is_whitespace s)) = []).
  { apply (inj reverse). by rewrite H. }
  apply Hd in Hr. rewrite Forall_reverse in Hr.
  destruct (drop_while_suffix is_whitespace s) as (pre & Hs & Hpre).
  rewrite Hs. by apply Forall_app_2.
Qed.

Lemma parse_sse_ws s : Forall (fun c => is_whitespace c = true) s -> parse_sse s = [].
Proof.
  intros Hs. unfold parse_sse.
  pose proof (lines_from_ws [] s (List.Forall_nil _) Hs) as Hl. unfold lines.
  set (s0 := mkSseState None [] []).
  assert (H : foldl sse_line s0 (lines_from [] s) = s0).
  { induction Hl as [|line l Hw _ IH]; simpl; [done|]. by rewrite (blank_line_silent s0 line). }
  by rewrite H.
Qed.

Lemma finish_frames pending : fst (SseBuffer_finish pending) = parse_sse pending.
Proof.
  unfold SseBuffer_finish. destruct (trim pending) as [|c l] eqn:E; simpl; [|done].
  by rewrite parse_sse_ws by by apply trim_empty_ws.
Qed.

Lemma push_all_frames pending texts :
  Forall (Forall scalar) texts ->
  let '(frames, rest) := push_all pending (as_bytes <$> texts) in
  frames ++ parse_sse rest = parse_sse (pending ++ concat texts).
Proof.
  intros Ht. revert pending. induction Ht as [|text texts Hx _ IH]; intros pending; simpl.
  - by rewrite app_nil_r.
  - unfold SseBuffer_push. pose proof (lossy_bytes text [] Hx) as Hl. simpl in Hl.
    rewrite !app_nil_r in Hl. rewrite Hl.
    destruct (rsplit_blank (pending ++ text)) as [[complete rest]|] eqn:E.
    + destruct (rsplit_blank_Some _ _ _ E) as (a & -> & Hs). specialize (IH rest).
      destruct (push_all rest _) as [more pend]. rewrite <- app_assoc, IH.
      rewrite <- parse_sse_app. f_equal. rewrite app_assoc, Hs, <- !app_assoc. done.
    + specialize (IH (pending ++ text)). destruct (push_all _ _) as [more pend]. simpl.
      by rewrite IH, <- app_assoc.
Qed.

Lemma stream_frames_text (texts : list str) :
  Forall (Forall scalar) texts -> stream_frames (as_bytes <$> texts) = parse_sse (concat texts).
Proof.
  intros Ht. unfold stream_frames. pose proof (push_all_frames [] texts Ht) as H.
  destruct (push_all [] (as_bytes <$> texts)) as [frames rest]. by rewrite finish_frames.
Qed.

(** However the network cuts a stream between characters, the frames the
    gateway sees are those of the whole text: no frame is lost, split, doubled
    or reordered, and a last frame without its blank line is still seen. *)
Theorem frames_do_not_depend_on_chunks (texts : list str) :
  Forall (Forall scalar) texts -> stream_frames (as_bytes <$> texts) = parse_sse (concat texts).
Proof. apply stream_frames_text. Qed.

Lemma push_all_silent pending texts :
  Forall (Forall scalar) texts -> rsplit_blank (pending ++ concat texts) = None ->
  push_all pending (as_bytes <$> texts) = ([], pending ++ concat texts).
Proof.
  intros Ht. revert pending. induction Ht as [|text texts Hx _ IH]; intros pending Hn; simpl in *.
  - by rewrite app_nil_r.
  - unfold SseBuffer_push. pose proof (lossy_bytes text [] Hx) as Hl. simpl in Hl.
    rewrite !app_nil_r in Hl. rewrite Hl. rewrite app_assoc in Hn.
    destruct (rsplit_blank (pending ++ text)) as [[complete rest]|] eqn:E.
    + exfalso. destruct (rsplit_blank_Some _ _ _ E) as (a & -> & Hs). rewrite Hs in Hn.
      apply (proj1 (rsplit_blank_None _) Hn). exists a, (rest ++ concat texts). by rewrite <- !app_assoc.
    + rewrite IH by done. simpl. by rewrite <- app_assoc.
Qed.

(** Frames are cut at two line feeds only: a stream whose lines end in CRLF, as
    the event-stream format allows and the frame parser accepts, has none, so
    no frame is seen before the stream ends, and all of them are seen then. *)
Theorem crlf_frames_wait_for_the_end (texts : list str) :
  Forall (Forall scalar) texts -> (forall a b, concat texts <> a ++ LF :: LF :: b) ->
  (push_all [] (as_bytes <$> texts)).1 = [] /\
  stream_frames (as_bytes <$> texts) = parse_sse (concat texts).
Proof.
  intros Ht Hn. split; [|by apply stream_frames_text].
  rewrite push_all_silent; [done|done|]. apply rsplit_blank_None. intros (a & b & E). by apply (Hn a b).
Qed.

(** The frame [data: é] cut inside the two bytes of its last character. *)
Definition cut_in_a_character : list (list N) :=
  [as_bytes (lit "data: ") ++ [195%N]; [169%N] ++ as_bytes [LF; LF]].

(** A chunk that ends inside a character breaks it: the bytes are those of a
    well-formed frame, and the frame read has two replacement characters
    instead of the character. *)
Theorem a_character_cut_by_a_chunk_is_lost :
  concat cut_in_a_character = as_bytes (lit "data: " ++ [233%N; LF; LF]) /\
  stream_frames [concat cut_in_a_character] = [(None, [233%N])] /\
  stream_frames cut_in_a_character = [(None, [REPLACEMENT; REPLACEMENT])].
Proof. by split_and!; vm_compute. Qed.

(** ** A written frame reads back *)

Lemma lines_from_no_lf line s : LF ∉ s -> lines_from line s = if is_empty (line ++ s) then [] else [line ++ s].
Proof.
  revert line. induction s as [|c s IH]; intros line Hs; simpl.
  - by rewrite app_nil_r.
  - apply not_elem_of_cons in Hs as [Hc Hs]. destruct (N.eqb_spec c LF) as [->|_]; [done|].
    rewrite IH by done. by rewrite <- app_assoc.
Qed.

Lemma lines_from_line line s rest :
  LF ∉ s -> lines_from line (s ++ LF :: rest) = strip_cr (line ++ s) :: lines rest.
Proof.
  revert line. induction s as [|c s IH]; intros line Hs; simpl.
  - by rewrite app_nil_r.
  - apply not_elem_of_cons in Hs as [Hc Hs]. destruct (N.eqb_spec c LF) as [->|_]; [done|].
    rewrite IH by done. by rewrite <- app_assoc.
Qed.

Lemma strip_cr_none line : CR ∉ line -> strip_cr line = line.
Proof.
  intros H. unfold strip_cr, strip_suffix. destruct (strip_prefix _ _) as [r|] eqn:E; [|done].
  exfalso. apply H. apply strip_prefix_Some in E. apply elem_of_reverse. rewrite E. set_solver.
Qed.

(** A field line adds its value: no space is lost and none is added. *)
Lemma field_line s field value :
  58%N ∉ field -> LF ∉ value -> CR ∉ value -> CR ∉ field -> field <> [] ->
  sse_line s (field ++ 58%N :: 32%N :: value) =
  if bool_decide (field = lit "event") then mkSseState (Some value) (ss_data s) (ss_events s)
  else if bool_decide (field = lit "data") then mkSseState (ss_event s) (ss_data s ++ [value]) (ss_events s)
  else s.
Proof.
  intros Hf Hv1 Hv2 Hf2 Hne. unfold sse_line. rewrite strip_cr_none by set_solver.
  destruct field as [|c field]; [done|]. cbn [is_empty app head].
  rewrite bool_decide_eq_false_2 by set_solver.
  change (c :: field ++ 58%N :: 32%N :: value) with ((c :: field) ++ 58%N :: 32%N :: value).
  by rewrite split_once_app.
Qed.

Lemma data_line s v :
  LF ∉ v -> CR ∉ v ->
  sse_line s (lit "data: " ++ v) = mkSseState (ss_event s) (ss_data s ++ [v]) (ss_events s).
Proof.
  intros H1 H2. change (lit "data: " ++ v) with (lit "data" ++ 58%N :: 32%N :: v).
  rewrite field_line; [done|by apply (bool_decide_unpack _)|done|done|by apply (bool_decide_unpack _)|done].
Qed.

Lemma event_line s v :
  LF ∉ v -> CR ∉ v -> sse_line s (lit "event: " ++ v) = mkSseState (Some v) (ss_data s) (ss_events s).
Proof.
  intros H1 H2. change (lit "event: " ++ v) with (lit "event" ++ 58%N :: 32%N :: v).
  rewrite field_line; [done|by apply (bool_decide_unpack _)|done|done|by apply (bool_decide_unpack _)|done].
Qed.

(** A line of text without line breaks inside. *)
Lemma lines_cons line rest :
  LF ∉ line -> CR ∉ line -> lines (line ++ LF :: rest) = line :: lines rest.
Proof. intros H1 H2. unfold lines. by rewrite lines_from_line, strip_cr_none. Qed.

Lemma labelled_line (label : string) v :
  LF ∉ lit label -> CR ∉ lit label -> LF ∉ v -> CR ∉ v -> LF ∉ lit label ++ v /\ CR ∉ lit label ++ v.
Proof. intros. by rewrite !not_elem_of_app. Qed.

(** What [sse_frame] writes, [parse_sse] reads, and the frames of a text are
    read one by one. *)
Theorem written_frames_read_back `{JsonText} (event : option str) (data : json) (rest : str) :
  LF ∉ json_to_string data -> CR ∉ json_to_string data ->
  (forall e, event = Some e -> LF ∉ e /\ CR ∉ e) ->
  parse_sse (sse_frame event data ++ rest) = (event, json_to_string data) :: parse_sse rest.
Proof.
  intros H1 H2 He.
  assert (Hsplit : exists a, sse_frame event data = a ++ [LF; LF]).
  { unfold sse_frame. destruct event as [e|].
    - exists (lit "event: " ++ e ++ [LF] ++ lit "data: " ++ json_to_string data). by rewrite <- !app_assoc.
    - exists (lit "data: " ++ json_to_string data). by rewrite <- app_assoc. }
  destruct Hsplit as [a Ha]. rewrite Ha, <- app_assoc. cbn [app]. rewrite parse_sse_app, <- Ha.
  change ((event, json_to_string data) :: parse_sse rest) with ([(event, json_to_string data)] ++ parse_sse rest).
  f_equal. unfold parse_sse.
  destruct (labelled_line "data: " (json_to_string data)) as [Hd1 Hd2]; [by apply (bool_decide_unpack _)..|done|done|].
  assert (Hdata : lines (lit "data: " ++ json_to_string data ++ [LF; LF]) = [lit "data: " ++ json_to_string data; []]).
  { rewrite app_assoc. by rewrite lines_cons. }
  unfold sse_frame. destruct event as [e|].
  - destruct (He e eq_refl) as [He1 He2].
    destruct (labelled_line "event: " e) as [Hv1 Hv2]; [by apply (bool_decide_unpack _)..|done|done|].
    rewrite app_assoc. cbn [app]. rewrite lines_cons by done. rewrite Hdata. cbn [foldl].
    rewrite event_line, data_line by done. cbn. by rewrite app_nil_r.
  - rewrite Hdata. cbn [foldl]. rewrite data_line by done. cbn. by rewrite app_nil_r.
Qed.
