(* ===== verification/Wire.v ===== *)
(** What a streamed reply says, protocol by protocol aside: the events of
    crates/model-gateway/src/ir.rs, the tool call a decoder assembles and the
    two stream traits (src/wire/mod.rs), the reply a client or the ledger
    assembles from the events (ReplyAccumulator of src/stream.rs), and the
    shape of an event stream. *)
From stdpp Require Import prelude strings list.
From Stdlib Require Import NArith ZArith Lia.
From S2P Require Import Prelude CoreTypes GatewayTypes GatewayErrors Ir Json Sse.

(** ** Events (ir.rs) *)

Inductive CanonicalEvent : Type :=
| Start (id model : str) (usage : CanonicalUsage)
| TextDelta (text : str)
| ReasoningStart
| ReasoningDelta (text : str)
| ReasoningSignature (signature : str)
| ToolCallStart (id name : str)
| ToolCallArgumentsDelta (id fragment : str)
| ToolCallEnd (id : str) (arguments : json)
| UsageEvent (usage : CanonicalUsage)
| StopEvent (reason : StopReason)
| ErrorEvent (status : Z) (message : str).

Record CanonicalResponse : Type := mkResponse {
  rs_id : str;
  rs_model : str;
  rs_parts : list ContentPart;
  rs_stop : StopReason;
  rs_usage : CanonicalUsage
}.

(** ** A tool call under way (wire/mod.rs) *)

Record ToolCallAccumulator : Type := mkToolAcc { ta_id : str; ta_name : str; ta_fragments : str }.
Definition ToolCallAccumulator_default : ToolCallAccumulator := mkToolAcc [] [] [].
(** [if !new.is_empty() { old = new }]. *)
Definition adopt (new old : str) : str := if is_empty new then old else new.
Definition tool_start (id name : str) (t : ToolCallAccumulator) : ToolCallAccumulator :=
  mkToolAcc (adopt id (ta_id t)) (adopt name (ta_name t)) (ta_fragments t).
Definition push_arguments (fragment : str) (t : ToolCallAccumulator) : ToolCallAccumulator :=
  mkToolAcc (ta_id t) (ta_name t) (ta_fragments t ++ fragment).
Definition tool_arguments `{JsonText} (t : ToolCallAccumulator) : json :=
  if is_empty (trim (ta_fragments t)) then JObject []
  else default (JString (ta_fragments t)) (json_from_str (ta_fragments t)).
Definition tool_is_empty (t : ToolCallAccumulator) : bool :=
  is_empty (ta_id t) && is_empty (ta_name t) && is_empty (ta_fragments t).

(** ** Decoders and encoders (traits StreamDecoder and StreamEncoder) *)

Class StreamDecoder (T : Type) : Type := {
  sd_new : T;
  sd_decode : T -> str -> GatewayResult (list CanonicalEvent) * T;
  sd_finish : T -> GatewayResult (list CanonicalEvent) * T
}.

Class StreamEncoder (T : Type) : Type := {
  se_new : str -> T;
  se_encode : T -> CanonicalEvent -> GatewayResult str * T;
  se_finish : T -> GatewayResult str * T;
  se_keepalive : option str
}.

(** The frames of one step, and their text ([output.push_str(&sse_frame(..))]). *)
Abbreviation Written := (list (option str * json)).
Definition written `{JsonText} (frames : Written) : str := frames ≫= fun f => sse_frame f.1 f.2.

Section streams.
Context `{StreamDecoder T}.

(** A whole stream of payloads: the first payload that is not understood ends it. *)
Fixpoint decode_all (s : T) (datas : list str) : GatewayResult (list CanonicalEvent) * T :=
  match datas with
  | [] => (Ok [], s)
  | data :: datas =>
      match sd_decode s data with
      | (Ok events, s) =>
          match decode_all s datas with
          | (Ok more, s) => (Ok (events ++ more), s)
          | (Err e, s) => (Err e, s)
          end
      | (Err e, s) => (Err e, s)
      end
  end.
End streams.

(** An event that cannot be encoded contributes nothing. *)
Fixpoint encode_all `{StreamEncoder T} (s : T) (events : list CanonicalEvent) : str * T :=
  match events with
  | [] => ([], s)
  | event :: events =>
      let '(out, s) := se_encode s event in
      let '(more, s) := encode_all s events in
      (match out with Ok out => out | Err _ => [] end ++ more, s)
  end.

(** ** The reply a stream adds up to (stream.rs) *)

Record AccumulatedToolCall : Type := mkCall { ac_id : str; ac_name : str; ac_arguments : str }.
#[export] Instance AccumulatedToolCall_eq_dec : EqDecision AccumulatedToolCall.
Proof. solve_decision. Defined.

Record ReplyAccumulator : Type := mkReply {
  ra_id : str;
  ra_model : str;
  ra_text : str;
  ra_reasoning : str;
  ra_tool_calls : list AccumulatedToolCall;
  ra_usage : CanonicalUsage;
  ra_stop : option StopReason;
  ra_open_reasoning : bool;
  ra_current_tool : option AccumulatedToolCall
}.
Definition ReplyAccumulator_default : ReplyAccumulator :=
  mkReply [] [] [] [] [] CanonicalUsage_default None false None.

Definition reply_apply `{JsonText} (r : ReplyAccumulator) (event : CanonicalEvent) : ReplyAccumulator :=
  match event with
  | Start id model usage =>
      mkReply (adopt id (ra_id r)) (adopt model (ra_model r)) (ra_text r) (ra_reasoning r)
        (ra_tool_calls r) (CanonicalUsage_merge (ra_usage r) usage) (ra_stop r)
        (ra_open_reasoning r) (ra_current_tool r)
  | TextDelta text =>
      mkReply (ra_id r) (ra_model r) (ra_text r ++ text) (ra_reasoning r) (ra_tool_calls r)
        (ra_usage r) (ra_stop r) (ra_open_reasoning r) (ra_current_tool r)
  | ReasoningStart =>
      mkReply (ra_id r) (ra_model r) (ra_text r) (ra_reasoning r) (ra_tool_calls r)
        (ra_usage r) (ra_stop r) true (ra_current_tool r)
  | ReasoningDelta text =>
      mkReply (ra_id r) (ra_model r) (ra_text r) (ra_reasoning r ++ text) (ra_tool_calls r)
        (ra_usage r) (ra_stop r) true (ra_current_tool r)
  | ReasoningSignature _ => r
  | ToolCallStart id name =>
      mkReply (ra_id r) (ra_model r) (ra_text r) (ra_reasoning r) (ra_tool_calls r)
        (ra_usage r) (ra_stop r) (ra_open_reasoning r) (Some (mkCall id name []))
  | ToolCallArgumentsDelta _ fragment =>
      mkReply (ra_id r) (ra_model r) (ra_text r) (ra_reasoning r) (ra_tool_calls r)
        (ra_usage r) (ra_stop r) (ra_open_reasoning r)
        ((fun t => mkCall (ac_id t) (ac_name t) (ac_arguments t ++ fragment)) <$> ra_current_tool r)
  | ToolCallEnd id arguments =>
      let tool := default (mkCall id [] []) (ra_current_tool r) in
      let tool := mkCall (adopt id (ac_id tool)) (ac_name tool)
        (if is_empty (trim (ac_arguments tool)) then json_to_string arguments
         else ac_arguments tool) in
      mkReply (ra_id r) (ra_model r) (ra_text r) (ra_reasoning r) (ra_tool_calls r ++ [tool])
        (ra_usage r) (ra_stop r) (ra_open_reasoning r) None
  | UsageEvent usage =>
      mkReply (ra_id r) (ra_model r) (ra_text r) (ra_reasoning r) (ra_tool_calls r)
        (CanonicalUsage_merge (ra_usage r) usage) (ra_stop r) (ra_open_reasoning r)
        (ra_current_tool r)
  | StopEvent reason =>
      mkReply (ra_id r) (ra_model r) (ra_text r) (ra_reasoning r) (ra_tool_calls r)
        (ra_usage r) (Some reason) (ra_open_reasoning r) (ra_current_tool r)
  | ErrorEvent _ _ => r
  end.

Definition reply_of `{JsonText} (events : list CanonicalEvent) : ReplyAccumulator :=
  foldl reply_apply ReplyAccumulator_default events.

Definition has_reasoning (r : ReplyAccumulator) : bool :=
  ra_open_reasoning r || negb (is_empty (ra_reasoning r)).

Definition reply_finish `{JsonText} (r : ReplyAccumulator) : CanonicalResponse :=
  let parts :=
    (if is_empty (ra_reasoning r) then [] else [Reasoning (ra_reasoning r) None])
    ++ (if is_empty (ra_text r) then [] else [Text (ra_text r)])
    ++ ((fun t => ToolCall (ac_id t) (ac_name t)
                    (default (JString (ac_arguments t)) (json_from_str (ac_arguments t))))
        <$> ra_tool_calls r) in
  let stop := default
    (if existsb (fun p => match p with ToolCall _ _ _ => true | _ => false end) parts
     then ToolUse else EndTurn) (ra_stop r) in
  mkResponse (if is_empty (ra_id r) then lit "gateway_response" else ra_id r) (ra_model r) parts
    stop (ra_usage r).

(** ** The shape of a stream *)

(** Where a reply stands: nothing said, between blocks, inside a tool call
    with the arguments so far, over. *)
Inductive Stage : Type :=
| Silent
| Between
| InTool (id fragments : str)
| Over.

(** One event of an orderly reply: a start first, tool calls one after the
    other and named, each with the arguments its end repeats, then a stop. *)
Definition orderly_step (stage : Stage) (event : CanonicalEvent) : option Stage :=
  match stage, event with
  | Silent, Start _ _ _ => Some Between
  | Between, (TextDelta _ | ReasoningStart | ReasoningDelta _ | ReasoningSignature _) => Some Between
  | Between, ToolCallStart id name =>
      if is_empty id && is_empty name then None else Some (InTool id [])
  | InTool id fragments, ToolCallArgumentsDelta _ fragment => Some (InTool id (fragments ++ fragment))
  | InTool id fragments, ToolCallEnd id' arguments =>
      if bool_decide (id' = id) &&
         (negb (is_empty (trim fragments)) || match arguments with JObject [] => true | _ => false end)
      then Some Between else None
  | Between, StopEvent _ => Some Over
  | Silent, (UsageEvent _ | ErrorEvent _ _) => None
  | stage, (UsageEvent _ | ErrorEvent _ _) => Some stage
  | _, _ => None
  end.
Fixpoint orderly (stage : Stage) (events : list CanonicalEvent) : bool :=
  match events with
  | [] => match stage with Over => true | _ => false end
  | event :: events =>
      match orderly_step stage event with
      | Some stage => orderly stage events
      | None => false
      end
  end.

(** ** Whole replies, written and read *)

(** What a client receives of a reply: every event encoded, then the end. *)
Definition write_reply `{StreamEncoder T} (model : str) (events : list CanonicalEvent) : str :=
  let '(out, s) := encode_all (se_new model) events in
  out ++ match (se_finish s).1 with Ok out => out | Err _ => [] end.
(** What a decoder makes of a received text: every frame decoded, then the end. *)
Definition read_reply `{StreamDecoder T} (text : str) : GatewayResult (list CanonicalEvent) :=
  match decode_all sd_new (parse_sse text).*2 with
  | (Ok events, s) =>
      match (sd_finish s).1 with Ok more => Ok (events ++ more) | Err e => Err e end
  | (Err e, _) => Err e
  end.

(** The frames an encoder's steps write, and the events a decoder's steps read
    off the values. *)
Fixpoint frames_all {E} (step : E -> CanonicalEvent -> Written * E) (e : E)
    (events : list CanonicalEvent) : Written * E :=
  match events with
  | [] => ([], e)
  | event :: events =>
      let '(out, e) := step e event in
      let '(more, e) := frames_all step e events in (out ++ more, e)
  end.
Fixpoint values_all {D} (step : D -> json -> list CanonicalEvent * D) (d : D)
    (values : list json) : list CanonicalEvent * D :=
  match values with
  | [] => ([], d)
  | value :: values =>
      let '(out, d) := step d value in
      let '(more, d) := values_all step d values in (out ++ more, d)
  end.

(** A frame the text format carries: a value the parser gives back, and an
    event name on one line. *)
Definition frame_ok (f : option str * json) : Prop :=
  json_plain f.2 /\ forall e, f.1 = Some e -> LF ∉ e /\ CR ∉ e.

(** The counters an event tells fit 64 bits. *)
Definition usage_fits (u : CanonicalUsage) : Prop :=
  in_u64 (us_input_tokens u) /\ in_u64 (us_output_tokens u) /\ in_u64 (us_cached_read_tokens u) /\
  in_u64 (us_cached_write_tokens u) /\ in_u64 (us_reasoning_tokens u).
Definition event_fits (event : CanonicalEvent) : Prop :=
  match event with Start _ _ u | UsageEvent u => usage_fits u | _ => True end.

(** * Lemmas *)

Lemma adopt_nil_r x : adopt x [] = x.
Proof. by destruct x. Qed.

Section written.
Context `{JsonText, !JsonTextLaws}.

Lemma written_app a b : written (a ++ b) = written a ++ written b.
Proof. unfold written. by rewrite bind_app. Qed.

(** The text of good frames parses into them, and what follows on its own. *)
Lemma written_reads_on (fs : Written) (rest : str) :
  Forall frame_ok fs ->
  parse_sse (written fs ++ rest) = ((fun f => (f.1, json_to_string f.2)) <$> fs) ++ parse_sse rest.
Proof.
  induction 1 as [|[event data] fs [_ He] _ IH]; [done|].
  change (written ((event, data) :: fs)) with (sse_frame event data ++ written fs).
  destruct (json_one_line data) as [H1 H2]. rewrite <- app_assoc, written_frames_read_back; [|done|done|done].
  by rewrite IH.
Qed.
Lemma written_reads_back (fs : Written) :
  Forall frame_ok fs -> parse_sse (written fs) = (fun f => (f.1, json_to_string f.2)) <$> fs.
Proof.
  intros Hf. pose proof (written_reads_on fs [] Hf) as H1. rewrite app_nil_r in H1. rewrite H1.
  change (parse_sse []) with (@nil Frame). apply app_nil_r.
Qed.

Lemma encode_all_frames `{StreamEncoder E} (step : E -> CanonicalEvent -> Written * E) :
  (forall e event, se_encode e event = (Ok (written (step e event).1), (step e event).2)) ->
  forall events e, encode_all e events =
    (written (frames_all step e events).1, (frames_all step e events).2).
Proof.
  intros Hs. induction events as [|event events IH]; intros e; [done|]. cbn [encode_all frames_all].
  rewrite Hs. destruct (step e event) as [out e']. cbn [fst snd]. rewrite IH.
  destruct (frames_all step e' events) as [more e'']. cbn [fst snd]. by rewrite written_app.
Qed.

Lemma decode_all_values `{StreamDecoder D} (step : D -> json -> list CanonicalEvent * D) :
  (forall d v, json_plain v -> sd_decode d (json_to_string v) = (Ok (step d v).1, (step d v).2)) ->
  forall vs d, Forall json_plain vs ->
    decode_all d (json_to_string <$> vs) = (Ok (values_all step d vs).1, (values_all step d vs).2).
Proof.
  intros Hs vs d Hv. revert d. induction Hv as [|v vs Hv _ IH]; intros d; [done|].
  cbn [fmap list_fmap decode_all values_all]. rewrite Hs by done.
  destruct (step d v) as [out d']. cbn [fst snd]. rewrite IH.
  by destruct (values_all step d' vs) as [more d''].
Qed.

(** A payload after the values of a stream. *)
Lemma decode_all_app `{StreamDecoder D} (a b : list str) (d d' : D) events :
  decode_all d a = (Ok events, d') ->
  decode_all d (a ++ b) =
  match decode_all d' b with
  | (Ok more, d'') => (Ok (events ++ more), d'')
  | (Err e, d'') => (Err e, d'')
  end.
Proof.
  revert d events. induction a as [|x a IH]; intros d events; cbn [decode_all app].
  - intros [= <- <-]. by destruct (decode_all d b) as [[]].
  - destruct (sd_decode d x) as [[out|e] d1]; [|done].
    destruct (decode_all d1 a) as [[more|e] d2] eqn:E; [|done]. intros [= <- <-].
    rewrite (IH d1 more E). destruct (decode_all d2 b) as [[]]; [|done]. by rewrite app_assoc.
Qed.

Lemma values_all_app {D} (step : D -> json -> list CanonicalEvent * D) d a b :
  values_all step d (a ++ b) =
  ((values_all step d a).1 ++ (values_all step (values_all step d a).2 b).1,
   (values_all step (values_all step d a).2 b).2).
Proof.
  revert d. induction a as [|v a IH]; intros d; cbn [values_all app fst snd]; [apply surjective_pairing|].
  destruct (step d v) as [out d']. rewrite IH. destruct (values_all step d' a) as [x d'']. cbn [fst snd].
  by rewrite app_assoc.
Qed.

(** Writing and reading a whole reply, frame by frame. *)
Lemma read_written `{StreamEncoder E, StreamDecoder D}
    (frames : E -> CanonicalEvent -> Written * E) (ending : E -> Written)
    (values : D -> json -> list CanonicalEvent * D) (closing : D -> list CanonicalEvent)
    (model : str) (events : list CanonicalEvent) :
  (forall e event, se_encode e event = (Ok (written (frames e event).1), (frames e event).2)) ->
  (forall e, (se_finish e).1 = Ok (written (ending e))) ->
  (forall d v, json_plain v -> sd_decode d (json_to_string v) = (Ok (values d v).1, (values d v).2)) ->
  (forall d, (sd_finish d).1 = Ok (closing d)) ->
  let written := frames_all frames (se_new model) events in
  let sent := written.1 ++ ending written.2 in
  let back := values_all values sd_new sent.*2 in
  Forall frame_ok sent ->
  read_reply (write_reply model events) = Ok (back.1 ++ closing back.2).
Proof.
  intros He Hf Hd Hc wr sent back Hok. unfold read_reply, write_reply.
  rewrite (encode_all_frames frames He), Hf. fold wr. rewrite <- written_app. fold sent.
  rewrite written_reads_back by done.
  replace (((fun f => (f.1, json_to_string f.2)) <$> sent).*2) with (json_to_string <$> sent.*2)
    by by rewrite <- !list_fmap_compose.
  assert (Hp : Forall json_plain sent.*2).
  { apply Forall_fmap. eapply Forall_impl; [done|]. by intros f [? _]. }
  rewrite (decode_all_values values Hd _ sd_new Hp). fold back. by rewrite Hc.
Qed.
End written.
