(* ===== verification/AnthropicStream.v ===== *)
(** The Anthropic Messages stream in both directions
    (AnthropicDecoder and AnthropicEncoder of
    crates/model-gateway/src/wire/anthropic.rs): the decoder reads an
    upstream's events, the encoder writes a client's, and the text one writes
    the other reads back. *)
From stdpp Require Import prelude strings list.
From Stdlib Require Import NArith ZArith Lia.
From S2P Require Import Prelude CoreTypes GatewayTypes GatewayErrors Ir Json Sse Wire.

Definition jstr (s : string) : json := JString (lit s).

(** [usage_from]. *)
Definition anthropic_usage_from (v : json) : CanonicalUsage :=
  mkUsage (default 0%Z (uint_field v (lit "input_tokens")))
          (default 0%Z (uint_field v (lit "output_tokens")))
          (default 0%Z (uint_field v (lit "cache_read_input_tokens")))
          (default 0%Z (uint_field v (lit "cache_creation_input_tokens"))) 0.

(** ** Decoder *)

Record AnthropicDecoder : Type := mkAnthropicDecoder {
  ad_tool : ToolCallAccumulator;
  ad_thinking : bool;
  ad_usage : CanonicalUsage;
  ad_started : bool;
  ad_id : str;
  ad_model : str;
  ad_stopped : bool
}.
Definition AnthropicDecoder_default : AnthropicDecoder :=
  mkAnthropicDecoder ToolCallAccumulator_default false CanonicalUsage_default false [] [] false.

Definition with_tool (d : AnthropicDecoder) (t : ToolCallAccumulator) : AnthropicDecoder :=
  mkAnthropicDecoder t (ad_thinking d) (ad_usage d) (ad_started d) (ad_id d) (ad_model d) (ad_stopped d).
Definition with_thinking (d : AnthropicDecoder) (b : bool) : AnthropicDecoder :=
  mkAnthropicDecoder (ad_tool d) b (ad_usage d) (ad_started d) (ad_id d) (ad_model d) (ad_stopped d).
Definition with_usage (d : AnthropicDecoder) (u : CanonicalUsage) : AnthropicDecoder :=
  mkAnthropicDecoder (ad_tool d) (ad_thinking d) u (ad_started d) (ad_id d) (ad_model d) (ad_stopped d).
Definition with_stopped (d : AnthropicDecoder) : AnthropicDecoder :=
  mkAnthropicDecoder (ad_tool d) (ad_thinking d) (ad_usage d) (ad_started d) (ad_id d) (ad_model d) true.

Definition field_or_empty (v : json) (key : string) : str := default [] (string_field v (lit key)).

(** [message_start] and [message_delta]. *)
Definition decode_message_start (d : AnthropicDecoder) (value : json)
  : list CanonicalEvent * AnthropicDecoder :=
  let message := get_or_null (lit "message") value in
  let usage := match json_get (lit "usage") message with
               | Some u => CanonicalUsage_merge (ad_usage d) (anthropic_usage_from u)
               | None => ad_usage d
               end in
  let id := field_or_empty message "id" in
  let model := field_or_empty message "model" in
  ([Start id model usage],
   mkAnthropicDecoder (ad_tool d) (ad_thinking d) usage true id model (ad_stopped d)).
Definition decode_message_delta (d : AnthropicDecoder) (value : json)
  : list CanonicalEvent * AnthropicDecoder :=
  let '(events, d) :=
    match json_get (lit "usage") value with
    | Some u => let usage := CanonicalUsage_merge (ad_usage d) (anthropic_usage_from u) in
                ([UsageEvent usage], with_usage d usage)
    | None => ([], d)
    end in
  match str_of (json_pointer [lit "delta"; lit "stop_reason"] value) with
  | Some reason => (events ++ [StopEvent (StopReason_from_anthropic reason)], with_stopped d)
  | None => (events, d)
  end.

(** The three [content_block_*] events. *)
Definition decode_block_start `{JsonText} (d : AnthropicDecoder) (value : json)
  : list CanonicalEvent * AnthropicDecoder :=
  let block := get_or_null (lit "content_block") value in
  let type := field_or_empty block "type" in
  if bool_decide (type = lit "tool_use") then
    let id := field_or_empty block "id" in
    let name := field_or_empty block "name" in
    let d := with_tool d (tool_start id name (ad_tool d)) in
    let d := match json_get (lit "input") block with
             | Some input =>
                 match json_as_object input with
                 | Some (_ :: _) => with_tool d (push_arguments (json_to_string input) (ad_tool d))
                 | _ => d
                 end
             | None => d
             end in
    ([ToolCallStart id name], d)
  else if bool_decide (type = lit "thinking") then ([ReasoningStart], with_thinking d true)
  else ([], d).
Definition decode_block_delta (d : AnthropicDecoder) (value : json)
  : list CanonicalEvent * AnthropicDecoder :=
  let delta := get_or_null (lit "delta") value in
  let type := field_or_empty delta "type" in
  if bool_decide (type = lit "text_delta") then ([TextDelta (field_or_empty delta "text")], d)
  else if bool_decide (type = lit "thinking_delta") then
    ((if ad_thinking d then [] else [ReasoningStart])
     ++ [ReasoningDelta (field_or_empty delta "thinking")], with_thinking d true)
  else if bool_decide (type = lit "signature_delta")
  then ([ReasoningSignature (field_or_empty delta "signature")], d)
  else if bool_decide (type = lit "input_json_delta") then
    let fragment := field_or_empty delta "partial_json" in
    let d := with_tool d (push_arguments fragment (ad_tool d)) in
    ([ToolCallArgumentsDelta (ta_id (ad_tool d)) fragment], d)
  else ([], d).
(** The tool call that ends, at a block's end and at the stream's. *)
Definition end_tool `{JsonText} (d : AnthropicDecoder) : list CanonicalEvent * AnthropicDecoder :=
  if tool_is_empty (ad_tool d) then ([], d)
  else ([ToolCallEnd (ta_id (ad_tool d)) (tool_arguments (ad_tool d))],
        with_tool d ToolCallAccumulator_default).

Definition decode_anthropic_event `{JsonText} (d : AnthropicDecoder) (value : json)
  : list CanonicalEvent * AnthropicDecoder :=
  let type := field_or_empty value "type" in
  if bool_decide (type = lit "message_start") then decode_message_start d value
  else if bool_decide (type = lit "content_block_start") then decode_block_start d value
  else if bool_decide (type = lit "content_block_delta") then decode_block_delta d value
  else if bool_decide (type = lit "content_block_stop") then end_tool (with_thinking d false)
  else if bool_decide (type = lit "message_delta") then decode_message_delta d value
  else if bool_decide (type = lit "message_stop") then
    if ad_stopped d then ([], d) else ([StopEvent EndTurn], with_stopped d)
  else if bool_decide (type = lit "error") then
    let error := get_or_null (lit "error") value in
    ([ErrorEvent 502 (default (lit "the upstream reported an error")
                        (string_field error (lit "message")))], d)
  else ([], d).

#[export] Instance anthropic_decoder `{JsonText} : StreamDecoder AnthropicDecoder := {
  sd_new := AnthropicDecoder_default;
  sd_decode d data :=
    match json_from_str data with
    | Some value => let '(events, d) := decode_anthropic_event d value in (Ok events, d)
    | None => (Err (GatewayErrors.Upstream 502 (lit "the upstream sent an Anthropic event that is not JSON")), d)
    end;
  sd_finish d := let '(events, d) := end_tool d in (Ok events, d)
}.

(** ** Encoder *)

Inductive OpenBlock : Type := OpenText | OpenThinking | OpenTool.
#[export] Instance OpenBlock_eq_dec : EqDecision OpenBlock.
Proof. solve_decision. Defined.

Record AnthropicEncoder : Type := mkAnthropicEncoder {
  ae_model : str;
  ae_id : str;
  ae_block_index : Z;
  ae_open : option OpenBlock;
  ae_usage : CanonicalUsage;
  ae_started : bool;
  ae_terminal_emitted : bool
}.
Definition AnthropicEncoder_new (model : str) : AnthropicEncoder :=
  mkAnthropicEncoder model [] 0 None CanonicalUsage_default false false.

Definition with_open (e : AnthropicEncoder) (o : option OpenBlock) : AnthropicEncoder :=
  mkAnthropicEncoder (ae_model e) (ae_id e) (ae_block_index e) o (ae_usage e) (ae_started e)
    (ae_terminal_emitted e).

Definition named (event : string) (fields : list (str * json)) : option str * json :=
  (Some (lit event), JObject ((lit "type", jstr event) :: fields)).

Definition close_block (e : AnthropicEncoder) : Written * AnthropicEncoder :=
  match ae_open e with
  | Some _ =>
      ([named "content_block_stop" [(lit "index", json_u64 (ae_block_index e))]],
       mkAnthropicEncoder (ae_model e) (ae_id e) (ae_block_index e + 1) None (ae_usage e)
         (ae_started e) (ae_terminal_emitted e))
  | None => ([], e)
  end.
Definition open_block (block : json) (kind : OpenBlock) (e : AnthropicEncoder) : Written * AnthropicEncoder :=
  let '(out, e) := close_block e in
  (out ++ [named "content_block_start"
             [(lit "index", json_u64 (ae_block_index e)); (lit "content_block", block)]],
   with_open e (Some kind)).
Definition block_delta (delta : json) (e : AnthropicEncoder) : Written :=
  [named "content_block_delta" [(lit "index", json_u64 (ae_block_index e)); (lit "delta", delta)]].

(** A delta of the kind of block it belongs to, opening one when another is
    open. *)
Definition delta_in (kind : OpenBlock) (block delta : json) (e : AnthropicEncoder)
  : Written * AnthropicEncoder :=
  let '(out, e) := if bool_decide (ae_open e = Some kind) then ([], e) else open_block block kind e in
  (out ++ block_delta delta e, e).

Definition EMPTY_TEXT_BLOCK : json := JObject [(lit "type", jstr "text"); (lit "text", jstr "")].
Definition EMPTY_THINKING_BLOCK : json :=
  JObject [(lit "type", jstr "thinking"); (lit "thinking", jstr ""); (lit "signature", jstr "")].

Definition message_start_frame (e : AnthropicEncoder) (usage : CanonicalUsage) : option str * json :=
  named "message_start"
    [(lit "message", JObject
       [(lit "id", JString (ae_id e)); (lit "type", jstr "message"); (lit "role", jstr "assistant");
        (lit "model", JString (ae_model e)); (lit "content", JArray []); (lit "stop_reason", JNull);
        (lit "stop_sequence", JNull);
        (lit "usage", JObject [(lit "input_tokens", json_u64 (us_input_tokens usage));
                               (lit "output_tokens", json_u64 0)])])].
Definition message_stop_frame : option str * json := named "message_stop" [].

Definition anthropic_frames (e : AnthropicEncoder) (event : CanonicalEvent) : Written * AnthropicEncoder :=
  match event with
  | Start id model usage =>
      let e := mkAnthropicEncoder (adopt model (ae_model e)) id (ae_block_index e) (ae_open e) usage
                 (ae_started e) (ae_terminal_emitted e) in
      if ae_started e then ([], e)
      else
        let e := mkAnthropicEncoder (ae_model e) (ae_id e) (ae_block_index e) (ae_open e) (ae_usage e)
                   true (ae_terminal_emitted e) in
        ([message_start_frame e usage], e)
  | TextDelta text =>
      delta_in OpenText EMPTY_TEXT_BLOCK
        (JObject [(lit "type", jstr "text_delta"); (lit "text", JString text)]) e
  | ReasoningStart => open_block EMPTY_THINKING_BLOCK OpenThinking e
  | ReasoningDelta text =>
      delta_in OpenThinking EMPTY_THINKING_BLOCK
        (JObject [(lit "type", jstr "thinking_delta"); (lit "thinking", JString text)]) e
  | ReasoningSignature signature =>
      (block_delta (JObject [(lit "type", jstr "signature_delta"); (lit "signature", JString signature)]) e, e)
  | ToolCallStart id name =>
      open_block (JObject [(lit "type", jstr "tool_use"); (lit "id", JString id);
                           (lit "name", JString name); (lit "input", JObject [])]) OpenTool e
  | ToolCallArgumentsDelta _ fragment =>
      (block_delta (JObject [(lit "type", jstr "input_json_delta"); (lit "partial_json", JString fragment)]) e, e)
  | ToolCallEnd _ _ => close_block e
  | UsageEvent usage =>
      ([], mkAnthropicEncoder (ae_model e) (ae_id e) (ae_block_index e) (ae_open e) usage
             (ae_started e) (ae_terminal_emitted e))
  | StopEvent reason =>
      let '(out, e) := close_block e in
      (out ++ [named "message_delta"
                 [(lit "delta", JObject [(lit "stop_reason", JString (StopReason_anthropic reason));
                                         (lit "stop_sequence", JNull)]);
                  (lit "usage", JObject [(lit "output_tokens", json_u64 (us_output_tokens (ae_usage e)))])];
               message_stop_frame],
       mkAnthropicEncoder (ae_model e) (ae_id e) (ae_block_index e) (ae_open e) (ae_usage e)
         (ae_started e) true)
  | ErrorEvent _ message =>
      ([named "error" [(lit "error", JObject [(lit "type", jstr "api_error"); (lit "message", JString message)])]], e)
  end.

Definition anthropic_end_frames (e : AnthropicEncoder) : Written * AnthropicEncoder :=
  let '(out, e) := if ae_terminal_emitted e then ([], e) else close_block e in
  if negb (ae_started e) then (out, e)
  else if ae_terminal_emitted e then (out, e)
  else (out ++ [message_stop_frame],
        mkAnthropicEncoder (ae_model e) (ae_id e) (ae_block_index e) (ae_open e) (ae_usage e)
          (ae_started e) true).

#[export] Instance anthropic_encoder `{JsonText} : StreamEncoder AnthropicEncoder := {
  se_new := AnthropicEncoder_new;
  se_encode e event := let '(out, e) := anthropic_frames e event in (Ok (written out), e);
  se_finish e := let '(out, e) := anthropic_end_frames e in (Ok (written out), e);
  se_keepalive := Some (lit "event: ping" ++ [LF] ++ lit "data: {" ++ [34%N] ++ lit "type" ++ [34%N]
                        ++ lit ":" ++ [34%N] ++ lit "ping" ++ [34%N] ++ lit "}" ++ [LF; LF])
}.

(** * Lemmas *)

(** What the decoder makes of frames. *)
Definition anthropic_read `{JsonText} (d : AnthropicDecoder) (fs : Written)
  : list CanonicalEvent * AnthropicDecoder := values_all decode_anthropic_event d fs.*2.

Definition input_only (u : CanonicalUsage) : Prop :=
  exists input, (0 <= input)%Z /\ u = mkUsage input 0 0 0 0.

(** Encoder and decoder side by side: no block is open on either side of the
    wire when nothing is said or all is, a thinking block is one on both, and
    the decoder's tool is the stage's. *)
Definition agree (stage : Stage) (e : AnthropicEncoder) (d : AnthropicDecoder) : Prop :=
  match stage with
  | Silent => ae_open e = None /\ ae_started e = false /\ ae_terminal_emitted e = false /\
      d = AnthropicDecoder_default
  | Between => ae_open e <> Some OpenTool /\ ae_started e = true /\ ae_terminal_emitted e = false /\
      ad_tool d = ToolCallAccumulator_default /\
      ad_thinking d = bool_decide (ae_open e = Some OpenThinking) /\ ad_stopped d = false /\
      input_only (ad_usage d)
  | InTool id fragments => ae_open e = Some OpenTool /\ ae_started e = true /\
      ae_terminal_emitted e = false /\
      (exists name, ad_tool d = mkToolAcc id name fragments /\ is_empty id && is_empty name = false) /\
      ad_thinking d = false /\ ad_stopped d = false /\ input_only (ad_usage d)
  | Over => ae_open e = None /\ ae_started e = true /\ ae_terminal_emitted e = true /\
      ad_tool d = ToolCallAccumulator_default /\ ad_stopped d = true
  end.

(** A stop reason through Anthropic's spelling and back. *)
Definition crossed (s : StopReason) : StopReason := match s with OtherStop => EndTurn | _ => s end.

(** The two replies, the one said and the one read back from a client that was
    promised [model]. *)
Definition mirror (model : str) (stage : Stage) (r r' : ReplyAccumulator) : Prop :=
  match stage with
  | Silent => r = ReplyAccumulator_default /\ r' = ReplyAccumulator_default
  | _ =>
      ra_id r' = ra_id r /\ ra_model r' = adopt (ra_model r) model /\ ra_text r' = ra_text r /\
      ra_reasoning r' = ra_reasoning r /\ ra_tool_calls r' = ra_tool_calls r /\
      ra_stop r' = crossed <$> ra_stop r /\
      ra_open_reasoning r' = ra_open_reasoning r /\ ra_current_tool r' = ra_current_tool r /\
      match stage with
      | InTool id fragments => exists name, ra_current_tool r = Some (mkCall id name fragments)
      | _ => True
      end
  end.

(** The counters of the reply read back: the input the start told, and the
    output told last before the stop. *)
Fixpoint last_usage (u : CanonicalUsage) (events : list CanonicalEvent) : CanonicalUsage :=
  match events with
  | [] | StopEvent _ :: _ => u
  | (Start _ _ u' | UsageEvent u') :: events => last_usage u' events
  | _ :: events => last_usage u events
  end.
Definition told_usage (events : list CanonicalEvent) : CanonicalUsage :=
  match events with
  | Start _ _ u :: events => mkUsage (us_input_tokens u) (us_output_tokens (last_usage u events)) 0 0 0
  | _ => CanonicalUsage_default
  end.

Section reads.
Context `{JsonText}.

Lemma read_stop d i :
  decode_anthropic_event d (named "content_block_stop" [(lit "index", i)]).2 = end_tool (with_thinking d false).
Proof. reflexivity. Qed.
Lemma read_text_start d i :
  decode_anthropic_event d
    (named "content_block_start" [(lit "index", i); (lit "content_block", EMPTY_TEXT_BLOCK)]).2 = ([], d).
Proof. reflexivity. Qed.
Lemma read_thinking_start d i :
  decode_anthropic_event d
    (named "content_block_start" [(lit "index", i); (lit "content_block", EMPTY_THINKING_BLOCK)]).2 =
  ([ReasoningStart], with_thinking d true).
Proof. reflexivity. Qed.
Lemma read_tool_start d i id name :
  decode_anthropic_event d
    (named "content_block_start"
       [(lit "index", i);
        (lit "content_block", JObject [(lit "type", jstr "tool_use"); (lit "id", JString id);
                                       (lit "name", JString name); (lit "input", JObject [])])]).2 =
  ([ToolCallStart id name], with_tool d (tool_start id name (ad_tool d))).
Proof. reflexivity. Qed.
Lemma read_text d i text :
  decode_anthropic_event d
    (named "content_block_delta"
       [(lit "index", i); (lit "delta", JObject [(lit "type", jstr "text_delta"); (lit "text", JString text)])]).2 =
  ([TextDelta text], d).
Proof. reflexivity. Qed.
Lemma read_thinking d i text :
  decode_anthropic_event d
    (named "content_block_delta"
       [(lit "index", i);
        (lit "delta", JObject [(lit "type", jstr "thinking_delta"); (lit "thinking", JString text)])]).2 =
  ((if ad_thinking d then [] else [ReasoningStart]) ++ [ReasoningDelta text], with_thinking d true).
Proof. reflexivity. Qed.
Lemma read_signature d i s :
  decode_anthropic_event d
    (named "content_block_delta"
       [(lit "index", i);
        (lit "delta", JObject [(lit "type", jstr "signature_delta"); (lit "signature", JString s)])]).2 =
  ([ReasoningSignature s], d).
Proof. reflexivity. Qed.
Lemma read_json d i s :
  decode_anthropic_event d
    (named "content_block_delta"
       [(lit "index", i);
        (lit "delta", JObject [(lit "type", jstr "input_json_delta"); (lit "partial_json", JString s)])]).2 =
  ([ToolCallArgumentsDelta (ta_id (ad_tool d)) s], with_tool d (push_arguments s (ad_tool d))).
Proof. reflexivity. Qed.
Lemma read_error d m :
  decode_anthropic_event d
    (named "error" [(lit "error", JObject [(lit "type", jstr "api_error"); (lit "message", JString m)])]).2 =
  ([ErrorEvent 502 m], d).
Proof. reflexivity. Qed.
Lemma read_message_stop d :
  decode_anthropic_event d message_stop_frame.2 = if ad_stopped d then ([], d) else ([StopEvent EndTurn], with_stopped d).
Proof. reflexivity. Qed.
Lemma read_message_start d e u :
  in_u64 (us_input_tokens u) ->
  decode_anthropic_event d (message_start_frame e u).2 =
  (let usage := CanonicalUsage_merge (ad_usage d) (mkUsage (us_input_tokens u) 0 0 0 0) in
   ([Start (ae_id e) (ae_model e) usage],
    mkAnthropicDecoder (ad_tool d) (ad_thinking d) usage true (ae_id e) (ae_model e) (ad_stopped d))).
Proof.
  intros Hu. transitivity
   (let usage := CanonicalUsage_merge (ad_usage d)
      (mkUsage (default 0%Z (json_as_u64 (json_u64 (us_input_tokens u)))) 0 0 0 0) in
    ([Start (ae_id e) (ae_model e) usage],
     mkAnthropicDecoder (ad_tool d) (ad_thinking d) usage true (ae_id e) (ae_model e) (ad_stopped d))).
  - reflexivity.
  - by rewrite as_u64_of_u64.
Qed.
Lemma read_message_delta d reason u :
  in_u64 (us_output_tokens u) ->
  decode_anthropic_event d
    (named "message_delta"
       [(lit "delta", JObject [(lit "stop_reason", JString (StopReason_anthropic reason));
                               (lit "stop_sequence", JNull)]);
        (lit "usage", JObject [(lit "output_tokens", json_u64 (us_output_tokens u))])]).2 =
  (let usage := CanonicalUsage_merge (ad_usage d) (mkUsage 0 (us_output_tokens u) 0 0 0) in
   ([UsageEvent usage; StopEvent (crossed reason)], with_stopped (with_usage d usage))).
Proof.
  intros Hu. transitivity
   (let usage := CanonicalUsage_merge (ad_usage d)
      (mkUsage 0 (default 0%Z (json_as_u64 (json_u64 (us_output_tokens u)))) 0 0 0) in
    ([UsageEvent usage; StopEvent (StopReason_from_anthropic (StopReason_anthropic reason))],
     with_stopped (with_usage d usage))).
  - reflexivity.
  - rewrite as_u64_of_u64 by done. by destruct reason.
Qed.

(** ** Good frames *)

Lemma named_ok event fields :
  json_plain (JObject ((lit "type", jstr event) :: fields)) ->
  LF ∉ lit event -> CR ∉ lit event -> frame_ok (named event fields).
Proof. intros Hp H1 H2. split; [done|]. by intros e [= <-]. Qed.

Ltac good_frame := apply named_ok;
  [unfold jstr; json_plain|apply (bool_decide_unpack _); by vm_compute..].

Ltac good_frames := cbn [fst snd];
  lazymatch goal with
  | |- Forall _ [] => apply List.Forall_nil
  | |- Forall _ _ => apply Forall_cons; split; [good_frame; try done|good_frames]
  end.

Lemma close_ok e : in_u64 (ae_block_index e) -> Forall frame_ok (close_block e).1.
Proof. intros Hi. unfold close_block. destruct (ae_open e); good_frames. Qed.
Lemma close_index e :
  ae_block_index (close_block e).2 = (ae_block_index e + if ae_open e then 1 else 0)%Z.
Proof. unfold close_block. destruct (ae_open e); simpl; lia. Qed.
Lemma open_state block kind e :
  let e' := (open_block block kind e).2 in
  e' = mkAnthropicEncoder (ae_model e) (ae_id e) (ae_block_index e + if ae_open e then 1 else 0)
         (Some kind) (ae_usage e) (ae_started e) (ae_terminal_emitted e).
Proof.
  unfold open_block, close_block, with_open. destruct (ae_open e); simpl; [done|]. by rewrite Z.add_0_r.
Qed.
Lemma open_ok block kind e :
  in_u64 (ae_block_index e) -> in_u64 (ae_block_index e + 1) -> json_plain block ->
  Forall frame_ok (open_block block kind e).1.
Proof.
  intros H1 H2 Hb. unfold open_block. pose proof (close_ok e H1) as Hc. pose proof (close_index e) as Hi.
  destruct (close_block e) as [out e']. cbn [fst snd] in *. apply Forall_app. split; [done|].
  good_frames. rewrite Hi. destruct (ae_open e); [done|]. by rewrite Z.add_0_r.
Qed.
Lemma delta_ok delta e :
  in_u64 (ae_block_index e) -> json_plain delta -> Forall frame_ok (block_delta delta e).
Proof. intros Hi Hd. unfold block_delta. good_frames. Qed.

(** What a step may do to the encoder, and what it may write. *)
Definition good_step (e : AnthropicEncoder) (step : Written * AnthropicEncoder) : Prop :=
  Forall frame_ok step.1 /\ usage_fits (ae_usage step.2) /\
  (ae_block_index e <= ae_block_index step.2 <= ae_block_index e + 1)%Z.

Lemma close_good e :
  in_u64 (ae_block_index e) -> usage_fits (ae_usage e) -> good_step e (close_block e).
Proof.
  intros Hi Hu. split; [by apply close_ok|]. rewrite close_index. unfold close_block.
  destruct (ae_open e); simpl; split; done || lia.
Qed.
Lemma open_good block kind e :
  in_u64 (ae_block_index e) -> in_u64 (ae_block_index e + 1) -> usage_fits (ae_usage e) ->
  json_plain block -> good_step e (open_block block kind e).
Proof.
  intros H1 H2 Hu Hb. split; [by apply open_ok|]. rewrite open_state. simpl. split; [done|].
  destruct (ae_open e); lia.
Qed.
Lemma delta_in_good kind block delta e :
  in_u64 (ae_block_index e) -> in_u64 (ae_block_index e + 1) -> usage_fits (ae_usage e) ->
  json_plain block -> json_plain delta -> good_step e (delta_in kind block delta e).
Proof.
  intros H1 H2 Hu Hb Hd. unfold delta_in. case_bool_decide as Hk.
  - split; [by apply delta_ok|]. split; [done|]. simpl. lia.
  - pose proof (open_good block kind e H1 H2 Hu Hb) as (Ho & Hu' & Hr).
    destruct (open_block block kind e) as [out e']. cbn [fst snd] in *. split; [|done].
    cbn [fst]. apply Forall_app. split; [done|]. apply delta_ok; [|done]. int_lia.
Qed.

(** Every frame of a stream of fewer than 2^64 events is a good frame. *)
Lemma anthropic_frames_good e event :
  in_u64 (ae_block_index e) -> in_u64 (ae_block_index e + 1) -> usage_fits (ae_usage e) -> event_fits event ->
  good_step e (anthropic_frames e event).
Proof.
  assert (H0 : in_u64 0) by int_lia.
  intros H1 H2 Hu Hf. destruct event; cbn [anthropic_frames event_fits] in *.
  - pose proof (proj1 Hf). destruct (ae_started _); (split; [good_frames|simpl; split; [done|lia]]).
  - apply delta_in_good; done || (unfold EMPTY_TEXT_BLOCK, jstr; json_plain).
  - apply open_good; done || (unfold EMPTY_THINKING_BLOCK, jstr; json_plain).
  - apply delta_in_good; done || (unfold EMPTY_THINKING_BLOCK, jstr; json_plain).
  - split; simpl; [|split; [done|lia]]. apply delta_ok; [done|unfold jstr; json_plain].
  - apply open_good; done || (unfold jstr; json_plain).
  - split; simpl; [|split; [done|lia]]. apply delta_ok; [done|unfold jstr; json_plain].
  - by apply close_good.
  - split; simpl; [constructor|]. split; [done|lia].
  - pose proof (close_good e H1 Hu) as (Hc & Hu' & Hr). destruct (close_block e) as [out e'].
    cbn [fst snd] in *. split; [|done]. cbn [fst]. apply Forall_app. split; [done|].
    pose proof (proj1 (proj2 Hu')). good_frames.
  - split; simpl; [|split; [done|lia]]. good_frames.
Qed.

Lemma anthropic_end_good e :
  in_u64 (ae_block_index e) -> usage_fits (ae_usage e) -> Forall frame_ok (anthropic_end_frames e).1.
Proof.
  intros Hi Hu. unfold anthropic_end_frames. pose proof (close_good e Hi Hu) as (Hc & _ & _).
  assert (Hs : Forall frame_ok (if ae_terminal_emitted e then ([], e) else close_block e).1)
    by by destruct (ae_terminal_emitted e).
  destruct (if ae_terminal_emitted e then _ else _) as [out e']. cbn [fst] in Hs.
  destruct (ae_started _), (ae_terminal_emitted _); cbn [negb fst]; try done.
  apply Forall_app. split; [done|]. good_frames.
Qed.

Lemma anthropic_all_good events e :
  Forall event_fits events -> usage_fits (ae_usage e) -> (0 <= ae_block_index e)%Z ->
  (ae_block_index e + Z.of_nat (length events) < u64_max)%Z ->
  let sent := frames_all anthropic_frames e events in
  Forall frame_ok (sent.1 ++ (anthropic_end_frames sent.2).1).
Proof.
  intros Hf. revert e. induction Hf as [|event events Hf _ IH]; intros e Hu H0 Hl; cbn [frames_all].
  - cbn [fst snd app]. apply anthropic_end_good; [|done]. cbn [length] in Hl. int_lia.
  - cbn [length] in Hl. destruct (anthropic_frames_good e event) as (Ho & Hu' & Hr); [int_lia..|done|done|].
    destruct (anthropic_frames e event) as [out e']. cbn [fst snd] in *. specialize (IH e' Hu' ltac:(lia) ltac:(lia)).
    destruct (frames_all anthropic_frames e' events) as [more e'']. cbn [fst snd] in *.
    rewrite <- app_assoc. by apply Forall_app.
Qed.

(** ** Step by step *)

Lemma read_cons d f fs :
  anthropic_read d (f :: fs) =
  (let '(out, d) := decode_anthropic_event d f.2 in
   let '(more, d) := anthropic_read d fs in (out ++ more, d)).
Proof. reflexivity. Qed.
Lemma read_app d a b :
  anthropic_read d (a ++ b) =
  ((anthropic_read d a).1 ++ (anthropic_read (anthropic_read d a).2 b).1,
   (anthropic_read (anthropic_read d a).2 b).2).
Proof. unfold anthropic_read. by rewrite fmap_app, values_all_app. Qed.

(** Between blocks a block that ends says nothing. *)
Lemma read_close e d :
  agree Between e d -> anthropic_read d (close_block e).1 = ([], with_thinking d false).
Proof.
  intros (Ho & _ & _ & Ht & Hb & _). unfold close_block. destruct (ae_open e) eqn:E; cbn [fst].
  - rewrite read_cons, read_stop. unfold end_tool. cbn [ad_tool with_thinking]. by rewrite Ht.
  - destruct d. cbn in Hb. by subst.
Qed.
Lemma read_open block kind e d :
  agree Between e d ->
  anthropic_read d (open_block block kind e).1 =
  (let '(out, d) := decode_anthropic_event (with_thinking d false)
     (named "content_block_start"
        [(lit "index", json_u64 (ae_block_index (close_block e).2)); (lit "content_block", block)]).2 in
   (out ++ [], d)).
Proof.
  intros Ha. unfold open_block. pose proof (read_close e d Ha) as Hc.
  destruct (close_block e) as [out e']. cbn [fst snd] in *. rewrite read_app, Hc. cbn [fst snd].
  rewrite read_cons. by destruct (decode_anthropic_event _ _).
Qed.

(** One event sent and read back: the two sides stay side by side, the two
    replies grow alike, and the counters the client will have been told stay. *)
Definition told (stage : Stage) (e : AnthropicEncoder) (d : AnthropicDecoder)
    (events : list CanonicalEvent) : CanonicalUsage :=
  match stage with
  | Silent => told_usage events
  | Over => ad_usage d
  | _ => mkUsage (us_input_tokens (ad_usage d)) (us_output_tokens (last_usage (ae_usage e) events)) 0 0 0
  end.
Definition step_agrees (stage stage' : Stage) (e : AnthropicEncoder) (d : AnthropicDecoder)
    (event : CanonicalEvent) : Prop :=
  let '(fs, e') := anthropic_frames e event in
  let '(back, d') := anthropic_read d fs in
  agree stage' e' d' /\
  (forall model r r', (stage = Silent -> ae_model e = model) ->
     mirror model stage r r' -> mirror model stage' (reply_apply r event) (foldl reply_apply r' back)) /\
  (forall r', ra_usage r' = ad_usage d -> ra_usage (foldl reply_apply r' back) = ad_usage d') /\
  (forall events, told stage e d (event :: events) = told stage' e' d' events).


Lemma start_agrees e d id model usage :
  agree Silent e d -> usage_fits usage -> step_agrees Silent Between e d (Start id model usage).
Proof.
  intros (Ho & Hs & Ht & ->) (Hi & _). unfold step_agrees. cbn [anthropic_frames ae_started].
  rewrite Hs. rewrite read_cons, read_message_start by done. cbn. rewrite Ho, Z.max_r by int_lia.
  split_and!; try done.
  - exists (us_input_tokens usage). split; [int_lia|]. unfold CanonicalUsage_merge. cbn. f_equal. int_lia.
  - intros m r r' Hm [-> ->]. rewrite Hm by done. cbn. by rewrite !adopt_nil_r.
  - intros r' ->. unfold CanonicalUsage_merge. cbn. f_equal; int_lia.
Qed.

Lemma with_thinking_same d b : ad_thinking d = b -> with_thinking d b = d.
Proof. destruct d. cbn. by intros ->. Qed.

Lemma read_delta_in kind block delta e d :
  agree Between e d ->
  anthropic_read d (delta_in kind block delta e).1 =
  (let frame i := (named "content_block_delta" [(lit "index", i); (lit "delta", delta)]).2 in
   if bool_decide (ae_open e = Some kind)
   then (let '(out, d) := decode_anthropic_event d (frame (json_u64 (ae_block_index e))) in (out ++ [], d))
   else
     (let '(a, d) := anthropic_read d (open_block block kind e).1 in
      let '(out, d) := decode_anthropic_event d (frame (json_u64 (ae_block_index (open_block block kind e).2))) in
      (a ++ out ++ [], d))).
Proof.
  intros Ha. unfold delta_in, block_delta. case_bool_decide as Hk.
  - cbn [app fst]. rewrite read_cons. by destruct (decode_anthropic_event _ _).
  - destruct (open_block block kind e) as [out e']. cbn [fst snd]. rewrite read_app, read_cons.
    destruct (anthropic_read d out) as [a d']. cbn [fst snd]. by destruct (decode_anthropic_event _ _).
Qed.

(** The kind of block an encoder is left with after a delta. *)
Lemma delta_in_state kind block delta e :
  let e' := (delta_in kind block delta e).2 in
  ae_open e' = Some kind /\ ae_started e' = ae_started e /\
  ae_terminal_emitted e' = ae_terminal_emitted e /\ ae_usage e' = ae_usage e.
Proof.
  unfold delta_in. case_bool_decide as Hk; [done|]. pose proof (open_state block kind e) as Ho.
  destruct (open_block block kind e) as [out e']. cbn [snd] in *. by subst.
Qed.

(** A step that leaves the decoder's counters and tool alone, told to both
    replies alike. *)
Lemma quiet_step e d event fs e' back b :
  agree Between e d -> anthropic_frames e event = (fs, e') ->
  anthropic_read d fs = (back, with_thinking d b) ->
  ae_open e' <> Some OpenTool -> ae_started e' = true -> ae_terminal_emitted e' = false ->
  b = bool_decide (ae_open e' = Some OpenThinking) ->
  (forall model r r', mirror model Between r r' ->
     mirror model Between (reply_apply r event) (foldl reply_apply r' back)) ->
  (forall r, ra_usage (foldl reply_apply r back) = ra_usage r) ->
  (forall events, last_usage (ae_usage e) (event :: events) = last_usage (ae_usage e') events) ->
  step_agrees Between Between e d event.
Proof.
  intros (Ho & Hs & Ht & Hd & Hb & Hst & Hi) Hf Hr H1 H2 H3 H4 Hm Hu Hl. unfold step_agrees.
  rewrite Hf, Hr. split_and!; try done.
  - intros model r r' _. apply Hm.
  - intros r' Hr'. by rewrite Hu.
  - intros events. cbn [told with_thinking ad_usage]. by rewrite Hl.
Qed.

(** Both replies grow by the same pieces. *)
Ltac grow_alike :=
  intros model r r' M; cbn [mirror app foldl reply_apply ra_id ra_model ra_text ra_reasoning ra_tool_calls
    ra_stop ra_open_reasoning ra_current_tool] in M |- *;
  destruct_and? M; split_and?; congruence || done.

(** What the events that open no tool call add to a reply. *)
Lemma text_agrees e d text : agree Between e d -> step_agrees Between Between e d (TextDelta text).
Proof.
  intros Ha. pose proof Ha as (Ho & Hs & Ht & Hd & Hb & Hst & Hi).
  destruct (delta_in OpenText EMPTY_TEXT_BLOCK
    (JObject [(lit "type", jstr "text_delta"); (lit "text", JString text)]) e) as [fs e'] eqn:E.
  pose proof (delta_in_state OpenText EMPTY_TEXT_BLOCK
    (JObject [(lit "type", jstr "text_delta"); (lit "text", JString text)]) e) as (E1 & E2 & E3 & E4).
  rewrite E in *. cbn [fst snd] in *.
  apply (quiet_step e d _ fs e' [TextDelta text] false); rewrite ?E1, ?E2, ?E3, ?E4; try done.
  - change fs with (fs, e').1. rewrite <- E, read_delta_in by done. cbn zeta.
    destruct (decide (ae_open e = Some OpenText)) as [Hk|Hk].
    + rewrite (bool_decide_eq_true_2 _ Hk), read_text, with_thinking_same; [done|]. by rewrite Hb, Hk.
    + rewrite (bool_decide_eq_false_2 _ Hk), read_open by done. by rewrite read_text_start, read_text.
  - grow_alike.
Qed.

Lemma thinking_agrees e d text : agree Between e d -> step_agrees Between Between e d (ReasoningDelta text).
Proof.
  intros Ha. pose proof Ha as (Ho & Hs & Ht & Hd & Hb & Hst & Hi).
  set (delta := JObject [(lit "type", jstr "thinking_delta"); (lit "thinking", JString text)]).
  destruct (delta_in OpenThinking EMPTY_THINKING_BLOCK delta e) as [fs e'] eqn:E.
  pose proof (delta_in_state OpenThinking EMPTY_THINKING_BLOCK delta e) as (E1 & E2 & E3 & E4).
  rewrite E in *. cbn [fst snd] in *.
  apply (quiet_step e d _ fs e' ((if ad_thinking d then [] else [ReasoningStart]) ++ [ReasoningDelta text]) true);
    rewrite ?E1, ?E2, ?E3, ?E4; try done.
  - change fs with (fs, e').1. rewrite <- E, read_delta_in by done. cbn zeta.
    destruct (decide (ae_open e = Some OpenThinking)) as [Hk|Hk].
    + unfold delta. by rewrite (bool_decide_eq_true_2 _ Hk), read_thinking, app_nil_r.
    + rewrite (bool_decide_eq_false_2 _ Hk), read_open by done. unfold delta. rewrite read_thinking_start, read_thinking.
      rewrite Hb, (bool_decide_eq_false_2 _ Hk). done.
  - destruct (ad_thinking d); grow_alike.
  - by destruct (ad_thinking d).
Qed.
Lemma signature_agrees e d s : agree Between e d -> step_agrees Between Between e d (ReasoningSignature s).
Proof.
  intros Ha. pose proof Ha as (Ho & Hs & Ht & Hd & Hb & Hst & Hi).
  eapply (quiet_step e d _ _ e [ReasoningSignature s] (ad_thinking d)); try done.
  unfold block_delta. by rewrite read_cons, read_signature, with_thinking_same.
Qed.
Lemma thinking_start_agrees e d : agree Between e d -> step_agrees Between Between e d ReasoningStart.
Proof.
  intros Ha. pose proof Ha as (Ho & Hs & Ht & Hd & Hb & Hst & Hi).
  destruct (open_block EMPTY_THINKING_BLOCK OpenThinking e) as [fs e'] eqn:E.
  pose proof (open_state EMPTY_THINKING_BLOCK OpenThinking e) as Hstate. rewrite E in Hstate. cbn [snd] in Hstate.
  apply (quiet_step e d _ fs e' [ReasoningStart] true); subst e'; try done.
  - change fs with (fs, e).1. pose proof (read_open EMPTY_THINKING_BLOCK OpenThinking e d Ha) as Hr.
    rewrite E in Hr. cbn [fst] in *. by rewrite Hr, read_thinking_start.
  - grow_alike.
Qed.

(** Errors and counters leave every stage where it is. *)
Lemma aside_agrees stage e d event :
  agree stage e d -> stage <> Silent ->
  match event with UsageEvent _ | ErrorEvent _ _ => True | _ => False end ->
  step_agrees stage stage e d event.
Proof.
  intros Ha Hs He. unfold step_agrees.
  assert (Ha' : forall u, agree stage (mkAnthropicEncoder (ae_model e) (ae_id e) (ae_block_index e) (ae_open e) u
    (ae_started e) (ae_terminal_emitted e)) d) by by destruct stage.
  destruct event; try done; cbn [anthropic_frames].
  - change (anthropic_read d []) with (@nil CanonicalEvent, d). split_and!; [done|by destruct stage|done|].
    intros events. by destruct stage.
  - rewrite read_cons, read_error. change (anthropic_read d []) with (@nil CanonicalEvent, d). cbn [app].
    split_and!; [done|by destruct stage|done|]. intros events. by destruct stage.
Qed.

(** A tool call: opened, fed, and ended with the arguments it was fed. *)
Lemma tool_start_agrees e d id name :
  agree Between e d -> is_empty id && is_empty name = false ->
  step_agrees Between (InTool id []) e d (ToolCallStart id name).
Proof.
  intros Ha Hn. pose proof Ha as (Ho & Hs & Ht & Hd & Hb & Hst & Hi). unfold step_agrees.
  cbn [anthropic_frames].
  set (block := JObject [(lit "type", jstr "tool_use"); (lit "id", JString id);
                         (lit "name", JString name); (lit "input", JObject [])]).
  destruct (open_block block OpenTool e) as [fs e'] eqn:E.
  pose proof (open_state block OpenTool e) as Hstate. pose proof (read_open block OpenTool e d Ha) as Hr.
  rewrite E in Hstate, Hr. cbn [fst snd] in *. unfold block in Hr. rewrite Hr, read_tool_start.
  subst e'. cbn [with_tool with_thinking ad_tool]. rewrite Hd. unfold tool_start. cbn.
  rewrite !adopt_nil_r. split_and!; try done.
  - by exists name.
  - intros model r r' _ (M1 & M2 & M3 & M4 & M5 & M6 & M7 & M8 & _). split_and!; try done. by exists name.
Qed.
Lemma tool_delta_agrees e d id fragments id' fragment :
  agree (InTool id fragments) e d ->
  step_agrees (InTool id fragments) (InTool id (fragments ++ fragment)) e d (ToolCallArgumentsDelta id' fragment).
Proof.
  intros (Ho & Hs & Ht & (name & Hd & Hn) & Hb & Hst & Hi). unfold step_agrees. cbn [anthropic_frames].
  unfold block_delta. rewrite read_cons, read_json, Hd. change (anthropic_read _ []) with
    (@nil CanonicalEvent, with_tool d (push_arguments fragment (mkToolAcc id name fragments))).
  cbn [app]. split_and!; try done.
  - cbn. split_and!; try done. by exists name.
  - intros model r r' _ (M1 & M2 & M3 & M4 & M5 & M6 & M7 & M8 & name' & M9).
    cbn. rewrite M8, M9. split_and!; try done. by exists name'.
Qed.
Lemma tool_end_agrees e d id fragments arguments :
  agree (InTool id fragments) e d ->
  negb (is_empty (trim fragments)) || match arguments with JObject [] => true | _ => false end = true ->
  step_agrees (InTool id fragments) Between e d (ToolCallEnd id arguments).
Proof.
  intros (Ho & Hs & Ht & (name & Hd & Hn) & Hb & Hst & Hi) Harg. unfold step_agrees. cbn [anthropic_frames].
  unfold close_block. rewrite Ho. rewrite read_cons, read_stop. unfold end_tool.
  cbn [ad_tool with_thinking]. rewrite Hd. unfold tool_is_empty. cbn [ta_id ta_name ta_fragments].
  rewrite Hn. cbn [andb]. split_and!; try done.
  intros model r r' _ (M1 & M2 & M3 & M4 & M5 & M6 & M7 & M8 & name' & M9). cbn -[trim]. rewrite M8, M9, M5. cbn -[trim].
  split_and!; try done. do 3 f_equal. unfold tool_arguments. cbn [ta_fragments].
  destruct (is_empty (trim fragments)); [|done]. destruct arguments as [| | | | |[|]]; try done.
Qed.
Lemma read_ending d reason u :
  in_u64 (us_output_tokens u) ->
  anthropic_read d
    [named "message_delta"
       [(lit "delta", JObject [(lit "stop_reason", JString (StopReason_anthropic reason));
                               (lit "stop_sequence", JNull)]);
        (lit "usage", JObject [(lit "output_tokens", json_u64 (us_output_tokens u))])];
     message_stop_frame] =
  (let usage := CanonicalUsage_merge (ad_usage d) (mkUsage 0 (us_output_tokens u) 0 0 0) in
   ([UsageEvent usage; StopEvent (crossed reason)], with_stopped (with_usage d usage))).
Proof. intros Hu. rewrite read_cons, read_message_delta by done. reflexivity. Qed.
Lemma stop_agrees e d reason :
  agree Between e d -> usage_fits (ae_usage e) -> step_agrees Between Over e d (StopEvent reason).
Proof.
  intros Ha Hu. pose proof Ha as (Ho & Hs & Ht & Hd & Hb & Hst & (i & Hi & Hus)). unfold step_agrees.
  cbn [anthropic_frames]. pose proof (read_close e d Ha) as Hr.
  assert (Hc : (close_block e).2 = mkAnthropicEncoder (ae_model e) (ae_id e)
    (ae_block_index (close_block e).2) None (ae_usage e) true false).
  { unfold close_block. destruct e, (ae_open _) eqn:E; cbn in *; by subst. }
  destruct (close_block e) as [out e']. cbn [fst snd] in *. rewrite read_app, Hr, Hc. cbn [fst snd app ae_usage].
  rewrite read_ending by apply Hu. cbn [fst snd app].
  destruct Hu as (_ & Hu & _). cbn [with_usage with_thinking ad_usage]. split_and!; try done.
  - intros model r r' _. revert model r r'. grow_alike.
  - intros r' Hr'. cbn. rewrite Hr', Hus. unfold CanonicalUsage_merge. cbn. f_equal; int_lia.
  - intros events. cbn. rewrite Hus. unfold CanonicalUsage_merge. cbn. f_equal; int_lia.
Qed.

(** Every step of an orderly reply. *)
Lemma orderly_agrees stage stage' e d event :
  orderly_step stage event = Some stage' -> agree stage e d -> usage_fits (ae_usage e) -> event_fits event ->
  step_agrees stage stage' e d event.
Proof.
  intros Ho Ha Hu Hf. destruct stage, event; cbn in Ho; try discriminate Ho;
    try (injection Ho as <-; by apply aside_agrees).
  - injection Ho as <-. by apply start_agrees.
  - injection Ho as <-. by apply text_agrees.
  - injection Ho as <-. by apply thinking_start_agrees.
  - injection Ho as <-. by apply thinking_agrees.
  - injection Ho as <-. by apply signature_agrees.
  - destruct (is_empty id && is_empty name) eqn:E; [done|]. injection Ho as <-. by apply tool_start_agrees.
  - injection Ho as <-. by apply stop_agrees.
  - injection Ho as <-. by apply tool_delta_agrees.
  - case_bool_decide as Hid; [|done]. subst. cbn [andb] in Ho.
    destruct (negb (is_empty (trim fragments)) || _) eqn:E; [|done]. injection Ho as <-.
    by apply tool_end_agrees.
Qed.

Lemma anthropic_simulation events stage e d r r' model :
  orderly stage events = true -> Forall event_fits events -> agree stage e d -> usage_fits (ae_usage e) ->
  (0 <= ae_block_index e)%Z -> (ae_block_index e + Z.of_nat (length events) < u64_max)%Z ->
  (stage = Silent -> ae_model e = model) -> mirror model stage r r' -> ra_usage r' = ad_usage d ->
  let sent := frames_all anthropic_frames e events in
  let back := anthropic_read d sent.1 in
  agree Over sent.2 back.2 /\ mirror model Over (foldl reply_apply r events) (foldl reply_apply r' back.1) /\
  ra_usage (foldl reply_apply r' back.1) = told stage e d events.
Proof.
  intros Ho Hf. revert stage e d r r' Ho.
  induction Hf as [|event events Hf _ IH]; intros stage e d r r' Ho Ha Hu H0 Hl Hm Hr Hus; cbn [frames_all].
  - by destruct stage.
  - cbn [orderly] in Ho. destruct (orderly_step stage event) as [stage'|] eqn:Est; [|done].
    pose proof (orderly_agrees stage stage' e d event Est Ha Hu Hf) as Hstep. unfold step_agrees in Hstep.
    cbn [length] in Hl. destruct (anthropic_frames_good e event) as (_ & Hu' & Hi'); [int_lia..|done|done|].
    destruct (anthropic_frames e event) as [out e']. cbn [fst snd] in *.
    destruct (anthropic_read d out) as [back d'] eqn:Eb. destruct Hstep as (Ha' & Hr' & Hus' & Ht).
    assert (Hns : stage' = Silent -> ae_model e' = model).
    { intros ->. destruct stage, event; cbn in Est; try discriminate Est; repeat case_match; discriminate Est. }
    specialize (IH stage' e' d' (reply_apply r event) (foldl reply_apply r' back) Ho Ha' Hu' ltac:(lia) ltac:(lia)
      Hns (Hr' model r r' Hm Hr) (Hus' r' Hus)).
    destruct (frames_all anthropic_frames e' events) as [more e'']. cbn [fst snd foldl] in *.
    rewrite read_app, Eb. cbn [fst snd]. rewrite foldl_app, Ht. exact IH.
Qed.
End reads.

(** ** A reply through the Anthropic stream *)

(** The whole exchange, frame by frame. *)
Lemma anthropic_read_written `{JsonTextLaws} (model : str) (events : list CanonicalEvent) :
  orderly Silent events = true -> Forall event_fits events -> (Z.of_nat (length events) < u64_max)%Z ->
  exists back,
    read_reply (T := AnthropicDecoder) (write_reply (T := AnthropicEncoder) model events) = Ok back /\
    mirror model Over (reply_of events) (reply_of back) /\
    ra_usage (reply_of back) = told_usage events.
Proof.
  intros Ho Hf Hl. pose proof (anthropic_all_good events (AnthropicEncoder_new model) Hf) as Hg.
  destruct (anthropic_simulation events Silent (AnthropicEncoder_new model) AnthropicDecoder_default
    ReplyAccumulator_default ReplyAccumulator_default model Ho Hf) as (Ha & Hm & Hu); [done..|].
  eexists. split.
  - apply (read_written anthropic_frames (fun e => (anthropic_end_frames e).1) decode_anthropic_event
      (fun d => (end_tool d).1)).
    + intros e event. cbn [se_encode anthropic_encoder]. by destruct (anthropic_frames e event).
    + intros e. cbn [se_finish anthropic_encoder]. by destruct (anthropic_end_frames e).
    + intros d v Hv. cbn [sd_decode anthropic_decoder]. rewrite json_parses by done.
      by destruct (decode_anthropic_event d v).
    + intros d. cbn [sd_finish anthropic_decoder]. by destruct (end_tool d).
    + by apply Hg.
  - cbn [se_new anthropic_encoder sd_new anthropic_decoder].
    destruct (frames_all anthropic_frames (AnthropicEncoder_new model) events) as [out e]. cbn [fst snd] in *.
    assert (He : (anthropic_end_frames e).1 = []).
    { destruct Ha as (_ & Hs & Ht & _). unfold anthropic_end_frames. rewrite Ht. cbn [fst snd]. by rewrite Hs, Ht. }
    rewrite He, app_nil_r. unfold anthropic_read in *.
    destruct (values_all decode_anthropic_event AnthropicDecoder_default out.*2) as [back d]. cbn [fst snd] in *.
    assert (Hd : (end_tool d).1 = []).
    { destruct Ha as (_ & _ & _ & Ht & _). unfold end_tool. by rewrite Ht. }
    by rewrite Hd, app_nil_r.
Qed.

(** C29. An orderly reply written for an Anthropic client and read back from the
    text is the same reply: its id, text, reasoning and tool calls with their
    arguments come back whole, an unnamed model takes the name the client asked
    for, the stop reason is the same up to one the protocol cannot spell, and of
    the counters the client learns the input told at the start and the output
    told last before the stop, never what was cached. *)
Theorem reply_survives_the_anthropic_stream `{JsonTextLaws} (model : str) (events : list CanonicalEvent) :
  orderly Silent events = true -> Forall event_fits events -> (Z.of_nat (length events) < u64_max)%Z ->
  exists back,
    read_reply (T := AnthropicDecoder) (write_reply (T := AnthropicEncoder) model events) = Ok back /\
    let said := reply_of events in
    let heard := reply_of back in
    ra_id heard = ra_id said /\ ra_model heard = adopt (ra_model said) model /\
    ra_text heard = ra_text said /\ ra_reasoning heard = ra_reasoning said /\
    ra_tool_calls heard = ra_tool_calls said /\ ra_stop heard = crossed <$> ra_stop said /\
    ra_usage heard = told_usage events.
Proof.
  intros Ho Hf Hl. destruct (anthropic_read_written model events Ho Hf Hl) as (back & Hr & Hm & Hu).
  exists back. cbn [mirror] in Hm. destruct_and? Hm. by split_and!.
Qed.

(** ** The block protocol *)

(** A client that follows the stream by the protocol's book: the index of the
    block to come or under way, the kind of the one under way, and whether the
    message has started. *)
Record BlockClient : Type := mkBlockClient {
  bc_index : Z;
  bc_open : option str;
  bc_started : bool
}.
Definition block_kind (value : json) : str := field_or_empty (get_or_null (lit "content_block") value) "type".
Definition delta_kind (value : json) : str := field_or_empty (get_or_null (lit "delta") value) "type".
(** A block starts when none is open, with the next index; it ends, and its
    deltas come, under its own index; text and thinking come in blocks of their
    kind; the message starts once. *)
Definition block_client_step (c : BlockClient) (value : json) : option BlockClient :=
  let type := field_or_empty value "type" in
  let here := bool_decide (uint_field value (lit "index") = Some (bc_index c)) in
  if bool_decide (type = lit "message_start") then
    if bc_started c then None else Some (mkBlockClient (bc_index c) (bc_open c) true)
  else if bool_decide (type = lit "content_block_start") then
    if here && bool_decide (bc_open c = None)
    then Some (mkBlockClient (bc_index c) (Some (block_kind value)) (bc_started c)) else None
  else if bool_decide (type = lit "content_block_stop") then
    if here && negb (bool_decide (bc_open c = None))
    then Some (mkBlockClient (bc_index c + 1) None (bc_started c)) else None
  else if bool_decide (type = lit "content_block_delta") then
    let kind := delta_kind value in
    let fits :=
      if bool_decide (kind = lit "text_delta") then bool_decide (bc_open c = Some (lit "text"))
      else if bool_decide (kind = lit "thinking_delta") then bool_decide (bc_open c = Some (lit "thinking"))
      else true in
    if here && fits then Some c else None
  else Some c.
Fixpoint follow (c : BlockClient) (fs : Written) : option BlockClient :=
  match fs with
  | [] => Some c
  | f :: fs => match block_client_step c f.2 with Some c => follow c fs | None => None end
  end.

Definition open_kind (o : OpenBlock) : str :=
  match o with OpenText => lit "text" | OpenThinking => lit "thinking" | OpenTool => lit "tool_use" end.
(** The client an encoder has in mind. *)
Definition client_of (e : AnthropicEncoder) : BlockClient :=
  mkBlockClient (ae_block_index e) (open_kind <$> ae_open e) (ae_started e).

Lemma follow_app c a b :
  follow c (a ++ b) = match follow c a with Some c => follow c b | None => None end.
Proof.
  revert c. induction a as [|f a IH]; intros c; cbn [app follow]; [done|].
  destruct (block_client_step c f.2); [apply IH|done].
Qed.

(** The four kinds of frame, as the client takes them. *)
Definition delta_fits (open : option str) (delta : json) : bool :=
  let kind := field_or_empty delta "type" in
  if bool_decide (kind = lit "text_delta") then bool_decide (open = Some (lit "text"))
  else if bool_decide (kind = lit "thinking_delta") then bool_decide (open = Some (lit "thinking"))
  else true.
Definition is_here (c : BlockClient) : bool :=
  bool_decide (json_as_u64 (json_u64 (bc_index c)) = Some (bc_index c)).

Lemma follow_start c block :
  block_client_step c
    (named "content_block_start" [(lit "index", json_u64 (bc_index c)); (lit "content_block", block)]).2 =
  if is_here c && bool_decide (bc_open c = None)
  then Some (mkBlockClient (bc_index c) (Some (field_or_empty block "type")) (bc_started c)) else None.
Proof. reflexivity. Qed.
Lemma follow_stop c :
  block_client_step c (named "content_block_stop" [(lit "index", json_u64 (bc_index c))]).2 =
  if is_here c && negb (bool_decide (bc_open c = None))
  then Some (mkBlockClient (bc_index c + 1) None (bc_started c)) else None.
Proof. reflexivity. Qed.
Lemma follow_delta c delta :
  block_client_step c
    (named "content_block_delta" [(lit "index", json_u64 (bc_index c)); (lit "delta", delta)]).2 =
  if is_here c && delta_fits (bc_open c) delta then Some c else None.
Proof. reflexivity. Qed.
Lemma here_index c : in_u64 (bc_index c) -> is_here c = true.
Proof. intros Hi. apply bool_decide_eq_true_2. by apply as_u64_of_u64. Qed.

Lemma follow_close e :
  in_u64 (ae_block_index e) -> follow (client_of e) (close_block e).1 = Some (client_of (close_block e).2).
Proof.
  intros Hi. unfold close_block. destruct (ae_open e) as [o|] eqn:E; [|done]. cbn [fst snd follow].
  change (ae_block_index e) with (bc_index (client_of e)) at 1. rewrite follow_stop, here_index by done.
  unfold client_of. by rewrite E.
Qed.
Lemma follow_open block kind e :
  in_u64 (ae_block_index e) -> in_u64 (ae_block_index e + 1) -> field_or_empty block "type" = open_kind kind ->
  follow (client_of e) (open_block block kind e).1 = Some (client_of (open_block block kind e).2).
Proof.
  intros H1 H2 Hk. unfold open_block. pose proof (follow_close e H1) as Hc. pose proof (close_index e) as Hi.
  assert (Ho : ae_open (close_block e).2 = None) by (unfold close_block; by destruct (ae_open e) eqn:E).
  destruct (close_block e) as [out e']. cbn [fst snd] in *. rewrite follow_app, Hc. cbn [follow].
  change (ae_block_index e') with (bc_index (client_of e')). rewrite follow_start, here_index.
  - unfold client_of, with_open. cbn. by rewrite Ho, Hk.
  - cbn [client_of bc_index]. rewrite Hi. destruct (ae_open e); [done|]. by rewrite Z.add_0_r.
Qed.
Lemma follow_deltas delta e :
  in_u64 (ae_block_index e) -> delta_fits (open_kind <$> ae_open e) delta = true ->
  follow (client_of e) (block_delta delta e) = Some (client_of e).
Proof.
  intros Hi Hf. unfold block_delta. cbn [follow]. change (ae_block_index e) with (bc_index (client_of e)).
  rewrite follow_delta, here_index by done. cbn [client_of bc_open]. by rewrite Hf.
Qed.
Lemma follow_delta_in kind block delta e :
  in_u64 (ae_block_index e) -> in_u64 (ae_block_index e + 1) ->
  field_or_empty block "type" = open_kind kind -> delta_fits (Some (open_kind kind)) delta = true ->
  follow (client_of e) (delta_in kind block delta e).1 = Some (client_of (delta_in kind block delta e).2).
Proof.
  intros H1 H2 Hk Hd. unfold delta_in. case_bool_decide as Ho.
  - cbn [app fst snd]. apply follow_deltas; [done|]. by rewrite Ho.
  - pose proof (follow_open block kind e H1 H2 Hk) as Hf. pose proof (open_state block kind e) as Hs.
    destruct (open_block block kind e) as [out e']. cbn [fst snd] in *. rewrite follow_app, Hf.
    subst e'. apply follow_deltas; [|done]. cbn. destruct (ae_open e); [done|]. by rewrite Z.add_0_r.
Qed.

Lemma step_index e event :
  (ae_block_index e <= ae_block_index (anthropic_frames e event).2 <= ae_block_index e + 1)%Z.
Proof.
  assert (Ho : forall block kind, (ae_block_index e <= ae_block_index (open_block block kind e).2 <= ae_block_index e + 1)%Z).
  { intros block kind. rewrite open_state. cbn. destruct (ae_open e); lia. }
  assert (Hd : forall kind block delta,
    (ae_block_index e <= ae_block_index (delta_in kind block delta e).2 <= ae_block_index e + 1)%Z).
  { intros kind block delta. unfold delta_in. specialize (Ho block kind). case_bool_decide; [cbn; lia|].
    destruct (open_block block kind e). done. }
  pose proof (close_index e) as Hc. destruct event; cbn [anthropic_frames];
    try apply Ho; try apply Hd; try (cbn; lia).
  - cbn. destruct (ae_started e); cbn; lia.
  - rewrite Hc. destruct (ae_open e); lia.
  - destruct (close_block e) as [out e']. cbn in *. rewrite Hc. destruct (ae_open e); lia.
Qed.

(** A step of the encoder keeps the client it has in mind. *)
Lemma follow_step e event :
  in_u64 (ae_block_index e) -> in_u64 (ae_block_index e + 1) ->
  follow (client_of e) (anthropic_frames e event).1 = Some (client_of (anthropic_frames e event).2).
Proof.
  intros H1 H2. destruct event; cbn [anthropic_frames].
  - cbn [ae_started]. destruct (ae_started e) eqn:E; [unfold client_of; cbn; by rewrite E|].
    cbn [fst snd follow].
    transitivity (if ae_started e then None else Some (mkBlockClient (ae_block_index e) (open_kind <$> ae_open e) true));
      [|by rewrite E].
    unfold client_of at 1. by destruct (ae_started e).
  - by apply follow_delta_in.
  - by apply follow_open.
  - by apply follow_delta_in.
  - cbn [fst snd]. by apply follow_deltas.
  - by apply follow_open.
  - cbn [fst snd]. by apply follow_deltas.
  - by apply follow_close.
  - done.
  - pose proof (follow_close e H1) as Hc. destruct (close_block e) as [out e']. cbn [fst snd] in *.
    by rewrite follow_app, Hc.
  - done.
Qed.

Lemma follow_all events e :
  (0 <= ae_block_index e)%Z -> (ae_block_index e + Z.of_nat (length events) < u64_max)%Z ->
  let sent := frames_all anthropic_frames e events in
  follow (client_of e) sent.1 = Some (client_of sent.2) /\ in_u64 (ae_block_index sent.2).
Proof.
  revert e. induction events as [|event events IH]; intros e H0 Hl; cbn [frames_all length fst snd] in *;
    [split; [done|int_lia]|].
  pose proof (follow_step e event ltac:(int_lia) ltac:(int_lia)) as Hf.
  assert (Hr : (ae_block_index e <= ae_block_index (anthropic_frames e event).2 <= ae_block_index e + 1)%Z)
    by apply step_index.
  destruct (anthropic_frames e event) as [out e']. cbn [fst snd] in *.
  destruct (IH e' ltac:(lia) ltac:(lia)) as [IH1 IH2]. destruct (frames_all anthropic_frames e' events) as [more e''].
  cbn [fst snd] in *. by rewrite follow_app, Hf.
Qed.

(** Whatever the upstream says, in whatever order, the client is sent blocks
    that open one at a time, are numbered from zero without a gap, close under
    their own number, and hold text or thinking of their own kind only; the
    message starts once; and when no stop closed the reply, its end leaves no
    block open. *)
Theorem anthropic_blocks_are_bracketed (model : str) (events : list CanonicalEvent) :
  (Z.of_nat (length events) < u64_max)%Z ->
  let sent := frames_all anthropic_frames (AnthropicEncoder_new model) events in
  let '(last, e) := anthropic_end_frames sent.2 in
  follow (mkBlockClient 0 None false) (sent.1 ++ last) = Some (client_of e) /\
  (ae_terminal_emitted sent.2 = false -> ae_open e = None).
Proof.
  intros Hl. destruct (follow_all events (AnthropicEncoder_new model)) as [Hf Hi]; [done|done|].
  destruct (frames_all anthropic_frames (AnthropicEncoder_new model) events) as [out e]. cbn [fst snd] in *.
  unfold anthropic_end_frames. pose proof (follow_close e Hi) as Hc.
  assert (Ho : ae_open (close_block e).2 = None) by (unfold close_block; by destruct (ae_open e) eqn:E).
  change (mkBlockClient 0 None false) with (client_of (AnthropicEncoder_new model)).
  destruct (ae_terminal_emitted e) eqn:Et.
  - rewrite Et. destruct (ae_started e); cbn [negb]; by rewrite app_nil_r.
  - destruct (close_block e) as [last e']. cbn [fst snd] in *.
    destruct (ae_started e') eqn:Es, (ae_terminal_emitted e'); cbn [negb];
      rewrite ?app_assoc, ?follow_app, ?Hf, ?Hc; try done.
    split; [|done]. unfold client_of. cbn [ae_started]. rewrite <- Es. reflexivity.
Qed.
