(* ===== verification/ChatStream.v ===== *)
(** The Chat Completions stream in both directions (ChatDecoder and
    ChatEncoder of crates/model-gateway/src/wire/chat.rs), and what is left of
    a reply written by one and read by the other. *)
From stdpp Require Import prelude strings list.
From Stdlib Require Import NArith ZArith Lia.
From S2P Require Import Prelude CoreTypes GatewayTypes GatewayErrors Ir Json Sse Wire.

(** [usage_from]. *)
Definition chat_usage_from (v : json) : CanonicalUsage :=
  mkUsage (default 0%Z (uint_field v (lit "prompt_tokens")))
          (default 0%Z (uint_field v (lit "completion_tokens")))
          (default 0%Z (u64_of (json_pointer [lit "prompt_tokens_details"; lit "cached_tokens"] v)))
          0
          (default 0%Z (u64_of (json_pointer [lit "completion_tokens_details"; lit "reasoning_tokens"] v))).

(** ** Decoder *)

Record ChatDecoder : Type := mkChatDecoder {
  cd_tool : ToolCallAccumulator;
  cd_tool_index : option Z;
  cd_usage : CanonicalUsage;
  cd_started : bool;
  cd_model : str;
  cd_id : str;
  cd_finished : bool
}.
Definition ChatDecoder_default : ChatDecoder :=
  mkChatDecoder ToolCallAccumulator_default None CanonicalUsage_default false [] [] false.

Definition chat_tool (d : ChatDecoder) (t : ToolCallAccumulator) (index : option Z) : ChatDecoder :=
  mkChatDecoder t index (cd_usage d) (cd_started d) (cd_model d) (cd_id d) (cd_finished d).
Definition chat_finished (d : ChatDecoder) : ChatDecoder :=
  mkChatDecoder (cd_tool d) (cd_tool_index d) (cd_usage d) (cd_started d) (cd_model d) (cd_id d) true.

(** The call under way ends and is taken. *)
Definition chat_end_tool `{JsonText} (d : ChatDecoder) : list CanonicalEvent * ChatDecoder :=
  if tool_is_empty (cd_tool d) then ([], d)
  else ([ToolCallEnd (ta_id (cd_tool d)) (tool_arguments (cd_tool d))],
        chat_tool d ToolCallAccumulator_default (cd_tool_index d)).

(** [string_field(v, key)] when it is there and not empty. *)
Definition non_empty_field (v : json) (key : string) : option str :=
  match string_field v (lit key) with Some ((_ :: _) as s) => Some s | _ => None end.

(** One entry of [delta.tool_calls]: a change of index is a new call. *)
Definition decode_call `{JsonText} (d : ChatDecoder) (call : json) : list CanonicalEvent * ChatDecoder :=
  let index := uint_field call (lit "index") in
  let function := get_or_null (lit "function") call in
  let starts_new := bool_decide (is_Some index) && negb (bool_decide (index = cd_tool_index d)) in
  let '(events, d) :=
    if starts_new then
      let '(ended, d) := chat_end_tool d in
      let id := default [] (string_field call (lit "id")) in
      let name := default [] (string_field function (lit "name")) in
      (ended ++ [ToolCallStart id name], chat_tool d (tool_start id name (cd_tool d)) index)
    else
      let tool := match string_field call (lit "id") with
                  | Some id => tool_start id [] (cd_tool d)
                  | None => cd_tool d
                  end in
      let tool := match string_field function (lit "name") with
                  | Some name => tool_start [] name tool
                  | None => tool
                  end in
      ([], chat_tool d tool (cd_tool_index d)) in
  match non_empty_field function "arguments" with
  | Some arguments =>
      let d := chat_tool d (push_arguments arguments (cd_tool d)) (cd_tool_index d) in
      (events ++ [ToolCallArgumentsDelta (ta_id (cd_tool d)) arguments], d)
  | None => (events, d)
  end.

(** One entry of [choices]. *)
Definition decode_choice `{JsonText} (d : ChatDecoder) (choice : json) : list CanonicalEvent * ChatDecoder :=
  let delta := get_or_null (lit "delta") choice in
  let said :=
    (if non_empty_field delta "reasoning_content" is Some text then [ReasoningDelta text] else [])
    ++ (if non_empty_field delta "content" is Some text then [TextDelta text] else []) in
  let '(calls, d) := values_all decode_call d (default [] (array_of (json_get (lit "tool_calls") delta))) in
  let '(stop, d) :=
    match string_field choice (lit "finish_reason") with
    | Some reason =>
        if cd_finished d then ([], d)
        else
          let '(ended, d) := chat_end_tool d in
          (ended ++ [StopEvent (StopReason_from_chat reason)], chat_finished d)
    | None => ([], d)
    end in
  (said ++ calls ++ stop, d).

Definition decode_chat_value `{JsonText} (d : ChatDecoder) (value : json) : list CanonicalEvent * ChatDecoder :=
  let id := default (cd_id d) (string_field value (lit "id")) in
  let model := default (cd_model d) (string_field value (lit "model")) in
  let '(told, usage) :=
    match get_non_null (lit "usage") value with
    | Some u => let usage := CanonicalUsage_merge (cd_usage d) (chat_usage_from u) in ([UsageEvent usage], usage)
    | None => ([], cd_usage d)
    end in
  let start := if cd_started d then [] else [Start id model CanonicalUsage_default] in
  let d := mkChatDecoder (cd_tool d) (cd_tool_index d) usage true model id (cd_finished d) in
  match array_of (json_get (lit "choices") value) with
  | None => (start ++ told, d)
  | Some choices =>
      let '(events, d) := values_all decode_choice d choices in
      (start ++ told ++ events, d)
  end.

Definition chat_decode_end `{JsonText} (d : ChatDecoder) : list CanonicalEvent * ChatDecoder :=
  let '(events, d) := chat_end_tool d in
  if cd_finished d then (events, d)
  else (events ++ [StopEvent (if is_empty events then EndTurn else ToolUse)], chat_finished d).

Definition DONE : str := lit "[DONE]".
#[export] Instance chat_decoder `{JsonText} : StreamDecoder ChatDecoder := {
  sd_new := ChatDecoder_default;
  sd_decode d data :=
    if bool_decide (trim data = DONE) then (Ok [], d)
    else match json_from_str data with
         | Some value => let '(events, d) := decode_chat_value d value in (Ok events, d)
         | None => (Err (GatewayErrors.Upstream 502 (lit "the upstream sent a Chat event that is not JSON")), d)
         end;
  sd_finish d := let '(events, d) := chat_decode_end d in (Ok events, d)
}.

(** ** Encoder *)

Record ChatEncoder : Type := mkChatEncoder {
  ce_model : str;
  ce_id : str;
  ce_role_sent : bool;
  ce_usage : CanonicalUsage
}.
Definition ChatEncoder_new (model : str) : ChatEncoder := mkChatEncoder model [] false CanonicalUsage_default.

Definition chat_chunk (e : ChatEncoder) (delta : json) (finish : option str) : Written :=
  [(None, JObject
     [(lit "id", JString (ce_id e)); (lit "object", JString (lit "chat.completion.chunk"));
      (lit "model", JString (ce_model e));
      (lit "choices", JArray [JObject
         [(lit "index", json_u64 0); (lit "delta", delta);
          (lit "finish_reason", match finish with Some reason => JString reason | None => JNull end)]])])].
Definition chat_call (fields : list (str * json)) : json :=
  JObject [(lit "tool_calls", JArray [JObject ((lit "index", json_u64 0) :: fields)])].

Definition chat_frames (e : ChatEncoder) (event : CanonicalEvent) : Written * ChatEncoder :=
  match event with
  | Start id model _ =>
      let e := mkChatEncoder (adopt model (ce_model e)) id true (ce_usage e) in
      (chat_chunk e (JObject [(lit "role", JString (lit "assistant")); (lit "content", JString [])]) None, e)
  | TextDelta text => (chat_chunk e (JObject [(lit "content", JString text)]) None, e)
  | ReasoningStart => ([], e)
  | ReasoningDelta text => (chat_chunk e (JObject [(lit "reasoning_content", JString text)]) None, e)
  | ReasoningSignature _ => ([], e)
  | ToolCallStart id name =>
      (chat_chunk e (chat_call
         [(lit "id", JString id); (lit "type", JString (lit "function"));
          (lit "function", JObject [(lit "name", JString name); (lit "arguments", JString [])])]) None, e)
  | ToolCallArgumentsDelta _ fragment =>
      (chat_chunk e (chat_call [(lit "function", JObject [(lit "arguments", JString fragment)])]) None, e)
  | ToolCallEnd _ _ => ([], e)
  | UsageEvent usage =>
      let e := mkChatEncoder (ce_model e) (ce_id e) (ce_role_sent e) usage in
      if negb (ce_role_sent e) then ([], e)
      else ([(None, JObject
               [(lit "id", JString (ce_id e)); (lit "object", JString (lit "chat.completion.chunk"));
                (lit "model", JString (ce_model e)); (lit "choices", JArray []);
                (lit "usage", JObject
                   [(lit "prompt_tokens", json_u64 (us_input_tokens usage));
                    (lit "completion_tokens", json_u64 (us_output_tokens usage));
                    (lit "total_tokens",
                     json_u64 (u64_saturating_add (us_input_tokens usage) (us_output_tokens usage)))])])], e)
  | StopEvent reason => (chat_chunk e (JObject []) (Some (StopReason_chat reason)), e)
  | ErrorEvent _ message =>
      ([(None, JObject [(lit "error", JObject [(lit "message", JString message);
                                               (lit "type", JString (lit "upstream_error"))])])], e)
  end.
Definition DONE_FRAME : str := lit "data: [DONE]" ++ [LF; LF].

#[export] Instance chat_encoder `{JsonText} : StreamEncoder ChatEncoder := {
  se_new := ChatEncoder_new;
  se_encode e event := let '(out, e) := chat_frames e event in (Ok (written out), e);
  se_finish e := (Ok DONE_FRAME, e);
  se_keepalive := Some (lit ": keepalive" ++ [LF; LF])
}.

(** * Lemmas *)

(** ** What a Chat client can tell apart *)

(** All calls of a reply are sent under one index: a client that tells calls
    apart by index has one call, of the last id, the first name and all the
    arguments.  The triple is its id, name and arguments so far. *)
Definition merge_call (m : option (str * str * str)) (event : CanonicalEvent) : option (str * str * str) :=
  match event, m with
  | ToolCallStart id name, None => Some (id, name, [])
  | ToolCallStart id name, Some (i, n, f) => Some (adopt id i, n, f)
  | ToolCallArgumentsDelta _ fragment, Some (i, n, f) => Some (i, n, f ++ fragment)
  | _, m => m
  end.
Definition merged_call `{JsonText} (m : option (str * str * str)) : list AccumulatedToolCall :=
  match m with
  | Some (i, n, f) => [mkCall i n (if is_empty (trim f) then json_to_string (JObject []) else f)]
  | None => []
  end.
Definition chat_told (u : CanonicalUsage) (event : CanonicalEvent) : CanonicalUsage :=
  match event with
  | UsageEvent u' => CanonicalUsage_merge u (mkUsage (us_input_tokens u') (us_output_tokens u') 0 0 0)
  | _ => u
  end.
(** A stop reason through Chat's spelling and back. *)
Definition chat_crossed (s : StopReason) : StopReason :=
  match s with StopSequence | OtherStop => EndTurn | _ => s end.

Definition chat_agree (stage : Stage) (m : option (str * str * str)) (e : ChatEncoder) (d : ChatDecoder) : Prop :=
  match stage with
  | Silent => m = None /\ ce_role_sent e = false /\ d = ChatDecoder_default
  | Over => ce_role_sent e = true /\ cd_started d = true /\ cd_finished d = true /\
      cd_tool d = ToolCallAccumulator_default
  | _ => ce_role_sent e = true /\ cd_started d = true /\ cd_finished d = false /\
      match m with
      | None => cd_tool d = ToolCallAccumulator_default /\ cd_tool_index d = None
      | Some (i, n, f) => exists name, cd_tool d = mkToolAcc i name f /\ is_empty i && is_empty name = false /\
          cd_tool_index d = Some 0%Z
      end /\
      match stage with InTool _ _ => m <> None | _ => True end
  end.

Definition chat_mirror `{JsonText} (model : str) (stage : Stage) (m : option (str * str * str))
    (r r' : ReplyAccumulator) : Prop :=
  match stage with
  | Silent => r = ReplyAccumulator_default /\ r' = ReplyAccumulator_default
  | _ =>
      ra_id r' = ra_id r /\ ra_model r' = adopt (ra_model r) model /\ ra_text r' = ra_text r /\
      ra_reasoning r' = ra_reasoning r /\ ra_stop r' = chat_crossed <$> ra_stop r /\
      match stage with
      | Over => ra_tool_calls r' = merged_call m
      | _ => ra_tool_calls r' = [] /\
          match m with
          | Some (i, n, f) => exists i0, ra_current_tool r' = Some (mkCall i0 n f) /\ (i = [] -> i0 = [])
          | None => ra_current_tool r' = None
          end
      end
  end.

Section reads.
Context `{JsonText}.

Definition chat_read (d : ChatDecoder) (fs : Written) : list CanonicalEvent * ChatDecoder :=
  values_all decode_chat_value d fs.*2.

(** The decoder once a chunk of [e] has named the reply. *)
Definition named_by (e : ChatEncoder) (d : ChatDecoder) : ChatDecoder :=
  mkChatDecoder (cd_tool d) (cd_tool_index d) (cd_usage d) true (ce_model e) (ce_id e) (cd_finished d).

Definition choice (delta : json) (finish : option str) : json :=
  JObject [(lit "index", json_u64 0); (lit "delta", delta);
           (lit "finish_reason", match finish with Some reason => JString reason | None => JNull end)].

(** A chunk is read as its one choice. *)
Lemma read_chunk d e delta finish events d1 :
  cd_started d = true -> decode_choice (named_by e d) (choice delta finish) = (events, d1) ->
  chat_read d (chat_chunk e delta finish) = (events, d1).
Proof.
  intros Hs Hc. unfold chat_read, chat_chunk. cbn [fmap list_fmap values_all snd].
  transitivity (let '(out, d2) :=
      (let '(events, d0) := values_all decode_choice (named_by e d) [choice delta finish] in
       ((if cd_started d then [] else [Start (ce_id e) (ce_model e) CanonicalUsage_default]) ++ [] ++ events, d0)) in
    (out ++ [], d2)).
  - reflexivity.
  - cbn [values_all]. by rewrite Hc, Hs, !app_nil_r.
Qed.

Lemma choice_said d delta :
  get_or_null (lit "tool_calls") delta = JNull ->
  decode_choice d (choice delta None) =
  ((if non_empty_field delta "reasoning_content" is Some text then [ReasoningDelta text] else [])
   ++ (if non_empty_field delta "content" is Some text then [TextDelta text] else []), d).
Proof.
  intros Hn. transitivity
    (let '(calls, d0) := values_all decode_call d (default [] (array_of (json_get (lit "tool_calls") delta))) in
     (((if non_empty_field delta "reasoning_content" is Some text then [ReasoningDelta text] else [])
       ++ (if non_empty_field delta "content" is Some text then [TextDelta text] else [])) ++ calls ++ [], d0)).
  - reflexivity.
  - unfold get_or_null in Hn. destruct (json_get (lit "tool_calls") delta) as [v|]; cbn in Hn; subst;
      cbn [array_of json_as_array default from_option values_all app]; by rewrite app_nil_r.
Qed.
Lemma choice_call d fields events d1 :
  decode_call d (JObject ((lit "index", json_u64 0) :: fields)) = (events, d1) ->
  decode_choice d (choice (chat_call fields) None) = (events, d1).
Proof.
  intros Hc. transitivity
    (let '(calls, d0) := values_all decode_call d [JObject ((lit "index", json_u64 0) :: fields)] in
     ([] ++ calls ++ [], d0)).
  - reflexivity.
  - cbn [values_all]. by rewrite Hc, !app_nil_r.
Qed.
Lemma choice_stop d reason :
  cd_finished d = false ->
  decode_choice d (choice (JObject []) (Some (StopReason_chat reason))) =
  (let '(ended, d) := chat_end_tool d in (ended ++ [StopEvent (chat_crossed reason)], chat_finished d)).
Proof.
  intros Hf. transitivity
    (let '(stop, d0) := if cd_finished d then ([], d)
       else (let '(ended, d) := chat_end_tool d in
             (ended ++ [StopEvent (StopReason_from_chat (StopReason_chat reason))], chat_finished d)) in
     ([] ++ [] ++ stop, d0)).
  - reflexivity.
  - rewrite Hf. destruct (chat_end_tool d). by destruct reason.
Qed.

(** The two shapes of a call's entry. *)
Lemma call_start d id name :
  decode_call d (JObject [(lit "index", json_u64 0); (lit "id", JString id); (lit "type", JString (lit "function"));
    (lit "function", JObject [(lit "name", JString name); (lit "arguments", JString [])])]) =
  if bool_decide (Some 0%Z = cd_tool_index d)
  then ([], chat_tool d (tool_start [] name (tool_start id [] (cd_tool d))) (cd_tool_index d))
  else (let '(ended, d) := chat_end_tool d in
        (ended ++ [ToolCallStart id name], chat_tool d (tool_start id name (cd_tool d)) (Some 0%Z))).
Proof.
  transitivity
    (let '(events, d) :=
       if negb (bool_decide (Some 0%Z = cd_tool_index d)) then
         let '(ended, d) := chat_end_tool d in
         (ended ++ [ToolCallStart id name], chat_tool d (tool_start id name (cd_tool d)) (Some 0%Z))
       else ([], chat_tool d (tool_start [] name (tool_start id [] (cd_tool d))) (cd_tool_index d)) in
     (events, d)).
  - reflexivity.
  - case_bool_decide; cbn [negb]; [done|]. by destruct (chat_end_tool d).
Qed.
Lemma call_delta d fragment :
  cd_tool_index d = Some 0%Z ->
  decode_call d (JObject [(lit "index", json_u64 0); (lit "function", JObject [(lit "arguments", JString fragment)])]) =
  (if is_empty fragment then [] else [ToolCallArgumentsDelta (ta_id (cd_tool d)) fragment],
   chat_tool d (push_arguments fragment (cd_tool d)) (Some 0%Z)).
Proof.
  intros Hi. unfold decode_call. cbv zeta.
  set (call := JObject _). change (uint_field call (lit "index")) with (Some 0%Z).
  rewrite Hi, (bool_decide_eq_true_2 (is_Some (Some 0%Z))), (bool_decide_eq_true_2 (Some 0%Z = Some 0%Z)) by done.
  cbn [andb negb]. change (string_field call (lit "id")) with (@None str).
  change (string_field (get_or_null (lit "function") call) (lit "name")) with (@None str).
  change (non_empty_field (get_or_null (lit "function") call) "arguments")
    with (match fragment with (_ :: _) as s => Some s | [] => None end).
  destruct fragment; cbn [is_empty]; [|reflexivity].
  destruct d as [[id name f] index usage started model did fin]. unfold push_arguments. cbn. by rewrite app_nil_r.
Qed.

Lemma choice_said_text d text :
  decode_choice d (choice (JObject [(lit "content", JString text)]) None) =
  (if is_empty text then [] else [TextDelta text], d).
Proof. rewrite choice_said by done. by destruct text. Qed.
Lemma choice_said_reasoning d text :
  decode_choice d (choice (JObject [(lit "reasoning_content", JString text)]) None) =
  (if is_empty text then [] else [ReasoningDelta text], d).
Proof. rewrite choice_said by done. by destruct text. Qed.

(** The first chunk of a reply. *)
Lemma read_start e :
  chat_read ChatDecoder_default
    (chat_chunk e (JObject [(lit "role", JString (lit "assistant")); (lit "content", JString [])]) None) =
  ([Start (ce_id e) (ce_model e) CanonicalUsage_default], named_by e ChatDecoder_default).
Proof. reflexivity. Qed.

Lemma read_usage d e usage :
  cd_started d = true -> in_u64 (us_input_tokens usage) -> in_u64 (us_output_tokens usage) ->
  chat_read d
    [(None, JObject
       [(lit "id", JString (ce_id e)); (lit "object", JString (lit "chat.completion.chunk"));
        (lit "model", JString (ce_model e)); (lit "choices", JArray []);
        (lit "usage", JObject
           [(lit "prompt_tokens", json_u64 (us_input_tokens usage));
            (lit "completion_tokens", json_u64 (us_output_tokens usage));
            (lit "total_tokens",
             json_u64 (u64_saturating_add (us_input_tokens usage) (us_output_tokens usage)))])])] =
  (let u := CanonicalUsage_merge (cd_usage d) (mkUsage (us_input_tokens usage) (us_output_tokens usage) 0 0 0) in
   ([UsageEvent u],
    mkChatDecoder (cd_tool d) (cd_tool_index d) u true (ce_model e) (ce_id e) (cd_finished d))).
Proof.
  intros Hs H1 H2. unfold chat_read. cbn [fmap list_fmap values_all snd].
  transitivity
   (let u := CanonicalUsage_merge (cd_usage d)
      (mkUsage (default 0%Z (json_as_u64 (json_u64 (us_input_tokens usage))))
               (default 0%Z (json_as_u64 (json_u64 (us_output_tokens usage)))) 0 0 0) in
    (((if cd_started d then [] else [Start (ce_id e) (ce_model e) CanonicalUsage_default]) ++ [UsageEvent u] ++ []) ++ [],
     mkChatDecoder (cd_tool d) (cd_tool_index d) u true (ce_model e) (ce_id e) (cd_finished d))).
  - reflexivity.
  - by rewrite !as_u64_of_u64, Hs by done.
Qed.
Lemma read_chat_error d m :
  cd_started d = true ->
  chat_read d [(None, JObject [(lit "error", JObject [(lit "message", JString m);
                                                     (lit "type", JString (lit "upstream_error"))])])] = ([], d).
Proof. destruct d. cbn. by intros ->. Qed.

(** ** Good frames *)

Lemma chunk_ok e delta finish : json_plain delta -> Forall frame_ok (chat_chunk e delta finish).
Proof.
  intros Hd. apply Forall_singleton. split; [|done]. cbn [snd]. destruct finish; json_plain; done || int_lia.
Qed.
Lemma chat_frames_ok e event : event_fits event -> Forall frame_ok (chat_frames e event).1.
Proof.
  assert (H0 : in_u64 0) by int_lia.
  intros Hf. destruct event; cbn [chat_frames fst]; try apply chunk_ok; unfold chat_call;
    try (json_plain; done); try apply List.Forall_nil.
  - destruct Hf as (H1 & H2 & _). cbn [ce_role_sent]. destruct (ce_role_sent e); cbn [negb fst]; [|constructor].
    apply Forall_singleton. split; [|done]. cbn [snd]. json_plain; [done..|]. by apply u64_saturating_add_range.
  - apply Forall_singleton. split; [|done]. cbn [snd]. json_plain.
Qed.
Lemma chat_all_ok events e : Forall event_fits events -> Forall frame_ok (frames_all chat_frames e events).1.
Proof.
  intros Hf. revert e. induction Hf as [|event events Hf _ IH]; intros e; cbn [frames_all]; [constructor|].
  pose proof (chat_frames_ok e event Hf) as Ho. destruct (chat_frames e event) as [out e'].
  specialize (IH e'). destruct (frames_all chat_frames e' events) as [more e'']. by apply Forall_app.
Qed.

(** ** Step by step *)

(** One event sent and read back. *)
Definition chat_step_agrees (stage stage' : Stage) (m : option (str * str * str)) (e : ChatEncoder)
    (d : ChatDecoder) (event : CanonicalEvent) : Prop :=
  let '(fs, e') := chat_frames e event in
  let '(back, d') := chat_read d fs in
  let m' := merge_call m event in
  chat_agree stage' m' e' d' /\
  (forall model r r', (stage = Silent -> ce_model e = model) ->
     chat_mirror model stage m r r' ->
     chat_mirror model stage' m' (reply_apply r event) (foldl reply_apply r' back)) /\
  (forall r', ra_usage r' = cd_usage d -> ra_usage (foldl reply_apply r' back) = cd_usage d') /\
  cd_usage d' = chat_told (cd_usage d) event.

Lemma silence_agrees stage m e d event :
  chat_agree stage m e d -> stage <> Silent ->
  match event with ReasoningStart | ReasoningSignature _ | ErrorEvent _ _ => True | _ => False end ->
  chat_step_agrees stage stage m e d event.
Proof.
  intros Ha Hs He.
  assert (Hd : cd_started d = true) by (destruct stage; [done|apply Ha..]).
  unfold chat_step_agrees. destruct event; try done; cbn [chat_frames]; rewrite ?read_chat_error by done;
    split_and!; by destruct stage.
Qed.

Lemma usage_agrees stage m e d usage :
  chat_agree stage m e d -> stage <> Silent -> usage_fits usage ->
  chat_step_agrees stage stage m e d (UsageEvent usage).
Proof.
  intros Ha Hs (H1 & H2 & _). unfold chat_step_agrees. cbn [chat_frames ce_role_sent].
  assert (Hr : ce_role_sent e = true /\ cd_started d = true) by (destruct stage; [done|split; apply Ha..]).
  destruct Hr as [-> Hd]. cbn [negb].
  change (ce_id _) with (ce_id (mkChatEncoder (ce_model e) (ce_id e) true usage)).
  rewrite read_usage by done. cbn [merge_call]. split_and!.
  - destruct stage; [done|..]; unfold chat_agree in Ha |- *; destruct_and? Ha; by split_and?.
  - intros model r r' _ Hm. by destruct stage.
  - intros r' Hr. cbn. rewrite Hr. apply merge_absorb, merge_le_l.
  - done.
Qed.

Lemma chat_start_agrees m e d id model usage :
  chat_agree Silent m e d -> chat_step_agrees Silent Between m e d (Start id model usage).
Proof.
  intros (-> & Hr & ->). unfold chat_step_agrees. cbn [chat_frames]. rewrite read_start.
  split_and!; try done.
  - intros m r r' Hm [-> ->]. cbn. rewrite Hm by done. split_and!; try done.
    by rewrite !adopt_nil_r.
  - intros r' Hr'. cbn. by rewrite Hr'.
Qed.

(** A said text grows both replies alike; an empty one neither. *)
Lemma text_read_agrees m e d text :
  chat_agree Between m e d -> chat_step_agrees Between Between m e d (TextDelta text).
Proof.
  intros Ha. pose proof Ha as (H1 & H2 & H3 & H4 & _). unfold chat_step_agrees. cbn [chat_frames].
  rewrite (read_chunk d e _ None _ _ H2 (choice_said_text _ text)). cbn [merge_call].
  split_and!; [done| |by destruct text|done].
  intros mo r r' _ (M1 & M2 & M3 & M4 & M5 & M6 & M7).
  destruct text; cbn; rewrite ?app_nil_r; split_and!; try done; by rewrite M3.
Qed.
Lemma reasoning_read_agrees m e d text :
  chat_agree Between m e d -> chat_step_agrees Between Between m e d (ReasoningDelta text).
Proof.
  intros Ha. pose proof Ha as (H1 & H2 & H3 & H4 & _). unfold chat_step_agrees. cbn [chat_frames].
  rewrite (read_chunk d e _ None _ _ H2 (choice_said_reasoning _ text)). cbn [merge_call].
  split_and!; [done| |by destruct text|done].
  intros mo r r' _ (M1 & M2 & M3 & M4 & M5 & M6 & M7).
  destruct text; cbn; rewrite ?app_nil_r; split_and!; try done; by rewrite M4.
Qed.

(** A call starts anew the first time, and continues the one call after that. *)
Lemma call_start_agrees m e d id name :
  chat_agree Between m e d -> is_empty id && is_empty name = false ->
  chat_step_agrees Between (InTool id []) m e d (ToolCallStart id name).
Proof.
  intros (H1 & H2 & H3 & H4 & _) Hn. unfold chat_step_agrees. cbn [chat_frames].
  destruct m as [[[i n] f]|].
  - destruct H4 as (name' & Ht & Hn' & Hi). erewrite read_chunk; [|done|].
    2:{ apply choice_call. rewrite call_start. cbn [named_by cd_tool_index]. rewrite Hi.
        rewrite bool_decide_eq_true_2 by done. reflexivity. }
    cbn [named_by chat_tool cd_tool cd_tool_index cd_usage merge_call foldl]. rewrite Ht.
    split_and!; try done.
    + cbn. split_and!; try done. exists (adopt name name'). split_and!; [done| |done]. destruct id, i, name, name'; done.
    + intros mo r r' _ (M1 & M2 & M3 & M4 & M5 & M6 & i0 & M7 & M8). split_and!; try done.
      exists i0. split; [done|]. destruct id; [done|by intros [=]].
  - destruct H4 as [Ht Hi]. erewrite read_chunk; [|done|].
    2:{ apply choice_call. rewrite call_start. cbn [named_by cd_tool_index]. rewrite Hi.
        rewrite bool_decide_eq_false_2 by done. unfold chat_end_tool. cbn [named_by cd_tool]. rewrite Ht. reflexivity. }
    cbn [app named_by chat_tool cd_tool cd_tool_index cd_usage merge_call]. rewrite Ht. split_and!; try done.
    + cbn. split_and!; try done. exists name. unfold tool_start. cbn. rewrite !adopt_nil_r. by split_and!.
    + intros mo r r' _ (M1 & M2 & M3 & M4 & M5 & M6 & M7). cbn. split_and!; try done. by exists id.
Qed.
Lemma call_delta_agrees m e d id fragments id' fragment :
  chat_agree (InTool id fragments) m e d ->
  chat_step_agrees (InTool id fragments) (InTool id (fragments ++ fragment)) m e d (ToolCallArgumentsDelta id' fragment).
Proof.
  intros (H1 & H2 & H3 & H4 & H5). unfold chat_step_agrees. cbn [chat_frames].
  destruct m as [[[i n] f]|]; [|done]. destruct H4 as (name' & Ht & Hn' & Hi). erewrite read_chunk; [|done|].
  2:{ apply choice_call. rewrite call_delta by done. cbn [named_by cd_tool]. rewrite Ht. reflexivity. }
  cbn [named_by chat_tool cd_tool cd_tool_index cd_usage merge_call push_arguments ta_id ta_name ta_fragments].
  split_and!; try done.
  - cbn. split_and!; try done. by exists name'.
  - intros mo r r' _ (M1 & M2 & M3 & M4 & M5 & M6 & i0 & M7 & M8).
    destruct fragment; cbn; rewrite ?app_nil_r, ?M7; split_and!; try done; by exists i0.
  - by destruct fragment.
Qed.
Lemma call_end_agrees m e d id fragments id' arguments :
  chat_agree (InTool id fragments) m e d ->
  chat_step_agrees (InTool id fragments) Between m e d (ToolCallEnd id' arguments).
Proof.
  intros (H1 & H2 & H3 & H4 & H5). unfold chat_step_agrees. cbn [chat_frames merge_call]. split_and!; try done.
Qed.
Lemma chat_stop_agrees m e d reason :
  chat_agree Between m e d -> chat_step_agrees Between Over m e d (StopEvent reason).
Proof.
  intros (H1 & H2 & H3 & H4 & _). unfold chat_step_agrees. cbn [chat_frames].
  destruct m as [[[i n] f]|].
  - destruct H4 as (name' & Ht & Hn & Hi). erewrite read_chunk; [|done|].
    2:{ rewrite choice_stop by done. unfold chat_end_tool. cbn [named_by cd_tool]. rewrite Ht.
        unfold tool_is_empty. cbn [ta_id ta_name ta_fragments]. rewrite Hn. cbn [andb]. reflexivity. }
    cbn [app]. split_and!; try done.
    intros mo r r' _ (M1 & M2 & M3 & M4 & M5 & M6 & i0 & M7 & M8). cbn -[trim]. rewrite M6, M7. cbn -[trim].
    split_and!; try done. unfold tool_arguments. cbn [ta_fragments]. f_equal. f_equal.
    + destruct i; [by rewrite M8|done].
    + by destruct (is_empty (trim f)).
  - destruct H4 as [Ht Hi]. erewrite read_chunk; [|done|].
    2:{ rewrite choice_stop by done. unfold chat_end_tool. cbn [named_by cd_tool]. rewrite Ht. reflexivity. }
    cbn [app]. split_and!; try done.
    intros mo r r' _ (M1 & M2 & M3 & M4 & M5 & M6 & M7). cbn. by split_and!.
Qed.

(** Every step of an orderly reply. *)
Lemma orderly_chat_agrees stage stage' m e d event :
  orderly_step stage event = Some stage' -> chat_agree stage m e d -> event_fits event ->
  chat_step_agrees stage stage' m e d event.
Proof.
  intros Ho Ha Hf. destruct stage, event; cbn in Ho; try discriminate Ho;
    try (injection Ho as <-; first [by apply usage_agrees | by apply silence_agrees]).
  - injection Ho as <-. by apply chat_start_agrees.
  - injection Ho as <-. by apply text_read_agrees.
  - injection Ho as <-. by apply reasoning_read_agrees.
  - destruct (is_empty id && is_empty name) eqn:E; [done|]. injection Ho as <-. by apply call_start_agrees.
  - injection Ho as <-. by apply chat_stop_agrees.
  - injection Ho as <-. by apply call_delta_agrees.
  - destruct (bool_decide _ && _); [|done]. injection Ho as <-. by eapply call_end_agrees.
Qed.

Lemma chat_simulation events stage m e d r r' model :
  orderly stage events = true -> Forall event_fits events -> chat_agree stage m e d ->
  (stage = Silent -> ce_model e = model) -> chat_mirror model stage m r r' -> ra_usage r' = cd_usage d ->
  let sent := frames_all chat_frames e events in
  let back := chat_read d sent.1 in
  let m' := foldl merge_call m events in
  chat_agree Over m' sent.2 back.2 /\
  chat_mirror model Over m' (foldl reply_apply r events) (foldl reply_apply r' back.1) /\
  ra_usage (foldl reply_apply r' back.1) = foldl chat_told (cd_usage d) events.
Proof.
  intros Ho Hf. revert stage m e d r r' Ho.
  induction Hf as [|event events Hf _ IH]; intros stage m e d r r' Ho Ha Hm Hr Hus; cbn [frames_all foldl].
  - by destruct stage.
  - cbn [orderly] in Ho. destruct (orderly_step stage event) as [stage'|] eqn:Est; [|done].
    pose proof (orderly_chat_agrees stage stage' m e d event Est Ha Hf) as Hstep. unfold chat_step_agrees in Hstep.
    destruct (chat_frames e event) as [out e'].
    destruct (chat_read d out) as [back d'] eqn:Eb. destruct Hstep as (Ha' & Hr' & Hus' & Ht).
    assert (Hns : stage' = Silent -> ce_model e' = model).
    { intros ->. destruct stage, event; cbn in Est; try discriminate Est; repeat case_match; discriminate Est. }
    specialize (IH stage' (merge_call m event) e' d' (reply_apply r event) (foldl reply_apply r' back) Ho Ha' Hns
      (Hr' model r r' Hm Hr) (Hus' r' Hus)).
    destruct (frames_all chat_frames e' events) as [more e'']. cbn [fst snd] in *.
    unfold chat_read in *. rewrite fmap_app, values_all_app, Eb. cbn [fst snd]. rewrite foldl_app, <- Ht. exact IH.
Qed.
End reads.

(** The whole exchange: the frames, and the end marker that says nothing. *)
Lemma chat_read_written `{JsonTextLaws} (model : str) (events : list CanonicalEvent) :
  orderly Silent events = true -> Forall event_fits events ->
  exists back,
    read_reply (T := ChatDecoder) (write_reply (T := ChatEncoder) model events) = Ok back /\
    chat_mirror model Over (foldl merge_call None events) (reply_of events) (reply_of back) /\
    ra_usage (reply_of back) = foldl chat_told CanonicalUsage_default events.
Proof.
  intros Ho Hf. pose proof (chat_all_ok events (ChatEncoder_new model) Hf) as Hg.
  destruct (chat_simulation events Silent None (ChatEncoder_new model) ChatDecoder_default
    ReplyAccumulator_default ReplyAccumulator_default model Ho Hf) as (Ha & Hm & Hu); [done..|].
  unfold read_reply, write_reply.
  rewrite (encode_all_frames (E := ChatEncoder) chat_frames)
    by (intros e event; cbn [se_encode chat_encoder]; by destruct (chat_frames e event)).
  cbn [se_finish chat_encoder fst se_new sd_new chat_decoder].
  destruct (frames_all chat_frames (ChatEncoder_new model) events) as [out e]. cbn [fst snd] in *.
  rewrite written_reads_on by done. change (parse_sse DONE_FRAME) with [(@None str, DONE)].
  rewrite fmap_app, <- list_fmap_compose. unfold chat_read in *.
  destruct (values_all decode_chat_value ChatDecoder_default out.*2) as [back d] eqn:Ev. cbn [fst snd] in *.
  assert (Hd : decode_all ChatDecoder_default (json_to_string <$> out.*2) = (Ok back, d)).
  { rewrite (decode_all_values decode_chat_value), Ev; [done| |].
    - intros d' v Hv. cbn [sd_decode chat_decoder]. rewrite bool_decide_eq_false_2 by apply json_not_done.
      rewrite json_parses by done. by destruct (decode_chat_value d' v).
    - apply Forall_fmap. eapply Forall_impl; [exact Hg|]. by intros f [? _]. }
  replace ((snd ∘ (fun f : option str * json => (f.1, json_to_string f.2))) <$> out) with (json_to_string <$> out.*2)
    by by rewrite <- list_fmap_compose.
  rewrite (decode_all_app _ _ _ _ _ Hd). cbn [fmap list_fmap snd].
  destruct Ha as (_ & _ & Hfin & Ht). exists back. split; [|done].
  cbn [decode_all sd_decode chat_decoder]. rewrite bool_decide_eq_true_2 by done. cbn [fst sd_finish chat_decoder].
  unfold chat_decode_end, chat_end_tool. rewrite Ht. cbn [tool_is_empty]. cbn. rewrite Hfin. cbn.
  by rewrite !app_nil_r.
Qed.

(** ** The calls of a reply *)

Definition starts_call (event : CanonicalEvent) : bool := match event with ToolCallStart _ _ => true | _ => false end.

(** What a reply with at most one call has said of it. *)
Definition one_call `{JsonText} (stage : Stage) (m : option (str * str * str)) (r : ReplyAccumulator) : Prop :=
  match stage, m with
  | InTool id fragments, Some (i, n, f) =>
      id = i /\ fragments = f /\ ra_tool_calls r = [] /\ ra_current_tool r = Some (mkCall i n f)
  | InTool _ _, None => False
  | _, m => ra_tool_calls r = merged_call m
  end.

Lemma one_call_step `{JsonText} stage stage' m r event :
  orderly_step stage event = Some stage' -> one_call stage m r -> (starts_call event = true -> m = None) ->
  one_call stage' (merge_call m event) (reply_apply r event).
Proof.
  intros Ho Hc Hs. destruct stage as [| |id fragments|], event; cbn in Ho; try discriminate Ho;
    try (injection Ho as <-; by destruct m as [[[i n] f]|]).
  - destruct (is_empty id && is_empty name); [done|]. injection Ho as <-. rewrite Hs by done. cbn.
    rewrite Hs in Hc by done. by split_and!.
  - injection Ho as <-. destruct m as [[[i n] f]|]; [|done]. destruct Hc as (-> & -> & Hc & Ht).
    cbn. rewrite Ht. by split_and!.
  - case_bool_decide as Hid; [|done]. subst. cbn [andb] in Ho.
    destruct (negb (is_empty (trim fragments)) || _) eqn:E; [|done]. injection Ho as <-.
    destruct m as [[[i n] f]|]; [|done]. destruct Hc as (-> & -> & Hc & Ht). cbn -[trim]. rewrite Hc, Ht.
    cbn -[trim]. unfold merged_call. f_equal. f_equal; [by destruct i|].
    destruct (is_empty (trim f)); [|done]. by destruct arguments as [| | | | |[|]].
Qed.

Lemma merge_call_kept m event : merge_call m event = None -> m = None.
Proof. by destruct event, m as [[[i n] f]|]. Qed.
Lemma one_call_reply `{JsonText} events stage m r :
  orderly stage events = true -> one_call stage m r ->
  length (retain starts_call events) <= (if m is None then 1 else 0) ->
  ra_tool_calls (foldl reply_apply r events) = merged_call (foldl merge_call m events).
Proof.
  revert stage m r. induction events as [|event events IH]; intros stage m r Ho Hc Hl.
  - by destruct stage.
  - cbn [orderly] in Ho. destruct (orderly_step stage event) as [stage'|] eqn:Est; [|done].
    cbn [foldl]. cbn [retain] in Hl. apply (IH stage'); [done| |].
    + apply (one_call_step stage stage'); [done..|]. intros Hs. rewrite Hs in Hl.
      destruct m; [simpl in Hl; lia|done].
    + destruct event; cbn [starts_call] in Hl; cbn [merge_call]; try (by destruct m as [[[i n] f]|]).
      destruct m as [[[i n] f]|]; simpl in Hl |- *; lia.
Qed.

(** An orderly reply written for a Chat client and read back keeps its id,
    text and reasoning, its stop up to what Chat can spell, and the input and
    output tokens told after the start; but all its tool calls are one call,
    with the last id, the first name and the arguments of all of them.  With
    at most one call, that is the call the reply made. *)
Theorem chat_stream_keeps_one_call `{JsonTextLaws} (model : str) (events : list CanonicalEvent) :
  orderly Silent events = true -> Forall event_fits events ->
  exists back,
    read_reply (T := ChatDecoder) (write_reply (T := ChatEncoder) model events) = Ok back /\
    let said := reply_of events in
    let heard := reply_of back in
    ra_id heard = ra_id said /\ ra_model heard = adopt (ra_model said) model /\
    ra_text heard = ra_text said /\ ra_reasoning heard = ra_reasoning said /\
    ra_stop heard = chat_crossed <$> ra_stop said /\
    ra_usage heard = foldl chat_told CanonicalUsage_default events /\
    ra_tool_calls heard = merged_call (foldl merge_call None events) /\
    (length (retain starts_call events) <= 1 -> ra_tool_calls heard = ra_tool_calls said).
Proof.
  intros Ho Hf. destruct (chat_read_written model events Ho Hf) as (back & Hr & Hm & Hu).
  exists back. cbv zeta. destruct Hm as (M1 & M2 & M3 & M4 & M5 & M6). split_and!; try done.
  intros Hl. rewrite M6. symmetry. by apply (one_call_reply events Silent None).
Qed.
