(* ===== verification/ToolNames.v ===== *)
(** Tool names between protocols
    (crates/model-gateway/src/tool_names.rs): the map from a client's names to
    names every protocol accepts and back, its use on a request's body and on
    the reply.  The hash behind a long name's digest is an argument: the
    standard library leaves its algorithm open. *)
From stdpp Require Import prelude strings list gmap pretty.
From Stdlib Require Import NArith ZArith Lia Sorted.
From S2P Require Import Prelude CoreTypes GatewayTypes GatewayErrors Ir Json Upstream Sse Wire.

Definition MAX_TOOL_NAME_LEN : nat := 64.
(** [str::len]. *)
Definition byte_len (s : str) : nat := length (as_bytes s).

(** ** Names *)

Definition is_tool_char (c : N) : bool :=
  is_ascii_alphanumeric c || (c =? 45)%N || (c =? 95)%N.
Definition starts_with_digit (s : str) : bool :=
  match s with c :: _ => is_ascii_digit c | [] => false end.
Definition is_accepted_tool_name (name : str) : bool :=
  negb (is_empty name) && (byte_len name <=? MAX_TOOL_NAME_LEN) && forallb is_tool_char name
  && negb (starts_with_digit name).

(** [format!("{:08x}", _)] of a 32-bit number. *)
Definition hex8 (z : Z) : str :=
  (fun i => hex_char (z / 16 ^ i mod 16)%Z) <$> [7; 6; 5; 4; 3; 2; 1; 0]%Z.

Definition suffixed_tool_name (candidate : str) (suffix : Z) : str :=
  let suffix := lit "_" ++ decimal suffix in
  take (MAX_TOOL_NAME_LEN - byte_len suffix) candidate ++ suffix.

Record ToolNameMap : Type := mkToolNameMap {
  tm_original_to_wire : gmap str str;
  tm_wire_to_original : gmap str str
}.
Definition ToolNameMap_default : ToolNameMap := mkToolNameMap ∅ ∅.
Definition map_is_empty (map : ToolNameMap) : bool := bool_decide (tm_original_to_wire map = ∅).

(** [Vec::dedup]: equal neighbours are one. *)
Fixpoint dedup (l : list str) : list str :=
  match l with
  | x :: ((y :: _) as r) => if bool_decide (x = y) then dedup r else x :: dedup r
  | _ => l
  end.

(** The names a request mentions, sorted and without repetition. *)
Definition mentioned_names (request : CanonicalRequest) : list str :=
  retain (fun name => negb (is_empty (trim name))) (td_name <$> cr_tools request)
  ++ (cr_messages request ≫= fun message => msg_parts message ≫= fun part =>
        match part with ToolCall _ name _ => [name] | _ => [] end)
  ++ match cr_tool_choice request with ChoiceNamed name => [name] | _ => [] end.
Definition collected_names (request : CanonicalRequest) : list str :=
  dedup (sort_by_key (fun name => Z.of_N <$> name) (mentioned_names request)).

(** [while taken.contains_key(&unique) { unique = suffixed; suffix += 1 }]. *)
Fixpoint first_unused (fuel : nat) (taken : gmap str str) (candidate : str) (suffix : Z) (unique : str) : str :=
  match fuel with
  | O => unique
  | S fuel =>
      match taken !! unique with
      | Some _ => first_unused fuel taken candidate (suffix + 1) (suffixed_tool_name candidate suffix)
      | None => unique
      end
  end.
(** More attempts than names already taken. *)
Definition unused_fuel (taken : gmap str str) : nat := S (S (size taken)).

Section names.
Context (hash : str -> Z).

Definition short_digest (name : str) : str := hex8 (hash name mod 2 ^ 32).

Definition sanitize_tool_name (name : str) : str :=
  if is_accepted_tool_name name then name
  else
    let sanitized := (fun c => if is_tool_char c then c else 95%N) <$> trim name in
    let sanitized := if is_empty sanitized then lit "tool" else sanitized in
    let sanitized := if starts_with_digit sanitized then 95%N :: sanitized else sanitized in
    if MAX_TOOL_NAME_LEN <? byte_len sanitized then
      let digest := short_digest name in
      let keep := MAX_TOOL_NAME_LEN - byte_len digest - 1 in
      take keep sanitized ++ lit "_" ++ digest
    else sanitized.

Definition build_step (state : ToolNameMap * gmap str str) (name : str) : ToolNameMap * gmap str str :=
  let '(map, taken) := state in
  let candidate := sanitize_tool_name name in
  if bool_decide (candidate = name) && bool_decide (taken !! candidate = None)
  then (map, <[candidate := name]> taken)
  else
    let unique := first_unused (unused_fuel taken) taken candidate 2 candidate in
    (mkToolNameMap (<[name := unique]> (tm_original_to_wire map)) (<[unique := name]> (tm_wire_to_original map)),
     <[unique := name]> taken).

Definition ToolNameMap_build (request : CanonicalRequest) : ToolNameMap :=
  (foldl build_step (ToolNameMap_default, ∅) (collected_names request)).1.
End names.

(** ** The body of a request *)

(** [as_array_mut] and a change of every item. *)
Definition modify_items (f : json -> json) (v : json) : json :=
  match v with JArray items => JArray (f <$> items) | _ => v end.

Definition rewrite_at (path : list str) (map : ToolNameMap) : json -> json :=
  modify_at path (fun cursor =>
    match json_as_str cursor with
    | Some name =>
        match tm_original_to_wire map !! name with
        | Some rewritten => JString rewritten
        | None => cursor
        end
    | None => cursor
    end).
Definition rewrite_list (key : str) (path : list str) (map : ToolNameMap) : json -> json :=
  modify_at [key] (modify_items (rewrite_at path map)).

Definition NAME : list str := [lit "name"].
Definition FUNCTION_NAME : list str := [lit "function"; lit "name"].
Definition is_tool_use (block : json) : bool := bool_decide (string_field block (lit "type") = Some (lit "tool_use")).

Definition rewrite_body (map : ToolNameMap) (target : WireProtocol) (body : json) : json :=
  if map_is_empty map then body
  else
    match target with
    | GeminiGenerateContent => body
    | ChatCompletions =>
        let body := modify_at [lit "tools"] (modify_items (rewrite_at FUNCTION_NAME map)) body in
        let body := modify_at [lit "tool_choice"] (rewrite_at FUNCTION_NAME map) body in
        modify_at [lit "messages"] (modify_items
          (modify_at [lit "tool_calls"] (modify_items (rewrite_at FUNCTION_NAME map)))) body
    | Responses =>
        let body := rewrite_list (lit "tools") NAME map body in
        let body := modify_at [lit "tool_choice"] (rewrite_at NAME map) body in
        modify_at [lit "input"] (modify_items (rewrite_at NAME map)) body
    | AnthropicMessages =>
        let body := rewrite_list (lit "tools") NAME map body in
        let body := modify_at [lit "tool_choice"] (rewrite_at NAME map) body in
        modify_at [lit "messages"] (modify_items (modify_at [lit "content"] (modify_items
          (fun block => if is_tool_use block then rewrite_at NAME map block else block)))) body
    end.

(** ** The reply *)

(** [wire_to_original.get(name)], or the name as it is. *)
Definition original_name (map : ToolNameMap) (name : str) : str := default name (tm_wire_to_original map !! name).
Definition restore_response (map : ToolNameMap) (response : CanonicalResponse) : CanonicalResponse :=
  if map_is_empty map then response
  else mkResponse (rs_id response) (rs_model response)
    ((fun part => match part with
                  | ToolCall id name arguments => ToolCall id (original_name map name) arguments
                  | _ => part
                  end) <$> rs_parts response)
    (rs_stop response) (rs_usage response).
Definition restore_event (map : ToolNameMap) (event : CanonicalEvent) : CanonicalEvent :=
  if map_is_empty map then event
  else match event with
       | ToolCallStart id name => ToolCallStart id (original_name map name)
       | _ => event
       end.

(** ** What the map promises *)

(** The name the upstream is given for a client's name. *)
Definition wire_name (map : ToolNameMap) (name : str) : str := default name (tm_original_to_wire map !! name).

(** A strict protocol's rule for function names (the pattern the upstreams
    print, the length they allow, and no leading digit). *)
Definition strict_name (name : str) : Prop :=
  name <> [] /\ length name <= 64 /\ Forall (fun c => is_tool_char c = true) name /\
  (forall c, head name = Some c -> is_ascii_digit c = false).

(** The names a body spells, protocol by protocol. *)
Fixpoint value_at (path : list str) (v : json) : option json :=
  match path with
  | [] => Some v
  | k :: path => match json_get k v with Some v => value_at path v | None => None end
  end.
Definition name_at (path : list str) (v : json) : list str :=
  match value_at path v with Some (JString name) => [name] | _ => [] end.
Definition items_at (key : str) (v : json) : list json :=
  match value_at [key] v with Some (JArray items) => items | _ => [] end.
Definition spelled_names (target : WireProtocol) (body : json) : list str :=
  match target with
  | GeminiGenerateContent => []
  | ChatCompletions =>
      (items_at (lit "tools") body ≫= name_at FUNCTION_NAME)
      ++ name_at (lit "tool_choice" :: FUNCTION_NAME) body
      ++ (items_at (lit "messages") body ≫= fun m => items_at (lit "tool_calls") m ≫= name_at FUNCTION_NAME)
  | Responses =>
      (items_at (lit "tools") body ≫= name_at NAME) ++ name_at (lit "tool_choice" :: NAME) body
      ++ (items_at (lit "input") body ≫= name_at NAME)
  | AnthropicMessages =>
      (items_at (lit "tools") body ≫= name_at NAME) ++ name_at (lit "tool_choice" :: NAME) body
      ++ (items_at (lit "messages") body ≫= fun m =>
            retain is_tool_use (items_at (lit "content") m) ≫= name_at NAME)
  end.

(** * Lemmas *)

(** ** Reading what was changed *)

Lemma get_modify k f fields k' :
  json_get k' (JObject (modify_field k f fields)) =
  if bool_decide (k' = k) then f <$> json_get k' (JObject fields) else json_get k' (JObject fields).
Proof.
  induction fields as [|[k1 v1] fields IH]; cbn [modify_field]; [by case_bool_decide|].
  destruct (decide (k1 = k)) as [->|Hne].
  - rewrite (bool_decide_eq_true_2 (k = k)) by done. rewrite !json_get_cons.
    destruct (decide (k' = k)) as [->|Hk]; [by rewrite !bool_decide_eq_true_2 by done|].
    by rewrite !bool_decide_eq_false_2 by congruence.
  - rewrite (bool_decide_eq_false_2 (k1 = k)) by done. rewrite !json_get_cons, IH.
    destruct (decide (k1 = k')) as [->|Hk]; [|by rewrite (bool_decide_eq_false_2 (k1 = k')) by done].
    by rewrite (bool_decide_eq_true_2 (k' = k')), (bool_decide_eq_false_2 (k' = k)) by done.
Qed.

Lemma value_modify path f v : value_at path (modify_at path f v) = f <$> value_at path v.
Proof.
  revert v. induction path as [|k path IH]; intros v; cbn [value_at modify_at]; [done|].
  destruct v as [| | | | |fields]; try done. rewrite get_modify, bool_decide_eq_true_2 by done.
  destruct (json_get k (JObject fields)) as [v|]; [apply IH|done].
Qed.
Lemma value_modify_other k k' path path' f v :
  k' <> k -> value_at (k' :: path') (modify_at (k :: path) f v) = value_at (k' :: path') v.
Proof.
  intros Hk. cbn [value_at modify_at]. destruct v as [| | | | |fields]; try done.
  by rewrite get_modify, bool_decide_eq_false_2 by done.
Qed.

Lemma name_rewritten path map v : name_at path (rewrite_at path map v) = wire_name map <$> name_at path v.
Proof.
  unfold name_at, rewrite_at. rewrite value_modify. destruct (value_at path v) as [[| | |s| |]|]; try done.
  cbn [fmap option_fmap option_map json_as_str]. unfold wire_name. cbn [list_fmap].
  by destruct (tm_original_to_wire map !! s).
Qed.
Lemma items_modified key f v : items_at key (modify_at [key] (modify_items f) v) = f <$> items_at key v.
Proof. unfold items_at. rewrite value_modify. by destruct (value_at [key] v) as [[| | | |items|]|]. Qed.
Lemma items_modified_other key k path f v :
  key <> k -> items_at key (modify_at (k :: path) f v) = items_at key v.
Proof. intros Hk. unfold items_at. by rewrite value_modify_other. Qed.
Lemma name_modified_other k k' path path' f v :
  k' <> k -> name_at (k' :: path') (modify_at (k :: path) f v) = name_at (k' :: path') v.
Proof. intros Hk. unfold name_at. by rewrite value_modify_other. Qed.

Lemma choice_rewritten path map v :
  name_at (lit "tool_choice" :: path) (modify_at [lit "tool_choice"] (rewrite_at path map) v) =
  wire_name map <$> name_at (lit "tool_choice" :: path) v.
Proof.
  rewrite <- (name_rewritten (lit "tool_choice" :: path) map v). f_equal.
Qed.

(** Names rewritten item by item. *)
Lemma bind_rewritten {A} (f g : A -> list str) (h : A -> A) (w : str -> str) (l : list A) :
  (forall x, f (h x) = w <$> g x) -> (h <$> l) ≫= f = w <$> (l ≫= g).
Proof.
  intros Hx. induction l as [|x l IH]; [done|]. cbn [fmap list_fmap mbind list_bind].
  by rewrite Hx, IH, fmap_app.
Qed.

Lemma is_tool_use_rewritten map block : is_tool_use (rewrite_at NAME map block) = is_tool_use block.
Proof.
  unfold is_tool_use, string_field, rewrite_at, NAME. cbn [modify_at].
  destruct block as [| | | | |fields]; try done. by rewrite get_modify, (bool_decide_eq_false_2 (lit "type" = lit "name")) by done.
Qed.
Lemma tool_blocks_rewritten map l :
  retain is_tool_use ((fun b => if is_tool_use b then rewrite_at NAME map b else b) <$> l) =
  rewrite_at NAME map <$> retain is_tool_use l.
Proof.
  induction l as [|b l IH]; [done|]. cbn [fmap list_fmap retain]. destruct (is_tool_use b) eqn:E.
  - rewrite is_tool_use_rewritten, E. cbn [fmap list_fmap]. by f_equal.
  - by rewrite E.
Qed.

Lemma list_names_rewritten key path map v :
  items_at key (modify_at [key] (modify_items (rewrite_at path map)) v) ≫= name_at path =
  wire_name map <$> (items_at key v ≫= name_at path).
Proof. rewrite items_modified. apply bind_rewritten. intros x. apply name_rewritten. Qed.

(** Looks past the changes made elsewhere. *)
Ltac look_past :=
  repeat match goal with
  | |- context [items_at ?k (modify_at (?k' :: ?p) ?f ?v)] =>
      rewrite (items_modified_other k k' p f v) by discriminate
  | |- context [name_at (?k :: ?q) (modify_at (?k' :: ?p) ?f ?v)] =>
      rewrite (name_modified_other k' k p q f v) by discriminate
  end.

(** A request's body spells, everywhere a tool is named, the name the upstream
    accepts: in the declarations, in the forced choice and in the history. *)
Theorem rewritten_body_spells_wire_names (map : ToolNameMap) (target : WireProtocol) (body : json) :
  spelled_names target (rewrite_body map target body) = wire_name map <$> spelled_names target body.
Proof.
  unfold rewrite_body. destruct (map_is_empty map) eqn:E.
  { apply bool_decide_eq_true in E. symmetry. rewrite <- (list_fmap_id (spelled_names target body)) at 2.
    apply list_fmap_ext. intros i x _. unfold wire_name. by rewrite E, lookup_empty. }
  destruct target; [| | |done]; unfold spelled_names, rewrite_list; rewrite !fmap_app; look_past;
    rewrite list_names_rewritten, choice_rewritten; look_past; f_equal; f_equal.
  - rewrite items_modified. look_past. apply bind_rewritten. intros m. apply list_names_rewritten.
  - rewrite list_names_rewritten. by look_past.
  - rewrite items_modified. look_past. apply bind_rewritten. intros m. rewrite items_modified.
    rewrite tool_blocks_rewritten. apply bind_rewritten. intros b. apply name_rewritten.
Qed.

(** ** Names that are accepted *)

Lemma ascii_bytes s : Forall (fun c => (c < 128)%N) s -> byte_len s = length s.
Proof.
  unfold byte_len, as_bytes. induction 1 as [|c s Hc _ IH]; [done|]. cbn [mbind list_bind].
  rewrite length_app, IH. unfold utf8_char. by rewrite (proj2 (N.ltb_lt _ _) Hc).
Qed.
Lemma tool_char_ascii c : is_tool_char c = true -> (c < 128)%N.
Proof.
  unfold is_tool_char, is_ascii_alphanumeric, is_ascii_upper, is_ascii_lower, is_ascii_digit.
  intros H. destruct (N.lt_ge_cases c 128) as [|Hge]; [done|]. exfalso. revert H.
  rewrite !(proj2 (N.leb_gt c _)) by lia. rewrite !andb_false_r.
  by rewrite (proj2 (N.eqb_neq c 45)), (proj2 (N.eqb_neq c 95)) by lia.
Qed.
Lemma tool_bytes s : Forall (fun c => is_tool_char c = true) s -> byte_len s = length s.
Proof. intros Hs. apply ascii_bytes. eapply Forall_impl; [exact Hs|]. intros c. apply tool_char_ascii. Qed.

Lemma digit_tool_char c : is_ascii_digit c = true -> is_tool_char c = true.
Proof. intros H. unfold is_tool_char, is_ascii_alphanumeric. by rewrite H, orb_true_r. Qed.

(** The function is the strict protocols' rule. *)
Lemma accepted_strict name : is_accepted_tool_name name = true <-> strict_name name.
Proof.
  unfold is_accepted_tool_name, strict_name. rewrite !andb_true_iff, forallb_Forall, Nat.leb_le, !negb_true_iff.
  split.
  - intros (((H1 & H2) & H3) & H4). rewrite tool_bytes in H2 by done. split_and!; try done.
    + by destruct name.
    + intros c Hc. destruct name; [done|]. by injection Hc as <-.
  - intros (H1 & H2 & H3 & H4). rewrite tool_bytes by done. split_and!; try done.
    + by destruct name.
    + destruct name; [done|]. by apply H4.
Qed.

Lemma starts_with_digit_cons c s : starts_with_digit (c :: s) = is_ascii_digit c.
Proof. done. Qed.
Lemma not_digit_head s c : starts_with_digit s = false -> head s = Some c -> is_ascii_digit c = false.
Proof. destruct s; [done|]. intros H [= <-]. done. Qed.

Lemma hex_char_tool d : (0 <= d < 16)%Z -> is_tool_char (hex_char d) = true.
Proof.
  intros Hd. unfold hex_char, is_tool_char, is_ascii_alphanumeric. destruct (Z.ltb_spec d 10).
  - unfold is_ascii_digit. rewrite !(proj2 (N.leb_le _ _)) by lia. by rewrite !orb_true_r.
  - unfold is_ascii_lower. rewrite (proj2 (N.leb_le 97 _)), (proj2 (N.leb_le _ 122)) by lia.
    by rewrite !orb_true_r.
Qed.
Lemma hex8_tool z : Forall (fun c => is_tool_char c = true) (hex8 z) /\ length (hex8 z) = 8.
Proof.
  split; [|done]. apply Forall_fmap, Forall_forall. intros i _. apply hex_char_tool.
  apply Z.mod_pos_bound. lia.
Qed.

(** ** Sanitized names *)

Lemma tool_char_map s :
  Forall (fun c => is_tool_char c = true) ((fun c => if is_tool_char c then c else 95%N) <$> s).
Proof. apply Forall_fmap, Forall_forall. intros c _. cbn. by destruct (is_tool_char c) eqn:E. Qed.

Lemma head_take {A} n (l : list A) x : head (take n l) = Some x -> head l = Some x.
Proof. by destruct n, l. Qed.
Lemma head_app_cases {A} (a b : list A) x :
  head (a ++ b) = Some x -> head a = Some x \/ a = [] /\ head b = Some x.
Proof. destruct a; [by right|by left]. Qed.

(** A prefix of a good name, and good characters after an underscore. *)
Lemma shortened_strict s keep tail :
  Forall (fun c => is_tool_char c = true) s -> starts_with_digit s = false ->
  Forall (fun c => is_tool_char c = true) tail -> keep + S (length tail) <= 64 ->
  strict_name (take keep s ++ 95%N :: tail).
Proof.
  intros Hs Hd Ht Hl. unfold strict_name. split_and!.
  - by destruct (take keep s).
  - rewrite length_app, length_take. simpl. lia.
  - apply Forall_app. split; [by apply Forall_take|by constructor].
  - intros c [Hc|[_ Hc]]%head_app_cases; [|by injection Hc as <-]. by eapply not_digit_head, head_take.
Qed.

Lemma sanitized_strict hash name : strict_name (sanitize_tool_name hash name).
Proof.
  unfold sanitize_tool_name. destruct (is_accepted_tool_name name) eqn:E; [by apply accepted_strict|].
  cbv zeta. set (s0 := (fun c => if is_tool_char c then c else 95%N) <$> trim name).
  set (s1 := if is_empty s0 then lit "tool" else s0).
  assert (H1 : Forall (fun c => is_tool_char c = true) s1 /\ s1 <> []).
  { unfold s1. pose proof (tool_char_map (trim name)) as Hm. fold s0 in Hm. destruct s0; [|done].
    split; [|done]. by apply forallb_Forall. }
  set (s2 := if starts_with_digit s1 then 95%N :: s1 else s1).
  assert (H2 : Forall (fun c => is_tool_char c = true) s2 /\ s2 <> [] /\ starts_with_digit s2 = false).
  { unfold s2. destruct (starts_with_digit s1) eqn:Ed; [|by destruct H1].
    split_and!; [by constructor; [|apply H1]|done|done]. }
  destruct H2 as (H2 & Hne & Hd). rewrite tool_bytes by done. destruct (Nat.ltb_spec MAX_TOOL_NAME_LEN (length s2)) as [|Hle].
  - destruct (hex8_tool (hash name mod 2 ^ 32)) as [Hx Hl]. unfold short_digest.
    rewrite tool_bytes, Hl by done. apply shortened_strict; [done..|]. rewrite Hl. simpl. lia.
  - split_and!; [done|done|done|]. intros c. by apply not_digit_head.
Qed.

Lemma digits_tool ds : forallb is_ascii_digit ds = true -> Forall (fun c => is_tool_char c = true) ds.
Proof.
  intros H%forallb_Forall. eapply Forall_impl; [exact H|]. intros c. apply digit_tool_char.
Qed.

(** The number of digits of a number. *)
Lemma pretty_go_length k x s :
  (x < 10 ^ N.of_nat k)%N -> String.length (pretty_N_go x s) <= k + String.length s.
Proof.
  revert x s. induction k as [|k IH]; intros x s Hx.
  - assert (x = 0%N) as -> by (simpl in Hx; lia). by rewrite pretty_N_go_0.
  - destruct (decide (x = 0%N)) as [->|Hne]; [rewrite pretty_N_go_0; lia|].
    rewrite pretty_N_go_step by lia. rewrite IH; [simpl; lia|].
    apply N.Div0.div_lt_upper_bound. rewrite Nat2N.inj_succ, N.pow_succ_r' in Hx. lia.
Qed.
Lemma lit_length s : length (lit s) = String.length s.
Proof. unfold lit. rewrite length_fmap. induction s as [|c s IH]; simpl; by rewrite ?IH. Qed.
Lemma decimal_length k z : 0 < k -> (0 <= z < 10 ^ Z.of_nat k)%Z -> length (decimal z) <= k.
Proof.
  intros Hk Hz. unfold decimal, pretty, pretty_N. rewrite lit_length. case_decide; [simpl; lia|].
  rewrite (pretty_go_length k); [simpl; lia|].
  apply N2Z.inj_lt. rewrite N2Z.inj_pow, nat_N_Z. lia.
Qed.

(** ** Suffixed names *)

Definition suffix_fits (n : Z) : Prop := (0 <= n < 10 ^ 62)%Z.

Lemma suffix_tool n :
  suffix_fits n ->
  Forall (fun c => is_tool_char c = true) (decimal n) /\ length (decimal n) <= 62 /\ 95%N ∉ decimal n.
Proof.
  intros Hn. assert (Hl : length (decimal n) <= 62) by (apply decimal_length; [lia|exact Hn]).
  destruct (decimal_digits n) as (ds & E & _ & Hd & _); [apply Hn|]. rewrite E in Hl |- *.
  split_and!; [by apply digits_tool| |].
  - done.
  - intros Hin. rewrite forallb_Forall, Forall_forall in Hd. by specialize (Hd _ Hin).
Qed.

Lemma suffixed_shape candidate n :
  suffix_fits n ->
  suffixed_tool_name candidate n = take (64 - S (length (decimal n))) candidate ++ 95%N :: decimal n.
Proof.
  intros Hn. destruct (suffix_tool n Hn) as (Ht & _). unfold suffixed_tool_name.
  rewrite tool_bytes; [done|]. by constructor.
Qed.

Lemma suffixed_strict candidate n :
  strict_name candidate -> suffix_fits n -> strict_name (suffixed_tool_name candidate n).
Proof.
  intros (Hne & _ & Hc & Hd) Hn. rewrite suffixed_shape by done. destruct (suffix_tool n Hn) as (Ht & Hl & _).
  apply shortened_strict; [done| |done|lia]. destruct candidate as [|c candidate]; [done|]. by apply Hd.
Qed.

Lemma suffixed_inj candidate a b :
  suffix_fits a -> suffix_fits b -> suffixed_tool_name candidate a = suffixed_tool_name candidate b -> a = b.
Proof.
  intros Ha Hb. rewrite !suffixed_shape by done. intros E%(f_equal reverse).
  rewrite !reverse_app, !reverse_cons, <- !app_assoc in E. cbn [app] in E.
  apply decimal_inj; [apply Ha|apply Hb|]. apply (inj reverse).
  assert (Hs : forall n rest, suffix_fits n ->
    split_once 95%N (reverse (decimal n) ++ 95%N :: rest) = Some (reverse (decimal n), rest)).
  { intros n rest Hn. apply split_once_app. rewrite elem_of_reverse. by apply suffix_tool. }
  apply (f_equal (split_once 95%N)) in E. rewrite !Hs in E by done. by injection E as ->.
Qed.

(** ** The loop ends with an unused name *)

(** The loop stops at a free name, or has found every name it tried taken. *)
Lemma first_unused_spec fuel taken candidate suffix unique :
  let u := first_unused fuel taken candidate suffix unique in
  (u = unique \/ exists i, (0 <= i < Z.of_nat fuel)%Z /\ u = suffixed_tool_name candidate (suffix + i)) /\
  (taken !! u = None \/
   forall i, (0 <= i < Z.of_nat fuel - 1)%Z -> is_Some (taken !! suffixed_tool_name candidate (suffix + i))).
Proof.
  cbv zeta. revert suffix unique. induction fuel as [|fuel IH]; intros suffix unique; cbn [first_unused].
  { split; [by left|]. right. intros i Hi. lia. }
  destruct (taken !! unique) as [n|] eqn:E; [|split; by left].
  destruct (IH (suffix + 1)%Z (suffixed_tool_name candidate suffix)) as [H1 H2]. split.
  - right. destruct H1 as [->|(i & Hi & ->)].
    + exists 0%Z. rewrite Z.add_0_r. split; [lia|done].
    + exists (i + 1)%Z. split; [lia|]. f_equal. lia.
  - destruct (taken !! suffixed_tool_name candidate suffix) as [n'|] eqn:E'.
    + destruct H2 as [H2|H2]; [by left|]. right. intros i Hi. destruct (decide (i = 0%Z)) as [->|Hne].
      * rewrite Z.add_0_r. by rewrite E'.
      * specialize (H2 (i - 1)%Z ltac:(lia)). by replace (suffix + i)%Z with (suffix + 1 + (i - 1))%Z by lia.
    + left. destruct fuel as [|fuel]; cbn [first_unused]; [done|]. by rewrite E'.
Qed.

(** There are more suffixes than names taken. *)
Lemma first_unused_free taken candidate unique :
  suffix_fits (Z.of_nat (size taken) + 3) ->
  let u := first_unused (unused_fuel taken) taken candidate 2 unique in
  taken !! u = None /\ (u = unique \/ exists n, suffix_fits n /\ u = suffixed_tool_name candidate n).
Proof.
  intros Hs u. destruct (first_unused_spec (unused_fuel taken) taken candidate 2 unique) as [H1 H2].
  fold u in H1, H2. split.
  - destruct H2 as [|H2]; [done|]. exfalso. unfold unused_fuel in H2.
    set (tried := (fun i => suffixed_tool_name candidate (2 + Z.of_nat i)) <$> seq 0 (S (size taken))).
    assert (Hn : NoDup tried).
    { apply NoDup_fmap_2_strong; [|apply NoDup_seq]. intros i j Hi%elem_of_seq Hj%elem_of_seq E.
      apply suffixed_inj in E; unfold suffix_fits in *; lia. }
    assert (Hsub : list_to_set (C := gset str) tried ⊆ dom taken).
    { intros w (i & -> & Hi%elem_of_seq)%elem_of_list_to_set%list_elem_of_fmap. apply elem_of_dom, H2. lia. }
    apply subseteq_size in Hsub. rewrite size_list_to_set in Hsub by done.
    rewrite size_dom in Hsub. unfold tried in Hsub. rewrite length_fmap, length_seq in Hsub. lia.
  - destruct H1 as [|(i & Hi & ->)]; [by left|]. right. exists (2 + i)%Z.
    split; [unfold suffix_fits, unused_fuel in *; lia|done].
Qed.

(** ** The map *)

(** What the map and the names taken are, when the names [seen] are mapped. *)
Record mapped (seen : list str) (state : ToolNameMap * gmap str str) : Prop := {
  mp_taken : forall w n, state.2 !! w = Some n <-> n ∈ seen /\ wire_name state.1 n = w;
  mp_strict : forall n, n ∈ seen -> strict_name (wire_name state.1 n);
  mp_seen : forall n, is_Some (tm_original_to_wire state.1 !! n) -> n ∈ seen;
  mp_back : forall w n, tm_wire_to_original state.1 !! w = Some n <-> tm_original_to_wire state.1 !! n = Some w;
  mp_size : size state.2 = length seen
}.

Lemma unseen_wire seen state n : mapped seen state -> n ∉ seen -> tm_original_to_wire state.1 !! n = None.
Proof.
  intros Hm Hn. apply eq_None_not_Some. intros Hs. by apply Hn, (mp_seen _ _ Hm).
Qed.

(** A free wire name for a name not seen yet. *)
Lemma mapped_kept seen map taken name :
  mapped seen (map, taken) -> name ∉ seen -> strict_name name -> taken !! name = None ->
  mapped (name :: seen) (map, <[name := name]> taken).
Proof.
  intros Hm Hn Hs Hf. pose proof (unseen_wire _ _ _ Hm Hn) as Hnone. cbn [fst] in Hnone.
  assert (Hw : wire_name map name = name) by (unfold wire_name; by rewrite Hnone).
  split; cbn [fst snd].
  - intros w n. rewrite lookup_insert_Some, elem_of_cons. pose proof (mp_taken _ _ Hm w n) as Ht.
    cbn [fst snd] in Ht. split.
    + intros [[<- <-]|[Hne Hw']]; [by split; [left|]|]. apply Ht in Hw' as [? ?]. by split; [right|].
    + intros [[->|Hin] Hw']; [left; split; congruence|]. right. split; [|by apply Ht].
      intros <-. rewrite (proj2 Ht (conj Hin Hw')) in Hf. done.
  - intros n [->|Hin]%elem_of_cons; [by rewrite Hw|by apply (mp_strict _ _ Hm)].
  - intros n Hin. right. by apply (mp_seen _ _ Hm).
  - apply (mp_back _ _ Hm).
  - rewrite map_size_insert_None by done. simpl. f_equal. apply (mp_size _ _ Hm).
Qed.
Lemma mapped_renamed seen map taken name unique :
  mapped seen (map, taken) -> name ∉ seen -> strict_name unique -> taken !! unique = None ->
  mapped (name :: seen)
    (mkToolNameMap (<[name := unique]> (tm_original_to_wire map)) (<[unique := name]> (tm_wire_to_original map)),
     <[unique := name]> taken).
Proof.
  intros Hm Hn Hs Hf. pose proof (unseen_wire _ _ _ Hm Hn) as Hnone. cbn [fst] in Hnone.
  set (map' := mkToolNameMap _ _).
  assert (Hw : wire_name map' name = unique) by (unfold wire_name, map'; cbn; by rewrite lookup_insert_eq).
  assert (Hw' : forall n, n ∈ seen -> wire_name map' n = wire_name map n).
  { intros n Hin. unfold wire_name, map'. cbn. rewrite lookup_insert_ne; [done|]. by intros ->. }
  assert (Hfree : forall n, n ∈ seen -> wire_name map n <> unique).
  { intros n Hin E. pose proof (proj2 (mp_taken _ _ Hm unique n) (conj Hin E)) as Ht. cbn in Ht. congruence. }
  split; cbn [fst snd].
  - intros w n. rewrite lookup_insert_Some, elem_of_cons. pose proof (mp_taken _ _ Hm w n) as Ht.
    cbn [fst snd] in Ht. split.
    + intros [[<- <-]|[Hne Hin]]; [by split; [left|]|]. apply Ht in Hin as [Hin ?].
      split; [by right|]. by rewrite Hw'.
    + intros [[->|Hin] E]; [left; split; congruence|]. rewrite Hw' in E by done. right.
      split; [intros <-; by apply (Hfree n)|by apply Ht].
  - intros n [->|Hin]%elem_of_cons; [by rewrite Hw|]. rewrite Hw' by done. by apply (mp_strict _ _ Hm).
  - intros n. unfold map'. cbn. rewrite lookup_insert_is_Some. intros [->|[_ Hin]]; [left|].
    right. by apply (mp_seen _ _ Hm).
  - intros w n. unfold map'. cbn. rewrite !lookup_insert_Some. pose proof (mp_back _ _ Hm w n) as Hb.
    cbn in Hb. split.
    + intros [[<- <-]|[Hne H]]; [by left|]. apply Hb in H. right. split; [|done]. intros <-. congruence.
    + intros [[<- <-]|[Hne H]]; [by left|]. right. split; [|by apply Hb]. intros <-.
      assert (Hin : n ∈ seen) by (apply (mp_seen _ _ Hm); by exists unique).
      apply (Hfree n Hin). unfold wire_name. by rewrite H.
  - rewrite map_size_insert_None by done. simpl. f_equal. apply (mp_size _ _ Hm).
Qed.

Lemma mapped_step hash seen state name :
  mapped seen state -> name ∉ seen -> suffix_fits (Z.of_nat (length seen) + 3) ->
  mapped (name :: seen) (build_step hash state name).
Proof.
  destruct state as [map taken]. intros Hm Hn Hl. unfold build_step.
  pose proof (sanitized_strict hash name) as Hs. set (candidate := sanitize_tool_name hash name) in *.
  destruct (bool_decide (candidate = name) && bool_decide (taken !! candidate = None)) eqn:E.
  - apply andb_true_iff in E as [E1%bool_decide_eq_true E2%bool_decide_eq_true]. rewrite E1 in *.
    by apply mapped_kept.
  - destruct (first_unused_free taken candidate candidate) as [Hf Hu].
    { pose proof (mp_size _ _ Hm) as Hsz. cbn in Hsz. by rewrite Hsz. }
    apply mapped_renamed; [done..| |done]. destruct Hu as [->|(n & Hn' & ->)]; [done|].
    by apply suffixed_strict.
Qed.

Lemma mapped_all hash names seen state :
  mapped seen state -> NoDup (names ++ seen) -> suffix_fits (Z.of_nat (length (names ++ seen)) + 3) ->
  mapped (reverse names ++ seen) (foldl (build_step hash) state names).
Proof.
  revert seen state. induction names as [|name names IH]; intros seen state Hm Hn Hl; cbn [foldl]; [done|].
  cbn [app] in Hn. apply NoDup_cons in Hn as [Hni Hn]. rewrite not_elem_of_app in Hni.
  rewrite reverse_cons, <- app_assoc. cbn [app]. apply IH.
  - apply mapped_step; [done|apply Hni|]. rewrite length_app in Hl. cbn [length] in Hl.
    unfold suffix_fits in *. lia.
  - rewrite <- Permutation_middle. apply NoDup_cons. rewrite not_elem_of_app. by split.
  - by rewrite <- Permutation_middle.
Qed.

(** ** The names of a request *)

Lemma elem_of_dedup l x : x ∈ dedup l <-> x ∈ l.
Proof.
  induction l as [|y l IH]; [done|]. destruct l as [|z l]; [done|]. cbn [dedup] in *.
  case_bool_decide; subst; set_solver.
Qed.
Lemma dedup_NoDup l :
  StronglySorted (fun a b => lex_le (Z.of_N <$> a) (Z.of_N <$> b) = true) l -> NoDup (dedup l).
Proof.
  induction 1 as [|x l Hl IH Hx]; [constructor|]. destruct l as [|y l]; [apply NoDup_singleton|].
  cbn [dedup] in *. case_bool_decide as E; [done|]. apply NoDup_cons. split; [|done].
  change (x ∉ dedup (y :: l)). rewrite elem_of_dedup. intros [->|Hin]%elem_of_cons; [done|].
  apply StronglySorted_inv in Hl as [_ Hy]. rewrite Forall_forall in Hx, Hy.
  pose proof (Hx y ltac:(left)) as H1. pose proof (Hy x Hin) as H2.
  apply E, (inj (fmap Z.of_N)). by apply lex_le_antisym.
Qed.
Lemma collected_NoDup request : NoDup (collected_names request).
Proof. apply dedup_NoDup, sort_by_key_sorted. Qed.
Lemma elem_of_collected request name : name ∈ collected_names request <-> name ∈ mentioned_names request.
Proof. unfold collected_names. by rewrite elem_of_dedup, sort_by_key_perm. Qed.

Lemma mapped_empty : mapped [] (ToolNameMap_default, ∅).
Proof.
  split; cbn; [|set_solver|intros n; by rewrite lookup_empty, <- not_eq_None_Some| |by rewrite map_size_empty].
  - intros w n. rewrite lookup_empty. set_solver.
  - intros w n. by rewrite !lookup_empty.
Qed.
Lemma mapped_request hash request :
  (Z.of_nat (length (collected_names request)) <= u64_max)%Z ->
  exists taken, mapped (reverse (collected_names request)) (ToolNameMap_build hash request, taken).
Proof.
  intros Hl. pose proof (mapped_all hash (collected_names request) [] _ mapped_empty) as H.
  rewrite !app_nil_r in H. specialize (H (collected_NoDup request)).
  unfold ToolNameMap_build. destruct (foldl _ _ _) as [map taken]. exists taken. cbn [fst]. apply H.
  unfold suffix_fits. int_lia.
Qed.

(** The reply is given back the name the client knows. *)
Lemma original_of_wire hash request name :
  (Z.of_nat (length (collected_names request)) <= u64_max)%Z -> name ∈ mentioned_names request ->
  original_name (ToolNameMap_build hash request) (wire_name (ToolNameMap_build hash request) name) = name.
Proof.
  intros Hl Hn. set (map := ToolNameMap_build hash request).
  destruct (mapped_request hash request Hl) as [taken Hm]. fold map in Hm.
  assert (Hin : name ∈ reverse (collected_names request)) by by rewrite elem_of_reverse, elem_of_collected.
  unfold original_name. destruct (tm_original_to_wire map !! name) as [w|] eqn:E.
  - assert (wire_name map name = w) as -> by (unfold wire_name; by rewrite E).
    pose proof (proj2 (mp_back _ _ Hm w name) E) as Hb. cbn [fst] in Hb. by rewrite Hb.
  - assert (Hw : wire_name map name = name) by (unfold wire_name; by rewrite E). rewrite Hw.
    destruct (tm_wire_to_original map !! name) as [n|] eqn:E'; [|done]. cbn.
    pose proof (proj1 (mp_back _ _ Hm name n) E') as Hb. cbn in Hb.
    assert (Hn' : n ∈ reverse (collected_names request)) by (apply (mp_seen _ _ Hm); by exists name).
    assert (Hwn : wire_name map n = name) by (unfold wire_name; by rewrite Hb).
    pose proof (proj2 (mp_taken _ _ Hm name n) (conj Hn' Hwn)) as H1.
    pose proof (proj2 (mp_taken _ _ Hm name name) (conj Hin Hw)) as H2. congruence.
Qed.
Lemma wire_name_strict hash request name :
  (Z.of_nat (length (collected_names request)) <= u64_max)%Z -> name ∈ mentioned_names request ->
  strict_name (wire_name (ToolNameMap_build hash request) name).
Proof.
  intros Hl Hn. destruct (mapped_request hash request Hl) as [taken Hm]. apply (mp_strict _ _ Hm).
  by rewrite elem_of_reverse, elem_of_collected.
Qed.

(** A request whose names are all accepted is given no other names. *)
Lemma build_kept hash names taken :
  NoDup names -> (forall n, n ∈ names -> is_accepted_tool_name n = true) -> (forall n, n ∈ names -> taken !! n = None) ->
  (foldl (build_step hash) (ToolNameMap_default, taken) names).1 = ToolNameMap_default.
Proof.
  revert taken. induction names as [|name names IH]; intros taken Hn Ha Hf; cbn [foldl]; [done|].
  apply NoDup_cons in Hn as [Hni Hn]. unfold build_step at 2. unfold sanitize_tool_name. rewrite Ha by left.
  rewrite (bool_decide_eq_true_2 (name = name)), (bool_decide_eq_true_2 (taken !! name = None)) by (done || (apply Hf; left)).
  apply IH; [done|intros n ?; apply Ha; by right|]. intros n Hin. rewrite lookup_insert_ne by (by intros ->). apply Hf. by right.
Qed.
Lemma accepted_names_kept hash request :
  (forall n, n ∈ mentioned_names request -> strict_name n) -> ToolNameMap_build hash request = ToolNameMap_default.
Proof.
  intros Ha. unfold ToolNameMap_build. apply build_kept; [apply collected_NoDup| |done].
  intros n Hn. apply accepted_strict, Ha. by apply elem_of_collected.
Qed.

(** C31. Every name the request mentions is given to the upstream under a name the
    strict protocols accept, and different tools keep different names. *)
Theorem wire_names_are_accepted_and_distinct (hash : str -> Z) (request : CanonicalRequest) :
  (Z.of_nat (length (collected_names request)) <= u64_max)%Z ->
  let map := ToolNameMap_build hash request in
  (forall name, name ∈ mentioned_names request -> strict_name (wire_name map name)) /\
  (forall a b, a ∈ mentioned_names request -> b ∈ mentioned_names request ->
     wire_name map a = wire_name map b -> a = b).
Proof.
  intros Hl map. destruct (mapped_request hash request Hl) as [taken Hm].
  assert (Hin : forall n, n ∈ mentioned_names request -> n ∈ reverse (collected_names request)).
  { intros n. by rewrite elem_of_reverse, elem_of_collected. }
  split; [intros name Hn; by apply (mp_strict _ _ Hm), Hin|].
  intros a b Ha Hb E. pose proof (proj2 (mp_taken _ _ Hm (wire_name map a) a) (conj (Hin a Ha) eq_refl)) as H1.
  pose proof (proj2 (mp_taken _ _ Hm (wire_name map a) b) (conj (Hin b Hb) (eq_sym E))) as H2. congruence.
Qed.

(** The reply calls the client's own tools: the name the upstream was given
    for a tool is restored to the tool's name, in a stream and in a whole
    reply. *)
Theorem restored_name_is_the_clients (hash : str -> Z) (request : CanonicalRequest) (id name : str) (arguments : json) :
  (Z.of_nat (length (collected_names request)) <= u64_max)%Z -> name ∈ mentioned_names request ->
  let map := ToolNameMap_build hash request in
  restore_event map (ToolCallStart id (wire_name map name)) = ToolCallStart id name /\
  forall response, rs_parts response = [ToolCall id (wire_name map name) arguments] ->
    rs_parts (restore_response map response) = [ToolCall id name arguments].
Proof.
  intros Hl Hn map. pose proof (original_of_wire hash request name Hl Hn : original_name map (wire_name map name) = name) as Hr.
  assert (He : map_is_empty map = true -> wire_name map name = name).
  { intros H%bool_decide_eq_true. unfold wire_name. by rewrite H, lookup_empty. }
  unfold restore_event, restore_response. destruct (map_is_empty map); [rewrite He by done; naive_solver|].
  split; [by rewrite Hr|]. intros response ->. cbn. by rewrite Hr.
Qed.

(** A request with two tools whose names differ in a character only Gemini
    accepts. *)
Definition dotted_request : CanonicalRequest :=
  {| cr_model := lit "m"; cr_system := []; cr_messages := [];
     cr_tools := [mkToolDefinition (lit "a.b") [] JNull false; mkToolDefinition (lit "a_b") [] JNull false];
     cr_tool_choice := ChoiceAuto; cr_parallel_tool_calls := None;
     cr_sampling := mkSampling None None None []; cr_reasoning := mkReasoning false None;
     cr_stream := false; cr_opaque := [] |}.

(** A Gemini upstream is given every name as the client spelled it, but its
    reply is restored all the same: a call of the tool [a_b] reaches the client
    as a call of the tool [a.b]. *)
Theorem gemini_call_is_renamed (hash : str -> Z) (body : json) (id : str) :
  let map := ToolNameMap_build hash dotted_request in
  rewrite_body map GeminiGenerateContent body = body /\
  restore_event map (ToolCallStart id (lit "a_b")) = ToolCallStart id (lit "a.b").
Proof.
  split; [unfold rewrite_body; by destruct (map_is_empty _)|]. vm_compute. reflexivity.
Qed.
