(* ===== verification/Forward.v ===== *)
(** The way of an upstream reply to the client: the usage sniffer of
    crates/model-gateway/src/stream.rs, the streaming relay [forward] and the
    reading half of [gather] of src/service.rs, over any decoder and encoder.
    The upstream's body is the list of what reading it gives; the client is the
    number of writes it takes before it is gone. *)
From stdpp Require Import prelude strings list.
From Stdlib Require Import NArith ZArith Lia.
From S2P Require Import Prelude CoreTypes GatewayTypes GatewayErrors Ir Json Upstream Sse Wire.
From S2P Require Import AnthropicStream ChatStream ToolNames.

Definition DONE_DATA : str := lit "[DONE]".
(** [data.trim() == "[DONE]"]. *)
Definition is_done (data : str) : bool := bool_decide (trim data = DONE_DATA).

(** ** Usage of a passthrough reply (UsageSniffer) *)

Record UsageSniffer : Type := mkSniffer {
  sn_protocol : WireProtocol;
  sn_usage : CanonicalUsage;
  sn_saw_terminal : bool
}.
Definition UsageSniffer_new (protocol : WireProtocol) : UsageSniffer :=
  mkSniffer protocol CanonicalUsage_default false.

Definition u64_at (v : json) (path : list string) : Z := default 0%Z (u64_of (json_pointer (lit <$> path) v)).
Definition str_at (v : json) (path : list string) : option str := str_of (json_pointer (lit <$> path) v).
Definition non_null (o : option json) : option json :=
  match o with Some v => if json_is_null v then None else Some v | None => None end.

(** The counters a value tells, and whether it ends the reply. *)
Definition sniffed_usage (protocol : WireProtocol) (value : json) : option CanonicalUsage :=
  match protocol with
  | ChatCompletions =>
      (fun u => mkUsage (u64_at u ["prompt_tokens"]) (u64_at u ["completion_tokens"])
                  (u64_at u ["prompt_tokens_details"; "cached_tokens"]) 0 0)
      <$> non_null (json_get (lit "usage") value)
  | Responses =>
      (fun u => mkUsage (u64_at u ["input_tokens"]) (u64_at u ["output_tokens"])
                  (u64_at u ["input_tokens_details"; "cached_tokens"]) 0 0)
      <$> non_null (json_pointer [lit "response"; lit "usage"] value)
  | AnthropicMessages =>
      (fun u => mkUsage (u64_at u ["input_tokens"]) (u64_at u ["output_tokens"])
                  (u64_at u ["cache_read_input_tokens"]) (u64_at u ["cache_creation_input_tokens"]) 0)
      <$> non_null (match json_pointer [lit "message"; lit "usage"] value with
                    | Some u => Some u
                    | None => json_get (lit "usage") value
                    end)
  | GeminiGenerateContent =>
      (fun u => mkUsage (u64_at u ["promptTokenCount"]) (u64_at u ["candidatesTokenCount"])
                  (u64_at u ["cachedContentTokenCount"]) 0 (u64_at u ["thoughtsTokenCount"]))
      <$> json_get (lit "usageMetadata") value
  end.
Definition sniffed_terminal (protocol : WireProtocol) (value : json) : bool :=
  let type := str_of (json_get (lit "type") value) in
  match protocol with
  | ChatCompletions => bool_decide (is_Some (str_at value ["choices"; "0"; "finish_reason"]))
  | Responses =>
      bool_decide (type = Some (lit "response.completed")) || bool_decide (type = Some (lit "response.incomplete"))
      || bool_decide (type = Some (lit "response.failed"))
  | AnthropicMessages => bool_decide (type = Some (lit "message_stop"))
  | GeminiGenerateContent => bool_decide (is_Some (str_at value ["candidates"; "0"; "finishReason"]))
  end.
Definition sniff_frame `{JsonText} (s : UsageSniffer) (frame : Frame) : UsageSniffer :=
  if is_done frame.2 then mkSniffer (sn_protocol s) (sn_usage s) true
  else match json_from_str frame.2 with
       | None => s
       | Some value =>
           let usage := match sniffed_usage (sn_protocol s) value with
                        | Some u => CanonicalUsage_merge (sn_usage s) u
                        | None => sn_usage s
                        end in
           mkSniffer (sn_protocol s) usage (sn_saw_terminal s || sniffed_terminal (sn_protocol s) value)
       end.
Definition observe `{JsonText} (s : UsageSniffer) (frames : list Frame) : UsageSniffer := foldl sniff_frame s frames.

(** ** The relay (forward) *)

(** One result of reading the upstream: bytes, and whether ten seconds have
    passed since something was last written; or the end of a broken body, which
    is also what a first token that comes too late is. *)
Inductive Chunk : Type :=
| Bytes (bytes : list N) (quiet : bool)
| Broken.

Section relay.
Context `{JsonText} `{StreamDecoder D} `{StreamEncoder E}.
Context (names : ToolNameMap) (takes : nat).

(** [sender.send]: a client that is gone takes nothing. *)
Definition send (sent : list (list N)) (out : list N) : bool * list (list N) :=
  if length sent <? takes then (true, sent ++ [out]) else (false, sent).

(** One decoded event on its way to the client. *)
Definition relay_event (state : str * option GatewayError * E * ReplyAccumulator) (event : CanonicalEvent)
  : str * option GatewayError * E * ReplyAccumulator :=
  let '(translated, error, encoder, reply) := state in
  let event := restore_event names event in
  let reply := reply_apply reply event in
  match se_encode encoder event with
  | (Ok bytes, encoder) => (translated ++ bytes, error, encoder, reply)
  | (Err e, encoder) => (translated, Some e, encoder, reply)
  end.
(** The frames of one chunk. *)
Definition relay_frame (state : str * option GatewayError * D * E * ReplyAccumulator) (frame : Frame)
  : str * option GatewayError * D * E * ReplyAccumulator :=
  let '(translated, error, decoder, encoder, reply) := state in
  if is_done frame.2 then state
  else match sd_decode decoder frame.2 with
       | (Ok events, decoder) =>
           let '(translated, error, encoder, reply) :=
             foldl relay_event (translated, error, encoder, reply) events in
           (translated, error, decoder, encoder, reply)
       | (Err e, decoder) => (translated, Some e, decoder, encoder, reply)
       end.

Record Relay : Type := mkRelay {
  rl_buffer : str;
  rl_decoder : D;
  rl_encoder : E;
  rl_reply : ReplyAccumulator;
  rl_sniffer : UsageSniffer;
  rl_sent : list (list N)
}.

(** What one chunk does: the stream goes on, ends as failed, or nobody is
    left to write to. *)
Inductive Turned : Type :=
| GoesOn (relay : Relay)
| Fails (relay : Relay)
| Left (sent : list (list N)).

Definition pass_chunk (r : Relay) (bytes : list N) : Turned :=
  let '(frames, pending) := SseBuffer_push (rl_buffer r) bytes in
  let sniffer := observe (rl_sniffer r) frames in
  let '(ok, sent) := send (rl_sent r) bytes in
  if ok then GoesOn (mkRelay pending (rl_decoder r) (rl_encoder r) (rl_reply r) sniffer sent) else Left sent.

Definition translate_chunk (r : Relay) (bytes : list N) (quiet : bool) : Turned :=
  let '(frames, pending) := SseBuffer_push (rl_buffer r) bytes in
  let '(translated, error, decoder, encoder, reply) :=
    foldl relay_frame ([], None, rl_decoder r, rl_encoder r, rl_reply r) frames in
  let '(ok, sent) :=
    if negb (is_empty translated) then send (rl_sent r) (as_bytes translated)
    else if quiet then
      match se_keepalive (T := E) with
      | Some keepalive => send (rl_sent r) (as_bytes keepalive)
      | None => (true, rl_sent r)
      end
    else (true, rl_sent r) in
  if negb ok then Left sent
  else match error with
       | None => GoesOn (mkRelay pending decoder encoder reply (rl_sniffer r) sent)
       | Some e =>
           let '(frame, encoder) := se_encode encoder (ErrorEvent 502 (GatewayError_message e)) in
           let frame := match frame with Ok frame => frame | Err _ => [] end in
           let '(_, sent) := send sent (as_bytes frame) in
           Fails (mkRelay pending decoder encoder reply (rl_sniffer r) sent)
       end.

Fixpoint relay_loop (passthrough : bool) (r : Relay) (chunks : list Chunk) : Turned :=
  match chunks with
  | [] => GoesOn r
  | Broken :: _ => Fails r
  | Bytes bytes quiet :: chunks =>
      match (if passthrough then pass_chunk r bytes else translate_chunk r bytes quiet) with
      | GoesOn r => relay_loop passthrough r chunks
      | turned => turned
      end
  end.

(** What the buffer and the decoder still held, event by event. *)
Definition close_event (state : E * ReplyAccumulator * list (list N)) (event : CanonicalEvent)
  : E * ReplyAccumulator * list (list N) :=
  let '(encoder, reply, sent) := state in
  let event := restore_event names event in
  let reply := reply_apply reply event in
  match se_encode encoder event with
  | (Ok bytes, encoder) => (encoder, reply, (send sent (as_bytes bytes)).2)
  | (Err _, encoder) => (encoder, reply, sent)
  end.
Definition close_frame (state : D * (E * ReplyAccumulator * list (list N))) (frame : Frame)
  : D * (E * ReplyAccumulator * list (list N)) :=
  let '(decoder, rest) := state in
  if is_done frame.2 then state
  else let '(events, decoder) := sd_decode decoder frame.2 in
       (decoder, foldl close_event rest (match events with Ok events => events | Err _ => [] end)).
Definition close_translation (r : Relay) : ReplyAccumulator * list (list N) :=
  let '(frames, _) := SseBuffer_finish (rl_buffer r) in
  let '(decoder, rest) := foldl close_frame (rl_decoder r, (rl_encoder r, rl_reply r, rl_sent r)) frames in
  let '(encoder, reply, sent) :=
    foldl close_event rest (match (sd_finish decoder).1 with Ok events => events | Err _ => [] end) in
  match (se_finish encoder).1 with
  | Ok tail => (reply, if is_empty tail then sent else (send sent (as_bytes tail)).2)
  | Err _ => (reply, sent)
  end.

Definition ERROR_FRAME : str :=
  sse_frame None (JObject [(lit "error", JObject
    [(lit "type", JString (lit "upstream_error"));
     (lit "message", JString (lit "the upstream stream ended before the reply was complete"))])]).

(** What is written to the ledger of a reply: whether it failed and its usage. *)
Record Relayed : Type := mkRelayed {
  rd_sent : list (list N);
  rd_record : option (bool * CanonicalUsage)
}.

Definition forward (passthrough : bool) (target : WireProtocol) (answered_model : str) (chunks : list Chunk) : Relayed :=
  let start := mkRelay [] sd_new (se_new answered_model) ReplyAccumulator_default (UsageSniffer_new target) [] in
  let closing (failed : bool) (r : Relay) : Relayed :=
    let '(reply, sent) := if passthrough then (rl_reply r, rl_sent r) else close_translation r in
    let failed := if passthrough then failed || negb (sn_saw_terminal (rl_sniffer r)) else failed in
    let usage := if passthrough then sn_usage (rl_sniffer r) else ra_usage reply in
    let sent := if failed then (send sent (as_bytes ERROR_FRAME)).2 else sent in
    mkRelayed sent (Some (failed, usage)) in
  match relay_loop passthrough start chunks with
  | Left sent => mkRelayed sent None
  | GoesOn r => closing false r
  | Fails r => closing true r
  end.

(** ** Reading a streamed reply whole (gather) *)

(** The branch for an upstream that streams: what the buffer still holds at
    the end is looked at for usage only. *)
Definition gather_streamed (target : WireProtocol) (bytes : list N) : CanonicalResponse :=
  let '(frames, pending) := SseBuffer_push [] bytes in
  let '(_, reply) :=
    foldl (fun '(decoder, reply) frame =>
      if is_done (frame : Frame).2 then (decoder, reply)
      else let '(events, decoder) := sd_decode decoder frame.2 in
           (decoder, foldl reply_apply reply (match events with Ok events => events | Err _ => [] end)))
      (sd_new (T := D), ReplyAccumulator_default) frames in
  let sniffer := observe (UsageSniffer_new target) (SseBuffer_finish pending).1 in
  let reply := if (0 <? CanonicalUsage_total (sn_usage sniffer))%Z
               then reply_apply reply (UsageEvent (sn_usage sniffer)) else reply in
  restore_response names (reply_finish reply).
End relay.

(** * Lemmas *)

(** The payloads a decoder is given. *)
Definition datas_of (frames : list Frame) : list str := retain (fun data => negb (is_done data)) frames.*2.

Lemma datas_app a b : datas_of (a ++ b) = datas_of a ++ datas_of b.
Proof. unfold datas_of. by rewrite fmap_app, List.filter_app. Qed.
Lemma as_bytes_app a b : as_bytes (a ++ b) = as_bytes a ++ as_bytes b.
Proof. unfold as_bytes. by rewrite bind_app. Qed.

Lemma decode_all_err `{StreamDecoder D} (a b : list str) (d d' : D) e :
  decode_all d a = (Err e, d') -> decode_all d (a ++ b) = (Err e, d').
Proof.
  revert d. induction a as [|x a IH]; intros d; cbn [decode_all app]; [done|].
  destruct (sd_decode d x) as [[out|e'] d1]; [|done].
  destruct (decode_all d1 a) as [[more|e'] d2] eqn:E; [done|]. intros [= -> ->]. by rewrite (IH d1).
Qed.
Lemma decode_all_app_inv `{StreamDecoder D} (a b : list str) (d d' : D) events :
  decode_all d (a ++ b) = (Ok events, d') ->
  exists first second d1, decode_all d a = (Ok first, d1) /\ decode_all d1 b = (Ok second, d') /\
    events = first ++ second.
Proof.
  destruct (decode_all d a) as [[first|e] d1] eqn:E.
  - rewrite (decode_all_app a b d d1 first E). destruct (decode_all d1 b) as [[second|e] d2] eqn:E2; [|done].
    intros [= <- <-]. by exists first, second, d1.
  - by rewrite (decode_all_err a b d d1 e E).
Qed.

Lemma encode_all_app `{StreamEncoder E} (e : E) a b :
  encode_all e (a ++ b) =
  ((encode_all e a).1 ++ (encode_all (encode_all e a).2 b).1, (encode_all (encode_all e a).2 b).2).
Proof.
  revert e. induction a as [|x a IH]; intros e; cbn [encode_all app fst snd]; [apply surjective_pairing|].
  destruct (se_encode e x) as [out e1]. rewrite IH. destruct (encode_all e1 a) as [more e2]. cbn [fst snd].
  by rewrite app_assoc.
Qed.

(** An encoder that can always say what it is told. *)
Class TotalEncoder (E : Type) `{StreamEncoder E} : Prop :=
  encodes : forall (e : E) event, exists out, (se_encode e event).1 = Ok out.

#[export] Instance anthropic_total `{JsonText} : TotalEncoder AnthropicEncoder.
Proof. intros e event. cbn [se_encode anthropic_encoder]. destruct (anthropic_frames e event). by eexists. Qed.
#[export] Instance chat_total `{JsonText} : TotalEncoder ChatEncoder.
Proof. intros e event. cbn [se_encode chat_encoder]. destruct (chat_frames e event). by eexists. Qed.

Section relay_proofs.
Context `{JsonText} `{StreamDecoder D} `{StreamEncoder E, !TotalEncoder E}.
Context (names : ToolNameMap) (takes : nat).
#[local] Notation restored events := (restore_event names <$> events).

Lemma relay_events events translated error (e : E) reply :
  foldl (relay_event names) (translated, error, e, reply) events =
  (translated ++ (encode_all e (restored events)).1, error, (encode_all e (restored events)).2,
   foldl reply_apply reply (restored events)).
Proof.
  revert translated e reply. induction events as [|event events IH]; intros translated e reply;
    cbn [foldl fmap list_fmap encode_all fst snd]; [by rewrite app_nil_r|].
  unfold relay_event at 2. destruct (encodes e (restore_event names event)) as [out Ho].
  destruct (se_encode e (restore_event names event)) as [o e1]. cbn [fst] in Ho. subst o. rewrite IH.
  destruct (encode_all e1 (restored events)) as [more e2]. cbn [fst snd]. by rewrite app_assoc.
Qed.

Lemma relay_frames frames events translated error (d d' : D) (e : E) reply :
  decode_all d (datas_of frames) = (Ok events, d') ->
  foldl (relay_frame names) (translated, error, d, e, reply) frames =
  (translated ++ (encode_all e (restored events)).1, error, d', (encode_all e (restored events)).2,
   foldl reply_apply reply (restored events)).
Proof.
  revert events translated d e reply. induction frames as [|[n data] frames IH];
    intros events translated d e reply Hd.
  - injection Hd as <- <-. cbn. by rewrite app_nil_r.
  - cbn [foldl]. unfold relay_frame at 2. cbn [snd]. unfold datas_of in Hd. cbn [fmap list_fmap retain snd] in Hd.
    destruct (is_done data) eqn:Ed; cbn [negb] in Hd; [by apply IH|].
    cbn [decode_all] in Hd. destruct (sd_decode d data) as [[out|err] d1]; [|done].
    destruct (decode_all d1 _) as [[more|err] d2] eqn:E2; [|done]. injection Hd as <- <-.
    rewrite relay_events, (IH more _ d1 _ _ E2), fmap_app, encode_all_app, foldl_app. cbn [fst snd].
    by rewrite app_assoc.
Qed.

Lemma send_taken sent out : length sent < takes -> send takes sent out = (true, sent ++ [out]).
Proof. intros Hl. unfold send. by rewrite (proj2 (Nat.ltb_lt _ _) Hl). Qed.

(** The loop over a body that is read and decoded to the end. *)
Lemma relay_loop_reads texts pending events (d d' : D) (e : E) reply sniffer sent :
  decode_all d (datas_of (push_all pending (as_bytes <$> texts)).1) = (Ok events, d') ->
  length sent + length texts <= takes ->
  exists sent',
    relay_loop names takes false (mkRelay pending d e reply sniffer sent)
      ((fun text => Bytes (as_bytes text) false) <$> texts) =
    GoesOn (mkRelay (push_all pending (as_bytes <$> texts)).2 d' (encode_all e (restored events)).2
              (foldl reply_apply reply (restored events)) sniffer sent') /\
    concat sent' = concat sent ++ as_bytes (encode_all e (restored events)).1 /\
    length sent' <= length sent + length texts.
Proof.
  revert pending events d e reply sent. induction texts as [|text texts IH];
    intros pending events d e reply sent Hd Hl; cbn [fmap list_fmap push_all relay_loop] in *.
  - injection Hd as <- <-. exists sent. split_and!; [done| |lia]. cbn. by rewrite app_nil_r.
  - unfold translate_chunk. cbn [rl_buffer rl_decoder rl_encoder rl_reply rl_sent rl_sniffer].
    destruct (SseBuffer_push pending (as_bytes text)) as [frames pending1].
    destruct (push_all pending1 (as_bytes <$> texts)) as [more pending2] eqn:Ep. cbn [fst snd] in Hd |- *.
    rewrite datas_app in Hd. apply decode_all_app_inv in Hd as (first & second & d1 & Hd1 & Hd2 & ->).
    rewrite (relay_frames frames first _ _ d d1 e reply Hd1). cbn [app negb].
    set (out := (encode_all e (restored first)).1).
    assert (Hs : exists sent1,
      (if negb (is_empty out) then send takes sent (as_bytes out) else (true, sent)) = (true, sent1) /\
      concat sent1 = concat sent ++ as_bytes out /\ length sent1 <= S (length sent)).
    { cbn [length] in Hl. destruct out as [|c out']; cbn [is_empty negb].
      - exists sent. split_and!; [done| |lia]. cbn. by rewrite app_nil_r.
      - eexists. rewrite send_taken by lia. split_and!; [done| |rewrite length_app; simpl; lia].
        rewrite concat_app. cbn [concat]. by rewrite app_nil_r. }
    destruct Hs as (sent1 & Hs1 & Hs2 & Hs3). cbn [negb] in Hs1. rewrite Hs1. cbn [negb].
    specialize (IH pending1 second d1 (encode_all e (restored first)).2 (foldl reply_apply reply (restored first)) sent1).
    rewrite Ep in IH. cbn [fst snd length] in *. destruct IH as (sent' & Hi1 & Hi2 & Hi3); [done|lia|].
    exists sent'. rewrite Hi1, Hi2, Hs2. rewrite fmap_app, encode_all_app, foldl_app. cbn [fst snd].
    split_and!; [done| |lia]. rewrite as_bytes_app, app_assoc. done.
Qed.

Lemma close_events events (e : E) reply sent :
  length sent + length events <= takes ->
  exists sent',
    foldl (close_event names takes) (e, reply, sent) events =
    ((encode_all e (restored events)).2, foldl reply_apply reply (restored events), sent') /\
    concat sent' = concat sent ++ as_bytes (encode_all e (restored events)).1 /\
    length sent' = length sent + length events.
Proof.
  revert e reply sent. induction events as [|event events IH]; intros e reply sent Hl;
    cbn [foldl fmap list_fmap encode_all fst snd length] in *.
  - exists sent. split_and!; [done| |lia]. by rewrite app_nil_r.
  - unfold close_event at 2. destruct (encodes e (restore_event names event)) as [out Ho].
    destruct (se_encode e (restore_event names event)) as [o e1]. cbn [fst] in Ho. subst o.
    rewrite send_taken by lia. cbn [snd].
    destruct (IH e1 (reply_apply reply (restore_event names event)) (sent ++ [as_bytes out])) as (sent' & Hi1 & Hi2 & Hi3).
    { rewrite length_app. simpl. lia. }
    rewrite Hi1. exists sent'. destruct (encode_all e1 (restored events)) as [more e2]. cbn [fst snd] in *.
    split_and!; [done| |rewrite Hi3, length_app; simpl; lia].
    rewrite Hi2, concat_app, as_bytes_app. cbn [concat]. by rewrite app_nil_r, app_assoc.
Qed.

Lemma close_frames frames events (d d' : D) (e : E) reply sent :
  decode_all d (datas_of frames) = (Ok events, d') -> length sent + length events <= takes ->
  exists sent',
    foldl (close_frame names takes) (d, (e, reply, sent)) frames =
    (d', ((encode_all e (restored events)).2, foldl reply_apply reply (restored events), sent')) /\
    concat sent' = concat sent ++ as_bytes (encode_all e (restored events)).1 /\
    length sent' = length sent + length events.
Proof.
  revert events d e reply sent. induction frames as [|[n data] frames IH]; intros events d e reply sent Hd Hl.
  - injection Hd as <- <-. exists sent. cbn. rewrite app_nil_r. split_and!; [done|done|lia].
  - cbn [foldl]. unfold close_frame at 2. cbn [snd]. unfold datas_of in Hd. cbn [fmap list_fmap retain snd] in Hd.
    destruct (is_done data) eqn:Ed; cbn [negb] in Hd; [by apply IH|].
    cbn [decode_all] in Hd. destruct (sd_decode d data) as [[out|err] d1]; [|done].
    destruct (decode_all d1 _) as [[more|err] d2] eqn:E2; [|done]. injection Hd as <- <-.
    rewrite length_app in Hl. destruct (close_events out e reply sent) as (sent1 & -> & Hc1 & Hl1); [lia|].
    destruct (IH more d1 (encode_all e (restored out)).2 (foldl reply_apply reply (restored out)) sent1 E2)
      as (sent' & -> & Hc2 & Hl2); [lia|].
    exists sent'. rewrite fmap_app, encode_all_app, foldl_app, length_app. cbn [fst snd].
    split_and!; [done| |lia]. by rewrite Hc2, Hc1, as_bytes_app, app_assoc.
Qed.
End relay_proofs.

(** The end of a translation whose body was read up to [pending]. *)
Lemma close_translation_reads `{JsonText} `{StreamDecoder D} `{StreamEncoder E, !TotalEncoder E}
    (names : ToolNameMap) (takes : nat) (pending : str) (d d' : D) (e : E) reply sniffer sent second final :
  decode_all d (datas_of (parse_sse pending)) = (Ok second, d') -> (sd_finish d').1 = Ok final ->
  length sent + length second + length final < takes ->
  let said := restore_event names <$> (second ++ final) in
  exists sent',
    close_translation names takes (mkRelay pending d e reply sniffer sent) = (foldl reply_apply reply said, sent') /\
    concat sent' = concat sent ++ as_bytes ((encode_all e said).1 ++
      match (se_finish (encode_all e said).2).1 with Ok tail => tail | Err _ => [] end).
Proof.
  intros Hd Hf Hl said. unfold close_translation. cbn [rl_buffer rl_decoder rl_encoder rl_reply rl_sent].
  rewrite <- finish_frames in Hd. destruct (SseBuffer_finish pending) as [rest pending']. cbn [fst] in Hd.
  destruct (close_frames names takes rest second d d' e reply sent Hd) as (sent1 & -> & Hc1 & Hl1); [lia|].
  rewrite Hf. destruct (close_events names takes final (encode_all e (restore_event names <$> second)).2
    (foldl reply_apply reply (restore_event names <$> second)) sent1) as (sent2 & -> & Hc2 & Hl2); [lia|].
  unfold said. rewrite fmap_app, encode_all_app, foldl_app. cbn [fst snd].
  set (e2 := (encode_all _ (restore_event names <$> final)).2).
  destruct (se_finish e2).1 as [tail|err].
  - eexists. split; [done|]. destruct tail as [|c tail]; cbn [is_empty].
    + by rewrite app_nil_r, Hc2, Hc1, as_bytes_app, app_assoc.
    + rewrite send_taken by lia. cbn [snd]. rewrite concat_app. cbn [concat]. rewrite app_nil_r, Hc2, Hc1.
      by rewrite !as_bytes_app, !app_assoc.
  - eexists. split; [done|]. by rewrite app_nil_r, Hc2, Hc1, as_bytes_app, app_assoc.
Qed.

(** C28. A translated reply that arrives whole, in chunks that each end between two
    characters, and fast enough that no keepalive is due, that the decoder reads
    without an error and the client takes to its end: however the chunks are
    cut, what the client gets is what decoding the whole text, restoring the
    tool names and encoding the events for the client gives; the ledger has the
    usage those events tell. *)
Theorem relay_is_decode_then_encode `{JsonText} `{StreamDecoder D} `{StreamEncoder E, !TotalEncoder E}
    (names : ToolNameMap) (takes : nat) (target : WireProtocol) (model : str) (texts : list str)
    (events final : list CanonicalEvent) (d : D) :
  Forall (Forall scalar) texts ->
  decode_all sd_new (datas_of (parse_sse (concat texts))) = (Ok events, d) ->
  (sd_finish d).1 = Ok final ->
  length texts + length events + length final < takes ->
  let said := restore_event names <$> (events ++ final) in
  exists sent,
    forward (D := D) (E := E) names takes false target model ((fun text => Bytes (as_bytes text) false) <$> texts) =
    mkRelayed sent (Some (false, ra_usage (reply_of said))) /\
    concat sent = as_bytes (write_reply (T := E) model said).
Proof.
  intros Ht Hd Hf Hl said. pose proof (push_all_frames [] texts Ht) as Hp.
  destruct (push_all [] (as_bytes <$> texts)) as [frames pending] eqn:Ep. cbn [app] in Hp.
  rewrite <- Hp, datas_app in Hd. apply decode_all_app_inv in Hd as (first & second & d1 & Hd1 & Hd2 & ->).
  rewrite length_app in Hl. unfold forward.
  destruct (relay_loop_reads names takes texts [] first sd_new d1 (se_new model) ReplyAccumulator_default
    (UsageSniffer_new target) []) as (sent1 & Hr & Hc1 & Hl1); [by rewrite Ep|simpl; lia|].
  rewrite Hr, Ep. cbn [snd].
  destruct (close_translation_reads names takes pending d1 d (encode_all (se_new model) (restore_event names <$> first)).2
    (foldl reply_apply ReplyAccumulator_default (restore_event names <$> first)) (UsageSniffer_new target) sent1
    second final Hd2 Hf) as (sent2 & -> & Hc2); [simpl in Hl1; lia|].
  exists sent2. unfold said, reply_of. rewrite <- app_assoc, (fmap_app _ first), foldl_app. split; [done|].
  rewrite Hc2, Hc1. unfold write_reply. rewrite encode_all_app. cbn [concat app fst snd].
  by rewrite !as_bytes_app, !app_assoc.
Qed.

(** A stream whose lines end in CRLF is never cut into frames while it runs. *)
Lemma pass_loop_silent `{JsonText, StreamDecoder D, StreamEncoder E} names takes texts pending (d : D) (e : E) reply sniffer sent :
  Forall (Forall scalar) texts -> rsplit_blank (pending ++ concat texts) = None ->
  length sent + length texts <= takes ->
  relay_loop names takes true (mkRelay pending d e reply sniffer sent)
    ((fun text => Bytes (as_bytes text) false) <$> texts) =
  GoesOn (mkRelay (pending ++ concat texts) d e reply sniffer (sent ++ (as_bytes <$> texts))).
Proof.
  intros Ht. revert pending sent. induction Ht as [|text texts Hx Ht IH]; intros pending sent Hn Hl;
    cbn [fmap list_fmap relay_loop concat length] in *; [by rewrite !app_nil_r|].
  pose proof (push_all_silent pending [text] (proj2 (Forall_singleton _ _) Hx)) as Hp.
  assert (Hn1 : rsplit_blank (pending ++ concat [text]) = None).
  { cbn [concat]. rewrite app_nil_r. apply rsplit_blank_None. intros (a & b & E1).
    apply (proj1 (rsplit_blank_None _) Hn). exists a, (b ++ concat texts). by rewrite app_assoc, E1, <- app_assoc. }
  specialize (Hp Hn1).
  unfold pass_chunk. cbn [rl_buffer rl_sniffer rl_sent rl_decoder rl_encoder rl_reply].
  cbn [fmap list_fmap push_all concat] in Hp. destruct (SseBuffer_push pending (as_bytes text)) as [frames p1].
  rewrite !app_nil_r in Hp. injection Hp as Hp1 Hp2. subst. rewrite send_taken by lia.
  rewrite IH; [by rewrite <- !app_assoc|by rewrite <- app_assoc|rewrite length_app; simpl; lia].
Qed.

(** A complete passthrough reply whose lines end in CRLF reaches the client
    whole and is followed by an error; the ledger has it as failed, without
    any usage. *)
Theorem crlf_passthrough_counts_as_failed `{JsonText, StreamDecoder D, StreamEncoder E}
    (names : ToolNameMap) (takes : nat) (target : WireProtocol) (model : str) (texts : list str) :
  Forall (Forall scalar) texts -> (forall a b, concat texts <> a ++ LF :: LF :: b) -> length texts < takes ->
  forward (D := D) (E := E) names takes true target model ((fun text => Bytes (as_bytes text) false) <$> texts) =
  mkRelayed ((as_bytes <$> texts) ++ [as_bytes ERROR_FRAME]) (Some (true, CanonicalUsage_default)).
Proof.
  intros Ht Hn Hl. unfold forward. rewrite pass_loop_silent; [|done| |simpl; lia].
  - cbn [app rl_sniffer sn_saw_terminal UsageSniffer_new negb orb rl_sent rl_reply sn_usage].
    rewrite send_taken; [done|by rewrite length_fmap].
  - apply rsplit_blank_None. intros (a & b & E1). by apply (Hn a b).
Qed.

(** A client that asked for one body gets nothing of a reply streamed with
    CRLF: no text, no tool call, whatever the upstream said. *)
Theorem crlf_reply_is_gathered_empty `{JsonText, StreamDecoder D} (names : ToolNameMap) (target : WireProtocol) (text : str) :
  Forall scalar text -> (forall a b, text <> a ++ LF :: LF :: b) ->
  rs_parts (gather_streamed (D := D) names target (as_bytes text)) = [].
Proof.
  intros Ht Hn. unfold gather_streamed. pose proof (push_all_silent [] [text] (proj2 (Forall_singleton _ _) Ht)) as Hp.
  cbn [fmap list_fmap push_all concat app] in Hp.
  destruct (SseBuffer_push [] (as_bytes text)) as [frames p]. rewrite !app_nil_r in Hp.
  assert (Hnone : rsplit_blank text = None).
  { apply rsplit_blank_None. intros (a & b & E1). by apply (Hn a b). }
  specialize (Hp Hnone). injection Hp as Hp1 Hp2. subst. cbn [foldl].
  unfold restore_response. by destruct (0 <? _)%Z, (map_is_empty names).
Qed.

(** An upstream that breaks off is closed to a translated client exactly like
    one that finished, with whatever ends a reply of its protocol, and only
    then does the error follow. *)
Theorem broken_reply_is_closed_first `{JsonText, StreamDecoder D, StreamEncoder E}
    (names : ToolNameMap) (takes : nat) (target : WireProtocol) (model : str) (chunks : list Chunk) :
  Forall (fun chunk => chunk <> Broken) chunks ->
  let whole := forward (D := D) (E := E) names takes false target model chunks in
  let broken := forward (D := D) (E := E) names takes false target model (chunks ++ [Broken]) in
  match rd_record whole with
  | Some (false, usage) =>
      rd_sent broken = (send takes (rd_sent whole) (as_bytes ERROR_FRAME)).2 /\
      rd_record broken = Some (true, usage)
  | _ => broken = whole
  end.
Proof.
  intros Hc. unfold forward. cbv zeta. set (r0 := mkRelay [] _ _ _ _ _). clearbody r0. revert r0.
  induction Hc as [|chunk chunks Hb _ IH]; intros r0; cbn [app relay_loop].
  - by destruct (close_translation names takes r0) as [reply sent].
  - destruct chunk as [bytes quiet|]; [|done]. destruct (translate_chunk names takes r0 bytes quiet) as [r|r|sent]; [apply IH| |done].
    by destruct (close_translation names takes r) as [reply sent].
Qed.
