(* ===== verification/Bodies.v ===== *)
(** Request and reply bodies, protocol by protocol aside: the interface of a
    protocol's body codec, the body of an upstream call (src/wire/mod.rs of
    crates/model-gateway), and the gist of a request or reply, which is what a
    translation between protocols has to keep. *)
From stdpp Require Import prelude strings list.
From Stdlib Require Import NArith ZArith Lia.
From S2P Require Import Prelude CoreTypes GatewayTypes GatewayErrors Ir Json Wire.

(** ** Numbers with a fraction *)

(** [Value::as_f64] and [json!(x)] of an [f64]. *)
Class JsonNumbers : Type := {
  json_as_f64 : json -> option Z;
  json_f64 : Z -> json
}.
(** A number that was read from JSON is written so that it reads the same. *)
Class JsonNumbersLaws `{JsonNumbers} : Prop := {
  f64_reads_back : forall v z, json_as_f64 v = Some z -> json_as_f64 (json_f64 z) = Some z
}.
Definition number_field `{JsonNumbers} (v : json) (key : str) : option Z :=
  match json_get key v with Some f => json_as_f64 f | None => None end.

(** ** Loops over fallible steps *)

(** [.map(f).collect::<Result<Vec<_>, _>>()?]. *)
Fixpoint try_map {A B E} (f : A -> result B E) (l : list A) : result (list B) E :=
  match l with
  | [] => Ok []
  | x :: l => let? y := f x in let? ys := try_map f l in Ok (y :: ys)
  end.
(** [for x in l { if let Some(y) = f(x)? { out.push(y) } }]. *)
Fixpoint try_omap {A B E} (f : A -> result (option B) E) (l : list A) : result (list B) E :=
  match l with
  | [] => Ok []
  | x :: l =>
      let? y := f x in let? ys := try_omap f l in
      Ok (match y with Some y => y :: ys | None => ys end)
  end.
(** [if let Some(v) = value { body.insert(key, v) }]. *)
Definition insert_some (key : string) (value : option json) (body : list (str * json)) : list (str * json) :=
  match value with Some v => object_insert (lit key) v body | None => body end.
Definition malformed {A} (detail : str) : GatewayResult A := Err (MalformedRequest detail).
Definition bool_of (o : option json) : option bool := match o with Some v => json_as_bool v | None => None end.

(** ** The codec of one protocol's bodies *)

Record BodyCodec : Type := mkCodec {
  bc_parse_request : json -> GatewayResult CanonicalRequest;
  bc_build_request : CanonicalRequest -> GatewayResult json;
  bc_render_response : CanonicalResponse -> json;
  bc_parse_response : json -> GatewayResult CanonicalResponse
}.

(** Renders the request as an upstream body: [build_upstream_request]. *)
Definition build_upstream_request (codec : BodyCodec) (request : CanonicalRequest) (model : str) (stream : bool)
    : GatewayResult json :=
  reject has_vendor_file_image request with UnsupportedImageReference ;;
  let? value := bc_build_request codec request in
  Ok (match value with
      | JObject fields =>
          JObject (object_insert (lit "stream") (JBool stream) (object_insert (lit "model") (JString model) fields))
      | value => value
      end).

(** ** The gist of a request *)

Definition text_of (parts : list ContentPart) : str :=
  parts ≫= fun part => match part with Text text => text | _ => [] end.
(** An image by its address; inline data is a data URL. *)
Definition image_uri (source : ImageSource) : str :=
  match source with
  | ImageBase64 media_type data => lit "data:" ++ media_type ++ lit ";base64," ++ data
  | ImageUrl url => url
  | ImageVendorFileId id => id
  end.
Definition images_of (parts : list ContentPart) : list str :=
  omap (fun part => match part with Image source => Some (image_uri source) | _ => None end) parts.

(** What was said in a conversation, in order. *)
Inductive Said : Type :=
| SaidUser (text : str) (images : list str)
| SaidAssistant (text : str)
| Called (id name : str) (arguments : json)
| Returned (call_id text : str) (images : list str).

Definition calls_of (parts : list ContentPart) : list Said :=
  omap (fun part => match part with
                    | ToolCall id name arguments => Some (Called id name arguments)
                    | _ => None
                    end) parts.
Definition results_of (parts : list ContentPart) : list Said :=
  omap (fun part => match part with
                    | ToolResult call_id content _ => Some (Returned call_id (text_of content) (images_of content))
                    | _ => None
                    end) parts.
Definition spoken (parts : list ContentPart) : list Said :=
  if is_empty (text_of parts) && is_empty (images_of parts) then []
  else [SaidUser (text_of parts) (images_of parts)].
(** The results of a turn come before what the user says in it; an Assistant's
    text comes before its calls. *)
Definition said (m : CanonicalMessage) : list Said :=
  match msg_role m with
  | User => results_of (msg_parts m) ++ spoken (msg_parts m)
  | Assistant =>
      (if is_empty (text_of (msg_parts m)) then [] else [SaidAssistant (text_of (msg_parts m))])
      ++ calls_of (msg_parts m)
  end.
Definition transcript (messages : list CanonicalMessage) : list Said := messages ≫= said.

Record Gist : Type := mkGist {
  gi_system : str;
  gi_transcript : list Said;
  gi_tools : list (str * str * json);
  gi_tool_choice : ToolChoice;
  gi_temperature : option Z;
  gi_top_p : option Z;
  gi_stop : list str
}.
(** A choice among no tools is none. *)
Definition gist (r : CanonicalRequest) : Gist :=
  mkGist (text_of (cr_system r)) (transcript (cr_messages r))
    ((fun t => (td_name t, td_description t, td_parameters t)) <$> cr_tools r)
    (if is_empty (cr_tools r) then ChoiceAuto else cr_tool_choice r)
    (sp_temperature (cr_sampling r)) (sp_top_p (cr_sampling r)) (sp_stop (cr_sampling r)).

(** ** Requests that can be carried *)

(** What an Anthropic client sent as it stands is a redacted thinking block. *)
Definition own_opaque (part : ContentPart) : Prop :=
  match part with
  | Opaque protocol payload =>
      protocol = WIRE_PROTOCOL_ANTHROPIC_MESSAGES -> string_field payload (lit "type") = Some (lit "redacted_thinking")
  | _ => True
  end.
Definition plain_call (part : ContentPart) : Prop :=
  match part with ToolCall _ _ arguments => json_plain arguments | _ => True end.
(** A number that some JSON value has. *)
Definition readable `{JsonNumbers} (n : option Z) : Prop :=
  forall z, n = Some z -> exists v, json_as_f64 v = Some z.
Record carried `{JsonNumbers} (r : CanonicalRequest) : Prop := mkCarried {
  ca_opaque : Forall (fun m => Forall own_opaque (msg_parts m)) (cr_messages r);
  ca_temperature : readable (sp_temperature (cr_sampling r));
  ca_top_p : readable (sp_top_p (cr_sampling r))
}.
(** The arguments of calls are values that survive being written as text. *)
Definition plain_said (s : Said) : Prop := match s with Called _ _ arguments => json_plain arguments | _ => True end.
Definition plain_calls (g : Gist) : Prop := Forall plain_said (gi_transcript g).

(** What every protocol has a place for: tool blocks where the roles allow
    them, and no reference to a file of one vendor. *)
Definition vendor_file (s : ImageSource) : bool := match s with ImageVendorFileId _ => true | _ => false end.
Definition no_vendor (part : ContentPart) : bool := negb (part_has_image vendor_file part).
Definition is_tool_part (part : ContentPart) : bool :=
  match part with ToolCall _ _ _ | ToolResult _ _ _ => true | _ => false end.
Definition portable_content (part : ContentPart) : bool := negb (is_tool_part part) && no_vendor part.
Definition portable_part (role : Role) (part : ContentPart) : bool :=
  no_vendor part
  && match role, part with
     | User, ToolCall _ _ _ => false
     | User, ToolResult _ content _ => forallb portable_content content
     | _, _ => true
     end.
Definition portable_message (m : CanonicalMessage) : bool := forallb (portable_part (msg_role m)) (msg_parts m).
Definition portable (r : CanonicalRequest) : bool :=
  forallb portable_content (cr_system r) && forallb portable_message (cr_messages r).

(** ** The gist of a reply *)

Record ReplyGist : Type := mkReplyGist {
  rg_id : str;
  rg_model : str;
  rg_text : str;
  rg_calls : list Said;
  rg_input_tokens : Z;
  rg_output_tokens : Z;
  rg_cached_read_tokens : Z
}.
Definition reply_gist (r : CanonicalResponse) : ReplyGist :=
  mkReplyGist (rs_id r) (rs_model r) (text_of (rs_parts r)) (calls_of (rs_parts r))
    (us_input_tokens (rs_usage r)) (us_output_tokens (rs_usage r)) (us_cached_read_tokens (rs_usage r)).
Definition counted (u : CanonicalUsage) : Prop :=
  in_u64 (us_input_tokens u) /\ in_u64 (us_output_tokens u) /\ in_u64 (us_cached_read_tokens u)
  /\ in_u64 (us_cached_write_tokens u) /\ in_u64 (us_reasoning_tokens u).

(** A stop reason that one protocol cannot tell from the end of a turn. *)
Definition ordinary_stop (s' s : StopReason) : Prop :=
  s' = s \/ s' = EndTurn /\ (s = StopSequence \/ s = OtherStop).

(** What every codec promises: requests it reads can be carried; a body it
    writes for an upstream reads back portable, with the gist of the request, and
    without a choice where there is no tool; it writes every portable request; the counts of a reply it
    reads fit their width, and a reply it writes reads back whole, with the stop reason as its protocol spells it. *)
Class BodyCodecLaws `{JsonNumbers} (codec : BodyCodec) (respelled : StopReason -> StopReason) : Prop := {
  codec_reads_carried : forall v r, bc_parse_request codec v = Ok r -> carried r;
  codec_keeps_gist : forall r model stream v,
    carried r -> plain_calls (gist r) -> trim model <> [] -> build_upstream_request codec r model stream = Ok v ->
    exists r', bc_parse_request codec v = Ok r' /\ gist r' = gist r /\ portable r' = true /\
      cr_model r' = model /\ cr_stream r' = stream /\
      forall n, sp_max_tokens (cr_sampling r) = Some n -> in_u64 n -> sp_max_tokens (cr_sampling r') = Some n;
  codec_bare_choice : forall r model stream v r',
    cr_tools r = [] -> build_upstream_request codec r model stream = Ok v -> bc_parse_request codec v = Ok r' ->
    cr_tool_choice r' = ChoiceAuto;
  codec_writes : forall r model stream,
    portable r = true -> is_ok (build_upstream_request codec r model stream) = true;
  codec_respells : forall s, ordinary_stop (respelled s) s;
  codec_counts : forall v r, bc_parse_response codec v = Ok r -> counted (rs_usage r);
  codec_reply : forall r,
    counted (rs_usage r) -> Forall plain_call (rs_parts r) ->
    exists r', bc_parse_response codec (bc_render_response codec r) = Ok r' /\ reply_gist r' = reply_gist r /\
      rs_stop r' = respelled (rs_stop r)
}.

(** * Lemmas *)

Lemma try_map_ok {A B E} (f : A -> result B E) (g : A -> B) l :
  Forall (fun x => f x = Ok (g x)) l -> try_map f l = Ok (g <$> l).
Proof. induction 1 as [|x l Hx _ IH]; simpl; [done|]. by rewrite Hx, IH. Qed.
Lemma try_map_forall {A B E} (f : A -> result B E) (P : B -> Prop) l ys :
  (forall x y, f x = Ok y -> P y) -> try_map f l = Ok ys -> Forall P ys.
Proof.
  intros Hf. revert ys. induction l as [|x l IH]; intros ys; simpl; [intros [= <-]; constructor|].
  intros (y & Hy & H)%bind_ok. apply bind_ok in H as (zs & Hz & [= <-]). constructor; eauto.
Qed.

Lemma text_of_app l l' : text_of (l ++ l') = text_of l ++ text_of l'.
Proof. unfold text_of. by rewrite bind_app. Qed.
Lemma text_of_cons part parts : text_of (part :: parts) = text_of [part] ++ text_of parts.
Proof. apply (text_of_app [part]). Qed.
Lemma images_of_app l l' : images_of (l ++ l') = images_of l ++ images_of l'.
Proof. apply omap_app. Qed.
Lemma calls_of_app l l' : calls_of (l ++ l') = calls_of l ++ calls_of l'.
Proof. apply omap_app. Qed.
Lemma calls_of_cons part parts : calls_of (part :: parts) = calls_of [part] ++ calls_of parts.
Proof. apply (calls_of_app [part]). Qed.
Lemma results_of_app l l' : results_of (l ++ l') = results_of l ++ results_of l'.
Proof. apply omap_app. Qed.
Lemma transcript_app l l' : transcript (l ++ l') = transcript l ++ transcript l'.
Proof. unfold transcript. by rewrite bind_app. Qed.
Lemma transcript_cons m ms : transcript (m :: ms) = said m ++ transcript ms.
Proof. done. Qed.
Lemma is_empty_nil {A} (l : list A) : is_empty l = true -> l = [].
Proof. by destruct l. Qed.

Lemma plain_calls_of (parts : list ContentPart) : Forall plain_said (calls_of parts) -> Forall plain_call parts.
Proof.
  induction parts as [|p parts IH]; [constructor|]. rewrite (calls_of_cons p), Forall_app. intros [Hp Hs].
  constructor; [|by apply IH]. destruct p; try done. by apply Forall_inv in Hp.
Qed.
Lemma no_vendor_any (parts : list ContentPart) : forallb no_vendor parts = negb (any_in vendor_file parts).
Proof.
  unfold any_in. induction parts as [|p parts IH]; [done|]. simpl. rewrite IH. unfold no_vendor. by rewrite negb_orb.
Qed.
Lemma forallb_weaken {A} (p q : A -> bool) l : (forall x, p x = true -> q x = true) -> forallb p l = true -> forallb q l = true.
Proof. intros H. rewrite !forallb_forall. eauto. Qed.
Lemma portable_no_vendor r : portable r = true -> has_vendor_file_image r = false.
Proof.
  unfold portable. intros [Hs Hm]%andb_true_iff. apply orb_false_iff. split.
  - apply negb_true_iff. change (negb (any_in vendor_file (cr_system r)) = true). rewrite <- no_vendor_any.
    eapply forallb_weaken; [|exact Hs]. by intros p [_ Hp]%andb_true_iff.
  - apply not_true_iff_false. intros (m & Hin & Hv)%existsb_exists. rewrite forallb_forall in Hm. specialize (Hm m Hin).
    apply not_false_iff_true in Hv. apply Hv, negb_true_iff. change (negb (any_in vendor_file (msg_parts m)) = true).
    rewrite <- no_vendor_any. eapply forallb_weaken; [|exact Hm]. by intros p [Hp _]%andb_true_iff.
Qed.
Lemma forallb_elem {A} (p : A -> bool) l x : forallb p l = true -> x ∈ l -> p x = true.
Proof. rewrite forallb_forall. intros H Hx. by apply H, list_elem_of_In. Qed.

(** Integers read from a body fit their width. *)
Lemma digits_value_nonneg s z : digits_value s = Some z -> (0 <= z)%Z.
Proof.
  unfold digits_value. destruct (is_empty s); [done|]. destruct (forallb is_ascii_digit s) eqn:E; [|done]. intros [= <-].
  assert (forall acc, 0 <= acc -> 0 <= foldl (fun acc c => acc * 10 + (Z.of_N c - 48)) acc s)%Z as H; [|by apply H].
  induction s as [|c s IH]; intros acc Ha; simpl in *; [done|]. apply andb_true_iff in E as [Ec Es]. apply IH; [done|].
  unfold is_ascii_digit in Ec. apply andb_true_iff in Ec as [Hc%N.leb_le _]. lia.
Qed.
Lemma u64_of_range o : in_u64 (default 0%Z (u64_of o)).
Proof.
  destruct o as [[| |literal| | |]|]; try (split; done). simpl. destruct (digits_value literal) as [z|] eqn:E; [|done].
  apply digits_value_nonneg in E. destruct (Z.leb_spec z u64_max); simpl; [int_lia|done].
Qed.
Lemma uint_field_range v key : in_u64 (default 0%Z (uint_field v key)).
Proof. unfold uint_field. pose proof (u64_of_range (json_get key v)) as H. by destruct (json_get key v). Qed.

(** What a fallible loop wrote, read back element by element. *)
Lemma try_omap_read {A B C E} (f : A -> result (option B) E) (reads : B -> C -> Prop) (same : list C -> list A -> Prop) l vs :
  same [] [] -> (forall ps qs l l', same ps l -> same qs l' -> same (ps ++ qs) (l ++ l')) ->
  (forall x, x ∈ l -> f x = Ok None -> same [] [x]) ->
  (forall x v, x ∈ l -> f x = Ok (Some v) -> exists p, reads v p /\ same [p] [x]) ->
  try_omap f l = Ok vs -> exists ps, Forall2 reads vs ps /\ same ps l.
Proof.
  intros Hnil Happ. revert vs. induction l as [|x l IH]; intros vs Hn Hs; simpl.
  { intros [= <-]. by exists []. }
  intros (y & Hy & H)%bind_ok. apply bind_ok in H as (ys & Hys & [= <-]).
  destruct (IH ys) as (ps & Hps & Hsame); [intros ? ?; apply Hn; set_solver|intros ? ? ?; apply Hs; set_solver|done|].
  destruct y as [v|].
  - destruct (Hs x v) as (p & Hp & Hx); [set_solver|done|]. exists (p :: ps). split; [by constructor|].
    by apply (Happ [p] ps [x] l).
  - exists ps. split; [done|]. apply (Happ [] ps [x] l); [apply Hn; [set_solver|done]|done].
Qed.
Lemma try_map_read {A B E} (f : A -> result B E) vs ps :
  Forall2 (fun v p => f v = Ok p) vs ps -> try_map f vs = Ok ps.
Proof. induction 1 as [|v p vs ps Hv _ IH]; simpl; [done|]. by rewrite Hv, IH. Qed.
Lemma try_map_total {A B E} (f : A -> result B E) l : (forall x, x ∈ l -> is_ok (f x) = true) -> is_ok (try_map f l) = true.
Proof.
  induction l as [|x l IH]; intros Hf; simpl; [done|]. specialize (Hf x) as Hx.
  destruct (f x) as [y|e]; [|by discriminate Hx; set_solver]. simpl.
  destruct (try_map f l) as [ys|e]; [done|]. apply IH. set_solver.
Qed.
Lemma try_omap_total {A B E} (f : A -> result (option B) E) l :
  (forall x, x ∈ l -> is_ok (f x) = true) -> is_ok (try_omap f l) = true.
Proof.
  induction l as [|x l IH]; intros H; simpl; [done|]. specialize (H x) as Hx.
  destruct (f x) as [y|e]; [|by discriminate Hx; set_solver]. simpl.
  destruct (try_omap f l) as [ys|e]; [done|]. apply IH. set_solver.
Qed.

(** Reading the fields of a body under construction. *)
Lemma insert_some_get key o body k :
  json_get k (JObject (insert_some key o body)) =
  match (if bool_decide (lit key = k) then o else None) with
  | Some v => Some v
  | None => json_get k (JObject body)
  end.
Proof.
  unfold insert_some. destruct o as [v|]; [rewrite object_insert_get|]; by case_bool_decide.
Qed.
Lemma strings_read (l : list str) : omap json_as_str (JString <$> l) = l.
Proof. induction l as [|x l IH]; csimpl; [done|]. by rewrite IH. Qed.

(** Reads one field of a literal object. *)
Ltac get_literal :=
  try match goal with |- json_get _ ?F = _ => is_var F; unfold F end;
  repeat (rewrite json_get_cons;
          first [rewrite bool_decide_eq_false_2 by done | rewrite bool_decide_eq_true_2 by done]);
  reflexivity.
(** Reads one field of a body that was built by insertions. *)
Ltac get_step :=
  (rewrite object_insert_get || rewrite insert_some_get || rewrite json_get_nil);
  first [rewrite bool_decide_eq_false_2 by done | rewrite bool_decide_eq_true_2 by done | idtac].
Ltac get_field :=
  try match goal with |- json_get _ ?F = _ => is_var F; unfold F end;
  repeat get_step; try reflexivity;
  match goal with |- match ?o with Some _ => _ | None => _ end = _ => by destruct o end.

Lemma number_read `{JsonNumbersLaws} v key z :
  readable z -> json_get key v = json_f64 <$> z -> number_field v key = z.
Proof.
  intros Hr Hg. unfold number_field. rewrite Hg. destruct z as [z|]; [|done].
  destruct (Hr z eq_refl) as [w Hw]. by apply (f64_reads_back w).
Qed.
