(* ===== verification/AnthropicBody.v ===== *)
(** Anthropic Messages bodies: requests and whole replies in both directions
    (crates/model-gateway/src/wire/anthropic.rs), with what a request or reply
    keeps when it is written and read back. *)
From stdpp Require Import prelude strings list.
From Stdlib Require Import NArith ZArith Lia.
From S2P Require Import Prelude CoreTypes GatewayTypes GatewayErrors Ir Json Wire AnthropicStream Bodies.

(** The [max_tokens] Anthropic requires when the client did not name one. *)
Definition DEFAULT_MAX_TOKENS : Z := 8192.

(** ** Reading *)

Definition text_field (v : json) (key : string) : str := default [] (string_field v (lit key)).
Definition parse_image (item : json) : GatewayResult ContentPart :=
  let? source := ok_or (json_get (lit "source") item)
                   (MalformedRequest (lit "an Anthropic image block has no source")) in
  let kind := text_field source "type" in
  match_str kind
    [(lit "base64", Ok (Image (ImageBase64 (default (lit "image/png") (string_field source (lit "media_type")))
                                  (text_field source "data"))));
     (lit "url", Ok (Image (ImageUrl (text_field source "url"))))]
    (malformed (lit "Anthropic image source " ++ ticked kind ++ lit " is not supported")).
(** One content block; [inner] is what its own content reads as. *)
Definition parse_block (inner : GatewayResult (list ContentPart)) (item : json) : GatewayResult ContentPart :=
  let block_type := text_field item "type" in
  match_str block_type
    [(lit "text", Ok (Text (text_field item "text")));
     (lit "image", parse_image item);
     (lit "tool_use", Ok (ToolCall (text_field item "id") (text_field item "name")
                            (default (JObject []) (json_get (lit "input") item))));
     (lit "tool_result",
        let? inner := inner in
        Ok (ToolResult (text_field item "tool_use_id") inner
              (default false (bool_of (json_get (lit "is_error") item)))));
     (lit "thinking", Ok (Reasoning (text_field item "thinking")
                            (mkSignature WIRE_PROTOCOL_ANTHROPIC_MESSAGES <$> string_field item (lit "signature"))));
     (lit "redacted_thinking", Ok (Opaque WIRE_PROTOCOL_ANTHROPIC_MESSAGES item))]
    (malformed (lit "Anthropic content block " ++ ticked block_type ++ lit " is not supported")).

Fixpoint blocks_of (content : json) : GatewayResult (list ContentPart) :=
  match content with
  | JNull => Ok []
  | JString text => Ok [Text text]
  | JArray items =>
      (fix each (items : list json) : GatewayResult (list ContentPart) :=
         match items with
         | [] => Ok []
         | item :: items =>
             let? part := parse_block
               (match item with
                | JObject fields =>
                    (fix content_field (fields : list (str * json)) : GatewayResult (list ContentPart) :=
                       match fields with
                       | [] => Ok []
                       | (k, v) :: fields => if bool_decide (k = lit "content") then blocks_of v else content_field fields
                       end) fields
                | _ => Ok []
                end) item in
             let? parts := each items in
             Ok (part :: parts)
         end) items
  | _ => malformed (lit "an Anthropic message's content must be a string or an array")
  end.
Definition blocks (content : option json) : GatewayResult (list ContentPart) :=
  match content with None => Ok [] | Some content => blocks_of content end.

Definition parse_message (message : json) : GatewayResult CanonicalMessage :=
  let role := match string_field message (lit "role") with
              | Some role => if bool_decide (role = lit "assistant") then Assistant else User
              | None => User
              end in
  let? parts := blocks (json_get (lit "content") message) in
  Ok (mkMessage role parts).
Definition parse_tool (tool : json) : option ToolDefinition :=
  name ← string_field tool (lit "name");
  Some (mkToolDefinition name (text_field tool "description")
          (default (JObject [(lit "type", jstr "object")]) (json_get (lit "input_schema") tool))
          (default false (bool_of (json_get (lit "strict") tool)))).
Definition parse_tool_choice (choice : option json) : ToolChoice :=
  match choice with
  | Some choice =>
      match string_field choice (lit "type") with
      | Some kind =>
          match_str kind [(lit "any", ChoiceRequired); (lit "none", ChoiceNone);
                          (lit "tool", ChoiceNamed (text_field choice "name"))] ChoiceAuto
      | None => ChoiceAuto
      end
  | None => ChoiceAuto
  end.
Definition parse_reasoning (thinking : option json) : ReasoningRequest :=
  match thinking with
  | Some thinking => mkReasoning (bool_decide (string_field thinking (lit "type") = Some (lit "disabled"))) None
  | None => mkReasoning false None
  end.
Definition strings_of (v : option json) : list str :=
  match array_of v with Some items => omap json_as_str items | None => [] end.

Section bodies.
Context `{JsonNumbers}.

Definition anthropic_parse_request (value : json) : GatewayResult CanonicalRequest :=
  let? _ := ok_or (json_as_object value) (MalformedRequest (lit "an Anthropic request must be a JSON object")) in
  let model := default [] (string_field value (lit "model")) in
  reject is_empty (trim model) with MalformedRequest (lit "an Anthropic request must name a model") ;;
  let? system := blocks (json_get (lit "system") value) in
  let? raw := ok_or (array_of (json_get (lit "messages") value))
                (MalformedRequest (lit "an Anthropic request must carry messages")) in
  let? messages := try_map parse_message raw in
  Ok {| cr_model := model; cr_system := system; cr_messages := messages;
        cr_tools := match array_of (json_get (lit "tools") value) with Some tools => omap parse_tool tools | None => [] end;
        cr_tool_choice := parse_tool_choice (json_get (lit "tool_choice") value);
        cr_parallel_tool_calls := None;
        cr_sampling := mkSampling (number_field value (lit "temperature")) (number_field value (lit "top_p"))
                         (uint_field value (lit "max_tokens")) (strings_of (json_get (lit "stop_sequences") value));
        cr_reasoning := parse_reasoning (json_get (lit "thinking") value);
        cr_stream := default false (bool_of (json_get (lit "stream") value));
        cr_opaque := [] |}.

(** ** Writing *)

Definition text_block (text : str) : json := JObject [(lit "type", jstr "text"); (lit "text", JString text)].
Definition image_block (source : ImageSource) : GatewayResult (option json) :=
  match source with
  | ImageBase64 media_type data =>
      Ok (Some (JObject [(lit "type", jstr "image");
        (lit "source", JObject [(lit "type", jstr "base64"); (lit "media_type", JString media_type);
                                (lit "data", JString data)])]))
  | ImageUrl url =>
      Ok (Some (JObject [(lit "type", jstr "image");
        (lit "source", JObject [(lit "type", jstr "url"); (lit "url", JString url)])]))
  | ImageVendorFileId _ => Err UnsupportedImageReference
  end.
Definition is_image (part : ContentPart) : bool := match part with Image _ => true | _ => false end.
Definition media_block (part : ContentPart) : GatewayResult (option json) :=
  match part with Image source => image_block source | _ => Ok None end.
Definition text_or_blocks (parts : list ContentPart) : GatewayResult json :=
  if existsb is_image parts then
    let? images := try_omap media_block parts in
    Ok (JArray ((if is_empty (text_of parts) then [] else [text_block (text_of parts)]) ++ images))
  else Ok (JString (text_of parts)).

Definition result_block (call_id : str) (is_error : bool) (content : json) : json :=
  JObject [(lit "type", jstr "tool_result"); (lit "tool_use_id", JString call_id); (lit "content", content);
           (lit "is_error", JBool is_error)].
Definition user_result (part : ContentPart) : GatewayResult (option json) :=
  match part with
  | ToolResult call_id content is_error =>
      let? content := text_or_blocks content in Ok (Some (result_block call_id is_error content))
  | _ => Ok None
  end.
Definition user_block (part : ContentPart) : GatewayResult (option json) :=
  match part with
  | Text ((_ :: _) as text) => Ok (Some (text_block text))
  | Image source => image_block source
  | _ => Ok None
  end.
Definition own_signature (signature : option OpaqueSignature) : option str :=
  s ← signature; if bool_decide (os_protocol s = WIRE_PROTOCOL_ANTHROPIC_MESSAGES) then Some (os_value s) else None.
Definition thinking_block (text signature : str) : json :=
  JObject [(lit "type", jstr "thinking"); (lit "thinking", JString text); (lit "signature", JString signature)].
Definition call_block (id name : str) (arguments : json) : json :=
  JObject [(lit "type", jstr "tool_use"); (lit "id", JString id); (lit "name", JString name); (lit "input", arguments)].
Definition assistant_block (part : ContentPart) : GatewayResult (option json) :=
  match part with
  | Text ((_ :: _) as text) => Ok (Some (text_block text))
  | Reasoning text signature => Ok (thinking_block text <$> own_signature signature)
  | Opaque protocol payload =>
      Ok (if bool_decide (protocol = WIRE_PROTOCOL_ANTHROPIC_MESSAGES) then Some payload else None)
  | ToolCall id name arguments => Ok (Some (call_block id name arguments))
  | ToolResult call_id content is_error =>
      let? content := text_or_blocks content in Ok (Some (result_block call_id is_error content))
  | _ => Ok None
  end.
Definition build_message (message : CanonicalMessage) : GatewayResult (option json) :=
  let? content :=
    match msg_role message with
    | User =>
        let? results := try_omap user_result (msg_parts message) in
        let? rest := try_omap user_block (msg_parts message) in
        Ok (results ++ rest)
    | Assistant => try_omap assistant_block (msg_parts message)
    end in
  Ok (if is_empty content then None
      else Some (JObject [(lit "role", JString (Role_as_str (msg_role message))); (lit "content", JArray content)])).

Definition system_blocks (system : list ContentPart) : list str :=
  omap (fun part => match part with Text ((_ :: _) as text) => Some text | _ => None end) system.
Definition system_value (system : list ContentPart) : option json :=
  match system_blocks system with
  | [] => None
  | [text] => Some (JString text)
  | texts => Some (JArray (text_block <$> texts))
  end.
Definition build_tool (tool : ToolDefinition) : json :=
  JObject [(lit "name", JString (td_name tool)); (lit "description", JString (td_description tool));
           (lit "input_schema", td_parameters tool)].
Definition build_tool_choice (choice : ToolChoice) : json :=
  match choice with
  | ChoiceAuto => JObject [(lit "type", jstr "auto")]
  | ChoiceNone => JObject [(lit "type", jstr "none")]
  | ChoiceRequired => JObject [(lit "type", jstr "any")]
  | ChoiceNamed name => JObject [(lit "type", jstr "tool"); (lit "name", JString name)]
  end.
Definition when {A} (b : bool) (a : A) : option A := if b then Some a else None.

Definition anthropic_build_request (request : CanonicalRequest) : GatewayResult json :=
  let sampling := cr_sampling request in
  let body := insert_some "system" (system_value (cr_system request)) [] in
  let? messages := try_omap build_message (cr_messages request) in
  let body := object_insert (lit "messages") (JArray messages) body in
  let body := object_insert (lit "max_tokens") (json_u64 (default DEFAULT_MAX_TOKENS (sp_max_tokens sampling))) body in
  let body := insert_some "temperature" (json_f64 <$> sp_temperature sampling) body in
  let body := insert_some "top_p" (json_f64 <$> sp_top_p sampling) body in
  let body := insert_some "stop_sequences"
                (when (negb (is_empty (sp_stop sampling))) (JArray (JString <$> sp_stop sampling))) body in
  let some_tools := negb (is_empty (cr_tools request)) in
  let body := insert_some "tools" (when some_tools (JArray (build_tool <$> cr_tools request))) body in
  let body := insert_some "tool_choice" (when some_tools (build_tool_choice (cr_tool_choice request))) body in
  let body := insert_some "thinking"
                (when (rr_disabled (cr_reasoning request)) (JObject [(lit "type", jstr "disabled")])) body in
  Ok (JObject (object_insert (lit "stream") (JBool (cr_stream request)) body)).

(** ** Whole replies *)

Definition reply_block (part : ContentPart) : option json :=
  match part with
  | Text ((_ :: _) as text) => Some (text_block text)
  | Reasoning text signature => thinking_block text <$> own_signature signature
  | ToolCall id name arguments => Some (call_block id name arguments)
  | _ => None
  end.
Definition anthropic_render_response (response : CanonicalResponse) : json :=
  let usage := rs_usage response in
  JObject
    [(lit "id", JString (rs_id response)); (lit "type", jstr "message"); (lit "role", jstr "assistant");
     (lit "model", JString (rs_model response)); (lit "content", JArray (omap reply_block (rs_parts response)));
     (lit "stop_reason", JString (StopReason_anthropic (rs_stop response))); (lit "stop_sequence", JNull);
     (lit "usage", JObject
        [(lit "input_tokens", json_u64 (us_input_tokens usage)); (lit "output_tokens", json_u64 (us_output_tokens usage));
         (lit "cache_read_input_tokens", json_u64 (us_cached_read_tokens usage));
         (lit "cache_creation_input_tokens", json_u64 (us_cached_write_tokens usage))])].
Definition anthropic_parse_response (value : json) : GatewayResult CanonicalResponse :=
  let? parts := blocks_of (default (JArray []) (json_get (lit "content") value)) in
  Ok (mkResponse (text_field value "id") (text_field value "model") parts
        (match str_of (json_get (lit "stop_reason") value) with
         | Some reason => StopReason_from_anthropic reason
         | None => EndTurn
         end)
        (match get_non_null (lit "usage") value with
         | Some usage => anthropic_usage_from usage
         | None => CanonicalUsage_default
         end)).

Definition anthropic_body : BodyCodec :=
  mkCodec anthropic_parse_request anthropic_build_request anthropic_render_response anthropic_parse_response.
End bodies.

(** * Lemmas *)

Definition block_reads (v : json) (part : ContentPart) : Prop :=
  parse_block (blocks (json_get (lit "content") v)) v = Ok part.
Lemma blocks_array items :
  blocks_of (JArray items) = try_map (fun item => parse_block (blocks (json_get (lit "content") item)) item) items.
Proof.
  induction items as [|item items IH]; [done|]. cbn [try_map]. rewrite <- IH. cbn [blocks_of]. f_equal. f_equal.
  destruct item as [| | | | |fields]; try done. induction fields as [|[k v] fields IHf]; [done|].
  rewrite json_get_cons. by case_bool_decide.
Qed.
Lemma blocks_read vs ps : Forall2 block_reads vs ps -> blocks_of (JArray vs) = Ok ps.
Proof. intros H. rewrite blocks_array. by apply try_map_read. Qed.

Lemma text_block_reads text : block_reads (text_block text) (Text text).
Proof. done. Qed.
Lemma image_block_reads source v : image_block source = Ok (Some v) -> block_reads v (Image source).
Proof. by destruct source; intros [= <-]. Qed.
Lemma image_block_some source : image_block source <> Ok None.
Proof. by destruct source. Qed.
Lemma result_block_reads call_id is_error content parts :
  blocks_of content = Ok parts -> block_reads (result_block call_id is_error content) (ToolResult call_id parts is_error).
Proof. intros H. unfold block_reads, result_block. json_field. simpl blocks. by rewrite H. Qed.

(** Observations of a list of parts, part by part. *)
Ltac by_parts := rewrite ?text_of_app, ?images_of_app, ?calls_of_app, ?results_of_app; try congruence.

Lemma no_images parts : existsb is_image parts = false -> images_of parts = [].
Proof.
  unfold images_of. induction parts as [|p parts IH]; [done|]. simpl. intros [Hp Hl]%orb_false_iff.
  csimpl. destruct p; try done; by apply IH.
Qed.
(** The content of a result keeps its text and its images. *)
Lemma text_or_blocks_reads content v :
  text_or_blocks content = Ok v ->
  exists parts, blocks_of v = Ok parts /\ text_of parts = text_of content /\ images_of parts = images_of content /\
    forallb portable_content parts = true.
Proof.
  unfold text_or_blocks. destruct (existsb is_image content) eqn:E.
  - intros (images & Hi & [= <-])%bind_ok.
    apply (try_omap_read media_block block_reads (fun ps l => text_of ps = [] /\ images_of ps = images_of l /\
        forallb portable_content ps = true)) in Hi as (ps & Hps & Ht & Him & Hp).
    + set (t := if is_empty (text_of content) then [] else [Text (text_of content)]).
      exists (t ++ ps). split_and!.
      * apply blocks_read, Forall2_app; [|done]. unfold t. destruct (is_empty _); repeat constructor.
      * rewrite text_of_app, Ht, app_nil_r. unfold t. destruct (text_of content); [done|]. unfold text_of. simpl.
        by rewrite app_nil_r.
      * rewrite images_of_app, Him. unfold t. by destruct (is_empty _).
      * rewrite forallb_app, Hp. unfold t. by destruct (is_empty _).
    + done.
    + intros ps qs l l' (Ht & ? & Hp) (? & ? & Hq). by_parts. rewrite forallb_app, Ht, Hp, Hq. by split_and!; [|congruence|].
    + intros x _ Hx. split; [done|]. destruct x; try done. by apply image_block_some in Hx.
    + intros x v _ Hx. destruct x as [| |source| | |]; try done. exists (Image source).
      split; [by apply image_block_reads|]. split_and!; try done. by destruct source.
  - intros [= <-]. exists [Text (text_of content)]. split_and!; [done| |by rewrite (no_images content)|done].
    unfold text_of at 1. simpl. by rewrite app_nil_r.
Qed.

Lemma result_portable role call_id content is_error :
  forallb portable_content content = true -> portable_part role (ToolResult call_id content is_error) = true.
Proof.
  intros Hp. unfold portable_part. apply andb_true_iff. split; [|by destruct role].
  change (negb (any_in vendor_file content) = true). rewrite <- no_vendor_any.
  eapply forallb_weaken; [|exact Hp]. by intros p [_ H]%andb_true_iff.
Qed.
Lemma user_results_read parts vs :
  try_omap user_result parts = Ok vs ->
  exists ps, Forall2 block_reads vs ps /\ results_of ps = results_of parts /\ text_of ps = [] /\ images_of ps = [] /\
    forallb (portable_part User) ps = true.
Proof.
  intros H. apply (try_omap_read user_result block_reads
    (fun ps l => results_of ps = results_of l /\ text_of ps = [] /\ images_of ps = [] /\
       forallb (portable_part User) ps = true)) in H; [done|done|..].
  - intros ps qs l l' (? & Ht & Hi & Hp) (? & Ht' & Hi' & Hp'). by_parts. rewrite forallb_app, Ht, Ht', Hi, Hi', Hp, Hp'.
    split_and!; [congruence|done..].
  - intros x _ Hx. destruct x; try done. simpl in Hx. by apply bind_ok in Hx as (? & _ & ?).
  - intros x v _ Hx. destruct x as [| | | |call_id content is_error|]; try done.
    apply bind_ok in Hx as (c & Hc & [= <-]). apply text_or_blocks_reads in Hc as (parts' & Hp & Ht & Hi & Hpp).
    exists (ToolResult call_id parts' is_error). split; [by apply result_block_reads|]. split_and!; try done.
    + unfold results_of. csimpl. by rewrite Ht, Hi.
    + apply forallb_forall. intros p [<-|[]]. by apply result_portable.
Qed.
Lemma user_blocks_read parts vs :
  try_omap user_block parts = Ok vs ->
  exists ps, Forall2 block_reads vs ps /\ results_of ps = [] /\ text_of ps = text_of parts /\ images_of ps = images_of parts /\
    forallb (portable_part User) ps = true.
Proof.
  intros H. apply (try_omap_read user_block block_reads
    (fun ps l => results_of ps = [] /\ text_of ps = text_of l /\ images_of ps = images_of l /\
       forallb (portable_part User) ps = true)) in H; [done|done|..].
  - intros ps qs l l' (Hr & ? & ? & Hp) (Hr' & ? & ? & Hp'). by_parts. rewrite forallb_app, Hr, Hr', Hp, Hp'.
    split_and!; [done|congruence..|done].
  - intros x _ Hx. destruct x as [[|c text]| | | | |]; try done. by apply image_block_some in Hx.
  - intros x v _ Hx. destruct x as [[|c text]| |source| | |]; try done.
    + injection Hx as <-. by exists (Text (c :: text)).
    + exists (Image source). split; [by apply image_block_reads|]. split_and!; try done. by destruct source.
Qed.
Lemma assistant_blocks_read parts vs :
  Forall own_opaque parts -> try_omap assistant_block parts = Ok vs ->
  exists ps, Forall2 block_reads vs ps /\ text_of ps = text_of parts /\ calls_of ps = calls_of parts /\
    forallb (portable_part Assistant) ps = true.
Proof.
  intros Ho H. apply (try_omap_read assistant_block block_reads
    (fun ps l => text_of ps = text_of l /\ calls_of ps = calls_of l /\ forallb (portable_part Assistant) ps = true))
    in H; [done|done|..].
  - intros ps qs l l' (? & ? & Hp) (? & ? & Hp'). by_parts. rewrite forallb_app, Hp, Hp'. split_and!; [congruence..|done].
  - intros x _ Hx. by destruct x as [[|c text]| | | | |].
  - intros x v Hin Hx. rewrite Forall_forall in Ho. specialize (Ho x Hin).
    destruct x as [[|c text]|text signature| |id name arguments|call_id content is_error|protocol payload]; try done.
    + injection Hx as <-. by exists (Text (c :: text)).
    + simpl in Hx. destruct (own_signature signature) as [s|]; [|done]. injection Hx as <-.
      by exists (Reasoning text (Some (mkSignature WIRE_PROTOCOL_ANTHROPIC_MESSAGES s))).
    + injection Hx as <-. by exists (ToolCall id name arguments).
    + apply bind_ok in Hx as (c & Hc & [= <-]). apply text_or_blocks_reads in Hc as (parts' & Hp & _ & _ & Hpp).
      exists (ToolResult call_id parts' is_error). split; [by apply result_block_reads|]. split_and!; try done.
      apply forallb_forall. intros p [<-|[]]. by apply result_portable.
    + simpl in Hx, Ho. case_bool_decide as Hpr; [|done]. subst protocol. specialize (Ho eq_refl) as Hp.
      injection Hx as <-. exists (Opaque WIRE_PROTOCOL_ANTHROPIC_MESSAGES payload).
      split; [|done]. unfold block_reads, parse_block, text_field. by rewrite Hp.
Qed.

Lemma message_read m v :
  Forall own_opaque (msg_parts m) -> build_message m = Ok v ->
  match v with
  | Some v => exists m', parse_message v = Ok m' /\ said m' = said m /\ portable_message m' = true
  | None => said m = []
  end.
Proof.
  intros Ho H. destruct m as [role parts]. unfold build_message in H. simpl in *.
  apply bind_ok in H as (vs & Hvs & [= <-]).
  assert (exists ps, Forall2 block_reads vs ps /\ said (mkMessage role ps) = said (mkMessage role parts) /\
    portable_message (mkMessage role ps) = true) as (ps & Hps & Hs & Hpp).
  { destruct role.
    - apply bind_ok in Hvs as (rs & Hr & Hvs). apply bind_ok in Hvs as (bs & Hb & [= <-]).
      apply user_results_read in Hr as (ps & Hps & Hr & Ht & Hi & Hp).
      apply user_blocks_read in Hb as (qs & Hqs & Hr' & Ht' & Hi' & Hp'). exists (ps ++ qs). split; [by apply Forall2_app|].
      split; [|unfold portable_message; simpl; by rewrite forallb_app, Hp, Hp'].
      unfold said, spoken. simpl. by rewrite results_of_app, text_of_app, images_of_app, Hr, Hr', Ht, Ht', Hi, Hi', app_nil_r.
    - apply assistant_blocks_read in Hvs as (ps & Hps & Ht & Hc & Hp); [|done]. exists ps. split; [done|].
      split; [|done]. unfold said. simpl. by rewrite Ht, Hc. }
  destruct vs as [|v vs]; simpl.
  - apply Forall2_nil_inv_l in Hps as ->. rewrite <- Hs. by destruct role.
  - exists (mkMessage role ps). split; [|done]. unfold parse_message. json_field. cbn [blocks].
    apply blocks_read in Hps. rewrite Hps. by destruct role.
Qed.
Lemma messages_read ms vs :
  Forall (fun m => Forall own_opaque (msg_parts m)) ms -> try_omap build_message ms = Ok vs ->
  exists ms', try_map parse_message vs = Ok ms' /\ transcript ms' = transcript ms /\ forallb portable_message ms' = true.
Proof.
  intros Ho H. rewrite Forall_forall in Ho.
  apply (try_omap_read build_message (fun v m => parse_message v = Ok m) (fun ms' ms => transcript ms' = transcript ms /\
    forallb portable_message ms' = true)) in H as (ms' & Hms & Ht & Hp); [|done|..].
  - exists ms'. split; [by apply try_map_read|done].
  - intros ps qs l l' [? Hp] [? Hq]. rewrite !transcript_app, forallb_app, Hp, Hq. by split; [congruence|].
  - intros m Hm Hb. apply (message_read m None) in Hb; [|by apply Ho]. unfold transcript. simpl. by rewrite Hb.
  - intros m v Hm Hb. apply (message_read m (Some v)) in Hb as (m' & Hp & Hs & Hpm); [|by apply Ho].
    exists m'. split; [done|]. unfold transcript. simpl. by rewrite Hs, Hpm.
Qed.

Lemma system_read system :
  exists parts, blocks (system_value system) = Ok parts /\ text_of parts = text_of system /\
    forallb portable_content parts = true.
Proof.
  assert (H : text_of (Text <$> system_blocks system) = text_of system).
  { unfold system_blocks, text_of. induction system as [|p system IH]; [done|]. rewrite bind_cons, <- IH.
    by destruct p as [[|c text]| | | | |]. }
  unfold system_value. destruct (system_blocks system) as [|t [|t' ts]]; [by exists []|by exists [Text t]|].
  exists (Text <$> t :: t' :: ts). split_and!; [|done|].
  - apply blocks_read. generalize (t :: t' :: ts). clear. intros l.
    induction l as [|t l IH]; [constructor|]. constructor; [apply text_block_reads|done].
  - clear. simpl. induction ts; [done|]. by simpl.
Qed.
Lemma tools_read (tools : list ToolDefinition) :
  (fun t => (td_name t, td_description t, td_parameters t)) <$> omap parse_tool (build_tool <$> tools) =
  (fun t => (td_name t, td_description t, td_parameters t)) <$> tools.
Proof. induction tools as [|t tools IH]; csimpl; [done|]. by rewrite IH. Qed.
Lemma tool_choice_reads choice : parse_tool_choice (Some (build_tool_choice choice)) = choice.
Proof. by destruct choice. Qed.

(** ** The promises of a codec *)

Section laws.
Context `{JsonNumbersLaws}.

(** The fields of the body. *)
Lemma anthropic_fields r model stream v :
  build_upstream_request anthropic_body r model stream = Ok v ->
  exists vs, try_omap build_message (cr_messages r) = Ok vs /\
    json_get (lit "model") v = Some (JString model) /\
    json_get (lit "stream") v = Some (JBool stream) /\
    json_get (lit "system") v = system_value (cr_system r) /\
    json_get (lit "messages") v = Some (JArray vs) /\
    json_get (lit "max_tokens") v = Some (json_u64 (default DEFAULT_MAX_TOKENS (sp_max_tokens (cr_sampling r)))) /\
    json_get (lit "temperature") v = json_f64 <$> sp_temperature (cr_sampling r) /\
    json_get (lit "top_p") v = json_f64 <$> sp_top_p (cr_sampling r) /\
    json_get (lit "stop_sequences") v = when (negb (is_empty (sp_stop (cr_sampling r)))) (JArray (JString <$> sp_stop (cr_sampling r))) /\
    json_get (lit "tools") v = when (negb (is_empty (cr_tools r))) (JArray (build_tool <$> cr_tools r)) /\
    json_get (lit "tool_choice") v = when (negb (is_empty (cr_tools r))) (build_tool_choice (cr_tool_choice r)) /\
    is_Some (json_as_object v).
Proof.
  intros Hb. unfold build_upstream_request in Hb. apply reject_ok in Hb as [_ Hb].
  apply bind_ok in Hb as (body & Hb & [= <-]). cbn [bc_build_request anthropic_body] in Hb.
  unfold anthropic_build_request in Hb. cbv zeta in Hb. apply bind_ok in Hb as (vs & Hvs & [= <-]).
  exists vs.
  split_and!; first [done | get_field].
Qed.
Lemma anthropic_keeps_gist r model stream v :
  carried r -> trim model <> [] -> build_upstream_request anthropic_body r model stream = Ok v ->
  exists r', anthropic_parse_request v = Ok r' /\ gist r' = gist r /\ portable r' = true /\
    cr_model r' = model /\ cr_stream r' = stream /\
    forall n, sp_max_tokens (cr_sampling r) = Some n -> in_u64 n -> sp_max_tokens (cr_sampling r') = Some n.
Proof.
  rename v into F. intros [Ho Ht Hp] Hm Hb.
  apply anthropic_fields in Hb
    as (vs & Hvs & Hmodel & Hstream & Hsystem & Hmessages & Hmax & Htemp & Htop & Hstop & Htools & Hchoice & Hobj).
  apply messages_read in Hvs as (ms & Hms & Hts & Hpms); [|done].
  destruct (system_read (cr_system r)) as (system & Hsys & Htext & Hpsys).
  unfold anthropic_parse_request. destruct Hobj as [fields ->]. cbn [ok_or result_bind].
  unfold string_field. rewrite Hmodel. cbn [json_as_str default from_option id].
  destruct (trim model) eqn:Etrim; [done|]. cbn [is_empty]. rewrite Hsystem, Hsys, Hmessages. cbn [result_bind array_of ok_or json_as_array].
  rewrite Hms. cbn [result_bind]. eexists. split; [done|]. unfold gist.
  cbn [cr_system cr_messages cr_tools cr_tool_choice cr_sampling cr_model cr_stream sp_temperature sp_top_p sp_max_tokens sp_stop].
  split_and!.
  - rewrite Htext, Hts. f_equal.
    + rewrite Htools. destruct (cr_tools r) as [|t ts] eqn:E; [done|]. exact (tools_read (t :: ts)).
    + rewrite Htools, Hchoice. destruct (cr_tools r) as [|t ts]; [done|]. apply tool_choice_reads.
    + by apply number_read.
    + by apply number_read.
    + rewrite Hstop. unfold strings_of. destruct (sp_stop (cr_sampling r)) as [|s stops]; [done|]. apply (strings_read (s :: stops)).
  - unfold portable. simpl. by rewrite Hpsys, Hpms.
  - done.
  - by rewrite Hstream.
  - intros tokens Hn Hu. unfold uint_field. rewrite Hmax, Hn. by apply as_u64_of_u64.
Qed.

Lemma anthropic_bare_choice r model stream v r' :
  cr_tools r = [] -> build_upstream_request anthropic_body r model stream = Ok v -> anthropic_parse_request v = Ok r' ->
  cr_tool_choice r' = ChoiceAuto.
Proof.
  intros Hn Hb. apply anthropic_fields in Hb
    as (vs & _ & _ & _ & _ & _ & _ & _ & _ & _ & _ & Hchoice & _).
  rewrite Hn in Hchoice. unfold anthropic_parse_request. rewrite Hchoice.
  intros (fields & _ & Hp)%bind_ok. apply reject_ok in Hp as [_ Hp].
  apply bind_ok in Hp as (system & _ & Hp). apply bind_ok in Hp as (raw & _ & Hp).
  by apply bind_ok in Hp as (ms & _ & [= <-]).
Qed.

Lemma block_own_opaque inner item part : parse_block inner item = Ok part -> own_opaque part.
Proof.
  unfold parse_block, text_field. cbn [match_str].
  repeat case_bool_decide; try (by intros [= <-]); try done.
  - unfold parse_image. destruct (ok_or _ _); [|done]. simpl. repeat case_bool_decide; by intros [= <-].
  - intros (parts & _ & [= <-])%bind_ok. done.
  - intros [= <-] _. by destruct (string_field item (lit "type")) as [s|]; [simpl in *; subst|].
Qed.
Lemma blocks_own_opaque content parts : blocks content = Ok parts -> Forall own_opaque parts.
Proof.
  destruct content as [content|]; [|intros [= <-]; constructor]. simpl. destruct content as [| | |text|items|]; try done.
  - intros [= <-]. constructor.
  - intros [= <-]. by repeat constructor.
  - rewrite blocks_array. apply try_map_forall. intros. by eapply block_own_opaque.
Qed.
Lemma number_readable v key : readable (number_field v key).
Proof. unfold readable, number_field. intros z Hz. destruct (json_get key v) as [f|]; [by exists f|done]. Qed.
Lemma anthropic_reads_carried v r : anthropic_parse_request v = Ok r -> carried r.
Proof.
  unfold anthropic_parse_request. intros (fields & _ & H1)%bind_ok. apply reject_ok in H1 as [_ H1].
  apply bind_ok in H1 as (system & _ & H1). apply bind_ok in H1 as (raw & _ & H1).
  apply bind_ok in H1 as (messages & Hm & [= <-]). constructor; [|apply number_readable..].
  eapply try_map_forall; [|exact Hm]. intros m m' Hp. unfold parse_message in Hp.
  apply bind_ok in Hp as (parts & Hp & [= <-]). by eapply blocks_own_opaque.
Qed.

(** Images by reference are the only thing that cannot be written. *)
Lemma media_writable p : no_vendor p = true -> is_ok (media_block p) = true.
Proof. by destruct p as [| |[]| | |]. Qed.
Lemma text_or_blocks_writable content : forallb no_vendor content = true -> is_ok (text_or_blocks content) = true.
Proof.
  intros Hn. unfold text_or_blocks. destruct (existsb is_image content); [|done].
  pose proof (try_omap_total media_block content) as Ht. destruct (try_omap media_block content); [done|].
  apply Ht. intros p Hp. by eapply media_writable, forallb_elem.
Qed.
Lemma message_writable m : portable_message m = true -> is_ok (build_message m) = true.
Proof.
  intros Hn. unfold build_message.
  assert (is_ok (try_omap user_result (msg_parts m)) = true /\ is_ok (try_omap user_block (msg_parts m)) = true /\
               is_ok (try_omap assistant_block (msg_parts m)) = true) as (H1 & H2 & H3).
  { split_and!; apply try_omap_total; intros p Hin; pose proof (forallb_elem _ _ _ Hn Hin) as [Hp _]%andb_true_iff;
      destruct p as [[]| |[]| |? content ?|]; try done; change (negb (any_in vendor_file content) = true) in Hp;
      rewrite <- no_vendor_any in Hp; apply text_or_blocks_writable in Hp; simpl; by destruct (text_or_blocks content). }
  destruct (msg_role m); [|by destruct (try_omap assistant_block _)].
  destruct (try_omap user_result _); [|done]. by destruct (try_omap user_block _).
Qed.
Lemma anthropic_writes r model stream :
  portable r = true -> is_ok (build_upstream_request anthropic_body r model stream) = true.
Proof.
  intros Hn. unfold build_upstream_request. rewrite portable_no_vendor by done. cbn [bc_build_request anthropic_body].
  unfold anthropic_build_request. cbv zeta. apply andb_true_iff in Hn as [_ Hn].
  pose proof (try_omap_total build_message (cr_messages r)) as Ht.
  destruct (try_omap build_message (cr_messages r)); [done|]. apply Ht. intros m Hm. by eapply message_writable, forallb_elem.
Qed.

(** ** Whole replies *)

Lemma anthropic_counts v r : anthropic_parse_response v = Ok r -> counted (rs_usage r).
Proof.
  unfold anthropic_parse_response. intros (ps & _ & [= <-])%bind_ok. simpl. destruct (get_non_null _ v); [|done].
  unfold anthropic_usage_from, counted. cbn -[in_u64]. split_and!; try apply uint_field_range. done.
Qed.
Lemma reply_blocks_read parts :
  exists ps, Forall2 block_reads (omap reply_block parts) ps /\ text_of ps = text_of parts /\ calls_of ps = calls_of parts.
Proof.
  induction parts as [|p parts (ps & Hps & Ht & Hc)]; [by exists []|].
  assert (forall q v, reply_block p = Some v -> block_reads v q -> text_of [q] = text_of [p] -> calls_of [q] = calls_of [p] ->
    exists ps, Forall2 block_reads (omap reply_block (p :: parts)) ps /\ text_of ps = text_of (p :: parts) /\
      calls_of ps = calls_of (p :: parts)) as Hsome.
  { intros q v Hv Hq Hqt Hqc. exists (q :: ps). split; [csimpl; rewrite Hv; by constructor|].
    rewrite (text_of_cons q), (text_of_cons p), (calls_of_cons q), (calls_of_cons p). by rewrite Hqt, Hqc, Ht, Hc. }
  assert (reply_block p = None -> text_of [p] = [] -> calls_of [p] = [] ->
    exists ps, Forall2 block_reads (omap reply_block (p :: parts)) ps /\ text_of ps = text_of (p :: parts) /\
      calls_of ps = calls_of (p :: parts)) as Hnone.
  { intros Hv Hpt Hpc. exists ps. split; [csimpl; by rewrite Hv|].
    rewrite (text_of_cons p), (calls_of_cons p). by rewrite Hpt, Hpc. }
  destruct p as [[|c text]|text signature| |id name arguments| |]; try (by apply Hnone).
  - by apply (Hsome (Text (c :: text)) _ eq_refl).
  - destruct (own_signature signature) as [s|] eqn:E; [|apply Hnone; [simpl; by rewrite E|done..]].
    apply (Hsome (Reasoning text (Some (mkSignature WIRE_PROTOCOL_ANTHROPIC_MESSAGES s))) (thinking_block text s)); [|done..].
    simpl. by rewrite E.
  - by apply (Hsome (ToolCall id name arguments) _ eq_refl).
Qed.
Definition anthropic_respelled (reason : StopReason) : StopReason := match reason with OtherStop => EndTurn | r => r end.
Lemma anthropic_reply r :
  counted (rs_usage r) ->
  exists r', anthropic_parse_response (anthropic_render_response r) = Ok r' /\ reply_gist r' = reply_gist r /\
    rs_stop r' = anthropic_respelled (rs_stop r).
Proof.
  intros (Hi & Ho & Hr & Hw & _). destruct (reply_blocks_read (rs_parts r)) as (ps & Hps & Ht & Hc).
  apply blocks_read in Hps. unfold anthropic_render_response. set (U := JObject [(lit "input_tokens", _); _; _; _]). set (F := JObject _).
  assert (Hid : json_get (lit "id") F = Some (JString (rs_id r))) by get_literal.
  assert (Hmodel : json_get (lit "model") F = Some (JString (rs_model r))) by get_literal.
  assert (Hcontent : json_get (lit "content") F = Some (JArray (omap reply_block (rs_parts r)))) by get_literal.
  assert (Hstop : json_get (lit "stop_reason") F = Some (JString (StopReason_anthropic (rs_stop r)))) by get_literal.
  assert (Husage : json_get (lit "usage") F = Some U) by get_literal.
  assert (Huse : anthropic_usage_from U = mkUsage (us_input_tokens (rs_usage r)) (us_output_tokens (rs_usage r))
    (us_cached_read_tokens (rs_usage r)) (us_cached_write_tokens (rs_usage r)) 0).
  { unfold anthropic_usage_from, uint_field.
    assert (json_get (lit "input_tokens") U = Some (json_u64 (us_input_tokens (rs_usage r)))) as -> by get_literal.
    assert (json_get (lit "output_tokens") U = Some (json_u64 (us_output_tokens (rs_usage r)))) as -> by get_literal.
    assert (json_get (lit "cache_read_input_tokens") U = Some (json_u64 (us_cached_read_tokens (rs_usage r)))) as ->
      by get_literal.
    assert (json_get (lit "cache_creation_input_tokens") U = Some (json_u64 (us_cached_write_tokens (rs_usage r)))) as ->
      by get_literal.
    by rewrite !as_u64_of_u64. }
  assert (json_is_null U = false) as Hnull by done. clearbody F U.
  unfold anthropic_parse_response, text_field, string_field, get_non_null, str_of.
  rewrite Hcontent, Hid, Hmodel, Hstop, Husage, Hnull, Huse. cbn [default from_option id]. rewrite Hps. cbn [result_bind].
  eexists. split; [done|]. unfold reply_gist.
  cbn [rs_id rs_model rs_parts rs_stop rs_usage us_input_tokens us_output_tokens us_cached_read_tokens json_as_str from_option id].
  split; [by rewrite Ht, Hc|]. by destruct (rs_stop r).
Qed.
#[export] Instance anthropic_body_laws : BodyCodecLaws anthropic_body anthropic_respelled.
Proof.
  constructor.
  - apply anthropic_reads_carried.
  - intros. by apply anthropic_keeps_gist.
  - apply anthropic_bare_choice.
  - intros. by apply anthropic_writes.
  - intros []; try (by left); right; auto.
  - apply anthropic_counts.
  - intros. by apply anthropic_reply.
Qed.
End laws.
