(* ===== verification/ChatBody.v ===== *)
(** Chat Completions bodies: requests and whole replies in both directions
    (crates/model-gateway/src/wire/chat.rs), with what a request or reply keeps
    when it is written and read back. *)
From stdpp Require Import prelude strings list.
From Stdlib Require Import NArith ZArith Lia.
From S2P Require Import Prelude CoreTypes GatewayTypes GatewayErrors Ir Json Wire AnthropicStream ChatStream Bodies.
From S2P Require Import AnthropicBody.

(** ** Reading *)

(** [rest.split_once(";base64,")]: at the first occurrence. *)
Fixpoint split_at_marker (marker s : str) : option (str * str) :=
  match strip_prefix marker s with
  | Some rest => Some ([], rest)
  | None =>
      match s with
      | [] => None
      | c :: s => (fun p => (c :: p.1, p.2)) <$> split_at_marker marker s
      end
  end.
Definition image_source (url : str) : ImageSource :=
  match strip_prefix (lit "data:") url with
  | Some rest =>
      match split_at_marker (lit ";base64,") rest with
      | Some (media_type, data) => ImageBase64 media_type data
      | None => ImageUrl url
      end
  | None => ImageUrl url
  end.
Definition content_image (item : json) : GatewayResult ContentPart :=
  let? url := ok_or (image ← json_get (lit "image_url") item;
                     match json_as_str image with Some url => Some url | None => string_field image (lit "url") end)
                (MalformedRequest (lit "a Chat image part has no URL")) in
  Ok (Image (image_source url)).
Definition content_part (item : json) : GatewayResult ContentPart :=
  let part_type := text_field item "type" in
  let text := Ok (Text (text_field item "text")) in
  match_str part_type
    [(lit "text", text); (lit "input_text", text); (lit "output_text", text);
     (lit "image_url", content_image item);
     (lit "refusal", Ok (Text (text_field item "refusal")))]
    (malformed (lit "Chat content part " ++ ticked part_type ++ lit " is not supported")).
Definition parts_from_content (content : option json) : GatewayResult (list ContentPart) :=
  match content with
  | None | Some JNull => Ok []
  | Some (JString text) => Ok [Text text]
  | Some (JArray items) => try_map content_part items
  | Some _ => malformed (lit "a Chat message's content must be a string or an array")
  end.

Section bodies.
Context `{JsonText, JsonNumbers}.

Definition arguments_value (value : option json) : json :=
  match value with
  | Some (JString raw) => default (JString raw) (json_from_str raw)
  | Some other => other
  | None => JObject []
  end.
Definition parse_call (call : json) : ContentPart :=
  let function := get_or_null (lit "function") call in
  ToolCall (text_field call "id") (text_field function "name") (arguments_value (json_get (lit "arguments") function)).
Definition reasoning_parts (message : json) : list ContentPart :=
  match string_field message (lit "reasoning_content") with
  | Some ((_ :: _) as reasoning) => [Reasoning reasoning None]
  | _ => []
  end.
Definition assistant_parts (message : json) : GatewayResult (list ContentPart) :=
  let? content := parts_from_content (json_get (lit "content") message) in
  Ok (reasoning_parts message ++ content
      ++ match array_of (json_get (lit "tool_calls") message) with Some calls => parse_call <$> calls | None => [] end).

(** One message: more of the system prompt, or a turn of the conversation. *)
Inductive ChatTurn : Type := SystemTurn (parts : list ContentPart) | MessageTurn (m : CanonicalMessage).
Definition chat_turn (message : json) : GatewayResult ChatTurn :=
  let role := default (lit "user") (string_field message (lit "role")) in
  let content := parts_from_content (json_get (lit "content") message) in
  let system := let? parts := content in Ok (SystemTurn parts) in
  let returned := let? parts := content in
                  Ok (MessageTurn (mkMessage User [ToolResult (text_field message "tool_call_id") parts false])) in
  match_str role
    [(lit "system", system); (lit "developer", system);
     (lit "user", let? parts := content in Ok (MessageTurn (mkMessage User parts)));
     (lit "tool", returned); (lit "function", returned);
     (lit "assistant", let? parts := assistant_parts message in Ok (MessageTurn (mkMessage Assistant parts)))]
    (malformed (lit "Chat role " ++ ticked role ++ lit " is not supported")).
Definition system_parts (turns : list ChatTurn) : list ContentPart :=
  turns ≫= fun t => match t with SystemTurn parts => parts | MessageTurn _ => [] end.
Definition turn_messages (turns : list ChatTurn) : list CanonicalMessage :=
  omap (fun t => match t with MessageTurn m => Some m | SystemTurn _ => None end) turns.

Definition chat_parse_tool (tool : json) : option ToolDefinition :=
  function ← json_get (lit "function") tool;
  name ← string_field function (lit "name");
  Some (mkToolDefinition name (text_field function "description")
          (default (JObject [(lit "type", jstr "object")]) (json_get (lit "parameters") function))
          (default false (bool_of (json_get (lit "strict") function)))).
Definition chat_parse_tool_choice (choice : option json) : ToolChoice :=
  match choice with
  | Some (JString choice) => match_str choice [(lit "none", ChoiceNone); (lit "required", ChoiceRequired)] ChoiceAuto
  | Some (JObject choice) =>
      match (function ← json_get (lit "function") (JObject choice); string_field function (lit "name")) with
      | Some name => ChoiceNamed name
      | None => ChoiceAuto
      end
  | _ => ChoiceAuto
  end.
Definition stop_sequences (value : option json) : list str :=
  match value with
  | Some (JString stop) => [stop]
  | Some (JArray stops) => omap json_as_str stops
  | _ => []
  end.

Definition chat_parse_request (value : json) : GatewayResult CanonicalRequest :=
  let? _ := ok_or (json_as_object value) (MalformedRequest (lit "a Chat request must be a JSON object")) in
  let model := default [] (string_field value (lit "model")) in
  reject is_empty (trim model) with MalformedRequest (lit "a Chat request must name a model") ;;
  let? raw := ok_or (array_of (json_get (lit "messages") value))
                (MalformedRequest (lit "a Chat request must carry messages")) in
  let? turns := try_map chat_turn raw in
  let effort := string_field value (lit "reasoning_effort") in
  Ok {| cr_model := model; cr_system := system_parts turns; cr_messages := turn_messages turns;
        cr_tools := match array_of (json_get (lit "tools") value) with
                    | Some tools => omap chat_parse_tool tools
                    | None => []
                    end;
        cr_tool_choice := chat_parse_tool_choice (json_get (lit "tool_choice") value);
        cr_parallel_tool_calls := bool_of (json_get (lit "parallel_tool_calls") value);
        cr_sampling := mkSampling (number_field value (lit "temperature")) (number_field value (lit "top_p"))
                         (match uint_field value (lit "max_completion_tokens") with
                          | Some n => Some n
                          | None => uint_field value (lit "max_tokens")
                          end)
                         (stop_sequences (json_get (lit "stop") value));
        cr_reasoning := mkReasoning (bool_decide (effort = Some (lit "none")))
                          (e ← effort; if bool_decide (e = lit "none") then None else Some e);
        cr_stream := default false (bool_of (json_get (lit "stream") value));
        cr_opaque := [] |}.

(** ** Writing *)

Definition image_url (source : ImageSource) : GatewayResult str :=
  match source with
  | ImageBase64 media_type data => Ok (lit "data:" ++ media_type ++ lit ";base64," ++ data)
  | ImageUrl url => Ok url
  | ImageVendorFileId _ => Err UnsupportedImageReference
  end.
Definition is_text (part : ContentPart) : bool := match part with Text _ => true | _ => false end.
Definition content_item (part : ContentPart) : GatewayResult (option json) :=
  match part with
  | Text text => Ok (Some (text_block text))
  | Image source =>
      let? url := image_url source in
      Ok (Some (JObject [(lit "type", jstr "image_url"); (lit "image_url", JObject [(lit "url", JString url)])]))
  | Reasoning _ _ | Opaque _ _ => Ok None
  | ToolCall _ _ _ | ToolResult _ _ _ => malformed (lit "Chat message content cannot hold a tool block")
  end.
Definition content_value (parts : list ContentPart) : GatewayResult (option json) :=
  if forallb is_text parts then Ok (if is_empty (text_of parts) then None else Some (JString (text_of parts)))
  else let? items := try_omap content_item parts in Ok (Some (JArray items)).

(** [json!] writes an absent value as null. *)
Definition role_message (role : string) (content : option json) : json :=
  JObject [(lit "role", jstr role); (lit "content", default JNull content)].
Definition system_message (system : list ContentPart) : GatewayResult (list json) :=
  if is_empty system then Ok [] else let? content := content_value system in Ok [role_message "system" content].
Definition chat_result (part : ContentPart) : GatewayResult (option json) :=
  match part with
  | ToolResult call_id content _ =>
      let? content := content_value content in
      Ok (Some (JObject [(lit "role", jstr "tool"); (lit "tool_call_id", JString call_id);
                         (lit "content", default (JString []) content)]))
  | _ => Ok None
  end.
Definition is_result (part : ContentPart) : bool := match part with ToolResult _ _ _ => true | _ => false end.
Definition not_result (part : ContentPart) : bool := negb (is_result part).
Definition user_messages (parts : list ContentPart) : GatewayResult (list json) :=
  let? results := try_omap chat_result parts in
  let rest := List.filter not_result parts in
  if is_empty rest then Ok results
  else let? content := content_value rest in Ok (results ++ [role_message "user" content]).

Definition reasoning_of (parts : list ContentPart) : str :=
  parts ≫= fun part => match part with Reasoning text _ => text | _ => [] end.
Definition chat_call (part : ContentPart) : option json :=
  match part with
  | ToolCall id name arguments =>
      Some (JObject [(lit "id", JString id); (lit "type", jstr "function");
        (lit "function", JObject [(lit "name", JString name); (lit "arguments", JString (json_to_string arguments))])])
  | _ => None
  end.
Definition assistant_message (parts : list ContentPart) : list json :=
  let reasoning := reasoning_of parts in
  let text := text_of parts in
  let calls := omap chat_call parts in
  if is_empty text && is_empty calls && is_empty reasoning then []
  else
    let message := object_insert (lit "role") (jstr "assistant") [] in
    let message := insert_some "content" (when (negb (is_empty text)) (JString text)) message in
    let message := insert_some "reasoning_content" (when (negb (is_empty reasoning)) (JString reasoning)) message in
    [JObject (insert_some "tool_calls" (when (negb (is_empty calls)) (JArray calls)) message)].
Definition chat_messages (m : CanonicalMessage) : GatewayResult (list json) :=
  match msg_role m with
  | User => user_messages (msg_parts m)
  | Assistant => Ok (assistant_message (msg_parts m))
  end.

Definition chat_build_tool (tool : ToolDefinition) : json :=
  JObject [(lit "type", jstr "function");
    (lit "function", JObject [(lit "name", JString (td_name tool)); (lit "description", JString (td_description tool));
       (lit "parameters", td_parameters tool); (lit "strict", JBool (td_strict tool))])].
Definition chat_build_tool_choice (choice : ToolChoice) : json :=
  match choice with
  | ChoiceAuto => jstr "auto"
  | ChoiceNone => jstr "none"
  | ChoiceRequired => jstr "required"
  | ChoiceNamed name => JObject [(lit "type", jstr "function"); (lit "function", JObject [(lit "name", JString name)])]
  end.
Definition insert_sampling (sampling : SamplingParams) (body : list (str * json)) : list (str * json) :=
  let body := insert_some "temperature" (json_f64 <$> sp_temperature sampling) body in
  let body := insert_some "top_p" (json_f64 <$> sp_top_p sampling) body in
  let body := insert_some "max_tokens" (json_u64 <$> sp_max_tokens sampling) body in
  insert_some "stop" (when (negb (is_empty (sp_stop sampling))) (JArray (JString <$> sp_stop sampling))) body.
Definition effort_value (reasoning : ReasoningRequest) : option json :=
  match rr_effort reasoning with
  | Some effort => Some (JString effort)
  | None => when (rr_disabled reasoning) (jstr "none")
  end.

Definition chat_build_request (request : CanonicalRequest) : GatewayResult json :=
  let? system := system_message (cr_system request) in
  let? turns := try_map chat_messages (cr_messages request) in
  let body := object_insert (lit "messages") (JArray (system ++ concat turns)) [] in
  let some_tools := negb (is_empty (cr_tools request)) in
  let body := insert_some "tools" (when some_tools (JArray (chat_build_tool <$> cr_tools request))) body in
  let body := insert_some "tool_choice" (when some_tools (chat_build_tool_choice (cr_tool_choice request))) body in
  let body := insert_some "parallel_tool_calls"
                (if some_tools then JBool <$> cr_parallel_tool_calls request else None) body in
  let body := insert_sampling (cr_sampling request) body in
  let body := insert_some "reasoning_effort" (effort_value (cr_reasoning request)) body in
  let body := object_insert (lit "stream") (JBool (cr_stream request)) body in
  Ok (JObject (insert_some "stream_options"
        (when (cr_stream request) (JObject [(lit "include_usage", JBool true)])) body)).

(** ** Whole replies *)

Definition chat_render_response (response : CanonicalResponse) : json :=
  let usage := rs_usage response in
  let parts := rs_parts response in
  let calls := omap chat_call parts in
  let message := [(lit "role", jstr "assistant"); (lit "content", JString (text_of parts))] in
  let message := insert_some "reasoning_content"
                   (when (negb (is_empty (reasoning_of parts))) (JString (reasoning_of parts))) message in
  let message := insert_some "tool_calls" (when (negb (is_empty calls)) (JArray calls)) message in
  JObject
    [(lit "id", JString (rs_id response)); (lit "object", jstr "chat.completion"); (lit "model", JString (rs_model response));
     (lit "choices", JArray [JObject [(lit "index", json_u64 0); (lit "message", JObject message);
                                      (lit "finish_reason", JString (StopReason_chat (rs_stop response)))]]);
     (lit "usage", JObject
        [(lit "prompt_tokens", json_u64 (us_input_tokens usage));
         (lit "completion_tokens", json_u64 (us_output_tokens usage));
         (lit "total_tokens", json_u64 (u64_saturating_add (us_input_tokens usage) (us_output_tokens usage)));
         (lit "prompt_tokens_details", JObject [(lit "cached_tokens", json_u64 (us_cached_read_tokens usage))]);
         (lit "completion_tokens_details", JObject [(lit "reasoning_tokens", json_u64 (us_reasoning_tokens usage))])])].
Definition chat_parse_response (value : json) : GatewayResult CanonicalResponse :=
  let? choice := ok_or (json_pointer [lit "choices"; lit "0"] value)
                   (Upstream 502 (lit "the upstream reply carried no choice")) in
  let message := get_or_null (lit "message") choice in
  let? parts := assistant_parts message in
  Ok (mkResponse (text_field value "id") (text_field value "model") parts
        (match str_of (json_get (lit "finish_reason") choice) with
         | Some reason => StopReason_from_chat reason
         | None => EndTurn
         end)
        (match get_non_null (lit "usage") value with
         | Some usage => chat_usage_from usage
         | None => CanonicalUsage_default
         end)).

Definition chat_body : BodyCodec :=
  mkCodec chat_parse_request chat_build_request chat_render_response chat_parse_response.
End bodies.

(** * Lemmas *)

Lemma split_at_marker_Some marker s a b : split_at_marker marker s = Some (a, b) -> s = a ++ marker ++ b.
Proof.
  revert a. induction s as [|c s IH]; intros a; simpl; destruct (strip_prefix marker _) as [rest|] eqn:E.
  - intros [= <- <-]. by apply strip_prefix_Some in E.
  - done.
  - intros [= <- <-]. by apply strip_prefix_Some in E.
  - destruct (split_at_marker marker s) as [[a' b']|]; [|done]. intros [= <- <-]. simpl. f_equal. by apply IH.
Qed.
(** A URL is kept character for character, whether it is taken apart or not. *)
Lemma image_source_uri url : image_uri (image_source url) = url.
Proof.
  unfold image_source. destruct (strip_prefix _ url) as [rest|] eqn:E; [|done]. apply strip_prefix_Some in E as ->.
  destruct (split_at_marker _ rest) as [[media_type data]|] eqn:E; [|done].
  apply split_at_marker_Some in E as ->. done.
Qed.
Lemma image_url_uri source url : image_url source = Ok url -> image_uri source = url.
Proof. by destruct source; intros [= <-]. Qed.

(** Content keeps its text and its images. *)
Definition same_content (ps l : list ContentPart) : Prop := text_of ps = text_of l /\ images_of ps = images_of l.
Lemma same_content_app ps qs l l' : same_content ps l -> same_content qs l' -> same_content (ps ++ qs) (l ++ l').
Proof. intros [? ?] [? ?]. split; by_parts. Qed.
Lemma only_text_no_images parts : forallb is_text parts = true -> images_of parts = [].
Proof.
  unfold images_of. induction parts as [|p parts IH]; [done|]. simpl. intros [Hp Hl]%andb_true_iff. csimpl.
  by destruct p; try done; apply IH.
Qed.
Lemma content_item_reads part v :
  content_item part = Ok (Some v) -> exists p, content_part v = Ok p /\ same_content [p] [part].
Proof.
  destruct part as [text| |source| | |]; try done.
  - intros [= <-]. by exists (Text text).
  - intros (url & Hu & [= <-])%bind_ok. exists (Image (image_source url)). split; [done|].
    apply image_url_uri in Hu as <-. split; [done|]. unfold images_of. csimpl. by rewrite image_source_uri.
Qed.
Lemma content_value_reads parts c :
  content_value parts = Ok c ->
  exists ps, parts_from_content (Some (default JNull c)) = Ok ps /\ same_content ps parts.
Proof.
  unfold content_value. destruct (forallb is_text parts) eqn:E.
  - apply only_text_no_images in E. intros [= <-]. unfold same_content. rewrite E.
    destruct (text_of parts) as [|c text] eqn:Et; [by exists []|]. exists [Text (c :: text)].
    split; [done|]. split; [|done]. unfold text_of. simpl. by rewrite app_nil_r.
  - intros (items & Hi & [= <-])%bind_ok.
    apply (try_omap_read content_item (fun v p => content_part v = Ok p) same_content) in Hi as (ps & Hps & Hs).
    + exists ps. split; [by apply try_map_read|done].
    + done.
    + apply same_content_app.
    + intros x _ Hx. destruct x; try done; simpl in Hx; by apply bind_ok in Hx as (? & _ & ?).
    + intros x v _ Hx. by apply content_item_reads.
Qed.
(** The same with the empty string for empty content. *)
Lemma content_value_reads_text parts c :
  content_value parts = Ok c ->
  exists ps, parts_from_content (Some (default (JString []) c)) = Ok ps /\ same_content ps parts.
Proof.
  intros H. apply content_value_reads in H as (ps & Hps & Hs). destruct c as [c|]; [by exists ps|].
  injection Hps as <-. by exists [Text []].
Qed.

Section laws.
Context `{JsonTextLaws, JsonNumbersLaws}.

(** Messages that were written read back as turns. *)
Definition turns_read (vs : list json) (turns : list ChatTurn) : Prop := Forall2 (fun v t => chat_turn v = Ok t) vs turns.
Lemma turn_messages_app ts ts' : turn_messages (ts ++ ts') = turn_messages ts ++ turn_messages ts'.
Proof. apply omap_app. Qed.
Lemma system_parts_app ts ts' : system_parts (ts ++ ts') = system_parts ts ++ system_parts ts'.
Proof. unfold system_parts. by rewrite bind_app. Qed.
Definition says (turns : list ChatTurn) (words : list Said) : Prop :=
  system_parts turns = [] /\ transcript (turn_messages turns) = words.
Lemma says_app ts ts' ws ws' : says ts ws -> says ts' ws' -> says (ts ++ ts') (ws ++ ws').
Proof.
  intros [Hs Ht] [Hs' Ht']. unfold says. by rewrite system_parts_app, turn_messages_app, transcript_app, Hs, Hs', Ht, Ht'.
Qed.

Lemma chat_result_reads part v :
  chat_result part = Ok (Some v) -> exists t, chat_turn v = Ok t /\ says [t] (results_of [part]).
Proof.
  destruct part as [| | | |call_id content is_error|]; try done. intros (c & Hc & [= <-])%bind_ok.
  apply content_value_reads_text in Hc as (ps & Hps & Ht & Hi).
  exists (MessageTurn (mkMessage User [ToolResult call_id ps false])). split.
  - unfold chat_turn. json_field. rewrite Hps. done.
  - split; [done|]. unfold turn_messages, results_of. csimpl. unfold transcript, said, results_of, spoken. csimpl.
    by rewrite Ht, Hi.
Qed.
Lemma results_are_read parts vs :
  try_omap chat_result parts = Ok vs -> exists turns, turns_read vs turns /\ says turns (results_of parts).
Proof.
  intros H3. apply (try_omap_read chat_result (fun v t => chat_turn v = Ok t) (fun ts l => says ts (results_of l))) in H3; [done|done|..].
  - intros ps qs l l' Hp Hq. rewrite results_of_app. by apply says_app.
  - intros x _ Hx. destruct x; try done. simpl in Hx. by apply bind_ok in Hx as (? & _ & ?).
  - intros x v _ Hx. by apply chat_result_reads.
Qed.
Lemma same_content_rest parts : same_content (List.filter not_result parts) parts.
Proof.
  induction parts as [|p parts IH]; [done|]. simpl. destruct p; simpl; try (by apply (same_content_app [_] _ [_])); exact IH.
Qed.
Lemma user_turn_said ps parts :
  same_content ps parts -> results_of ps = [] -> said (mkMessage User ps) = spoken parts.
Proof. intros [Ht Hi] Hr. unfold said. simpl. by rewrite Hr; simpl; unfold spoken; rewrite Ht, Hi. Qed.
(** Content is text and images. *)
Definition is_content (part : ContentPart) : bool :=
  match part with Text _ => true | Image source => negb (vendor_file source) | _ => false end.
Lemma image_source_no_vendor url : vendor_file (image_source url) = false.
Proof. unfold image_source. destruct (strip_prefix _ _); [|done]. by destruct (split_at_marker _ _) as [[]|]. Qed.
Lemma content_kinds content ps : parts_from_content content = Ok ps -> Forall is_content ps.
Proof.
  destruct content as [[| | |text|items|]|]; try done; try (intros [= <-]; by repeat constructor).
  apply try_map_forall. intros item p. unfold content_part. cbn [match_str].
  repeat case_bool_decide; try done; try (by intros [= <-]).
  intros (url & _ & [= <-])%bind_ok. simpl. by rewrite image_source_no_vendor.
Qed.
Lemma content_portable (ps : list ContentPart) : Forall is_content ps -> forallb portable_content ps = true.
Proof. induction 1 as [|p ps Hp _ IH]; [done|]. simpl. rewrite IH. by destruct p as [| |[]| | |]. Qed.
Lemma content_results (ps : list ContentPart) : Forall is_content ps -> results_of ps = [].
Proof. unfold results_of. induction 1 as [|p ps Hp _ IH]; [done|]. csimpl. by destruct p. Qed.
Lemma content_calls (ps : list ContentPart) : Forall is_content ps -> calls_of ps = [].
Proof. unfold calls_of. induction 1 as [|p ps Hp _ IH]; [done|]. csimpl. by destruct p. Qed.
Lemma content_opaque (ps : list ContentPart) : Forall is_content ps -> Forall own_opaque ps.
Proof. intros H3. eapply Forall_impl; [exact H3|]. by intros []. Qed.
Lemma user_messages_read parts vs :
  user_messages parts = Ok vs -> exists turns, turns_read vs turns /\ says turns (said (mkMessage User parts)).
Proof.
  unfold user_messages. intros (rs & Hr & H3)%bind_ok. apply results_are_read in Hr as (ts & Hts & Hs).
  unfold said. simpl. pose proof (same_content_rest parts) as Hc.
  destruct (is_empty (List.filter not_result parts)) eqn:E.
  - injection H3 as <-. apply is_empty_nil in E. rewrite E in Hc. exists ts. split; [done|].
    destruct Hc as [Ht Hi]. unfold spoken. by rewrite <- Ht, <- Hi, app_nil_r.
  - apply bind_ok in H3 as (c & Hv & [= <-]). apply content_value_reads in Hv as (ps & Hps & Hps').
    exists (ts ++ [MessageTurn (mkMessage User ps)]). split.
    + apply Forall2_app; [done|]. constructor; [|constructor]. unfold chat_turn, role_message. json_field. by rewrite Hps.
    + apply says_app; [done|]. split; [done|]. unfold turn_messages, transcript. csimpl. rewrite app_nil_r.
      apply user_turn_said; [|by eapply content_results, content_kinds].
      destruct Hc, Hps'. split; congruence.
Qed.

(** An Assistant's turn. *)
Lemma call_reads (part : ContentPart) v : plain_call part -> chat_call part = Some v -> parse_call v = part.
Proof.
  destruct part as [| | |call_id name arguments| |]; try done. intros Hp [= <-]. unfold parse_call, text_field, get_or_null.
  unfold string_field. json_field. cbn [default from_option id]. json_field. unfold arguments_value. simpl.
  by rewrite json_parses.
Qed.
Lemma calls_read (parts : list ContentPart) :
  Forall plain_call parts -> calls_of (parse_call <$> omap chat_call parts) = calls_of parts /\
  text_of (parse_call <$> omap chat_call parts) = [].
Proof.
  induction 1 as [|p parts Hp _ [IHc IHt]]; [done|]. rewrite (calls_of_cons p), <- IHc.
  assert (omap chat_call (p :: parts) = match chat_call p with Some v => [v] | None => [] end ++ omap chat_call parts) as ->
    by (csimpl; by destruct (chat_call p)).
  rewrite fmap_app, calls_of_app, text_of_app, IHt, app_nil_r.
  destruct (chat_call p) as [v|] eqn:E; [|by destruct p].
  rewrite list_fmap_singleton, (call_reads p v) by done. by destruct p.
Qed.
Lemma calls_silent (parts : list ContentPart) : omap chat_call parts = [] -> calls_of parts = [].
Proof. unfold calls_of. induction parts as [|p parts IH]; [done|]. csimpl. by destruct p. Qed.

(** The three fields that hold an Assistant's turn, wherever they stand. *)
Lemma assistant_parts_read (message : json) (parts : list ContentPart) :
  Forall plain_call parts ->
  parts_from_content (json_get (lit "content") message) = Ok [Text (text_of parts)] \/
    (json_get (lit "content") message = None /\ text_of parts = []) ->
  array_of (json_get (lit "tool_calls") message) = when (negb (is_empty (omap chat_call parts))) (omap chat_call parts) ->
  exists ps, assistant_parts message = Ok ps /\ text_of ps = text_of parts /\ calls_of ps = calls_of parts.
Proof.
  intros Hp Hc Ht. destruct (calls_read parts Hp) as [Hcalls Hsilent]. unfold assistant_parts. rewrite Ht.
  set (calls := match when _ _ with Some c => _ | None => _ end).
  assert (calls = parse_call <$> omap chat_call parts) as -> by (unfold calls; by destruct (omap chat_call parts)).
  assert (exists content, parts_from_content (json_get (lit "content") message) = Ok content /\
    text_of content = text_of parts /\ calls_of content = []) as (content & -> & Htext & Hnone).
  { destruct Hc as [->|[-> ->]]; eexists; (split; [done|]); [|done]. split; [|done]. unfold text_of at 1. simpl. by rewrite app_nil_r. }
  eexists. split; [done|]. rewrite !text_of_app, !calls_of_app, Hcalls, Hsilent, Htext, Hnone, app_nil_r.
  unfold reasoning_parts. by destruct (string_field message _) as [[|c reasoning]|].
Qed.
Lemma assistant_message_reads (parts : list ContentPart) :
  Forall plain_call parts ->
  exists turns, turns_read (assistant_message parts) turns /\ says turns (said (mkMessage Assistant parts)).
Proof.
  intros Hp. unfold assistant_message, said. cbv zeta. cbn [msg_role msg_parts].
  destruct (is_empty (text_of parts) && is_empty (omap chat_call parts) && is_empty (reasoning_of parts)) eqn:E.
  - exists []. split; [constructor|]. apply andb_true_iff in E as [[Ht Hc]%andb_true_iff _]. split; [done|].
    apply is_empty_nil in Hc. apply calls_silent in Hc. by rewrite Ht, Hc.
  - clear E. set (F := JObject _).
    assert (Hrole : json_get (lit "role") F = Some (jstr "assistant")) by get_field.
    assert (Hcontent : json_get (lit "content") F = when (negb (is_empty (text_of parts))) (JString (text_of parts))) by get_field.
    assert (Hcalls : json_get (lit "tool_calls") F = when (negb (is_empty (omap chat_call parts))) (JArray (omap chat_call parts)))
      by get_field.
    clearbody F. destruct (assistant_parts_read F parts Hp) as (ps & Hps & Ht & Hc).
    { rewrite Hcontent. destruct (text_of parts); [by right|by left]. }
    { rewrite Hcalls. by destruct (omap chat_call parts). }
    exists [MessageTurn (mkMessage Assistant ps)]. split.
    + constructor; [|constructor]. unfold chat_turn, string_field. rewrite Hrole. simpl. by rewrite Hps.
    + split; [done|]. unfold turn_messages, transcript. csimpl. rewrite app_nil_r. unfold said. simpl. by rewrite Ht, Hc.
Qed.
Lemma chat_messages_read ms vss :
  Forall plain_said (transcript ms) -> try_map chat_messages ms = Ok vss ->
  exists turns, turns_read (concat vss) turns /\ says turns (transcript ms).
Proof.
  revert vss. induction ms as [|m ms IH]; intros vss; simpl; [intros _ [= <-]; exists []; by split; [constructor|]|].
  rewrite Forall_app. intros [Hm Hp].
  intros (vs & Hvs & H3)%bind_ok. apply bind_ok in H3 as (vss' & Hvss & [= <-]). apply IH in Hvss as (ts & Hts & Hs); [|done].
  assert (exists turns, turns_read vs turns /\ says turns (said m)) as (ts' & Hts' & Hs').
  { destruct m as [role parts]. unfold chat_messages in Hvs. simpl in *. destruct role; [by apply user_messages_read|].
    injection Hvs as <-. apply Forall_app in Hm as [_ Hm]. by apply assistant_message_reads, plain_calls_of. }
  exists (ts' ++ ts). split; [by apply Forall2_app|]. by apply (says_app ts' ts).
Qed.

Lemma system_message_reads system vs :
  system_message system = Ok vs ->
  exists turns, turns_read vs turns /\ text_of (system_parts turns) = text_of system /\ turn_messages turns = [].
Proof.
  unfold system_message. destruct (is_empty system) eqn:E; [apply is_empty_nil in E as ->; intros [= <-]; exists []; by split; [constructor|]|].
  intros (c & Hc & [= <-])%bind_ok. apply content_value_reads in Hc as (ps & Hps & Ht & _).
  exists [SystemTurn ps]. split.
  - constructor; [|constructor]. unfold chat_turn, role_message. json_field. by rewrite Hps.
  - split; [|done]. unfold system_parts. simpl. by rewrite app_nil_r.
Qed.
Lemma conversation_read r system vss :
  plain_calls (gist r) -> system_message (cr_system r) = Ok system -> try_map chat_messages (cr_messages r) = Ok vss ->
  exists turns, try_map chat_turn (system ++ concat vss) = Ok turns /\
    text_of (system_parts turns) = text_of (cr_system r) /\ transcript (turn_messages turns) = transcript (cr_messages r).
Proof.
  intros Hp Hs Hm. apply system_message_reads in Hs as (ts & Hts & Htext & Hnone).
  apply chat_messages_read in Hm as (us & Hus & Hsilent & Hsaid); [|done].
  exists (ts ++ us). split; [by apply try_map_read, Forall2_app|].
  by rewrite system_parts_app, turn_messages_app, Hnone, Hsilent, app_nil_r.
Qed.
Lemma chat_tools_read (tools : list ToolDefinition) : omap chat_parse_tool (chat_build_tool <$> tools) = tools.
Proof. induction tools as [|t tools IH]; csimpl; [done|]. rewrite IH. by destruct t. Qed.
Lemma chat_tool_choice_reads choice : chat_parse_tool_choice (Some (chat_build_tool_choice choice)) = choice.
Proof. by destruct choice. Qed.

(** The fields of the body. *)
Lemma chat_fields r model stream v :
  build_upstream_request chat_body r model stream = Ok v ->
  exists system vss, system_message (cr_system r) = Ok system /\ try_map chat_messages (cr_messages r) = Ok vss /\
    json_get (lit "model") v = Some (JString model) /\
    json_get (lit "stream") v = Some (JBool stream) /\
    json_get (lit "messages") v = Some (JArray (system ++ concat vss)) /\
    json_get (lit "max_completion_tokens") v = None /\
    json_get (lit "max_tokens") v = json_u64 <$> sp_max_tokens (cr_sampling r) /\
    json_get (lit "temperature") v = json_f64 <$> sp_temperature (cr_sampling r) /\
    json_get (lit "top_p") v = json_f64 <$> sp_top_p (cr_sampling r) /\
    json_get (lit "stop") v = when (negb (is_empty (sp_stop (cr_sampling r)))) (JArray (JString <$> sp_stop (cr_sampling r))) /\
    json_get (lit "tools") v = when (negb (is_empty (cr_tools r))) (JArray (chat_build_tool <$> cr_tools r)) /\
    json_get (lit "tool_choice") v = when (negb (is_empty (cr_tools r))) (chat_build_tool_choice (cr_tool_choice r)) /\
    is_Some (json_as_object v).
Proof.
  intros Hb. unfold build_upstream_request in Hb. apply reject_ok in Hb as [_ Hb].
  apply bind_ok in Hb as (body & Hb & [= <-]). cbn [bc_build_request chat_body] in Hb.
  unfold chat_build_request in Hb. cbv zeta in Hb. apply bind_ok in Hb as (system & Hsystem & Hb).
  apply bind_ok in Hb as (vss & Hvss & [= <-]). unfold insert_sampling. cbv zeta.
  exists system, vss.
  split_and!; first [done | get_field].
Qed.
Lemma chat_keeps_gist r model stream v :
  carried r -> plain_calls (gist r) -> trim model <> [] -> build_upstream_request chat_body r model stream = Ok v ->
  exists r', chat_parse_request v = Ok r' /\ gist r' = gist r /\ cr_model r' = model /\ cr_stream r' = stream /\
    forall n, sp_max_tokens (cr_sampling r) = Some n -> in_u64 n -> sp_max_tokens (cr_sampling r') = Some n.
Proof.
  rename v into F. intros [_ Ht Hp] Hcalls Hm Hb.
  apply chat_fields in Hb
    as (system & vss & Hsystem & Hvss & Hmodel & Hstream & Hmessages & Hmost & Hmax & Htemp & Htop & Hstop & Htools & Hchoice & Hobj).
  destruct (conversation_read r system vss Hcalls Hsystem Hvss) as (turns & Hturns & Htext & Hsaid).
  unfold chat_parse_request. destruct Hobj as [fields ->]. cbn [ok_or result_bind].
  unfold string_field at 1. rewrite Hmodel. cbn [json_as_str default from_option id].
  destruct (trim model) eqn:Etrim; [done|]. cbn [is_empty]. rewrite Hmessages. cbn [result_bind array_of ok_or json_as_array].
  rewrite Hturns. cbn [result_bind]. eexists. split; [done|]. unfold gist.
  cbn [cr_system cr_messages cr_tools cr_tool_choice cr_sampling cr_model cr_stream sp_temperature sp_top_p sp_max_tokens sp_stop].
  split_and!.
  - rewrite Htext, Hsaid. f_equal.
    + rewrite Htools. destruct (cr_tools r) as [|t ts]; [done|]. f_equal. exact (chat_tools_read (t :: ts)).
    + rewrite Htools, Hchoice. destruct (cr_tools r) as [|t ts] eqn:E; [done|]. cbn [is_empty negb when array_of json_as_array].
      rewrite chat_tools_read. apply chat_tool_choice_reads.
    + by apply number_read.
    + by apply number_read.
    + rewrite Hstop. destruct (sp_stop (cr_sampling r)) as [|s stops]; [done|]. apply (strings_read (s :: stops)).
  - unfold string_field. by rewrite Hmodel.
  - by rewrite Hstream.
  - intros tokens Hn Hu. unfold uint_field. rewrite Hmost, Hmax, Hn. by apply as_u64_of_u64.
Qed.


Lemma chat_bare_choice r model stream v r' :
  cr_tools r = [] -> build_upstream_request chat_body r model stream = Ok v -> chat_parse_request v = Ok r' ->
  cr_tool_choice r' = ChoiceAuto.
Proof.
  intros Hn Hb. apply chat_fields in Hb
    as (system & vss & _ & _ & _ & _ & _ & _ & _ & _ & _ & _ & _ & Hchoice & _).
  rewrite Hn in Hchoice. unfold chat_parse_request. rewrite Hchoice.
  intros (fields & _ & Hp)%bind_ok. apply reject_ok in Hp as [_ Hp].
  apply bind_ok in Hp as (raw & _ & Hp). by apply bind_ok in Hp as (turns & _ & [= <-]).
Qed.

Lemma assistant_opaque message ps : assistant_parts message = Ok ps -> Forall own_opaque ps.
Proof.
  unfold assistant_parts. intros (content & Hc & [= <-])%bind_ok. rewrite !Forall_app. split_and!.
  - unfold reasoning_parts. destruct (string_field message _) as [[|c reasoning]|]; by repeat constructor.
  - by eapply content_opaque, content_kinds.
  - destruct (array_of _) as [calls|]; [|constructor]. rewrite Forall_fmap. by apply Forall_true.
Qed.
Lemma turn_opaque message t :
  chat_turn message = Ok t ->
  match t with SystemTurn _ => True | MessageTurn m => Forall own_opaque (msg_parts m) end.
Proof.
  unfold chat_turn. cbn [match_str].
  repeat case_bool_decide; try done; intros (ps & Hps & [= <-])%bind_ok; try done; simpl;
    try (by repeat constructor); [by eapply content_opaque, content_kinds|by eapply assistant_opaque].
Qed.
Lemma chat_reads_carried v r : chat_parse_request v = Ok r -> carried r.
Proof.
  unfold chat_parse_request. intros (fields & _ & Hb)%bind_ok. apply reject_ok in Hb as [_ Hb].
  apply bind_ok in Hb as (raw & _ & Hb). apply bind_ok in Hb as (turns & Hts & [= <-]).
  constructor; [|apply number_readable..]. cbn [cr_messages].
  apply (try_map_forall _ _ _ _ turn_opaque) in Hts. induction Hts as [|t ts Ht _ IH]; [constructor|].
  unfold turn_messages. csimpl. by destruct t; [|constructor].
Qed.

(** What a Chat client sends has its place in every protocol. *)
Lemma user_content_portable (ps : list ContentPart) : Forall is_content ps -> forallb (portable_part User) ps = true.
Proof. induction 1 as [|p ps Hp _ IH]; [done|]. simpl. rewrite IH. by destruct p as [| |[]| | |]. Qed.
Lemma assistant_portable message ps : assistant_parts message = Ok ps -> forallb (portable_part Assistant) ps = true.
Proof.
  unfold assistant_parts. intros (content & Hc & [= <-])%bind_ok. apply content_kinds in Hc.
  rewrite !forallb_app, !andb_true_iff. split_and!.
  - unfold reasoning_parts. by destruct (string_field message _) as [[|c reasoning]|].
  - induction Hc as [|p ps Hp _ IH]; [done|]. simpl. rewrite IH. by destruct p as [| |[]| | |].
  - destruct (array_of _) as [calls|]; [|done]. by induction calls.
Qed.
Definition portable_turn (t : ChatTurn) : bool :=
  match t with SystemTurn parts => forallb portable_content parts | MessageTurn m => portable_message m end.
Lemma turn_portable message t : chat_turn message = Ok t -> portable_turn t = true.
Proof.
  unfold chat_turn. cbn [match_str].
  repeat case_bool_decide; try done; intros (ps & Hps & [= <-])%bind_ok; unfold portable_turn, portable_message; simpl;
    try (by eapply content_portable, content_kinds); try (by eapply user_content_portable, content_kinds);
    try (by eapply assistant_portable); rewrite andb_true_r; eapply result_portable, content_portable, content_kinds; done.
Qed.
Lemma chat_reads_portable v r : chat_parse_request v = Ok r -> portable r = true.
Proof.
  unfold chat_parse_request. intros (fields & _ & Hb)%bind_ok. apply reject_ok in Hb as [_ Hb].
  apply bind_ok in Hb as (raw & _ & Hb). apply bind_ok in Hb as (turns & Hts & [= <-]).
  apply (try_map_forall _ _ _ _ turn_portable) in Hts. unfold portable. simpl.
  induction Hts as [|t ts Ht _ [IHs IHm]%andb_true_iff]; [done|]. unfold system_parts, turn_messages in *. csimpl.
  destruct t as [parts|m]; simpl in *; rewrite ?forallb_app, ?IHs, ?IHm, ?Ht; done.
Qed.

(** Everything portable can be written. *)
Lemma content_writable parts :
  forallb no_vendor parts = true -> forallb (fun p => negb (is_tool_part p)) parts = true -> is_ok (content_value parts) = true.
Proof.
  intros Hn Ht. unfold content_value. destruct (forallb is_text parts); [done|].
  pose proof (try_omap_total content_item parts) as Htot. destruct (try_omap content_item parts); [done|].
  apply Htot. intros p Hp. pose proof (forallb_elem _ _ _ Hn Hp) as Hv. pose proof (forallb_elem _ _ _ Ht Hp).
  by destruct p as [| |[]| | |].
Qed.
Lemma portable_content_writable parts : forallb portable_content parts = true -> is_ok (content_value parts) = true.
Proof. intros Hp. apply content_writable; (eapply forallb_weaken; [|exact Hp]); by intros p [? ?]%andb_true_iff. Qed.
Lemma user_writable parts : forallb (portable_part User) parts = true -> is_ok (user_messages parts) = true.
Proof.
  intros Hw. unfold user_messages.
  assert (is_ok (try_omap chat_result parts) = true) as Hr.
  { apply try_omap_total. intros p Hp. pose proof (forallb_elem _ _ _ Hw Hp) as Hpp.
    destruct p as [| | | |call_id content is_error|]; try done. apply andb_true_iff in Hpp as [_ Hpp].
    pose proof (portable_content_writable content Hpp). simpl. by destruct (content_value content). }
  destruct (try_omap chat_result parts); [|done]. simpl. destruct (is_empty _); [done|].
  assert (is_ok (content_value (List.filter not_result parts)) = true) as Hc.
  { apply portable_content_writable, forallb_forall. intros p [Hp Hk]%filter_In. rewrite forallb_forall in Hw.
    specialize (Hw p Hp). apply andb_true_iff in Hw as [Hv Hw]. unfold portable_content. rewrite Hv. by destruct p. }
  by destruct (content_value _).
Qed.
Lemma chat_writes r model stream :
  portable r = true -> is_ok (build_upstream_request chat_body r model stream) = true.
Proof.
  intros Hw. unfold build_upstream_request. rewrite portable_no_vendor by done. apply andb_true_iff in Hw as [Hs Hw].
  cbn [bc_build_request chat_body]. unfold chat_build_request. cbv zeta.
  assert (is_ok (system_message (cr_system r)) = true) as Hok.
  { unfold system_message. destruct (is_empty _); [done|]. pose proof (portable_content_writable _ Hs).
    by destruct (content_value _). }
  destruct (system_message _); [|done]. simpl. clear Hok.
  assert (is_ok (try_map chat_messages (cr_messages r)) = true) as Hok.
  { apply try_map_total. intros m Hm. pose proof (forallb_elem _ _ _ Hw Hm) as Hp. unfold chat_messages, portable_message in *.
    destruct (msg_role m); [by apply user_writable|done]. }
  by destruct (try_map _ _).
Qed.

(** ** Whole replies *)

Lemma chat_counts v r : chat_parse_response v = Ok r -> counted (rs_usage r).
Proof.
  unfold chat_parse_response. intros (choice & _ & Hb)%bind_ok. apply bind_ok in Hb as (ps & _ & [= <-]).
  cbn [rs_usage]. destruct (get_non_null _ v); [|done]. unfold chat_usage_from, counted.
  cbn -[in_u64 json_pointer]. split_and!; try apply uint_field_range; try apply u64_of_range. done.
Qed.
Definition chat_respelled (reason : StopReason) : StopReason :=
  match reason with StopSequence | OtherStop => EndTurn | r => r end.
Lemma chat_reply r :
  counted (rs_usage r) -> Forall plain_call (rs_parts r) ->
  exists r', chat_parse_response (chat_render_response r) = Ok r' /\ reply_gist r' = reply_gist r /\
    rs_stop r' = chat_respelled (rs_stop r).
Proof.
  intros (Hi & Ho & Hr & _ & Hg) Hp. unfold chat_render_response. cbv zeta.
  set (M := JObject (insert_some "tool_calls" _ _)).
  assert (Hcontent : json_get (lit "content") M = Some (JString (text_of (rs_parts r)))) by (unfold M; rewrite !insert_some_get; done).
  assert (Hcalls : json_get (lit "tool_calls") M =
    when (negb (is_empty (omap chat_call (rs_parts r)))) (JArray (omap chat_call (rs_parts r)))).
  { unfold M. rewrite !insert_some_get. by destruct (omap chat_call (rs_parts r)), (reasoning_of (rs_parts r)). }
  destruct (assistant_parts_read M (rs_parts r)) as (ps & Hps & Ht & Hc); [done|by left; rewrite Hcontent|..].
  { rewrite Hcalls. by destruct (omap chat_call (rs_parts r)). }
  clearbody M. set (C := JObject [(lit "index", _); _; _]). set (U := JObject [(lit "prompt_tokens", _); _; _; _; _]).
  set (F := JObject _).
  assert (Hid : json_get (lit "id") F = Some (JString (rs_id r))) by get_literal.
  assert (Hmodel : json_get (lit "model") F = Some (JString (rs_model r))) by get_literal.
  assert (Hchoice : json_pointer [lit "choices"; lit "0"] F = Some C) by done.
  assert (Husage : json_get (lit "usage") F = Some U) by get_literal.
  assert (Hmessage : json_get (lit "message") C = Some M) by get_literal.
  assert (Hstop : json_get (lit "finish_reason") C = Some (JString (StopReason_chat (rs_stop r)))) by get_literal.
  assert (Huse : chat_usage_from U = mkUsage (us_input_tokens (rs_usage r)) (us_output_tokens (rs_usage r))
    (us_cached_read_tokens (rs_usage r)) 0 (us_reasoning_tokens (rs_usage r))).
  { unfold chat_usage_from, uint_field.
    assert (json_get (lit "prompt_tokens") U = Some (json_u64 (us_input_tokens (rs_usage r)))) as -> by get_literal.
    assert (json_get (lit "completion_tokens") U = Some (json_u64 (us_output_tokens (rs_usage r)))) as -> by get_literal.
    change (json_pointer [lit "prompt_tokens_details"; lit "cached_tokens"] U)
      with (Some (json_u64 (us_cached_read_tokens (rs_usage r)))).
    change (json_pointer [lit "completion_tokens_details"; lit "reasoning_tokens"] U)
      with (Some (json_u64 (us_reasoning_tokens (rs_usage r)))).
    unfold u64_of. by rewrite !as_u64_of_u64. }
  assert (json_is_null U = false) as Hnull by done. clearbody F U C.
  unfold chat_parse_response. rewrite Hchoice. cbn [ok_or result_bind]. unfold get_or_null.
  rewrite Hmessage. cbn [default from_option id]. rewrite Hps. cbn [result_bind].
  unfold text_field, string_field, get_non_null, str_of. rewrite Hid, Hmodel, Hstop, Husage, Hnull, Huse.
  eexists. split; [done|]. unfold reply_gist.
  cbn [rs_id rs_model rs_parts rs_stop rs_usage us_input_tokens us_output_tokens us_cached_read_tokens json_as_str default from_option id].
  split; [by rewrite Ht, Hc|]. by destruct (rs_stop r).
Qed.
#[export] Instance chat_body_laws : BodyCodecLaws chat_body chat_respelled.
Proof.
  constructor.
  - apply chat_reads_carried.
  - intros r model stream v Hc Hp Hm Hb.
    destruct (chat_keeps_gist r model stream v Hc Hp Hm Hb) as (r' & Hr' & ? & ? & ? & ?).
    exists r'. pose proof (chat_reads_portable v r' Hr'). by split_and!.
  - apply chat_bare_choice.
  - intros. by apply chat_writes.
  - intros []; try (by left); right; auto.
  - apply chat_counts.
  - intros. by apply chat_reply.
Qed.
End laws.
