(* ===== verification/GeminiBody.v ===== *)
(** Gemini generateContent bodies: requests and whole replies in both
    directions, the ids given to calls that have none, and the spelling of
    schema types (crates/model-gateway/src/wire/gemini.rs). *)
From stdpp Require Import prelude strings list gmap.
From Stdlib Require Import NArith ZArith Lia.
From S2P Require Import Prelude CoreTypes GatewayTypes GatewayErrors Ir Json Wire AnthropicStream Bodies.
From S2P Require Import AnthropicBody ChatBody.

(** ** Ids of calls *)

(** Marks a canonical id that was made from a tool name. *)
Definition GEMINI_CALL_ID_PREFIX : str := lit "call_".
Definition ORDINAL_MARK : str := lit "__".
(** [call_id.strip_prefix(GEMINI_CALL_ID_PREFIX).unwrap_or(call_id)]. *)
Definition unprefixed (call_id : str) : str := default call_id (strip_prefix GEMINI_CALL_ID_PREFIX call_id).
Definition gemini_call_name (call_id : str) : str :=
  let name := unprefixed call_id in
  match split_at_marker ORDINAL_MARK name with Some (name, _) => name | None => name end.
(** The n-th id made from the same name. *)
Definition numbered (id : str) (count : Z) : str :=
  if (1 <? count)%Z then id ++ ORDINAL_MARK ++ decimal count else id.

(** How often each name was seen. *)
Abbreviation Seen := (gmap str Z).
Definition count_of (name : str) (seen : Seen) : Z := default 0%Z (seen !! name).
Definition see (name : str) (seen : Seen) : Seen := <[name := (count_of name seen + 1)%Z]> seen.
Definition assign_part (calls results : Seen) (part : ContentPart) : ContentPart * Seen * Seen :=
  match part with
  | ToolCall id name arguments =>
      let calls := see name calls in
      (ToolCall (numbered id (count_of name calls)) name arguments, calls, results)
  | ToolResult call_id content is_error =>
      let name := unprefixed call_id in
      let results := see name results in
      (ToolResult (numbered call_id (count_of name results)) content is_error, calls, results)
  | part => (part, calls, results)
  end.
Fixpoint assign_parts (calls results : Seen) (parts : list ContentPart) : list ContentPart * Seen * Seen :=
  match parts with
  | [] => ([], calls, results)
  | part :: parts =>
      let '(part, calls, results) := assign_part calls results part in
      let '(parts, calls, results) := assign_parts calls results parts in
      (part :: parts, calls, results)
  end.
Fixpoint assign_messages (calls results : Seen) (messages : list CanonicalMessage) : list CanonicalMessage :=
  match messages with
  | [] => []
  | m :: messages =>
      let '(parts, calls, results) := assign_parts calls results (msg_parts m) in
      mkMessage (msg_role m) parts :: assign_messages calls results messages
  end.
Definition assign_call_ordinals (messages : list CanonicalMessage) : list CanonicalMessage :=
  assign_messages ∅ ∅ messages.

(** ** Schema types *)

Definition ascii_lower (s : str) : str := (fun c => if is_ascii_upper c then (c + 32)%N else c) <$> s.
Definition ascii_upper (s : str) : str := (fun c => if is_ascii_lower c then (c - 32)%N else c) <$> s.
Definition SCHEMA_TYPE_KEYS : list str := [lit "type"; lit "format"; lit "x-type"; lit "const"].
Definition NAME_MAP_KEYS : list str := [lit "properties"; lit "patternProperties"; lit "$defs"].
Definition is_schema_type_name (value : str) : bool :=
  bool_decide (ascii_lower value ∈
    [lit "object"; lit "array"; lit "string"; lit "number"; lit "integer"; lit "boolean"; lit "null"]).
Definition convert_type (convert : str -> str) (value : json) : json :=
  match value with
  | JString name => if is_schema_type_name name then JString (convert name) else value
  | other => other
  end.
Fixpoint map_schema_types (convert : str -> str) (schema : json) : json :=
  match schema with
  | JObject fields =>
      JObject ((fix each (fields : list (str * json)) : list (str * json) :=
        match fields with
        | [] => []
        | (key, value) :: fields =>
            (key,
             if bool_decide (key ∈ SCHEMA_TYPE_KEYS) then convert_type convert value
             else if bool_decide (key ∈ NAME_MAP_KEYS) then
               match value with
               | JObject properties =>
                   JObject ((fix named (properties : list (str * json)) : list (str * json) :=
                     match properties with
                     | [] => []
                     | (name, schema) :: properties => (name, map_schema_types convert schema) :: named properties
                     end) properties)
               | other => other
               end
             else map_schema_types convert value) :: each fields
        end) fields)
  | JArray items =>
      JArray ((fix each (items : list json) : list json :=
        match items with [] => [] | item :: items => map_schema_types convert item :: each items end) items)
  | other => other
  end.
Definition lowercase_schema_types : json -> json := map_schema_types ascii_lower.
Definition uppercase_schema_types : json -> json := map_schema_types ascii_upper.

(** ** Reading *)

Section bodies.
Context `{JsonText, JsonNumbers}.

(** [None] for a part of an unknown kind, which is left out. *)
Definition gemini_part (item : json) : option ContentPart :=
  match string_field item (lit "text") with
  | Some text =>
      Some (if default false (bool_of (json_get (lit "thought") item))
            then Reasoning text (mkSignature WIRE_PROTOCOL_GOOGLE_GENERATIVE_AI
                                   <$> string_field item (lit "thoughtSignature"))
            else Text text)
  | None =>
  match json_get (lit "inlineData") item with
  | Some inline =>
      Some (Image (ImageBase64 (default (lit "image/png") (string_field inline (lit "mimeType"))) (text_field inline "data")))
  | None =>
  match json_get (lit "fileData") item with
  | Some file => Some (Image (ImageUrl (text_field file "fileUri")))
  | None =>
  match json_get (lit "functionCall") item with
  | Some call =>
      let name := text_field call "name" in
      Some (ToolCall (GEMINI_CALL_ID_PREFIX ++ name) name (default (JObject []) (json_get (lit "args") call)))
  | None =>
  match json_get (lit "functionResponse") item with
  | Some response =>
      let name := default (lit "tool") (string_field response (lit "name")) in
      Some (ToolResult (GEMINI_CALL_ID_PREFIX ++ name)
              [Text (json_to_string (get_or_null (lit "response") response))] false)
  | None => None
  end end end end end.
Definition gemini_parts (value : option json) : list ContentPart :=
  match array_of value with Some items => omap gemini_part items | None => [] end.

Definition is_call (part : ContentPart) : bool := match part with ToolCall _ _ _ => true | _ => false end.
(** A result is a tool turn whatever role the client wrapped it in. *)
Definition gemini_message (content : json) : CanonicalMessage :=
  let role := if bool_decide (string_field content (lit "role") = Some (lit "model")) then Assistant else User in
  let parts := gemini_parts (json_get (lit "parts") content) in
  if existsb is_result parts && negb (existsb is_call parts) then mkMessage User parts else mkMessage role parts.
Definition gemini_tool (declaration : json) : ToolDefinition :=
  mkToolDefinition (text_field declaration "name") (text_field declaration "description")
    (default (JObject [(lit "type", jstr "object")])
       (lowercase_schema_types <$>
          match json_get (lit "parameters") declaration with
          | Some schema => Some schema
          | None => json_get (lit "parametersJsonSchema") declaration
          end)) false.
Definition gemini_tool_choice (value : json) : ToolChoice :=
  match json_pointer [lit "toolConfig"; lit "functionCallingConfig"; lit "mode"] value with
  | Some (JString mode) =>
      match_str mode
        [(lit "NONE", ChoiceNone);
         (lit "ANY",
            match str_of (json_pointer [lit "toolConfig"; lit "functionCallingConfig"; lit "allowedFunctionNames"; lit "0"] value) with
            | Some name => ChoiceNamed name
            | None => ChoiceRequired
            end)] ChoiceAuto
  | _ => ChoiceAuto
  end.
(** [x == 0.0] on the bit pattern of [x]. *)
Definition is_zero_f64 (bits : Z) : bool := (bits =? 0)%Z || (bits =? 2 ^ 63)%Z.
Definition gemini_disabled (generation : json) : bool :=
  match json_pointer [lit "thinkingConfig"; lit "thinkingBudget"] generation with
  | Some (JNumber _) =>
      match number_field generation (lit "thinkingBudget") with Some budget => is_zero_f64 budget | None => false end
  | _ => false
  end.

Definition gemini_contents (value : json) : list CanonicalMessage :=
  match array_of (json_get (lit "contents") value) with Some contents => gemini_message <$> contents | None => [] end.
Definition gemini_parse_request (value : json) : GatewayResult CanonicalRequest :=
  let? _ := ok_or (json_as_object value) (MalformedRequest (lit "a Gemini request must be a JSON object")) in
  let generation := get_or_null (lit "generationConfig") value in
  Ok {| cr_model := text_field value "model";
        cr_system := gemini_parts (json_pointer [lit "systemInstruction"; lit "parts"] value);
        cr_messages := assign_call_ordinals (gemini_contents value);
        cr_tools := match array_of (json_pointer [lit "tools"; lit "0"; lit "functionDeclarations"] value) with
                    | Some declarations => gemini_tool <$> declarations
                    | None => []
                    end;
        cr_tool_choice := gemini_tool_choice value;
        cr_parallel_tool_calls := None;
        cr_sampling := mkSampling (number_field generation (lit "temperature")) (number_field generation (lit "topP"))
                         (uint_field generation (lit "maxOutputTokens"))
                         (strings_of (json_get (lit "stopSequences") generation));
        cr_reasoning := mkReasoning (gemini_disabled generation) None;
        cr_stream := default false (bool_of (json_get (lit "stream") value));
        cr_opaque := [] |}.

(** ** Writing *)

Definition text_part (text : str) : json := JObject [(lit "text", JString text)].
Definition thought_part (text : str) (signature : option OpaqueSignature) : json :=
  match signature with
  | Some signature =>
      if bool_decide (os_protocol signature = WIRE_PROTOCOL_GOOGLE_GENERATIVE_AI)
      then JObject [(lit "text", JString text); (lit "thought", JBool true);
                    (lit "thoughtSignature", JString (os_value signature))]
      else JObject [(lit "text", JString text); (lit "thought", JBool true)]
  | None => JObject [(lit "text", JString text); (lit "thought", JBool true)]
  end.
Definition call_part (name : str) (arguments : json) : json :=
  JObject [(lit "functionCall", JObject [(lit "name", JString name); (lit "args", arguments)])].
Definition response_part (call_id : str) (content : list ContentPart) : json :=
  let text := text_of content in
  JObject [(lit "functionResponse",
    JObject [(lit "name", JString (gemini_call_name call_id));
             (lit "response", default (JObject [(lit "result", JString text)]) (json_from_str text))])].
Definition part_value (part : ContentPart) : GatewayResult (option json) :=
  match part with
  | Text ((_ :: _) as text) => Ok (Some (text_part text))
  | Reasoning text signature => Ok (Some (thought_part text signature))
  | Image (ImageBase64 media_type data) =>
      Ok (Some (JObject [(lit "inlineData", JObject [(lit "mimeType", JString media_type); (lit "data", JString data)])]))
  | Image (ImageUrl url) =>
      Ok (Some (JObject [(lit "fileData", JObject [(lit "mimeType", jstr "image/png"); (lit "fileUri", JString url)])]))
  | Image (ImageVendorFileId _) => Err UnsupportedImageReference
  | ToolCall _ name arguments => Ok (Some (call_part name arguments))
  | ToolResult call_id content _ => Ok (Some (response_part call_id content))
  | _ => Ok None
  end.
Definition gemini_role (role : Role) : json := match role with User => jstr "user" | Assistant => jstr "model" end.
Definition content_of (m : CanonicalMessage) : GatewayResult (option json) :=
  let? parts := try_omap part_value (msg_parts m) in
  Ok (if is_empty parts then None
      else Some (JObject [(lit "role", gemini_role (msg_role m)); (lit "parts", JArray parts)])).
Definition system_texts (system : list ContentPart) : list json :=
  omap (fun part => match part with Text text => Some (text_part text) | _ => None end) system.
Definition gemini_system (system : list ContentPart) : option json :=
  when (negb (is_empty (system_texts system))) (JObject [(lit "parts", JArray (system_texts system))]).
Definition gemini_build_tool (tool : ToolDefinition) : json :=
  JObject [(lit "name", JString (td_name tool)); (lit "description", JString (td_description tool));
           (lit "parametersJsonSchema", uppercase_schema_types (td_parameters tool))].
Definition gemini_mode (choice : ToolChoice) : json :=
  match choice with
  | ChoiceAuto => JObject [(lit "mode", jstr "AUTO")]
  | ChoiceNone => JObject [(lit "mode", jstr "NONE")]
  | ChoiceRequired => JObject [(lit "mode", jstr "ANY")]
  | ChoiceNamed name => JObject [(lit "mode", jstr "ANY"); (lit "allowedFunctionNames", JArray [JString name])]
  end.
Definition generation_config (request : CanonicalRequest) : list (str * json) :=
  let sampling := cr_sampling request in
  let generation := insert_some "temperature" (json_f64 <$> sp_temperature sampling) [] in
  let generation := insert_some "topP" (json_f64 <$> sp_top_p sampling) generation in
  let generation := insert_some "maxOutputTokens" (json_u64 <$> sp_max_tokens sampling) generation in
  let generation := insert_some "stopSequences"
                      (when (negb (is_empty (sp_stop sampling))) (JArray (JString <$> sp_stop sampling))) generation in
  insert_some "thinkingConfig"
    (when (rr_disabled (cr_reasoning request)) (JObject [(lit "thinkingBudget", json_u64 0)])) generation.

Definition gemini_build_request (request : CanonicalRequest) : GatewayResult json :=
  let? contents := try_omap content_of (cr_messages request) in
  let body := object_insert (lit "contents") (JArray contents) [] in
  let body := insert_some "systemInstruction" (gemini_system (cr_system request)) body in
  let some_tools := negb (is_empty (cr_tools request)) in
  let body := insert_some "tools"
    (when some_tools (JArray [JObject [(lit "functionDeclarations", JArray (gemini_build_tool <$> cr_tools request))]])) body in
  let body := insert_some "toolConfig"
    (when some_tools (JObject [(lit "functionCallingConfig", gemini_mode (cr_tool_choice request))])) body in
  let generation := generation_config request in
  Ok (JObject (insert_some "generationConfig" (when (negb (is_empty generation)) (JObject generation)) body)).

(** ** Whole replies *)

Definition gemini_usage_from (v : json) : CanonicalUsage :=
  mkUsage (default 0%Z (uint_field v (lit "promptTokenCount")))
          (default 0%Z (uint_field v (lit "candidatesTokenCount")))
          (default 0%Z (uint_field v (lit "cachedContentTokenCount"))) 0
          (default 0%Z (uint_field v (lit "thoughtsTokenCount"))).
Definition gemini_reply_part (part : ContentPart) : option json :=
  match part with
  | Text ((_ :: _) as text) => Some (text_part text)
  | Reasoning text _ => Some (thought_part text None)
  | ToolCall _ name arguments => Some (call_part name arguments)
  | _ => None
  end.
Definition gemini_render_response (response : CanonicalResponse) : json :=
  let usage := rs_usage response in
  JObject
    [(lit "candidates", JArray [JObject
        [(lit "content", JObject [(lit "role", jstr "model");
                                  (lit "parts", JArray (omap gemini_reply_part (rs_parts response)))]);
         (lit "finishReason", JString (StopReason_gemini (rs_stop response))); (lit "index", json_u64 0)]]);
     (lit "usageMetadata", JObject
        [(lit "promptTokenCount", json_u64 (us_input_tokens usage));
         (lit "candidatesTokenCount", json_u64 (us_output_tokens usage));
         (lit "cachedContentTokenCount", json_u64 (us_cached_read_tokens usage));
         (lit "thoughtsTokenCount", json_u64 (us_reasoning_tokens usage));
         (lit "totalTokenCount", json_u64 (CanonicalUsage_total usage))]);
     (lit "modelVersion", JString (rs_model response))].
Definition gemini_parse_response (value : json) : GatewayResult CanonicalResponse :=
  Ok (mkResponse [] (text_field value "modelVersion")
        (gemini_parts (json_pointer [lit "candidates"; lit "0"; lit "content"; lit "parts"] value))
        (match str_of (json_pointer [lit "candidates"; lit "0"; lit "finishReason"] value) with
         | Some reason => StopReason_from_gemini reason
         | None => EndTurn
         end)
        (match json_get (lit "usageMetadata") value with
         | Some usage => gemini_usage_from usage
         | None => CanonicalUsage_default
         end)).

Definition gemini_body : BodyCodec :=
  mkCodec gemini_parse_request gemini_build_request gemini_render_response gemini_parse_response.
End bodies.

(** * Lemmas *)

(** ** Ids of calls *)

(** The calls and results of a conversation, in order. *)
Definition part_calls (parts : list ContentPart) : list (str * str) :=
  omap (fun part => match part with ToolCall id name _ => Some (id, name) | _ => None end) parts.
Definition part_results (parts : list ContentPart) : list str :=
  omap (fun part => match part with ToolResult call_id _ _ => Some call_id | _ => None end) parts.
Definition calls_in (messages : list CanonicalMessage) : list (str * str) := messages ≫= fun m => part_calls (msg_parts m).
Definition results_in (messages : list CanonicalMessage) : list str := messages ≫= fun m => part_results (msg_parts m).
(** The ids of calls of these names. *)
Fixpoint number_all (seen : Seen) (names : list str) : list str :=
  match names with
  | [] => []
  | name :: names =>
      let seen := see name seen in
      numbered (GEMINI_CALL_ID_PREFIX ++ name) (count_of name seen) :: number_all seen names
  end.
(** Every id is made from a tool name. *)
Definition made_from_name (part : ContentPart) : Prop :=
  match part with
  | ToolCall id name _ => id = GEMINI_CALL_ID_PREFIX ++ name
  | ToolResult call_id _ _ => exists name, call_id = GEMINI_CALL_ID_PREFIX ++ name
  | _ => True
  end.
Fixpoint see_all (names : list str) (seen : Seen) : Seen :=
  match names with [] => seen | name :: names => see_all names (see name seen) end.

Lemma unprefixed_made name : unprefixed (GEMINI_CALL_ID_PREFIX ++ name) = name.
Proof. unfold unprefixed. by rewrite strip_prefix_app. Qed.

Lemma part_calls_cons p ps : part_calls (p :: ps) = part_calls [p] ++ part_calls ps.
Proof. apply (omap_app _ [p] ps). Qed.
Lemma part_results_cons p ps : part_results (p :: ps) = part_results [p] ++ part_results ps.
Proof. apply (omap_app _ [p] ps). Qed.
Lemma calls_in_cons m ms : calls_in (m :: ms) = part_calls (msg_parts m) ++ calls_in ms.
Proof. done. Qed.
Lemma results_in_cons m ms : results_in (m :: ms) = part_results (msg_parts m) ++ results_in ms.
Proof. done. Qed.
Lemma number_all_app seen a b : number_all seen (a ++ b) = number_all seen a ++ number_all (see_all a seen) b.
Proof. revert seen. induction a as [|n a IH]; intros seen; simpl; [done|]. by rewrite IH. Qed.
Lemma see_all_app seen a b : see_all (a ++ b) seen = see_all b (see_all a seen).
Proof. revert seen. induction a as [|n a IH]; intros seen; simpl; [done|]. apply IH. Qed.

Lemma assign_parts_spec parts : forall calls results,
  Forall made_from_name parts ->
  let '(parts', calls', results') := assign_parts calls results parts in
  part_calls parts' = zip (number_all calls (part_calls parts).*2) (part_calls parts).*2 /\
  part_results parts' = number_all results (unprefixed <$> part_results parts) /\
  calls' = see_all (part_calls parts).*2 calls /\ results' = see_all (unprefixed <$> part_results parts) results.
Proof.
  induction parts as [|p parts IH]; intros calls results Hm; [done|]. apply Forall_cons in Hm as [Hp Hm].
  rewrite (part_calls_cons p), (part_results_cons p), !fmap_app, !number_all_app, !see_all_app.
  cbn [assign_parts]. destruct (assign_part calls results p) as [[p' calls1] results1] eqn:Ep.
  specialize (IH calls1 results1 Hm). destruct (assign_parts calls1 results1 parts) as [[parts' calls'] results'].
  destruct IH as (IHc & IHr & -> & ->). rewrite (part_calls_cons p'), (part_results_cons p'), IHc, IHr.
  destruct p as [| | |id name arguments|call_id content is_error|]; try (injection Ep as <- <- <-; done).
  - simpl in Hp. subst id. injection Ep as <- <- <-. done.
  - destruct Hp as [name ->]. cbn [assign_part] in Ep. cbv zeta in Ep. injection Ep as <- <- <-.
    change (unprefixed <$> part_results [ToolResult (GEMINI_CALL_ID_PREFIX ++ name) content is_error])
      with [unprefixed (GEMINI_CALL_ID_PREFIX ++ name)]. rewrite unprefixed_made. done.
Qed.
Lemma assign_messages_spec ms : forall calls results,
  Forall (fun m => Forall made_from_name (msg_parts m)) ms ->
  calls_in (assign_messages calls results ms) = zip (number_all calls (calls_in ms).*2) (calls_in ms).*2 /\
  results_in (assign_messages calls results ms) = number_all results (unprefixed <$> results_in ms).
Proof.
  induction ms as [|m ms IH]; intros calls results Hm; [done|]. apply Forall_cons in Hm as [Hp Hm].
  pose proof (assign_parts_spec (msg_parts m) calls results Hp) as Hs. cbn [assign_messages].
  destruct (assign_parts calls results (msg_parts m)) as [[parts calls1] results1]. destruct Hs as (Hc & Hr & -> & ->).
  destruct (IH (see_all (part_calls (msg_parts m)).*2 calls) (see_all (unprefixed <$> part_results (msg_parts m)) results) Hm)
    as [IHc IHr].
  rewrite !calls_in_cons, !results_in_cons, IHc, IHr, !fmap_app, !number_all_app. cbn [msg_parts].
  rewrite Hc, Hr. split; [|done]. rewrite zip_with_app; [done|].
  clear. generalize calls. induction (part_calls (msg_parts m)).*2; intros; simpl; [done|]. by f_equal.
Qed.

(** A name in which the mark cannot be mistaken: it holds no mark, and its last
    character does not make one with the mark that follows. *)
Definition clean (name : str) : Prop := split_at_marker ORDINAL_MARK (name ++ lit "_") = None.
Lemma clean_cons c n : clean (c :: n) -> clean n.
Proof.
  unfold clean. cbn [app split_at_marker]. destruct (strip_prefix _ _); [done|]. by destruct (split_at_marker _ _).
Qed.
Lemma mark_chars : ORDINAL_MARK = [95%N; 95%N].
Proof. done. Qed.
(** The first characters decide whether the mark starts a name. *)
Lemma clean_start c n rest : clean (c :: n) -> strip_prefix ORDINAL_MARK (c :: n ++ rest) = None \/ n = [].
Proof.
  unfold clean. cbn [app split_at_marker]. destruct (strip_prefix _ _) eqn:E; [done|]. intros _.
  destruct n as [|d n]; [by right|left]. revert E. rewrite mark_chars. cbn [app strip_prefix].
  destruct (N.eqb 95 c); [|done]. by destruct (N.eqb 95 d).
Qed.
Lemma clean_one c rest : clean [c] -> strip_prefix ORDINAL_MARK (c :: ORDINAL_MARK ++ rest) = None.
Proof.
  unfold clean. change (lit "_") with [95%N]. rewrite mark_chars. cbn [app split_at_marker strip_prefix].
  destruct (N.eqb 95 c); [|done]. by rewrite N.eqb_refl.
Qed.
Lemma clean_split n rest : clean n -> split_at_marker ORDINAL_MARK (n ++ ORDINAL_MARK ++ rest) = Some (n, rest).
Proof.
  induction n as [|c n IH]; intros Hc; [by destruct rest|]. pose proof (IH (clean_cons c n Hc)) as Hn.
  cbn [app split_at_marker]. rewrite Hn.
  destruct (clean_start c n (ORDINAL_MARK ++ rest) Hc) as [H| ->]; [by rewrite H|].
  rewrite app_nil_l. by rewrite (clean_one c rest Hc).
Qed.
Lemma clean_whole n : clean n -> split_at_marker ORDINAL_MARK n = None.
Proof.
  induction n as [|c n IH]; intros Hc; [done|]. cbn [split_at_marker]. rewrite IH by (by eapply clean_cons).
  destruct (clean_start c n [] Hc) as [H| ->].
  - rewrite app_nil_r in H. by rewrite H.
  - rewrite mark_chars. cbn [strip_prefix]. by destruct (N.eqb 95 c).
Qed.
Lemma call_name_of_numbered name count : clean name -> gemini_call_name (numbered (GEMINI_CALL_ID_PREFIX ++ name) count) = name.
Proof.
  intros Hc. unfold gemini_call_name, numbered. destruct (1 <? count)%Z; [rewrite <- app_assoc|]; rewrite unprefixed_made.
  - by rewrite clean_split.
  - by rewrite clean_whole.
Qed.
Lemma numbered_inj id a b : (1 <= a)%Z -> (1 <= b)%Z -> numbered id a = numbered id b -> a = b.
Proof.
  unfold numbered. intros Ha Hb. destruct (Z.ltb_spec 1 a), (Z.ltb_spec 1 b); intros E.
  - apply app_inv_head, app_inv_head, decimal_inj in E; lia.
  - exfalso. apply (f_equal length) in E. rewrite !length_app in E. change (length ORDINAL_MARK) with 2 in E. lia.
  - exfalso. apply (f_equal length) in E. rewrite !length_app in E. change (length ORDINAL_MARK) with 2 in E. lia.
  - lia.
Qed.

Fixpoint occurrences (name : str) (names : list str) : Z :=
  match names with
  | [] => 0
  | n :: names => (if bool_decide (n = name) then 1 else 0) + occurrences name names
  end%Z.
Lemma occurrences_nonneg name names : (0 <= occurrences name names)%Z.
Proof. induction names; simpl; [done|]. case_bool_decide; lia. Qed.
Lemma count_of_see name n seen :
  count_of n (see name seen) = (count_of n seen + if bool_decide (name = n) then 1 else 0)%Z.
Proof.
  unfold count_of, see. case_bool_decide; subst.
  - by rewrite lookup_insert_eq.
  - rewrite lookup_insert_ne by done. lia.
Qed.
(** The ids of a list of calls: each name with each of its positions. *)
Lemma number_all_spec seen names id :
  id ∈ number_all seen names <->
  exists name k, id = numbered (GEMINI_CALL_ID_PREFIX ++ name) k /\
    (count_of name seen < k <= count_of name seen + occurrences name names)%Z.
Proof.
  revert seen. induction names as [|n names IH]; intros seen; simpl.
  { split; [by intros ?%elem_of_nil|]. intros (name & k & _ & ?). lia. }
  rewrite elem_of_cons, IH. split.
  - intros [->|(name & k & -> & Hk)].
    + exists n, (count_of n (see n seen)). split; [done|]. rewrite count_of_see, bool_decide_true by done.
      pose proof (occurrences_nonneg n names). lia.
    + exists name, k. split; [done|]. rewrite count_of_see in Hk. case_bool_decide; lia.
  - intros (name & k & -> & Hk). destruct (decide (n = name)) as [->|Hn].
    + rewrite bool_decide_true in Hk by done. destruct (decide (k = count_of name seen + 1)%Z) as [->|].
      * left. by rewrite count_of_see, bool_decide_true.
      * right. exists name, k. split; [done|]. rewrite count_of_see, bool_decide_true by done. lia.
    + right. exists name, k. split; [done|]. rewrite bool_decide_false in Hk by done.
      rewrite count_of_see, bool_decide_false by done. lia.
Qed.
Lemma number_all_distinct seen names :
  Forall clean names -> (forall n, 0 <= count_of n seen)%Z -> NoDup (number_all seen names).
Proof.
  intros Hc. revert seen. induction Hc as [|n names Hn Hc IH]; intros seen Hs; [constructor|]. cbn [number_all].
  assert (forall m, 0 <= count_of m (see n seen))%Z as Hs'.
  { intros m. rewrite count_of_see. specialize (Hs m). case_bool_decide; lia. }
  constructor; [|by apply IH]. rewrite number_all_spec. intros (m & k & E & Hk).
  assert (clean m) as Hm.
  { rewrite Forall_forall in Hc. apply Hc. destruct (decide (m ∈ names)) as [|Hni]; [done|].
    assert (occurrences m names = 0%Z) as H0; [|lia]. clear -Hni. induction names as [|x names IH]; simpl; [done|].
    rewrite bool_decide_false by set_solver. rewrite IH by set_solver. done. }
  pose proof (f_equal gemini_call_name E) as En. rewrite !call_name_of_numbered in En by done. subst m.
  specialize (Hs n). rewrite count_of_see, bool_decide_true in E by done.
  apply numbered_inj in E; rewrite count_of_see, bool_decide_true in Hk by done; lia.
Qed.

(** ** Schema types *)

Section json_ind.
Context (P : json -> Prop) (Hnull : P JNull) (Hbool : forall b, P (JBool b)) (Hnumber : forall n, P (JNumber n))
  (Hstring : forall s, P (JString s)) (Harray : forall items, Forall P items -> P (JArray items))
  (Hobject : forall fields, Forall (fun f => P f.2) fields -> P (JObject fields)).
Fixpoint json_nested_ind (v : json) : P v :=
  match v with
  | JNull => Hnull
  | JBool b => Hbool b
  | JNumber n => Hnumber n
  | JString s => Hstring s
  | JArray items =>
      Harray items ((fix each (items : list json) : Forall P items :=
        match items with
        | [] => Forall_nil_2 P
        | item :: items => Forall_cons_2 P item items (json_nested_ind item) (each items)
        end) items)
  | JObject fields =>
      Hobject fields ((fix each (fields : list (str * json)) : Forall (fun f => P f.2) fields :=
        match fields with
        | [] => Forall_nil_2 _
        | (k, v) :: fields => Forall_cons_2 (fun f => P f.2) (k, v) fields (json_nested_ind v) (each fields)
        end) fields)
  end.
End json_ind.

(** What becomes of one field of a schema. *)
Definition map_named (convert : str -> str) (value : json) : json :=
  match value with
  | JObject properties => JObject (prod_map id (map_schema_types convert) <$> properties)
  | other => other
  end.
Definition map_field (convert : str -> str) (key : str) (value : json) : json :=
  if bool_decide (key ∈ SCHEMA_TYPE_KEYS) then convert_type convert value
  else if bool_decide (key ∈ NAME_MAP_KEYS) then map_named convert value
  else map_schema_types convert value.
Lemma map_schema_object convert fields :
  map_schema_types convert (JObject fields) = JObject ((fun f => (f.1, map_field convert f.1 f.2)) <$> fields).
Proof.
  simpl. f_equal. induction fields as [|[key value] fields IH]; [done|]. cbn [fmap list_fmap]. rewrite <- IH. f_equal.
  unfold map_field, map_named. cbn [fst snd]. f_equal. case_bool_decide; [done|]. case_bool_decide; [|done].
  destruct value as [| | | | |properties]; try done. f_equal.
  induction properties as [|[name schema] properties IHp]; [done|]. cbn [fmap list_fmap]. by rewrite <- IHp.
Qed.
Lemma map_schema_array convert items : map_schema_types convert (JArray items) = JArray (map_schema_types convert <$> items).
Proof. done. Qed.

(** The type names a schema spells where a type stands, in order. *)
Definition typed_name (value : json) : list str :=
  match value with JString name => if is_schema_type_name name then [name] else [] | _ => [] end.
Fixpoint type_names (schema : json) : list str :=
  match schema with
  | JObject fields => fields ≫= fun f =>
      if bool_decide (f.1 ∈ SCHEMA_TYPE_KEYS) then typed_name f.2
      else if bool_decide (f.1 ∈ NAME_MAP_KEYS) then
        match f.2 with JObject properties => properties ≫= fun p => type_names p.2 | _ => [] end
      else type_names f.2
  | JArray items => items ≫= type_names
  | _ => []
  end.
Lemma type_names_object fields :
  type_names (JObject fields) = fields ≫= fun f =>
    if bool_decide (f.1 ∈ SCHEMA_TYPE_KEYS) then typed_name f.2
    else if bool_decide (f.1 ∈ NAME_MAP_KEYS) then
      match f.2 with JObject properties => properties ≫= fun p => type_names p.2 | _ => [] end
    else type_names f.2.
Proof. done. Qed.
Lemma bind_mapped {A B} (f g : A -> list B) (h : A -> A) (c : B -> B) (l : list A) :
  (forall x, x ∈ l -> f (h x) = c <$> g x) -> (h <$> l) ≫= f = c <$> (l ≫= g).
Proof.
  induction l as [|x l IH]; intros Hx; [done|]. rewrite fmap_cons, !bind_cons, fmap_app, Hx by left.
  f_equal. apply IH. intros y Hy. apply Hx. by right.
Qed.
(** Respelling spells every type name, and no other, the new way. *)
Lemma type_names_mapped convert v :
  (forall s, is_schema_type_name s = true -> is_schema_type_name (convert s) = true) ->
  type_names (map_schema_types convert v) = convert <$> type_names v.
Proof.
  intros Hk. enough (H : type_names (map_schema_types convert v) = convert <$> type_names v /\
    forall ps, v = JObject ps -> (prod_map id (map_schema_types convert) <$> ps) ≫= (fun p => type_names p.2) =
      convert <$> (ps ≫= fun p => type_names p.2)) by apply H.
  induction v as [| | | |items IH|fields IH] using json_nested_ind; try done.
  - split; [|done]. rewrite map_schema_array. apply bind_mapped. intros x Hx. rewrite Forall_forall in IH. by apply IH.
  - rewrite Forall_forall in IH. split.
    + rewrite map_schema_object, !type_names_object. apply bind_mapped. intros [key value] Hin. apply IH in Hin as [IH1 IH2].
      cbn [fst snd] in *. unfold map_field. case_bool_decide.
      * destruct value as [| | |s| |]; try done. cbn. destruct (is_schema_type_name s) eqn:E; cbn; [by rewrite Hk|by rewrite E].
      * case_bool_decide; [|exact IH1]. destruct value as [| | | | |ps]; try done. by apply IH2.
    + intros ps [= <-]. apply bind_mapped. intros [key value] Hin. by apply IH in Hin as [IH1 _].
Qed.

(** Spelling twice is spelling once, when the first spelling keeps type names type names. *)
Lemma map_schema_twice f g h v :
  (forall s, is_schema_type_name s = true -> is_schema_type_name (g s) = true /\ f (g s) = h s) ->
  map_schema_types f (map_schema_types g v) = map_schema_types h v.
Proof.
  intros Hfg.
  assert (forall v, convert_type f (convert_type g v) = convert_type h v) as Hc.
  { intros [| | |s| |]; try done. simpl. destruct (is_schema_type_name s) eqn:E; simpl; [|by rewrite E].
    destruct (Hfg s E) as [-> ->]. done. }
  enough (map_schema_types f (map_schema_types g v) = map_schema_types h v /\
          map_named f (map_named g v) = map_named h v) as [? _] by done.
  induction v as [| | | |items IH|fields IH] using json_nested_ind; try done.
  - rewrite !map_schema_array, <- list_fmap_compose. split; [|done]. f_equal. apply list_fmap_ext. intros i item Hi.
    rewrite Forall_forall in IH. apply IH. by eapply list_elem_of_lookup_2.
  - rewrite Forall_forall in IH. rewrite !map_schema_object, <- list_fmap_compose. split.
    + f_equal. apply list_fmap_ext. intros i [key value] Hi. apply list_elem_of_lookup_2, IH in Hi as [IH1 IH2]. simpl in *.
      f_equal. unfold map_field. case_bool_decide; [apply Hc|]. by case_bool_decide.
    + simpl. rewrite <- list_fmap_compose. f_equal. apply list_fmap_ext. intros i [key value] Hi.
      apply list_elem_of_lookup_2, IH in Hi as [IH1 _]. unfold prod_map. simpl in *. by rewrite IH1.
Qed.
Lemma ascii_lower_upper s : ascii_lower (ascii_upper s) = ascii_lower s.
Proof.
  unfold ascii_lower, ascii_upper. rewrite <- list_fmap_compose. apply list_fmap_ext. intros i c _. simpl.
  destruct (is_ascii_lower c) eqn:El; [|done]. unfold is_ascii_lower, is_ascii_upper in *.
  apply andb_true_iff in El as [H1%N.leb_le H2%N.leb_le].
  replace ((65 <=? c - 32) && (c - 32 <=? 90))%N with true by (symmetry; apply andb_true_iff; split; apply N.leb_le; lia).
  replace ((65 <=? c) && (c <=? 90))%N with false; [lia|]. symmetry. apply andb_false_iff. right. apply N.leb_gt. lia.
Qed.
Lemma ascii_lower_twice s : ascii_lower (ascii_lower s) = ascii_lower s.
Proof.
  unfold ascii_lower. rewrite <- list_fmap_compose. apply list_fmap_ext. intros i c _. simpl.
  destruct (is_ascii_upper c) eqn:El; [|by rewrite El]. unfold is_ascii_upper in *.
  apply andb_true_iff in El as [H1%N.leb_le H2%N.leb_le].
  replace ((65 <=? c + 32) && (c + 32 <=? 90))%N with false; [done|]. symmetry. apply andb_false_iff. right. apply N.leb_gt. lia.
Qed.
Lemma lowercase_of_uppercase v : lowercase_schema_types (uppercase_schema_types v) = lowercase_schema_types v.
Proof.
  apply map_schema_twice. intros s Hs. split; [|apply ascii_lower_upper]. unfold is_schema_type_name in *.
  by rewrite ascii_lower_upper.
Qed.
Lemma lowercase_twice v : lowercase_schema_types (lowercase_schema_types v) = lowercase_schema_types v.
Proof.
  apply map_schema_twice. intros s Hs. split; [|apply ascii_lower_twice]. unfold is_schema_type_name in *.
  by rewrite ascii_lower_twice.
Qed.

Section laws.
Context `{JsonTextLaws, JsonNumbersLaws}.

Lemma gemini_part_made item part : gemini_part item = Some part -> made_from_name part.
Proof.
  unfold gemini_part. destruct (string_field item _); [intros [= <-]; by destruct (default _ _)|].
  destruct (json_get (lit "inlineData") item); [by intros [= <-]|]. destruct (json_get (lit "fileData") item); [by intros [= <-]|].
  destruct (json_get (lit "functionCall") item); [by intros [= <-]|].
  destruct (json_get (lit "functionResponse") item); [|done]. intros [= <-]. by eexists.
Qed.
Lemma gemini_contents_made value : Forall (fun m => Forall made_from_name (msg_parts m)) (gemini_contents value).
Proof.
  unfold gemini_contents. destruct (array_of _) as [contents|]; [|constructor]. apply Forall_fmap, Forall_true. intros content.
  assert (Forall made_from_name (gemini_parts (json_get (lit "parts") content))) as Hp.
  { unfold gemini_parts. destruct (array_of _) as [items|]; [|constructor]. apply Forall_forall. intros part Hin.
    apply list_elem_of_omap in Hin as (item & _ & Hi). by eapply gemini_part_made. }
  unfold compose, gemini_message. by destruct (existsb _ _ && _).
Qed.
Lemma split_at_marker_app marker s t a b : split_at_marker marker s = Some (a, b) -> split_at_marker marker (s ++ t) = Some (a, b ++ t).
Proof.
  assert (forall p u r, strip_prefix p u = Some r -> strip_prefix p (u ++ t) = Some (r ++ t)) as Hs.
  { intros p u r E. apply strip_prefix_Some in E as ->. rewrite <- app_assoc. apply strip_prefix_app. }
  revert a. induction s as [|c s IH]; intros a; cbn [split_at_marker app].
  - destruct (strip_prefix marker []) as [r|] eqn:E; [|done]. intros [= <- <-]. apply Hs in E. simpl in E.
    destruct t; cbn [split_at_marker]; by rewrite E.
  - destruct (strip_prefix marker (c :: s)) as [r|] eqn:E.
    + intros [= <- <-]. apply Hs in E. simpl in E. by rewrite E.
    + destruct (split_at_marker marker s) as [[a' b']|] eqn:E'; [|done]. intros [= <- <-].
      destruct (strip_prefix marker (c :: s ++ t)) as [r|] eqn:E2; [|by rewrite (IH a')].
      exfalso. apply split_at_marker_Some in E' as Hs'. apply strip_prefix_Some in E2.
      assert (length marker <= length (c :: s)) as Hl by (rewrite Hs'; simpl; rewrite !length_app; lia).
      assert (c :: s = marker ++ drop (length marker) (c :: s)) as Hd.
      { rewrite <- (take_drop (length marker) (c :: s)) at 1. f_equal.
        rewrite <- (take_app_le (c :: s) t) by done. simpl app. rewrite E2. apply take_app_length. }
      rewrite Hd, strip_prefix_app in E. done.
Qed.
(** A name that holds the mark is cut at it. *)
Lemma call_name_of_marked name count :
  split_at_marker ORDINAL_MARK name <> None -> gemini_call_name (numbered (GEMINI_CALL_ID_PREFIX ++ name) count) <> name.
Proof.
  destruct (split_at_marker ORDINAL_MARK name) as [[a b]|] eqn:E; [|done]. intros _ Heq.
  assert (a = name) as ->.
  { rewrite <- Heq. unfold gemini_call_name, numbered. destruct (1 <? count)%Z; [rewrite <- app_assoc|]; rewrite unprefixed_made.
    - by rewrite (split_at_marker_app _ _ _ a b).
    - by rewrite E. }
  apply split_at_marker_Some, (f_equal length) in E. rewrite !length_app in E. change (length ORDINAL_MARK) with 2 in E. lia.
Qed.
Lemma number_all_id seen names id name :
  (id, name) ∈ zip (number_all seen names) names -> exists k, id = numbered (GEMINI_CALL_ID_PREFIX ++ name) k /\ name ∈ names.
Proof.
  revert seen. induction names as [|n names IH]; intros seen; [by intros ?%elem_of_nil|]. cbn [number_all zip_with].
  rewrite elem_of_cons. intros [[= -> ->]|Hin]; [eexists; split; [done|left]|].
  destruct (IH _ Hin) as (k & -> & Hn). exists k. split; [done|by right].
Qed.
Lemma number_all_length seen names : length (number_all seen names) = length names.
Proof. revert seen. induction names; intros seen; simpl; [done|]. by f_equal. Qed.

(** C25. The calls of a Gemini client get ids: names are kept, results that come in the
    order of their calls get the ids of those calls, every result has the id of
    a call when no name has more results than calls, and ids are distinct when
    every name is clean: it neither holds the ordinal mark nor ends in an
    underscore.  A clean name is found again in its id when the conversation
    goes back to Gemini; a name that holds the mark never is. *)
Theorem gemini_calls_are_paired (value : json) (r : CanonicalRequest) :
  gemini_parse_request value = Ok r ->
  let called := (calls_in (gemini_contents value)).*2 in
  let returned := unprefixed <$> results_in (gemini_contents value) in
  let ids := (calls_in (cr_messages r)).*1 in
  (calls_in (cr_messages r)).*2 = called /\
  (returned `prefix_of` called -> results_in (cr_messages r) `prefix_of` ids) /\
  ((forall name, occurrences name returned <= occurrences name called)%Z ->
     forall id, id ∈ results_in (cr_messages r) -> id ∈ ids) /\
  (Forall clean called -> NoDup ids) /\
  (forall id name, (id, name) ∈ calls_in (cr_messages r) ->
     (clean name -> gemini_call_name id = name) /\
     (split_at_marker ORDINAL_MARK name <> None -> gemini_call_name id <> name)).
Proof.
  unfold gemini_parse_request. intros (fields & _ & [= <-])%bind_ok. cbn [cr_messages]. unfold assign_call_ordinals. cbv zeta.
  destruct (assign_messages_spec (gemini_contents value) ∅ ∅ (gemini_contents_made value)) as [-> ->].
  set (called := (calls_in _).*2). set (returned := unprefixed <$> _).
  assert (length (number_all ∅ called) = length called) as Hl by apply number_all_length.
  rewrite fst_zip, snd_zip by lia. split_and!; [done|..].
  - intros [more ->]. rewrite number_all_app. by eexists.
  - intros Hle id. rewrite !number_all_spec. intros (name & k & -> & Hk). exists name, k. specialize (Hle name). split; [done|lia].
  - intros Hc. by apply number_all_distinct.
  - intros id name Hin. apply number_all_id in Hin as (k & -> & _).
    split; [apply call_name_of_numbered|apply call_name_of_marked].
Qed.

(** What every reader promises: requests that can be carried, counts that fit. *)
Lemma gemini_part_opaque item part : gemini_part item = Some part -> own_opaque part.
Proof.
  unfold gemini_part. destruct (string_field item _); [intros [= <-]; by destruct (default _ _)|].
  destruct (json_get (lit "inlineData") item); [by intros [= <-]|]. destruct (json_get (lit "fileData") item); [by intros [= <-]|].
  destruct (json_get (lit "functionCall") item); [by intros [= <-]|].
  by destruct (json_get (lit "functionResponse") item); [intros [= <-]|].
Qed.
Lemma assign_parts_opaque parts : forall calls results,
  Forall own_opaque parts -> Forall own_opaque (assign_parts calls results parts).1.1.
Proof.
  induction parts as [|p parts IH]; intros calls results Ho; [constructor|]. apply Forall_cons in Ho as [Hp Ho].
  cbn [assign_parts]. destruct (assign_part calls results p) as [[p' calls1] results1] eqn:E.
  specialize (IH calls1 results1 Ho). destruct (assign_parts calls1 results1 parts) as [[parts' calls2] results2].
  constructor; [|done]. destruct p; simpl in E; injection E as <- <- <-; done.
Qed.
Lemma assign_messages_opaque ms : forall calls results,
  Forall (fun m => Forall own_opaque (msg_parts m)) ms ->
  Forall (fun m => Forall own_opaque (msg_parts m)) (assign_messages calls results ms).
Proof.
  induction ms as [|m ms IH]; intros calls results Ho; [constructor|]. apply Forall_cons in Ho as [Hm Ho].
  cbn [assign_messages]. pose proof (assign_parts_opaque (msg_parts m) calls results Hm) as Hp.
  destruct (assign_parts calls results (msg_parts m)) as [[parts calls1] results1]. constructor; [done|by apply IH].
Qed.
Lemma gemini_reads_carried v r : gemini_parse_request v = Ok r -> carried r.
Proof.
  unfold gemini_parse_request. intros (fields & _ & [= <-])%bind_ok. constructor; [|apply number_readable..].
  cbn [cr_messages]. apply assign_messages_opaque. unfold gemini_contents. destruct (array_of _) as [contents|]; [|constructor].
  apply Forall_fmap, Forall_true. intros content.
  assert (Forall own_opaque (gemini_parts (json_get (lit "parts") content))) as Hp.
  { unfold gemini_parts. destruct (array_of _) as [items|]; [|constructor]. apply Forall_forall. intros part Hin.
    apply list_elem_of_omap in Hin as (item & _ & Hi). by eapply gemini_part_opaque. }
  unfold compose, gemini_message. by destruct (existsb _ _ && _).
Qed.
Lemma gemini_counts v r : gemini_parse_response v = Ok r -> counted (rs_usage r).
Proof.
  unfold gemini_parse_response. intros [= <-]. cbn [rs_usage]. destruct (json_get _ v); [|done].
  unfold gemini_usage_from, counted. cbn -[in_u64]. split_and!; try apply uint_field_range. done.
Qed.

(** ** What a Gemini upstream is told *)

(** A part as a Gemini upstream reads it: calls and results go by name, and the
    text of a result stands as JSON, or inside an object that holds it. *)
Definition echo_part (part : ContentPart) : option ContentPart :=
  match part with
  | Text ((_ :: _) as text) => Some (Text text)
  | Reasoning text signature =>
      Some (Reasoning text (s ← signature;
        if bool_decide (os_protocol s = WIRE_PROTOCOL_GOOGLE_GENERATIVE_AI)
        then Some (mkSignature WIRE_PROTOCOL_GOOGLE_GENERATIVE_AI (os_value s)) else None))
  | Image (ImageVendorFileId _) => None
  | Image source => Some (Image source)
  | ToolCall _ name arguments => Some (ToolCall (GEMINI_CALL_ID_PREFIX ++ name) name arguments)
  | ToolResult call_id content _ =>
      let text := text_of content in
      Some (ToolResult (GEMINI_CALL_ID_PREFIX ++ gemini_call_name call_id)
              [Text (json_to_string (default (JObject [(lit "result", JString text)]) (json_from_str text)))] false)
  | _ => None
  end.
Definition echo_message (m : CanonicalMessage) : option CanonicalMessage :=
  let parts := omap echo_part (msg_parts m) in
  when (negb (is_empty parts))
    (mkMessage (if existsb is_result parts && negb (existsb is_call parts) then User else msg_role m) parts).
Definition echo_tool (t : ToolDefinition) : ToolDefinition :=
  mkToolDefinition (td_name t) (td_description t) (lowercase_schema_types (td_parameters t)) false.

Lemma part_value_reads part v : part_value part = Ok v -> (v ≫= gemini_part) = echo_part part /\ (v = None <-> echo_part part = None).
Proof.
  destruct part as [[|c text]|text [[protocol value]|]|[]|id name arguments|call_id content is_error|protocol payload];
    cbn [part_value echo_part]; intros [= <-]; try done.
  unfold thought_part. cbn [os_protocol os_value mbind option_bind]. by case_bool_decide.
Qed.
Lemma part_values_read parts vs :
  try_omap part_value parts = Ok vs -> omap gemini_part vs = omap echo_part parts /\ is_empty vs = is_empty (omap echo_part parts).
Proof.
  revert vs. induction parts as [|p parts IH]; intros vs; simpl; [by intros [= <-]|].
  intros (v & Hv & H3)%bind_ok. apply bind_ok in H3 as (vs' & Hvs & [= <-]). apply IH in Hvs as [IH1 IH2].
  apply part_value_reads in Hv as [Hp Hn]. rewrite <- Hp in *. destruct v as [v|]; [|done].
  csimpl. simpl in Hp, Hn. destruct (gemini_part v) as [q|] eqn:E; [by rewrite IH1|]. destruct Hn as [_ Hn]. by specialize (Hn eq_refl).
Qed.
Lemma contents_read ms vs :
  try_omap content_of ms = Ok vs -> gemini_message <$> vs = omap echo_message ms.
Proof.
  revert vs. induction ms as [|m ms IH]; intros vs; simpl; [by intros [= <-]|].
  intros (v & Hv & H3)%bind_ok. apply bind_ok in H3 as (vs' & Hvs & [= <-]). apply IH in Hvs.
  unfold content_of in Hv. apply bind_ok in Hv as (parts & Hp & [= <-]). apply part_values_read in Hp as [Hp He].
  csimpl. unfold echo_message at 1. rewrite He. destruct (is_empty (omap echo_part (msg_parts m))); [done|].
  csimpl. rewrite Hvs. f_equal. unfold gemini_message, gemini_parts, string_field. json_field. cbn [array_of json_as_array].
  rewrite Hp. by destruct (msg_role m), (existsb is_result _ && _).
Qed.

Lemma pointer_field fields key path :
  json_pointer (key :: path) (JObject fields) =
  match json_get key (JObject fields) with Some v => json_pointer path v | None => None end.
Proof.
  unfold json_pointer. cbn [foldl json_token]. generalize (json_get key (JObject fields)). intros [v|]; [done|].
  by induction path.
Qed.
Lemma generation_field r key (F : json) :
  json_get (lit "generationConfig") F = when (negb (is_empty (generation_config r))) (JObject (generation_config r)) ->
  json_get key (get_or_null (lit "generationConfig") F) = json_get key (JObject (generation_config r)).
Proof. intros Hg. unfold get_or_null. rewrite Hg. by destruct (generation_config r). Qed.
Lemma gemini_tools_read (tools : list ToolDefinition) : gemini_tool <$> (gemini_build_tool <$> tools) = echo_tool <$> tools.
Proof.
  rewrite <- list_fmap_compose. apply list_fmap_ext. intros i t _. unfold echo_tool. rewrite <- lowercase_of_uppercase. done.
Qed.
Lemma gemini_system_read system :
  text_of (gemini_parts (v ← gemini_system system; json_get (lit "parts") v)) = text_of system.
Proof.
  assert (text_of (omap gemini_part (system_texts system)) = text_of system) as Ht.
  { induction system as [|p system IH]; [done|]. rewrite (text_of_cons p), <- IH. destruct p; try done.
    csimpl. by rewrite app_nil_r. }
  unfold gemini_system. destruct (system_texts system) as [|v vs]; [exact Ht|]. cbn [is_empty negb when mbind option_bind]. json_field. exact Ht.
Qed.

(** Reads a field of the generation config. *)
Ltac generation :=
  match goal with Hg : forall key, json_get key ?G = _ |- _ => rewrite Hg end;
  unfold generation_config; cbv zeta; get_field.
(** The fields of the body. *)
Lemma gemini_fields r model stream v :
  build_upstream_request gemini_body r model stream = Ok v ->
  exists contents, gemini_message <$> contents = omap echo_message (cr_messages r) /\
    json_get (lit "model") v = Some (JString model) /\
    json_get (lit "stream") v = Some (JBool stream) /\
    json_get (lit "contents") v = Some (JArray contents) /\
    json_get (lit "systemInstruction") v = gemini_system (cr_system r) /\
    json_get (lit "tools") v = when (negb (is_empty (cr_tools r))) (JArray [JObject [(lit "functionDeclarations", JArray (gemini_build_tool <$> cr_tools r))]]) /\
    json_get (lit "toolConfig") v = when (negb (is_empty (cr_tools r))) (JObject [(lit "functionCallingConfig", gemini_mode (cr_tool_choice r))]) /\
    json_get (lit "generationConfig") v = when (negb (is_empty (generation_config r))) (JObject (generation_config r)) /\
    (forall key path, json_pointer (key :: path) v = match json_get key v with Some v => json_pointer path v | None => None end) /\
    is_Some (json_as_object v).
Proof.
  intros Hb. unfold build_upstream_request in Hb. apply reject_ok in Hb as [_ Hb].
  apply bind_ok in Hb as (body & Hb & [= <-]). cbn [bc_build_request gemini_body] in Hb.
  unfold gemini_build_request in Hb. cbv zeta in Hb. apply bind_ok in Hb as (contents & Hcontents & [= <-]).
  apply contents_read in Hcontents. exists contents.
  split_and!; first [done | by intros; apply pointer_field | get_field].
Qed.
(** The schemas a body declares its tools with. *)
Definition declared_schemas (body : json) : list json :=
  match array_of (json_pointer [lit "tools"; lit "0"; lit "functionDeclarations"] body) with
  | Some declarations => omap (json_get (lit "parametersJsonSchema")) declarations
  | None => []
  end.
Lemma upper_type_name s : is_schema_type_name s = true -> is_schema_type_name (ascii_upper s) = true.
Proof. unfold is_schema_type_name. by rewrite ascii_lower_upper. Qed.
Lemma lower_type_name s : is_schema_type_name s = true -> is_schema_type_name (ascii_lower s) = true.
Proof. unfold is_schema_type_name. by rewrite ascii_lower_twice. Qed.
Lemma schemas_written (tools : list ToolDefinition) :
  type_names <$> omap (json_get (lit "parametersJsonSchema")) (gemini_build_tool <$> tools) =
  (fun t => ascii_upper <$> type_names (td_parameters t)) <$> tools.
Proof.
  induction tools as [|t tools IH]; [done|]. rewrite !fmap_cons. cbn [omap list_omap].
  change (json_get _ (gemini_build_tool t)) with (Some (uppercase_schema_types (td_parameters t))). cbn [fmap list_fmap].
  unfold uppercase_schema_types. rewrite type_names_mapped by apply upper_type_name. f_equal. exact IH.
Qed.

End laws.
