(* ===== verification/ResponsesBody.v ===== *)
(** OpenAI Responses bodies: requests and whole replies in both directions
    (crates/model-gateway/src/wire/responses.rs), with what an upstream reads
    of a conversation that is written for it. *)
From stdpp Require Import prelude strings list.
From Stdlib Require Import NArith ZArith Lia.
From S2P Require Import Prelude CoreTypes GatewayTypes Capabilities GatewayErrors Ir Json Wire AnthropicStream Bodies.
From S2P Require Import AnthropicBody ChatBody.

(** ** Reading *)

(** [None] for a part of an unknown kind, which is left out. *)
Definition responses_part (item : json) : option ContentPart :=
  let text := Some (Text (text_field item "text")) in
  match_str (text_field item "type")
    [(lit "input_text", text); (lit "output_text", text); (lit "text", text);
     (lit "input_image", Some (Image (image_source (text_field item "image_url"))));
     (lit "input_file",
        let file_id := match string_field item (lit "file_id") with
                       | Some id => Some id
                       | None => string_field item (lit "file_url")
                       end in
        Some (Image (ImageVendorFileId (default [] file_id))));
     (lit "refusal", Some (Text (text_field item "refusal")))]
    None.
Definition content_parts (content : option json) : GatewayResult (list ContentPart) :=
  match content with
  | None | Some JNull => Ok []
  | Some (JString text) => Ok [Text text]
  | Some (JArray items) => Ok (omap responses_part items)
  | Some _ => malformed (lit "a Responses content value must be a string or an array")
  end.

Section bodies.
Context `{JsonText, JsonNumbers}.

Definition parse_arguments (value : json) : json :=
  match value with
  | JString raw => default (JString raw) (json_from_str raw)
  | other => other
  end.
Definition function_call (item : json) : ContentPart :=
  let id := match string_field item (lit "call_id") with Some id => Some id | None => string_field item (lit "id") end in
  ToolCall (default [] id) (text_field item "name")
    (match json_get (lit "arguments") item with Some arguments => parse_arguments arguments | None => JObject [] end).
Definition summary_text (item : json) : str := default [] (str_of (json_pointer [lit "summary"; lit "0"; lit "text"] item)).
Definition asks_encrypted (body : json) : bool :=
  match array_of (json_get (lit "include") body) with
  | Some entries => existsb (fun entry => bool_decide (json_as_str entry = Some (lit "reasoning.encrypted_content"))) entries
  | None => false
  end.

(** The messages so far, and the reasoning that waits for an Assistant's turn. *)
Record Reading : Type := mkReading { rd_messages : list CanonicalMessage; rd_pending : list ContentPart }.
Definition push_message (m : CanonicalMessage) (rd : Reading) : Reading := mkReading (rd_messages rd ++ [m]) (rd_pending rd).
Definition push_pending (part : ContentPart) (rd : Reading) : Reading := mkReading (rd_messages rd) (rd_pending rd ++ [part]).
(** A call joins the Assistant's turn before it. *)
Fixpoint push_call (call : ContentPart) (messages : list CanonicalMessage) : list CanonicalMessage :=
  match messages with
  | [] => [mkMessage Assistant [call]]
  | [m] => match msg_role m with
           | Assistant => [mkMessage Assistant (msg_parts m ++ [call])]
           | User => [m; mkMessage Assistant [call]]
           end
  | m :: messages => m :: push_call call messages
  end.
Definition read_message (item : json) (rd : Reading) : GatewayResult Reading :=
  let role := if bool_decide (string_field item (lit "role") = Some (lit "assistant")) then Assistant else User in
  let? parts := content_parts (json_get (lit "content") item) in
  Ok (match role with
      | Assistant => mkReading (rd_messages rd ++ [mkMessage Assistant (rd_pending rd ++ parts)]) []
      | User => push_message (mkMessage User parts) rd
      end).
Definition read_reasoning (encrypted : bool) (item : json) (rd : Reading) : Reading :=
  if encrypted then push_pending (Opaque WIRE_PROTOCOL_OPENAI_RESPONSES item) rd
  else if is_empty (summary_text item) then rd
  else push_pending (Reasoning (summary_text item) None) rd.
Definition read_item (encrypted : bool) (item : json) (rd : Reading) : GatewayResult Reading :=
  match_str (default (lit "message") (string_field item (lit "type")))
    [(lit "message", read_message item rd);
     (lit "function_call", Ok (mkReading (push_call (function_call item) (rd_messages rd)) (rd_pending rd)));
     (lit "function_call_output",
        let? parts := content_parts (json_get (lit "output") item) in
        Ok (push_message (mkMessage User [ToolResult (text_field item "call_id") parts false]) rd));
     (lit "reasoning", Ok (read_reasoning encrypted item rd))]
    (Ok rd).
Fixpoint read_items (encrypted : bool) (items : list json) (rd : Reading) : GatewayResult Reading :=
  match items with
  | [] => Ok rd
  | item :: items => let? rd := read_item encrypted item rd in read_items encrypted items rd
  end.
Definition read_input (body : json) : GatewayResult (list CanonicalMessage) :=
  match json_get (lit "input") body with
  | Some (JString text) => Ok [mkMessage User [Text text]]
  | Some (JArray items) => let? rd := read_items (asks_encrypted body) items (mkReading [] []) in Ok (rd_messages rd)
  | _ => Ok []
  end.
Definition responses_parse_tool (tool : json) : option ToolDefinition :=
  if bool_decide (string_field tool (lit "type") = Some (lit "function")) then
    name ← string_field tool (lit "name");
    Some (mkToolDefinition name (text_field tool "description")
            (default (JObject [(lit "type", jstr "object")]) (json_get (lit "parameters") tool))
            (default false (bool_of (json_get (lit "strict") tool))))
  else None.
Definition responses_parse_tool_choice (choice : option json) : ToolChoice :=
  match choice with
  | Some (JString choice) => match_str choice [(lit "none", ChoiceNone); (lit "required", ChoiceRequired)] ChoiceAuto
  | Some (JObject choice) =>
      match string_field (JObject choice) (lit "name") with Some name => ChoiceNamed name | None => ChoiceAuto end
  | _ => ChoiceAuto
  end.
Definition responses_parse_request (value : json) : GatewayResult CanonicalRequest :=
  let? _ := ok_or (json_as_object value) (MalformedRequest (lit "a Responses request must be a JSON object")) in
  let model := default [] (string_field value (lit "model")) in
  reject is_empty (trim model) with MalformedRequest (lit "a Responses request must name a model") ;;
  let? system := match json_get (lit "instructions") value with
                 | Some instructions => content_parts (Some instructions)
                 | None => Ok []
                 end in
  let? messages := read_input value in
  let effort := str_of (json_get (lit "effort") (get_or_null (lit "reasoning") value)) in
  Ok {| cr_model := model; cr_system := system; cr_messages := messages;
        cr_tools := match array_of (json_get (lit "tools") value) with
                    | Some tools => omap responses_parse_tool tools
                    | None => []
                    end;
        cr_tool_choice := responses_parse_tool_choice (json_get (lit "tool_choice") value);
        cr_parallel_tool_calls := bool_of (json_get (lit "parallel_tool_calls") value);
        cr_sampling := mkSampling (number_field value (lit "temperature")) (number_field value (lit "top_p"))
                         (uint_field value (lit "max_output_tokens")) [];
        cr_reasoning := mkReasoning (bool_decide (effort = Some (lit "none")))
                          (e ← effort; if bool_decide (e = lit "none") then None else Some e);
        cr_stream := default false (bool_of (json_get (lit "stream") value));
        cr_opaque := match json_get (lit "include") value with Some include => [include] | None => [] end |}.

(** ** Writing *)

Definition input_item (part : ContentPart) : option json :=
  match part with
  | Text text => Some (JObject [(lit "type", jstr "input_text"); (lit "text", JString text)])
  | Image (ImageVendorFileId id) => Some (JObject [(lit "type", jstr "input_file"); (lit "file_id", JString id)])
  | Image source => Some (JObject [(lit "type", jstr "input_image"); (lit "image_url", JString (image_uri source))])
  | _ => None
  end.
Definition input_item_parts (parts : list ContentPart) : list json := omap input_item parts.
Definition tool_result_item (call_id : str) (content : list ContentPart) : json :=
  JObject [(lit "type", jstr "function_call_output"); (lit "call_id", JString call_id);
           (lit "output", JString (text_of content))].
Definition result_item (part : ContentPart) : option json :=
  match part with ToolResult call_id content _ => Some (tool_result_item call_id content) | _ => None end.
Definition user_message_item (parts : list json) : json :=
  JObject [(lit "type", jstr "message"); (lit "role", jstr "user"); (lit "content", JArray parts)].
Definition assistant_item (part : ContentPart) : option json :=
  match part with
  | Text ((_ :: _) as text) =>
      Some (JObject [(lit "type", jstr "message"); (lit "role", jstr "assistant");
        (lit "content", JArray [JObject [(lit "type", jstr "output_text"); (lit "text", JString text)]])])
  | Reasoning ((_ :: _) as text) _ =>
      Some (JObject [(lit "type", jstr "reasoning");
        (lit "summary", JArray [JObject [(lit "type", jstr "summary_text"); (lit "text", JString text)]])])
  | Opaque protocol payload => if bool_decide (protocol = WIRE_PROTOCOL_OPENAI_RESPONSES) then Some payload else None
  | ToolCall id name arguments =>
      Some (JObject [(lit "type", jstr "function_call"); (lit "call_id", JString id); (lit "name", JString name);
                     (lit "arguments", JString (json_to_string arguments))])
  | _ => None
  end.
Definition message_items (m : CanonicalMessage) : list json :=
  match msg_role m with
  | User =>
      omap result_item (msg_parts m)
      ++ (let parts := input_item_parts (msg_parts m) in if is_empty parts then [] else [user_message_item parts])
  | Assistant => omap assistant_item (msg_parts m)
  end.
Definition responses_build_tool (tool : ToolDefinition) : json :=
  JObject [(lit "type", jstr "function"); (lit "name", JString (td_name tool));
           (lit "description", JString (td_description tool)); (lit "parameters", td_parameters tool);
           (lit "strict", JBool (td_strict tool))].
Definition responses_build_tool_choice (choice : ToolChoice) : json :=
  match choice with
  | ChoiceAuto => jstr "auto"
  | ChoiceNone => jstr "none"
  | ChoiceRequired => jstr "required"
  | ChoiceNamed name => JObject [(lit "type", jstr "function"); (lit "name", JString name)]
  end.
(** The texts of the system prompt, a blank line between them. *)
Definition instructions (system : list ContentPart) : str := join [10%N; 10%N] (system_blocks system).

Definition responses_build_request (request : CanonicalRequest) : GatewayResult json :=
  let sampling := cr_sampling request in
  let system := instructions (cr_system request) in
  let body := insert_some "instructions" (when (negb (is_empty system)) (JString system)) [] in
  let body := object_insert (lit "input") (JArray (cr_messages request ≫= message_items)) body in
  let some_tools := negb (is_empty (cr_tools request)) in
  let body := insert_some "tools" (when some_tools (JArray (responses_build_tool <$> cr_tools request))) body in
  let body := insert_some "tool_choice" (when some_tools (responses_build_tool_choice (cr_tool_choice request))) body in
  let body := insert_some "parallel_tool_calls"
                (if some_tools then JBool <$> cr_parallel_tool_calls request else None) body in
  let body := insert_some "temperature" (json_f64 <$> sp_temperature sampling) body in
  let body := insert_some "top_p" (json_f64 <$> sp_top_p sampling) body in
  let body := insert_some "max_output_tokens" (json_u64 <$> sp_max_tokens sampling) body in
  let body := insert_some "reasoning"
                ((fun effort => JObject [(lit "effort", JString effort)]) <$> rr_effort (cr_reasoning request)) body in
  let body := object_insert (lit "stream") (JBool (cr_stream request)) body in
  Ok (JObject (insert_some "include" (head (cr_opaque request)) body)).

(** ** Whole replies *)

Definition responses_usage_from (v : json) : CanonicalUsage :=
  mkUsage (default 0%Z (uint_field v (lit "input_tokens")))
          (default 0%Z (uint_field v (lit "output_tokens")))
          (default 0%Z (u64_of (json_pointer [lit "input_tokens_details"; lit "cached_tokens"] v)))
          0
          (default 0%Z (u64_of (json_pointer [lit "output_tokens_details"; lit "reasoning_tokens"] v))).
Definition reply_call (part : ContentPart) : option json :=
  match part with
  | ToolCall id name arguments =>
      Some (JObject [(lit "type", jstr "function_call"); (lit "id", JString id); (lit "call_id", JString id);
                     (lit "name", JString name); (lit "arguments", JString (json_to_string arguments));
                     (lit "status", jstr "completed")])
  | _ => None
  end.
(** [now] is the clock ([now_seconds]). *)
Definition responses_render_response (now : Z) (response : CanonicalResponse) : json :=
  let usage := rs_usage response in
  let text := text_of (rs_parts response) in
  let said := if is_empty text then []
              else [JObject [(lit "type", jstr "message"); (lit "id", jstr "msg_0"); (lit "role", jstr "assistant");
                             (lit "status", jstr "completed");
                             (lit "content", JArray [JObject [(lit "type", jstr "output_text"); (lit "text", JString text);
                                                              (lit "annotations", JArray [])]])]] in
  JObject
    [(lit "id", JString (rs_id response)); (lit "object", jstr "response"); (lit "created_at", json_u64 now);
     (lit "status", jstr "completed"); (lit "model", JString (rs_model response));
     (lit "output", JArray (said ++ omap reply_call (rs_parts response)));
     (lit "usage", JObject
        [(lit "input_tokens", json_u64 (us_input_tokens usage)); (lit "output_tokens", json_u64 (us_output_tokens usage));
         (lit "total_tokens", json_u64 (CanonicalUsage_total usage));
         (lit "input_tokens_details", JObject [(lit "cached_tokens", json_u64 (us_cached_read_tokens usage))]);
         (lit "output_tokens_details", JObject [(lit "reasoning_tokens", json_u64 (us_reasoning_tokens usage))])])].
Definition output_parts (item : json) : GatewayResult (list ContentPart) :=
  match_str (text_field item "type")
    [(lit "message", content_parts (json_get (lit "content") item));
     (lit "reasoning", Ok (if is_empty (summary_text item) then [] else [Reasoning (summary_text item) None]));
     (lit "function_call", Ok [function_call item])]
    (Ok []).
Definition responses_parse_response (value : json) : GatewayResult CanonicalResponse :=
  let? parts := match array_of (json_get (lit "output") value) with
                | Some items => try_map output_parts items
                | None => Ok []
                end in
  Ok (mkResponse (text_field value "id") (text_field value "model") (concat parts)
        (if bool_decide (string_field value (lit "status") = Some (lit "incomplete")) then MaxTokens else EndTurn)
        (match get_non_null (lit "usage") value with
         | Some usage => responses_usage_from usage
         | None => CanonicalUsage_default
         end)).

Definition responses_body (now : Z) : BodyCodec :=
  mkCodec responses_parse_request responses_build_request (responses_render_response now) responses_parse_response.
End bodies.

(** * Lemmas *)

(** ** What is said, part by part *)

Definition utter (part : ContentPart) : option Said :=
  match part with
  | Text ((_ :: _) as text) => Some (SaidAssistant text)
  | ToolCall id name arguments => Some (Called id name arguments)
  | _ => None
  end.
(** As [said], with an Assistant's texts and calls in the order of the turn. *)
Definition uttered (m : CanonicalMessage) : list Said :=
  match msg_role m with User => said m | Assistant => omap utter (msg_parts m) end.
Definition utterances (messages : list CanonicalMessage) : list Said := messages ≫= uttered.
(** A result without its images. *)
Definition told (s : Said) : Said := match s with Returned call_id text _ => Returned call_id text [] | s => s end.
(** What a Responses client sent as it stands is reasoning. *)
Definition own_reasoning (part : ContentPart) : Prop :=
  match part with
  | Opaque protocol payload =>
      protocol = WIRE_PROTOCOL_OPENAI_RESPONSES -> string_field payload (lit "type") = Some (lit "reasoning")
  | _ => True
  end.

Lemma utterances_app a b : utterances (a ++ b) = utterances a ++ utterances b.
Proof. unfold utterances. by rewrite bind_app. Qed.
Lemma utterances_one m : utterances [m] = uttered m.
Proof. unfold utterances. simpl. by rewrite app_nil_r. Qed.

Section laws.
Context `{JsonTextLaws, JsonNumbersLaws}.

Lemma push_call_utters id name arguments ms :
  utterances (push_call (ToolCall id name arguments) ms) = utterances ms ++ [Called id name arguments].
Proof.
  induction ms as [|m ms IH]; [done|]. cbn [push_call]. destruct ms as [|m' ms].
  - destruct m as [[] parts]; cbn [msg_role msg_parts].
    + etrans; [apply (utterances_app [_] [mkMessage Assistant [ToolCall id name arguments]])|done].
    + rewrite !utterances_one. unfold uttered. cbn [msg_role msg_parts]. by rewrite omap_app.
  - etrans; [apply (utterances_app [m])|]. rewrite IH, app_assoc. f_equal. symmetry. apply (utterances_app [m]).
Qed.

(** Items that were written add words to what was read before them. *)
Definition quiet (parts : list ContentPart) : Prop := omap utter parts = [].
Definition adds (encrypted : bool) (items : list json) (words : list Said) : Prop :=
  forall rd, quiet (rd_pending rd) ->
  exists rd', read_items encrypted items rd = Ok rd' /\ quiet (rd_pending rd') /\
    utterances (rd_messages rd') = utterances (rd_messages rd) ++ words.
Lemma read_items_app encrypted a b rd :
  read_items encrypted (a ++ b) rd = (let? rd := read_items encrypted a rd in read_items encrypted b rd).
Proof. revert rd. induction a as [|x a IH]; intros rd; simpl; [done|]. destruct (read_item _ _ _); simpl; [apply IH|done]. Qed.
Lemma adds_nil encrypted : adds encrypted [] [].
Proof. intros rd Hq. exists rd. by rewrite app_nil_r. Qed.
Lemma adds_app encrypted a b ws ws' : adds encrypted a ws -> adds encrypted b ws' -> adds encrypted (a ++ b) (ws ++ ws').
Proof.
  intros Ha Hb rd Hq. destruct (Ha rd Hq) as (rd1 & Hr1 & Hq1 & Hu1). destruct (Hb rd1 Hq1) as (rd2 & Hr2 & Hq2 & Hu2).
  exists rd2. rewrite read_items_app, Hr1. split_and!; [done|done|]. by rewrite Hu2, Hu1, app_assoc.
Qed.
(** One item at a time. *)
Lemma adds_one encrypted item words :
  (forall rd, quiet (rd_pending rd) ->
   exists rd', read_item encrypted item rd = Ok rd' /\ quiet (rd_pending rd') /\
     utterances (rd_messages rd') = utterances (rd_messages rd) ++ words) ->
  adds encrypted [item] words.
Proof. intros Hi rd Hq. destruct (Hi rd Hq) as (rd' & Hr & Hrest). exists rd'. simpl. by rewrite Hr. Qed.

Lemma quiet_app a b : quiet a -> quiet b -> quiet (a ++ b).
Proof. unfold quiet. intros Ha Hb. by rewrite omap_app, Ha, Hb. Qed.
Lemma reasoning_quiet encrypted item rd :
  quiet (rd_pending rd) -> quiet (rd_pending (read_reasoning encrypted item rd)) /\
  rd_messages (read_reasoning encrypted item rd) = rd_messages rd.
Proof.
  intros Hq. unfold read_reasoning. destruct encrypted; [|destruct (is_empty _); [done|]].
  all: split; [|done]; by apply quiet_app.
Qed.
Lemma assistant_item_adds encrypted part :
  own_reasoning part -> plain_call part ->
  adds encrypted (match assistant_item part with Some v => [v] | None => [] end)
    (match utter part with Some s => [s] | None => [] end).
Proof.
  destruct part as [[|c text]|[|c text] signature| |call_id name arguments| |protocol payload]; intros Ho Hp; try apply adds_nil.
  - apply adds_one. intros rd Hq.
    exists (mkReading (rd_messages rd ++ [mkMessage Assistant (rd_pending rd ++ [Text (c :: text)])]) []).
    split; [done|]. split; [done|]. cbn [rd_messages]. rewrite utterances_app, utterances_one. f_equal. unfold uttered. cbn [msg_role msg_parts]. rewrite omap_app, Hq. done.
  - apply adds_one. intros rd Hq. destruct (reasoning_quiet encrypted
      (JObject [(lit "type", jstr "reasoning");
        (lit "summary", JArray [JObject [(lit "type", jstr "summary_text"); (lit "text", JString (c :: text))]])]) rd Hq) as [Hq' Hm].
    eexists. split; [done|]. split; [exact Hq'|]. rewrite Hm. by rewrite app_nil_r.
  - apply adds_one. intros rd Hq.
    exists (mkReading (push_call (ToolCall call_id name arguments) (rd_messages rd)) (rd_pending rd)).
    split; [|split; [done|apply push_call_utters]]. cbn [assistant_item].
    assert (parse_arguments (JString (json_to_string arguments)) = arguments) as Ha by (simpl; by rewrite json_parses).
    rewrite <- Ha at 2. done.
  - simpl. case_bool_decide as Hpr; [|apply adds_nil]. simpl in Ho. specialize (Ho Hpr). apply adds_one. intros rd Hq.
    destruct (reasoning_quiet encrypted payload rd Hq) as [Hq' Hm].
    exists (read_reasoning encrypted payload rd). unfold read_item. rewrite Ho. split; [done|]. split; [done|].
    by rewrite Hm, app_nil_r.
Qed.

Lemma assistant_items_add encrypted (parts : list ContentPart) :
  Forall own_reasoning parts -> Forall plain_call parts ->
  adds encrypted (omap assistant_item parts) (omap utter parts).
Proof.
  intros Ho Hp. induction parts as [|p parts IH]; [apply adds_nil|].
  apply Forall_cons in Ho as [Hop Ho]. apply Forall_cons in Hp as [Hpp Hp].
  rewrite <- (app_nil_l parts), (app_comm_cons [] parts p), !omap_app.
  apply adds_app; [|by apply IH].
  pose proof (assistant_item_adds encrypted p Hop Hpp) as Ha. simpl. by destruct (assistant_item p), (utter p).
Qed.
Lemma input_items_read (parts : list ContentPart) :
  exists ps, omap responses_part (input_item_parts parts) = ps /\ text_of ps = text_of parts /\ images_of ps = images_of parts /\
    results_of ps = [].
Proof.
  eexists. split; [done|]. unfold input_item_parts. induction parts as [|p parts (IHt & IHi & IHr)]; [done|].
  rewrite (text_of_cons p), <- IHt. change (images_of (p :: parts)) with (images_of ([p] ++ parts)). rewrite images_of_app, <- IHi.
  assert (omap responses_part (omap input_item (p :: parts)) =
          match input_item p ≫= responses_part with Some q => [q] | None => [] end
          ++ omap responses_part (omap input_item parts)) as ->.
  { csimpl. destruct (input_item p) as [v|]; [|done]. csimpl. by destruct (responses_part v). }
  rewrite text_of_app, images_of_app, results_of_app, IHr. split_and!.
  - destruct p as [| |[]| | |]; done.
  - destruct p as [| |[]| | |]; try done; unfold images_of; csimpl; try (by rewrite image_source_uri).
  - by destruct p as [| |[]| | |].
Qed.
Lemma user_items_add encrypted (parts : list ContentPart) :
  adds encrypted (message_items (mkMessage User parts)) (told <$> said (mkMessage User parts)).
Proof.
  unfold message_items, said. cbn [msg_role msg_parts]. rewrite fmap_app. apply adds_app.
  - induction parts as [|p parts IH]; [apply adds_nil|]. rewrite <- (app_nil_l parts), (app_comm_cons [] parts p).
    rewrite results_of_app, omap_app, fmap_app. apply adds_app; [|exact IH].
    destruct p as [| | | |call_id content is_error|]; try apply adds_nil. apply adds_one. intros rd Hq.
    exists (push_message (mkMessage User [ToolResult call_id [Text (text_of content)] false]) rd).
    split; [done|]. split; [done|]. cbn [push_message rd_messages]. rewrite utterances_app, utterances_one. f_equal.
    unfold uttered, said, results_of, spoken. csimpl. by rewrite app_nil_r.
  - destruct (input_items_read parts) as (ps & Hps & Ht & Hi & Hr). cbv zeta.
    destruct (is_empty (input_item_parts parts)) eqn:E.
    + apply is_empty_nil in E. rewrite E in Hps. subst ps. unfold spoken. rewrite <- Ht, <- Hi. apply adds_nil.
    + apply adds_one. intros rd Hq. exists (push_message (mkMessage User ps) rd).
      split; [by rewrite <- Hps|]. split; [done|]. cbn [push_message rd_messages]. rewrite utterances_app, utterances_one. f_equal.
      unfold uttered, said. cbn [msg_role msg_parts]. rewrite Hr. unfold spoken. rewrite Ht, Hi. by destruct (_ && _).
Qed.
Lemma items_add encrypted (ms : list CanonicalMessage) :
  Forall (fun m => Forall own_reasoning (msg_parts m)) ms -> Forall plain_said (transcript ms) ->
  adds encrypted (ms ≫= message_items) (told <$> utterances ms).
Proof.
  intros Ho. induction Ho as [|m ms Hm _ IH]; intros Hp; [apply adds_nil|].
  rewrite transcript_cons in Hp. apply Forall_app in Hp as [Hpm Hp]. rewrite !bind_cons.
  change (utterances (m :: ms)) with (uttered m ++ utterances ms). rewrite fmap_app. apply adds_app; [|by apply IH].
  destruct m as [[] parts]; [apply user_items_add|]. unfold uttered. unfold said in Hpm. cbn [msg_role msg_parts] in Hm, Hpm |- *.
  apply Forall_app in Hpm as [_ Hpm]. apply plain_calls_of in Hpm.
  replace (told <$> omap utter parts) with (omap utter parts); [by apply assistant_items_add|]. clear.
  induction parts as [|p parts IH]; [done|]. destruct p as [[]| | | | |]; csimpl; by rewrite <- IH.
Qed.

Lemma responses_tools_read (tools : list ToolDefinition) :
  omap responses_parse_tool (responses_build_tool <$> tools) = tools.
Proof. induction tools as [|t tools IH]; csimpl; [done|]. rewrite IH. by destruct t. Qed.

(** The fields of the body. *)
Lemma responses_fields now r model stream v :
  build_upstream_request (responses_body now) r model stream = Ok v ->
  json_get (lit "model") v = Some (JString model) /\
    json_get (lit "stream") v = Some (JBool stream) /\
    json_get (lit "input") v = Some (JArray (cr_messages r ≫= message_items)) /\
    json_get (lit "instructions") v = when (negb (is_empty (instructions (cr_system r)))) (JString (instructions (cr_system r))) /\
    json_get (lit "max_output_tokens") v = json_u64 <$> sp_max_tokens (cr_sampling r) /\
    json_get (lit "temperature") v = json_f64 <$> sp_temperature (cr_sampling r) /\
    json_get (lit "top_p") v = json_f64 <$> sp_top_p (cr_sampling r) /\
    json_get (lit "tools") v = when (negb (is_empty (cr_tools r))) (JArray (responses_build_tool <$> cr_tools r)) /\
    json_get (lit "tool_choice") v = when (negb (is_empty (cr_tools r))) (responses_build_tool_choice (cr_tool_choice r)) /\
    json_get (lit "reasoning") v = (fun effort => JObject [(lit "effort", JString effort)]) <$> rr_effort (cr_reasoning r) /\
    is_Some (json_as_object v).
Proof.
  intros Hb. unfold build_upstream_request in Hb. apply reject_ok in Hb as [_ Hb].
  apply bind_ok in Hb as (body & Hb & [= <-]). cbn [bc_build_request responses_body] in Hb.
  unfold responses_build_request in Hb. cbv zeta in Hb. injection Hb as <-.
  split_and!; first [done | get_field].
Qed.
(** C27. What a Responses upstream reads of a conversation written for it.  Of a
    user's turn: its results, each by its text alone, and after them what the
    user says and shows, run together; of an Assistant's turn: its texts and calls
    in their order.  A call in a user's turn, and a result or an image in an
    Assistant's turn, is not written.  The tools are read whole, with the choice and
    the sampling; the stop sequences are gone, and reasoning that was switched
    off without naming an effort is on again.  It holds for a request that a
    codec can have read ([carried]), whose raw Responses items are reasoning
    ([own_reasoning]), whose calls have arguments that survive being written as
    text ([plain_calls]), and a model with a name. *)
Theorem responses_conversation_reads_back (now : Z) (r : CanonicalRequest) (model : str) (stream : bool) (v : json) :
  carried r -> Forall (fun m => Forall own_reasoning (msg_parts m)) (cr_messages r) -> plain_calls (gist r) ->
  trim model <> [] -> build_upstream_request (responses_body now) r model stream = Ok v ->
  exists r', responses_parse_request v = Ok r' /\
    utterances (cr_messages r') = told <$> utterances (cr_messages r) /\
    text_of (cr_system r') = instructions (cr_system r) /\ cr_tools r' = cr_tools r /\
    cr_tool_choice r' = (if is_empty (cr_tools r) then ChoiceAuto else cr_tool_choice r) /\
    sp_temperature (cr_sampling r') = sp_temperature (cr_sampling r) /\ sp_top_p (cr_sampling r') = sp_top_p (cr_sampling r) /\
    (forall n, sp_max_tokens (cr_sampling r) = Some n -> in_u64 n -> sp_max_tokens (cr_sampling r') = Some n) /\
    cr_model r' = model /\ cr_stream r' = stream /\
    sp_stop (cr_sampling r') = [] /\ rr_disabled (cr_reasoning r') = bool_decide (rr_effort (cr_reasoning r) = Some (lit "none")).
Proof.
  rename v into F. intros [_ Ht Hp] Ho Hplain Hm Hb.
  apply responses_fields in Hb
    as (Hmodel & Hstream & Hinput & Hsystem & Hmax & Htemp & Htop & Htools & Hchoice & Heffort & Hobj).
  unfold responses_parse_request. destruct Hobj as [fields ->]. cbn [ok_or result_bind].
  unfold string_field at 1. rewrite Hmodel. cbn [json_as_str default from_option id].
  destruct (trim model) eqn:Etrim; [done|]. cbn [is_empty]. rewrite Hsystem.
  set (sys := match when _ _ with Some i => content_parts (Some i) | None => Ok [] end).
  assert (exists system, sys = Ok system /\ text_of system = instructions (cr_system r)) as (system & -> & Hsys).
  { unfold sys. destruct (instructions (cr_system r)) as [|c t]; [by exists []|]. exists [Text (c :: t)]. split; [done|].
    unfold text_of. simpl. by rewrite app_nil_r. }
  unfold read_input. rewrite Hinput.
  destruct (items_add (asks_encrypted F) (cr_messages r) Ho Hplain (mkReading [] [])) as (rd & -> & _ & Hu); [done|].
  cbn [result_bind]. eexists. split; [done|].
  cbn [cr_system cr_messages cr_tools cr_tool_choice cr_sampling cr_model cr_stream cr_reasoning rr_disabled
       sp_temperature sp_top_p sp_max_tokens sp_stop].
  split_and!; [exact Hu|exact Hsys|..|done|].
  - rewrite Htools. destruct (cr_tools r) as [|t ts]; [done|]. apply (responses_tools_read (t :: ts)).
  - rewrite Hchoice. destruct (cr_tools r); [done|]. by destruct (cr_tool_choice r).
  - by apply number_read.
  - by apply number_read.
  - intros tokens Hn Hu2. unfold uint_field. rewrite Hmax, Hn. by apply as_u64_of_u64.
  - unfold string_field. by rewrite Hmodel.
  - by rewrite Hstream.
  - unfold get_or_null. rewrite Heffort. by destruct (rr_effort (cr_reasoning r)).
Qed.

(** What every reader promises: requests that can be carried, counts that fit. *)
Definition carried_reading (rd : Reading) : Prop :=
  Forall (fun m => Forall own_opaque (msg_parts m)) (rd_messages rd) /\ Forall own_opaque (rd_pending rd).
Lemma content_parts_opaque content ps : content_parts content = Ok ps -> Forall own_opaque ps.
Proof.
  destruct content as [[| | |text|items|]|]; try done; intros [= <-]; try (by repeat constructor).
  apply Forall_forall. intros part Hin. apply list_elem_of_omap in Hin as (item & _ & Hi). revert Hi.
  unfold responses_part. cbn [match_str]. repeat case_bool_decide; try done; by intros [= <-].
Qed.
Lemma push_call_opaque call ms :
  own_opaque call -> Forall (fun m => Forall own_opaque (msg_parts m)) ms ->
  Forall (fun m => Forall own_opaque (msg_parts m)) (push_call call ms).
Proof.
  intros Hc. induction 1 as [|m ms Hm Hms IH]; [by repeat constructor|]. cbn [push_call]. destruct ms as [|m' ms].
  - destruct m as [[] parts]; cbn [msg_role msg_parts] in *; repeat constructor; try done.
    apply Forall_app. split; [done|by constructor].
  - by constructor.
Qed.
Lemma read_item_carried encrypted item rd rd' : read_item encrypted item rd = Ok rd' -> carried_reading rd -> carried_reading rd'.
Proof.
  intros Hr [Hm Hp]. revert Hr. unfold read_item. cbn [match_str]. repeat case_bool_decide.
  - unfold read_message. intros (parts & Hc & [= <-])%bind_ok. apply content_parts_opaque in Hc.
    case_bool_decide; (split; [apply Forall_app; split; [done|]|done]); repeat constructor; [by apply Forall_app|done].
  - intros [= <-]. split; [|done]. apply push_call_opaque; done.
  - intros (parts & Hc & [= <-])%bind_ok. split; [|done]. apply Forall_app. split; [done|]. by repeat constructor.
  - intros [= <-]. unfold read_reasoning. destruct encrypted; [|destruct (is_empty _); [done|]].
    all: split; [done|]; apply Forall_app; split; [done|]; by repeat constructor.
  - by intros [= <-].
Qed.
Lemma read_items_carried encrypted items : forall rd rd',
  read_items encrypted items rd = Ok rd' -> carried_reading rd -> carried_reading rd'.
Proof.
  induction items as [|item items IH]; intros rd rd'; simpl; [by intros [= <-]|].
  intros (rd1 & H1' & H2')%bind_ok Hrd. apply read_item_carried in H1'; [|done]. by eapply IH.
Qed.
Lemma responses_reads_carried v r : responses_parse_request v = Ok r -> carried r.
Proof.
  unfold responses_parse_request. intros (fields & _ & Hb)%bind_ok. apply reject_ok in Hb as [_ Hb].
  apply bind_ok in Hb as (system & _ & Hb). apply bind_ok in Hb as (messages & Hm & [= <-]).
  constructor; [|apply number_readable..]. cbn [cr_messages]. revert Hm. unfold read_input.
  destruct (json_get _ v) as [[| | |text|items|]|]; try (by intros [= <-]; repeat constructor).
  intros (rd & Hrd & [= <-])%bind_ok. by apply read_items_carried in Hrd as [? _].
Qed.
Lemma responses_counts v r : responses_parse_response v = Ok r -> counted (rs_usage r).
Proof.
  unfold responses_parse_response. intros (ps & _ & [= <-])%bind_ok.
  cbn [rs_usage]. destruct (get_non_null _ v); [|done]. unfold responses_usage_from, counted.
  cbn -[in_u64 json_pointer]. split_and!; try apply uint_field_range; try apply u64_of_range. done.
Qed.
End laws.
