(* ===== verification/Renaming.v ===== *)
(** Requests and replies under other tool names: a body whose names were
    rewritten (rewrite_body of src/tool_names.rs in crates/model-gateway) is the
    body of the renamed request, for the two protocols that keep a
    conversation whole; and a request whose names every protocol accepts is
    given no other names. *)
From stdpp Require Import prelude strings list gmap.
From Stdlib Require Import NArith ZArith Lia.
From S2P Require Import Prelude CoreTypes GatewayTypes GatewayErrors Ir Json Upstream Sse Wire ToolNames.
From S2P Require Import AnthropicStream Bodies AnthropicBody ChatBody.

(** ** The same request under other names *)

Definition rename_part (f : str -> str) (part : ContentPart) : ContentPart :=
  match part with ToolCall id name arguments => ToolCall id (f name) arguments | _ => part end.
Definition rename_message (f : str -> str) (m : CanonicalMessage) : CanonicalMessage :=
  mkMessage (msg_role m) (rename_part f <$> msg_parts m).
Definition rename_tool (f : str -> str) (t : ToolDefinition) : ToolDefinition :=
  mkToolDefinition (f (td_name t)) (td_description t) (td_parameters t) (td_strict t).
Definition rename_choice (f : str -> str) (c : ToolChoice) : ToolChoice :=
  match c with ChoiceNamed name => ChoiceNamed (f name) | _ => c end.
Definition rename_request (f : str -> str) (r : CanonicalRequest) : CanonicalRequest :=
  {| cr_model := cr_model r; cr_system := cr_system r; cr_messages := rename_message f <$> cr_messages r;
     cr_tools := rename_tool f <$> cr_tools r; cr_tool_choice := rename_choice f (cr_tool_choice r);
     cr_parallel_tool_calls := cr_parallel_tool_calls r; cr_sampling := cr_sampling r;
     cr_reasoning := cr_reasoning r; cr_stream := cr_stream r; cr_opaque := cr_opaque r |}.

Definition rename_said (f : str -> str) (s : Said) : Said :=
  match s with Called id name arguments => Called id (f name) arguments | _ => s end.
Definition rename_gist (f : str -> str) (g : Gist) : Gist :=
  mkGist (gi_system g) (rename_said f <$> gi_transcript g)
    ((fun t => (f t.1.1, t.1.2, t.2)) <$> gi_tools g) (rename_choice f (gi_tool_choice g))
    (gi_temperature g) (gi_top_p g) (gi_stop g).
Definition rename_reply (f : str -> str) (g : ReplyGist) : ReplyGist :=
  mkReplyGist (rg_id g) (rg_model g) (rg_text g) (rename_said f <$> rg_calls g)
    (rg_input_tokens g) (rg_output_tokens g) (rg_cached_read_tokens g).

(** * Lemmas *)

(** ** What renaming leaves *)

Lemma calls_renamed f parts : calls_of (rename_part f <$> parts) = rename_said f <$> calls_of parts.
Proof. induction parts as [|p parts IH]; [done|]. rewrite fmap_cons, calls_of_cons, (calls_of_cons p), fmap_app, IH. by destruct p. Qed.
Lemma text_renamed f parts : text_of (rename_part f <$> parts) = text_of parts.
Proof. induction parts as [|p parts IH]; [done|]. rewrite fmap_cons, text_of_cons, (text_of_cons p), IH. by destruct p. Qed.
Lemma images_renamed f parts : images_of (rename_part f <$> parts) = images_of parts.
Proof. induction parts as [|p parts IH]; [done|]. unfold images_of in *. csimpl. rewrite IH. by destruct p. Qed.
Lemma results_renamed f parts : results_of (rename_part f <$> parts) = results_of parts.
Proof. induction parts as [|p parts IH]; [done|]. unfold results_of in *. csimpl. rewrite IH. by destruct p. Qed.
Lemma results_keep_names f parts : rename_said f <$> results_of parts = results_of parts.
Proof. induction parts as [|p parts IH]; [done|]. unfold results_of in *. csimpl. destruct p; csimpl; by rewrite ?IH. Qed.

Lemma said_renamed f m : said (rename_message f m) = rename_said f <$> said m.
Proof.
  unfold said. cbn [rename_message msg_role msg_parts]. unfold spoken.
  rewrite text_renamed, images_renamed, results_renamed, calls_renamed. destruct (msg_role m); rewrite fmap_app.
  - rewrite results_keep_names. by destruct (is_empty (text_of _) && is_empty (images_of _)).
  - by destruct (is_empty (text_of _)).
Qed.
Lemma transcript_renamed f ms : transcript (rename_message f <$> ms) = rename_said f <$> transcript ms.
Proof.
  induction ms as [|m ms IH]; [done|]. by rewrite fmap_cons, !transcript_cons, fmap_app, IH, said_renamed.
Qed.
Lemma gist_renamed f r : gist (rename_request f r) = rename_gist f (gist r).
Proof.
  unfold gist, rename_gist. cbn. rewrite transcript_renamed. f_equal; [by rewrite <- !list_fmap_compose|].
  by destruct (cr_tools r).
Qed.
Lemma plain_renamed f g : plain_calls g -> plain_calls (rename_gist f g).
Proof. unfold plain_calls. cbn. rewrite Forall_fmap. intros H. eapply Forall_impl; [exact H|]. by intros []. Qed.
Lemma carried_renamed `{JsonNumbers} f r : carried r -> carried (rename_request f r).
Proof.
  intros [Ho Ht Hp]. constructor; [|done..]. cbn. rewrite Forall_fmap. eapply Forall_impl; [exact Ho|].
  intros m Hm. cbn. rewrite Forall_fmap. eapply Forall_impl; [exact Hm|]. by intros [].
Qed.
Lemma vendor_renamed f r : has_vendor_file_image (rename_request f r) = has_vendor_file_image r.
Proof.
  unfold has_vendor_file_image, request_any_image. cbn [rename_request cr_system cr_messages].
  set (test := fun s : ImageSource => _). clearbody test. f_equal.
  induction (cr_messages r) as [|m ms IH]; [done|]. cbn [fmap list_fmap existsb]. rewrite IH. f_equal.
  unfold any_in. cbn [rename_message msg_parts].
  induction (msg_parts m) as [|p ps IHp]; [done|]. cbn [fmap list_fmap existsb]. rewrite IHp. by destruct p.
Qed.

(** ** Changing a field of an object under construction *)

Lemma modify_cons k f k' v m :
  modify_field k f ((k', v) :: m) = if bool_decide (k' = k) then (k', f v) :: m else (k', v) :: modify_field k f m.
Proof. done. Qed.
Lemma modify_insert k f k' v m :
  modify_field k f (object_insert k' v m) =
  object_insert k' (if bool_decide (k' = k) then f v else v) (modify_field k f m).
Proof.
  induction m as [|[k1 v1] m IH]; cbn [object_insert modify_field]; [by case_bool_decide|].
  destruct (decide (k' = k1)) as [->|Hne].
  - rewrite (bool_decide_eq_true_2 (k1 = k1)) by done. cbn [modify_field].
    case_bool_decide; cbn [object_insert]; by rewrite bool_decide_eq_true_2.
  - rewrite (bool_decide_eq_false_2 (k' = k1)) by done. cbn [modify_field].
    destruct (decide (k1 = k)) as [->|Hk].
    + rewrite (bool_decide_eq_true_2 (k = k)), (bool_decide_eq_false_2 (k' = k)) by done. cbn [object_insert].
      by rewrite (bool_decide_eq_false_2 (k' = k)).
    + rewrite (bool_decide_eq_false_2 (k1 = k)) by done. cbn [object_insert].
      by rewrite (bool_decide_eq_false_2 (k' = k1)), IH.
Qed.
Lemma modify_some k f key o m :
  modify_field k f (insert_some key o m) =
  insert_some key (if bool_decide (lit key = k) then f <$> o else o) (modify_field k f m).
Proof. unfold insert_some. destruct o as [v|]; [rewrite modify_insert|]; by case_bool_decide. Qed.
Lemma modify_absent k f m : json_get k (JObject m) = None -> modify_field k f m = m.
Proof.
  induction m as [|[k1 v1] m IH]; [done|]. rewrite json_get_cons. cbn [modify_field].
  case_bool_decide; [done|]. intros H'. by rewrite IH.
Qed.
(** Pushes a change of one field through the writing of the others. *)
Ltac push_field :=
  repeat (first [rewrite modify_insert | rewrite modify_some | rewrite modify_cons];
          first [rewrite bool_decide_eq_false_2 by done | rewrite bool_decide_eq_true_2 by done]).

Lemma try_omap_renamed {A B E} (F : A -> result (option B) E) (g : A -> A) (h : B -> B) l vs :
  (forall x o, x ∈ l -> F x = Ok o -> F (g x) = Ok (h <$> o)) ->
  try_omap F l = Ok vs -> try_omap F (g <$> l) = Ok (h <$> vs).
Proof.
  revert vs. induction l as [|x l IH]; intros vs Hf; csimpl; [by intros [= <-]|].
  intros (o & Ho & H)%bind_ok. apply bind_ok in H as (ys & Hys & [= <-]).
  rewrite (Hf x o) by (done || set_solver). cbn [result_bind]. rewrite (IH ys) by (done || set_solver). by destruct o.
Qed.
Lemma try_omap_same {A B E} (F : A -> result (option B) E) (g : A -> A) l :
  (forall x, F (g x) = F x) -> try_omap F (g <$> l) = try_omap F l.
Proof. intros Hf. induction l as [|x l IH]; csimpl; [done|]. by rewrite Hf, IH. Qed.

Lemma rewritten_name map name :
  match tm_original_to_wire map !! name with Some w => JString w | None => JString name end = JString (wire_name map name).
Proof. unfold wire_name. by destruct (tm_original_to_wire map !! name). Qed.

(** The tools and the choice of a body: written only when there are tools. *)
Lemma tools_renamed f (build : ToolDefinition -> json) (h : json -> json) (ts : list ToolDefinition) :
  (forall t, h (build t) = build (rename_tool f t)) ->
  when (negb (is_empty (rename_tool f <$> ts))) (JArray (build <$> (rename_tool f <$> ts))) =
  modify_items h <$> when (negb (is_empty ts)) (JArray (build <$> ts)).
Proof.
  intros Hb. destruct ts as [|t ts]; [done|]. cbn [is_empty fmap list_fmap negb when option_fmap option_map modify_items].
  rewrite Hb, <- !list_fmap_compose. do 3 f_equal. apply list_fmap_ext. intros i x _. cbn. by rewrite Hb.
Qed.
Lemma choice_renamed f (build : ToolChoice -> json) (h : json -> json) (ts : list ToolDefinition) c :
  (forall c, h (build c) = build (rename_choice f c)) ->
  when (negb (is_empty (rename_tool f <$> ts))) (build (rename_choice f c)) =
  h <$> when (negb (is_empty ts)) (build c).
Proof. intros Hb. destruct ts as [|t ts]; [done|]. cbn. by rewrite Hb. Qed.

(** ** Anthropic Messages *)

Section anthropic.
Context (map : ToolNameMap).

Definition rewrite_block (block : json) : json :=
  if is_tool_use block then rewrite_at NAME map block else block.
Definition rewrite_message_blocks : json -> json := modify_at [lit "content"] (modify_items rewrite_block).

Lemma anthropic_tool_renamed t :
  rewrite_at NAME map (build_tool t) = build_tool (rename_tool (wire_name map) t).
Proof. unfold rewrite_at, build_tool, NAME. cbn [modify_at]. push_field. cbn. by rewrite rewritten_name. Qed.
Lemma anthropic_choice_renamed c :
  rewrite_at NAME map (build_tool_choice c) = build_tool_choice (rename_choice (wire_name map) c).
Proof.
  destruct c; unfold rewrite_at, build_tool_choice, NAME; cbn [modify_at]; push_field; cbn [modify_field]; try done.
  cbn. by rewrite rewritten_name.
Qed.
Lemma call_block_renamed id name arguments :
  rewrite_block (call_block id name arguments) = call_block id (wire_name map name) arguments.
Proof.
  unfold rewrite_block, call_block, rewrite_at, NAME. cbn [modify_at]. push_field. cbn. by rewrite rewritten_name.
Qed.
Lemma other_block_kept v kind :
  string_field v (lit "type") = Some kind -> kind <> lit "tool_use" -> rewrite_block v = v.
Proof. intros Hv Hk. unfold rewrite_block, is_tool_use. by rewrite Hv, bool_decide_eq_false_2 by congruence. Qed.
Lemma image_block_kept source o : image_block source = Ok o -> rewrite_block <$> o = o.
Proof.
  destruct source; intros [= <-]; [|done..]; cbn; f_equal; by apply (other_block_kept _ (lit "image")).
Qed.

Lemma assistant_block_renamed p o :
  own_opaque p -> assistant_block p = Ok o ->
  assistant_block (rename_part (wire_name map) p) = Ok (rewrite_block <$> o).
Proof.
  destruct p as [[|c text]|text signature|source|id name arguments|call_id content is_error|protocol payload];
    cbn [rename_part assistant_block]; intros Ho.
  - by intros [= <-].
  - intros [= <-]. cbn. by rewrite (other_block_kept _ (lit "text")).
  - intros [= <-]. destruct (own_signature signature); [|done]. cbn. by rewrite (other_block_kept _ (lit "thinking")).
  - by intros [= <-].
  - intros [= <-]. cbn. by rewrite call_block_renamed.
  - intros (v & -> & [= <-])%bind_ok. cbn. by rewrite (other_block_kept _ (lit "tool_result")).
  - intros [= <-]. case_bool_decide as E; [|done]. cbn. by rewrite (other_block_kept payload _ (Ho E)).
Qed.
Lemma user_result_renamed p o :
  user_result p = Ok o -> user_result (rename_part (wire_name map) p) = Ok (rewrite_block <$> o).
Proof.
  destruct p as [text|text signature|source|id name arguments|call_id content is_error|protocol payload];
    cbn [rename_part user_result]; try by intros [= <-].
  intros (v & -> & [= <-])%bind_ok. cbn. by rewrite (other_block_kept _ (lit "tool_result")).
Qed.
Lemma user_block_renamed p o :
  user_block p = Ok o -> user_block (rename_part (wire_name map) p) = Ok (rewrite_block <$> o).
Proof.
  destruct p as [[|c text]|text signature|source|id name arguments|call_id content is_error|protocol payload];
    cbn [rename_part user_block]; try by intros [= <-].
  intros Hs. by rewrite (image_block_kept _ _ Hs).
Qed.
Lemma anthropic_message_renamed m o :
  Forall own_opaque (msg_parts m) -> build_message m = Ok o ->
  build_message (rename_message (wire_name map) m) = Ok (rewrite_message_blocks <$> o).
Proof.
  intros Ho. rewrite Forall_forall in Ho. unfold build_message. cbn [rename_message msg_role msg_parts].
  intros (content & Hc & [= <-])%bind_ok.
  enough (Hr : match msg_role m with
               | User => let? results := try_omap user_result (rename_part (wire_name map) <$> msg_parts m) in
                         let? rest := try_omap user_block (rename_part (wire_name map) <$> msg_parts m) in
                         Ok (results ++ rest)
               | Assistant => try_omap assistant_block (rename_part (wire_name map) <$> msg_parts m)
               end = Ok (rewrite_block <$> content)).
  { rewrite Hr. cbn [result_bind]. destruct content as [|v content]; [done|]. cbn [fmap list_fmap is_empty option_fmap option_map].
    unfold rewrite_message_blocks. cbn [modify_at]. push_field. done. }
  destruct (msg_role m).
  - apply bind_ok in Hc as (results & Hres & Hc). apply bind_ok in Hc as (rest & Hrest & [= <-]).
    rewrite (try_omap_renamed _ _ rewrite_block _ _ (fun p o _ => user_result_renamed p o) Hres). cbn [result_bind].
    rewrite (try_omap_renamed _ _ rewrite_block _ _ (fun p o _ => user_block_renamed p o) Hrest). cbn [result_bind].
    by rewrite fmap_app.
  - apply (try_omap_renamed _ _ rewrite_block); [|done]. intros p o Hin. apply assistant_block_renamed, Ho, Hin.
Qed.
Context `{JsonNumbers}.

Lemma anthropic_renames r model stream v :
  map_is_empty map = false -> carried r -> build_upstream_request anthropic_body r model stream = Ok v ->
  build_upstream_request anthropic_body (rename_request (wire_name map) r) model stream =
    Ok (rewrite_body map AnthropicMessages v).
Proof.
  intros He [Ho _ _]. unfold build_upstream_request. rewrite vendor_renamed.
  intros [Hv Hb]%reject_ok. rewrite Hv. apply bind_ok in Hb as (body & Hb & [= <-]).
  cbn [bc_build_request anthropic_body] in Hb |- *. unfold anthropic_build_request in *.
  apply bind_ok in Hb as (vs & Hvs & [= <-]). cbn [rename_request cr_messages cr_system cr_sampling cr_tools cr_tool_choice cr_reasoning cr_stream].
  rewrite (try_omap_renamed _ _ rewrite_message_blocks _ _ (fun m o Hm => anthropic_message_renamed m o (proj1 (Forall_forall _ _) Ho m Hm)) Hvs).
  cbn [result_bind]. unfold rewrite_body. rewrite He. unfold rewrite_list. cbn [modify_at]. push_field.
  rewrite (tools_renamed _ build_tool (rewrite_at NAME map)) by apply anthropic_tool_renamed.
  by rewrite (choice_renamed _ build_tool_choice (rewrite_at NAME map)) by apply anthropic_choice_renamed.
Qed.
End anthropic.

(** ** Chat Completions *)

Section chat.
Context (map : ToolNameMap) `{JsonText}.

Definition rewrite_calls : json -> json := modify_at [lit "tool_calls"] (modify_items (rewrite_at FUNCTION_NAME map)).

Lemma chat_tool_renamed t :
  rewrite_at FUNCTION_NAME map (chat_build_tool t) = chat_build_tool (rename_tool (wire_name map) t).
Proof. unfold rewrite_at, chat_build_tool, FUNCTION_NAME. cbn [modify_at]. push_field. cbn. by rewrite rewritten_name. Qed.
Lemma chat_choice_renamed c :
  rewrite_at FUNCTION_NAME map (chat_build_tool_choice c) = chat_build_tool_choice (rename_choice (wire_name map) c).
Proof.
  destruct c; try done. unfold rewrite_at, chat_build_tool_choice, FUNCTION_NAME. cbn [modify_at]. push_field.
  cbn. by rewrite rewritten_name.
Qed.
Lemma no_calls_kept m : json_get (lit "tool_calls") (JObject m) = None -> rewrite_calls (JObject m) = JObject m.
Proof. intros Hm. unfold rewrite_calls. cbn [modify_at]. by rewrite modify_absent. Qed.
Lemma role_message_kept role content : rewrite_calls (role_message role content) = role_message role content.
Proof. by apply no_calls_kept. Qed.

Lemma chat_call_renamed p :
  chat_call (rename_part (wire_name map) p) = rewrite_at FUNCTION_NAME map <$> chat_call p.
Proof.
  destruct p; try done. unfold rewrite_at, FUNCTION_NAME. cbn [rename_part chat_call modify_at fmap option_fmap option_map].
  push_field. cbn. by rewrite rewritten_name.
Qed.
Lemma chat_calls_renamed (parts : list ContentPart) :
  omap chat_call (rename_part (wire_name map) <$> parts) = rewrite_at FUNCTION_NAME map <$> omap chat_call parts.
Proof.
  induction parts as [|p parts IH]; [done|]. rewrite fmap_cons. cbn [omap list_omap]. rewrite chat_call_renamed.
  destruct (chat_call p) as [v|]; [|exact IH]. cbn [fmap option_fmap option_map list_fmap]. f_equal. exact IH.
Qed.
Lemma reasoning_renamed f parts : reasoning_of (rename_part f <$> parts) = reasoning_of parts.
Proof. unfold reasoning_of. induction parts as [|p parts IH]; [done|]. csimpl. rewrite IH. by destruct p. Qed.
Lemma is_empty_fmap {A B} (f : A -> B) l : is_empty (f <$> l) = is_empty l.
Proof. by destruct l. Qed.
Lemma assistant_message_renamed parts :
  assistant_message (rename_part (wire_name map) <$> parts) = rewrite_calls <$> assistant_message parts.
Proof.
  unfold assistant_message. rewrite reasoning_renamed, text_renamed, chat_calls_renamed, is_empty_fmap.
  destruct (is_empty (text_of parts) && is_empty (omap chat_call parts) && is_empty (reasoning_of parts)); [done|].
  cbn [fmap list_fmap]. unfold rewrite_calls. cbn [modify_at]. push_field. by destruct (omap chat_call parts).
Qed.

Lemma content_renamed f parts : content_value (rename_part f <$> parts) = content_value parts.
Proof.
  unfold content_value. rewrite text_renamed, try_omap_same by by intros [].
  replace (forallb is_text (rename_part f <$> parts)) with (forallb is_text parts); [done|].
  induction parts as [|p parts IH]; [done|]. csimpl. rewrite <- IH. by destruct p.
Qed.
Lemma rest_renamed f parts :
  List.filter not_result (rename_part f <$> parts) = rename_part f <$> List.filter not_result parts.
Proof. induction parts as [|p parts IH]; [done|]. csimpl. rewrite IH. by destruct p. Qed.
Lemma results_kept parts vs : try_omap chat_result parts = Ok vs -> rewrite_calls <$> vs = vs.
Proof.
  revert vs. induction parts as [|p parts IH]; intros vs; simpl; [by intros [= <-]|].
  intros (o & Ho & Hr)%bind_ok. apply bind_ok in Hr as (ys & Hys & [= <-]). specialize (IH ys Hys).
  destruct p; try (injection Ho as <-; exact IH). apply bind_ok in Ho as (c & _ & [= <-]). csimpl. by rewrite IH.
Qed.
Lemma user_messages_renamed parts vs :
  user_messages parts = Ok vs -> user_messages (rename_part (wire_name map) <$> parts) = Ok (rewrite_calls <$> vs).
Proof.
  unfold user_messages. rewrite try_omap_same by by intros []. rewrite rest_renamed, is_empty_fmap, content_renamed.
  intros (results & Hr & Hb)%bind_ok. rewrite Hr. cbn [result_bind]. apply results_kept in Hr.
  destruct (is_empty _); [by injection Hb as <-; rewrite Hr|].
  apply bind_ok in Hb as (content & -> & [= <-]). cbn [result_bind]. by rewrite fmap_app, Hr.
Qed.
Lemma chat_messages_renamed ms vss :
  try_map chat_messages ms = Ok vss ->
  try_map chat_messages (rename_message (wire_name map) <$> ms) = Ok ((fun vs : list json => rewrite_calls <$> vs) <$> vss).
Proof.
  revert vss. induction ms as [|m ms IH]; intros vss; csimpl; [by intros [= <-]|].
  intros (vs & Hvs & Hb)%bind_ok. apply bind_ok in Hb as (wss & Hw & [= <-]). rewrite (IH _ Hw).
  unfold chat_messages in *. cbn [rename_message msg_role msg_parts]. destruct (msg_role m).
  - by rewrite (user_messages_renamed _ _ Hvs).
  - injection Hvs as <-. by rewrite assistant_message_renamed.
Qed.
Lemma system_message_kept system vs : system_message system = Ok vs -> rewrite_calls <$> vs = vs.
Proof.
  unfold system_message. destruct (is_empty system); [by intros [= <-]|].
  intros (content & _ & [= <-])%bind_ok. csimpl. by rewrite role_message_kept.
Qed.
Lemma fmap_concat {A B} (f : A -> B) (l : list (list A)) : f <$> concat l = concat ((fun x : list A => f <$> x) <$> l).
Proof. induction l as [|x l IH]; [done|]. csimpl. by rewrite fmap_app, IH. Qed.
Context `{JsonNumbers}.

Lemma chat_renames r model stream v :
  map_is_empty map = false -> build_upstream_request chat_body r model stream = Ok v ->
  build_upstream_request chat_body (rename_request (wire_name map) r) model stream =
    Ok (rewrite_body map ChatCompletions v).
Proof.
  intros He. unfold build_upstream_request. rewrite vendor_renamed.
  intros [Hv Hb]%reject_ok. rewrite Hv. apply bind_ok in Hb as (body & Hb & [= <-]).
  cbn [bc_build_request chat_body] in Hb |- *. unfold chat_build_request in *.
  apply bind_ok in Hb as (system & Hs & Hb). apply bind_ok in Hb as (vss & Hvss & [= <-]).
  cbn [rename_request cr_messages cr_system cr_sampling cr_tools cr_tool_choice cr_reasoning cr_stream cr_parallel_tool_calls].
  rewrite Hs, (chat_messages_renamed _ _ Hvss). cbn [result_bind]. apply system_message_kept in Hs.
  rewrite <- fmap_concat. rewrite <- Hs at 1. rewrite <- fmap_app.
  unfold rewrite_body. rewrite He. unfold insert_sampling. cbn [modify_at]. push_field.
  rewrite (tools_renamed _ chat_build_tool (rewrite_at FUNCTION_NAME map)) by apply chat_tool_renamed.
  rewrite (choice_renamed _ chat_build_tool_choice (rewrite_at FUNCTION_NAME map)) by apply chat_choice_renamed.
  by rewrite is_empty_fmap.
Qed.
End chat.
