(* ===== verification/Crossing.v ===== *)
(** The four codecs behind one door, and conversations that cross protocols:
    a gateway reads a client's body with the client's codec and writes the body
    its upstream reads (parse_request, build_upstream_request, render_response
    and parse_reply of src/wire/mod.rs in crates/model-gateway,
    build_member_body of src/service.rs), and the upstream may be another
    gateway; a whole reply comes back the same way. *)
From stdpp Require Import prelude strings list gmap.
From Stdlib Require Import NArith ZArith Lia.
From S2P Require Import Prelude CoreTypes GatewayTypes GatewayErrors Ir Json Upstream Wire AnthropicStream Bodies.
From S2P Require Import ToolNames AnthropicBody ChatBody GeminiBody ResponsesBody Renaming.

#[export] Instance ReasoningRequest_eq_dec : EqDecision ReasoningRequest.
Proof. solve_decision. Defined.

Section crossing.
Context `{JsonText, JsonNumbers}.

(** ** Dispatch by protocol *)

(** [now] is the clock of a rendered Responses reply. *)
Definition codec_of (now : Z) (protocol : WireProtocol) : BodyCodec :=
  match protocol with
  | ChatCompletions => chat_body
  | Responses => responses_body now
  | AnthropicMessages => anthropic_body
  | GeminiGenerateContent => gemini_body
  end.
Definition parse_request (now : Z) (protocol : WireProtocol) (body : str) : GatewayResult CanonicalRequest :=
  let? value := ok_or (json_from_str body) (MalformedRequest (lit "the body is not valid JSON")) in
  bc_parse_request (codec_of now protocol) value.
Definition render_response (now : Z) (protocol : WireProtocol) (response : CanonicalResponse) : json :=
  bc_render_response (codec_of now protocol) response.
Definition parse_reply (now : Z) (protocol : WireProtocol) (body : str) : GatewayResult CanonicalResponse :=
  let? value := ok_or (json_from_str body) (Upstream 502 (lit "the upstream reply is not valid JSON")) in
  bc_parse_response (codec_of now protocol) value.

(** ** The body of one call (service.rs) *)

(** [Map::remove] of the insertion-ordered map: the last field takes the place. *)
Fixpoint replace_field (k : str) (f : str * json) (m : list (str * json)) : list (str * json) :=
  match m with [] => [] | f' :: m => if bool_decide (f'.1 = k) then f :: m else f' :: replace_field k f m end.
Definition object_remove (k : str) (m : list (str * json)) : list (str * json) :=
  match last m with
  | Some f =>
      if bool_decide (f.1 = k) then removelast m
      else if existsb (fun f => bool_decide (f.1 = k)) m then replace_field k f (removelast m) else m
  | None => m
  end.
Definition servable_tool (tool : json) : bool :=
  match string_field tool (lit "type") with None => true | Some kind => bool_decide (kind = lit "function") end.
Definition drop_tools (fields : list (str * json)) : list (str * json) :=
  match array_of (json_get (lit "tools") (JObject fields)) with
  | None => fields
  | Some tools =>
      if forallb servable_tool tools then fields
      else let kept := List.filter servable_tool tools in
           if is_empty kept then object_remove (lit "tools") fields
           else object_insert (lit "tools") (JArray kept) fields
  end.
Definition build_member_body (now : Z) (target : WireProtocol) (passthrough : bool) (inbound : WireProtocol)
    (original_body : json) (request member_request : CanonicalRequest) (model : str) (stream : bool) : GatewayResult json :=
  let rewritten_effort := negb (bool_decide (cr_reasoning request = cr_reasoning member_request)) in
  if negb passthrough || negb (bool_decide (target = inbound)) || rewritten_effort
  then build_upstream_request (codec_of now target) member_request model stream
  else match original_body with
       | JObject fields =>
           let fields := drop_tools (object_insert (lit "model") (JString model) fields) in
           Ok (JObject (if bool_decide (bool_of (json_get (lit "stream") (JObject fields)) = Some stream) then fields
                        else object_insert (lit "stream") (JBool stream) fields))
       | _ => build_upstream_request (codec_of now target) member_request model stream
       end.

(** What a member is asked: it may pin the reasoning effort. *)
Definition member_request_of (effort : option str) (request : CanonicalRequest) : CanonicalRequest :=
  match effort with
  | Some effort =>
      {| cr_model := cr_model request; cr_system := cr_system request; cr_messages := cr_messages request;
         cr_tools := cr_tools request; cr_tool_choice := cr_tool_choice request;
         cr_parallel_tool_calls := cr_parallel_tool_calls request; cr_sampling := cr_sampling request;
         cr_reasoning := mkReasoning (eq_ignore_ascii_case effort (lit "off")) (Some effort);
         cr_stream := cr_stream request; cr_opaque := cr_opaque request |}
  | None => request
  end.

(** ** Gateways in a row *)

(** One gateway's upstream: the protocol it is called with, whether the call is a
    passthrough, the model it is asked for and the effort pinned to it. *)
Record Hop : Type := mkHop {
  hop_protocol : WireProtocol; hop_passthrough : bool; hop_model : str; hop_effort : option str
}.
(** The body of the call: a translated one asks for a stream, and spells the
    tools by the names every protocol accepts. *)
Definition call_body (hash : str -> Z) (now : Z) (inbound : WireProtocol) (body : json) (request : CanonicalRequest)
    (hop : Hop) : GatewayResult json :=
  let? v := build_member_body now (hop_protocol hop) (hop_passthrough hop) inbound body request
              (member_request_of (hop_effort hop) request) (hop_model hop)
              (cr_stream request || negb (hop_passthrough hop)) in
  Ok (if hop_passthrough hop then v else rewrite_body (ToolNameMap_build hash request) (hop_protocol hop) v).
Fixpoint pass_on (hash : str -> Z) (now : Z) (protocol : WireProtocol) (body : json) (hops : list Hop)
    : GatewayResult json :=
  match hops with
  | [] => Ok body
  | hop :: hops =>
      let? request := bc_parse_request (codec_of now protocol) body in
      let? body := call_body hash now protocol body request hop in
      pass_on hash now (hop_protocol hop) body hops
  end.
Definition last_protocol (protocol : WireProtocol) (hops : list Hop) : WireProtocol :=
  match last hops with Some hop => hop_protocol hop | None => protocol end.

(** ** A whole reply (gather) *)

(** What the gateway remembers of a call. *)
Record PreparedCall : Type := mkPrepared {
  pc_inbound : WireProtocol; pc_target : WireProtocol; pc_tool_names : ToolNameMap
}.
Definition CanonicalResponse_default : CanonicalResponse := mkResponse [] [] [] EndTurn CanonicalUsage_default.
(** The upstream answered with one JSON object; an object that is not read is an
    empty reply.  Any other body is read as a stream: see the file Forward. *)
Definition gather_whole (now : Z) (call : PreparedCall) (fields : list (str * json)) : json :=
  let response := match bc_parse_response (codec_of now (pc_target call)) (JObject fields) with
                  | Ok response => response
                  | Err _ => CanonicalResponse_default
                  end in
  render_response now (pc_inbound call) (restore_response (pc_tool_names call) response).

(** The protocols that keep a conversation whole, and a gateway that translates
    into one of them. *)
Definition keeps_all (protocol : WireProtocol) : Prop := protocol = ChatCompletions \/ protocol = AnthropicMessages.
Definition translates (hop : Hop) : Prop :=
  keeps_all (hop_protocol hop) /\ trim (hop_model hop) <> [] /\ hop_passthrough hop = false.
(** The suffixes that tell tools apart fit their counter. *)
Definition countable_names (r : CanonicalRequest) : Prop := (Z.of_nat (length (collected_names r)) <= u64_max)%Z.
End crossing.

(** * Lemmas on the fields of a body *)

Lemma json_get_elem (m : list (str * json)) k v : NoDup m.*1 -> json_get k (JObject m) = Some v <-> (k, v) ∈ m.
Proof.
  induction m as [|[k' v'] m IH]; intros Hn; [split; [done|by intros ?%elem_of_nil]|]. apply NoDup_cons in Hn as [Hk Hn].
  rewrite json_get_cons, elem_of_cons. case_bool_decide as E.
  - subst k'. split; [intros [= ->]; by left|]. intros [[= ->]|Hin]; [done|]. exfalso. apply Hk.
    apply list_elem_of_fmap. by exists (k, v).
  - rewrite (IH Hn). split; [by right|]. intros [[= -> ->]|Hin]; done.
Qed.
Lemma json_get_same_fields (m m' : list (str * json)) k :
  NoDup m.*1 -> NoDup m'.*1 -> (forall v, (k, v) ∈ m <-> (k, v) ∈ m') -> json_get k (JObject m) = json_get k (JObject m').
Proof.
  intros Hn Hn' He. apply option_eq. intros v. by rewrite !json_get_elem.
Qed.
Lemma replace_field_perm k f (m : list (str * json)) :
  NoDup m.*1 -> k ∈ m.*1 -> exists v, (k, v) :: replace_field k f m ≡ₚ f :: m.
Proof.
  induction m as [|[k' v'] m IH]; intros Hn Hin; [by apply elem_of_nil in Hin|]. apply NoDup_cons in Hn as [Hk Hn].
  cbn [replace_field fst]. case_bool_decide as E.
  - subst k'. exists v'. by rewrite Permutation_swap.
  - apply elem_of_cons in Hin as [?|Hin]; [done|]. destruct (IH Hn Hin) as [v Hv]. exists v.
    rewrite Permutation_swap, Hv. apply Permutation_swap.
Qed.
(** What is left after a removal: the other fields, in some order. *)
Lemma object_remove_perm k (m : list (str * json)) :
  NoDup m.*1 -> k ∈ m.*1 -> exists v, (k, v) :: object_remove k m ≡ₚ m.
Proof.
  intros Hn Hin. unfold object_remove. destruct (last m) as [[k' v']|] eqn:E; [|by apply last_None in E as ->; apply elem_of_nil in Hin].
  apply last_Some in E as [m' ->]. rewrite removelast_last. cbn [fst]. rewrite fmap_app in Hn, Hin.
  case_bool_decide as Ek.
  - subst k'. exists v'. by rewrite Permutation_cons_append.
  - assert (k ∈ m'.*1) as Hin' by (apply elem_of_app in Hin as [?|?%list_elem_of_singleton]; simpl in *; congruence).
    assert (existsb (fun f : str * json => bool_decide (f.1 = k)) (m' ++ [(k', v')]) = true) as ->.
    { apply list_elem_of_fmap in Hin' as ([k1 v1] & -> & Hin'). apply existsb_elem. exists (k1, v1).
      split; [apply elem_of_app; by left|by apply bool_decide_eq_true]. }
    apply NoDup_app in Hn as (Hn & _ & _). destruct (replace_field_perm k (k', v') m' Hn Hin') as [v Hv].
    exists v. by rewrite Hv, Permutation_cons_append.
Qed.
Lemma object_remove_get k (m : list (str * json)) k' :
  NoDup m.*1 -> k ∈ m.*1 ->
  json_get k' (JObject (object_remove k m)) = if bool_decide (k = k') then None else json_get k' (JObject m).
Proof.
  intros Hn Hin. destruct (object_remove_perm k m Hn Hin) as [v Hv].
  assert (NoDup ((k, v) :: object_remove k m).*1) as Hn' by (by rewrite Hv).
  apply NoDup_cons in Hn' as [Hk Hn']. case_bool_decide as E.
  - subst k'. destruct (json_get k _) as [w|] eqn:Ew; [|done]. apply json_get_elem in Ew; [|done].
    exfalso. apply Hk, list_elem_of_fmap. by exists (k, w).
  - apply json_get_same_fields; [done..|]. intros w.
    assert ((k', w) ∈ (k, v) :: object_remove k m <-> (k', w) ∈ m) as <- by (by rewrite Hv).
    rewrite elem_of_cons. split; [by right|]. by intros [[= -> ->]|].
Qed.
Lemma json_get_key k (m : list (str * json)) v : json_get k (JObject m) = Some v -> k ∈ m.*1.
Proof.
  induction m as [|[k' v'] m IH]; [done|]. rewrite json_get_cons. case_bool_decide; [subst; by left|]. right. by apply IH.
Qed.
Lemma object_insert_nodup k v (m : list (str * json)) : NoDup m.*1 -> NoDup (object_insert k v m).*1.
Proof.
  induction m as [|[k' v'] m IH]; intros Hn; simpl; [repeat constructor; by intros ?%elem_of_nil|].
  apply NoDup_cons in Hn as [Hk Hn]. case_bool_decide; subst; simpl; constructor; try done; [|by apply IH].
  rewrite object_insert_keys. by intros [|].
Qed.

(** Of a body's fields only the tools change. *)
Definition kept_tools (tools : option (list json)) : option (list json) :=
  match tools with
  | Some tools => if forallb servable_tool tools then Some tools
                  else if is_empty (List.filter servable_tool tools) then None else Some (List.filter servable_tool tools)
  | None => None
  end.
Lemma drop_tools_get (fields : list (str * json)) :
  NoDup fields.*1 ->
  array_of (json_get (lit "tools") (JObject (drop_tools fields))) = kept_tools (array_of (json_get (lit "tools") (JObject fields))) /\
  forall k, k <> lit "tools" -> json_get k (JObject (drop_tools fields)) = json_get k (JObject fields).
Proof.
  intros Hn. unfold drop_tools. destruct (array_of (json_get (lit "tools") (JObject fields))) as [tools|] eqn:E; [|by split; [rewrite E|]].
  unfold kept_tools. destruct (forallb servable_tool tools); [by split; [rewrite E|]|].
  assert (lit "tools" ∈ fields.*1) as Hin.
  { destruct (json_get (lit "tools") (JObject fields)) as [v|] eqn:Ev; [|done]. by eapply json_get_key. }
  destruct (is_empty _).
  - rewrite object_remove_get, bool_decide_true by done. split; [done|]. intros k Hk.
    rewrite object_remove_get by done. by rewrite bool_decide_false.
  - rewrite object_insert_get, bool_decide_true by done. split; [done|]. intros k Hk.
    rewrite object_insert_get. by rewrite bool_decide_false.
Qed.

(** A passthrough of a client's own body changes nothing but the model, the stream
    flag and the tools no upstream can serve; it spells the tools as the client
    does. *)
Theorem passthrough_keeps_the_body `{JsonText, JsonNumbers} (hash : str -> Z) (now : Z) (hop : Hop)
    (fields : list (str * json)) (request : CanonicalRequest) :
  NoDup fields.*1 -> hop_passthrough hop = true ->
  cr_reasoning (member_request_of (hop_effort hop) request) = cr_reasoning request ->
  exists v, call_body hash now (hop_protocol hop) (JObject fields) request hop = Ok v /\
    json_get (lit "model") v = Some (JString (hop_model hop)) /\
    bool_of (json_get (lit "stream") v) = Some (cr_stream request) /\
    array_of (json_get (lit "tools") v) = kept_tools (array_of (json_get (lit "tools") (JObject fields))) /\
    forall k, k ∉ [lit "model"; lit "stream"; lit "tools"] -> json_get k v = json_get k (JObject fields).
Proof.
  intros Hn Hpass Hr. unfold call_body, build_member_body. rewrite Hpass, Hr, !bool_decide_true by done.
  cbn [negb orb]. rewrite orb_false_r. cbn [result_bind]. eexists. split; [done|].
  set (model := hop_model hop). set (stream := cr_stream request).
  set (named := object_insert (lit "model") (JString model) fields).
  destruct (drop_tools_get named) as [Ht Hother]; [by apply object_insert_nodup|].
  assert (forall k, json_get k (JObject named) = if bool_decide (lit "model" = k) then Some (JString model) else json_get k (JObject fields))
    as Hnamed by (intros k; apply object_insert_get). clearbody named.
  rewrite Hnamed, bool_decide_false in Ht by done.
  assert (json_get (lit "model") (JObject (drop_tools named)) = Some (JString model)) as Hm
    by (rewrite Hother, Hnamed by done; by rewrite bool_decide_true).
  case_bool_decide as Es.
  - split_and!; [done..|]. intros k Hk. rewrite Hother, Hnamed, bool_decide_false by set_solver. done.
  - rewrite !object_insert_get, !bool_decide_false, bool_decide_true by done. split_and!; [done..|].
    intros k Hk. rewrite object_insert_get, bool_decide_false by set_solver.
    rewrite Hother, Hnamed, bool_decide_false by set_solver. done.
Qed.

Section laws.
Context `{JsonTextLaws, JsonNumbersLaws} (now : Z).

(** The two protocols that keep a conversation are lawful codecs. *)
Lemma keeps_all_lawful p : keeps_all p -> exists respelled, BodyCodecLaws (codec_of now p) respelled.
Proof. intros [-> | ->]; eexists; [apply chat_body_laws|apply anthropic_body_laws]. Qed.
(** Whatever the protocol, a request that is read can be carried, and the counts of a reply fit. *)
Lemma reads_carried p v r : bc_parse_request (codec_of now p) v = Ok r -> carried r.
Proof.
  destruct p; [apply chat_reads_carried|apply responses_reads_carried|apply anthropic_reads_carried|apply gemini_reads_carried].
Qed.
Lemma reads_counted p v r : bc_parse_response (codec_of now p) v = Ok r -> counted (rs_usage r).
Proof. destruct p; [apply chat_counts|apply responses_counts|apply anthropic_counts|apply gemini_counts]. Qed.

(** ** One gateway *)

Lemma rename_gist_id (f : str -> str) g : (forall n, f n = n) -> rename_gist f g = g.
Proof.
  intros Hf. destruct g as [s tr ts c te tp st]. unfold rename_gist. cbn. f_equal.
  - rewrite <- (list_fmap_id tr) at 2. apply list_fmap_ext. intros i [] _; cbn; by rewrite ?Hf.
  - rewrite <- (list_fmap_id ts) at 2. apply list_fmap_ext. intros i [[n d] v] _. cbn. by rewrite Hf.
  - destruct c; cbn; by rewrite ?Hf.
Qed.
Lemma empty_map_keeps map : map_is_empty map = true -> forall n, wire_name map n = n.
Proof. intros He%bool_decide_eq_true n. unfold wire_name. by rewrite He, lookup_empty. Qed.
Lemma member_gist effort r : gist (member_request_of effort r) = gist r.
Proof. by destruct effort. Qed.
Lemma member_carried effort r : carried r -> carried (member_request_of effort r).
Proof. destruct effort; [|done]. intros []. by constructor. Qed.
Lemma member_portable effort r : portable (member_request_of effort r) = portable r.
Proof. by destruct effort. Qed.
Lemma member_sampling effort r : cr_sampling (member_request_of effort r) = cr_sampling r.
Proof. by destruct effort. Qed.
Lemma member_tools effort r : cr_tools (member_request_of effort r) = cr_tools r.
Proof. by destruct effort. Qed.

(** The body of a translated call is the body of the renamed request. *)
Lemma rewritten_body map p r model v :
  keeps_all p -> carried r -> build_upstream_request (codec_of now p) r model true = Ok v ->
  exists r1, build_upstream_request (codec_of now p) r1 model true = Ok (rewrite_body map p v) /\
    carried r1 /\ gist r1 = rename_gist (wire_name map) (gist r) /\ cr_sampling r1 = cr_sampling r /\
    (cr_tools r = [] -> cr_tools r1 = []).
Proof.
  intros Hp Hc Hb. destruct (map_is_empty map) eqn:E.
  - exists r. rewrite rename_gist_id by by apply empty_map_keeps. unfold rewrite_body. by rewrite E.
  - exists (rename_request (wire_name map) r). split_and!; [|by apply carried_renamed|apply gist_renamed|done|].
    + destruct Hp as [-> | ->]; [by apply chat_renames|by apply anthropic_renames].
    + intros Ht. cbn. by rewrite Ht.
Qed.

Lemma hop_crosses hash p body r hop :
  translates hop -> bc_parse_request (codec_of now p) body = Ok r -> portable r = true -> plain_calls (gist r) ->
  let map := ToolNameMap_build hash r in
  exists body' r', call_body hash now p body r hop = Ok body' /\
    bc_parse_request (codec_of now (hop_protocol hop)) body' = Ok r' /\ gist r' = rename_gist (wire_name map) (gist r) /\
    portable r' = true /\ cr_model r' = hop_model hop /\ cr_stream r' = true /\
    (forall n, sp_max_tokens (cr_sampling r) = Some n -> in_u64 n -> sp_max_tokens (cr_sampling r') = Some n) /\
    (cr_tools r = [] -> cr_tool_choice r' = ChoiceAuto).
Proof.
  intros (Hk & Hm & Hpass) Hr Hp Hplain map. apply reads_carried in Hr.
  destruct (keeps_all_lawful _ Hk) as [respelled L].
  unfold call_body, build_member_body. rewrite Hpass, orb_true_r. cbn [negb orb].
  set (r0 := member_request_of (hop_effort hop) r).
  pose proof (codec_writes r0 (hop_model hop) true (eq_trans (member_portable _ _) Hp)) as Hok.
  destruct (build_upstream_request _ r0 _ _) as [v|] eqn:E; [|done]. cbn [result_bind].
  destruct (rewritten_body map _ r0 _ v Hk (member_carried _ _ Hr) E) as (r1 & Hb & Hc1 & Hg1 & Hs1 & Ht1).
  unfold r0 in Hg1, Hs1, Ht1. rewrite member_gist in Hg1. rewrite member_sampling in Hs1. rewrite member_tools in Ht1.
  destruct (codec_keeps_gist r1 (hop_model hop) true (rewrite_body map (hop_protocol hop) v) Hc1) as (r' & Hr' & Hg' & Hp' & Hm' & Hst & Hn); [|done..|].
  { rewrite Hg1. by apply plain_renamed. }
  exists (rewrite_body map (hop_protocol hop) v), r'. rewrite Hg', Hg1. rewrite Hs1 in Hn. split_and!; try done.
  intros Ht. by apply (codec_bare_choice r1 (hop_model hop) true (rewrite_body map (hop_protocol hop) v) r' (Ht1 Ht)).
Qed.

(** ** The names that are read *)

Lemma wire_name_cases hash r n :
  countable_names r -> n ∈ mentioned_names r \/ wire_name (ToolNameMap_build hash r) n = n.
Proof.
  intros Hl. destruct (mapped_request hash r Hl) as [taken Hm].
  destruct (tm_original_to_wire (ToolNameMap_build hash r) !! n) as [w|] eqn:E.
  - left. apply elem_of_collected, elem_of_reverse, (mp_seen _ _ Hm). cbn. by rewrite E.
  - right. unfold wire_name. by rewrite E.
Qed.
Lemma called_elem m id name arguments :
  Called id name arguments ∈ said m -> msg_role m = Assistant /\ ToolCall id name arguments ∈ msg_parts m.
Proof.
  unfold said. destruct (msg_role m).
  - intros [Hs|Hs]%elem_of_app.
    + unfold results_of in Hs. apply list_elem_of_omap in Hs as (p & _ & Hp). by destruct p.
    + unfold spoken in Hs. destruct (_ && _); [by apply elem_of_nil in Hs|]. by apply list_elem_of_singleton in Hs.
  - intros [Hs|Hs]%elem_of_app.
    + destruct (is_empty _); [by apply elem_of_nil in Hs|]. by apply list_elem_of_singleton in Hs.
    + unfold calls_of in Hs. apply list_elem_of_omap in Hs as (p & Hin & Hp). destruct p; try done. by injection Hp as -> -> ->.
Qed.
Lemma elem_called m id name arguments :
  msg_role m = Assistant -> ToolCall id name arguments ∈ msg_parts m -> Called id name arguments ∈ said m.
Proof.
  intros Hr Hin. unfold said. rewrite Hr. apply elem_of_app. right. apply list_elem_of_omap. by exists (ToolCall id name arguments).
Qed.

Lemma renamed_tool hash r r' n :
  countable_names r -> gist r' = rename_gist (wire_name (ToolNameMap_build hash r)) (gist r) ->
  n ∈ retain (fun name => negb (is_empty (trim name))) (td_name <$> cr_tools r') ->
  exists n0, n = wire_name (ToolNameMap_build hash r) n0 /\ n0 ∈ mentioned_names r.
Proof.
  intros Hl Hg Hn. apply elem_of_retain in Hn as [(t' & -> & Ht')%list_elem_of_fmap Hb].
  apply (f_equal gi_tools) in Hg. cbn in Hg.
  assert (Hin : (td_name t', td_description t', td_parameters t') ∈
    (fun t => (wire_name (ToolNameMap_build hash r) t.1.1, t.1.2, t.2)) <$>
      ((fun t => (td_name t, td_description t, td_parameters t)) <$> cr_tools r)).
  { rewrite <- Hg. apply list_elem_of_fmap. by exists t'. }
  rewrite <- list_fmap_compose in Hin. apply list_elem_of_fmap in Hin as (t & He & Ht). injection He as Hname _ _.
  exists (td_name t). split; [done|]. destruct (wire_name_cases hash r (td_name t) Hl) as [|Hk]; [done|].
  unfold mentioned_names. apply elem_of_app. left. apply elem_of_retain. split; [apply list_elem_of_fmap; by exists t|].
  congruence.
Qed.
Lemma renamed_call hash r r' m id n arguments :
  gist r' = rename_gist (wire_name (ToolNameMap_build hash r)) (gist r) -> portable r' = true ->
  m ∈ cr_messages r' -> ToolCall id n arguments ∈ msg_parts m ->
  exists n0, n = wire_name (ToolNameMap_build hash r) n0 /\ n0 ∈ mentioned_names r.
Proof.
  intros Hg Hp Hm Hin. unfold portable in Hp. apply andb_true_iff in Hp as [_ Hp].
  pose proof (forallb_elem _ _ _ (forallb_elem _ _ _ Hp Hm) Hin) as Hpart.
  destruct (msg_role m) eqn:Er; [done|].
  apply (f_equal gi_transcript) in Hg. cbn in Hg.
  assert (Hs : Called id n arguments ∈ transcript (cr_messages r')).
  { unfold transcript. apply list_elem_of_bind. exists m. split; [|done]. by apply elem_called. }
  rewrite Hg in Hs. apply list_elem_of_fmap in Hs as (s & Es & Hs). destruct s as [| |id' n0 a'|]; try done.
  injection Es as -> -> ->. exists n0. split; [done|].
  apply list_elem_of_bind in Hs as (m0 & Hs & Hm0). apply called_elem in Hs as [_ Hs].
  unfold mentioned_names. apply elem_of_app. right. apply elem_of_app. left.
  apply list_elem_of_bind. exists m0. split; [|done]. apply list_elem_of_bind. exists (ToolCall id' n0 a').
  split; [by left|done].
Qed.
(** Every name the next gateway reads is one the upstream was given. *)
Lemma renamed_names hash r r' n :
  countable_names r -> gist r' = rename_gist (wire_name (ToolNameMap_build hash r)) (gist r) -> portable r' = true ->
  (cr_tools r = [] -> cr_tool_choice r' = ChoiceAuto) -> n ∈ mentioned_names r' ->
  exists n0, n = wire_name (ToolNameMap_build hash r) n0 /\ n0 ∈ mentioned_names r.
Proof.
  intros Hl Hg Hp Hc Hn. unfold mentioned_names in Hn. apply elem_of_app in Hn as [Hn|Hn]; [by eapply renamed_tool|].
  apply elem_of_app in Hn as [Hn|Hn].
  - apply list_elem_of_bind in Hn as (m & Hn & Hm). apply list_elem_of_bind in Hn as (part & Hn & Hin).
    destruct part as [| | |id name arguments| |]; try by apply elem_of_nil in Hn.
    apply list_elem_of_singleton in Hn as ->. by eapply renamed_call.
  - destruct (cr_tool_choice r') as [| | |name] eqn:Ec; try by apply elem_of_nil in Hn.
    apply list_elem_of_singleton in Hn as ->. destruct (cr_tools r) as [|t ts] eqn:Et; [by specialize (Hc eq_refl)|].
    pose proof (f_equal gi_tools Hg) as Ht. pose proof (f_equal gi_tool_choice Hg) as Hgc. cbn in Ht, Hgc.
    rewrite Et in Ht, Hgc. destruct (cr_tools r') as [|t' ts']; [done|]. cbn in Hgc. rewrite Ec in Hgc.
    destruct (cr_tool_choice r) as [| | |name0] eqn:E0; try done. injection Hgc as ->. exists name0. split; [done|].
    unfold mentioned_names. rewrite E0. apply elem_of_app. right. apply elem_of_app. right. by left.
Qed.
Lemma renamed_countable hash r r' :
  countable_names r -> (forall n, n ∈ mentioned_names r' ->
    exists n0, n = wire_name (ToolNameMap_build hash r) n0 /\ n0 ∈ mentioned_names r) -> countable_names r'.
Proof.
  unfold countable_names. intros Hl Hn. etransitivity; [|exact Hl]. apply inj_le.
  rewrite <- (length_fmap (wire_name (ToolNameMap_build hash r)) (collected_names r)).
  apply submseteq_length, NoDup_submseteq; [apply collected_NoDup|].
  intros n (n0 & -> & Hin)%elem_of_collected%Hn. apply list_elem_of_fmap_2. by apply elem_of_collected.
Qed.
Lemma last_protocol_cons p hop hops : last_protocol p (hop :: hops) = last_protocol (hop_protocol hop) hops.
Proof.
  unfold last_protocol. destruct hops as [|h hops]; [done|]. rewrite last_cons_cons.
  by destruct (last (h :: hops)) eqn:E; [|apply last_None in E].
Qed.
Lemma strict_names_kept hash r : (forall n, n ∈ mentioned_names r -> strict_name n) ->
  forall n, wire_name (ToolNameMap_build hash r) n = n.
Proof. intros Hs. rewrite accepted_names_kept by done. by apply empty_map_keeps. Qed.

(** * Theorems *)

(** C23. A request crosses any row of gateways that each translate for an
    upstream that speaks Chat Completions or Anthropic Messages, whatever
    protocol the client speaks: every gateway can write what it read, and the
    last upstream reads the words, images, calls, results, tools, choice,
    sampling and stop sequences the client sent, asked for as a stream from
    the model the last gateway chose.  A tool is named as the first gateway's map
    has it: a name every protocol accepts, which no later gateway changes. *)
Theorem conversation_crosses_protocols (hash : str -> Z) (client : WireProtocol) (hop : Hop) (hops : list Hop)
    (body : json) (r : CanonicalRequest) :
  Forall translates (hop :: hops) -> bc_parse_request (codec_of now client) body = Ok r ->
  portable r = true -> plain_calls (gist r) -> countable_names r ->
  exists body' r', pass_on hash now client body (hop :: hops) = Ok body' /\
    bc_parse_request (codec_of now (last_protocol client (hop :: hops))) body' = Ok r' /\
    gist r' = rename_gist (wire_name (ToolNameMap_build hash r)) (gist r) /\
    (forall n, n ∈ mentioned_names r' -> strict_name n) /\
    (forall h, last (hop :: hops) = Some h -> cr_model r' = hop_model h /\ cr_stream r' = true) /\
    (forall n, sp_max_tokens (cr_sampling r) = Some n -> in_u64 n -> sp_max_tokens (cr_sampling r') = Some n).
Proof.
  intros Hl. revert client body r hop Hl. induction hops as [|h hops IH]; intros client body r hop Hl Hr Hp Hplain Hcount;
    apply Forall_cons in Hl as [Hhop Hl];
    destruct (hop_crosses hash client body r hop Hhop Hr Hp Hplain) as (body1 & r1 & Hb1 & Hr1 & Hg1 & Hp1 & Hm1 & Hs1 & Hn1 & Hc1);
    rewrite last_protocol_cons; cbn [pass_on]; rewrite Hr; cbn [result_bind]; rewrite Hb1; cbn [result_bind];
    pose proof (fun n => renamed_names hash r r1 n Hcount Hg1 Hp1 Hc1) as Hnames;
    assert (Hstrict : forall n, n ∈ mentioned_names r1 -> strict_name n)
      by (intros n Hn; destruct (Hnames n Hn) as (n0 & -> & Hin); by apply wire_name_strict).
  { exists body1, r1. split_and!; try done. by intros h [= <-]. }
  destruct (IH (hop_protocol hop) body1 r1 h Hl Hr1 Hp1) as (body2 & r2 & Hb2 & Hr2 & Hg2 & Hs2 & Hlast & Hn2);
    [rewrite Hg1; by apply plain_renamed|by apply (renamed_countable hash r)|].
  exists body2, r2. rewrite last_cons_cons. rewrite rename_gist_id in Hg2 by by apply strict_names_kept.
  split_and!; [done|done|congruence|done|done|eauto].
Qed.

(** ** A whole reply *)

Lemma empty_map_restores hash r n :
  countable_names r -> map_is_empty (ToolNameMap_build hash r) = true ->
  original_name (ToolNameMap_build hash r) n = n.
Proof.
  intros Hl He%bool_decide_eq_true. destruct (mapped_request hash r Hl) as [taken Hm]. unfold original_name.
  destruct (tm_wire_to_original _ !! n) as [n'|] eqn:E; [|done].
  apply (mp_back _ _ Hm) in E. cbn in E. by rewrite He, lookup_empty in E.
Qed.
Lemma restored_parts f (parts : list ContentPart) :
  (fun part => match part with ToolCall id name arguments => ToolCall id (f name) arguments | _ => part end) <$> parts =
  rename_part f <$> parts.
Proof. apply list_fmap_ext. by intros i []. Qed.
Lemma rename_part_id (f : str -> str) (parts : list ContentPart) : (forall n, f n = n) -> rename_part f <$> parts = parts.
Proof. intros Hf. rewrite <- (list_fmap_id parts) at 2. apply list_fmap_ext. intros i [] _; cbn; by rewrite ?Hf. Qed.
Lemma restored_reply hash r response :
  countable_names r ->
  restore_response (ToolNameMap_build hash r) response =
  mkResponse (rs_id response) (rs_model response)
    (rename_part (original_name (ToolNameMap_build hash r)) <$> rs_parts response) (rs_stop response) (rs_usage response).
Proof.
  intros Hl. unfold restore_response. destruct (map_is_empty _) eqn:E; [|by rewrite restored_parts].
  rewrite rename_part_id by (intros n; by apply empty_map_restores). by destruct response.
Qed.
Lemma plain_parts_renamed f (parts : list ContentPart) : Forall plain_call parts -> Forall plain_call (rename_part f <$> parts).
Proof. intros Hp. rewrite Forall_fmap. eapply Forall_impl; [exact Hp|]. by intros []. Qed.

End laws.
