(* ===== verification/ResponsesStream.v ===== *)
(** The Responses stream in both directions (ResponsesDecoder and
    ResponsesEncoder of crates/model-gateway/src/wire/responses.rs): the
    decoder reads an upstream's events, the encoder writes a client's, and what
    is left of a reply written by one and read by the other. *)
From stdpp Require Import prelude strings list.
From Stdlib Require Import NArith ZArith Lia.
From S2P Require Import Prelude CoreTypes GatewayTypes GatewayErrors Ir Json Sse Wire AnthropicStream Bodies.
From S2P Require Import ModelResolve AnthropicBody ResponsesBody.

(** [==] on values (serde_json), and the digest behind a made-up id (sha2). *)
Class StreamPlatform : Type := {
  json_same : json -> json -> bool;
  stream_sha256 : list N -> list N
}.

(** [request_fingerprint] (wire/mod.rs). *)
Definition request_fingerprint `{StreamPlatform} (value : str) : str :=
  take 6 (stream_sha256 (as_bytes value)) ≫= hex_byte.

(** ** Decoder *)

Record ResponsesDecoder : Type := mkResponsesDecoder {
  od_tool : ToolCallAccumulator;
  od_tool_open : bool;
  od_usage : CanonicalUsage;
  od_started : bool;
  od_id : str;
  od_model : str;
  od_stopped : bool
}.
Definition ResponsesDecoder_default : ResponsesDecoder :=
  mkResponsesDecoder ToolCallAccumulator_default false CanonicalUsage_default false [] [] false.

Definition responses_tool (d : ResponsesDecoder) (t : ToolCallAccumulator) (open : bool) : ResponsesDecoder :=
  mkResponsesDecoder t open (od_usage d) (od_started d) (od_id d) (od_model d) (od_stopped d).
Definition responses_stopped (d : ResponsesDecoder) : ResponsesDecoder :=
  mkResponsesDecoder (od_tool d) (od_tool_open d) (od_usage d) (od_started d) (od_id d) (od_model d) true.

(** What any event says of the reply it belongs to, and the start before the
    first one. *)
Definition note_response (d : ResponsesDecoder) (value : json) : list CanonicalEvent * ResponsesDecoder :=
  match json_get (lit "response") value with
  | Some response =>
      let id := default (od_id d) (string_field response (lit "id")) in
      let model := default (od_model d) (string_field response (lit "model")) in
      let '(told, usage) :=
        match get_non_null (lit "usage") response with
        | Some u => let usage := CanonicalUsage_merge (od_usage d) (responses_usage_from u) in ([UsageEvent usage], usage)
        | None => ([], od_usage d)
        end in
      (told, mkResponsesDecoder (od_tool d) (od_tool_open d) usage (od_started d) id model (od_stopped d))
  | None => ([], d)
  end.
Definition note_start (d : ResponsesDecoder) : list CanonicalEvent * ResponsesDecoder :=
  if od_started d then ([], d)
  else ([Start (od_id d) (od_model d) (od_usage d)],
        mkResponsesDecoder (od_tool d) (od_tool_open d) (od_usage d) true (od_id d) (od_model d) (od_stopped d)).

(** The deltas, when they carry a string. *)
Definition said_delta (said : str -> CanonicalEvent) (value : json) : list CanonicalEvent :=
  match string_field value (lit "delta") with Some delta => [said delta] | None => [] end.

Section decoder.
Context `{JsonText, StreamPlatform}.

Definition item_added (d : ResponsesDecoder) (value : json) : list CanonicalEvent * ResponsesDecoder :=
  let item := get_or_null (lit "item") value in
  if bool_decide (string_field item (lit "type") = Some (lit "function_call")) then
    let id := default [] (match string_field item (lit "call_id") with
                          | Some id => Some id
                          | None => string_field item (lit "id")
                          end) in
    let name := text_field item "name" in
    ([ToolCallStart id name], responses_tool d (tool_start id name (od_tool d)) true)
  else ([], d).
Definition arguments_delta (d : ResponsesDecoder) (value : json) : list CanonicalEvent * ResponsesDecoder :=
  match string_field value (lit "delta") with
  | Some delta =>
      let d := responses_tool d (push_arguments delta (od_tool d)) (od_tool_open d) in
      ([ToolCallArgumentsDelta (ta_id (od_tool d)) delta], d)
  | None => ([], d)
  end.
Definition arguments_done (d : ResponsesDecoder) (value : json) : list CanonicalEvent * ResponsesDecoder :=
  match string_field value (lit "arguments") with
  | Some arguments =>
      if json_same (tool_arguments (od_tool d)) (parse_arguments (JString arguments)) then ([], d)
      else
        ([], responses_tool d
               (push_arguments arguments (tool_start (text_field value "call_id") [] ToolCallAccumulator_default))
               (od_tool_open d))
  | None => ([], d)
  end.
(** The call under way ends and is taken: at its item's end and at the stream's. *)
Definition responses_end_tool (d : ResponsesDecoder) : list CanonicalEvent * ResponsesDecoder :=
  if od_tool_open d
  then ([ToolCallEnd (ta_id (od_tool d)) (tool_arguments (od_tool d))],
        responses_tool d ToolCallAccumulator_default false)
  else ([], d).
Definition item_done (d : ResponsesDecoder) (value : json) : list CanonicalEvent * ResponsesDecoder :=
  if bool_decide (string_field (get_or_null (lit "item") value) (lit "type") = Some (lit "function_call"))
  then responses_end_tool d
  else ([], d).
Definition response_over (d : ResponsesDecoder) (value : json) : list CanonicalEvent * ResponsesDecoder :=
  if od_stopped d then ([], d)
  else
    let status := default (lit "completed") (str_of (json_pointer [lit "response"; lit "status"] value)) in
    ([StopEvent (if bool_decide (status = lit "incomplete") then MaxTokens else EndTurn)], responses_stopped d).
Definition response_failed (value : json) : list CanonicalEvent :=
  let message := str_of (match json_pointer [lit "response"; lit "error"; lit "message"] value with
                         | Some message => Some message
                         | None => json_pointer [lit "error"; lit "message"] value
                         end) in
  [ErrorEvent 502 (default (lit "the upstream reported an error") message)].

Definition decode_responses_event (d : ResponsesDecoder) (value : json) : list CanonicalEvent * ResponsesDecoder :=
  let type := text_field value "type" in
  let '(told, d) := if starts_with (lit "response.") type then note_response d value else ([], d) in
  let '(start, d) := note_start d in
  let '(events, d) :=
    match_str type
      [(lit "response.output_text.delta", (said_delta TextDelta value, d));
       (lit "response.reasoning_summary_text.delta", (said_delta ReasoningDelta value, d));
       (lit "response.reasoning_text.delta", (said_delta ReasoningDelta value, d));
       (lit "response.output_item.added", item_added d value);
       (lit "response.function_call_arguments.delta", arguments_delta d value);
       (lit "response.function_call_arguments.done", arguments_done d value);
       (lit "response.output_item.done", item_done d value);
       (lit "response.completed", response_over d value);
       (lit "response.incomplete", response_over d value);
       (lit "response.failed", (response_failed value, d));
       (lit "error", (response_failed value, d))]
      ([], d) in
  (start ++ told ++ events, d).
Definition responses_decode_end (d : ResponsesDecoder) : list CanonicalEvent * ResponsesDecoder :=
  let '(events, d) := responses_end_tool d in
  if od_stopped d then (events, d) else (events ++ [StopEvent EndTurn], responses_stopped d).

#[export] Instance responses_decoder : StreamDecoder ResponsesDecoder := {
  sd_new := ResponsesDecoder_default;
  sd_decode d data :=
    match json_from_str data with
    | Some value => let '(events, d) := decode_responses_event d value in (Ok events, d)
    | None => (Err (GatewayErrors.Upstream 502 (lit "the upstream sent a Responses event that is not JSON")), d)
    end;
  sd_finish d := let '(events, d) := responses_decode_end d in (Ok events, d)
}.
End decoder.

(** ** Encoder *)

Record ResponsesEncoder : Type := mkResponsesEncoder {
  oe_model : str;
  oe_sequence : Z;
  oe_id : str;
  oe_output_index : Z;
  oe_tool : ToolCallAccumulator;
  oe_tool_open : bool;
  oe_usage : CanonicalUsage;
  oe_finished : bool
}.
Definition ResponsesEncoder_new (model : str) : ResponsesEncoder :=
  mkResponsesEncoder model 0 [] 0 ToolCallAccumulator_default false CanonicalUsage_default false.

(** The type and the number go after the payload's fields ([Map::insert]). *)
Definition responses_frame (event : string) (fields : list (str * json)) (e : ResponsesEncoder)
  : Written * ResponsesEncoder :=
  ([(Some (lit event),
     JObject (fields ++ [(lit "type", jstr event); (lit "sequence_number", json_u64 (oe_sequence e))]))],
   mkResponsesEncoder (oe_model e) (oe_sequence e + 1) (oe_id e) (oe_output_index e) (oe_tool e) (oe_tool_open e)
     (oe_usage e) (oe_finished e)).

Definition with_call (e : ResponsesEncoder) (t : ToolCallAccumulator) (open : bool) : ResponsesEncoder :=
  mkResponsesEncoder (oe_model e) (oe_sequence e) (oe_id e) (oe_output_index e) t open (oe_usage e) (oe_finished e).
Definition next_output (e : ResponsesEncoder) : ResponsesEncoder :=
  mkResponsesEncoder (oe_model e) (oe_sequence e) (oe_id e) (oe_output_index e + 1) (oe_tool e) (oe_tool_open e)
    (oe_usage e) (oe_finished e).
Definition output_index (e : ResponsesEncoder) : str * json := (lit "output_index", json_u64 (oe_output_index e)).
Definition call_item (id name arguments : str) (status : string) : json :=
  JObject [(lit "id", JString id); (lit "type", jstr "function_call"); (lit "call_id", JString id);
           (lit "name", JString name); (lit "arguments", JString arguments); (lit "status", jstr status)].

Section encoder.
Context `{JsonText, StreamPlatform}.

Definition responses_frames (e : ResponsesEncoder) (event : CanonicalEvent) : Written * ResponsesEncoder :=
  match event with
  | Start id model _ =>
      let id := if is_empty id then lit "resp_" ++ request_fingerprint id else id in
      let e := mkResponsesEncoder (adopt model (oe_model e)) (oe_sequence e) id (oe_output_index e) (oe_tool e)
                 (oe_tool_open e) (oe_usage e) (oe_finished e) in
      responses_frame "response.created"
        [(lit "response", JObject
            [(lit "id", JString (oe_id e)); (lit "object", jstr "response"); (lit "model", JString (oe_model e));
             (lit "status", jstr "in_progress"); (lit "output", JArray [])])] e
  | TextDelta text =>
      let '(added, e) := responses_frame "response.output_item.added"
        [output_index e;
         (lit "item", JObject
            [(lit "id", jstr "msg_0"); (lit "type", jstr "message"); (lit "role", jstr "assistant");
             (lit "status", jstr "in_progress"); (lit "content", JArray [])])] e in
      let '(delta, e) := responses_frame "response.output_text.delta"
        [(lit "item_id", jstr "msg_0"); output_index e; (lit "content_index", json_u64 0);
         (lit "delta", JString text)] e in
      (added ++ delta, e)
  | ReasoningStart =>
      responses_frame "response.output_item.added"
        [output_index e;
         (lit "item", JObject [(lit "id", jstr "rs_0"); (lit "type", jstr "reasoning"); (lit "summary", JArray [])])] e
  | ReasoningDelta text =>
      responses_frame "response.reasoning_summary_text.delta"
        [(lit "item_id", jstr "rs_0"); output_index e; (lit "summary_index", json_u64 0); (lit "delta", JString text)] e
  | ReasoningSignature _ => ([], e)
  | ToolCallStart id name =>
      let e := with_call e (tool_start id name (oe_tool e)) true in
      responses_frame "response.output_item.added"
        [output_index e; (lit "item", call_item id name [] "in_progress")] e
  | ToolCallArgumentsDelta _ fragment =>
      responses_frame "response.function_call_arguments.delta"
        [(lit "item_id", JString (ta_id (oe_tool e))); output_index e; (lit "delta", JString fragment)] e
  | ToolCallEnd id arguments =>
      let e := with_call e (oe_tool e) false in
      let '(told, e) := responses_frame "response.function_call_arguments.done"
        [(lit "item_id", JString id); output_index e; (lit "arguments", JString (json_to_string arguments))] e in
      let '(ended, e) := responses_frame "response.output_item.done"
        [output_index e;
         (lit "item", call_item id (ta_name (oe_tool e)) (json_to_string arguments) "completed")] e in
      (told ++ ended, next_output e)
  | UsageEvent usage =>
      ([], mkResponsesEncoder (oe_model e) (oe_sequence e) (oe_id e) (oe_output_index e) (oe_tool e) (oe_tool_open e)
             usage (oe_finished e))
  | StopEvent reason =>
      let cut := match reason with MaxTokens => true | _ => false end in
      let u := oe_usage e in
      let e := mkResponsesEncoder (oe_model e) (oe_sequence e) (oe_id e) (oe_output_index e) (oe_tool e)
                 (oe_tool_open e) u true in
      responses_frame (if cut then "response.incomplete" else "response.completed")
        [(lit "response", JObject
            [(lit "id", JString (oe_id e)); (lit "object", jstr "response"); (lit "model", JString (oe_model e));
             (lit "status", jstr (if cut then "incomplete" else "completed")); (lit "output", JArray []);
             (lit "usage", JObject
                [(lit "input_tokens", json_u64 (us_input_tokens u));
                 (lit "output_tokens", json_u64 (us_output_tokens u));
                 (lit "total_tokens", json_u64 (CanonicalUsage_total u));
                 (lit "input_tokens_details", JObject [(lit "cached_tokens", json_u64 (us_cached_read_tokens u))]);
                 (lit "output_tokens_details",
                  JObject [(lit "reasoning_tokens", json_u64 (us_reasoning_tokens u))])])])] e
  | ErrorEvent _ message =>
      responses_frame "response.failed"
        [(lit "response", JObject
            [(lit "id", JString (oe_id e)); (lit "status", jstr "failed");
             (lit "error", JObject [(lit "code", jstr "upstream_error"); (lit "message", JString message)])])] e
  end.

#[export] Instance responses_encoder : StreamEncoder ResponsesEncoder := {
  se_new := ResponsesEncoder_new;
  se_encode e event := let '(out, e) := responses_frames e event in (Ok (written out), e);
  se_finish e := (Ok [], e);
  se_keepalive := Some (lit "event: response.in_progress" ++ [LF] ++ lit "data: {" ++ [34%N] ++ lit "type" ++ [34%N]
                        ++ lit ":" ++ [34%N] ++ lit "response.in_progress" ++ [34%N] ++ lit "}" ++ [LF; LF])
}.
End encoder.

(** * Lemmas *)

(** ** What a Responses client learns *)

(** A stop reason through the statuses of a response and back. *)
Definition responses_crossed (s : StopReason) : StopReason := match s with MaxTokens => MaxTokens | _ => EndTurn end.
(** The counters told last before the stop, without what was written to a cache. *)
Definition uncached (u : CanonicalUsage) : CanonicalUsage :=
  mkUsage (us_input_tokens u) (us_output_tokens u) (us_cached_read_tokens u) 0 (us_reasoning_tokens u).
Fixpoint told_last (u : CanonicalUsage) (events : list CanonicalEvent) : CanonicalUsage :=
  match events with
  | [] | StopEvent _ :: _ => u
  | UsageEvent u' :: events => told_last u' events
  | _ :: events => told_last u events
  end.

Definition responses_agree (stage : Stage) (d : ResponsesDecoder) : Prop :=
  match stage with
  | Silent => d = ResponsesDecoder_default
  | Between => od_started d = true /\ od_stopped d = false /\ od_usage d = CanonicalUsage_default /\
      od_tool d = ToolCallAccumulator_default /\ od_tool_open d = false
  | InTool id fragments => od_started d = true /\ od_stopped d = false /\ od_usage d = CanonicalUsage_default /\
      (exists name, od_tool d = mkToolAcc id name fragments) /\ od_tool_open d = true
  | Over => od_started d = true /\ od_stopped d = true /\ od_tool_open d = false
  end.

Section reads.
Context `{JsonText, StreamPlatform}.

(** The id a reply goes under. *)
Definition responses_id (id : str) : str := if is_empty id then lit "resp_" ++ request_fingerprint id else id.

(** The reply said, and the one read back by a client that was promised [model]. *)
Definition responses_mirror (model : str) (stage : Stage) (r r' : ReplyAccumulator) : Prop :=
  match stage with
  | Silent => r = ReplyAccumulator_default /\ r' = ReplyAccumulator_default
  | _ =>
      ra_id r' = responses_id (ra_id r) /\ ra_model r' = adopt (ra_model r) model /\ ra_text r' = ra_text r /\
      ra_reasoning r' = ra_reasoning r /\ ra_tool_calls r' = ra_tool_calls r /\
      ra_stop r' = responses_crossed <$> ra_stop r /\ ra_current_tool r' = ra_current_tool r /\
      match stage with
      | InTool id fragments => exists name, ra_current_tool r = Some (mkCall id name fragments)
      | _ => True
      end
  end.

Definition responses_read (d : ResponsesDecoder) (fs : Written) : list CanonicalEvent * ResponsesDecoder :=
  values_all decode_responses_event d fs.*2.

Lemma responses_read_app d a b :
  responses_read d (a ++ b) =
  ((responses_read d a).1 ++ (responses_read (responses_read d a).2 b).1,
   (responses_read (responses_read d a).2 b).2).
Proof. unfold responses_read. by rewrite fmap_app, values_all_app. Qed.
Lemma read_one d f events d1 : decode_responses_event d f.2 = (events, d1) -> responses_read d [f] = (events, d1).
Proof. unfold responses_read. cbn [fmap list_fmap values_all]. intros ->. by rewrite app_nil_r. Qed.
Lemma read_two d f g events d1 more d2 :
  decode_responses_event d f.2 = (events, d1) -> decode_responses_event d1 g.2 = (more, d2) ->
  responses_read d [f; g] = (events ++ more, d2).
Proof. unfold responses_read. cbn [fmap list_fmap values_all]. intros -> ->. by rewrite app_nil_r. Qed.
Lemma started_says_nothing d : od_started d = true -> note_start d = ([], d).
Proof. unfold note_start. by intros ->. Qed.

(** ** The frames, one by one *)

Lemma read_created e :
  decode_responses_event ResponsesDecoder_default
    (JObject [(lit "response", JObject
       [(lit "id", JString (oe_id e)); (lit "object", jstr "response"); (lit "model", JString (oe_model e));
        (lit "status", jstr "in_progress"); (lit "output", JArray [])]);
       (lit "type", jstr "response.created"); (lit "sequence_number", json_u64 (oe_sequence e))]) =
  ([Start (oe_id e) (oe_model e) CanonicalUsage_default],
   mkResponsesDecoder ToolCallAccumulator_default false CanonicalUsage_default true (oe_id e) (oe_model e) false).
Proof. reflexivity. Qed.
(** After the start an event says what it says. *)
Ltac read_started d := intros Hs; destruct d; cbn in Hs; subst; reflexivity.

Lemma read_message_added d i n :
  od_started d = true ->
  decode_responses_event d
    (JObject [(lit "output_index", i);
              (lit "item", JObject
                 [(lit "id", jstr "msg_0"); (lit "type", jstr "message"); (lit "role", jstr "assistant");
                  (lit "status", jstr "in_progress"); (lit "content", JArray [])]);
              (lit "type", jstr "response.output_item.added"); (lit "sequence_number", n)]) = ([], d).
Proof. read_started d. Qed.
Lemma read_text_delta d i n text :
  od_started d = true ->
  decode_responses_event d
    (JObject [(lit "item_id", jstr "msg_0"); (lit "output_index", i); (lit "content_index", json_u64 0);
              (lit "delta", JString text); (lit "type", jstr "response.output_text.delta"); (lit "sequence_number", n)]) =
  ([TextDelta text], d).
Proof. read_started d. Qed.
Lemma read_reasoning_added d i n :
  od_started d = true ->
  decode_responses_event d
    (JObject [(lit "output_index", i);
              (lit "item", JObject [(lit "id", jstr "rs_0"); (lit "type", jstr "reasoning"); (lit "summary", JArray [])]);
              (lit "type", jstr "response.output_item.added"); (lit "sequence_number", n)]) = ([], d).
Proof. read_started d. Qed.
Lemma read_reasoning_delta d i n text :
  od_started d = true ->
  decode_responses_event d
    (JObject [(lit "item_id", jstr "rs_0"); (lit "output_index", i); (lit "summary_index", json_u64 0);
              (lit "delta", JString text); (lit "type", jstr "response.reasoning_summary_text.delta");
              (lit "sequence_number", n)]) =
  ([ReasoningDelta text], d).
Proof. read_started d. Qed.
Lemma read_call_added d i n id name :
  od_started d = true ->
  decode_responses_event d
    (JObject [(lit "output_index", i); (lit "item", call_item id name [] "in_progress");
              (lit "type", jstr "response.output_item.added"); (lit "sequence_number", n)]) =
  ([ToolCallStart id name], responses_tool d (tool_start id name (od_tool d)) true).
Proof. read_started d. Qed.
Lemma read_call_delta d i n id fragment :
  od_started d = true ->
  decode_responses_event d
    (JObject [(lit "item_id", JString id); (lit "output_index", i); (lit "delta", JString fragment);
              (lit "type", jstr "response.function_call_arguments.delta"); (lit "sequence_number", n)]) =
  ([ToolCallArgumentsDelta (ta_id (od_tool d)) fragment],
   responses_tool d (push_arguments fragment (od_tool d)) (od_tool_open d)).
Proof. read_started d. Qed.
Lemma read_call_done d i n id arguments :
  od_started d = true ->
  decode_responses_event d
    (JObject [(lit "item_id", JString id); (lit "output_index", i); (lit "arguments", JString arguments);
              (lit "type", jstr "response.function_call_arguments.done"); (lit "sequence_number", n)]) =
  ([], if json_same (tool_arguments (od_tool d)) (parse_arguments (JString arguments)) then d
       else responses_tool d (mkToolAcc [] [] arguments) (od_tool_open d)).
Proof.
  intros Hs. transitivity (let '(start, d) := note_start d in
    let '(events, d) :=
      (if json_same (tool_arguments (od_tool d)) (parse_arguments (JString arguments)) then ([], d)
       else ([], responses_tool d (mkToolAcc [] [] arguments) (od_tool_open d))) in (start ++ [] ++ events, d)).
  - reflexivity.
  - rewrite started_says_nothing by done. by destruct (json_same _ _).
Qed.
Lemma read_call_item_done d i n id name arguments :
  od_started d = true ->
  decode_responses_event d
    (JObject [(lit "output_index", i); (lit "item", call_item id name arguments "completed");
              (lit "type", jstr "response.output_item.done"); (lit "sequence_number", n)]) =
  responses_end_tool d.
Proof.
  intros Hs. transitivity (let '(start, d) := note_start d in
    let '(events, d) := responses_end_tool d in (start ++ [] ++ events, d)).
  - reflexivity.
  - rewrite started_says_nothing by done. by destruct (responses_end_tool d).
Qed.
Lemma read_failed d n id message :
  od_started d = true ->
  exists d1, decode_responses_event d
    (JObject [(lit "response", JObject
                 [(lit "id", JString id); (lit "status", jstr "failed");
                  (lit "error", JObject [(lit "code", jstr "upstream_error"); (lit "message", JString message)])]);
              (lit "type", jstr "response.failed"); (lit "sequence_number", n)]) = ([ErrorEvent 502 message], d1) /\
    d1 = mkResponsesDecoder (od_tool d) (od_tool_open d) (od_usage d) true id (od_model d) (od_stopped d).
Proof. intros Hs. eexists. split; [|reflexivity]. destruct d. cbn in Hs. subst. reflexivity. Qed.

Lemma read_over d e reason :
  od_started d = true -> od_stopped d = false -> usage_fits (oe_usage e) ->
  let usage := CanonicalUsage_merge (od_usage d) (uncached (oe_usage e)) in
  responses_read d (responses_frames e (StopEvent reason)).1 =
  ([UsageEvent usage; StopEvent (responses_crossed reason)],
   mkResponsesDecoder (od_tool d) (od_tool_open d) usage true (oe_id e) (oe_model e) true).
Proof.
  intros Hs Ht (H1 & H2 & H3 & _ & H5) usage. apply read_one. destruct d as [tool open us st id model stopped].
  cbn in Hs, Ht. subst. unfold usage, uncached. cbn [od_usage].
  set (U i o c r := CanonicalUsage_merge us (mkUsage (default 0%Z (json_as_u64 i)) (default 0%Z (json_as_u64 o))
                                               (default 0%Z (json_as_u64 c)) 0 (default 0%Z (json_as_u64 r)))).
  transitivity
   (let usage := U (json_u64 (us_input_tokens (oe_usage e))) (json_u64 (us_output_tokens (oe_usage e)))
                   (json_u64 (us_cached_read_tokens (oe_usage e))) (json_u64 (us_reasoning_tokens (oe_usage e))) in
    ([UsageEvent usage; StopEvent (responses_crossed reason)],
     mkResponsesDecoder tool open usage true (oe_id e) (oe_model e) true)).
  - destruct reason; reflexivity.
  - unfold U. by rewrite !as_u64_of_u64.
Qed.

(** ** Good frames *)

Ltac responses_good := cbn [fst snd responses_frame app];
  lazymatch goal with
  | |- Forall _ [] => apply List.Forall_nil
  | |- Forall _ _ =>
      apply Forall_cons; split;
        [split; [unfold output_index, call_item, jstr; cbn [snd app]; json_plain; try done
                |intros x [= <-]; split; apply (bool_decide_unpack _); by vm_compute]
        |responses_good]
  end.

(** What an event's frames need of the counters, and what they do to them. *)
Definition responses_step_ok (e : ResponsesEncoder) (step : Written * ResponsesEncoder) : Prop :=
  Forall frame_ok step.1 /\ usage_fits (oe_usage step.2) /\
  (oe_sequence step.2 = oe_sequence e + Z.of_nat (length step.1))%Z /\ length step.1 <= 2 /\
  (oe_output_index e <= oe_output_index step.2 <= oe_output_index e + 1)%Z.

Lemma total_range u : usage_fits u -> in_u64 (CanonicalUsage_total u).
Proof. intros (H1 & H2 & H3 & H4 & H5). unfold CanonicalUsage_total. by repeat apply u64_saturating_add_range. Qed.

Lemma responses_frames_ok e event :
  in_u64 (oe_sequence e) -> in_u64 (oe_sequence e + 1) -> in_u64 (oe_output_index e) -> usage_fits (oe_usage e) ->
  event_fits event -> responses_step_ok e (responses_frames e event).
Proof.
  assert (Hz : in_u64 0) by int_lia.
  intros H1 H2 H3 Hu Hf. pose proof (total_range _ Hu). pose proof Hu as (U1 & U2 & U3 & U4 & U5).
  unfold responses_step_ok. destruct event; cbn [responses_frames];
    (split; [|cbn; split_and!; done || lia]); try responses_good.
  destruct reason; responses_good.
Qed.

Lemma responses_all_ok events e :
  Forall event_fits events -> usage_fits (oe_usage e) -> (0 <= oe_sequence e)%Z -> (0 <= oe_output_index e)%Z ->
  (oe_sequence e + 2 * Z.of_nat (length events) < u64_max)%Z ->
  (oe_output_index e + Z.of_nat (length events) < u64_max)%Z ->
  Forall frame_ok (frames_all responses_frames e events).1.
Proof.
  intros Hf. revert e. induction Hf as [|event events Hf _ IH]; intros e Hu H1 H2 H3 H4; cbn [frames_all length] in *;
    [constructor|].
  destruct (responses_frames_ok e event) as (Ho & Hu' & Hs & Hl & Hi); [int_lia..|done|done|].
  destruct (responses_frames e event) as [out e']. cbn [fst snd] in *.
  specialize (IH e' Hu' ltac:(lia) ltac:(lia) ltac:(lia) ltac:(lia)).
  destruct (frames_all responses_frames e' events) as [more e'']. by apply Forall_app.
Qed.

(** ** Step by step *)

(** One event sent and read back. *)
Definition responses_step_agrees (stage stage' : Stage) (e : ResponsesEncoder) (d : ResponsesDecoder)
    (event : CanonicalEvent) : Prop :=
  let '(fs, e') := responses_frames e event in
  let '(back, d') := responses_read d fs in
  responses_agree stage' d' /\
  (forall model r r', (stage = Silent -> oe_model e = model) ->
     responses_mirror model stage r r' ->
     responses_mirror model stage' (reply_apply r event) (foldl reply_apply r' back)) /\
  (forall r', ra_usage r' = od_usage d -> ra_usage (foldl reply_apply r' back) = od_usage d').

(** Both replies grow by the same pieces. *)
Ltac responses_alike :=
  intros model r r' _ M; cbn [responses_mirror app foldl reply_apply ra_id ra_model ra_text ra_reasoning ra_tool_calls
    ra_stop ra_open_reasoning ra_current_tool] in M |- *;
  destruct_and? M; split_and?; congruence || done.

Lemma responses_start_agrees e d id model usage :
  responses_agree Silent d -> responses_step_agrees Silent Between e d (Start id model usage).
Proof.
  intros ->. unfold responses_step_agrees. cbn [responses_frames].
  set (e1 := mkResponsesEncoder _ _ _ _ _ _ _ _). cbn [responses_frame fst snd].
  erewrite read_one by apply read_created. cbn [foldl]. split_and!; try done.
  - intros m r r' Hm [-> ->]. cbn. rewrite Hm by done. rewrite !adopt_nil_r. split_and!; done.
  - intros r' Hr'. cbn. by rewrite Hr'.
Qed.

Lemma responses_text_agrees e d text :
  responses_agree Between d -> responses_step_agrees Between Between e d (TextDelta text).
Proof.
  intros Ha. pose proof (proj1 Ha) as Hs. unfold responses_step_agrees. cbn [responses_frames responses_frame].
  cbn [app]. erewrite read_two; [|by apply read_message_added|by apply read_text_delta].
  split_and!; try done. responses_alike.
Qed.
Lemma responses_reasoning_agrees e d text :
  responses_agree Between d -> responses_step_agrees Between Between e d (ReasoningDelta text).
Proof.
  intros Ha. pose proof (proj1 Ha) as Hs. unfold responses_step_agrees. cbn [responses_frames responses_frame].
  erewrite read_one by by apply read_reasoning_delta. split_and!; try done. responses_alike.
Qed.
Lemma responses_silence_agrees stage e d event :
  responses_agree stage d -> stage <> Silent ->
  match event with
  | ReasoningStart | ReasoningSignature _ | UsageEvent _ | ErrorEvent _ _ => True
  | _ => False
  end ->
  responses_step_agrees stage stage e d event.
Proof.
  intros Ha Hs He. assert (Hd : od_started d = true) by (destruct stage; [done|apply Ha..]).
  unfold responses_step_agrees. destruct event; try done; cbn [responses_frames responses_frame].
  - erewrite read_one by by apply read_reasoning_added. cbn [foldl]; split_and!; by destruct stage.
  - cbn [foldl]; split_and!; by destruct stage.
  - destruct (read_failed d (json_u64 (oe_sequence e)) (oe_id e) message Hd) as (d1 & E & ->).
    erewrite read_one by exact E. cbn [foldl]. split_and!; [|by destruct stage..].
    destruct stage; [done|..]; unfold responses_agree in Ha |- *; destruct_and? Ha; by split_and?.
Qed.

Lemma responses_call_start_agrees e d id name :
  responses_agree Between d -> responses_step_agrees Between (InTool id []) e d (ToolCallStart id name).
Proof.
  intros (H1 & H2 & H3 & H4 & H5). unfold responses_step_agrees. cbn [responses_frames responses_frame].
  erewrite read_one by by apply read_call_added. rewrite H4. unfold tool_start. cbn.
  rewrite !adopt_nil_r. split_and!; try done; [by exists name|].
  intros model r r' _ (M1 & M2 & M3 & M4 & M5 & M6 & M7 & _). split_and!; try done. by exists name.
Qed.
Lemma responses_call_delta_agrees e d id fragments id' fragment :
  responses_agree (InTool id fragments) d ->
  responses_step_agrees (InTool id fragments) (InTool id (fragments ++ fragment)) e d (ToolCallArgumentsDelta id' fragment).
Proof.
  intros (H1 & H2 & H3 & (name & H4) & H5). unfold responses_step_agrees. cbn [responses_frames responses_frame].
  erewrite read_one by by apply read_call_delta. rewrite H4. unfold push_arguments. cbn.
  split_and!; try done; [by exists name|].
  intros model r r' _ (M1 & M2 & M3 & M4 & M5 & M6 & M7 & name' & M8). rewrite M7, M8.
  split_and!; try done. by exists name'.
Qed.
(** The done event may replace what the deltas said; a call without arguments
    has the empty object either way. *)
Lemma responses_call_end_agrees `{!JsonTextLaws} e d id fragments arguments :
  responses_agree (InTool id fragments) d ->
  negb (is_empty (trim fragments)) || match arguments with JObject [] => true | _ => false end = true ->
  responses_step_agrees (InTool id fragments) Between e d (ToolCallEnd id arguments).
Proof.
  intros (A1 & A2 & A3 & (name & A4) & A5) Harg. unfold responses_step_agrees. cbn [responses_frames responses_frame].
  set (text := json_to_string arguments). cbn [app].
  set (d1 := if json_same (tool_arguments (od_tool d)) (parse_arguments (JString text)) then d
             else responses_tool d (mkToolAcc [] [] text) (od_tool_open d)).
  assert (Hd : od_started d1 = true /\ od_stopped d1 = false /\ od_usage d1 = CanonicalUsage_default /\
    od_tool_open d1 = true /\ (ta_id (od_tool d1) = id \/ ta_id (od_tool d1) = []) /\
    (is_empty (trim fragments) = true -> tool_arguments (od_tool d1) = JObject [])).
  { unfold d1. destruct (json_same _ _); cbn; [rewrite A4|]; (split_and!; [done..|by auto|]); intros E; unfold tool_arguments;
      cbn -[trim]; [by rewrite E|]. rewrite E in Harg. destruct arguments as [| | | | |[|]]; try done.
    unfold text. destruct (is_empty (trim (json_to_string (JObject [])))); [done|].
    by rewrite json_parses by by (split; [constructor|]). }
  destruct Hd as (D1 & D2 & D3 & D4 & D5 & D6).
  erewrite read_two; [|by apply read_call_done
    |fold d1; etransitivity; [by apply read_call_item_done|]; unfold responses_end_tool; rewrite D4; reflexivity].
  cbn [app]. split_and!; try done; [|intros r' Hr; cbn; by rewrite Hr, D3].
  intros model r r' _ (M1 & M2 & M3 & M4 & M5 & M6 & M7 & name' & M8). rewrite M8 in M7.
  cbn -[trim]. rewrite M7, M8, M5. cbn -[trim]. split_and!; try done. do 3 f_equal.
  - destruct D5 as [-> | ->]; by destruct id.
  - destruct (is_empty (trim fragments)) eqn:E; [|done]. rewrite D6 by done. cbn in Harg.
    by destruct arguments as [| | | | |[|]].
Qed.

Lemma responses_stop_agrees e d reason :
  responses_agree Between d -> usage_fits (oe_usage e) ->
  responses_step_agrees Between Over e d (StopEvent reason) /\
  od_usage (responses_read d (responses_frames e (StopEvent reason)).1).2 = uncached (oe_usage e).
Proof.
  intros (H1 & H2 & H3 & H4 & H5) Hu. unfold responses_step_agrees.
  pose proof (read_over d e reason H1 H2 Hu) as Hr. destruct (responses_frames e (StopEvent reason)) as [fs e'].
  cbn [fst] in Hr |- *. rewrite Hr, H3. destruct Hu as (U1 & U2 & U3 & U4 & U5).
  assert (Hm : CanonicalUsage_merge CanonicalUsage_default (uncached (oe_usage e)) = uncached (oe_usage e)).
  { unfold CanonicalUsage_merge. cbn. unfold uncached. f_equal; int_lia. }
  rewrite Hm. split; [|done]. split; [by split_and?|]. split.
  - responses_alike.
  - intros r' Hr'. cbn [foldl reply_apply ra_usage od_usage]. by rewrite Hr'.
Qed.

(** Every step of an orderly reply. *)
Lemma orderly_responses_agrees `{!JsonTextLaws} stage stage' e d event :
  orderly_step stage event = Some stage' -> responses_agree stage d -> usage_fits (oe_usage e) ->
  responses_step_agrees stage stage' e d event.
Proof.
  intros Ho Ha Hu. destruct stage, event; cbn in Ho; try discriminate Ho;
    try (injection Ho as <-; by apply responses_silence_agrees).
  - injection Ho as <-. by apply responses_start_agrees.
  - injection Ho as <-. by apply responses_text_agrees.
  - injection Ho as <-. by apply responses_reasoning_agrees.
  - destruct (is_empty id && is_empty name); [done|]. injection Ho as <-. by apply responses_call_start_agrees.
  - injection Ho as <-. by apply responses_stop_agrees.
  - injection Ho as <-. by apply responses_call_delta_agrees.
  - case_bool_decide as Hid; [|done]. subst. cbn [andb] in Ho.
    destruct (negb (is_empty (trim fragments)) || _) eqn:E; [|done]. injection Ho as <-.
    by apply responses_call_end_agrees.
Qed.

(** The counters the client will have been told once the rest is said. *)
Definition responses_told (stage : Stage) (e : ResponsesEncoder) (d : ResponsesDecoder)
    (events : list CanonicalEvent) : CanonicalUsage :=
  match stage with Over => od_usage d | _ => uncached (told_last (oe_usage e) events) end.
Lemma responses_told_step stage stage' e d event events :
  orderly_step stage event = Some stage' -> responses_agree stage d -> usage_fits (oe_usage e) ->
  responses_told stage e d (event :: events) =
  responses_told stage' (responses_frames e event).2 (responses_read d (responses_frames e event).1).2 events.
Proof.
  intros Ho Ha Hu. destruct stage, event; cbn in Ho; try discriminate Ho; try (injection Ho as <-; done).
  - destruct (is_empty id && is_empty name); [done|]. by injection Ho as <-.
  - injection Ho as <-. destruct (responses_stop_agrees e d reason Ha Hu) as [_ Hs]. symmetry. exact Hs.
  - destruct (bool_decide _ && _); [|done]. by injection Ho as <-.
  - injection Ho as <-. destruct Ha as (Hs & _).
    destruct (read_failed d (json_u64 (oe_sequence e)) (oe_id e) message Hs) as (d1 & E & ->).
    cbn [responses_frames responses_frame fst snd]. by erewrite read_one by exact E.
Qed.

Lemma responses_simulation `{!JsonTextLaws} events stage e d r r' model :
  orderly stage events = true -> Forall event_fits events -> responses_agree stage d -> usage_fits (oe_usage e) ->
  (0 <= oe_sequence e)%Z -> (0 <= oe_output_index e)%Z ->
  (oe_sequence e + 2 * Z.of_nat (length events) < u64_max)%Z ->
  (oe_output_index e + Z.of_nat (length events) < u64_max)%Z ->
  (stage = Silent -> oe_model e = model) -> responses_mirror model stage r r' -> ra_usage r' = od_usage d ->
  let sent := frames_all responses_frames e events in
  let back := responses_read d sent.1 in
  responses_agree Over back.2 /\ responses_mirror model Over (foldl reply_apply r events) (foldl reply_apply r' back.1) /\
  ra_usage (foldl reply_apply r' back.1) = responses_told stage e d events.
Proof.
  intros Ho Hf. revert stage e d r r' Ho.
  induction Hf as [|event events Hf _ IH]; intros stage e d r r' Ho Ha Hu P1 P2 P3 P4 Hm Hr Hus; cbn [frames_all].
  - by destruct stage.
  - cbn [orderly] in Ho. destruct (orderly_step stage event) as [stage'|] eqn:Est; [|done]. cbn [length] in P3, P4.
    pose proof (orderly_responses_agrees stage stage' e d event Est Ha Hu) as Hstep. unfold responses_step_agrees in Hstep.
    rewrite (responses_told_step stage stage' e d event events Est Ha Hu).
    destruct (responses_frames_ok e event) as (_ & Hu' & Hs & Hl & Hi); [int_lia..|done|done|].
    assert (Hns : stage' = Silent -> oe_model (responses_frames e event).2 = model).
    { intros ->. destruct stage, event; cbn in Est; try discriminate Est; repeat case_match; discriminate Est. }
    destruct (responses_frames e event) as [out e']. cbn [fst snd] in *.
    destruct (responses_read d out) as [back d'] eqn:Eb. destruct Hstep as (Ha' & Hr' & Hus'). cbn [snd].
    specialize (IH stage' e' d' (reply_apply r event) (foldl reply_apply r' back) Ho Ha' Hu'
      ltac:(lia) ltac:(lia) ltac:(lia) ltac:(lia) Hns (Hr' model r r' Hm Hr) (Hus' r' Hus)).
    destruct (frames_all responses_frames e' events) as [more e'']. cbn [fst snd foldl] in *.
    rewrite responses_read_app, Eb. cbn [fst snd]. rewrite foldl_app. exact IH.
Qed.

(** ** A reply through the Responses stream *)

(** The whole exchange, frame by frame. *)
Lemma responses_read_written `{!JsonTextLaws} (model : str) (events : list CanonicalEvent) :
  orderly Silent events = true -> Forall event_fits events -> (2 * Z.of_nat (length events) < u64_max)%Z ->
  exists back,
    read_reply (T := ResponsesDecoder) (write_reply (T := ResponsesEncoder) model events) = Ok back /\
    responses_mirror model Over (reply_of events) (reply_of back) /\
    ra_usage (reply_of back) = uncached (told_last CanonicalUsage_default events).
Proof.
  intros Ho Hf Hl. assert (Hz : usage_fits CanonicalUsage_default) by (repeat split; cbn; int_lia).
  pose proof (responses_all_ok events (ResponsesEncoder_new model) Hf Hz) as Hg.
  destruct (responses_simulation events Silent (ResponsesEncoder_new model) ResponsesDecoder_default
    ReplyAccumulator_default ReplyAccumulator_default model Ho Hf) as (Ha & Hm & Hu); [done || (cbn; lia)..|].
  cbn [responses_told oe_usage ResponsesEncoder_new] in Hu.
  specialize (Hg ltac:(done) ltac:(done) ltac:(cbn; lia) ltac:(cbn; lia)).
  eexists. split.
  - apply (read_written responses_frames (fun _ => []) decode_responses_event (fun d => (responses_decode_end d).1)).
    + intros e event. cbn [se_encode responses_encoder]. by destruct (responses_frames e event).
    + done.
    + intros d v Hv. cbn [sd_decode responses_decoder]. rewrite json_parses by done.
      by destruct (decode_responses_event d v).
    + intros d. cbn [sd_finish responses_decoder]. by destruct (responses_decode_end d).
    + by rewrite app_nil_r.
  - cbn [se_new responses_encoder sd_new responses_decoder]. rewrite app_nil_r. unfold responses_read in *.
    destruct (values_all decode_responses_event ResponsesDecoder_default _) as [back d]. cbn [fst snd] in *.
    assert (Hd : (responses_decode_end d).1 = []).
    { destruct Ha as (_ & Hs & Ht). unfold responses_decode_end, responses_end_tool. by rewrite Ht, Hs. }
    by rewrite Hd, app_nil_r.
Qed.

(** C19. An orderly reply written for a Responses client and read back keeps its
    id (one is made up when there is none), model, text, reasoning and every
    tool call with its arguments, and the counters told last before the stop
    without what was written to a cache.  Its stop reason says whether the reply
    was cut and nothing else: a reply that asked for tools comes back as one
    that ended its turn. *)
Theorem reply_survives_the_responses_stream `{!JsonTextLaws} (model : str) (events : list CanonicalEvent) :
  orderly Silent events = true -> Forall event_fits events -> (2 * Z.of_nat (length events) < u64_max)%Z ->
  exists back,
    read_reply (T := ResponsesDecoder) (write_reply (T := ResponsesEncoder) model events) = Ok back /\
    let said := reply_of events in
    let heard := reply_of back in
    ra_id heard = responses_id (ra_id said) /\ ra_model heard = adopt (ra_model said) model /\
    ra_text heard = ra_text said /\ ra_reasoning heard = ra_reasoning said /\
    ra_tool_calls heard = ra_tool_calls said /\ ra_stop heard = responses_crossed <$> ra_stop said /\
    ra_usage heard = uncached (told_last CanonicalUsage_default events).
Proof.
  intros Ho Hf Hl. destruct (responses_read_written model events Ho Hf Hl) as (back & Hr & Hm & Hu).
  exists back. cbn [responses_mirror] in Hm. destruct_and? Hm. by split_and!.
Qed.

(** ** The numbers of the frames *)

(** Whatever is said, in whatever order, the frames are numbered one by one
    from the first. *)
Fixpoint numbered_from (n : Z) (fs : Written) : bool :=
  match fs with
  | [] => true
  | f :: fs => bool_decide (uint_field f.2 (lit "sequence_number") = Some n) && numbered_from (n + 1) fs
  end.
Lemma numbered_from_app n a b :
  numbered_from n (a ++ b) = numbered_from n a && numbered_from (n + Z.of_nat (length a)) b.
Proof.
  revert n. induction a as [|f a IH]; intros n; cbn [app numbered_from length]; [by rewrite Z.add_0_r|].
  rewrite IH, <- andb_assoc. do 3 f_equal. lia.
Qed.
Lemma frame_number event fields e :
  in_u64 (oe_sequence e) -> forallb (fun f => negb (bool_decide (f.1 = lit "sequence_number"))) fields = true ->
  numbered_from (oe_sequence e) (responses_frame event fields e).1 = true.
Proof.
  intros Hi Hf. cbn [responses_frame fst numbered_from]. rewrite andb_true_r. apply bool_decide_eq_true_2.
  transitivity (json_as_u64 (json_u64 (oe_sequence e))); [|by apply as_u64_of_u64]. unfold uint_field. cbn [snd].
  enough (json_get (lit "sequence_number")
    (JObject (fields ++ [(lit "type", jstr event); (lit "sequence_number", json_u64 (oe_sequence e))])) =
    Some (json_u64 (oe_sequence e))) as -> by done.
  induction fields as [|[k v] fields IH]; [reflexivity|]. cbn [forallb fst] in Hf. apply andb_prop in Hf as [Hk Hf].
  cbn [app]. rewrite json_get_cons. destruct (bool_decide_reflect (k = lit "sequence_number")); [done|].
  by apply IH.
Qed.
Lemma frame_counts event fields e out e' :
  responses_frame event fields e = (out, e') -> in_u64 (oe_sequence e) ->
  forallb (fun f => negb (bool_decide (f.1 = lit "sequence_number"))) fields = true ->
  numbered_from (oe_sequence e) out = true /\ length out = 1 /\ oe_sequence e' = (oe_sequence e + 1)%Z.
Proof. intros E Hi Hf. pose proof (frame_number event fields e Hi Hf) as Hn. rewrite E in Hn. by injection E as <- <-. Qed.

Lemma step_numbers e event :
  in_u64 (oe_sequence e) -> in_u64 (oe_sequence e + 1) ->
  numbered_from (oe_sequence e) (responses_frames e event).1 = true /\
  oe_sequence (responses_frames e event).2 = (oe_sequence e + Z.of_nat (length (responses_frames e event).1))%Z /\
  length (responses_frames e event).1 <= 2.
Proof.
  intros H1 H2. split; [|destruct event; cbn; lia].
  destruct event; cbn [responses_frames]; try reflexivity;
    try match goal with
    | |- numbered_from _ (responses_frame ?event ?fields ?e).1 = true => exact (frame_number event fields e H1 eq_refl)
    end.
  - match goal with |- context [let '(_, _) := ?step in _] => destruct step as [out e1] eqn:E1 end.
    match goal with |- context [let '(_, _) := ?step in _] => destruct step as [more e2] eqn:E2 end.
    apply frame_counts in E1 as (N1 & L1 & S1); [|done..]. cbn [fst].
    apply frame_counts in E2 as (N2 & L2 & S2); [|by rewrite S1|done].
    rewrite numbered_from_app, N1, L1. change (Z.of_nat 1) with 1%Z. by rewrite <- S1, N2.
  - match goal with |- context [let '(_, _) := ?step in _] => destruct step as [out e1] eqn:E1 end.
    match goal with |- context [let '(_, _) := ?step in _] => destruct step as [more e2] eqn:E2 end.
    apply frame_counts in E1 as (N1 & L1 & S1); [|done..]. cbn [fst with_call oe_sequence] in *.
    apply frame_counts in E2 as (N2 & L2 & S2); [|by rewrite S1|done].
    rewrite numbered_from_app, N1, L1. change (Z.of_nat 1) with 1%Z. by rewrite <- S1, N2.
Qed.

Lemma all_numbers events e :
  (0 <= oe_sequence e)%Z -> (oe_sequence e + 2 * Z.of_nat (length events) < u64_max)%Z ->
  numbered_from (oe_sequence e) (frames_all responses_frames e events).1 = true.
Proof.
  revert e. induction events as [|event events IH]; intros e H1 Hl; cbn [frames_all length] in *; [done|].
  destruct (step_numbers e event) as (Hn & Hs & Hc); [int_lia..|].
  destruct (responses_frames e event) as [out e']. cbn [fst snd] in *. specialize (IH e' ltac:(lia) ltac:(lia)).
  destruct (frames_all responses_frames e' events) as [more e'']. cbn [fst] in *.
  by rewrite numbered_from_app, Hn, <- Hs, IH.
Qed.

(** Whatever is said, in whatever order, a client receives frames numbered one
    by one from zero. *)
Theorem responses_frames_are_numbered (model : str) (events : list CanonicalEvent) :
  (2 * Z.of_nat (length events) < u64_max)%Z ->
  numbered_from 0 (frames_all responses_frames (ResponsesEncoder_new model) events).1 = true.
Proof. intros Hl. by apply (all_numbers events (ResponsesEncoder_new model)). Qed.
End reads.
