(* ===== verification/AutomationGraph.v ===== *)
(** Automation graphs: the records of crates/core/src/automation_graph.rs, the
    graph half of the repository of crates/db/src/lib.rs
    (AutomationGraphRepository) and the order the runner of
    crates/agent/src/automation.rs executes a graph in (topological_order,
    validate_graph_for_runtime).  A graph is stored in three tables; a row of
    the graph table is a graph without nodes and edges. *)
From stdpp Require Import prelude strings list gmap relations.
From Stdlib Require Import NArith ZArith Lia Permutation.
From S2P Require Import Prelude CoreTypes Storage.

(** ** Records (core/src/automation_graph.rs, core/src/permission.rs) *)

Inductive AutomationGraphStatus : Type := GraphActive | GraphPaused | GraphDeleted.
#[export] Instance AutomationGraphStatus_eq_dec : EqDecision AutomationGraphStatus.
Proof. solve_decision. Defined.

Inductive AutomationGraphTrigger : Type :=
| ManualTrigger
| ScheduledTaskTrigger (scheduled_task_id : ident).

Inductive AutomationNodeKind : Type :=
| KindAgentPrompt | KindApprovalGate | KindFileCheck | KindGitCheck | KindTerminalCheck.

Inductive PermissionRiskCategory : Type :=
| RiskCommand | RiskFileReadSensitive | RiskFileWrite | RiskFileDeleteOrMove | RiskNetwork
| RiskGitDestructive | RiskProviderConfigExport | RiskCustomTool.
Inductive PermissionResponseKind : Type := Approve | Deny | AlwaysAllowForSession.

Record AutomationAgentPromptConfig : Type := mkAgentPrompt {
  ap_prompt_template : str;
  ap_provider_kind : option ProviderKind;
  ap_provider_profile_id : option ident;
  ap_safety : option AgentSessionSafety;
  ap_workspace_root : option str;
  ap_workspace_mode : option WorkspaceMode
}.
Record AutomationApprovalGateConfig : Type := mkApprovalGate {
  gt_title : str;
  gt_details : str;
  gt_risk_category : PermissionRiskCategory;
  gt_allowed_responses : list PermissionResponseKind
}.
Inductive AutomationNodeConfig : Type :=
| AgentPrompt (config : AutomationAgentPromptConfig)
| ApprovalGate (config : AutomationApprovalGateConfig)
| FileCheck (path_pattern condition : str)
| GitCheck (condition : str) (path_pattern : option str)
| TerminalCheck (command_preview condition : str).

Record AutomationNode : Type := mkNode {
  nd_id : ident;
  nd_graph_id : ident;
  nd_kind : AutomationNodeKind;
  nd_title : str;
  nd_config : AutomationNodeConfig;
  nd_position : option (Z * Z);
  nd_created_at_ms : Z;
  nd_updated_at_ms : Z
}.

Inductive AutomationEdgeConditionKind : Type := Always | OnSuccess | OnFailure | OnApproval.
Record AutomationEdgeCondition : Type := mkEdgeCondition {
  co_kind : AutomationEdgeConditionKind;
  co_expression : option str
}.
Record AutomationEdge : Type := mkEdge {
  ed_id : ident;
  ed_graph_id : ident;
  ed_source_node_id : ident;
  ed_target_node_id : ident;
  ed_condition : AutomationEdgeCondition;
  ed_created_at_ms : Z;
  ed_updated_at_ms : Z
}.

Record AutomationGraph : Type := mkGraph {
  gr_id : ident;
  gr_title : str;
  gr_description : option str;
  gr_project_id : option ident;
  gr_workspace_id : option ident;
  gr_workspace_root : str;
  gr_workspace_mode : WorkspaceMode;
  gr_provider_kind : option ProviderKind;
  gr_provider_profile_id : option ident;
  gr_trigger : AutomationGraphTrigger;
  gr_status : AutomationGraphStatus;
  gr_version : Z;
  gr_nodes : list AutomationNode;
  gr_edges : list AutomationEdge;
  gr_created_at_ms : Z;
  gr_updated_at_ms : Z;
  gr_deleted_at_ms : option Z
}.

Record AutomationNodeCreateRequest : Type := mkNodeCreate {
  nc_id : option ident;
  nc_kind : AutomationNodeKind;
  nc_title : str;
  nc_config : AutomationNodeConfig;
  nc_position : option (Z * Z)
}.
Record AutomationEdgeCreateRequest : Type := mkEdgeCreate {
  ec_source_node_id : ident;
  ec_target_node_id : ident;
  ec_condition : AutomationEdgeCondition
}.
Record AutomationGraphCreateRequest : Type := mkGraphCreate {
  gc_title : str;
  gc_description : option str;
  gc_project_id : option ident;
  gc_workspace_id : option ident;
  gc_workspace_root : str;
  gc_workspace_mode : WorkspaceMode;
  gc_provider_kind : option ProviderKind;
  gc_provider_profile_id : option ident;
  gc_trigger : AutomationGraphTrigger;
  gc_nodes : list AutomationNodeCreateRequest;
  gc_edges : list AutomationEdgeCreateRequest
}.
Record AutomationGraphUpdateRequest : Type := mkGraphUpdate {
  gu_id : ident;
  gu_title : option str;
  gu_description : option str;
  gu_clear_description : bool;
  gu_project_id : option ident;
  gu_clear_project_id : bool;
  gu_workspace_id : option ident;
  gu_clear_workspace_id : bool;
  gu_workspace_root : option str;
  gu_workspace_mode : option WorkspaceMode;
  gu_provider_kind : option ProviderKind;
  gu_clear_provider_kind : bool;
  gu_provider_profile_id : option ident;
  gu_clear_provider_profile_id : bool;
  gu_trigger : option AutomationGraphTrigger;
  gu_status : option AutomationGraphStatus
}.
Record AutomationGraphListRequest : Type := mkGraphList {
  gl_workspace_id : option ident;
  gl_status : option AutomationGraphStatus;
  gl_include_deleted : bool;
  gl_limit : option Z
}.

(** ** The tables *)

(** Rows by primary key, and the wall clock ([unix_timestamp_ms()]). *)
Record GraphDb : Type := mkGraphDb {
  gd_graphs : gmap ident AutomationGraph;
  gd_nodes : gmap ident AutomationNode;
  gd_edges : gmap ident AutomationEdge;
  gd_clock : Z
}.
Abbreviation graph_call := (db_call GraphDb).

Definition AutomationGraphId : id_kind := mkIdKind "AutomationGraphId" "automation_graph".
Definition AutomationNodeId : id_kind := mkIdKind "AutomationNodeId" "automation_node".
Definition AutomationEdgeId : id_kind := mkIdKind "AutomationEdgeId" "automation_edge".

(** A graph with other nodes and edges. *)
Definition graph_with (g : AutomationGraph) (nodes : list AutomationNode) (edges : list AutomationEdge)
  : AutomationGraph :=
  {| gr_id := gr_id g; gr_title := gr_title g; gr_description := gr_description g;
     gr_project_id := gr_project_id g; gr_workspace_id := gr_workspace_id g;
     gr_workspace_root := gr_workspace_root g; gr_workspace_mode := gr_workspace_mode g;
     gr_provider_kind := gr_provider_kind g; gr_provider_profile_id := gr_provider_profile_id g;
     gr_trigger := gr_trigger g; gr_status := gr_status g; gr_version := gr_version g;
     gr_nodes := nodes; gr_edges := edges; gr_created_at_ms := gr_created_at_ms g;
     gr_updated_at_ms := gr_updated_at_ms g; gr_deleted_at_ms := gr_deleted_at_ms g |}.
Definition graph_row (g : AutomationGraph) : AutomationGraph := graph_with g [] [].

Definition put_graph (g : AutomationGraph) (db : GraphDb) : GraphDb :=
  mkGraphDb (<[gr_id g := graph_row g]> (gd_graphs db)) (gd_nodes db) (gd_edges db) (gd_clock db).
Definition put_node (n : AutomationNode) (db : GraphDb) : GraphDb :=
  mkGraphDb (gd_graphs db) (<[nd_id n := n]> (gd_nodes db)) (gd_edges db) (gd_clock db).
Definition put_edge (e : AutomationEdge) (db : GraphDb) : GraphDb :=
  mkGraphDb (gd_graphs db) (gd_nodes db) (<[ed_id e := e]> (gd_edges db)) (gd_clock db).

Definition insert_automation_graph : AutomationGraph -> graph_call unit :=
  insert_row gd_graphs gr_id put_graph
    (VibexError_storage (lit "automation_graph_insert_failed") (lit "failed to insert automation graph")).
Definition insert_automation_node : AutomationNode -> graph_call unit :=
  insert_row gd_nodes nd_id put_node
    (VibexError_storage (lit "automation_node_insert_failed")
       (lit "failed to insert automation graph node")).
Definition insert_automation_edge : AutomationEdge -> graph_call unit :=
  insert_row gd_edges ed_id put_edge
    (VibexError_storage (lit "automation_edge_insert_failed")
       (lit "failed to insert automation graph edge")).
Definition update_automation_graph : AutomationGraph -> graph_call unit :=
  update_row gd_graphs gr_id put_graph.
(** DELETE ... WHERE automation_graph_id. *)
Definition delete_automation_edges (graph_id : ident) : graph_call unit :=
  db_write (fun db => mkGraphDb (gd_graphs db) (gd_nodes db)
    (filter (fun e => ed_graph_id e.2 <> graph_id) (gd_edges db)) (gd_clock db)).
Definition delete_automation_nodes (graph_id : ident) : graph_call unit :=
  db_write (fun db => mkGraphDb (gd_graphs db)
    (filter (fun n => nd_graph_id n.2 <> graph_id) (gd_nodes db)) (gd_edges db) (gd_clock db)).

(** ORDER BY created_at_ms ASC, id ASC. *)
Definition list_automation_nodes (graph_id : ident) (db : GraphDb) : list AutomationNode :=
  sort_by_key (fun n => nd_created_at_ms n :: (Z.of_N <$> nd_id n))
    (retain (fun n => bool_decide (nd_graph_id n = graph_id)) (map_to_list (gd_nodes db)).*2).
Definition list_automation_edges (graph_id : ident) (db : GraphDb) : list AutomationEdge :=
  sort_by_key (fun e => ed_created_at_ms e :: (Z.of_N <$> ed_id e))
    (retain (fun e => bool_decide (ed_graph_id e = graph_id)) (map_to_list (gd_edges db)).*2).

Definition load_graph (row : AutomationGraph) (db : GraphDb) : AutomationGraph :=
  graph_with row (list_automation_nodes (gr_id row) db) (list_automation_edges (gr_id row) db).
Definition find_graph (graph_id : ident) (include_deleted : bool) (db : GraphDb) : option AutomationGraph :=
  match gd_graphs db !! graph_id with
  | Some row =>
      if include_deleted || bool_decide (gr_deleted_at_ms row = None)
      then Some (load_graph row db) else None
  | None => None
  end.
Definition get_automation_graph (graph_id : ident) (include_deleted : bool)
  : graph_call (option AutomationGraph) := db_read (find_graph graph_id include_deleted).
Definition GRAPH_NOT_FOUND (graph_id : ident) : VibexError :=
  with_diagnostic (VibexError_storage (lit "automation_graph_not_found")
                     (lit "automation graph was not found"))
    (lit "automationGraphId") graph_id.
Definition require_automation_graph (graph_id : ident) (include_deleted : bool) : graph_call AutomationGraph :=
  let! found := get_automation_graph graph_id include_deleted in
  db_lift (ok_or found (GRAPH_NOT_FOUND graph_id)).

(** ** Repository (AutomationGraphRepository) *)

Definition automation_nodes_from_requests (graph_id : ident) (requests : list AutomationNodeCreateRequest)
    (fresh : nat -> str) (now : Z) : list AutomationNode :=
  imap (fun i r => {| nd_id := default (id_new AutomationNodeId (fresh i)) (nc_id r);
    nd_graph_id := graph_id; nd_kind := nc_kind r; nd_title := nc_title r; nd_config := nc_config r;
    nd_position := nc_position r; nd_created_at_ms := now; nd_updated_at_ms := now |}) requests.
Definition automation_edges_from_requests (graph_id : ident) (requests : list AutomationEdgeCreateRequest)
    (fresh : nat -> str) (now : Z) : list AutomationEdge :=
  imap (fun i r => {| ed_id := id_new AutomationEdgeId (fresh i); ed_graph_id := graph_id;
    ed_source_node_id := ec_source_node_id r; ed_target_node_id := ec_target_node_id r;
    ed_condition := ec_condition r; ed_created_at_ms := now; ed_updated_at_ms := now |}) requests.

Definition node_ids (nodes : list AutomationNode) : gset ident := list_to_set (nd_id <$> nodes).

Definition validate_automation_edges (nodes : list AutomationNode) (edges : list AutomationEdge)
  : VibexResult unit :=
  for_each (fun e =>
    reject negb (bool_decide (ed_source_node_id e ∈ node_ids nodes)) with
      (with_diagnostic (VibexError_validation (lit "automation_graph_edge_source_missing")
         (lit "automation graph edge source node is not part of the graph definition"))
         (lit "sourceNodeId") (ed_source_node_id e)) ;;
    reject negb (bool_decide (ed_target_node_id e ∈ node_ids nodes)) with
      (with_diagnostic (VibexError_validation (lit "automation_graph_edge_target_missing")
         (lit "automation graph edge target node is not part of the graph definition"))
         (lit "targetNodeId") (ed_target_node_id e)) ;;
    Ok tt) edges.

(** [new_uuid] is the graph's generated suffix, [fresh_node] and [fresh_edge]
    those of its nodes and edges. *)
Definition graph_create (new_uuid : str) (fresh_node fresh_edge : nat -> str)
    (r : AutomationGraphCreateRequest) : graph_call AutomationGraph :=
  let! now := db_read gd_clock in
  let graph_id := id_new AutomationGraphId new_uuid in
  let nodes := automation_nodes_from_requests graph_id (gc_nodes r) fresh_node now in
  let edges := automation_edges_from_requests graph_id (gc_edges r) fresh_edge now in
  let! _ := db_lift (validate_automation_edges nodes edges) in
  let graph := {| gr_id := graph_id; gr_title := gc_title r; gr_description := gc_description r;
    gr_project_id := gc_project_id r; gr_workspace_id := gc_workspace_id r;
    gr_workspace_root := gc_workspace_root r; gr_workspace_mode := gc_workspace_mode r;
    gr_provider_kind := gc_provider_kind r; gr_provider_profile_id := gc_provider_profile_id r;
    gr_trigger := gc_trigger r; gr_status := GraphActive; gr_version := 1; gr_nodes := nodes;
    gr_edges := edges; gr_created_at_ms := now; gr_updated_at_ms := now;
    gr_deleted_at_ms := None |} in
  db_transaction (
    let! _ := insert_automation_graph graph in
    let! _ := db_each insert_automation_node nodes in
    let! _ := db_each insert_automation_edge edges in
    db_ret graph).

(** A graph with another version, status, time of change and deletion mark. *)
Definition graph_bumped (g : AutomationGraph) (status : AutomationGraphStatus) (now : Z)
    (deleted : option Z) : AutomationGraph :=
  {| gr_id := gr_id g; gr_title := gr_title g; gr_description := gr_description g;
     gr_project_id := gr_project_id g; gr_workspace_id := gr_workspace_id g;
     gr_workspace_root := gr_workspace_root g; gr_workspace_mode := gr_workspace_mode g;
     gr_provider_kind := gr_provider_kind g; gr_provider_profile_id := gr_provider_profile_id g;
     gr_trigger := gr_trigger g; gr_status := status;
     gr_version := u32_saturating_add (gr_version g) 1; gr_nodes := gr_nodes g;
     gr_edges := gr_edges g; gr_created_at_ms := gr_created_at_ms g; gr_updated_at_ms := now;
     gr_deleted_at_ms := deleted |}.

Definition graph_edited (r : AutomationGraphUpdateRequest) (g : AutomationGraph) : AutomationGraph :=
  {| gr_id := gr_id g; gr_title := default (gr_title g) (gu_title r);
     gr_description := set_or_clear (gu_description r) (gu_clear_description r) (gr_description g);
     gr_project_id := set_or_clear (gu_project_id r) (gu_clear_project_id r) (gr_project_id g);
     gr_workspace_id :=
       set_or_clear (gu_workspace_id r) (gu_clear_workspace_id r) (gr_workspace_id g);
     gr_workspace_root := default (gr_workspace_root g) (gu_workspace_root r);
     gr_workspace_mode := default (gr_workspace_mode g) (gu_workspace_mode r);
     gr_provider_kind :=
       set_or_clear (gu_provider_kind r) (gu_clear_provider_kind r) (gr_provider_kind g);
     gr_provider_profile_id :=
       set_or_clear (gu_provider_profile_id r) (gu_clear_provider_profile_id r)
         (gr_provider_profile_id g);
     gr_trigger := default (gr_trigger g) (gu_trigger r);
     gr_status := default (gr_status g) (gu_status r); gr_version := gr_version g;
     gr_nodes := gr_nodes g; gr_edges := gr_edges g; gr_created_at_ms := gr_created_at_ms g;
     gr_updated_at_ms := gr_updated_at_ms g; gr_deleted_at_ms := gr_deleted_at_ms g |}.

Definition graph_update (r : AutomationGraphUpdateRequest) : graph_call AutomationGraph :=
  let! graph := require_automation_graph (gu_id r) false in
  let graph := graph_edited r graph in
  let! now := db_read gd_clock in
  let deleted := if bool_decide (gr_status graph <> GraphDeleted) then None else gr_deleted_at_ms graph in
  let graph := graph_bumped graph (gr_status graph) now deleted in
  let! _ := update_automation_graph graph in
  require_automation_graph (gr_id graph) true.

Definition graph_soft_delete (graph_id : ident) : graph_call AutomationGraph :=
  let! graph := require_automation_graph graph_id false in
  let! now := db_read gd_clock in
  let! _ := update_automation_graph (graph_bumped graph GraphDeleted now (Some now)) in
  require_automation_graph graph_id true.

Definition VERSION_CONFLICT (expected actual : Z) : VibexError :=
  with_diagnostic
    (with_diagnostic
       (VibexError_conflict (lit "automation_graph_version_conflict")
          (lit "automation graph changed since this draft was loaded"))
       (lit "expectedVersion") (decimal expected))
    (lit "actualVersion") (decimal actual).

Definition replace_definition (graph_id : ident) (nodes : list AutomationNodeCreateRequest)
    (edges : list AutomationEdgeCreateRequest) (expected_version : option Z)
    (fresh_node fresh_edge : nat -> str) : graph_call AutomationGraph :=
  let! now := db_read gd_clock in
  let replacement_nodes := automation_nodes_from_requests graph_id nodes fresh_node now in
  let replacement_edges := automation_edges_from_requests graph_id edges fresh_edge now in
  let! _ := db_lift (validate_automation_edges replacement_nodes replacement_edges) in
  let! _ := db_transaction (
    let! graph := require_automation_graph graph_id false in
    let! _ := db_lift
      (match expected_version with
       | Some expected =>
           reject negb (bool_decide (gr_version graph = expected)) with
             (VERSION_CONFLICT expected (gr_version graph)) ;;
           Ok tt
       | None => Ok tt
       end) in
    let! _ := delete_automation_edges graph_id in
    let! _ := delete_automation_nodes graph_id in
    let! _ := db_each insert_automation_node replacement_nodes in
    let! _ := db_each insert_automation_edge replacement_edges in
    update_automation_graph
      (graph_bumped (graph_with graph replacement_nodes replacement_edges) (gr_status graph) now
         (gr_deleted_at_ms graph))) in
  require_automation_graph graph_id false.

(** ORDER BY updated_at_ms DESC, created_at_ms DESC. *)
Definition graph_list (r : AutomationGraphListRequest) (db : GraphDb) : list AutomationGraph :=
  (fun row => load_graph row db) <$>
  take (Z.to_nat (bounded_limit (gl_limit r)))
    (sort_by_key (fun g => [(- gr_updated_at_ms g)%Z; (- gr_created_at_ms g)%Z])
       (retain (fun g =>
          match gl_workspace_id r with
          | Some workspace => bool_decide (gr_workspace_id g = Some workspace)
          | None => true
          end
          && match gl_status r with
             | Some status => bool_decide (gr_status g = status)
             | None => true
             end
          && (gl_include_deleted r || bool_decide (gr_deleted_at_ms g = None)))
        (map_to_list (gd_graphs db)).*2)).

(** ** The order of execution (agent/src/automation.rs) *)

(** The queue, the edges still to come of each node, and the nodes ordered. *)
Record Kahn : Type := mkKahn {
  kn_queue : list ident;
  kn_indegree : gmap ident nat;
  kn_ordered : list AutomationNode
}.

(** [*entry = entry.saturating_sub(1); if *entry == 0 { queue.push_back(..) }]. *)
Definition relax (state : list ident * gmap ident nat) (target : ident)
  : list ident * gmap ident nat :=
  let '(queue, indegree) := state in
  let entry := pred (default 0 (indegree !! target)) in
  (if (entry =? 0)%nat then queue ++ [target] else queue, <[target := entry]> indegree).

Definition kahn_step (node_map : gmap ident AutomationNode) (outgoing : gmap ident (list ident))
    (node_id : ident) (queue : list ident) (k : Kahn) : Kahn :=
  let ordered :=
    match node_map !! node_id with
    | Some node => kn_ordered k ++ [node]
    | None => kn_ordered k
    end in
  let '(queue, indegree) :=
    foldl relax (queue, kn_indegree k) (default [] (outgoing !! node_id)) in
  mkKahn queue indegree ordered.

(** [while let Some(node_id) = queue.pop_front()]: the state when the queue is
    empty or the fuel is spent. *)
Fixpoint kahn_loop (fuel : nat) (node_map : gmap ident AutomationNode)
    (outgoing : gmap ident (list ident)) (k : Kahn) : Kahn :=
  match fuel, kn_queue k with
  | S fuel, node_id :: queue => kahn_loop fuel node_map outgoing (kahn_step node_map outgoing node_id queue k)
  | _, _ => k
  end.

Definition count_edge (state : gmap ident nat * gmap ident (list ident)) (e : AutomationEdge)
  : gmap ident nat * gmap ident (list ident) :=
  let '(indegree, outgoing) := state in
  (<[ed_target_node_id e := S (default 0 (indegree !! ed_target_node_id e))]> indegree,
   <[ed_source_node_id e := default [] (outgoing !! ed_source_node_id e) ++ [ed_target_node_id e]]> outgoing).

(** Collecting (key, value) pairs into a HashMap: the last value of a key stays. *)
Definition collect {A} (l : list (ident * A)) : gmap ident A := foldl (fun m p => <[p.1 := p.2]> m) ∅ l.

Definition kahn_start (graph : AutomationGraph) : Kahn * gmap ident (list ident) :=
  let '(indegree, outgoing) :=
    foldl count_edge (collect ((fun n => (nd_id n, 0)) <$> gr_nodes graph), ∅) (gr_edges graph) in
  (mkKahn (nd_id <$> retain (fun n => (default 0 (indegree !! nd_id n) =? 0)%nat) (gr_nodes graph))
     indegree [], outgoing).

(** A node is popped once. *)
Definition kahn_fuel (graph : AutomationGraph) : nat := S (length (gr_nodes graph)).
Definition kahn_end (graph : AutomationGraph) : Kahn :=
  let '(k, outgoing) := kahn_start graph in
  kahn_loop (kahn_fuel graph) (collect ((fun n => (nd_id n, n)) <$> gr_nodes graph)) outgoing k.

(** The fourth test of an edge, for a kind of condition the enum does not
    have, never fires. *)
Definition topological_order (graph : AutomationGraph) : VibexResult (list AutomationNode) :=
  try for_each (fun e =>
    reject negb (bool_decide (ed_source_node_id e ∈ node_ids (gr_nodes graph)))
           || negb (bool_decide (ed_target_node_id e ∈ node_ids (gr_nodes graph))) with
      (invalid "automation_graph_edge_endpoint_missing"
         "automation graph edge references a missing node") ;;
    Ok tt) (gr_edges graph) ;;
  let ordered := kn_ordered (kahn_end graph) in
  reject negb (length ordered =? length (gr_nodes graph))%nat with
    (invalid "automation_graph_cycle_unsupported" "automation graph cycles are not supported yet") ;;
  Ok ordered.

Definition VibexError_capability (code message : str) : VibexError :=
  VibexError_new Capability code message.

Definition validate_graph_for_runtime (graph : AutomationGraph) : VibexResult unit :=
  reject is_empty (gr_nodes graph) with
    (invalid "automation_graph_empty" "automation graph has no executable nodes") ;;
  try for_each (fun e =>
    reject match co_expression (ed_condition e) with
           | Some expression => negb (is_empty (trim expression))
           | None => false
           end with
      (VibexError_capability (lit "automation_edge_expression_unsupported")
         (lit "automation edge expressions are not supported yet")) ;;
    Ok tt) (gr_edges graph) ;;
  let? _ := topological_order graph in
  Ok tt.

(** * Theorems *)

(** ** Cycles *)

(** A finite set in which every element has a predecessor of the set holds a
    cycle: walking back from any element meets one it has passed. *)
Lemma backward_walk {A} `{EqDecision A} (R : relation A) (S : list A) (x : A) (n : nat) :
  x ∈ S -> (forall y, y ∈ S -> exists z, z ∈ S /\ R z y) ->
  (exists y, tc R y y) \/
  exists h l, NoDup (h :: l) /\ (h :: l) ⊆ S /\ length l = n /\ forall y, y ∈ l -> tc R h y.
Proof.
  intros Hx Hpred. induction n as [|n IH].
  - right. exists x, []. split_and!; [apply NoDup_singleton|set_solver|done|set_solver].
  - destruct IH as [?|(h & l & Hn & Hs & Hl & Hr)]; [by left|].
    destruct (Hpred h) as (z & Hz & HR); [set_solver|].
    destruct (decide (z ∈ h :: l)) as [[->|Hin]%elem_of_cons|Hnew].
    + left. exists h. by apply tc_once.
    + left. exists h. apply tc_r with z; [by apply Hr|done].
    + right. exists z, (h :: l). split_and!; [by constructor|set_solver|simpl; by rewrite Hl|].
      intros y [->|Hy]%elem_of_cons; [by apply tc_once|].
      apply tc_l with h; [done|]. by apply Hr.
Qed.

Lemma predecessors_make_a_cycle {A} `{EqDecision A} (R : relation A) (S : list A) (x : A) :
  x ∈ S -> (forall y, y ∈ S -> exists z, z ∈ S /\ R z y) -> exists y, tc R y y.
Proof.
  intros Hx Hpred. destruct (backward_walk R S x (length S) Hx Hpred) as [?|(h & l & Hn & Hs & Hl & _)];
    [done|]. exfalso.
  assert (H : (h :: l) ⊆+ S) by by apply NoDup_submseteq.
  apply submseteq_length in H. simpl in H. lia.
Qed.

(** ** Counting edges *)

Definition occ (x : ident) (l : list ident) : nat := count_occ (fun a b : ident => decide (a = b)) l x.

Lemma occ_zero x l : occ x l = 0 <-> x ∉ l.
Proof. unfold occ. rewrite list_elem_of_In. symmetry. apply count_occ_not_In. Qed.

Lemma occ_app x l1 l2 : occ x (l1 ++ l2) = occ x l1 + occ x l2.
Proof. apply count_occ_app. Qed.

Lemma occ_perm x l1 l2 : l1 ≡ₚ l2 -> occ x l1 = occ x l2.
Proof. intros H. by apply (Permutation_count_occ (fun a b : ident => decide (a = b))). Qed.

Lemma occ_cons x y l : occ x (y :: l) = (if decide (y = x) then 1 else 0) + occ x l.
Proof. unfold occ. simpl. by destruct (decide (y = x)). Qed.

Lemma lookup_collect {A} (l : list (ident * A)) k :
  NoDup l.*1 -> forall a, collect l !! k = Some a <-> (k, a) ∈ l.
Proof.
  unfold collect. intros Hn a.
  assert (H : forall m : gmap ident A, (forall p, p ∈ l -> m !! p.1 = None) ->
    foldl (fun m p => <[p.1 := p.2]> m) m l !! k = Some a <-> m !! k = Some a \/ (k, a) ∈ l).
  { clear -Hn. revert Hn. induction l as [|[k' a'] l IH]; intros Hn m Hm; simpl; [set_solver|].
    apply NoDup_cons in Hn as [Hk Hn]. rewrite IH; [|done|].
    - destruct (decide (k = k')) as [->|Hne].
      + rewrite lookup_insert_eq. pose proof (Hm (k', a') ltac:(set_solver)) as E. simpl in E.
        rewrite E, elem_of_cons. split; [intros [[= ->]|H]; auto|].
        intros [?|[[= ->]|H]]; [done|by left|by right].
      + rewrite lookup_insert_ne by done. rewrite elem_of_cons. naive_solver.
    - intros p Hp. rewrite lookup_insert_ne; [apply Hm; by apply elem_of_cons; right|].
      intros ->. apply Hk. change (p.1 ∈ l.*1). by apply list_elem_of_fmap_2. }
  rewrite H; [|intros; apply lookup_empty]. rewrite lookup_empty. naive_solver.
Qed.

Lemma collect_zero (l : list ident) (k : ident) :
  default 0 (collect ((fun i => (i, 0)) <$> l) !! k) = 0.
Proof.
  unfold collect. assert (H : forall m : gmap ident nat, default 0 (m !! k) = 0 ->
    default 0 (foldl (fun m p => <[p.1 := p.2]> m) m ((fun i => (i, 0)) <$> l) !! k) = 0).
  { induction l as [|i l IH]; intros m Hm; simpl; [done|]. apply IH.
    destruct (decide (k = i)) as [->|]; [by rewrite lookup_insert_eq|by rewrite lookup_insert_ne]. }
  apply H. by rewrite lookup_empty.
Qed.

(** The targets of the edges that leave one of the sources. *)
Definition targets (keep : ident -> bool) (edges : list AutomationEdge) : list ident :=
  ed_target_node_id <$> retain (fun e => keep (ed_source_node_id e)) edges.

Lemma targets_split (p q : ident -> bool) (edges : list AutomationEdge) :
  targets p edges ≡ₚ
  targets (fun s => p s && q s) edges ++ targets (fun s => p s && negb (q s)) edges.
Proof.
  unfold targets. induction edges as [|e edges IH]; simpl; [done|].
  destruct (p (ed_source_node_id e)); simpl; [|done].
  destruct (q (ed_source_node_id e)); simpl; rewrite IH; [done|apply Permutation_middle].
Qed.

Lemma elem_of_targets keep edges t :
  t ∈ targets keep edges <->
  exists e, e ∈ edges /\ keep (ed_source_node_id e) = true /\ t = ed_target_node_id e.
Proof.
  unfold targets. rewrite list_elem_of_fmap. setoid_rewrite elem_of_retain. naive_solver.
Qed.

Lemma count_edges (edges : list AutomationEdge) (D : gmap ident nat) (O : gmap ident (list ident)) :
  let '(D', O') := foldl count_edge (D, O) edges in
  (forall n, default 0 (D' !! n) = default 0 (D !! n) + occ n (targets (fun _ => true) edges)) /\
  (forall s, default [] (O' !! s) =
     default [] (O !! s) ++ targets (fun x => bool_decide (x = s)) edges).
Proof.
  revert D O. induction edges as [|e edges IH]; intros D O; cbn [foldl].
  - split; intros; [unfold targets, occ; simpl; lia|by rewrite app_nil_r].
  - cbn [count_edge]. specialize (IH (<[ed_target_node_id e := S (default 0 (D !! ed_target_node_id e))]> D)
      (<[ed_source_node_id e := default [] (O !! ed_source_node_id e) ++ [ed_target_node_id e]]> O)).
    destruct (foldl count_edge _ edges) as [D' O']. destruct IH as [IH1 IH2]. split.
    + intros n. rewrite IH1.
      change (targets (fun _ => true) (e :: edges)) with
        (ed_target_node_id e :: targets (fun _ => true) edges). rewrite occ_cons.
      destruct (decide (ed_target_node_id e = n)) as [->|Hne].
      * rewrite lookup_insert_eq. simpl. lia.
      * by rewrite lookup_insert_ne.
    + intros s. rewrite IH2. unfold targets. simpl.
      case_bool_decide as E; [|by rewrite lookup_insert_ne].
      rewrite <- E, lookup_insert_eq. simpl. by rewrite <- app_assoc.
Qed.

(** ** Kahn's algorithm *)

(** An edge of the graph leads from [a] to [b]. *)
Definition precedes (g : AutomationGraph) (a b : ident) : Prop :=
  exists e, e ∈ gr_edges g /\ ed_source_node_id e = a /\ ed_target_node_id e = b.
Definition edges_closed (nodes : list AutomationNode) (edges : list AutomationEdge) : Prop :=
  forall e, e ∈ edges ->
    ed_source_node_id e ∈ nd_id <$> nodes /\ ed_target_node_id e ∈ nd_id <$> nodes.
(** Every node comes after the sources of the edges that lead to it. *)
Definition respects (g : AutomationGraph) (order : list AutomationNode) : Prop :=
  forall pre n post, order = pre ++ n :: post ->
  forall a, precedes g a (nd_id n) -> a ∈ nd_id <$> pre.

Section kahn.
Context (g : AutomationGraph).
Context (Hnodup : NoDup (nd_id <$> gr_nodes g)).
Context (Hclosed : edges_closed (gr_nodes g) (gr_edges g)).
Let ids := nd_id <$> gr_nodes g.

(** The queue and the counters agree: [popped] was popped, [coming] are the
    targets of the edges that still count. *)
Record counted (popped coming queue : list ident) (indegree : gmap ident nat) : Prop := mkCounted {
  ct_indegree : forall n, n ∈ ids -> default 0 (indegree !! n) = occ n coming;
  ct_nodup : NoDup (popped ++ queue);
  ct_ids : popped ++ queue ⊆ ids;
  ct_zero : forall n, n ∈ ids -> (n ∈ popped ++ queue <-> occ n coming = 0)
}.

Lemma counted_perm popped coming coming' queue D :
  coming ≡ₚ coming' -> counted popped coming queue D -> counted popped coming' queue D.
Proof.
  intros Hp [H1 H2 H3 H4]. split; [|done|done|]; intros n Hn; rewrite <- (occ_perm n _ _ Hp); auto.
Qed.

Lemma relax_counted popped t coming queue D :
  t ∈ ids -> counted popped (t :: coming) queue D ->
  let '(queue', D') := relax (queue, D) t in counted popped coming queue' D'.
Proof.
  intros Ht [H1 H2 H3 H4]. unfold relax.
  pose proof (H1 t Ht) as Ht1. pose proof (H4 t Ht) as Ht4.
  rewrite occ_cons in Ht1, Ht4. rewrite decide_True in Ht1, Ht4 by done.
  assert (Hnew : t ∉ popped ++ queue) by (intros H%Ht4; lia).
  assert (Hpred : pred (default 0 (D !! t)) = occ t coming) by (rewrite Ht1; simpl; lia).
  assert (Hother : forall n, n <> t -> occ n (t :: coming) = occ n coming).
  { intros n Hne. rewrite occ_cons, decide_False by done. done. }
  assert (HD : forall n, n ∈ ids -> default 0 (<[t := pred (default 0 (D !! t))]> D !! n) = occ n coming).
  { intros n Hn. destruct (decide (n = t)) as [->|Hne].
    - by rewrite lookup_insert_eq.
    - rewrite lookup_insert_ne, H1, Hother by done. done. }
  destruct (Nat.eqb_spec (pred (default 0 (D !! t))) 0) as [E|E]; split; try done.
  - rewrite app_assoc. apply NoDup_app. split_and!; [done| |apply NoDup_singleton].
    intros x Hx ->%list_elem_of_singleton. done.
  - set_solver.
  - intros n Hn. destruct (decide (n = t)) as [->|Hne]; [set_solver by lia|].
    rewrite <- Hother, <- H4 by done. set_solver.
  - intros n Hn. destruct (decide (n = t)) as [->|Hne].
    + split; [done|]. intros H. exfalso. lia.
    + rewrite <- Hother by done. by apply H4.
Qed.

Lemma relax_all_counted popped ts coming queue D :
  ts ⊆ ids -> counted popped (ts ++ coming) queue D ->
  let '(queue', D') := foldl relax (queue, D) ts in counted popped coming queue' D'.
Proof.
  revert queue D. induction ts as [|t ts IH]; intros queue D Hts Hc; cbn [foldl]; [done|].
  pose proof (relax_counted popped t (ts ++ coming) queue D ltac:(set_solver) Hc) as H.
  destruct (relax (queue, D) t) as [queue' D']. apply IH; [set_solver|done].
Qed.

(** The targets still to come when [popped] was popped. *)
Definition coming (popped : list ident) : list ident :=
  targets (fun s => bool_decide (s ∉ popped)) (gr_edges g).

Lemma coming_pop popped v :
  v ∉ popped ->
  coming popped ≡ₚ targets (fun x => bool_decide (x = v)) (gr_edges g) ++ coming (popped ++ [v]).
Proof.
  intros Hv. unfold coming. rewrite (targets_split _ (fun s => bool_decide (s = v))).
  assert (H : forall f f', (forall s, f s = f' s) -> targets f (gr_edges g) = targets f' (gr_edges g)).
  { intros f f' Hf. unfold targets. f_equal. apply filter_ext. intros e. apply Hf. }
  f_equiv.
  - rewrite (H _ (fun x => bool_decide (x = v))); [done|]. intros s.
    destruct (decide (s = v)) as [->|Hne].
    + by rewrite !bool_decide_eq_true_2.
    + by rewrite (bool_decide_eq_false_2 (s = v)), andb_false_r.
  - rewrite (H _ (fun s => bool_decide (s ∉ popped ++ [v]))); [done|]. intros s.
    rewrite <- bool_decide_not, <- bool_decide_and. apply bool_decide_ext. set_solver.
Qed.

(** A node once popped is ordered after what precedes it. *)
Definition in_order (ordered : list AutomationNode) : Prop :=
  respects g ordered /\ ordered ⊆ gr_nodes g.

(** The state of the loop. *)
Definition kahn_ok (k : Kahn) : Prop :=
  let popped := nd_id <$> kn_ordered k in
  counted popped (coming popped) (kn_queue k) (kn_indegree k) /\ in_order (kn_ordered k).

Let node_map := collect ((fun n => (nd_id n, n)) <$> gr_nodes g).

Lemma node_map_lookup i : i ∈ ids -> exists n, node_map !! i = Some n /\ n ∈ gr_nodes g /\ nd_id n = i.
Proof.
  intros (n & -> & Hn)%list_elem_of_fmap. exists n. split_and!; [|done|done].
  apply lookup_collect; [|by apply list_elem_of_fmap; exists n].
  rewrite <- list_fmap_compose. exact Hnodup.
Qed.

Lemma respects_snoc ordered n :
  respects g ordered -> (forall a, precedes g a (nd_id n) -> a ∈ nd_id <$> ordered) ->
  respects g (ordered ++ [n]).
Proof.
  intros H1 H2 pre m post E a Ha.
  destruct (decide (post = [])) as [->|Hp].
  - apply app_inj_tail in E as [-> ->]. by apply H2.
  - destruct (exists_last Hp) as (post' & z & ->).
    rewrite app_comm_cons, app_assoc in E. apply app_inj_tail in E as [-> _].
    by apply (H1 pre m post').
Qed.

Context (outgoing : gmap ident (list ident)).
Context (Hout : forall s, default [] (outgoing !! s) =
                          targets (fun x => bool_decide (x = s)) (gr_edges g)).

Lemma kahn_step_ok v queue k :
  kn_queue k = v :: queue -> kahn_ok k -> kahn_ok (kahn_step node_map outgoing v queue k).
Proof.
  destruct k as [q D L]. simpl. intros -> [Hc [Hr Hsub]]. simpl in *.
  pose proof (ct_ids _ _ _ _ Hc) as Hids. pose proof (ct_nodup _ _ _ _ Hc) as Hnd.
  destruct (node_map_lookup v) as (n & En & Hn & Hv); [set_solver|].
  unfold kahn_step. simpl. rewrite En, Hout.
  assert (Hnew : v ∉ nd_id <$> L) by (intros Hin; apply NoDup_app in Hnd as (_ & Hd & _); apply (Hd v); set_solver).
  set (popped := nd_id <$> L) in *.
  assert (Hc' : counted (popped ++ [v])
            (targets (fun x => bool_decide (x = v)) (gr_edges g) ++ coming (popped ++ [v])) queue D).
  { apply (counted_perm _ (coming popped)); [by apply coming_pop|].
    destruct Hc as [C1 C2 C3 C4]. split; [done|by rewrite <- app_assoc| |].
    - rewrite <- app_assoc. done.
    - intros x Hx. rewrite <- app_assoc. by apply C4. }
  apply relax_all_counted in Hc'; cycle 1.
  { intros x (e & He & _ & ->)%elem_of_targets. by apply Hclosed. }
  destruct (foldl relax _ _) as [queue' D']. unfold kahn_ok. simpl.
  rewrite fmap_app. simpl. rewrite Hv. split; [exact Hc'|]. split; [|set_solver].
  apply respects_snoc; [done|]. intros a (e & He & Hs & Ht). rewrite Hv in Ht.
  destruct (decide (a ∈ popped)) as [|Hna]; [done|]. exfalso.
  assert (H0 : occ v (coming popped) = 0) by (apply (ct_zero _ _ _ _ Hc v); set_solver).
  apply occ_zero in H0. apply H0, elem_of_targets. exists e. split_and!; [done| |done].
  rewrite Hs. by apply bool_decide_eq_true_2.
Qed.

Lemma kahn_loop_ok fuel k :
  kahn_ok k -> length ids < fuel + length (kn_ordered k) ->
  let k' := kahn_loop fuel node_map outgoing k in kahn_ok k' /\ kn_queue k' = [].
Proof.
  revert k. induction fuel as [|fuel IH]; intros k Hk Hf.
  - exfalso. destruct Hk as [Hc _]. pose proof (ct_ids _ _ _ _ Hc) as Hids.
    pose proof (ct_nodup _ _ _ _ Hc) as Hnd.
    apply (NoDup_submseteq _ _ Hnd), submseteq_length in Hids. rewrite length_app, length_fmap in Hids. lia.
  - destruct (kn_queue k) as [|v queue] eqn:Eq; simpl; rewrite Eq; [done|].
    apply IH; [by apply kahn_step_ok|]. unfold kahn_step.
    destruct Hk as [Hc _]. pose proof (ct_ids _ _ _ _ Hc) as Hids. rewrite Eq in Hids.
    destruct (node_map_lookup v) as (n & En & _); [set_solver|]. rewrite En.
    destruct (foldl relax _ _). simpl. rewrite length_app. simpl. lia.
Qed.
End kahn.

Lemma kahn_start_ok g :
  NoDup (nd_id <$> gr_nodes g) -> edges_closed (gr_nodes g) (gr_edges g) ->
  let '(k, outgoing) := kahn_start g in
  kahn_ok g k /\ kn_ordered k = [] /\
  forall s, default [] (outgoing !! s) = targets (fun x => bool_decide (x = s)) (gr_edges g).
Proof.
  intros Hn Hc. unfold kahn_start.
  pose proof (count_edges (gr_edges g) (collect ((fun n => (nd_id n, 0)) <$> gr_nodes g)) ∅) as H.
  destruct (foldl count_edge _ _) as [D O]. destruct H as [H1 H2].
  assert (HD : forall n, default 0 (D !! n) = occ n (targets (fun _ => true) (gr_edges g))).
  { intros n. rewrite H1. rewrite (list_fmap_compose nd_id (fun i => (i, 0))). by rewrite collect_zero. }
  split_and!; [|done|intros s; by rewrite H2, lookup_empty].
  split; [|split; [intros [|? ?] ? ? E; done|set_solver]]. simpl.
  assert (Hcoming : coming g [] = targets (fun _ => true) (gr_edges g)) by done.
  split; simpl.
  - intros n _. by rewrite Hcoming.
  - clear -Hn. induction (gr_nodes g) as [|n l IH]; simpl in *; [constructor|].
    apply NoDup_cons in Hn as [H1 H2]. destruct (_ =? 0)%nat; [|by apply IH]. simpl.
    constructor; [|by apply IH]. intros (m & E & [Hm _]%elem_of_retain)%list_elem_of_fmap.
    apply H1. rewrite E. by apply list_elem_of_fmap_2.
  - intros x (n & -> & [Hx _]%elem_of_retain)%list_elem_of_fmap. by apply list_elem_of_fmap_2.
  - intros n (m & -> & Hm)%list_elem_of_fmap. rewrite Hcoming, <- HD. split.
    + intros (m' & E & [_ Hz%Nat.eqb_eq]%elem_of_retain)%list_elem_of_fmap. by rewrite E.
    + intros Hz. apply list_elem_of_fmap. exists m. split; [done|]. apply elem_of_retain.
      split; [done|]. by apply Nat.eqb_eq.
Qed.

Lemma endpoints_ok g :
  for_each (fun e =>
    reject negb (bool_decide (ed_source_node_id e ∈ node_ids (gr_nodes g)))
           || negb (bool_decide (ed_target_node_id e ∈ node_ids (gr_nodes g))) with
      (invalid "automation_graph_edge_endpoint_missing"
         "automation graph edge references a missing node") ;;
    Ok tt) (gr_edges g) = Ok tt <-> edges_closed (gr_nodes g) (gr_edges g).
Proof.
  rewrite for_each_ok, Forall_forall. unfold edges_closed, node_ids.
  setoid_rewrite reject_ok. setoid_rewrite orb_false_iff. setoid_rewrite negb_false_iff.
  setoid_rewrite bool_decide_eq_true. setoid_rewrite elem_of_list_to_set. naive_solver.
Qed.

Lemma for_each_err {A E} (f : A -> result unit E) (l : list A) e :
  for_each f l = Err e -> exists x, x ∈ l /\ f x = Err e.
Proof.
  induction l as [|x l IH]; simpl; [done|]. destruct (f x) as [[]|e'] eqn:E'; simpl.
  - intros H. destruct (IH H) as (y & Hy & E1). exists y. split; [set_solver|done].
  - intros [= ->]. exists x. split; [set_solver|done].
Qed.

Lemma for_each_fmap {A B E} (f : B -> result unit E) (h : A -> B) (l : list A) :
  for_each f (h <$> l) = for_each (fun x => f (h x)) l.
Proof. induction l as [|x l IH]; simpl; [done|]. by rewrite <- IH. Qed.

Definition CYCLE : VibexError :=
  invalid "automation_graph_cycle_unsupported" "automation graph cycles are not supported yet".
Definition ENDPOINT_MISSING : VibexError :=
  invalid "automation_graph_edge_endpoint_missing" "automation graph edge references a missing node".

Lemma respects_no_cycle g order :
  NoDup (nd_id <$> order) -> respects g order ->
  (forall a b, precedes g a b -> b ∈ nd_id <$> order) -> forall a, ~ tc (precedes g) a a.
Proof.
  intros Hn Hr Hc.
  assert (H : forall a b, tc (precedes g) a b -> forall pre n post,
            order = pre ++ n :: post -> nd_id n = b -> a ∈ nd_id <$> pre).
  { induction 1 as [a b HR|a c b HR _ IH]; intros pre n post E Hb; [subst b; by apply (Hr pre n post)|].
    pose proof (IH pre n post E Hb) as (m & Em & Hm)%list_elem_of_fmap. subst c.
    apply list_elem_of_split in Hm as (p1 & p2 & ->). rewrite <- app_assoc in E.
    pose proof (Hr p1 m _ E a HR). rewrite fmap_app. set_solver. }
  intros a Ha. assert (Hin : a ∈ nd_id <$> order).
  { assert (exists c, precedes g c a) as [c HR]; [|by apply (Hc c)].
    clear -Ha. induction Ha as [x y HR|x y z _ _ IH]; [by exists x|done]. }
  apply list_elem_of_fmap in Hin as (n & En & Hin). apply list_elem_of_split in Hin as (pre & post & ->).
  pose proof (H a a Ha pre n post eq_refl (eq_sym En)) as Hp.
  rewrite fmap_app, fmap_cons, <- En in Hn. apply NoDup_app in Hn as (_ & Hd & _).
  apply (Hd a Hp). set_solver.
Qed.

Lemma kahn_end_ok g :
  NoDup (nd_id <$> gr_nodes g) -> edges_closed (gr_nodes g) (gr_edges g) ->
  kn_queue (kahn_end g) = [] /\
  counted g (nd_id <$> kn_ordered (kahn_end g)) (coming g (nd_id <$> kn_ordered (kahn_end g))) []
    (kn_indegree (kahn_end g)) /\
  in_order g (kn_ordered (kahn_end g)).
Proof.
  intros Hn Hc. pose proof (kahn_start_ok g Hn Hc) as Hs. unfold kahn_end.
  destruct (kahn_start g) as [k outgoing]. destruct Hs as (Hk & Hk0 & Hout).
  pose proof (kahn_loop_ok g Hn Hc outgoing Hout (kahn_fuel g) k Hk) as Hl. unfold kahn_fuel in *.
  rewrite Hk0, length_fmap in Hl. specialize (Hl ltac:(simpl; lia)). cbv zeta in Hl.
  set (k' := kahn_loop _ _ _ _) in *. destruct Hl as [[Hct Ho] Hq]. by rewrite Hq in Hct.
Qed.

(** A node that was not ordered lies on or behind a cycle. *)
Lemma unordered_makes_a_cycle g n :
  NoDup (nd_id <$> gr_nodes g) -> edges_closed (gr_nodes g) (gr_edges g) ->
  n ∈ gr_nodes g -> nd_id n ∉ nd_id <$> kn_ordered (kahn_end g) -> exists a, tc (precedes g) a a.
Proof.
  intros Hn Hc Hn1 Hn2. destruct (kahn_end_ok g Hn Hc) as (_ & [_ _ _ Hzero] & _).
  rewrite app_nil_r in Hzero. set (popped := nd_id <$> kn_ordered (kahn_end g)) in *.
  apply (predecessors_make_a_cycle (precedes g)
           (filter (fun x => x ∉ popped) (nd_id <$> gr_nodes g)) (nd_id n)).
  - apply list_elem_of_filter. split; [done|]. by apply list_elem_of_fmap_2.
  - intros y [Hy1 Hy2]%list_elem_of_filter.
    destruct (decide (y ∈ coming g popped)) as [Hin|Hin];
      [|exfalso; by apply Hy1, Hzero, occ_zero].
    apply elem_of_targets in Hin as (e & He & Hkeep%bool_decide_eq_true & ->).
    exists (ed_source_node_id e). split; [|by exists e].
    apply list_elem_of_filter. split; [done|]. by apply Hc.
Qed.

(** For a graph whose nodes have different ids, the loop empties its queue, and
    an order is found exactly when there is one. *)
Lemma topological_order_cases (g : AutomationGraph) :
  NoDup (nd_id <$> gr_nodes g) ->
  match topological_order g with
  | Ok order =>
      kn_queue (kahn_end g) = [] /\ edges_closed (gr_nodes g) (gr_edges g) /\
      order ≡ₚ gr_nodes g /\ respects g order /\ (forall a, ~ tc (precedes g) a a)
  | Err e =>
      (e = ENDPOINT_MISSING /\ ~ edges_closed (gr_nodes g) (gr_edges g)) \/
      (e = CYCLE /\ edges_closed (gr_nodes g) (gr_edges g) /\ kn_queue (kahn_end g) = [] /\
       exists a, tc (precedes g) a a)
  end.
Proof.
  intros Hn. unfold topological_order.
  destruct (for_each _ (gr_edges g)) as [[]|e] eqn:Ef; cbn [result_bind].
  2: { left. split; [|intros Hc%endpoints_ok; congruence].
       apply for_each_err in Ef as (x & _ & Hx). by destruct (_ || _) in Hx; simplify_eq. }
  apply endpoints_ok in Ef as Hc. destruct (kahn_end_ok g Hn Hc) as (Hq & Hct & Hr & Hsub).
  destruct Hct as [_ Hnd Hids _]. rewrite app_nil_r in *. set (order := kn_ordered _) in *.
  apply NoDup_submseteq in Hids; [|done].
  destruct (Nat.eqb_spec (length order) (length (gr_nodes g))) as [E|E]; cbn [negb].
  - assert (Hperm : order ≡ₚ gr_nodes g).
    { apply submseteq_length_Permutation; [|lia]. apply NoDup_submseteq; [|done].
      by apply (NoDup_fmap_1 nd_id). }
    split_and!; [done..|]. apply (respects_no_cycle g order); [done..|].
    intros a b (e & He & _ & <-). rewrite Hperm. by apply Hc.
  - right. split_and!; [done..|].
    destruct (decide (Exists (fun n => nd_id n ∉ nd_id <$> order) (gr_nodes g))) as [H|H].
    + apply Exists_exists in H as (n & Hn1 & Hn2). by apply (unordered_makes_a_cycle g n).
    + exfalso. apply E. apply not_Exists_Forall in H; [|apply _]. rewrite Forall_forall in H.
      assert (H' : (nd_id <$> gr_nodes g) ⊆+ (nd_id <$> order)).
      { apply NoDup_submseteq; [done|]. intros x (m & -> & Hm)%list_elem_of_fmap.
        apply dec_stable. by apply H. }
      apply submseteq_length in Hids, H'. rewrite !length_fmap in *. lia.
Qed.

(** ** What the tables keep *)

(** Rows lie under their ids, and an edge leads between nodes of its graph. *)
Record graphs_wf (db : GraphDb) : Prop := mkGraphsWf {
  gw_graphs : forall k g, gd_graphs db !! k = Some g -> gr_id g = k /\ in_u32 (gr_version g);
  gw_nodes : forall k n, gd_nodes db !! k = Some n -> nd_id n = k;
  gw_edges : forall k e, gd_edges db !! k = Some e -> ed_id e = k;
  gw_ends : forall k e, gd_edges db !! k = Some e ->
    forall i, i = ed_source_node_id e \/ i = ed_target_node_id e ->
    exists n, gd_nodes db !! i = Some n /\ nd_graph_id n = ed_graph_id e
}.

(** [db] is well-formed and holds the graphs of [db0], none at an earlier version. *)
Definition grown (db0 db : GraphDb) : Prop :=
  graphs_wf db /\
  forall id g0, gd_graphs db0 !! id = Some g0 ->
  exists g, gd_graphs db !! id = Some g /\ (gr_version g0 <= gr_version g)%Z.

Lemma grown_same_graphs db0 db db' :
  gd_graphs db' = gd_graphs db -> graphs_wf db' -> grown db0 db -> grown db0 db'.
Proof. intros E Hw [_ H]. split; [done|]. by rewrite E. Qed.

Lemma grown_put_graph db0 db g :
  in_u32 (gr_version g) ->
  (forall row, gd_graphs db !! gr_id g = Some row -> (gr_version row <= gr_version g)%Z) ->
  grown db0 db -> grown db0 (put_graph g db).
Proof.
  intros Hu Hv [[W1 W2 W3 W4] H]. split.
  - split; [|done..]. intros k r. simpl. rewrite lookup_insert_Some.
    intros [[<- <-]|[_ Hr]]; [done|by apply W1].
  - intros id g0 H0. destruct (H id g0 H0) as (r & Hr & Hle). simpl.
    destruct (decide (id = gr_id g)) as [->|Hne]; [|exists r; by rewrite lookup_insert_ne].
    rewrite lookup_insert_eq. eexists. split; [done|]. simpl. specialize (Hv r Hr). lia.
Qed.

Lemma find_graph_row id deleted db g :
  find_graph id deleted db = Some g ->
  exists row, gd_graphs db !! id = Some row /\ g = load_graph row db.
Proof.
  unfold find_graph. destruct (gd_graphs db !! id) as [row|]; [|done].
  destruct (_ || _); [|done]. intros [= <-]. by exists row.
Qed.

Lemma triple_require_graph P id deleted (Q : AutomationGraph -> GraphDb -> Prop) (E : GraphDb -> Prop) :
  (forall db g, P db -> find_graph id deleted db = Some g -> Q g db) -> (forall db, P db -> E db) ->
  triple P (require_automation_graph id deleted) Q E.
Proof.
  intros H1 H2 db HP. unfold require_automation_graph, get_automation_graph, db_bind, db_read, db_lift.
  destruct (find_graph id deleted db) as [g|] eqn:E'; simpl; [by apply H1|by apply H2].
Qed.

(** Writing a later version of a graph that was just read. *)
Lemma triple_bump db0 (g : AutomationGraph) :
  triple
    (fun db => grown db0 db /\ exists row, gd_graphs db !! gr_id g = Some row /\
       gr_version g = u32_saturating_add (gr_version row) 1)
    (update_automation_graph g)
    (fun _ db => grown db0 db /\ gd_graphs db !! gr_id g = Some (graph_row g)) (grown db0).
Proof.
  apply triple_write. intros db [Hg (row & Hr & Hv)]. rewrite Hr.
  destruct (gw_graphs _ (proj1 Hg) _ _ Hr) as [_ Hu].
  split; [|simpl; by rewrite lookup_insert_eq].
  apply grown_put_graph; [int_lia| |done]. intros row' Hr'. simplify_eq. int_lia.
Qed.

(** The nodes are there, with their graph. *)
Definition nodes_there (graph_id : ident) (nodes : list AutomationNode) (db : GraphDb) : Prop :=
  forall n, n ∈ nodes -> gd_nodes db !! nd_id n = Some n /\ nd_graph_id n = graph_id.

Section definition.
Context (db0 : GraphDb) (graph_id : ident) (F : gmap ident AutomationGraph -> Prop).
Context (nodes : list AutomationNode) (edges : list AutomationEdge).
Context (Hnodes : Forall (fun n => nd_graph_id n = graph_id) nodes).
Context (Hedges : Forall (fun e => ed_graph_id e = graph_id) edges).
Context (Hclosed : edges_closed nodes edges).

Let kept (db : GraphDb) : Prop := grown db0 db /\ F (gd_graphs db).

Lemma triple_insert_nodes :
  triple kept (db_each insert_automation_node nodes) (fun _ db => kept db /\ nodes_there graph_id nodes db)
    (fun _ => True).
Proof.
  intros db [Hg HF]. destruct (db_each _ nodes db) as [[r|e] db'] eqn:E; [|done].
  apply insert_rows_ok in E as (-> & Hn & Hfree); [|done].
  set (db' := put_rows put_node nodes db).
  assert (Hl : forall k n, gd_nodes db' !! k = Some n <->
            (n ∈ nodes /\ nd_id n = k) \/ (k ∉ nd_id <$> nodes /\ gd_nodes db !! k = Some n)).
  { intros k n. by apply (lookup_put_rows gd_nodes nd_id put_node). }
  assert (Hold : forall k n, gd_nodes db !! k = Some n -> gd_nodes db' !! k = Some n).
  { intros k n H. apply Hl. right. split; [|done].
    intros (m & -> & Hm)%list_elem_of_fmap. rewrite (Hfree m Hm) in H. done. }
  assert (Eg : gd_graphs db' = gd_graphs db) by by apply put_rows_keeps.
  assert (Ee : gd_edges db' = gd_edges db) by by apply put_rows_keeps.
  rewrite Forall_forall in Hnodes. split.
  - split; [|by rewrite Eg]. apply (grown_same_graphs db0 db); [done| |done].
    destruct Hg as [[W1 W2 W3 W4] _]. split; [by rewrite Eg| |by rewrite Ee|].
    + intros k n [[? <-]|[_ H]]%Hl; [done|by apply W2].
    + rewrite Ee. intros k e He i Hi. destruct (W4 k e He i Hi) as (n & Hn1 & Hn2).
      exists n. split; [by apply Hold|done].
  - intros n Hin. split; [|by apply Hnodes]. apply Hl. by left.
Qed.

Lemma triple_insert_edges :
  triple (fun db => kept db /\ nodes_there graph_id nodes db) (db_each insert_automation_edge edges)
    (fun _ => kept) (fun _ => True).
Proof.
  intros db [[Hg HF] Hth]. destruct (db_each _ edges db) as [[r|e] db'] eqn:E; [|done].
  apply insert_rows_ok in E as (-> & Hn & Hfree); [|done].
  set (db' := put_rows put_edge edges db).
  assert (Hl : forall k e, gd_edges db' !! k = Some e <->
            (e ∈ edges /\ ed_id e = k) \/ (k ∉ ed_id <$> edges /\ gd_edges db !! k = Some e)).
  { intros k n. by apply (lookup_put_rows gd_edges ed_id put_edge). }
  assert (Eg : gd_graphs db' = gd_graphs db) by by apply put_rows_keeps.
  assert (En : gd_nodes db' = gd_nodes db) by by apply put_rows_keeps.
  rewrite Forall_forall in Hedges. split; [|by rewrite Eg].
  apply (grown_same_graphs db0 db); [done| |done].
  destruct Hg as [[W1 W2 W3 W4] _]. split; [by rewrite Eg|by rewrite En| |].
  - intros k e [[? <-]|[_ H]]%Hl; [done|by apply W3].
  - rewrite En. intros k e [[He _]|[_ He]]%Hl i Hi; [|by apply (W4 k e He i Hi)].
    destruct (Hclosed e He) as [H1 H2].
    assert (i ∈ nd_id <$> nodes) as (n & -> & Hin)%list_elem_of_fmap by (by destruct Hi as [->| ->]).
    destruct (Hth n Hin) as [Hn1 Hn2]. exists n. split; [done|]. by rewrite (Hedges e He).
Qed.

Definition no_edges (db : GraphDb) : Prop := forall k e, gd_edges db !! k = Some e -> ed_graph_id e <> graph_id.

Lemma triple_delete_edges :
  triple kept (delete_automation_edges graph_id) (fun _ db => kept db /\ no_edges db) (fun _ => True).
Proof.
  apply triple_write. intros db [Hg HF]. split; [split; [|done]|].
  - apply (grown_same_graphs db0 db); [done| |done]. destruct Hg as [[W1 W2 W3 W4] _].
    split; [done..| |]; simpl.
    + intros k e [H _]%map_lookup_filter_Some. by apply W3.
    + intros k e [H _]%map_lookup_filter_Some. by apply W4 with k.
  - intros k e [_ H]%map_lookup_filter_Some. exact H.
Qed.

Lemma triple_delete_nodes :
  triple (fun db => kept db /\ no_edges db) (delete_automation_nodes graph_id) (fun _ => kept)
    (fun _ => True).
Proof.
  apply triple_write. intros db [[Hg HF] Hno]. split; [|done].
  apply (grown_same_graphs db0 db); [done| |done]. destruct Hg as [[W1 W2 W3 W4] _].
  split; [done| |done|]; simpl.
  - intros k n [H _]%map_lookup_filter_Some. by apply W2.
  - intros k e He i Hi. destruct (W4 k e He i Hi) as (n & Hn1 & Hn2). exists n. split; [|done].
    apply map_lookup_filter_Some. split; [done|]. simpl. rewrite Hn2. by apply (Hno k).
Qed.
End definition.

Lemma nodes_from_requests_graph graph_id requests fresh now :
  Forall (fun n => nd_graph_id n = graph_id)
    (automation_nodes_from_requests graph_id requests fresh now).
Proof. apply Forall_forall. by intros n (i & r & -> & _)%elem_of_lookup_imap. Qed.

Lemma edges_from_requests_graph graph_id requests fresh now :
  Forall (fun e => ed_graph_id e = graph_id)
    (automation_edges_from_requests graph_id requests fresh now).
Proof. apply Forall_forall. by intros n (i & r & -> & _)%elem_of_lookup_imap. Qed.

Lemma validate_automation_edges_ok nodes edges :
  validate_automation_edges nodes edges = Ok tt <-> edges_closed nodes edges.
Proof.
  unfold validate_automation_edges, edges_closed, node_ids. rewrite for_each_ok, Forall_forall.
  setoid_rewrite reject_ok. setoid_rewrite reject_ok. setoid_rewrite negb_false_iff.
  setoid_rewrite bool_decide_eq_true. setoid_rewrite elem_of_list_to_set. naive_solver.
Qed.

Lemma triple_graph_create db0 uuid fresh_node fresh_edge r :
  triple (grown db0) (graph_create uuid fresh_node fresh_edge r) (fun _ => grown db0) (grown db0).
Proof.
  unfold graph_create. eapply (triple_bind _ _ _ (fun _ => grown db0)); [by apply triple_read|]. intros now. cbv zeta.
  set (nodes := automation_nodes_from_requests _ _ _ _). set (edges := automation_edges_from_requests _ _ _ _).
  destruct (validate_automation_edges nodes edges) as [[]|e] eqn:Ev; [|by intros db].
  apply validate_automation_edges_ok in Ev as Hc.
  eapply triple_bind; [apply (triple_lift _ _ (fun _ => grown db0)); auto|]. intros ?.
  apply triple_transaction with (E := fun _ => True).
  set (g := {| gr_id := _ |}).
  eapply (triple_bind _ _ _ (fun _ db => grown db0 db /\ True)).
  { intros db Hg. unfold insert_automation_graph, insert_row.
    destruct (gd_graphs db !! gr_id g) as [row|] eqn:Er; [done|]. split; [|done].
    apply grown_put_graph; [simpl; int_lia| |done]. intros row Hrow. congruence. }
  intros ?. eapply triple_bind.
  { apply (triple_insert_nodes db0 (gr_id g) (fun _ => True)), nodes_from_requests_graph. }
  intros ?. eapply triple_bind.
  { apply (triple_insert_edges db0 (gr_id g) (fun _ => True)); [apply edges_from_requests_graph|done]. }
  intros ?. apply triple_ret. by intros db [? _].
Qed.

Lemma triple_graph_update db0 r :
  triple (grown db0) (graph_update r) (fun _ => grown db0) (grown db0).
Proof.
  unfold graph_update. eapply triple_bind.
  { apply (triple_require_graph _ _ _ (fun g db => grown db0 db /\ find_graph (gu_id r) false db = Some g)); auto. }
  intros g. eapply triple_bind.
  { apply (triple_read _ _ (fun _ db => grown db0 db /\ find_graph (gu_id r) false db = Some g)). auto. }
  intros now. cbv zeta. eapply triple_bind.
  { eapply triple_weaken with (Q' := fun _ => grown db0); [apply (triple_bump db0)| |by intros ? ? []|auto].
    intros db [Hg (row & Hr & ->)%find_graph_row]. split; [done|]. exists row. split; [|done]. simpl.
    by rewrite (proj1 (gw_graphs _ (proj1 Hg) _ _ Hr)). }
  intros ?. by apply triple_require_graph.
Qed.

Lemma triple_graph_soft_delete db0 id :
  triple (grown db0) (graph_soft_delete id) (fun _ => grown db0) (grown db0).
Proof.
  unfold graph_soft_delete. eapply triple_bind.
  { apply (triple_require_graph _ _ _ (fun g db => grown db0 db /\ find_graph id false db = Some g)); auto. }
  intros g. eapply triple_bind.
  { apply (triple_read _ _ (fun _ db => grown db0 db /\ find_graph id false db = Some g)). auto. }
  intros now. eapply triple_bind.
  { eapply triple_weaken with (Q' := fun _ => grown db0); [apply (triple_bump db0)| |by intros ? ? []|auto].
    intros db [Hg (row & Hr & ->)%find_graph_row]. split; [done|]. exists row. split; [|done]. simpl.
    by rewrite (proj1 (gw_graphs _ (proj1 Hg) _ _ Hr)). }
  intros ?. by apply triple_require_graph.
Qed.

(** The version a replacement that was told one leaves. *)
Definition replaced (id : ident) (expected : option Z) (db : GraphDb) : Prop :=
  match expected with
  | Some v => exists row, gd_graphs db !! id = Some row /\ gr_version row = u32_saturating_add v 1
  | None => True
  end.

Lemma triple_replace_definition db0 id nodes edges expected fresh_node fresh_edge :
  triple (grown db0) (replace_definition id nodes edges expected fresh_node fresh_edge)
    (fun _ db => grown db0 db /\ replaced id expected db) (grown db0).
Proof.
  unfold replace_definition. eapply (triple_bind _ _ _ (fun _ => grown db0)); [by apply triple_read|]. intros now. cbv zeta.
  set (ns := automation_nodes_from_requests _ _ _ _). set (es := automation_edges_from_requests _ _ _ _).
  destruct (validate_automation_edges ns es) as [[]|e] eqn:Ev; [|by intros db].
  apply validate_automation_edges_ok in Ev as Hc.
  eapply triple_bind; [apply (triple_lift _ _ (fun _ => grown db0)); auto|]. intros ?.
  eapply (triple_bind _ _ _ (fun _ db => grown db0 db /\ replaced id expected db));
    [|intros ?; by apply triple_require_graph; [|intros ? []]].
  apply triple_transaction with (E := fun _ => True).
  set (stands := fun g (rows : gmap ident AutomationGraph) =>
         gr_id g = id /\ exists row, rows !! id = Some row /\ gr_version g = gr_version row).
  set (expects := fun g => forall v, expected = Some v -> gr_version g = v).
  eapply triple_bind.
  { apply (triple_require_graph _ _ _ (fun g db => grown db0 db /\ stands g (gd_graphs db))); [|done].
    intros db g Hg (row & Hr & ->)%find_graph_row. split; [done|].
    split; [apply (gw_graphs _ (proj1 Hg) _ _ Hr)|by exists row]. }
  intros g. eapply triple_bind.
  { apply (triple_lift _ _ (fun _ db => grown db0 db /\ (stands g (gd_graphs db) /\ expects g))); [|done].
    intros [] db Hexp [Hg Hs]. split_and!; [done..|]. intros v ->.
    apply reject_ok in Hexp as [H _]. by apply negb_false_iff, bool_decide_eq_true in H. }
  intros ?. eapply triple_bind; [apply (triple_delete_edges _ id (fun rows => stands g rows /\ expects g))|].
  intros ?. eapply triple_bind; [apply (triple_delete_nodes _ id (fun rows => stands g rows /\ expects g))|].
  intros ?. eapply triple_bind; [apply (triple_insert_nodes _ id (fun rows => stands g rows /\ expects g)), nodes_from_requests_graph|].
  intros ?. eapply triple_bind; [apply (triple_insert_edges _ id (fun rows => stands g rows /\ expects g)); [apply edges_from_requests_graph|done]|].
  intros ?. intros db [Hg [[Hid (row & Hr & Hv)] Hexp]].
  pose proof (triple_bump db0 (graph_bumped (graph_with g ns es) (gr_status g) now (gr_deleted_at_ms g)) db) as Hb.
  destruct (update_automation_graph _ db) as [[r|e] db'] eqn:Eu; [|done].
  destruct Hb as [Hb1 Hb2]; [split; [done|]; exists row; simpl; by rewrite Hid, Hv|].
  split; [done|]. unfold replaced. destruct expected as [v|]; [|done]. simpl in Hb2. rewrite Hid in Hb2.
  eexists. split; [done|]. simpl. by rewrite (Hexp v eq_refl).
Qed.

(** ** Histories *)

Inductive graph_op : Type :=
| OpCreate (uuid : str) (fresh_node fresh_edge : nat -> str) (r : AutomationGraphCreateRequest)
| OpUpdate (r : AutomationGraphUpdateRequest)
| OpSoftDelete (graph_id : ident)
| OpReplace (graph_id : ident) (nodes : list AutomationNodeCreateRequest)
    (edges : list AutomationEdgeCreateRequest) (expected_version : option Z)
    (fresh_node fresh_edge : nat -> str)
| OpTime (now : Z).
Definition graph_step (db : GraphDb) (op : graph_op) : GraphDb :=
  match op with
  | OpCreate uuid fresh_node fresh_edge r => (graph_create uuid fresh_node fresh_edge r db).2
  | OpUpdate r => (graph_update r db).2
  | OpSoftDelete graph_id => (graph_soft_delete graph_id db).2
  | OpReplace graph_id nodes edges expected fresh_node fresh_edge =>
      (replace_definition graph_id nodes edges expected fresh_node fresh_edge db).2
  | OpTime now => mkGraphDb (gd_graphs db) (gd_nodes db) (gd_edges db) now
  end.

Lemma triple_post {DB A} (P : DB -> Prop) (c : db_call DB A) Q db :
  triple P c Q P -> (forall a db, Q a db -> P db) -> P db -> P (c db).2.
Proof. intros H HQ HP. specialize (H db HP). destruct (c db) as [[a|e] db']; simpl; eauto. Qed.

Lemma graph_step_grown db0 op db : grown db0 db -> grown db0 (graph_step db op).
Proof.
  destruct op; simpl; intros H.
  - by apply (triple_post _ _ _ _ (triple_graph_create db0 _ _ _ _)).
  - by apply (triple_post _ _ _ _ (triple_graph_update db0 _)).
  - by apply (triple_post _ _ _ _ (triple_graph_soft_delete db0 _)).
  - apply (triple_post _ _ _ _ (triple_replace_definition db0 _ _ _ _ _ _)); [by intros ? ? []|done].
  - destruct H as [[W1 W2 W3 W4] H]. by split.
Qed.

Lemma graph_history_grown db0 ops db : grown db0 db -> grown db0 (foldl graph_step db ops).
Proof.
  revert db. induction ops as [|op ops IH]; intros db H; simpl; [done|]. by apply IH, graph_step_grown.
Qed.

Lemma grown_refl db : graphs_wf db -> grown db db.
Proof. intros H. split; [done|]. intros id g ->. exists g. split; [done|lia]. Qed.

Lemma loaded_nodes id db n :
  graphs_wf db -> n ∈ list_automation_nodes id db <-> gd_nodes db !! nd_id n = Some n /\ nd_graph_id n = id.
Proof.
  intros Hw. unfold list_automation_nodes. rewrite sort_by_key_perm, elem_of_retain, bool_decide_eq_true.
  rewrite list_elem_of_fmap. split.
  - intros [([k m] & -> & Hm%elem_of_map_to_list) Hid]. simpl in *.
    by rewrite (gw_nodes _ Hw _ _ Hm).
  - intros [Hn Hid]. split; [|done]. exists (nd_id n, n). by rewrite elem_of_map_to_list.
Qed.

Lemma loaded_edges id db e :
  graphs_wf db -> e ∈ list_automation_edges id db -> gd_edges db !! ed_id e = Some e /\ ed_graph_id e = id.
Proof.
  intros Hw. unfold list_automation_edges. rewrite sort_by_key_perm, elem_of_retain, bool_decide_eq_true.
  rewrite list_elem_of_fmap. intros [([k m] & -> & Hm%elem_of_map_to_list) Hid]. simpl in *.
  by rewrite (gw_edges _ Hw _ _ Hm).
Qed.

Lemma NoDup_filtered_rows {A} (key : A -> ident) (p : A -> bool) (table : gmap ident A) :
  (forall k a, table !! k = Some a -> key a = k) -> NoDup (key <$> retain p (map_to_list table).*2).
Proof.
  intros Hk. apply NoDup_fmap_2_strong.
  - intros x y [([k a] & -> & Ha%elem_of_map_to_list)%list_elem_of_fmap _]%elem_of_retain
      [([k' b] & -> & Hb%elem_of_map_to_list)%list_elem_of_fmap _]%elem_of_retain E. simpl in *.
    rewrite (Hk _ _ Ha), (Hk _ _ Hb) in E. congruence.
  - apply NoDup_ListNoDup, List.NoDup_filter, NoDup_ListNoDup. apply NoDup_fmap_2_strong; [|apply NoDup_map_to_list].
    intros [k a] [k' b] Ha%elem_of_map_to_list Hb%elem_of_map_to_list E. simpl in *. subst b.
    by rewrite <- (Hk _ _ Ha), <- (Hk _ _ Hb).
Qed.

Lemma stored_graphs_closed (ops : list graph_op) (clock : Z) (id : ident) (deleted : bool)
    (g : AutomationGraph) :
  find_graph id deleted (foldl graph_step (mkGraphDb ∅ ∅ ∅ clock) ops) = Some g ->
  gr_id g = id /\ NoDup (nd_id <$> gr_nodes g) /\ edges_closed (gr_nodes g) (gr_edges g).
Proof.
  set (db0 := mkGraphDb ∅ ∅ ∅ clock). intros Hf.
  assert (H0 : graphs_wf db0).
  { split; intros ? ? H; simpl in H; by rewrite lookup_empty in H. }
  destruct (graph_history_grown db0 ops db0 (grown_refl _ H0)) as [Hw _].
  set (db := foldl _ _ _) in *. apply find_graph_row in Hf as (row & Hr & ->). simpl.
  pose proof (proj1 (gw_graphs _ Hw _ _ Hr)) as Hid. split_and!; [done| |].
  - unfold list_automation_nodes. rewrite sort_by_key_perm. apply NoDup_filtered_rows, gw_nodes, Hw.
  - intros e He. apply loaded_edges in He as [He Hg]; [|done].
    split; apply list_elem_of_fmap.
    + destruct (gw_ends _ Hw _ _ He (ed_source_node_id e)) as (n & Hn & Hn'); [by left|].
      pose proof (gw_nodes _ Hw _ _ Hn) as En. exists n. split; [done|]. apply loaded_nodes; [done|].
      by rewrite En, Hn'.
    + destruct (gw_ends _ Hw _ _ He (ed_target_node_id e)) as (n & Hn & Hn'); [by right|].
      pose proof (gw_nodes _ Hw _ _ Hn) as En. exists n. split; [done|]. apply loaded_nodes; [done|].
      by rewrite En, Hn'.
Qed.

(** C33. Whatever graphs are created, edited, replaced and deleted, a graph that is
    read can be executed or holds a cycle, and the error says which: the loop
    that looks for the order ends with an empty queue, the order holds every
    node once and every node after the sources of all edges that lead to it,
    and an edge never refers to a missing node. *)
Theorem stored_graph_is_ordered_or_cyclic (ops : list graph_op) (clock : Z) (id : ident) (deleted : bool)
    (g : AutomationGraph) :
  find_graph id deleted (foldl graph_step (mkGraphDb ∅ ∅ ∅ clock) ops) = Some g ->
  NoDup (nd_id <$> gr_nodes g) /\ kn_queue (kahn_end g) = [] /\
  match topological_order g with
  | Ok order => order ≡ₚ gr_nodes g /\ respects g order /\ forall a, ~ tc (precedes g) a a
  | Err e => e = CYCLE /\ exists a, tc (precedes g) a a
  end.
Proof.
  intros Hf. destruct (stored_graphs_closed _ _ _ _ _ Hf) as (_ & Hn & Hc).
  pose proof (topological_order_cases g Hn) as H. destruct (topological_order g) as [order|e].
  - destruct H as (Hq & _ & Hp & Hr & Hacyclic). by split_and!.
  - destruct H as [[_ H]|(-> & _ & Hq & Hcycle)]; [by destruct H|]. by split_and!.
Qed.

Lemma replace_refused id nodes edges v fresh_node fresh_edge db :
  (forall row, gd_graphs db !! id = Some row -> gr_version row <> v) ->
  exists e, replace_definition id nodes edges (Some v) fresh_node fresh_edge db = (Err e, db).
Proof.
  intros Hv. unfold replace_definition. unfold db_bind at 1 2. unfold db_read, db_lift at 1.
  destruct (validate_automation_edges _ _) as [[]|e]; [|by exists e].
  unfold db_bind at 1. unfold db_transaction, db_bind at 1. unfold require_automation_graph.
  unfold db_bind at 1. unfold get_automation_graph, db_read, db_lift at 1.
  destruct (find_graph id false db) as [g|] eqn:Ef; cbn [ok_or]; [|by eexists].
  apply find_graph_row in Ef as (row & Hr & ->). specialize (Hv row Hr). simpl.
  rewrite (bool_decide_eq_false_2 (gr_version row = v)) by done. by eexists.
Qed.

(** No edit is lost between two editors: once a definition was replaced from a
    version, no draft loaded from that version is accepted any more, whatever
    happens to the tables in between, and the refused draft changes nothing.
    The last version a u32 holds is the exception. *)
Theorem stale_draft_is_refused (id : ident) (v : Z) (nodes nodes' : list AutomationNodeCreateRequest)
    (edges edges' : list AutomationEdgeCreateRequest) (fresh_node fresh_edge fresh_node' fresh_edge' : nat -> str)
    (db db' : GraphDb) (g : AutomationGraph) (ops : list graph_op) :
  graphs_wf db -> (v < u32_max)%Z ->
  replace_definition id nodes edges (Some v) fresh_node fresh_edge db = (Ok g, db') ->
  let later := foldl graph_step db' ops in
  exists e, replace_definition id nodes' edges' (Some v) fresh_node' fresh_edge' later = (Err e, later).
Proof.
  intros Hw Hv Hr. cbv zeta. apply replace_refused. intros row Hrow Ev.
  pose proof (triple_replace_definition db id nodes edges (Some v) fresh_node fresh_edge db (grown_refl db Hw)) as Ht.
  rewrite Hr in Ht. destruct Ht as [[Hw' _] (row' & Hrow' & Ev')].
  destruct (graph_history_grown db' ops db' (grown_refl _ Hw')) as [_ H].
  destruct (H id row' Hrow') as (row2 & Hrow2 & Hle). simplify_eq. int_lia.
Qed.

(** Conditions play no part in the order: with any other conditions on the
    same edges, a graph is executed in the same order or refused alike. *)
Theorem order_ignores_conditions (g : AutomationGraph) (f : AutomationEdge -> AutomationEdgeCondition) :
  let other := graph_with g (gr_nodes g)
    ((fun e => mkEdge (ed_id e) (ed_graph_id e) (ed_source_node_id e) (ed_target_node_id e) (f e)
                 (ed_created_at_ms e) (ed_updated_at_ms e)) <$> gr_edges g) in
  topological_order other = topological_order g.
Proof.
  cbv zeta. unfold topological_order, kahn_end, kahn_start, kahn_fuel. simpl.
  by rewrite foldl_fmap, for_each_fmap.
Qed.
