(* ===== verification/Automation.v ===== *)
(** Automation runs: the run, step and permission tables of
    crates/db/src/lib.rs and the runner of crates/agent/src/automation.rs
    (AutomationGraphRunner).  As in [Schedule], a repository call is one step, a
    runner call is a composition of such steps in which the writes made before
    an error stay, and what the Agent manager answers and what other connections
    write while the runner waits is a [Setting]. *)
From stdpp Require Import prelude strings list gmap.
From Stdlib Require Import NArith ZArith Lia Permutation.
From S2P Require Import Prelude CoreTypes Storage AutomationGraph.

(** ** Records (core/src/automation_graph.rs, core/src/permission.rs) *)

Inductive AutomationRunStatus : Type :=
| ArQueued | ArRunning | ArWaitingForApproval | ArSucceeded | ArFailed | ArCanceled | ArRecovered.
#[export] Instance AutomationRunStatus_eq_dec : EqDecision AutomationRunStatus.
Proof. solve_decision. Defined.
Inductive AutomationRunTrigger : Type := ByManual | ByScheduledTask | ByRecovery.

Record AutomationRun : Type := mkAutomationRun {
  ar_id : ident;
  ar_graph_id : ident;
  ar_status : AutomationRunStatus;
  ar_trigger : AutomationRunTrigger;
  ar_scheduled_task_id : option ident;
  ar_session_id : option ident;
  ar_started_at_ms : option Z;
  ar_ended_at_ms : option Z;
  ar_error_code : option str;
  ar_error_message : option str;
  ar_redacted_diagnostics : list RedactedDiagnostic;
  ar_created_at_ms : Z;
  ar_updated_at_ms : Z
}.
Record AutomationRunCreateRequest : Type := mkRunCreate {
  rc_graph_id : ident;
  rc_status : AutomationRunStatus;
  rc_trigger : AutomationRunTrigger;
  rc_scheduled_task_id : option ident;
  rc_session_id : option ident;
  rc_started_at_ms : option Z;
  rc_ended_at_ms : option Z;
  rc_error_code : option str;
  rc_error_message : option str;
  rc_redacted_diagnostics : list RedactedDiagnostic
}.
Record AutomationRunUpdateRequest : Type := mkAutomationRunUpdate {
  au_id : ident;
  au_status : option AutomationRunStatus;
  au_scheduled_task_id : option ident;
  au_clear_scheduled_task_id : bool;
  au_session_id : option ident;
  au_clear_session_id : bool;
  au_started_at_ms : option Z;
  au_clear_started_at_ms : bool;
  au_ended_at_ms : option Z;
  au_clear_ended_at_ms : bool;
  au_error_code : option str;
  au_clear_error_code : bool;
  au_error_message : option str;
  au_clear_error_message : bool;
  au_redacted_diagnostics : option (list RedactedDiagnostic)
}.
Record AutomationRunListRequest : Type := mkRunList {
  rl_graph_id : option ident;
  rl_status : option AutomationRunStatus;
  rl_limit : option Z
}.
Record AutomationRunStartRequest : Type := mkRunStart {
  rs_graph_id : ident;
  rs_trigger : AutomationRunTrigger;
  rs_scheduled_task_id : option ident;
  rs_now_ms : option Z
}.
Record AutomationRunResumeRequest : Type := mkRunResume { rr_run_id : ident; rr_now_ms : option Z }.
Record AutomationRunCancelRequest : Type := mkRunCancel {
  rx_run_id : ident;
  rx_now_ms : option Z;
  rx_reason : option str
}.

Inductive AutomationRunStepStatus : Type :=
| AsQueued | AsRunning | AsWaitingForApproval | AsSucceeded | AsFailed | AsSkipped | AsCanceled.
#[export] Instance AutomationRunStepStatus_eq_dec : EqDecision AutomationRunStepStatus.
Proof. solve_decision. Defined.
Record AutomationRunStep : Type := mkRunStep {
  as_id : ident;
  as_run_id : ident;
  as_node_id : ident;
  as_status : AutomationRunStepStatus;
  as_session_id : option ident;
  as_permission_request_id : option ident;
  as_started_at_ms : option Z;
  as_ended_at_ms : option Z;
  as_error_code : option str;
  as_error_message : option str;
  as_redacted_diagnostics : list RedactedDiagnostic;
  as_created_at_ms : Z;
  as_updated_at_ms : Z
}.
Record AutomationRunStepCreateRequest : Type := mkStepCreate {
  sc_run_id : ident;
  sc_node_id : ident;
  sc_status : AutomationRunStepStatus;
  sc_session_id : option ident;
  sc_permission_request_id : option ident;
  sc_started_at_ms : option Z;
  sc_ended_at_ms : option Z;
  sc_error_code : option str;
  sc_error_message : option str;
  sc_redacted_diagnostics : list RedactedDiagnostic
}.
Record AutomationRunStepUpdateRequest : Type := mkStepUpdate {
  su_id : ident;
  su_status : option AutomationRunStepStatus;
  su_session_id : option ident;
  su_clear_session_id : bool;
  su_permission_request_id : option ident;
  su_clear_permission_request_id : bool;
  su_started_at_ms : option Z;
  su_clear_started_at_ms : bool;
  su_ended_at_ms : option Z;
  su_clear_ended_at_ms : bool;
  su_error_code : option str;
  su_clear_error_code : bool;
  su_error_message : option str;
  su_clear_error_message : bool;
  su_redacted_diagnostics : option (list RedactedDiagnostic)
}.
Record AutomationRunStepListRequest : Type := mkStepList {
  sl_run_id : option ident;
  sl_node_id : option ident;
  sl_status : option AutomationRunStepStatus;
  sl_limit : option Z
}.

Inductive PermissionRequestStatus : Type := PermPending | PermApproved | PermDenied | PermExpired.
#[export] Instance PermissionRequestStatus_eq_dec : EqDecision PermissionRequestStatus.
Proof. solve_decision. Defined.
Record PermissionActionDetail : Type := mkActionDetail { ad_label : str; ad_value : str }.
Record PermissionResponseOption : Type := mkResponseOption {
  po_option_id : str;
  po_label : str;
  po_response : PermissionResponseKind
}.
Record PermissionRequest : Type := mkPermissionRequest {
  pq_id : ident;
  pq_session_id : ident;
  pq_project_id : option ident;
  pq_workspace_id : option ident;
  pq_provider_request_id : option str;
  pq_risk_category : PermissionRiskCategory;
  pq_title : str;
  pq_details : list PermissionActionDetail;
  pq_allowed_responses : list PermissionResponseKind;
  pq_response_options : list PermissionResponseOption;
  pq_status : PermissionRequestStatus;
  pq_requested_at_ms : Z;
  pq_expires_at_ms : option Z
}.
Record PermissionResolution : Type := mkPermissionResolution {
  pr_request_id : ident;
  pr_session_id : ident;
  pr_response : PermissionResponseKind;
  pr_responder_device_id : option ident;
  pr_provider_resolution_id : option str;
  pr_note : option str;
  pr_resolved_at_ms : Z
}.
(** A row of permission_requests: the request, and what closed it. *)
Record PermissionRow : Type := mkPermissionRow {
  pw_request : PermissionRequest;
  pw_resolution : option PermissionResolution;
  pw_resolved_at_ms : option Z
}.

(** ** The tables *)

Record AutoDb : Type := mkAutoDb {
  db_graphs : GraphDb;
  db_runs : gmap ident AutomationRun;
  db_steps : gmap ident AutomationRunStep;
  db_permissions : gmap ident PermissionRow
}.
Abbreviation auto_call := (db_call AutoDb).
Definition db_clock (db : AutoDb) : Z := gd_clock (db_graphs db).

Definition AutomationRunId : id_kind := mkIdKind "AutomationRunId" "automation_run".
Definition AutomationRunStepId : id_kind := mkIdKind "AutomationRunStepId" "automation_step".

Definition put_automation_run (run : AutomationRun) (db : AutoDb) : AutoDb :=
  mkAutoDb (db_graphs db) (<[ar_id run := run]> (db_runs db)) (db_steps db) (db_permissions db).
Definition put_step (step : AutomationRunStep) (db : AutoDb) : AutoDb :=
  mkAutoDb (db_graphs db) (db_runs db) (<[as_id step := step]> (db_steps db)) (db_permissions db).
Definition put_permission (row : PermissionRow) (db : AutoDb) : AutoDb :=
  mkAutoDb (db_graphs db) (db_runs db) (db_steps db) (<[pq_id (pw_request row) := row]> (db_permissions db)).

Definition insert_automation_run : AutomationRun -> auto_call unit :=
  insert_row db_runs ar_id put_automation_run
    (VibexError_storage (lit "automation_run_insert_failed") (lit "failed to insert automation graph run")).
Definition insert_automation_run_step : AutomationRunStep -> auto_call unit :=
  insert_row db_steps as_id put_step
    (VibexError_storage (lit "automation_run_step_insert_failed")
       (lit "failed to insert automation graph run step")).
Definition update_automation_run : AutomationRun -> auto_call unit :=
  update_row db_runs ar_id put_automation_run.
Definition update_automation_run_step : AutomationRunStep -> auto_call unit :=
  update_row db_steps as_id put_step.

(** ** Repository (AutomationGraphRepository, PermissionRepository) *)

Definition bounded_code (code : option str) : option str :=
  (fun c => truncate_chars c SCHEDULED_TASK_ERROR_CODE_MAX_CHARS) <$> code.
Definition bounded_message (message : option str) : option str :=
  (fun m => truncate_chars m SCHEDULED_TASK_ERROR_MESSAGE_MAX_CHARS) <$> message.

Definition create_run (uuid : str) (r : AutomationRunCreateRequest) : auto_call AutomationRun :=
  let! now := db_read db_clock in
  let run := {| ar_id := id_new AutomationRunId uuid; ar_graph_id := rc_graph_id r;
    ar_status := rc_status r; ar_trigger := rc_trigger r;
    ar_scheduled_task_id := rc_scheduled_task_id r; ar_session_id := rc_session_id r;
    ar_started_at_ms := rc_started_at_ms r; ar_ended_at_ms := rc_ended_at_ms r;
    ar_error_code := bounded_code (rc_error_code r);
    ar_error_message := bounded_message (rc_error_message r);
    ar_redacted_diagnostics := bound_scheduled_task_diagnostics (rc_redacted_diagnostics r);
    ar_created_at_ms := now; ar_updated_at_ms := now |} in
  let! _ := insert_automation_run run in
  db_ret run.

Definition get_run (run_id : ident) : auto_call (option AutomationRun) :=
  db_read (fun db => db_runs db !! run_id).
Definition AUTOMATION_RUN_NOT_FOUND (run_id : ident) : VibexError :=
  with_diagnostic (VibexError_storage (lit "automation_run_not_found")
                     (lit "automation graph run was not found"))
    (lit "automationRunId") run_id.
Definition require_automation_run (run_id : ident) : auto_call AutomationRun :=
  let! found := get_run run_id in
  db_lift (ok_or found (AUTOMATION_RUN_NOT_FOUND run_id)).

Definition patched_run (r : AutomationRunUpdateRequest) (now : Z) (run : AutomationRun) : AutomationRun :=
  {| ar_id := ar_id run; ar_graph_id := ar_graph_id run;
     ar_status := default (ar_status run) (au_status r); ar_trigger := ar_trigger run;
     ar_scheduled_task_id :=
       set_or_clear (au_scheduled_task_id r) (au_clear_scheduled_task_id r) (ar_scheduled_task_id run);
     ar_session_id := set_or_clear (au_session_id r) (au_clear_session_id r) (ar_session_id run);
     ar_started_at_ms :=
       set_or_clear (au_started_at_ms r) (au_clear_started_at_ms r) (ar_started_at_ms run);
     ar_ended_at_ms := set_or_clear (au_ended_at_ms r) (au_clear_ended_at_ms r) (ar_ended_at_ms run);
     ar_error_code :=
       set_or_clear (bounded_code (au_error_code r)) (au_clear_error_code r) (ar_error_code run);
     ar_error_message :=
       set_or_clear (bounded_message (au_error_message r)) (au_clear_error_message r)
         (ar_error_message run);
     ar_redacted_diagnostics :=
       match au_redacted_diagnostics r with
       | Some diagnostics => bound_scheduled_task_diagnostics diagnostics
       | None => ar_redacted_diagnostics run
       end;
     ar_created_at_ms := ar_created_at_ms run; ar_updated_at_ms := now |}.
Definition update_run (r : AutomationRunUpdateRequest) : auto_call AutomationRun :=
  let! run := require_automation_run (au_id r) in
  let! now := db_read db_clock in
  let run := patched_run r now run in
  let! _ := update_automation_run run in
  db_ret run.

(** ORDER BY created_at_ms DESC, id DESC. *)
Definition list_runs (r : AutomationRunListRequest) : auto_call (list AutomationRun) :=
  db_read (fun db =>
    take (Z.to_nat (bounded_limit (rl_limit r)))
      (reverse (sort_by_key (fun run => ar_created_at_ms run :: (Z.of_N <$> ar_id run))
        (retain (fun run =>
           match rl_graph_id r with Some g => bool_decide (ar_graph_id run = g) | None => true end
           && match rl_status r with Some s => bool_decide (ar_status run = s) | None => true end)
         (map_to_list (db_runs db)).*2)))).

Definition create_run_step (uuid : str) (r : AutomationRunStepCreateRequest) : auto_call AutomationRunStep :=
  let! now := db_read db_clock in
  let step := {| as_id := id_new AutomationRunStepId uuid; as_run_id := sc_run_id r;
    as_node_id := sc_node_id r; as_status := sc_status r; as_session_id := sc_session_id r;
    as_permission_request_id := sc_permission_request_id r;
    as_started_at_ms := sc_started_at_ms r; as_ended_at_ms := sc_ended_at_ms r;
    as_error_code := bounded_code (sc_error_code r);
    as_error_message := bounded_message (sc_error_message r);
    as_redacted_diagnostics := bound_scheduled_task_diagnostics (sc_redacted_diagnostics r);
    as_created_at_ms := now; as_updated_at_ms := now |} in
  let! _ := insert_automation_run_step step in
  db_ret step.

Definition get_run_step (step_id : ident) : auto_call (option AutomationRunStep) :=
  db_read (fun db => db_steps db !! step_id).
Definition AUTOMATION_STEP_NOT_FOUND (step_id : ident) : VibexError :=
  with_diagnostic (VibexError_storage (lit "automation_run_step_not_found")
                     (lit "automation graph run step was not found"))
    (lit "automationRunStepId") step_id.
Definition require_automation_run_step (step_id : ident) : auto_call AutomationRunStep :=
  let! found := get_run_step step_id in
  db_lift (ok_or found (AUTOMATION_STEP_NOT_FOUND step_id)).

Definition patched_step (r : AutomationRunStepUpdateRequest) (now : Z) (step : AutomationRunStep)
  : AutomationRunStep :=
  {| as_id := as_id step; as_run_id := as_run_id step; as_node_id := as_node_id step;
     as_status := default (as_status step) (su_status r);
     as_session_id := set_or_clear (su_session_id r) (su_clear_session_id r) (as_session_id step);
     as_permission_request_id :=
       set_or_clear (su_permission_request_id r) (su_clear_permission_request_id r)
         (as_permission_request_id step);
     as_started_at_ms :=
       set_or_clear (su_started_at_ms r) (su_clear_started_at_ms r) (as_started_at_ms step);
     as_ended_at_ms := set_or_clear (su_ended_at_ms r) (su_clear_ended_at_ms r) (as_ended_at_ms step);
     as_error_code :=
       set_or_clear (bounded_code (su_error_code r)) (su_clear_error_code r) (as_error_code step);
     as_error_message :=
       set_or_clear (bounded_message (su_error_message r)) (su_clear_error_message r)
         (as_error_message step);
     as_redacted_diagnostics :=
       match su_redacted_diagnostics r with
       | Some diagnostics => bound_scheduled_task_diagnostics diagnostics
       | None => as_redacted_diagnostics step
       end;
     as_created_at_ms := as_created_at_ms step; as_updated_at_ms := now |}.
Definition update_run_step (r : AutomationRunStepUpdateRequest) : auto_call AutomationRunStep :=
  let! step := require_automation_run_step (su_id r) in
  let! now := db_read db_clock in
  let step := patched_step r now step in
  let! _ := update_automation_run_step step in
  db_ret step.

Definition matches_step (r : AutomationRunStepListRequest) (step : AutomationRunStep) : bool :=
  match sl_run_id r with Some i => bool_decide (as_run_id step = i) | None => true end
  && match sl_node_id r with Some i => bool_decide (as_node_id step = i) | None => true end
  && match sl_status r with Some s => bool_decide (as_status step = s) | None => true end.
Definition list_run_steps (r : AutomationRunStepListRequest) : auto_call (list AutomationRunStep) :=
  db_read (fun db =>
    take (Z.to_nat (bounded_limit (sl_limit r)))
      (reverse (sort_by_key (fun step => as_created_at_ms step :: (Z.of_N <$> as_id step))
        (retain (matches_step r) (map_to_list (db_steps db)).*2)))).

Definition insert_request (request : PermissionRequest) : auto_call unit :=
  insert_row db_permissions (fun row => pq_id (pw_request row)) put_permission
    (VibexError_storage (lit "permission_request_insert_failed")
       (lit "failed to insert permission request"))
    (mkPermissionRow request None None).
Definition find_request (request_id : ident) (db : AutoDb) : option PermissionRequest :=
  pw_request <$> db_permissions db !! request_id.
Definition get_request (request_id : ident) : auto_call (option PermissionRequest) :=
  db_read (find_request request_id).
Definition request_with (request : PermissionRequest) (status : PermissionRequestStatus) : PermissionRequest :=
  {| pq_id := pq_id request; pq_session_id := pq_session_id request;
     pq_project_id := pq_project_id request; pq_workspace_id := pq_workspace_id request;
     pq_provider_request_id := pq_provider_request_id request;
     pq_risk_category := pq_risk_category request; pq_title := pq_title request;
     pq_details := pq_details request; pq_allowed_responses := pq_allowed_responses request;
     pq_response_options := pq_response_options request; pq_status := status;
     pq_requested_at_ms := pq_requested_at_ms request; pq_expires_at_ms := pq_expires_at_ms request |}.
(** UPDATE ... WHERE request_id AND session_id AND status = pending: whether a
    row was changed. *)
Definition close_pending (request_id session_id : ident) (status : PermissionRequestStatus)
    (resolution : option PermissionResolution) (resolved_at_ms : Z) : auto_call bool := fun db =>
  match db_permissions db !! request_id with
  | Some row =>
      let request := pw_request row in
      if bool_decide (pq_session_id request = session_id) && bool_decide (pq_status request = PermPending)
      then (Ok true, put_permission
                       (mkPermissionRow (request_with request status) resolution (Some resolved_at_ms)) db)
      else (Ok false, db)
  | None => (Ok false, db)
  end.
Definition resolve (resolution : PermissionResolution) : auto_call unit :=
  let status := match pr_response resolution with
                | Approve | AlwaysAllowForSession => PermApproved
                | Deny => PermDenied
                end in
  let! updated := close_pending (pr_request_id resolution) (pr_session_id resolution) status
                    (Some resolution) (pr_resolved_at_ms resolution) in
  if negb updated then
    db_fail (with_diagnostic
      (VibexError_conflict (lit "permission_request_not_pending")
         (lit "permission request is no longer pending"))
      (lit "requestId") (pr_request_id resolution))
  else db_ret tt.
Definition expire (request_id session_id : ident) (resolved_at_ms : Z) : auto_call bool :=
  close_pending request_id session_id PermExpired None resolved_at_ms.
Definition requests_where (p : PermissionRequest -> bool) (db : AutoDb) : list PermissionRequest :=
  retain p (pw_request <$> (map_to_list (db_permissions db)).*2).
(** ORDER BY expires_at_ms ASC LIMIT [limit]. *)
Definition list_pending_expired (now_ms : Z) (limit : nat) : auto_call (list PermissionRequest) :=
  db_read (fun db =>
    take limit (sort_by_key (fun request => [default 0%Z (pq_expires_at_ms request)])
      (requests_where (fun request =>
         bool_decide (pq_status request = PermPending)
         && match pq_expires_at_ms request with Some at_ms => (at_ms <=? now_ms)%Z | None => false end) db))).
(** ORDER BY requested_at_ms ASC. *)
Definition pending_for_session (session_id : ident) : auto_call (list PermissionRequest) :=
  db_read (fun db =>
    sort_by_key (fun request => [pq_requested_at_ms request])
      (requests_where (fun request => bool_decide (pq_session_id request = session_id)
                                      && bool_decide (pq_status request = PermPending)) db)).

(** ** What the runner asks of the tables *)

Definition on_graphs {A} (c : graph_call A) : auto_call A := fun db =>
  let '(r, graphs) := c (db_graphs db) in
  (r, mkAutoDb graphs (db_runs db) (db_steps db) (db_permissions db)).

(** The fields in which the runner's updates differ. *)
Definition run_request (run_id : ident) (status : option AutomationRunStatus) (session_id : option ident)
    (ended : option Z) (clear_ended : bool) (error : option (str * str)) (clear_error : bool)
    (diagnostics : option (list RedactedDiagnostic)) : AutomationRunUpdateRequest :=
  {| au_id := run_id; au_status := status; au_scheduled_task_id := None;
     au_clear_scheduled_task_id := false; au_session_id := session_id; au_clear_session_id := false;
     au_started_at_ms := None; au_clear_started_at_ms := false; au_ended_at_ms := ended;
     au_clear_ended_at_ms := clear_ended; au_error_code := fst <$> error;
     au_clear_error_code := clear_error; au_error_message := snd <$> error;
     au_clear_error_message := clear_error; au_redacted_diagnostics := diagnostics |}.
Definition step_request (step_id : ident) (status : option AutomationRunStepStatus)
    (session_id permission_request_id : option ident) (ended : option Z) (error : option (str * str))
    (clear_error : bool) (diagnostics : option (list RedactedDiagnostic)) : AutomationRunStepUpdateRequest :=
  {| su_id := step_id; su_status := status; su_session_id := session_id; su_clear_session_id := false;
     su_permission_request_id := permission_request_id; su_clear_permission_request_id := false;
     su_started_at_ms := None; su_clear_started_at_ms := false; su_ended_at_ms := ended;
     su_clear_ended_at_ms := false; su_error_code := fst <$> error; su_clear_error_code := clear_error;
     su_error_message := snd <$> error; su_clear_error_message := clear_error;
     su_redacted_diagnostics := diagnostics |}.

Definition update_step_session (step : AutomationRunStep) (session_id : option ident)
  : auto_call AutomationRunStep :=
  update_run_step (step_request (as_id step) None session_id None None None false None).
Definition update_run_session (run : AutomationRun) (session_id : option ident) : auto_call AutomationRun :=
  update_run (run_request (ar_id run) None session_id None false None false None).
Definition update_step_success (step : AutomationRunStep) (now_ms : Z) : auto_call AutomationRunStep :=
  update_run_step (step_request (as_id step) (Some AsSucceeded) (as_session_id step)
    (as_permission_request_id step) (Some now_ms) None true (Some [])).
Definition update_step_waiting (step : AutomationRunStep) (permission_request_id : option ident) (now_ms : Z)
  : auto_call AutomationRunStep :=
  update_run_step (step_request (as_id step) (Some AsWaitingForApproval) (as_session_id step)
    permission_request_id (Some now_ms)
    (Some (lit "automation/permission_required", lit "automation graph step requires approval"))
    false (Some [])).
Definition update_run_waiting (run : AutomationRun) : auto_call AutomationRun :=
  update_run (run_request (ar_id run) (Some ArWaitingForApproval) (ar_session_id run) None false
    (Some (lit "automation/permission_required", lit "automation graph run requires approval"))
    false (Some [])).
Definition update_step_failure (step : AutomationRunStep) (now_ms : Z) (code message : str)
    (diagnostics : list RedactedDiagnostic) : auto_call AutomationRunStep :=
  update_run_step (step_request (as_id step) (Some AsFailed) (as_session_id step)
    (as_permission_request_id step) (Some now_ms) (Some (code, message)) false (Some diagnostics)).
Definition update_run_failure (run : AutomationRun) (now_ms : Z) (code message : str)
    (diagnostics : list RedactedDiagnostic) : auto_call AutomationRun :=
  update_run (run_request (ar_id run) (Some ArFailed) (ar_session_id run) (Some now_ms) false
    (Some (code, message)) false (Some diagnostics)).

Definition redacted_diagnostics_from_error (err : VibexError) : list RedactedDiagnostic :=
  mkDiagnostic (lit "errorCategory") (category_debug (err_category err)) :: err_diagnostics err.
Definition truncate_diagnostic (value : str) : str := take 240 value.
Definition update_step_from_error (step : AutomationRunStep) (now_ms : Z) (err : VibexError)
  : auto_call AutomationRunStep :=
  update_step_failure step now_ms (err_code err) (err_message err) (redacted_diagnostics_from_error err).
Definition update_run_from_error (run : AutomationRun) (now_ms : Z) (err : VibexError) (step_id : ident)
  : auto_call AutomationRun :=
  update_run_failure run now_ms (err_code err) (err_message err)
    (redacted_diagnostics_from_error err ++ [mkDiagnostic (lit "stepId") step_id]).

Definition load_executable_graph (graph_id : ident) : auto_call AutomationGraph :=
  let! found := on_graphs (get_automation_graph graph_id false) in
  let! graph := db_lift (ok_or found (GRAPH_NOT_FOUND graph_id)) in
  match gr_status graph with
  | GraphActive => db_ret graph
  | GraphPaused => db_fail (VibexError_conflict (lit "automation_graph_paused")
                              (lit "paused automation graph cannot be started"))
  | GraphDeleted => db_fail (VibexError_conflict (lit "automation_graph_deleted")
                               (lit "deleted automation graph cannot be started"))
  end.

Definition create_running_step (uuid : str) (run : AutomationRun) (node : AutomationNode) (now_ms : Z)
  : auto_call AutomationRunStep :=
  create_run_step uuid {| sc_run_id := ar_id run; sc_node_id := nd_id node; sc_status := AsRunning;
    sc_session_id := None; sc_permission_request_id := None; sc_started_at_ms := Some now_ms;
    sc_ended_at_ms := None; sc_error_code := None; sc_error_message := None;
    sc_redacted_diagnostics := [] |}.
Definition step_for_node (run_id node_id : ident) : auto_call (option AutomationRunStep) :=
  let! steps := list_run_steps (mkStepList (Some run_id) (Some node_id) None (Some 1%Z)) in
  db_ret (head steps).
Definition waiting_steps_for_run (run_id : ident) : auto_call (list AutomationRunStep) :=
  list_run_steps (mkStepList (Some run_id) None (Some AsWaitingForApproval) (Some 100%Z)).

(** ** The runner (AutomationGraphRunner) *)

(** What the manager answers to an approval gate: like a [Turn], with the
    permission request recorded, refused before it is inserted, or inserted
    and then refused. *)
Inductive GateTurn : Type :=
| GateNoRuntime (err : VibexError)
| GateNoSession (err : VibexError)
| GateNotRecorded (session : ident) (err : VibexError)
| GateHalfRecorded (session : ident) (err : VibexError)
| GateRecorded (session : ident).

(** Where the runner waits or opens a new connection: before a node, while the
    manager opens its session and answers, between two calls of the
    repository, before the row of a waiting run is read to be returned, and
    before the row of a run that is over is written. *)
Inductive AutoPause : Type :=
| BeforeNode | OpeningNodeSession | AwaitingNode | BetweenCalls | Returning | Closing.

Record AutoSetting : Type := mkAutoSetting {
  st_prompt : AutomationNode -> Turn;
  st_gate : AutomationNode -> GateTurn;
  st_others : ident -> AutoPause -> AutoDb -> AutoDb;
  st_run_uuid : str;
  st_step_uuid : ident -> str;
  st_request_uuid : ident -> str
}.

Inductive NodeExecution : Type := NodeSucceeded | NodeWaiting | NodeFailed (run : AutomationRun).

Definition UNSUPPORTED_NODE : str * str :=
  (lit "automation/unsupported_node_kind",
   lit "automation node kind is not executable in this runtime child").
(** [format!("{:?}", node.kind)]. *)
Definition node_kind_debug (kind : AutomationNodeKind) : str :=
  lit match kind with
      | KindAgentPrompt => "AgentPrompt" | KindApprovalGate => "ApprovalGate"
      | KindFileCheck => "FileCheck" | KindGitCheck => "GitCheck" | KindTerminalCheck => "TerminalCheck"
      end.

Section runner.
Context (setting : AutoSetting).

Definition others_at (node_id : ident) (p : AutoPause) : auto_call unit :=
  db_write (st_others setting node_id p).

Definition fail_node (node : AutomationNode) (run : AutomationRun) (step : AutomationRunStep) (now_ms : Z) (err : VibexError)
  : auto_call NodeExecution :=
  let! failed_step := update_step_from_error step now_ms err in
  let! _ := others_at (nd_id node) BetweenCalls in
  let! failed_run := update_run_from_error run now_ms err (as_id failed_step) in
  db_ret (NodeFailed failed_run).

Definition execute_agent_prompt_node (run : AutomationRun) (node : AutomationNode)
    (step : AutomationRunStep) (now_ms : Z) : auto_call NodeExecution :=
  let turn := st_prompt setting node in
  match turn with
  | NoRuntime err => db_fail err
  | NoSession err =>
      let! _ := others_at (nd_id node) OpeningNodeSession in
      fail_node node run step now_ms err
  | NotSent session _ | NotRead session _ | Settled session _ =>
      let! _ := others_at (nd_id node) OpeningNodeSession in
      let! step := update_step_session step (Some session) in
      let! _ := others_at (nd_id node) BetweenCalls in
      let! run := update_run_session run (Some session) in
      let! _ := others_at (nd_id node) AwaitingNode in
      match turn with
      | NotSent _ err => fail_node node run step now_ms err
      | NotRead _ err => db_fail err
      | Settled _ state =>
          if bool_decide (state = NeedsInput) then
            let! pending := pending_for_session session in
            let! _ := others_at (nd_id node) BetweenCalls in
            let! _ := update_step_waiting step (pq_id <$> head pending) now_ms in
            let! _ := others_at (nd_id node) BetweenCalls in
            let! _ := update_run_waiting run in
            db_ret NodeWaiting
          else
            let! _ := update_step_success step now_ms in
            db_ret NodeSucceeded
      | _ => db_ret NodeSucceeded
      end
  end.

(** The permission request of an approval gate. *)
Definition gate_request (graph : AutomationGraph) (node : AutomationNode) (step : AutomationRunStep)
    (config : AutomationApprovalGateConfig) (session : ident) (now_ms : Z) : PermissionRequest :=
  {| pq_id := id_new RequestId (st_request_uuid setting (nd_id node)); pq_session_id := session;
     pq_project_id := gr_project_id graph; pq_workspace_id := gr_workspace_id graph;
     pq_provider_request_id := Some (lit "automation:" ++ as_id step);
     pq_risk_category := gt_risk_category config; pq_title := gt_title config;
     pq_details := [mkActionDetail (lit "approval") (truncate_diagnostic (gt_details config))];
     pq_allowed_responses := gt_allowed_responses config; pq_response_options := [];
     pq_status := PermPending; pq_requested_at_ms := now_ms; pq_expires_at_ms := None |}.

Definition execute_approval_gate_node (graph : AutomationGraph) (run : AutomationRun)
    (node : AutomationNode) (step : AutomationRunStep) (config : AutomationApprovalGateConfig) (now_ms : Z)
  : auto_call NodeExecution :=
  let turn := st_gate setting node in
  match turn with
  | GateNoRuntime err => db_fail err
  | GateNoSession err =>
      let! _ := others_at (nd_id node) OpeningNodeSession in
      db_fail err
  | GateNotRecorded session _ | GateHalfRecorded session _ | GateRecorded session =>
      let! _ := others_at (nd_id node) OpeningNodeSession in
      let! step := update_step_session step (Some session) in
      let! _ := others_at (nd_id node) BetweenCalls in
      let! run := update_run_session run (Some session) in
      let permission := gate_request graph node step config session now_ms in
      let! _ := match turn with
                | GateNotRecorded _ err => db_fail err
                | GateHalfRecorded _ err => let! _ := insert_request permission in db_fail err
                | _ => insert_request permission
                end in
      let! _ := others_at (nd_id node) AwaitingNode in
      let! _ := update_step_waiting step (Some (pq_id permission)) now_ms in
      let! _ := others_at (nd_id node) BetweenCalls in
      let! _ := update_run_waiting run in
      db_ret NodeWaiting
  end.

Definition execute_node (graph : AutomationGraph) (run : AutomationRun) (node : AutomationNode) (now_ms : Z)
  : auto_call NodeExecution :=
  let! step := create_running_step (st_step_uuid setting (nd_id node)) run node now_ms in
  match nd_config node with
  | AgentPrompt _ => execute_agent_prompt_node run node step now_ms
  | ApprovalGate config => execute_approval_gate_node graph run node step config now_ms
  | FileCheck _ _ | GitCheck _ _ | TerminalCheck _ _ =>
      let '(code, message) := UNSUPPORTED_NODE in
      let! failed_step := update_step_failure step now_ms code message
        [mkDiagnostic (lit "nodeKind") (node_kind_debug (nd_kind node))] in
      let! _ := others_at (nd_id node) BetweenCalls in
      let! failed_run := update_run_failure run now_ms code message
        [mkDiagnostic (lit "stepId") (as_id failed_step)] in
      db_ret (NodeFailed failed_run)
  end.

(** The nodes of the order, from one on: [None] when all have succeeded. *)
Fixpoint execute_nodes (graph : AutomationGraph) (run : AutomationRun) (now_ms : Z)
    (order : list AutomationNode) : auto_call (option AutomationRun) :=
  match order with
  | [] => db_ret None
  | node :: order =>
      let! _ := others_at (nd_id node) BeforeNode in
      let! found := step_for_node (ar_id run) (nd_id node) in
      match found with
      | Some _ => execute_nodes graph run now_ms order
      | None =>
          let! _ := others_at (nd_id node) BetweenCalls in
          let! execution := execute_node graph run node now_ms in
          match execution with
          | NodeSucceeded => execute_nodes graph run now_ms order
          | NodeWaiting =>
              let! _ := others_at (nd_id node) Returning in
              let! run := require_automation_run (ar_id run) in db_ret (Some run)
          | NodeFailed failed_run => db_ret (Some failed_run)
          end
      end
  end.

Definition execute_ready_nodes (graph : AutomationGraph) (run : AutomationRun) (now_ms : Z)
  : auto_call AutomationRun :=
  let! order := db_lift (topological_order graph) in
  let! stopped := execute_nodes graph run now_ms order in
  match stopped with
  | Some run => db_ret run
  | None =>
      let! _ := others_at (ar_id run) Closing in
      update_run (run_request (ar_id run) (Some ArSucceeded) (ar_session_id run) (Some now_ms) false
        None true (Some []))
  end.

Definition start_graph (r : AutomationRunStartRequest) : auto_call AutomationRun :=
  let! now_ms := db_read (fun db => default (db_clock db) (rs_now_ms r)) in
  let! graph := load_executable_graph (rs_graph_id r) in
  let! _ := db_lift (validate_graph_for_runtime graph) in
  let! run := create_run (st_run_uuid setting) {| rc_graph_id := gr_id graph; rc_status := ArRunning;
    rc_trigger := rs_trigger r; rc_scheduled_task_id := rs_scheduled_task_id r;
    rc_session_id := None; rc_started_at_ms := Some now_ms; rc_ended_at_ms := None;
    rc_error_code := None; rc_error_message := None; rc_redacted_diagnostics := [] |} in
  execute_ready_nodes graph run now_ms.

Definition PERMISSION_MISSING : str * str :=
  (lit "automation/permission_missing", lit "automation approval request was not found").
Definition PERMISSION_DENIED : str * str :=
  (lit "automation/permission_denied", lit "automation approval was denied or expired").
Definition fail_waiting (run : AutomationRun) (step : AutomationRunStep) (now_ms : Z) (error : str * str)
    (diagnostics : list RedactedDiagnostic) : auto_call (option AutomationRun) :=
  let! failed_step := update_step_failure step now_ms error.1 error.2 diagnostics in
  let! failed_run := update_run_failure run now_ms error.1 error.2
    [mkDiagnostic (lit "stepId") (as_id failed_step)] in
  db_ret (Some failed_run).

(** The waiting steps, until one ends the call. *)
Fixpoint resume_steps (run : AutomationRun) (now_ms : Z) (steps : list AutomationRunStep)
  : auto_call (option AutomationRun) :=
  match steps with
  | [] => db_ret None
  | step :: steps =>
      match as_permission_request_id step with
      | None => resume_steps run now_ms steps
      | Some permission_request_id =>
          let! found := get_request permission_request_id in
          match found with
          | None => fail_waiting run step now_ms PERMISSION_MISSING []
          | Some permission =>
              match pq_status permission with
              | PermApproved =>
                  let! _ := update_step_success step now_ms in
                  resume_steps run now_ms steps
              | PermDenied | PermExpired =>
                  fail_waiting run step now_ms PERMISSION_DENIED
                    [mkDiagnostic (lit "permissionRequestId") (pq_id permission)]
              | PermPending => db_ret (Some run)
              end
          end
      end
  end.

(** When no step ended the call, the run goes on. *)
Definition go_on (graph : AutomationGraph) (run : AutomationRun) (now_ms : Z) (stopped : option AutomationRun)
  : auto_call AutomationRun :=
  match stopped with
  | Some run => db_ret run
  | None =>
      let! running := update_run (run_request (ar_id run) (Some ArRunning) (ar_session_id run) None true
        None true (Some [])) in
      execute_ready_nodes graph running now_ms
  end.

Definition resume_run (r : AutomationRunResumeRequest) : auto_call AutomationRun :=
  let! now_ms := db_read (fun db => default (db_clock db) (rr_now_ms r)) in
  let! run := require_automation_run (rr_run_id r) in
  let! _ := db_lift
    (reject negb (bool_decide (ar_status run = ArWaitingForApproval)) with
       (with_diagnostic
          (VibexError_conflict (lit "automation_run_not_waiting_for_approval")
             (lit "automation graph run is not waiting for approval"))
          (lit "automationRunId") (ar_id run)) ;;
     Ok tt) in
  let! graph := load_executable_graph (ar_graph_id run) in
  let! waiting_steps := waiting_steps_for_run (ar_id run) in
  if is_empty waiting_steps then
    update_run_failure run now_ms (lit "automation/waiting_step_missing")
      (lit "automation run was waiting but no waiting step was found") []
  else
    let! stopped := resume_steps run now_ms waiting_steps in
    go_on graph run now_ms stopped.
End runner.

Definition cancel_run (r : AutomationRunCancelRequest) : auto_call AutomationRun :=
  let! now_ms := db_read (fun db => default (db_clock db) (rx_now_ms r)) in
  let! run := require_automation_run (rx_run_id r) in
  let! _ := db_lift
    (reject negb (bool_decide (ar_status run = ArRunning) || bool_decide (ar_status run = ArWaitingForApproval))
     with (with_diagnostic
             (VibexError_conflict (lit "automation_run_not_cancelable")
                (lit "automation graph run cannot be canceled from its current status"))
             (lit "automationRunId") (ar_id run)) ;;
     Ok tt) in
  let diagnostics :=
    match rx_reason r with
    | Some value => if is_empty (trim value) then []
                    else [mkDiagnostic (lit "cancelReason") (truncate_diagnostic value)]
    | None => []
    end in
  update_run (run_request (ar_id run) (Some ArCanceled) (ar_session_id run) (Some now_ms) false
    (Some (lit "automation/run_canceled", lit "automation graph run was canceled")) false
    (Some diagnostics)).

Definition DEFAULT_AUTOMATION_STALE_AFTER_MS : Z := 15 * 60 * 1000.
Definition recover_stale_runs (stale_after_ms now_ms : Z) : auto_call (list AutomationRun) :=
  let before_ms := i64_saturating_sub now_ms stale_after_ms in
  let! runs := list_runs (mkRunList None (Some ArRunning) (Some 100%Z)) in
  db_for (fun recovered run =>
    let! failed := update_run_failure run now_ms (lit "automation/recovered_stale_run")
      (lit "automation graph run was recovered after restart")
      [mkDiagnostic (lit "recoveredBy") (lit "automation_recovery")] in
    db_ret (recovered ++ [failed])) []
    (retain (fun run => (ar_updated_at_ms run <=? before_ms)%Z) runs).

(** * Theorems *)

(** ** The steps of a run *)

Definition run_steps (run_id : ident) (db : AutoDb) : gmap ident AutomationRunStep :=
  filter (fun kv => as_run_id kv.2 = run_id) (db_steps db).
(** Which node each step is of, and how it stands. *)
Definition trace (steps : gmap ident AutomationRunStep) : list (ident * AutomationRunStepStatus) :=
  (fun s => (as_node_id s, as_status s)) <$> (map_to_list steps).*2.
Definition succeeded (nodes : list AutomationNode) : list (ident * AutomationRunStepStatus) :=
  (fun n => (nd_id n, AsSucceeded)) <$> nodes.

Lemma trace_insert steps i s :
  steps !! i = None -> trace (<[i := s]> steps) ≡ₚ (as_node_id s, as_status s) :: trace steps.
Proof. intros H. unfold trace. by rewrite map_to_list_insert. Qed.

Lemma trace_delete steps i s :
  steps !! i = Some s -> trace steps ≡ₚ (as_node_id s, as_status s) :: trace (delete i steps).
Proof.
  intros H. rewrite <- (insert_delete_id steps i s H) at 1. apply trace_insert, lookup_delete_eq.
Qed.

Lemma elem_of_trace steps node st :
  (node, st) ∈ trace steps <-> exists i s, steps !! i = Some s /\ as_node_id s = node /\ as_status s = st.
Proof.
  unfold trace. rewrite list_elem_of_fmap. split.
  - intros (s & E & ([i s'] & -> & H%elem_of_map_to_list)%list_elem_of_fmap). simplify_eq. by exists i, s'.
  - intros (i & s & H & <- & <-). exists s. split; [done|]. apply list_elem_of_fmap.
    exists (i, s). by rewrite elem_of_map_to_list.
Qed.

(** Rows lie under their ids. *)
Definition auto_keyed (db : AutoDb) : Prop :=
  (forall k r, db_runs db !! k = Some r -> ar_id r = k) /\
  (forall k s, db_steps db !! k = Some s -> as_id s = k).

Section trace.
Context (run_id : ident).

(** The run's steps are [T]; or they are [T] and one more, under [i]. *)
Definition stands (T : list (ident * AutomationRunStepStatus)) (db : AutoDb) : Prop :=
  auto_keyed db /\ trace (run_steps run_id db) ≡ₚ T.
Definition current (T : list (ident * AutomationRunStepStatus)) (i node : ident)
    (st : AutomationRunStepStatus) (db : AutoDb) : Prop :=
  auto_keyed db /\ exists s, run_steps run_id db !! i = Some s /\ as_node_id s = node /\
    as_status s = st /\ trace (delete i (run_steps run_id db)) ≡ₚ T.

Lemma current_stands T i node st db : current T i node st db -> stands (T ++ [(node, st)]) db.
Proof.
  intros [Hk (s & Hs & <- & <- & HT)]. split; [done|].
  rewrite (trace_delete _ _ _ Hs), HT. apply Permutation_cons_append.
Qed.

Lemma run_steps_put s db :
  as_run_id s = run_id -> run_steps run_id (put_step s db) = <[as_id s := s]> (run_steps run_id db).
Proof. intros H. unfold run_steps. simpl. by rewrite map_filter_insert_True. Qed.

Lemma run_steps_lookup i s db :
  run_steps run_id db !! i = Some s <-> db_steps db !! i = Some s /\ as_run_id s = run_id.
Proof. apply map_lookup_filter_Some. Qed.

Lemma keyed_put_step s db : auto_keyed db -> auto_keyed (put_step s db).
Proof.
  intros [H1 H2]. split; [done|]. intros k s'. simpl. rewrite lookup_insert_Some. naive_solver.
Qed.
Lemma auto_keyed_put_run r db : auto_keyed db -> auto_keyed (put_automation_run r db).
Proof.
  intros [H1 H2]. split; [|done]. intros k r'. simpl. rewrite lookup_insert_Some. naive_solver.
Qed.

(** Writing the current step. *)
Lemma triple_step T i node st r :
  su_id r = i ->
  triple (current T i node st) (update_run_step r)
    (fun step db => current T i node (default st (su_status r)) db /\ as_id step = i /\
       db_steps db !! i = Some step)
    (current T i node st).
Proof.
  intros Hi db [Hk (s & Hs & Hn & Hst & HT)]. pose proof (proj1 (run_steps_lookup _ _ _) Hs) as [Hs1 Hs2].
  pose proof (proj2 Hk _ _ Hs1) as Hid.
  unfold update_run_step, require_automation_run_step, get_run_step, db_bind, db_read, db_lift.
  rewrite Hi, Hs1. cbn [ok_or]. unfold update_automation_run_step, update_row, db_write, db_ret. simpl.
  rewrite Hid, Hs1. set (step := patched_step r _ s).
  assert (Hsid : as_id step = i) by done. split_and!; [|done|simpl; by rewrite Hid, lookup_insert_eq].
  split; [by apply keyed_put_step|]. exists step. rewrite run_steps_put by done.
  rewrite Hsid, lookup_insert_eq, delete_insert_eq. split_and!; [done|done|simpl; by rewrite Hst|done].
Qed.

Lemma triple_create_step T uuid run node now :
  ar_id run = run_id ->
  triple (stands T) (create_running_step uuid run node now)
    (fun step db => current T (as_id step) (nd_id node) AsRunning db) (stands T).
Proof.
  intros Hr db [Hk HT]. unfold create_running_step, create_run_step, db_bind, db_read.
  set (step := {| as_id := _ |}). unfold insert_automation_run_step, insert_row.
  destruct (db_steps db !! as_id step) eqn:E; [by split|]. unfold db_ret.
  assert (Hnone : run_steps run_id db !! as_id step = None).
  { destruct (run_steps run_id db !! as_id step) eqn:E'; [|done].
    apply run_steps_lookup in E' as [E' _]. congruence. }
  split; [by apply keyed_put_step|]. exists step. rewrite run_steps_put by done.
  rewrite lookup_insert_eq, delete_insert_eq, delete_id by done. by split_and!.
Qed.

(** An assertion about the run's steps alone. *)
Record about_steps (P : AutoDb -> Prop) : Prop := mkAboutSteps {
  bs_keyed : forall db, P db -> auto_keyed db;
  bs_same : forall db db', run_steps run_id db' = run_steps run_id db -> auto_keyed db' -> P db -> P db'
}.

Lemma stands_about T : about_steps (stands T).
Proof. split; [by intros db []|]. intros db db' E Hk [_ H]. split; [done|]. by rewrite E. Qed.
Lemma current_about T i node st : about_steps (current T i node st).
Proof. split; [by intros db []|]. intros db db' E Hk [_ H]. split; [done|]. by rewrite E. Qed.

(** The row was written and returned. *)
Definition row_written (run_id : ident) (status : AutomationRunStatus) (run : AutomationRun) (db : AutoDb) : Prop :=
  ar_id run = run_id /\ ar_status run = status /\ db_runs db !! run_id = Some run.

Lemma triple_run P r status :
  about_steps P -> au_status r = Some status ->
  triple P (update_run r) (fun run db => P db /\ row_written (au_id r) status run db) P.
Proof.
  intros HP Hst db H. pose proof (bs_keyed _ HP _ H) as Hk.
  unfold update_run, require_automation_run, get_run, db_bind, db_read, db_lift.
  destruct (db_runs db !! au_id r) as [run|] eqn:E; [|done]. cbn [ok_or].
  pose proof (proj1 Hk _ _ E) as Hid.
  unfold update_automation_run, update_row, db_write, db_ret. simpl. rewrite Hid, E. split.
  - apply (bs_same _ HP db); [done|by apply auto_keyed_put_run|done].
  - split_and!; [done|simpl; by rewrite Hst|simpl; by rewrite Hid, lookup_insert_eq].
Qed.

Lemma triple_run_session P run session :
  about_steps P -> ar_id run = run_id ->
  triple P (update_run_session run session) (fun run db => P db /\ ar_id run = run_id) P.
Proof.
  intros HP Hr db H. pose proof (bs_keyed _ HP _ H) as Hk.
  unfold update_run_session, update_run, require_automation_run, get_run, db_bind, db_read, db_lift.
  simpl. destruct (db_runs db !! ar_id run) as [row|] eqn:E; [|done]. cbn [ok_or].
  pose proof (proj1 Hk _ _ E) as Hid.
  unfold update_automation_run, update_row, db_write, db_ret. simpl. rewrite Hid, E. split; [|simpl; congruence].
  apply (bs_same _ HP db); [done|by apply auto_keyed_put_run|done].
Qed.

Lemma triple_insert_request P request :
  about_steps P -> triple P (insert_request request) (fun _ => P) P.
Proof.
  intros HP db H. unfold insert_request, insert_row. destruct (_ !! _); [done|].
  apply (bs_same _ HP db); [done| |done]. exact (bs_keyed _ HP _ H).
Qed.

Lemma step_for_node_spec node_id db :
  exists found, step_for_node run_id node_id db = (Ok found, db) /\
    (found = None <-> forall st, (node_id, st) ∉ trace (run_steps run_id db)).
Proof.
  unfold step_for_node, list_run_steps, db_bind, db_read, db_ret. eexists. split; [done|].
  set (r := mkStepList _ _ _ _). set (sorted := reverse _).
  assert (Hin : forall s, s ∈ sorted <-> exists i, run_steps run_id db !! i = Some s /\ as_node_id s = node_id).
  { intros s. unfold sorted. rewrite elem_of_reverse, sort_by_key_perm, elem_of_retain, list_elem_of_fmap.
    unfold matches_step. simpl. rewrite andb_true_r, andb_true_iff, !bool_decide_eq_true. split.
    - intros [([i s'] & -> & H%elem_of_map_to_list) [H1 H2]]. exists i. by rewrite run_steps_lookup.
    - intros (i & [H1 H2]%run_steps_lookup & H3). split; [|done]. exists (i, s). by rewrite elem_of_map_to_list. }
  change (Z.to_nat (bounded_limit (Some 1%Z))) with 1. split.
  - intros Hnone st (i & s & Hs & Hn & _)%elem_of_trace.
    destruct sorted as [|s' l]; [|done]. apply (not_elem_of_nil s), Hin. by exists i.
  - intros H. destruct sorted as [|s' l]; [done|]. exfalso.
    destruct (proj1 (Hin s')) as (i & Hs & Hn); [by left|].
    apply (H (as_status s')), elem_of_trace. by exists i, s'.
Qed.

Context (setting : AutoSetting).
Context (others_spare_the_run : forall node p db, auto_keyed db ->
  auto_keyed (st_others setting node p db) /\
  run_steps run_id (st_others setting node p db) = run_steps run_id db).

Lemma triple_others P node p :
  about_steps P -> triple P (others_at setting node p) (fun _ => P) P.
Proof.
  intros HP. apply triple_write. intros db H.
  destruct (others_spare_the_run node p db (bs_keyed _ HP _ H)) as [Hk E].
  by apply (bs_same _ HP db).
Qed.

(** An error leaves the run as it was, or with one step that has not succeeded. *)
Definition broken_off (T : list (ident * AutomationRunStepStatus)) (node : ident) (db : AutoDb) : Prop :=
  stands T db \/ exists st, st <> AsSucceeded /\ stands (T ++ [(node, st)]) db.

Lemma current_broken_off T i node st db :
  st <> AsSucceeded -> current T i node st db -> broken_off T node db.
Proof. intros Hst H. right. exists st. split; [done|]. by apply (current_stands _ i). Qed.

(** What executing a node leaves. *)
Definition executed (T : list (ident * AutomationRunStepStatus)) (node : ident) (e : NodeExecution)
    (db : AutoDb) : Prop :=
  match e with
  | NodeSucceeded => stands (T ++ [(node, AsSucceeded)]) db
  | NodeWaiting => stands (T ++ [(node, AsWaitingForApproval)]) db /\
      exists row, row_written run_id ArWaitingForApproval row db
  | NodeFailed row => stands (T ++ [(node, AsFailed)]) db /\ row_written run_id ArFailed row db
  end.

Lemma triple_fail_node T i node st run step now err :
  st <> AsSucceeded -> ar_id run = run_id -> as_id step = i ->
  triple (current T i (nd_id node) st) (fail_node setting node run step now err) (executed T (nd_id node))
    (broken_off T (nd_id node)).
Proof.
  intros Hst Hr Hi. unfold fail_node. eapply triple_seq; [by apply (triple_step T i (nd_id node) st)| |].
  { intros db. by apply current_broken_off. }
  intros failed. apply (triple_pre (current T i (nd_id node) AsFailed)); [|by intros db []].
  eapply triple_seq; [by apply triple_others, current_about| |].
  { intros db. by apply current_broken_off. }
  intros ?.
  eapply triple_seq; [apply (triple_run _ _ ArFailed); [apply current_about|done]| |].
  { intros db. by apply current_broken_off. }
  intros row. apply triple_ret. intros db [H Hrow]. simpl in Hrow. rewrite Hr in Hrow.
  split; [by apply (current_stands _ i)|done].
Qed.

(** Opening a node's session, then going on with the rows it was written to. *)
Lemma triple_open_session {A} T i node run step session (k : AutomationRunStep -> AutomationRun -> auto_call A)
    Q E :
  ar_id run = run_id -> as_id step = i ->
  (forall db, current T i (nd_id node) AsRunning db -> E db) ->
  (forall step run, as_id step = i -> ar_id run = run_id ->
     triple (current T i (nd_id node) AsRunning) (k step run) Q E) ->
  triple (current T i (nd_id node) AsRunning)
    (let! _ := others_at setting (nd_id node) OpeningNodeSession in
     let! step := update_step_session step (Some session) in
     let! _ := others_at setting (nd_id node) BetweenCalls in
     let! run := update_run_session run (Some session) in k step run) Q E.
Proof.
  intros Hr Hi HE Hk. set (P := current T i (nd_id node) AsRunning) in *.
  eapply triple_seq; [by apply triple_others, current_about|done|]. intros ?.
  eapply triple_seq; [by apply (triple_step T i (nd_id node) AsRunning)|done|]. intros step'.
  apply (triple_fact _ (as_id step' = i)); [by intros db (_ & ? & _)|]. intros Hi'.
  apply (triple_pre P); [|by intros db []].
  eapply triple_seq; [by apply triple_others, current_about|done|]. intros ?.
  eapply triple_seq; [apply (triple_run_session P run); [apply current_about|done]|done|]. intros run'.
  apply (triple_fact _ (ar_id run' = run_id)); [by intros db []|]. intros Hr'.
  apply (triple_pre P); [by apply Hk|by intros db []].
Qed.

(** Leaving the current step and the run waiting. *)
Lemma triple_wait T i node step run permission now :
  ar_id run = run_id -> as_id step = i ->
  triple (current T i (nd_id node) AsRunning)
    (let! _ := update_step_waiting step permission now in
     let! _ := others_at setting (nd_id node) BetweenCalls in
     let! _ := update_run_waiting run in db_ret NodeWaiting)
    (executed T (nd_id node)) (broken_off T (nd_id node)).
Proof.
  intros Hr Hi. eapply triple_seq; [by apply (triple_step T i (nd_id node) AsRunning)| |].
  { intros db. by apply current_broken_off. }
  intros step'. apply (triple_pre (current T i (nd_id node) AsWaitingForApproval)); [|by intros db []].
  eapply triple_seq; [by apply triple_others, current_about| |].
  { intros db. by apply current_broken_off. }
  intros ?.
  eapply triple_seq; [apply (triple_run _ _ ArWaitingForApproval); [apply current_about|done]| |].
  { intros db. by apply current_broken_off. }
  intros row. apply triple_ret. intros db [Hc Hrow]. simpl in Hrow. rewrite Hr in Hrow.
  split; [by apply (current_stands _ i)|by exists row].
Qed.

Lemma triple_execute_prompt T i run node step now :
  ar_id run = run_id -> as_id step = i ->
  triple (current T i (nd_id node) AsRunning) (execute_agent_prompt_node setting run node step now)
    (executed T (nd_id node)) (broken_off T (nd_id node)).
Proof.
  intros Hr Hi. unfold execute_agent_prompt_node. set (P := current T i (nd_id node)).
  assert (HE : forall db, P AsRunning db -> broken_off T (nd_id node) db).
  { intros db. by apply current_broken_off. }
  assert (Hothers : forall p, triple (P AsRunning) (others_at setting (nd_id node) p) (fun _ => P AsRunning) (P AsRunning)).
  { intros p. apply triple_others, current_about. }
  destruct (st_prompt setting node) as [err|err|session err|session err|session state]; [exact HE| |..].
  - eapply triple_seq; [apply Hothers|done|]. intros ?. by apply triple_fail_node.
  - apply triple_open_session; [done..|]. intros step' run' Hi' Hr'.
    eapply triple_seq; [apply Hothers|done|]. intros ?. by apply triple_fail_node.
  - apply triple_open_session; [done..|]. intros step' run' Hi' Hr'.
    eapply triple_seq; [apply Hothers|done|]. intros ? db. apply HE.
  - apply triple_open_session; [done..|]. intros step' run' Hi' Hr'.
    eapply triple_seq; [apply Hothers|done|]. intros ?. case_bool_decide.
    + eapply (triple_seq _ _ _ _ _ _ (fun _ => P AsRunning)); [by apply triple_read|exact HE|]. intros ?.
      eapply triple_seq; [apply Hothers|exact HE|]. intros ?. by apply triple_wait.
    + eapply triple_seq; [by apply (triple_step T i (nd_id node) AsRunning)|done|]. intros ?.
      apply triple_ret. intros db [Hc _]. by apply (current_stands _ i).
Qed.

Lemma triple_execute_gate T i graph run node step config now :
  ar_id run = run_id -> as_id step = i ->
  triple (current T i (nd_id node) AsRunning)
    (execute_approval_gate_node setting graph run node step config now)
    (executed T (nd_id node)) (broken_off T (nd_id node)).
Proof.
  intros Hr Hi. unfold execute_approval_gate_node. set (P := current T i (nd_id node)).
  assert (HE : forall db, P AsRunning db -> broken_off T (nd_id node) db).
  { intros db. by apply current_broken_off. }
  assert (Hothers : forall p, triple (P AsRunning) (others_at setting (nd_id node) p) (fun _ => P AsRunning) (P AsRunning)).
  { intros p. apply triple_others, current_about. }
  assert (Hinsert : forall request, triple (P AsRunning) (insert_request request) (fun _ => P AsRunning) (P AsRunning)).
  { intros request. apply triple_insert_request, current_about. }
  destruct (st_gate setting node) as [err|err|session err|session err|session]; [exact HE| |..].
  - eapply triple_seq; [apply Hothers|done|]. intros ? db. apply HE.
  - apply triple_open_session; [done..|]. intros step' run' Hi' Hr'. cbv zeta.
    eapply (triple_seq _ _ _ _ _ _ (fun _ => P AsRunning)); [by intros db H; exact H|exact HE|]. intros ?.
    eapply triple_seq; [apply Hothers|done|]. intros ?. by apply triple_wait.
  - apply triple_open_session; [done..|]. intros step' run' Hi' Hr'. cbv zeta.
    eapply (triple_seq _ _ _ _ _ _ (fun _ => P AsRunning)); [|exact HE|].
    { eapply triple_seq; [apply Hinsert|done|]. by intros ? db. }
    intros ?. eapply triple_seq; [apply Hothers|done|]. intros ?. by apply triple_wait.
  - apply triple_open_session; [done..|]. intros step' run' Hi' Hr'. cbv zeta.
    eapply triple_seq; [apply Hinsert|exact HE|]. intros ?.
    eapply triple_seq; [apply Hothers|done|]. intros ?. by apply triple_wait.
Qed.

Lemma triple_execute_node T graph run node now :
  ar_id run = run_id ->
  triple (stands T) (execute_node setting graph run node now) (executed T (nd_id node))
    (broken_off T (nd_id node)).
Proof.
  intros Hr. unfold execute_node.
  eapply triple_seq; [by apply (triple_create_step T)|by left|]. intros step.
  destruct (nd_config node); [by apply triple_execute_prompt|by apply triple_execute_gate|..];
    (eapply triple_seq; [by apply (triple_step T (as_id step) (nd_id node) AsRunning)| |]);
    try (intros db; by apply current_broken_off); intros failed;
    (apply (triple_pre (current T (as_id step) (nd_id node) AsFailed)); [|by intros db []]);
    (eapply triple_seq; [by apply triple_others, current_about|by intros db; apply current_broken_off|]); intros ?;
    (eapply triple_seq; [apply (triple_run _ _ ArFailed); [apply current_about|done]| |]);
    try (intros db; by apply current_broken_off); intros row; apply triple_ret; intros db [Hc Hrow];
    simpl in Hrow; rewrite Hr in Hrow; (split; [by apply (current_stands _ (as_id step))|done]).
Qed.

(** The run got as far as [done], a prefix of the order; [last] is how the step
    of the next node stands, when it has one. *)
Definition stopped_at (order done : list AutomationNode) (last : option AutomationRunStepStatus)
    (db : AutoDb) : Prop :=
  exists rest, order = done ++ rest /\
  match last, rest with
  | None, _ => stands (succeeded done) db
  | Some st, node :: _ => st <> AsSucceeded /\ stands (succeeded done ++ [(nd_id node, st)]) db
  | Some _, [] => False
  end.
(** How the run's row says it ended: a waiting run's row is read again to be
    returned, and says what others have made of it by then. *)
Definition run_outcome (order done : list AutomationNode) (last : option AutomationRunStepStatus)
    (status : AutomationRunStatus) : Prop :=
  (last = None /\ done = order /\ status = ArSucceeded) \/
  (last = Some AsWaitingForApproval /\
   ((forall node db, db_runs (st_others setting node Returning db) !! run_id = db_runs db !! run_id) ->
    status = ArWaitingForApproval)) \/
  (last = Some AsFailed /\ status = ArFailed).

Lemma stopped_at_about order done last : about_steps (stopped_at order done last).
Proof.
  split.
  - intros db (rest & _ & H). destruct last, rest; try done; [by destruct H as [_ []]|by destruct H..].
  - intros db db' E Hk (rest & Ho & H). exists rest. split; [done|].
    destruct last, rest; try done; [destruct H as [? H]; split; [done|]| |];
      by apply (bs_same _ (stands_about _) db).
Qed.

Section order.
Context (graph : AutomationGraph) (order : list AutomationNode).
Context (order_nodup : NoDup (nd_id <$> order)).

Definition went_on (done : list AutomationNode) (o : option AutomationRun) (db : AutoDb) : Prop :=
  exists done' last, done `prefix_of` done' /\ stopped_at order done' last db /\
  match o with
  | None => last = None /\ done' = order
  | Some row => exists status, run_outcome order done' last status /\ last <> None /\
                 row_written run_id status row db
  end.
Definition went_wrong (done : list AutomationNode) (db : AutoDb) : Prop :=
  exists done' last, done `prefix_of` done' /\ stopped_at order done' last db.

Lemma execute_nodes_rest run now done rest :
  ar_id run = run_id -> order = done ++ rest ->
  triple (stands (succeeded done)) (execute_nodes setting graph run now rest) (went_on done) (went_wrong done).
Proof.
  intros Hr. revert done. induction rest as [|node rest IH]; intros done Ho; cbn [execute_nodes].
  { apply triple_ret. intros db H. exists done, None. split_and!; [done| |done|by rewrite Ho, app_nil_r].
    by exists []. }
  assert (Hstop : forall db, stands (succeeded done) db -> went_wrong done db).
  { intros db H. exists done, None. split; [done|]. by exists (node :: rest). }
  eapply triple_seq; [by apply triple_others, stands_about|done|]. intros ?.
  intros db H. destruct (step_for_node_spec (nd_id node) db) as (found & Es & Hf).
  rewrite Hr. unfold db_bind at 1. rewrite Es.
  assert (found = None) as ->.
  { apply Hf. intros st. rewrite (proj2 H). unfold succeeded.
    intros (n & E & Hn)%list_elem_of_fmap. injection E as E _. rewrite Ho, fmap_app in order_nodup.
    apply NoDup_app in order_nodup as (_ & Hd & _). apply (Hd (nd_id n)); [by apply list_elem_of_fmap_2|].
    rewrite <- E. by left. }
  revert db H Es Hf. enough (Ht : triple (stands (succeeded done))
    (let! _ := others_at setting (nd_id node) BetweenCalls in
     let! execution := execute_node setting graph run node now in
     match execution with
     | NodeSucceeded => execute_nodes setting graph run now rest
     | NodeWaiting =>
         let! _ := others_at setting (nd_id node) Returning in
         let! run := require_automation_run run_id in db_ret (Some run)
     | NodeFailed failed_run => db_ret (Some failed_run)
     end) (went_on done) (went_wrong done)) by (intros db H _ _; by apply Ht).
  eapply triple_seq; [by apply triple_others, stands_about|done|]. intros ?.
  eapply triple_seq; [by apply triple_execute_node| |].
  { intros db [H|(st & Hst & H)]; [by apply Hstop|]. exists done, (Some st). split; [done|].
    by exists (node :: rest). }
  intros [| |row]; cbn [executed].
  - specialize (IH (done ++ [node])). rewrite <- app_assoc in IH. specialize (IH Ho).
    eapply triple_weaken; [apply IH| | |].
    + intros db H. unfold succeeded. by rewrite fmap_app.
    + intros o db (done' & last & Hp & Hrest). exists done', last. split; [|done].
      etrans; [by exists [node]|done].
    + intros db (done' & last & Hp & Hrest). exists done', last. split; [|done].
      etrans; [by exists [node]|done].
  - intros db [H (row & Hrow)]. unfold others_at, require_automation_run, get_run, db_bind, db_read, db_write, db_lift.
    destruct (others_spare_the_run (nd_id node) Returning db (proj1 H)) as [Hk Hsame].
    assert (Hat : stands (succeeded done ++ [(nd_id node, AsWaitingForApproval)])
      (st_others setting (nd_id node) Returning db)) by by apply (bs_same _ (stands_about _) db).
    set (db1 := st_others setting (nd_id node) Returning db) in *.
    assert (Hstopped : stopped_at order done (Some AsWaitingForApproval) db1) by by exists (node :: rest).
    destruct (db_runs db1 !! run_id) as [row1|] eqn:E; cbn [ok_or]; unfold db_ret.
    + exists done, (Some AsWaitingForApproval). split_and!; [done|done|]. exists (ar_status row1).
      split_and!; [|done|by split; [apply (proj1 Hk)|]]. right. left. split; [done|]. intros Huntouched.
      unfold db1 in E. rewrite Huntouched, (proj2 (proj2 Hrow)) in E. injection E as <-. apply Hrow.
    + by exists done, (Some AsWaitingForApproval).
  - apply triple_ret. intros db [H Hrow]. exists done, (Some AsFailed).
    split_and!; [done|by exists (node :: rest)|]. exists ArFailed. split_and!; [by right; right|done|done].
Qed.

(** Nodes that have a step are passed over. *)
Lemma execute_nodes_passes T run now skipped rest Q (E : AutoDb -> Prop) :
  ar_id run = run_id -> (forall node, node ∈ skipped -> exists st, (nd_id node, st) ∈ T) ->
  (forall db, stands T db -> E db) ->
  triple (stands T) (execute_nodes setting graph run now rest) Q E ->
  triple (stands T) (execute_nodes setting graph run now (skipped ++ rest)) Q E.
Proof.
  intros Hr Hs HE Hrest. induction skipped as [|node skipped IH]; cbn [execute_nodes app]; [done|].
  eapply triple_seq; [by apply triple_others, stands_about|done|].
  intros ? db H. destruct (step_for_node_spec (nd_id node) db) as (found & Es & Hf).
  rewrite Hr. unfold db_bind at 1. rewrite Es. destruct found as [step|].
  - apply IH; [|done]. intros n Hn. apply Hs. by right.
  - exfalso. destruct (Hs node ltac:(by left)) as [st Hst].
    apply (proj1 Hf eq_refl st). by rewrite (proj2 H).
Qed.

(** The whole call, from a run that got as far as [done]. *)
Definition ended (done : list AutomationNode) (row : AutomationRun) (db : AutoDb) : Prop :=
  exists done' last status, done `prefix_of` done' /\ stopped_at order done' last db /\
    run_outcome order done' last status /\ row_written run_id status row db.

Lemma triple_execute_ready run now done :
  ar_id run = run_id -> topological_order graph = Ok order -> done `prefix_of` order ->
  triple (stands (succeeded done)) (execute_ready_nodes setting graph run now) (ended done) (went_wrong done).
Proof.
  intros Hr Ho [rest Hrest]. unfold execute_ready_nodes. rewrite Ho.
  assert (Hstop : forall db, stands (succeeded done) db -> went_wrong done db).
  { intros db H. exists done, None. split; [done|]. by exists rest. }
  eapply (triple_seq _ _ _ _ _ (stands (succeeded done)) (fun o db => o = order /\ stands (succeeded done) db));
    [by apply triple_lift; [intros a db [= ->]|]|exact Hstop|].
  intros o. apply (triple_fact _ (o = order)); [by intros db []|]. intros ->.
  apply (triple_pre (stands (succeeded done))); [|by intros db []].
  eapply (triple_seq _ _ _ _ _ (went_wrong done) (went_on done)); [|done|].
  { rewrite Hrest. apply execute_nodes_passes; [done| |exact Hstop|by apply execute_nodes_rest].
    intros node Hn. exists AsSucceeded. unfold succeeded. apply list_elem_of_fmap. by exists node. }
  intros [row|]; cbn [went_on].
  - apply triple_ret. intros db (done' & last & Hp & Hat & status & Hout & _ & Hrow).
    by exists done', last, status.
  - apply (triple_pre (fun db => stopped_at order order None db)).
    2: { intros db (done' & last & _ & Hat & -> & ->). done. }
    eapply triple_seq; [by apply triple_others, stopped_at_about| |].
    { intros db Hat. exists order, None. split; [by exists rest|done]. }
    intros ?.
    eapply triple_weaken; [apply (triple_run _ _ ArSucceeded); [apply stopped_at_about|done]|done| |].
    + intros row db [Hat Hrow]. simpl in Hrow. rewrite Hr in Hrow. exists order, None, ArSucceeded.
      split_and!; [by exists rest|done|by left|done].
    + intros db Hat. exists order, None. split; [by exists rest|done].
Qed.
End order.
End trace.

(** ** Starting, resuming, cancelling *)

(** The others leave the steps of the run alone, and rows under their ids. *)
Definition spares (run_id : ident) (setting : AutoSetting) : Prop :=
  forall node p db, auto_keyed db ->
  auto_keyed (st_others setting node p db) /\
  run_steps run_id (st_others setting node p db) = run_steps run_id db.

Lemma order_nodup g order :
  NoDup (nd_id <$> gr_nodes g) -> topological_order g = Ok order -> NoDup (nd_id <$> order).
Proof.
  intros Hn Ho. pose proof (topological_order_cases g Hn) as H. rewrite Ho in H.
  destruct H as (_ & _ & Hp & _). by rewrite Hp.
Qed.

Lemma validated_order g : validate_graph_for_runtime g = Ok tt -> exists order, topological_order g = Ok order.
Proof.
  unfold validate_graph_for_runtime. intros [_ H]%reject_ok. apply bind_unit_ok in H as [_ H].
  destruct (topological_order g) as [order|e]; [by exists order|done].
Qed.

Lemma load_executable_active id g db :
  find_graph id false (db_graphs db) = Some g -> gr_status g = GraphActive ->
  load_executable_graph id db = (Ok g, db).
Proof.
  intros Hf Ha. unfold load_executable_graph, db_bind, on_graphs, get_automation_graph, db_read, db_lift.
  rewrite Hf. cbn [ok_or]. rewrite Ha. by destruct db.
Qed.

(** C32. A started run executes a prefix of the graph's order: one step for each
    node, each begun when all nodes before it in the order have succeeded.  It
    ends as succeeded when every node has succeeded, whatever other connections
    wrote in its row meanwhile, a cancellation included; as failed when the step
    of the next node does; when that step waits, with the row as it is read
    again, which waits unless another connection has written it since (one
    cancelled by then is returned as cancelled); and an error leaves at most one
    step that has not succeeded.  Other connections may write between any two
    calls of the repository, as long as they leave the steps of this run alone
    ([spares]). *)
Theorem started_run_executes_a_prefix (setting : AutoSetting) (r : AutomationRunStartRequest) (db : AutoDb)
    (graph : AutomationGraph) :
  let run_id := id_new AutomationRunId (st_run_uuid setting) in
  auto_keyed db -> run_steps run_id db = ∅ -> db_runs db !! run_id = None -> spares run_id setting ->
  find_graph (rs_graph_id r) false (db_graphs db) = Some graph -> gr_status graph = GraphActive ->
  NoDup (nd_id <$> gr_nodes graph) -> validate_graph_for_runtime graph = Ok tt ->
  exists order, topological_order graph = Ok order /\
  match start_graph setting r db with
  | (Ok run, db') => exists done last status,
      stopped_at run_id order done last db' /\ run_outcome run_id setting order done last status /\
      row_written run_id status run db'
  | (Err _, db') => exists done last, stopped_at run_id order done last db'
  end.
Proof.
  intros run_id Hk Hs Hr Hsp Hf Ha Hn Hv. destruct (validated_order graph Hv) as [order Ho].
  exists order. split; [done|]. pose proof (order_nodup _ _ Hn Ho) as Hno.
  unfold start_graph, db_bind at 1, db_read at 1. unfold db_bind at 1.
  rewrite (load_executable_active _ _ _ Hf Ha). unfold db_bind at 1, db_lift. rewrite Hv.
  unfold db_bind at 1, create_run, db_bind at 1, db_read. cbv beta iota.
  set (run := {| ar_id := _ |}). unfold db_bind at 1, insert_automation_run, insert_row.
  change (ar_id run) with run_id. rewrite Hr. unfold db_ret at 1. cbv beta iota.
  pose proof (triple_execute_ready run_id setting Hsp graph order Hno run
    (default (db_clock db) (rs_now_ms r)) [] eq_refl Ho (prefix_nil order) (put_automation_run run db)) as H.
  destruct (execute_ready_nodes _ _ _ _ _) as [[row|e] db'].
  - destruct H as (done & last & status & _ & H); [|by exists done, last, status].
    split; [by apply auto_keyed_put_run|]. change (trace (run_steps run_id db) ≡ₚ []). by rewrite Hs.
  - destruct H as (done & last & _ & H); [|by exists done, last].
    split; [by apply auto_keyed_put_run|]. change (trace (run_steps run_id db) ≡ₚ []). by rewrite Hs.
Qed.

(** The waiting steps of a run that waits at one node. *)
Lemma waiting_steps_at run_id order done db :
  stopped_at run_id order done (Some AsWaitingForApproval) db ->
  exists step node rest, order = done ++ node :: rest /\
    waiting_steps_for_run run_id db = (Ok [step], db) /\
    current run_id (succeeded done) (as_id step) (nd_id node) AsWaitingForApproval db /\
    forall s, run_steps run_id db !! as_id s = Some s -> as_status s = AsWaitingForApproval -> s = step.
Proof.
  intros (rest & Ho & H). destruct rest as [|node rest]; [done|]. destruct H as [_ [Hk HT]].
  set (r := mkStepList (Some run_id) None (Some AsWaitingForApproval) (Some 100%Z)).
  set (L := retain (matches_step r) (map_to_list (db_steps db)).*2).
  assert (HL : forall s, s ∈ L <-> run_steps run_id db !! as_id s = Some s /\ as_status s = AsWaitingForApproval).
  { intros s. unfold L. rewrite elem_of_retain, list_elem_of_fmap, run_steps_lookup.
    unfold matches_step. simpl. rewrite andb_true_r, andb_true_iff, !bool_decide_eq_true. split.
    - intros [([i s'] & -> & Hi%elem_of_map_to_list) [H1 H2]]. simpl in *. by rewrite (proj2 Hk _ _ Hi).
    - intros [[H1 H2] H3]. split; [|done]. exists (as_id s, s). by rewrite elem_of_map_to_list. }
  assert (Hin : (nd_id node, AsWaitingForApproval) ∈ trace (run_steps run_id db)) by (rewrite HT; set_solver).
  apply elem_of_trace in Hin as (i & step & Hs & Hnode & Hst).
  assert (Hi : as_id step = i) by (apply run_steps_lookup in Hs as [Hs _]; by apply (proj2 Hk)).
  subst i. assert (Hrest : trace (delete (as_id step) (run_steps run_id db)) ≡ₚ succeeded done).
  { rewrite (trace_delete _ _ _ Hs), Hnode, Hst in HT. rewrite <- Permutation_cons_append in HT.
    by apply Permutation_cons_inv in HT. }
  assert (Honly : forall s, s ∈ L -> s = step).
  { intros s [H1 H2]%HL. destruct (decide (as_id s = as_id step)) as [E|Hne]; [congruence|]. exfalso.
    assert (Hx : (as_node_id s, as_status s) ∈ trace (delete (as_id step) (run_steps run_id db))).
    { apply elem_of_trace. exists (as_id s), s. by rewrite lookup_delete_ne. }
    rewrite Hrest in Hx. unfold succeeded in Hx. apply list_elem_of_fmap in Hx as (n & E & _). congruence. }
  exists step, node, rest. split_and!; [done| | |].
  - unfold waiting_steps_for_run, list_run_steps, db_read. fold r. fold L.
    assert (HnL : NoDup L).
    { apply (NoDup_fmap_1 as_id). apply NoDup_filtered_rows. exact (proj2 Hk). }
    assert (L = [step]) as ->; [|done].
    assert (step ∈ L) by by apply HL.
    destruct L as [|a [|b l]]; [set_solver| |].
    + by rewrite (Honly a) by set_solver.
    + exfalso. rewrite (Honly a), (Honly b) in HnL by set_solver. apply NoDup_cons in HnL as [HnL _]. set_solver.
  - split; [done|]. exists step. by split_and!.
  - intros s H1 H2. by apply Honly, HL.
Qed.

Lemma resume_run_opens setting r db run graph step :
  db_runs db !! rr_run_id r = Some run -> ar_status run = ArWaitingForApproval ->
  find_graph (ar_graph_id run) false (db_graphs db) = Some graph -> gr_status graph = GraphActive ->
  waiting_steps_for_run (ar_id run) db = (Ok [step], db) ->
  let now := default (db_clock db) (rr_now_ms r) in
  resume_run setting r db =
  (let! stopped := resume_steps run now [step] in go_on setting graph run now stopped) db.
Proof.
  intros Hr Hst Hf Ha Hw now. unfold resume_run, db_bind at 1, db_read at 1.
  unfold db_bind at 1, require_automation_run, get_run, db_bind at 1, db_read at 1, db_lift at 1.
  rewrite Hr. cbn [ok_or]. unfold db_bind at 1, db_lift at 1.
  rewrite bool_decide_eq_true_2 by done. cbn [negb]. unfold db_bind at 1.
  rewrite (load_executable_active _ _ _ Hf Ha). unfold db_bind at 1. by rewrite Hw.
Qed.

Lemma triple_go_on setting run_id graph order run now done :
  spares run_id setting -> ar_id run = run_id -> NoDup (nd_id <$> order) ->
  topological_order graph = Ok order -> done `prefix_of` order ->
  triple (stands run_id (succeeded done)) (go_on setting graph run now None)
    (ended run_id setting order done) (went_wrong run_id order done).
Proof.
  intros Hsp Hr Hno Ho Hp. cbn [go_on]. eapply triple_seq.
  - apply (triple_run run_id (stands run_id (succeeded done)) _ ArRunning); [apply stands_about|done].
  - intros db H. exists done, None. split; [done|]. destruct Hp as [rest ->]. by exists rest.
  - intros running. apply (triple_fact _ (ar_id running = run_id)).
    { intros db [_ [H _]]. simpl in H. congruence. }
    intros Hr'. apply (triple_pre (stands run_id (succeeded done))); [|by intros db []].
    by apply triple_execute_ready.
Qed.

(** What the answer to a waiting step's permission request makes of the run. *)
Definition resumed (setting : AutoSetting) (run_id : ident) (order done : list AutomationNode) (run : AutomationRun) (db : AutoDb)
    (answer : option PermissionRequestStatus) (result : VibexResult AutomationRun * AutoDb) : Prop :=
  match answer with
  | Some PermPending => result = (Ok run, db)
  | Some PermApproved =>
      exists done' last, done `prefix_of` done' /\ length done < length done' /\
      stopped_at run_id order done' last result.2 /\
      match result.1 with
      | Ok row => exists status, run_outcome run_id setting order done' last status /\ row_written run_id status row result.2
      | Err _ => True
      end
  | _ =>
      stopped_at run_id order done (Some AsFailed) result.2 /\
      exists row, result.1 = Ok row /\ row_written run_id ArFailed row result.2
  end.

Lemma update_run_step_found r s db :
  db_steps db !! su_id r = Some s -> as_id s = su_id r ->
  update_run_step r db = (Ok (patched_step r (db_clock db) s), put_step (patched_step r (db_clock db) s) db).
Proof.
  intros Hs Hi. unfold update_run_step, require_automation_run_step, get_run_step, db_bind, db_read, db_lift.
  rewrite Hs. cbn [ok_or]. unfold update_automation_run_step, update_row, db_write, db_ret. simpl.
  by rewrite Hi, Hs.
Qed.

Lemma automation_run_found r run db :
  db_runs db !! au_id r = Some run -> ar_id run = au_id r ->
  update_run r db = (Ok (patched_run r (db_clock db) run), put_automation_run (patched_run r (db_clock db) run) db).
Proof.
  intros Hs Hi. unfold update_run, require_automation_run, get_run, db_bind, db_read, db_lift.
  rewrite Hs. cbn [ok_or]. unfold update_automation_run, update_row, db_write, db_ret. simpl.
  by rewrite Hi, Hs.
Qed.

Lemma fail_waiting_spec run_id T node run step now error diagnostics db :
  ar_id run = run_id -> is_Some (db_runs db !! run_id) ->
  current run_id T (as_id step) node AsWaitingForApproval db ->
  exists row db', fail_waiting run step now error diagnostics db = (Ok (Some row), db') /\
    stands run_id (T ++ [(node, AsFailed)]) db' /\ row_written run_id ArFailed row db'.
Proof.
  intros Hr [row0 Hrow0] Hc. pose proof Hc as [[Hk1 Hk2] (s & [Hs _]%run_steps_lookup & _)].
  unfold fail_waiting, db_bind at 1, update_step_failure.
  set (req := step_request _ _ _ _ _ _ _ _).
  pose proof (triple_step run_id T (as_id step) node AsWaitingForApproval req eq_refl db Hc) as Ht.
  rewrite (update_run_step_found req s db Hs (Hk2 _ _ Hs)) in Ht |- *. destruct Ht as [Ht _].
  unfold db_bind, update_run_failure. set (db1 := put_step _ db) in *.
  set (req' := run_request _ _ _ _ _ _ _ _).
  rewrite (automation_run_found req' row0 db1); [|by rewrite <- Hr in Hrow0|by rewrite (Hk1 _ _ Hrow0)].
  eexists _, _. split; [done|]. split.
  - apply (current_stands _ _ (as_id step)).
    apply (bs_same _ _ (current_about _ _ _ _ _) db1); [done|apply auto_keyed_put_run, Ht|exact Ht].
  - pose proof (Hk1 _ _ Hrow0) as Hid. split_and!; [done|done|]. simpl. by rewrite Hid, lookup_insert_eq.
Qed.

(** A waiting run goes by the answer to the permission request of its waiting
    step: pending, nothing changes; approved, the step has succeeded and the
    run goes on behind it; denied, expired or gone, step and run have failed.
    The graph is the one the run was started on, and is active. *)
Theorem resumed_run_goes_by_the_answer (setting : AutoSetting) (r : AutomationRunResumeRequest) (db : AutoDb)
    (run : AutomationRun) (graph : AutomationGraph) (order done : list AutomationNode)
    (step : AutomationRunStep) (request : ident) :
  spares (ar_id run) setting -> db_runs db !! rr_run_id r = Some run ->
  ar_status run = ArWaitingForApproval ->
  find_graph (ar_graph_id run) false (db_graphs db) = Some graph -> gr_status graph = GraphActive ->
  NoDup (nd_id <$> gr_nodes graph) -> topological_order graph = Ok order ->
  stopped_at (ar_id run) order done (Some AsWaitingForApproval) db ->
  run_steps (ar_id run) db !! as_id step = Some step -> as_status step = AsWaitingForApproval ->
  as_permission_request_id step = Some request ->
  resumed setting (ar_id run) order done run db (pq_status <$> find_request request db)
    (resume_run setting r db).
Proof.
  intros Hsp Hr Hst Hf Ha Hn Ho Hat Hs Hss Hq. pose proof (order_nodup _ _ Hn Ho) as Hno.
  destruct (waiting_steps_at _ _ _ _ Hat) as (step' & node & rest & Hrest & Hw & Hc & Honly).
  rewrite <- (Honly step Hs Hss) in *. clear Honly Hs Hss.
  rewrite (resume_run_opens setting r db run graph step Hr Hst Hf Ha Hw).
  set (now := default _ _). cbn [resume_steps]. rewrite Hq.
  pose proof (proj1 (bs_keyed _ _ (current_about _ _ _ _ _) _ Hc) _ _ Hr) as Hid.
  unfold db_bind at 1.
  assert (Hfail : forall error diagnostics,
    let result := match fail_waiting run step now error diagnostics db with
                  | (Ok stopped, db') => go_on setting graph run now stopped db'
                  | (Err e, db') => (Err e, db')
                  end in
    stopped_at (ar_id run) order done (Some AsFailed) result.2 /\
    exists row, result.1 = Ok row /\ row_written (ar_id run) ArFailed row result.2).
  { intros error diagnostics. destruct (fail_waiting_spec (ar_id run) (succeeded done) (nd_id node) run step now
      error diagnostics db eq_refl) as (row & db' & E & H & Hrow); [by rewrite Hid, Hr|done|].
    rewrite E. simpl. split; [|by exists row]. by exists (node :: rest). }
  unfold db_bind at 1, get_request, db_read.
  destruct (find_request request db) as [permission|]; [|apply Hfail].
  cbn [fmap option_fmap option_map]. destruct (pq_status permission); [done| |apply Hfail..].
  clear Hfail. pose proof Hc as [[_ Hk2] (s & [Hs _]%run_steps_lookup & _)].
  unfold db_bind at 1, update_step_success. set (req := step_request _ _ _ _ _ _ _ _).
  pose proof (triple_step _ _ _ _ _ req eq_refl db Hc) as Ht.
  rewrite (update_run_step_found req s db Hs (Hk2 _ _ Hs)) in Ht |- *. destruct Ht as [Ht%current_stands _].
  unfold db_ret at 1.
  assert (Hpre : (done ++ [node]) `prefix_of` order) by (exists rest; by rewrite <- app_assoc).
  pose proof (triple_go_on setting (ar_id run) graph order run now (done ++ [node]) Hsp eq_refl Hno Ho Hpre
    (put_step (patched_step req (db_clock db) s) db)) as Hg.
  unfold succeeded in Hg. rewrite fmap_app in Hg. specialize (Hg Ht).
  assert (Hlen : forall done', (done ++ [node]) `prefix_of` done' -> done `prefix_of` done' /\ length done < length done').
  { intros done' [more ->]. rewrite !length_app. simpl. split; [exists (node :: more); by rewrite <- app_assoc|lia]. }
  destruct (go_on _ _ _ _ _) as [[row|e] db']; simpl.
  - destruct Hg as (done' & last & status & Hp & Hat' & Hout & Hrow). exists done', last.
    destruct (Hlen _ Hp). split_and!; [done..|]. by exists status.
  - destruct Hg as (done' & last & Hp & Hat'). exists done', last. destruct (Hlen _ Hp). by split_and!.
Qed.

(** A run all of whose nodes have a step is over at once. *)
Lemma triple_go_on_passes setting run_id graph order run now T :
  spares run_id setting -> ar_id run = run_id -> topological_order graph = Ok order ->
  (forall node, node ∈ order -> exists st, (nd_id node, st) ∈ T) ->
  triple (stands run_id T) (go_on setting graph run now None)
    (fun row db => stands run_id T db /\ row_written run_id ArSucceeded row db) (stands run_id T).
Proof.
  intros Hsp Hr Ho Hall. assert (HP : about_steps run_id (stands run_id T)) by apply stands_about.
  cbn [go_on]. eapply triple_seq; [by apply (triple_run run_id _ _ ArRunning)|done|]. intros running.
    apply (triple_fact _ (ar_id running = run_id)).
    { intros db' [_ [H _]]. simpl in H. congruence. }
    intros Hr'. apply (triple_pre (stands run_id T)); [|by intros db' []]. unfold execute_ready_nodes. rewrite Ho.
    eapply (triple_seq _ _ _ _ _ (stands run_id T) (fun o db => o = order /\ stands run_id T db));
      [by apply triple_lift; [intros a db' [= ->]|]|done|].
    intros o. apply (triple_fact _ (o = order)); [by intros db' []|]. intros ->.
    apply (triple_pre (stands run_id T)); [|by intros db' []].
    eapply (triple_seq _ _ _ _ _ (stands run_id T) (fun o db => o = None /\ stands run_id T db)); [|done|].
    - rewrite <- (app_nil_r order). apply (execute_nodes_passes run_id setting Hsp); [done| |done|].
      + exact Hall.
      + by apply triple_ret.
    - intros o. apply (triple_fact _ (o = None)); [by intros db' []|]. intros ->.
      apply (triple_pre (stands run_id T)); [|by intros db' []].
      eapply triple_seq; [by apply (triple_others run_id setting Hsp)|done|]. intros ?.
      eapply triple_weaken; [by apply (triple_run run_id _ _ ArSucceeded)|done| |done].
      intros row db' [H Hrow]. simpl in Hrow. by rewrite Hr' in Hrow.
Qed.

(** A step that waits without a permission request, as a prompt does whose
    Agent asks a question, is never answered: resuming the run passes over it,
    and when it is the last node the run is reported as succeeded while its step
    still waits. *)
Theorem unanswered_step_is_passed_over (setting : AutoSetting) (r : AutomationRunResumeRequest) (db : AutoDb)
    (run : AutomationRun) (graph : AutomationGraph) (done : list AutomationNode) (node : AutomationNode)
    (step : AutomationRunStep) :
  spares (ar_id run) setting -> db_runs db !! rr_run_id r = Some run ->
  ar_status run = ArWaitingForApproval ->
  find_graph (ar_graph_id run) false (db_graphs db) = Some graph -> gr_status graph = GraphActive ->
  topological_order graph = Ok (done ++ [node]) ->
  stopped_at (ar_id run) (done ++ [node]) done (Some AsWaitingForApproval) db ->
  run_steps (ar_id run) db !! as_id step = Some step -> as_status step = AsWaitingForApproval ->
  as_permission_request_id step = None ->
  let '(result, db') := resume_run setting r db in
  stopped_at (ar_id run) (done ++ [node]) done (Some AsWaitingForApproval) db' /\
  match result with
  | Ok row => row_written (ar_id run) ArSucceeded row db'
  | Err _ => True
  end.
Proof.
  intros Hsp Hr Hst Hf Ha Ho Hat Hs Hss Hq.
  destruct (waiting_steps_at _ _ _ _ Hat) as (step' & node' & rest & Hrest & Hw & Hc & Honly).
  rewrite <- (Honly step Hs Hss) in *. clear Honly Hs Hss.
  rewrite (resume_run_opens setting r db run graph step Hr Hst Hf Ha Hw).
  set (now := default _ _). cbn [resume_steps]. rewrite Hq. unfold db_bind at 1, db_ret at 1.
  apply app_inv_head in Hrest as [= <- <-]. set (run_id := ar_id run) in *.
  set (T := succeeded done ++ [(nd_id node, AsWaitingForApproval)]).
  assert (Hback : forall db, stands run_id T db ->
    stopped_at run_id (done ++ [node]) done (Some AsWaitingForApproval) db) by (intros db' H; by exists [node]).
  assert (Hall : forall n, n ∈ done ++ [node] -> exists st, (nd_id n, st) ∈ T).
  { intros n [Hn| ->%list_elem_of_singleton]%elem_of_app; [exists AsSucceeded|exists AsWaitingForApproval];
      unfold T, succeeded; apply elem_of_app; [left|right; by left].
    apply list_elem_of_fmap. by exists n. }
  pose proof (triple_go_on_passes setting run_id graph (done ++ [node]) run now T Hsp eq_refl Ho Hall) as Ht.
  assert (H0 : stands run_id T db) by by apply (current_stands _ _ (as_id step)).
  specialize (Ht db H0). destruct (go_on _ _ _ _ _) as [[row|e] db']; [|by split; [apply Hback|]].
  destruct Ht as [Ht Hrow]. by split; [apply Hback|].
Qed.

(** A cancellation by another connection touches the runs alone. *)
Lemma cancel_run_spares r db :
  auto_keyed db -> auto_keyed (cancel_run r db).2 /\ db_steps (cancel_run r db).2 = db_steps db.
Proof.
  intros Hk. unfold cancel_run, require_automation_run, get_run, db_bind, db_read, db_lift.
  destruct (db_runs db !! rx_run_id r) as [run|] eqn:E; cbn [ok_or]; [|done].
  pose proof (proj1 Hk _ _ E) as Hid. destruct (negb _); [done|].
  set (req := run_request _ _ _ _ _ _ _ _).
  rewrite (automation_run_found req run db); [|simpl; by rewrite Hid|done].
  split; [by apply auto_keyed_put_run|done].
Qed.
