(* ===== verification/Trust.v ===== *)
(** Who may use a runtime from afar: RemoteTrustService of
    crates/remote/src/lib.rs and crates/remote/src/pairing_v2.rs over the tables
    of crates/db (RemoteDeviceRepository, RemotePairingCodeRepository,
    RemotePairingOfferRepository, RemoteAuditRepository).  A device is paired by
    a numeric code or by an offer, is granted a token, and is revoked, restored,
    renamed and forgotten.  Codes and offers are rows of one table. *)
From stdpp Require Import prelude strings list gmap.
From Stdlib Require Import NArith ZArith Lia.
From S2P Require Import Prelude CoreTypes Storage.

(** ** Records (core/src/remote.rs, core/src/remote_v2.rs) *)

Inductive RemoteDevicePermissionLevel : Type := ReadOnly | ApproveOnly | FullControl.
#[export] Instance RemoteDevicePermissionLevel_eq_dec : EqDecision RemoteDevicePermissionLevel.
Proof. solve_decision. Defined.
Inductive RemoteDeviceStatus : Type := DevicePending | DeviceActive | DeviceRevoked.
#[export] Instance RemoteDeviceStatus_eq_dec : EqDecision RemoteDeviceStatus.
Proof. solve_decision. Defined.

Record RemoteDeviceDetail : Type := mkDeviceDetail {
  rd_device_id : ident;
  rd_display_name : str;
  rd_public_key : option str;
  rd_grant_revision : Z;
  rd_permission_level : RemoteDevicePermissionLevel;
  rd_status : RemoteDeviceStatus;
  rd_paired_at_ms : option Z;
  rd_last_seen_at_ms : option Z;
  rd_revoked_at_ms : option Z;
  rd_created_at_ms : Z;
  rd_updated_at_ms : Z
}.
Record RemoteDeviceRecord : Type := mkDeviceRecord {
  dr_detail : RemoteDeviceDetail;
  dr_auth_secret_hash : str
}.

Inductive RemoteActionClass : Type :=
| ReadProject | ReadAgentSession | ResolvePermission | ResolveElicitation | MutateAgentSession
| MutateAgentAuthentication | MutateFile | MutateGit | MutateTerminal | ReadProviderSettings
| MutateProviderSettings | ReadDeviceManagement | MutateDeviceManagement.
#[export] Instance RemoteActionClass_eq_dec : EqDecision RemoteActionClass.
Proof. solve_decision. Defined.

Record RemoteProtocolVersion : Type := mkProtocolVersion { pv_major : Z; pv_minor : Z }.
Record RemoteProtocolVersionRange : Type := mkVersionRange {
  vr_min : RemoteProtocolVersion;
  vr_max : RemoteProtocolVersion
}.
Definition REMOTE_PROTOCOL_V2_MAJOR : Z := 2.
Definition REMOTE_PROTOCOL_V2_MINOR : Z := 0.
Definition RemoteProtocolVersionRange_v2 : RemoteProtocolVersionRange :=
  let version := mkProtocolVersion REMOTE_PROTOCOL_V2_MAJOR REMOTE_PROTOCOL_V2_MINOR in
  mkVersionRange version version.

Inductive RemotePairingTransport : Type := Direct | Tailnet | SelfHostedRelay | UnknownTransport.
#[export] Instance RemotePairingTransport_eq_dec : EqDecision RemotePairingTransport.
Proof. solve_decision. Defined.
Record RemotePairingCandidate : Type := mkCandidate {
  cd_transport : RemotePairingTransport;
  cd_url : str;
  cd_relay_room_id : option ident;
  cd_relay_pc_peer_id : option ident;
  cd_relay_pc_public_key : option str
}.
Record RemotePairingOfferSummary : Type := mkOfferSummary {
  os_format_version : Z;
  os_protocol_range : RemoteProtocolVersionRange;
  os_server_id : str;
  os_server_identity_public_key : str;
  os_offer_id : ident;
  os_expires_at_ms : Z;
  os_direct_candidates : list RemotePairingCandidate;
  os_relay_candidate : option RemotePairingCandidate;
  os_permission_level : RemoteDevicePermissionLevel;
  os_granted_permissions : list RemoteActionClass;
  os_canceled : bool;
  os_claimed_device_id : option ident
}.
Record RemotePairingOffer : Type := mkOffer {
  of_summary : RemotePairingOfferSummary;
  of_one_time_challenge : str
}.
Record RemotePairingOfferRecord : Type := mkOfferRecord {
  or_summary : RemotePairingOfferSummary;
  or_challenge_hash : str;
  or_created_at_ms : Z;
  or_claimed_at_ms : option Z;
  or_canceled_at_ms : option Z;
  or_claim_nonce_hash : option str;
  or_device_ephemeral_public_key : option str
}.
Record RemotePairingCode : Type := mkPairingCode {
  pc_pairing_id : ident;
  pc_permission_level : RemoteDevicePermissionLevel;
  pc_expires_at_ms : Z;
  pc_claimed_device_id : option ident;
  pc_created_at_ms : Z;
  pc_claimed_at_ms : option Z
}.
Record RemotePairingCodeRecord : Type := mkCodeRecord {
  cr_pairing : RemotePairingCode;
  cr_code_hash : str
}.

Inductive RemoteAuditAction : Type :=
| PairingCodeCreated | PairingCodeClaimed | PairingCodeRejected | PairingOfferCreated
| PairingOfferClaimed | PairingOfferCanceled | PairingOfferRejected | DeviceAuthenticated
| DeviceAuthFailed | DeviceWasRevoked | DeviceRestored | DeviceDeleted | DeviceRenamed
| RuntimeRenamed | PermissionAllowed | PermissionDenied | MutationAllowed | MutationDenied.
#[export] Instance RemoteAuditAction_eq_dec : EqDecision RemoteAuditAction.
Proof. solve_decision. Defined.
Inductive RemoteAuditTargetKind : Type :=
| TargetPairingCode | TargetPairingOffer | TargetDevice | TargetPermission | TargetElicitation
| TargetAgentSession | TargetAgentAuthentication | TargetWorkspaceFile | TargetGit | TargetTerminal
| TargetProviderSettings | TargetSystem.
Inductive RemoteAuditOutcome : Type :=
| OutcomeAllowed | OutcomeDenied | OutcomeFailed | OutcomeCreated | OutcomeRevoked.
Record RemoteAuditRecord : Type := mkAuditRecord {
  ra_audit_id : ident;
  ra_device_id : option ident;
  ra_action : RemoteAuditAction;
  ra_target_kind : RemoteAuditTargetKind;
  ra_target_id : option str;
  ra_outcome : RemoteAuditOutcome;
  ra_redacted_summary : str;
  ra_request_id : option ident;
  ra_correlation_id : option ident;
  ra_created_at_ms : Z
}.

Record RemoteAuthContext : Type := mkAuthContext {
  ac_device_id : ident;
  ac_display_name : str;
  ac_permission_level : RemoteDevicePermissionLevel;
  ac_authenticated_at_ms : Z
}.
Record RemoteAuthProof : Type := mkAuthProof { ap_device_id : ident; ap_auth_token : str }.

Record RemoteCreatePairingCodeRequest : Type := mkCreateCode {
  cc_permission_level : RemoteDevicePermissionLevel;
  cc_ttl_ms : option Z
}.
Record RemoteClaimPairingCodeRequest : Type := mkClaimCode {
  kc_pairing_code : str;
  kc_display_name : str;
  kc_public_key : option str
}.
Record RemoteCreatePairingOfferRequest : Type := mkCreateOffer {
  co_permission_level : RemoteDevicePermissionLevel;
  co_ttl_ms : option Z;
  co_direct_candidates : list RemotePairingCandidate;
  co_relay_candidate : option RemotePairingCandidate
}.
Record RemoteClaimPairingOfferRequest : Type := mkClaimOffer {
  ko_offer_id : ident;
  ko_one_time_challenge : str;
  ko_expected_server_id : str;
  ko_expected_server_identity_public_key : str;
  ko_display_name : str;
  ko_device_identity_public_key : str;
  ko_claim_nonce : str
}.
Record RemoteClaimPairingOfferResponse : Type := mkOfferClaimed {
  kr_device : RemoteDeviceDetail;
  kr_device_grant_token : str;
  kr_session_id : ident
}.
Record RemoteRevokeDeviceRequest : Type := mkRevokeDevice { rv_device_id : ident; rv_reason : option str }.
Record RemoteDeleteDeviceRequest : Type := mkDeleteDevice { de_device_id : ident; de_reason : option str }.
Record RemoteRestoreDeviceRequest : Type := mkRestoreDevice { re_device_id : ident; re_reason : option str }.
Record RemoteRenameDeviceRequest : Type := mkRenameDevice { rn_device_id : ident; rn_display_name : str }.
Record RemoteAuditListRequest : Type := mkAuditList { al_device_id : option ident; al_limit : option Z }.

Definition DeviceId : id_kind := mkIdKind "DeviceId" "device".

(** The policy a level stands for, and the list a client is told. *)
Definition permission_allows (permission : RemoteDevicePermissionLevel) (action : RemoteActionClass) : bool :=
  match permission with
  | ReadOnly =>
      match action with ReadProject | ReadAgentSession | ReadProviderSettings => true | _ => false end
  | ApproveOnly =>
      match action with
      | ReadProject | ReadAgentSession | ResolvePermission | ResolveElicitation | ReadProviderSettings => true
      | _ => false
      end
  | FullControl => true
  end.
Definition remote_permissions_for_level (level : RemoteDevicePermissionLevel) : list RemoteActionClass :=
  [ReadProject; ReadAgentSession; ReadProviderSettings]
  ++ (if bool_decide (level = ApproveOnly) || bool_decide (level = FullControl)
      then [ResolvePermission; ResolveElicitation] else [])
  ++ (if bool_decide (level = FullControl)
      then [MutateAgentSession; MutateAgentAuthentication; MutateFile; MutateGit; MutateTerminal;
            MutateProviderSettings; ReadDeviceManagement; MutateDeviceManagement]
      else []).

(** ** The tables *)

(** The columns an offer adds to a row of remote_pairing_codes. *)
Record OfferColumns : Type := mkOfferColumns {
  oc_format_version : Z;
  oc_protocol_range : RemoteProtocolVersionRange;
  oc_server_id : str;
  oc_server_identity_public_key : str;
  oc_direct_candidates : list RemotePairingCandidate;
  oc_relay_candidate : option RemotePairingCandidate;
  oc_granted_permissions : list RemoteActionClass;
  oc_canceled_at_ms : option Z;
  oc_claim_nonce_hash : option str;
  oc_device_ephemeral_public_key : option str
}.
Record PairingRow : Type := mkPairingRow {
  pa_pairing_id : ident;
  pa_code_hash : str;
  pa_permission_level : RemoteDevicePermissionLevel;
  pa_expires_at_ms : Z;
  pa_claimed_device_id : option ident;
  pa_created_at_ms : Z;
  pa_claimed_at_ms : option Z;
  pa_offer : option OfferColumns
}.
Record TrustDb : Type := mkTrustDb {
  tr_devices : gmap ident RemoteDeviceRecord;
  tr_pairings : gmap ident PairingRow;
  tr_audits : gmap ident RemoteAuditRecord;
  tr_runtime_name : option (str * Z);
  tr_clock : Z
}.
Abbreviation trust_call := (db_call TrustDb).

Definition put_device (record : RemoteDeviceRecord) (db : TrustDb) : TrustDb :=
  mkTrustDb (<[rd_device_id (dr_detail record) := record]> (tr_devices db)) (tr_pairings db) (tr_audits db)
    (tr_runtime_name db) (tr_clock db).
Definition put_pairing (row : PairingRow) (db : TrustDb) : TrustDb :=
  mkTrustDb (tr_devices db) (<[pa_pairing_id row := row]> (tr_pairings db)) (tr_audits db)
    (tr_runtime_name db) (tr_clock db).
Definition put_audit (record : RemoteAuditRecord) (db : TrustDb) : TrustDb :=
  mkTrustDb (tr_devices db) (tr_pairings db) (<[ra_audit_id record := record]> (tr_audits db))
    (tr_runtime_name db) (tr_clock db).

(** ** Devices (RemoteDeviceRepository) *)

Definition device_id_of (record : RemoteDeviceRecord) : ident := rd_device_id (dr_detail record).

(** INSERT ... ON CONFLICT(device_id) DO UPDATE, which keeps created_at_ms. *)
Definition device_upsert (record : RemoteDeviceRecord) : trust_call unit := db_write (fun db =>
  let d := dr_detail record in
  let created := match tr_devices db !! device_id_of record with
                 | Some old => rd_created_at_ms (dr_detail old)
                 | None => rd_created_at_ms d
                 end in
  put_device
    (mkDeviceRecord
       {| rd_device_id := rd_device_id d; rd_display_name := rd_display_name d;
          rd_public_key := rd_public_key d; rd_grant_revision := rd_grant_revision d;
          rd_permission_level := rd_permission_level d; rd_status := rd_status d;
          rd_paired_at_ms := rd_paired_at_ms d; rd_last_seen_at_ms := rd_last_seen_at_ms d;
          rd_revoked_at_ms := rd_revoked_at_ms d; rd_created_at_ms := created;
          rd_updated_at_ms := rd_updated_at_ms d |} (dr_auth_secret_hash record)) db).
Definition device_get (device_id : ident) : trust_call (option RemoteDeviceRecord) :=
  db_read (fun db => tr_devices db !! device_id).
(** The first row; the query names no order. *)
Definition key_holder (public_key : str) (db : TrustDb) : option RemoteDeviceRecord :=
  head (retain (fun record => bool_decide (rd_public_key (dr_detail record) = Some public_key))
          (map_to_list (tr_devices db)).*2).
Definition find_by_public_key (public_key : str) : trust_call (option RemoteDeviceRecord) :=
  db_read (key_holder public_key).
(** ORDER BY updated_at_ms DESC. *)
Definition device_list : trust_call (list RemoteDeviceRecord) :=
  db_read (fun db => reverse (sort_by_key (fun record => [rd_updated_at_ms (dr_detail record)])
                               (map_to_list (tr_devices db)).*2)).

(** UPDATE remote_devices ... WHERE device_id. *)
Definition device_set (device_id : ident) (f : RemoteDeviceDetail -> RemoteDeviceDetail) : trust_call unit :=
  db_write (fun db =>
    match tr_devices db !! device_id with
    | Some record => put_device (mkDeviceRecord (f (dr_detail record)) (dr_auth_secret_hash record)) db
    | None => db
    end).
Definition device_after (device_id : ident) (code message : string) : trust_call RemoteDeviceRecord :=
  let! found := device_get device_id in
  db_lift (ok_or found (VibexError_storage (lit code) (lit message))).

Definition seen_at (now : Z) (d : RemoteDeviceDetail) : RemoteDeviceDetail :=
  {| rd_device_id := rd_device_id d; rd_display_name := rd_display_name d;
     rd_public_key := rd_public_key d; rd_grant_revision := rd_grant_revision d;
     rd_permission_level := rd_permission_level d; rd_status := rd_status d;
     rd_paired_at_ms := rd_paired_at_ms d; rd_last_seen_at_ms := Some now;
     rd_revoked_at_ms := rd_revoked_at_ms d; rd_created_at_ms := rd_created_at_ms d;
     rd_updated_at_ms := now |}.
Definition update_last_seen (device_id : ident) (now : Z) : trust_call unit :=
  device_set device_id (seen_at now).
Definition with_status (status : RemoteDeviceStatus) (revoked_at_ms : option Z) (revision : Z) (now : Z)
    (d : RemoteDeviceDetail) : RemoteDeviceDetail :=
  {| rd_device_id := rd_device_id d; rd_display_name := rd_display_name d;
     rd_public_key := rd_public_key d; rd_grant_revision := revision;
     rd_permission_level := rd_permission_level d; rd_status := status;
     rd_paired_at_ms := rd_paired_at_ms d; rd_last_seen_at_ms := rd_last_seen_at_ms d;
     rd_revoked_at_ms := revoked_at_ms; rd_created_at_ms := rd_created_at_ms d;
     rd_updated_at_ms := now |}.
Definition device_revoke (device_id : ident) (revoked_at_ms : Z) : trust_call RemoteDeviceRecord :=
  let! _ := device_set device_id (fun d =>
    with_status DeviceRevoked (Some revoked_at_ms) (rd_grant_revision d) revoked_at_ms d) in
  device_after device_id "remote_device_missing_after_revoke" "remote device was not found after revoke".
Definition device_restore (device_id : ident) (restored_at_ms : Z) : trust_call RemoteDeviceRecord :=
  let! _ := device_set device_id (fun d =>
    with_status DeviceActive None (rd_grant_revision d + 1) restored_at_ms d) in
  device_after device_id "remote_device_missing_after_restore" "remote device was not found after restore".
Definition renamed (display_name : str) (now : Z) (d : RemoteDeviceDetail) : RemoteDeviceDetail :=
  {| rd_device_id := rd_device_id d; rd_display_name := display_name;
     rd_public_key := rd_public_key d; rd_grant_revision := rd_grant_revision d;
     rd_permission_level := rd_permission_level d; rd_status := rd_status d;
     rd_paired_at_ms := rd_paired_at_ms d; rd_last_seen_at_ms := rd_last_seen_at_ms d;
     rd_revoked_at_ms := rd_revoked_at_ms d; rd_created_at_ms := rd_created_at_ms d;
     rd_updated_at_ms := now |}.
Definition device_rename (device_id : ident) (display_name : str) (renamed_at_ms : Z)
  : trust_call RemoteDeviceRecord :=
  let! _ := device_set device_id (renamed display_name renamed_at_ms) in
  device_after device_id "remote_device_missing_after_rename" "remote device was not found after rename".

(** The links of codes and audit rows to a deleted device are set to NULL. *)
Definition unlink (device_id : ident) (link : option ident) : option ident :=
  if bool_decide (link = Some device_id) then None else link.
Definition unlink_pairing (device_id : ident) (row : PairingRow) : PairingRow :=
  {| pa_pairing_id := pa_pairing_id row; pa_code_hash := pa_code_hash row;
     pa_permission_level := pa_permission_level row; pa_expires_at_ms := pa_expires_at_ms row;
     pa_claimed_device_id := unlink device_id (pa_claimed_device_id row);
     pa_created_at_ms := pa_created_at_ms row; pa_claimed_at_ms := pa_claimed_at_ms row;
     pa_offer := pa_offer row |}.
Definition unlink_audit (device_id : ident) (record : RemoteAuditRecord) : RemoteAuditRecord :=
  {| ra_audit_id := ra_audit_id record; ra_device_id := unlink device_id (ra_device_id record);
     ra_action := ra_action record; ra_target_kind := ra_target_kind record;
     ra_target_id := ra_target_id record; ra_outcome := ra_outcome record;
     ra_redacted_summary := ra_redacted_summary record; ra_request_id := ra_request_id record;
     ra_correlation_id := ra_correlation_id record; ra_created_at_ms := ra_created_at_ms record |}.
Definition device_delete (device_id : ident) : trust_call bool := fun db =>
  (Ok (bool_decide (is_Some (tr_devices db !! device_id))),
   mkTrustDb (delete device_id (tr_devices db)) (unlink_pairing device_id <$> tr_pairings db)
     (unlink_audit device_id <$> tr_audits db) (tr_runtime_name db) (tr_clock db)).

(** ** Codes and offers *)

(** INSERT into remote_pairing_codes: pairing_id and code_hash are unique. *)
Definition pairing_insert (e : VibexError) (row : PairingRow) : trust_call unit := fun db =>
  if existsb (fun other => bool_decide (pa_code_hash other = pa_code_hash row)) (map_to_list (tr_pairings db)).*2
  then (Err e, db)
  else insert_row tr_pairings pa_pairing_id put_pairing e row db.

Definition code_insert (record : RemotePairingCodeRecord) : trust_call unit :=
  let p := cr_pairing record in
  pairing_insert
    (VibexError_storage (lit "remote_pairing_insert_failed") (lit "failed to insert remote pairing code"))
    {| pa_pairing_id := pc_pairing_id p; pa_code_hash := cr_code_hash record;
       pa_permission_level := pc_permission_level p; pa_expires_at_ms := pc_expires_at_ms p;
       pa_claimed_device_id := pc_claimed_device_id p; pa_created_at_ms := pc_created_at_ms p;
       pa_claimed_at_ms := pc_claimed_at_ms p; pa_offer := None |}.
Definition map_remote_pairing_code_record (row : PairingRow) : RemotePairingCodeRecord :=
  mkCodeRecord
    {| pc_pairing_id := pa_pairing_id row; pc_permission_level := pa_permission_level row;
       pc_expires_at_ms := pa_expires_at_ms row; pc_claimed_device_id := pa_claimed_device_id row;
       pc_created_at_ms := pa_created_at_ms row; pc_claimed_at_ms := pa_claimed_at_ms row |}
    (pa_code_hash row).
Definition hash_holder (code_hash : str) (db : TrustDb) : option PairingRow :=
  head (retain (fun row => bool_decide (pa_code_hash row = code_hash)) (map_to_list (tr_pairings db)).*2).
Definition get_by_hash (code_hash : str) : trust_call (option RemotePairingCodeRecord) :=
  db_read (fun db => map_remote_pairing_code_record <$> hash_holder code_hash db).
Definition get_by_id (pairing_id : ident) : trust_call (option RemotePairingCodeRecord) :=
  db_read (fun db => map_remote_pairing_code_record <$> tr_pairings db !! pairing_id).

Definition row_claimed (row : PairingRow) (device_id : ident) (claimed_at_ms : Z)
    (offer : option OfferColumns) : PairingRow :=
  {| pa_pairing_id := pa_pairing_id row; pa_code_hash := pa_code_hash row;
     pa_permission_level := pa_permission_level row; pa_expires_at_ms := pa_expires_at_ms row;
     pa_claimed_device_id := Some device_id; pa_created_at_ms := pa_created_at_ms row;
     pa_claimed_at_ms := Some claimed_at_ms; pa_offer := offer |}.
(** UPDATE ... WHERE pairing_id AND claimed_at_ms IS NULL. *)
Definition mark_claimed (pairing_id device_id : ident) (claimed_at_ms : Z) : trust_call RemotePairingCodeRecord :=
  let! changed := (fun db : TrustDb =>
    match tr_pairings db !! pairing_id with
    | Some row =>
        if bool_decide (pa_claimed_at_ms row = None)
        then (Ok true, put_pairing (row_claimed row device_id claimed_at_ms (pa_offer row)) db)
        else (Ok false, db)
    | None => (Ok false, db)
    end) in
  if negb changed then
    db_fail (VibexError_conflict (lit "remote_pairing_claim_conflict")
               (lit "remote pairing code was already claimed"))
  else
    let! found := get_by_id pairing_id in
    db_lift (ok_or found (VibexError_storage (lit "remote_pairing_missing_after_claim")
                            (lit "remote pairing code was not found after claim"))).

Definition offer_insert (record : RemotePairingOfferRecord) : trust_call unit :=
  let s := or_summary record in
  pairing_insert
    (VibexError_storage (lit "remote_pairing_offer_insert_failed")
       (lit "failed to insert remote pairing offer"))
    {| pa_pairing_id := os_offer_id s; pa_code_hash := or_challenge_hash record;
       pa_permission_level := os_permission_level s; pa_expires_at_ms := os_expires_at_ms s;
       pa_claimed_device_id := os_claimed_device_id s; pa_created_at_ms := or_created_at_ms record;
       pa_claimed_at_ms := or_claimed_at_ms record;
       pa_offer := Some {| oc_format_version := os_format_version s;
         oc_protocol_range := os_protocol_range s; oc_server_id := os_server_id s;
         oc_server_identity_public_key := os_server_identity_public_key s;
         oc_direct_candidates := os_direct_candidates s; oc_relay_candidate := os_relay_candidate s;
         oc_granted_permissions := os_granted_permissions s;
         oc_canceled_at_ms := or_canceled_at_ms record; oc_claim_nonce_hash := or_claim_nonce_hash record;
         oc_device_ephemeral_public_key := or_device_ephemeral_public_key record |} |}.
Definition map_offer (row : PairingRow) (o : OfferColumns) : RemotePairingOfferRecord :=
  {| or_summary :=
       {| os_format_version := oc_format_version o; os_protocol_range := oc_protocol_range o;
          os_server_id := oc_server_id o;
          os_server_identity_public_key := oc_server_identity_public_key o;
          os_offer_id := pa_pairing_id row; os_expires_at_ms := pa_expires_at_ms row;
          os_direct_candidates := oc_direct_candidates o; os_relay_candidate := oc_relay_candidate o;
          os_permission_level := pa_permission_level row;
          os_granted_permissions := oc_granted_permissions o;
          os_canceled := bool_decide (is_Some (oc_canceled_at_ms o));
          os_claimed_device_id := pa_claimed_device_id row |};
     or_challenge_hash := pa_code_hash row; or_created_at_ms := pa_created_at_ms row;
     or_claimed_at_ms := pa_claimed_at_ms row; or_canceled_at_ms := oc_canceled_at_ms o;
     or_claim_nonce_hash := oc_claim_nonce_hash o;
     or_device_ephemeral_public_key := oc_device_ephemeral_public_key o |}.
Definition offer_get (offer_id : ident) : trust_call (option RemotePairingOfferRecord) :=
  db_read (fun db =>
    row ← tr_pairings db !! offer_id; o ← pa_offer row; Some (map_offer row o)).
(** What both UPDATEs of an offer ask of its row. *)
Definition offer_open (row : PairingRow) (o : OfferColumns) (now_ms : Z) : bool :=
  bool_decide (pa_claimed_at_ms row = None) && bool_decide (oc_canceled_at_ms o = None)
  && (now_ms <? pa_expires_at_ms row)%Z.
Definition columns_with (o : OfferColumns) (canceled_at_ms : option Z) (nonce_hash : option str) : OfferColumns :=
  {| oc_format_version := oc_format_version o; oc_protocol_range := oc_protocol_range o;
     oc_server_id := oc_server_id o; oc_server_identity_public_key := oc_server_identity_public_key o;
     oc_direct_candidates := oc_direct_candidates o; oc_relay_candidate := oc_relay_candidate o;
     oc_granted_permissions := oc_granted_permissions o; oc_canceled_at_ms := canceled_at_ms;
     oc_claim_nonce_hash := nonce_hash;
     oc_device_ephemeral_public_key := oc_device_ephemeral_public_key o |}.
Definition row_canceled (row : PairingRow) (o : OfferColumns) (now_ms : Z) : PairingRow :=
  {| pa_pairing_id := pa_pairing_id row; pa_code_hash := pa_code_hash row;
     pa_permission_level := pa_permission_level row; pa_expires_at_ms := pa_expires_at_ms row;
     pa_claimed_device_id := pa_claimed_device_id row; pa_created_at_ms := pa_created_at_ms row;
     pa_claimed_at_ms := pa_claimed_at_ms row;
     pa_offer := Some (columns_with o (Some now_ms) (oc_claim_nonce_hash o)) |}.
Definition offer_cancel (offer_id : ident) (now_ms : Z) : trust_call bool := fun db =>
  match tr_pairings db !! offer_id with
  | Some row =>
      match pa_offer row with
      | Some o => if offer_open row o now_ms then (Ok true, put_pairing (row_canceled row o now_ms) db)
                  else (Ok false, db)
      | None => (Ok false, db)
      end
  | None => (Ok false, db)
  end.
Definition offer_claim (offer_id : ident) (challenge_hash : str) (device_id : ident) (nonce_hash : str)
    (now_ms : Z) : trust_call bool := fun db =>
  match tr_pairings db !! offer_id with
  | Some row =>
      match pa_offer row with
      | Some o =>
          if bool_decide (pa_code_hash row = challenge_hash) && offer_open row o now_ms
          then (Ok true, put_pairing (row_claimed row device_id now_ms
                                        (Some (columns_with o (oc_canceled_at_ms o) (Some nonce_hash)))) db)
          else (Ok false, db)
      | None => (Ok false, db)
      end
  | None => (Ok false, db)
  end.

(** ** Audit rows (RemoteAuditRepository) *)

(** The device an audit row names must exist: a foreign key. *)
Definition audit_insert (record : RemoteAuditRecord) : trust_call unit := fun db =>
  let e := VibexError_storage (lit "remote_audit_insert_failed") (lit "failed to insert remote audit record") in
  match ra_device_id record with
  | Some d => if bool_decide (is_Some (tr_devices db !! d))
              then insert_row tr_audits ra_audit_id put_audit e record db
              else (Err e, db)
  | None => insert_row tr_audits ra_audit_id put_audit e record db
  end.
(** ORDER BY created_at_ms DESC. *)
Definition audit_list (r : RemoteAuditListRequest) : trust_call (list RemoteAuditRecord) :=
  let limit := Z.max 1 (Z.min (default 100%Z (al_limit r)) 500) in
  db_read (fun db =>
    take (Z.to_nat limit) (reverse (sort_by_key (fun record => [ra_created_at_ms record])
      (retain (fun record => match al_device_id r with
                             | Some d => bool_decide (ra_device_id record = Some d)
                             | None => true
                             end) (map_to_list (tr_audits db)).*2)))).

(** ** Third-party code *)

(** A parsed URL, as the url crate shows it. *)
Record Url : Type := mkUrl {
  url_scheme : str;
  url_host_str : option str;
  url_username : str;
  url_password : option str;
  url_query : option str;
  url_fragment : option str;
  url_text : str
}.
(** SHA-256, URL-safe base64 without padding, the url crate and serde_json. *)
Class Platform : Type := {
  sha256 : list N -> list N;
  base64url_encode : list N -> str;
  base64url_decode : str -> option (list N);
  parse_url : str -> option Url;
  offer_to_json : RemotePairingOffer -> option (list N)
}.

Section service.
Context `{Platform}.

(** ** Secrets and names *)

Definition hex_byte (b : N) : str := [hex_char (Z.of_N b / 16); hex_char (Z.of_N b mod 16)].
Definition hash_secret (secret : str) : str := lit "sha256:" ++ (sha256 (as_bytes secret) ≫= hex_byte).
Definition generate_secret (prefix : string) (uuid : str) : str :=
  lit prefix ++ lit "-" ++ id_new RequestId uuid.
(** 32 bytes of the operating system's generator. *)
Definition secure_secret (prefix : string) (random : list N) : str :=
  lit prefix ++ lit "-" ++ base64url_encode random.

Definition u64_from_be_bytes (bytes : list N) : N := foldl (fun value b => (value * 256 + b)%N) 0%N bytes.
(** [format!("{value:09}")]. *)
Definition nine_digits (value : N) : str :=
  (fun i => (48 + value / 10 ^ i mod 10)%N) <$> [8; 7; 6; 5; 4; 3; 2; 1; 0]%N.
Definition grouped_code (digits : str) : str :=
  take 3 digits ++ lit "-" ++ take 3 (drop 3 digits) ++ lit "-" ++ drop 6 digits.
Definition generate_pairing_code (uuid : str) : str :=
  let digest := sha256 (as_bytes (id_new RequestId uuid)) in
  let value := (u64_from_be_bytes (take 8 digest) mod 1000000000)%N in
  grouped_code (nine_digits value).
Definition is_code_separator (c : N) : bool := bool_decide (c ∈ lit "- ") || (c =? 9)%N.
Definition canonical_pairing_code (value : str) : option str :=
  let digits := retain is_ascii_digit value in
  if negb (length digits =? 9)%nat || negb (forallb (fun c => is_ascii_digit c || is_code_separator c) value)
  then None else Some (grouped_code digits).

Definition remote_error (code message : string) : VibexError := VibexError_new Remote (lit code) (lit message).
Definition REMOTE_DISPLAY_NAME_MAX_CHARS : nat := 64.
Definition normalize_remote_display_name (value : str) : option str :=
  let trimmed := trim value in
  if is_empty trimmed || (REMOTE_DISPLAY_NAME_MAX_CHARS <? length trimmed)%nat || existsb is_control trimmed
  then None else Some trimmed.
Definition normalized_display_name (value : str) : VibexResult str :=
  ok_or (normalize_remote_display_name value)
    (invalid "remote_display_name_invalid"
       "display name must be non-empty, bounded, and free of control characters").

Definition audit_summary (summary : str) : str := summary.
Definition insert_audit (audit_uuid : str) (device_id : option ident) (action : RemoteAuditAction)
    (target_kind : RemoteAuditTargetKind) (target_id : option str) (outcome : RemoteAuditOutcome)
    (redacted_summary : str) (request_id correlation_id : option ident) : trust_call unit :=
  let! now := db_read tr_clock in
  audit_insert {| ra_audit_id := id_new RequestId audit_uuid; ra_device_id := device_id;
    ra_action := action; ra_target_kind := target_kind; ra_target_id := target_id;
    ra_outcome := outcome; ra_redacted_summary := audit_summary redacted_summary;
    ra_request_id := request_id; ra_correlation_id := correlation_id; ra_created_at_ms := now |}.

(** [format!("{:?}", _)]. *)
Definition level_debug (level : RemoteDevicePermissionLevel) : str :=
  lit match level with ReadOnly => "ReadOnly" | ApproveOnly => "ApproveOnly" | FullControl => "FullControl" end.
Definition action_debug (action : RemoteActionClass) : str :=
  lit match action with
      | ReadProject => "ReadProject" | ReadAgentSession => "ReadAgentSession"
      | ResolvePermission => "ResolvePermission" | ResolveElicitation => "ResolveElicitation"
      | MutateAgentSession => "MutateAgentSession"
      | MutateAgentAuthentication => "MutateAgentAuthentication" | MutateFile => "MutateFile"
      | MutateGit => "MutateGit" | MutateTerminal => "MutateTerminal"
      | ReadProviderSettings => "ReadProviderSettings" | MutateProviderSettings => "MutateProviderSettings"
      | ReadDeviceManagement => "ReadDeviceManagement" | MutateDeviceManagement => "MutateDeviceManagement"
      end.
Definition audit_target_for_action (action : RemoteActionClass) : RemoteAuditTargetKind :=
  match action with
  | ReadProject => TargetSystem
  | ReadAgentSession | MutateAgentSession => TargetAgentSession
  | MutateAgentAuthentication => TargetAgentAuthentication
  | ResolvePermission => TargetPermission
  | ResolveElicitation => TargetElicitation
  | MutateFile => TargetWorkspaceFile
  | MutateGit => TargetGit
  | MutateTerminal => TargetTerminal
  | ReadProviderSettings | MutateProviderSettings => TargetProviderSettings
  | ReadDeviceManagement | MutateDeviceManagement => TargetDevice
  end.
Definition device_summary (before name after : str) : str :=
  before ++ lit "'" ++ name ++ lit "'" ++ after.

(** ** Pairing codes (RemoteTrustService, lib.rs) *)

Definition DEFAULT_PAIRING_TTL_MS : Z := 5 * 60 * 1000.
Definition MAX_PAIRING_TTL_MS : Z := 30 * 60 * 1000.

(** [fresh i] is the i-th generated id of a call. *)
Definition create_pairing_code (fresh : nat -> str) (r : RemoteCreatePairingCodeRequest)
  : trust_call (RemotePairingCode * str) :=
  let! now := db_read tr_clock in
  let ttl_ms := Z.max 1 (Z.min (default DEFAULT_PAIRING_TTL_MS (cc_ttl_ms r)) MAX_PAIRING_TTL_MS) in
  let pairing_code := generate_pairing_code (fresh 0) in
  let pairing := {| pc_pairing_id := id_new RequestId (fresh 1);
    pc_permission_level := cc_permission_level r; pc_expires_at_ms := (now + ttl_ms)%Z;
    pc_claimed_device_id := None; pc_created_at_ms := now; pc_claimed_at_ms := None |} in
  let! _ := code_insert (mkCodeRecord pairing (hash_secret pairing_code)) in
  let! _ := insert_audit (fresh 2) None PairingCodeCreated TargetPairingCode (Some (pc_pairing_id pairing))
    OutcomeCreated (lit "Pairing code created for " ++ level_debug (cc_permission_level r)
                    ++ lit " device permission") None None in
  db_ret (pairing, pairing_code).

Definition paired_device (new_uuid : str) (public_key : option str) (display_name : str)
    (permission_level : RemoteDevicePermissionLevel) (now : Z) : trust_call RemoteDeviceDetail :=
  let! existing := match public_key with
                   | Some key => find_by_public_key key
                   | None => db_ret None
                   end in
  db_ret {| rd_device_id := match existing with
                            | Some record => device_id_of record
                            | None => id_new DeviceId new_uuid
                            end;
    rd_display_name := display_name; rd_public_key := public_key;
    rd_grant_revision := match existing with
                         | Some record => u64_saturating_add (rd_grant_revision (dr_detail record)) 1
                         | None => 1
                         end;
    rd_permission_level := permission_level; rd_status := DeviceActive; rd_paired_at_ms := Some now;
    rd_last_seen_at_ms := Some now; rd_revoked_at_ms := None;
    rd_created_at_ms := match existing with
                        | Some record => rd_created_at_ms (dr_detail record)
                        | None => now
                        end;
    rd_updated_at_ms := now |}.

(** A claim refused before it writes: the refusal is audited first. *)
Definition refuse_code {A} (audit_uuid : str) (device_id target : option ident) (summary : string)
    (e : VibexError) : trust_call A :=
  let! _ := insert_audit audit_uuid device_id PairingCodeRejected TargetPairingCode target OutcomeDenied
              (lit summary) None None in
  db_fail e.
(** The transaction of a claim. *)
Definition commit_code (audit_uuid : str) (pairing_id : ident) (device : RemoteDeviceDetail) (auth_token : str)
    (now : Z) : trust_call unit :=
  db_transaction (
    let! _ := device_upsert (mkDeviceRecord device (hash_secret auth_token)) in
    let! _ := mark_claimed pairing_id (rd_device_id device) now in
    insert_audit audit_uuid (Some (rd_device_id device)) PairingCodeClaimed TargetDevice
      (Some (rd_device_id device)) OutcomeAllowed
      (device_summary (lit "Device ") (rd_display_name device) (lit " paired successfully")) None None).
(** The row of the code and the device are read before the transaction begins;
    [others] is what other connections write in between. *)
Definition claim_pairing_code (fresh : nat -> str) (others : TrustDb -> TrustDb)
    (r : RemoteClaimPairingCodeRequest) : trust_call (RemoteDeviceDetail * str) :=
  if is_empty (trim (kc_display_name r)) then
    db_fail (remote_error "remote_device_display_name_required" "remote device display name is required")
  else
  let! pairing_code := db_lift (ok_or (canonical_pairing_code (kc_pairing_code r))
    (remote_error "remote_pairing_code_invalid" "pairing code is invalid")) in
  let! found := get_by_hash (hash_secret pairing_code) in
  match found with
  | None =>
      refuse_code (fresh 0) None None "Pairing claim rejected with invalid code"
        (remote_error "remote_pairing_code_invalid" "pairing code is invalid")
  | Some record =>
      let pairing := cr_pairing record in
      if bool_decide (is_Some (pc_claimed_at_ms pairing)) then
        refuse_code (fresh 0) (pc_claimed_device_id pairing) (Some (pc_pairing_id pairing))
          "Pairing claim rejected because the code was already claimed"
          (remote_error "remote_pairing_code_invalid" "pairing code has already been claimed")
      else
      let! now := db_read tr_clock in
      if (pc_expires_at_ms pairing <=? now)%Z then
        refuse_code (fresh 0) None (Some (pc_pairing_id pairing))
          "Pairing claim rejected because the code expired"
          (remote_error "remote_pairing_code_expired" "pairing code has expired")
      else
      let auth_token := generate_secret "auth" (fresh 1) in
      let! device := paired_device (fresh 2) (kc_public_key r) (trim (kc_display_name r))
                       (pc_permission_level pairing) now in
      let! _ := db_write others in
      let! _ := commit_code (fresh 3) (pc_pairing_id pairing) device auth_token now in
      db_ret (device, auth_token)
  end.

(** ** Devices in service *)

Definition audit_auth_failure (audit_uuid : str) (device_id : option ident) (reason : string) : trust_call unit :=
  insert_audit audit_uuid device_id DeviceAuthFailed TargetDevice None OutcomeDenied
    (lit "Remote authentication failed: " ++ audit_summary (lit reason)) None None.

Definition DEVICE_UNKNOWN : VibexError := remote_error "remote_device_unknown" "remote device is unknown".
Definition authenticate (audit_uuid : str) (proof : RemoteAuthProof) : trust_call RemoteAuthContext :=
  let! found := device_get (ap_device_id proof) in
  match found with
  | None => db_fail DEVICE_UNKNOWN
  | Some device =>
      let detail := dr_detail device in
      if bool_decide (rd_status detail = DeviceRevoked) then
        let! _ := audit_auth_failure audit_uuid (Some (rd_device_id detail)) "revoked" in
        db_fail (remote_error "remote_device_revoked" "remote device is revoked")
      else if negb (bool_decide (dr_auth_secret_hash device = hash_secret (ap_auth_token proof))) then
        let! _ := audit_auth_failure audit_uuid (Some (rd_device_id detail)) "invalid token" in
        db_fail (remote_error "remote_auth_invalid" "remote authentication failed")
      else
      let! now := db_read tr_clock in
      let! _ := update_last_seen (rd_device_id detail) now in
      let! _ := insert_audit audit_uuid (Some (rd_device_id detail)) DeviceAuthenticated TargetDevice
        (Some (rd_device_id detail)) OutcomeAllowed
        (device_summary (lit "Device ") (rd_display_name detail) (lit " authenticated")) None None in
      db_ret (mkAuthContext (rd_device_id detail) (rd_display_name detail) (rd_permission_level detail) now)
  end.

Definition reason_text (reason : option str) : str :=
  match reason with Some reason => audit_summary reason | None => lit "No reason provided" end.

Definition revoke_device (audit_uuid : str) (r : RemoteRevokeDeviceRequest) : trust_call RemoteDeviceDetail :=
  let! found := device_get (rv_device_id r) in
  if bool_decide (found = None) then db_fail DEVICE_UNKNOWN else
  let! now := db_read tr_clock in
  let! revoked := device_revoke (rv_device_id r) now in
  let detail := dr_detail revoked in
  let! _ := insert_audit audit_uuid (Some (rd_device_id detail)) DeviceWasRevoked TargetDevice
    (Some (rd_device_id detail)) OutcomeRevoked
    (device_summary (lit "Device ") (rd_display_name detail) (lit " revoked: " ++ reason_text (rv_reason r)))
    None None in
  db_ret detail.

(** The transaction of a deletion, of a record read before it began. *)
Definition commit_delete (fresh : nat -> str) (device_id : ident) (detail : RemoteDeviceDetail) (reason : str)
    (now : Z) : trust_call unit :=
  db_transaction (
    let! _ :=
      if bool_decide (rd_status detail = DeviceActive) then
        let! _ := device_revoke device_id now in
        insert_audit (fresh 0) None DeviceWasRevoked TargetDevice (Some device_id) OutcomeRevoked
          (device_summary (lit "Device ") (rd_display_name detail)
             (lit " revoked before its record was deleted: " ++ reason)) None None
      else db_ret tt in
    let! _ := device_delete device_id in
    insert_audit (fresh 1) None DeviceDeleted TargetDevice (Some device_id) OutcomeRevoked
      (device_summary (lit "Device ") (rd_display_name detail) (lit " record deleted: " ++ reason)) None None).
Definition delete_device (fresh : nat -> str) (others : TrustDb -> TrustDb) (r : RemoteDeleteDeviceRequest)
  : trust_call RemoteDeviceDetail :=
  let! found := device_get (de_device_id r) in
  match found with
  | None => db_fail DEVICE_UNKNOWN
  | Some record =>
      let detail := dr_detail record in
      let reason := reason_text (de_reason r) in
      let! now := db_read tr_clock in
      let! _ := db_write others in
      let! _ := commit_delete fresh (de_device_id r) detail reason now in
      db_ret detail
  end.

Definition commit_restore (audit_uuid : str) (device_id : ident) (reason : str) (now : Z)
  : trust_call RemoteDeviceRecord :=
  db_transaction (
    let! restored := device_restore device_id now in
    let detail := dr_detail restored in
    let! _ := insert_audit audit_uuid (Some (rd_device_id detail)) DeviceRestored TargetDevice
      (Some (rd_device_id detail)) OutcomeAllowed
      (device_summary (lit "Device ") (rd_display_name detail) (lit " access restored: " ++ reason)) None None in
    db_ret restored).
Definition restore_device (audit_uuid : str) (others : TrustDb -> TrustDb) (r : RemoteRestoreDeviceRequest)
  : trust_call RemoteDeviceDetail :=
  let! found := device_get (re_device_id r) in
  match found with
  | None => db_fail DEVICE_UNKNOWN
  | Some record =>
      if negb (bool_decide (rd_status (dr_detail record) = DeviceRevoked)) then
        db_fail (remote_error "remote_device_not_revoked" "remote device access is not revoked")
      else
      let! now := db_read tr_clock in
      let! _ := db_write others in
      let! restored := commit_restore audit_uuid (re_device_id r) (reason_text (re_reason r)) now in
      db_ret (dr_detail restored)
  end.

Definition rename_device (audit_uuid : str) (r : RemoteRenameDeviceRequest) : trust_call RemoteDeviceDetail :=
  let! display_name := db_lift (normalized_display_name (rn_display_name r)) in
  let! found := device_get (rn_device_id r) in
  match found with
  | None => db_fail DEVICE_UNKNOWN
  | Some record =>
      let previous_name := rd_display_name (dr_detail record) in
      if bool_decide (previous_name = display_name) then db_ret (dr_detail record) else
      let! now := db_read tr_clock in
      let! renamed := device_rename (rn_device_id r) display_name now in
      let detail := dr_detail renamed in
      let! _ := insert_audit audit_uuid (Some (rd_device_id detail)) DeviceRenamed TargetDevice
        (Some (rd_device_id detail)) OutcomeAllowed
        (device_summary (lit "Device renamed from ") previous_name
           (device_summary (lit " to ") display_name [])) None None in
      db_ret detail
  end.

(** The one row of runtime_identity (RuntimeIdentityRepository). *)
Definition set_display_name (display_name : str) (now_ms : Z) : trust_call unit := db_write (fun db =>
  mkTrustDb (tr_devices db) (tr_pairings db) (tr_audits db) (Some (display_name, now_ms)) (tr_clock db)).
Definition rename_runtime (audit_uuid : str) (display_name : str) : trust_call str :=
  let! display_name := db_lift (normalized_display_name display_name) in
  let! now := db_read tr_clock in
  let! _ := set_display_name display_name now in
  let! _ := insert_audit audit_uuid None RuntimeRenamed TargetSystem (Some (lit "runtime")) OutcomeAllowed
    (device_summary (lit "Runtime renamed to ") display_name []) None None in
  db_ret display_name.
Definition runtime_display_name (fallback : str) : trust_call str :=
  let! stored := db_read (fun db => fst <$> tr_runtime_name db) in
  match stored with
  | Some stored => db_ret stored
  | None => db_ret (match normalized_display_name fallback with Ok name => name | Err _ => trim fallback end)
  end.

Definition PERMISSION_REFUSED : VibexError :=
  VibexError_new Permission (lit "remote_permission_denied")
    (lit "remote device permission level does not allow this action").
Definition authorize_action (audit_uuid : str) (auth : RemoteAuthContext) (action : RemoteActionClass)
    (request_id correlation_id : option ident) : trust_call unit :=
  let allowed := permission_allows (ac_permission_level auth) action in
  let! _ := insert_audit audit_uuid (Some (ac_device_id auth))
    (if allowed then PermissionAllowed else PermissionDenied) (audit_target_for_action action)
    (Some (action_debug action)) (if allowed then OutcomeAllowed else OutcomeDenied)
    (device_summary (lit "Device ") (ac_display_name auth)
       (lit " requested " ++ action_debug action ++ lit ": " ++ (if allowed then lit "allowed" else lit "denied")))
    request_id correlation_id in
  if allowed then db_ret tt else db_fail PERMISSION_REFUSED.

(** ** Pairing offers (RemoteTrustService, pairing_v2.rs) *)

Definition DEFAULT_PAIRING_OFFER_TTL_MS : Z := 90000.
Definition MIN_PAIRING_OFFER_TTL_MS : Z := 60000.
Definition MAX_PAIRING_OFFER_TTL_MS : Z := 120000.

(** One part of a dotted address: a decimal octet without leading zeros. *)
Definition ipv4_octet (part : str) : option Z :=
  if negb (forallb is_ascii_digit part) || is_empty part || (3 <? length part)%nat
     || ((1 <? length part)%nat && bool_decide (head part = Some 48%N)) then None
  else let value := foldl (fun value c => (value * 10 + (Z.of_N c - 48))%Z) 0%Z part in
       if (value <=? 255)%Z then Some value else None.
Definition parse_ipv4 (host : str) : option (Z * Z * Z * Z) :=
  '(a, rest) ← split_once 46 host; '(b, rest) ← split_once 46 rest; '(c, d) ← split_once 46 rest;
  a ← ipv4_octet a; b ← ipv4_octet b; c ← ipv4_octet c; d ← ipv4_octet d;
  Some (a, b, c, d).
(** [host.parse::<IpAddr>().is_ok_and(|a| a.is_loopback())] of a host as
    [Url::host_str] shows it: an IPv6 host keeps its brackets and does not parse. *)
Definition is_loopback_host_str (host : str) : bool :=
  match parse_ipv4 host with Some (a, _, _, _) => (a =? 127)%Z | None => false end.

Definition candidate_url_invalid (message : string) : VibexError :=
  invalid "remote_pairing_candidate_url_invalid" message.
Definition validate_pairing_candidate (candidate : RemotePairingCandidate) : VibexResult RemotePairingCandidate :=
  try match cd_transport candidate with
      | UnknownTransport =>
          Err (invalid "remote_pairing_transport_unknown" "pairing candidate transport is unknown")
      | SelfHostedRelay =>
          reject bool_decide (cd_relay_room_id candidate = None)
                 || bool_decide (cd_relay_pc_peer_id candidate = None)
                 || match cd_relay_pc_public_key candidate with Some key => is_empty key | None => true end with
            (invalid "remote_pairing_relay_routing_invalid"
               "pairing Relay candidate must pin room, PC peer, and PC Relay key") ;;
          Ok tt
      | Direct | Tailnet =>
          reject bool_decide (is_Some (cd_relay_room_id candidate))
                 || bool_decide (is_Some (cd_relay_pc_peer_id candidate))
                 || bool_decide (is_Some (cd_relay_pc_public_key candidate)) with
            (invalid "remote_pairing_direct_routing_invalid"
               "Direct pairing candidate must not carry Relay routing metadata") ;;
          Ok tt
      end ;;
  let? url := ok_or (parse_url (trim (cd_url candidate))) (candidate_url_invalid "pairing candidate URL is invalid") in
  reject bool_decide (url_host_str url = None) || negb (is_empty (url_username url))
         || bool_decide (is_Some (url_password url)) || bool_decide (is_Some (url_query url))
         || bool_decide (is_Some (url_fragment url)) with
    (candidate_url_invalid "pairing candidate URL must not contain credentials, query, or fragment") ;;
  let secure := bool_decide (url_scheme url = lit "https") in
  let loopback_http := bool_decide (url_scheme url = lit "http")
                       && match url_host_str url with Some host => is_loopback_host_str host | None => false end in
  reject negb secure && negb loopback_http with
    (invalid "remote_pairing_candidate_tls_required" "pairing candidate must use HTTPS outside loopback") ;;
  Ok (mkCandidate (cd_transport candidate) (url_text url) (cd_relay_room_id candidate)
        (cd_relay_pc_peer_id candidate) (cd_relay_pc_public_key candidate)).
Fixpoint validate_candidates (candidates : list RemotePairingCandidate) : VibexResult (list RemotePairingCandidate) :=
  match candidates with
  | [] => Ok []
  | c :: rest => let? c := validate_pairing_candidate c in
                 let? rest := validate_candidates rest in
                 Ok (c :: rest)
  end.

Definition validate_public_key (value : str) : VibexResult unit :=
  let? decoded := ok_or (base64url_decode value)
    (remote_error "remote_device_identity_key_invalid" "remote device identity public key is invalid") in
  reject negb (length decoded =? 32)%nat with
    (remote_error "remote_device_identity_key_invalid"
       "remote device identity public key has an invalid length") ;;
  Ok tt.
Definition validate_claim_nonce (value : str) : VibexResult unit :=
  reject (utf8_len value <? 16)%nat || (256 <? utf8_len value)%nat || existsb is_whitespace value with
    (remote_error "remote_pairing_claim_nonce_invalid" "pairing claim nonce is invalid") ;;
  Ok tt.

Definition OFFER_UNKNOWN : VibexError := remote_error "remote_pairing_offer_unknown" "pairing offer is unknown".
Definition OFFER_CLAIMED : VibexError :=
  remote_error "remote_pairing_offer_already_claimed" "pairing offer has already been claimed".
Definition OFFER_CANCELED : VibexError :=
  remote_error "remote_pairing_offer_canceled" "pairing offer has been canceled".
Definition OFFER_EXPIRED : VibexError := remote_error "remote_pairing_offer_expired" "pairing offer has expired".
Definition OFFER_CHALLENGE : VibexError :=
  remote_error "remote_pairing_offer_challenge_invalid" "pairing offer challenge is invalid".
Definition classify_unavailable_offer (record : option RemotePairingOfferRecord) (now_ms : Z) : VibexError :=
  match record with
  | None => OFFER_UNKNOWN
  | Some record =>
      if bool_decide (is_Some (or_claimed_at_ms record)) then OFFER_CLAIMED
      else if bool_decide (is_Some (or_canceled_at_ms record)) then OFFER_CANCELED
      else if (os_expires_at_ms (or_summary record) <=? now_ms)%Z then OFFER_EXPIRED
      else remote_error "remote_pairing_offer_unavailable" "pairing offer is unavailable"
  end.

(** The desktop's identity, as the offer shows it. *)
Record RemoteIdentity : Type := mkIdentity { id_server_id : str; id_public_key_base64 : str }.

Definition create_pairing_offer (fresh : nat -> str) (random : list N) (identity : RemoteIdentity)
    (r : RemoteCreatePairingOfferRequest) : trust_call (RemotePairingOffer * str) :=
  let! direct_candidates := db_lift (validate_candidates (co_direct_candidates r)) in
  let! _ := db_lift
    (reject (8 <? length direct_candidates)%nat with
       (invalid "remote_pairing_candidates_too_many" "pairing offer has too many Direct candidates") ;;
     Ok tt) in
  let! relay_candidate := db_lift
    match co_relay_candidate r with
    | Some candidate => let? candidate := validate_pairing_candidate candidate in Ok (Some candidate)
    | None => Ok None
    end in
  let! _ := db_lift
    (reject match relay_candidate with
            | Some candidate => negb (bool_decide (cd_transport candidate = SelfHostedRelay))
            | None => false
            end with
       (invalid "remote_pairing_relay_candidate_invalid"
          "pairing Relay candidate must use the self-hosted Relay transport") ;;
     Ok tt) in
  let! now := db_read tr_clock in
  let ttl_ms := Z.max MIN_PAIRING_OFFER_TTL_MS
                  (Z.min (default DEFAULT_PAIRING_OFFER_TTL_MS (co_ttl_ms r)) MAX_PAIRING_OFFER_TTL_MS) in
  let challenge := secure_secret "pair" random in
  let summary := {| os_format_version := 1; os_protocol_range := RemoteProtocolVersionRange_v2;
    os_server_id := id_server_id identity; os_server_identity_public_key := id_public_key_base64 identity;
    os_offer_id := id_new RequestId (fresh 0); os_expires_at_ms := (now + ttl_ms)%Z;
    os_direct_candidates := direct_candidates; os_relay_candidate := relay_candidate;
    os_permission_level := co_permission_level r;
    os_granted_permissions := remote_permissions_for_level (co_permission_level r);
    os_canceled := false; os_claimed_device_id := None |} in
  let offer := mkOffer summary challenge in
  let! _ := db_transaction (
    let! _ := offer_insert {| or_summary := summary; or_challenge_hash := hash_secret challenge;
      or_created_at_ms := now; or_claimed_at_ms := None; or_canceled_at_ms := None;
      or_claim_nonce_hash := None; or_device_ephemeral_public_key := None |} in
    insert_audit (fresh 1) None PairingOfferCreated TargetPairingOffer (Some (os_offer_id summary))
      OutcomeCreated (lit "Short-lived pairing offer created") None None) in
  let! encoded_offer := db_lift (ok_or (offer_to_json offer)
    (invalid "remote_pairing_offer_encode_failed" "failed to encode remote pairing offer")) in
  db_ret (offer, lit "#/pair/" ++ base64url_encode encoded_offer).

Definition cancel_pairing_offer (audit_uuid : str) (offer_id : ident) : trust_call RemotePairingOfferSummary :=
  let! now := db_read tr_clock in
  let! _ := db_transaction (
    let! canceled := offer_cancel offer_id now in
    if negb canceled then
      let! record := offer_get offer_id in
      db_fail (classify_unavailable_offer record now)
    else
      insert_audit audit_uuid None PairingOfferCanceled TargetPairingOffer (Some offer_id) OutcomeRevoked
        (lit "Pairing offer canceled") None None) in
  let! found := offer_get offer_id in
  let! record := db_lift (ok_or found OFFER_UNKNOWN) in
  let s := or_summary record in
  db_ret {| os_format_version := os_format_version s; os_protocol_range := os_protocol_range s;
    os_server_id := os_server_id s; os_server_identity_public_key := os_server_identity_public_key s;
    os_offer_id := os_offer_id s; os_expires_at_ms := os_expires_at_ms s;
    os_direct_candidates := os_direct_candidates s; os_relay_candidate := os_relay_candidate s;
    os_permission_level := os_permission_level s; os_granted_permissions := os_granted_permissions s;
    os_canceled := true; os_claimed_device_id := os_claimed_device_id s |}.

(** What a claim must show before it is looked up, and of the offer it names. *)
Definition claim_shape (r : RemoteClaimPairingOfferRequest) : VibexResult unit :=
  let display_name := trim (ko_display_name r) in
  reject is_empty display_name || (128 <? length display_name)%nat with
    (remote_error "remote_device_display_name_invalid"
       "remote device display name must be non-empty and bounded") ;;
  try validate_public_key (ko_device_identity_public_key r) ;;
  try validate_claim_nonce (ko_claim_nonce r) ;;
  reject (utf8_len (ko_one_time_challenge r) <? 24)%nat || (256 <? utf8_len (ko_one_time_challenge r))%nat with
    OFFER_CHALLENGE ;;
  Ok tt.
Definition offer_claimable (r : RemoteClaimPairingOfferRequest) (record : RemotePairingOfferRecord) (now : Z)
  : VibexResult unit :=
  let s := or_summary record in
  reject negb (bool_decide (os_server_id s = ko_expected_server_id r))
         || negb (bool_decide (os_server_identity_public_key s = ko_expected_server_identity_public_key r)) with
    (remote_error "remote_pairing_server_identity_mismatch"
       "pairing offer belongs to a different desktop identity") ;;
  reject bool_decide (is_Some (or_claimed_at_ms record)) with OFFER_CLAIMED ;;
  reject bool_decide (is_Some (or_canceled_at_ms record)) with OFFER_CANCELED ;;
  reject (os_expires_at_ms s <=? now)%Z with OFFER_EXPIRED ;;
  reject negb (bool_decide (hash_secret (ko_one_time_challenge r) = or_challenge_hash record)) with
    OFFER_CHALLENGE ;;
  Ok tt.
Definition claim_pairing_offer_inner (fresh : nat -> str) (random : list N) (r : RemoteClaimPairingOfferRequest)
  : trust_call RemoteClaimPairingOfferResponse :=
  let! _ := db_lift (claim_shape r) in
  let! now := db_read tr_clock in
  db_transaction (
    let! found := offer_get (ko_offer_id r) in
    let! record := db_lift (ok_or found OFFER_UNKNOWN) in
    let! _ := db_lift (offer_claimable r record now) in
    let challenge_hash := hash_secret (ko_one_time_challenge r) in
    let device_grant_token := secure_secret "grant" random in
    let! device := paired_device (fresh 0) (Some (ko_device_identity_public_key r)) (trim (ko_display_name r))
                     (os_permission_level (or_summary record)) now in
    let! _ := device_upsert (mkDeviceRecord device (hash_secret device_grant_token)) in
    let! claimed := offer_claim (ko_offer_id r) challenge_hash (rd_device_id device)
                      (hash_secret (ko_claim_nonce r)) now in
    let! _ := db_lift
      (reject negb claimed with
         (remote_error "remote_pairing_offer_already_claimed" "pairing offer was claimed concurrently") ;;
       Ok tt) in
    let! _ := insert_audit (fresh 1) (Some (rd_device_id device)) PairingOfferClaimed TargetDevice
      (Some (rd_device_id device)) OutcomeAllowed
      (device_summary (lit "Device ") (rd_display_name device) (lit " paired from a short-lived offer"))
      None None in
    db_ret (mkOfferClaimed device device_grant_token (id_new RequestId (fresh 2)))).
(** A refused claim is audited; that the audit itself may fail is ignored. *)
Definition claim_pairing_offer (fresh : nat -> str) (random : list N) (r : RemoteClaimPairingOfferRequest)
  : trust_call RemoteClaimPairingOfferResponse := fun db =>
  match claim_pairing_offer_inner fresh random r db with
  | (Ok response, db') => (Ok response, db')
  | (Err error, db') =>
      (Err error, (insert_audit (fresh 3) None PairingOfferRejected TargetPairingOffer
                     (Some (ko_offer_id r)) OutcomeDenied
                     (lit "Pairing offer claim rejected: " ++ err_code error) None None db').2)
  end.
End service.
