(* ===== verification/TrustHistory.v ===== *)
(** What holds of the trust store whatever is asked of it, in whatever order:
    the calls of [Trust] as operations on the tables, what each of them keeps,
    and the theorems about histories of operations. *)
From stdpp Require Import prelude strings list gmap.
From Stdlib Require Import NArith ZArith Lia.
From S2P Require Import Prelude CoreTypes Storage Trust.

(** ** The calls of the trust store *)

Section history.
Context `{Platform}.

(** What a device is granted: all but its name and its instants. *)
Definition same_grant (d d' : RemoteDeviceDetail) : Prop :=
  rd_device_id d' = rd_device_id d /\ rd_public_key d' = rd_public_key d /\ rd_status d' = rd_status d /\
  rd_permission_level d' = rd_permission_level d /\ rd_grant_revision d' = rd_grant_revision d.
(** An update of a device that leaves its grant alone. *)
Definition quiet (f : RemoteDeviceDetail -> RemoteDeviceDetail) : Prop := forall d, same_grant d (f d).

(** An update that keeps whose device it is. *)
Definition same_client (f : RemoteDeviceDetail -> RemoteDeviceDetail) : Prop := forall d,
  rd_device_id (f d) = rd_device_id d /\ rd_public_key (f d) = rd_public_key d.

Section closed.
Context (R : TrustDb -> Prop).
Context (R_audit : forall record db, R db -> tr_audits db !! ra_audit_id record = None -> R (put_audit record db)).
Context (R_pairing : forall row db, R db -> tr_pairings db !! pa_pairing_id row = None ->
  (forall k other, tr_pairings db !! k = Some other -> pa_code_hash other <> pa_code_hash row) ->
  pa_claimed_at_ms row = None -> R (put_pairing row db)).
Context (R_claim : forall k row device_id at_ms offer db, R db -> tr_pairings db !! k = Some row ->
  pa_claimed_at_ms row = None -> (is_Some (pa_offer row) <-> is_Some offer) ->
  R (put_pairing (row_claimed row device_id at_ms offer) db)).
Context (R_cancel : forall k row o at_ms db, R db -> tr_pairings db !! k = Some row -> pa_offer row = Some o ->
  pa_claimed_at_ms row = None -> R (put_pairing (row_canceled row o at_ms) db)).
Context (R_quiet : forall k record f db, R db -> tr_devices db !! k = Some record -> quiet f ->
  R (put_device (mkDeviceRecord (f (dr_detail record)) (dr_auth_secret_hash record)) db)).
Context (R_name : forall name db, R db ->
  R (mkTrustDb (tr_devices db) (tr_pairings db) (tr_audits db) name (tr_clock db))).

Lemma keeps_audit a d action target id outcome summary q c :
  keeps R (insert_audit a d action target id outcome summary q c).
Proof.
  unfold insert_audit. keep; [keep|]. intros db HR. unfold audit_insert, insert_row. simpl.
  destruct (tr_audits db !! _) eqn:E; destruct d as [d|]; [by destruct (bool_decide _)|done| |];
    [destruct (bool_decide _); [|done]|]; by apply R_audit.
Qed.
Local Hint Resolve keeps_audit : keeps.

Lemma keeps_device_get d : keeps R (device_get d).
Proof. apply keeps_read. Qed.
Lemma keeps_device_after d code message : keeps R (device_after d code message).
Proof. unfold device_after. keep; [apply keeps_device_get|keep]. Qed.
Local Hint Resolve keeps_device_get keeps_device_after : keeps.

Lemma keeps_device_set d f : quiet f -> keeps R (device_set d f).
Proof.
  intros Hf. apply keeps_write. intros db HR. destruct (tr_devices db !! d) as [record|] eqn:E; [|done].
  by apply (R_quiet d).
Qed.
Lemma keeps_last_seen d now : keeps R (update_last_seen d now).
Proof. by apply keeps_device_set. Qed.
Lemma keeps_device_rename d name now : keeps R (device_rename d name now).
Proof. unfold device_rename. keep; [by apply keeps_device_set|keep]. Qed.

Lemma keeps_pairing_insert e row :
  pa_claimed_at_ms row = None -> keeps R (pairing_insert e row).
Proof.
  intros Hr db HR. unfold pairing_insert, insert_row.
  destruct (existsb _ _) eqn:Ex; [done|]. destruct (tr_pairings db !! pa_pairing_id row) eqn:E; [done|].
  apply R_pairing; [done..| |done]. intros k other Hk Eq.
  assert (Hx : existsb (fun other => bool_decide (pa_code_hash other = pa_code_hash row))
                 (map_to_list (tr_pairings db)).*2 = true); [|congruence].
  apply existsb_elem. exists other. split; [|by apply bool_decide_eq_true].
  apply list_elem_of_fmap. exists (k, other). split; [done|]. by apply elem_of_map_to_list.
Qed.
Lemma keeps_mark_claimed p d now : keeps R (mark_claimed p d now).
Proof.
  unfold mark_claimed. keep.
  - intros db HR. destruct (tr_pairings db !! p) as [row|] eqn:E; [|done].
    destruct (bool_decide_reflect (pa_claimed_at_ms row = None)); [|done]. by apply (R_claim p).
  - keep; [keep|]. keep; [apply keeps_read|keep].
Qed.
Lemma keeps_offer_claim id h d n now : keeps R (offer_claim id h d n now).
Proof.
  intros db HR. unfold offer_claim. destruct (tr_pairings db !! id) as [row|] eqn:E; [|done].
  destruct (pa_offer row) as [o|] eqn:Eo; [|done]. destruct (_ && _) eqn:Eb; [|done].
  apply andb_prop in Eb as [_ Eb]. unfold offer_open in Eb. rewrite !andb_true_iff, !bool_decide_eq_true in Eb.
  apply (R_claim id); [done..|naive_solver|]. rewrite Eo. split; intros _; by eexists.
Qed.
Lemma keeps_offer_cancel id now : keeps R (offer_cancel id now).
Proof.
  intros db HR. unfold offer_cancel. destruct (tr_pairings db !! id) as [row|] eqn:E; [|done].
  destruct (pa_offer row) as [o|] eqn:Eo; [|done]. destruct (offer_open _ _ _) eqn:Eb; [|done].
  unfold offer_open in Eb. rewrite !andb_true_iff, !bool_decide_eq_true in Eb.
  apply (R_cancel id); naive_solver.
Qed.
Local Hint Resolve keeps_last_seen keeps_device_rename keeps_mark_claimed keeps_offer_claim keeps_offer_cancel : keeps.

(** The calls that leave every grant as it is. *)
Lemma keeps_create_code fresh r : keeps R (create_pairing_code fresh r).
Proof. unfold create_pairing_code, code_insert. keep; [keep|]. keep; [by apply keeps_pairing_insert|keeping]. Qed.
Lemma keeps_refuse_code {A} a d t s e : keeps R (@refuse_code A a d t s e).
Proof. unfold refuse_code. keeping. Qed.
Lemma keeps_authenticate a proof : keeps R (authenticate a proof).
Proof. unfold authenticate, audit_auth_failure. keeping. Qed.
Lemma keeps_rename_device a r : keeps R (rename_device a r).
Proof. unfold rename_device. keeping. Qed.
Lemma keeps_rename_runtime a name : keeps R (rename_runtime a name).
Proof.
  unfold rename_runtime, set_display_name. keep; [keep|]. keep; [keep|]. keep; [|keeping].
  apply keeps_write. intros db HR. by apply R_name.
Qed.
Lemma keeps_authorize a auth action q c : keeps R (authorize_action a auth action q c).
Proof. unfold authorize_action. keeping. Qed.
Lemma keeps_create_offer fresh random identity r : keeps R (create_pairing_offer fresh random identity r).
Proof.
  unfold create_pairing_offer, offer_insert. do 5 (keep; [keep|]). keep; [|keeping].
  keep. keep; [by apply keeps_pairing_insert|keep].
Qed.
Lemma keeps_cancel_offer a id : keeps R (cancel_pairing_offer a id).
Proof. unfold cancel_pairing_offer, offer_get. keeping. Qed.
Lemma keeps_paired_device u key name level now : keeps R (paired_device u key name level now).
Proof. unfold paired_device, find_by_public_key. keeping. Qed.
Local Hint Resolve keeps_refuse_code keeps_paired_device : keeps.

(** The calls that take a grant away or return it. *)
Section regraded.
Context (R_same : forall k record f db, R db -> tr_devices db !! k = Some record -> same_client f ->
  R (put_device (mkDeviceRecord (f (dr_detail record)) (dr_auth_secret_hash record)) db)).
Context (R_delete : forall d db, R db -> R (device_delete d db).2).

Lemma keeps_set_same d f : same_client f -> keeps R (device_set d f).
Proof.
  intros Hf. apply keeps_write. intros db HR. destruct (tr_devices db !! d) as [record|] eqn:E; [|done].
  by apply (R_same d).
Qed.
Lemma keeps_device_revoke d now : keeps R (device_revoke d now).
Proof. unfold device_revoke. keep; [by apply keeps_set_same|keeping]. Qed.
Lemma keeps_device_restore d now : keeps R (device_restore d now).
Proof. unfold device_restore. keep; [by apply keeps_set_same|keeping]. Qed.
Lemma keeps_device_delete d : keeps R (device_delete d).
Proof. intros db HR. by apply (R_delete d) in HR. Qed.
Local Hint Resolve keeps_device_revoke keeps_device_restore keeps_device_delete : keeps.

Lemma keeps_commit_delete fresh d detail reason now : keeps R (commit_delete fresh d detail reason now).
Proof. unfold commit_delete. keeping. Qed.
Lemma keeps_commit_restore a d reason now : keeps R (commit_restore a d reason now).
Proof. unfold commit_restore. keeping. Qed.
Lemma keeps_revoke a r : keeps R (revoke_device a r).
Proof. unfold revoke_device. keeping. Qed.
End regraded.

(** The calls that give one. *)
Section given.
Context (R_put : forall record db, R db -> R (put_device record db)).

Lemma keeps_upsert record : keeps R (device_upsert record).
Proof. apply keeps_write. intros db HR. by apply R_put. Qed.
Local Hint Resolve keeps_upsert : keeps.

Lemma keeps_commit_code a p device token now : keeps R (commit_code a p device token now).
Proof. unfold commit_code. keeping. Qed.
Lemma keeps_claim_offer fresh random r : keeps R (claim_pairing_offer fresh random r).
Proof.
  intros db HR. unfold claim_pairing_offer.
  assert (Hi : keeps R (claim_pairing_offer_inner fresh random r)).
  { unfold claim_pairing_offer_inner, offer_get. keeping. }
  specialize (Hi db HR). destruct (claim_pairing_offer_inner fresh random r db) as [[?|e] db']; [done|].
  simpl. apply keeps_run; [auto with keeps|done].
Qed.
Lemma keeps_claim_code fresh others r :
  (forall db, R db -> R (others db)) -> keeps R (claim_pairing_code fresh others r).
Proof.
  intros Ho. pose proof (keeps_write R others Ho) as Hw. pose proof keeps_commit_code as Hc.
  unfold claim_pairing_code, get_by_hash. keeping.
Qed.
End given.
End closed.

(** ** Histories *)

(** One step of a history.  The transactions that a call decides on rows it
    read before they began ([commit_code], [commit_delete], [commit_restore])
    are steps of their own, with any arguments: whatever such a call read, and
    whatever happened since, its transaction is one of them. *)
Inductive trust_op : Type :=
| OpTime (now : Z)
| OpCreateCode (fresh : nat -> str) (r : RemoteCreatePairingCodeRequest)
| OpRefuseCode (a : str) (device_id target : option ident) (summary : string) (e : VibexError)
| OpCommitCode (a : str) (pairing_id : ident) (device : RemoteDeviceDetail) (auth_token : str) (now : Z)
| OpCreateOffer (fresh : nat -> str) (random : list N) (identity : RemoteIdentity)
    (r : RemoteCreatePairingOfferRequest)
| OpCancelOffer (a : str) (offer_id : ident)
| OpClaimOffer (fresh : nat -> str) (random : list N) (r : RemoteClaimPairingOfferRequest)
| OpAuthenticate (a : str) (proof : RemoteAuthProof)
| OpRevoke (a : str) (r : RemoteRevokeDeviceRequest)
| OpCommitDelete (fresh : nat -> str) (device_id : ident) (detail : RemoteDeviceDetail) (reason : str) (now : Z)
| OpCommitRestore (a : str) (device_id : ident) (reason : str) (now : Z)
| OpRenameDevice (a : str) (r : RemoteRenameDeviceRequest)
| OpRenameRuntime (a : str) (name : str)
| OpAuthorize (a : str) (auth : RemoteAuthContext) (action : RemoteActionClass) (q c : option ident).

Definition set_clock (now : Z) (db : TrustDb) : TrustDb :=
  mkTrustDb (tr_devices db) (tr_pairings db) (tr_audits db) (tr_runtime_name db) now.
Definition trust_step (db : TrustDb) (op : trust_op) : TrustDb :=
  match op with
  | OpTime now => set_clock now db
  | OpCreateCode fresh r => (create_pairing_code fresh r db).2
  | OpRefuseCode a d t s e => (@refuse_code unit a d t s e db).2
  | OpCommitCode a p device token now => (commit_code a p device token now db).2
  | OpCreateOffer fresh random identity r => (create_pairing_offer fresh random identity r db).2
  | OpCancelOffer a id => (cancel_pairing_offer a id db).2
  | OpClaimOffer fresh random r => (claim_pairing_offer fresh random r db).2
  | OpAuthenticate a proof => (authenticate a proof db).2
  | OpRevoke a r => (revoke_device a r db).2
  | OpCommitDelete fresh d detail reason now => (commit_delete fresh d detail reason now db).2
  | OpCommitRestore a d reason now => (commit_restore a d reason now db).2
  | OpRenameDevice a r => (rename_device a r db).2
  | OpRenameRuntime a name => (rename_runtime a name db).2
  | OpAuthorize a auth action q c => (authorize_action a auth action q c db).2
  end.
Definition trust_run (ops : list trust_op) (db : TrustDb) : TrustDb := foldl trust_step db ops.

(** The operations that pair a device. *)
Definition is_claim (op : trust_op) : bool :=
  match op with OpCommitCode _ _ _ _ _ | OpClaimOffer _ _ _ => true | _ => false end.

(** What each operation keeps, a history keeps. *)
Section kept.
Context (R : TrustDb -> Prop).
Context (R_audit : forall record db, R db -> tr_audits db !! ra_audit_id record = None -> R (put_audit record db)).
Context (R_pairing : forall row db, R db -> tr_pairings db !! pa_pairing_id row = None ->
  (forall k other, tr_pairings db !! k = Some other -> pa_code_hash other <> pa_code_hash row) ->
  pa_claimed_at_ms row = None -> R (put_pairing row db)).
Context (R_cancel : forall k row o at_ms db, R db -> tr_pairings db !! k = Some row -> pa_offer row = Some o ->
  pa_claimed_at_ms row = None -> R (put_pairing (row_canceled row o at_ms) db)).
Context (R_name : forall name db, R db ->
  R (mkTrustDb (tr_devices db) (tr_pairings db) (tr_audits db) name (tr_clock db))).
Context (R_clock : forall now db, R db -> R (set_clock now db)).
Context (R_delete : forall d db, R db -> R (device_delete d db).2).

Section steady.
Context (R_same : forall k record f db, R db -> tr_devices db !! k = Some record -> same_client f ->
  R (put_device (mkDeviceRecord (f (dr_detail record)) (dr_auth_secret_hash record)) db)).

Lemma steady_step op db : is_claim op = false -> R db -> R (trust_step db op).
Proof.
  assert (R_quiet : forall k record f db, R db -> tr_devices db !! k = Some record -> quiet f ->
    R (put_device (mkDeviceRecord (f (dr_detail record)) (dr_auth_secret_hash record)) db)).
  { intros k record f db' HR Hk Hf. apply (R_same k); [done..|]. intros d. by destruct (Hf d) as (? & ? & _). }
  intros Hop HR. destruct op; try done; simpl; [by apply R_clock|apply keeps_run; [|done]..].
  - by apply keeps_create_code.
  - by apply keeps_refuse_code.
  - by apply keeps_create_offer.
  - by apply keeps_cancel_offer.
  - by apply keeps_authenticate.
  - by apply keeps_revoke.
  - by apply keeps_commit_delete.
  - by apply keeps_commit_restore.
  - by apply keeps_rename_device.
  - by apply keeps_rename_runtime.
  - by apply keeps_authorize.
Qed.
Lemma steady_run ops db : forallb (fun op => negb (is_claim op)) ops = true -> R db -> R (trust_run ops db).
Proof.
  unfold trust_run. revert db. induction ops as [|op ops IH]; intros db; simpl; [done|].
  intros [Hop%negb_true_iff Hops]%andb_prop HR. by apply IH; [|apply steady_step].
Qed.
End steady.

Section claims.
Context (R_claim : forall k row device_id at_ms offer db, R db -> tr_pairings db !! k = Some row ->
  pa_claimed_at_ms row = None -> (is_Some (pa_offer row) <-> is_Some offer) ->
  R (put_pairing (row_claimed row device_id at_ms offer) db)).
Context (R_put : forall record db, R db -> R (put_device record db)).

Lemma step_keeps op db : R db -> R (trust_step db op).
Proof.
  intros HR. destruct (is_claim op) eqn:Hop; [|apply steady_step; auto].
  destruct op; try done; simpl; (apply keeps_run; [|done]).
  - by apply keeps_commit_code.
  - by apply keeps_claim_offer.
Qed.
Lemma run_keeps ops db : R db -> R (trust_run ops db).
Proof.
  unfold trust_run. revert db. induction ops as [|op ops IH]; intros db HR; simpl; [done|].
  by apply IH, step_keeps.
Qed.
End claims.
End kept.

(** ** The tables stay well formed, and nothing in them is undone *)

Record trust_wf (db : TrustDb) : Prop := mkTrustWf {
  wf_devices : forall k r, tr_devices db !! k = Some r -> device_id_of r = k;
  wf_pairings : forall k r, tr_pairings db !! k = Some r -> pa_pairing_id r = k;
  wf_audits : forall k r, tr_audits db !! k = Some r -> ra_audit_id r = k;
  wf_hashes : forall i j r s, tr_pairings db !! i = Some r -> tr_pairings db !! j = Some s ->
    pa_code_hash r = pa_code_hash s -> i = j
}.

Definition row_follows (row row' : PairingRow) : Prop :=
  pa_code_hash row' = pa_code_hash row /\ pa_expires_at_ms row' = pa_expires_at_ms row /\
  pa_permission_level row' = pa_permission_level row /\
  (is_Some (pa_offer row') <-> is_Some (pa_offer row)) /\
  (pa_claimed_at_ms row <> None -> pa_claimed_at_ms row' = pa_claimed_at_ms row).
Definition audit_follows (record record' : RemoteAuditRecord) : Prop :=
  record' = record \/ exists d, record' = unlink_audit d record.
(** What was stored before is stored after. *)
Record nothing_undone (db0 db : TrustDb) : Prop := mkNothingUndone {
  nu_wf : trust_wf db;
  nu_pairings : forall k row, tr_pairings db0 !! k = Some row ->
    exists row', tr_pairings db !! k = Some row' /\ row_follows row row';
  nu_audits : forall k record, tr_audits db0 !! k = Some record ->
    exists record', tr_audits db !! k = Some record' /\ audit_follows record record'
}.

Lemma row_follows_refl row : row_follows row row.
Proof. by split_and!. Qed.
Lemma row_follows_trans a b c : row_follows a b -> row_follows b c -> row_follows a c.
Proof.
  intros (H1 & H2 & H3 & H4 & H5) (K1 & K2 & K3 & K4 & K5).
  split_and!; [congruence..|by rewrite K4|]. intros Ha. rewrite <- (H5 Ha). apply K5. by rewrite (H5 Ha).
Qed.
Lemma unlink_twice d e link : exists f, unlink d (unlink e link) = unlink f link.
Proof.
  unfold unlink. destruct (bool_decide_reflect (link = Some e)) as [E|E].
  - exists e. rewrite (bool_decide_eq_true_2 (link = Some e)) by done. by destruct (bool_decide _).
  - by exists d.
Qed.
Lemma unlink_audit_twice d e record :
  exists f, unlink_audit d (unlink_audit e record) = unlink_audit f record.
Proof.
  destruct (unlink_twice d e (ra_device_id record)) as [f Hf]. exists f. unfold unlink_audit. simpl. by rewrite Hf.
Qed.
Lemma nothing_undone_refl db : trust_wf db -> nothing_undone db db.
Proof.
  intros Hw. split; [done| |]; intros k x Hx; exists x; split; [done|apply row_follows_refl|done|by left].
Qed.

Lemma put_device_wf record db : trust_wf db -> trust_wf (put_device record db).
Proof.
  intros [H1 H2 H3 H4]. split; [|done..]. intros k r. simpl.
  intros [[<- <-]|[_ Hr]]%lookup_insert_Some; [done|by apply H1].
Qed.
Lemma put_pairing_wf k row row' db :
  trust_wf db -> tr_pairings db !! k = Some row -> pa_pairing_id row' = pa_pairing_id row ->
  pa_code_hash row' = pa_code_hash row -> trust_wf (put_pairing row' db).
Proof.
  intros [H1 H2 H3 H4] Hk Hi Hh. split; [done| |done|]; simpl; rewrite Hi, (H2 _ _ Hk).
  - intros j r [[<- <-]|[_ Hr]]%lookup_insert_Some; [by rewrite Hi, (H2 _ _ Hk)|by apply H2].
  - intros i j r s [[<- <-]|[? Hr]]%lookup_insert_Some [[<- <-]|[? Hs]]%lookup_insert_Some E; [done|..].
    + by apply (H4 _ _ row s); [..|congruence].
    + by apply (H4 _ _ r row); [..|congruence].
    + by apply (H4 _ _ r s).
Qed.

Section undone.
Context (db0 : TrustDb).

Lemma undone_row k row row' db :
  nothing_undone db0 db -> tr_pairings db !! k = Some row -> pa_pairing_id row' = pa_pairing_id row ->
  row_follows row row' -> nothing_undone db0 (put_pairing row' db).
Proof.
  intros [Hw Hp Ha] Hk Hi Hf. pose proof Hf as (Hh & _). split; [by apply (put_pairing_wf k row)| |done].
  intros j r Hj. destruct (Hp j r Hj) as (r' & Hr' & Hf'). simpl. rewrite Hi, (wf_pairings _ Hw _ _ Hk).
  destruct (decide (j = k)) as [->|Hne].
  - exists row'. rewrite lookup_insert_eq. split; [done|]. simplify_eq. by eapply row_follows_trans.
  - exists r'. by rewrite lookup_insert_ne.
Qed.

Lemma undone_delete d db : nothing_undone db0 db -> nothing_undone db0 (device_delete d db).2.
Proof.
  intros [[H1 H2 H3 H4] Hp Ha]. split; [split|..]; simpl.
  - intros k r [_ Hr]%lookup_delete_Some. by apply H1.
  - intros k r. rewrite lookup_fmap_Some. intros (r' & <- & Hr). by apply (H2 k r').
  - intros k r. rewrite lookup_fmap_Some. intros (r' & <- & Hr). by apply (H3 k r').
  - intros i j r s. rewrite !lookup_fmap_Some. intros (r' & <- & Hr) (s' & <- & Hs) E. by apply (H4 _ _ r' s').
  - intros k row Hk. destruct (Hp k row Hk) as (row' & Hr & Hf). exists (unlink_pairing d row').
    rewrite lookup_fmap, Hr. split; [done|]. apply (row_follows_trans _ row'); [done|by split_and!].
  - intros k r Hk. destruct (Ha k r Hk) as (r' & Hr & Hf). exists (unlink_audit d r').
    rewrite lookup_fmap, Hr. split; [done|]. right. destruct Hf as [->|[e ->]]; [by exists d|].
    apply unlink_audit_twice.
Qed.

Lemma undone_audit record db :
  nothing_undone db0 db -> tr_audits db !! ra_audit_id record = None -> nothing_undone db0 (put_audit record db).
Proof.
  intros [[H1 H2 H3 H4] Hp Ha] Hn. split; [split; [done..| |done]|done|]; simpl.
  - intros k r [[<- <-]|[_ Hr]]%lookup_insert_Some; [done|by apply H3].
  - intros k r Hk. destruct (Ha k r Hk) as (r' & Hr & Hf). exists r'. split; [|done].
    rewrite lookup_insert_ne; congruence.
Qed.
Lemma undone_pairing row db :
  nothing_undone db0 db -> tr_pairings db !! pa_pairing_id row = None ->
  (forall k other, tr_pairings db !! k = Some other -> pa_code_hash other <> pa_code_hash row) ->
  nothing_undone db0 (put_pairing row db).
Proof.
  intros [[H1 H2 H3 H4] Hp Ha] Hn Hh. split; [split; [done| |done|]| |done]; simpl.
  - intros k r [[<- <-]|[_ Hr]]%lookup_insert_Some; [done|by apply H2].
  - intros i j r s [[<- <-]|[? Hr]]%lookup_insert_Some [[<- <-]|[? Hs]]%lookup_insert_Some E; [done|..].
    + by destruct (Hh _ _ Hs).
    + by destruct (Hh _ _ Hr).
    + by apply (H4 _ _ r s).
  - intros k r Hk. destruct (Hp k r Hk) as (r' & Hr & Hf). exists r'. split; [|done].
    rewrite lookup_insert_ne; congruence.
Qed.
Lemma undone_claim k row d at_ms offer db :
  nothing_undone db0 db -> tr_pairings db !! k = Some row -> pa_claimed_at_ms row = None ->
  (is_Some (pa_offer row) <-> is_Some offer) -> nothing_undone db0 (put_pairing (row_claimed row d at_ms offer) db).
Proof.
  intros Hu Hk Hc Ho. apply (undone_row k row); [done..|]. split_and!; [done..| |done]. by rewrite Ho.
Qed.
Lemma undone_cancel k row o at_ms db :
  nothing_undone db0 db -> tr_pairings db !! k = Some row -> pa_offer row = Some o ->
  pa_claimed_at_ms row = None -> nothing_undone db0 (put_pairing (row_canceled row o at_ms) db).
Proof.
  intros Hu Hk Ho Hc. apply (undone_row k row); [done..|]. split_and!; [done..| |done]. simpl. rewrite Ho.
  by split; intros _; eexists.
Qed.
Lemma undone_name name db :
  nothing_undone db0 db ->
  nothing_undone db0 (mkTrustDb (tr_devices db) (tr_pairings db) (tr_audits db) name (tr_clock db)).
Proof. intros [[H1 H2 H3 H4] Hp Ha]. by split. Qed.
Lemma undone_clock now db : nothing_undone db0 db -> nothing_undone db0 (set_clock now db).
Proof. intros [[H1 H2 H3 H4] Hp Ha]. by split. Qed.
Lemma undone_put record db : nothing_undone db0 db -> nothing_undone db0 (put_device record db).
Proof. intros [Hw Hp Ha]. split; [by apply put_device_wf|done..]. Qed.

Lemma run_undone ops db : nothing_undone db0 db -> nothing_undone db0 (trust_run ops db).
Proof.
  apply run_keeps; auto using undone_audit, undone_pairing, undone_name, undone_clock, undone_put, undone_delete.
  - intros. by eapply undone_cancel.
  - intros. by eapply undone_claim.
Qed.
End undone.

(** The audit log is append-only, and so are the claims of codes and offers:
    whatever is asked of the store, an audit row keeps all but its link to a
    device that was deleted, a code or an offer keeps its hash, its level and
    its expiry, and the instant it was claimed at. *)
Theorem nothing_is_undone (ops : list trust_op) (db : TrustDb) :
  trust_wf db -> nothing_undone db (trust_run ops db).
Proof. intros Hw. by apply run_undone, nothing_undone_refl. Qed.

(** ** What the calls that matter do *)

Lemma insert_audit_cases a d action target id outcome summary q c db :
  exists record, ra_audit_id record = id_new RequestId a /\ ra_device_id record = d /\
  ra_action record = action /\
  (insert_audit a d action target id outcome summary q c db = (Ok tt, put_audit record db) \/
   exists e, insert_audit a d action target id outcome summary q c db = (Err e, db)).
Proof.
  unfold insert_audit, db_bind, db_read, audit_insert, insert_row.
  set (record := {| ra_audit_id := _ |}). exists record. split_and!; [done..|].
  destruct d as [d|]; cbn [ra_device_id record]; [destruct (bool_decide _); [|right; by eexists]|];
    (destruct (tr_audits db !! _); [right; by eexists|by left]).
Qed.
(** It succeeds when its id is new and the device it names is known. *)
Lemma insert_audit_ok a d action target id outcome summary q c db :
  tr_audits db !! id_new RequestId a = None -> (forall i, d = Some i -> is_Some (tr_devices db !! i)) ->
  exists record, ra_action record = action /\ ra_device_id record = d /\
    insert_audit a d action target id outcome summary q c db = (Ok tt, put_audit record db).
Proof.
  intros Hn Hd. unfold insert_audit, db_bind, db_read, audit_insert, insert_row.
  set (record := {| ra_audit_id := _ |}). exists record. split_and!; [done..|].
  destruct d as [d|]; cbn [ra_device_id record];
    [rewrite (bool_decide_eq_true_2 (is_Some _)) by auto|]; simpl; by rewrite Hn.
Qed.

Lemma transaction_err {DB A} (c : db_call DB A) db e db' : db_transaction c db = (Err e, db') -> db' = db.
Proof. unfold db_transaction. destruct (c db) as [[?|?] ?]; [done|]. by intros [= _ <-]. Qed.

(** The pairing [p] is claimed. *)
Definition claimed (p : ident) (db : TrustDb) : Prop :=
  exists row, tr_pairings db !! p = Some row /\ pa_claimed_at_ms row <> None.

(** What a successful claim of [p] did to the tables. *)
Definition paired (p : ident) (device : RemoteDeviceDetail) (token : str) (db db' : TrustDb) : Prop :=
  exists row row' record audit,
    tr_pairings db !! p = Some row /\ pa_claimed_at_ms row = None /\
    pa_pairing_id row' = pa_pairing_id row /\ pa_claimed_at_ms row' <> None /\
    dr_auth_secret_hash record = hash_secret token /\ device_id_of record = rd_device_id device /\
    rd_status (dr_detail record) = rd_status device /\ rd_public_key (dr_detail record) = rd_public_key device /\
    ra_device_id audit = Some (rd_device_id device) /\
    db' = put_audit audit (put_pairing row' (put_device record db)).

Lemma commit_code_paired a p device token now db db' :
  commit_code a p device token now db = (Ok tt, db') -> paired p device token db db'.
Proof.
  unfold commit_code, db_transaction, db_bind, device_upsert, db_write, mark_claimed, db_bind.
  set (record := mkDeviceRecord _ _). cbn [tr_pairings put_device].
  destruct (tr_pairings db !! p) as [row|] eqn:E; [|done].
  destruct (bool_decide_reflect (pa_claimed_at_ms row = None)) as [Hc|]; [|done]. cbn [negb].
  unfold get_by_id, db_read, db_lift. set (row' := row_claimed _ _ _ _).
  destruct (ok_or _ _) as [?|?]; [|done].
  match goal with |- context [insert_audit ?a ?d ?b ?t ?i ?o ?s ?q ?c ?x] =>
    destruct (insert_audit_cases a d b t i o s q c x) as (audit & _ & Hd & _ & [->|[e ->]]) end; [|done].
  intros [= <-]. by exists row, row', record, audit.
Qed.

Lemma claim_offer_paired fresh random r response db db' :
  claim_pairing_offer fresh random r db = (Ok response, db') ->
  paired (ko_offer_id r) (kr_device response) (kr_device_grant_token response) db db' /\
  rd_status (kr_device response) = DeviceActive /\
  exists record, offer_get (ko_offer_id r) db = (Ok (Some record), db) /\
    claim_shape r = Ok tt /\ offer_claimable r record (tr_clock db) = Ok tt /\
    rd_permission_level (kr_device response) = os_permission_level (or_summary record) /\
    paired_device (fresh 0) (Some (ko_device_identity_public_key r)) (trim (ko_display_name r))
      (os_permission_level (or_summary record)) (tr_clock db) db = (Ok (kr_device response), db) /\
    kr_device_grant_token response = secure_secret "grant" random.
Proof.
  unfold claim_pairing_offer. destruct (claim_pairing_offer_inner fresh random r db) as [[x|e] y] eqn:Ei; [|done].
  intros [= <- <-]. apply db_bind_ok in Ei as ([] & db1 & [Es ->]%db_lift_ok & Ei).
  apply db_bind_ok in Ei as (now & db1 & [= <- <-] & Ei%db_transaction_ok).
  apply db_bind_ok in Ei as (found & db1 & Eg & Ei). pose proof Eg as [= <- <-].
  apply db_bind_ok in Ei as (record & db1 & [Ef%ok_or_ok ->]%db_lift_ok & Ei). rewrite Ef in Eg.
  apply bind_Some in Ef as (row & Er & (o & Eo & [= <-])%bind_Some).
  apply db_bind_ok in Ei as ([] & db1 & [Ec ->]%db_lift_ok & Ei).
  apply db_bind_ok in Ei as (device & db1 & Ed & Ei). pose proof Ed as Hpd.
  apply db_bind_ok in Ed as (existing & db2 & [= <- <-] & [= <- <-]). set (device := {| rd_device_id := _ |}) in *.
  apply db_bind_ok in Ei as ([] & db1 & [= <-] & Ei). set (stored := mkDeviceRecord _ _) in *.
  apply db_bind_ok in Ei as (b & db1 & Ecl & Ei). unfold offer_claim in Ecl. cbn [tr_pairings put_device] in Ecl.
  rewrite Er, Eo in Ecl. apply db_bind_ok in Ei as ([] & db2 & [Hb ->]%db_lift_ok & Ei).
  destruct b; [|done]. destruct (_ && _) eqn:Eb in Ecl; [|done]. injection Ecl as <-.
  set (row' := row_claimed _ _ _ _) in *. apply db_bind_ok in Ei as ([] & db2 & Ea & [= <- <-]).
  match type of Ea with insert_audit ?a ?d ?b ?t ?i ?o ?s ?q ?c ?x = _ =>
    destruct (insert_audit_cases a d b t i o s q c x) as (audit & _ & Hd & _ & [E'|[e E']]) end;
    rewrite E' in Ea; [|done]. injection Ea as <-.
  unfold offer_open in Eb. rewrite !andb_true_iff, !bool_decide_eq_true in Eb.
  split; [|split; [done|by exists (map_offer row o)]].
  by exists row, row', stored, audit; split_and!; try naive_solver.
Qed.

(** A refused claim leaves the devices, the codes and the offers as they are. *)
Lemma claim_offer_refused fresh random r e db db' :
  claim_pairing_offer fresh random r db = (Err e, db') ->
  tr_devices db' = tr_devices db /\ tr_pairings db' = tr_pairings db.
Proof.
  unfold claim_pairing_offer. destruct (claim_pairing_offer_inner _ _ _ db) as [[?|?] db1] eqn:Ei; [done|].
  intros [= _ <-].
  assert (db1 = db) as ->.
  { unfold claim_pairing_offer_inner, db_bind at 1, db_lift in Ei.
    destruct (claim_shape r) as [[]|?]; [|by injection Ei as _ <-]. by apply transaction_err in Ei. }
  match goal with |- context [insert_audit ?a ?d ?b ?t ?i ?o ?s ?q ?c ?x] =>
    destruct (insert_audit_cases a d b t i o s q c x) as (audit & _ & _ & _ & [->|[? ->]]) end; done.
Qed.
Lemma paired_claimed p device token db db' :
  trust_wf db -> paired p device token db db' -> ~ claimed p db /\ claimed p db'.
Proof.
  intros Hw (row & row' & record & audit & Hr & Hn & Hi & Hc & _ & _ & _ & _ & _ & ->). split.
  - intros (r & Hr' & Hc'). congruence.
  - exists row'. simpl. by rewrite Hi, (wf_pairings _ Hw _ _ Hr), lookup_insert_eq.
Qed.
Lemma claimed_stays p ops db : trust_wf db -> claimed p db -> claimed p (trust_run ops db).
Proof.
  intros Hw (row & Hr & Hc). destruct (run_undone db ops db (nothing_undone_refl db Hw)) as [_ Hp _].
  destruct (Hp p row Hr) as (row' & Hr' & (_ & _ & _ & _ & Hf)). exists row'. split; [done|]. by rewrite (Hf Hc).
Qed.

Definition wins (p : ident) (op : trust_op) (db : TrustDb) : bool :=
  match op with
  | OpCommitCode a p' device token now => bool_decide (p' = p) && is_ok (commit_code a p' device token now db).1
  | OpClaimOffer fresh random r =>
      bool_decide (ko_offer_id r = p) && is_ok (claim_pairing_offer fresh random r db).1
  | _ => false
  end.
Lemma wins_claimed p op db :
  trust_wf db -> wins p op db = true -> ~ claimed p db /\ claimed p (trust_step db op).
Proof.
  intros Hw. destruct op; cbn [wins trust_step]; try done; intros [E%bool_decide_eq_true Ho]%andb_prop.
  - destruct (commit_code _ _ _ _ _ db) as [[[]|e] db'] eqn:Ec; [|done]. rewrite E in Ec.
    eapply paired_claimed; [done|]. by eapply commit_code_paired.
  - destruct (claim_pairing_offer _ _ _ db) as [[x|e] db'] eqn:Ec; [|done].
    eapply paired_claimed; [done|]. rewrite <- E. by eapply claim_offer_paired.
Qed.

Lemma hash_holder_found p row db :
  trust_wf db -> tr_pairings db !! p = Some row -> hash_holder (pa_code_hash row) db = Some row.
Proof.
  intros Hw Hp. unfold hash_holder. set (l := retain _ _).
  assert (Hl : forall r, r ∈ l <-> pa_code_hash r = pa_code_hash row /\ exists k, tr_pairings db !! k = Some r).
  { intros r. unfold l. rewrite elem_of_retain, bool_decide_eq_true, list_elem_of_fmap. split.
    - intros [([k r'] & -> & Hk%elem_of_map_to_list) E]. split; [done|]. by exists k.
    - intros [E [k Hk]]. split; [|done]. exists (k, r). split; [done|]. by apply elem_of_map_to_list. }
  destruct l as [|r l].
  - exfalso. assert (row ∈ []) as Hn; [|by apply not_elem_of_nil in Hn]. apply Hl. split; [done|]. by exists p.
  - simpl. destruct (proj1 (Hl r)) as [E [k Hk]]; [by left|]. f_equal.
    pose proof (wf_hashes _ Hw _ _ _ _ Hk Hp E). congruence.
Qed.

(** C4. A code or an offer pairs one device, in every interleaving: once a claim of
    it has succeeded, no later claim does, by whatever call, on whatever rows a
    claim had read before, and after whatever else was asked of the store. *)
Theorem pairing_is_claimed_once (p : ident) (first : trust_op) (ops : list trust_op) (db : TrustDb) :
  trust_wf db -> wins p first db = true ->
  let db' := trust_run ops (trust_step db first) in
  (forall op, wins p op db' = false) /\
  (forall fresh others r code row, canonical_pairing_code (kc_pairing_code r) = Some code ->
     tr_pairings db' !! p = Some row -> hash_secret code = pa_code_hash row ->
     is_ok (claim_pairing_code fresh others r db').1 = false).
Proof.
  intros Hw Hf db'. destruct (wins_claimed p first db Hw Hf) as [_ Hc].
  pose proof (run_undone db [first] db (nothing_undone_refl db Hw)) as [Hw1 _ _].
  assert (Hc' : claimed p db') by exact (claimed_stays p ops _ Hw1 Hc).
  assert (Hw' : trust_wf db') by apply (run_undone _ ops _ (nothing_undone_refl _ Hw1)). split.
  - intros op. destruct (wins p op db') eqn:E; [|done]. by apply wins_claimed in E as [E _].
  - intros fresh others r code row Hcode Hrow Hhash. destruct Hc' as (row' & Hrow' & Hn). simplify_eq.
    unfold claim_pairing_code, get_by_hash. destruct (is_empty _); [done|]. rewrite Hcode.
    unfold db_bind at 1, db_lift, ok_or. unfold db_bind at 1, db_read at 1.
    rewrite Hhash, (hash_holder_found p) by done. cbn [fmap option_fmap option_map].
    cbn [cr_pairing map_remote_pairing_code_record pc_claimed_at_ms].
    rewrite bool_decide_eq_true_2 by (by apply not_eq_None_Some). unfold refuse_code, db_bind.
    destruct (insert_audit _ _ _ _ _ _ _ _ _ _) as [[?|?] ?]; done.
Qed.

(** ** Grants: the store as an abstract machine *)

(** Of a device, the hash of its token and whether it is in service. *)
Definition in_service (d : RemoteDeviceDetail) : bool := negb (bool_decide (rd_status d = DeviceRevoked)).
Definition grants (db : TrustDb) : gmap ident (str * bool) :=
  (fun r => (dr_auth_secret_hash r, in_service (dr_detail r))) <$> tr_devices db.
Inductive grant_event : Type :=
| Granted (device_id : ident) (hash : str) (usable : bool)
| GrantRevoked (device_id : ident)
| GrantRestored (device_id : ident)
| GrantForgotten (device_id : ident).
Definition grant_step (g : gmap ident (str * bool)) (e : grant_event) : gmap ident (str * bool) :=
  match e with
  | Granted d hash usable => <[d := (hash, usable)]> g
  | GrantRevoked d => alter (fun x => (x.1, false)) d g
  | GrantRestored d => alter (fun x => (x.1, true)) d g
  | GrantForgotten d => delete d g
  end.

(** What an operation does to the grants. *)
Definition step_events (op : trust_op) (db : TrustDb) : list grant_event :=
  match op with
  | OpCommitCode a p device token now =>
      if is_ok (commit_code a p device token now db).1
      then [Granted (rd_device_id device) (hash_secret token) (in_service device)] else []
  | OpClaimOffer fresh random r =>
      match (claim_pairing_offer fresh random r db).1 with
      | Ok response =>
          [Granted (rd_device_id (kr_device response)) (hash_secret (kr_device_grant_token response)) true]
      | Err _ => []
      end
  | OpRevoke a r => [GrantRevoked (rv_device_id r)]
  | OpCommitDelete fresh d detail reason now =>
      if is_ok (commit_delete fresh d detail reason now db).1 then [GrantForgotten d] else []
  | OpCommitRestore a d reason now =>
      if is_ok (commit_restore a d reason now db).1 then [GrantRestored d] else []
  | _ => []
  end.
Fixpoint trust_events (ops : list trust_op) (db : TrustDb) : list grant_event :=
  match ops with
  | [] => []
  | op :: ops => step_events op db ++ trust_events ops (trust_step db op)
  end.

Lemma grants_put record db :
  grants (put_device record db) =
  <[device_id_of record := (dr_auth_secret_hash record, in_service (dr_detail record))]> (grants db).
Proof. unfold grants. simpl. by rewrite fmap_insert. Qed.
Lemma grants_set d f b db :
  trust_wf db -> (forall x, rd_device_id (f x) = rd_device_id x /\ in_service (f x) = b) ->
  grants (device_set d f db).2 = alter (fun x => (x.1, b)) d (grants db).
Proof.
  intros Hw Hf. unfold device_set, db_write. cbn [snd]. destruct (tr_devices db !! d) as [r|] eqn:E.
  - rewrite grants_put. unfold device_id_of. cbn [dr_detail dr_auth_secret_hash].
    destruct (Hf (dr_detail r)) as [-> ->]. change (rd_device_id (dr_detail r)) with (device_id_of r).
    rewrite (wf_devices _ Hw _ _ E). apply map_eq. intros i. destruct (decide (i = d)) as [->|Hne].
    + rewrite lookup_insert_eq, lookup_alter_eq. unfold grants. by rewrite lookup_fmap, E.
    + by rewrite lookup_insert_ne, lookup_alter_ne.
  - apply map_eq. intros i. destruct (decide (i = d)) as [->|Hne]; [|by rewrite lookup_alter_ne].
    rewrite lookup_alter_eq. unfold grants. by rewrite lookup_fmap, E.
Qed.
Lemma grants_audit record db : grants (put_audit record db) = grants db.
Proof. done. Qed.
Lemma grants_delete d db : grants (device_delete d db).2 = delete d (grants db).
Proof. unfold grants. simpl. by rewrite fmap_delete. Qed.
Lemma grants_insert_audit a d action target id outcome summary q c db :
  grants (insert_audit a d action target id outcome summary q c db).2 = grants db.
Proof. by destruct (insert_audit_cases a d action target id outcome summary q c db) as (r & _ & _ & _ & [->|[e ->]]). Qed.
Lemma audit_leaves_grants a d action target id outcome summary q c db res db' :
  insert_audit a d action target id outcome summary q c db = (res, db') -> grants db' = grants db.
Proof.
  intros E. pose proof (grants_insert_audit a d action target id outcome summary q c db) as Hg.
  by rewrite E in Hg.
Qed.

(** The operations that leave every grant as it is. *)
Definition leaves (g : gmap ident (str * bool)) (db : TrustDb) : Prop := trust_wf db /\ grants db = g.
Definition is_quiet (op : trust_op) : bool :=
  match op with
  | OpCommitCode _ _ _ _ _ | OpClaimOffer _ _ _ | OpRevoke _ _ | OpCommitDelete _ _ _ _ _
  | OpCommitRestore _ _ _ _ => false
  | _ => true
  end.
Lemma quiet_leaves op g db : is_quiet op = true -> leaves g db -> grants (trust_step db op) = g.
Proof.
  intros Hop Hl.
  assert (H1 : forall record db, leaves g db -> tr_audits db !! ra_audit_id record = None ->
    leaves g (put_audit record db)).
  { intros r db' [Hw Hg] Hn. split; [|done]. apply (undone_audit db'); [by apply nothing_undone_refl|done]. }
  assert (H2 : forall row db, leaves g db -> tr_pairings db !! pa_pairing_id row = None ->
    (forall k other, tr_pairings db !! k = Some other -> pa_code_hash other <> pa_code_hash row) ->
    pa_claimed_at_ms row = None -> leaves g (put_pairing row db)).
  { intros r db' [Hw Hg] ???. split; [|done]. apply (undone_pairing db'); [by apply nothing_undone_refl|done..]. }
  assert (H3 : forall k row device_id at_ms offer db, leaves g db -> tr_pairings db !! k = Some row ->
    pa_claimed_at_ms row = None -> (is_Some (pa_offer row) <-> is_Some offer) ->
    leaves g (put_pairing (row_claimed row device_id at_ms offer) db)).
  { intros k r ??? db' [Hw Hg] ???. split; [|done]. apply (undone_claim db' k); [by apply nothing_undone_refl|done..]. }
  assert (H4 : forall k row o at_ms db, leaves g db -> tr_pairings db !! k = Some row -> pa_offer row = Some o ->
    pa_claimed_at_ms row = None -> leaves g (put_pairing (row_canceled row o at_ms) db)).
  { intros k r ?? db' [Hw Hg] ???. split; [|done]. apply (undone_cancel db' k); [by apply nothing_undone_refl|done..]. }
  assert (H5 : forall k record f db, leaves g db -> tr_devices db !! k = Some record -> quiet f ->
    leaves g (put_device (mkDeviceRecord (f (dr_detail record)) (dr_auth_secret_hash record)) db)).
  { intros k r f db' [Hw Hg] Hk Hf. split; [by apply put_device_wf|]. rewrite grants_put, <- Hg.
    destruct (Hf (dr_detail r)) as (Hi & _ & Hs & _). unfold device_id_of, in_service. simpl. rewrite Hi, Hs.
    apply insert_id. unfold grants. rewrite lookup_fmap. change (rd_device_id (dr_detail r)) with (device_id_of r).
    by rewrite (wf_devices _ Hw _ _ Hk), Hk. }
  assert (H6 : forall name db, leaves g db ->
    leaves g (mkTrustDb (tr_devices db) (tr_pairings db) (tr_audits db) name (tr_clock db))).
  { intros name db' [Hw Hg]. split; [|done]. apply (undone_name db'), nothing_undone_refl, Hw. }
  enough (leaves g (trust_step db op)) as [_ ?] by done.
  destruct op; try done; simpl; try (apply keeps_run; [|done]).
  - destruct Hl as [Hw Hg]. split; [|done]. apply (undone_clock db), nothing_undone_refl, Hw.
  - by apply keeps_create_code.
  - by apply keeps_refuse_code.
  - by apply keeps_create_offer.
  - by apply keeps_cancel_offer.
  - by apply keeps_authenticate.
  - by apply keeps_rename_device.
  - by apply keeps_rename_runtime.
  - by apply keeps_authorize.
Qed.

Lemma paired_grants p device token db db' :
  paired p device token db db' ->
  grants db' = <[rd_device_id device := (hash_secret token, in_service device)]> (grants db).
Proof.
  intros (row & row' & record & audit & _ & _ & _ & _ & Hh & Hi & Hs & _ & _ & ->).
  rewrite grants_audit. change (grants (put_pairing row' ?x)) with (grants x).
  rewrite grants_put, Hh, Hi. unfold in_service. by rewrite Hs.
Qed.
Lemma device_set_after d f code message b (db db' : TrustDb) record :
  trust_wf db -> (forall x, rd_device_id (f x) = rd_device_id x /\ in_service (f x) = b) ->
  (let! _ := device_set d f in device_after d code message) db = (Ok record, db') ->
  trust_wf db' /\ grants db' = alter (fun x => (x.1, b)) d (grants db) /\ device_id_of record = d.
Proof.
  intros Hw Hf ([] & db1 & Hs & Ha)%db_bind_ok. apply db_bind_ok in Ha as (found & db2 & [= <- <-] & [Ho ->]%db_lift_ok).
  apply ok_or_ok in Ho. pose proof (grants_set d f b db Hw Hf) as Hg. rewrite Hs in Hg. simpl in Hg.
  assert (Hw1 : trust_wf db1).
  { injection Hs as <-. destruct (tr_devices db !! d); [by apply put_device_wf|done]. }
  split_and!; [done..|]. by apply (wf_devices _ Hw1).
Qed.

Lemma step_grants op db :
  trust_wf db -> grants (trust_step db op) = foldl grant_step (grants db) (step_events op db).
Proof.
  intros Hw. destruct (is_quiet op) eqn:Hq.
  { rewrite (quiet_leaves op (grants db)) by done. by destruct op. }
  destruct op; try done; cbn [step_events trust_step].
  - destruct (commit_code _ _ _ _ _ db) as [[[]|e] db'] eqn:E; simpl; [|by apply transaction_err in E as ->].
    by eapply paired_grants, commit_code_paired.
  - destruct (claim_pairing_offer _ _ _ db) as [[x|e] db'] eqn:E; cbn [fst snd foldl].
    + destruct (claim_offer_paired _ _ _ _ _ _ E) as (Hp & Hs & _). rewrite (paired_grants _ _ _ _ _ Hp).
      unfold grant_step, in_service. by rewrite Hs.
    + apply claim_offer_refused in E as [E _]. unfold grants. by rewrite E.
  - unfold revoke_device. unfold db_bind at 1, device_get, db_read. simpl foldl.
    destruct (bool_decide_reflect (tr_devices db !! rv_device_id r = None)) as [Hn|Hn].
    { simpl. symmetry. apply alter_id. intros x Hx. unfold grants in Hx. by rewrite lookup_fmap, Hn in Hx. }
    unfold db_bind at 1. unfold db_bind at 1.
    destruct (device_revoke _ _ db) as [[record|e] db1] eqn:E.
    + pose proof E as E'. apply (device_set_after _ _ _ _ false) in E' as (_ & <- & _); [|done|done].
      unfold db_bind. match goal with |- context [insert_audit ?a ?d ?b ?t ?i ?o ?s ?q ?c ?x] =>
        pose proof (grants_insert_audit a d b t i o s q c x) as Hg end.
      destruct (insert_audit _ _ _ _ _ _ _ _ _ db1) as [[?|?] ?]; done.
    + exfalso. unfold device_revoke, db_bind, device_set, db_write, device_after, db_bind, device_get, db_read, db_lift in E.
      destruct (tr_devices db !! rv_device_id r) as [x|] eqn:Ex; [|done]. simpl in E.
      change (rd_device_id (dr_detail x)) with (device_id_of x) in E. by rewrite (wf_devices _ Hw _ _ Ex), lookup_insert_eq in E.
  - destruct (commit_delete _ _ _ _ _ db) as [[[]|e] db'] eqn:E; simpl; [|by apply transaction_err in E as ->].
    apply db_transaction_ok, db_bind_ok in E as ([] & db1 & E1 & E).
    apply db_bind_ok in E as (b & db2 & E2 & E).
    injection E2 as <- <-. rewrite (audit_leaves_grants _ _ _ _ _ _ _ _ _ _ _ _ E).
    change (grants (device_delete device_id db1).2 = delete device_id (grants db)).
    rewrite grants_delete. destruct (bool_decide _); [|by injection E1 as <-].
    apply db_bind_ok in E1 as (record & db3 & E1 & E3).
    apply (device_set_after _ _ _ _ false) in E1 as (_ & Hg1 & _); [|done|done].
    rewrite (audit_leaves_grants _ _ _ _ _ _ _ _ _ _ _ _ E3), Hg1.
    apply map_eq. intros i. destruct (decide (i = device_id)) as [->|]; [by rewrite !lookup_delete_eq|].
    by rewrite !lookup_delete_ne, lookup_alter_ne.
  - destruct (commit_restore _ _ _ _ db) as [[x|e] db'] eqn:E; simpl; [|by apply transaction_err in E as ->].
    apply db_transaction_ok, db_bind_ok in E as (record & db1 & E1 & E).
    apply (device_set_after _ _ _ _ true) in E1 as (_ & <- & _); [|done|done].
    apply db_bind_ok in E as ([] & db2 & E2 & [= <- <-]).
    by apply audit_leaves_grants in E2.
Qed.
Lemma run_wf ops db : trust_wf db -> trust_wf (trust_run ops db).
Proof. intros Hw. apply (run_undone db), nothing_undone_refl, Hw. Qed.
Lemma run_grants ops db :
  trust_wf db -> grants (trust_run ops db) = foldl grant_step (grants db) (trust_events ops db).
Proof.
  revert db. induction ops as [|op ops IH]; intros db Hw; [done|]. cbn [trust_events]. rewrite foldl_app.
  rewrite <- (step_grants op db Hw). apply IH. by apply (run_wf [op]).
Qed.

(** Whom the abstract machine lets in. *)
Definition admits (g : gmap ident (str * bool)) (proof : RemoteAuthProof) : bool :=
  bool_decide (g !! ap_device_id proof = Some (hash_secret (ap_auth_token proof), true)).
Lemma db_bind_fails {A} (c : trust_call unit) e db :
  is_ok ((let! _ := c in @db_fail TrustDb A e) db).1 = false.
Proof. unfold db_bind. by destruct (c db) as [[?|?] ?]. Qed.
Lemma admits_spec proof db :
  admits (grants db) proof = true <->
  exists record, tr_devices db !! ap_device_id proof = Some record /\
    rd_status (dr_detail record) <> DeviceRevoked /\
    dr_auth_secret_hash record = hash_secret (ap_auth_token proof).
Proof.
  unfold admits, grants, in_service. rewrite bool_decide_eq_true, lookup_fmap_Some. split.
  - intros (r & E & Hr). exists r. injection E as Eh Es. split_and!; [done| |done].
    intros Ev. by rewrite bool_decide_eq_true_2 in Es.
  - intros (r & Hr & Hs & Hh). exists r. split; [|done]. by rewrite bool_decide_eq_false_2, Hh.
Qed.
Lemma authenticate_refuses a proof db :
  admits (grants db) proof = false -> is_ok (authenticate a proof db).1 = false.
Proof.
  intros Ha%not_true_iff_false. rewrite admits_spec in Ha.
  unfold authenticate. unfold db_bind at 1, device_get, db_read at 1.
  destruct (tr_devices db !! ap_device_id proof) as [record|] eqn:E; [|done].
  destruct (bool_decide_reflect (rd_status (dr_detail record) = DeviceRevoked)) as [Hs|Hs]; [apply db_bind_fails|].
  destruct (bool_decide_reflect (dr_auth_secret_hash record = hash_secret (ap_auth_token proof))) as [Ht|Ht];
    [|apply db_bind_fails]. destruct Ha. by exists record.
Qed.
Lemma authenticate_admits a proof db :
  trust_wf db -> tr_audits db !! id_new RequestId a = None -> admits (grants db) proof = true ->
  is_ok (authenticate a proof db).1 = true.
Proof.
  intros Hw Hn (record & E & Hs & Ht)%admits_spec.
  unfold authenticate. unfold db_bind at 1, device_get, db_read at 1. rewrite E.
  rewrite (bool_decide_eq_false_2 (rd_status _ = _)), (bool_decide_eq_true_2 (dr_auth_secret_hash _ = _)) by done.
  cbn [negb]. unfold db_bind at 1, db_read. unfold db_bind at 1, update_last_seen, device_set, db_write.
  change (rd_device_id (dr_detail record)) with (device_id_of record). rewrite (wf_devices _ Hw _ _ E), E.
  match goal with |- context [insert_audit ?a ?d ?b ?t ?i ?o ?s ?q ?c] =>
    match goal with |- context [put_device ?x db] =>
      destruct (insert_audit_ok a d b t i o s q c (put_device x db)) as (r & _ & _ & Hr) end end;
    [done| |unfold db_bind; by rewrite Hr].
  intros i [= <-]. cbn [put_device tr_devices]. unfold device_id_of. cbn [dr_detail seen_at rd_device_id].
  change (rd_device_id (dr_detail record)) with (device_id_of record). rewrite (wf_devices _ Hw _ _ E), lookup_insert_eq.
  by eexists.
Qed.

(** C5. Authentication is a pure function of the grants events: whatever the
    history, a device is let in exactly when the last event of its own gave or
    restored the grant its token hashes to, and no revocation or deletion came
    after it. *)
Theorem grants_follow_the_events (ops : list trust_op) (db : TrustDb) :
  trust_wf db ->
  let db' := trust_run ops db in
  let g := foldl grant_step (grants db) (trust_events ops db) in
  grants db' = g /\
  (forall a proof, is_ok (authenticate a proof db').1 = true -> admits g proof = true) /\
  (forall a proof, tr_audits db' !! id_new RequestId a = None ->
     is_ok (authenticate a proof db').1 = admits g proof).
Proof.
  intros Hw db' g. assert (Hg : grants db' = g) by by apply run_grants. rewrite <- Hg.
  assert (Hr : forall a proof, is_ok (authenticate a proof db').1 = true -> admits (grants db') proof = true).
  { intros a proof Ho. destruct (admits (grants db') proof) eqn:E; [done|].
    by rewrite authenticate_refuses in Ho. }
  split_and!; [done|done|]. intros a proof Hn. destruct (admits (grants db') proof) eqn:E.
  - apply authenticate_admits; [by apply run_wf|done..].
  - by apply authenticate_refuses.
Qed.

(** The events that would let the device [d] in again. *)
Definition readmits (d : ident) (e : grant_event) : bool :=
  match e with
  | Granted d' _ usable => bool_decide (d' = d) && usable
  | GrantRestored d' => bool_decide (d' = d)
  | GrantRevoked _ | GrantForgotten _ => false
  end.
Definition out (d : ident) (g : gmap ident (str * bool)) : Prop :=
  forall hash, g !! d <> Some (hash, true).
Lemma grant_step_out d e g : readmits d e = false -> out d g -> out d (grant_step g e).
Proof.
  unfold out. intros He Ho hash. destruct e as [d' h b|d'|d'|d']; cbn [grant_step readmits] in *.
  - intros [[-> [= -> ->]]|[_ Hg]]%lookup_insert_Some; [|by apply (Ho hash)]. by rewrite bool_decide_eq_true_2 in He.
  - rewrite lookup_alter. case_decide; [|by apply Ho]. destruct (g !! d'); [|done]. by intros [=].
  - apply bool_decide_eq_false in He. rewrite lookup_alter_ne by done. by apply Ho.
  - intros [_ Hg]%lookup_delete_Some. by apply (Ho hash).
Qed.
Lemma grant_steps_out d es g :
  forallb (fun e => negb (readmits d e)) es = true -> out d g -> out d (foldl grant_step g es).
Proof.
  revert g. induction es as [|e es IH]; intros g; simpl; [done|]. intros [He Hes]%andb_prop Ho.
  apply IH; [done|]. apply grant_step_out; [by apply negb_true_iff|done].
Qed.

(** A revoked device stays out: after the revocation no token lets it in, in
    any history that neither claims a code or an offer for it nor restores it. *)
Theorem revoked_device_stays_out (a : str) (r : RemoteRevokeDeviceRequest) (ops : list trust_op) (db : TrustDb) :
  trust_wf db ->
  let db1 := trust_step db (OpRevoke a r) in
  forallb (fun e => negb (readmits (rv_device_id r) e)) (trust_events ops db1) = true ->
  forall a' token, is_ok (authenticate a' (mkAuthProof (rv_device_id r) token) (trust_run ops db1)).1 = false.
Proof.
  intros Hw db1 Hes a' token. apply authenticate_refuses.
  rewrite run_grants by by apply (run_wf [OpRevoke a r]).
  assert (Ho : out (rv_device_id r) (grants db1)).
  { intros hash. unfold db1. rewrite (step_grants _ _ Hw). cbn [step_events foldl grant_step].
    rewrite lookup_alter_eq. destruct (grants db !! rv_device_id r); [|done]. by intros [=]. }
  apply (grant_steps_out _ _ _ Hes) in Ho. unfold admits. apply bool_decide_eq_false. apply Ho.
Qed.

(** ** One row per client *)

(** No two devices have the same public key. *)
Definition one_row_per_key (db : TrustDb) : Prop := forall i j r s key,
  tr_devices db !! i = Some r -> tr_devices db !! j = Some s ->
  rd_public_key (dr_detail r) = Some key -> rd_public_key (dr_detail s) = Some key -> i = j.
(** No row but that of [device_id] has the key. *)
Definition key_free (public_key : option str) (device_id : ident) (db : TrustDb) : Prop := forall k r key,
  tr_devices db !! k = Some r -> public_key = Some key ->
  rd_public_key (dr_detail r) = Some key -> k = device_id.

Lemma one_row_put record db :
  one_row_per_key db -> key_free (rd_public_key (dr_detail record)) (device_id_of record) db ->
  one_row_per_key (put_device record db).
Proof.
  intros Ho Hf i j r s key. cbn [put_device tr_devices].
  intros [[<- <-]|[? Hr]]%lookup_insert_Some [[<- <-]|[? Hs]]%lookup_insert_Some Kr Ks; [done|..].
  - symmetry. by apply (Hf _ s key).
  - by apply (Hf _ r key).
  - by apply (Ho i j r s key).
Qed.
Lemma key_holder_spec key db :
  match key_holder key db with
  | Some r => exists k, tr_devices db !! k = Some r /\ rd_public_key (dr_detail r) = Some key
  | None => forall k r, tr_devices db !! k = Some r -> rd_public_key (dr_detail r) <> Some key
  end.
Proof.
  unfold key_holder. set (l := retain _ _).
  assert (Hl : forall r, r ∈ l <-> rd_public_key (dr_detail r) = Some key /\ exists k, tr_devices db !! k = Some r).
  { intros r. unfold l. rewrite elem_of_retain, bool_decide_eq_true, list_elem_of_fmap. split.
    - intros [([k r'] & -> & Hk%elem_of_map_to_list) E]. split; [done|]. by exists k.
    - intros [E [k Hk]]. split; [|done]. exists (k, r). split; [done|]. by apply elem_of_map_to_list. }
  clearbody l. destruct l as [|r l]; simpl.
  - intros k r Hk E. assert (r ∈ []) as Hn; [|by apply not_elem_of_nil in Hn]. apply Hl. by split; [|exists k].
  - destruct (proj1 (Hl r)) as [E [k Hk]]; [by left|]. by exists k.
Qed.
(** A claim that looks the key up pairs the row that has it. *)
Lemma paired_device_key_free u key name level now db device db' :
  trust_wf db -> one_row_per_key db -> paired_device u key name level now db = (Ok device, db') ->
  key_free (rd_public_key device) (rd_device_id device) db.
Proof.
  intros Hw Ho E k r key'. apply db_bind_ok in E as (existing & db1 & E1 & [= <- <-]).
  cbn [rd_public_key rd_device_id]. intros Hk -> Hkey. injection E1 as <- <-.
  pose proof (key_holder_spec key' db) as Hh. destruct (key_holder key' db) as [s|].
  - destruct Hh as (j & Hj & Hs). rewrite (wf_devices _ Hw _ _ Hj). by apply (Ho k j r s key').
  - by destruct (Hh k r Hk).
Qed.
Lemma paired_device_reads u key name level now db res db' :
  paired_device u key name level now db = (res, db') -> db' = db.
Proof. by destruct key as [key|]; intros [= _ <-]. Qed.
Lemma one_row_paired p device token db db' :
  paired p device token db db' -> one_row_per_key db ->
  key_free (rd_public_key device) (rd_device_id device) db -> one_row_per_key db'.
Proof.
  intros (row & row' & record & audit & _ & _ & _ & _ & _ & Hi & _ & Hk & _ & ->) Ho Hf.
  apply (one_row_put record); [done|]. by rewrite Hk, Hi.
Qed.
Lemma one_row_same k record f db :
  trust_wf db -> one_row_per_key db -> tr_devices db !! k = Some record -> same_client f ->
  one_row_per_key (put_device (mkDeviceRecord (f (dr_detail record)) (dr_auth_secret_hash record)) db).
Proof.
  intros Hw Ho Hk Hf. apply one_row_put; [done|]. intros j s key Hj. cbn [dr_detail].
  unfold device_id_of. cbn [dr_detail]. destruct (Hf (dr_detail record)) as [-> ->]. intros E1 E2.
  change (rd_device_id (dr_detail record)) with (device_id_of record). rewrite (wf_devices _ Hw _ _ Hk).
  by apply (Ho j k s record key).
Qed.

(** The tables are typed: each row under its own id, no two codes alike, no
    client twice. *)
Definition trust_typed (db : TrustDb) : Prop := trust_wf db /\ one_row_per_key db.
Lemma typed_delete d db : trust_typed db -> trust_typed (device_delete d db).2.
Proof.
  intros [Hw Ho]. split; [by apply (undone_delete db), nothing_undone_refl|].
  intros i j r s key Hr Hs. cbn in Hr, Hs.
  apply lookup_delete_Some in Hr as [_ Hr]. apply lookup_delete_Some in Hs as [_ Hs]. by apply (Ho i j r s).
Qed.
(** What the operations that pair nothing keep: the tables typed, and a key
    that was free. *)
Lemma steady_typed public_key device_id ops db :
  forallb (fun op => negb (is_claim op)) ops = true -> trust_typed db -> key_free public_key device_id db ->
  trust_typed (trust_run ops db) /\ key_free public_key device_id (trust_run ops db).
Proof.
  intros Hops Ht Hf. apply (steady_run (fun db => trust_typed db /\ key_free public_key device_id db)); [..|done|done].
  - intros record db' [[Hw Ho] ?] Hn. split; [|done]. split; [|done].
    apply (undone_audit db'); [by apply nothing_undone_refl|done].
  - intros row db' [[Hw Ho] ?] ???. split; [|done]. split; [|done].
    apply (undone_pairing db'); [by apply nothing_undone_refl|done..].
  - intros k row o at_ms db' [[Hw Ho] ?] ???. split; [|done]. split; [|done].
    apply (undone_cancel db' k); [by apply nothing_undone_refl|done..].
  - intros name db' [[Hw Ho] ?]. split; [|done]. split; [|done]. apply (undone_name db'), nothing_undone_refl, Hw.
  - intros now db' [[Hw Ho] ?]. split; [|done]. split; [|done]. apply (undone_clock db'), nothing_undone_refl, Hw.
  - intros d db' [Ht' Hf']. split; [by apply typed_delete|]. intros k r key Hr. cbn in Hr.
    apply lookup_delete_Some in Hr as [_ Hr]. by apply (Hf' k r).
  - intros k record f db' [[Hw Ho] Hf'] Hk Hsame. split; [split; [by apply put_device_wf|by apply (one_row_same k)]|].
    intros j s key. cbn [put_device tr_devices]. intros [[<- <-]|[_ Hs]]%lookup_insert_Some Kd; [|by apply (Hf' j s)].
    unfold device_id_of. cbn [dr_detail]. destruct (Hsame (dr_detail record)) as [-> ->]. intros Ks.
    change (rd_device_id (dr_detail record)) with (device_id_of record).
    rewrite (wf_devices _ Hw _ _ Hk). by apply (Hf' k record key).
Qed.
Lemma key_free_none d db : key_free None d db.
Proof. by intros k r key. Qed.
Lemma typed_step op db :
  trust_typed db ->
  match op with
  | OpCommitCode _ _ device _ _ => key_free (rd_public_key device) (rd_device_id device) db
  | _ => True
  end -> trust_typed (trust_step db op).
Proof.
  intros Ht Hf. pose proof Ht as [Hw Ho]. destruct (is_claim op) eqn:Hop.
  - split; [by apply (run_wf [op])|].
    destruct op as [| | |a p device token now| | |fresh random r| | | | | | |]; try done; cbn [trust_step].
    + destruct (commit_code a p device token now db) as [[[]|e] db'] eqn:E; [|by apply transaction_err in E as ->].
      by eapply one_row_paired; [by eapply commit_code_paired|..].
    + destruct (claim_pairing_offer fresh random r db) as [[x|e] db'] eqn:E; cbn [snd].
      * destruct (claim_offer_paired _ _ _ _ _ _ E) as (Hpair & _ & record & _ & _ & _ & _ & Hd & _).
        eapply one_row_paired; [done|done|]. by eapply paired_device_key_free.
      * apply claim_offer_refused in E as [E _]. unfold one_row_per_key. by rewrite E.
  - apply (steady_typed None [] [op] db); [by simpl; rewrite Hop|done|apply key_free_none].
Qed.

Lemma refuse_code_step {A} a d t s e db : (@refuse_code A a d t s e db).2 = trust_step db (OpRefuseCode a d t s e).
Proof. cbn [trust_step]. unfold refuse_code, db_bind. by destruct (insert_audit _ _ _ _ _ _ _ _ _ db) as [[?|?] ?]. Qed.

(** C21. The tables stay typed under every operation, a claim of a code included as
    long as no other claim is written between its lookup of the device and its
    transaction: then a client that pairs again gets the row it had, with the
    permissions of the new code, and never a second one. *)
Theorem one_client_one_row :
  (forall op db, trust_typed db ->
     match op with
     | OpCommitCode _ _ device _ _ => key_free (rd_public_key device) (rd_device_id device) db
     | _ => True
     end -> trust_typed (trust_step db op)) /\
  (forall fresh others r db, trust_typed db -> forallb (fun op => negb (is_claim op)) others = true ->
     trust_typed (claim_pairing_code fresh (trust_run others) r db).2).
Proof.
  split; [exact typed_step|]. intros fresh others r db Ht Hops.
  unfold claim_pairing_code, get_by_hash. destruct (is_empty _); [done|]. unfold db_bind at 1, db_lift.
  destruct (ok_or _ _) as [code|e]; [|done]. unfold db_bind at 1, db_read at 1.
  destruct (_ <$> hash_holder _ db) as [record|]; [|rewrite refuse_code_step; by apply typed_step].
  destruct (bool_decide _); [rewrite refuse_code_step; by apply typed_step|].
  unfold db_bind at 1, db_read at 1.
  destruct (_ <=? _)%Z; [rewrite refuse_code_step; by apply typed_step|].
  unfold db_bind at 1. destruct (paired_device _ _ _ _ _ db) as [[device|e] db1] eqn:Ed.
  2: { by apply paired_device_reads in Ed as ->. }
  pose proof Ed as ->%paired_device_reads. destruct Ht as [Hw Ho].
  pose proof (paired_device_key_free _ _ _ _ _ _ _ _ Hw Ho Ed) as Hf.
  destruct (steady_typed _ _ others db Hops (conj Hw Ho) Hf) as [Ht1 Hf1].
  unfold db_bind at 1, db_write. unfold db_bind.
  match goal with |- context [commit_code ?a ?p ?d ?t ?n ?x] =>
    pose proof (typed_step (OpCommitCode a p d t n) x Ht1 Hf1) as Hs; cbn [trust_step] in Hs;
    by destruct (commit_code a p d t n x) as [[?|?] ?] end.
Qed.

(** ** Codes as people type them *)

(** [typed] spells [code]: its digits in their order, and nothing else but
    separators. *)
Definition spells (typed code : str) : Prop :=
  forallb (fun c => is_ascii_digit c || is_code_separator c) typed = true /\
  retain is_ascii_digit typed = retain is_ascii_digit code.

Lemma nine_digits_ascii value : forallb is_ascii_digit (nine_digits value) = true.
Proof.
  apply forallb_forall. intros c Hc. apply list_elem_of_In, list_elem_of_fmap in Hc as (i & -> & _).
  set (d := (value / 10 ^ i mod 10)%N). assert (d < 10)%N by by apply N.mod_lt. clearbody d.
  unfold is_ascii_digit. apply andb_true_intro. split; apply N.leb_le; lia.
Qed.
Lemma grouped_code_digits digits :
  forallb is_ascii_digit digits = true -> retain is_ascii_digit (grouped_code digits) = digits.
Proof.
  intros Hd. unfold grouped_code. rewrite !List.filter_app.
  assert (Hr : forall l, (forall c, c ∈ l -> c ∈ digits) -> retain is_ascii_digit l = l).
  { intros l Hl. apply retain_all. apply Forall_forall. intros c Hc.
    eapply forallb_forall in Hd; [done|]. by apply list_elem_of_In, Hl. }
  rewrite (Hr (take 3 digits)), (Hr (take 3 _)), (Hr (drop 6 _)).
  - change (retain is_ascii_digit (lit "-")) with (@nil N). simpl.
    rewrite <- (take_drop 3 digits) at 4. rewrite <- (take_drop 3 (drop 3 digits)) at 2. by rewrite drop_drop.
  - intros c Hc. rewrite <- (take_drop 6 digits). set_solver.
  - intros c Hc. rewrite <- (take_drop 3 digits), <- (take_drop 3 (drop 3 digits)). set_solver.
  - intros c Hc. rewrite <- (take_drop 3 digits). set_solver.
Qed.
Lemma canonical_spells typed digits :
  forallb is_ascii_digit digits = true -> length digits = 9 ->
  canonical_pairing_code typed = Some (grouped_code digits) <-> spells typed (grouped_code digits).
Proof.
  intros Hd Hl. unfold canonical_pairing_code, spells. rewrite (grouped_code_digits _ Hd).
  destruct (forallb _ typed) eqn:Ef; simpl; [|rewrite orb_true_r; naive_solver].
  rewrite orb_false_r. destruct (Nat.eqb_spec (length (retain is_ascii_digit typed)) 9) as [E|E]; simpl.
  - split; [|by intros [_ ->]]. intros [= Eg]. split; [done|].
    pose proof (f_equal (retain is_ascii_digit) Eg) as Er. rewrite (grouped_code_digits digits) in Er by done.
    rewrite grouped_code_digits in Er; [done|].
    apply forallb_forall. intros c Hc. by apply list_elem_of_In, elem_of_retain in Hc as [_ ?].
  - split; [done|]. intros [_ Er]. by rewrite Er in E.
Qed.

(** A code is accepted however it is typed, and nothing else is: exactly the
    spellings of a generated code (its digits in order, with dashes, spaces and
    tabs anywhere) are read as that code. *)
Theorem code_is_accepted_as_typed (uuid typed : str) :
  canonical_pairing_code typed = Some (generate_pairing_code uuid) <->
  spells typed (generate_pairing_code uuid).
Proof. apply canonical_spells; [apply nine_digits_ascii|done]. Qed.

(** ** Offers and their terms *)

(** What a claim of an offer is decided on, and nothing else. *)
Definition offer_verdict (r : RemoteClaimPairingOfferRequest) (db : TrustDb)
  : VibexResult RemoteDevicePermissionLevel :=
  let? _ := claim_shape r in
  let? record := ok_or (row ← tr_pairings db !! ko_offer_id r; o ← pa_offer row; Some (map_offer row o))
                   OFFER_UNKNOWN in
  let? _ := offer_claimable r record (tr_clock db) in
  Ok (os_permission_level (or_summary record)).

Lemma offer_claimable_open r row o now :
  offer_claimable r (map_offer row o) now = Ok tt ->
  bool_decide (pa_code_hash row = hash_secret (ko_one_time_challenge r)) && offer_open row o now = true.
Proof.
  unfold offer_claimable. cbn [map_offer or_summary or_claimed_at_ms or_canceled_at_ms or_challenge_hash os_expires_at_ms].
  destruct (_ || _); [done|]. destruct (bool_decide_reflect (is_Some (pa_claimed_at_ms row))) as [|Hc]; [done|].
  destruct (bool_decide_reflect (is_Some (oc_canceled_at_ms o))) as [|Hx]; [done|].
  destruct (Z.leb_spec (pa_expires_at_ms row) now) as [|Ht]; [done|].
  destruct (bool_decide_reflect (hash_secret (ko_one_time_challenge r) = pa_code_hash row)) as [He|]; [|done].
  intros _. unfold offer_open. rewrite !bool_decide_eq_true_2; [by apply Z.ltb_lt|..|done].
  - by apply eq_None_not_Some.
  - by apply eq_None_not_Some.
Qed.

Lemma offer_inner_refused fresh random r db e :
  offer_verdict r db = Err e -> claim_pairing_offer_inner fresh random r db = (Err e, db).
Proof.
  unfold offer_verdict, claim_pairing_offer_inner. unfold db_bind at 1, db_lift at 1.
  destruct (claim_shape r) as [[]|?]; [|by intros [= ->]]. cbn [result_bind]. unfold db_bind at 1, db_read at 1.
  unfold db_transaction. unfold db_bind at 1, offer_get, db_read at 1. unfold db_bind at 1, db_lift at 1.
  destruct (ok_or _ _) as [record|?]; [|by intros [= ->]]. cbn [result_bind]. unfold db_bind at 1, db_lift at 1.
  destruct (offer_claimable _ _ _) as [[]|?]; [done|by intros [= ->]].
Qed.
Lemma offer_inner_accepted fresh random r db level :
  tr_audits db !! id_new RequestId (fresh 1) = None -> offer_verdict r db = Ok level ->
  is_ok (claim_pairing_offer_inner fresh random r db).1 = true.
Proof.
  intros Hn. unfold offer_verdict, claim_pairing_offer_inner. unfold db_bind at 1, db_lift at 1.
  destruct (claim_shape r) as [[]|?]; [|done]. cbn [result_bind]. unfold db_bind at 1, db_read at 1.
  unfold db_transaction. unfold db_bind at 1, offer_get, db_read at 1. unfold db_bind at 1, db_lift at 1.
  destruct (tr_pairings db !! ko_offer_id r) as [row|] eqn:Er; [|done].
  unfold mbind, option_bind. destruct (pa_offer row) as [o|] eqn:Eo; [|done]. cbn [result_bind ok_or].
  unfold db_bind at 1, db_lift at 1.
  destruct (offer_claimable _ _ _) as [[]|?] eqn:Ec; [|done]. intros _. apply offer_claimable_open in Ec.
  unfold db_bind at 1, paired_device, db_bind at 1, find_by_public_key, db_read, db_ret.
  set (device := {| rd_device_id := _ |}). unfold db_bind at 1, device_upsert, db_write. set (stored := mkDeviceRecord _ _).
  unfold db_bind at 1, offer_claim. cbn [tr_pairings put_device]. rewrite Er, Eo, Ec.
  unfold db_bind at 1, db_lift. cbn [negb].
  match goal with |- context [db_bind (insert_audit ?a ?d ?b ?t ?i ?o ?s ?q ?c) _ ?db'] =>
    destruct (insert_audit_ok a d b t i o s q c db') as (audit & _ & _ & Ha) end; [done| |unfold db_bind; by rewrite Ha].
  intros i [= <-]. cbn [put_pairing put_device tr_devices stored device_id_of dr_detail]. exists stored.
  by rewrite lookup_insert_eq.
Qed.

(** The terms of a claim in the order they are checked, each with the code of its
    refusal. The offer is a row of the pairing table with the columns of an offer. *)
Inductive first_broken : list (Prop * string) -> string -> Prop :=
| broken_here (P : Prop) code l : ~ P -> first_broken ((P, code) :: l) code
| broken_later (P : Prop) code l code' : P -> first_broken l code' -> first_broken ((P, code) :: l) code'.
Definition offered (r : RemoteClaimPairingOfferRequest) (db : TrustDb) (row : PairingRow) (o : OfferColumns) : Prop :=
  tr_pairings db !! ko_offer_id r = Some row /\ pa_offer row = Some o.
Definition request_terms (r : RemoteClaimPairingOfferRequest) : list (Prop * string) :=
  [(1 <= length (trim (ko_display_name r)) <= 128, "remote_device_display_name_invalid");
   (exists key, base64url_decode (ko_device_identity_public_key r) = Some key /\ length key = 32,
    "remote_device_identity_key_invalid");
   (16 <= utf8_len (ko_claim_nonce r) <= 256 /\ Forall (fun c => is_whitespace c = false) (ko_claim_nonce r),
    "remote_pairing_claim_nonce_invalid");
   (24 <= utf8_len (ko_one_time_challenge r) <= 256, "remote_pairing_offer_challenge_invalid")].
Definition offer_terms (r : RemoteClaimPairingOfferRequest) (db : TrustDb) : list (Prop * string) :=
  [(exists row o, offered r db row o, "remote_pairing_offer_unknown");
   (forall row o, offered r db row o -> oc_server_id o = ko_expected_server_id r /\
      oc_server_identity_public_key o = ko_expected_server_identity_public_key r,
    "remote_pairing_server_identity_mismatch");
   (forall row o, offered r db row o -> pa_claimed_at_ms row = None, "remote_pairing_offer_already_claimed");
   (forall row o, offered r db row o -> oc_canceled_at_ms o = None, "remote_pairing_offer_canceled");
   (forall row o, offered r db row o -> (tr_clock db < pa_expires_at_ms row)%Z, "remote_pairing_offer_expired");
   (forall row o, offered r db row o -> pa_code_hash row = hash_secret (ko_one_time_challenge r),
    "remote_pairing_offer_challenge_invalid")].

Lemma offered_inj r db row o row' o' : offered r db row o -> offered r db row' o' -> row' = row /\ o' = o.
Proof. unfold offered. intros [H1 H2] [H3 H4]. split; congruence. Qed.

Lemma request_terms_checked r :
  match claim_shape r with
  | Ok _ => Forall fst (request_terms r)
  | Err e => exists code, err_code e = lit code /\ forall l, first_broken (request_terms r ++ l) code
  end.
Proof.
  unfold claim_shape, validate_public_key, validate_claim_nonce, request_terms. cbv zeta.
  destruct (is_empty (trim (ko_display_name r)) || _) eqn:E1.
  { eexists. split; [done|]. intros l. apply broken_here. intros [H1 H2].
    apply orb_true_iff in E1 as [E1|E1%Nat.ltb_lt]; [|lia]. by destruct (trim (ko_display_name r)); [simpl in H1; lia|]. }
  apply orb_false_iff in E1 as [E1 E2%Nat.ltb_ge].
  assert (H1 : 1 <= length (trim (ko_display_name r)) <= 128) by (destruct (trim (ko_display_name r)); simpl in *; [done|lia]).
  destruct (base64url_decode _) as [key|] eqn:Ek; cbn [ok_or result_bind].
  2:{ eexists. split; [done|]. intros l. apply broken_later; [done|]. apply broken_here. by intros (? & ? & _). }
  destruct (Nat.eqb_spec (length key) 32) as [El|El]; cbn [negb].
  2:{ eexists. split; [done|]. intros l. apply broken_later; [done|]. apply broken_here. intros (key' & ? & ?). congruence. }
  destruct (_ || _ || _) eqn:E3.
  { eexists. split; [done|]. intros l. apply broken_later; [done|]. apply broken_later; [by exists key|]. apply broken_here.
    intros [H2 H3]. rewrite !orb_true_iff, !Nat.ltb_lt in E3. destruct E3 as [E3|(c & Hc & Hw)%existsb_elem]; [lia|].
    rewrite Forall_forall in H3. by rewrite H3 in Hw. }
  rewrite !orb_false_iff, !Nat.ltb_ge in E3. destruct E3 as [E3 Ew].
  assert (H3 : 16 <= utf8_len (ko_claim_nonce r) <= 256 /\ Forall (fun c => is_whitespace c = false) (ko_claim_nonce r)).
  { split; [lia|]. apply Forall_forall. intros c Hc. apply not_true_iff_false. intros Hw.
    apply not_true_iff_false in Ew. apply Ew, existsb_elem. by exists c. }
  destruct (_ || _) eqn:E4.
  - eexists. split; [done|]. intros l. apply broken_later; [done|]. apply broken_later; [by exists key|].
    apply broken_later; [done|]. apply broken_here. rewrite orb_true_iff, !Nat.ltb_lt in E4. lia.
  - rewrite orb_false_iff, !Nat.ltb_ge in E4. cbn [result_bind].
    constructor; [done|]. constructor; [by exists key|]. constructor; [done|]. constructor; [done|constructor].
Qed.

Lemma offer_terms_checked r db row o :
  offered r db row o ->
  match offer_claimable r (map_offer row o) (tr_clock db) with
  | Ok _ => Forall fst (offer_terms r db)
  | Err e => exists code, err_code e = lit code /\ first_broken (offer_terms r db) code
  end.
Proof.
  intros Ho. unfold offer_claimable, offer_terms.
  cbn [map_offer or_summary or_claimed_at_ms or_canceled_at_ms or_challenge_hash os_expires_at_ms os_server_id
    os_server_identity_public_key].
  assert (Hall : forall P : PairingRow -> OfferColumns -> Prop,
    P row o -> forall row' o', offered r db row' o' -> P row' o').
  { intros P HP row' o' Ho'. by destruct (offered_inj _ _ _ _ _ _ Ho Ho') as [-> ->]. }
  assert (H1 : exists row o, offered r db row o) by by exists row, o.
  destruct (_ || _) eqn:E1.
  { eexists. split; [done|]. apply broken_later; [done|]. apply broken_here. intros Hq. destruct (Hq _ _ Ho) as [H2 H3].
    rewrite !bool_decide_eq_true_2 in E1 by done. done. }
  apply orb_false_iff in E1 as [E1%negb_false_iff%bool_decide_eq_true E2%negb_false_iff%bool_decide_eq_true].
  destruct (bool_decide_reflect (is_Some (pa_claimed_at_ms row))) as [Hc|Hc%eq_None_not_Some].
  { eexists. split; [done|]. apply broken_later; [done|]. apply broken_later; [by apply Hall|]. apply broken_here.
    intros Hq. rewrite (Hq _ _ Ho) in Hc. by destruct Hc. }
  destruct (bool_decide_reflect (is_Some (oc_canceled_at_ms o))) as [Hx|Hx%eq_None_not_Some].
  { eexists. split; [done|]. apply broken_later; [done|]. do 2 (apply broken_later; [by apply Hall|]). apply broken_here.
    intros Hq. rewrite (Hq _ _ Ho) in Hx. by destruct Hx. }
  destruct (Z.leb_spec (pa_expires_at_ms row) (tr_clock db)) as [Ht|Ht].
  { eexists. split; [done|]. apply broken_later; [done|]. do 3 (apply broken_later; [by apply Hall|]). apply broken_here.
    intros Hq. specialize (Hq _ _ Ho). lia. }
  destruct (bool_decide_reflect (hash_secret (ko_one_time_challenge r) = pa_code_hash row)) as [He|He].
  - constructor; [done|]. do 5 (constructor; [cbn [fst]; by apply Hall|]). constructor.
  - eexists. split; [done|]. apply broken_later; [done|]. do 4 (apply broken_later; [by apply Hall|]). apply broken_here.
    intros Hq. specialize (Hq _ _ Ho). congruence.
Qed.

Lemma first_broken_app l l' code : Forall fst l -> first_broken l' code -> first_broken (l ++ l') code.
Proof. induction 1 as [|[P c] l HP _ IH]; [done|]. intros Hb. apply broken_later; [done|by apply IH]. Qed.

(** What is decided is decided by the terms. *)
Lemma verdict_terms r db :
  match offer_verdict r db with
  | Ok level => Forall fst (request_terms r ++ offer_terms r db) /\
      exists row o, offered r db row o /\ level = pa_permission_level row
  | Err e => exists code, err_code e = lit code /\ first_broken (request_terms r ++ offer_terms r db) code
  end.
Proof.
  unfold offer_verdict. pose proof (request_terms_checked r) as Hr.
  destruct (claim_shape r) as [[]|e]; cbn [result_bind]; [|destruct Hr as (code & Hc & Hb); by exists code].
  destruct (tr_pairings db !! ko_offer_id r) as [row|] eqn:Er; cbn [mbind option_bind ok_or result_bind].
  2:{ eexists. split; [done|]. apply first_broken_app; [done|]. apply broken_here. intros (row & o & [Hrow _]). congruence. }
  destruct (pa_offer row) as [o|] eqn:Eo; cbn -[offer_claimable map_offer request_terms offer_terms lit OFFER_UNKNOWN].
  2:{ eexists. split; [done|]. apply first_broken_app; [done|]. apply broken_here. intros (row' & o & [Hrow Ho]). congruence. }
  assert (Ho : offered r db row o) by done. pose proof (offer_terms_checked r db row o Ho) as Ht.
  destruct (offer_claimable _ _ _) as [[]|e]; cbn [result_bind].
  - split; [by apply Forall_app|]. by exists row, o.
  - destruct Ht as (code & Hc & Hb). exists code. split; [done|]. by apply first_broken_app.
Qed.

(** C22. A claim of an offer is decided by its terms alone: a display name, an identity
    key, a nonce and a challenge of the right shape, and an offer of this desktop
    that is neither claimed, canceled nor expired and whose challenge is shown. A
    claim that succeeds keeps them all, and the device gets the permissions of the
    offer and the token that was generated; a refused one breaks a term, is
    answered with the code of the first it breaks, and changes no device and no
    pairing. *)
Theorem offer_is_claimed_by_its_terms (fresh : nat -> str) (random : list N)
    (r : RemoteClaimPairingOfferRequest) (db : TrustDb) :
  trust_wf db -> tr_audits db !! id_new RequestId (fresh 1) = None ->
  let '(result, db') := claim_pairing_offer fresh random r db in
  match result with
  | Ok response =>
      Forall fst (request_terms r ++ offer_terms r db) /\
      (exists row o, offered r db row o /\ rd_permission_level (kr_device response) = pa_permission_level row) /\
      kr_device_grant_token response = secure_secret "grant" random /\
      admits (grants db') (mkAuthProof (rd_device_id (kr_device response)) (secure_secret "grant" random)) = true
  | Err e =>
      (exists code, err_code e = lit code /\ first_broken (request_terms r ++ offer_terms r db) code) /\
      tr_devices db' = tr_devices db /\ tr_pairings db' = tr_pairings db
  end.
Proof.
  intros Hw Hn. destruct (claim_pairing_offer fresh random r db) as [[response|e] db'] eqn:E.
  - destruct (claim_offer_paired _ _ _ _ _ _ E) as (Hp & Hs & record & Hg & Hshape & Hc & Hl & _ & Ht).
    injection Hg as Hg. pose proof (verdict_terms r db) as Hv. unfold offer_verdict in Hv.
    rewrite Hshape, Hg in Hv. cbn [result_bind ok_or] in Hv. rewrite Hc in Hv. cbn [result_bind] in Hv.
    destruct Hv as [Hall (row & o & Ho & Hlevel)]. split; [done|]. split; [exists row, o; split; [done|congruence]|].
    split; [done|]. rewrite (paired_grants _ _ _ _ _ Hp). unfold admits.
    rewrite lookup_insert_eq. apply bool_decide_eq_true. unfold in_service. by rewrite Ht, Hs.
  - pose proof (claim_offer_refused _ _ _ _ _ _ E) as Hsame. unfold claim_pairing_offer in E.
    pose proof (verdict_terms r db) as Hv. destruct (offer_verdict r db) as [level|e'] eqn:Ev.
    + pose proof (offer_inner_accepted fresh random r db level Hn Ev) as Ho.
      by destruct (claim_pairing_offer_inner _ _ _ db) as [[?|?] ?].
    + rewrite (offer_inner_refused _ _ _ _ _ Ev) in E. injection E as <- _. by split.
Qed.
End history.
