(* ===== verification/LanPairing.v ===== *)
(** Pairing over the local network: the window the desktop opens, the requests
    devices leave in it, and the operator's decision
    (remote/src/lan_pairing.rs). *)
From stdpp Require Import prelude strings list gmap.
From Stdlib Require Import NArith ZArith Lia.
From S2P Require Import Prelude CoreTypes Storage Trust.

(** ** Records of core/src/remote_v2.rs *)

Inductive RemoteLanPairingRequestState : Type :=
| LanPending | LanApproved | LanRejected | LanExpired | LanClaimed | LanUnknown.
#[export] Instance RemoteLanPairingRequestState_eq_dec : EqDecision RemoteLanPairingRequestState.
Proof. solve_decision. Defined.
Record RemoteLanPairingDiscoverySummary : Type := mkDiscovery {
  ld_schema_version : str;
  ld_window_id : ident;
  ld_server_id : str;
  ld_server_identity_public_key : str;
  ld_protocol_range : RemoteProtocolVersionRange;
  ld_permission_level : RemoteDevicePermissionLevel;
  ld_expires_at_ms : Z
}.
Record RemoteLanPairingRequest : Type := mkLanRequest {
  lq_window_id : ident;
  lq_device_identity_public_key : str;
  lq_display_name : str;
  lq_client_nonce : str;
  lq_request_secret : str;
  lq_idempotency_key : str
}.
Record RemoteLanPairingRequestAccepted : Type := mkLanAccepted {
  la_request_id : ident;
  la_verification_code : str;
  la_expires_at_ms : Z
}.
Record RemoteLanPairingStatusRequest : Type := mkLanStatus {
  ls_request_id : ident;
  ls_request_secret : str
}.
Record RemoteLanPairingStatusResponse : Type := mkLanStatusResponse {
  lr_state : RemoteLanPairingRequestState;
  lr_offer : option RemotePairingOffer
}.
Record RemoteLanPairingPendingRequestSummary : Type := mkLanSummary {
  lp_request_id : ident;
  lp_display_name : str;
  lp_device_fingerprint : str;
  lp_verification_code : str;
  lp_state : RemoteLanPairingRequestState;
  lp_expires_at_ms : Z
}.
Record RemoteLanPairingAdvertisement : Type := mkAdvertisement {
  lv_advertisement_id : str;
  lv_service_instance : str;
  lv_display_name : str;
  lv_direct_origin : str;
  lv_protocol_min : Z;
  lv_protocol_max : Z
}.
Record RemoteLanPairingWindowSnapshot : Type := mkLanSnapshot {
  sn_discovery : RemoteLanPairingDiscoverySummary;
  sn_advertisement : RemoteLanPairingAdvertisement;
  sn_pending_requests : list RemoteLanPairingPendingRequestSummary
}.
Definition REMOTE_LAN_PAIRING_SCHEMA_VERSION : str := lit "vibex-lan-pairing-discovery.v1".

(** ** The window (lan_pairing.rs) *)

Definition LAN_PAIRING_MAX_PENDING_REQUESTS : nat := 8.
Definition LAN_PAIRING_MIN_POLL_INTERVAL_MS : Z := 500.

Record PendingRequest : Type := mkPending {
  pr_request_id : ident;
  pr_device_identity_public_key : str;
  pr_display_name : str;
  pr_client_nonce : str;
  pr_idempotency_key : str;
  pr_request_secret_hash : list N;
  pr_verification_code : str;
  pr_state : RemoteLanPairingRequestState;
  pr_last_poll_at_ms : option Z
}.
Record LanPairingWindow : Type := mkLanWindow {
  lw_discovery : RemoteLanPairingDiscoverySummary;
  lw_advertisement : RemoteLanPairingAdvertisement;
  lw_offer : RemotePairingOffer;
  lw_pending : gmap ident PendingRequest
}.
(** The coordinator's key never changes; its window does. *)
Record LanPairingCoordinator : Type := mkCoordinator {
  lc_secret_hash_key : list N;
  lc_window : option LanPairingWindow
}.
Definition lan_call (A : Type) : Type := db_call LanPairingCoordinator A.
Definition set_window (window : option LanPairingWindow) (c : LanPairingCoordinator) : LanPairingCoordinator :=
  mkCoordinator (lc_secret_hash_key c) window.
Definition set_pending (pending : gmap ident PendingRequest) (w : LanPairingWindow) : LanPairingWindow :=
  mkLanWindow (lw_discovery w) (lw_advertisement w) (lw_offer w) pending.
Definition with_state (state : RemoteLanPairingRequestState) (p : PendingRequest) : PendingRequest :=
  mkPending (pr_request_id p) (pr_device_identity_public_key p) (pr_display_name p) (pr_client_nonce p)
    (pr_idempotency_key p) (pr_request_secret_hash p) (pr_verification_code p) state (pr_last_poll_at_ms p).
Definition polled (now_ms : Z) (p : PendingRequest) : PendingRequest :=
  mkPending (pr_request_id p) (pr_device_identity_public_key p) (pr_display_name p) (pr_client_nonce p)
    (pr_idempotency_key p) (pr_request_secret_hash p) (pr_verification_code p) (pr_state p) (Some now_ms).

(** HMAC-SHA-256 and what the url crate shows of a parsed URL beyond [Url]. *)
Class LanPlatform : Type := {
  hmac_sha256 : list N -> list N -> list N;
  url_path : Url -> str;
  url_origin : Url -> str
}.

Section lan.
Context `{Platform} `{LanPlatform}.

(** ** Codes and fingerprints (core/src/remote_v2.rs) *)

(** [(n as u64).to_be_bytes()]. *)
Definition u64_be_bytes (n : N) : list N := (fun i => (n / 256 ^ i mod 256)%N) <$> [7; 6; 5; 4; 3; 2; 1; 0]%N.
Definition length_prefixed (field : str) : list N :=
  let bytes := as_bytes field in u64_be_bytes (N.of_nat (length bytes)) ++ bytes.
Definition verification_transcript (fields : list str) : list N := fields ≫= length_prefixed.
Definition six_digits (value : N) : str :=
  (fun i => (48 + value / 10 ^ i mod 10)%N) <$> [5; 4; 3; 2; 1; 0]%N.
Definition remote_lan_pairing_verification_code (window_id request_id : ident)
    (server_id server_identity_public_key device_identity_public_key client_nonce : str) : str :=
  let digest := sha256 (verification_transcript
    [REMOTE_LAN_PAIRING_SCHEMA_VERSION; window_id; request_id; server_id; server_identity_public_key;
     device_identity_public_key; client_nonce]) in
  six_digits (u64_from_be_bytes (take 4 digest) mod 1000000)%N.
Definition upper_hex_byte (b : N) : str :=
  (fun c => if is_ascii_lower c then (c - 32)%N else c) <$> hex_byte b.
Definition remote_lan_pairing_device_fingerprint (device_identity_public_key : str) : str :=
  let digest := sha256 (as_bytes device_identity_public_key) in
  (take 2 digest ≫= upper_hex_byte) ++ lit "-" ++ (take 2 (drop 2 digest) ≫= upper_hex_byte).

(** ** What a request must look like *)

Definition is_ascii (c : N) : bool := (c <? 128)%N.
Definition validate_bounded_token (value : str) (min max : nat) (code message : string) : VibexResult unit :=
  reject (utf8_len value <? min)%nat || (max <? utf8_len value)%nat || existsb is_whitespace value
         || negb (forallb is_ascii value) with (invalid code message) ;;
  Ok tt.
Definition SECRET_INVALID : VibexError :=
  remote_error "remote_lan_pairing_request_unauthorized" "LAN pairing request secret is invalid".
Definition validate_request_secret (secret : str) : VibexResult unit :=
  try validate_bounded_token secret 22 256 "remote_lan_pairing_request_unauthorized"
        "LAN pairing request secret is invalid" ;;
  let encoded := match split_once 45 secret with Some (_, encoded) => encoded | None => secret end in
  reject negb match base64url_decode encoded with Some bytes => (16 <=? length bytes)%nat | None => false end with
    SECRET_INVALID ;;
  Ok tt.
Definition validate_request (r : RemoteLanPairingRequest) : VibexResult unit :=
  try validate_public_key (lq_device_identity_public_key r) ;;
  let display_name := trim (lq_display_name r) in
  reject is_empty display_name || (128 <? length display_name)%nat with
    (invalid "remote_device_display_name_invalid" "LAN pairing device display name must be non-empty and bounded") ;;
  try validate_bounded_token (lq_client_nonce r) 16 256 "remote_lan_pairing_verification_invalid"
        "LAN pairing client nonce is invalid" ;;
  try validate_request_secret (lq_request_secret r) ;;
  validate_bounded_token (lq_idempotency_key r) 8 128 "remote_lan_pairing_request_invalid"
    "LAN pairing idempotency key is invalid".

Definition LAN_ORIGIN_INVALID (message : string) : VibexError := invalid "remote_lan_discovery_invalid" message.
Definition normalize_https_origin (value : str) : VibexResult str :=
  let? url := ok_or (parse_url (trim value)) (LAN_ORIGIN_INVALID "LAN pairing origin is invalid") in
  reject negb (bool_decide (url_scheme url = lit "https")) || bool_decide (url_host_str url = None)
         || negb (is_empty (url_username url)) || bool_decide (is_Some (url_password url))
         || bool_decide (is_Some (url_query url)) || bool_decide (is_Some (url_fragment url))
         || negb (is_empty (url_path url) || bool_decide (url_path url = lit "/")) with
    (LAN_ORIGIN_INVALID "LAN pairing requires an exact HTTPS origin") ;;
  Ok (url_origin url).
Definition bounded_display_name (value : str) : VibexResult str :=
  let value := trim value in
  reject is_empty value || (63 <? length value)%nat || (192 <? utf8_len value)%nat with
    (invalid "remote_lan_display_name_invalid" "LAN pairing desktop display name must be non-empty and bounded") ;;
  Ok value.

(** [str::get(..n)]. *)
Fixpoint get_to (n : nat) (s : str) : option str :=
  match n, s with
  | 0, _ => Some []
  | _, [] => None
  | _, c :: s => if (utf8_width c <=? n)%nat then (cons c) <$> get_to (n - utf8_width c) s else None
  end.
(** [while prefix.len() > max { prefix.pop(); }], from the end. *)
Fixpoint popped (max : nat) (reversed : str) : str :=
  match reversed with
  | [] => []
  | _ :: rest => if (max <? utf8_len reversed)%nat then popped max rest else reversed
  end.
Definition service_instance_name (display_name advertisement_id : str) : str :=
  let suffix := match rsplit_once 45 advertisement_id with Some (_, suffix) => suffix | None => advertisement_id end in
  let suffix := default suffix (get_to 8 suffix) in
  let max_prefix_bytes := 63 - (utf8_len suffix + 1) in
  let prefix := reverse (popped max_prefix_bytes (reverse display_name)) in
  trim_end_matches is_whitespace prefix ++ lit "-" ++ suffix.

(** ** The coordinator's operations *)

Definition window_unavailable : VibexError :=
  remote_error "remote_lan_pairing_window_unavailable" "LAN pairing window is unavailable".
Definition offer_spent (offer : RemotePairingOffer) : bool :=
  os_canceled (of_summary offer) || bool_decide (is_Some (os_claimed_device_id (of_summary offer))).
(** A window that is over is forgotten. *)
Definition active_window (now_ms : Z) : lan_call LanPairingWindow := fun c =>
  match lc_window c with
  | Some w =>
      if (ld_expires_at_ms (lw_discovery w) <=? now_ms)%Z || offer_spent (lw_offer w)
      then (Err window_unavailable, set_window None c)
      else (Ok w, c)
  | None => (Err window_unavailable, set_window None c)
  end.
Definition hash_secret_with (key : list N) (secret : str) : list N := hmac_sha256 key (as_bytes secret).
Definition verify_secret_hash (key : list N) (secret : str) (expected : list N) : bool :=
  bool_decide (hash_secret_with key secret = expected).

Definition accepted (p : PendingRequest) (expires_at_ms : Z) : RemoteLanPairingRequestAccepted :=
  mkLanAccepted (pr_request_id p) (pr_verification_code p) expires_at_ms.
Definition pending_list (w : LanPairingWindow) : list PendingRequest := (map_to_list (lw_pending w)).*2.
(** Sorted by request id. *)
Definition snapshot_of (w : LanPairingWindow) (now_ms : Z) : RemoteLanPairingWindowSnapshot :=
  let expired := (ld_expires_at_ms (lw_discovery w) <=? now_ms)%Z in
  let summaries := (fun p =>
    mkLanSummary (pr_request_id p) (pr_display_name p)
      (remote_lan_pairing_device_fingerprint (pr_device_identity_public_key p))
      (pr_verification_code p) (if expired then LanExpired else pr_state p)
      (ld_expires_at_ms (lw_discovery w))) <$> pending_list w in
  mkLanSnapshot (lw_discovery w) (lw_advertisement w)
    (sort_by_key (fun s => Z.of_N <$> lp_request_id s) summaries).

(** What opening a window, over HTTPS or over the loopback listener, puts in it. *)
Definition open_window (offer : RemotePairingOffer) (prefix : string) (window_uuid : str) (random : list N)
    (display_name direct_origin : str) : LanPairingWindow :=
  let s := of_summary offer in
  let advertisement_id := secure_secret prefix random in
  {| lw_discovery :=
       {| ld_schema_version := REMOTE_LAN_PAIRING_SCHEMA_VERSION; ld_window_id := id_new RequestId window_uuid;
          ld_server_id := os_server_id s; ld_server_identity_public_key := os_server_identity_public_key s;
          ld_protocol_range := os_protocol_range s; ld_permission_level := os_permission_level s;
          ld_expires_at_ms := os_expires_at_ms s |};
     lw_advertisement :=
       {| lv_advertisement_id := advertisement_id;
          lv_service_instance := service_instance_name display_name advertisement_id;
          lv_display_name := display_name; lv_direct_origin := direct_origin;
          lv_protocol_min := pv_major (vr_min (os_protocol_range s));
          lv_protocol_max := pv_major (vr_max (os_protocol_range s)) |};
     lw_offer := offer; lw_pending := ∅ |}.
Definition window_busy (now_ms : Z) (c : LanPairingCoordinator) : bool :=
  match lc_window c with
  | Some w => (now_ms <? ld_expires_at_ms (lw_discovery w))%Z && negb (offer_spent (lw_offer w))
  | None => false
  end.
Definition offer_over (offer : RemotePairingOffer) (now_ms : Z) : bool :=
  (os_expires_at_ms (of_summary offer) <=? now_ms)%Z || offer_spent offer.

Definition start_zero_config (window_uuid : str) (random : list N) (offer : RemotePairingOffer) (local_port : Z)
    (display_name : str) (now_ms : Z) : lan_call RemoteLanPairingWindowSnapshot :=
  let! _ := db_lift
    (reject (local_port =? 0)%Z with
       (invalid "remote_zero_config_pairing_listener_invalid" "zero-config LAN pairing listener port is invalid") ;;
     reject offer_over offer now_ms with
       (remote_error "remote_zero_config_pairing_unavailable"
          "zero-config LAN pairing window is already unavailable") ;;
     Ok tt) in
  let! display_name := db_lift (bounded_display_name display_name) in
  let! busy := db_read (window_busy now_ms) in
  if (busy : bool) then
    db_fail (VibexError_conflict (lit "remote_zero_config_pairing_active")
               (lit "another zero-config LAN pairing window is already active"))
  else
  let next := open_window offer "local-adv" window_uuid random display_name
                (lit "http://127.0.0.1:" ++ decimal local_port) in
  let! _ := db_write (set_window (Some next)) in
  db_ret (snapshot_of next now_ms).
Definition offers_origin (offer : RemotePairingOffer) (direct_origin : str) : bool :=
  existsb (fun candidate => bool_decide (cd_transport candidate = Direct)
             && match normalize_https_origin (cd_url candidate) with
                | Ok origin => bool_decide (origin = direct_origin)
                | Err _ => false
                end) (os_direct_candidates (of_summary offer)).
Definition start (window_uuid : str) (random : list N) (offer : RemotePairingOffer) (direct_origin : str)
    (display_name : str) (now_ms : Z) : lan_call RemoteLanPairingWindowSnapshot :=
  let! direct_origin := db_lift (normalize_https_origin direct_origin) in
  let! _ := db_lift
    (reject negb (offers_origin offer direct_origin) with
       (remote_error "remote_pairing_entry_route_mismatch"
          "LAN discovery origin is not an offered Direct pairing route") ;;
     reject offer_over offer now_ms with
       (remote_error "remote_lan_pairing_window_unavailable" "LAN pairing window is already unavailable") ;;
     Ok tt) in
  let! display_name := db_lift (bounded_display_name display_name) in
  let! busy := db_read (window_busy now_ms) in
  if (busy : bool) then
    db_fail (VibexError_conflict (lit "remote_lan_pairing_window_active")
               (lit "another LAN pairing window is already active"))
  else
  let next := open_window offer "adv" window_uuid random display_name direct_origin in
  let! _ := db_write (set_window (Some next)) in
  db_ret (snapshot_of next now_ms).

Definition discovery (now_ms : Z) : lan_call RemoteLanPairingDiscoverySummary :=
  let! w := active_window now_ms in db_ret (lw_discovery w).
Definition snapshot (now_ms : Z) : lan_call RemoteLanPairingWindowSnapshot :=
  let! w := active_window now_ms in db_ret (snapshot_of w now_ms).

Definition LAN_CONFLICT (message : string) : VibexError :=
  VibexError_conflict (lit "remote_lan_pairing_request_conflict") (lit message).
Definition pending_of (w : LanPairingWindow) (request_uuid : str) (secret_hash : list N)
    (r : RemoteLanPairingRequest) : PendingRequest :=
  let request_id := id_new RequestId request_uuid in
  {| pr_request_id := request_id; pr_device_identity_public_key := lq_device_identity_public_key r;
     pr_display_name := trim (lq_display_name r); pr_client_nonce := lq_client_nonce r;
     pr_idempotency_key := lq_idempotency_key r; pr_request_secret_hash := secret_hash;
     pr_verification_code :=
       remote_lan_pairing_verification_code (ld_window_id (lw_discovery w)) request_id
         (ld_server_id (lw_discovery w)) (ld_server_identity_public_key (lw_discovery w))
         (lq_device_identity_public_key r) (lq_client_nonce r);
     pr_state := LanPending; pr_last_poll_at_ms := None |}.
Definition submit (request_uuid : str) (r : RemoteLanPairingRequest) (now_ms : Z)
  : lan_call RemoteLanPairingRequestAccepted :=
  let! _ := db_lift (validate_request r) in
  let! key := db_read lc_secret_hash_key in
  let request_secret_hash := hash_secret_with key (lq_request_secret r) in
  let! w := active_window now_ms in
  if negb (bool_decide (ld_window_id (lw_discovery w) = lq_window_id r)) then db_fail window_unavailable else
  match List.find (fun p => bool_decide (pr_idempotency_key p = lq_idempotency_key r)) (pending_list w) with
  | Some existing =>
      if bool_decide (pr_device_identity_public_key existing = lq_device_identity_public_key r)
         && bool_decide (pr_display_name existing = trim (lq_display_name r))
         && bool_decide (pr_client_nonce existing = lq_client_nonce r)
         && verify_secret_hash key (lq_request_secret r) (pr_request_secret_hash existing)
      then db_ret (accepted existing (ld_expires_at_ms (lw_discovery w)))
      else db_fail (LAN_CONFLICT "LAN pairing idempotency key is already bound to another request")
  | None =>
      if existsb (fun p => bool_decide (pr_device_identity_public_key p = lq_device_identity_public_key r)
                           && bool_decide (pr_client_nonce p = lq_client_nonce r)) (pending_list w)
      then db_fail (LAN_CONFLICT "LAN pairing device identity and nonce are already pending")
      else if (LAN_PAIRING_MAX_PENDING_REQUESTS <=? size (lw_pending w))%nat
      then db_fail (VibexError_conflict (lit "remote_lan_pairing_request_limit")
                      (lit "LAN pairing window reached its pending request limit"))
      else
      let pending := pending_of w request_uuid request_secret_hash r in
      let! _ := db_write (set_window (Some (set_pending (<[pr_request_id pending := pending]> (lw_pending w)) w))) in
      db_ret (accepted pending (ld_expires_at_ms (lw_discovery w)))
  end.

Definition LAN_UNAUTHORIZED : VibexError :=
  remote_error "remote_lan_pairing_request_unauthorized" "LAN pairing request credentials are invalid".
Definition status (r : RemoteLanPairingStatusRequest) (now_ms : Z) : lan_call RemoteLanPairingStatusResponse :=
  let! _ := db_lift (validate_request_secret (ls_request_secret r)) in
  let! key := db_read lc_secret_hash_key in
  let! stored := db_read lc_window in
  let! w := db_lift (ok_or stored window_unavailable) in
  let! pending := db_lift (ok_or (lw_pending w !! ls_request_id r) LAN_UNAUTHORIZED) in
  if negb (verify_secret_hash key (ls_request_secret r) (pr_request_secret_hash pending)) then
    db_fail LAN_UNAUTHORIZED
  else if match pr_last_poll_at_ms pending with
          | Some last => (i64_saturating_sub now_ms last <? LAN_PAIRING_MIN_POLL_INTERVAL_MS)%Z
          | None => false
          end
  then db_fail (VibexError_conflict (lit "remote_lan_pairing_poll_rate_limited")
                  (lit "LAN pairing status was polled too quickly"))
  else
  let! _ := db_write (set_window (Some (set_pending (<[ls_request_id r := polled now_ms pending]> (lw_pending w)) w))) in
  if (ld_expires_at_ms (lw_discovery w) <=? now_ms)%Z then
    let! _ := db_write (set_window None) in
    db_ret (mkLanStatusResponse LanExpired None)
  else
  let state := pr_state pending in
  db_ret (mkLanStatusResponse state
            (if bool_decide (state = LanApproved) then Some (lw_offer w) else None)).

Definition LAN_REQUEST_UNKNOWN : VibexError :=
  remote_error "remote_lan_pairing_request_unknown" "LAN pairing request is unknown".
Definition LAN_NOT_PENDING : VibexError :=
  VibexError_conflict (lit "remote_lan_pairing_request_unavailable") (lit "LAN pairing request is no longer pending").
(** Approving one request rejects the others that wait. *)
Definition decided (request_id : ident) (p : PendingRequest) : PendingRequest :=
  if bool_decide (pr_request_id p = request_id) then with_state LanApproved p
  else if bool_decide (pr_state p = LanPending) then with_state LanRejected p else p.
Definition approve (request_id : ident) (now_ms : Z) : lan_call RemoteLanPairingWindowSnapshot :=
  let! w := active_window now_ms in
  if existsb (fun p => bool_decide (pr_state p = LanApproved)) (pending_list w) then
    db_fail (VibexError_conflict (lit "remote_lan_pairing_request_already_approved")
               (lit "LAN pairing window already approved another request"))
  else
  let! target := db_lift (ok_or (lw_pending w !! request_id) LAN_REQUEST_UNKNOWN) in
  if negb (bool_decide (pr_state target = LanPending)) then db_fail LAN_NOT_PENDING else
  let w := set_pending (decided request_id <$> lw_pending w) w in
  let! _ := db_write (set_window (Some w)) in
  db_ret (snapshot_of w now_ms).
Definition reject_request (request_id : ident) (now_ms : Z) : lan_call RemoteLanPairingWindowSnapshot :=
  let! w := active_window now_ms in
  let! target := db_lift (ok_or (lw_pending w !! request_id) LAN_REQUEST_UNKNOWN) in
  if negb (bool_decide (pr_state target = LanPending)) then db_fail LAN_NOT_PENDING else
  let w := set_pending (<[request_id := with_state LanRejected target]> (lw_pending w)) w in
  let! _ := db_write (set_window (Some w)) in
  db_ret (snapshot_of w now_ms).

Definition active_offer_id (c : LanPairingCoordinator) : option ident :=
  (fun w => os_offer_id (of_summary (lw_offer w))) <$> lc_window c.
Definition active_direct_origin (now_ms : Z) (c : LanPairingCoordinator) : option str :=
  w ← lc_window c;
  if (now_ms <? ld_expires_at_ms (lw_discovery w))%Z then Some (lv_direct_origin (lw_advertisement w)) else None.
Definition clear_offer (offer_id : ident) : lan_call bool := fun c =>
  if match lc_window c with
     | Some w => bool_decide (os_offer_id (of_summary (lw_offer w)) = offer_id)
     | None => false
     end
  then (Ok true, set_window None c) else (Ok false, c).

(** ** Histories of a coordinator *)

Inductive lan_op : Type :=
| LanStart (window_uuid : str) (random : list N) (offer : RemotePairingOffer) (direct_origin display_name : str) (now_ms : Z)
| LanStartZero (window_uuid : str) (random : list N) (offer : RemotePairingOffer) (local_port : Z) (display_name : str)
    (now_ms : Z)
| LanDiscovery (now_ms : Z)
| LanSnapshot (now_ms : Z)
| LanSubmit (request_uuid : str) (r : RemoteLanPairingRequest) (now_ms : Z)
| LanPoll (r : RemoteLanPairingStatusRequest) (now_ms : Z)
| LanApprove (request_id : ident) (now_ms : Z)
| LanReject (request_id : ident) (now_ms : Z)
| LanClear (offer_id : ident).
Definition lan_step (c : LanPairingCoordinator) (op : lan_op) : LanPairingCoordinator :=
  match op with
  | LanStart u random offer origin name now => (start u random offer origin name now c).2
  | LanStartZero u random offer port name now => (start_zero_config u random offer port name now c).2
  | LanDiscovery now => (discovery now c).2
  | LanSnapshot now => (snapshot now c).2
  | LanSubmit u r now => (submit u r now c).2
  | LanPoll r now => (status r now c).2
  | LanApprove id now => (approve id now c).2
  | LanReject id now => (reject_request id now c).2
  | LanClear id => (clear_offer id c).2
  end.
Definition lan_run (ops : list lan_op) (c : LanPairingCoordinator) : LanPairingCoordinator := foldl lan_step c ops.

(** What every step does to the window, if it leaves one. *)
Inductive window_step : lan_op -> LanPairingWindow -> LanPairingWindow -> Prop :=
| ws_same op w : window_step op w w
| ws_submit u r now w hash :
    (forall k p, lw_pending w !! k = Some p -> pr_idempotency_key p <> lq_idempotency_key r) ->
    (forall k p, lw_pending w !! k = Some p ->
       ~ (pr_device_identity_public_key p = lq_device_identity_public_key r /\ pr_client_nonce p = lq_client_nonce r)) ->
    size (lw_pending w) < LAN_PAIRING_MAX_PENDING_REQUESTS ->
    window_step (LanSubmit u r now) w
      (set_pending (<[id_new RequestId u := pending_of w u hash r]> (lw_pending w)) w)
| ws_poll r now w p :
    lw_pending w !! ls_request_id r = Some p ->
    window_step (LanPoll r now) w (set_pending (<[ls_request_id r := polled now p]> (lw_pending w)) w)
| ws_approve id now w p :
    lw_pending w !! id = Some p -> pr_state p = LanPending ->
    (forall k q, lw_pending w !! k = Some q -> pr_state q <> LanApproved) ->
    window_step (LanApprove id now) w (set_pending (decided id <$> lw_pending w) w)
| ws_reject id now w p :
    lw_pending w !! id = Some p -> pr_state p = LanPending ->
    window_step (LanReject id now) w (set_pending (<[id := with_state LanRejected p]> (lw_pending w)) w).

(** After a step there is no window, a new and empty one, or a step of the old. *)
Definition opens (op : lan_op) : bool :=
  match op with LanStart _ _ _ _ _ _ | LanStartZero _ _ _ _ _ _ => true | _ => false end.
Definition step_outcome (op : lan_op) (c c' : LanPairingCoordinator) : Prop :=
  lc_secret_hash_key c' = lc_secret_hash_key c /\
  (lc_window c' = None \/ lc_window c' = lc_window c \/
   (opens op = true /\ exists w', lc_window c' = Some w' /\ lw_pending w' = ∅) \/
   exists w w', lc_window c = Some w /\ lc_window c' = Some w' /\ window_step op w w').

Lemma elem_of_pending p w : p ∈ pending_list w <-> exists k, lw_pending w !! k = Some p.
Proof.
  unfold pending_list. rewrite list_elem_of_fmap. split.
  - intros ([k q] & -> & Hq%elem_of_map_to_list). by exists k.
  - intros [k Hk]. exists (k, p). split; [done|]. by apply elem_of_map_to_list.
Qed.
Lemma pending_none (f : PendingRequest -> bool) w :
  existsb f (pending_list w) = false -> forall k p, lw_pending w !! k = Some p -> f p = false.
Proof.
  intros Hf k p Hk. destruct (f p) eqn:E; [|done]. rewrite <- Hf. symmetry. apply existsb_elem.
  exists p. split; [|done]. apply elem_of_pending. by exists k.
Qed.
Lemma active_window_cases now c :
  (exists w, lc_window c = Some w /\ active_window now c = (Ok w, c) /\
     (now < ld_expires_at_ms (lw_discovery w))%Z /\ offer_spent (lw_offer w) = false) \/
  active_window now c = (Err window_unavailable, set_window None c).
Proof.
  unfold active_window. destruct (lc_window c) as [w|]; [|by right].
  destruct (Z.leb_spec (ld_expires_at_ms (lw_discovery w)) now); [by right|].
  destruct (offer_spent (lw_offer w)) eqn:E; [by right|]. left. by exists w.
Qed.

Lemma outcome_same op c : step_outcome op c c.
Proof. split; [done|]. right. by left. Qed.
Lemma outcome_closed op c : step_outcome op c (set_window None c).
Proof. split; [done|]. by left. Qed.
Lemma outcome_opened op c w : opens op = true -> lw_pending w = ∅ -> step_outcome op c (set_window (Some w) c).
Proof. intros Ho Hw. split; [done|]. right; right; left. split; [done|]. by exists w. Qed.
Lemma outcome_stepped op c w w' :
  lc_window c = Some w -> window_step op w w' -> step_outcome op c (set_window (Some w') c).
Proof. intros Hw Hs. split; [done|]. right; right; right. by exists w, w'. Qed.

Lemma start_outcome u random offer origin name now c :
  step_outcome (LanStart u random offer origin name now) c (start u random offer origin name now c).2.
Proof.
  unfold start. do 3 (unfold db_bind at 1, db_lift at 1; destruct (_ : VibexResult _) as [?|?]; [|apply outcome_same]).
  unfold db_bind at 1, db_read. destruct (window_busy now c); [apply outcome_same|]. by apply outcome_opened.
Qed.
Lemma start_zero_outcome u random offer port name now c :
  step_outcome (LanStartZero u random offer port name now) c (start_zero_config u random offer port name now c).2.
Proof.
  unfold start_zero_config.
  do 2 (unfold db_bind at 1, db_lift at 1; destruct (_ : VibexResult _) as [?|?]; [|apply outcome_same]).
  unfold db_bind at 1, db_read. destruct (window_busy now c); [apply outcome_same|]. by apply outcome_opened.
Qed.
Lemma read_outcome {A} op (f : LanPairingWindow -> A) now c :
  step_outcome op c ((let! w := active_window now in db_ret (f w)) c).2.
Proof.
  unfold db_bind. destruct (active_window_cases now c) as [(w & _ & -> & _)| ->]; [apply outcome_same|apply outcome_closed].
Qed.
Lemma submit_outcome u r now c : step_outcome (LanSubmit u r now) c (submit u r now c).2.
Proof.
  unfold submit. unfold db_bind at 1, db_lift at 1. destruct (validate_request r) as [?|?]; [|apply outcome_same].
  unfold db_bind at 1, db_read at 1. unfold db_bind at 1.
  destruct (active_window_cases now c) as [(w & Hw & -> & _)| ->]; [|apply outcome_closed].
  destruct (negb _); [apply outcome_same|].
  destruct (List.find _ _) as [existing|] eqn:Ef; [destruct (_ && _); apply outcome_same|].
  destruct (existsb _ _) eqn:Ee; [apply outcome_same|].
  destruct (Nat.leb_spec LAN_PAIRING_MAX_PENDING_REQUESTS (size (lw_pending w))) as [|Hs]; [apply outcome_same|].
  apply (outcome_stepped _ _ w); [done|]. apply ws_submit; [| |done].
  - intros k p Hk E. eapply find_none in Ef; [|apply list_elem_of_In, elem_of_pending; by exists k].
    by rewrite bool_decide_eq_true_2 in Ef.
  - intros k p Hk [E1 E2]. eapply pending_none in Ee; [|done]. by rewrite !bool_decide_eq_true_2 in Ee.
Qed.
Lemma status_outcome r now c : step_outcome (LanPoll r now) c (status r now c).2.
Proof.
  unfold status. unfold db_bind at 1, db_lift at 1. destruct (validate_request_secret _) as [?|?]; [|apply outcome_same].
  do 2 unfold db_bind at 1, db_read at 1. unfold db_bind at 1, db_lift at 1.
  destruct (lc_window c) as [w|] eqn:Hw; [|apply outcome_same]. cbn [ok_or]. unfold db_bind at 1, db_lift at 1.
  destruct (lw_pending w !! ls_request_id r) as [p|] eqn:Hp; [|apply outcome_same]. cbn [ok_or].
  destruct (negb _); [apply outcome_same|].
  match goal with |- context [if ?b then db_fail _ else _] => destruct b; [apply outcome_same|] end.
  unfold db_bind at 1, db_write at 1. destruct (_ <=? _)%Z; [apply outcome_closed|].
  apply (outcome_stepped _ _ w); [done|by apply ws_poll].
Qed.
Lemma approve_outcome id now c : step_outcome (LanApprove id now) c (approve id now c).2.
Proof.
  unfold approve. unfold db_bind at 1.
  destruct (active_window_cases now c) as [(w & Hw & -> & _)| ->]; [|apply outcome_closed].
  destruct (existsb _ _) eqn:Ee; [apply outcome_same|]. unfold db_bind at 1, db_lift.
  destruct (lw_pending w !! id) as [p|] eqn:Hp; [|apply outcome_same]. cbn [ok_or].
  destruct (bool_decide_reflect (pr_state p = LanPending)); [|apply outcome_same].
  apply (outcome_stepped _ _ w); [done|]. apply (ws_approve id now w p); [done..|].
  intros k q Hk E. eapply pending_none in Ee; [|done]. by rewrite bool_decide_eq_true_2 in Ee.
Qed.
Lemma reject_outcome id now c : step_outcome (LanReject id now) c (reject_request id now c).2.
Proof.
  unfold reject_request. unfold db_bind at 1.
  destruct (active_window_cases now c) as [(w & Hw & -> & _)| ->]; [|apply outcome_closed].
  unfold db_bind at 1, db_lift. destruct (lw_pending w !! id) as [p|] eqn:Hp; [|apply outcome_same]. cbn [ok_or].
  destruct (bool_decide_reflect (pr_state p = LanPending)); [|apply outcome_same].
  apply (outcome_stepped _ _ w); [done|by apply ws_reject].
Qed.
Lemma lan_step_outcome op c : step_outcome op c (lan_step c op).
Proof.
  destruct op; simpl.
  - apply start_outcome.
  - apply start_zero_outcome.
  - apply read_outcome.
  - apply (read_outcome _ (fun w => snapshot_of w now_ms)).
  - apply submit_outcome.
  - apply status_outcome.
  - apply approve_outcome.
  - apply reject_outcome.
  - unfold clear_offer. destruct (_ : bool); [apply outcome_closed|apply outcome_same].
Qed.

(** ** What holds of every window *)

(** The request behind two entries: all but its state and its last poll. *)
Definition same_request (p q : PendingRequest) : Prop :=
  pr_request_id q = pr_request_id p /\ pr_device_identity_public_key q = pr_device_identity_public_key p /\
  pr_display_name q = pr_display_name p /\ pr_client_nonce q = pr_client_nonce p /\
  pr_idempotency_key q = pr_idempotency_key p /\ pr_request_secret_hash q = pr_request_secret_hash p /\
  pr_verification_code q = pr_verification_code p.
Definition code_of_request (w : LanPairingWindow) (p : PendingRequest) : str :=
  remote_lan_pairing_verification_code (ld_window_id (lw_discovery w)) (pr_request_id p)
    (ld_server_id (lw_discovery w)) (ld_server_identity_public_key (lw_discovery w))
    (pr_device_identity_public_key p) (pr_client_nonce p).
Record window_ok (w : LanPairingWindow) : Prop := mkWindowOk {
  wo_ids : forall k p, lw_pending w !! k = Some p -> pr_request_id p = k;
  wo_size : size (lw_pending w) <= LAN_PAIRING_MAX_PENDING_REQUESTS;
  wo_one_approved : forall i j p q, lw_pending w !! i = Some p -> lw_pending w !! j = Some q ->
    pr_state p = LanApproved -> pr_state q = LanApproved -> i = j;
  wo_idempotency : forall i j p q, lw_pending w !! i = Some p -> lw_pending w !! j = Some q ->
    pr_idempotency_key p = pr_idempotency_key q -> i = j;
  wo_clients : forall i j p q, lw_pending w !! i = Some p -> lw_pending w !! j = Some q ->
    pr_device_identity_public_key p = pr_device_identity_public_key q -> pr_client_nonce p = pr_client_nonce q ->
    i = j;
  wo_codes : forall k p, lw_pending w !! k = Some p -> pr_verification_code p = code_of_request w p
}.
Definition lan_ok (c : LanPairingCoordinator) : Prop := forall w, lc_window c = Some w -> window_ok w.

Lemma same_request_refl p : same_request p p.
Proof. by split_and!. Qed.
Lemma same_request_trans p q r : same_request p q -> same_request q r -> same_request p r.
Proof. intros (?&?&?&?&?&?&?) (?&?&?&?&?&?&?). split_and!; congruence. Qed.
(** A step that adds no request. *)
Lemma window_ok_same w pending :
  window_ok w -> size pending <= size (lw_pending w) ->
  (forall k q, pending !! k = Some q -> exists p, lw_pending w !! k = Some p /\ same_request p q) ->
  (forall i j p q, pending !! i = Some p -> pending !! j = Some q ->
     pr_state p = LanApproved -> pr_state q = LanApproved -> i = j) ->
  window_ok (set_pending pending w).
Proof.
  intros [W1 W2 W3 W4 W5 W6] Hs Hp Ha. split; simpl.
  - intros k q (p & Hk & Hsame & _)%Hp. rewrite Hsame. by apply W1.
  - lia.
  - done.
  - intros i j p q (p' & Hi & _&_&_&_& Ep &_)%Hp (q' & Hj & _&_&_&_& Eq &_)%Hp. rewrite Ep, Eq. by apply (W4 i j).
  - intros i j p q (p' & Hi & _& Kp &_& Np & _)%Hp (q' & Hj & _& Kq &_& Nq & _)%Hp. rewrite Kp, Kq, Np, Nq.
    by apply (W5 i j).
  - intros k q (p & Hk & S1 & S2 & _ & S4 & _ & _ & S7)%Hp. rewrite S7, (W6 _ _ Hk).
    unfold code_of_request. simpl. by rewrite S1, S2, S4.
Qed.
Lemma replaced_same (k : ident) (p q : PendingRequest) (m : gmap ident PendingRequest) :
  m !! k = Some p -> same_request p q ->
  forall i r, <[k := q]> m !! i = Some r -> exists p', m !! i = Some p' /\ same_request p' r.
Proof.
  intros Hk Hs i r [[<- <-]|[_ Hi]]%lookup_insert_Some; [by exists p|]. exists r. split; [done|apply same_request_refl].
Qed.
Lemma decided_same id p : same_request p (decided id p).
Proof. unfold decided. by destruct (bool_decide _); [|destruct (bool_decide _)]. Qed.
Lemma decided_approved id p :
  pr_state (decided id p) = LanApproved -> pr_request_id p = id \/ pr_state p = LanApproved.
Proof.
  unfold decided. destruct (bool_decide_reflect (pr_request_id p = id)); [by left|].
  destruct (bool_decide _); [done|by right].
Qed.
Lemma window_step_ok op w w' : window_step op w w' -> window_ok w -> window_ok w'.
Proof.
  intros Hs Hw. destruct Hs as [|u r now w hash Hi Hc Hn|r now w p Hp|id now w p Hp Hst Hnone|id now w p Hp Hst]; [done|..].
  - destruct Hw as [W1 W2 W3 W4 W5 W6]. split; cbn [set_pending lw_pending].
    + intros k p [[<- <-]|[_ Hk]]%lookup_insert_Some; [done|by apply W1].
    + rewrite map_size_insert. destruct (_ !! _); simpl; lia.
    + intros i j p q [[<- <-]|[? Hp]]%lookup_insert_Some [[<- <-]|[? Hq]]%lookup_insert_Some; try done.
      by apply (W3 i j p q).
    + intros i j p q [[<- <-]|[? Hp]]%lookup_insert_Some [[<- <-]|[? Hq]]%lookup_insert_Some E; [done|..].
      * by destruct (Hi j q Hq).
      * by destruct (Hi i p Hp).
      * by apply (W4 i j p q).
    + intros i j p q [[<- <-]|[? Hp]]%lookup_insert_Some [[<- <-]|[? Hq]]%lookup_insert_Some E1 E2; [done|..].
      * by destruct (Hc j q Hq).
      * by destruct (Hc i p Hp).
      * by apply (W5 i j p q).
    + intros k p [[<- <-]|[_ Hk]]%lookup_insert_Some; [done|]. by rewrite (W6 _ _ Hk).
  - apply window_ok_same; [done| | |].
    + by rewrite map_size_insert_Some by by eexists.
    + by apply (replaced_same _ p).
    + intros i j a b. intros [[<- <-]|[? Hi]]%lookup_insert_Some [[<- <-]|[? Hj]]%lookup_insert_Some; [done|..].
      * by apply (wo_one_approved _ Hw _ _ p b).
      * by apply (wo_one_approved _ Hw _ _ a p).
      * by apply (wo_one_approved _ Hw _ _ a b).
  - apply window_ok_same; [done| | |].
    + by rewrite map_size_fmap.
    + intros k q. rewrite lookup_fmap_Some. intros (p' & <- & Hk). exists p'. split; [done|apply decided_same].
    + intros i j a b. rewrite !lookup_fmap_Some. intros (a' & <- & Ha) (b' & <- & Hb).
      intros [Ea|Ea]%decided_approved; [|by destruct (Hnone _ _ Ha)].
      intros [Eb|Eb]%decided_approved; [|by destruct (Hnone _ _ Hb)].
      rewrite (wo_ids _ Hw _ _ Ha) in Ea. rewrite (wo_ids _ Hw _ _ Hb) in Eb. congruence.
  - apply window_ok_same; [done| | |].
    + by rewrite map_size_insert_Some by by eexists.
    + by apply (replaced_same _ p).
    + intros i j a b. intros [[<- <-]|[? Hi]]%lookup_insert_Some [[<- <-]|[? Hj]]%lookup_insert_Some; try done.
      by apply (wo_one_approved _ Hw _ _ a b).
Qed.
Lemma empty_window_ok w : lw_pending w = ∅ -> window_ok w.
Proof.
  intros E. split; rewrite E; [by intros k p ?%lookup_empty_Some|rewrite map_size_empty; unfold LAN_PAIRING_MAX_PENDING_REQUESTS; lia|..];
    by intros ? ? ? ? ?%lookup_empty_Some || intros ? ? ?%lookup_empty_Some.
Qed.

Lemma lan_step_ok op c : lan_ok c -> lan_ok (lan_step c op).
Proof.
  intros Hc w Hw.
  destruct (lan_step_outcome op c) as [_ [E|[E|[(_ & w' & E & Ee)|(w0 & w' & E0 & E & Hs)]]]]; rewrite Hw in E.
  - done.
  - apply Hc. by rewrite E.
  - injection E as ->. by apply empty_window_ok.
  - injection E as ->. eapply window_step_ok; [done|]. by apply Hc.
Qed.

(** Whatever devices send and operators decide, a window holds at most eight
    requests and at most one that is approved, no two of one idempotency key and
    no two of one device and nonce, and each shows the code of its own window,
    desktop, device and nonce. *)
Theorem lan_window_stays_sound (ops : list lan_op) (c : LanPairingCoordinator) :
  lan_ok c -> lan_ok (lan_run ops c).
Proof.
  unfold lan_run. revert c. induction ops as [|op ops IH]; intros c Hc; [done|]. by apply IH, lan_step_ok.
Qed.

(** ** Who is given the offer *)

(** The entry [a] of the window is approved, and is the request [p0]. *)
Definition holds (a : ident) (p0 : PendingRequest) (w : LanPairingWindow) : Prop :=
  exists p, lw_pending w !! a = Some p /\ pr_state p = LanApproved /\ same_request p0 p.
(** Operations that neither open a window nor give another request the id [a]. *)
Definition within (a : ident) (op : lan_op) : bool :=
  negb (opens op) && match op with LanSubmit u _ _ => negb (bool_decide (id_new RequestId u = a)) | _ => true end.
Lemma holds_step a p0 op w w' : within a op = true -> window_step op w w' -> holds a p0 w -> holds a p0 w'.
Proof.
  intros Hop Hs (p & Hp & Ha & Hsame).
  destruct Hs as [|u r now w hash _ _ _|r now w q Hq|id now w q Hq Hst Hnone|id now w q Hq Hst]; [by exists p| | | |].
  - exists p. cbn [set_pending lw_pending]. rewrite lookup_insert_ne; [done|].
    unfold within in Hop. apply andb_prop in Hop as [_ Hop%negb_true_iff]. by apply bool_decide_eq_false in Hop.
  - destruct (decide (ls_request_id r = a)) as [<-|Hne].
    + exists (polled now q). cbn [set_pending lw_pending]. rewrite lookup_insert_eq. by simplify_eq.
    + exists p. cbn [set_pending lw_pending]. by rewrite lookup_insert_ne.
  - by destruct (Hnone a p Hp).
  - exists p. cbn [set_pending lw_pending]. rewrite lookup_insert_ne; [done|]. intros ->. congruence.
Qed.
Lemma window_step_fixed op w w' :
  window_step op w w' -> lw_offer w' = lw_offer w /\ lw_discovery w' = lw_discovery w.
Proof. by intros []. Qed.

(** The state behind an approval, from then on. *)
Definition approved_in (a : ident) (p0 : PendingRequest) (w0 : LanPairingWindow) (key : list N)
    (c : LanPairingCoordinator) : Prop :=
  lc_secret_hash_key c = key /\
  forall w, lc_window c = Some w ->
    window_ok w /\ holds a p0 w /\ lw_offer w = lw_offer w0 /\ lw_discovery w = lw_discovery w0.
Lemma approved_step a p0 w0 key op c :
  within a op = true -> approved_in a p0 w0 key c -> approved_in a p0 w0 key (lan_step c op).
Proof.
  intros Hop [Hk Hc]. destruct (lan_step_outcome op c) as [Hk' [E|[E|[(Ho & _)|(w & w' & E & E' & Hs)]]]];
    (split; [by rewrite Hk'|]).
  - by rewrite E.
  - by rewrite E.
  - unfold within in Hop. by rewrite Ho in Hop.
  - rewrite E'. intros w1 [= <-]. destruct (Hc w E) as (Hw & Hh & Hof & Hd).
    destruct (window_step_fixed _ _ _ Hs) as [-> ->]. split_and!; [|by eapply holds_step|done..].
    by eapply window_step_ok.
Qed.
Lemma approved_run a p0 w0 key ops c :
  forallb (within a) ops = true -> approved_in a p0 w0 key c -> approved_in a p0 w0 key (lan_run ops c).
Proof.
  unfold lan_run. revert c. induction ops as [|op ops IH]; intros c; simpl; [done|].
  intros [Hop Hops]%andb_prop Hc. by apply IH; [|apply approved_step].
Qed.

(** When a poll is answered with the offer. *)
Lemma status_offers r now c response offer :
  (status r now c).1 = Ok response -> lr_offer response = Some offer ->
  exists w p, lc_window c = Some w /\ lw_pending w !! ls_request_id r = Some p /\ pr_state p = LanApproved /\
    verify_secret_hash (lc_secret_hash_key c) (ls_request_secret r) (pr_request_secret_hash p) = true /\
    (now < ld_expires_at_ms (lw_discovery w))%Z /\ offer = lw_offer w.
Proof.
  unfold status. unfold db_bind at 1, db_lift at 1. destruct (validate_request_secret _) as [?|?]; [|done].
  do 2 unfold db_bind at 1, db_read at 1. unfold db_bind at 1, db_lift at 1.
  destruct (lc_window c) as [w|] eqn:Hw; [|done]. cbn [ok_or]. unfold db_bind at 1, db_lift at 1.
  destruct (lw_pending w !! ls_request_id r) as [p|] eqn:Hp; [|done]. cbn [ok_or].
  destruct (verify_secret_hash _ _ _) eqn:Hv; [|done]. cbn [negb].
  match goal with |- context [if ?b then db_fail _ else _] => destruct b; [done|] end.
  unfold db_bind at 1, db_write at 1. destruct (Z.leb_spec (ld_expires_at_ms (lw_discovery w)) now).
  { by intros [= <-]. }
  intros [= <-]. simpl. destruct (bool_decide_reflect (pr_state p = LanApproved)); [|done]. intros [= <-].
  by exists w, p.
Qed.
Lemma approve_ok id now c snap c' :
  approve id now c = (Ok snap, c') ->
  exists w p, lc_window c = Some w /\ lw_pending w !! id = Some p /\ pr_state p = LanPending /\
    (forall k q, lw_pending w !! k = Some q -> pr_state q <> LanApproved) /\
    (now < ld_expires_at_ms (lw_discovery w))%Z /\
    c' = set_window (Some (set_pending (decided id <$> lw_pending w) w)) c.
Proof.
  unfold approve. unfold db_bind at 1.
  destruct (active_window_cases now c) as [(w & Hw & -> & Hnow & _)| ->]; [|done].
  destruct (existsb _ _) eqn:Ee; [done|]. unfold db_bind at 1, db_lift.
  destruct (lw_pending w !! id) as [p|] eqn:Hp; [|done]. cbn [ok_or].
  destruct (bool_decide_reflect (pr_state p = LanPending)); [|done]. cbn [negb]. intros [= _ <-].
  exists w, p. split_and!; [done..| |done|done].
  intros k q Hk E. eapply pending_none in Ee; [|done]. by rewrite bool_decide_eq_true_2 in Ee.
Qed.

(** C17. The offer is given to the request the operator approved and to no other:
    after an approval, whatever is asked in the life of the window, a poll is
    answered with the offer only if it names that request and shows its secret,
    the offer is the window's own, and it has not run out. *)
Theorem offer_goes_to_the_approved_request (a : ident) (at_ms : Z) (ops : list lan_op) (c : LanPairingCoordinator) :
  lan_ok c -> is_ok (approve a at_ms c).1 = true -> forallb (within a) ops = true ->
  exists w0 p0, lc_window c = Some w0 /\ lw_pending w0 !! a = Some p0 /\
    forall r now response offer,
      (status r now (lan_run ops (approve a at_ms c).2)).1 = Ok response -> lr_offer response = Some offer ->
      ls_request_id r = a /\
      verify_secret_hash (lc_secret_hash_key c) (ls_request_secret r) (pr_request_secret_hash p0) = true /\
      offer = lw_offer w0 /\ (now < ld_expires_at_ms (lw_discovery w0))%Z.
Proof.
  intros Hc Ha Hops. destruct (approve a at_ms c) as [[snap|e] c1] eqn:E; [|done].
  destruct (approve_ok _ _ _ _ _ E) as (w0 & p0 & Hw & Hp & Hst & Hnone & _ & ->).
  exists w0, p0. split_and!; [done..|]. intros r now response offer Hr Ho. cbn [snd] in Hr.
  assert (H1 : approved_in a p0 w0 (lc_secret_hash_key c)
                 (set_window (Some (set_pending (decided a <$> lw_pending w0) w0)) c)).
  { split; [done|]. intros w [= <-]. split_and!; [|..|done|done].
    - eapply (window_step_ok (LanApprove a at_ms)); [by eapply ws_approve|by apply Hc].
    - exists (decided a p0). cbn [set_pending lw_pending]. rewrite lookup_fmap, Hp. split; [done|].
      split; [|apply decided_same]. unfold decided. by rewrite (wo_ids _ (Hc _ Hw) _ _ Hp), bool_decide_eq_true_2. }
  destruct (approved_run _ _ _ _ ops _ Hops H1) as [Hk Hrun].
  destruct (status_offers _ _ _ _ _ Hr Ho) as (w & p & Hcw & Hpw & Hpa & Hv & Hnow & ->).
  destruct (Hrun w Hcw) as (Hok & (q & Hq & Hqa & Hsame) & Hof & Hd).
  assert (ls_request_id r = a) as Hid by by apply (wo_one_approved _ Hok _ _ p q).
  rewrite Hid in Hpw. rewrite Hpw in Hq. injection Hq as ->. rewrite Hk in Hv. rewrite Hd in Hnow.
  destruct Hsame as (_ & _ & _ & _ & _ & Hs & _). by rewrite Hs in Hv.
Qed.

(** Before any approval nobody is given the offer. *)
Definition unapproved (c : LanPairingCoordinator) : Prop :=
  forall w k p, lc_window c = Some w -> lw_pending w !! k = Some p -> pr_state p <> LanApproved.
Definition is_approval (op : lan_op) : bool := match op with LanApprove _ _ => true | _ => false end.
Lemma unapproved_step op c : is_approval op = false -> unapproved c -> unapproved (lan_step c op).
Proof.
  intros Hop Hc w k p Hw Hk Ha. destruct (lan_step_outcome op c) as [_ [E|[E|[(_ & w' & E & Ee)|(w0 & w' & E0 & E & Hs)]]]];
    rewrite Hw in E.
  - done.
  - by apply (Hc w k p).
  - injection E as ->. by rewrite Ee, lookup_empty in Hk.
  - injection E as ->. destruct Hs; cbn [set_pending lw_pending] in Hk.
    + by apply (Hc w k p).
    + apply lookup_insert_Some in Hk as [[<- <-]|[_ Hk]]; [done|]. by apply (Hc w k p).
    + apply lookup_insert_Some in Hk as [[<- <-]|[_ Hk]]; [by eapply (Hc w)|]. by apply (Hc w k p).
    + done.
    + apply lookup_insert_Some in Hk as [[<- <-]|[_ Hk]]; [done|]. by apply (Hc w k p).
Qed.
Lemma no_offer_before_approval ops c :
  unapproved c -> forallb (fun op => negb (is_approval op)) ops = true ->
  forall r now response, (status r now (lan_run ops c)).1 = Ok response -> lr_offer response = None.
Proof.
  unfold lan_run. revert c. induction ops as [|op ops IH]; intros c Hc; simpl.
  - intros _ r now response Hr. destruct (lr_offer response) as [offer|] eqn:Ho; [|done].
    destruct (status_offers _ _ _ _ _ Hr Ho) as (w & p & Hw & Hp & Ha & _). by destruct (Hc w _ p Hw Hp).
  - intros [Hop%negb_true_iff Hops]%andb_prop. by apply IH; [apply unapproved_step|].
Qed.

(** And the request that was approved is given it: the first poll that shows
    the secret, in time and not too soon after the last, is answered with it. *)
Lemma approved_poll_is_answered r now c w p :
  lc_window c = Some w -> lw_pending w !! ls_request_id r = Some p -> pr_state p = LanApproved ->
  validate_request_secret (ls_request_secret r) = Ok tt ->
  verify_secret_hash (lc_secret_hash_key c) (ls_request_secret r) (pr_request_secret_hash p) = true ->
  (now < ld_expires_at_ms (lw_discovery w))%Z ->
  (forall last, pr_last_poll_at_ms p = Some last ->
     (LAN_PAIRING_MIN_POLL_INTERVAL_MS <= i64_saturating_sub now last)%Z) ->
  (status r now c).1 = Ok (mkLanStatusResponse LanApproved (Some (lw_offer w))).
Proof.
  intros Hw Hp Ha Hs Hv Hnow Hl. unfold status. unfold db_bind at 1, db_lift at 1. rewrite Hs.
  do 2 unfold db_bind at 1, db_read at 1. unfold db_bind at 1, db_lift at 1. rewrite Hw. cbn [ok_or].
  unfold db_bind at 1, db_lift at 1. rewrite Hp. cbn [ok_or]. rewrite Hv. cbn [negb].
  assert (Hb : match pr_last_poll_at_ms p with
               | Some last => (i64_saturating_sub now last <? LAN_PAIRING_MIN_POLL_INTERVAL_MS)%Z
               | None => false
               end = false).
  { destruct (pr_last_poll_at_ms p) as [last|]; [|done]. apply Z.ltb_ge. by apply Hl. }
  rewrite Hb. unfold db_bind at 1, db_write at 1.
  destruct (Z.leb_spec (ld_expires_at_ms (lw_discovery w)) now); [lia|]. cbn [fst db_ret].
  unfold db_ret. cbn [fst]. by rewrite Ha, bool_decide_eq_true_2.
Qed.

(** ** What the two screens show *)

Lemma be_digit n i j : j = N.succ i -> (n / 256 ^ j * 256 + n / 256 ^ i mod 256 = n / 256 ^ i)%N.
Proof.
  intros ->. rewrite N.pow_succ_r', (N.mul_comm 256), <- N.Div0.div_div.
  rewrite (N.div_mod (n / 256 ^ i) 256) at 3 by done. lia.
Qed.
Lemma u64_be_round_trip n : (n < 2 ^ 64)%N -> u64_from_be_bytes (u64_be_bytes n) = n.
Proof.
  intros Hn. unfold u64_be_bytes, u64_from_be_bytes. cbn [fmap list_fmap foldl].
  assert (H7 : (n / 256 ^ 7 mod 256 = n / 256 ^ 7)%N).
  { apply N.mod_small. apply N.Div0.div_lt_upper_bound. exact Hn. }
  rewrite N.mul_0_l, N.add_0_l, H7. rewrite (be_digit n 6 7), (be_digit n 5 6), (be_digit n 4 5), (be_digit n 3 4),
    (be_digit n 2 3), (be_digit n 1 2), (be_digit n 0 1) by done. by rewrite N.pow_0_r, N.div_1_r.
Qed.
Lemma length_prefixed_inj f g a b :
  (N.of_nat (length (as_bytes f)) < 2 ^ 64)%N -> (N.of_nat (length (as_bytes g)) < 2 ^ 64)%N ->
  length_prefixed f ++ a = length_prefixed g ++ b -> as_bytes f = as_bytes g /\ a = b.
Proof.
  intros Hf Hg. unfold length_prefixed. rewrite <- !app_assoc. intros E.
  apply app_inj_1 in E as [El E]; [|done].
  assert (En : length (as_bytes f) = length (as_bytes g)).
  { apply Nat2N.inj. by rewrite <- (u64_be_round_trip _ Hf), <- (u64_be_round_trip _ Hg), El. }
  by apply app_inj_1 in E.
Qed.
Definition field_fits (field : str) : Prop := (N.of_nat (length (as_bytes field)) < 2 ^ 64)%N.

(** The text behind the six digits is unambiguous: two transcripts are equal only
    field by field, so no choice of names, keys or nonces shifts one field into
    another. *)
Theorem transcript_is_unambiguous (fields fields' : list str) :
  Forall field_fits fields -> Forall field_fits fields' ->
  verification_transcript fields = verification_transcript fields' ->
  as_bytes <$> fields = as_bytes <$> fields'.
Proof.
  intros Hf. revert fields'. unfold verification_transcript.
  induction Hf as [|f fields Hf _ IH]; intros [|g fields'] Hg E; cbn [mbind list_bind] in E; try done.
  apply Forall_cons in Hg as [Hg Hgs].
  apply length_prefixed_inj in E as [E1 E2]; [|done..]. rewrite !fmap_cons, E1. f_equal. by apply IH.
Qed.

(** The advertised name is one DNS label whatever the desktop is called. *)
Lemma popped_len max l : utf8_len (popped max l) <= max.
Proof.
  induction l as [|c l IH]; cbn [popped]; [unfold utf8_len; simpl; lia|].
  destruct (Nat.ltb_spec max (utf8_len (c :: l))); [done|lia].
Qed.
Lemma utf8_len_reverse s : utf8_len (reverse s) = utf8_len s.
Proof.
  induction s as [|c s IH]; [done|]. rewrite reverse_cons, utf8_len_app, IH, !utf8_len_cons.
  change (utf8_len []) with 0. lia.
Qed.
Lemma drop_while_len p s : utf8_len (drop_while p s) <= utf8_len s.
Proof.
  induction s as [|c s IH]; [done|]. cbn [drop_while]. destruct (p c); [|done]. rewrite utf8_len_cons. lia.
Qed.
Lemma get_to_short s : Forall (fun c => is_ascii c = true) s ->
  forall n, utf8_len (default s (get_to n s)) <= n.
Proof.
  induction 1 as [|c s Hc Hs IH]; intros n.
  - destruct n; simpl; unfold utf8_len; simpl; lia.
  - destruct n as [|n]; [unfold utf8_len; simpl; lia|]. cbn [get_to].
    assert (Hw : utf8_width c = 1) by (unfold utf8_width, is_ascii in *; by rewrite Hc). rewrite Hw.
    replace (S n - 1) with n by lia. cbn [Nat.leb]. specialize (IH n).
    destruct (get_to n s) as [pre|]; simpl in *; rewrite utf8_len_cons, Hw; lia.
Qed.
Lemma service_instance_is_a_label display_name advertisement_id :
  Forall (fun c => is_ascii c = true) advertisement_id ->
  utf8_len (service_instance_name display_name advertisement_id) <= 63.
Proof.
  intros Ha. unfold service_instance_name. 
  match goal with |- context [default ?s (get_to 8 ?s)] => set (suffix := s) end.
  assert (Hs : Forall (fun c => is_ascii c = true) suffix).
  { unfold suffix, rsplit_once. destruct (split_once _ _) as [[x y]|] eqn:E; [|done]. simpl.
    apply split_once_Some in E as [E _]. apply Forall_reverse. apply Forall_reverse in Ha. rewrite E in Ha.
    by apply Forall_app in Ha as [? _]. }
  pose proof (get_to_short _ Hs 8) as Hg. set (tail := default suffix (get_to 8 suffix)) in *.
  rewrite utf8_len_app, utf8_len_app. unfold trim_end_matches. rewrite utf8_len_reverse.
  rewrite reverse_involutive. set (prefix := popped _ _).
  pose proof (drop_while_len is_whitespace prefix) as Hd.
  assert (utf8_len prefix <= 63 - (utf8_len tail + 1)) by apply popped_len.
  change (utf8_len (lit "-")) with 1. lia.
Qed.
End lan.
