(* ===== verification/PeerLimiter.v ===== *)
(** The limiter in front of the unauthenticated endpoints of the remote gateway
    (PeerRateLimiter and its users in remote/src/gateway.rs): one fixed window
    per peer, in a bounded map. *)
From stdpp Require Import prelude strings list gmap.
From Stdlib Require Import NArith ZArith Lia.
From S2P Require Import Prelude CoreTypes.

(** ** Limits *)

Record RemoteGatewayPeerLimits : Type := mkPeerLimits {
  pl_unauthenticated_requests_per_window : Z;
  pl_auth_failures_per_window : Z;
  pl_window_ms : Z;
  pl_max_tracked_peers : nat
}.
Definition DEFAULT_PEER_UNAUTHENTICATED_REQUESTS_PER_WINDOW : Z := 120.
Definition DEFAULT_PEER_AUTH_FAILURES_PER_WINDOW : Z := 10.
Definition DEFAULT_PEER_LIMIT_WINDOW_MS : Z := 60000.
Definition DEFAULT_PEER_LIMIT_TRACKED_PEERS : nat := Z.to_nat 4096.
Definition MAX_PEER_LIMIT_WINDOW_MS : Z := 60 * 60 * 1000.
Definition RemoteGatewayPeerLimits_default : RemoteGatewayPeerLimits :=
  mkPeerLimits DEFAULT_PEER_UNAUTHENTICATED_REQUESTS_PER_WINDOW DEFAULT_PEER_AUTH_FAILURES_PER_WINDOW
    DEFAULT_PEER_LIMIT_WINDOW_MS DEFAULT_PEER_LIMIT_TRACKED_PEERS.
Definition RemoteGatewayPeerLimits_validate (l : RemoteGatewayPeerLimits) : VibexResult unit :=
  reject (pl_unauthenticated_requests_per_window l =? 0)%Z || (pl_auth_failures_per_window l =? 0)%Z
         || (pl_window_ms l =? 0)%Z || (MAX_PEER_LIMIT_WINDOW_MS <? pl_window_ms l)%Z
         || (pl_max_tracked_peers l =? 0)%nat with
    (invalid "remote_gateway_peer_limits_invalid" "RemoteGateway peer limits must be positive and bounded") ;;
  Ok tt.

(** ** Windows *)

Record PeerWindow : Type := mkPeerWindow {
  pw_window_started_at_ms : Z;
  pw_requests : Z;
  pw_auth_failures : Z;
  pw_last_seen_at_ms : Z
}.
Definition PeerWindow_default : PeerWindow := mkPeerWindow 0 0 0 0.
Abbreviation PeerWindows := (gmap (list N) PeerWindow).
Inductive PeerLimitDecision : Type := Allowed | Limited (retry_after_ms : Z).

(** [Iterator::min_by_key] and its key: the first of the least. *)
Fixpoint min_by_key {A} (key : A -> Z) (l : list A) : option A :=
  match l with
  | [] => None
  | x :: l => match min_by_key key l with
              | Some y => if (key y <? key x)%Z then Some y else Some x
              | None => Some x
              end
  end.

(** A request with a secret: its peer, the instant it came in and whether the
    secret is right. *)
Record Guess : Type := mkGuess { gu_peer : str; gu_at_ms : Z; gu_right : bool }.
#[export] Instance Guess_eq_dec : EqDecision Guess.
Proof. solve_decision. Defined.

Section limits.
Context (limits : RemoteGatewayPeerLimits).

(** [i64::try_from(window_ms).unwrap_or(i64::MAX)]. *)
Definition window_ms : Z := Z.min i64_max (pl_window_ms limits).
Definition window_over (w : PeerWindow) (now_ms : Z) : bool :=
  (window_ms <=? i64_saturating_sub now_ms (pw_window_started_at_ms w))%Z.
(** Room for a new peer: expired windows go first, then the least recently seen
    (of equals, one that the hash map's order decides). *)
Definition make_room (peer : str) (now_ms : Z) (windows : PeerWindows) : PeerWindows :=
  if bool_decide (windows !! peer = None) && (pl_max_tracked_peers limits <=? size windows)%nat then
    let windows := filter (fun kw => window_over kw.2 now_ms = false) windows in
    if (pl_max_tracked_peers limits <=? size windows)%nat then
      match min_by_key (fun kw => pw_last_seen_at_ms kw.2) (map_to_list windows) with
      | Some (oldest, _) => delete oldest windows
      | None => windows
      end
    else windows
  else windows.
(** The peer's window at this instant. *)
Definition current_window (w : PeerWindow) (now_ms : Z) : PeerWindow :=
  let w := if window_over w now_ms then mkPeerWindow now_ms 0 0 0 else w in
  mkPeerWindow (pw_window_started_at_ms w) (pw_requests w) (pw_auth_failures w) now_ms.
Definition with_window {T} (peer : str) (now_ms : Z) (apply : PeerWindow -> T * PeerWindow) (windows : PeerWindows)
  : T * PeerWindows :=
  let windows := make_room peer now_ms windows in
  let window := default PeerWindow_default (windows !! peer) in
  let '(result, window) := apply (current_window window now_ms) in
  (result, <[peer := window]> windows).

Definition retry_after (w : PeerWindow) (now_ms : Z) : Z :=
  let elapsed := Z.max 0 (i64_saturating_sub now_ms (pw_window_started_at_ms w)) in
  Z.max 1 (u64_saturating_sub (pl_window_ms limits) elapsed).

Definition check_auth_window (now_ms : Z) (w : PeerWindow) : PeerLimitDecision * PeerWindow :=
  (if (pl_auth_failures_per_window limits <=? pw_auth_failures w)%Z
   then Limited (retry_after w now_ms) else Allowed, w).
Definition count_request (now_ms : Z) (w : PeerWindow) : PeerLimitDecision * PeerWindow :=
  if (pl_auth_failures_per_window limits <=? pw_auth_failures w)%Z
  then (Limited (retry_after w now_ms), w)
  else
  let w := mkPeerWindow (pw_window_started_at_ms w) (u32_saturating_add (pw_requests w) 1)
             (pw_auth_failures w) (pw_last_seen_at_ms w) in
  (if (pl_unauthenticated_requests_per_window limits <? pw_requests w)%Z
   then Limited (retry_after w now_ms) else Allowed, w).
Definition count_failure (w : PeerWindow) : unit * PeerWindow :=
  (tt, mkPeerWindow (pw_window_started_at_ms w) (pw_requests w) (u32_saturating_add (pw_auth_failures w) 1)
         (pw_last_seen_at_ms w)).

Definition check_unauthenticated_request (peer : str) (now_ms : Z) (windows : PeerWindows)
  : PeerLimitDecision * PeerWindows := with_window peer now_ms (count_request now_ms) windows.
Definition check_auth_attempt (peer : str) (now_ms : Z) (windows : PeerWindows)
  : PeerLimitDecision * PeerWindows := with_window peer now_ms (check_auth_window now_ms) windows.
Definition record_auth_failure (peer : str) (now_ms : Z) (windows : PeerWindows) : PeerWindows :=
  (with_window peer now_ms count_failure windows).2.

(** What takes the limiter's lock: the check before a secret is tried, the record
    of a wrong one, with the instant its request came in, and the count of a
    request that tries none. The secret is tried between the two, without the
    lock. *)
Inductive LimiterStep : Type :=
| Checked (g : Guess)
| Recorded (g : Guess)
| Counted (peer : str) (now_ms : Z).
(** The map, and the wrong guesses that are tried and not recorded yet. *)
Record LimiterRun : Type := mkRun { lr_windows : PeerWindows; lr_in_flight : list Guess }.
(** Of an endpoint that checks a secret: whether a wrong guess goes on to be
    tried. *)
Definition limiter_step (s : LimiterStep) (r : LimiterRun) : bool * LimiterRun :=
  match s with
  | Checked g =>
      match check_auth_attempt (gu_peer g) (gu_at_ms g) (lr_windows r) with
      | (Limited _, windows) => (false, mkRun windows (lr_in_flight r))
      | (Allowed, windows) =>
          (negb (gu_right g), mkRun windows (if gu_right g then lr_in_flight r else g :: lr_in_flight r))
      end
  | Recorded g =>
      match position (fun x => bool_decide (x = g)) (lr_in_flight r) with
      | Some i => (false, mkRun (record_auth_failure (gu_peer g) (gu_at_ms g) (lr_windows r)) (delete i (lr_in_flight r)))
      | None => (false, r)
      end
  | Counted peer now_ms => (false, mkRun (check_unauthenticated_request peer now_ms (lr_windows r)).2 (lr_in_flight r))
  end.
Definition step_peer (s : LimiterStep) : str :=
  match s with Checked g | Recorded g => gu_peer g | Counted peer _ => peer end.
Definition step_at (s : LimiterStep) : Z :=
  match s with Checked g | Recorded g => gu_at_ms g | Counted _ now_ms => now_ms end.

(** The wrong guesses of [peer] with an instant from [from] on that are tried, and
    how many wrong guesses of it are in flight at once. *)
Fixpoint guesses_tried (peer : str) (from : Z) (steps : list LimiterStep) (r : LimiterRun) : nat :=
  match steps with
  | [] => 0
  | s :: steps =>
      let '(tried, r) := limiter_step s r in
      (if tried && bool_decide (step_peer s = peer) && (from <=? step_at s)%Z then 1 else 0)
      + guesses_tried peer from steps r
  end.
Definition in_flight_of (peer : str) (r : LimiterRun) : nat :=
  length (List.filter (fun g => bool_decide (gu_peer g = peer)) (lr_in_flight r)).
Fixpoint crowd (peer : str) (steps : list LimiterStep) (r : LimiterRun) : nat :=
  match steps with
  | [] => in_flight_of peer r
  | s :: steps => Nat.max (in_flight_of peer r) (crowd peer steps (limiter_step s r).2)
  end.
End limits.

(** * Properties *)

Section bounds.
Context (limits : RemoteGatewayPeerLimits).
Context (Hfail : (0 < pl_auth_failures_per_window limits <= u32_max)%Z).
Context (Hwindow : (0 < pl_window_ms limits <= i64_max)%Z).

Lemma window_ms_exact : window_ms limits = pl_window_ms limits.
Proof. unfold window_ms. lia. Qed.
Lemma window_over_spec w now :
  window_over limits w now = true <-> (pw_window_started_at_ms w + pl_window_ms limits <= now)%Z.
Proof.
  unfold window_over. rewrite window_ms_exact, Z.leb_le. unfold i64_saturating_sub, i64_clamp, i64_min, i64_max in *.
  lia.
Qed.
Lemma current_over w now :
  window_over limits w now = true -> current_window limits w now = mkPeerWindow now 0 0 now.
Proof. intros E. unfold current_window. by rewrite E. Qed.
Lemma current_not_over w now :
  window_over limits w now = false ->
  current_window limits w now =
    mkPeerWindow (pw_window_started_at_ms w) (pw_requests w) (pw_auth_failures w) now.
Proof. intros E. unfold current_window. by rewrite E. Qed.
Lemma current_idem w now :
  current_window limits (current_window limits w now) now = current_window limits w now.
Proof.
  destruct (window_over limits w now) eqn:E.
  - rewrite (current_over w now E), current_not_over; [done|].
    apply not_true_iff_false. rewrite window_over_spec. simpl. lia.
  - rewrite (current_not_over w now E), current_not_over; [done|].
    apply not_true_iff_false. apply not_true_iff_false in E. by rewrite window_over_spec in *.
Qed.

Definition roomy (peer : str) (windows : PeerWindows) : Prop :=
  is_Some (windows !! peer) \/ size windows < pl_max_tracked_peers limits.
Lemma make_room_roomy peer now windows : roomy peer windows -> make_room limits peer now windows = windows.
Proof.
  unfold make_room. intros [[w Hw]|Hs].
  - by rewrite Hw, bool_decide_eq_false_2.
  - destruct (Nat.leb_spec (pl_max_tracked_peers limits) (size windows)); [lia|]. by rewrite andb_false_r.
Qed.
Lemma with_window_roomy {T} peer now (apply : PeerWindow -> T * PeerWindow) windows :
  roomy peer windows ->
  with_window limits peer now apply windows =
    let '(result, w) := apply (current_window limits (default PeerWindow_default (windows !! peer)) now) in
    (result, <[peer := w]> windows).
Proof. intros Hr. unfold with_window. by rewrite make_room_roomy. Qed.

(** ** One peer *)

(** A step of one peer on its window, with [n] of its wrong guesses in flight. *)
Definition peer_step (s : LimiterStep) (w : PeerWindow) (n : nat) : bool * PeerWindow * nat :=
  let v := current_window limits w (step_at s) in
  match s with
  | Checked g =>
      if (pl_auth_failures_per_window limits <=? pw_auth_failures v)%Z then (false, v, n)
      else (negb (gu_right g), v, if gu_right g then n else S n)
  | Recorded g => match n with 0 => (false, w, 0) | S n => (false, (count_failure v).2, n) end
  | Counted _ now_ms => (false, (count_request limits now_ms v).2, n)
  end.
Fixpoint peer_tries (from : Z) (steps : list LimiterStep) (w : PeerWindow) (n : nat) : Z :=
  match steps with
  | [] => 0
  | s :: steps =>
      let '(tried, w, n) := peer_step s w n in
      (if tried && (from <=? step_at s)%Z then 1 else 0) + peer_tries from steps w n
  end.
Fixpoint peer_crowd (steps : list LimiterStep) (w : PeerWindow) (n : nat) : nat :=
  match steps with
  | [] => n
  | s :: steps => let '(_, w, m) := peer_step s w n in Nat.max n (peer_crowd steps w m)
  end.

Notation budget := (pl_auth_failures_per_window limits).
Notation span := (pl_window_ms limits).

(** [t] guesses of this window were tried: each is counted or in flight, unless
    the budget is used up. *)
Definition accounted (t : Z) (w : PeerWindow) (n : nat) : Prop :=
  (0 <= pw_auth_failures w)%Z /\ (t <= pw_auth_failures w + Z.of_nat n \/ budget <= pw_auth_failures w)%Z.

(** A step in the window counts on; the first step past its end opens a new one. *)
Lemma peer_step_spec s w n t :
  accounted t w n ->
  let '(tried, w', n') := peer_step s w n in
  let t' := (if tried then 1 else 0)%Z in
  n' <= S n /\ (tried = true -> n' = S n) /\
  if window_over limits w (step_at s)
  then (pw_window_started_at_ms w' = step_at s /\ accounted t' w' n' /\ (t' <= budget - 1 + Z.of_nat n')%Z) \/
       (tried = false /\ w' = w /\ n' = n)
  else pw_window_started_at_ms w' = pw_window_started_at_ms w /\ accounted (t + t') w' n' /\
       (tried = true -> t + 1 <= budget - 1 + Z.of_nat n')%Z.
Proof.
  intros [H0 Ht]. unfold peer_step, accounted, u32_saturating_add in *.
  destruct (window_over limits w (step_at s)) eqn:Eo.
  - rewrite (current_over _ _ Eo). destruct s as [g|g|peer now]; cbn [step_at].
    + cbn [pw_auth_failures]. destruct (Z.leb_spec budget 0); [lia|]. destruct (gu_right g); cbn -[Z.of_nat];
        (split; [lia|]; split; [done|]; left; lia).
    + destruct n as [|n]; [by split_and!; [lia|..|right]|]. cbn -[Z.of_nat]. unfold u32_saturating_add.
      split; [lia|]. split; [done|]. left. lia.
    + unfold count_request. cbn -[Z.of_nat]. destruct (Z.leb_spec budget 0); [lia|].
      destruct (_ <? _)%Z; cbn -[Z.of_nat]; (split; [lia|]; split; [done|]; left; lia).
  - rewrite (current_not_over _ _ Eo). destruct s as [g|g|peer now]; cbn [step_at].
    + cbn [pw_auth_failures]. destruct (Z.leb_spec budget (pw_auth_failures w)); [cbn -[Z.of_nat]; split_and!; try done; lia|].
      destruct (gu_right g); cbn -[Z.of_nat]; split_and!; try done; lia.
    + destruct n as [|n]; [cbn; split_and!; try done; lia|]. cbn -[Z.of_nat]. unfold u32_saturating_add.
      split_and!; try done; lia.
    + unfold count_request. cbn [pw_auth_failures]. destruct (Z.leb_spec budget (pw_auth_failures w));
        [cbn -[Z.of_nat]; split_and!; try done; lia|].
      destruct (_ <? _)%Z; cbn -[Z.of_nat]; split_and!; try done; lia.
Qed.

Lemma peer_crowd_ge steps w n : n <= peer_crowd steps w n.
Proof. destruct steps as [|s steps]; cbn [peer_crowd]; [done|]. destruct (peer_step s w n) as [[tried w'] m]. lia. Qed.

(** What is tried in the rest of a window, and of the next, before [end_ms]. *)
Lemma peer_tries_bound from end_ms k steps w n t :
  Forall (fun s => step_at s < end_ms)%Z steps -> accounted t w n -> (t <= budget - 1 + Z.of_nat k)%Z ->
  (end_ms <= pw_window_started_at_ms w + 2 * span)%Z -> peer_crowd steps w n <= k ->
  (peer_tries from steps w n <= (budget - 1 + Z.of_nat k - t) +
    if (end_ms <=? pw_window_started_at_ms w + span)%Z then 0 else budget - 1 + Z.of_nat k)%Z.
Proof.
  intros Hs. revert w n t. induction Hs as [|s steps Hat _ IH]; intros w n t Ha Ht Hend Hk; cbn [peer_tries peer_crowd] in *.
  { destruct (_ <=? _)%Z; lia. }
  pose proof (peer_step_spec s w n t Ha) as Hstep. destruct (peer_step s w n) as [[tried w'] n'].
  pose proof (peer_crowd_ge steps w' n'). destruct Hstep as (_ & _ & Hstep).
  assert (Hc : ((if tried && (from <=? step_at s) then 1 else 0) <= if tried then 1 else 0)%Z)
    by (destruct tried, (from <=? step_at s)%Z; done).
  assert (Hone : (0 <= if tried then 1 else 0)%Z) by by destruct tried.
  destruct (window_over limits w (step_at s)) eqn:Eo.
  - apply window_over_spec in Eo. destruct Hstep as [(Hw & Ha' & Hb)|(-> & -> & ->)].
    + specialize (IH w' n' _ Ha' ltac:(lia) ltac:(lia) ltac:(lia)). rewrite Hw in IH.
      destruct (Z.leb_spec end_ms (step_at s + span)); [|lia].
      destruct (Z.leb_spec end_ms (pw_window_started_at_ms w + span)); lia.
    + specialize (IH w n t Ha Ht Hend ltac:(lia)). cbn [andb] in *. lia.
  - destruct Hstep as (Hw & Ha' & Hb).
    assert (Ht' : (t + (if tried then 1 else 0) <= budget - 1 + Z.of_nat k)%Z) by (destruct tried; [specialize (Hb eq_refl)|]; lia).
    specialize (IH w' n' _ Ha' Ht' ltac:(lia) ltac:(lia)). rewrite Hw in IH. lia.
Qed.

Lemma peer_tries_interval from k steps w n :
  (0 <= pw_auth_failures w)%Z -> Forall (fun s => step_at s < from + span)%Z steps -> peer_crowd steps w n <= k ->
  (peer_tries from steps w n <= 2 * (budget - 1 + Z.of_nat k))%Z.
Proof.
  intros Hw Hs. revert w n Hw. induction Hs as [|s steps Hat Hs IH]; intros w n Hw Hk; [cbn; lia|].
  assert (Ha : accounted 0 w n) by (split; lia).
  destruct (decide (from + span <= pw_window_started_at_ms w + 2 * span)%Z) as [Hle|Hgt].
  { assert (Hall : Forall (fun s => step_at s < from + span)%Z (s :: steps)) by by constructor.
    pose proof (peer_tries_bound from _ k _ w n 0 Hall Ha ltac:(lia) Hle Hk) as Hb. destruct (_ <=? _)%Z; lia. }
  cbn [peer_tries peer_crowd] in *. pose proof (peer_step_spec s w n 0 Ha) as Hstep.
  destruct (peer_step s w n) as [[tried w'] n']. pose proof (peer_crowd_ge steps w' n') as Hge.
  destruct Hstep as (_ & _ & Hstep). destruct (window_over limits w (step_at s)) eqn:Eo.
  - apply window_over_spec in Eo. destruct Hstep as [(Hw' & Ha' & Hb)|(-> & -> & ->)].
    + destruct (tried && (from <=? step_at s)%Z) eqn:Et; [|apply IH; [apply Ha'|lia]].
      apply andb_true_iff in Et as [-> Hf%Z.leb_le].
      pose proof (peer_tries_bound from _ k _ w' n' _ Hs Ha' ltac:(lia) ltac:(lia) ltac:(lia)) as Hbound.
      rewrite Hw' in Hbound. destruct (Z.leb_spec (from + span) (step_at s + span)); lia.
    + apply IH; [done|lia].
  - destruct Hstep as (Hw' & Ha' & _). assert ((from <=? step_at s)%Z = false) as ->.
    { apply Z.leb_gt. apply not_true_iff_false in Eo. rewrite window_over_spec in Eo. lia. }
    rewrite andb_false_r. apply IH; [apply Ha'|lia].
Qed.

End bounds.

(** ** All peers *)

(** Peers that fit in the map, the ones still to come included. *)
Definition all_peers (steps : list LimiterStep) (windows : PeerWindows) : gset (list N) :=
  dom windows ∪ list_to_set (step_peer <$> steps).
Definition windows_typed (windows : PeerWindows) : Prop :=
  forall peer w, windows !! peer = Some w -> (0 <= pw_auth_failures w)%Z.
(** A record of a guess that is not in flight, which no request makes. *)
Definition idle (s : LimiterStep) (r : LimiterRun) : bool :=
  match s with Recorded g => bool_decide (g ∉ lr_in_flight r) | _ => false end.
Definition window_of (peer : str) (r : LimiterRun) : PeerWindow := default PeerWindow_default (lr_windows r !! peer).

Section peers.
Context (limits : RemoteGatewayPeerLimits).
Context (Hfail : (0 < pl_auth_failures_per_window limits <= u32_max)%Z).
Context (Hwindow : (0 < pl_window_ms limits <= i64_max)%Z).

(** The steps of one peer that have an effect. *)
Fixpoint steps_of (peer : str) (steps : list LimiterStep) (r : LimiterRun) : list LimiterStep :=
  match steps with
  | [] => []
  | s :: steps =>
      (if bool_decide (step_peer s = peer) && negb (idle s r) then [s] else [])
      ++ steps_of peer steps (limiter_step limits s r).2
  end.

Lemma all_peers_roomy s steps windows :
  size (all_peers (s :: steps) windows) <= pl_max_tracked_peers limits -> roomy limits (step_peer s) windows.
Proof.
  intros Hs. destruct (windows !! step_peer s) eqn:E; [left; by eexists|right].
  rewrite <- size_dom. eapply Nat.lt_le_trans; [|exact Hs]. apply subset_size. unfold all_peers. split.
  - set_solver.
  - intros Hsub. assert (step_peer s ∈ dom windows) as Hin; [|apply elem_of_dom in Hin as [? ?]; congruence].
    apply Hsub. set_solver.
Qed.

Lemma in_flight_cons peer g windows rest :
  in_flight_of peer (mkRun windows (g :: rest)) =
  (if bool_decide (gu_peer g = peer) then 1 else 0) + in_flight_of peer (mkRun windows rest).
Proof. unfold in_flight_of. cbn. by destruct (bool_decide (gu_peer g = peer)). Qed.
Lemma in_flight_delete peer g i windows rest windows' :
  position (fun x => bool_decide (x = g)) rest = Some i ->
  in_flight_of peer (mkRun windows rest) =
  (if bool_decide (gu_peer g = peer) then 1 else 0) + in_flight_of peer (mkRun windows' (delete i rest)).
Proof.
  intros (x & Hx & ->%bool_decide_eq_true & _)%position_Some.
  rewrite <- in_flight_cons. unfold in_flight_of. cbn [lr_in_flight]. by rewrite <- (delete_Permutation rest i g Hx).
Qed.
Lemma position_in (g : Guess) (l : list Guess) : position (fun x => bool_decide (x = g)) l = None <-> g ∉ l.
Proof.
  rewrite position_None, Forall_forall. split.
  - intros H Hin. specialize (H g Hin). by apply bool_decide_eq_false in H.
  - intros H x Hx. apply bool_decide_eq_false. by intros ->.
Qed.

(** The window of another peer is left alone. *)
Lemma limiter_step_other peer s r :
  roomy limits (step_peer s) (lr_windows r) -> step_peer s <> peer ->
  let r' := (limiter_step limits s r).2 in
  window_of peer r' = window_of peer r /\ in_flight_of peer r' = in_flight_of peer r.
Proof.
  destruct r as [windows flying]. unfold window_of.
  intros Hr Hp. destruct s as [g|g|q now]; cbn [limiter_step step_peer lr_windows lr_in_flight] in *; cbv zeta.
  - unfold check_auth_attempt, check_auth_window. rewrite with_window_roomy by done.
    destruct (_ <=? _)%Z; cbn [snd lr_windows lr_in_flight]; rewrite lookup_insert_ne by done; [done|].
    destruct (gu_right g); [done|]. rewrite !in_flight_cons. by rewrite bool_decide_eq_false_2.
  - destruct (position _ flying) as [i|] eqn:E; [|done]. unfold record_auth_failure, count_failure. rewrite with_window_roomy by done.
    cbn [snd lr_windows]. rewrite lookup_insert_ne by done. split; [done|].
    rewrite (in_flight_delete peer g i windows flying windows E). by rewrite bool_decide_eq_false_2.
  - unfold check_unauthenticated_request. rewrite with_window_roomy by done.
    destruct (count_request _ _ _). cbn [snd lr_windows]. by rewrite lookup_insert_ne.
Qed.
(** Its own goes the step of its peer. *)
Lemma limiter_step_own s r :
  roomy limits (step_peer s) (lr_windows r) -> idle s r = false ->
  let peer := step_peer s in
  let '(tried, r') := limiter_step limits s r in
  peer_step limits s (window_of peer r) (in_flight_of peer r) = (tried, window_of peer r', in_flight_of peer r').
Proof.
  destruct r as [windows flying]. unfold window_of.
  intros Hr Hi. destruct s as [g|g|q now]; cbn [limiter_step step_peer lr_windows lr_in_flight idle peer_step step_at] in *; cbv zeta.
  - unfold check_auth_attempt, check_auth_window. rewrite with_window_roomy by done.
    destruct (_ <=? _)%Z; cbn [lr_windows lr_in_flight]; rewrite lookup_insert_eq; [done|].
    destruct (gu_right g); [done|]. rewrite !in_flight_cons. by rewrite bool_decide_eq_true_2.
  - apply bool_decide_eq_false in Hi. destruct (position _ flying) as [i|] eqn:E; [|by apply position_in in E].
    unfold record_auth_failure, count_failure. rewrite with_window_roomy by done. cbn [snd lr_windows].
    rewrite lookup_insert_eq, (in_flight_delete (gu_peer g) g i windows flying windows E). by rewrite bool_decide_eq_true_2.
  - unfold check_unauthenticated_request. rewrite with_window_roomy by done.
    destruct (count_request _ _ _) as [d w]. cbn [snd lr_windows]. by rewrite lookup_insert_eq.
Qed.
Lemma idle_step s r : idle s r = true -> limiter_step limits s r = (false, r).
Proof.
  destruct s as [g|g|q now]; try done. cbn [idle limiter_step]. intros H%bool_decide_eq_true.
  apply position_in in H. by rewrite H.
Qed.

Lemma peers_stay s steps r :
  size (all_peers (s :: steps) (lr_windows r)) <= pl_max_tracked_peers limits ->
  size (all_peers steps (lr_windows (limiter_step limits s r).2)) <= pl_max_tracked_peers limits.
Proof.
  intros Hs. pose proof (all_peers_roomy _ _ _ Hs) as Hr. etrans; [|exact Hs]. apply subseteq_size. unfold all_peers.
  assert (Hd : dom (lr_windows (limiter_step limits s r).2) ⊆ dom (lr_windows r) ∪ {[step_peer s]}); [|set_solver].
  destruct s as [g|g|q now]; cbn [limiter_step step_peer] in *.
  - unfold check_auth_attempt, check_auth_window. rewrite with_window_roomy by done.
    destruct (_ <=? _)%Z; cbn [snd lr_windows]; rewrite dom_insert; set_solver.
  - destruct (position _ _); [|set_solver]. unfold record_auth_failure, count_failure. rewrite with_window_roomy by done.
    cbn [snd lr_windows]. rewrite dom_insert. set_solver.
  - unfold check_unauthenticated_request. rewrite with_window_roomy by done. destruct (count_request _ _ _).
    cbn [snd lr_windows]. rewrite dom_insert. set_solver.
Qed.

Lemma guesses_tried_peer peer from steps r :
  size (all_peers steps (lr_windows r)) <= pl_max_tracked_peers limits ->
  Z.of_nat (guesses_tried limits peer from steps r) =
    peer_tries limits from (steps_of peer steps r) (window_of peer r) (in_flight_of peer r) /\
  peer_crowd limits (steps_of peer steps r) (window_of peer r) (in_flight_of peer r) <= crowd limits peer steps r.
Proof.
  revert r. induction steps as [|s steps IH]; intros r Hs; [done|]. cbn [guesses_tried steps_of crowd].
  pose proof (all_peers_roomy _ _ _ Hs) as Hr. destruct (IH _ (peers_stay _ _ _ Hs)) as [IH1 IH2]. clear IH.
  destruct (idle s r) eqn:Ei.
  { rewrite (idle_step _ _ Ei) in *. cbn [snd negb andb] in *. rewrite andb_false_r. cbn [app]. split; [done|lia]. }
  rewrite andb_true_r. destruct (bool_decide_reflect (step_peer s = peer)) as [<-|Hp]; cbn [app negb andb].
  - pose proof (limiter_step_own s r Hr Ei) as Hown. cbv zeta in Hown. cbn [peer_tries peer_crowd].
    destruct (limiter_step limits s r) as [tried r']. rewrite Hown. cbn [snd] in *. rewrite andb_true_r.
    destruct (tried && (from <=? step_at s)%Z); lia.
  - destruct (limiter_step_other peer s r Hr Hp) as [Hw Hn]. destruct (limiter_step limits s r) as [tried r'].
    cbn [snd] in *. rewrite Hw, Hn in *. rewrite andb_false_r. cbn [andb]. split; [done|lia].
Qed.

Lemma steps_of_elem peer steps r s : s ∈ steps_of peer steps r -> s ∈ steps.
Proof.
  revert r. induction steps as [|x steps IH]; intros r; [done|]. cbn [steps_of].
  intros [H|H%IH]%elem_of_app; [|by right]. destruct (_ && _); [|by apply not_elem_of_nil in H].
  apply list_elem_of_singleton in H as ->. by left.
Qed.

(** C20. A peer cannot guess much faster than twice its budget. The check, the try of
    the secret and the record of a failure are separate steps, which requests
    interleave as they like; of the secrets one peer gets wrong with instants in
    any stretch of time as long as a window, at most twice the budget are tried,
    and twice the guesses it has in flight at once beyond the first - so exactly
    twice the budget when its requests come one after the other, and no bound that
    the limiter alone sets when they do not. Other peers do whatever they like, as
    long as the peers seen fit in the map. *)
Theorem wrong_guesses_are_bounded (peer : str) (steps : list LimiterStep) (r : LimiterRun) (from : Z) :
  windows_typed (lr_windows r) ->
  size (all_peers steps (lr_windows r)) <= pl_max_tracked_peers limits ->
  Forall (fun s => step_at s < from + pl_window_ms limits)%Z steps ->
  (Z.of_nat (guesses_tried limits peer from steps r) <=
   2 * (pl_auth_failures_per_window limits - 1 + Z.of_nat (crowd limits peer steps r)))%Z.
Proof.
  intros Ht Hs Hg. destruct (guesses_tried_peer peer from steps r Hs) as [-> Hc].
  apply (peer_tries_interval limits Hfail Hwindow); [| |exact Hc].
  - unfold window_of. destruct (lr_windows r !! peer) eqn:E; [by eapply Ht|done].
  - apply Forall_forall. intros s Hin%steps_of_elem. rewrite Forall_forall in Hg. by apply Hg.
Qed.
End peers.

(** The map is bounded whatever comes. *)
Lemma min_by_key_elem {A} (key : A -> Z) l x : min_by_key key l = Some x -> x ∈ l.
Proof.
  revert x. induction l as [|y l IH]; intros x; cbn [min_by_key]; [done|].
  destruct (min_by_key key l) as [z|]; [|intros [= <-]; by left].
  destruct (_ <? _)%Z; intros [= <-]; [right; by apply IH|by left].
Qed.
Lemma min_by_key_none {A} (key : A -> Z) l : min_by_key key l = None -> l = [].
Proof. destruct l as [|x l]; [done|]. cbn [min_by_key]. destruct (min_by_key key l); [|done]. by destruct (_ <? _)%Z. Qed.
Lemma tracked_peers_are_bounded {T} limits peer now (apply : PeerWindow -> T * PeerWindow) windows :
  0 < pl_max_tracked_peers limits -> size windows <= pl_max_tracked_peers limits ->
  size (with_window limits peer now apply windows).2 <= pl_max_tracked_peers limits.
Proof.
  intros Hm Hs. unfold with_window. destruct (apply _) as [result w]. cbn [snd].
  rewrite map_size_insert. unfold make_room. destruct (windows !! peer) as [v|] eqn:E.
  { rewrite bool_decide_eq_false_2 by done. cbn [andb]. by rewrite E. }
  rewrite bool_decide_eq_true_2 by done. cbn [andb].
  destruct (Nat.leb_spec (pl_max_tracked_peers limits) (size windows)); [|rewrite E; simpl; lia].
  set (kept := filter _ windows).
  assert (Hk : size kept <= size windows) by (apply map_size_filter).
  destruct (Nat.leb_spec (pl_max_tracked_peers limits) (size kept)).
  - destruct (min_by_key _ _) as [[oldest v]|] eqn:Em.
    + apply min_by_key_elem, elem_of_map_to_list in Em. destruct (delete oldest kept !! peer); simpl;
        rewrite map_size_delete_Some by (by eexists); lia.
    + apply min_by_key_none in Em. apply (f_equal length) in Em. rewrite length_map_to_list in Em. simpl in Em. lia.
  - destruct (kept !! peer); simpl; lia.
Qed.
