(* ===== verification/RemoteGateway.v ===== *)
(** The remote gateway between a client's requests and the trust store
    (remote/src/gateway.rs): the rate-limited endpoints, one-time WebSocket
    tickets, the table of live connections, the device-management requests with
    their authorization, and replies kept for repeated requests. *)
From stdpp Require Import prelude strings list gmap.
From Stdlib Require Import NArith ZArith Lia.
From S2P Require Import Prelude CoreTypes Storage Ir Json Trust LanPairing PeerLimiter.

(** ** Operations by name *)

Inductive RemoteOperationKind : Type :=
| OpHandshake | OpHealth | OpInfo | OpCatchUp | OpAgentSession | OpWorkspaceFile | OpGit | OpTerminal
| OpProviderSettings | OpDeviceManagement | OpScheduledTasks | OpAutomation | OpUnsupported.
#[export] Instance RemoteOperationKind_eq_dec : EqDecision RemoteOperationKind.
Proof. solve_decision. Defined.

Definition operation_from_wire : str -> option RemoteOperationKind :=
  named [("agent_session", OpAgentSession); ("workspace_file", OpWorkspaceFile); ("git", OpGit);
         ("terminal", OpTerminal); ("provider_settings", OpProviderSettings);
         ("device_management", OpDeviceManagement); ("scheduled_tasks", OpScheduledTasks);
         ("automation", OpAutomation)].
Definition mutation_requires_idempotency (kind : str) : bool :=
  bool_decide (kind ∈ lit <$>
    ["open_workspace"; "delete_workspace"; "set_desired_runtime"; "cancel_runtime_switch"; "send_message";
     "send_message_with_mentions"; "set_session_access"; "delegate_session"; "control_team_task";
     "present_team"; "acknowledge_team_events"; "continue_turn"; "interrupt"; "resolve_permission";
     "resolve_elicitation"; "attach_runtime"; "detach_runtime"; "file_write"; "file_delete"; "file_rename";
     "delete_project"; "git_worktree_rename_branch"; "file_create_directory"; "file_copy"; "git_stage";
     "git_unstage"; "git_revert"; "git_commit"; "git_branch_create"; "git_branch_checkout";
     "git_remote_action"; "terminal_create"; "terminal_write"; "terminal_resize"; "terminal_kill";
     "run_health_probes"; "create_custom_agent"; "delete_custom_agent"; "create_model_provider_profile";
     "update_model_provider_profile"; "create_agent_runtime_profile"; "update_agent_runtime_profile";
     "create_agent_model_provider_binding"; "update_agent_model_provider_binding";
     "mutate_provider_credential_secret"; "set_agent_model_provider_default"; "create_pairing_offer";
     "cancel_pairing_offer"; "revoke_device"]).
Definition mutation_event_domain (operation : RemoteOperationKind) : option str :=
  match operation with
  | OpWorkspaceFile => Some (lit "file")
  | OpGit => Some (lit "git")
  | OpProviderSettings => Some (lit "provider")
  | OpDeviceManagement => Some (lit "device")
  | OpScheduledTasks => Some (lit "scheduled")
  | OpAutomation => Some (lit "automation")
  | _ => None
  end.

(** ** Topics a device may follow *)

Definition level_permits (level : RemoteDevicePermissionLevel) (action : RemoteActionClass) : bool :=
  bool_decide (action ∈ remote_permissions_for_level level).
Definition gateway_topics : list str :=
  lit <$> ["agent_session"; "agent_notification"; "sidebar"; "terminal"; "git"; "file"; "provider"; "device";
           "runtime"].
Definition subscription_topic_permitted (level : RemoteDevicePermissionLevel) (topic : str) : bool :=
  match named [("agent_session", ReadAgentSession); ("agent_notification", ReadAgentSession);
               ("runtime", ReadAgentSession); ("sidebar", ReadAgentSession); ("terminal", ReadProject);
               ("file", ReadProject); ("git", ReadProject); ("provider", ReadProviderSettings);
               ("device", ReadDeviceManagement)] topic with
  | Some action => level_permits level action
  | None => false
  end.
Definition domain_event_permitted (level : RemoteDevicePermissionLevel) (channel : str) : bool :=
  match named [("file", ReadProject); ("git", ReadProject); ("sidebar", ReadAgentSession);
               ("provider", ReadProviderSettings); ("device", ReadDeviceManagement)] channel with
  | Some action => level_permits level action
  | None => false
  end.

Record RemoteStreamCursor : Type := mkCursor { cu_domain : str; cu_generation : Z; cu_cursor : Z }.
Record RemoteResyncRequired : Type := mkResync {
  rs_domain : str;
  rs_generation : Z;
  rs_reason : str;
  rs_authoritative_operation : str
}.
Definition subscribe_topic (level : RemoteDevicePermissionLevel) (cursors : list RemoteStreamCursor)
    (acc : gset (list N) * list str * list RemoteResyncRequired) (topic : str)
  : gset (list N) * list str * list RemoteResyncRequired :=
  let '(active, accepted, resync) := acc in
  if bool_decide (topic ∈ gateway_topics) then
    if negb (subscription_topic_permitted level topic) then acc else
    let resync := match List.find (fun c => bool_decide (cu_domain c = topic)) cursors with
                  | Some cursor =>
                      if (cu_generation cursor =? 0)%Z then resync
                      else resync ++ [mkResync topic (cu_generation cursor)
                             (lit "route handoff requires an authoritative projection refresh") topic]
                  | None => resync
                  end in
    ({[topic]} ∪ active, accepted ++ [topic], resync)
  else (active, accepted, resync ++ [mkResync topic 0 (lit "topic is not supported by this server") (lit "info")]).
Definition update_subscriptions (level : RemoteDevicePermissionLevel) (topics : list str)
    (cursors : list RemoteStreamCursor) (active : gset (list N))
  : gset (list N) * list str * list RemoteResyncRequired :=
  foldl (subscribe_topic level cursors) (active, [], []) topics.

(** ** The gateway's state *)

Record WsTicketRecord : Type := mkTicket {
  wt_proof : RemoteAuthProof;
  wt_auth : RemoteAuthContext;
  wt_expires_at_ms : Z;
  wt_proof_challenge : str;
  wt_relay_authenticated : bool
}.
Record IdempotencyCacheKey : Type := mkCacheKey { ck_device_id : ident; ck_key : str }.
#[export] Instance IdempotencyCacheKey_eq_dec : EqDecision IdempotencyCacheKey.
Proof. solve_decision. Defined.
#[export] Instance IdempotencyCacheKey_countable : Countable IdempotencyCacheKey.
Proof.
  refine (inj_countable (fun k => (ck_device_id k, ck_key k)) (fun p => Some (mkCacheKey p.1 p.2)) _).
  by intros [].
Defined.

Record RemoteProtocolError : Type := mkProtocolError {
  rp_error : VibexError;
  rp_retryable : bool;
  rp_retry_after_ms : option Z
}.
Definition RemoteProtocolError_from_error (e : VibexError) : RemoteProtocolError :=
  mkProtocolError e (bool_decide (err_category e = Process) || bool_decide (err_category e = Storage)
                     || bool_decide (err_category e = Remote)) None.
Record RemoteRpcResultMetadata : Type := mkRpcMetadata {
  md_revision : option str;
  md_generation : option Z;
  md_cursor : option Z;
  md_resync_required : bool
}.
Definition RemoteRpcResultMetadata_default : RemoteRpcResultMetadata := mkRpcMetadata None None None false.
Record RemoteRpcResponseV2 : Type := mkRpcResponse {
  rr_request_id : ident;
  rr_correlation_id : option ident;
  rr_payload : option json;
  rr_error : option RemoteProtocolError;
  rr_metadata : RemoteRpcResultMetadata;
  rr_completed_at_ms : Z
}.
Record RemoteMutationContract : Type := mkMutation {
  mu_idempotency_key : str;
  mu_expected_revision : option str;
  mu_expected_generation : option Z
}.
Record RemoteRpcRequestV2 : Type := mkRpcRequest {
  rq_request_id : ident;
  rq_correlation_id : option ident;
  rq_operation : str;
  rq_mutation : option RemoteMutationContract;
  rq_payload : option json
}.
Record CachedRpcResponse : Type := mkCached {
  ca_response : RemoteRpcResponseV2;
  ca_created_at_ms : Z;
  ca_grant_revision : Z
}.

Inductive RemoteCloseCode : Type :=
| CloseNormal | CloseProtocolError | CloseUnsupportedVersion | CloseAuthenticationRequired
| CloseDeviceRevoked | ClosePolicyViolation | CloseServerShutdown | CloseUnknown.
Inductive RemoteRetryClass : Type :=
| RetryNever | RetryReconnect | RetryRefreshAuthentication | RetryAuthoritativeResync
| RetryWithIdempotencyKey | RetryUnknown.
Record RemoteCloseReason : Type := mkCloseReason {
  cl_code : RemoteCloseCode;
  cl_message : str;
  cl_retry : RemoteRetryClass
}.
(** A live connection, and why it was told to close. *)
Record ActiveConnection : Type := mkConnection {
  ac_connection_device_id : ident;
  ac_disconnect : option RemoteCloseReason
}.
Record RemoteEventV2 : Type := mkRemoteEvent {
  re_channel : str;
  re_generation : Z;
  re_sequence : Z;
  re_correlation_id : option ident;
  re_payload : option json;
  re_emitted_at_ms : Z
}.
Record GatewayConfig : Type := mkGatewayConfig {
  gc_peer_limits : RemoteGatewayPeerLimits;
  gc_ws_ticket_ttl_ms : Z;
  gc_max_connections : nat;
  gc_service_name : str;
  gc_identity : RemoteIdentity;
  gc_direct_candidates : list RemotePairingCandidate;
  gc_relay_candidate : option RemotePairingCandidate;
  gc_session_epoch : Z
}.
Record GatewayState : Type := mkGatewayState {
  gs_db : TrustDb;
  gs_tickets : gmap (list N) WsTicketRecord;
  gs_connections : gmap (list N) ActiveConnection;
  gs_idempotency : gmap IdempotencyCacheKey CachedRpcResponse;
  gs_sequences : gmap (Z * list N) Z;
  gs_events : list RemoteEventV2;
  gs_windows : PeerWindows;
  gs_lan : LanPairingCoordinator
}.
Definition gw_call (A : Type) : Type := db_call GatewayState A.
Definition set_db (db : TrustDb) (s : GatewayState) : GatewayState :=
  mkGatewayState db (gs_tickets s) (gs_connections s) (gs_idempotency s) (gs_sequences s) (gs_events s)
    (gs_windows s) (gs_lan s).
Definition set_tickets (tickets : gmap (list N) WsTicketRecord) (s : GatewayState) : GatewayState :=
  mkGatewayState (gs_db s) tickets (gs_connections s) (gs_idempotency s) (gs_sequences s) (gs_events s)
    (gs_windows s) (gs_lan s).
Definition set_connections (connections : gmap (list N) ActiveConnection) (s : GatewayState) : GatewayState :=
  mkGatewayState (gs_db s) (gs_tickets s) connections (gs_idempotency s) (gs_sequences s) (gs_events s)
    (gs_windows s) (gs_lan s).
Definition set_idempotency (cache : gmap IdempotencyCacheKey CachedRpcResponse) (s : GatewayState)
  : GatewayState :=
  mkGatewayState (gs_db s) (gs_tickets s) (gs_connections s) cache (gs_sequences s) (gs_events s)
    (gs_windows s) (gs_lan s).
Definition push_event (key : Z * list N) (event : RemoteEventV2) (s : GatewayState) : GatewayState :=
  mkGatewayState (gs_db s) (gs_tickets s) (gs_connections s) (gs_idempotency s)
    (<[key := re_sequence event]> (gs_sequences s)) (gs_events s ++ [event]) (gs_windows s) (gs_lan s).
Definition set_windows (windows : PeerWindows) (s : GatewayState) : GatewayState :=
  mkGatewayState (gs_db s) (gs_tickets s) (gs_connections s) (gs_idempotency s) (gs_sequences s) (gs_events s)
    windows (gs_lan s).
Definition set_lan (lan : LanPairingCoordinator) (s : GatewayState) : GatewayState :=
  mkGatewayState (gs_db s) (gs_tickets s) (gs_connections s) (gs_idempotency s) (gs_sequences s) (gs_events s)
    (gs_windows s) lan.
(** A call of the trust service on the gateway's database. *)
Definition on_db {A} (c : trust_call A) : gw_call A := fun s =>
  let '(result, db) := c (gs_db s) in (result, set_db db s).
Definition now_ms : gw_call Z := db_read (fun s => tr_clock (gs_db s)).

(** ** Live connections (ConnectionRegistry) *)

Definition connection_limit : VibexError :=
  remote_error "remote_gateway_connection_limit" "RemoteGateway connection limit was reached".
Definition register (connection_id device_id : ident) (max_connections : nat) : gw_call unit := fun s =>
  if (max_connections <=? size (gs_connections s))%nat then (Err connection_limit, s)
  else (Ok tt, set_connections (<[connection_id := mkConnection device_id None]> (gs_connections s)) s).
Definition unregister (connection_id : ident) (s : GatewayState) : GatewayState :=
  set_connections (delete connection_id (gs_connections s)) s.
Definition told (reason : RemoteCloseReason) (c : ActiveConnection) : ActiveConnection :=
  mkConnection (ac_connection_device_id c) (Some reason).
Definition disconnect_device (device_id : ident) (reason : RemoteCloseReason) (s : GatewayState) : GatewayState :=
  set_connections ((fun c => if bool_decide (ac_connection_device_id c = device_id) then told reason c else c)
                     <$> gs_connections s) s.
Definition disconnect_all (reason : RemoteCloseReason) (s : GatewayState) : GatewayState :=
  set_connections (told reason <$> gs_connections s) s.
(** Sorted, each device once. *)
Definition connected_device_ids (s : GatewayState) : list ident :=
  sort_by_key (fun d => Z.of_N <$> d) (remove_dups (ac_connection_device_id <$> (map_to_list (gs_connections s)).*2)).

(** ** Domain events (GatewayDomainEvents) *)

Definition publish_with_payload (channel : str) (generation : Z) (correlation_id : option ident)
    (payload : option json) : gw_call unit := fun s =>
  let key := (generation, channel) in
  let sequence := Z.max 1 (u64_saturating_add (default 0%Z (gs_sequences s !! key)) 1) in
  (Ok tt, push_event key (mkRemoteEvent channel generation sequence correlation_id payload (tr_clock (gs_db s))) s).
Definition publish (channel : str) (generation : Z) (correlation_id : option ident) : gw_call unit :=
  publish_with_payload channel generation correlation_id None.

(** ** Device-management requests *)

Inductive RemoteDeviceRequest : Type :=
| CreatePairingOffer (auth : RemoteAuthProof) (r : RemoteCreatePairingOfferRequest)
| CancelPairingOffer (auth : RemoteAuthProof) (offer_id : ident)
| StartLanPairing (auth : RemoteAuthProof) (level : RemoteDevicePermissionLevel) (ttl_ms : option Z)
| StartZeroConfigLanPairing (auth : RemoteAuthProof) (level : RemoteDevicePermissionLevel) (ttl_ms : option Z)
| LanPairingStatus (auth : RemoteAuthProof)
| DecideLanPairing (auth : RemoteAuthProof) (request_id : ident) (approves : bool)
| CancelLanPairing (auth : RemoteAuthProof)
| ListDevices (auth : RemoteAuthProof)
| PairingPublications (auth : RemoteAuthProof)
| PairingOfferStatus (auth : RemoteAuthProof) (offer_id : ident)
| RevokeDevice (auth : RemoteAuthProof) (r : RemoteRevokeDeviceRequest)
| RestoreDevice (auth : RemoteAuthProof) (r : RemoteRestoreDeviceRequest)
| DeleteDevice (auth : RemoteAuthProof) (r : RemoteDeleteDeviceRequest)
| RenameDevice (auth : RemoteAuthProof) (r : RemoteRenameDeviceRequest)
| RenameRuntime (auth : RemoteAuthProof) (display_name : str)
| ListAudit (auth : RemoteAuthProof) (r : RemoteAuditListRequest)
| ExportDiagnostics (auth : RemoteAuthProof) (payload : json)
| BackupCreate (auth : RemoteAuthProof) (payload : json)
| BackupInspect (auth : RemoteAuthProof) (payload : json)
| BackupRestore (auth : RemoteAuthProof) (payload : json).
(** The proof a request carries, and the permission it needs. *)
Definition proof_and_action (r : RemoteDeviceRequest) : RemoteAuthProof * RemoteActionClass :=
  match r with
  | CreatePairingOffer auth _ | CancelPairingOffer auth _ | StartLanPairing auth _ _
  | StartZeroConfigLanPairing auth _ _ | DecideLanPairing auth _ _ | CancelLanPairing auth
  | RevokeDevice auth _ | RestoreDevice auth _ | DeleteDevice auth _ | RenameDevice auth _
  | RenameRuntime auth _ | ExportDiagnostics auth _ | BackupCreate auth _ | BackupRestore auth _ =>
      (auth, MutateDeviceManagement)
  | LanPairingStatus auth | ListDevices auth | PairingPublications auth | PairingOfferStatus auth _
  | ListAudit auth _ | BackupInspect auth _ => (auth, ReadDeviceManagement)
  end.

(** What an answer is made of. *)
Inductive DeviceReply : Type :=
| ReplyOffer (offer : RemotePairingOffer) (fragment : str)
| ReplySummary (summary : RemotePairingOfferSummary)
| ReplyAudit (records : list RemoteAuditRecord)
| ReplyDevices (devices : list RemoteDeviceDetail)
| ReplyDevice (detail : RemoteDeviceDetail)
| ReplyDeviceRenamed (device_id : ident) (display_name : str)
| ReplyRuntime (display_name : str)
| ReplyFromSource (value : json).
(** serde: the JSON of a proof and of a reply, the request a payload spells, and
    the text of an identifier. *)
Class WireFormat : Type := {
  proof_to_json : RemoteAuthProof -> json;
  decode_device_request : json -> option RemoteDeviceRequest;
  reply_to_json : DeviceReply -> option json
}.

Section gateway.
Context `{Platform} `{LanPlatform} `{WireFormat}.
Context (config : GatewayConfig).

(** ** Endpoints that check a secret *)

Inductive Answer (A : Type) : Type :=
| RateLimited (retry_after_ms : Z)
| Replied (result : VibexResult A).
Arguments RateLimited {A}.
Arguments Replied {A}.

Definition limited_endpoint {A} (peer : str) (body : gw_call A) : GatewayState -> Answer A * GatewayState := fun s =>
  let now := tr_clock (gs_db s) in
  match check_auth_attempt (gc_peer_limits config) peer now (gs_windows s) with
  | (Limited retry, windows) => (RateLimited retry, set_windows windows s)
  | (Allowed, windows) =>
      match body (set_windows windows s) with
      | (Ok a, s) => (Replied (Ok a), s)
      | (Err e, s) => (Replied (Err e), set_windows (record_auth_failure (gc_peer_limits config) peer now (gs_windows s)) s)
      end
  end.
(** A claimed offer ends the window it was shown in. *)
Definition claim_pairing_offer_endpoint (fresh : nat -> str) (random : list N) (peer : str)
    (r : RemoteClaimPairingOfferRequest) : GatewayState -> Answer RemoteClaimPairingOfferResponse * GatewayState :=
  limited_endpoint peer (
    let! response := on_db (claim_pairing_offer fresh random r) in
    let! _ := db_write (fun s => set_lan (clear_offer (ko_offer_id r) (gs_lan s)).2 s) in
    db_ret response).
Definition claim_pairing_code_endpoint (fresh : nat -> str) (others : TrustDb -> TrustDb) (peer : str)
    (r : RemoteClaimPairingCodeRequest)
  : GatewayState -> Answer (RemoteDeviceDetail * str) * GatewayState :=
  limited_endpoint peer (on_db (claim_pairing_code fresh others r)).

(** ** One-time tickets *)

Record RemoteWsTicketResponse : Type := mkTicketResponse {
  tk_ticket : str;
  tk_subprotocol : str;
  tk_proof_challenge : str;
  tk_expires_at_ms : Z
}.
Definition REMOTE_V2_SUBPROTOCOL : str := lit "vibex-v2".
Definition REMOTE_V2_TICKET_PREFIX : str := lit "vibex-ticket.".
Definition issue_ws_ticket (audit_uuid : str) (random random' : list N) (peer : str) (proof : RemoteAuthProof)
  : GatewayState -> Answer RemoteWsTicketResponse * GatewayState :=
  limited_endpoint peer (
    let! auth := on_db (authenticate audit_uuid proof) in
    let ticket := secure_secret "ws" random in
    let proof_challenge := secure_secret "proof" random' in
    let! now := now_ms in
    let expires_at_ms := (now + gc_ws_ticket_ttl_ms config)%Z in
    let! _ := db_write (fun s =>
      let kept := filter (fun kt => (now < wt_expires_at_ms kt.2)%Z) (gs_tickets s) in
      set_tickets (<[ticket := mkTicket proof auth expires_at_ms proof_challenge false]> kept) s) in
    db_ret (mkTicketResponse ticket
              (REMOTE_V2_SUBPROTOCOL ++ lit ", " ++ REMOTE_V2_TICKET_PREFIX ++ ticket)
              proof_challenge expires_at_ms)).
Definition TICKET_INVALID : VibexError :=
  remote_error "remote_ws_ticket_invalid" "WebSocket ticket is invalid or already used".
Definition TICKET_EXPIRED : VibexError := remote_error "remote_ws_ticket_expired" "WebSocket ticket has expired".
Definition consume_ws_ticket (audit_uuid ticket : str) : gw_call WsTicketRecord :=
  let! found := db_read (fun s => gs_tickets s !! ticket) in
  let! _ := db_write (fun s => set_tickets (delete ticket (gs_tickets s)) s) in
  let! record := db_lift (ok_or found TICKET_INVALID) in
  let! now := now_ms in
  if (wt_expires_at_ms record <=? now)%Z then db_fail TICKET_EXPIRED else
  let! auth := on_db (authenticate audit_uuid (wt_proof record)) in
  db_ret (mkTicket (wt_proof record) auth (wt_expires_at_ms record) (wt_proof_challenge record)
            (wt_relay_authenticated record)).

(** Whether the device of a live connection may still act. *)
Definition DEVICE_REVOKED : VibexError := remote_error "remote_device_revoked" "remote device is revoked".
Definition authenticate_active_ticket (audit_uuid : str) (ticket : WsTicketRecord) : gw_call RemoteAuthContext :=
  if negb (wt_relay_authenticated ticket) then on_db (authenticate audit_uuid (wt_proof ticket)) else
  let! found := on_db (device_get (ac_device_id (wt_auth ticket))) in
  let! device := db_lift (ok_or found DEVICE_UNKNOWN) in
  let detail := dr_detail device in
  if bool_decide (rd_status detail = DeviceRevoked) then db_fail DEVICE_REVOKED else
  let! now := now_ms in
  db_ret (mkAuthContext (rd_device_id detail) (rd_display_name detail) (rd_permission_level detail) now).
Definition authorize_live_action (fresh : nat -> str) (ticket : WsTicketRecord) (action : RemoteActionClass)
  : gw_call RemoteAuthContext :=
  let! auth := authenticate_active_ticket (fresh 0) ticket in
  let! _ := on_db (authorize_action (fresh 1) auth action None None) in
  db_ret auth.

(** ** Replies kept for repeated requests *)

Definition MAX_IDEMPOTENCY_CACHE_ENTRIES : nat := 1024.
Definition IDEMPOTENCY_CACHE_TTL_MS : Z := 24 * 60 * 60 * 1000.
Definition grant_revision_of (device_id : ident) : gw_call Z :=
  let! found := on_db (device_get device_id) in
  let! device := db_lift (ok_or found DEVICE_UNKNOWN) in
  db_ret (rd_grant_revision (dr_detail device)).
Definition DEVICE_MISMATCH : VibexError :=
  VibexError_new Permission (lit "remote_idempotency_device_mismatch")
    (lit "remote idempotency key belongs to another device").
Definition cached_rpc_response (audit_uuid : str) (key : IdempotencyCacheKey) (proof : RemoteAuthProof)
  : gw_call (option RemoteRpcResponseV2) :=
  let! auth := on_db (authenticate audit_uuid proof) in
  if negb (bool_decide (ac_device_id auth = ck_device_id key)) then db_fail DEVICE_MISMATCH else
  let! grant_revision := grant_revision_of (ac_device_id auth) in
  let! now := now_ms in
  let! _ := db_write (fun s =>
    set_idempotency (filter (fun kc => (now - ca_created_at_ms kc.2 <= IDEMPOTENCY_CACHE_TTL_MS)%Z)
                       (gs_idempotency s)) s) in
  let! cached := db_read (fun s => gs_idempotency s !! key) in
  db_ret match cached with
         | Some cached => if bool_decide (ca_grant_revision cached = grant_revision)
                          then Some (ca_response cached) else None
         | None => None
         end.
Definition store_cached_rpc_response (key : IdempotencyCacheKey) (response : RemoteRpcResponseV2) : gw_call unit :=
  let! grant_revision := grant_revision_of (ck_device_id key) in
  let! now := now_ms in
  db_write (fun s =>
    let cache := gs_idempotency s in
    let cache := if (MAX_IDEMPOTENCY_CACHE_ENTRIES <=? size cache)%nat
                 then match min_by_key (fun kc => ca_created_at_ms kc.2) (map_to_list cache) with
                      | Some (oldest, _) => delete oldest cache
                      | None => cache
                      end
                 else cache in
    set_idempotency (<[key := mkCached response now grant_revision]> cache) s).

(** ** Requests of an authenticated client *)

(** [bounded_diagnostic]. *)
Definition bounded_diagnostic (value : str) : str := take 64 value.

(** [get_mut] along keys that leads to an object. *)
Fixpoint object_at (path : list str) (v : json) : option (list (str * json)) :=
  match path with
  | [] => json_as_object v
  | k :: path => match json_get k v with Some v => object_at path v | None => None end
  end.
Definition REQUEST_PATH : list str := [lit "data"; lit "request"].
Definition KEY_INVALID : VibexError :=
  invalid "remote_idempotency_key_invalid" "remote idempotency key must be non-empty and bounded".
Definition REVISION_MISMATCH : VibexError :=
  VibexError_conflict (lit "remote_revision_contract_mismatch")
    (lit "RPC expected revision conflicts with its typed payload").
Definition validate_mutation_contract (payload : option json) (mutation : option RemoteMutationContract)
    (device_id : ident) : VibexResult (option json * option IdempotencyCacheKey) :=
  match mutation with
  | None => Ok (payload, None)
  | Some mutation =>
      let key := trim (mu_idempotency_key mutation) in
      reject is_empty key || (128 <? utf8_len key)%nat || existsb is_control key with KEY_INVALID ;;
      let revision := match trim <$> mu_expected_revision mutation with
                      | Some revision => if is_empty revision then None else Some revision
                      | None => None
                      end in
      let? payload :=
        match revision, payload with
        | Some revision, Some value =>
            match object_at REQUEST_PATH value with
            | Some request =>
                reject match string_field (JObject request) (lit "expectedRevision") with
                       | Some existing => negb (bool_decide (existing = revision))
                       | None => false
                       end with REVISION_MISMATCH ;;
                Ok (Some (modify_at REQUEST_PATH (fun v =>
                  match v with
                  | JObject fields => JObject (object_insert (lit "expectedRevision") (JString revision) fields)
                  | _ => v
                  end) value))
            | None => Ok (Some value)
            end
        | _, payload => Ok payload
        end in
      Ok (payload, Some (mkCacheKey device_id key))
  end.
Definition PAYLOAD_INVALID : VibexError :=
  invalid "remote_rpc_payload_invalid" "remote RPC payload must be a typed request object".
Definition inject_auth (payload : option json) (proof : RemoteAuthProof) : VibexResult json :=
  match payload with
  | Some value =>
      match object_at [lit "data"] value with
      | Some _ => Ok (modify_at [lit "data"] (fun v =>
                    match v with
                    | JObject fields => JObject (object_insert (lit "auth") (proof_to_json proof) fields)
                    | _ => v
                    end) value)
      | None => Err PAYLOAD_INVALID
      end
  | None => Err PAYLOAD_INVALID
  end.

Definition authorize_device_management (fresh : nat -> str) (proof : RemoteAuthProof) (action : RemoteActionClass)
    (request_id : ident) (correlation_id : option ident) : gw_call RemoteAuthContext :=
  let! auth := on_db (authenticate (fresh 0) proof) in
  let! _ := on_db (authorize_action (fresh 1) auth action (Some request_id) correlation_id) in
  db_ret auth.

Definition ENCODE_FAILED : VibexError :=
  invalid "remote_device_payload_encode_failed" "remote device management response could not be encoded".
Definition gateway_server_display_name : gw_call str := fun s =>
  match runtime_display_name (gc_service_name config) (gs_db s) with
  | (Ok name, db) => (Ok name, set_db db s)
  | (Err _, db) => (Ok (gc_service_name config), set_db db s)
  end.
Definition ROUTES_UNAVAILABLE : VibexError :=
  VibexError_new Capability (lit "remote_pairing_routes_unavailable")
    (lit "RemoteGateway has no server-owned Direct or self-hosted Relay pairing route").
Definition create_pairing_offer_with_routes (fresh : nat -> str) (random : list N)
    (r : RemoteCreatePairingOfferRequest) : gw_call (RemotePairingOffer * str) :=
  if is_empty (gc_direct_candidates config) && bool_decide (gc_relay_candidate config = None)
  then db_fail ROUTES_UNAVAILABLE
  else on_db (create_pairing_offer fresh random (gc_identity config)
                (mkCreateOffer (co_permission_level r) (co_ttl_ms r) (gc_direct_candidates config)
                   (gc_relay_candidate config))).
(** The public key is not shown. *)
Definition without_key (d : RemoteDeviceDetail) : RemoteDeviceDetail :=
  {| rd_device_id := rd_device_id d; rd_display_name := rd_display_name d; rd_public_key := None;
     rd_grant_revision := rd_grant_revision d; rd_permission_level := rd_permission_level d;
     rd_status := rd_status d; rd_paired_at_ms := rd_paired_at_ms d; rd_last_seen_at_ms := rd_last_seen_at_ms d;
     rd_revoked_at_ms := rd_revoked_at_ms d; rd_created_at_ms := rd_created_at_ms d;
     rd_updated_at_ms := rd_updated_at_ms d |}.
Definition SELF_REVOKE : VibexError :=
  VibexError_new Permission (lit "remote_device_self_revoke_forbidden")
    (lit "a remote device cannot revoke its own active connection").
Definition SELF_DELETE : VibexError :=
  VibexError_new Permission (lit "remote_device_self_delete_forbidden")
    (lit "a remote device cannot forget its own connection").
Definition device_closed (message : string) : RemoteCloseReason :=
  mkCloseReason CloseDeviceRevoked (lit message) RetryNever.

(** The answer to an authorized request.  [source] is what the runtime's LAN
    pairing, publication and recovery sources answer. *)
Definition answer_device_request (fresh : nat -> str) (random : list N) (source : RemoteDeviceRequest -> VibexResult json)
    (auth : RemoteAuthContext) (correlation_id : option ident) (r : RemoteDeviceRequest) : gw_call DeviceReply :=
  match r with
  | CreatePairingOffer _ r =>
      let! created := create_pairing_offer_with_routes fresh random r in
      db_ret (ReplyOffer created.1 created.2)
  | ListAudit _ r => let! records := on_db (audit_list r) in db_ret (ReplyAudit records)
  | CancelPairingOffer _ offer_id =>
      let! summary := on_db (cancel_pairing_offer (fresh 0) offer_id) in db_ret (ReplySummary summary)
  | ListDevices _ =>
      let! records := on_db device_list in db_ret (ReplyDevices ((fun d => without_key (dr_detail d)) <$> records))
  | PairingOfferStatus _ offer_id =>
      let! found := on_db (offer_get offer_id) in
      let! record := db_lift (ok_or found OFFER_UNKNOWN) in
      db_ret (ReplySummary (or_summary record))
  | RevokeDevice _ r =>
      if bool_decide (ac_device_id auth = rv_device_id r) then db_fail SELF_REVOKE else
      let! detail := on_db (revoke_device (fresh 0) r) in
      let! _ := db_write (disconnect_device (rv_device_id r) (device_closed "remote device was revoked")) in
      db_ret (ReplyDevice (without_key detail))
  | RestoreDevice _ r =>
      let! detail := on_db (restore_device (fresh 0) id r) in db_ret (ReplyDevice (without_key detail))
  | DeleteDevice _ r =>
      if bool_decide (ac_device_id auth = de_device_id r) then db_fail SELF_DELETE else
      let! detail := on_db (delete_device fresh id r) in
      let! _ := db_write (disconnect_device (de_device_id r) (device_closed "remote device was deleted")) in
      db_ret (ReplyDevice (without_key detail))
  | RenameDevice _ r =>
      let! detail := on_db (rename_device (fresh 0) r) in
      let! payload := db_lift (ok_or (reply_to_json (ReplyDeviceRenamed (rn_device_id r) (rd_display_name detail)))
                                 ENCODE_FAILED) in
      let! _ := publish_with_payload (lit "device") (gc_session_epoch config) correlation_id (Some payload) in
      db_ret (ReplyDevice (without_key detail))
  | RenameRuntime _ name =>
      let! _ := on_db (rename_runtime (fresh 0) name) in
      let! display_name := gateway_server_display_name in
      let! payload := db_lift (ok_or (reply_to_json (ReplyRuntime display_name)) ENCODE_FAILED) in
      let! _ := publish_with_payload (lit "device") (gc_session_epoch config) correlation_id (Some payload) in
      db_ret (ReplyRuntime display_name)
  | StartLanPairing _ _ _ | StartZeroConfigLanPairing _ _ _ | LanPairingStatus _ | DecideLanPairing _ _ _
  | CancelLanPairing _ | PairingPublications _ | ExportDiagnostics _ _ | BackupCreate _ _ | BackupInspect _ _
  | BackupRestore _ _ =>
      let! value := db_lift (source r) in db_ret (ReplyFromSource value)
  end.

(** The second component says whether the answer was computed by this call. *)
Definition process_device_management_rpc (fresh : nat -> str) (random : list N)
    (source : RemoteDeviceRequest -> VibexResult json) (request_id : ident) (correlation_id : option ident)
    (payload : json) (cache_key : option IdempotencyCacheKey) : gw_call (RemoteRpcResponseV2 * bool) :=
  let! request := db_lift (ok_or (decode_device_request payload)
    (invalid "remote_device_payload_invalid" "remote device management payload is invalid")) in
  let '(proof, action) := proof_and_action request in
  let! auth := authorize_device_management fresh proof action request_id correlation_id in
  let! cached := match cache_key with
                 | Some key => cached_rpc_response (fresh 2) key proof
                 | None => db_ret None
                 end in
  match cached with
  | Some response =>
      db_ret (mkRpcResponse request_id correlation_id (rr_payload response) (rr_error response)
                (rr_metadata response) (rr_completed_at_ms response), false)
  | None =>
      let! reply := answer_device_request (fun i => fresh (3 + i)) random source auth correlation_id request in
      let! value := db_lift (ok_or (reply_to_json reply) ENCODE_FAILED) in
      let! now := now_ms in
      db_ret (mkRpcResponse request_id correlation_id (Some value) None RemoteRpcResultMetadata_default now, true)
  end.

(** [metadata_from_payload]: the first value under a key, an object's own
    fields before those below it. *)
Fixpoint json_find (key : str) (v : json) : option json :=
  match v with
  | JObject fields =>
      match json_get key v with
      | Some found => Some found
      | None => (fix below (fields : list (str * json)) : option json :=
                   match fields with
                   | [] => None
                   | (_, v) :: fields => match json_find key v with Some found => Some found | None => below fields end
                   end) fields
      end
  | JArray items =>
      (fix below (items : list json) : option json :=
         match items with
         | [] => None
         | v :: items => match json_find key v with Some found => Some found | None => below items end
         end) items
  | _ => None
  end.
Definition metadata_from_payload (payload : option json) : RemoteRpcResultMetadata :=
  let find key := match payload with Some v => json_find (lit key) v | None => None end in
  {| md_revision := str_of (find "contentRevision"); md_generation := u64_of (find "generation");
     md_cursor := u64_of (find "nextSequence");
     md_resync_required := default false (v ← find "resyncRequired"; json_as_bool v) |}.

(** What the dispatcher of the other operations answers, if it does in time. *)
Definition Dispatcher : Type := RemoteOperationKind -> json -> option (option json * option VibexError).
Definition requires_idempotency (payload : option json) : bool :=
  match payload with
  | Some v => match string_field v (lit "type") with Some kind => mutation_requires_idempotency kind | None => false end
  | None => false
  end.
Definition UNSUPPORTED (operation : str) : VibexError :=
  with_diagnostic (VibexError_new Capability (lit "remote_unsupported_operation")
                     (lit "remote RPC operation is not supported")) (lit "operation") (bounded_diagnostic operation).
Definition KEY_REQUIRED : VibexError :=
  invalid "remote_idempotency_key_required" "remote mutation requires an idempotency key".
Definition RPC_TIMEOUT : VibexError := remote_error "remote_rpc_timeout" "remote RPC exceeded its timeout class".
Definition publish_domain (domain : option str) (correlation_id : option ident) : gw_call unit :=
  match domain with
  | Some domain => publish domain (gc_session_epoch config) correlation_id
  | None => db_ret tt
  end.
Definition store_if (cache_key : option IdempotencyCacheKey) (response : RemoteRpcResponseV2) : gw_call unit :=
  match cache_key with Some key => store_cached_rpc_response key response | None => db_ret tt end.
Definition process_rpc_inner (fresh : nat -> str) (random : list N) (source : RemoteDeviceRequest -> VibexResult json)
    (dispatch : Dispatcher) (proof : RemoteAuthProof) (r : RemoteRpcRequestV2) : gw_call RemoteRpcResponseV2 :=
  let! operation := db_lift (ok_or (operation_from_wire (rq_operation r)) (UNSUPPORTED (rq_operation r))) in
  let requires := requires_idempotency (rq_payload r) in
  let event_domain := if requires then mutation_event_domain operation else None in
  if requires && bool_decide (rq_mutation r = None :> option _) then db_fail KEY_REQUIRED else
  let! contract := db_lift (validate_mutation_contract (rq_payload r) (rq_mutation r) (ap_device_id proof)) in
  let '(payload, cache_key) := contract in
  if bool_decide (operation = OpDeviceManagement) then
    let! payload := db_lift (inject_auth payload proof) in
    let! answered := process_device_management_rpc fresh random source (rq_request_id r) (rq_correlation_id r)
                       payload cache_key in
    let '(response, fresh_answer) := answered in
    if (fresh_answer : bool) then
      let! _ := store_if cache_key response in
      let! _ := publish_domain event_domain (rq_correlation_id r) in
      db_ret response
    else db_ret response
  else
  let! cached := match cache_key with
                 | Some key => cached_rpc_response (fresh 0) key proof
                 | None => db_ret None
                 end in
  match cached with
  | Some response =>
      db_ret (mkRpcResponse (rq_request_id r) (rq_correlation_id r) (rr_payload response) (rr_error response)
                (rr_metadata response) (rr_completed_at_ms response))
  | None =>
      let! payload := db_lift (inject_auth payload proof) in
      let! answered := db_lift (ok_or (dispatch operation payload) RPC_TIMEOUT) in
      let '(answer, error) := answered in
      let! now := now_ms in
      let response := mkRpcResponse (rq_request_id r) (rq_correlation_id r) answer
                        (RemoteProtocolError_from_error <$> error) (metadata_from_payload answer) now in
      let! _ := store_if cache_key response in
      let! _ := if bool_decide (error = None :> option VibexError) then publish_domain event_domain (rq_correlation_id r) else db_ret tt in
      db_ret response
  end.
End gateway.
Arguments RateLimited {A}.
Arguments Replied {A}.
