(* ===== verification/RemoteHistory.v ===== *)
(** What holds between the remote gateway and the trust store: who may manage
    devices, what a ticket is worth, and that a repeated request is applied
    once. *)
From stdpp Require Import prelude strings list gmap.
From Stdlib Require Import NArith ZArith Lia.
From S2P Require Import Prelude CoreTypes Storage Ir Json Trust TrustHistory LanPairing PeerLimiter RemoteGateway.

(** ** Permissions *)

(** What a client is told it may do is what it may do. *)
Lemma permissions_agree level action : level_permits level action = permission_allows level action.
Proof. by destruct level, action. Qed.
(** An event of a topic reaches only devices that may follow the topic. *)
Lemma events_within_topics level channel :
  domain_event_permitted level channel = true -> subscription_topic_permitted level channel = true.
Proof.
  unfold domain_event_permitted, subscription_topic_permitted, named. cbn [List.find fst snd].
  repeat (match goal with |- context [bool_decide (lit ?a = channel)] =>
    destruct (bool_decide_reflect (lit a = channel)) as [<-|] end; try done).
Qed.

Section gateway_history.
Context {platform : Platform} {lan_platform : LanPlatform} {wire : WireFormat}.
Context (config : GatewayConfig).

(** ** The trust store but for names, instants and the audit log *)

Definition untouched (db db' : TrustDb) : Prop :=
  tr_pairings db' = tr_pairings db /\ tr_runtime_name db' = tr_runtime_name db /\
  (forall k r, tr_devices db !! k = Some r ->
     exists r', tr_devices db' !! k = Some r' /\ same_grant (dr_detail r) (dr_detail r') /\
       dr_auth_secret_hash r' = dr_auth_secret_hash r) /\
  (forall k, tr_devices db !! k = None -> tr_devices db' !! k = None).
Definition steady (db0 db : TrustDb) : Prop := trust_wf db /\ untouched db0 db.

Lemma same_grant_refl d : same_grant d d.
Proof. by split_and!. Qed.
Lemma same_grant_trans d e f : same_grant d e -> same_grant e f -> same_grant d f.
Proof. intros (?&?&?&?&?) (?&?&?&?&?). split_and!; congruence. Qed.
Lemma untouched_refl db : untouched db db.
Proof. split_and!; try done. intros k r Hk. exists r. split_and!; [done|apply same_grant_refl|done]. Qed.
Lemma untouched_audit db0 record db :
  steady db0 db -> tr_audits db !! ra_audit_id record = None -> steady db0 (put_audit record db).
Proof.
  intros [Hw Hu] Hn. split; [|done]. apply (undone_audit db); [by apply nothing_undone_refl|done].
Qed.
Lemma untouched_quiet db0 k record f db :
  steady db0 db -> tr_devices db !! k = Some record -> quiet f ->
  steady db0 (put_device (mkDeviceRecord (f (dr_detail record)) (dr_auth_secret_hash record)) db).
Proof.
  intros [Hw (Hp & Hn & Hd & Hno)] Hk Hf. split; [by apply put_device_wf|].
  set (record' := mkDeviceRecord _ _).
  assert (Hi : rd_device_id (dr_detail record') = k).
  { simpl. destruct (Hf (dr_detail record)) as [-> _]. by apply (wf_devices _ Hw). }
  split_and!; [done..| |]; cbn [put_device tr_devices]; rewrite Hi.
  - intros j r Hj. destruct (Hd j r Hj) as (r' & Hr' & Hs & Hh). destruct (decide (j = k)) as [->|Hne].
    + rewrite lookup_insert_eq. exists record'. simplify_eq. cbn [record' dr_detail dr_auth_secret_hash].
      split_and!; [done| |done]. eapply same_grant_trans; [done|apply Hf].
    + rewrite lookup_insert_ne by done. by exists r'.
  - intros j Hj. rewrite lookup_insert_ne; [by apply Hno|]. intros ->. rewrite (Hno _ Hj) in Hk. done.
Qed.
Lemma authenticate_steady db0 a proof db : steady db0 db -> steady db0 (authenticate a proof db).2.
Proof.
  intros Hs. apply keeps_run; [|done]. apply keeps_authenticate; [apply untouched_audit|apply untouched_quiet].
Qed.
Lemma authorize_steady db0 a auth action q c db :
  steady db0 db -> steady db0 (authorize_action a auth action q c db).2.
Proof. intros Hs. apply keeps_run; [|done]. apply keeps_authorize, untouched_audit. Qed.

(** A successful authentication answers with what is stored. *)
Lemma authenticate_ok a proof db auth db' :
  authenticate a proof db = (Ok auth, db') ->
  exists record, tr_devices db !! ap_device_id proof = Some record /\ admits (grants db) proof = true /\
    ac_device_id auth = rd_device_id (dr_detail record) /\
    ac_permission_level auth = rd_permission_level (dr_detail record).
Proof.
  intros E. destruct (admits (grants db) proof) eqn:Ha.
  2: { pose proof (authenticate_refuses a proof db Ha) as Hr. by rewrite E in Hr. }
  unfold authenticate in E. apply db_bind_ok in E as (found & db1 & [= <- <-] & E).
  destruct (tr_devices db !! ap_device_id proof) as [record|] eqn:Ed; [|done].
  destruct (bool_decide _); [by apply db_bind_ok in E as ([] & ? & _ & [=])|].
  destruct (negb _); [by apply db_bind_ok in E as ([] & ? & _ & [=])|].
  apply db_bind_ok in E as (now & db1 & _ & E). apply db_bind_ok in E as ([] & db2 & _ & E).
  apply db_bind_ok in E as ([] & db3 & _ & [= <- _]). by exists record.
Qed.
Lemma authorize_ok a auth action q c db db' :
  authorize_action a auth action q c db = (Ok tt, db') -> permission_allows (ac_permission_level auth) action = true.
Proof.
  intros E. apply db_bind_ok in E as ([] & db1 & _ & E).
  by destruct (permission_allows (ac_permission_level auth) action).
Qed.

(** ** The rest of the gateway's state *)

Definition same_but_db (s s' : GatewayState) : Prop := s' = set_db (gs_db s') s.
Lemma same_but_db_refl s : same_but_db s s.
Proof. by destruct s. Qed.
Lemma same_but_db_trans s s1 s2 : same_but_db s s1 -> same_but_db s1 s2 -> same_but_db s s2.
Proof. unfold same_but_db. intros -> ->. done. Qed.
Lemma on_db_same {A} (c : trust_call A) s : same_but_db s (on_db c s).2.
Proof. unfold on_db. by destruct (c (gs_db s)) as [? ?]. Qed.
Lemma on_db_db {A} (c : trust_call A) s : gs_db (on_db c s).2 = (c (gs_db s)).2 /\ (on_db c s).1 = (c (gs_db s)).1.
Proof. unfold on_db. by destruct (c (gs_db s)) as [? ?]. Qed.
Lemma on_db_ok {A} (c : trust_call A) s a s' :
  on_db c s = (Ok a, s') -> exists db', c (gs_db s) = (Ok a, db') /\ s' = set_db db' s.
Proof. unfold on_db. destruct (c (gs_db s)) as [? db']. intros [= -> <-]. by exists db'. Qed.

(** The device that [proof] shows may manage devices. *)
Definition manages_devices (proof : RemoteAuthProof) (db : TrustDb) : Prop :=
  admits (grants db) proof = true /\
  exists record, tr_devices db !! ap_device_id proof = Some record /\
    rd_permission_level (dr_detail record) = FullControl.
Definition is_management (action : RemoteActionClass) : bool :=
  match action with ReadDeviceManagement | MutateDeviceManagement => true | _ => false end.
Lemma management_action r : is_management (proof_and_action r).2 = true.
Proof. by destruct r. Qed.

Lemma authorize_management fresh proof action q c s :
  is_management action = true -> trust_wf (gs_db s) ->
  let '(result, s') := authorize_device_management fresh proof action q c s in
  same_but_db s s' /\ steady (gs_db s) (gs_db s') /\
  match result with
  | Ok auth => manages_devices proof (gs_db s) /\ ac_device_id auth = ap_device_id proof
  | Err _ => True
  end.
Proof.
  intros Hm Hw. assert (H0 : steady (gs_db s) (gs_db s)) by (split; [done|apply untouched_refl]).
  unfold authorize_device_management. unfold db_bind at 1. unfold on_db at 1.
  pose proof (authenticate_steady _ (fresh 0) proof _ H0) as H1.
  destruct (authenticate (fresh 0) proof (gs_db s)) as [[auth|e] db1] eqn:Ea; [|by split].
  cbn [snd] in H1. unfold db_bind, on_db. cbn [gs_db set_db].
  pose proof (authorize_steady _ (fresh 1) auth action (Some q) c _ H1) as H2.
  destruct (authorize_action _ _ _ _ _ db1) as [[[]|e] db2] eqn:Eo; [|by split].
  split; [done|]. split; [done|]. apply authorize_ok in Eo.
  destruct (authenticate_ok _ _ _ _ _ Ea) as (record & Hr & Had & Hid & Hl). split; [|].
  - split; [done|]. exists record. split; [done|]. rewrite Hl in Eo. by destruct (rd_permission_level _), action.
  - rewrite Hid. by apply (wf_devices _ Hw).
Qed.

(** C18. Only a device with full control manages devices: whatever a request asks,
    unless the device it is sent by is known, in service, shows its token and
    has full control, it is refused, no device, code, offer or name changes, no
    connection closes and nothing is published. *)
Theorem only_full_control_manages (fresh : nat -> str) (random : list N) (source : RemoteDeviceRequest -> VibexResult json)
    (request_id : ident) (correlation_id : option ident) (payload : json) (key : option IdempotencyCacheKey)
    (r : RemoteDeviceRequest) (s : GatewayState) :
  trust_wf (gs_db s) -> decode_device_request payload = Some r ->
  ~ manages_devices (proof_and_action r).1 (gs_db s) ->
  let '(result, s') :=
    process_device_management_rpc config fresh random source request_id correlation_id payload key s in
  is_ok result = false /\ same_but_db s s' /\ untouched (gs_db s) (gs_db s').
Proof.
  intros Hw Hd Hn. unfold process_device_management_rpc. rewrite Hd. unfold db_bind at 1, db_lift. cbn [ok_or].
  pose proof (management_action r) as Hm. destruct (proof_and_action r) as [proof action]. cbn [fst snd] in *.
  unfold db_bind at 1. pose proof (authorize_management fresh proof action request_id correlation_id s Hm Hw) as Ha.
  destruct (authorize_device_management _ _ _ _ _ s) as [[auth|e] s1]; [by destruct Ha as (_ & _ & ? & _)|].
  destruct Ha as (Hs & [_ Hu] & _). done.
Qed.

(** ** The gateway works on the trust store by the service's operations *)

Definition trust_like {A} (c : trust_call A) : Prop := forall db, exists ops, (c db).2 = trust_run ops db.
Lemma trust_like_step {A} (c : trust_call A) (op : TrustDb -> trust_op) :
  (forall db, (c db).2 = trust_step db (op db)) -> trust_like c.
Proof. intros Hc db. by exists [op db]. Qed.
Lemma trust_like_read {A} (c : trust_call A) : (forall db, (c db).2 = db) -> trust_like c.
Proof. intros Hc db. by exists []. Qed.
Lemma trust_like_restore a r : trust_like (restore_device a id r).
Proof.
  intros db. unfold restore_device. unfold db_bind at 1, device_get, db_read at 1.
  destruct (tr_devices db !! re_device_id r) as [record|]; [|by exists []].
  destruct (negb _); [by exists []|]. unfold db_bind at 1, db_read. unfold db_bind at 1, db_write. unfold db_bind at 1.
  exists [OpCommitRestore a (re_device_id r) (reason_text (re_reason r)) (tr_clock db)]. cbn.
  by destruct (commit_restore _ _ _ _ db) as [[?|?] ?].
Qed.
Lemma trust_like_delete fresh r : trust_like (delete_device fresh id r).
Proof.
  intros db. unfold delete_device. unfold db_bind at 1, device_get, db_read at 1.
  destruct (tr_devices db !! de_device_id r) as [record|]; [|by exists []].
  unfold db_bind at 1, db_read. unfold db_bind at 1, db_write. unfold db_bind at 1.
  exists [OpCommitDelete fresh (de_device_id r) (dr_detail record) (reason_text (de_reason r)) (tr_clock db)]. cbn.
  by destruct (commit_delete _ _ _ _ _ db) as [[?|?] ?].
Qed.
Lemma trust_run_app ops ops' db : trust_run (ops ++ ops') db = trust_run ops' (trust_run ops db).
Proof. apply foldl_app. Qed.
Lemma trust_like_claim_code fresh others r : trust_like (claim_pairing_code fresh (trust_run others) r).
Proof.
  intros db. unfold claim_pairing_code, get_by_hash. destruct (is_empty _); [by exists []|].
  unfold db_bind at 1, db_lift. destruct (ok_or _ _) as [code|e]; [|by exists []]. unfold db_bind at 1, db_read at 1.
  destruct (_ <$> hash_holder _ db) as [record|]; [|rewrite refuse_code_step; by eexists [_]].
  destruct (bool_decide _); [rewrite refuse_code_step; by eexists [_]|].
  unfold db_bind at 1, db_read at 1. destruct (_ <=? _)%Z; [rewrite refuse_code_step; by eexists [_]|].
  unfold db_bind at 1. destruct (paired_device _ _ _ _ _ db) as [[device|e] db1] eqn:Ed;
    pose proof Ed as ->%paired_device_reads; [|by exists []].
  unfold db_bind at 1, db_write. unfold db_bind.
  match goal with |- context [commit_code ?a ?p ?d ?t ?n ?x] =>
    exists (others ++ [OpCommitCode a p d t n]); rewrite trust_run_app; cbn [trust_run foldl trust_step];
    by destruct (commit_code a p d t n x) as [[?|?] ?] end.
Qed.
Lemma trust_like_authenticate a proof : trust_like (authenticate a proof).
Proof. by apply (trust_like_step _ (fun _ => OpAuthenticate a proof)). Qed.
Lemma trust_like_authorize a auth action q c : trust_like (authorize_action a auth action q c).
Proof. by apply (trust_like_step _ (fun _ => OpAuthorize a auth action q c)). Qed.
Lemma trust_like_create_offer fresh random identity r : trust_like (create_pairing_offer fresh random identity r).
Proof. by apply (trust_like_step _ (fun _ => OpCreateOffer fresh random identity r)). Qed.
Lemma trust_like_cancel a id : trust_like (cancel_pairing_offer a id).
Proof. by apply (trust_like_step _ (fun _ => OpCancelOffer a id)). Qed.
Lemma trust_like_claim_offer fresh random r : trust_like (claim_pairing_offer fresh random r).
Proof. by apply (trust_like_step _ (fun _ => OpClaimOffer fresh random r)). Qed.
Lemma trust_like_revoke a r : trust_like (revoke_device a r).
Proof. by apply (trust_like_step _ (fun _ => OpRevoke a r)). Qed.
Lemma trust_like_rename a r : trust_like (rename_device a r).
Proof. by apply (trust_like_step _ (fun _ => OpRenameDevice a r)). Qed.
Lemma trust_like_rename_runtime a name : trust_like (rename_runtime a name).
Proof. by apply (trust_like_step _ (fun _ => OpRenameRuntime a name)). Qed.
Lemma trust_like_get d : trust_like (device_get d).
Proof. by apply trust_like_read. Qed.
Lemma trust_like_list : trust_like device_list.
Proof. by apply trust_like_read. Qed.
Lemma trust_like_audit_list r : trust_like (audit_list r).
Proof. by apply trust_like_read. Qed.
Lemma trust_like_offer_get id : trust_like (offer_get id).
Proof. by apply trust_like_read. Qed.
#[local] Hint Resolve trust_like_restore trust_like_delete trust_like_authenticate trust_like_authorize
  trust_like_create_offer trust_like_cancel trust_like_claim_offer trust_like_revoke trust_like_rename
  trust_like_rename_runtime trust_like_get trust_like_list trust_like_audit_list trust_like_offer_get : keeps.

(** What the parts of a request keep, the request keeps. *)
Section requests.
Context (R : GatewayState -> Prop).
Context (R_trust : forall s op, R s -> R (set_db (trust_step (gs_db s) op) s)).
Context (R_connections : forall s connections, R s -> R (set_connections connections s)).
Context (R_cache : forall s cache, R s -> R (set_idempotency cache s)).
Context (R_event : forall s key event, R s -> R (push_event key event s)).
Context (R_windows : forall s windows, R s -> R (set_windows windows s)).
Context (R_lan : forall s lan, R s -> R (set_lan lan s)).

Lemma R_trust_run ops s : R s -> R (set_db (trust_run ops (gs_db s)) s).
Proof.
  unfold trust_run. revert s. induction ops as [|op ops IH]; intros s HR; cbn [foldl]; [by destruct s|].
  specialize (IH (set_db (trust_step (gs_db s) op) s)). apply IH. by apply R_trust.
Qed.
Lemma keeps_on_db {A} (c : trust_call A) : trust_like c -> keeps R (on_db c).
Proof.
  intros Hc s HR. unfold on_db. destruct (Hc (gs_db s)) as [ops E]. destruct (c (gs_db s)) as [a db]. cbn in E. subst db.
  destruct a; by apply R_trust_run.
Qed.
#[local] Hint Resolve keeps_on_db : keeps.
Lemma keeps_connections (f : GatewayState -> gmap (list N) ActiveConnection) :
  keeps R (db_write (fun s => set_connections (f s) s)).
Proof. apply keeps_write. auto. Qed.
Lemma keeps_disconnect d reason : keeps R (db_write (disconnect_device d reason)).
Proof. apply keeps_connections. Qed.
Lemma keeps_cache f : keeps R (db_write (fun s => set_idempotency (f s) s)).
Proof. apply keeps_write. auto. Qed.
Lemma keeps_publish channel generation correlation_id payload :
  keeps R (publish_with_payload channel generation correlation_id payload).
Proof. intros s HR. by apply R_event. Qed.
#[local] Hint Resolve keeps_disconnect keeps_publish : keeps.
Lemma keeps_store key response : keeps R (store_cached_rpc_response key response).
Proof. unfold store_cached_rpc_response, grant_revision_of, now_ms. keeping. apply (keeps_cache (fun s => _)). Qed.
Lemma keeps_cached audit_uuid key proof : keeps R (cached_rpc_response audit_uuid key proof).
Proof.
  unfold cached_rpc_response, grant_revision_of, now_ms. keep; [keep|]. keep; [keep|].
  keep; [keeping|]. keep; [keep|]. keep; [apply keeps_cache|]. keeping.
Qed.
#[local] Hint Resolve keeps_store keeps_cached : keeps.
Lemma keeps_display_name : keeps R (gateway_server_display_name config).
Proof.
  intros s HR. unfold gateway_server_display_name, runtime_display_name, db_bind, db_read.
  destruct (fst <$> tr_runtime_name (gs_db s)) as [name|]; cbn; by destruct s.
Qed.
#[local] Hint Resolve keeps_display_name : keeps.
Lemma keeps_answer fresh random source auth correlation_id r :
  keeps R (answer_device_request config fresh random source auth correlation_id r).
Proof. unfold answer_device_request, create_pairing_offer_with_routes. destruct r; keeping. Qed.
#[local] Hint Resolve keeps_answer : keeps.
Lemma keeps_device_rpc fresh random source request_id correlation_id payload key :
  keeps R (process_device_management_rpc config fresh random source request_id correlation_id payload key).
Proof.
  unfold process_device_management_rpc, authorize_device_management, now_ms. keeping.
Qed.
#[local] Hint Resolve keeps_device_rpc : keeps.
Lemma keeps_rpc fresh random source dispatch proof r :
  keeps R (process_rpc_inner config fresh random source dispatch proof r).
Proof. unfold process_rpc_inner, publish_domain, publish, store_if, now_ms. keeping. Qed.
Lemma keeps_live_action fresh ticket action : keeps R (authorize_live_action fresh ticket action).
Proof. unfold authorize_live_action, authenticate_active_ticket, now_ms. keeping. Qed.
Lemma keeps_limited {A} peer (body : gw_call A) s :
  keeps R body -> R s -> R (limited_endpoint config peer body s).2.
Proof.
  intros Hb HR. unfold limited_endpoint. destruct (check_auth_attempt _ _ _ _) as [[|retry] windows]; [|by apply R_windows].
  pose proof (keeps_run R body _ Hb (R_windows s windows HR)) as H1.
  destruct (body (set_windows windows s)) as [[a|e] s1]; [done|by apply R_windows].
Qed.
End requests.

(** ** Histories of a gateway *)

(** The endpoints and the requests of clients; [GwTrust] is what the desktop
    and time do to the store, [GwLan] what the operator does to a LAN window. *)
Inductive gw_op : Type :=
| GwTrust (op : trust_op)
| GwLan (op : lan_op)
| GwClaimOffer (fresh : nat -> str) (random : list N) (peer : str) (r : RemoteClaimPairingOfferRequest)
| GwClaimCode (fresh : nat -> str) (others : list trust_op) (peer : str) (r : RemoteClaimPairingCodeRequest)
| GwIssue (audit_uuid : str) (random random' : list N) (peer : str) (proof : RemoteAuthProof)
| GwConsume (audit_uuid ticket : str)
| GwRegister (connection_id device_id : ident)
| GwUnregister (connection_id : ident)
| GwDisconnectAll (reason : RemoteCloseReason)
| GwRpc (fresh : nat -> str) (random : list N) (source : RemoteDeviceRequest -> VibexResult json)
    (dispatch : Dispatcher) (proof : RemoteAuthProof) (r : RemoteRpcRequestV2)
| GwAct (fresh : nat -> str) (ticket : WsTicketRecord) (action : RemoteActionClass).
Definition gw_step (s : GatewayState) (op : gw_op) : GatewayState :=
  match op with
  | GwTrust op => set_db (trust_step (gs_db s) op) s
  | GwLan op => set_lan (lan_step (gs_lan s) op) s
  | GwClaimOffer fresh random peer r => (claim_pairing_offer_endpoint config fresh random peer r s).2
  | GwClaimCode fresh others peer r => (claim_pairing_code_endpoint config fresh (trust_run others) peer r s).2
  | GwIssue a random random' peer proof => (issue_ws_ticket config a random random' peer proof s).2
  | GwConsume a ticket => (consume_ws_ticket a ticket s).2
  | GwRegister c d => (register c d (gc_max_connections config) s).2
  | GwUnregister c => unregister c s
  | GwDisconnectAll reason => disconnect_all reason s
  | GwRpc fresh random source dispatch proof r => (process_rpc_inner config fresh random source dispatch proof r s).2
  | GwAct fresh ticket action => (authorize_live_action fresh ticket action s).2
  end.
Definition gw_run (ops : list gw_op) (s : GatewayState) : GatewayState := foldl gw_step s ops.

(** Tickets apart, what the parts keep a history keeps. *)
Section gw_kept.
Context (R : GatewayState -> Prop).
Context (R_trust : forall s op, R s -> R (set_db (trust_step (gs_db s) op) s)).
Context (R_connections : forall s connections, R s -> R (set_connections connections s)).
Context (R_cache : forall s cache, R s -> R (set_idempotency cache s)).
Context (R_event : forall s key event, R s -> R (push_event key event s)).
Context (R_windows : forall s windows, R s -> R (set_windows windows s)).
Context (R_lan : forall s lan, R s -> R (set_lan lan s)).
(** What happens to the tickets: one is issued or used. *)
Context (allowed : gw_op -> bool).
Context (R_issue : forall a random random' peer proof now record s,
  allowed (GwIssue a random random' peer proof) = true -> R s ->
  R (set_tickets (<[secure_secret "ws" random := record]>
       (filter (fun kt => (now < wt_expires_at_ms kt.2)%Z) (gs_tickets s))) s)).
Context (R_use : forall ticket s, R s -> R (set_tickets (delete ticket (gs_tickets s)) s)).

Lemma gw_step_keeps op s : allowed op = true -> R s -> R (gw_step s op).
Proof.
  intros Hop HR. destruct op; simpl; auto.
  - unfold claim_pairing_offer_endpoint. apply keeps_limited; auto. keep; [apply keeps_on_db; auto with keeps|].
    keep; [apply keeps_write; auto|keep].
  - unfold claim_pairing_code_endpoint. apply keeps_limited; auto. apply keeps_on_db; [auto..|]. apply trust_like_claim_code.
  - unfold issue_ws_ticket. apply keeps_limited; auto. keep; [apply keeps_on_db; auto with keeps|]. cbv zeta.
    keep; [unfold now_ms; keep|]. keep; [|keep]. apply keeps_write. intros s' HR'. by eapply R_issue.
  - apply keeps_run; [|done]. unfold consume_ws_ticket, now_ms. keep; [keep|]. keep; [apply keeps_write; auto|].
    keep; [keep|]. keep; [keep|]. keep; [keep|]. keep; [apply keeps_on_db; auto with keeps|keep].
  - unfold register. destruct (_ <=? _)%nat; [done|]. by apply R_connections.
  - by apply R_connections.
  - by apply R_connections.
  - apply keeps_run; [|done]. by apply keeps_rpc.
  - apply keeps_run; [|done]. by apply keeps_live_action.
Qed.
Lemma gw_run_keeps ops s : forallb allowed ops = true -> R s -> R (gw_run ops s).
Proof.
  unfold gw_run. revert s. induction ops as [|op ops IH]; intros s; simpl; [done|].
  intros [Hop Hops]%andb_prop HR. by apply IH; [|apply gw_step_keeps].
Qed.
End gw_kept.

(** What it takes to use a ticket. *)
Lemma consume_ok a ticket s record s' :
  consume_ws_ticket a ticket s = (Ok record, s') ->
  exists issued, gs_tickets s !! ticket = Some issued /\ wt_proof record = wt_proof issued /\
    (tr_clock (gs_db s) < wt_expires_at_ms issued)%Z /\ admits (grants (gs_db s)) (wt_proof issued) = true /\
    gs_tickets s' = delete ticket (gs_tickets s).
Proof.
  intros E. apply db_bind_ok in E as (found & s1 & [= <- <-] & E). apply db_bind_ok in E as ([] & s1 & [= <-] & E).
  apply db_bind_ok in E as (issued & s2 & [Hi%ok_or_ok ->]%db_lift_ok & E).
  apply db_bind_ok in E as (now & s2 & [= <- <-] & E). cbn [gs_db set_tickets] in E.
  destruct (Z.leb_spec (wt_expires_at_ms issued) (tr_clock (gs_db s))); [done|].
  apply db_bind_ok in E as (auth & s2 & Ea & [= <- <-]). apply on_db_ok in Ea as (db' & Ea & ->).
  apply authenticate_ok in Ea as (r & _ & Had & _). exists issued. by split_and!.
Qed.

(** A ticket is worth one connection of a device in service: it is used only
    before it expires, by a device whose grant holds at that instant, and once
    it was tried, with success or without, no later try succeeds unless a new
    ticket of the same text is issued. *)
Theorem ticket_opens_once (a ticket : str) (ops : list gw_op) (s : GatewayState) :
  let '(result, s1) := consume_ws_ticket a ticket s in
  (is_ok result = true -> exists issued, gs_tickets s !! ticket = Some issued /\
     (tr_clock (gs_db s) < wt_expires_at_ms issued)%Z /\ admits (grants (gs_db s)) (wt_proof issued) = true) /\
  (forallb (fun op => match op with
                      | GwIssue _ random _ _ _ => negb (bool_decide (secure_secret "ws" random = ticket))
                      | _ => true
                      end) ops = true ->
   forall a', (consume_ws_ticket a' ticket (gw_run ops s1)).1 = Err TICKET_INVALID).
Proof.
  destruct (consume_ws_ticket a ticket s) as [result s1] eqn:E. split.
  - destruct result as [record|e]; [intros _|done].
    destruct (consume_ok _ _ _ _ _ E) as (issued & Hi & _ & He & Ha & _). by exists issued.
  - intros Hops a'. assert (Hnone : gs_tickets s1 !! ticket = None).
    { unfold consume_ws_ticket in E. unfold db_bind at 1, db_read at 1 in E. unfold db_bind at 1, db_write at 1 in E.
      revert E. set (s0 := set_tickets _ s). intros E.
      assert (H0 : gs_tickets s0 !! ticket = None) by apply lookup_delete_eq. revert E.
      unfold db_bind at 1, db_lift. destruct (ok_or _ _) as [record|e]; [|by intros [= _ <-]].
      unfold db_bind at 1, now_ms, db_read at 1. destruct (_ <=? _)%Z; [by intros [= _ <-]|].
      unfold db_bind, on_db. destruct (authenticate a _ _) as [[auth|e] db']; by intros [= _ <-]. }
    assert (Hrun : gs_tickets (gw_run ops s1) !! ticket = None).
    { revert Hops Hnone. apply (gw_run_keeps (fun s => gs_tickets s !! ticket = None)); try by intros.
      - intros a0 random random' peer proof now record s0 Hop Hs. cbn [set_tickets gs_tickets].
        apply negb_true_iff, bool_decide_eq_false in Hop. rewrite lookup_insert_ne by done.
        apply map_lookup_filter_None. by left.
      - intros t s0 Hs. cbn [set_tickets gs_tickets]. apply lookup_delete_None. by right. }
    unfold consume_ws_ticket. unfold db_bind at 1, db_read at 1. rewrite Hrun. done.
Qed.

(** ** A request that is sent again *)

(** A request for the dispatcher whose mutation contract names [key]. *)
Definition dispatched_under (proof : RemoteAuthProof) (key : IdempotencyCacheKey) (r : RemoteRpcRequestV2) : bool :=
  match operation_from_wire (rq_operation r),
        validate_mutation_contract (rq_payload r) (rq_mutation r) (ap_device_id proof) with
  | Some operation, Ok (_, Some key') => negb (bool_decide (operation = OpDeviceManagement)) && bool_decide (key' = key)
  | _, _ => false
  end.
(** [cached] is still the answer under [key] to the device of [proof]. *)
Definition answers_again (proof : RemoteAuthProof) (key : IdempotencyCacheKey) (cached : CachedRpcResponse)
    (s : GatewayState) : Prop :=
  gs_idempotency s !! key = Some cached /\
  (tr_clock (gs_db s) - ca_created_at_ms cached <= IDEMPOTENCY_CACHE_TTL_MS)%Z /\
  admits (grants (gs_db s)) proof = true /\
  exists record, tr_devices (gs_db s) !! ap_device_id proof = Some record /\
    rd_grant_revision (dr_detail record) = ca_grant_revision cached.
(** The answer of an earlier request, under the ids of this one. *)
Definition answer_to (r : RemoteRpcRequestV2) (response : RemoteRpcResponseV2) : RemoteRpcResponseV2 :=
  mkRpcResponse (rq_request_id r) (rq_correlation_id r) (rr_payload response) (rr_error response)
    (rr_metadata response) (rr_completed_at_ms response).

Lemma contract_key payload mutation d payload' key :
  validate_mutation_contract payload mutation d = Ok (payload', Some key) ->
  ck_device_id key = d /\ mutation <> None.
Proof.
  destruct mutation as [mutation|]; [|done]. unfold validate_mutation_contract.
  destruct (_ || _); [done|]. cbn [result_bind]. intros E. apply bind_ok in E as (p & _ & [= _ <-]). done.
Qed.
Lemma dispatched_spec proof key r :
  dispatched_under proof key r = true ->
  exists operation payload, operation_from_wire (rq_operation r) = Some operation /\ operation <> OpDeviceManagement /\
    validate_mutation_contract (rq_payload r) (rq_mutation r) (ap_device_id proof) = Ok (payload, Some key) /\
    rq_mutation r <> None /\ ck_device_id key = ap_device_id proof.
Proof.
  unfold dispatched_under. destruct (operation_from_wire _) as [operation|]; [|done].
  destruct (validate_mutation_contract _ _ _) as [[payload [key'|]]|e] eqn:E; [|done..].
  intros [H1%negb_true_iff%bool_decide_eq_false H2%bool_decide_eq_true]%andb_prop. subst key'.
  destruct (contract_key _ _ _ _ _ E) as [Hd Hm]. by exists operation, payload.
Qed.
(** What such a request runs to. *)
Definition dispatch_step (source : RemoteDeviceRequest -> VibexResult json) (dispatch : Dispatcher)
    (operation : RemoteOperationKind) (payload : option json) (proof : RemoteAuthProof) (r : RemoteRpcRequestV2)
    (key : IdempotencyCacheKey) : gw_call RemoteRpcResponseV2 :=
  let! payload := db_lift (inject_auth payload proof) in
  let! answered := db_lift (ok_or (dispatch operation payload) RPC_TIMEOUT) in
  let '(answer, error) := answered in
  let! now := now_ms in
  let response := mkRpcResponse (rq_request_id r) (rq_correlation_id r) answer
                    (RemoteProtocolError_from_error <$> error) (metadata_from_payload answer) now in
  let! _ := store_if (Some key) response in
  let event_domain := if requires_idempotency (rq_payload r) then mutation_event_domain operation else None in
  let! _ := if bool_decide (error = None :> option VibexError)
            then publish_domain config event_domain (rq_correlation_id r) else db_ret tt in
  db_ret response.
Lemma dispatched_runs fresh random source dispatch proof key r :
  dispatched_under proof key r = true ->
  exists operation payload, forall s,
    process_rpc_inner config fresh random source dispatch proof r s
    = (let! cached := cached_rpc_response (fresh 0) key proof in
       match cached with
       | Some response => db_ret (answer_to r response)
       | None => dispatch_step source dispatch operation payload proof r key
       end) s.
Proof.
  intros (operation & payload & Ho & Hne & Hv & Hm & _)%dispatched_spec. exists operation, payload. intros s.
  unfold process_rpc_inner. rewrite Ho. unfold db_bind at 1, db_lift at 1. cbn [ok_or].
  rewrite (bool_decide_eq_false_2 (rq_mutation r = None)), andb_false_r by done.
  unfold db_bind at 1, db_lift at 1. rewrite Hv, (bool_decide_eq_false_2 (operation = _)) by done. done.
Qed.

Lemma authenticate_answers a proof db :
  trust_wf db -> tr_audits db !! id_new RequestId a = None -> admits (grants db) proof = true ->
  exists auth db', authenticate a proof db = (Ok auth, db') /\ ac_device_id auth = ap_device_id proof /\
    steady db db' /\ tr_clock db' = tr_clock db.
Proof.
  intros Hw Hn Ha. pose proof (authenticate_admits a proof db Hw Hn Ha) as Hok.
  assert (Hs : steady db (authenticate a proof db).2).
  { apply authenticate_steady. split; [done|apply untouched_refl]. }
  assert (Hc : tr_clock (authenticate a proof db).2 = tr_clock db).
  { apply (keeps_run (fun db' => tr_clock db' = tr_clock db)); [|done]. by apply keeps_authenticate. }
  destruct (authenticate a proof db) as [[auth|e] db'] eqn:E; [|done]. exists auth, db'. split; [done|].
  split; [|done]. destruct (authenticate_ok _ _ _ _ _ E) as (r & Hr & _ & -> & _). by apply (wf_devices _ Hw).
Qed.
Lemma cached_hit a key proof cached s :
  trust_wf (gs_db s) -> tr_audits (gs_db s) !! id_new RequestId a = None ->
  ck_device_id key = ap_device_id proof -> answers_again proof key cached s ->
  exists db', steady (gs_db s) db' /\
    cached_rpc_response a key proof s
    = (Ok (Some (ca_response cached)),
       set_idempotency (filter (fun kc => (tr_clock (gs_db s) - ca_created_at_ms kc.2 <= IDEMPOTENCY_CACHE_TTL_MS)%Z)
                          (gs_idempotency s)) (set_db db' s)).
Proof.
  intros Hw Hn Hk (Hc & Ht & Ha & record & Hr & Hg).
  destruct (authenticate_answers a proof _ Hw Hn Ha) as (auth & db' & Ea & Hi & Hs & Hcl). exists db'. split; [done|].
  unfold cached_rpc_response. unfold db_bind at 1. unfold on_db at 1. rewrite Ea, Hi, Hk.
  rewrite bool_decide_eq_true_2 by done. cbn [negb].
  destruct Hs as [_ (_ & _ & Hd & _)]. destruct (Hd _ _ Hr) as (r' & Hr' & (_ & _ & _ & _ & Hrev) & _).
  unfold db_bind at 1. unfold grant_revision_of. unfold db_bind at 1, on_db, device_get, db_read. cbn [gs_db set_db].
  rewrite Hr'. cbn. rewrite Hcl.
  rewrite (map_lookup_filter_Some_2 _ _ _ _ Hc) by done. by rewrite Hrev, bool_decide_eq_true_2 by done.
Qed.
Lemma stored_is_cached key response s s' :
  store_cached_rpc_response key response s = (Ok tt, s') ->
  exists cached, gs_idempotency s' !! key = Some cached /\ ca_response cached = response.
Proof.
  unfold store_cached_rpc_response. intros E. apply db_bind_ok in E as (rev & s1 & _ & E).
  apply db_bind_ok in E as (now & s2 & _ & [= <-]). cbn [gs_idempotency set_idempotency].
  rewrite lookup_insert_eq. by eexists.
Qed.
Lemma publish_domain_cache domain c s : gs_idempotency (publish_domain config domain c s).2 = gs_idempotency s.
Proof. by destruct domain. Qed.
(** An answered request leaves its answer in the cache. *)
Lemma answered_is_cached fresh random source dispatch proof key r s response s' :
  dispatched_under proof key r = true ->
  process_rpc_inner config fresh random source dispatch proof r s = (Ok response, s') ->
  exists cached, gs_idempotency s' !! key = Some cached /\
    forall r', answer_to r' (ca_response cached) = answer_to r' response.
Proof.
  intros Hr E. destruct (dispatched_runs fresh random source dispatch _ _ _ Hr) as (operation & payload & Hrun).
  rewrite Hrun in E. apply db_bind_ok in E as (found & s1 & Ec & E). destruct found as [again|].
  - injection E as <- <-. unfold cached_rpc_response in Ec.
    apply db_bind_ok in Ec as (auth & s2 & _ & Ec). destruct (negb _); [done|].
    apply db_bind_ok in Ec as (rev & s3 & _ & Ec). apply db_bind_ok in Ec as (now & s4 & _ & Ec).
    apply db_bind_ok in Ec as ([] & s5 & _ & Ec). apply db_bind_ok in Ec as (cached & s6 & [= <- <-] & Ec).
    injection Ec as Ec <-. destruct (gs_idempotency s5 !! key) as [cached|]; [|done]. exists cached.
    split; [done|]. destruct (bool_decide _); by simplify_eq.
  - unfold dispatch_step in E. apply db_bind_ok in E as (v & s2 & _ & E).
    apply db_bind_ok in E as ([answer error] & s3 & _ & E). apply db_bind_ok in E as (now & s4 & _ & E).
    apply db_bind_ok in E as ([] & s5 & Es & E). destruct (stored_is_cached _ _ _ _ Es) as (cached & Hc & Hca).
    exists cached. apply db_bind_ok in E as ([] & s6 & Ep & [= <- <-]). rewrite Hca. split; [|done].
    rewrite <- Hc. destruct (bool_decide _); [|by injection Ep as <-].
    pose proof (publish_domain_cache (if requires_idempotency (rq_payload r) then mutation_event_domain operation else None)
      (rq_correlation_id r) s5) as Hp. rewrite Ep in Hp. by rewrite <- Hp.
Qed.

(** C16. A request that is sent again under the same idempotency key is applied
    once: once it was answered, then as long as the answer is in the cache, at
    most a day old, and the grant of the device is the same, the request
    gets the same answer whatever the dispatcher would do now, nothing but the
    device's last-seen instant and the audit log is written, and nothing is
    published. *)
Theorem repeated_mutation_is_applied_once (fresh fresh' : nat -> str) (random random' : list N)
    (source source' : RemoteDeviceRequest -> VibexResult json) (dispatch dispatch' : Dispatcher)
    (proof : RemoteAuthProof) (key : IdempotencyCacheKey) (r r' : RemoteRpcRequestV2) (s s1 : GatewayState)
    (response : RemoteRpcResponseV2) :
  dispatched_under proof key r = true -> dispatched_under proof key r' = true ->
  process_rpc_inner config fresh random source dispatch proof r s = (Ok response, s1) ->
  exists cached, gs_idempotency s1 !! key = Some cached /\
  forall s2, trust_wf (gs_db s2) -> tr_audits (gs_db s2) !! id_new RequestId (fresh' 0) = None ->
  answers_again proof key cached s2 ->
  let '(result, s') := process_rpc_inner config fresh' random' source' dispatch' proof r' s2 in
  result = Ok (answer_to r' response) /\ untouched (gs_db s2) (gs_db s') /\ gs_events s' = gs_events s2 /\
  gs_connections s' = gs_connections s2 /\ gs_idempotency s' !! key = Some cached.
Proof.
  intros Hr Hr' E. destruct (answered_is_cached _ _ _ _ _ _ _ _ _ _ Hr E) as (cached & Hc & Ha). exists cached.
  split; [done|]. intros s2 Hw Hn Hag.
  destruct (dispatched_runs fresh' random' source' dispatch' _ _ _ Hr') as (operation & payload & ->).
  apply dispatched_spec in Hr' as (_ & _ & _ & _ & _ & _ & Hk).
  destruct (cached_hit _ _ _ _ _ Hw Hn Hk Hag) as (db' & [_ Hu] & Eh). unfold db_bind at 1. rewrite Eh. cbn.
  rewrite Ha. split_and!; [done..|]. destruct Hag as (Hc2 & Ht & _). by apply map_lookup_filter_Some_2.
Qed.
End gateway_history.
