(* ===== verification/Rows.v ===== *)
(** SQL tables as lists of rows in rowid order, with the statements the
    repositories of crates/db run on them: a lookup, an UPDATE ... WHERE, a
    COUNT, an INSERT that is refused or ignored when a unique key is taken. *)
From stdpp Require Import prelude list.
From Stdlib Require Import Lia.
From S2P Require Import Prelude.

(** ** Statements *)

Section rows.
Context {R : Type}.
Implicit Types (p q : R -> bool) (l : list R) (r x : R).

(** SELECT ... WHERE p, LIMIT 1, in rowid order. *)
Definition sql_first p l : option R := List.find p l.
(** SELECT ... WHERE p. *)
Definition sql_where p l : list R := List.filter p l.
(** SELECT ... WHERE p ORDER BY key, ties in rowid order. *)
Definition sql_order (key : R -> list Z) p l : list R := sort_by_key key (sql_where p l).
(** SELECT COUNT( * ) ... WHERE p. *)
Definition sql_count p l : nat := length (sql_where p l).
(** SELECT EXISTS(... WHERE p). *)
Definition sql_exists p l : bool := existsb p l.
(** UPDATE ... SET f WHERE p. *)
Definition sql_update p (f : R -> R) l : list R := (fun r => if p r then f r else r) <$> l.
(** INSERT OR IGNORE: [taken] says which rows hold a unique key of [r]. *)
Definition sql_insert_or_ignore (taken : R -> bool) r l : list R := if existsb taken l then l else l ++ [r].

(** ** Lemmas *)

Lemma sql_first_some p l x : sql_first p l = Some x -> x ∈ l /\ p x = true.
Proof. intros H. apply List.find_some in H as [H1 H2]. by rewrite list_elem_of_In. Qed.

Lemma sql_first_none p l x : sql_first p l = None -> x ∈ l -> p x = false.
Proof. intros H Hx. eapply List.find_none; [done|]. by apply list_elem_of_In. Qed.

Lemma sql_first_is_some p l x : x ∈ l -> p x = true -> is_Some (sql_first p l).
Proof.
  intros Hx Hp. destruct (sql_first p l) eqn:E; [by eexists|].
  by rewrite (sql_first_none _ _ _ E Hx) in Hp.
Qed.

Lemma sql_first_ext p q l : (forall x, p x = q x) -> sql_first p l = sql_first q l.
Proof. intros H. unfold sql_first. induction l as [|y l IH]; simpl; [done|]. by rewrite H, IH. Qed.

Lemma sql_exists_first p l : sql_exists p l = bool_decide (is_Some (sql_first p l)).
Proof.
  unfold sql_exists, sql_first. induction l as [|y l IH]; simpl; [done|].
  by destruct (p y).
Qed.

(** An update that leaves the looked-up columns alone. *)
Lemma sql_first_update q p (f : R -> R) l :
  (forall r, p r = true -> q (f r) = q r) ->
  sql_first q (sql_update p f l) = (fun r => if p r then f r else r) <$> sql_first q l.
Proof.
  intros Hf. unfold sql_first, sql_update. induction l as [|y l IH]; simpl; [done|].
  destruct (p y) eqn:E; [rewrite (Hf y E)|]; (destruct (q y); simpl; [by rewrite E|done]).
Qed.

Lemma sql_first_app q l l' :
  sql_first q (l ++ l') = match sql_first q l with Some x => Some x | None => sql_first q l' end.
Proof.
  unfold sql_first. induction l as [|y l IH]; simpl; [done|]. by destruct (q y).
Qed.

Lemma sql_first_snoc_other q l r : q r = false -> sql_first q (l ++ [r]) = sql_first q l.
Proof.
  intros Hr. rewrite sql_first_app. unfold sql_first at 2. simpl. rewrite Hr.
  by destruct (sql_first q l).
Qed.

Lemma elem_of_sql_update p (f : R -> R) l x :
  x ∈ sql_update p f l <-> exists y, y ∈ l /\ x = (if p y then f y else y).
Proof. unfold sql_update. rewrite list_elem_of_fmap. split; intros (y & ? & ?); by exists y. Qed.

Lemma sql_update_id p l : sql_update p (fun r => r) l = l.
Proof.
  unfold sql_update. induction l as [|y l IH]; csimpl; [done|]. rewrite IH. by destruct (p y).
Qed.

Lemma sql_update_none p (f : R -> R) l : (forall x, x ∈ l -> p x = false) -> sql_update p f l = l.
Proof.
  unfold sql_update. induction l as [|y l IH]; intros H; csimpl; [done|].
  rewrite (H y), IH by set_solver. done.
Qed.

(** Columns an update leaves alone. *)
Lemma sql_update_column {K} (column : R -> K) p (f : R -> R) l :
  (forall r, p r = true -> column (f r) = column r) -> column <$> sql_update p f l = column <$> l.
Proof.
  intros H. unfold sql_update. induction l as [|y l IH]; csimpl; [done|]. rewrite IH. f_equal.
  destruct (p y) eqn:E; [by apply H|done].
Qed.

Lemma sql_where_elem p l x : x ∈ sql_where p l <-> x ∈ l /\ p x = true.
Proof. unfold sql_where. rewrite !list_elem_of_In. apply filter_In. Qed.

Lemma sql_count_app p l l' : sql_count p (l ++ l') = sql_count p l + sql_count p l'.
Proof. unfold sql_count, sql_where. by rewrite List.filter_app, length_app. Qed.

Lemma sql_count_zero p l : sql_count p l = 0 <-> sql_exists p l = false.
Proof.
  unfold sql_count, sql_where, sql_exists. induction l as [|y l IH]; simpl; [done|].
  by destruct (p y).
Qed.

(** Rows with a unique column: a row is what a lookup by that column finds. *)
Lemma sql_first_unique {K} `{EqDecision K} (column : R -> K) l x :
  NoDup (column <$> l) -> x ∈ l -> sql_first (fun r => bool_decide (column r = column x)) l = Some x.
Proof.
  induction l as [|y l IH]; csimpl; [set_solver|]. intros [Hy Hd]%NoDup_cons Hx. unfold sql_first. simpl.
  case_bool_decide as E.
  - apply elem_of_cons in Hx as [->|Hx]; [done|]. destruct Hy. rewrite E. by apply list_elem_of_fmap_2.
  - apply elem_of_cons in Hx as [->|Hx]; [done|]. by apply IH.
Qed.

Lemma sql_insert_or_ignore_nodup {K} (column : R -> K) (taken : R -> bool) r l :
  (forall x, column x = column r -> taken x = true) ->
  NoDup (column <$> l) -> NoDup (column <$> sql_insert_or_ignore taken r l).
Proof.
  intros Ht Hd. unfold sql_insert_or_ignore. destruct (existsb taken l) eqn:E; [done|].
  rewrite fmap_app. apply NoDup_app. split; [done|]. split; [|apply NoDup_singleton].
  intros k Hk. csimpl. rewrite list_elem_of_singleton. intros ->.
  apply list_elem_of_fmap in Hk as (x & Hx & Hl).
  assert (H : existsb taken l = true) by (apply existsb_elem; exists x; by rewrite Ht). by rewrite H in E.
Qed.
End rows.

(** A unique column. *)
Lemma column_inj {R K} (column : R -> K) (l : list R) x y :
  NoDup (column <$> l) -> x ∈ l -> y ∈ l -> column x = column y -> x = y.
Proof.
  induction l as [|z l IH]; csimpl; [by intros _ ?%not_elem_of_nil|]. intros [Hz Hd]%NoDup_cons Hx Hy E.
  apply elem_of_cons in Hx as [->|Hx]; apply elem_of_cons in Hy as [->|Hy]; [done|..].
  - destruct Hz. rewrite E. by apply list_elem_of_fmap_2.
  - destruct Hz. rewrite <- E. by apply list_elem_of_fmap_2.
  - by apply IH.
Qed.
Lemma column_snoc {R K} (column : R -> K) (l : list R) y :
  NoDup (column <$> l) -> (forall x, x ∈ l -> column x <> column y) -> NoDup (column <$> l ++ [y]).
Proof.
  intros Hd Hy. rewrite fmap_app. apply NoDup_app. split; [done|]. split; [|apply NoDup_singleton].
  intros i (x & -> & Hx)%list_elem_of_fmap. csimpl. rewrite list_elem_of_singleton. by apply Hy.
Qed.

(** ** Tables that are only updated and appended to *)

(** Every row of [l] is still in its place, moved by [P]; the new rows are in [Q]. *)
Definition grows {R} (P : R -> R -> Prop) (Q : R -> Prop) (l l' : list R) : Prop :=
  exists l1 l2, l' = l1 ++ l2 /\ Forall2 P l l1 /\ Forall Q l2.

Section grows.
Context {R : Type} (P : R -> R -> Prop) (Q : R -> Prop).
Context (P_refl : forall x, P x x) (P_trans : forall x y z, P x y -> P y z -> P x z).
Context (Q_moves : forall x y, Q x -> P x y -> Q y).
Implicit Types l : list R.

Lemma grows_refl l : grows P Q l l.
Proof.
  exists l, []. rewrite app_nil_r. split; [done|]. split; [|done]. clear -P_refl. by induction l; constructor.
Qed.

Lemma grows_trans l l' l'' : grows P Q l l' -> grows P Q l' l'' -> grows P Q l l''.
Proof.
  intros (l1 & l2 & -> & H1 & H2) (m1 & m2 & -> & H3 & H4).
  apply Forall2_app_inv_l in H3 as (a & b & Ha & Hb & ->).
  exists a, (b ++ m2). rewrite app_assoc. split; [done|]. split.
  - clear -H1 Ha P_trans. revert a Ha. induction H1; intros a Ha; inversion Ha; subst; constructor; eauto.
  - apply Forall_app. split; [|done]. clear -H2 Hb Q_moves. revert b Hb.
    induction H2; intros b Hb; inversion Hb; subst; constructor; eauto.
Qed.

Lemma grows_update p (f : R -> R) l :
  (forall x, x ∈ l -> p x = true -> P x (f x)) -> grows P Q l (sql_update p f l).
Proof.
  intros H. exists (sql_update p f l), []. rewrite app_nil_r. split; [done|]. split; [|done].
  unfold sql_update. clear -H P_refl. induction l as [|x l IH]; csimpl; constructor.
  - destruct (p x) eqn:E; [apply H; [set_solver|done]|done].
  - apply IH. intros y Hy. apply H. set_solver.
Qed.

Lemma grows_snoc r l : Q r -> grows P Q l (l ++ [r]).
Proof.
  intros Hr. exists l, [r]. split; [done|]. split; [|by constructor].
  clear -P_refl. by induction l; constructor.
Qed.

Lemma grows_insert taken r l : Q r -> grows P Q l (sql_insert_or_ignore taken r l).
Proof.
  intros Hr. unfold sql_insert_or_ignore. destruct (existsb taken l); [apply grows_refl|by apply grows_snoc].
Qed.
End grows.

Section grows_rows.
Context {R : Type} (P : R -> R -> Prop) (Q : R -> Prop).
Implicit Types l : list R.

Lemma grows_elem l l' x : grows P Q l l' -> x ∈ l -> exists y, y ∈ l' /\ P x y.
Proof.
  intros (l1 & l2 & -> & H & _) Hx. clear -H Hx. induction H as [|a b l l1 Hab H IH]; [by apply not_elem_of_nil in Hx|].
  apply elem_of_cons in Hx as [->|Hx]; [exists b; split; [set_solver|done]|].
  destruct (IH Hx) as (y & Hy & HP). exists y. split; [set_solver|done].
Qed.

Lemma grows_elem_inv l l' y : grows P Q l l' -> y ∈ l' -> (exists x, x ∈ l /\ P x y) \/ Q y.
Proof.
  intros (l1 & l2 & -> & H & HQ) Hy. apply elem_of_app in Hy as [Hy|Hy]; [left|right; by eapply Forall_forall in HQ].
  clear -H Hy. induction H as [|a b l l1 Hab H IH]; [by apply not_elem_of_nil in Hy|].
  apply elem_of_cons in Hy as [->|Hy]; [exists a; split; [set_solver|done]|].
  destruct (IH Hy) as (x & Hx & HP). exists x. split; [set_solver|done].
Qed.

(** A lookup by columns the moves keep. *)
Lemma grows_first (q : R -> bool) l l' x :
  (forall x y, P x y -> q y = q x) -> grows P Q l l' -> sql_first q l = Some x ->
  exists y, sql_first q l' = Some y /\ P x y.
Proof.
  intros Hq (l1 & l2 & -> & H & _) Hx. rewrite sql_first_app.
  enough (exists y, sql_first q l1 = Some y /\ P x y) as (y & -> & HP) by eauto.
  clear l2. induction H as [|a b l l1 Hab H IH]; [done|]. unfold sql_first in *. simpl in *.
  rewrite (Hq _ _ Hab). destruct (q a); [by simplify_eq; eauto|by apply IH].
Qed.

(** Columns the moves keep: those of the old rows, then those of the new ones. *)
Lemma grows_column {K} (column : R -> K) l l' :
  (forall x y, P x y -> column y = column x) -> grows P Q l l' ->
  exists new, column <$> l' = (column <$> l) ++ (column <$> new) /\ Forall Q new.
Proof.
  intros Hc (l1 & l2 & -> & H & HQ). exists l2. rewrite fmap_app. split; [|done]. f_equal.
  clear -H Hc. induction H as [|a b l l1 Hab H IH]; csimpl; [done|]. by rewrite IH, (Hc a b).
Qed.
Lemma grows_none_column {K} (column : R -> K) l l' :
  (forall x y, P x y -> column y = column x) -> (forall x, ~ Q x) -> grows P Q l l' -> column <$> l' = column <$> l.
Proof.
  intros Hc HQ H. destruct (grows_column column l l' Hc H) as (new & -> & Hn).
  destruct new as [|x new]; [by rewrite app_nil_r|]. inversion Hn. by destruct (HQ x).
Qed.

Lemma grows_weaken (P' : R -> R -> Prop) (Q' : R -> Prop) l l' :
  (forall x y, P x y -> P' x y) -> (forall x, Q x -> Q' x) -> grows P Q l l' -> grows P' Q' l l'.
Proof.
  intros HP HQ (l1 & l2 & -> & H1 & H2). exists l1, l2. split; [done|].
  split; [by eapply Forall2_impl|by eapply Forall_impl].
Qed.
End grows_rows.
