(* ===== verification/Team.v ===== *)
(** Team work: the tasks Agents delegate to one another, the rounds that run
    them, who may write into a session, and the durable messages that start a
    round (core/src/vibex_use.rs, core/src/delegation.rs, db/src/vibex_use.rs
    with its submodules, and the message submissions of db/src/runtime.rs). *)
From stdpp Require Import prelude strings list gmap.
From Stdlib Require Import NArith ZArith Lia.
From S2P Require Import Prelude CoreTypes Rows Storage Ir Json.

(** ** References (core/src/vibex_use.rs) *)

Inductive VibexUseResourceKind : Type :=
| RefSession | RefTask | RefExecution | RefOperation | RefGroup | RefWorkspace | RefRuntimeOption | RefCatalog
| RefResource.
#[export] Instance VibexUseResourceKind_eq_dec : EqDecision VibexUseResourceKind.
Proof. solve_decision. Defined.
Definition resource_kind_as_str (k : VibexUseResourceKind) : string :=
  match k with
  | RefSession => "session"
  | RefTask => "task"
  | RefExecution => "execution"
  | RefOperation => "operation"
  | RefGroup => "group"
  | RefWorkspace => "workspace"
  | RefRuntimeOption => "runtime-option"
  | RefCatalog => "catalog"
  | RefResource => "resource"
  end.
Definition resource_kind_parse : str -> option VibexUseResourceKind :=
  named [("session", RefSession); ("task", RefTask); ("execution", RefExecution); ("operation", RefOperation);
         ("group", RefGroup); ("workspace", RefWorkspace); ("runtime-option", RefRuntimeOption);
         ("catalog", RefCatalog); ("resource", RefResource)].

Record VibexUseRef : Type := mkRef { rf_kind : VibexUseResourceKind; rf_id : str }.
#[export] Instance VibexUseRef_eq_dec : EqDecision VibexUseRef.
Proof. solve_decision. Defined.
Definition VIBEX_USE_REF_SCHEME : str := lit "vibex".
Definition VibexUseRef_parse (value : str) : option VibexUseRef :=
  let value := trim value in
  rest ← match strip_prefix (lit "vibex://") value with
         | Some rest => Some rest
         | None => strip_prefix (lit "vibex:") value
         end;
  '(kind, id) ← split_once 47 rest;
  kind ← resource_kind_parse kind;
  let id := trim id in
  if is_empty id || (256 <? utf8_len id)%nat || existsb is_control id then None else Some (mkRef kind id).
Definition as_uri (r : VibexUseRef) : str :=
  VIBEX_USE_REF_SCHEME ++ lit "://" ++ lit (resource_kind_as_str (rf_kind r)) ++ lit "/" ++ rf_id r.

Definition VibexSessionId : id_kind := mkIdKind "VibexSessionId" "session".
Definition AgentDelegationId : id_kind := mkIdKind "AgentDelegationId" "delegation".
Definition VibexExecutionId : id_kind := mkIdKind "VibexExecutionId" "execution".
Definition VibexOperationId : id_kind := mkIdKind "VibexOperationId" "operation".
Definition MessageSubmissionId : id_kind := mkIdKind "MessageSubmissionId" "submission".
Definition TimelineItemId : id_kind := mkIdKind "TimelineItemId" "timeline".
Definition EventId : id_kind := mkIdKind "EventId" "event".
(** [(self.kind == kind).then(|| Id::parse(id).ok()).flatten()]. *)
Definition ref_id_of (kind : VibexUseResourceKind) (k : id_kind) (r : VibexUseRef) : option ident :=
  if bool_decide (rf_kind r = kind) then match id_parse k (rf_id r) with Ok id => Some id | Err _ => None end
  else None.
Definition ref_session_id : VibexUseRef -> option ident := ref_id_of RefSession VibexSessionId.
Definition ref_task_id : VibexUseRef -> option ident := ref_id_of RefTask AgentDelegationId.
Definition ref_execution_id : VibexUseRef -> option ident := ref_id_of RefExecution VibexExecutionId.
Definition ref_operation_id : VibexUseRef -> option ident := ref_id_of RefOperation VibexOperationId.

Inductive VibexUseScope : Type := ScopeOwned | ScopeControlled | ScopeReferenced | ScopeReadOnly.
Definition can_write (scope : VibexUseScope) : bool :=
  match scope with ScopeOwned | ScopeControlled => true | _ => false end.
Definition can_read_content (scope : VibexUseScope) : bool :=
  match scope with ScopeReadOnly => false | _ => true end.

(** ** Phases and outcomes *)

Inductive DelegationCompletionPolicy : Type := SingleTurnLegacy | OwnerReview.
#[export] Instance DelegationCompletionPolicy_eq_dec : EqDecision DelegationCompletionPolicy.
Proof. solve_decision. Defined.
Inductive DelegationTaskPhase : Type :=
| TaskQueued | TaskStarting | TaskActive | TaskAwaitingReview | TaskCancelling | TaskCompleted | TaskFailed
| TaskCancelled.
#[export] Instance DelegationTaskPhase_eq_dec : EqDecision DelegationTaskPhase.
Proof. solve_decision. Defined.
Definition phase_is_terminal (p : DelegationTaskPhase) : bool :=
  match p with TaskCompleted | TaskFailed | TaskCancelled => true | _ => false end.
Definition phase_as_str (p : DelegationTaskPhase) : string :=
  match p with
  | TaskQueued => "queued"
  | TaskStarting => "starting"
  | TaskActive => "active"
  | TaskAwaitingReview => "awaiting_review"
  | TaskCancelling => "cancelling"
  | TaskCompleted => "completed"
  | TaskFailed => "failed"
  | TaskCancelled => "cancelled"
  end.
Inductive AgentDelegationStatus : Type :=
| StatusQueued | StatusStarting | StatusRunning | StatusNeedsInput | StatusCompleted | StatusFailed
| StatusCancelled.
#[export] Instance AgentDelegationStatus_eq_dec : EqDecision AgentDelegationStatus.
Proof. solve_decision. Defined.
Definition phase_for_legacy_status (s : AgentDelegationStatus) : DelegationTaskPhase :=
  match s with
  | StatusQueued => TaskQueued
  | StatusStarting => TaskStarting
  | StatusRunning | StatusNeedsInput => TaskActive
  | StatusCompleted => TaskCompleted
  | StatusFailed => TaskFailed
  | StatusCancelled => TaskCancelled
  end.
Definition legacy_status_for_phase (p : DelegationTaskPhase) : AgentDelegationStatus :=
  match p with
  | TaskQueued => StatusQueued
  | TaskStarting => StatusStarting
  | TaskActive | TaskAwaitingReview | TaskCancelling => StatusRunning
  | TaskCompleted => StatusCompleted
  | TaskFailed => StatusFailed
  | TaskCancelled => StatusCancelled
  end.
Definition status_is_terminal (s : AgentDelegationStatus) : bool :=
  match s with StatusCompleted | StatusFailed | StatusCancelled => true | _ => false end.
Inductive DelegationOwnershipKind : Type := OwnedChild | ControlledExisting.
#[export] Instance DelegationOwnershipKind_eq_dec : EqDecision DelegationOwnershipKind.
Proof. solve_decision. Defined.
Inductive VibexUseUnavailableReason : Type :=
| AgentDisabled | AgentNotInstalled | RequiresAuthentication | RequiresConfiguration | ModelUnavailable
| DeliveryUnsupported | NoPresentationClient | NoShell | ForeignAuthority | CrossWorkspaceUnsupported
| TaskBudgetExhausted | DepthLimitReached.
#[export] Instance VibexUseUnavailableReason_eq_dec : EqDecision VibexUseUnavailableReason.
Proof. solve_decision. Defined.
Definition reason_as_str (r : VibexUseUnavailableReason) : string :=
  match r with
  | AgentDisabled => "agent_disabled"
  | AgentNotInstalled => "agent_not_installed"
  | RequiresAuthentication => "requires_authentication"
  | RequiresConfiguration => "requires_configuration"
  | ModelUnavailable => "model_unavailable"
  | DeliveryUnsupported => "delivery_unsupported"
  | NoPresentationClient => "no_presentation_client"
  | NoShell => "no_shell"
  | ForeignAuthority => "foreign_authority"
  | CrossWorkspaceUnsupported => "cross_workspace_unsupported"
  | TaskBudgetExhausted => "task_budget_exhausted"
  | DepthLimitReached => "depth_limit_reached"
  end.
Inductive DelegationBlockedOn : Type :=
| BlockedPermission (request_id : str)
| BlockedQuestion (request_id : str)
| BlockedPlanApproval (request_id : str)
| BlockedConfiguration (reason : VibexUseUnavailableReason)
| BlockedResource (reason : str).
#[export] Instance DelegationBlockedOn_eq_dec : EqDecision DelegationBlockedOn.
Proof. solve_decision. Defined.
Definition blocked_request_id (b : DelegationBlockedOn) : option str :=
  match b with
  | BlockedPermission request_id | BlockedQuestion request_id | BlockedPlanApproval request_id => Some request_id
  | BlockedConfiguration _ | BlockedResource _ => None
  end.
Definition attention_kind (b : DelegationBlockedOn) : string :=
  match b with
  | BlockedPermission _ => "permission"
  | BlockedQuestion _ => "question"
  | BlockedPlanApproval _ => "plan_approval"
  | BlockedConfiguration _ => "configuration"
  | BlockedResource _ => "resource"
  end.
(** The serde form: the tag, then the variant's own field. *)
Definition blocked_fields (b : DelegationBlockedOn) : list (str * json) :=
  (lit "kind", JString (lit (attention_kind b))) ::
  match b with
  | BlockedPermission request_id | BlockedQuestion request_id | BlockedPlanApproval request_id =>
      [(lit "request_id", JString request_id)]
  | BlockedConfiguration reason => [(lit "reason", JString (lit (reason_as_str reason)))]
  | BlockedResource reason => [(lit "reason", JString reason)]
  end.

Inductive ExecutionOutcome : Type :=
| OutCompleted | OutActionsOnly | OutEmptyReply | OutRefusal | OutMaxTokens | OutAuthRequired | OutCancelled
| OutFailed | OutAmbiguous | OutRunning | OutQueued.
#[export] Instance ExecutionOutcome_eq_dec : EqDecision ExecutionOutcome.
Proof. solve_decision. Defined.
Definition outcome_is_settled (o : ExecutionOutcome) : bool :=
  match o with OutRunning | OutQueued => false | _ => true end.
Definition outcome_as_str (o : ExecutionOutcome) : string :=
  match o with
  | OutCompleted => "completed"
  | OutActionsOnly => "actions_only"
  | OutEmptyReply => "empty_reply"
  | OutRefusal => "refusal"
  | OutMaxTokens => "max_tokens"
  | OutAuthRequired => "auth_required"
  | OutCancelled => "cancelled"
  | OutFailed => "failed"
  | OutAmbiguous => "ambiguous"
  | OutRunning => "running"
  | OutQueued => "queued"
  end.
Inductive ExecutionUsageState : Type := UsageReported | UsagePartial | UsageUnknown.
#[export] Instance ExecutionUsageState_eq_dec : EqDecision ExecutionUsageState.
Proof. solve_decision. Defined.
Inductive MessageProvenance : Type :=
| HumanInput
| DelegatedInput (actor_session_ref : VibexUseRef) (task_ref : option VibexUseRef) (operation_ref : VibexUseRef)
| TeamResultInput (source_task_ref source_execution_ref : VibexUseRef) (event_id : str)
| SystemContinuation (policy_id trigger_event_id : str)
| LegacyUnknown.
#[export] Instance MessageProvenance_eq_dec : EqDecision MessageProvenance.
Proof. solve_decision. Defined.
Definition provenance_kind (p : MessageProvenance) : string :=
  match p with
  | HumanInput => "human_input"
  | DelegatedInput _ _ _ => "delegated_input"
  | TeamResultInput _ _ _ => "team_result_input"
  | SystemContinuation _ _ => "system_continuation"
  | LegacyUnknown => "legacy_unknown"
  end.

Inductive VibexUseOperationState : Type := OpAccepted | OpInProgress | OpSucceeded | OpFailed | OpAmbiguous.
#[export] Instance VibexUseOperationState_eq_dec : EqDecision VibexUseOperationState.
Proof. solve_decision. Defined.
Definition operation_state_is_terminal (s : VibexUseOperationState) : bool :=
  match s with OpSucceeded | OpFailed | OpAmbiguous => true | _ => false end.

Inductive DelegationTaskEventKind : Type :=
| EvTaskAccepted | EvTaskStarted | EvTaskBlocked | EvTaskUnblocked | EvExecutionAccepted | EvExecutionStarted
| EvExecutionFinished | EvExecutionAmbiguous | EvTaskResultAvailable | EvTaskFinished | EvTaskCancelRequested
| EvTaskCancelled | EvControllerChanged | EvGroupMembershipChanged | EvPresentationApplied
| EvPresentationDeferred.
#[export] Instance DelegationTaskEventKind_eq_dec : EqDecision DelegationTaskEventKind.
Proof. solve_decision. Defined.
Definition event_kind_as_str (k : DelegationTaskEventKind) : string :=
  match k with
  | EvTaskAccepted => "task_accepted"
  | EvTaskStarted => "task_started"
  | EvTaskBlocked => "task_blocked"
  | EvTaskUnblocked => "task_unblocked"
  | EvExecutionAccepted => "execution_accepted"
  | EvExecutionStarted => "execution_started"
  | EvExecutionFinished => "execution_finished"
  | EvExecutionAmbiguous => "execution_ambiguous"
  | EvTaskResultAvailable => "task_result_available"
  | EvTaskFinished => "task_finished"
  | EvTaskCancelRequested => "task_cancel_requested"
  | EvTaskCancelled => "task_cancelled"
  | EvControllerChanged => "controller_changed"
  | EvGroupMembershipChanged => "group_membership_changed"
  | EvPresentationApplied => "presentation_applied"
  | EvPresentationDeferred => "presentation_deferred"
  end.
Definition stable_id (k : DelegationTaskEventKind) (task_id : ident) (execution_id : option ident) : str :=
  match execution_id with
  | Some execution_id => lit "event_execution_" ++ lit (event_kind_as_str k) ++ lit "_" ++ execution_id
  | None => lit "event_terminal_" ++ lit (event_kind_as_str k) ++ lit "_" ++ task_id
  end.
Definition is_attention (k : DelegationTaskEventKind) : bool :=
  match k with EvTaskBlocked | EvExecutionAmbiguous | EvControllerChanged => true | _ => false end.
Definition settles_a_wait (k : DelegationTaskEventKind) : bool :=
  match k with
  | EvExecutionFinished | EvTaskResultAvailable | EvTaskFinished | EvTaskCancelled => true
  | _ => false
  end.

(** [MessageSubmissionStatus] (core/src/runtime.rs). *)
Inductive MessageSubmissionStatus : Type :=
| AwaitingRuntime | ReadyToDispatch | AboutToPrompt | Dispatched | SubmissionCompleted | SubmissionFailed
| SubmissionCancelled | AmbiguousPromptDispatch.
#[export] Instance MessageSubmissionStatus_eq_dec : EqDecision MessageSubmissionStatus.
Proof. solve_decision. Defined.
Definition submission_is_terminal (s : MessageSubmissionStatus) : bool :=
  match s with
  | SubmissionCompleted | SubmissionFailed | SubmissionCancelled | AmbiguousPromptDispatch => true
  | _ => false
  end.
Definition can_transition_to (s next : MessageSubmissionStatus) : bool :=
  negb (bool_decide (s = next)) &&
  match s with
  | AwaitingRuntime =>
      match next with ReadyToDispatch | SubmissionFailed | SubmissionCancelled => true | _ => false end
  | ReadyToDispatch =>
      match next with
      | AboutToPrompt | AwaitingRuntime | SubmissionFailed | SubmissionCancelled => true
      | _ => false
      end
  | AboutToPrompt =>
      match next with Dispatched | SubmissionFailed | AmbiguousPromptDispatch => true | _ => false end
  | Dispatched => bool_decide (next = SubmissionCompleted)
  | SubmissionCompleted | SubmissionFailed | SubmissionCancelled | AmbiguousPromptDispatch => false
  end.

(** ** What tasks and rounds carry *)

(** [VibexUseRef::session] and its siblings. *)
Definition session_ref (id : ident) : VibexUseRef := mkRef RefSession id.
Definition task_ref (id : ident) : VibexUseRef := mkRef RefTask id.
Definition execution_ref (id : ident) : VibexUseRef := mkRef RefExecution id.
Definition operation_ref (id : ident) : VibexUseRef := mkRef RefOperation id.
Definition resource_ref (session_id : ident) (sequence : Z) : VibexUseRef :=
  mkRef RefResource (session_id ++ lit "/" ++ decimal sequence).

Record ExecutionResultRange : Type := mkRange { er_start_sequence : Z; er_end_sequence : Z }.
#[export] Instance ExecutionResultRange_eq_dec : EqDecision ExecutionResultRange.
Proof. solve_decision. Defined.
Inductive SessionReadView : Type := ViewSummary | ViewConversation | ViewTimeline.
#[export] Instance SessionReadView_eq_dec : EqDecision SessionReadView.
Proof. solve_decision. Defined.
Inductive SessionReadAnchor : Type := AnchorLatest | AnchorAfter (sequence : Z) | AnchorBefore (sequence : Z).
#[export] Instance SessionReadAnchor_eq_dec : EqDecision SessionReadAnchor.
Proof. solve_decision. Defined.
Record SessionReadCursor : Type := mkCursor {
  rc_session_ref : VibexUseRef;
  rc_view : SessionReadView;
  rc_anchor : SessionReadAnchor;
  rc_range : option ExecutionResultRange;
  rc_snapshot_end_sequence : option Z;
  rc_character_offset : nat;
  rc_execution_ref : option VibexUseRef;
  rc_resource_ref : option VibexUseRef
}.
#[export] Instance SessionReadCursor_eq_dec : EqDecision SessionReadCursor.
Proof. solve_decision. Defined.
Record DelegationContextRef : Type := mkContextRef {
  cr_read_cursor : option SessionReadCursor;
  cr_max_items : nat;
  cr_session_ref : VibexUseRef;
  cr_from_sequence : option Z;
  cr_through_sequence : option Z;
  cr_view : option SessionReadView;
  cr_included_chars : nat;
  cr_truncated : bool
}.
#[export] Instance DelegationContextRef_eq_dec : EqDecision DelegationContextRef.
Proof. solve_decision. Defined.
Record DelegationRuntimeSummary : Type := mkRuntimeSummary {
  rs_agent_id : ident;
  rs_auth_kind : str;
  rs_configuration_label : str;
  rs_provider_profile_id : option ident;
  rs_model_id : option str;
  rs_reasoning_effort : option str;
  rs_mode_id : option str;
  rs_config_values : gmap str str;
  rs_catalog_revision : Z
}.
#[export] Instance DelegationRuntimeSummary_eq_dec : EqDecision DelegationRuntimeSummary.
Proof. solve_decision. Defined.
(** core/src/usage.rs. *)
Record AgentUsageTokenValues : Type := mkTokens {
  ut_input_tokens : option Z;
  ut_output_tokens : option Z;
  ut_thought_tokens : option Z;
  ut_cached_read_tokens : option Z;
  ut_cached_write_tokens : option Z;
  ut_total_tokens : option Z
}.
#[export] Instance AgentUsageTokenValues_eq_dec : EqDecision AgentUsageTokenValues.
Proof. solve_decision. Defined.
Definition no_tokens : AgentUsageTokenValues := mkTokens None None None None None None.
Definition token_values (t : AgentUsageTokenValues) : list (option Z) :=
  [ut_input_tokens t; ut_output_tokens t; ut_thought_tokens t; ut_cached_read_tokens t; ut_cached_write_tokens t;
   ut_total_tokens t].
Definition any_reported (t : AgentUsageTokenValues) : bool :=
  existsb (fun v => bool_decide (is_Some v)) (token_values t).

Record DelegationResultRef : Type := mkResultRef {
  rr_execution_ref : VibexUseRef;
  rr_session_ref : VibexUseRef;
  rr_outcome : ExecutionOutcome;
  rr_stop_reason : option str;
  rr_summary : option str;
  rr_result_ranges : list ExecutionResultRange;
  rr_artifact_refs : list VibexUseRef;
  rr_usage : ExecutionUsageState;
  rr_usage_tokens : AgentUsageTokenValues;
  rr_api_requests : option Z;
  rr_truncated : bool
}.

(** ** Rounds *)

(** The columns of a round that are written once, when it is accepted. *)
Record ExecutionOrigin : Type := mkOrigin {
  eo_id : ident;
  eo_task_id : option ident;
  eo_session_id : ident;
  eo_root_session_id : option ident;
  eo_submission_id : ident;
  eo_input_idempotency_key : str;
  eo_provenance : MessageProvenance;
  eo_created_at_ms : Z;
  eo_origin_task_id : option ident;
  eo_controller_revision : Z
}.
(** The columns its settlement fixes. *)
Record ExecutionResult : Type := mkResult {
  xr_outcome : ExecutionOutcome;
  xr_stop_reason : option str;
  xr_error_code : option str;
  xr_summary : option str;
  xr_result_ranges : list ExecutionResultRange;
  xr_artifact_refs : list VibexUseRef;
  xr_usage : ExecutionUsageState;
  xr_truncated : bool;
  xr_end_sequence : option Z;
  xr_finished_at_ms : option Z
}.
(** [DelegationExecution]: its references are those of its ids. *)
Record DelegationExecution : Type := mkExecution {
  ex_origin : ExecutionOrigin;
  ex_result : ExecutionResult;
  ex_start_sequence : option Z;
  ex_runtime_selection_revision : Z;
  ex_usage_tokens : AgentUsageTokenValues;
  ex_api_requests : option Z;
  ex_blocked_on : option DelegationBlockedOn;
  ex_interrupt_requested_at_ms : option Z;
  ex_updated_at_ms : Z
}.
Definition ex_id (e : DelegationExecution) : ident := eo_id (ex_origin e).
Definition ex_task_id (e : DelegationExecution) : option ident := eo_task_id (ex_origin e).
Definition ex_session_id (e : DelegationExecution) : ident := eo_session_id (ex_origin e).
Definition ex_submission_id (e : DelegationExecution) : ident := eo_submission_id (ex_origin e).
Definition ex_outcome (e : DelegationExecution) : ExecutionOutcome := xr_outcome (ex_result e).
Definition is_settled (e : DelegationExecution) : bool := outcome_is_settled (ex_outcome e).
Definition result_ref (e : DelegationExecution) : DelegationResultRef :=
  let r := ex_result e in
  mkResultRef (execution_ref (ex_id e)) (session_ref (ex_session_id e)) (xr_outcome r) (xr_stop_reason r)
    (xr_summary r) (xr_result_ranges r) (xr_artifact_refs r) (xr_usage r) (ex_usage_tokens e) (ex_api_requests e)
    (xr_truncated r).
Definition with_result (r : ExecutionResult) (e : DelegationExecution) : DelegationExecution :=
  mkExecution (ex_origin e) r (ex_start_sequence e) (ex_runtime_selection_revision e) (ex_usage_tokens e)
    (ex_api_requests e) (ex_blocked_on e) (ex_interrupt_requested_at_ms e) (ex_updated_at_ms e).
Definition touch_execution (now : Z) (e : DelegationExecution) : DelegationExecution :=
  mkExecution (ex_origin e) (ex_result e) (ex_start_sequence e) (ex_runtime_selection_revision e)
    (ex_usage_tokens e) (ex_api_requests e) (ex_blocked_on e) (ex_interrupt_requested_at_ms e) now.
Definition with_blocked_on (b : option DelegationBlockedOn) (now : Z) (e : DelegationExecution)
    : DelegationExecution :=
  mkExecution (ex_origin e) (ex_result e) (ex_start_sequence e) (ex_runtime_selection_revision e)
    (ex_usage_tokens e) (ex_api_requests e) b (ex_interrupt_requested_at_ms e) now.

(** ** Tasks (core/src/delegation.rs) *)

(** The columns of a task that its reservation fixes. *)
Record TaskTerms : Type := mkTerms {
  tt_id : ident;
  tt_parent_session_id : ident;
  tt_idempotency_key : str;
  tt_title : str;
  tt_task_summary : str;
  tt_requested_agent_id : option ident;
  tt_completion_policy : DelegationCompletionPolicy;
  tt_ownership_kind : DelegationOwnershipKind;
  tt_follows_task_id : option ident;
  tt_created_at_ms : Z;
  tt_parent_task_id : option ident
}.
(** How far it is. *)
Record TaskProgress : Type := mkProgress {
  tp_status : AgentDelegationStatus;
  tp_phase : DelegationTaskPhase;
  tp_result_summary : option str;
  tp_error_code : option str;
  tp_revision : Z;
  tp_started_at_ms : option Z;
  tp_completed_at_ms : option Z;
  tp_finished_at_ms : option Z;
  tp_cancellation_requested_at_ms : option Z
}.
(** The columns [update_delegation_vibex_use_fields] writes. *)
Record TaskWork : Type := mkWork {
  tw_current_execution_id : option ident;
  tw_blocked_on : option DelegationBlockedOn;
  tw_context_refs : list DelegationContextRef;
  tw_acceptance_criteria : list str;
  tw_requested_runtime : option DelegationRuntimeSummary;
  tw_effective_runtime : option DelegationRuntimeSummary;
  tw_result_refs : list DelegationResultRef;
  tw_controller_revision : Z;
  tw_root_session_id : option ident;
  tw_payload_fingerprint : option str
}.
Record AgentDelegation : Type := mkDelegation {
  ad_terms : TaskTerms;
  ad_progress : TaskProgress;
  ad_work : TaskWork;
  ad_child_session_id : option ident;
  ad_effective_agent_id : option ident;
  ad_parent_timeline_item_id : option ident;
  ad_updated_at_ms : Z;
  ad_cancellation_last_attempt_at_ms : option Z
}.
Definition ad_id (t : AgentDelegation) : ident := tt_id (ad_terms t).
Definition ad_parent_session_id (t : AgentDelegation) : ident := tt_parent_session_id (ad_terms t).
Definition ad_revision (t : AgentDelegation) : Z := tp_revision (ad_progress t).
(** [AgentDelegation::phase]: a row that predates the phase column has only its status. *)
Definition phase (t : AgentDelegation) : DelegationTaskPhase :=
  if bool_decide (tp_phase (ad_progress t) = TaskQueued) then phase_for_legacy_status (tp_status (ad_progress t))
  else tp_phase (ad_progress t).
Definition is_terminal (t : AgentDelegation) : bool := phase_is_terminal (tp_phase (ad_progress t)).
Definition accepts_new_execution (t : AgentDelegation) : bool :=
  match phase t with TaskQueued | TaskActive | TaskAwaitingReview => true | _ => false end.
(** [task.root_session_id.as_ref().or(Some(&task.parent_session_id))]. *)
Definition task_root (t : AgentDelegation) : ident :=
  default (ad_parent_session_id t) (tw_root_session_id (ad_work t)).
Definition with_progress (p : TaskProgress) (now : Z) (t : AgentDelegation) : AgentDelegation :=
  mkDelegation (ad_terms t) p (ad_work t) (ad_child_session_id t) (ad_effective_agent_id t)
    (ad_parent_timeline_item_id t) now (ad_cancellation_last_attempt_at_ms t).
Definition with_work (w : TaskWork) (now : Z) (t : AgentDelegation) : AgentDelegation :=
  mkDelegation (ad_terms t) (ad_progress t) w (ad_child_session_id t) (ad_effective_agent_id t)
    (ad_parent_timeline_item_id t) now (ad_cancellation_last_attempt_at_ms t).
(** A row of the historical single-turn bridge. *)
Definition single_turn_legacy (id parent_session_id : ident) (idempotency_key title task_summary : str)
    (effective_agent_id : option ident) (status : AgentDelegationStatus) (now_ms : Z) : AgentDelegation :=
  mkDelegation
    (mkTerms id parent_session_id idempotency_key title task_summary None SingleTurnLegacy OwnedChild None now_ms None)
    (mkProgress status (phase_for_legacy_status status) None None 1 (Some now_ms) None None None)
    (mkWork None None [] [] None None [] 0 None None) None effective_agent_id None now_ms None.

(** ** Controllers, edges, grants *)

Record SessionController : Type := mkController {
  sc_session_id : ident;
  sc_owner_task_id : option ident;
  sc_owner_parent_session_id : option ident;
  sc_revision : Z;
  sc_human_controlled : bool;
  sc_updated_at_ms : Z
}.
Record SessionOwnershipEdge : Type := mkEdge {
  oe_child_session_id : ident;
  oe_parent_session_id : ident;
  oe_created_by_task_id : option ident;
  oe_created_at_ms : Z;
  oe_updated_at_ms : Z;
  oe_root_session_id : option ident
}.
Record SessionGrantRecord : Type := mkGrant {
  sg_grantee_session_id : ident;
  sg_target_session_id : ident;
  sg_scope : str;
  sg_granted_by : str;
  sg_revision : Z;
  sg_created_at_ms : Z;
  sg_updated_at_ms : Z
}.

(** ** Operations and events *)

Record VibexUseOperationResource : Type := mkResource { or_kind : str; or_reference : VibexUseRef }.
Record VibexUseOperation : Type := mkOperation {
  uo_id : ident;
  uo_authority : str;
  uo_actor_key : str;
  uo_tool : str;
  uo_caller_key : str;
  uo_payload_fingerprint : str;
  uo_state : VibexUseOperationState;
  uo_error_code : option str;
  uo_error_message : option str;
  uo_retryable : bool;
  uo_resources : list VibexUseOperationResource;
  uo_checkpoint : gmap str str;
  uo_created_at_ms : Z;
  uo_updated_at_ms : Z
}.
(** [format!("{}\u{1f}{}", authority, actor_key)]. *)
Definition authority_key (o : VibexUseOperation) : str := uo_authority o ++ 31%N :: uo_actor_key o.
Record DelegationTaskEvent : Type := mkEvent {
  ev_cursor : Z;
  ev_event_id : str;
  ev_kind : DelegationTaskEventKind;
  ev_task_id : option ident;
  ev_session_id : option ident;
  ev_root_session_id : option ident;
  ev_revision : Z;
  ev_payload : json;
  ev_occurred_at_ms : Z
}.
Record EventDelivery : Type := mkDelivery {
  dl_event_id : str;
  dl_consumer_key : str;
  dl_delivered_at_ms : Z;
  dl_acknowledged_at_ms : option Z
}.

(** ** Messages (core/src/agent.rs, core/src/timeline.rs, core/src/runtime.rs) *)

Inductive RuntimeAuthSource : Type :=
| AuthProviderProfile (provider_profile_id : ident)
| AuthAgentAccount (auth_context_id : ident)
| AuthModelRoute (route_id : ident).
#[export] Instance RuntimeAuthSource_eq_dec : EqDecision RuntimeAuthSource.
Proof. solve_decision. Defined.
Inductive RuntimeModelSelection : Type := ExplicitModel (model_id : str) | AgentDefaultModel.
#[export] Instance RuntimeModelSelection_eq_dec : EqDecision RuntimeModelSelection.
Proof. solve_decision. Defined.
Record SessionRuntimeSelection : Type := mkSelection {
  sr_agent_id : ident;
  sr_auth_source : RuntimeAuthSource;
  sr_model : RuntimeModelSelection;
  sr_reasoning_effort : option str;
  sr_mode_id : option str;
  sr_config_values : gmap str str
}.
#[export] Instance SessionRuntimeSelection_eq_dec : EqDecision SessionRuntimeSelection.
Proof. solve_decision. Defined.
Inductive RuntimeSwitchPolicy : Type := SwitchAutomatic | PreferLiveMutation | PreferResume | ForceFreshSession.
#[export] Instance RuntimeSwitchPolicy_eq_dec : EqDecision RuntimeSwitchPolicy.
Proof. solve_decision. Defined.
Record MessageAttachment : Type := mkAttachment {
  at_label : str;
  at_mime_type : option str;
  at_uri : option str;
  at_inline_text_offset : option Z
}.
#[export] Instance MessageAttachment_eq_dec : EqDecision MessageAttachment.
Proof. solve_decision. Defined.
Inductive VibexUseMentionKind : Type := MentionAgent | MentionSession.
#[export] Instance VibexUseMentionKind_eq_dec : EqDecision VibexUseMentionKind.
Proof. solve_decision. Defined.
Record VibexUseMention : Type := mkMention {
  mn_kind : VibexUseMentionKind;
  mn_reference : VibexUseRef;
  mn_agent_id : option ident;
  mn_label : option str
}.
#[export] Instance VibexUseMention_eq_dec : EqDecision VibexUseMention.
Proof. solve_decision. Defined.
Inductive UserMessageDelivery : Type := DeliverPrompt | DeliverSteer | DeliverResend.
#[export] Instance UserMessageDelivery_eq_dec : EqDecision UserMessageDelivery.
Proof. solve_decision. Defined.
Record SendAgentMessageRequest : Type := mkRequest {
  rq_session_id : ident;
  rq_message_idempotency_key : str;
  rq_desired_runtime : SessionRuntimeSelection;
  rq_text : str;
  rq_attachments : list MessageAttachment;
  rq_mentions : list VibexUseMention;
  rq_reasoning_effort : option str;
  rq_correlation_id : option ident;
  rq_delivery : UserMessageDelivery;
  rq_prompt_context : option str;
  rq_provenance : MessageProvenance
}.
#[export] Instance SendAgentMessageRequest_eq_dec : EqDecision SendAgentMessageRequest.
Proof. solve_decision. Defined.

(** A submission with its payload row, which one transaction writes with it:
    the columns its enqueue fixes, and the rest. *)
Record SubmissionTerms : Type := mkSubmissionTerms {
  st_submission_id : ident;
  st_session_id : ident;
  st_message_idempotency_key : str;
  st_submission_sequence : Z;
  st_required_runtime_policy : RuntimeSwitchPolicy;
  st_created_at_ms : Z
}.
Record MessageSubmissionRecord : Type := mkSubmission {
  sb_terms : SubmissionTerms;
  sb_desired_runtime_selection : SessionRuntimeSelection;
  sb_request : SendAgentMessageRequest;
  sb_required_switch_id : option ident;
  sb_status : MessageSubmissionStatus;
  sb_user_message_timeline_item_id : option ident;
  sb_dispatch_operation_id : option ident;
  sb_provider_correlation_id : option str;
  sb_error_code : option str;
  sb_error_detail_redacted : option str;
  sb_result_range : option ExecutionResultRange;
  sb_updated_at_ms : Z;
  sb_dispatched_at_ms : option Z
}.
Definition sb_id (s : MessageSubmissionRecord) : ident := st_submission_id (sb_terms s).
Definition sb_session_id (s : MessageSubmissionRecord) : ident := st_session_id (sb_terms s).
Definition sb_key (s : MessageSubmissionRecord) : str := st_message_idempotency_key (sb_terms s).

(** The kinds of timeline items the modelled queries tell apart. *)
Inductive TimelineItemKind : Type :=
| KindUserMessage | KindFileOperation | KindImageGeneration | KindToolCall | KindCommand | KindOther.
#[export] Instance TimelineItemKind_eq_dec : EqDecision TimelineItemKind.
Proof. solve_decision. Defined.
Inductive TimelinePayload : Type :=
| UserMessagePayload (text : str) (attachments : list MessageAttachment) (mentions : list VibexUseMention)
    (provenance : MessageProvenance) (delivery : UserMessageDelivery)
| OtherPayload (kind : TimelineItemKind).
Definition payload_kind (p : TimelinePayload) : TimelineItemKind :=
  match p with UserMessagePayload _ _ _ _ _ => KindUserMessage | OtherPayload kind => kind end.
Record TimelineItem : Type := mkTimelineItem {
  ti_id : ident;
  ti_session_id : ident;
  ti_sequence : Z;
  ti_timestamp_ms : Z;
  ti_correlation_id : option ident;
  ti_payload : TimelinePayload
}.
Definition ti_kind (i : TimelineItem) : TimelineItemKind := payload_kind (ti_payload i).

(** What the queries read of a session row and of its runtime state. *)
Record AgentSessionRow : Type := mkSessionRow {
  as_session_id : ident;
  as_agent_id : ident;
  as_state : AgentSessionState;
  as_archived_at_ms : option Z;
  as_deleted_at_ms : option Z;
  as_updated_at_ms : Z;
  as_selection_revision : option Z
}.
(** A turn's usage fact: the deltas its provider reported. *)
Record UsageFact : Type := mkUsageFact {
  uf_submission_id : ident;
  uf_complete : bool;
  uf_delta : AgentUsageTokenValues;
  uf_api_requests : option Z
}.
