(* ===== verification/TeamStore.v ===== *)
(** The tables of Team work and the repositories over them: tasks, the
    ownership tree and its walks, the controllers that say who may write into
    a session, task events, operations, budgets, grants, cancellation and
    interruption (db/src/vibex_use.rs with its submodules, and
    [AgentDelegationRepository] of db/src/lib.rs). *)
From stdpp Require Import prelude strings list gmap.
From Stdlib Require Import NArith ZArith Lia.
From S2P Require Import Prelude CoreTypes Rows Storage Ir Json Team.

(** ** Budgets (core/src/vibex_use/budget.rs) *)

Definition VIBEX_USE_MAX_DEPTH : Z := 2.
Definition VIBEX_USE_ROOT_EXECUTION_BUDGET : Z := 8.
Definition VIBEX_USE_MAX_READ_ITEMS : nat := 200.
Inductive VibexUseBudgetPreset : Type := Conservative | Balanced | Expanded.
Record VibexUseBudgetPolicy : Type := mkPolicy {
  bp_max_depth : Z;
  bp_root_execution_limit : Z;
  bp_per_agent_execution_limit : Z;
  bp_task_timeout_ms : Z;
  bp_idle_worker_retention_ms : Z;
  bp_warm_worker_limit : Z;
  bp_max_reported_tokens : option Z
}.
Definition for_preset (preset : VibexUseBudgetPreset) : VibexUseBudgetPolicy :=
  match preset with
  | Conservative => mkPolicy 1 4 2 (30 * 60 * 1000) (2 * 60 * 1000) 1 None
  | Balanced => mkPolicy VIBEX_USE_MAX_DEPTH VIBEX_USE_ROOT_EXECUTION_BUDGET 8 (60 * 60 * 1000) (5 * 60 * 1000) 2 None
  | Expanded => mkPolicy 4 16 8 (4 * 60 * 60 * 1000) (15 * 60 * 1000) 4 None
  end.
Definition within (lo hi z : Z) : bool := ((lo <=? z) && (z <=? hi))%Z.
Definition policy_validate (p : VibexUseBudgetPolicy) : VibexResult unit :=
  if within 1 8 (bp_max_depth p) && within 1 64 (bp_root_execution_limit p)
     && within 1 64 (bp_per_agent_execution_limit p)
     && within 1000 (24 * 60 * 60 * 1000) (bp_task_timeout_ms p)
     && within 1000 (24 * 60 * 60 * 1000) (bp_idle_worker_retention_ms p)
     && within 1 64 (bp_warm_worker_limit p)
     && match bp_max_reported_tokens p with Some limit => within 1 i64_max limit | None => true end
  then Ok tt
  else Err (invalid "vibex_use_budget_invalid" "team budget limits are outside the supported range").
Record VibexUseBudgetSettings : Type := mkSettings {
  bs_preset : VibexUseBudgetPreset;
  bs_max_depth : option Z;
  bs_root_execution_limit : option Z;
  bs_per_agent_execution_limit : option Z;
  bs_task_timeout_ms : option Z;
  bs_idle_worker_retention_ms : option Z;
  bs_warm_worker_limit : option Z;
  bs_max_reported_tokens : option Z
}.
Definition resolve (s : VibexUseBudgetSettings) : VibexResult VibexUseBudgetPolicy :=
  let preset := for_preset (bs_preset s) in
  let policy :=
    mkPolicy (default (bp_max_depth preset) (bs_max_depth s))
      (default (bp_root_execution_limit preset) (bs_root_execution_limit s))
      (default (bp_per_agent_execution_limit preset) (bs_per_agent_execution_limit s))
      (default (bp_task_timeout_ms preset) (bs_task_timeout_ms s))
      (default (bp_idle_worker_retention_ms preset) (bs_idle_worker_retention_ms s))
      (default (bp_warm_worker_limit preset) (bs_warm_worker_limit s))
      (bs_max_reported_tokens s) in
  let? _ := policy_validate policy in Ok policy.

(** ** The database *)

(** The clock, the random ids [Id::new] draws, the tables other components
    write (sessions, timeline, usage facts), and the tables of this one. *)
Record TeamDb : Type := mkTeamDb {
  tm_now : Z;
  tm_uuid : nat -> str;
  tm_drawn : nat;
  tm_sessions : list AgentSessionRow;
  tm_timeline : list TimelineItem;
  tm_usage : list UsageFact;
  tm_policy : option VibexUseBudgetPolicy;
  tm_limits : list (ident * Z);
  tm_tasks : list AgentDelegation;
  tm_edges : list SessionOwnershipEdge;
  tm_grants : list SessionGrantRecord;
  tm_controllers : list SessionController;
  tm_executions : list DelegationExecution;
  tm_cancellations : list (ident * ident);
  tm_operations : list VibexUseOperation;
  tm_events : list DelegationTaskEvent;
  tm_deliveries : list EventDelivery;
  tm_submissions : list MessageSubmissionRecord
}.
Definition put_sessions (rows : list AgentSessionRow) (db : TeamDb) : TeamDb :=
  mkTeamDb (tm_now db) (tm_uuid db) (tm_drawn db) rows (tm_timeline db) (tm_usage db) (tm_policy db) (tm_limits
    db) (tm_tasks db) (tm_edges db) (tm_grants db) (tm_controllers db) (tm_executions db) (tm_cancellations db)
    (tm_operations db) (tm_events db) (tm_deliveries db) (tm_submissions db).
Definition put_timeline (rows : list TimelineItem) (db : TeamDb) : TeamDb :=
  mkTeamDb (tm_now db) (tm_uuid db) (tm_drawn db) (tm_sessions db) rows (tm_usage db) (tm_policy db) (tm_limits
    db) (tm_tasks db) (tm_edges db) (tm_grants db) (tm_controllers db) (tm_executions db) (tm_cancellations db)
    (tm_operations db) (tm_events db) (tm_deliveries db) (tm_submissions db).
Definition put_limits (rows : list (ident * Z)) (db : TeamDb) : TeamDb :=
  mkTeamDb (tm_now db) (tm_uuid db) (tm_drawn db) (tm_sessions db) (tm_timeline db) (tm_usage db) (tm_policy db)
    rows (tm_tasks db) (tm_edges db) (tm_grants db) (tm_controllers db) (tm_executions db) (tm_cancellations db)
    (tm_operations db) (tm_events db) (tm_deliveries db) (tm_submissions db).
Definition put_tasks (rows : list AgentDelegation) (db : TeamDb) : TeamDb :=
  mkTeamDb (tm_now db) (tm_uuid db) (tm_drawn db) (tm_sessions db) (tm_timeline db) (tm_usage db) (tm_policy db)
    (tm_limits db) rows (tm_edges db) (tm_grants db) (tm_controllers db) (tm_executions db) (tm_cancellations
    db) (tm_operations db) (tm_events db) (tm_deliveries db) (tm_submissions db).
Definition put_edges (rows : list SessionOwnershipEdge) (db : TeamDb) : TeamDb :=
  mkTeamDb (tm_now db) (tm_uuid db) (tm_drawn db) (tm_sessions db) (tm_timeline db) (tm_usage db) (tm_policy db)
    (tm_limits db) (tm_tasks db) rows (tm_grants db) (tm_controllers db) (tm_executions db) (tm_cancellations
    db) (tm_operations db) (tm_events db) (tm_deliveries db) (tm_submissions db).
Definition put_grants (rows : list SessionGrantRecord) (db : TeamDb) : TeamDb :=
  mkTeamDb (tm_now db) (tm_uuid db) (tm_drawn db) (tm_sessions db) (tm_timeline db) (tm_usage db) (tm_policy db)
    (tm_limits db) (tm_tasks db) (tm_edges db) rows (tm_controllers db) (tm_executions db) (tm_cancellations db)
    (tm_operations db) (tm_events db) (tm_deliveries db) (tm_submissions db).
Definition put_controllers (rows : list SessionController) (db : TeamDb) : TeamDb :=
  mkTeamDb (tm_now db) (tm_uuid db) (tm_drawn db) (tm_sessions db) (tm_timeline db) (tm_usage db) (tm_policy db)
    (tm_limits db) (tm_tasks db) (tm_edges db) (tm_grants db) rows (tm_executions db) (tm_cancellations db)
    (tm_operations db) (tm_events db) (tm_deliveries db) (tm_submissions db).
Definition put_executions (rows : list DelegationExecution) (db : TeamDb) : TeamDb :=
  mkTeamDb (tm_now db) (tm_uuid db) (tm_drawn db) (tm_sessions db) (tm_timeline db) (tm_usage db) (tm_policy db)
    (tm_limits db) (tm_tasks db) (tm_edges db) (tm_grants db) (tm_controllers db) rows (tm_cancellations db)
    (tm_operations db) (tm_events db) (tm_deliveries db) (tm_submissions db).
Definition put_cancellations (rows : list (ident * ident)) (db : TeamDb) : TeamDb :=
  mkTeamDb (tm_now db) (tm_uuid db) (tm_drawn db) (tm_sessions db) (tm_timeline db) (tm_usage db) (tm_policy db)
    (tm_limits db) (tm_tasks db) (tm_edges db) (tm_grants db) (tm_controllers db) (tm_executions db) rows
    (tm_operations db) (tm_events db) (tm_deliveries db) (tm_submissions db).
Definition put_operations (rows : list VibexUseOperation) (db : TeamDb) : TeamDb :=
  mkTeamDb (tm_now db) (tm_uuid db) (tm_drawn db) (tm_sessions db) (tm_timeline db) (tm_usage db) (tm_policy db)
    (tm_limits db) (tm_tasks db) (tm_edges db) (tm_grants db) (tm_controllers db) (tm_executions db)
    (tm_cancellations db) rows (tm_events db) (tm_deliveries db) (tm_submissions db).
Definition put_events (rows : list DelegationTaskEvent) (db : TeamDb) : TeamDb :=
  mkTeamDb (tm_now db) (tm_uuid db) (tm_drawn db) (tm_sessions db) (tm_timeline db) (tm_usage db) (tm_policy db)
    (tm_limits db) (tm_tasks db) (tm_edges db) (tm_grants db) (tm_controllers db) (tm_executions db)
    (tm_cancellations db) (tm_operations db) rows (tm_deliveries db) (tm_submissions db).
Definition put_deliveries (rows : list EventDelivery) (db : TeamDb) : TeamDb :=
  mkTeamDb (tm_now db) (tm_uuid db) (tm_drawn db) (tm_sessions db) (tm_timeline db) (tm_usage db) (tm_policy db)
    (tm_limits db) (tm_tasks db) (tm_edges db) (tm_grants db) (tm_controllers db) (tm_executions db)
    (tm_cancellations db) (tm_operations db) (tm_events db) rows (tm_submissions db).
Definition put_submissions (rows : list MessageSubmissionRecord) (db : TeamDb) : TeamDb :=
  mkTeamDb (tm_now db) (tm_uuid db) (tm_drawn db) (tm_sessions db) (tm_timeline db) (tm_usage db) (tm_policy db)
    (tm_limits db) (tm_tasks db) (tm_edges db) (tm_grants db) (tm_controllers db) (tm_executions db)
    (tm_cancellations db) (tm_operations db) (tm_events db) (tm_deliveries db) rows.
Definition put_policy (policy : option VibexUseBudgetPolicy) (db : TeamDb) : TeamDb :=
  mkTeamDb (tm_now db) (tm_uuid db) (tm_drawn db) (tm_sessions db) (tm_timeline db) (tm_usage db) policy
    (tm_limits db) (tm_tasks db) (tm_edges db) (tm_grants db) (tm_controllers db) (tm_executions db)
    (tm_cancellations db) (tm_operations db) (tm_events db) (tm_deliveries db) (tm_submissions db).
Definition put_drawn (drawn : nat) (db : TeamDb) : TeamDb :=
  mkTeamDb (tm_now db) (tm_uuid db) drawn (tm_sessions db) (tm_timeline db) (tm_usage db) (tm_policy db)
    (tm_limits db) (tm_tasks db) (tm_edges db) (tm_grants db) (tm_controllers db) (tm_executions db)
    (tm_cancellations db) (tm_operations db) (tm_events db) (tm_deliveries db) (tm_submissions db).
Definition put_now (now : Z) (db : TeamDb) : TeamDb :=
  mkTeamDb now (tm_uuid db) (tm_drawn db) (tm_sessions db) (tm_timeline db) (tm_usage db) (tm_policy db)
    (tm_limits db) (tm_tasks db) (tm_edges db) (tm_grants db) (tm_controllers db) (tm_executions db)
    (tm_cancellations db) (tm_operations db) (tm_events db) (tm_deliveries db) (tm_submissions db).
Definition put_usage (usage : list UsageFact) (db : TeamDb) : TeamDb :=
  mkTeamDb (tm_now db) (tm_uuid db) (tm_drawn db) (tm_sessions db) (tm_timeline db) usage (tm_policy db)
    (tm_limits db) (tm_tasks db) (tm_edges db) (tm_grants db) (tm_controllers db) (tm_executions db)
    (tm_cancellations db) (tm_operations db) (tm_events db) (tm_deliveries db) (tm_submissions db).

(** A table: how its rows are read and replaced. *)
Record table (R : Type) : Type := mkTable { t_rows : TeamDb -> list R; t_put : list R -> TeamDb -> TeamDb }.
Arguments mkTable {R}.
Arguments t_rows {R}.
Arguments t_put {R}.
Definition sessions : table AgentSessionRow := mkTable tm_sessions put_sessions.
Definition timeline : table TimelineItem := mkTable tm_timeline put_timeline.
Definition limits : table (ident * Z) := mkTable tm_limits put_limits.
Definition tasks : table AgentDelegation := mkTable tm_tasks put_tasks.
Definition edges : table SessionOwnershipEdge := mkTable tm_edges put_edges.
Definition grants : table SessionGrantRecord := mkTable tm_grants put_grants.
Definition controllers : table SessionController := mkTable tm_controllers put_controllers.
Definition executions : table DelegationExecution := mkTable tm_executions put_executions.
Definition cancellations : table (ident * ident) := mkTable tm_cancellations put_cancellations.
Definition operations : table VibexUseOperation := mkTable tm_operations put_operations.
Definition events : table DelegationTaskEvent := mkTable tm_events put_events.
Definition deliveries : table EventDelivery := mkTable tm_deliveries put_deliveries.
Definition submissions : table MessageSubmissionRecord := mkTable tm_submissions put_submissions.

(** [conn.execute(UPDATE ...)]: the number of changed rows. *)
Definition execute {R} (t : table R) (p : R -> bool) (f : R -> R) : db_call TeamDb nat := fun db =>
  (Ok (sql_count p (t_rows t db)), t_put t (sql_update p f (t_rows t db)) db).
(** INSERT OR IGNORE. *)
Definition insert_or_ignore {R} (t : table R) (taken : R -> bool) (r : R) : db_call TeamDb nat := fun db =>
  (Ok (if sql_exists taken (t_rows t db) then 0 else 1),
   t_put t (sql_insert_or_ignore taken r (t_rows t db)) db).
(** A query whose rows are decoded into a result. *)
Definition db_query {A} (f : TeamDb -> VibexResult A) : db_call TeamDb A := fun db => (f db, db).
(** [Id::new]. *)
Definition draw_id (k : id_kind) : db_call TeamDb ident := fun db =>
  (Ok (id_new k (tm_uuid db (tm_drawn db))), put_drawn (S (tm_drawn db)) db).
(** The order of TEXT columns. *)
Definition text_key (s : str) : list Z := Z.of_N <$> s.
(** [u32::try_from(count).unwrap_or(u32::MAX)]. *)
Definition count_u32 (n : nat) : Z := Z.min (Z.of_nat n) u32_max.
Definition conflict (code message : string) : VibexError := VibexError_conflict (lit code) (lit message).
Definition storage_error (code message : string) : VibexError := VibexError_storage (lit code) (lit message).

(** ** Lookups *)

Definition by_task (id : ident) (t : AgentDelegation) : bool := bool_decide (ad_id t = id).
Definition by_execution (id : ident) (e : DelegationExecution) : bool := bool_decide (ex_id e = id).
Definition by_round (submission_id : ident) (e : DelegationExecution) : bool :=
  bool_decide (ex_submission_id e = submission_id).
Definition by_input (session_id : ident) (key : str) (e : DelegationExecution) : bool :=
  bool_decide (ex_session_id e = session_id) && bool_decide (eo_input_idempotency_key (ex_origin e) = key).
Definition by_submission (id : ident) (s : MessageSubmissionRecord) : bool := bool_decide (sb_id s = id).
Definition by_key (session_id : ident) (key : str) (s : MessageSubmissionRecord) : bool :=
  bool_decide (sb_session_id s = session_id) && bool_decide (sb_key s = key).
Definition by_controller (session_id : ident) (c : SessionController) : bool :=
  bool_decide (sc_session_id c = session_id).
Definition by_child (child : ident) (e : SessionOwnershipEdge) : bool := bool_decide (oe_child_session_id e = child).
Definition by_operation (id : ident) (o : VibexUseOperation) : bool := bool_decide (uo_id o = id).
Definition by_grant (grantee target : ident) (g : SessionGrantRecord) : bool :=
  bool_decide (sg_grantee_session_id g = grantee) && bool_decide (sg_target_session_id g = target).

(** [AgentDelegationRepository::get]. *)
Definition delegation_get (db : TeamDb) (id : ident) : option AgentDelegation := sql_first (by_task id) (tm_tasks db).
Definition submission_get (db : TeamDb) (id : ident) : option MessageSubmissionRecord :=
  sql_first (by_submission id) (tm_submissions db).
Definition get_by_key_conn (db : TeamDb) (session_id : ident) (key : str) : option MessageSubmissionRecord :=
  sql_first (by_key session_id key) (tm_submissions db).
(** [SessionControllerRepository::get]. *)
Definition controller_get (db : TeamDb) (session_id : ident) : option SessionController :=
  sql_first (by_controller session_id) (tm_controllers db).
(** [SessionGrantRepository::get]. *)
Definition grant_get (db : TeamDb) (grantee target : ident) : option SessionGrantRecord :=
  sql_first (by_grant grantee target) (tm_grants db).
Definition edge_get (db : TeamDb) (child : ident) : option SessionOwnershipEdge :=
  sql_first (by_child child) (tm_edges db).
(** [SessionOwnershipRepository::parent_of]. *)
Definition parent_of (db : TeamDb) (child : ident) : option ident := oe_parent_session_id <$> edge_get db child.
Definition usage_fact (db : TeamDb) (submission_id : ident) : option UsageFact :=
  sql_first (fun f => bool_decide (uf_submission_id f = submission_id)) (tm_usage db).

(** [with_usage]: what the turn's usage fact says replaces the stored usage. *)
Definition with_usage (db : TeamDb) (e : DelegationExecution) : DelegationExecution :=
  match usage_fact db (ex_submission_id e) with
  | None => e
  | Some fact =>
      let usage := if uf_complete fact then UsageReported
                   else if any_reported (uf_delta fact) then UsagePartial else UsageUnknown in
      let r := ex_result e in
      mkExecution (ex_origin e)
        (mkResult (xr_outcome r) (xr_stop_reason r) (xr_error_code r) (xr_summary r) (xr_result_ranges r)
           (xr_artifact_refs r) usage (xr_truncated r) (xr_end_sequence r) (xr_finished_at_ms r))
        (ex_start_sequence e) (ex_runtime_selection_revision e) (uf_delta fact) (uf_api_requests fact)
        (ex_blocked_on e) (ex_interrupt_requested_at_ms e) (ex_updated_at_ms e)
  end.
(** [VibexUseExecutionRepository::get], [get_by_submission] and [get_by_input]. *)
Definition execution_get (db : TeamDb) (id : ident) : option DelegationExecution :=
  with_usage db <$> sql_first (by_execution id) (tm_executions db).
Definition get_by_submission (db : TeamDb) (submission_id : ident) : option DelegationExecution :=
  with_usage db <$> sql_first (by_round submission_id) (tm_executions db).
Definition get_by_input (db : TeamDb) (session_id : ident) (key : str) : option DelegationExecution :=
  with_usage db <$> sql_first (by_input session_id key) (tm_executions db).

(** Every task that ever used one child session, oldest first. *)
Definition list_delegations_for_child (db : TeamDb) (child : ident) : list AgentDelegation :=
  sql_order (fun t => tt_created_at_ms (ad_terms t) :: text_key (ad_id t))
    (fun t => bool_decide (ad_child_session_id t = Some child)) (tm_tasks db).
(** [.into_iter().rfind(|task| !task.phase().is_terminal())]. *)
Definition unfinished_task (db : TeamDb) (child : ident) : option AgentDelegation :=
  last (sql_where (fun t => negb (phase_is_terminal (phase t))) (list_delegations_for_child db child)).
(** The round a session's provider is running: the latest one whose prompt was
    admitted. *)
Definition admitted (db : TeamDb) (e : DelegationExecution) : bool :=
  match submission_get db (ex_submission_id e) with
  | Some s => bool_decide (sb_status s = AboutToPrompt) || bool_decide (sb_status s = Dispatched)
  | None => false
  end.
Definition running_round (db : TeamDb) (session_id : ident) : option DelegationExecution :=
  last (sql_order (fun e => [eo_created_at_ms (ex_origin e)])
    (fun e => bool_decide (ex_session_id e = session_id) && bool_decide (ex_outcome e = OutRunning) && admitted db e)
    (tm_executions db)).

(** ** Walks over the session ancestry *)

Definition cycle_error (message : string) : VibexError := storage_error "vibex_use_ownership_cycle" message.
(** [loop { if !seen.insert(current) || seen.len() > 32 { return Err(..) } .. }]:
    [step] answers or moves on with a new state. *)
Fixpoint walk {S A} (fuel : nat) (message : string) (step : S -> ident -> VibexResult (A + S * ident))
    (seen : list ident) (s : S) (current : ident) : VibexResult A :=
  match fuel with
  | O => Err (cycle_error message)
  | Datatypes.S fuel =>
      if bool_decide (current ∈ seen) || (32 <? length seen + 1) then Err (cycle_error message)
      else let? next := step s current in
           match next with
           | inl a => Ok a
           | inr (s, next) => walk fuel message step (current :: seen) s next
           end
  end.
Definition WALK_FUEL : nat := 33.

(** Delegation depth follows the executing team. *)
Definition vibex_use_delegation_depth (db : TeamDb) (session : ident) : VibexResult Z :=
  walk WALK_FUEL "invalid delegation ancestry"
    (fun depth current =>
       let parent :=
         match unfinished_task db current with
         | Some task => Some (ad_parent_session_id task)
         | None =>
             let actor :=
               match eo_provenance ∘ ex_origin <$> running_round db current with
               | Some (DelegatedInput actor _ _) =>
                   match ref_session_id actor with
                   | Some actor => if bool_decide (actor = current) then None else Some actor
                   | None => None
                   end
               | _ => None
               end in
             match actor with Some actor => Some actor | None => parent_of db current end
         end in
       match parent with
       | None => Ok (inl depth)
       | Some parent => Ok (inr ((depth + 1)%Z, parent))
       end) [] 0%Z session.

(** COALESCE(e.root_session_id, d.root_session_id) of a session's ownership edge. *)
Definition edge_origin_root (db : TeamDb) (child : ident) : option ident :=
  e ← edge_get db child;
  match oe_root_session_id e with
  | Some root => Some root
  | None => id ← oe_created_by_task_id e; t ← delegation_get db id; tw_root_session_id (ad_work t)
  end.

(** The execution team may cross an explicit control relationship. *)
Definition vibex_use_root_session (db : TeamDb) (session : ident) : VibexResult ident :=
  walk WALK_FUEL "invalid session ancestry"
    (fun _ current =>
       match (t ← unfinished_task db current; tw_root_session_id (ad_work t)) with
       | Some root => Ok (inl root)
       | None =>
           match (e ← running_round db current; eo_root_session_id (ex_origin e)) with
           | Some root => Ok (inl root)
           | None =>
               match edge_origin_root db current with
               | Some root => Ok (inl root)
               | None =>
                   match parent_of db current with
                   | None => Ok (inl current)
                   | Some parent => Ok (inr (tt, parent))
                   end
               end
           end
       end) [] tt session.

(** A task never substitutes for a revoked user grant. *)
Definition vibex_use_session_scope (db : TeamDb) (actor target : ident) : VibexResult VibexUseScope :=
  if bool_decide (actor = target) then Ok ScopeOwned
  else
    let? root := vibex_use_root_session db actor in
    let target_root := edge_origin_root db target in
    walk WALK_FUEL "invalid session ancestry"
      (fun _ current =>
         let continue :=
           match parent_of db current with
           | None => Ok (inl ScopeReadOnly)
           | Some parent => Ok (inr (tt, parent))
           end in
         if bool_decide (current = actor) then Ok (inl ScopeOwned)
         else match grant_get db actor current with
              | Some grant =>
                  let controlled := bool_decide (sg_scope grant = lit "controlled") in
                  if bool_decide (current = target) then
                    Ok (inl (if controlled then ScopeControlled else ScopeReferenced))
                  else if controlled && bool_decide (target_root = Some root) then Ok (inl ScopeControlled)
                  else continue
              | None => continue
              end) [] tt target.

(** ** Task ancestry and cancellation (db/src/vibex_use/cancellation.rs) *)

(** Captures the task that caused new work. *)
Definition vibex_use_origin_task (db : TeamDb) (session : ident) : VibexResult (option ident) :=
  walk WALK_FUEL "invalid work ancestry"
    (fun _ current =>
       match unfinished_task db current with
       | Some task => Ok (inl (Some (ad_id task)))
       | None =>
           match running_round db current with
           | Some e => Ok (inl (eo_origin_task_id (ex_origin e)))
           | None =>
               match edge_get db current with
               | None => Ok (inl None)
               | Some edge =>
                   match oe_created_by_task_id edge with
                   | Some id =>
                       match delegation_get db id with
                       | Some task =>
                           if phase_is_terminal (phase task) then Ok (inr (tt, oe_parent_session_id edge))
                           else Ok (inl (Some id))
                       | None => Ok (inr (tt, oe_parent_session_id edge))
                       end
                   | None => Ok (inr (tt, oe_parent_session_id edge))
                   end
               end
           end
       end) [] tt session.

(** The task a session works for and that task's ancestors. *)
Definition origin_ancestry (db : TeamDb) (session : ident) : VibexResult (list AgentDelegation) :=
  let? current := vibex_use_origin_task db session in
  match current with
  | None => Ok []
  | Some id =>
      walk WALK_FUEL "invalid task ancestry"
        (fun tasks id =>
           match delegation_get db id with
           | None => Ok (inl tasks)
           | Some task =>
               match tt_parent_task_id (ad_terms task) with
               | None => Ok (inl (tasks ++ [task]))
               | Some parent => Ok (inr (tasks ++ [task], parent))
               end
           end) [] [] id
  end.

(** WITH RECURSIVE subtree: the queue of rows to expand, and every row that was
    ever queued; UNION drops the repeats. *)
Definition child_tasks (db : TeamDb) (id : ident) : list ident :=
  ad_id <$> sql_where (fun t => bool_decide (tt_parent_task_id (ad_terms t) = Some id)) (tm_tasks db).
Definition queue_new (seen ids : list ident) : list ident :=
  foldl (fun new id => if bool_decide (id ∈ seen ++ new) then new else new ++ [id]) [] ids.
Fixpoint expand_subtree (fuel : nat) (db : TeamDb) (queue seen : list ident) : list ident :=
  match fuel, queue with
  | S fuel, id :: queue =>
      let new := queue_new seen (child_tasks db id) in
      id :: expand_subtree fuel db (queue ++ new) (seen ++ new)
  | _, _ => []
  end.
Definition task_subtree (db : TeamDb) (task_id : ident) (cascade : bool) : list AgentDelegation :=
  omap (delegation_get db)
    (if sql_exists (by_task task_id) (tm_tasks db) then
       if cascade then expand_subtree (S (length (tm_tasks db))) db [task_id] [task_id] else [task_id]
     else []).

(** The executions a cancellation of [source] stops, recorded for [owner]. *)
Definition capture (owner source : ident) (include_origin_work : bool) : db_call TeamDb unit :=
  let! captured := db_read (fun db =>
    ex_id <$> sql_where (fun e =>
      (bool_decide (ex_outcome e = OutQueued) || bool_decide (ex_outcome e = OutRunning)
       || bool_decide (ex_outcome e = OutAmbiguous))
      && (bool_decide (ex_task_id e = Some source)
          || (include_origin_work && bool_decide (eo_origin_task_id (ex_origin e) = Some source))))
      (tm_executions db)) in
  db_each (fun id =>
    let! _ := insert_or_ignore cancellations (fun c => bool_decide (c = (owner, id))) (owner, id) in
    db_ret tt) captured.
Definition captured_for (db : TeamDb) (task_id execution_id : ident) : bool :=
  bool_decide ((task_id, execution_id) ∈ tm_cancellations db).
Definition executions_for_task (db : TeamDb) (task_id : ident) : list DelegationExecution :=
  sql_where (fun e => bool_decide (ex_task_id e = Some task_id) || captured_for db task_id (ex_id e))
    (tm_executions db).
(** [VibexUseCancellationRepository::is_requested] and [is_confirmed]. *)
Definition cancellation_requested (db : TeamDb) (execution_id : ident) : bool :=
  sql_exists (fun c => bool_decide (snd c = execution_id)) (tm_cancellations db).
Definition is_confirmed (db : TeamDb) (task_id : ident) : bool :=
  forallb (fun e => is_settled e && negb (bool_decide (ex_outcome e = OutAmbiguous)))
    (executions_for_task db task_id).

(** The latest task of a session, if its cancellation was requested. *)
Definition fenced_by (db : TeamDb) (session_id : ident) : option ident :=
  t ← last (sql_order (fun t => [tt_created_at_ms (ad_terms t)])
        (fun t => bool_decide (ad_child_session_id t = Some session_id)) (tm_tasks db));
  _ ← tp_cancellation_requested_at_ms (ad_progress t);
  Some (ad_id t).
Fixpoint fence_walk (fuel : nat) (db : TeamDb) (seen : list ident) (current : ident) : VibexResult (option ident) :=
  match fuel with
  | O => Err (storage_error "vibex_use_ownership_depth_exceeded"
                "the session ownership tree exceeds the supported depth")
  | S fuel =>
      match fenced_by db current with
      | Some id => Ok (Some id)
      | None =>
          match parent_of db current with
          | None => Ok None
          | Some parent =>
              if bool_decide (parent ∈ seen) then Err (cycle_error "the session ownership tree contains a cycle")
              else fence_walk fuel db (parent :: seen) parent
          end
      end
  end.
(** The cancelling task that fences a session, if one exists. *)
Definition delegation_cancellation_fence (db : TeamDb) (session_id : ident) : VibexResult (option ident) :=
  let? tasks := origin_ancestry db session_id in
  match sql_first (fun t => bool_decide (is_Some (tp_cancellation_requested_at_ms (ad_progress t)))) tasks with
  | Some task => Ok (Some (ad_id task))
  | None => fence_walk 32 db [session_id] session_id
  end.

(** ** Budgets (db/src/vibex_use/budget.rs) *)

(** [VibexUseBudgetRepository::policy] and [set_policy]. *)
Definition policy (db : TeamDb) : VibexResult VibexUseBudgetPolicy :=
  let policy := default (for_preset Balanced) (tm_policy db) in
  let? _ := policy_validate policy in Ok policy.
Definition set_policy (policy : VibexUseBudgetPolicy) : db_call TeamDb unit :=
  let! _ := db_lift (policy_validate policy) in db_write (put_policy (Some policy)).
(** [reserve_task]: the deadline counts from the task's creation. *)
Definition reserve_task (task : AgentDelegation) : db_call TeamDb unit :=
  let! p := db_query policy in
  let deadline := i64_saturating_add (tt_created_at_ms (ad_terms task)) (bp_task_timeout_ms p) in
  let! _ := insert_or_ignore limits (fun l => bool_decide (fst l = ad_id task)) (ad_id task, deadline) in
  db_ret tt.
Definition task_deadline (db : TeamDb) (task_id : ident) : option Z :=
  snd <$> sql_first (fun l => bool_decide (fst l = task_id)) (tm_limits db).
Definition check_task_deadline (db : TeamDb) (task_id : ident) (now_ms : Z) : VibexResult unit :=
  match task_deadline db task_id with
  | Some deadline =>
      if (deadline <=? now_ms)%Z then
        Err (conflict "vibex_use_task_deadline_exceeded" "the task has reached its time limit")
      else Ok tt
  | None => Ok tt
  end.
Definition check_session_deadline (db : TeamDb) (session_id : ident) (now_ms : Z) : VibexResult unit :=
  let? tasks := origin_ancestry db session_id in
  let? _ := for_each (fun task => check_task_deadline db (ad_id task) now_ms) tasks in
  walk WALK_FUEL "invalid session ancestry"
    (fun _ current =>
       let? _ := match unfinished_task db current with
                 | Some task => check_task_deadline db (ad_id task) now_ms
                 | None => Ok tt
                 end in
       match parent_of db current with
       | None => Ok (inl tt)
       | Some parent => Ok (inr (tt, parent))
       end) [] tt session_id.
Definition expired_tasks (db : TeamDb) (now_ms : Z) : list AgentDelegation :=
  let deadline t := default 0%Z (task_deadline db (ad_id t)) in
  take 64 (sql_order (fun t => deadline t :: text_key (ad_id t))
    (fun t => match task_deadline db (ad_id t) with Some d => (d <=? now_ms)%Z | None => false end
      && bool_decide (tp_cancellation_requested_at_ms (ad_progress t) = None)
      && match tp_phase (ad_progress t) with
         | TaskQueued | TaskStarting | TaskActive | TaskAwaitingReview => true
         | _ => false
         end) (tm_tasks db)).

(** Active executions owned by one root, with the tasks about to start one. *)
Definition open_round (e : DelegationExecution) : bool :=
  bool_decide (ex_outcome e = OutQueued) || bool_decide (ex_outcome e = OutRunning).
Definition awaits_round (t : AgentDelegation) : bool :=
  bool_decide (tw_current_execution_id (ad_work t) = None)
  && (bool_decide (tp_phase (ad_progress t) = TaskStarting) || bool_decide (tp_phase (ad_progress t) = TaskActive)).
Definition execution_team (db : TeamDb) (e : DelegationExecution) : option ident :=
  match eo_root_session_id (ex_origin e) with
  | Some root => Some root
  | None => task_root <$> (id ← ex_task_id e; delegation_get db id)
  end.
Definition count_active_executions_for_root (db : TeamDb) (root : ident) : Z :=
  count_u32
    (sql_count (fun e => open_round e && bool_decide (execution_team db e = Some root)) (tm_executions db)
     + sql_count (fun t => awaits_round t && bool_decide (task_root t = root)) (tm_tasks db)).
Definition count_active_delegations_for_root (db : TeamDb) (root : ident) : Z :=
  count_u32 (sql_count (fun t => bool_decide (tw_root_session_id (ad_work t) = Some root)
    && negb (phase_is_terminal (tp_phase (ad_progress t)))) (tm_tasks db)).
Definition session_row (db : TeamDb) (session_id : ident) : option AgentSessionRow :=
  sql_first (fun s => bool_decide (as_session_id s = session_id)) (tm_sessions db).
(** COALESCE over the Agent a pending task asks for. *)
Definition task_agent (db : TeamDb) (t : AgentDelegation) : option ident :=
  match rs_agent_id <$> tw_requested_runtime (ad_work t) with
  | Some agent => Some agent
  | None =>
      match tt_requested_agent_id (ad_terms t) with
      | Some agent => Some agent
      | None =>
          match ad_effective_agent_id t with
          | Some agent => Some agent
          | None => as_agent_id <$> session_row db (ad_parent_session_id t)
          end
      end
  end.
Definition active_for_agent (db : TeamDb) (agent_id : ident) : Z :=
  count_u32
    (sql_count (fun e => open_round e
       && match submission_get db (ex_submission_id e) with
          | Some s => bool_decide (sr_agent_id (sb_desired_runtime_selection s) = agent_id)
          | None => false
          end) (tm_executions db)
     + sql_count (fun t => awaits_round t && bool_decide (task_agent db t = Some agent_id)) (tm_tasks db)).
(** Reported deltas form a lower bound when some turns provide no usage. *)
Definition reported_of (f : UsageFact) : option Z :=
  match ut_total_tokens (uf_delta f) with
  | Some total => Some (Z.max 0 total)
  | None =>
      input ← ut_input_tokens (uf_delta f);
      output ← ut_output_tokens (uf_delta f);
      Some (u64_saturating_add (Z.max 0 input) (Z.max 0 output))
  end.
Definition reported_tokens (db : TeamDb) (root : ident) : option Z :=
  foldl (fun total f =>
    match reported_of f with
    | Some value => Some (u64_saturating_add (default 0%Z total) value)
    | None => total
    end) None
    (sql_where (fun f => sql_exists (fun e => bool_decide (ex_submission_id e = uf_submission_id f)
       && bool_decide (eo_root_session_id (ex_origin e) = Some root)) (tm_executions db)) (tm_usage db)).
Definition check_admission (db : TeamDb) (root : ident) (agent : option ident) (reserved_slots : Z)
    : VibexResult unit :=
  let? p := policy db in
  reject (bp_root_execution_limit p <=? Z.max 0 (count_active_executions_for_root db root - reserved_slots))%Z
  with (conflict "vibex_use_root_budget_exceeded" "the team has reached its execution limit");;
  reject (match agent with
          | Some agent =>
              bp_per_agent_execution_limit p <=? Z.max 0 (active_for_agent db agent - reserved_slots)
          | None => false
          end)%Z
  with (conflict "vibex_use_agent_budget_exceeded" "the Agent has reached its execution limit");;
  reject (match bp_max_reported_tokens p, reported_tokens db root with
          | Some limit, Some total => (limit <=? total)%Z
          | _, _ => false
          end)
  with (conflict "vibex_use_token_budget_exceeded" "the team's reported token usage reached its limit");;
  Ok tt.

(** ** Session ownership *)

Module SessionOwnership.

(** Records the unique parent of one delegated child session. *)
Definition upsert (child parent : ident) (created_by_task_id : option ident) : db_call TeamDb unit :=
  let! now := db_read tm_now in
  let! origin_root := db_query (fun db => vibex_use_root_session db parent) in
  let! origin_task := match created_by_task_id with
                      | Some id => db_ret (Some id)
                      | None => db_query (fun db => vibex_use_origin_task db parent)
                      end in
  let! existing := db_read (fun db => edge_get db child) in
  match existing with
  | Some edge =>
      if bool_decide (oe_parent_session_id edge = parent) then
        let! _ := execute edges (by_child child)
          (fun e => mkEdge (oe_child_session_id e) (oe_parent_session_id e)
             (match oe_created_by_task_id e with Some id => Some id | None => origin_task end)
             (oe_created_at_ms e) now (oe_root_session_id e)) in
        db_ret tt
      else
        db_fail (with_diagnostic
          (with_diagnostic
             (conflict "vibex_use_ownership_conflict"
                "a delegated child session already belongs to another parent session")
             (lit "childSessionId") child)
          (lit "parentSessionId") (oe_parent_session_id edge))
  | None =>
      db_write (fun db => put_edges (tm_edges db ++ [mkEdge child parent origin_task now now (Some origin_root)]) db)
  end.
Definition child_ids (db : TeamDb) (parent : ident) : list ident :=
  oe_child_session_id <$> sql_order (fun e => oe_created_at_ms e :: text_key (oe_child_session_id e))
    (fun e => bool_decide (oe_parent_session_id e = parent)) (tm_edges db).
Definition child_count (db : TeamDb) (parent : ident) : nat :=
  sql_count (fun e => bool_decide (oe_parent_session_id e = parent)) (tm_edges db).

(** [for depth in 0..32]: climbs to the root, or answers what was wrong. *)
Fixpoint climb (fuel : nat) (db : TeamDb) (seen : list ident) (depth : Z) (current : ident)
    : VibexResult (Z * ident) :=
  match fuel with
  | O => Err (storage_error "vibex_use_ownership_depth_exceeded"
                "the session ownership tree exceeds the supported depth")
  | S fuel =>
      match parent_of db current with
      | None => Ok (depth, current)
      | Some parent =>
          if bool_decide (parent ∈ seen) then Err (cycle_error "the session ownership tree contains a cycle")
          else climb fuel db (parent :: seen) (depth + 1) parent
      end
  end.
Definition ancestor_depth (db : TeamDb) (session_id : ident) : VibexResult Z :=
  let? found := climb 32 db [session_id] 0 session_id in Ok (fst found).
Definition root_of (db : TeamDb) (session_id : ident) : VibexResult ident :=
  let? found := climb 32 db [session_id] 0 session_id in Ok (snd found).

(** One round of the breadth-first walk: every child of the frontier, none of
    them seen before. *)
Definition next_frontier (db : TeamDb) (seen frontier : list ident) : VibexResult (list ident * list ident) :=
  for_fold (fun acc child =>
      if bool_decide (child ∈ fst acc) then
        Err (cycle_error "the session ownership tree contains a duplicate or cycle")
      else Ok (child :: fst acc, snd acc ++ [child]))
    (seen, []) (frontier ≫= child_ids db).
Fixpoint collect_descendants (fuel : nat) (db : TeamDb) (seen frontier found : list ident)
    : VibexResult (list ident) :=
  if is_empty frontier then Ok found
  else match fuel with
       | O => Err (storage_error "vibex_use_ownership_depth_exceeded"
                     "the session ownership tree exceeds the supported depth")
       | S fuel =>
           let? next := next_frontier db seen frontier in
           collect_descendants fuel db (fst next) (snd next) (found ++ snd next)
       end.
(** Every descendant of [session_id], deepest first, excluding the root. *)
Definition descendant_ids (db : TeamDb) (session_id : ident) : VibexResult (list ident) :=
  let? found := collect_descendants 32 db [session_id] [session_id] [] in Ok (reverse found).

(** Applies the ownership edge of one delegation row after the fact. *)
Definition sync_from_delegation (t : AgentDelegation) : db_call TeamDb unit :=
  match ad_child_session_id t, tt_ownership_kind (ad_terms t) with
  | Some child, OwnedChild => upsert child (ad_parent_session_id t) (Some (ad_id t))
  | _, _ => db_ret tt
  end.
End SessionOwnership.

(** ** Session grants *)

Module SessionGrant.
Definition grant (grantee target : ident) (scope granted_by : str) : db_call TeamDb SessionGrantRecord :=
  let! now := db_read tm_now in
  let! existing := db_read (fun db => grant_get db grantee target) in
  let! _ := match existing with
            | Some _ =>
                let! _ := execute grants (by_grant grantee target)
                  (fun g => mkGrant grantee target scope granted_by (sg_revision g + 1) (sg_created_at_ms g) now) in
                db_ret tt
            | None =>
                db_write (fun db =>
                  put_grants (tm_grants db ++ [mkGrant grantee target scope granted_by 1 now now]) db)
            end in
  let! stored := db_read (fun db => grant_get db grantee target) in
  match stored with
  | Some g => db_ret g
  | None => db_fail (storage_error "vibex_use_grant_missing" "a session grant disappeared after it was persisted")
  end.
(** DELETE: whether a grant was there. *)
Definition revoke (grantee target : ident) : db_call TeamDb bool := fun db =>
  (Ok (sql_exists (by_grant grantee target) (tm_grants db)),
   put_grants (sql_where (fun g => negb (by_grant grantee target g)) (tm_grants db)) db).
End SessionGrant.

(** ** Task events and inbox *)

Module VibexUseEvent.
Definition by_event (event_id : str) (e : DelegationTaskEvent) : bool := bool_decide (ev_event_id e = event_id).
Definition event_get (db : TeamDb) (event_id : str) : option DelegationTaskEvent :=
  sql_first (by_event event_id) (tm_events db).
(** The next AUTOINCREMENT sequence. *)
Definition next_sequence (events : list DelegationTaskEvent) : Z := foldr Z.max 0%Z (ev_cursor <$> events) + 1.
(** Appends one event, or returns the existing row for the same event id. *)
Definition append (event_id : str) (root_session_id : option ident) (kind : DelegationTaskEventKind)
    (task_id session_id : option ident) (revision : Z) (payload : json) : db_call TeamDb DelegationTaskEvent :=
  let! existing := db_read (fun db => event_get db event_id) in
  match existing with
  | Some e => db_ret e
  | None =>
      let! e := db_read (fun db =>
        mkEvent (next_sequence (tm_events db)) event_id kind task_id session_id root_session_id revision payload
          (tm_now db)) in
      let! _ := insert_or_ignore events (by_event event_id) e in
      let! stored := db_read (fun db => event_get db event_id) in
      match stored with
      | Some e => db_ret e
      | None => db_fail (storage_error "vibex_use_event_missing_after_insert"
                           "a delegation task event disappeared after it was persisted")
      end
  end.

(** A read answers at most 500 events. *)
Definition event_limit (limit : nat) : nat := Nat.min limit 500.
Definition list_for_root (db : TeamDb) (root : ident) (after_cursor : Z) (limit : nat) : list DelegationTaskEvent :=
  take (event_limit limit) (sql_order (fun e => [ev_cursor e])
    (fun e => bool_decide (ev_root_session_id e = Some root) && (after_cursor <? ev_cursor e)%Z) (tm_events db)).
Definition list_for_task (db : TeamDb) (task_id : ident) (after_cursor : Z) (limit : nat)
    : list DelegationTaskEvent :=
  take (event_limit limit) (sql_order (fun e => [ev_cursor e])
    (fun e => bool_decide (ev_task_id e = Some task_id) && (after_cursor <? ev_cursor e)%Z) (tm_events db)).

Definition by_delivery (event_id consumer_key : str) (d : EventDelivery) : bool :=
  bool_decide (dl_event_id d = event_id) && bool_decide (dl_consumer_key d = consumer_key).
(** Delivery is recorded separately from acknowledgement; the delivery's event
    must exist. *)
Definition mark_delivered (consumer_key : str) (event_ids : list str) : db_call TeamDb nat :=
  let! now := db_read tm_now in
  db_for (fun delivered event_id =>
    let! known := db_read (fun db => event_get db event_id) in
    match known with
    | None => db_fail (storage_error "vibex_use_event_delivery_failed" "failed to record an event delivery")
    | Some _ =>
        let! changed := insert_or_ignore deliveries (by_delivery event_id consumer_key)
                          (mkDelivery event_id consumer_key now None) in
        db_ret (delivered + changed)
    end) 0 event_ids.
Definition acknowledge_at (now : Z) (d : EventDelivery) : EventDelivery :=
  mkDelivery (dl_event_id d) (dl_consumer_key d) (dl_delivered_at_ms d) (Some now).
Definition unacknowledged (d : EventDelivery) : bool := bool_decide (dl_acknowledged_at_ms d = None).
(** Acknowledges explicit event ids. *)
Definition acknowledge (consumer_key : str) (event_ids : list str) : db_call TeamDb nat :=
  let! now := db_read tm_now in
  db_for (fun acknowledged event_id =>
    let! changed := execute deliveries (fun d => by_delivery event_id consumer_key d && unacknowledged d)
                      (acknowledge_at now) in
    db_ret (acknowledged + changed)) 0 event_ids.
(** Acknowledges every event up to and including [through_cursor]. *)
Definition acknowledge_through (consumer_key : str) (through_cursor : Z) : db_call TeamDb nat :=
  let! now := db_read tm_now in
  let! through := db_read (fun db =>
    ev_event_id <$> sql_where (fun e => (ev_cursor e <=? through_cursor)%Z) (tm_events db)) in
  execute deliveries (fun d => bool_decide (dl_consumer_key d = consumer_key) && unacknowledged d
    && bool_decide (dl_event_id d ∈ through)) (acknowledge_at now).

(** A [task_blocked] event is a signal while its round still waits for the same
    thing. *)
Definition still_blocked (db : TeamDb) (payload : json) : bool :=
  sql_exists (fun x =>
    bool_decide (string_field payload (lit "executionRef") = Some (lit "vibex://execution/" ++ ex_id x))
    && open_round x
    && match ex_blocked_on x with
       | Some blocked =>
           forallb (fun field =>
             match (b ← json_get (lit "blockedOn") payload; json_get (fst field) b), snd field with
             | Some (JString v), JString w => bool_decide (v = w)
             | _, _ => false
             end) (blocked_fields blocked)
       | None => false
       end) (tm_executions db).
Definition is_wait_signal (db : TeamDb) (e : DelegationTaskEvent) : bool :=
  match ev_kind e with
  | EvExecutionFinished | EvExecutionAmbiguous | EvTaskResultAvailable | EvTaskFinished | EvTaskCancelled
  | EvControllerChanged => true
  | EvTaskBlocked => still_blocked db (ev_payload e)
  | _ => false
  end.
Definition delivery_of (db : TeamDb) (consumer_key event_id : str) : option EventDelivery :=
  sql_first (by_delivery event_id consumer_key) (tm_deliveries db).
Definition acknowledged_by (db : TeamDb) (consumer_key : str) (e : DelegationTaskEvent) : bool :=
  match delivery_of db consumer_key (ev_event_id e) with Some d => negb (unacknowledged d) | None => false end.
(** Which events a read is about. *)
Definition targeted (root : ident) (task_ids session_ids : list ident) (e : DelegationTaskEvent) : bool :=
  (is_empty task_ids && is_empty session_ids && bool_decide (ev_root_session_id e = Some root))
  || match ev_task_id e with Some id => bool_decide (id ∈ task_ids) | None => false end
  || match ev_session_id e with Some id => bool_decide (id ∈ session_ids) | None => false end.
(** The events, with their delivered and acknowledged marks. *)
Definition events_for_targets_filtered (db : TeamDb) (consumer_key : str) (root : ident) (after_cursor : Z)
    (limit : nat) (include_acknowledged : bool) (task_ids session_ids : list ident) (signal_only : bool)
    : list (DelegationTaskEvent * bool * bool) :=
  (fun e => (e, bool_decide (is_Some (delivery_of db consumer_key (ev_event_id e))),
                acknowledged_by db consumer_key e)) <$>
  take (event_limit limit) (sql_order (fun e => [ev_cursor e])
    (fun e => (after_cursor <? ev_cursor e)%Z
       && (include_acknowledged || negb (acknowledged_by db consumer_key e))
       && targeted root task_ids session_ids e
       && (negb signal_only || is_wait_signal db e)) (tm_events db)).
Definition events_for_targets (db : TeamDb) (consumer_key : str) (root : ident) (after_cursor : Z) (limit : nat)
    (include_acknowledged : bool) (task_ids session_ids : list ident) :=
  events_for_targets_filtered db consumer_key root after_cursor limit include_acknowledged task_ids session_ids false.
Definition wait_signals_for_targets (db : TeamDb) (consumer_key : str) (root : ident) (after_cursor : Z)
    (limit : nat) (include_acknowledged : bool) (task_ids session_ids : list ident) :=
  events_for_targets_filtered db consumer_key root after_cursor limit include_acknowledged task_ids session_ids true.
Definition unacknowledged_for_root (db : TeamDb) (consumer_key : str) (root : ident) (after_cursor : Z)
    (limit : nat) (include_acknowledged : bool) :=
  events_for_targets db consumer_key root after_cursor limit include_acknowledged [] [].
End VibexUseEvent.

(** ** Session controllers *)

Inductive SessionControllerClaim : Type :=
| Claimed (c : SessionController)
| Denied (c : SessionController)
| HumanControlled (c : SessionController)
| StaleRevision (c : SessionController).

Module SessionControllers.
Definition ensure (session_id : ident) : db_call TeamDb SessionController :=
  let! now := db_read tm_now in
  let! _ := insert_or_ignore controllers (by_controller session_id)
              (mkController session_id None None 1 false now) in
  let! stored := db_read (fun db => controller_get db session_id) in
  match stored with
  | Some c => db_ret c
  | None => db_fail (storage_error "vibex_use_controller_missing"
                       "a session controller disappeared after it was created")
  end.

(** Claims the automated write path for one task, compare-and-swap on the
    revision. *)
Definition claim (session_id task_id parent_session_id : ident) (expected_revision : option Z)
    : db_call TeamDb SessionControllerClaim :=
  let! current := ensure session_id in
  if sc_human_controlled current then db_ret (HumanControlled current)
  else if match expected_revision with
          | Some expected => negb (bool_decide (expected = sc_revision current))
          | None => false
          end then db_ret (StaleRevision current)
  else
    let is_same_task := bool_decide (sc_owner_task_id current = Some task_id) in
    if negb is_same_task && bool_decide (is_Some (sc_owner_task_id current)) then db_ret (Denied current)
    else if is_same_task then db_ret (Claimed current)
    else
      let! now := db_read tm_now in
      let! changed := execute controllers
        (fun c => by_controller session_id c && bool_decide (sc_revision c = sc_revision current)
                  && negb (sc_human_controlled c))
        (fun c => mkController session_id (Some task_id) (Some parent_session_id) (sc_revision current + 1)
                    (sc_human_controlled c) now) in
      let! latest := ensure session_id in
      if changed =? 0 then
        db_ret (if sc_human_controlled latest then HumanControlled latest else Denied latest)
      else db_ret (Claimed latest).

(** Records an explicit human intervention. *)
Definition mark_human_controlled (session_id : ident) : db_call TeamDb SessionController :=
  let! current := ensure session_id in
  if sc_human_controlled current then db_ret current
  else
    let! now := db_read tm_now in
    let! _ := execute controllers (by_controller session_id)
      (fun c => mkController session_id (sc_owner_task_id c) (sc_owner_parent_session_id c)
                  (sc_revision current + 1) true now) in
    ensure session_id.

(** The teams a change of control is announced to: those of the open rounds,
    of the owning task and of the session control returns to. *)
Definition sorted_ids (l : list ident) : list ident := sort_by_key text_key (remove_dups l).
Definition control_roots (c : SessionController) (task : option AgentDelegation) (returned_to : option ident)
    (db : TeamDb) : VibexResult (list ident) :=
  let open := omap (fun e => eo_root_session_id (ex_origin e))
                (sql_where (fun e => bool_decide (ex_session_id e = sc_session_id c) && open_round e)
                   (tm_executions db)) in
  let owned := match task with Some t => [task_root t] | None => [] end in
  let? returned := match returned_to with
                   | Some parent => let? root := vibex_use_root_session db parent in Ok [root]
                   | None => Ok []
                   end in
  let roots := open ++ owned ++ returned in
  if is_empty roots then let? root := vibex_use_root_session db (sc_session_id c) in Ok [root]
  else Ok (sorted_ids roots).
Definition append_control_event (c : SessionController) (returned_to : option ident) : db_call TeamDb unit :=
  let! task := db_read (fun db => id ← sc_owner_task_id c; delegation_get db id) in
  let! roots := db_query (control_roots c task returned_to) in
  db_each (fun root =>
    let owning_task := t ← task; if bool_decide (task_root t = root) then Some t else None in
    let! _ := VibexUseEvent.append
      (lit "controller_" ++ sc_session_id c ++ lit "_" ++ decimal (sc_revision c) ++ lit "_" ++ root)
      (Some root) EvControllerChanged (ad_id <$> owning_task) (Some (sc_session_id c))
      (from_option ad_revision 0%Z owning_task)
      (JObject [(lit "controller", JString (lit (if sc_human_controlled c then "human" else "agent")));
                (lit "controllerRevision", json_u64 (sc_revision c))]) in
    db_ret tt) roots.

(** Ordinary sessions acquire no controller until they take part in automated work. *)
Definition take_over_for_human_input (session_id : ident) : db_call TeamDb unit :=
  let! current := db_read (fun db => controller_get db session_id) in
  let! involved := db_read (fun db =>
    sql_exists (by_child session_id) (tm_edges db)
    || sql_exists (fun g => bool_decide (sg_target_session_id g = session_id)
                            && bool_decide (sg_scope g = lit "controlled")) (tm_grants db)
    || sql_exists (fun e => bool_decide (ex_session_id e = session_id)) (tm_executions db)) in
  if match current with Some c => sc_human_controlled c | None => negb involved end then db_ret tt
  else
    let! c := mark_human_controlled session_id in
    append_control_event c None.

(** A newly accepted human intent may return automated input to its owner. *)
Definition return_to_agent (session_id parent_session_id : ident) : db_call TeamDb bool :=
  let! current := db_read (fun db => controller_get db session_id) in
  match current with
  | None => db_ret false
  | Some current =>
      if negb (sc_human_controlled current) then db_ret false
      else if bool_decide (is_Some (sc_owner_task_id current))
              && negb (bool_decide (sc_owner_parent_session_id current = Some parent_session_id)) then
        db_fail (conflict "vibex_use_controller_changed" "another task owns this session's automated input")
      else
        let! now := db_read tm_now in
        let! changed := execute controllers
          (fun c => by_controller session_id c && bool_decide (sc_revision c = sc_revision current)
                    && sc_human_controlled c)
          (fun c => mkController session_id (sc_owner_task_id c) (sc_owner_parent_session_id c)
                      (sc_revision c + 1) false now) in
        if changed =? 0 then db_fail (conflict "vibex_use_controller_changed" "the session controller changed")
        else
          let! c := ensure session_id in
          let! _ := append_control_event c (Some parent_session_id) in
          db_ret true
  end.

(** A handback permits new input only: the round must have been accepted under
    the controller's present revision. *)
Definition check_accepted_input (request : SendAgentMessageRequest) (db : TeamDb) : VibexResult unit :=
  let unchanged := sql_exists (fun e =>
    by_input (rq_session_id request) (rq_message_idempotency_key request) e
    && match controller_get db (rq_session_id request) with
       | Some c => bool_decide (eo_controller_revision (ex_origin e) = sc_revision c)
                   && negb (sc_human_controlled c)
       | None => false
       end) (tm_executions db) in
  if unchanged then Ok tt
  else Err (conflict "vibex_use_controller_changed"
              "the session controller changed after this input was accepted").

(** Releases a task's claim once the task settles. *)
Definition release (session_id task_id : ident) : db_call TeamDb SessionController :=
  let! now := db_read tm_now in
  let! _ := execute controllers
    (fun c => by_controller session_id c && bool_decide (sc_owner_task_id c = Some task_id))
    (fun c => mkController session_id None None (sc_revision c + 1) (sc_human_controlled c) now) in
  ensure session_id.
End SessionControllers.

(** ** Operations *)

Inductive VibexUseOperationReservation : Type :=
| OperationClaimed (o : VibexUseOperation)
| OperationExisting (o : VibexUseOperation)
| OperationConflict (o : VibexUseOperation).

Module VibexUseOperations.
Definition operation_get (db : TeamDb) (id : ident) : option VibexUseOperation := sql_first (by_operation id) (tm_operations db).
(** The lookup compares the authority and the actor joined by U+001F; the
    unique index has them as two columns. *)
Definition by_call (authority_key tool caller_key : str) (o : VibexUseOperation) : bool :=
  bool_decide (Team.authority_key o = authority_key) && bool_decide (uo_tool o = tool)
  && bool_decide (uo_caller_key o = caller_key).
Definition by_identity (o x : VibexUseOperation) : bool :=
  bool_decide (uo_authority x = uo_authority o) && bool_decide (uo_actor_key x = uo_actor_key o)
  && bool_decide (uo_tool x = uo_tool o) && bool_decide (uo_caller_key x = uo_caller_key o).
Definition get_by_key (db : TeamDb) (authority_key tool caller_key : str) : option VibexUseOperation :=
  sql_first (by_call authority_key tool caller_key) (tm_operations db).
Definition list_pending (db : TeamDb) : list VibexUseOperation :=
  take 500 (sql_order (fun o => uo_created_at_ms o :: text_key (uo_id o))
    (fun o => match uo_state o with OpAccepted | OpInProgress => true | _ => false end) (tm_operations db)).
Definition list_for_actor (db : TeamDb) (authority actor_key : str) (limit : nat) : list VibexUseOperation :=
  take (Nat.min limit 500) (sql_order (fun o => (- uo_updated_at_ms o)%Z :: text_key (uo_id o))
    (fun o => bool_decide (uo_authority o = authority) && bool_decide (uo_actor_key o = actor_key))
    (tm_operations db)).
Definition stored_at (now : Z) (caller_key : str) (o : VibexUseOperation) : VibexUseOperation :=
  mkOperation (uo_id o) (uo_authority o) (uo_actor_key o) (uo_tool o) caller_key (uo_payload_fingerprint o)
    (uo_state o) (uo_error_code o) (uo_error_message o) (uo_retryable o) (uo_resources o) (uo_checkpoint o) now now.
Definition answer_existing (operation existing : VibexUseOperation) : VibexUseOperationReservation :=
  if bool_decide (uo_payload_fingerprint existing = uo_payload_fingerprint operation)
  then OperationExisting existing else OperationConflict existing.
(** Reserves [(authority, actor, tool, caller key)] for one request. *)
Definition reserve (operation : VibexUseOperation) (caller_key : str)
    : db_call TeamDb VibexUseOperationReservation :=
  let! existing := db_read (fun db => get_by_key db (authority_key operation) (uo_tool operation) caller_key) in
  match existing with
  | Some existing => db_ret (answer_existing operation existing)
  | None =>
      let! now := db_read tm_now in
      let row := stored_at now caller_key operation in
      let! taken := db_read (fun db => sql_exists (by_operation (uo_id operation)) (tm_operations db)) in
      if taken then
        db_fail (storage_error "vibex_use_operation_reserve_failed" "failed to reserve a Vibex-use operation")
      else
        let! inserted := insert_or_ignore operations (by_identity row) row in
        if inserted =? 0 then
          let! existing := db_read (fun db =>
            get_by_key db (authority_key operation) (uo_tool operation) caller_key) in
          match existing with
          | Some existing => db_ret (answer_existing operation existing)
          | None => db_fail (storage_error "vibex_use_operation_missing_after_conflict"
                               "a concurrent Vibex-use operation could not be read back")
          end
        else
          let! stored := db_read (fun db => operation_get db (uo_id operation)) in
          match stored with
          | Some o => db_ret (OperationClaimed o)
          | None => db_fail (storage_error "vibex_use_operation_missing_after_insert"
                               "a Vibex-use operation disappeared after it was persisted")
          end
  end.
Definition set_operation (state : VibexUseOperationState) (error_code error_message : option str)
    (retryable : bool) (resources : list VibexUseOperationResource) (checkpoint : gmap str str) (now : Z)
    (o : VibexUseOperation) : VibexUseOperation :=
  mkOperation (uo_id o) (uo_authority o) (uo_actor_key o) (uo_tool o) (uo_caller_key o)
    (uo_payload_fingerprint o) state error_code error_message retryable resources checkpoint (uo_created_at_ms o) now.
Definition update_state (id : ident) (state : VibexUseOperationState) (error_code error_message : option str)
    (retryable : bool) : db_call TeamDb (option VibexUseOperation) :=
  let! now := db_read tm_now in
  let! _ := execute operations (by_operation id)
    (fun o => set_operation state error_code error_message retryable (uo_resources o) (uo_checkpoint o) now o) in
  db_read (fun db => operation_get db id).
(** Appends one produced resource; the same reference is recorded once. *)
Definition append_resource (id : ident) (resource : VibexUseOperationResource)
    : db_call TeamDb (option VibexUseOperation) :=
  let! now := db_read tm_now in
  let! _ := execute operations
    (fun o => by_operation id o
       && negb (existsb (fun r => bool_decide (or_reference r = or_reference resource)) (uo_resources o)))
    (fun o => set_operation (uo_state o) (uo_error_code o) (uo_error_message o) (uo_retryable o)
                (uo_resources o ++ [resource]) (uo_checkpoint o) now o) in
  db_read (fun db => operation_get db id).
Definition set_checkpoint (id : ident) (key value : str) : db_call TeamDb (option VibexUseOperation) :=
  let! now := db_read tm_now in
  let! _ := execute operations (by_operation id)
    (fun o => set_operation (uo_state o) (uo_error_code o) (uo_error_message o) (uo_retryable o)
                (uo_resources o) (<[key := value]> (uo_checkpoint o)) now o) in
  db_read (fun db => operation_get db id).
(** Captures one immutable workflow decision: the first stored value stays. *)
Definition set_checkpoint_once (id : ident) (key value : str) : db_call TeamDb VibexUseOperation :=
  let! now := db_read tm_now in
  let! _ := execute operations
    (fun o => by_operation id o && bool_decide (uo_checkpoint o !! key = None))
    (fun o => set_operation (uo_state o) (uo_error_code o) (uo_error_message o) (uo_retryable o)
                (uo_resources o) (<[key := value]> (uo_checkpoint o)) now o) in
  let! stored := db_read (fun db => operation_get db id) in
  match stored with
  | Some o => db_ret o
  | None => db_fail (storage_error "vibex_use_operation_missing" "operation was not found")
  end.
End VibexUseOperations.

(** ** Delegated tasks *)

Module Delegations.
Definition get_for_parent (db : TeamDb) (parent id : ident) : option AgentDelegation :=
  sql_first (fun t => bool_decide (ad_parent_session_id t = parent) && by_task id t) (tm_tasks db).
Definition by_request (parent : ident) (key : str) (t : AgentDelegation) : bool :=
  bool_decide (ad_parent_session_id t = parent) && bool_decide (tt_idempotency_key (ad_terms t) = key).
Definition get_by_parent_and_idempotency (db : TeamDb) (parent : ident) (key : str) : option AgentDelegation :=
  sql_first (by_request parent key) (tm_tasks db).
Definition oldest_first (t : AgentDelegation) : list Z := tt_created_at_ms (ad_terms t) :: text_key (ad_id t).
Definition list_for_parent (db : TeamDb) (parent : ident) : list AgentDelegation :=
  sql_order oldest_first (fun t => bool_decide (ad_parent_session_id t = parent)) (tm_tasks db).
Definition list_delegations_for_root (db : TeamDb) (root : ident) (include_finished : bool) : list AgentDelegation :=
  sql_order (fun t => (- tt_created_at_ms (ad_terms t))%Z :: text_key (ad_id t))
    (fun t => bool_decide (tw_root_session_id (ad_work t) = Some root)
       && (include_finished || negb (phase_is_terminal (tp_phase (ad_progress t))))) (tm_tasks db).
Definition status_is_active (s : AgentDelegationStatus) : bool :=
  match s with StatusQueued | StatusStarting | StatusRunning | StatusNeedsInput => true | _ => false end.
Definition list_active (db : TeamDb) : list AgentDelegation :=
  sql_order (fun t => ad_updated_at_ms t :: text_key (ad_id t))
    (fun t => status_is_active (tp_status (ad_progress t))) (tm_tasks db).
Definition list_by_phase (db : TeamDb) (phases : list DelegationTaskPhase) : list AgentDelegation :=
  sql_order (fun t => (- ad_updated_at_ms t)%Z :: text_key (ad_id t))
    (fun t => bool_decide (tp_phase (ad_progress t) ∈ phases)) (tm_tasks db).
Definition active_count_for_parent (db : TeamDb) (parent : ident) : Z :=
  count_u32 (sql_count (fun t => bool_decide (ad_parent_session_id t = parent)
    && status_is_active (tp_status (ad_progress t))) (tm_tasks db)).

(** Writes the explicit phase and the compatibility status together. *)
Definition stamp_if (b : bool) (now : Z) (old : option Z) : option Z := if b then Some (default now old) else old.
Definition phase_is_started (p : DelegationTaskPhase) : bool :=
  match p with TaskStarting | TaskActive | TaskAwaitingReview | TaskCancelling => true | _ => false end.
Definition move_phase (phase : DelegationTaskPhase) (result_summary error_code : option str) (now : Z)
    (p : TaskProgress) : TaskProgress :=
  mkProgress (legacy_status_for_phase phase) phase
    (match result_summary with Some s => Some s | None => tp_result_summary p end) error_code (tp_revision p + 1)
    (stamp_if (phase_is_started phase) now (tp_started_at_ms p))
    (stamp_if (phase_is_terminal phase) now (tp_completed_at_ms p))
    (stamp_if (phase_is_terminal phase) now (tp_finished_at_ms p))
    (stamp_if (bool_decide (phase = TaskCancelling)) now (tp_cancellation_requested_at_ms p)).
(** A fence that was accepted is not undone by a late snapshot. *)
Definition may_move (phase : DelegationTaskPhase) (p : TaskProgress) : bool :=
  negb (phase_is_terminal (tp_phase p))
  && (negb (bool_decide (tp_phase p = TaskCancelling))
      || match phase with TaskCancelling | TaskCancelled | TaskFailed => true | _ => false end).
Definition transition_delegation (id : ident) (phase : DelegationTaskPhase) (result_summary error_code : option str)
    : db_call TeamDb (option AgentDelegation) :=
  let! now := db_read tm_now in
  let! _ := execute tasks (fun t => by_task id t && may_move phase (ad_progress t))
    (fun t => with_progress (move_phase phase result_summary error_code now (ad_progress t)) now t) in
  db_read (fun db => delegation_get db id).
(** The compatibility writer of the status. *)
Definition set_status (status : AgentDelegationStatus) (result_summary error_code : option str) (now : Z)
    (p : TaskProgress) : TaskProgress :=
  mkProgress status (phase_for_legacy_status status) result_summary error_code (tp_revision p)
    (stamp_if (match status with StatusStarting | StatusRunning | StatusNeedsInput => true | _ => false end) now
       (tp_started_at_ms p))
    (stamp_if (status_is_terminal status) now (tp_completed_at_ms p))
    (stamp_if (status_is_terminal status) now (tp_finished_at_ms p))
    (tp_cancellation_requested_at_ms p).
Definition update_status_if_active (id : ident) (status : AgentDelegationStatus)
    (result_summary error_code : option str) : db_call TeamDb (option AgentDelegation) :=
  let! now := db_read tm_now in
  let! changed := execute tasks
    (fun t => by_task id t && negb (status_is_terminal (tp_status (ad_progress t)))
       && (negb (bool_decide (tp_phase (ad_progress t) = TaskCancelling)) || bool_decide (status = StatusCancelled)))
    (fun t => with_progress (set_status status result_summary error_code now (ad_progress t)) now t) in
  if changed =? 0 then db_ret None
  else
    let! stored := db_read (fun db => delegation_get db id) in
    match stored with
    | Some t => db_ret (Some t)
    | None => db_fail (storage_error "agent_delegation_missing_after_update"
                         "Agent delegation was not found after it was updated")
    end.
(** Requests cancellation by moving the phase to [cancelling] first. *)
Definition request_delegation_cancellation (id : ident) : db_call TeamDb (option AgentDelegation) :=
  let! now := db_read tm_now in
  let! _ := execute tasks
    (fun t => by_task id t && negb (phase_is_terminal (tp_phase (ad_progress t)))
              && negb (bool_decide (tp_phase (ad_progress t) = TaskCancelling)))
    (fun t =>
       let p := ad_progress t in
       with_progress
         (mkProgress StatusRunning TaskCancelling (tp_result_summary p) (tp_error_code p) (tp_revision p + 1)
            (tp_started_at_ms p) (tp_completed_at_ms p) (tp_finished_at_ms p)
            (Some (default now (tp_cancellation_requested_at_ms p)))) now t) in
  db_read (fun db => delegation_get db id).

(** Persists the parts of a delegation that only Vibex-use writes. *)
Definition update_delegation_vibex_use_fields (task : AgentDelegation) : db_call TeamDb unit :=
  let! now := db_read tm_now in
  let! _ := execute tasks (by_task (ad_id task))
    (fun t =>
       let w := ad_work task in
       with_work
         (mkWork (tw_current_execution_id w) (tw_blocked_on w) (tw_context_refs w) (tw_acceptance_criteria w)
            (tw_requested_runtime w) (tw_effective_runtime w) (tw_result_refs w) (tw_controller_revision w)
            (match tw_root_session_id (ad_work t) with Some r => Some r | None => tw_root_session_id w end)
            (match tw_payload_fingerprint (ad_work t) with Some f => Some f | None => tw_payload_fingerprint w end))
         now t) in
  db_ret tt.
(** Records what a task is waiting for without touching its phase. *)
Definition set_delegation_blocked_on (id : ident) (blocked_on : option DelegationBlockedOn) : db_call TeamDb unit :=
  let! now := db_read tm_now in
  let! _ := execute tasks (by_task id)
    (fun t =>
       let w := ad_work t in
       with_work
         (mkWork (tw_current_execution_id w) blocked_on (tw_context_refs w) (tw_acceptance_criteria w)
            (tw_requested_runtime w) (tw_effective_runtime w) (tw_result_refs w) (tw_controller_revision w)
            (tw_root_session_id w) (tw_payload_fingerprint w)) now t) in
  db_ret tt.
(** Applies the root, runtime summary and acceptance criteria of a new task. *)
Definition initialize_delegation_task (id root_session_id : ident)
    (requested_runtime : option DelegationRuntimeSummary) (context_refs : list DelegationContextRef)
    (acceptance_criteria : list str) (payload_fingerprint : str) : db_call TeamDb unit :=
  let! now := db_read tm_now in
  let! _ := execute tasks (by_task id)
    (fun t =>
       let w := ad_work t in
       with_work
         (mkWork (tw_current_execution_id w) (tw_blocked_on w) context_refs acceptance_criteria requested_runtime
            (tw_effective_runtime w) (tw_result_refs w) 0 (Some root_session_id) (Some payload_fingerprint)) now t) in
  db_ret tt.
(** Appends one result reference, ignoring a repeat of the same execution. *)
Definition append_delegation_result_ref (id : ident) (result : DelegationResultRef)
    : db_call TeamDb (option AgentDelegation) :=
  let! task := db_read (fun db => delegation_get db id) in
  match task with
  | None => db_ret None
  | Some task =>
      if existsb (fun r => bool_decide (rr_execution_ref r = rr_execution_ref result)) (tw_result_refs (ad_work task))
      then db_ret (Some task)
      else
        let! now := db_read tm_now in
        let! _ := execute tasks (by_task id)
          (fun t =>
             let w := ad_work t in
             with_work
               (mkWork (tw_current_execution_id w) (tw_blocked_on w) (tw_context_refs w) (tw_acceptance_criteria w)
                  (tw_requested_runtime w) (tw_effective_runtime w) (tw_result_refs (ad_work task) ++ [result])
                  (tw_controller_revision w) (tw_root_session_id w) (tw_payload_fingerprint w)) now t) in
        db_read (fun db => delegation_get db id)
  end.
Definition attach_claimed_child_session (id child effective_agent_id : ident)
    : db_call TeamDb (option AgentDelegation) :=
  let! now := db_read tm_now in
  let! changed := execute tasks
    (fun t => by_task id t && bool_decide (ad_child_session_id t = None)
       && (bool_decide (tp_status (ad_progress t) = StatusStarting)
           || bool_decide (tp_phase (ad_progress t) = TaskCancelling)))
    (fun t => mkDelegation (ad_terms t) (ad_progress t) (ad_work t) (Some child) (Some effective_agent_id)
                (ad_parent_timeline_item_id t) now (ad_cancellation_last_attempt_at_ms t)) in
  if changed =? 0 then db_ret None
  else
    let! stored := db_read (fun db => delegation_get db id) in
    match stored with
    | Some t => db_ret (Some t)
    | None => db_fail (storage_error "agent_delegation_missing_after_update"
                         "Agent delegation was not found after it was updated")
    end.
(** Stores the child-session id and the ownership edge of a claimed task. *)
Definition attach_child_session_with_ownership (id child effective_agent_id parent : ident)
    : db_call TeamDb (option AgentDelegation) :=
  let! updated := attach_claimed_child_session id child effective_agent_id in
  let! _ := match updated with
            | Some _ => SessionOwnership.upsert child parent (Some id)
            | None => db_ret tt
            end in
  db_ret updated.
Definition attach_parent_timeline_item (id timeline_item_id : ident) : db_call TeamDb unit :=
  let! now := db_read tm_now in
  let! _ := execute tasks (by_task id)
    (fun t => mkDelegation (ad_terms t) (ad_progress t) (ad_work t) (ad_child_session_id t)
                (ad_effective_agent_id t) (Some timeline_item_id) now (ad_cancellation_last_attempt_at_ms t)) in
  db_ret tt.

(** The ancestry as the delegation rows alone record it. *)
Fixpoint delegation_climb (fuel : nat) (db : TeamDb) (depth : Z) (current : ident) : VibexResult Z :=
  match fuel with
  | O => Err (storage_error "agent_delegation_ancestry_invalid"
                "Agent delegation ancestry exceeds the supported depth")
  | S fuel =>
      match sql_first (fun t => bool_decide (ad_child_session_id t = Some current)) (tm_tasks db) with
      | None => Ok depth
      | Some t => delegation_climb fuel db (depth + 1) (ad_parent_session_id t)
      end
  end.
Definition delegation_ancestor_depth (db : TeamDb) (session_id : ident) : VibexResult Z := delegation_climb 32 db 0 session_id.
(** Children by the ownership edges and by the owned delegation rows. *)
Definition direct_child_session_ids (db : TeamDb) (parent : ident) : list ident :=
  SessionControllers.sorted_ids
    ((oe_child_session_id <$> sql_where (fun e => bool_decide (oe_parent_session_id e = parent)) (tm_edges db))
     ++ omap ad_child_session_id
          (sql_where (fun t => bool_decide (ad_parent_session_id t = parent)
             && bool_decide (tt_ownership_kind (ad_terms t) = OwnedChild)) (tm_tasks db))).
Definition hierarchy_error (message : string) : VibexError :=
  storage_error "agent_delegation_hierarchy_invalid" message.
(** [for depth in 1..=32] over the frontier; [fuel] counts the depths left. *)
Fixpoint descend (fuel : nat) (db : TeamDb) (depth : Z) (seen frontier : list ident) (depths : list (Z * ident))
    : VibexResult (list (Z * ident)) :=
  match fuel with
  | O => Ok depths
  | S fuel =>
      if is_empty frontier then Ok depths
      else
        let? next := for_fold (fun acc child =>
            if bool_decide (child ∈ fst acc) then
              Err (hierarchy_error "Agent delegation hierarchy contains a duplicate or cycle")
            else Ok (child :: fst acc, snd acc ++ [child]))
          (seen, []) (frontier ≫= direct_child_session_ids db) in
        let depths := depths ++ (pair depth <$> snd next) in
        if is_empty (snd next) then Ok depths
        else if (depth =? 32)%Z then
          Err (hierarchy_error "Agent delegation hierarchy exceeds the supported depth")
        else descend fuel db (depth + 1) (fst next) (snd next) depths
  end.
(** A managed child-session tree in deletion order, deepest first. *)
Definition descendant_session_ids (db : TeamDb) (parent : ident) : VibexResult (list ident) :=
  let? depths := descend 32 db 1 [parent] [parent] [] in
  Ok (snd <$> sort_by_key (fun d => (- fst d)%Z :: text_key (snd d)) depths).

Inductive AgentDelegationReservation : Type := Existing (t : AgentDelegation) | Reserved (t : AgentDelegation).
(** The row of a new delegation: its status is the projection of its phase. *)
Definition delegation_row (parent_task_id : option ident) (t : AgentDelegation) : AgentDelegation :=
  let x := ad_terms t in let p := ad_progress t in
  mkDelegation
    (mkTerms (tt_id x) (tt_parent_session_id x) (tt_idempotency_key x) (tt_title x) (tt_task_summary x)
       (tt_requested_agent_id x) (tt_completion_policy x) (tt_ownership_kind x) (tt_follows_task_id x)
       (tt_created_at_ms x) parent_task_id)
    (mkProgress (legacy_status_for_phase (tp_phase p)) (tp_phase p) (tp_result_summary p) (tp_error_code p)
       (tp_revision p) (tp_started_at_ms p) (tp_completed_at_ms p) (tp_finished_at_ms p)
       (tp_cancellation_requested_at_ms p))
    (ad_work t) (ad_child_session_id t) (ad_effective_agent_id t) (ad_parent_timeline_item_id t)
    (ad_updated_at_ms t) None.
(** What a new task must pass, in the order it is checked: its parent task. *)
Definition check_reservation (delegation : AgentDelegation) (active_limit : Z) (db : TeamDb)
    : VibexResult (option ident) :=
  let parent := ad_parent_session_id delegation in
  reject (active_limit <=? active_count_for_parent db parent)%Z
  with (conflict "agent_delegation_concurrency_exceeded"
          "the parent session already has the maximum number of active child tasks");;
  let? fence := delegation_cancellation_fence db parent in
  reject (bool_decide (is_Some fence))
  with (conflict "vibex_use_task_cancelling" "the parent task tree is stopping");;
  let? root := vibex_use_root_session db parent in
  let? _ := check_session_deadline db parent (tm_now db) in
  let? _ := check_admission db root (task_agent db delegation) 0 in
  let? depth := vibex_use_delegation_depth db parent in
  let? p := policy db in
  reject (bp_max_depth p <=? depth)%Z
  with (conflict "delegation_depth_exceeded" "Agent delegation nesting depth is limited");;
  reject (bool_decide (ad_child_session_id delegation = Some parent))
  with (conflict "delegation_hierarchy_invalid" "a session cannot delegate a task to itself");;
  reject (match ad_child_session_id delegation with
          | Some child => existsb (fun t => negb (phase_is_terminal (phase t))) (list_delegations_for_child db child)
          | None => false
          end)
  with (conflict "vibex_use_controller_changed" "the session already has an unfinished task");;
  vibex_use_origin_task db parent.
Definition reserve_or_get (delegation : AgentDelegation) (active_limit : Z)
    : db_call TeamDb AgentDelegationReservation :=
  let parent := ad_parent_session_id delegation in
  let key := tt_idempotency_key (ad_terms delegation) in
  db_transaction
    (let! existing := db_read (fun db => get_by_parent_and_idempotency db parent key) in
     match existing with
     | Some existing =>
         match tw_payload_fingerprint (ad_work existing), tw_payload_fingerprint (ad_work delegation) with
         | Some stored, Some requested =>
             if bool_decide (stored = requested) then db_ret (Existing existing)
             else db_fail (with_diagnostic
                    (conflict "idempotency_payload_conflict"
                       "this idempotency key was already used for a different request")
                    (lit "delegationId") (ad_id existing))
         | _, _ => db_ret (Existing existing)
         end
     | None =>
         let! parent_task_id := db_query (check_reservation delegation active_limit) in
         let! taken := db_read (fun db => sql_exists (by_task (ad_id delegation)) (tm_tasks db)) in
         if taken then
           db_fail (storage_error "agent_delegation_insert_failed" "failed to persist Agent delegation")
         else
           let! _ := db_write (fun db => put_tasks (tm_tasks db ++ [delegation_row parent_task_id delegation]) db) in
           let! _ := reserve_task delegation in
           let! stored := db_read (fun db => get_by_parent_and_idempotency db parent key) in
           match stored with
           | None => db_fail (storage_error "agent_delegation_missing_after_insert"
                                "Agent delegation was not found after it was persisted")
           | Some persisted =>
               match ad_child_session_id persisted with
               | None => db_ret (Reserved persisted)
               | Some child =>
                   let! claim := SessionControllers.claim child (ad_id persisted)
                                   (ad_parent_session_id persisted) None in
                   match claim with
                   | Claimed _ => db_ret (Reserved persisted)
                   | _ => db_fail (conflict "vibex_use_controller_changed"
                                     "the session controller changed before task admission")
                   end
               end
           end
     end).
End Delegations.
