(* ===== verification/TeamWork.v ===== *)
(** Rounds and messages of Team work: the executions table, the admission of
    automated input, the settlement of a round, the acceptance and the
    cancellation of tasks (db/src/vibex_use.rs and its submodules), and the
    durable message submissions ([MessageSubmissionRepository] of
    db/src/runtime.rs). *)
From stdpp Require Import prelude strings list gmap.
From Stdlib Require Import NArith ZArith Lia.
From S2P Require Import Prelude CoreTypes Rows Storage Ir Json Team TeamStore.

(** ** The executions table *)

Module Executions.
(** [bounded_chars]: an ellipsis replaces what does not fit. *)
Definition bounded_chars (value : str) (limit : nat) : str * bool :=
  if length value <=? limit then (value, false) else (take (limit - 1) value ++ [8230%N], true).
Definition latest_for_session (db : TeamDb) (session_id : ident) : option DelegationExecution :=
  with_usage db <$> last (sql_order (fun e => [eo_created_at_ms (ex_origin e)])
    (fun e => bool_decide (ex_session_id e = session_id)) (tm_executions db)).
Definition list_for_task (db : TeamDb) (task_id : ident) : list DelegationExecution :=
  with_usage db <$> sql_order (fun e => eo_created_at_ms (ex_origin e) :: text_key (ex_id e))
    (fun e => bool_decide (ex_task_id e = Some task_id)) (tm_executions db).
(** Executions that have not settled yet. *)
Definition list_open (db : TeamDb) : list DelegationExecution :=
  with_usage db <$> sql_order (fun e => ex_updated_at_ms e :: text_key (ex_id e)) open_round (tm_executions db).
(** Resource handles from a round's immutable window, and whether some did not fit. *)
Definition is_artifact (k : TimelineItemKind) : bool :=
  match k with KindFileOperation | KindImageGeneration | KindToolCall | KindCommand => true | _ => false end.
Definition result_artifacts (db : TeamDb) (session_id : ident) (range : ExecutionResultRange) (limit : nat)
    : list VibexUseRef * bool :=
  let limit := Nat.max 1 (Nat.min limit VIBEX_USE_MAX_READ_ITEMS) in
  let sequences := take (limit + 1) (ti_sequence <$> sql_order (fun i => [ti_sequence i])
    (fun i => bool_decide (ti_session_id i = session_id) && (er_start_sequence range <=? ti_sequence i)%Z
       && (ti_sequence i <=? er_end_sequence range)%Z && is_artifact (ti_kind i)) (tm_timeline db)) in
  (resource_ref session_id <$> take limit sequences, limit <? length sequences).

(** Inserts one execution or returns the row that already owns its input. *)
Definition origin_task_of (e : DelegationExecution) (db : TeamDb) : VibexResult (option ident) :=
  match ex_task_id e with
  | Some task => Ok (Some task)
  | None =>
      match eo_provenance (ex_origin e) with
      | DelegatedInput actor _ _ =>
          match ref_session_id actor with
          | Some actor => vibex_use_origin_task db actor
          | None => Ok None
          end
      | _ => Ok None
      end
  end.
Definition claims_round (e x : DelegationExecution) : bool :=
  by_execution (ex_id e) x || by_round (ex_submission_id e) x
  || by_input (ex_session_id e) (eo_input_idempotency_key (ex_origin e)) x.
Definition accepted_under (origin_task_id : option ident) (db : TeamDb) (e : DelegationExecution)
    : DelegationExecution :=
  let o := ex_origin e in
  mkExecution
    (mkOrigin (eo_id o) (eo_task_id o) (eo_session_id o) (eo_root_session_id o) (eo_submission_id o)
       (eo_input_idempotency_key o) (eo_provenance o) (eo_created_at_ms o) origin_task_id
       (from_option sc_revision 1%Z (controller_get db (eo_session_id o))))
    (ex_result e) (ex_start_sequence e) (ex_runtime_selection_revision e) no_tokens None (ex_blocked_on e) None
    (ex_updated_at_ms e).
Definition insert_or_get (e : DelegationExecution) : db_call TeamDb (DelegationExecution * bool) :=
  let! origin_task_id := db_query (origin_task_of e) in
  let! row := db_read (fun db => accepted_under origin_task_id db e) in
  let! inserted := insert_or_ignore executions (claims_round e) row in
  let! stored := db_read (fun db =>
    match execution_get db (ex_id e) with
    | Some stored => Some stored
    | None => get_by_input db (ex_session_id e) (eo_input_idempotency_key (ex_origin e))
    end) in
  match stored with
  | Some stored => db_ret (stored, 0 <? inserted)
  | None => db_fail (storage_error "vibex_use_execution_missing_after_insert"
                       "a task execution disappeared after it was persisted")
  end.
Definition set_outcome (outcome : ExecutionOutcome) (r : ExecutionResult) : ExecutionResult :=
  mkResult outcome (xr_stop_reason r) (xr_error_code r) (xr_summary r) (xr_result_ranges r) (xr_artifact_refs r)
    (xr_usage r) (xr_truncated r) (xr_end_sequence r) (xr_finished_at_ms r).
Definition mark_started (id : ident) (start_sequence : Z) : db_call TeamDb unit :=
  let! now := db_read tm_now in
  let! _ := execute executions (by_execution id)
    (fun e => mkExecution (ex_origin e) (set_outcome OutRunning (ex_result e))
       (Some (default start_sequence (ex_start_sequence e))) (ex_runtime_selection_revision e) (ex_usage_tokens e)
       (ex_api_requests e) (ex_blocked_on e) (ex_interrupt_requested_at_ms e) now) in
  db_ret tt.
(** Fixes the result of one execution, once. *)
Definition settled_result (outcome : ExecutionOutcome) (stop_reason summary : option str)
    (result_ranges : list ExecutionResultRange) (artifact_refs : list VibexUseRef) (usage : ExecutionUsageState)
    (truncated : bool) (end_sequence : option Z) (finished_at_ms : Z) (r : ExecutionResult) : ExecutionResult :=
  mkResult outcome stop_reason
    (if bool_decide (outcome = OutFailed) then
       match xr_error_code r with Some code => Some code | None => stop_reason end
     else xr_error_code r)
    summary result_ranges artifact_refs usage truncated
    (match end_sequence with Some s => Some s | None => xr_end_sequence r end)
    (Some (default finished_at_ms (xr_finished_at_ms r))).
Definition settle (id : ident) (outcome : ExecutionOutcome) (stop_reason summary : option str)
    (result_ranges : list ExecutionResultRange) (artifact_refs : list VibexUseRef) (usage : ExecutionUsageState)
    (truncated : bool) (end_sequence : option Z) (finished_at_ms : Z) : db_call TeamDb (option DelegationExecution) :=
  let! _ := execute executions (fun e => by_execution id e && open_round e)
    (fun e => touch_execution finished_at_ms
       (with_result (settled_result outcome stop_reason summary result_ranges artifact_refs usage truncated
                       end_sequence finished_at_ms (ex_result e)) e)) in
  db_read (fun db => execution_get db id).
Definition set_error_code (id : ident) (error_code : str) : db_call TeamDb bool :=
  let! now := db_read tm_now in
  let! changed := execute executions (by_execution id)
    (fun e =>
       let r := ex_result e in
       touch_execution now (with_result
         (mkResult (xr_outcome r) (xr_stop_reason r) (Some (default error_code (xr_error_code r))) (xr_summary r)
            (xr_result_ranges r) (xr_artifact_refs r) (xr_usage r) (xr_truncated r) (xr_end_sequence r)
            (xr_finished_at_ms r)) e)) in
  db_ret (0 <? changed).
Definition set_blocked_on (id : ident) (blocked_on : option DelegationBlockedOn) : db_call TeamDb unit :=
  let! now := db_read tm_now in
  let! _ := execute executions (by_execution id) (with_blocked_on blocked_on now) in
  db_ret tt.
Definition record_stop_reason (submission_id : ident) (reason : str) : db_call TeamDb unit :=
  let! _ := execute executions (fun e => by_round submission_id e && open_round e)
    (fun e =>
       let r := ex_result e in
       with_result
         (mkResult (xr_outcome r) (Some (fst (bounded_chars reason 128))) (xr_error_code r) (xr_summary r)
            (xr_result_ranges r) (xr_artifact_refs r) (xr_usage r) (xr_truncated r) (xr_end_sequence r)
            (xr_finished_at_ms r)) e) in
  db_ret tt.
(** Marks a queued execution ambiguous after a crash across the dispatch edge. *)
Definition mark_execution_ambiguous (id : ident) (stop_reason : str) : db_call TeamDb (option DelegationExecution) :=
  let! now := db_read tm_now in
  settle id OutAmbiguous (Some stop_reason)
    (Some (lit "the prompt may have reached the provider; the outcome is unknown")) [] [] UsageUnknown false None now.
(** The team whose inbox a round belongs to. *)
Definition execution_root (e : DelegationExecution) (db : TeamDb) : VibexResult ident :=
  match eo_provenance (ex_origin e) with
  | DelegatedInput actor _ _ =>
      match ref_session_id actor with
      | Some actor => vibex_use_root_session db actor
      | None => vibex_use_root_session db (ex_session_id e)
      end
  | _ => vibex_use_root_session db (ex_session_id e)
  end.
(** Records the runtime proved immediately before provider dispatch. *)
Definition attach_delegation_runtime_summary (id : ident) (effective_runtime : DelegationRuntimeSummary)
    (runtime_selection_revision : Z) : db_call TeamDb unit :=
  db_transaction
    (let! now := db_read tm_now in
     let! _ := execute executions (fun e => by_execution id e && bool_decide (ex_outcome e = OutRunning))
       (fun e => mkExecution (ex_origin e) (ex_result e) (ex_start_sequence e) runtime_selection_revision
          (ex_usage_tokens e) (ex_api_requests e) (ex_blocked_on e) (ex_interrupt_requested_at_ms e) now) in
     let! running := db_read (fun db =>
       sql_exists (fun e => by_execution id e && bool_decide (ex_outcome e = OutRunning)) (tm_executions db)) in
     let! _ := execute tasks (fun t => bool_decide (tw_current_execution_id (ad_work t) = Some id) && running)
       (fun t =>
          let w := ad_work t in
          mkDelegation (ad_terms t) (ad_progress t)
            (mkWork (tw_current_execution_id w) (tw_blocked_on w) (tw_context_refs w) (tw_acceptance_criteria w)
               (tw_requested_runtime w) (Some effective_runtime) (tw_result_refs w) (tw_controller_revision w)
               (tw_root_session_id w) (tw_payload_fingerprint w))
            (ad_child_session_id t) (Some (rs_agent_id effective_runtime)) (ad_parent_timeline_item_id t) now
            (ad_cancellation_last_attempt_at_ms t)) in
     db_ret tt).
End Executions.

(** ** Interruption and confirmed cancellation *)

(** A round stop is independent from cancellation of the task that owns it. *)
Module Interrupts.
(** Prefers an admitted round, otherwise the first queued input. *)
Definition is_admitted (s : MessageSubmissionStatus) : bool :=
  match s with AboutToPrompt | Dispatched => true | _ => false end.
Definition is_live (s : MessageSubmissionStatus) : bool :=
  match s with AwaitingRuntime | ReadyToDispatch => true | s => is_admitted s end.
Definition live_submission (db : TeamDb) (e : DelegationExecution) : option MessageSubmissionRecord :=
  s ← submission_get db (ex_submission_id e); if is_live (sb_status s) then Some s else None.
Definition interruptible (db : TeamDb) (e : DelegationExecution) : bool :=
  bool_decide (xr_finished_at_ms (ex_result e) = None) && open_round e
  && bool_decide (is_Some (live_submission db e)).
Definition dispatch_key (db : TeamDb) (e : DelegationExecution) : list Z :=
  match live_submission db e with
  | Some s => [if is_admitted (sb_status s) then 0%Z else 1%Z; st_submission_sequence (sb_terms s)]
  | None => []
  end.
Definition current_execution (db : TeamDb) (session_id : ident) : option DelegationExecution :=
  with_usage db <$> head (sql_order (dispatch_key db)
    (fun e => bool_decide (ex_session_id e = session_id) && interruptible db e) (tm_executions db)).
(** Records intent only while this exact round is queued or admitted. *)
Definition request (id : ident) : db_call TeamDb bool :=
  let! now := db_read tm_now in
  let! live := db_read interruptible in
  let! changed := execute executions (fun e => by_execution id e && live e)
    (fun e => mkExecution (ex_origin e) (ex_result e) (ex_start_sequence e) (ex_runtime_selection_revision e)
       (ex_usage_tokens e) (ex_api_requests e) (ex_blocked_on e)
       (Some (default now (ex_interrupt_requested_at_ms e)))
       (match ex_interrupt_requested_at_ms e with None => now | Some _ => ex_updated_at_ms e end)) in
  db_ret (changed =? 1).
Definition is_requested (db : TeamDb) (id : ident) : bool :=
  sql_exists (fun e => by_execution id e && bool_decide (is_Some (ex_interrupt_requested_at_ms e)))
    (tm_executions db).
End Interrupts.

Module Cancellation.
(** Terminal task rows can still own an unfinished cascade execution. *)
Definition is_pending (db : TeamDb) (t : AgentDelegation) : bool :=
  bool_decide (tp_phase (ad_progress t) = TaskCancelling)
  || sql_exists (fun e => captured_for db (ad_id t) (ex_id e) && open_round e) (tm_executions db).
Definition pending_tasks : db_call TeamDb (list AgentDelegation) :=
  let! ids := db_read (fun db =>
    ad_id <$> take 64 (sql_order
      (fun t => default 0%Z (ad_cancellation_last_attempt_at_ms t) :: ad_updated_at_ms t :: text_key (ad_id t))
      (is_pending db) (tm_tasks db))) in
  let! now := db_read tm_now in
  let! _ := db_each (fun id =>
    let! _ := execute tasks (by_task id)
      (fun t => mkDelegation (ad_terms t) (ad_progress t) (ad_work t) (ad_child_session_id t)
         (ad_effective_agent_id t) (ad_parent_timeline_item_id t) (ad_updated_at_ms t) (Some now)) in
    db_ret tt) ids in
  db_read (fun db => omap (delegation_get db) ids).
Definition task_event_payload (t : AgentDelegation) : json :=
  JObject [(lit "phase", JString (lit (phase_as_str (phase t))))].
(** Finishes a cancelling task whose executions all stopped for certain. *)
Definition settle_task (task_id : ident) : db_call TeamDb unit :=
  let! task := db_read (fun db => delegation_get db task_id) in
  let! confirmed := db_read (fun db => is_confirmed db task_id) in
  match task with
  | None => db_ret tt
  | Some task =>
      if negb (bool_decide (phase task = TaskCancelling)) || negb confirmed then db_ret tt
      else
        let! cancelled := Delegations.transition_delegation task_id TaskCancelled (Some (lit "Task cancelled")) None in
        match cancelled with
        | None => db_ret tt
        | Some cancelled =>
            let! _ := match ad_child_session_id cancelled with
                      | Some child => let! _ := SessionControllers.release child task_id in db_ret tt
                      | None => db_ret tt
                      end in
            let! _ := VibexUseEvent.append (stable_id EvTaskCancelled task_id None) (Some (task_root cancelled))
                        EvTaskCancelled (Some task_id) (ad_child_session_id cancelled) (ad_revision cancelled)
                        (JObject [(lit "phase", JString (lit "cancelled"))]) in
            db_ret tt
        end
  end.
Definition settle_dependents (execution_id : ident) : db_call TeamDb unit :=
  let! ids := db_read (fun db =>
    fst <$> sql_where (fun c => bool_decide (snd c = execution_id)) (tm_cancellations db)) in
  db_each settle_task ids.
End Cancellation.

(** ** Admission of automated input *)

Module Admission.
Definition scope_denied (message : string) : VibexError := conflict "vibex_use_scope_denied" message.
Definition cancelling_error (message : string) : VibexError := conflict "vibex_use_task_cancelling" message.
Definition controller_changed (message : string) : VibexError := conflict "vibex_use_controller_changed" message.

(** Whether the work behind a message is being stopped: at dispatch its own
    round, at acceptance the actor's or the target's task tree. *)
Definition being_cancelled (request : SendAgentMessageRequest) (actor : ident) (dispatch : bool) (db : TeamDb)
    : VibexResult bool :=
  if dispatch then
    match (s ← get_by_key_conn db (rq_session_id request) (rq_message_idempotency_key request);
           get_by_submission db (sb_id s)) with
    | None => Ok false
    | Some execution =>
        if Interrupts.is_requested db (ex_id execution) then
          Err (conflict "vibex_use_execution_interrupted" "the execution was interrupted before dispatch")
        else Ok (cancellation_requested db (ex_id execution))
    end
  else
    let? fence := delegation_cancellation_fence db actor in
    if bool_decide (is_Some fence) then Ok true
    else let? fence := delegation_cancellation_fence db (rq_session_id request) in
         Ok (bool_decide (is_Some fence)).

(** The checks that read only: who acts, on whose authority, and what stops it. *)
Definition check_actor (request : SendAgentMessageRequest) (actor_ref operation_ref : VibexUseRef) (dispatch : bool)
    (db : TeamDb) : VibexResult ident :=
  let? actor := ok_or (ref_session_id actor_ref)
                  (invalid "vibex_use_actor_invalid" "automated input has no actor session") in
  let? operation_id := ok_or (ref_operation_id operation_ref)
                         (invalid "vibex_use_operation_invalid" "automated input has no operation") in
  let? operation := ok_or (VibexUseOperations.operation_get db operation_id)
                      (conflict "vibex_use_operation_missing" "automated input operation was not found") in
  reject (negb (bool_decide (uo_actor_key operation = actor)))
  with (scope_denied "automated input does not belong to this actor");;
  let? scope := vibex_use_session_scope db actor (rq_session_id request) in
  reject (negb (can_write scope)) with (scope_denied "session access changed before message admission");;
  let? cancelled := being_cancelled request actor dispatch db in
  reject cancelled with (cancelling_error "the task tree is stopping");;
  let? _ := check_session_deadline db actor (tm_now db) in
  let? _ := check_session_deadline db (rq_session_id request) (tm_now db) in
  Ok actor.

(** What the named task must be, and the slot its pending start reserved. *)
Definition check_task (request : SendAgentMessageRequest) (actor : ident) (task_ref : VibexUseRef) (db : TeamDb)
    : VibexResult (ident * Z) :=
  let? task_id := ok_or (ref_task_id task_ref)
                    (invalid "vibex_use_task_invalid" "automated input has an invalid task") in
  let? task := ok_or (delegation_get db task_id)
                 (conflict "vibex_use_task_missing" "automated input task was not found") in
  let reserved_slot :=
    if bool_decide (tw_current_execution_id (ad_work task) = None)
       && (bool_decide (phase task = TaskStarting) || bool_decide (phase task = TaskActive)) then 1%Z else 0%Z in
  reject (negb (bool_decide (ad_parent_session_id task = actor))
          || negb (bool_decide (ad_child_session_id task = Some (rq_session_id request))))
  with (scope_denied "automated input does not belong to this task");;
  reject (phase_is_terminal (phase task) || bool_decide (phase task = TaskCancelling))
  with (cancelling_error "this task no longer accepts automated input");;
  let? _ := check_task_deadline db task_id (tm_now db) in
  Ok (task_id, reserved_slot).

(** Whether the task owns the session's write path; acceptance claims it. *)
Definition owns_control (request : SendAgentMessageRequest) (actor task_id : ident) (dispatch : bool)
    : db_call TeamDb bool :=
  if dispatch then
    db_read (fun db =>
      match controller_get db (rq_session_id request) with
      | Some c => negb (sc_human_controlled c) && bool_decide (sc_owner_task_id c = Some task_id)
                  && bool_decide (sc_owner_parent_session_id c = Some actor)
      | None => false
      end)
  else
    let! claim := SessionControllers.claim (rq_session_id request) task_id actor None in
    db_ret (match claim with Claimed _ => true | _ => false end).

(** The write path of the session: the slot the task's pending start reserved. *)
Definition take_control (request : SendAgentMessageRequest) (actor : ident) (task : option VibexUseRef)
    (dispatch : bool) : db_call TeamDb Z :=
  match task with
  | Some task_ref =>
      let! (task_id, reserved_slot) := db_query (check_task request actor task_ref) in
      let! owns := owns_control request actor task_id dispatch in
      if owns then db_ret reserved_slot
      else db_fail (controller_changed "the session controller changed before message admission")
  | None =>
      let! c := SessionControllers.ensure (rq_session_id request) in
      if sc_human_controlled c || bool_decide (is_Some (sc_owner_task_id c)) then
        db_fail (controller_changed "this session is controlled by another input source")
      else db_ret 0%Z
  end.

(** Checks automated input inside the submission transaction. *)
Definition authorize_vibex_use_submission (request : SendAgentMessageRequest) (dispatch : bool)
    : db_call TeamDb unit :=
  match rq_provenance request with
  | DelegatedInput actor_ref task operation_ref =>
      let! actor := db_query (check_actor request actor_ref operation_ref dispatch) in
      let! reserved_slot := take_control request actor task dispatch in
      if dispatch then db_query (SessionControllers.check_accepted_input request)
      else
        let! root := db_query (fun db => vibex_use_root_session db actor) in
        db_query (fun db => check_admission db root (Some (sr_agent_id (rq_desired_runtime request))) reserved_slot)
  | HumanInput =>
      if dispatch then db_ret tt else SessionControllers.take_over_for_human_input (rq_session_id request)
  | _ => db_ret tt
  end.
End Admission.

(** ** Rounds *)

Module Rounds.
Definition execution_payload (id : ident) : list (str * json) :=
  [(lit "executionRef", JString (as_uri (execution_ref id)))].
Definition outcome_payload (e : DelegationExecution) : json :=
  JObject (execution_payload (ex_id e) ++ [(lit "outcome", JString (lit (outcome_as_str (ex_outcome e))))]).
(** A new round of an accepted message. *)
Definition queued_execution (id : ident) (request : SendAgentMessageRequest) (task : option VibexUseRef)
    (submission_id root : ident) (revision now : Z) : DelegationExecution :=
  mkExecution
    (mkOrigin id (r ← task; ref_task_id r) (rq_session_id request) (Some root) submission_id
       (rq_message_idempotency_key request) (rq_provenance request) now None 1)
    (mkResult OutQueued None None None [] [] UsageUnknown false None None)
    None revision no_tokens None None None now.
(** The current round of a task and the controller revision it was accepted under. *)
Definition with_round (execution_id : ident) (controller_revision : Z) (w : TaskWork) : TaskWork :=
  mkWork (Some execution_id) (tw_blocked_on w) (tw_context_refs w) (tw_acceptance_criteria w)
    (tw_requested_runtime w) (tw_effective_runtime w) (tw_result_refs w) controller_revision (tw_root_session_id w)
    (tw_payload_fingerprint w).
Definition link_task (request : SendAgentMessageRequest) (execution : DelegationExecution) (task : AgentDelegation)
    : db_call TeamDb unit :=
  let! c := db_read (fun db => controller_get db (rq_session_id request)) in
  let controller_revision :=
    match c with
    | Some c => if bool_decide (sc_owner_task_id c = Some (ad_id task)) then sc_revision c
                else tw_controller_revision (ad_work task)
    | None => tw_controller_revision (ad_work task)
    end in
  let linked :=
    with_work (with_round (ex_id execution) controller_revision (ad_work task)) (ad_updated_at_ms task) task in
  let! _ := Delegations.update_delegation_vibex_use_fields linked in
  let! moved := Delegations.transition_delegation (ad_id linked) TaskActive None None in
  let task := default linked moved in
  let! _ := VibexUseEvent.append (stable_id EvExecutionAccepted (ad_id task) (Some (ex_id execution)))
              (Some (task_root task)) EvExecutionAccepted (Some (ad_id task)) (Some (rq_session_id request))
              (ad_revision task) (JObject (execution_payload (ex_id execution))) in
  db_ret tt.
(** The submission, its execution, task link and acceptance event commit together. *)
Definition record_vibex_use_submission (request : SendAgentMessageRequest) (submission_id : ident)
    : db_call TeamDb unit :=
  match rq_provenance request with
  | DelegatedInput actor_ref task operation_ref =>
      let! now := db_read tm_now in
      let! id := draw_id VibexExecutionId in
      let! revision := db_read (fun db =>
        default 0%Z (s ← session_row db (rq_session_id request); Z.max 0 <$> as_selection_revision s)) in
      let! actor := db_lift (ok_or (ref_session_id actor_ref)
                               (invalid "vibex_use_actor_invalid" "actor session is invalid")) in
      let! root := db_query (fun db => vibex_use_root_session db actor) in
      let! inserted := Executions.insert_or_get (queued_execution id request task submission_id root revision now) in
      let execution := fst inserted in
      let! linked := db_read (fun db => r ← task; id ← ref_task_id r; delegation_get db id) in
      let! _ := match linked with
                | Some task => link_task request execution task
                | None =>
                    let! root := db_query (Executions.execution_root execution) in
                    let! _ := VibexUseEvent.append (lit "event_execution_accepted_" ++ ex_id execution) (Some root)
                                EvExecutionAccepted None (Some (rq_session_id request)) 0
                                (JObject (execution_payload (ex_id execution))) in
                    db_ret tt
                end in
      match ref_operation_id operation_ref with
      | Some operation_id =>
          let! _ := VibexUseOperations.append_resource operation_id
                      (mkResource (lit "execution") (execution_ref (ex_id execution))) in
          db_ret tt
      | None => db_ret tt
      end
  | _ => db_ret tt
  end.

(** What a finished round makes of its task. *)
Definition phase_after (task : AgentDelegation) (outcome : ExecutionOutcome) (cancellation_settled interrupted : bool)
    : DelegationTaskPhase :=
  if cancellation_settled then TaskCancelled
  else if interrupted then phase task
  else match outcome with
       | OutCancelled => TaskCancelled
       | OutFailed | OutAuthRequired | OutAmbiguous => TaskFailed
       | _ => if bool_decide (tt_completion_policy (ad_terms task) = OwnerReview) then TaskAwaitingReview
              else TaskCompleted
       end.
Definition announce_end (task : AgentDelegation) : db_call TeamDb unit :=
  let! _ := match ad_child_session_id task with
            | Some child => let! _ := SessionControllers.release child (ad_id task) in db_ret tt
            | None => db_ret tt
            end in
  let kind := if bool_decide (phase task = TaskCancelled) then EvTaskCancelled else EvTaskFinished in
  let! _ := VibexUseEvent.append (stable_id kind (ad_id task) None) (Some (task_root task)) kind (Some (ad_id task))
              (ad_child_session_id task) (ad_revision task) (Cancellation.task_event_payload task) in
  db_ret tt.
(** The task of a settled round moves on, when the round is still its own. *)
Definition advance_task (task : AgentDelegation) (execution : DelegationExecution) (error_code : option str)
    (cancelling_task interrupted : bool) : db_call TeamDb AgentDelegation :=
  let! confirmed := db_read (fun db => is_confirmed db (ad_id task)) in
  let cancellation_settled := cancelling_task && confirmed in
  if negb (phase_is_terminal (phase task))
     && (if cancelling_task then cancellation_settled
         else bool_decide (tw_current_execution_id (ad_work task) = Some (ex_id execution)))
  then
    let! _ := Delegations.set_delegation_blocked_on (ad_id task) None in
    let! updated := Delegations.transition_delegation (ad_id task)
                      (phase_after task (ex_outcome execution) cancellation_settled interrupted)
                      (xr_summary (ex_result execution)) error_code in
    let task := default task updated in
    if phase_is_terminal (phase task) then let! _ := announce_end task in db_ret task else db_ret task
  else db_ret task.
Definition announce_result (task : AgentDelegation) (execution : DelegationExecution) : db_call TeamDb unit :=
  db_each (fun kind =>
    let! _ := VibexUseEvent.append (stable_id kind (ad_id task) (Some (ex_id execution))) (Some (task_root task)) kind
                (Some (ad_id task)) (ad_child_session_id task) (ad_revision task) (outcome_payload execution) in
    db_ret tt) [EvExecutionFinished; EvTaskResultAvailable].
(** What the round's owner and its taskless readers are told. *)
Definition publish_settled (completed execution : DelegationExecution) (task : option AgentDelegation)
    (cancelling_task interrupted : bool) : db_call TeamDb unit :=
  let code := xr_error_code (ex_result completed) in
  let! _ := match code with
            | Some code => let! _ := Executions.set_error_code (ex_id completed) code in db_ret tt
            | None => db_ret tt
            end in
  match task with
  | Some task =>
      let! _ := Delegations.append_delegation_result_ref (ad_id task) (result_ref execution) in
      let! task := advance_task task execution code cancelling_task interrupted in
      announce_result task execution
  | None =>
      let! root := db_query (Executions.execution_root execution) in
      let! _ := VibexUseEvent.append (lit "event_execution_finished_" ++ ex_id execution) (Some root)
                  EvExecutionFinished None (Some (ex_session_id execution)) 0 (outcome_payload execution) in
      db_ret tt
  end.
(** Commits a round's fixed result, task phase and inbox facts together. *)
Definition settle_vibex_use_execution (completed : DelegationExecution)
    : db_call TeamDb (option DelegationExecution) :=
  db_transaction
    (let! task := db_read (fun db => id ← ex_task_id completed; delegation_get db id) in
     let cancelling_task := match task with Some t => bool_decide (phase t = TaskCancelling) | None => false end in
     let! requested := db_read (fun db => cancellation_requested db (ex_id completed)) in
     let cancelling := cancelling_task || requested in
     let! terminal := db_read (fun db =>
       match submission_get db (ex_submission_id completed) with
       | Some s => submission_is_terminal (sb_status s)
       | None => false
       end) in
     let certain := terminal && negb (bool_decide (ex_outcome completed = OutAmbiguous)) in
     let confirmed_cancel := cancelling && certain in
     let! interrupt := db_read (fun db => Interrupts.is_requested db (ex_id completed)) in
     let confirmed_interrupt := negb cancelling && certain && interrupt in
     let outcome := if confirmed_cancel || confirmed_interrupt then OutCancelled else ex_outcome completed in
     let! now := db_read tm_now in
     let r := ex_result completed in
     let! settled := Executions.settle (ex_id completed) outcome
       (if confirmed_cancel then Some (lit "cancelled")
        else if confirmed_interrupt then Some (lit "interrupted") else xr_stop_reason r)
       (xr_summary r) (xr_result_ranges r) (xr_artifact_refs r) (xr_usage r) (xr_truncated r) (xr_end_sequence r)
       (default now (xr_finished_at_ms r)) in
     let! _ := match settled with
               | Some execution => publish_settled completed execution task cancelling_task confirmed_interrupt
               | None => db_ret tt
               end in
     let! _ := Cancellation.settle_dependents (ex_id completed) in
     db_ret settled).

(** Accepts or rejects a finished round under the same write reservation. *)
Definition finish_delegation_task (task_id : ident) (expected_revision : option Z) (accepted : bool)
    (summary : option str) : db_call TeamDb AgentDelegation :=
  db_transaction
    (let! task := db_read (fun db => delegation_get db task_id) in
     let! task := db_lift (ok_or task (invalid "vibex_use_task_missing" "task was not found")) in
     if match expected_revision with Some r => negb (bool_decide (r = ad_revision task)) | None => false end then
       db_fail (conflict "session_revision_conflict" "the task changed before acceptance")
     else if negb (bool_decide (phase task = TaskAwaitingReview)) then
       db_fail (conflict "task_terminal" "the task is not awaiting acceptance")
     else
       let! execution := db_read (fun db => id ← tw_current_execution_id (ad_work task); execution_get db id) in
       if negb (from_option is_settled false execution) then
         db_fail (conflict "vibex_use_execution_result_pending" "the current execution has not settled")
       else
         let! finished := Delegations.transition_delegation task_id (if accepted then TaskCompleted else TaskFailed)
                            summary (if accepted then None else Some (lit "task_rejected")) in
         let! finished := db_lift (ok_or finished
                            (conflict "vibex_use_task_missing" "task disappeared during acceptance")) in
         let! _ := match ad_child_session_id finished with
                   | Some child => let! _ := SessionControllers.release child (ad_id finished) in db_ret tt
                   | None => db_ret tt
                   end in
         let! _ := VibexUseEvent.append (stable_id EvTaskFinished (ad_id finished) None) (Some (task_root finished))
                     EvTaskFinished (Some (ad_id finished)) (ad_child_session_id finished) (ad_revision finished)
                     (JObject [(lit "phase", JString (lit (phase_as_str (phase finished))));
                               (lit "accepted", JBool accepted)]) in
         db_ret finished).

(** Attention belongs to the exact dispatched round. *)
Definition record_attention (execution_id : ident) (blocked_on : option DelegationBlockedOn) : db_call TeamDb bool :=
  db_transaction
    (let! found := db_read (fun db => execution_get db execution_id) in
     match found with
     | None => db_ret false
     | Some execution =>
         let! task := db_read (fun db => id ← ex_task_id execution; delegation_get db id) in
         let! dispatched := db_read (fun db =>
           match submission_get db (ex_submission_id execution) with
           | Some s => Interrupts.is_admitted (sb_status s)
           | None => false
           end) in
         if is_settled execution || bool_decide (ex_blocked_on execution = blocked_on)
            || match task with
               | Some t => negb (bool_decide (tw_current_execution_id (ad_work t) = Some execution_id))
               | None => false
               end
            || negb dispatched
         then db_ret false
         else
           let! _ := Executions.set_blocked_on execution_id blocked_on in
           let! _ := match task with
                     | Some t => Delegations.set_delegation_blocked_on (ad_id t) blocked_on
                     | None => db_ret tt
                     end in
           let! root := db_query (Executions.execution_root execution) in
           let! event_id := draw_id EventId in
           let! _ := VibexUseEvent.append event_id (Some root)
                       (if bool_decide (is_Some blocked_on) then EvTaskBlocked else EvTaskUnblocked)
                       (ex_task_id execution) (Some (ex_session_id execution))
                       (match task with Some t => u64_saturating_add (ad_revision t) 1 | None => 0%Z end)
                       (JObject (execution_payload (ex_id execution)
                          ++ [(lit "blockedOn", match blocked_on with
                                                | Some b => JObject (blocked_fields b)
                                                | None => JNull
                                                end)])) in
           db_ret true
     end).

(** ** Cancelling a task tree *)

Definition queued (s : MessageSubmissionStatus) : bool :=
  match s with AwaitingRuntime | ReadyToDispatch => true | _ => false end.
Definition cancel_submission (error_code : string) (detail : option str) (item : option ident) (now : Z)
    (s : MessageSubmissionRecord) : MessageSubmissionRecord :=
  mkSubmission (sb_terms s) (sb_desired_runtime_selection s) (sb_request s) (sb_required_switch_id s)
    SubmissionCancelled item (sb_dispatch_operation_id s) (sb_provider_correlation_id s) (Some (lit error_code))
    detail (sb_result_range s) now (sb_dispatched_at_ms s).
(** Queued automated payloads of a fenced task never enter a later turn. *)
Definition cancel_task_inputs (task_id : ident) : db_call TeamDb unit :=
  let! now := db_read tm_now in
  let! rounds := db_read (fun db => ex_submission_id <$> executions_for_task db task_id) in
  let! _ := execute submissions (fun s => bool_decide (sb_id s ∈ rounds) && queued (sb_status s))
    (fun s => cancel_submission "message_submission_task_cancelled_before_dispatch" (sb_error_detail_redacted s)
                (sb_user_message_timeline_item_id s) now s) in
  db_ret tt.
Definition fence_task (task : AgentDelegation) : db_call TeamDb (option AgentDelegation) :=
  let! confirmed := db_read (fun db => is_confirmed db (ad_id task)) in
  if phase_is_terminal (phase task) && confirmed then db_ret None
  else
    let! fenced := Delegations.request_delegation_cancellation (ad_id task) in
    match fenced with
    | None => db_ret None
    | Some task =>
        let! _ := cancel_task_inputs (ad_id task) in
        let! _ := VibexUseEvent.append (stable_id EvTaskCancelRequested (ad_id task) None) (Some (task_root task))
                    EvTaskCancelRequested (Some (ad_id task)) (ad_child_session_id task) (ad_revision task)
                    (JObject [(lit "taskRef", JString (as_uri (task_ref (ad_id task))))]) in
        db_ret (Some task)
    end.
(** Fences the entire requested task subtree before any provider interruption. *)
Definition request_delegation_tree_cancellation (task_id : ident) (cascade : bool)
    : db_call TeamDb (list AgentDelegation) :=
  db_transaction
    (let! task := db_read (fun db => delegation_get db task_id) in
     let! task := db_lift (ok_or task (invalid "agent_delegation_not_found" "task was not found")) in
     let! pending := db_read (fun db => task_subtree db (ad_id task) cascade) in
     let! _ := db_each (fun source =>
       let! _ := capture (ad_id task) (ad_id source) cascade in
       if bool_decide (ad_id source = ad_id task) then db_ret tt
       else capture (ad_id source) (ad_id source) cascade) pending in
     let! fenced := db_for (fun fenced task =>
       let! t := fence_task task in
       db_ret (match t with Some t => fenced ++ [t] | None => fenced end)) [] pending in
     db_ret (reverse fenced)).
End Rounds.

(** ** Message submissions (db/src/runtime.rs) *)

Module Submissions.
Definition MAX_MESSAGE_IDEMPOTENCY_KEY_LEN : nat := 256.
Definition MAX_RUNTIME_SELECTION_ERROR_CODE_LEN : nat := 160.
Definition cas_conflict (code message : string) : VibexError :=
  with_diagnostic (conflict code message) (lit "kind") (lit "cas_conflict").
Definition validate_idempotency_key (key : str) : VibexResult unit :=
  reject (is_empty (trim key))
  with (invalid "message_submission_idempotency_key_required" "message submission idempotency key must not be empty");;
  reject ((MAX_MESSAGE_IDEMPOTENCY_KEY_LEN <? utf8_len key) || existsb is_control key)
  with (invalid "message_submission_idempotency_key_invalid"
          "message submission idempotency key must be bounded and contain no control characters");;
  Ok tt.
Definition validate_error_fields (error_code : str) (detail : option str) : VibexResult unit :=
  reject (is_empty error_code || (MAX_RUNTIME_SELECTION_ERROR_CODE_LEN <? utf8_len error_code)
          || existsb is_control error_code
          || match detail with Some d => (512 <? utf8_len d) || existsb is_control d | None => false end)
  with (invalid "message_submission_error_invalid"
          "message submission error fields must be bounded and contain no control characters");;
  Ok tt.
(** Retrying the exact request answers the existing row. *)
Definition validate_existing (existing : MessageSubmissionRecord) (request : SendAgentMessageRequest)
    (required_runtime_policy : RuntimeSwitchPolicy) : VibexResult unit :=
  reject (negb (bool_decide (sb_desired_runtime_selection existing = rq_desired_runtime request))
          || negb (bool_decide (st_required_runtime_policy (sb_terms existing) = required_runtime_policy))
          || negb (bool_decide (sb_request existing = request)))
  with (conflict "message_submission_idempotency_payload_conflict"
          "message submission idempotency key was already used for another payload");;
  Ok tt.
Definition next_submission_sequence (db : TeamDb) (session_id : ident) : Z :=
  foldr Z.max 0%Z
    ((fun s => st_submission_sequence (sb_terms s))
       <$> sql_where (fun s => bool_decide (sb_session_id s = session_id)) (tm_submissions db)) + 1.
Definition new_submission (submission_id : ident) (request : SendAgentMessageRequest) (policy : RuntimeSwitchPolicy)
    (sequence now : Z) : MessageSubmissionRecord :=
  mkSubmission
    (mkSubmissionTerms submission_id (rq_session_id request) (rq_message_idempotency_key request) sequence policy now)
    (rq_desired_runtime request) request None AwaitingRuntime None None None None None None now None.
Definition enqueue_conn (submission_id : ident) (request : SendAgentMessageRequest) (policy : RuntimeSwitchPolicy)
    : db_call TeamDb MessageSubmissionRecord :=
  let! existing := db_read (fun db =>
    get_by_key_conn db (rq_session_id request) (rq_message_idempotency_key request)) in
  match existing with
  | Some existing => let! _ := db_lift (validate_existing existing request policy) in db_ret existing
  | None =>
      let! _ := Admission.authorize_vibex_use_submission request false in
      let! now := db_read tm_now in
      let! sequence := db_read (fun db => next_submission_sequence db (rq_session_id request)) in
      let row := new_submission submission_id request policy sequence now in
      let! taken := db_read (fun db => sql_exists (by_submission submission_id) (tm_submissions db)) in
      if taken then
        db_fail (storage_error "message_submission_insert_failed" "failed to insert message submission")
      else
        let! _ := db_write (fun db => put_submissions (tm_submissions db ++ [row]) db) in
        let! _ := Rounds.record_vibex_use_submission request submission_id in
        db_ret row
  end.

(** The sessions a person's mentions let the message's session read. *)
Definition mentions_invalid (message : string) : VibexError := invalid "team_mentions_invalid" message.
Definition mention_target (m : VibexUseMention) (db : TeamDb) : VibexResult (option ident) :=
  match mn_kind m with
  | MentionAgent =>
      reject (bool_decide (mn_agent_id m = None) || negb (bool_decide (rf_kind (mn_reference m) = RefRuntimeOption)))
      with (mentions_invalid "Agent mention is invalid");;
      Ok None
  | MentionSession =>
      let? target := ok_or (ref_session_id (mn_reference m)) (mentions_invalid "session mention is invalid") in
      match session_row db target with
      | Some row =>
          if bool_decide (as_deleted_at_ms row = None) then Ok (Some target)
          else Err (invalid "session_not_found" "referenced session was not found")
      | None => Err (invalid "session_not_found" "referenced session was not found")
      end
  end.
Definition grant_selected_mentions (request : SendAgentMessageRequest) (granted_by : str) : db_call TeamDb unit :=
  if negb (starts_with (lit "human:") granted_by) || (256 <? utf8_len granted_by) || existsb is_control granted_by
     || negb (bool_decide (rq_provenance request = HumanInput)) || (32 <? length (rq_mentions request))
  then db_fail (mentions_invalid "human mention submission is invalid")
  else
    let! targets := db_for (fun targets m =>
      let! target := db_query (mention_target m) in
      db_ret (match target with Some t => targets ++ [t] | None => targets end)) [] (rq_mentions request) in
    db_each (fun target =>
      let! existing := db_read (fun db => grant_get db (rq_session_id request) target) in
      if bool_decide (target = rq_session_id request) || bool_decide (is_Some existing) then db_ret tt
      else let! _ := SessionGrant.grant (rq_session_id request) target (lit "referenced") granted_by in db_ret tt)
      (SessionControllers.sorted_ids targets).
(** [enqueue] and [enqueue_with_mentions]. *)
Definition enqueue_inner (submission_id : ident) (request : SendAgentMessageRequest) (granted_by : option str)
    : db_call TeamDb MessageSubmissionRecord :=
  let! _ := db_lift (validate_idempotency_key (rq_message_idempotency_key request)) in
  db_transaction
    (let! record := enqueue_conn submission_id request SwitchAutomatic in
     let! _ := match granted_by with
               | Some granted_by =>
                   if bool_decide (sb_id record = submission_id) then grant_selected_mentions request granted_by
                   else db_ret tt
               | None => db_ret tt
               end in
     db_ret record).

(** Whether a person may replace the latest user message of a session. *)
Definition timeline_of (db : TeamDb) (session_id : ident) : list TimelineItem :=
  sql_where (fun i => bool_decide (ti_session_id i = session_id)) (tm_timeline db).
Definition latest_sequence (db : TeamDb) (session_id : ident) : Z :=
  foldr Z.max 0%Z (ti_sequence <$> timeline_of db session_id).
Definition check_editable (request : SendAgentMessageRequest) (user_sequence expected_end_sequence : Z) (db : TeamDb)
    : VibexResult unit :=
  let session_id := rq_session_id request in
  let? session := ok_or (session_row db session_id) (invalid "session_not_found" "Agent session was not found") in
  reject (negb (bool_decide (as_archived_at_ms session = None)) || negb (bool_decide (as_deleted_at_ms session = None))
          || negb (bool_decide (as_state session = Idle) || bool_decide (as_state session = SessionError)))
  with (conflict "message_edit_session_not_editable" "Agent session is not idle and editable");;
  reject (sql_exists (fun s => bool_decide (sb_session_id s = session_id)
                               && negb (submission_is_terminal (sb_status s))) (tm_submissions db))
  with (conflict "message_edit_submission_pending" "Agent session already has a pending message submission");;
  reject (negb (latest_sequence db session_id =? expected_end_sequence)%Z)
  with (conflict "message_edit_source_changed" "Agent session timeline changed before the edit could be applied");;
  reject (negb (bool_decide ((ti_kind <$> sql_first (fun i => (ti_sequence i =? user_sequence)%Z)
                                (timeline_of db session_id)) = Some KindUserMessage)))
  with (conflict "message_edit_user_message_missing" "edited timeline item is not the latest user message");;
  reject (negb (foldr Z.max 0%Z (ti_sequence <$> sql_where (fun i => bool_decide (ti_kind i = KindUserMessage))
                                   (timeline_of db session_id)) =? user_sequence)%Z)
  with (conflict "message_edit_user_message_stale" "only the latest user message can be edited");;
  Ok tt.
(** The edit: the submissions the replaced turn answered are superseded, the
    timeline's tail is dropped. *)
Definition supersede (request : SendAgentMessageRequest) (user_sequence : Z) : db_call TeamDb unit :=
  let session_id := rq_session_id request in
  let! now := db_read tm_now in
  let! _ := execute submissions
    (fun s => bool_decide (sb_session_id s = session_id) && bool_decide (sb_status s = SubmissionCompleted)
       && match sb_result_range s with Some r => (user_sequence <=? er_end_sequence r)%Z | None => false end)
    (fun s => Rounds.cancel_submission "message_submission_superseded_by_edit"
                (Some (lit "message submission was replaced by a user edit"))
                (sb_user_message_timeline_item_id s) now s) in
  let! _ := db_write (fun db => put_timeline (sql_where (fun i =>
    negb (bool_decide (ti_session_id i = session_id) && (user_sequence <=? ti_sequence i)%Z)) (tm_timeline db)) db) in
  let! _ := execute sessions (fun s => bool_decide (as_session_id s = session_id))
    (fun s => mkSessionRow (as_session_id s) (as_agent_id s) (as_state s) (as_archived_at_ms s) (as_deleted_at_ms s)
                now (as_selection_revision s)) in
  db_ret tt.
Definition replace_latest_user_message_inner (submission_id : ident) (request : SendAgentMessageRequest)
    (user_sequence expected_end_sequence : Z) (granted_by : option str) : db_call TeamDb MessageSubmissionRecord :=
  let! _ := db_lift (validate_idempotency_key (rq_message_idempotency_key request)) in
  if (user_sequence <=? 0)%Z || (expected_end_sequence <? user_sequence)%Z then
    db_fail (invalid "message_edit_timeline_range_invalid" "edited message timeline range is invalid")
  else db_transaction
    (let! existing := db_read (fun db =>
       get_by_key_conn db (rq_session_id request) (rq_message_idempotency_key request)) in
     match existing with
     | Some existing => let! _ := db_lift (validate_existing existing request ForceFreshSession) in db_ret existing
     | None =>
         let! _ := db_query (check_editable request user_sequence expected_end_sequence) in
         let! _ := supersede request user_sequence in
         let! record := enqueue_conn submission_id request ForceFreshSession in
         let! _ := match granted_by with
                   | Some granted_by => grant_selected_mentions request granted_by
                   | None => db_ret tt
                   end in
         db_ret record
     end).

(** Writers of one submission row. *)
Definition with_status (status : MessageSubmissionStatus) (now : Z) (s : MessageSubmissionRecord)
    : MessageSubmissionRecord :=
  mkSubmission (sb_terms s) (sb_desired_runtime_selection s) (sb_request s) (sb_required_switch_id s) status
    (sb_user_message_timeline_item_id s) (sb_dispatch_operation_id s) (sb_provider_correlation_id s)
    (sb_error_code s) (sb_error_detail_redacted s) (sb_result_range s) now (sb_dispatched_at_ms s).
Definition status_is (status : MessageSubmissionStatus) (s : MessageSubmissionRecord) : bool :=
  bool_decide (sb_status s = status).
Definition associate_required_switch (submission_id switch_id : ident) : db_call TeamDb unit :=
  let! now := db_read tm_now in
  let! changed := execute submissions
    (fun s => by_submission submission_id s && status_is AwaitingRuntime s
       && (bool_decide (sb_required_switch_id s = None) || bool_decide (sb_required_switch_id s = Some switch_id)))
    (fun s => mkSubmission (sb_terms s) (sb_desired_runtime_selection s) (sb_request s) (Some switch_id) (sb_status s)
       (sb_user_message_timeline_item_id s) (sb_dispatch_operation_id s) (sb_provider_correlation_id s)
       (sb_error_code s) (sb_error_detail_redacted s) (sb_result_range s) now (sb_dispatched_at_ms s)) in
  if changed =? 0 then
    db_fail (cas_conflict "message_submission_switch_association_conflict"
               "message submission cannot be associated with this runtime switch")
  else db_ret tt.
(** Rewrites a queued submission to the runtime selection its adapter resolved. *)
Definition normalized_request (normalized : SessionRuntimeSelection) (r : SendAgentMessageRequest)
    : SendAgentMessageRequest :=
  mkRequest (rq_session_id r) (rq_message_idempotency_key r) normalized (rq_text r) (rq_attachments r) (rq_mentions r)
    (sr_reasoning_effort normalized) (rq_correlation_id r) (rq_delivery r) (rq_prompt_context r) (rq_provenance r).
Definition normalize_runtime_selection (submission_id : ident) (expected normalized : SessionRuntimeSelection)
    : db_call TeamDb unit :=
  if bool_decide (expected = normalized) then db_ret tt
  else db_transaction
    (let! current := db_read (fun db => submission_get db submission_id) in
     let! current := db_lift (ok_or current
       (storage_error "message_submission_missing" "durable message submission was not found")) in
     if negb (status_is AwaitingRuntime current) then
       db_fail (cas_conflict "message_submission_runtime_normalization_conflict"
                  "message submission is no longer awaiting runtime normalization")
     else if negb (bool_decide (sb_desired_runtime_selection current = expected)) then
       if bool_decide (sb_desired_runtime_selection current = normalized) then db_ret tt
       else db_fail (cas_conflict "message_submission_runtime_normalization_conflict"
                       "message submission runtime changed before normalization")
     else if negb (bool_decide (rq_desired_runtime (sb_request current) = expected)) then
       db_fail (storage_error "message_submission_runtime_normalization_payload_mismatch"
                  "durable message submission payload does not match its runtime selection")
     else
       let! now := db_read tm_now in
       let! changed := execute submissions (fun s => by_submission submission_id s && status_is AwaitingRuntime s)
         (fun s => mkSubmission (sb_terms s) normalized (normalized_request normalized (sb_request s))
            (sb_required_switch_id s) (sb_status s) (sb_user_message_timeline_item_id s) (sb_dispatch_operation_id s)
            (sb_provider_correlation_id s) (sb_error_code s) (sb_error_detail_redacted s) (sb_result_range s) now
            (sb_dispatched_at_ms s)) in
       if negb (changed =? 1) then
         db_fail (cas_conflict "message_submission_runtime_normalization_conflict"
                    "message submission changed before runtime normalization")
       else db_ret tt).
(** Prompt admission: the authorization, the status, the round's start and its
    event commit together. *)
Definition start_round (submission_id : ident) (session_id : ident) : db_call TeamDb unit :=
  let! execution := db_read (fun db => get_by_submission db submission_id) in
  match execution with
  | None => db_ret tt
  | Some execution =>
      let! start := db_read (fun db => i64_saturating_add (latest_sequence db session_id) 1) in
      let! _ := Executions.mark_started (ex_id execution) start in
      let! task := db_read (fun db => id ← ex_task_id execution; delegation_get db id) in
      match task with
      | None => db_ret tt
      | Some task =>
          let! _ := VibexUseEvent.append (stable_id EvExecutionStarted (ad_id task) (Some (ex_id execution)))
                      (Some (task_root task)) EvExecutionStarted (Some (ad_id task)) (ad_child_session_id task)
                      (ad_revision task) (JObject (Rounds.execution_payload (ex_id execution))) in
          db_ret tt
      end
  end.
Definition mark_about_to_prompt (submission_id : ident) : db_call TeamDb unit :=
  db_transaction
    (let! found := db_read (fun db => submission_get db submission_id) in
     let! found := db_lift (ok_or found
       (storage_error "message_submission_payload_missing" "message submission payload was not found")) in
     let! _ := Admission.authorize_vibex_use_submission (sb_request found) true in
     let! now := db_read tm_now in
     let! changed := execute submissions (fun s => by_submission submission_id s && status_is ReadyToDispatch s)
       (fun s => mkSubmission (sb_terms s) (sb_desired_runtime_selection s) (sb_request s) (sb_required_switch_id s)
          AboutToPrompt (sb_user_message_timeline_item_id s) (Some submission_id) (sb_provider_correlation_id s)
          (sb_error_code s) (sb_error_detail_redacted s) (sb_result_range s) now (sb_dispatched_at_ms s)) in
     if changed =? 0 then
       db_fail (cas_conflict "message_submission_status_conflict"
                  "message submission is not ready for prompt dispatch")
     else start_round submission_id (rq_session_id (sb_request found))).

(** The prompt reached the provider: its message and its result window. *)
Definition dispatch_result_invalid (message : string) : VibexError :=
  invalid "message_submission_dispatch_result_invalid" message.
Definition range_is_valid (range : ExecutionResultRange) : bool :=
  (0 <? er_start_sequence range)%Z && (er_start_sequence range <=? er_end_sequence range)%Z.
Definition timeline_has (db : TeamDb) (session_id : ident) (sequence : Z) : bool :=
  sql_exists (fun i => (ti_sequence i =? sequence)%Z) (timeline_of db session_id).
Definition check_dispatch_result (submission_id item_id : ident) (range : ExecutionResultRange) (db : TeamDb)
    : VibexResult unit :=
  let? s := ok_or (submission_get db submission_id)
    (dispatch_result_invalid "message dispatch result does not reference an existing submission") in
  let? item := ok_or (sql_first (fun i => bool_decide (ti_id i = item_id)) (tm_timeline db))
    (dispatch_result_invalid "message dispatch result does not reference an existing user Timeline item") in
  reject (negb (bool_decide (ti_session_id item = sb_session_id s)) || (ti_sequence item <? er_start_sequence range)%Z
          || (er_end_sequence range <? ti_sequence item)%Z || negb (bool_decide (ti_kind item = KindUserMessage)))
  with (dispatch_result_invalid "message dispatch result Timeline item does not match the submission range");;
  let boundary :=
    sql_count (fun i => (ti_sequence i =? er_start_sequence range)%Z || (ti_sequence i =? er_end_sequence range)%Z)
      (timeline_of db (sb_session_id s)) in
  reject (negb (boundary =? (if (er_start_sequence range =? er_end_sequence range)%Z then 1 else 2)))
  with (dispatch_result_invalid "message dispatch result Timeline range boundaries do not exist");;
  Ok tt.
Definition dispatched_with (status : MessageSubmissionStatus) (item_id : ident) (correlation : option str)
    (error_code detail : option str) (range : ExecutionResultRange) (now : Z) (s : MessageSubmissionRecord)
    : MessageSubmissionRecord :=
  mkSubmission (sb_terms s) (sb_desired_runtime_selection s) (sb_request s) (sb_required_switch_id s) status
    (Some item_id) (sb_dispatch_operation_id s) correlation error_code detail (Some range) now (Some now).
(** The status and the empty result window guard one write. *)
Definition record_dispatch_result (submission_id item_id : ident) (correlation : option str)
    (range : ExecutionResultRange) : db_call TeamDb unit :=
  if negb (range_is_valid range) then
    db_fail (invalid "message_submission_result_range_invalid"
               "message submission result timeline range is invalid")
  else db_transaction
    (let! _ := db_query (check_dispatch_result submission_id item_id range) in
     let! now := db_read tm_now in
     let! changed := execute submissions
       (fun s => by_submission submission_id s && status_is AboutToPrompt s && bool_decide (sb_result_range s = None))
       (fun s => dispatched_with Dispatched item_id correlation (sb_error_code s) (sb_error_detail_redacted s) range
                   now s) in
     if changed =? 0 then
       db_fail (cas_conflict "message_submission_dispatch_conflict"
                  "message submission dispatch result is already recorded or stale")
     else db_ret tt).
(** A prompt that reached the provider and then failed for good. *)
Definition failed_range_belongs (db : TeamDb) (submission_id item_id : ident) (range : ExecutionResultRange) : bool :=
  match submission_get db submission_id with
  | None => false
  | Some s =>
      let items := timeline_of db (sb_session_id s) in
      sql_exists (fun i => bool_decide (ti_id i = item_id) && bool_decide (ti_kind i = KindUserMessage)
                           && (ti_sequence i =? er_start_sequence range)%Z) items
      && timeline_has db (sb_session_id s) (er_end_sequence range)
      && negb (sql_exists (fun i => bool_decide (ti_kind i = KindUserMessage)
           && (er_start_sequence range <? ti_sequence i)%Z && (ti_sequence i <=? er_end_sequence range)%Z) items)
  end.
Definition fail_after_prompt_dispatch (submission_id item_id : ident) (range : ExecutionResultRange)
    (error_code : str) (detail : option str) : db_call TeamDb unit :=
  let! _ := db_lift (validate_error_fields error_code detail) in
  if negb (range_is_valid range) then
    db_fail (invalid "message_submission_result_range_invalid"
               "message submission result timeline range is invalid")
  else db_transaction
    (let! valid := db_read (fun db => failed_range_belongs db submission_id item_id range) in
     if negb valid then
       db_fail (dispatch_result_invalid "failed dispatch range does not belong to this submission")
     else
       let! now := db_read tm_now in
       let! changed := execute submissions
         (fun s => by_submission submission_id s && status_is AboutToPrompt s && bool_decide (sb_result_range s = None))
         (fun s => dispatched_with SubmissionFailed item_id (sb_provider_correlation_id s) (Some error_code) detail
                     range now s) in
       if negb (changed =? 1) then
         db_fail (cas_conflict "message_submission_status_conflict"
                    "message submission is no longer awaiting dispatch")
       else db_ret tt).

(** Status moves with a compare-and-swap on the expected status. *)
Definition illegal_transition : VibexError :=
  invalid "message_submission_illegal_transition" "message submission status transition is not allowed".
Definition status_conflict : VibexError :=
  cas_conflict "message_submission_status_conflict" "message submission is not in the expected status".
Definition transition_with_error (submission_id : ident) (from to : MessageSubmissionStatus) (error_code : str)
    (detail : option str) : db_call TeamDb unit :=
  if negb (can_transition_to from to) then db_fail illegal_transition
  else
    let! _ := db_lift (validate_error_fields error_code detail) in
    let! now := db_read tm_now in
    let! changed := execute submissions (fun s => by_submission submission_id s && status_is from s)
      (fun s => mkSubmission (sb_terms s) (sb_desired_runtime_selection s) (sb_request s) (sb_required_switch_id s) to
         (sb_user_message_timeline_item_id s) (sb_dispatch_operation_id s) (sb_provider_correlation_id s)
         (Some error_code) detail (sb_result_range s) now (sb_dispatched_at_ms s)) in
    if changed =? 0 then db_fail status_conflict else db_ret tt.
Definition fail (submission_id : ident) (from : MessageSubmissionStatus) (error_code : str) (detail : option str)
    : db_call TeamDb unit := transition_with_error submission_id from SubmissionFailed error_code detail.
Definition mark_ambiguous (submission_id : ident) (detail : option str) : db_call TeamDb unit :=
  transition_with_error submission_id AboutToPrompt AmbiguousPromptDispatch
    (lit "message_submission_prompt_dispatch_ambiguous") detail.
Definition advance_status (submission_id : ident) (from to : MessageSubmissionStatus) : db_call TeamDb unit :=
  if negb (can_transition_to from to) then db_fail illegal_transition
  else
    let! now := db_read tm_now in
    let! changed := execute submissions (fun s => by_submission submission_id s && status_is from s)
      (fun s => mkSubmission (sb_terms s) (sb_desired_runtime_selection s) (sb_request s) (sb_required_switch_id s) to
         (sb_user_message_timeline_item_id s) (sb_dispatch_operation_id s) (sb_provider_correlation_id s)
         (sb_error_code s) (sb_error_detail_redacted s) (sb_result_range s) now
         (if bool_decide (to = Dispatched) then Some now else sb_dispatched_at_ms s)) in
    if changed =? 0 then db_fail status_conflict else db_ret tt.
Definition cancel_for_switch (switch_id : ident) : db_call TeamDb nat :=
  let! now := db_read tm_now in
  execute submissions (fun s => bool_decide (sb_required_switch_id s = Some switch_id) && Rounds.queued (sb_status s))
    (fun s => Rounds.cancel_submission "message_submission_runtime_switch_cancelled" None
                (sb_user_message_timeline_item_id s) now s).

(** Queued submissions are cancelled with their message kept in the timeline. *)
Definition append_user_message (request : SendAgentMessageRequest) : db_call TeamDb TimelineItem :=
  let! now := db_read tm_now in
  let! id := draw_id TimelineItemId in
  let! item := db_read (fun db =>
    mkTimelineItem id (rq_session_id request) (latest_sequence db (rq_session_id request) + 1) now
      (rq_correlation_id request)
      (UserMessagePayload (rq_text request) (rq_attachments request) (rq_mentions request) (rq_provenance request)
         (rq_delivery request))) in
  let! _ := db_write (fun db => put_timeline (tm_timeline db ++ [item]) db) in
  db_ret item.
Definition cancel_queued (session_id : ident) (items : list TimelineItem) (s : MessageSubmissionRecord)
    : db_call TeamDb (list TimelineItem) :=
  if negb (bool_decide (rq_session_id (sb_request s) = session_id)) then
    db_fail (storage_error "message_submission_cancel_payload_mismatch"
               "queued message submission payload does not match its session")
  else
    let! now := db_read tm_now in
    let! item := append_user_message (sb_request s) in
    let! changed := execute submissions
      (fun x => by_submission (sb_id s) x && bool_decide (sb_result_range x = None))
      (fun x => mkSubmission (sb_terms x) (sb_desired_runtime_selection x) (sb_request x) (sb_required_switch_id x)
         (sb_status x) (sb_user_message_timeline_item_id x) (sb_dispatch_operation_id x)
         (sb_provider_correlation_id x) (sb_error_code x) (sb_error_detail_redacted x)
         (Some (mkRange (ti_sequence item) (ti_sequence item))) (sb_updated_at_ms x) (sb_dispatched_at_ms x)) in
    if negb (changed =? 1) then
      db_fail (storage_error "message_submission_cancel_result_conflict"
                 "interrupted message Timeline range is already recorded or missing")
    else
      let! changed := execute submissions (fun x => by_submission (sb_id s) x && Rounds.queued (sb_status x))
        (fun x => Rounds.cancel_submission "message_submission_interrupted_before_dispatch" None
                    (Some (ti_id item)) now x) in
      if negb (changed =? 1) then
        db_fail (storage_error "message_submission_cancel_status_conflict"
                   "queued message submission changed before it could be cancelled")
      else db_ret (items ++ [item]).
Definition cancel_before_dispatch (session_id : ident) (submission_id : option ident)
    : db_call TeamDb (list TimelineItem) :=
  db_transaction
    (let! rows := db_read (fun db =>
       sql_order (fun s => [st_submission_sequence (sb_terms s)])
         (fun s => bool_decide (sb_session_id s = session_id) && Rounds.queued (sb_status s)
            && match submission_id with Some id => by_submission id s | None => true end) (tm_submissions db)) in
     let! now := db_read tm_now in
     let! items := db_for (cancel_queued session_id) [] rows in
     let! _ := if is_empty items then db_ret 0
               else execute sessions (fun s => bool_decide (as_session_id s = session_id))
                      (fun s => mkSessionRow (as_session_id s) (as_agent_id s) (as_state s) (as_archived_at_ms s)
                                  (as_deleted_at_ms s) now (as_selection_revision s)) in
     db_ret items).
(** The message a session dispatches next, and every message that is not done. *)
Definition get_head_non_terminal (db : TeamDb) (session_id : ident) : option MessageSubmissionRecord :=
  head (sql_order (fun s => [st_submission_sequence (sb_terms s)])
    (fun s => bool_decide (sb_session_id s = session_id) && negb (submission_is_terminal (sb_status s)))
    (tm_submissions db)).
Definition list_non_terminal (db : TeamDb) : list MessageSubmissionRecord :=
  sql_order (fun s => text_key (sb_session_id s) ++ [-1; st_submission_sequence (sb_terms s)]%Z)
    (fun s => negb (submission_is_terminal (sb_status s))) (tm_submissions db).
End Submissions.
