(* ===== verification/TeamHistory.v ===== *)
(** Histories of Team work: every writer of TeamStore and TeamWork as one kind
    of step, what a step may change of each table, the invariant of the tables,
    and that every sequence of steps keeps both. *)
From stdpp Require Import prelude strings list gmap.
From Stdlib Require Import NArith ZArith Lia Sorted.
From S2P Require Import Prelude CoreTypes Rows Storage Ir Json Team TeamStore TeamWork.

(** ** What one step may change *)

(** A person's control of a session ends only where [hb] says it is handed back. *)
Definition controller_moves (hb : ident -> bool) (c c' : SessionController) : Prop :=
  sc_session_id c' = sc_session_id c /\ (sc_revision c <= sc_revision c')%Z /\
  (sc_human_controlled c = true ->
   sc_human_controlled c' = true \/ hb (sc_session_id c) = true /\ (sc_revision c < sc_revision c')%Z).
Definition controllers_move (hb : ident -> bool) (db db' : TeamDb) : Prop := forall session_id,
  match controller_get db session_id, controller_get db' session_id with
  | Some c, Some c' => controller_moves hb c c'
  | Some _, None => False
  | None, Some c' => (1 <= sc_revision c')%Z
  | None, None => True
  end.
Definition execution_moves (e e' : DelegationExecution) : Prop :=
  ex_origin e' = ex_origin e /\
  (is_Some (ex_interrupt_requested_at_ms e) -> is_Some (ex_interrupt_requested_at_ms e')).
(** How far a message is on its way to the provider. *)
Definition rank (s : MessageSubmissionStatus) : nat :=
  match s with
  | AwaitingRuntime | ReadyToDispatch => 0
  | AboutToPrompt => 1
  | Dispatched => 2
  | SubmissionCompleted | SubmissionFailed | SubmissionCancelled | AmbiguousPromptDispatch => 3
  end.
(** The part of a request its normalization keeps. *)
Definition envelope (r : SendAgentMessageRequest) : ident * str * MessageProvenance :=
  (rq_session_id r, rq_message_idempotency_key r, rq_provenance r).
Definition submission_moves (s s' : MessageSubmissionRecord) : Prop :=
  sb_terms s' = sb_terms s /\ envelope (sb_request s') = envelope (sb_request s) /\
  rank (sb_status s) <= rank (sb_status s').
(** The compatibility status is the projection of the phase, or the phase that
    of the status. *)
Definition progress_agrees (p : TaskProgress) : Prop :=
  tp_status p = legacy_status_for_phase (tp_phase p) \/ tp_phase p = phase_for_legacy_status (tp_status p).
Definition task_agrees (t : AgentDelegation) : Prop := progress_agrees (ad_progress t).
Definition progress_moves (p p' : TaskProgress) : Prop :=
  (tp_revision p <= tp_revision p')%Z /\
  (phase_is_terminal (tp_phase p) = true -> p' = p) /\
  (tp_phase p = TaskCancelling -> tp_phase p' = TaskCancelling \/ phase_is_terminal (tp_phase p') = true) /\
  (is_Some (tp_cancellation_requested_at_ms p) -> is_Some (tp_cancellation_requested_at_ms p')).
Definition task_moves (t t' : AgentDelegation) : Prop :=
  ad_terms t' = ad_terms t /\
  (task_agrees t -> task_agrees t' /\ progress_moves (ad_progress t) (ad_progress t')).
Definition operation_identity (o : VibexUseOperation) : ident * str * str * str * str * str :=
  (uo_id o, uo_authority o, uo_actor_key o, uo_tool o, uo_caller_key o, uo_payload_fingerprint o).
Definition operation_moves (o o' : VibexUseOperation) : Prop := operation_identity o' = operation_identity o.
Definition cursors_increase (events : list DelegationTaskEvent) : Prop :=
  StronglySorted Z.lt (ev_cursor <$> events) /\ Forall (fun e => 0 < ev_cursor e)%Z events.

(** One step: rows are only updated or appended, new messages and rounds only
    where [adds] says so. *)
Record evolves (hb : ident -> bool) (adds : bool) (db db' : TeamDb) : Prop := mkEvolves {
  ev_uuid : tm_uuid db' = tm_uuid db;
  ev_drawn : tm_drawn db <= tm_drawn db';
  ev_controllers : controllers_move hb db db';
  ev_executions : grows execution_moves (fun _ => adds = true) (tm_executions db) (tm_executions db');
  ev_submissions : grows submission_moves (fun _ => adds = true) (tm_submissions db) (tm_submissions db');
  ev_tasks : grows task_moves task_agrees (tm_tasks db) (tm_tasks db');
  ev_operations : grows operation_moves (fun _ => True) (tm_operations db) (tm_operations db');
  ev_cancellations : forall c, c ∈ tm_cancellations db -> c ∈ tm_cancellations db';
  ev_events : tm_events db `prefix_of` tm_events db';
  ev_ordered : cursors_increase (tm_events db) -> cursors_increase (tm_events db')
}.

Section moves_order.
Context (hb : ident -> bool).

Lemma controller_moves_refl c : controller_moves hb c c.
Proof. split; [done|]. split; [lia|]. by left. Qed.
Lemma controller_moves_trans c1 c2 c3 :
  controller_moves hb c1 c2 -> controller_moves hb c2 c3 -> controller_moves hb c1 c3.
Proof.
  intros (H1 & H2 & H3) (H4 & H5 & H6). split; [congruence|]. split; [lia|]. intros Hc.
  destruct (H3 Hc) as [H|[H H']].
  - destruct (H6 H) as [?|[? ?]]; [by left|right]. rewrite <- H1. split; [done|lia].
  - right. split; [done|lia].
Qed.
Lemma controllers_move_refl db : controllers_move hb db db.
Proof. intros s. destruct (controller_get db s); [apply controller_moves_refl|done]. Qed.
Lemma controllers_move_trans db1 db2 db3 :
  controllers_move hb db1 db2 -> controllers_move hb db2 db3 -> controllers_move hb db1 db3.
Proof.
  intros H1 H2 s. specialize (H1 s). specialize (H2 s).
  destruct (controller_get db1 s), (controller_get db2 s), (controller_get db3 s); try done.
  - by eapply controller_moves_trans.
  - destruct H2 as (_ & ? & _). lia.
Qed.

Lemma execution_moves_refl e : execution_moves e e.
Proof. done. Qed.
Lemma execution_moves_trans e1 e2 e3 : execution_moves e1 e2 -> execution_moves e2 e3 -> execution_moves e1 e3.
Proof. intros [H1 H2] [H3 H4]. split; [congruence|auto]. Qed.
Lemma submission_moves_refl s : submission_moves s s.
Proof. done. Qed.
Lemma submission_moves_trans s1 s2 s3 :
  submission_moves s1 s2 -> submission_moves s2 s3 -> submission_moves s1 s3.
Proof. intros (? & ? & ?) (? & ? & ?). split_and!; [congruence|congruence|lia]. Qed.
Lemma progress_moves_refl p : progress_moves p p.
Proof. unfold progress_moves. split; [lia|]. auto. Qed.
Lemma progress_moves_trans p1 p2 p3 : progress_moves p1 p2 -> progress_moves p2 p3 -> progress_moves p1 p3.
Proof.
  intros (H1 & H2 & H3 & H4) (H5 & H6 & H7 & H8). split; [lia|]. split; [|split; [|auto]].
  - intros H. pose proof (H2 H). subst. auto.
  - intros H. destruct (H3 H) as [?|Ht]; [auto|]. right. by rewrite (H6 Ht).
Qed.
Lemma task_moves_refl t : task_moves t t.
Proof. split; [done|]. intros. split; [done|apply progress_moves_refl]. Qed.
Lemma task_moves_trans t1 t2 t3 : task_moves t1 t2 -> task_moves t2 t3 -> task_moves t1 t3.
Proof.
  intros [? H1] [? H2]. split; [congruence|]. intros Ha. destruct (H1 Ha) as [Hb ?], (H2 Hb) as [? ?].
  split; [done|]. by eapply progress_moves_trans.
Qed.
End moves_order.
Create HintDb moves.
#[export] Hint Resolve controller_moves_refl controllers_move_refl execution_moves_refl execution_moves_trans
  submission_moves_refl submission_moves_trans task_moves_refl task_moves_trans progress_moves_refl : moves.

Lemma evolves_refl hb adds db : evolves hb adds db db.
Proof.
  constructor; auto with moves; try (apply grows_refl; auto with moves; done); done.
Qed.
Lemma evolves_trans hb adds db1 db2 db3 : evolves hb adds db1 db2 -> evolves hb adds db2 db3 -> evolves hb adds db1 db3.
Proof.
  intros [] []. constructor; try (eapply grows_trans; eauto with moves; done).
  - congruence.
  - lia.
  - by eapply controllers_move_trans.
  - eapply grows_trans; eauto with moves. intros x y Hx [_ Hy]. by apply Hy.
  - eapply grows_trans; eauto. intros. unfold operation_moves in *. congruence.
  - auto.
  - by etrans.
  - auto.
Qed.
Lemma evolves_weaken hb hb' (adds adds' : bool) db db' :
  (forall s, hb s = true -> hb' s = true) -> (adds = true -> adds' = true) ->
  evolves hb adds db db' -> evolves hb' adds' db db'.
Proof.
  intros Hh Ha []. constructor; try done.
  - intros s. specialize (ev_controllers0 s).
    destruct (controller_get db s), (controller_get db' s); try done.
    destruct ev_controllers0 as (? & ? & H). split_and!; [done|done|]. intros Hc. destruct (H Hc) as [?|[? ?]]; auto.
  - by eapply grows_weaken; [..|exact ev_executions0].
  - by eapply grows_weaken; [..|exact ev_submissions0].
Qed.

(** ** Calls that only evolve the database *)

Definition moves (hb : ident -> bool) (adds : bool) {A} (c : db_call TeamDb A) : Prop :=
  forall db, evolves hb adds db (snd (c db)).

(** A change of one tracked table. *)
Ltac one_table :=
  constructor; try done; 
  try (match goal with |- controllers_move ?hb ?db _ => exact (controllers_move_refl hb db) end); try (apply grows_refl; auto with moves; done);
  try (simpl; lia).

Section moves.
Context (hb : ident -> bool) (adds : bool).
Notation moves := (moves hb adds).

Lemma moves_ret {A} (a : A) : moves (db_ret a).
Proof. intros db. apply evolves_refl. Qed.
Lemma moves_fail {A} e : moves (@db_fail TeamDb A e).
Proof. intros db. apply evolves_refl. Qed.
Lemma moves_read {A} (f : TeamDb -> A) : moves (db_read f).
Proof. intros db. apply evolves_refl. Qed.
Lemma moves_lift {A} (c : VibexResult A) : moves (db_lift c).
Proof. intros db. apply evolves_refl. Qed.
Lemma moves_query {A} (f : TeamDb -> VibexResult A) : moves (db_query f).
Proof. intros db. apply evolves_refl. Qed.
Lemma moves_bind {A B} (c : db_call TeamDb A) (k : A -> db_call TeamDb B) :
  moves c -> (forall a, moves (k a)) -> moves (db_bind c k).
Proof.
  intros Hc Hk db. specialize (Hc db). unfold db_bind. destruct (c db) as [[a|e] db']; [|done].
  eapply evolves_trans; [done|apply Hk].
Qed.
Lemma moves_for {S A} (f : S -> A -> db_call TeamDb S) s l :
  (forall s x, moves (f s x)) -> moves (db_for f s l).
Proof.
  intros Hf. revert s. induction l as [|x l IH]; intros s; simpl; [apply moves_ret|].
  apply moves_bind; [apply Hf|apply IH].
Qed.
Lemma moves_each {A} (f : A -> db_call TeamDb unit) l : (forall x, moves (f x)) -> moves (db_each f l).
Proof. intros Hf. apply moves_for. auto. Qed.
Lemma moves_transaction {A} (c : db_call TeamDb A) : moves c -> moves (db_transaction c).
Proof.
  intros Hc db. specialize (Hc db). unfold db_transaction. destruct (c db) as [[a|e] db']; [done|apply evolves_refl].
Qed.
Lemma moves_if {A} (b : bool) (c d : db_call TeamDb A) : moves c -> moves d -> moves (if b then c else d).
Proof. by destruct b. Qed.
Lemma moves_draw k : moves (draw_id k).
Proof. intros db. one_table. Qed.

(** Statements on the tracked tables. *)
Lemma moves_tasks p f : (forall t, p t = true -> task_moves t (f t)) -> moves (execute tasks p f).
Proof. intros H db. one_table. apply grows_update; auto with moves. Qed.
Lemma moves_executions p f : (forall e, p e = true -> execution_moves e (f e)) -> moves (execute executions p f).
Proof. intros H db. one_table. apply grows_update; auto with moves. Qed.
Lemma moves_submissions p f : (forall s, p s = true -> submission_moves s (f s)) -> moves (execute submissions p f).
Proof. intros H db. one_table. apply grows_update; auto with moves. Qed.
Lemma moves_operations p f : (forall o, p o = true -> operation_moves o (f o)) -> moves (execute operations p f).
Proof. intros H db. one_table. by apply grows_update; auto. Qed.
Lemma evolves_controllers rows db :
  (forall s, match controller_get db s, sql_first (by_controller s) rows with
             | Some c, Some c' => controller_moves hb c c'
             | Some _, None => False
             | None, Some c' => (1 <= sc_revision c')%Z
             | None, None => True
             end) -> evolves hb adds db (put_controllers rows db).
Proof. intros H. one_table. Qed.
Lemma controller_get_update p f s db :
  (forall c, p c = true -> sc_session_id (f c) = sc_session_id c) ->
  sql_first (by_controller s) (sql_update p f (tm_controllers db)) =
  (fun c => if p c then f c else c) <$> controller_get db s.
Proof. intros Hf. apply sql_first_update. intros c Hc. unfold by_controller. by rewrite (Hf c Hc). Qed.
Lemma moves_controllers p f :
  (forall c, p c = true -> controller_moves hb c (f c)) -> moves (execute controllers p f).
Proof.
  intros H db. apply evolves_controllers. intros s. cbn [t_rows controllers].
  rewrite controller_get_update by (intros c Hc; apply (H c Hc)).
  destruct (controller_get db s) as [c|]; simpl; [|done].
  destruct (p c) eqn:E; [by apply H|apply controller_moves_refl].
Qed.
Lemma moves_edges p f : moves (execute edges p f).
Proof. intros db. one_table. Qed.
Lemma moves_grants p f : moves (execute grants p f).
Proof. intros db. one_table. Qed.
Lemma moves_sessions p f : moves (execute sessions p f).
Proof. intros db. one_table. Qed.
Lemma moves_deliveries p f : moves (execute deliveries p f).
Proof. intros db. one_table. Qed.
Lemma moves_insert_deliveries taken d : moves (insert_or_ignore deliveries taken d).
Proof. intros db. one_table. Qed.
Lemma moves_insert_limits taken l : moves (insert_or_ignore limits taken l).
Proof. intros db. one_table. Qed.
Lemma moves_insert_cancellations taken c : moves (insert_or_ignore cancellations taken c).
Proof.
  intros db. one_table. intros x Hx. cbn. unfold sql_insert_or_ignore. destruct (existsb _ _); [done|set_solver].
Qed.
Lemma moves_insert_operations taken o : moves (insert_or_ignore operations taken o).
Proof. intros db. one_table. by apply grows_insert. Qed.
Lemma moves_insert_task t : task_agrees t -> moves (db_write (fun db => put_tasks (tm_tasks db ++ [t]) db)).
Proof. intros Ht db. one_table. apply grows_snoc; auto with moves. Qed.
Lemma moves_untracked f :
  (forall db, exists e g tl pol, f db = put_policy pol (put_timeline tl (put_grants g (put_edges e db)))) ->
  moves (db_write f).
Proof. intros H db. destruct (H db) as (e & g & tl & pol & E). cbn. rewrite E. one_table. Qed.
End moves.

(** ** Controllers *)

Lemma ensure_spec session_id db :
  exists c db', SessionControllers.ensure session_id db = (Ok c, db') /\ controller_get db' session_id = Some c /\
    (forall hb adds, evolves hb adds db db') /\
    match controller_get db session_id with
    | Some c0 => c = c0
    | None => c = mkController session_id None None 1 false (tm_now db)
    end.
Proof.
  unfold SessionControllers.ensure, db_bind, db_read, insert_or_ignore. cbn [t_rows controllers t_put].
  set (new := mkController session_id None None 1 false (tm_now db)).
  set (rows := sql_insert_or_ignore (by_controller session_id) new (tm_controllers db)).
  assert (Hget : forall s, sql_first (by_controller s) rows =
            match controller_get db s with
            | Some c => Some c
            | None => if bool_decide (s = session_id) then Some new else None
            end).
  { intros s. unfold rows, sql_insert_or_ignore, controller_get.
    destruct (existsb (by_controller session_id) (tm_controllers db)) eqn:E.
    - destruct (sql_first (by_controller s) (tm_controllers db)) eqn:Es; [done|]. case_bool_decide; [subst|done].
      apply existsb_elem in E as (x & Hx & Hp). by rewrite (sql_first_none _ _ _ Es Hx) in Hp.
    - rewrite sql_first_app. destruct (sql_first _ _); [done|]. unfold sql_first, by_controller. simpl.
      repeat case_bool_decide; congruence. }
  assert (Hc : controller_get (put_controllers rows db) session_id =
            Some (default new (controller_get db session_id))).
  { unfold controller_get at 1. cbn. rewrite Hget. destruct (controller_get db session_id); [done|].
    by rewrite bool_decide_true. }
  rewrite Hc. eexists _, _. split; [done|]. split; [done|]. split; [|by destruct (controller_get db session_id)].
  intros hb adds. apply evolves_controllers. intros s. rewrite Hget.
  destruct (controller_get db s); [apply controller_moves_refl|]. case_bool_decide; [|done]. simpl. lia.
Qed.

Section controllers.
Context (hb : ident -> bool) (adds : bool).
Notation moves := (moves hb adds).

Lemma moves_ensure session_id : moves (SessionControllers.ensure session_id).
Proof. intros db. destruct (ensure_spec session_id db) as (c & db' & -> & _ & H & _). apply H. Qed.

(** A write on the rows of one session, by what the session's row was. *)
Lemma evolves_controller_write p f session_id c db :
  controller_get db session_id = Some c ->
  (forall x, p x = true -> sc_session_id x = session_id) ->
  (forall x, p x = true -> sc_session_id (f x) = session_id) ->
  (p c = true -> controller_moves hb c (f c)) ->
  evolves hb adds db (snd (execute controllers p f db)).
Proof.
  intros Hc Hp Hf Hm. apply evolves_controllers. intros s. cbn [t_rows controllers].
  rewrite controller_get_update by (intros x Hx; by rewrite (Hf x Hx), (Hp x Hx)).
  destruct (controller_get db s) as [x|] eqn:E; simpl; [|done].
  destruct (p x) eqn:Ex; [|apply controller_moves_refl].
  assert (s = session_id) as ->.
  { apply sql_first_some in E as [_ E]. unfold by_controller in E. rewrite bool_decide_eq_true in E.
    by rewrite <- E, (Hp x Ex). }
  rewrite Hc in E. injection E as <-. by apply Hm.
Qed.

Lemma by_controller_spec s c : by_controller s c = true <-> sc_session_id c = s.
Proof. unfold by_controller. by rewrite bool_decide_eq_true. Qed.

Lemma moves_mark_human session_id : moves (SessionControllers.mark_human_controlled session_id).
Proof.
  intros db. unfold SessionControllers.mark_human_controlled, db_bind at 1.
  destruct (ensure_spec session_id db) as (c & db1 & -> & Hc & H & _).
  destruct (sc_human_controlled c) eqn:Eh; [apply H|]. unfold db_bind, db_read at 1.
  match goal with |- evolves _ _ _ (snd (match ?e with _ => _ end)) => destruct e as [r db2] eqn:E end.
  assert (H2 : evolves hb adds db1 db2).
  { change db2 with (snd (r, db2)). rewrite <- E. eapply evolves_controller_write; [done|..].
    - by intros x ?%by_controller_spec.
    - by intros x ?%by_controller_spec.
    - intros ?%by_controller_spec. split; [done|]. simpl. split; [lia|]. by left. }
  destruct r; [|by eapply evolves_trans; [apply H|]].
  eapply evolves_trans; [apply H|]. eapply evolves_trans; [done|apply moves_ensure].
Qed.

Lemma moves_claim session_id task_id parent expected :
  moves (SessionControllers.claim session_id task_id parent expected).
Proof.
  unfold SessionControllers.claim. apply moves_bind; [apply moves_ensure|]. intros c.
  do 4 (apply moves_if; [apply moves_ret|]).
  apply moves_bind; [apply moves_read|]. intros now. apply moves_bind.
  - apply moves_controllers. intros x [[?%by_controller_spec Hr%bool_decide_eq_true]%andb_true_iff Hh]%andb_true_iff.
    split; [done|]. simpl. split; [lia|]. intros Hx. by rewrite Hx in Hh.
  - intros n. apply moves_bind; [apply moves_ensure|]. intros l. apply moves_if; apply moves_ret.
Qed.

Lemma moves_release session_id task_id : moves (SessionControllers.release session_id task_id).
Proof.
  unfold SessionControllers.release. apply moves_bind; [apply moves_read|]. intros now.
  apply moves_bind; [|intros; apply moves_ensure]. apply moves_controllers.
  intros x [?%by_controller_spec _]%andb_true_iff. split; [done|]. simpl. split; [lia|]. auto.
Qed.
End controllers.

(** ** Events *)

Lemma next_sequence_above events e : e ∈ events -> (ev_cursor e < VibexUseEvent.next_sequence events)%Z.
Proof.
  unfold VibexUseEvent.next_sequence. induction events as [|x l IH]; [by intros ?%not_elem_of_nil|].
  intros [->|H]%elem_of_cons; csimpl; [lia|]. specialize (IH H). lia.
Qed.
Lemma next_sequence_pos events : (0 < VibexUseEvent.next_sequence events)%Z.
Proof. unfold VibexUseEvent.next_sequence. induction events; csimpl; lia. Qed.

Lemma sorted_snoc (l : list Z) x : StronglySorted Z.lt l -> Forall (fun y => y < x)%Z l -> StronglySorted Z.lt (l ++ [x]).
Proof.
  induction l as [|y l IH]; simpl; intros Hs Hx; [by repeat constructor|].
  apply StronglySorted_inv in Hs as [Hs Hy]. inversion Hx. constructor; [by apply IH|].
  apply Forall_app. split; [done|by constructor].
Qed.

Lemma cursors_increase_snoc events e :
  ev_cursor e = VibexUseEvent.next_sequence events -> cursors_increase events -> cursors_increase (events ++ [e]).
Proof.
  intros He [Hs Hp]. split.
  - rewrite fmap_app. csimpl. apply sorted_snoc; [done|]. apply Forall_forall. intros z Hz.
    apply list_elem_of_fmap in Hz as (x & -> & Hx). rewrite He. by apply next_sequence_above.
  - apply Forall_app. split; [done|]. constructor; [|done]. rewrite He. apply next_sequence_pos.
Qed.

Section events.
Context (hb : ident -> bool) (adds : bool).
Notation moves := (moves hb adds).

Lemma moves_append event_id root kind task_id session_id revision payload :
  moves (VibexUseEvent.append event_id root kind task_id session_id revision payload).
Proof.
  intros db. unfold VibexUseEvent.append, db_bind, db_read, insert_or_ignore. cbn [t_rows events t_put].
  destruct (VibexUseEvent.event_get db event_id) eqn:E; [apply evolves_refl|].
  match goal with |- context [mkEvent ?c _ _ _ _ _ _ _ _] => set (e := mkEvent c _ _ _ _ _ _ _ _) end.
  set (rows := sql_insert_or_ignore _ e _).
  assert (evolves hb adds db (put_events rows db)) as H.
  { one_table.
    - unfold rows, sql_insert_or_ignore. simpl. destruct (existsb _ _); [done|by eexists].
    - unfold rows, sql_insert_or_ignore. simpl. destruct (existsb _ _); [done|]. by apply cursors_increase_snoc. }
  by destruct (VibexUseEvent.event_get (put_events rows db) event_id).
Qed.
End events.

(** ** Every writer *)

Lemma task_moves_same t t' : ad_terms t' = ad_terms t -> ad_progress t' = ad_progress t -> task_moves t t'.
Proof. intros H1 H2. split; [done|]. unfold task_agrees. rewrite H2. split; [done|apply progress_moves_refl]. Qed.

#[export] Hint Resolve moves_ret moves_fail moves_read moves_lift moves_query moves_draw moves_edges moves_grants
  moves_sessions moves_deliveries moves_insert_deliveries moves_insert_limits moves_insert_cancellations
  moves_insert_operations moves_ensure moves_mark_human moves_claim moves_release moves_append : moves.

(** Splits a call into its statements, and closes those the base knows. *)
Ltac moves_step :=
  match goal with
  | |- moves _ _ (db_transaction _) => apply moves_transaction
  | |- moves _ _ (db_bind _ _) => apply moves_bind; [|intros ?]
  | |- moves _ _ (db_each _ _) => apply moves_each; intros ?
  | |- moves _ _ (db_for _ _ _) => apply moves_for; intros ? ?
  | |- moves _ _ (execute tasks _ _) => apply moves_tasks; intros ? _; apply task_moves_same; done
  | |- moves _ _ (execute executions _ _) => apply moves_executions; intros ? _; by split
  | |- moves _ _ (execute operations _ _) => apply moves_operations; intros ? _; done
  | |- moves _ _ (match ?x with _ => _ end) => destruct x
  | |- moves _ _ _ => solve [auto with moves]
  end.
Ltac solve_moves := repeat moves_step.

Section writers.
Context (hb : ident -> bool) (adds : bool).
Notation moves := (moves hb adds).

Lemma moves_upsert child parent task_id : moves (SessionOwnership.upsert child parent task_id).
Proof.
  unfold SessionOwnership.upsert. solve_moves.
  intros db. one_table.
Qed.
Lemma moves_sync t : moves (SessionOwnership.sync_from_delegation t).
Proof. unfold SessionOwnership.sync_from_delegation. repeat case_match; auto using moves_upsert with moves. Qed.
Lemma moves_grant grantee target scope by_ : moves (SessionGrant.grant grantee target scope by_).
Proof. unfold SessionGrant.grant. solve_moves. intros db. one_table. Qed.
Lemma moves_revoke grantee target : moves (SessionGrant.revoke grantee target).
Proof. intros db. one_table. Qed.
Lemma moves_delivered consumer ids : moves (VibexUseEvent.mark_delivered consumer ids).
Proof. unfold VibexUseEvent.mark_delivered. solve_moves. Qed.
Lemma moves_acknowledge consumer ids : moves (VibexUseEvent.acknowledge consumer ids).
Proof. unfold VibexUseEvent.acknowledge. solve_moves. Qed.
Lemma moves_acknowledge_through consumer cursor : moves (VibexUseEvent.acknowledge_through consumer cursor).
Proof. unfold VibexUseEvent.acknowledge_through. solve_moves. Qed.
Lemma moves_control_event c returned : moves (SessionControllers.append_control_event c returned).
Proof. unfold SessionControllers.append_control_event. solve_moves. Qed.
Hint Resolve moves_control_event : moves.
Lemma moves_take_over session_id : moves (SessionControllers.take_over_for_human_input session_id).
Proof. unfold SessionControllers.take_over_for_human_input. solve_moves. Qed.
Lemma moves_return session_id parent :
  hb session_id = true -> moves (SessionControllers.return_to_agent session_id parent).
Proof.
  intros Hh. unfold SessionControllers.return_to_agent. solve_moves. apply moves_controllers.
  intros x [[?%by_controller_spec _]%andb_true_iff _]%andb_true_iff. split; [done|]. simpl. split; [lia|].
  intros _. right. subst. split; [done|lia].
Qed.
Lemma moves_reserve_operation o key : moves (VibexUseOperations.reserve o key).
Proof. unfold VibexUseOperations.reserve. solve_moves. Qed.
Lemma moves_update_operation id st code msg retry : moves (VibexUseOperations.update_state id st code msg retry).
Proof. unfold VibexUseOperations.update_state. solve_moves. Qed.
Lemma moves_append_resource id r : moves (VibexUseOperations.append_resource id r).
Proof. unfold VibexUseOperations.append_resource. solve_moves. Qed.
Lemma moves_checkpoint id k v : moves (VibexUseOperations.set_checkpoint id k v).
Proof. unfold VibexUseOperations.set_checkpoint. solve_moves. Qed.
Lemma moves_checkpoint_once id k v : moves (VibexUseOperations.set_checkpoint_once id k v).
Proof. unfold VibexUseOperations.set_checkpoint_once. solve_moves. Qed.
Lemma moves_set_policy p : moves (set_policy p).
Proof. unfold set_policy. solve_moves. intros db. one_table. Qed.
Lemma moves_reserve_task t : moves (reserve_task t).
Proof. unfold reserve_task. solve_moves. Qed.
Lemma moves_capture owner source b : moves (capture owner source b).
Proof. unfold capture. solve_moves. Qed.
End writers.
#[export] Hint Resolve moves_upsert moves_sync moves_grant moves_revoke moves_delivered moves_acknowledge
  moves_acknowledge_through moves_control_event moves_take_over moves_return moves_reserve_operation
  moves_update_operation moves_append_resource moves_checkpoint moves_checkpoint_once moves_set_policy
  moves_reserve_task moves_capture : moves.

(** ** The phases of a task *)

Lemma agrees_terminal p :
  progress_agrees p -> status_is_terminal (tp_status p) = phase_is_terminal (tp_phase p).
Proof. intros [-> | ->]; [by destruct (tp_phase p)|by destruct (tp_status p)]. Qed.

Lemma phase_agrees t : task_agrees t -> phase t = tp_phase (ad_progress t).
Proof.
  unfold task_agrees, progress_agrees, phase. case_bool_decide as E; [|done]. rewrite E.
  intros [-> | H]; [done|]. by destruct (tp_status (ad_progress t)).
Qed.

(** A write of the progress alone. *)
Lemma task_moves_progress t p now :
  (task_agrees t -> progress_agrees p /\ progress_moves (ad_progress t) p) -> task_moves t (with_progress p now t).
Proof. intros H. by split. Qed.

Lemma stamp_if_some b now o : is_Some o -> is_Some (Delegations.stamp_if b now o).
Proof. unfold Delegations.stamp_if. destruct b; [by eexists|done]. Qed.

Lemma move_phase_moves phase summary code now p :
  Delegations.may_move phase p = true -> progress_moves p (Delegations.move_phase phase summary code now p).
Proof.
  unfold Delegations.may_move. intros [Ht%negb_true_iff Hc]%andb_true_iff. split; [simpl; lia|].
  split; [congruence|]. split; [|apply stamp_if_some]. intros Hp. rewrite Hp in Hc. by destruct phase; auto.
Qed.

Section tasks.
Context (hb : ident -> bool) (adds : bool).
Notation moves := (moves hb adds).

Lemma moves_transition id phase summary code : moves (Delegations.transition_delegation id phase summary code).
Proof.
  unfold Delegations.transition_delegation. apply moves_bind; [auto with moves|intros now].
  apply moves_bind; [|auto with moves].
  apply moves_tasks. intros t [_ Hm]%andb_true_iff. apply task_moves_progress. intros _.
  split; [by left|by apply move_phase_moves].
Qed.
Lemma moves_update_status id status summary code :
  moves (Delegations.update_status_if_active id status summary code).
Proof.
  unfold Delegations.update_status_if_active. apply moves_bind; [auto with moves|intros now].
  apply moves_bind; [|intros n; solve_moves]. apply moves_tasks.
  intros t [[_ Hn%negb_true_iff]%andb_true_iff Hc]%andb_true_iff. apply task_moves_progress. intros Ha.
  rewrite (agrees_terminal _ Ha) in Hn. split; [by right|]. split; [simpl; lia|]. split; [congruence|].
  split; [|done]. intros Hp. rewrite Hp, bool_decide_true in Hc by done. simpl in Hc.
  apply bool_decide_eq_true in Hc as ->. by right.
Qed.
Lemma moves_request_cancel id : moves (Delegations.request_delegation_cancellation id).
Proof.
  unfold Delegations.request_delegation_cancellation. apply moves_bind; [auto with moves|intros now].
  apply moves_bind; [|auto with moves].
  apply moves_tasks. intros t [[_ Hn%negb_true_iff]%andb_true_iff _]%andb_true_iff. apply task_moves_progress.
  intros _. split; [by left|]. split; [simpl; lia|]. split; [congruence|]. split; [by left|]. by eexists.
Qed.
Lemma moves_update_fields t : moves (Delegations.update_delegation_vibex_use_fields t).
Proof. unfold Delegations.update_delegation_vibex_use_fields. solve_moves. Qed.
Lemma moves_task_blocked id b : moves (Delegations.set_delegation_blocked_on id b).
Proof. unfold Delegations.set_delegation_blocked_on. solve_moves. Qed.
Lemma moves_initialize id root rt refs crit fp :
  moves (Delegations.initialize_delegation_task id root rt refs crit fp).
Proof. unfold Delegations.initialize_delegation_task. solve_moves. Qed.
Lemma moves_result_ref id r : moves (Delegations.append_delegation_result_ref id r).
Proof. unfold Delegations.append_delegation_result_ref. solve_moves. Qed.
Lemma moves_attach_claimed id child agent : moves (Delegations.attach_claimed_child_session id child agent).
Proof. unfold Delegations.attach_claimed_child_session. solve_moves. Qed.
Lemma moves_attach_child id child agent parent :
  moves (Delegations.attach_child_session_with_ownership id child agent parent).
Proof.
  unfold Delegations.attach_child_session_with_ownership. apply moves_bind; [apply moves_attach_claimed|intros updated; solve_moves].
Qed.
Lemma moves_attach_timeline id item : moves (Delegations.attach_parent_timeline_item id item).
Proof. unfold Delegations.attach_parent_timeline_item. solve_moves. Qed.
Lemma delegation_row_agrees parent t : task_agrees (Delegations.delegation_row parent t).
Proof. by left. Qed.
Lemma moves_reserve t limit : moves (Delegations.reserve_or_get t limit).
Proof.
  unfold Delegations.reserve_or_get. apply moves_transaction, moves_bind; [auto with moves|intros existing].
  destruct existing; [solve_moves|]. apply moves_bind; [auto with moves|intros parent].
  apply moves_bind; [auto with moves|intros taken]. apply moves_if; [auto with moves|].
  apply moves_bind; [apply moves_insert_task, delegation_row_agrees|intros _; solve_moves].
Qed.
End tasks.
#[export] Hint Resolve moves_transition moves_update_status moves_request_cancel moves_update_fields
  moves_task_blocked moves_initialize moves_result_ref moves_attach_claimed moves_attach_child
  moves_attach_timeline moves_reserve : moves.

(** ** Rounds and messages *)

Section rounds.
Context (hb : ident -> bool) (adds : bool).
Notation moves := (moves hb adds).

Lemma moves_mark_started id start : moves (Executions.mark_started id start).
Proof. unfold Executions.mark_started. solve_moves. Qed.
Lemma moves_settle id o st su rr ar us tr en fi : moves (Executions.settle id o st su rr ar us tr en fi).
Proof. unfold Executions.settle. solve_moves. Qed.
Lemma moves_set_error_code id code : moves (Executions.set_error_code id code).
Proof. unfold Executions.set_error_code. solve_moves. Qed.
Lemma moves_set_blocked_on id b : moves (Executions.set_blocked_on id b).
Proof. unfold Executions.set_blocked_on. solve_moves. Qed.
Lemma moves_stop_reason id reason : moves (Executions.record_stop_reason id reason).
Proof. unfold Executions.record_stop_reason. solve_moves. Qed.
Hint Resolve moves_mark_started moves_settle moves_set_error_code moves_set_blocked_on : moves.
Lemma moves_ambiguous_execution id reason : moves (Executions.mark_execution_ambiguous id reason).
Proof. unfold Executions.mark_execution_ambiguous. solve_moves. Qed.
Lemma moves_attach_runtime id rt rev : moves (Executions.attach_delegation_runtime_summary id rt rev).
Proof. unfold Executions.attach_delegation_runtime_summary. solve_moves. Qed.
Lemma moves_interrupt id : moves (Interrupts.request id).
Proof.
  unfold Interrupts.request. apply moves_bind; [auto with moves|intros now].
  apply moves_bind; [auto with moves|intros live]. apply moves_bind; [|auto with moves].
  apply moves_executions. intros e _. split; [done|]. by eexists.
Qed.
Lemma moves_pending_tasks : moves Cancellation.pending_tasks.
Proof. unfold Cancellation.pending_tasks. solve_moves. Qed.
Lemma moves_settle_task id : moves (Cancellation.settle_task id).
Proof. unfold Cancellation.settle_task. solve_moves. Qed.
Hint Resolve moves_settle_task : moves.
Lemma moves_settle_dependents id : moves (Cancellation.settle_dependents id).
Proof. unfold Cancellation.settle_dependents. solve_moves. Qed.
Hint Resolve moves_settle_dependents : moves.

Lemma moves_authorize request dispatch : moves (Admission.authorize_vibex_use_submission request dispatch).
Proof.
  unfold Admission.authorize_vibex_use_submission, Admission.take_control, Admission.owns_control. solve_moves.
Qed.
Hint Resolve moves_authorize : moves.
Lemma moves_link_task request e t : moves (Rounds.link_task request e t).
Proof. unfold Rounds.link_task. solve_moves. Qed.
Lemma moves_publish completed e t c i : moves (Rounds.publish_settled completed e t c i).
Proof.
  unfold Rounds.publish_settled, Rounds.advance_task, Rounds.announce_end, Rounds.announce_result. solve_moves.
Qed.
Hint Resolve moves_link_task moves_publish : moves.
Lemma moves_settle_round completed : moves (Rounds.settle_vibex_use_execution completed).
Proof. unfold Rounds.settle_vibex_use_execution. solve_moves. Qed.
Lemma moves_finish id expected accepted summary : moves (Rounds.finish_delegation_task id expected accepted summary).
Proof. unfold Rounds.finish_delegation_task. solve_moves. Qed.
Lemma moves_attention id b : moves (Rounds.record_attention id b).
Proof. unfold Rounds.record_attention. solve_moves. Qed.

(** A write that moves the status of messages forward. *)
Lemma moves_forward p f :
  (forall s, p s = true -> sb_terms (f s) = sb_terms s /\ sb_request (f s) = sb_request s /\
     rank (sb_status s) <= rank (sb_status (f s))) ->
  moves (execute submissions p f).
Proof.
  intros H. apply moves_submissions. intros s Hs. destruct (H s Hs) as (H1 & H2 & H3).
  split; [done|]. by rewrite H2.
Qed.
Lemma rank_max s : rank s <= rank SubmissionCancelled.
Proof. destruct s; simpl; lia. Qed.
Lemma rank_transition from to : can_transition_to from to = true -> rank from <= rank to.
Proof. destruct from, to; (intros _; simpl; lia) || by vm_compute. Qed.
Lemma moves_cancel_inputs id : moves (Rounds.cancel_task_inputs id).
Proof.
  unfold Rounds.cancel_task_inputs. solve_moves. apply moves_forward. intros s _. split_and!; [done..|apply rank_max].
Qed.
Hint Resolve moves_cancel_inputs : moves.
Lemma moves_fence t : moves (Rounds.fence_task t).
Proof. unfold Rounds.fence_task. solve_moves. Qed.
Hint Resolve moves_fence : moves.
Lemma moves_cancel_tree id cascade : moves (Rounds.request_delegation_tree_cancellation id cascade).
Proof. unfold Rounds.request_delegation_tree_cancellation. solve_moves. Qed.

Lemma moves_grant_mentions request by_ : moves (Submissions.grant_selected_mentions request by_).
Proof. unfold Submissions.grant_selected_mentions. solve_moves. Qed.
Lemma moves_supersede request sequence : moves (Submissions.supersede request sequence).
Proof.
  unfold Submissions.supersede. solve_moves.
  - apply moves_forward. intros s _. split_and!; [done..|apply rank_max].
  - intros db. one_table.
Qed.
Lemma moves_associate id switch : moves (Submissions.associate_required_switch id switch).
Proof. unfold Submissions.associate_required_switch. solve_moves. by apply moves_forward. Qed.
Lemma moves_advance id from to : moves (Submissions.advance_status id from to).
Proof.
  unfold Submissions.advance_status. destruct (can_transition_to from to) eqn:E; simpl; solve_moves.
  apply moves_forward. intros s [_ Hs%bool_decide_eq_true]%andb_true_iff. split_and!; [done..|].
  rewrite Hs. by apply rank_transition.
Qed.
Lemma moves_error_transition id from to code detail :
  moves (Submissions.transition_with_error id from to code detail).
Proof.
  unfold Submissions.transition_with_error. destruct (can_transition_to from to) eqn:E; simpl; solve_moves.
  apply moves_forward. intros s [_ Hs%bool_decide_eq_true]%andb_true_iff. split_and!; [done..|].
  rewrite Hs. by apply rank_transition.
Qed.
End rounds.
#[export] Hint Resolve moves_mark_started moves_settle moves_set_error_code moves_set_blocked_on moves_stop_reason
  moves_ambiguous_execution moves_attach_runtime moves_interrupt moves_pending_tasks moves_settle_task
  moves_settle_dependents moves_authorize moves_link_task moves_publish moves_settle_round moves_finish
  moves_attention moves_cancel_inputs moves_fence moves_cancel_tree moves_grant_mentions moves_supersede
  moves_associate moves_advance moves_error_transition : moves.

Section messages.
Context (hb : ident -> bool).

Section any.
Context (adds : bool).
Notation moves := (moves hb adds).
Lemma moves_normalize id expected normalized : moves (Submissions.normalize_runtime_selection id expected normalized).
Proof. unfold Submissions.normalize_runtime_selection. solve_moves. by apply moves_submissions. Qed.
Lemma moves_start_round id session : moves (Submissions.start_round id session).
Proof. unfold Submissions.start_round. solve_moves. Qed.
Hint Resolve moves_start_round : moves.
Lemma moves_about_to_prompt id : moves (Submissions.mark_about_to_prompt id).
Proof.
  unfold Submissions.mark_about_to_prompt. solve_moves. apply moves_forward.
  intros s [_ Hs%bool_decide_eq_true]%andb_true_iff. rewrite Hs. split_and!; [done..|simpl; lia].
Qed.
Lemma moves_record_dispatch id item corr range : moves (Submissions.record_dispatch_result id item corr range).
Proof.
  unfold Submissions.record_dispatch_result. solve_moves. apply moves_forward.
  intros s [[_ Hs%bool_decide_eq_true]%andb_true_iff _]%andb_true_iff. rewrite Hs. split_and!; [done..|simpl; lia].
Qed.
Lemma moves_fail_after id item range code detail :
  moves (Submissions.fail_after_prompt_dispatch id item range code detail).
Proof.
  unfold Submissions.fail_after_prompt_dispatch. solve_moves. apply moves_forward.
  intros s [[_ Hs%bool_decide_eq_true]%andb_true_iff _]%andb_true_iff. rewrite Hs. split_and!; [done..|simpl; lia].
Qed.
Lemma moves_cancel_for_switch switch : moves (Submissions.cancel_for_switch switch).
Proof.
  unfold Submissions.cancel_for_switch. solve_moves. apply moves_forward. intros s _. split_and!; [done..|apply rank_max].
Qed.
Lemma moves_cancel_queued session items s : moves (Submissions.cancel_queued session items s).
Proof.
  unfold Submissions.cancel_queued, Submissions.append_user_message. solve_moves.
  - intros db. one_table.
  - by apply moves_forward.
  - apply moves_forward. intros x _. split_and!; [done..|apply rank_max].
Qed.
Hint Resolve moves_cancel_queued : moves.
Lemma moves_cancel_before session id : moves (Submissions.cancel_before_dispatch session id).
Proof. unfold Submissions.cancel_before_dispatch. solve_moves. Qed.
End any.

(** Where messages and rounds are added. *)
Notation moves := (moves hb true).
Lemma moves_insert_or_get e : moves (Executions.insert_or_get e).
Proof.
  unfold Executions.insert_or_get. solve_moves. intros db. one_table. by apply grows_insert; auto with moves.
Qed.
Hint Resolve moves_insert_or_get : moves.
Lemma moves_record request id : moves (Rounds.record_vibex_use_submission request id).
Proof. unfold Rounds.record_vibex_use_submission. solve_moves. Qed.
Hint Resolve moves_record : moves.
Lemma moves_insert_submission s : moves (db_write (fun db => put_submissions (tm_submissions db ++ [s]) db)).
Proof. intros db. one_table. by apply grows_snoc; auto with moves. Qed.
Hint Resolve moves_insert_submission : moves.
Lemma moves_enqueue_conn id request policy : moves (Submissions.enqueue_conn id request policy).
Proof. unfold Submissions.enqueue_conn. solve_moves. Qed.
Hint Resolve moves_enqueue_conn : moves.
Lemma moves_enqueue id request by_ : moves (Submissions.enqueue_inner id request by_).
Proof. unfold Submissions.enqueue_inner. solve_moves. Qed.
Lemma moves_replace id request u e by_ : moves (Submissions.replace_latest_user_message_inner id request u e by_).
Proof. unfold Submissions.replace_latest_user_message_inner. solve_moves. Qed.
End messages.
#[export] Hint Resolve moves_normalize moves_start_round moves_about_to_prompt moves_record_dispatch moves_fail_after
  moves_cancel_for_switch moves_cancel_queued moves_cancel_before moves_insert_or_get moves_record
  moves_insert_submission moves_enqueue_conn moves_enqueue moves_replace : moves.

(** ** Histories *)

Inductive TeamOp : Type :=
(** What other components write: the clock, sessions, the timeline, usage facts. *)
| OpWorld (now : Z) (rows : list AgentSessionRow) (timeline : list TimelineItem) (usage : list UsageFact)
| OpEnqueue (id : ident) (request : SendAgentMessageRequest) (granted_by : option str)
| OpReplace (id : ident) (request : SendAgentMessageRequest) (user_sequence end_sequence : Z) (granted_by : option str)
| OpAssociateSwitch (id switch_id : ident)
| OpNormalize (id : ident) (expected normalized : SessionRuntimeSelection)
| OpAboutToPrompt (id : ident)
| OpRecordDispatch (id item_id : ident) (correlation : option str) (range : ExecutionResultRange)
| OpFailAfterDispatch (id item_id : ident) (range : ExecutionResultRange) (code : str) (detail : option str)
| OpFailSubmission (id : ident) (from : MessageSubmissionStatus) (code : str) (detail : option str)
| OpMarkAmbiguous (id : ident) (detail : option str)
| OpAdvance (id : ident) (from to : MessageSubmissionStatus)
| OpCancelForSwitch (switch_id : ident)
| OpCancelBeforeDispatch (session_id : ident) (id : option ident)
| OpSettleRound (completed : DelegationExecution)
| OpSettleExecution (id : ident) (reason : str)
| OpAttachRuntime (id : ident) (runtime : DelegationRuntimeSummary) (revision : Z)
| OpAttention (id : ident) (blocked_on : option DelegationBlockedOn)
| OpStopReason (submission_id : ident) (reason : str)
| OpErrorCode (id : ident) (code : str)
| OpInterrupt (id : ident)
| OpReserveTask (task : AgentDelegation) (active_limit : Z)
| OpTransition (id : ident) (phase : DelegationTaskPhase) (summary code : option str)
| OpUpdateStatus (id : ident) (status : AgentDelegationStatus) (summary code : option str)
| OpFinish (id : ident) (expected : option Z) (accepted : bool) (summary : option str)
| OpRequestCancel (id : ident)
| OpCancelTree (id : ident) (cascade : bool)
| OpSettleTask (id : ident)
| OpPendingTasks
| OpUpdateFields (task : AgentDelegation)
| OpTaskBlocked (id : ident) (blocked_on : option DelegationBlockedOn)
| OpInitialize (id root : ident) (runtime : option DelegationRuntimeSummary) (refs : list DelegationContextRef)
    (criteria : list str) (fingerprint : str)
| OpResultRef (id : ident) (result : DelegationResultRef)
| OpAttachChild (id child agent parent : ident)
| OpAttachTimeline (id item_id : ident)
| OpUpsertEdge (child parent : ident) (task_id : option ident)
| OpSyncEdge (task : AgentDelegation)
| OpGrant (grantee target : ident) (scope granted_by : str)
| OpRevoke (grantee target : ident)
| OpAppendEvent (event_id : str) (root : option ident) (kind : DelegationTaskEventKind)
    (task_id session_id : option ident) (revision : Z) (payload : json)
| OpDelivered (consumer : str) (event_ids : list str)
| OpAcknowledge (consumer : str) (event_ids : list str)
| OpAcknowledgeThrough (consumer : str) (cursor : Z)
| OpEnsureController (session_id : ident)
| OpClaim (session_id task_id parent : ident) (expected : option Z)
| OpTakeOver (session_id : ident)
| OpReturnToAgent (session_id parent : ident)
| OpRelease (session_id task_id : ident)
| OpReserveOperation (operation : VibexUseOperation) (caller_key : str)
| OpUpdateOperation (id : ident) (state : VibexUseOperationState) (code message : option str) (retryable : bool)
| OpAppendResource (id : ident) (resource : VibexUseOperationResource)
| OpCheckpoint (id : ident) (key value : str) (once : bool)
| OpSetPolicy (policy : VibexUseBudgetPolicy).

Definition put_world (now : Z) (rows : list AgentSessionRow) (timeline : list TimelineItem) (usage : list UsageFact)
    (db : TeamDb) : TeamDb := put_usage usage (put_timeline timeline (put_sessions rows (put_now now db))).
Definition done {A} (c : db_call TeamDb A) : db_call TeamDb unit := let! _ := c in db_ret tt.
Definition step (op : TeamOp) : db_call TeamDb unit :=
  match op with
  | OpWorld now rows timeline usage => db_write (put_world now rows timeline usage)
  | OpEnqueue id request by_ => done (Submissions.enqueue_inner id request by_)
  | OpReplace id request u e by_ => done (Submissions.replace_latest_user_message_inner id request u e by_)
  | OpAssociateSwitch id switch => Submissions.associate_required_switch id switch
  | OpNormalize id expected normalized => Submissions.normalize_runtime_selection id expected normalized
  | OpAboutToPrompt id => Submissions.mark_about_to_prompt id
  | OpRecordDispatch id item corr range => Submissions.record_dispatch_result id item corr range
  | OpFailAfterDispatch id item range code detail => Submissions.fail_after_prompt_dispatch id item range code detail
  | OpFailSubmission id from code detail => Submissions.fail id from code detail
  | OpMarkAmbiguous id detail => Submissions.mark_ambiguous id detail
  | OpAdvance id from to => Submissions.advance_status id from to
  | OpCancelForSwitch switch => done (Submissions.cancel_for_switch switch)
  | OpCancelBeforeDispatch session id => done (Submissions.cancel_before_dispatch session id)
  | OpSettleRound completed => done (Rounds.settle_vibex_use_execution completed)
  | OpSettleExecution id reason => done (Executions.mark_execution_ambiguous id reason)
  | OpAttachRuntime id runtime revision => Executions.attach_delegation_runtime_summary id runtime revision
  | OpAttention id b => done (Rounds.record_attention id b)
  | OpStopReason id reason => Executions.record_stop_reason id reason
  | OpErrorCode id code => done (Executions.set_error_code id code)
  | OpInterrupt id => done (Interrupts.request id)
  | OpReserveTask task limit => done (Delegations.reserve_or_get task limit)
  | OpTransition id phase summary code => done (Delegations.transition_delegation id phase summary code)
  | OpUpdateStatus id status summary code => done (Delegations.update_status_if_active id status summary code)
  | OpFinish id expected accepted summary => done (Rounds.finish_delegation_task id expected accepted summary)
  | OpRequestCancel id => done (Delegations.request_delegation_cancellation id)
  | OpCancelTree id cascade => done (Rounds.request_delegation_tree_cancellation id cascade)
  | OpSettleTask id => Cancellation.settle_task id
  | OpPendingTasks => done Cancellation.pending_tasks
  | OpUpdateFields task => Delegations.update_delegation_vibex_use_fields task
  | OpTaskBlocked id b => Delegations.set_delegation_blocked_on id b
  | OpInitialize id root runtime refs criteria fp =>
      Delegations.initialize_delegation_task id root runtime refs criteria fp
  | OpResultRef id result => done (Delegations.append_delegation_result_ref id result)
  | OpAttachChild id child agent parent => done (Delegations.attach_child_session_with_ownership id child agent parent)
  | OpAttachTimeline id item => Delegations.attach_parent_timeline_item id item
  | OpUpsertEdge child parent task_id => SessionOwnership.upsert child parent task_id
  | OpSyncEdge task => SessionOwnership.sync_from_delegation task
  | OpGrant grantee target scope by_ => done (SessionGrant.grant grantee target scope by_)
  | OpRevoke grantee target => done (SessionGrant.revoke grantee target)
  | OpAppendEvent id root kind task_id session_id revision payload =>
      done (VibexUseEvent.append id root kind task_id session_id revision payload)
  | OpDelivered consumer ids => done (VibexUseEvent.mark_delivered consumer ids)
  | OpAcknowledge consumer ids => done (VibexUseEvent.acknowledge consumer ids)
  | OpAcknowledgeThrough consumer cursor => done (VibexUseEvent.acknowledge_through consumer cursor)
  | OpEnsureController session => done (SessionControllers.ensure session)
  | OpClaim session task parent expected => done (SessionControllers.claim session task parent expected)
  | OpTakeOver session => done (SessionControllers.mark_human_controlled session)
  | OpReturnToAgent session parent => done (SessionControllers.return_to_agent session parent)
  | OpRelease session task => done (SessionControllers.release session task)
  | OpReserveOperation o key => done (VibexUseOperations.reserve o key)
  | OpUpdateOperation id st code msg retry => done (VibexUseOperations.update_state id st code msg retry)
  | OpAppendResource id r => done (VibexUseOperations.append_resource id r)
  | OpCheckpoint id key value once =>
      if once then done (VibexUseOperations.set_checkpoint_once id key value)
      else done (VibexUseOperations.set_checkpoint id key value)
  | OpSetPolicy policy => set_policy policy
  end.
(** The answer of a step does not stop the history. *)
Definition after (ops : list TeamOp) (db : TeamDb) : TeamDb := foldl (fun db op => snd (step op db)) db ops.

Definition hands_back (session_id : ident) (op : TeamOp) : bool :=
  match op with OpReturnToAgent s _ => bool_decide (s = session_id) | _ => false end.
Definition adds_rows (op : TeamOp) : bool :=
  match op with OpEnqueue _ _ _ | OpReplace _ _ _ _ _ => true | _ => false end.

Lemma moves_done hb adds {A} (c : db_call TeamDb A) : moves hb adds c -> moves hb adds (done c).
Proof. intros H. unfold done. by apply moves_bind; [|intros; apply moves_ret]. Qed.

Lemma step_moves op : moves (fun s => hands_back s op) (adds_rows op) (step op).
Proof.
  destruct op; cbn [step adds_rows]; 
    lazymatch goal with |- moves _ _ (done _) => apply moves_done | _ => idtac end; try (by auto with moves).
  - intros db. one_table.
  - unfold Submissions.fail. auto with moves.
  - unfold Submissions.mark_ambiguous. auto with moves.
  - apply moves_return. simpl. by rewrite bool_decide_true.
  - case_match; apply moves_done; auto with moves.
Qed.

Lemma after_evolves ops db : evolves (fun s => existsb (hands_back s) ops) (existsb adds_rows ops) db (after ops db).
Proof.
  revert db. induction ops as [|op ops IH]; intros db; [apply evolves_refl|]. cbn [after foldl].
  eapply evolves_trans.
  - eapply evolves_weaken; [| |apply (step_moves op db)]; cbn; intros; by apply orb_true_iff; left.
  - eapply evolves_weaken; [| |apply IH]; cbn; intros; by apply orb_true_iff; right.
Qed.

(** ** What every history keeps *)

Definition is_delegated (p : MessageProvenance) : bool := match p with DelegatedInput _ _ _ => true | _ => false end.
Definition delegated (s : MessageSubmissionRecord) : bool := is_delegated (rq_provenance (sb_request s)).
Definition message_of (s : MessageSubmissionRecord) : ident * str := (sb_session_id s, sb_key s).
Definition input_of (e : DelegationExecution) : ident * str :=
  (ex_session_id e, eo_input_idempotency_key (ex_origin e)).
(** The round [e] is the one of the message [s]. *)
Definition round_of (s : MessageSubmissionRecord) (e : DelegationExecution) : Prop :=
  ex_submission_id e = sb_id s /\ input_of e = message_of s /\
  eo_provenance (ex_origin e) = rq_provenance (sb_request s) /\ delegated s = true.

(** Sound tables, but for the messages of [unrounded], which have no round. *)
Record sound_but (unrounded : ident -> Prop) (db : TeamDb) : Prop := mkSound {
  so_uuid : forall m n, tm_uuid db m = tm_uuid db n -> m = n;
  so_ids : NoDup (sb_id <$> tm_submissions db);
  so_messages : NoDup (message_of <$> tm_submissions db);
  so_requests : forall s, s ∈ tm_submissions db ->
    (rq_session_id (sb_request s), rq_message_idempotency_key (sb_request s)) = message_of s;
  so_execution_ids : NoDup (ex_id <$> tm_executions db);
  so_rounds : NoDup (ex_submission_id <$> tm_executions db);
  so_inputs : NoDup (input_of <$> tm_executions db);
  so_fresh : forall e n, e ∈ tm_executions db -> tm_drawn db <= n -> ex_id e <> id_new VibexExecutionId (tm_uuid db n);
  so_round_of : forall e, e ∈ tm_executions db -> exists s, s ∈ tm_submissions db /\ round_of s e;
  so_known : forall id, unrounded id -> exists s, s ∈ tm_submissions db /\ sb_id s = id;
  so_pending : forall e, e ∈ tm_executions db -> ~ unrounded (ex_submission_id e);
  so_round : forall s, s ∈ tm_submissions db -> delegated s = true -> ~ unrounded (sb_id s) ->
    exists e, e ∈ tm_executions db /\ ex_submission_id e = sb_id s;
  so_accepted : forall e, e ∈ tm_executions db ->
    (eo_controller_revision (ex_origin e) <= from_option sc_revision 1 (controller_get db (ex_session_id e)))%Z;
  so_tasks : Forall task_agrees (tm_tasks db);
  so_events : cursors_increase (tm_events db)
}.
Definition sound (db : TeamDb) : Prop := sound_but (fun _ => False) db.
(** With one message more, whose round is being recorded. *)
Definition with_pending (id : ident) (unrounded : ident -> Prop) (x : ident) : Prop := unrounded x \/ x = id.

(** A database without rows, and the ids it will draw. *)
Definition empty_db (uuid : nat -> str) : TeamDb :=
  mkTeamDb 0 uuid 0 [] [] [] None [] [] [] [] [] [] [] [] [] [] [].

Lemma submission_moves_message s s' : submission_moves s s' -> message_of s' = message_of s.
Proof. intros (H & _ & _). unfold message_of, sb_session_id, sb_key. by rewrite H. Qed.
Lemma submission_moves_id s s' : submission_moves s s' -> sb_id s' = sb_id s.
Proof. intros (H & _ & _). unfold sb_id. by rewrite H. Qed.
Lemma submission_moves_provenance s s' :
  submission_moves s s' -> rq_provenance (sb_request s') = rq_provenance (sb_request s).
Proof. intros (_ & H & _). by injection H. Qed.
Lemma submission_moves_delegated s s' : submission_moves s s' -> delegated s' = delegated s.
Proof. intros H. unfold delegated. by rewrite (submission_moves_provenance _ _ H). Qed.
Lemma execution_moves_id e e' : execution_moves e e' -> ex_id e' = ex_id e.
Proof. intros [H _]. unfold ex_id. by rewrite H. Qed.
Lemma execution_moves_submission e e' : execution_moves e e' -> ex_submission_id e' = ex_submission_id e.
Proof. intros [H _]. unfold ex_submission_id. by rewrite H. Qed.
Lemma execution_moves_input e e' : execution_moves e e' -> input_of e' = input_of e.
Proof. intros [H _]. unfold input_of, ex_session_id. by rewrite H. Qed.
Lemma execution_moves_session e e' : execution_moves e e' -> ex_session_id e' = ex_session_id e.
Proof. intros [H _]. unfold ex_session_id. by rewrite H. Qed.

Lemma revisions_grow hb db db' s :
  controllers_move hb db db' ->
  (from_option sc_revision 1 (controller_get db s) <= from_option sc_revision 1 (controller_get db' s))%Z.
Proof.
  intros H. specialize (H s). destruct (controller_get db s), (controller_get db' s); simpl; try done; try lia.
  destruct H as (_ & ? & _). lia.
Qed.

Lemma round_of_moves s s' e e' : submission_moves s s' -> execution_moves e e' -> round_of s e -> round_of s' e'.
Proof.
  intros Hs He (H1 & H2 & H3 & H4). unfold round_of.
  rewrite (execution_moves_submission _ _ He), (submission_moves_id _ _ Hs), (execution_moves_input _ _ He),
    (submission_moves_message _ _ Hs), (submission_moves_provenance _ _ Hs), (submission_moves_delegated _ _ Hs).
  destruct He as [-> _]. done.
Qed.

Lemma no_new {A} (x : A) : ~ (false = true).
Proof. done. Qed.
(** Steps that add neither messages nor rounds keep the tables sound. *)
Lemma sound_evolves P hb db db' : evolves hb false db db' -> sound_but P db -> sound_but P db'.
Proof.
  intros [] [].
  assert (Hs : forall s', s' ∈ tm_submissions db' -> exists s, s ∈ tm_submissions db /\ submission_moves s s').
  { intros s' H. by destruct (grows_elem_inv _ _ _ _ _ ev_submissions0 H) as [?|?]. }
  assert (He : forall e', e' ∈ tm_executions db' -> exists e, e ∈ tm_executions db /\ execution_moves e e').
  { intros e' H. by destruct (grows_elem_inv _ _ _ _ _ ev_executions0 H) as [?|?]. }
  constructor.
  - by rewrite ev_uuid0.
  - by rewrite (grows_none_column _ _ sb_id _ _ submission_moves_id no_new ev_submissions0).
  - by rewrite (grows_none_column _ _ message_of _ _ submission_moves_message no_new ev_submissions0).
  - intros s' (s & H & Hm)%Hs. rewrite (submission_moves_message _ _ Hm), <- (so_requests0 s H).
    destruct Hm as (_ & Hv & _). unfold envelope in Hv. congruence.
  - by rewrite (grows_none_column _ _ ex_id _ _ execution_moves_id no_new ev_executions0).
  - by rewrite (grows_none_column _ _ ex_submission_id _ _ execution_moves_submission no_new ev_executions0).
  - by rewrite (grows_none_column _ _ input_of _ _ execution_moves_input no_new ev_executions0).
  - intros e' n (e & H & Hm)%He Hn. rewrite (execution_moves_id _ _ Hm), ev_uuid0. apply so_fresh0; [done|lia].
  - intros e' (e & H & Hm)%He. destruct (so_round_of0 e H) as (s & Hin & Hr).
    destruct (grows_elem _ _ _ _ _ ev_submissions0 Hin) as (s' & Hs' & Hm').
    exists s'. split; [done|]. by eapply round_of_moves.
  - intros id (s & Hin & <-)%so_known0. destruct (grows_elem _ _ _ _ _ ev_submissions0 Hin) as (s' & Hs' & Hm).
    exists s'. by rewrite (submission_moves_id _ _ Hm).
  - intros e' (e & H & Hm)%He. rewrite (execution_moves_submission _ _ Hm). by apply so_pending0.
  - intros s' (s & H & Hm)%Hs. rewrite (submission_moves_delegated _ _ Hm), (submission_moves_id _ _ Hm).
    intros Hd Hp. destruct (so_round0 s H Hd Hp) as (e & Hin & Hr).
    destruct (grows_elem _ _ _ _ _ ev_executions0 Hin) as (e' & Hin' & Hm').
    exists e'. by rewrite (execution_moves_submission _ _ Hm').
  - intros e' (e & H & Hm)%He. rewrite (execution_moves_session _ _ Hm). destruct Hm as [-> _].
    etrans; [by apply so_accepted0|]. by eapply revisions_grow.
  - apply Forall_forall. intros t' H. destruct (grows_elem_inv _ _ _ _ _ ev_tasks0 H) as [(t & Hin & Hm)|?]; [|done].
    apply Hm. by eapply Forall_forall in so_tasks0.
  - auto.
Qed.

(** ** Accepting a message *)

Lemma sound_submission P db s :
  sound_but P db -> get_by_key_conn db (sb_session_id s) (sb_key s) = None ->
  sql_exists (by_submission (sb_id s)) (tm_submissions db) = false ->
  (rq_session_id (sb_request s), rq_message_idempotency_key (sb_request s)) = message_of s ->
  ~ P (sb_id s) /\ sound_but (with_pending (sb_id s) P) (put_submissions (tm_submissions db ++ [s]) db).
Proof.
  intros [] Hkey Hid Hreq.
  assert (Hnew : forall x, x ∈ tm_submissions db -> sb_id x <> sb_id s).
  { intros x Hx E. rewrite <- not_true_iff_false in Hid. apply Hid, existsb_elem. exists x. split; [done|].
    unfold by_submission. by rewrite bool_decide_true. }
  split; [by intros (x & Hx & E)%so_known0; apply (Hnew x Hx)|].
  constructor; simpl; try done.
  - by apply column_snoc.
  - apply column_snoc; [done|]. intros x Hx [= E1 E2].
    assert (H : by_key (sb_session_id s) (sb_key s) x = false) by (by eapply sql_first_none).
    unfold by_key in H. by rewrite E1, E2, !bool_decide_true in H.
  - intros x [Hx| ->%list_elem_of_singleton]%elem_of_app; [by apply so_requests0|done].
  - intros e He. destruct (so_round_of0 e He) as (x & Hx & Hr). exists x. split; [set_solver|done].
  - intros id [(x & Hx & E)%so_known0| ->]; [exists x|exists s]; split; try done; set_solver.
  - intros e He [Hp|E]; [by apply (so_pending0 e He)|].
    destruct (so_round_of0 e He) as (x & Hx & Hr & _). apply (Hnew x Hx). congruence.
  - intros x [Hx| ->%list_elem_of_singleton]%elem_of_app Hd Hp; [apply so_round0; [done..|by intros H; apply Hp; left]|].
    destruct Hp. by right.
Qed.

(** The round of the pending message. *)
Lemma sound_round P db s e :
  sound_but (with_pending (sb_id s) P) db -> ~ P (sb_id s) -> s ∈ tm_submissions db -> round_of s e ->
  (forall x, x ∈ tm_executions db -> ex_id x <> ex_id e) ->
  (forall n, tm_drawn db <= n -> ex_id e <> id_new VibexExecutionId (tm_uuid db n)) ->
  (eo_controller_revision (ex_origin e) <= from_option sc_revision 1 (controller_get db (ex_session_id e)))%Z ->
  sql_exists (Executions.claims_round e) (tm_executions db) = false /\
  sound_but P (put_executions (tm_executions db ++ [e]) db).
Proof.
  intros [] HP Hs Hr Hids Hfresh Hrev.
  assert (Hsub : forall x, x ∈ tm_executions db -> ex_submission_id x <> ex_submission_id e).
  { intros x Hx E. apply (so_pending0 x Hx). right. destruct Hr as (H & _). congruence. }
  assert (Hin : forall x, x ∈ tm_executions db -> input_of x <> input_of e).
  { intros x Hx E. destruct (so_round_of0 x Hx) as (y & Hy & H1 & H2 & _). destruct Hr as (H3 & H4 & _).
    assert (y = s) as -> by (apply (column_inj message_of _ _ _ so_messages0 Hy Hs); congruence).
    apply (so_pending0 x Hx). right. congruence. }
  split.
  - rewrite <- not_true_iff_false. intros (x & Hx & Hc)%existsb_elem.
    unfold Executions.claims_round, by_execution, by_round, by_input in Hc.
    rewrite !orb_true_iff, andb_true_iff, !bool_decide_eq_true in Hc. destruct Hc as [[?|?]|[? ?]].
    + by apply (Hids x).
    + by apply (Hsub x).
    + apply (Hin x Hx). unfold input_of. congruence.
  - constructor; simpl; try done.
    + by apply column_snoc.
    + by apply column_snoc.
    + by apply column_snoc.
    + intros x n [Hx| ->%list_elem_of_singleton]%elem_of_app Hn; [by apply so_fresh0|by apply Hfresh].
    + intros x [Hx| ->%list_elem_of_singleton]%elem_of_app; [by apply so_round_of0|by exists s].
    + intros id Hid. apply so_known0. by left.
    + intros x [Hx| ->%list_elem_of_singleton]%elem_of_app Hp; [apply (so_pending0 x Hx); by left|].
      destruct Hr as (H & _). by rewrite H in Hp.
    + intros x Hx Hd Hp. destruct (decide (sb_id x = sb_id s)) as [E|E].
      * exists e. destruct Hr as (H & _). split; [set_solver|congruence].
      * destruct (so_round0 x Hx Hd) as (y & Hy & H); [by intros [?|?]|]. exists y. split; [set_solver|done].
    + intros x [Hx| ->%list_elem_of_singleton]%elem_of_app; [by apply so_accepted0|done].
Qed.

Lemma id_new_inj k a b : id_new k a = id_new k b -> a = b.
Proof. unfold id_new. intros H. by apply app_inv_head, app_inv_head in H. Qed.

Lemma insert_or_get_sound P s e db r db' :
  sound_but (with_pending (sb_id s) P) db -> ~ P (sb_id s) -> s ∈ tm_submissions db -> round_of s e ->
  (forall x, x ∈ tm_executions db -> ex_id x <> ex_id e) ->
  (forall n, tm_drawn db <= n -> ex_id e <> id_new VibexExecutionId (tm_uuid db n)) ->
  Executions.insert_or_get e db = (Ok r, db') -> sound_but P db'.
Proof.
  intros Hs HP Hin Hr Hids Hfresh. unfold Executions.insert_or_get.
  intros (origin & db1 & [= Ho <-] & H)%db_bind_ok. apply db_bind_ok in H as (row & db2 & [= <- <-] & H).
  apply db_bind_ok in H as (n & db3 & [= _ <-] & H). apply db_bind_ok in H as (stored & db4 & [= _ <-] & H).
  destruct stored as [stored|]; [|done]. injection H as _ <-. cbn [t_rows t_put executions].
  destruct (sound_round P db s (Executions.accepted_under origin db e)) as [Hc Hsound]; try done.
  unfold sql_insert_or_ignore. unfold sql_exists in Hc.
  change (Executions.claims_round (Executions.accepted_under origin db e)) with (Executions.claims_round e) in Hc.
  by rewrite Hc.
Qed.

(** A call after which the tables are as sound as before. *)
Lemma moves_sound P hb {A} (c : db_call TeamDb A) db :
  moves hb false c -> sound_but P db -> sound_but P (snd (c db)).
Proof. intros Hm. by eapply sound_evolves. Qed.
Lemma bind_sound {A B} (c : db_call TeamDb A) (k : A -> db_call TeamDb B) P db r db' hb :
  db_bind c k db = (Ok r, db') -> (forall a, moves hb false (k a)) ->
  (forall a db1, c db = (Ok a, db1) -> sound_but P db1) -> sound_but P db'.
Proof.
  intros (a & db1 & Hc & Hk)%db_bind_ok Hm Hs. specialize (Hs a db1 Hc).
  pose proof (moves_sound P hb (k a) db1 (Hm a) Hs) as H. by rewrite Hk in H.
Qed.

Lemma record_sound P s db r db' :
  sound_but (with_pending (sb_id s) P) db -> ~ P (sb_id s) -> s ∈ tm_submissions db ->
  Rounds.record_vibex_use_submission (sb_request s) (sb_id s) db = (Ok r, db') -> sound_but P db'.
Proof.
  intros Hs HP Hin. unfold Rounds.record_vibex_use_submission.
  destruct (rq_provenance (sb_request s)) as [|actor_ref task operation| | |] eqn:Ep.
  2: {
    intros (now & db1 & [= <- <-] & H)%db_bind_ok. apply db_bind_ok in H as (id & db2 & [= <- <-] & H).
    apply db_bind_ok in H as (rev & db3 & [= _ <-] & H).
    apply db_bind_ok in H as (actor & db4 & [_ ->]%db_lift_ok & H).
    apply db_bind_ok in H as (root & db5 & [= _ <-] & H).
    eapply (bind_sound _ _ P _ _ _ (fun _ => false)); [exact H|intros a; cbv beta; solve_moves|].
    clear H. intros a db1 H. set (e := Rounds.queued_execution _ _ _ _ _ _ _) in H.
    pose proof (moves_sound _ _ _ db (moves_draw (fun _ => false) false VibexExecutionId) Hs) as Hs'.
    eapply (insert_or_get_sound P s e); [exact Hs'|done|done|..|exact H].
    - pose proof (so_requests _ _ Hs s Hin) as Hm. split_and!; [done|by unfold input_of|done|].
      unfold delegated. by rewrite Ep.
    - intros x Hx. by apply (so_fresh _ _ Hs).
    - intros n Hn E%id_new_inj%(so_uuid _ _ Hs). cbn in Hn. lia. }
  all: intros [= _ <-]; destruct Hs; constructor; try done;
    [by intros x Hx; apply so_known0; left|by intros x Hx Hp; apply (so_pending0 x Hx); left|
    intros x Hx Hd Hp; destruct (decide (sb_id x = sb_id s)) as [E|E];
    [apply (column_inj sb_id _ _ _ so_ids0 Hx Hin) in E as ->; unfold delegated in Hd; by rewrite Ep in Hd
    |apply so_round0; [done..|by intros [?|?]]]].
Qed.

(** A lookup that found nothing finds nothing after steps without new rows. *)
Lemma no_new_first {R} (P : R -> R -> Prop) (q : R -> bool) l l' :
  (forall x y, P x y -> q y = q x) -> grows P (fun _ => false = true) l l' -> sql_first q l = None ->
  sql_first q l' = None.
Proof.
  intros Hq Hg Hn. destruct (sql_first q l') as [y|] eqn:E; [|done]. apply sql_first_some in E as [Hy Hqy].
  destruct (grows_elem_inv _ _ _ _ _ Hg Hy) as [(x & Hx & HP)|?]; [|done].
  by rewrite (Hq _ _ HP), (sql_first_none _ _ _ Hn Hx) in Hqy.
Qed.
Lemma by_key_moves session key s s' : submission_moves s s' -> by_key session key s' = by_key session key s.
Proof. intros H%submission_moves_message. unfold by_key. by injection H as -> ->. Qed.
Lemma by_submission_moves id s s' : submission_moves s s' -> by_submission id s' = by_submission id s.
Proof. intros H%submission_moves_id. unfold by_submission. by rewrite H. Qed.

Lemma enqueue_conn_sound P id request policy db r db' :
  sound_but P db -> Submissions.enqueue_conn id request policy db = (Ok r, db') -> sound_but P db'.
Proof.
  intros Hs. unfold Submissions.enqueue_conn. intros (existing & db0 & [= Hk <-] & H)%db_bind_ok.
  destruct existing as [s|].
  { apply db_bind_ok in H as ([] & db1 & [_ ->]%db_lift_ok & [= _ <-]). done. }
  apply db_bind_ok in H as ([] & db1 & Ha & H).
  pose proof (moves_authorize (fun _ => false) false request false db) as Hm. rewrite Ha in Hm. cbn in Hm.
  pose proof (sound_evolves _ _ _ _ Hm Hs) as Hs1.
  assert (Hk1 : get_by_key_conn db1 (rq_session_id request) (rq_message_idempotency_key request) = None).
  { eapply no_new_first; [|apply Hm|exact Hk]. apply by_key_moves. }
  apply db_bind_ok in H as (now & db2 & [= _ <-] & H). apply db_bind_ok in H as (sequence & db3 & [= _ <-] & H).
  cbv beta zeta in H. apply db_bind_ok in H as (taken & db4 & [= Ht <-] & H).
  destruct taken; [done|]. apply db_bind_ok in H as ([] & db5 & [= <-] & H).
  apply db_bind_ok in H as (u & db6 & Hr & [= _ <-]).
  set (s := Submissions.new_submission _ _ _ _ _) in Hr.
  destruct (sound_submission P db1 s) as [HP Hs2]; [done..|].
  eapply (record_sound P s); [exact Hs2|exact HP| |exact Hr]. cbn. set_solver.
Qed.

Lemma transaction_sound P {A} (c : db_call TeamDb A) db :
  sound_but P db -> (forall r db', c db = (Ok r, db') -> sound_but P db') -> sound_but P (snd (db_transaction c db)).
Proof. intros Hs H. unfold db_transaction. destruct (c db) as [[r|e] db'] eqn:E; [by eapply H|done]. Qed.
Lemma done_snd {A} (c : db_call TeamDb A) db : snd (done c db) = snd (c db).
Proof. unfold done, db_bind. by destruct (c db) as [[?|?] ?]. Qed.
Lemma lift_snd {A B} (c : VibexResult A) (k : A -> db_call TeamDb B) db :
  snd (db_bind (db_lift c) k db) = match c with Ok a => snd (k a db) | Err _ => db end.
Proof. unfold db_bind, db_lift. by destruct c. Qed.

Lemma enqueue_sound P id request by_ db :
  sound_but P db -> sound_but P (snd (Submissions.enqueue_inner id request by_ db)).
Proof.
  intros Hs. unfold Submissions.enqueue_inner. rewrite lift_snd.
  destruct (Submissions.validate_idempotency_key _); [|done]. apply transaction_sound; [done|]. intros r db' H.
  eapply (bind_sound _ _ P _ _ _ (fun _ => false)); [exact H|intros x; cbv beta; solve_moves|].
  intros x db1 Hc. by eapply enqueue_conn_sound.
Qed.

Lemma replace_sound P id request u e by_ db :
  sound_but P db -> sound_but P (snd (Submissions.replace_latest_user_message_inner id request u e by_ db)).
Proof.
  intros Hs. unfold Submissions.replace_latest_user_message_inner. rewrite lift_snd.
  destruct (Submissions.validate_idempotency_key _); [|done]. case_match; [done|].
  apply transaction_sound; [done|]. intros r db' (existing & db0 & [= _ <-] & Hk)%db_bind_ok.
  destruct existing as [s|].
  { apply db_bind_ok in Hk as ([] & db1 & [_ ->]%db_lift_ok & [= _ <-]). done. }
  apply db_bind_ok in Hk as ([] & db1 & [= _ <-] & Hk). apply db_bind_ok in Hk as ([] & db2 & Hsup & Hk).
  pose proof (moves_sound P (fun _ => false) _ db (moves_supersede _ false request u) Hs) as Hs2.
  rewrite Hsup in Hs2. eapply (bind_sound _ _ P _ _ _ (fun _ => false)); [exact Hk|intros x; cbv beta; solve_moves|].
  intros x db3 Hc. by eapply enqueue_conn_sound.
Qed.

Lemma step_sound {P} op db : sound_but P db -> sound_but P (snd (step op db)).
Proof.
  intros Hs. destruct (adds_rows op) eqn:E.
  - destruct op; try done; cbn [step]; rewrite done_snd; [by apply enqueue_sound|by apply replace_sound].
  - eapply moves_sound; [|done]. pose proof (step_moves op) as H. by rewrite E in H.
Qed.
Lemma after_sound {P} ops db : sound_but P db -> sound_but P (after ops db).
Proof. revert db. induction ops as [|op ops IH]; intros db Hs; [done|]. by apply IH, step_sound. Qed.
Lemma empty_sound uuid : (forall m n, uuid m = uuid n -> m = n) -> sound (empty_db uuid).
Proof.
  intros Hu. constructor; simpl; try done; try constructor; try (by intros ? ?%not_elem_of_nil);
    try (by intros ? ? ?%not_elem_of_nil); constructor.
Qed.
