(* ===== verification/TeamDelete.v ===== *)
(** The deletion of a session (AgentManager::delete_session of
    agent/src/manager.rs) with what the foreign keys of the tables remove with it,
    and the histories of Team work in which sessions are deleted. *)
From stdpp Require Import prelude strings list gmap.
From Stdlib Require Import NArith ZArith Lia Sorted.
From S2P Require Import Prelude CoreTypes Rows Storage Ir Json Team TeamStore TeamWork TeamHistory.

(** ** The cascade *)

(** ON DELETE SET NULL. *)
Definition null_if (gone : ident -> bool) (column : option ident) : option ident :=
  match column with Some id => if gone id then None else Some id | None => None end.
Definition null_origin (gone : ident -> bool) (e : DelegationExecution) : DelegationExecution :=
  let o := ex_origin e in
  mkExecution (mkOrigin (eo_id o) (eo_task_id o) (eo_session_id o) (eo_root_session_id o) (eo_submission_id o)
      (eo_input_idempotency_key o) (eo_provenance o) (eo_created_at_ms o) (null_if gone (eo_origin_task_id o))
      (eo_controller_revision o))
    (ex_result e) (ex_start_sequence e) (ex_runtime_selection_revision e) (ex_usage_tokens e) (ex_api_requests e)
    (ex_blocked_on e) (ex_interrupt_requested_at_ms e) (ex_updated_at_ms e).
Definition null_references (session item task : ident -> bool) (t : AgentDelegation) : AgentDelegation :=
  let x := ad_terms t in
  mkDelegation
    (mkTerms (tt_id x) (tt_parent_session_id x) (tt_idempotency_key x) (tt_title x) (tt_task_summary x)
       (tt_requested_agent_id x) (tt_completion_policy x) (tt_ownership_kind x) (tt_follows_task_id x)
       (tt_created_at_ms x) (null_if task (tt_parent_task_id x)))
    (ad_progress t) (ad_work t) (null_if session (ad_child_session_id t)) (ad_effective_agent_id t)
    (null_if item (ad_parent_timeline_item_id t)) (ad_updated_at_ms t) (ad_cancellation_last_attempt_at_ms t).

(** The rows one deleted session takes with it. *)
Definition items_gone (session_id : ident) (db : TeamDb) : list ident :=
  ti_id <$> sql_where (fun i => bool_decide (ti_session_id i = session_id)) (tm_timeline db).
Definition submissions_gone (session_id : ident) (db : TeamDb) : list ident :=
  sb_id <$> sql_where (fun s => bool_decide (sb_session_id s = session_id)) (tm_submissions db).
Definition tasks_gone (session_id : ident) (db : TeamDb) : list ident :=
  ad_id <$> sql_where (fun t => bool_decide (ad_parent_session_id t = session_id)) (tm_tasks db).
Definition execution_gone (session_id : ident) (db : TeamDb) (e : DelegationExecution) : bool :=
  bool_decide (ex_session_id e = session_id)
  || bool_decide (ex_submission_id e ∈ submissions_gone session_id db)
  || match ex_task_id e with Some id => bool_decide (id ∈ tasks_gone session_id db) | None => false end.
Definition executions_gone (session_id : ident) (db : TeamDb) : list ident :=
  ex_id <$> sql_where (execution_gone session_id db) (tm_executions db).

(** [DELETE FROM agent_sessions WHERE session_id = ?1] with foreign keys on. *)
Definition session_delete (session_id : ident) (db : TeamDb) : TeamDb :=
  let other (id : ident) := negb (bool_decide (id = session_id)) in
  let task_gone (id : ident) := bool_decide (id ∈ tasks_gone session_id db) in
  mkTeamDb (tm_now db) (tm_uuid db) (tm_drawn db)
    (sql_where (fun s => other (as_session_id s)) (tm_sessions db))
    (sql_where (fun i => other (ti_session_id i)) (tm_timeline db))
    (sql_where (fun u => negb (bool_decide (uf_submission_id u ∈ submissions_gone session_id db))) (tm_usage db))
    (tm_policy db)
    (sql_where (fun l => negb (task_gone (fst l))) (tm_limits db))
    (null_references (fun id => bool_decide (id = session_id)) (fun id => bool_decide (id ∈ items_gone session_id db))
       task_gone <$> sql_where (fun t => other (ad_parent_session_id t)) (tm_tasks db))
    (sql_where (fun e => other (oe_child_session_id e) && other (oe_parent_session_id e)) (tm_edges db))
    (sql_where (fun g => other (sg_grantee_session_id g) && other (sg_target_session_id g)) (tm_grants db))
    (sql_where (fun c => other (sc_session_id c)) (tm_controllers db))
    (null_origin task_gone <$> sql_where (fun e => negb (execution_gone session_id db e)) (tm_executions db))
    (sql_where (fun c => negb (task_gone (fst c)) && negb (bool_decide (snd c ∈ executions_gone session_id db)))
       (tm_cancellations db))
    (tm_operations db) (tm_events db) (tm_deliveries db)
    (sql_where (fun s => other (sb_session_id s)) (tm_submissions db)).

(** The session and the sessions below it, deepest first, in one immediate
    transaction. *)
Definition delete_session (session_id : ident) : db_call TeamDb unit :=
  db_transaction
    (let! below := db_query (fun db => Delegations.descendant_session_ids db session_id) in
     db_each (fun id => db_write (session_delete id)) (below ++ [session_id])).

(** ** Histories with deletions *)

Inductive TeamEvent : Type := Wrote (op : TeamOp) | DeletedSession (session_id : ident).
Definition event_step (ev : TeamEvent) : db_call TeamDb unit :=
  match ev with Wrote op => step op | DeletedSession id => delete_session id end.
Definition history (evs : list TeamEvent) (db : TeamDb) : TeamDb := foldl (fun db ev => snd (event_step ev db)) db evs.

(** The round of the message went with its task: it was there before some session
    was deleted, of a task, and the deletion kept the message and not the round. *)
Definition round_lost (evs : list TeamEvent) (db : TeamDb) (id : ident) : Prop :=
  exists before session_id later e, evs = before ++ DeletedSession session_id :: later /\
    e ∈ tm_executions (history before db) /\ ex_submission_id e = id /\ is_Some (ex_task_id e) /\
    (forall e', e' ∈ tm_executions (history (before ++ [DeletedSession session_id]) db) -> ex_submission_id e' <> id) /\
    exists s, s ∈ tm_submissions (history (before ++ [DeletedSession session_id]) db) /\ sb_id s = id.

(** ** What a deletion keeps *)

Lemma sql_where_column {R K} (column : R -> K) p (l : list R) : NoDup (column <$> l) -> NoDup (column <$> sql_where p l).
Proof.
  unfold sql_where. induction l as [|x l IH]; csimpl; [done|]. intros [Hx Hd]%NoDup_cons.
  destruct (p x); csimpl; [|by apply IH]. constructor; [|by apply IH].
  intros (y & E & [Hy _]%elem_of_retain)%list_elem_of_fmap. apply Hx. rewrite E. by apply list_elem_of_fmap_2.
Qed.

Lemma round_of_null gone s e : round_of s e -> round_of s (null_origin gone e).
Proof. done. Qed.

Lemma controller_get_other session_id db s :
  s <> session_id -> controller_get (session_delete session_id db) s = controller_get db s.
Proof.
  intros Hs. unfold controller_get, sql_first, session_delete. cbn [tm_controllers].
  induction (tm_controllers db) as [|c l IH]; [done|]. unfold sql_where in *. simpl.
  unfold by_controller in *. destruct (decide (sc_session_id c = session_id)) as [E|E].
  - rewrite (bool_decide_true (sc_session_id c = session_id)) by done. simpl.
    rewrite (bool_decide_false (sc_session_id c = s)) by congruence. exact IH.
  - rewrite (bool_decide_false (sc_session_id c = session_id)) by done. simpl. by rewrite IH.
Qed.

(** The automated messages of the tables that have no round. *)
Definition unrounded (db : TeamDb) (id : ident) : Prop :=
  id ∈ sb_id <$> sql_where delegated (tm_submissions db) /\ id ∉ ex_submission_id <$> tm_executions db.
#[export] Instance unrounded_dec db id : Decision (unrounded db id).
Proof. unfold unrounded. apply _. Defined.
Lemma unrounded_message db id :
  unrounded db id -> exists s, s ∈ tm_submissions db /\ sb_id s = id /\ delegated s = true.
Proof. intros [(s & -> & [Hin Hd]%sql_where_elem)%list_elem_of_fmap _]. by exists s. Qed.
Lemma unrounded_elem db s :
  s ∈ tm_submissions db -> delegated s = true -> ~ unrounded db (sb_id s) ->
  exists e, e ∈ tm_executions db /\ ex_submission_id e = sb_id s.
Proof.
  intros Hin Hd Hn. destruct (decide (sb_id s ∈ ex_submission_id <$> tm_executions db)) as [(e & E & He)%list_elem_of_fmap|Hno];
    [by exists e|]. destruct Hn. split; [|done]. by apply list_elem_of_fmap_2, sql_where_elem.
Qed.
(** Tables that are sound but for some messages are sound but for those without a
    round. *)
Lemma sound_canonical P db : sound_but P db -> sound_but (unrounded db) db.
Proof.
  intros Hs. constructor; try by apply Hs.
  - intros id (s & Hin & Hid & _)%unrounded_message. by exists s.
  - intros e He [_ Hn]. by apply Hn, list_elem_of_fmap_2.
  - apply unrounded_elem.
Qed.

Lemma deleted_submissions session_id db s :
  s ∈ tm_submissions (session_delete session_id db) <-> s ∈ tm_submissions db /\ sb_session_id s <> session_id.
Proof. cbn. rewrite sql_where_elem, negb_true_iff, bool_decide_eq_false. done. Qed.
Lemma deleted_executions session_id db e' :
  e' ∈ tm_executions (session_delete session_id db) -> exists e gone, e ∈ tm_executions db /\
    execution_gone session_id db e = false /\ e' = null_origin gone e.
Proof.
  cbn. intros (e & -> & [He Hg]%sql_where_elem)%list_elem_of_fmap. eexists e, _. split; [done|]. split; [|done].
  by apply negb_true_iff.
Qed.

(** A column the cascade leaves alone stays unique. *)
Lemma deleted_column {K} (column : DelegationExecution -> K) session_id db :
  (forall gone e, column (null_origin gone e) = column e) ->
  NoDup (column <$> tm_executions db) -> NoDup (column <$> tm_executions (session_delete session_id db)).
Proof.
  intros Hc Hd. cbn. rewrite <- list_fmap_compose.
  rewrite (list_fmap_ext _ column); [by apply sql_where_column|]. intros i e _. apply Hc.
Qed.

(** A round that stays has its message. *)
Lemma kept_round_has_message P session_id db e :
  sound_but P db -> e ∈ tm_executions db -> execution_gone session_id db e = false ->
  exists s, s ∈ tm_submissions (session_delete session_id db) /\ round_of s e.
Proof.
  intros Hs He Hg. destruct (so_round_of _ _ Hs e He) as (s & Hin & Hr). exists s. split; [|done].
  apply deleted_submissions. split; [done|]. destruct Hr as (_ & [= Hses _] & _).
  unfold execution_gone in Hg. apply orb_false_iff in Hg as [[Hx%bool_decide_eq_false _]%orb_false_iff _].
  by rewrite <- Hses.
Qed.
(** A round without a task stays as long as its message does. *)
Lemma message_keeps_its_round P session_id db s e :
  sound_but P db -> e ∈ tm_executions db -> ex_task_id e = None -> round_of s e ->
  s ∈ tm_submissions (session_delete session_id db) ->
  exists e', e' ∈ tm_executions (session_delete session_id db) /\ ex_task_id e' = None /\ round_of s e'.
Proof.
  intros Hs He Ht Hr [Hin Hses]%deleted_submissions. pose proof Hr as (Hid & [= Hes _] & _).
  eexists (null_origin _ e). split; [|split; [exact Ht|by apply round_of_null]].
  apply list_elem_of_fmap_2, sql_where_elem. split; [done|]. apply negb_true_iff. unfold execution_gone.
  rewrite Ht, orb_false_r. apply orb_false_iff. split; apply bool_decide_eq_false; [congruence|].
  rewrite Hid. intros (s2 & E & [Hin2 Hses2%bool_decide_eq_true]%sql_where_elem)%list_elem_of_fmap.
  apply Hses. by rewrite (column_inj sb_id _ _ _ (so_ids _ _ Hs) Hin Hin2 E).
Qed.

Lemma session_delete_sound P session_id db :
  sound_but P db -> sound_but (unrounded (session_delete session_id db)) (session_delete session_id db).
Proof.
  intros Hs. constructor.
  - apply Hs.
  - apply sql_where_column, Hs.
  - apply sql_where_column, Hs.
  - intros s [Hin _]%deleted_submissions. by apply (so_requests _ _ Hs).
  - by apply deleted_column, Hs.
  - by apply deleted_column, Hs.
  - by apply deleted_column, Hs.
  - intros e' n (e & gone & He & _ & ->)%deleted_executions Hn. exact (so_fresh _ _ Hs e n He Hn).
  - intros e' (e & gone & He & Hg & ->)%deleted_executions.
    destruct (kept_round_has_message P _ _ e Hs He Hg) as (s & Hin & Hr). by exists s.
  - intros id (s & Hin & Hid & _)%unrounded_message. by exists s.
  - intros e He [_ Hn]. by apply Hn, list_elem_of_fmap_2.
  - apply unrounded_elem.
  - intros e' (e & gone & He & Hg & ->)%deleted_executions.
    change (ex_session_id (null_origin gone e)) with (ex_session_id e). rewrite controller_get_other.
    + exact (so_accepted _ _ Hs e He).
    + unfold execution_gone in Hg. by apply orb_false_iff in Hg as [[Hx%bool_decide_eq_false _]%orb_false_iff _].
  - cbn. apply Forall_fmap, Forall_forall. intros t [Hin _]%sql_where_elem.
    pose proof (so_tasks _ _ Hs) as Ht. by eapply Forall_forall in Ht.
  - apply Hs.
Qed.

(** Deleting one session after another. *)
Definition delete_all (ids : list ident) (db : TeamDb) : TeamDb := foldl (fun db id => session_delete id db) db ids.

Lemma delete_all_submissions ids db s : s ∈ tm_submissions (delete_all ids db) -> s ∈ tm_submissions db.
Proof.
  revert db. induction ids as [|id ids IH]; intros db; [done|]. cbn [delete_all foldl].
  intros H%IH. by apply deleted_submissions in H as [? _].
Qed.
Lemma delete_all_sound ids db : sound_but (unrounded db) db -> sound_but (unrounded (delete_all ids db)) (delete_all ids db).
Proof.
  revert db. induction ids as [|id ids IH]; intros db Hs; [done|]. cbn [delete_all foldl].
  by eapply IH, session_delete_sound.
Qed.
Lemma delete_all_keeps_round P ids db s e :
  sound_but P db -> e ∈ tm_executions db -> ex_task_id e = None -> round_of s e ->
  s ∈ tm_submissions (delete_all ids db) ->
  exists e', e' ∈ tm_executions (delete_all ids db) /\ round_of s e'.
Proof.
  revert P db e. induction ids as [|id ids IH]; intros P db e Hs He Ht Hr Hin; [by exists e|].
  cbn [delete_all foldl] in *. pose proof (delete_all_submissions _ _ _ Hin) as Hin1.
  destruct (message_keeps_its_round P _ _ s e Hs He Ht Hr Hin1) as (e1 & He1 & Ht1 & Hr1).
  by apply (IH _ _ e1 (session_delete_sound _ id db Hs)).
Qed.

Lemma each_delete ids db : db_each (fun id => db_write (session_delete id)) ids db = (Ok tt, delete_all ids db).
Proof.
  unfold db_each. revert db. induction ids as [|id ids IH]; intros db; [done|]. cbn [db_for delete_all foldl].
  unfold db_bind, db_write. apply IH.
Qed.
Lemma delete_session_all session_id db :
  exists ids, snd (delete_session session_id db) = delete_all ids db.
Proof.
  unfold delete_session, db_transaction, db_bind, db_query.
  destruct (Delegations.descendant_session_ids db session_id) as [below|e]; [|by exists []].
  exists (below ++ [session_id]). by rewrite each_delete.
Qed.

(** ** One message, one round *)

Lemma history_snoc evs ev db : history (evs ++ [ev]) db = snd (event_step ev (history evs db)).
Proof. unfold history. by rewrite foldl_snoc. Qed.

Lemma round_lost_snoc evs ev db id : round_lost evs db id -> round_lost (evs ++ [ev]) db id.
Proof.
  intros (before & s & later & e & -> & H). exists before, s, (later ++ [ev]), e. split; [|done].
  by rewrite <- (assoc (++)).
Qed.

(** After a deletion the messages without a round had none before, or lost it. *)
Lemma deletion_loses evs db0 session_id ids id :
  let db := history evs db0 in
  snd (delete_session session_id db) = delete_all ids db -> sound_but (unrounded db) db -> ~ unrounded db id ->
  unrounded (delete_all ids db) id -> round_lost (evs ++ [DeletedSession session_id]) db0 id.
Proof.
  intros db Hdel Hs Hold Hun. destruct (unrounded_message _ _ Hun) as (s & Hin & <- & Hd).
  assert (Hnew : history (evs ++ [DeletedSession session_id]) db0 = delete_all ids db) by by rewrite history_snoc.
  pose proof (delete_all_submissions _ _ _ Hin) as Hin0. destruct Hun as [_ Hno].
  destruct (so_round _ _ Hs s Hin0 Hd Hold) as (e & He & E).
  exists evs, session_id, [], e. rewrite Hnew. split_and!; [done|done|done| | |by exists s].
  - destruct (ex_task_id e) eqn:Et; [done|]. destruct (so_round_of _ _ Hs e He) as (y & Hy & Hr).
    assert (y = s) as ->.
    { apply (column_inj sb_id _ _ _ (so_ids _ _ Hs) Hy Hin0). destruct Hr as (Hr & _). congruence. }
    destruct (delete_all_keeps_round _ ids db s e Hs He Et Hr Hin) as (e' & He' & Hr' & _).
    destruct Hno. rewrite <- Hr'. by apply list_elem_of_fmap_2.
  - intros e' He' E'. apply Hno. rewrite <- E'. by apply list_elem_of_fmap_2.
Qed.

Lemma history_sound evs db0 :
  sound db0 -> let db := history evs db0 in
  sound_but (unrounded db) db /\ forall id, unrounded db id -> round_lost evs db0 id.
Proof.
  intros Hs0. induction evs as [|ev evs IH] using rev_ind.
  { cbn. split; [by eapply sound_canonical|]. intros id Hun.
    destruct (unrounded_message _ _ Hun) as (s & Hin & <- & Hd).
    destruct (so_round _ _ Hs0 s Hin Hd) as (e & He & E); [by intros []|].
    destruct Hun as [_ []]. rewrite <- E. by apply list_elem_of_fmap_2. }
  cbv zeta in *. destruct IH as [Hs Hl]. rewrite history_snoc. set (db := history evs db0) in *.
  destruct ev as [op|session_id]; cbn [event_step].
  - pose proof (step_sound op db Hs) as Hs'. split; [by eapply sound_canonical|]. intros id Hun.
    apply round_lost_snoc. destruct (decide (unrounded db id)) as [|Hn]; [by apply Hl|].
    destruct (unrounded_message _ _ Hun) as (s & Hin & <- & Hd).
    destruct (so_round _ _ Hs' s Hin Hd Hn) as (e & He & E).
    destruct Hun as [_ []]. rewrite <- E. by apply list_elem_of_fmap_2.
  - destruct (delete_session_all session_id db) as [ids E]. rewrite E. split; [by apply delete_all_sound|].
    intros id Hun. destruct (decide (unrounded db id)) as [|Hn]; [by apply round_lost_snoc, Hl|].
    by apply (deletion_loses evs db0 session_id ids id E Hs Hn).
Qed.

