(* ===== verification/TeamInbox.v ===== *)
(** The inbox of the team events (db/src/vibex_use.rs): which writers acknowledge
    an event for a reader, that every other one leaves it unacknowledged, and that
    an unacknowledged event stays readable. *)
From stdpp Require Import prelude strings list gmap.
From Stdlib Require Import NArith ZArith Lia Sorted.
From S2P Require Import Prelude CoreTypes Rows Storage Ir Json Team TeamStore TeamWork TeamHistory.
Import VibexUseEvent.

(** ** What acknowledges *)

(** The reader [consumer] acknowledges [e] by its id, or by a cursor that reaches
    it. *)
Definition acknowledges (consumer : str) (e : DelegationTaskEvent) (op : TeamOp) : bool :=
  match op with
  | OpAcknowledge reader ids => bool_decide (reader = consumer) && bool_decide (ev_event_id e ∈ ids)
  | OpAcknowledgeThrough reader cursor => bool_decide (reader = consumer) && (ev_cursor e <=? cursor)%Z
  | _ => false
  end.

(** The event is in the log, under an id of its own, and not acknowledged. *)
Definition waits (consumer : str) (e : DelegationTaskEvent) (db : TeamDb) : Prop :=
  NoDup (ev_event_id <$> tm_events db) /\ e ∈ tm_events db /\ acknowledged_by db consumer e = false.

Section waits.
Context (consumer : str) (e : DelegationTaskEvent).
Notation waits := (waits consumer e).

Lemma keeps_for {S A} (f : S -> A -> db_call TeamDb S) s l :
  (forall s x, keeps waits (f s x)) -> keeps waits (db_for f s l).
Proof.
  intros Hf. revert s. induction l as [|x l IH]; intros s; simpl; [auto with keeps|].
  apply keeps_bind; [apply Hf|apply IH].
Qed.
Lemma keeps_each {A} (f : A -> db_call TeamDb unit) l : (forall x, keeps waits (f x)) -> keeps waits (db_each f l).
Proof. intros Hf. apply keeps_for. auto. Qed.

Lemma keeps_query {A} (f : TeamDb -> VibexResult A) : keeps waits (db_query f).
Proof. intros db H. unfold db_query. by destruct (f db). Qed.

(** The log: an event that is added has an id no other has. *)
Lemma keeps_append event_id root kind task_id session_id revision payload :
  keeps waits (append event_id root kind task_id session_id revision payload).
Proof.
  intros db (Hd & He & Ha). unfold append, db_bind, db_read, insert_or_ignore. cbn [t_rows events t_put].
  destruct (event_get db event_id) eqn:E; [by split_and!|].
  set (x := mkEvent _ _ _ _ _ _ _ _ _). set (rows := sql_insert_or_ignore _ x _).
  assert (waits (put_events rows db)).
  { split_and!; [|unfold rows, sql_insert_or_ignore; cbn; destruct (existsb _ _); [done|apply elem_of_app; by left]|exact Ha].
    apply (sql_insert_or_ignore_nodup ev_event_id); [|exact Hd]. intros y Hy. unfold by_event. by rewrite Hy, bool_decide_true. }
  by destruct (event_get (put_events rows db) event_id).
Qed.

(** Delivering adds rows that are not acknowledged. *)
Lemma keeps_insert_delivery event_id reader now taken :
  keeps waits (insert_or_ignore deliveries taken (mkDelivery event_id reader now None)).
Proof.
  intros db (Hd & He & Ha). split_and!; [exact Hd|exact He|].
  unfold acknowledged_by, delivery_of in *. cbn [tm_deliveries put_deliveries t_put t_rows deliveries].
  unfold sql_insert_or_ignore. destruct (existsb _ _); [exact Ha|]. rewrite sql_first_app.
  destruct (sql_first _ (tm_deliveries db)); [exact Ha|].
  cbn. by destruct (by_delivery _ _ _).
Qed.

(** An acknowledging statement whose condition leaves the rows of the event out. *)
Lemma keeps_execute_deliveries p now :
  (forall d, by_delivery (ev_event_id e) consumer d = true -> p d = false) ->
  keeps waits (execute deliveries p (acknowledge_at now)).
Proof.
  intros Hp db (Hd & He & Ha). split_and!; [exact Hd|exact He|].
  unfold acknowledged_by, delivery_of in *. cbn [tm_deliveries put_deliveries t_put t_rows deliveries].
  rewrite sql_first_update by done.
  destruct (sql_first _ (tm_deliveries db)) as [d|] eqn:E; [|exact Ha]. apply sql_first_some in E as [_ E].
  cbn. by rewrite (Hp d E).
Qed.

Lemma by_delivery_spec id reader d :
  by_delivery id reader d = true <-> dl_event_id d = id /\ dl_consumer_key d = reader.
Proof. unfold by_delivery. by rewrite andb_true_iff, !bool_decide_eq_true. Qed.

Lemma keeps_acknowledge reader ids :
  acknowledges consumer e (OpAcknowledge reader ids) = false -> keeps waits (acknowledge reader ids).
Proof.
  intros Hn. unfold acknowledge. apply keeps_bind; [auto with keeps|]. intros now.
  assert (Hids : forall l s, (forall id, id ∈ l -> id ∈ ids) -> keeps waits (db_for (fun acknowledged event_id =>
    let! changed := execute deliveries (fun d => by_delivery event_id reader d && unacknowledged d)
                      (acknowledge_at now) in
    db_ret (acknowledged + changed)) s l)); [|by apply Hids].
  induction l as [|id l IH]; intros s Hl; simpl; [auto with keeps|].
  apply keeps_bind; [|intros; apply IH; set_solver]. apply keeps_bind; [|auto with keeps].
  apply keeps_execute_deliveries. intros d [Hd1 Hd2]%by_delivery_spec. apply not_true_iff_false.
  intros [[Hx1 Hx2]%by_delivery_spec _]%andb_true_iff. apply not_true_iff_false in Hn. apply Hn.
  cbn. rewrite !bool_decide_true; [done| |congruence]. rewrite <- Hd1, Hx1. set_solver.
Qed.

Lemma keeps_acknowledge_through reader cursor :
  acknowledges consumer e (OpAcknowledgeThrough reader cursor) = false -> keeps waits (acknowledge_through reader cursor).
Proof.
  intros Hn db Hw. unfold acknowledge_through, db_bind, db_read. set (through := _ <$> _).
  apply (keeps_execute_deliveries _ (tm_now db)); [|exact Hw]. destruct Hw as (Hd & He & _).
  intros d [Hd1 Hd2]%by_delivery_spec. apply not_true_iff_false.
  intros [[Hx%bool_decide_eq_true _]%andb_true_iff Hin%bool_decide_eq_true]%andb_true_iff.
  apply not_true_iff_false in Hn. apply Hn. cbn. rewrite bool_decide_true by congruence. cbn.
  unfold through in Hin. apply list_elem_of_fmap in Hin as (x & Hxe & [Hxin Hc]%sql_where_elem).
  by rewrite <- (column_inj ev_event_id _ _ _ Hd Hxin He) by congruence.
Qed.

(** ** Every other writer *)

Ltac call_head c := lazymatch c with ?f _ => call_head f | _ => c end.
(** Splits a call into its statements; a statement on another table keeps both
    the log and the deliveries. *)
Ltac waits_step :=
  lazymatch goal with
  | |- keeps _ (db_bind _ _) => apply keeps_bind; [|intros ?]
  | |- keeps _ (db_transaction _) => apply keeps_transaction
  | |- keeps _ (db_for _ _ _) => apply keeps_for; intros ? ?
  | |- keeps _ (db_each _ _) => apply keeps_each; intros ?
  | |- keeps _ (append _ _ _ _ _ _ _) => apply keeps_append
  | |- keeps _ (insert_or_ignore deliveries _ _) => apply keeps_insert_delivery
  | |- keeps _ (db_ret _) => apply keeps_ret
  | |- keeps _ (db_fail _) => apply keeps_fail
  | |- keeps _ (db_read _) => apply keeps_read
  | |- keeps _ (db_lift _) => apply keeps_lift
  | |- keeps _ (db_write _) => apply keeps_write; intros ? H; exact H
  | |- keeps _ (execute _ _ _) => intros ? H; exact H
  | |- keeps _ (insert_or_ignore _ _ _) => intros ? H; exact H
  | |- keeps _ (draw_id _) => intros ? H; exact H
  | |- keeps _ (db_query _) => apply keeps_query
  | |- keeps _ (match ?x with _ => _ end) => destruct x
  | |- keeps _ (fun _ => (Ok _, _)) => intros ? H; exact H
  | |- keeps _ ?c => let h := call_head c in unfold h; cbv zeta
  end.
Ltac solve_waits := repeat waits_step.

Lemma step_waits op : acknowledges consumer e op = false -> keeps waits (step op).
Proof.
  destruct op; intros Hn; cbn [step]; unfold done;
    lazymatch goal with
    | |- keeps _ (db_bind (acknowledge _ _) _) => apply keeps_bind; [by apply keeps_acknowledge|auto with keeps]
    | |- keeps _ (db_bind (acknowledge_through _ _) _) =>
        apply keeps_bind; [by apply keeps_acknowledge_through|auto with keeps]
    | _ => solve_waits
    end.
Qed.
End waits.
Lemma after_waits consumer e ops db :
  Forall (fun op => acknowledges consumer e op = false) ops -> waits consumer e db -> waits consumer e (after ops db).
Proof.
  intros Hops. revert db. induction Hops as [|op ops Hop _ IH]; intros db Hw; [done|]. cbn [after foldl]. apply IH.
  by apply keeps_run; [apply step_waits|].
Qed.

(** ** Acknowledging takes effect *)

Lemma delivery_of_execute consumer id p now db d :
  delivery_of db consumer id = Some d ->
  delivery_of (snd (execute deliveries p (acknowledge_at now) db)) consumer id =
    Some (if p d then acknowledge_at now d else d).
Proof.
  intros Hd. unfold delivery_of in *. cbn [execute snd tm_deliveries put_deliveries t_put t_rows deliveries].
  by rewrite sql_first_update, Hd by done.
Qed.

Lemma acknowledge_all consumer id now l s db d :
  delivery_of db consumer id = Some d -> id ∈ l \/ unacknowledged d = false ->
  exists d', delivery_of (snd (db_for (fun acknowledged event_id =>
      let! changed := execute deliveries (fun d => by_delivery event_id consumer d && unacknowledged d)
                        (acknowledge_at now) in
      db_ret (acknowledged + changed)) s l db)) consumer id = Some d' /\ unacknowledged d' = false.
Proof.
  revert s db d. induction l as [|x l IH]; intros s db d Hd Hor.
  { exists d. destruct Hor as [H|H]; [by apply not_elem_of_nil in H|done]. }
  pose proof Hd as [_ [Hdi Hdc]%by_delivery_spec]%sql_first_some.
  apply (delivery_of_execute _ _ (fun d => by_delivery x consumer d && unacknowledged d) now) in Hd.
  cbn [db_for]. unfold db_bind at 1 2. cbn [execute db_ret]. eapply IH; [exact Hd|].
  destruct (unacknowledged d) eqn:Eu; [|by rewrite andb_false_r; right].
  destruct Hor as [[->|Hin]%elem_of_cons|]; [|by left|done]. right.
  by rewrite (proj2 (by_delivery_spec x consumer d)).
Qed.

Lemma acknowledging_takes consumer e op db :
  e ∈ tm_events db -> acknowledges consumer e op = true -> is_Some (delivery_of db consumer (ev_event_id e)) ->
  acknowledged_by (after [op] db) consumer e = true.
Proof.
  intros He Hop [d Hd]. unfold acknowledged_by. destruct op; try done; cbn [acknowledges] in Hop;
    apply andb_true_iff in Hop as [->%bool_decide_eq_true Hop]; cbn [after foldl step]; unfold done.
  - apply bool_decide_eq_true in Hop.
    destruct (acknowledge_all consumer _ (tm_now db) event_ids 0 db d Hd (or_introl Hop)) as (d' & Hd' & Hu).
    unfold acknowledge, db_bind at 1, db_bind at 1, db_read. destruct (db_for _ _ _ _) as [[n|err] db'] eqn:E;
      cbn [snd db_ret] in *; by rewrite Hd', Hu.
  - apply Z.leb_le in Hop. unfold acknowledge_through, db_bind, db_read. cbn [execute db_ret snd].
    set (through := _ <$> _).
    pose proof (delivery_of_execute consumer (ev_event_id e) (fun d => bool_decide (dl_consumer_key d = consumer)
      && unacknowledged d && bool_decide (dl_event_id d ∈ through)) (tm_now db) db d Hd) as Ha.
    cbn [execute snd] in Ha. rewrite Ha. apply sql_first_some in Hd as [_ [Hdi Hdc]%by_delivery_spec].
    rewrite (bool_decide_true (dl_consumer_key d = consumer)) by done.
    assert (Ht : dl_event_id d ∈ through).
    { rewrite Hdi. apply (list_elem_of_fmap_2 ev_event_id), sql_where_elem. split; [done|]. by apply Z.leb_le. }
    rewrite (bool_decide_true _ Ht), andb_true_r. by destruct (unacknowledged d) eqn:Eu; [|cbn; rewrite Eu].
Qed.

(** ** Pages *)

Lemma cursor_inj events x y : cursors_increase events -> x ∈ events -> y ∈ events -> ev_cursor x = ev_cursor y -> x = y.
Proof.
  intros [Hs _] (i & Hi)%list_elem_of_lookup (j & Hj)%list_elem_of_lookup E.
  assert (Hlt : forall i j x y, events !! i = Some x -> events !! j = Some y -> i < j -> (ev_cursor x < ev_cursor y)%Z).
  { intros a b u v Hu Hv Hab. eapply (StronglySorted_lookup_lt Z.lt (ev_cursor <$> events) a b); [done|..|done];
      by rewrite list_lookup_fmap, ?Hu, ?Hv. }
  destruct (Nat.lt_trichotomy i j) as [H|[->|H]]; [|congruence|]; pose proof (Hlt _ _ _ _ Hi Hj);
    pose proof (Hlt _ _ _ _ Hj Hi); lia.
Qed.

(** A page of rows sorted by one integer holds a row, or is full of rows before it. *)
Lemma page_holds_or_precedes {A} (f : A -> Z) (l : list A) (n : nat) (x : A) :
  (forall y, y ∈ l -> f y = f x -> y = x) -> x ∈ l ->
  let page := take n (sort_by_key (fun x => [f x]) l) in
  x ∈ page \/ length page = n /\ forall y, y ∈ page -> y ∈ l /\ (f y < f x)%Z.
Proof.
  intros Hf Hx page. unfold page. set (s := sort_by_key _ l).
  assert (Hl : forall y, y ∈ take n s -> y ∈ l).
  { intros y (i & Hi & _)%elem_of_take. apply list_elem_of_lookup_2 in Hi. unfold s in Hi. by rewrite sort_by_key_perm in Hi. }
  destruct (decide (f x ∈ f <$> take n s)) as [(y & E & Hy)%list_elem_of_fmap|Hn].
  { left. by rewrite <- (Hf y (Hl y Hy)). }
  right. assert (Hs : x ∈ s) by (unfold s; by rewrite sort_by_key_perm). apply list_elem_of_lookup in Hs as (j & Hj).
  destruct (decide (j < n)) as [Hlt|Hge].
  { destruct Hn. apply list_elem_of_fmap_2, list_elem_of_lookup. exists j. by rewrite lookup_take_lt. }
  pose proof (lookup_lt_Some _ _ _ Hj). split; [rewrite length_take; lia|]. intros y Hy. split; [by apply Hl|].
  apply Z.le_neq. split; [|intros E; apply Hn; rewrite <- E; by apply list_elem_of_fmap_2].
  apply elem_of_take in Hy as (i & Hi & Hin).
  apply (StronglySorted_lookup_lt (fun a b => f a <= f b)%Z s i j); [apply sort_by_int_sorted|done..|lia].
Qed.

(** What is not on any page of a reader: the events it acknowledged. *)
Lemma page_elem db consumer root cursor limit task_ids session_ids x :
  x ∈ fst ∘ fst <$> events_for_targets db consumer root cursor limit false task_ids session_ids ->
  (cursor < ev_cursor x)%Z /\ acknowledged_by db consumer x = false.
Proof.
  unfold events_for_targets, events_for_targets_filtered. rewrite <- list_fmap_compose.
  intros (y & -> & Hy)%list_elem_of_fmap. cbn. apply elem_of_take in Hy as (i & Hi%list_elem_of_lookup_2 & _).
  unfold sql_order in Hi. rewrite sort_by_key_perm in Hi. apply sql_where_elem in Hi as [_ Hp].
  apply andb_true_iff in Hp as [[[Hc%Z.ltb_lt Ha]%andb_true_iff _]%andb_true_iff _].
  split; [done|by apply negb_true_iff].
Qed.

(** C15. The log of events only grows, and an event stays readable until its reader
    acknowledges it. As long as no call of this reader names the event's id or a
    cursor that reaches it, whatever other readers acknowledge, every page the
    reader asks for from a cursor before the event holds it, or is a full page of
    earlier unacknowledged events, so that the next page starts closer to it. Once
    the event was delivered, a call that does name it takes it off every page. *)
Theorem unacknowledged_event_stays_readable (ops : list TeamOp) (db : TeamDb) (e : DelegationTaskEvent)
    (consumer : str) (root : ident) (cursor : Z) (limit : nat) (task_ids session_ids : list ident) :
  let db' := after ops db in
  let page db := fst ∘ fst <$> events_for_targets db consumer root cursor limit false task_ids session_ids in
  sound db -> NoDup (ev_event_id <$> tm_events db) -> e ∈ tm_events db ->
  targeted root task_ids session_ids e = true -> (cursor < ev_cursor e)%Z ->
  acknowledged_by db consumer e = false -> Forall (fun op => acknowledges consumer e op = false) ops ->
  tm_events db `prefix_of` tm_events db' /\
  (e ∈ page db' \/ length (page db') = event_limit limit /\
     forall x, x ∈ page db' -> (cursor < ev_cursor x < ev_cursor e)%Z /\ acknowledged_by db' consumer x = false) /\
  (forall op, acknowledges consumer e op = true -> is_Some (delivery_of db' consumer (ev_event_id e)) ->
     e ∉ page (after [op] db')).
Proof.
  intros db' page Hs Hd He Ht Hc Ha0 Hops.
  destruct (after_waits consumer e ops db Hops) as (_ & He' & Ha); [by split_and!|]. fold db' in He', Ha.
  pose proof (ev_events _ _ _ _ (after_evolves ops db)) as Hpre. split; [done|].
  split; [|intros op Hop Hdel [_ Hx]%page_elem; by rewrite (acknowledging_takes _ _ _ _ He' Hop Hdel) in Hx].
  pose proof (so_events _ _ (after_sound ops db Hs)) as Hord. fold db' in Hord.
  set (p := fun e => (cursor <? ev_cursor e)%Z && (false || negb (acknowledged_by db' consumer e))
       && targeted root task_ids session_ids e && (negb false || is_wait_signal db' e)).
  assert (Hpage : page db' = take (event_limit limit) (sort_by_key (fun e => [ev_cursor e]) (sql_where p (tm_events db')))).
  { unfold page, events_for_targets, events_for_targets_filtered. rewrite <- list_fmap_compose. apply list_fmap_id. }
  assert (Hin : e ∈ sql_where p (tm_events db')).
  { apply sql_where_elem. split; [done|]. unfold p. rewrite Ha, Ht. simpl. rewrite !andb_true_r. by apply Z.ltb_lt. }
  assert (Hu : forall x, x ∈ sql_where p (tm_events db') -> ev_cursor x = ev_cursor e -> x = e).
  { intros x [Hx _]%sql_where_elem. by apply (cursor_inj _ _ _ Hord). }
  destruct (page_holds_or_precedes ev_cursor _ (event_limit limit) e Hu Hin) as [?|[Hl Hle]]; [by left; rewrite Hpage|].
  right. rewrite Hpage. split; [done|]. intros x Hx. rewrite <- Hpage in Hx. apply page_elem in Hx as Hpx.
  split; [|apply Hpx]. split; [apply Hpx|]. rewrite Hpage in Hx. by apply Hle.
Qed.
