(* ===== verification/TeamRounds.v ===== *)
(** What the end of a round makes of its task: the settlement of
    db/src/vibex_use.rs never fails half way, moves the task its round is the
    current one of by the outcome, and leaves every other task alone. *)
From stdpp Require Import prelude strings list gmap.
From Stdlib Require Import NArith ZArith Lia.
From S2P Require Import Prelude CoreTypes Rows Storage Ir Json Team TeamStore TeamWork TeamHistory.

(** ** Calls that answer and keep one task *)

(** What a settlement may change of a task, and the parts it works on. *)
Definition core (t : AgentDelegation) : TaskTerms * TaskProgress * option ident :=
  (ad_terms t, ad_progress t, tw_current_execution_id (ad_work t)).
Definition task_at (now : Z) (id : ident) (k : TaskTerms * TaskProgress * option ident) (db : TeamDb) : Prop :=
  tm_now db = now /\ core <$> delegation_get db id = Some k.
Definition runs (K : TeamDb -> Prop) {A} (c : db_call TeamDb A) : Prop :=
  forall db, K db -> exists a db', c db = (Ok a, db') /\ K db'.

(** Appending an event always answers and writes the log alone. *)
Lemma append_spec event_id root kind task_id session_id revision payload db :
  exists e rows, VibexUseEvent.append event_id root kind task_id session_id revision payload db = (Ok e, put_events rows db).
Proof.
  unfold VibexUseEvent.append, db_bind, db_read, insert_or_ignore.
  destruct (VibexUseEvent.event_get db event_id) as [e|] eqn:E; [exists e, (tm_events db); by destruct db|]. cbn [t_rows t_put events].
  set (e := mkEvent _ _ _ _ _ _ _ _ _). unfold VibexUseEvent.event_get in *. cbn.
  unfold sql_insert_or_ignore. destruct (existsb _ _) eqn:Ex.
  - apply existsb_elem in Ex as (x & Hx & Hp). by rewrite (sql_first_none _ _ _ E Hx) in Hp.
  - rewrite sql_first_app, E. unfold sql_first, VibexUseEvent.by_event. simpl. rewrite bool_decide_true by done.
    by eexists _, _.
Qed.

Section runs.
Context (now : Z) (id : ident) (k : TaskTerms * TaskProgress * option ident).
Notation runs := (runs (task_at now id k)).

Lemma runs_ret {A} (a : A) : runs (db_ret a).
Proof. intros db H. by exists a, db. Qed.
Lemma runs_read {A} (f : TeamDb -> A) : runs (db_read f).
Proof. intros db H. by exists (f db), db. Qed.
Lemma runs_bind {A B} (c : db_call TeamDb A) (f : A -> db_call TeamDb B) :
  runs c -> (forall a, runs (f a)) -> runs (db_bind c f).
Proof. intros Hc Hf db H. unfold db_bind. destruct (Hc db H) as (a & db' & -> & H'). by apply Hf. Qed.
Lemma runs_each {A} (f : A -> db_call TeamDb unit) l : (forall x, runs (f x)) -> runs (db_each f l).
Proof.
  intros Hf. unfold db_each. induction l as [|x l IH]; simpl; [apply runs_ret|].
  apply runs_bind; [apply Hf|]. by intros [].
Qed.
(** A call that writes other tables. *)
Lemma runs_other {A} (c : db_call TeamDb A) :
  (forall db, exists a db', c db = (Ok a, db') /\ tm_tasks db' = tm_tasks db /\ tm_now db' = tm_now db) -> runs c.
Proof.
  intros Hc db [Hn Hk]. destruct (Hc db) as (a & db' & E & Ht & Hn'). exists a, db'. split; [done|].
  unfold task_at, delegation_get. rewrite Ht, Hn'. by split.
Qed.
Lemma runs_executions p f : runs (execute executions p f).
Proof. apply runs_other. intros db. by eexists _, _. Qed.
Lemma runs_operations p f : runs (execute operations p f).
Proof. apply runs_other. intros db. by eexists _, _. Qed.
Lemma runs_controllers p f : runs (execute controllers p f).
Proof. apply runs_other. intros db. by eexists _, _. Qed.
Lemma runs_ensure s : runs (SessionControllers.ensure s).
Proof.
  apply runs_other. intros db. destruct (ensure_spec s db) as (c & db' & E & _). exists c, db'. split; [done|].
  unfold SessionControllers.ensure, db_bind, db_read, insert_or_ignore in E. cbv beta iota in E.
  destruct (controller_get _ s) in E; [|done]. by injection E as _ <-.
Qed.
Lemma runs_release s task_id : runs (SessionControllers.release s task_id).
Proof.
  unfold SessionControllers.release. apply runs_bind; [apply runs_read|]. intros n.
  apply runs_bind; [apply runs_controllers|]. intros _. apply runs_ensure.
Qed.
Lemma runs_append event_id root kind task_id session_id revision payload :
  runs (VibexUseEvent.append event_id root kind task_id session_id revision payload).
Proof.
  apply runs_other. intros db. destruct (append_spec event_id root kind task_id session_id revision payload db) as (e & rows & ->).
  by eexists _, _.
Qed.
Lemma runs_tasks p f : (forall t, core (f t) = core t) -> runs (execute tasks p f).
Proof.
  intros Hf db [Hn Hk]. eexists _, _. split; [done|]. split; [done|]. unfold delegation_get. cbn [tm_tasks put_tasks t_put t_rows tasks].
  rewrite sql_first_update.
  - unfold delegation_get in Hk. destruct (sql_first (by_task id) (tm_tasks db)) as [t|]; [|done].
    rewrite <- Hk. simpl. destruct (p t); [by rewrite Hf|done].
  - intros t _. pose proof (Hf t) as H. injection H as H _ _. unfold by_task, ad_id. by rewrite H.
Qed.
(** A transition of another task. *)
Lemma runs_transition_other id' phase summary code :
  id' <> id -> runs (Delegations.transition_delegation id' phase summary code).
Proof.
  intros Hd. unfold Delegations.transition_delegation. apply runs_bind; [apply runs_read|]. intros n.
  apply runs_bind; [|intros; apply runs_read]. intros db [Hn Hk]. eexists _, _. split; [done|]. split; [done|].
  rewrite <- Hk. f_equal. unfold delegation_get. cbn [tm_tasks put_tasks t_put t_rows tasks]. rewrite sql_first_update by done.
  destruct (sql_first (by_task id) (tm_tasks db)) as [t|] eqn:E; [|done]. simpl.
  apply sql_first_some in E as [_ E]. unfold by_task in *. apply bool_decide_eq_true in E.
  by rewrite E, bool_decide_false.
Qed.
End runs.
Create HintDb runs.
#[export] Hint Resolve runs_ret runs_read runs_executions runs_operations runs_controllers runs_ensure runs_release
  runs_append : runs.
Ltac runs_step :=
  match goal with
  | |- runs _ (db_bind _ _) => apply runs_bind; [|intros ?]
  | |- runs _ (db_each _ _) => apply runs_each; intros ?
  | |- runs _ (execute tasks _ _) => apply runs_tasks; done
  | |- runs _ (match ?x with _ => _ end) => destruct x eqn:?
  | |- runs _ _ => solve [auto with runs]
  end.
Ltac solve_runs := repeat runs_step.

(** ** The parts of a settlement *)

Section parts.
Context (now : Z) (id : ident) (k : TaskTerms * TaskProgress * option ident).
Notation runs := (runs (task_at now id k)).

Lemma runs_task_blocked id' b : runs (Delegations.set_delegation_blocked_on id' b).
Proof. unfold Delegations.set_delegation_blocked_on. solve_runs. Qed.
Lemma runs_result_ref id' r : runs (Delegations.append_delegation_result_ref id' r).
Proof. unfold Delegations.append_delegation_result_ref. solve_runs. Qed.
Lemma runs_error_code id' code : runs (Executions.set_error_code id' code).
Proof. unfold Executions.set_error_code. solve_runs. Qed.
Lemma runs_announce_result t e : runs (Rounds.announce_result t e).
Proof. unfold Rounds.announce_result. solve_runs. Qed.
Lemma runs_announce_end t : runs (Rounds.announce_end t).
Proof. unfold Rounds.announce_end. solve_runs. Qed.
Hint Resolve runs_task_blocked runs_result_ref runs_error_code runs_announce_result runs_announce_end : runs.

(** A task that is not being cancelled is not settled by a cancellation. *)
Context (uncancelled : forall t, core t = k -> phase t <> TaskCancelling).
Lemma runs_settle_task id' : runs (Cancellation.settle_task id').
Proof.
  destruct (decide (id' = id)) as [->|Hd].
  - intros db H. exists tt, db. split; [|done]. destruct H as [_ Hk]. unfold Cancellation.settle_task, db_bind, db_read.
    destruct (delegation_get db id) as [t|]; [|done]. injection Hk as Hk. apply uncancelled in Hk.
    by rewrite (bool_decide_false (phase t = TaskCancelling)).
  - unfold Cancellation.settle_task. solve_runs. by apply runs_transition_other.
Qed.
Lemma runs_settle_dependents id' : runs (Cancellation.settle_dependents id').
Proof. unfold Cancellation.settle_dependents. solve_runs. apply runs_settle_task. Qed.
End parts.
#[export] Hint Resolve runs_task_blocked runs_result_ref runs_error_code runs_announce_result runs_announce_end : runs.

(** The certain end of a round, and what a stop that was asked for makes of it. *)
Definition certain (db : TeamDb) (completed : DelegationExecution) : bool :=
  match submission_get db (ex_submission_id completed) with
  | Some s => submission_is_terminal (sb_status s)
  | None => false
  end && negb (bool_decide (ex_outcome completed = OutAmbiguous)).
Definition interrupted (db : TeamDb) (completed : DelegationExecution) : bool :=
  negb (cancellation_requested db (ex_id completed)) && certain db completed
  && Interrupts.is_requested db (ex_id completed).
Definition final_outcome (db : TeamDb) (completed stored : DelegationExecution) : ExecutionOutcome :=
  if negb (open_round stored) then ex_outcome stored
  else if (cancellation_requested db (ex_id completed) && certain db completed) || interrupted db completed
  then OutCancelled else ex_outcome completed.
Definition final_summary (completed stored : DelegationExecution) : option str :=
  if open_round stored then xr_summary (ex_result completed) else xr_summary (ex_result stored).

(** The progress of the task after its round ended. *)
Definition progress_after (db : TeamDb) (completed stored : DelegationExecution) (t : AgentDelegation) : TaskProgress :=
  if negb (phase_is_terminal (phase t)) && bool_decide (tw_current_execution_id (ad_work t) = Some (ex_id completed))
  then Delegations.move_phase
         (Rounds.phase_after t (final_outcome db completed stored) false (interrupted db completed))
         (final_summary completed stored) (xr_error_code (ex_result completed)) (tm_now db) (ad_progress t)
  else ad_progress t.

Lemma phase_of_progress t t' : ad_progress t' = ad_progress t -> phase t' = phase t.
Proof. unfold phase. by intros ->. Qed.
Lemma phase_after_open t o i : phase t <> TaskCancelling -> Rounds.phase_after t o false i <> TaskCancelling.
Proof. unfold Rounds.phase_after. destruct i; [done|]. intros _. destruct o; try done; by case_bool_decide. Qed.

Lemma settle_row id db o st su rr ar us tr en fi e :
  sql_first (by_execution id) (tm_executions db) = Some e ->
  exists e' db', Executions.settle id o st su rr ar us tr en fi db = (Ok (Some e'), db') /\
    tm_tasks db' = tm_tasks db /\ tm_now db' = tm_now db /\ ex_id e' = id /\
    ex_outcome e' = (if open_round e then o else ex_outcome e) /\
    xr_summary (ex_result e') = (if open_round e then su else xr_summary (ex_result e)).
Proof.
  intros He. unfold Executions.settle, db_bind, execute, db_read. cbn [t_rows t_put executions].
  unfold execution_get. cbn [tm_executions put_executions]. rewrite sql_first_update by done. rewrite He.
  apply sql_first_some in He as [_ He]. unfold by_execution in *. cbn [fmap option_fmap option_map].
  rewrite He. apply bool_decide_eq_true in He.
  eexists _, _. split; [done|]. split; [done|]. split; [done|].
  unfold with_usage. destruct (open_round e); simpl; (case_match; split_and!; done).
Qed.

Lemma transition_row id phase su code db t :
  delegation_get db id = Some t -> Delegations.may_move phase (ad_progress t) = true ->
  let t' := with_progress (Delegations.move_phase phase su code (tm_now db) (ad_progress t)) (tm_now db) t in
  exists db', Delegations.transition_delegation id phase su code db = (Ok (Some t'), db') /\
    delegation_get db' id = Some t' /\ tm_now db' = tm_now db.
Proof.
  intros Ht Hm t'. set (p := fun t => by_task id t && Delegations.may_move phase (ad_progress t)).
  set (f := fun t => with_progress (Delegations.move_phase phase su code (tm_now db) (ad_progress t)) (tm_now db) t).
  assert (Hg : delegation_get (put_tasks (sql_update p f (tm_tasks db)) db) id = Some t').
  { unfold delegation_get in *. cbn [tm_tasks put_tasks]. rewrite sql_first_update by done. rewrite Ht.
    apply sql_first_some in Ht as [_ Ht]. cbn [fmap option_fmap option_map]. unfold p. by rewrite Ht, Hm. }
  exists (put_tasks (sql_update p f (tm_tasks db)) db). split; [|done]. rewrite <- Hg. done.
Qed.

Lemma transition_spec now id terms p cur phase su code db :
  task_at now id (terms, p, cur) db -> Delegations.may_move phase p = true ->
  exists t' db', Delegations.transition_delegation id phase su code db = (Ok (Some t'), db') /\
    core t' = (terms, Delegations.move_phase phase su code now p, cur) /\ task_at now id (core t') db'.
Proof.
  intros [<- Hk] Hm. destruct (delegation_get db id) as [t|] eqn:Ht; [|done]. injection Hk as H1 H2 H3. subst.
  destruct (transition_row id phase su code db t Ht Hm) as (db' & E & Hg & Hn). eexists _, db'. split; [exact E|].
  split; [done|]. split; [done|]. by rewrite Hg.
Qed.

(** Calls that answer in some later state of the task. *)
Lemma runs_after {A B} now id k k' (c : db_call TeamDb A) (f : A -> db_call TeamDb B) db :
  (exists a db', c db = (Ok a, db') /\ task_at now id k' db') -> (forall a, runs (task_at now id k') (f a)) ->
  task_at now id k db -> exists b db', db_bind c f db = (Ok b, db') /\ task_at now id k' db'.
Proof. intros (a & db1 & E & Hk) Hf _. unfold db_bind. rewrite E. by apply Hf. Qed.

Section advance.
Context (now : Z) (id : ident) (t : AgentDelegation) (e : DelegationExecution) (code : option str) (stop : bool).
Context (agrees : task_agrees t) (uncancelled : phase t <> TaskCancelling) (is_task : ad_id t = id).
(** The task's progress once [e] ended. *)
Definition advanced : TaskProgress :=
  if negb (phase_is_terminal (phase t)) && bool_decide (tw_current_execution_id (ad_work t) = Some (ex_id e))
  then Delegations.move_phase (Rounds.phase_after t (ex_outcome e) false stop) (xr_summary (ex_result e)) code now
         (ad_progress t)
  else ad_progress t.
Definition advanced_core := (ad_terms t, advanced, tw_current_execution_id (ad_work t)).

Lemma may_advance :
  phase_is_terminal (phase t) = false ->
  Delegations.may_move (Rounds.phase_after t (ex_outcome e) false stop) (ad_progress t) = true.
Proof.
  unfold Delegations.may_move. rewrite (phase_agrees t agrees) in *. intros ->. by rewrite bool_decide_false.
Qed.

Lemma advance_task_spec db :
  task_at now id (core t) db ->
  exists t' db', Rounds.advance_task t e code false stop db = (Ok t', db') /\ task_at now id advanced_core db'.
Proof.
  intros Hk. unfold Rounds.advance_task, advanced_core, advanced, db_bind at 1, db_read at 1. cbn [andb].
  destruct (negb (phase_is_terminal (phase t)) && bool_decide (tw_current_execution_id (ad_work t) = Some (ex_id e)))
    eqn:Ec; [|by exists t, db].
  apply andb_true_iff in Ec as [Ht%negb_true_iff _]. subst id.
  unfold db_bind at 1. destruct (runs_task_blocked now (ad_id t) (core t) (ad_id t) None db Hk) as ([] & db1 & -> & Hk1).
  destruct (transition_spec _ _ _ _ _ _ (xr_summary (ex_result e)) code _ Hk1 (may_advance Ht)) as (t' & db2 & E & Hc & Hk2).
  unfold db_bind at 1. rewrite E. cbn [default from_option Datatypes.id]. rewrite Hc in Hk2. clear E.
  destruct (phase_is_terminal (phase t')); [|by exists t', db2].
  revert db2 Hk2. apply runs_bind; auto with runs.
Qed.
End advance.

(** ** The settlement of a round *)

Lemma bind_read {A B} (f : TeamDb -> A) (k : A -> db_call TeamDb B) db : db_bind (db_read f) k db = k (f db) db.
Proof. done. Qed.

Lemma publish_spec now id t completed e stop db :
  task_agrees t -> phase t <> TaskCancelling -> ad_id t = id -> task_at now id (core t) db ->
  exists db', Rounds.publish_settled completed e (Some t) false stop db = (Ok tt, db') /\
    task_at now id (advanced_core now t e (xr_error_code (ex_result completed)) stop) db'.
Proof.
  intros Ha Hu Hi Hk. unfold Rounds.publish_settled. unfold db_bind at 1.
  assert (exists db1, match xr_error_code (ex_result completed) with
                      | Some code => let! _ := Executions.set_error_code (ex_id completed) code in db_ret tt
                      | None => db_ret tt
                      end db = (Ok tt, db1) /\ task_at now id (core t) db1) as (db1 & -> & Hk1).
  { assert (forall c : option str, runs (task_at now id (core t)) match c with
                      | Some code => let! _ := Executions.set_error_code (ex_id completed) code in db_ret tt
                      | None => db_ret tt
                      end) as H by (intros c; solve_runs).
    destruct (H (xr_error_code (ex_result completed)) db Hk) as ([] & db1 & E & Hk1). by exists db1. }
  unfold db_bind at 1.
  destruct (runs_result_ref now id (core t) (ad_id t) (result_ref e) db1 Hk1) as (r & db2 & -> & Hk2).
  unfold db_bind at 1.
  destruct (advance_task_spec now id t e (xr_error_code (ex_result completed)) stop Ha Hu Hi db2 Hk2) as (t' & db3 & -> & Hk3).
  destruct (runs_announce_result _ _ _ t' e db3 Hk3) as ([] & db4 & E & Hk4).
  by exists db4.
Qed.

(** The phase a task was moved to is the phase it has. *)
Lemma moved_phase t ph su code now p : ad_progress t = Delegations.move_phase ph su code now p -> phase t = ph.
Proof. intros H. unfold phase. rewrite H. by destruct ph. Qed.
Lemma progress_after_open db completed stored t t' :
  phase t <> TaskCancelling -> ad_progress t' = progress_after db completed stored t -> phase t' <> TaskCancelling.
Proof.
  intros Hu. unfold progress_after. case_match.
  - intros ->%moved_phase. by apply phase_after_open.
  - by intros ->%phase_of_progress.
Qed.
Lemma settlement_spec completed stored id t db :
  task_agrees t -> phase t <> TaskCancelling -> delegation_get db id = Some t -> ex_task_id completed = Some id ->
  sql_first (by_execution (ex_id completed)) (tm_executions db) = Some stored ->
  exists e db', Rounds.settle_vibex_use_execution completed db = (Ok (Some e), db') /\
    ex_id e = ex_id completed /\ ex_outcome e = final_outcome db completed stored /\
    task_at (tm_now db) id (ad_terms t, progress_after db completed stored t, tw_current_execution_id (ad_work t)) db'.
Proof.
  intros Ha Hu Ht Hi He. unfold Rounds.settle_vibex_use_execution, db_transaction. rewrite !bind_read, Hi.
  cbn [mbind option_bind]. rewrite Ht. cbv beta iota. rewrite (bool_decide_false (phase t = TaskCancelling)) by done.
  cbn [orb]. fold (certain db completed) (interrupted db completed).
  match goal with |- context [Executions.settle _ ?o ?st ?su ?rr ?ar ?us ?tr ?en ?fi] =>
    destruct (settle_row _ db o st su rr ar us tr en fi stored He) as (e & db1 & Es & Htasks & Hnow & Hid & Ho & Hsu) end.
  unfold db_bind at 1. rewrite Es. clear Es.
  assert (Hk : task_at (tm_now db) id (core t) db1).
  { split; [done|]. unfold delegation_get. rewrite Htasks. fold (delegation_get db id). by rewrite Ht. }
  assert (Hti : ad_id t = id).
  { apply sql_first_some in Ht as [_ Ht]. unfold by_task in Ht. by apply bool_decide_eq_true in Ht. }
  destruct (publish_spec _ id t completed e (interrupted db completed) db1 Ha Hu Hti Hk) as (db2 & Hp & Hk2).
  unfold db_bind at 1. rewrite Hp. clear Hp.
  unfold advanced_core, advanced in Hk2. rewrite Hid, Ho, Hsu in Hk2.
  assert (Hf : (if open_round stored
                then if (cancellation_requested db (ex_id completed) && certain db completed) || interrupted db completed
                     then OutCancelled else ex_outcome completed
                else ex_outcome stored) = final_outcome db completed stored)
    by (unfold final_outcome; by destruct (open_round stored)).
  rewrite Hf in Hk2, Ho. fold (final_summary completed stored) (progress_after db completed stored t) in Hk2.
  edestruct (fun k H => runs_settle_dependents (tm_now db) id k H (ex_id completed) db2) as ([] & db3 & E & Hk3);
    [|exact Hk2|].
  - intros t' [= _ Hpr _]. by apply (progress_after_open db completed stored t t').
  - unfold db_bind. rewrite E. by exists e, db3.
Qed.

Lemma reviewed_is_not_completed db completed stored t t' :
  ad_progress t' = progress_after db completed stored t -> tt_completion_policy (ad_terms t) = OwnerReview ->
  phase t' = TaskCompleted -> phase t = TaskCompleted.
Proof.
  intros Hp Hr. unfold progress_after in Hp. case_match; [|by rewrite <- (phase_of_progress _ _ Hp)].
  rewrite (moved_phase _ _ _ _ _ _ Hp). unfold Rounds.phase_after. rewrite Hr, bool_decide_true by done.
  destruct (interrupted db completed); [done|by destruct (final_outcome db completed stored)].
Qed.

(** The phase the end of its current round moves a task to: an interrupted task
    stays where it is and waits for more, a cancelled or failed round ends it, and
    any other end completes it or hands it to its owner for review. *)
Inductive round_moves (stopped : bool) (policy : DelegationCompletionPolicy) (old : DelegationTaskPhase)
  : ExecutionOutcome -> DelegationTaskPhase -> Prop :=
| interrupted_waits o : stopped = true -> round_moves stopped policy old o old
| cancelled_ends : stopped = false -> round_moves stopped policy old OutCancelled TaskCancelled
| failed_ends o : stopped = false -> o ∈ [OutFailed; OutAuthRequired; OutAmbiguous] ->
    round_moves stopped policy old o TaskFailed
| done_is_reviewed o : stopped = false -> o ∉ [OutCancelled; OutFailed; OutAuthRequired; OutAmbiguous] ->
    policy = OwnerReview -> round_moves stopped policy old o TaskAwaitingReview
| done_completes o : stopped = false -> o ∉ [OutCancelled; OutFailed; OutAuthRequired; OutAmbiguous] ->
    policy <> OwnerReview -> round_moves stopped policy old o TaskCompleted.

(** What the move writes in the task besides the phase. *)
Definition moved_progress (now : Z) (summary code : option str) (p p' : TaskProgress) : Prop :=
  tp_revision p' = (tp_revision p + 1)%Z /\
  tp_error_code p' = code /\
  tp_result_summary p' = match summary with Some s => Some s | None => tp_result_summary p end /\
  tp_cancellation_requested_at_ms p' = tp_cancellation_requested_at_ms p /\
  tp_finished_at_ms p' = if bool_decide (tp_phase p' ∈ [TaskCompleted; TaskFailed; TaskCancelled])
                         then Some (default now (tp_finished_at_ms p)) else tp_finished_at_ms p.

Lemma phase_after_moves t o stop :
  round_moves stop (tt_completion_policy (ad_terms t)) (phase t) o (Rounds.phase_after t o false stop).
Proof.
  unfold Rounds.phase_after. destruct stop; [by apply interrupted_waits|].
  destruct o; first [by apply cancelled_ends|by apply failed_ends; [|set_solver]
    |case_bool_decide; [apply done_is_reviewed|apply done_completes]; set_solver].
Qed.
Lemma move_phase_progress now su code ph p :
  ph <> TaskCancelling ->
  tp_phase (Delegations.move_phase ph su code now p) = ph /\
  moved_progress now su code p (Delegations.move_phase ph su code now p).
Proof. intros Hp. split; [done|]. unfold moved_progress. by destruct ph. Qed.

(** C13. The end of a round of a task that is not being cancelled is settled whole or
    not at all, and keeps a result that was fixed before. A finished task, and a
    task whose current round is another, stay as they were; any other task moves
    to the phase of the table above, one revision on, with the summary and error
    code of the round. No round completes a task its owner reviews. *)
Theorem settled_round_moves_its_task (db : TeamDb) (completed stored : DelegationExecution) (id : ident)
    (t : AgentDelegation) :
  sound db -> delegation_get db id = Some t -> phase t <> TaskCancelling -> ex_task_id completed = Some id ->
  sql_first (by_execution (ex_id completed)) (tm_executions db) = Some stored ->
  exists e db' t', Rounds.settle_vibex_use_execution completed db = (Ok (Some e), db') /\
    ex_id e = ex_id completed /\ ex_outcome e = final_outcome db completed stored /\
    delegation_get db' id = Some t' /\ ad_terms t' = ad_terms t /\
    (phase t ∈ [TaskCompleted; TaskFailed; TaskCancelled] \/
     tw_current_execution_id (ad_work t) <> Some (ex_id completed) -> ad_progress t' = ad_progress t) /\
    (phase t ∉ [TaskCompleted; TaskFailed; TaskCancelled] ->
     tw_current_execution_id (ad_work t) = Some (ex_id completed) ->
     round_moves (interrupted db completed) (tt_completion_policy (ad_terms t)) (phase t)
       (final_outcome db completed stored) (phase t') /\
     moved_progress (tm_now db) (final_summary completed stored) (xr_error_code (ex_result completed))
       (ad_progress t) (ad_progress t')) /\
    (tt_completion_policy (ad_terms t) = OwnerReview -> phase t' = TaskCompleted -> phase t = TaskCompleted).
Proof.
  intros Hs Ht Hu Hi He. assert (Ha : task_agrees t).
  { pose proof Ht as [Hin _]%sql_first_some. apply so_tasks in Hs. by eapply Forall_forall in Hs. }
  destruct (settlement_spec completed stored id t db Ha Hu Ht Hi He) as (e & db' & E & Hid & Ho & _ & Hk).
  destruct (delegation_get db' id) as [t'|] eqn:Ht'; [|done]. injection Hk as H1 H2 H3.
  assert (Hterm : phase t ∈ [TaskCompleted; TaskFailed; TaskCancelled] <-> phase_is_terminal (phase t) = true)
    by (destruct (phase t); set_solver).
  exists e, db', t'. split_and!; try done.
  - unfold progress_after in H2. intros [Hf%Hterm|Hc]; rewrite H2; [by rewrite Hf|].
    by rewrite (bool_decide_false _ Hc), andb_false_r.
  - intros Hf Hc. unfold progress_after in H2.
    destruct (phase_is_terminal (phase t)); [by destruct Hf; apply Hterm|].
    rewrite (bool_decide_true _ Hc) in H2. cbn [negb andb] in H2.
    split; [rewrite (moved_phase _ _ _ _ _ _ H2); apply phase_after_moves|].
    rewrite H2. by apply move_phase_progress, phase_after_open.
  - by apply (reviewed_is_not_completed db completed stored).
Qed.
