(* ===== verification/TeamSafety.v ===== *)
(** What Team work promises, over every history of its writers: one message has
    one round and at most one prompt; a person who takes a session over keeps
    it until it is handed back, and the handback revives nothing accepted
    before; stopped work is never sent; a finished task stays as it finished;
    an accepted operation answers its retries; an event stays readable until it
    is acknowledged. *)
From stdpp Require Import prelude strings list gmap.
From Stdlib Require Import NArith ZArith Lia Sorted.
From S2P Require Import Prelude CoreTypes Rows Storage Ir Json Team TeamStore TeamWork TeamHistory.

(** ** Lookups along a history *)

Lemma by_task_moves id t t' : task_moves t t' -> by_task id t' = by_task id t.
Proof. intros [H _]. unfold by_task, ad_id. by rewrite H. Qed.
Lemma by_execution_moves id e e' : execution_moves e e' -> by_execution id e' = by_execution id e.
Proof. intros H%execution_moves_id. unfold by_execution. by rewrite H. Qed.

Lemma after_task ops db id t :
  delegation_get db id = Some t -> exists t', delegation_get (after ops db) id = Some t' /\ task_moves t t'.
Proof. apply grows_first with (Q := task_agrees); [apply by_task_moves|apply after_evolves]. Qed.
Lemma after_message ops db x :
  x ∈ tm_submissions db -> exists x', x' ∈ tm_submissions (after ops db) /\ submission_moves x x'.
Proof. intros Hx. by eapply grows_elem; [apply after_evolves|]. Qed.
Lemma after_round ops db e :
  e ∈ tm_executions db -> exists e', e' ∈ tm_executions (after ops db) /\ execution_moves e e'.
Proof. intros He. by eapply grows_elem; [apply after_evolves|]. Qed.
Lemma after_controller ops db s c :
  controller_get db s = Some c ->
  exists c', controller_get (after ops db) s = Some c' /\
    controller_moves (fun s => existsb (hands_back s) ops) c c'.
Proof.
  intros Hc. pose proof (ev_controllers _ _ _ _ (after_evolves ops db) s) as H. rewrite Hc in H.
  destruct (controller_get (after ops db) s) as [c'|]; [by exists c'|done].
Qed.

(** The row a lookup by id finds, where ids are unique. *)
Lemma submission_get_elem pending db x :
  sound_but pending db -> x ∈ tm_submissions db -> submission_get db (sb_id x) = Some x.
Proof. intros Hs Hx. by apply (sql_first_unique sb_id); [apply so_ids in Hs|]. Qed.
Lemma submission_get_spec db id x : submission_get db id = Some x -> x ∈ tm_submissions db /\ sb_id x = id.
Proof.
  intros [Hx Hp]%sql_first_some. split; [done|]. unfold by_submission in Hp. by rewrite bool_decide_eq_true in Hp.
Qed.

(** ** One message, one round, one prompt *)

(** The prompts of one message: the steps that admit it to its provider. *)
Definition admits (id : ident) (op : TeamOp) : bool :=
  match op with
  | OpAboutToPrompt x => bool_decide (x = id)
  | OpAdvance x from to => bool_decide (x = id) && bool_decide (to = AboutToPrompt)
  | _ => false
  end.
Fixpoint prompts (id : ident) (ops : list TeamOp) (db : TeamDb) : nat :=
  match ops with
  | [] => 0
  | op :: ops => (if admits id op && is_ok (fst (step op db)) then 1 else 0) + prompts id ops (snd (step op db))
  end.
Definition started (db : TeamDb) (id : ident) : Prop :=
  exists x, x ∈ tm_submissions db /\ sb_id x = id /\ 1 <= rank (sb_status x).

Lemma started_evolves hb adds db db' id : evolves hb adds db db' -> started db id -> started db' id.
Proof.
  intros Hm (x & Hx & Hid & Hr). destruct (grows_elem _ _ _ _ _ (ev_submissions _ _ _ _ Hm) Hx) as (x' & Hx' & Hm').
  exists x'. split; [done|]. rewrite (submission_moves_id _ _ Hm'). split; [done|]. destruct Hm' as (_ & _ & ?). lia.
Qed.

(** A compare-and-swap on the status of one message that changed a row. *)
Lemma swap_some p (f : MessageSubmissionRecord -> MessageSubmissionRecord) db n db' :
  execute submissions p f db = (Ok n, db') -> n <> 0 ->
  exists x, x ∈ tm_submissions db /\ p x = true /\ f x ∈ tm_submissions db'.
Proof.
  intros [= <- <-] Hn. cbn [t_rows submissions] in *.
  destruct (sql_exists p (tm_submissions db)) eqn:E; [|by rewrite sql_count_zero in Hn].
  apply existsb_elem in E as (x & Hx & Hp). exists x. split; [done|]. split; [done|]. cbn.
  apply elem_of_sql_update. exists x. by rewrite Hp.
Qed.

Lemma about_to_prompt_spec id db u db' :
  Submissions.mark_about_to_prompt id db = (Ok u, db') ->
  exists x db1 db2,
    submission_get db id = Some x /\
    Admission.authorize_vibex_use_submission (sb_request x) true db = (Ok tt, db1) /\
    evolves (fun _ => false) false db1 db2 /\ evolves (fun _ => false) false db2 db' /\
    exists y, y ∈ tm_submissions db1 /\ sb_id y = id /\ sb_status y = ReadyToDispatch /\ started db2 id.
Proof.
  intros H%db_transaction_ok. apply db_bind_ok in H as (found & db0 & [= Hx <-] & H).
  apply db_bind_ok in H as (x & db1 & [->%ok_or_ok ->]%db_lift_ok & H).
  apply db_bind_ok in H as ([] & db1 & Ha & H). apply db_bind_ok in H as (now & db2 & [= _ <-] & H).
  apply db_bind_ok in H as (n & db2 & He & H). destruct (n =? 0) eqn:E; [done|]. apply Nat.eqb_neq in E.
  exists x, db1, db2. split; [done|]. split; [done|].
  pose proof (moves_start_round (fun _ => false) false id (rq_session_id (sb_request x)) db2) as Hm. rewrite H in Hm.
  match type of He with execute _ ?p ?f _ = _ => set (q := p) in *; set (g := f) in * end.
  split; [|split; [done|]].
  - change db2 with (snd (@Ok nat VibexError n, db2)). rewrite <- He. apply moves_forward.
    intros s [_ Hs%bool_decide_eq_true]%andb_true_iff. rewrite Hs. split_and!; [done..|simpl; lia].
  - destruct (swap_some _ _ _ _ _ He E) as (y & Hy & [Hi Hst]%andb_true_iff & Hf).
    unfold by_submission in Hi. unfold Submissions.status_is in Hst. rewrite bool_decide_eq_true in Hi, Hst.
    exists y. split_and!; [done..|]. exists (g y). split_and!; [done|done|simpl; lia].
Qed.

Lemma advance_spec id from to db u db' :
  Submissions.advance_status id from to db = (Ok u, db') ->
  can_transition_to from to = true /\
  exists y y', y ∈ tm_submissions db /\ sb_id y = id /\ sb_status y = from /\
    y' ∈ tm_submissions db' /\ sb_id y' = id /\ sb_status y' = to.
Proof.
  unfold Submissions.advance_status. destruct (can_transition_to from to); [|done]. simpl. intros H. split; [done|].
  apply db_bind_ok in H as (now & db2 & [= _ <-] & H). apply db_bind_ok in H as (n & db2 & He & H).
  destruct (n =? 0) eqn:E; [done|]. apply Nat.eqb_neq in E. injection H as _ <-.
  destruct (swap_some _ _ _ _ _ He E) as (y & Hy & [Hi Hst]%andb_true_iff & Hf).
  unfold by_submission in Hi. unfold Submissions.status_is in Hst. rewrite bool_decide_eq_true in Hi, Hst.
  exists y. eexists. split_and!; [done..|exact Hf| |]; done.
Qed.

Lemma not_started db y id :
  sound db -> y ∈ tm_submissions db -> sb_id y = id -> rank (sb_status y) = 0 -> ~ started db id.
Proof.
  intros Hs Hy Hid Hr (x & Hx & Hxi & Hxr). apply so_ids in Hs.
  assert (x = y) as -> by (apply (column_inj sb_id _ _ _ Hs Hx Hy); congruence). lia.
Qed.
Lemma authorize_evolves request dispatch db r db1 :
  Admission.authorize_vibex_use_submission request dispatch db = (r, db1) -> evolves (fun _ => false) false db db1.
Proof. intros H. pose proof (moves_authorize (fun _ => false) false request dispatch db) as Hm. by rewrite H in Hm. Qed.

Lemma admitted_once op db id :
  sound db -> admits id op = true -> is_ok (fst (step op db)) = true ->
  ~ started db id /\ started (snd (step op db)) id.
Proof.
  intros Hs Ha Hok. destruct op; try done; cbn [step admits] in *.
  - apply bool_decide_eq_true in Ha as ->.
    destruct (Submissions.mark_about_to_prompt id db) as [[u|] db'] eqn:E; [|done].
    apply about_to_prompt_spec in E as (x & db1 & db2 & _ & Hau & _ & Hm & y & Hy & Hyi & Hyr & Hst). split.
    + apply authorize_evolves in Hau. intros Hd.
      eapply (not_started db1 y id); [by eapply sound_evolves|done|done|by rewrite Hyr|by eapply started_evolves].
    + by eapply started_evolves.
  - apply andb_true_iff in Ha as [->%bool_decide_eq_true ->%bool_decide_eq_true].
    destruct (Submissions.advance_status id from AboutToPrompt db) as [[u|] db'] eqn:E; [|done].
    apply advance_spec in E as (Ht & y & y' & Hy & Hyi & Hyr & Hy' & Hyi' & Hyr'). split.
    + eapply not_started; [done..|]. rewrite Hyr. by destruct from.
    + exists y'. rewrite Hyr'. by split_and!.
Qed.

Lemma started_never_again ops db id : sound db -> started db id -> prompts id ops db = 0.
Proof.
  revert db. induction ops as [|op ops IH]; intros db Hs Hst; [done|]. cbn [prompts].
  rewrite IH; [|by apply step_sound|by eapply started_evolves; [apply (step_moves op db)|]].
  destruct (admits id op) eqn:Ea, (is_ok (fst (step op db))) eqn:Eo; try done.
  by destruct (admitted_once op db id Hs Ea Eo) as [[] _].
Qed.

(** C6. A message reaches its provider at most once: whatever the history, and
    however often its dispatch is retried, at most one step admits it. *)
Theorem message_is_prompted_at_most_once (ops : list TeamOp) (db : TeamDb) (id : ident) :
  sound db -> prompts id ops db <= 1.
Proof.
  revert db. induction ops as [|op ops IH]; intros db Hs; cbn [prompts]; [lia|].
  destruct (admits id op && is_ok (fst (step op db))) eqn:E; [|apply IH; by apply step_sound].
  apply andb_true_iff in E as [Ha Ho]. destruct (admitted_once op db id Hs Ha Ho) as [_ Hst].
  rewrite started_never_again; [lia|by apply step_sound|done].
Qed.

(** ** Who may write into a session *)

(** Control at dispatch: read, never taken; an existing controller stays as it is. *)
Lemma take_control_dispatch request actor task db slot db1 :
  Admission.take_control request actor task true db = (Ok slot, db1) ->
  tm_executions db1 = tm_executions db /\
  (forall c, controller_get db (rq_session_id request) = Some c ->
     controller_get db1 (rq_session_id request) = Some c) /\
  (forall r, task = Some r -> exists found, Admission.check_task request actor r db = Ok found).
Proof.
  unfold Admission.take_control. destruct task as [r|].
  - intros (found & db2 & [= Hf <-] & H)%db_bind_ok. destruct found as [id s].
    apply db_bind_ok in H as (owns & db3 & [= _ <-] & H). destruct owns; [|done]. injection H as _ <-.
    split_and!; [done|done|]. intros r' [= <-]. by eexists.
  - intros (c & db2 & He & H)%db_bind_ok. case_match; [done|]. injection H as _ <-.
    unfold SessionControllers.ensure in He. apply db_bind_ok in He as (now & db3 & [= _ <-] & He).
    apply db_bind_ok in He as (n & db3 & [= _ <-] & He). apply db_bind_ok in He as (st & db4 & [= Hst <-] & He).
    destruct st; [|done]. injection He as _ <-. split; [done|]. split; [|done]. intros c0 Hc0.
    unfold controller_get in *. cbn. unfold sql_insert_or_ignore.
    assert (existsb (by_controller (rq_session_id request)) (tm_controllers db) = true) as ->; [|done].
    apply sql_first_some in Hc0 as [? ?]. apply existsb_elem. eauto.
Qed.

Lemma authorize_dispatch request a task o db db1 :
  rq_provenance request = DelegatedInput a task o ->
  Admission.authorize_vibex_use_submission request true db = (Ok tt, db1) ->
  exists actor, Admission.check_actor request a o true db = Ok actor /\
    (forall r, task = Some r -> exists found, Admission.check_task request actor r db = Ok found) /\
    exists e c, e ∈ tm_executions db /\ input_of e = (rq_session_id request, rq_message_idempotency_key request) /\
      eo_controller_revision (ex_origin e) = sc_revision c /\ sc_human_controlled c = false /\
      forall c0, controller_get db (rq_session_id request) = Some c0 -> c0 = c.
Proof.
  intros Hp. unfold Admission.authorize_vibex_use_submission. rewrite Hp.
  intros (actor & db2 & [= Ha <-] & H)%db_bind_ok. apply db_bind_ok in H as (slot & db3 & Ht & [= H <-]).
  apply take_control_dispatch in Ht as (He & Hc & Hk). exists actor. split; [done|]. split; [done|].
  unfold SessionControllers.check_accepted_input in H. case_match eqn:Eu; [|done].
  apply existsb_elem in Eu as (e & Hin & [Hi Hm]%andb_true_iff). rewrite He in Hin.
  destruct (controller_get db3 _) as [c|] eqn:Ec; [|done]. apply andb_true_iff in Hm as [Hr%bool_decide_eq_true Hh].
  unfold by_input in Hi. rewrite andb_true_iff, !bool_decide_eq_true in Hi. destruct Hi as [Hi1 Hi2].
  exists e, c. split; [done|]. split; [unfold input_of; congruence|]. split; [done|].
  split; [by apply negb_true_iff|]. intros c0 Hc0%Hc. congruence.
Qed.

(** What a prompt admission found: the message, its authorization, its round. *)
Lemma delegated_prompt x db :
  sound db -> x ∈ tm_submissions db -> delegated x = true ->
  is_ok (fst (Submissions.mark_about_to_prompt (sb_id x) db)) = true ->
  exists a task o actor e c,
    rq_provenance (sb_request x) = DelegatedInput a task o /\
    Admission.check_actor (sb_request x) a o true db = Ok actor /\
    (forall r, task = Some r -> exists found, Admission.check_task (sb_request x) actor r db = Ok found) /\
    e ∈ tm_executions db /\ round_of x e /\
    eo_controller_revision (ex_origin e) = sc_revision c /\ sc_human_controlled c = false /\
    forall c0, controller_get db (sb_session_id x) = Some c0 -> c0 = c.
Proof.
  intros Hs Hx Hd Hok. destruct (Submissions.mark_about_to_prompt (sb_id x) db) as [[u|] db'] eqn:E; [|done].
  apply about_to_prompt_spec in E as (y & db1 & _ & Hy & Hau & _).
  rewrite (submission_get_elem _ _ _ Hs Hx) in Hy. injection Hy as <-.
  unfold delegated in Hd. destruct (rq_provenance (sb_request x)) as [|a task o| | |] eqn:Ep; try done.
  destruct (authorize_dispatch _ _ _ _ _ _ Ep Hau) as (actor & Ha & Ht & e & c & He & Hi & Hr & Hh & Hc).
  pose proof (so_requests _ _ Hs x Hx) as Hq. rewrite Hq in Hi.
  exists a, task, o, actor, e, c. split_and!; try done.
  - destruct (so_round_of _ _ Hs e He) as (y & Hy & Hro). pose proof Hro as (_ & Hm & _).
    assert (y = x) as <-; [|done]. apply (column_inj message_of _ _ _ (so_messages _ _ Hs) Hy Hx). congruence.
  - intros c0 Hc0. apply Hc. by injection Hq as -> _.
Qed.

(** C11. A round accepted before a person took its session over is never sent,
    not even after control is handed back, however the history goes on. *)
Theorem handback_revives_no_older_round (ops : list TeamOp) (db : TeamDb) (x : MessageSubmissionRecord)
    (c : SessionController) :
  sound db -> x ∈ tm_submissions db -> delegated x = true ->
  controller_get db (sb_session_id x) = Some c -> sc_human_controlled c = true ->
  is_ok (fst (Submissions.mark_about_to_prompt (sb_id x) (after ops db))) = false.
Proof.
  intros Hs Hx Hd Hc Hh. apply not_true_iff_false. intros Hok.
  destruct (so_round _ _ Hs x Hx Hd) as (e & He & Hes); [by intros []|].
  destruct (so_round_of _ _ Hs e He) as (y & Hy & Hro). pose proof Hro as (Hyi & Him & _).
  assert (y = x) as -> by (apply (column_inj sb_id _ _ _ (so_ids _ _ Hs) Hy Hx); congruence).
  destruct (after_message ops db x Hx) as (x' & Hx' & Hm). destruct (after_round ops db e He) as (e' & He' & Hem).
  destruct (after_controller ops db _ _ Hc) as (c' & Hc' & Hcm). pose proof (after_sound ops db Hs) as Hs'.
  rewrite <- (submission_moves_id _ _ Hm) in Hok.
  destruct (delegated_prompt x' _ Hs' Hx') as (a & t & o & actor & e2 & c2 & _ & _ & _ & He2 & Hr2 & Hrev & Hh2 & Hc2);
    [by rewrite (submission_moves_delegated _ _ Hm)|done|].
  pose proof (submission_moves_message _ _ Hm) as Hmm. injection Hmm as Hms _. rewrite Hms in Hc2.
  rewrite <- (Hc2 _ Hc') in *. clear Hc2.
  assert (e2 = e') as ->.
  { apply (column_inj ex_submission_id _ _ _ (so_rounds _ _ Hs') He2 He').
    rewrite (execution_moves_submission _ _ Hem), Hes. destruct Hr2 as (-> & _). by apply submission_moves_id. }
  pose proof (so_accepted _ _ Hs e He) as Hle. injection Him as Hse _. rewrite Hse, Hc in Hle. simpl in Hle.
  destruct Hem as [Ho _]. rewrite Ho in Hrev. destruct Hcm as (_ & _ & [?|[_ ?]]%(fun f => f Hh)); [congruence|lia].
Qed.

(** ** New messages *)

Lemma ensure_known s c db r db' :
  controller_get db s = Some c -> SessionControllers.ensure s db = (r, db') -> r = Ok c.
Proof.
  intros Hc. destruct (ensure_spec s db) as (c' & db1 & -> & _ & _ & H). rewrite Hc in H. by intros [= <- _]; subst.
Qed.

Lemma take_control_acceptance request actor task db slot db1 :
  Admission.take_control request actor task false db = (Ok slot, db1) ->
  (forall r, task = Some r -> exists found, Admission.check_task request actor r db = Ok found) /\
  forall c, controller_get db (rq_session_id request) = Some c -> sc_human_controlled c = false.
Proof.
  unfold Admission.take_control. destruct task as [r|].
  - intros (found & db2 & [= Hf <-] & H)%db_bind_ok. destruct found as [id s].
    split; [intros r' [= <-]; by eexists|]. intros c Hc.
    apply db_bind_ok in H as (owns & db3 & Hw & H). destruct owns; [|done]. clear H.
    unfold Admission.owns_control in Hw. apply db_bind_ok in Hw as (claim & db4 & Hw & [= Ho <-]).
    unfold SessionControllers.claim in Hw. apply db_bind_ok in Hw as (c' & db5 & He & Hw).
    apply (ensure_known _ _ _ _ _ Hc) in He. injection He as ->.
    destruct (sc_human_controlled c); [|done]. injection Hw as <- _. done.
  - intros (c' & db2 & He & H)%db_bind_ok. split; [done|]. intros c Hc.
    apply (ensure_known _ _ _ _ _ Hc) in He. injection He as ->. by destruct (sc_human_controlled c).
Qed.

Lemma new_message_checks id request by_ a task o db :
  rq_provenance request = DelegatedInput a task o ->
  get_by_key_conn db (rq_session_id request) (rq_message_idempotency_key request) = None ->
  is_ok (fst (Submissions.enqueue_inner id request by_ db)) = true ->
  exists actor, Admission.check_actor request a o false db = Ok actor /\
    (forall r, task = Some r -> exists found, Admission.check_task request actor r db = Ok found) /\
    forall c, controller_get db (rq_session_id request) = Some c -> sc_human_controlled c = false.
Proof.
  intros Hp Hk Hok. destruct (Submissions.enqueue_inner id request by_ db) as [[x|] db'] eqn:E; [|done]. clear Hok.
  apply db_bind_ok in E as ([] & db0 & [_ ->]%db_lift_ok & H%db_transaction_ok).
  apply db_bind_ok in H as (record & db1 & H & _). unfold Submissions.enqueue_conn in H.
  apply db_bind_ok in H as (existing & db2 & [= Hx <-] & H). rewrite Hk in Hx. subst existing.
  apply db_bind_ok in H as ([] & db3 & Ha & _). unfold Admission.authorize_vibex_use_submission in Ha. rewrite Hp in Ha.
  apply db_bind_ok in Ha as (actor & db4 & [= Hc <-] & Ha). apply db_bind_ok in Ha as (slot & db5 & Ht & _).
  exists actor. split; [done|]. by eapply take_control_acceptance.
Qed.

(** C10. While a person controls a session and nobody hands it back, whatever
    else happens, the session stays with the person, none of its automated
    messages is sent and no new one is accepted. *)
Theorem person_keeps_the_session (ops : list TeamOp) (db : TeamDb) (c : SessionController) :
  let s := sc_session_id c in let db' := after ops db in
  sound db -> controller_get db s = Some c -> sc_human_controlled c = true -> existsb (hands_back s) ops = false ->
  (exists c', controller_get db' s = Some c' /\ sc_human_controlled c' = true) /\
  (forall x, x ∈ tm_submissions db' -> delegated x = true -> sb_session_id x = s ->
     is_ok (fst (Submissions.mark_about_to_prompt (sb_id x) db')) = false) /\
  (forall id request by_, is_delegated (rq_provenance request) = true -> rq_session_id request = s ->
     get_by_key_conn db' s (rq_message_idempotency_key request) = None ->
     is_ok (fst (Submissions.enqueue_inner id request by_ db')) = false).
Proof.
  intros s db' Hs Hc Hh Hb. destruct (after_controller ops db s c Hc) as (c' & Hc' & Hi & _ & Hm). fold db' in Hc'.
  assert (Hh' : sc_human_controlled c' = true).
  { destruct (Hm Hh) as [?|[H _]]; [done|]. cbv beta in H. fold s in H. congruence. }
  split; [by exists c'|]. pose proof (after_sound ops db Hs) as Hs'. fold db' in Hs'. split.
  - intros x Hx Hd Hxs. apply not_true_iff_false. intros Hok.
    destruct (delegated_prompt x db' Hs' Hx Hd Hok) as (a & t & o & actor & e & c2 & _ & _ & _ & _ & _ & _ & Hn & Hc2).
    rewrite Hxs in Hc2. rewrite <- (Hc2 _ Hc') in Hn. congruence.
  - intros id request by_ Hd Hr Hk. apply not_true_iff_false. intros Hok. rewrite <- Hr in *.
    destruct (rq_provenance request) as [|a t o| | |] eqn:Ep; try done.
    destruct (new_message_checks _ _ _ _ _ _ _ Ep Hk Hok) as (actor & _ & _ & Hn). rewrite (Hn _ Hc') in Hh'. done.
Qed.

(** ** What stays stopped *)

(** The task no longer takes input: it is finished or being cancelled. *)
Definition closed (t : AgentDelegation) : bool :=
  phase_is_terminal (phase t) || bool_decide (phase t = TaskCancelling).
(** The task a message works for. *)
Definition works_for (p : MessageProvenance) (task_id : ident) : Prop :=
  exists a r o, p = DelegatedInput a (Some r) o /\ ref_task_id r = Some task_id.
(** The round of [x] was interrupted or captured by a cancellation, or its task
    is closed. *)
Definition stopped (db : TeamDb) (x : MessageSubmissionRecord) : Prop :=
  (exists e, e ∈ tm_executions db /\ ex_submission_id e = sb_id x /\
     (is_Some (ex_interrupt_requested_at_ms e) \/ cancellation_requested db (ex_id e) = true)) \/
  (exists id t, works_for (rq_provenance (sb_request x)) id /\ delegation_get db id = Some t /\ closed t = true).

Lemma sound_task pending db id t : sound_but pending db -> delegation_get db id = Some t -> task_agrees t.
Proof. intros Hs [Hin _]%sql_first_some. apply so_tasks in Hs. by eapply Forall_forall in Hs. Qed.

Lemma after_phase ops db id t :
  sound db -> delegation_get db id = Some t ->
  exists t', delegation_get (after ops db) id = Some t' /\ ad_terms t' = ad_terms t /\
    progress_moves (ad_progress t) (ad_progress t') /\
    phase t = tp_phase (ad_progress t) /\ phase t' = tp_phase (ad_progress t').
Proof.
  intros Hs Ht. destruct (after_task ops db id t Ht) as (t' & Ht' & Hterms & Hm).
  pose proof (sound_task _ _ _ _ Hs Ht) as Ha. destruct (Hm Ha) as [Ha' Hp].
  exists t'. split_and!; [done..| |]; by apply phase_agrees.
Qed.
Lemma closed_moves t t' :
  phase t = tp_phase (ad_progress t) -> phase t' = tp_phase (ad_progress t') ->
  progress_moves (ad_progress t) (ad_progress t') -> closed t = true -> closed t' = true.
Proof.
  unfold closed. intros -> -> (_ & Ht & Hc & _) [H|H%bool_decide_eq_true]%orb_true_iff.
  - rewrite (Ht H). by rewrite H.
  - destruct (Hc H) as [->| ->]; [|done]. by rewrite bool_decide_true, orb_true_r.
Qed.

Lemma stopped_after ops db x :
  sound db -> x ∈ tm_submissions db -> stopped db x ->
  exists x', x' ∈ tm_submissions (after ops db) /\ sb_id x' = sb_id x /\ delegated x' = delegated x /\
    stopped (after ops db) x'.
Proof.
  intros Hs Hx Hst. destruct (after_message ops db x Hx) as (x' & Hx' & Hm).
  pose proof (submission_moves_id _ _ Hm) as Hid. pose proof (submission_moves_provenance _ _ Hm) as Hp.
  exists x'. split_and!; [done..|by apply submission_moves_delegated|].
  destruct Hst as [(e & He & Hes & Hst)|(id & t & Hw & Ht & Hc)].
  - left. destruct (after_round ops db e He) as (e' & He' & Hem). exists e'. split; [done|].
    rewrite (execution_moves_submission _ _ Hem), (execution_moves_id _ _ Hem). split; [congruence|].
    destruct Hst as [?|(c & Hin & Hcd)%existsb_elem]; [left; by apply Hem|right]. apply existsb_elem.
    exists c. split; [|done]. by apply (ev_cancellations _ _ _ _ (after_evolves ops db)).
  - right. destruct (after_phase ops db id t Hs Ht) as (t' & Ht' & _ & Hmoves & H1 & H2).
    exists id, t'. rewrite Hp. split; [done|]. split; [done|]. exact (closed_moves _ _ H1 H2 Hmoves Hc).
Qed.

(** The round a prompt admission looks at is the round of the message. *)
Lemma by_key_unique pending db x :
  sound_but pending db -> x ∈ tm_submissions db -> get_by_key_conn db (sb_session_id x) (sb_key x) = Some x.
Proof.
  intros Hs Hx. rewrite <- (sql_first_unique message_of _ _ (so_messages _ _ Hs) Hx). apply sql_first_ext.
  intros y. unfold by_key, message_of. repeat case_bool_decide; simpl; congruence.
Qed.
Lemma with_usage_origin db e : ex_origin (with_usage db e) = ex_origin e.
Proof. unfold with_usage. by destruct (usage_fact db _). Qed.
Lemma round_lookup pending db x e :
  sound_but pending db -> x ∈ tm_submissions db -> e ∈ tm_executions db -> ex_submission_id e = sb_id x ->
  (s ← get_by_key_conn db (rq_session_id (sb_request x)) (rq_message_idempotency_key (sb_request x));
   get_by_submission db (sb_id s)) = Some (with_usage db e).
Proof.
  intros Hs Hx He Hes. pose proof (so_requests _ _ Hs x Hx) as Hq. injection Hq as -> ->.
  rewrite (by_key_unique _ _ _ Hs Hx). simpl. unfold get_by_submission, by_round. rewrite <- Hes.
  by rewrite (sql_first_unique ex_submission_id _ _ (so_rounds _ _ Hs) He).
Qed.

Lemma check_actor_dispatch request a o actor db :
  Admission.check_actor request a o true db = Ok actor ->
  Admission.being_cancelled request actor true db = Ok false.
Proof.
  unfold Admission.check_actor. intros (x & _ & H)%bind_ok. apply bind_ok in H as (y & _ & H).
  apply bind_ok in H as (z & _ & H). apply reject_ok in H as [_ H]. apply bind_ok in H as (s & _ & H).
  apply reject_ok in H as [_ H]. apply bind_ok in H as (b & Hb & H). apply reject_ok in H as [-> H].
  apply bind_ok in H as (? & _ & H). apply bind_ok in H as (? & _ & H). by injection H as ->.
Qed.
Lemma check_task_open request actor r db found id t :
  Admission.check_task request actor r db = Ok found -> ref_task_id r = Some id -> delegation_get db id = Some t ->
  closed t = false.
Proof.
  unfold Admission.check_task. intros (x & ->%ok_or_ok & H)%bind_ok [= ->] Ht.
  apply bind_ok in H as (y & Hy%ok_or_ok & H). rewrite Ht in Hy. injection Hy as <-. cbv beta zeta in H.
  by apply reject_ok in H as [_ [? _]%reject_ok].
Qed.

Lemma stopped_is_unsent db x :
  sound db -> x ∈ tm_submissions db -> delegated x = true -> stopped db x ->
  is_ok (fst (Submissions.mark_about_to_prompt (sb_id x) db)) = false.
Proof.
  intros Hs Hx Hd Hst. apply not_true_iff_false. intros Hok.
  destruct (delegated_prompt x db Hs Hx Hd Hok) as (a & t & o & actor & _ & _ & Hp & Ha & Ht & _).
  destruct Hst as [(e & He & Hes & Hst)|(id & task & (a' & r & o' & Hw & Hr) & Hg & Hc)].
  - apply check_actor_dispatch in Ha. unfold Admission.being_cancelled in Ha.
    rewrite (round_lookup _ _ _ _ Hs Hx He Hes) in Ha. unfold ex_id in Ha.
    rewrite (with_usage_origin db e) in Ha. fold (ex_id e) in Ha. unfold Interrupts.is_requested in Ha.
    destruct (sql_exists _ (tm_executions db)) eqn:E; [done|]. injection Ha as Ha.
    destruct Hst as [Hi|Hi]; [|congruence]. rewrite <- not_true_iff_false in E. apply E, existsb_elem. exists e.
    split; [done|]. unfold by_execution. by rewrite !bool_decide_true.
  - rewrite Hp in Hw. injection Hw as <- -> <-. destruct (Ht r eq_refl) as [found Hf].
    by rewrite (check_task_open _ _ _ _ _ _ _ Hf Hr Hg) in Hc.
Qed.

(** C8. A message whose round was interrupted, or captured by the cancellation of
    a task, or whose task is finished or being cancelled, is never sent,
    however the history goes on. *)
Theorem stopped_work_is_never_sent (ops : list TeamOp) (db : TeamDb) (x : MessageSubmissionRecord) :
  sound db -> x ∈ tm_submissions db -> delegated x = true -> stopped db x ->
  is_ok (fst (Submissions.mark_about_to_prompt (sb_id x) (after ops db))) = false.
Proof.
  intros Hs Hx Hd Hst. destruct (stopped_after ops db x Hs Hx Hst) as (x' & Hx' & <- & Hd' & Hst').
  apply stopped_is_unsent; [by apply after_sound|done|congruence|done].
Qed.


(** ** Operations *)

Lemma by_call_moves authority tool key o o' :
  operation_moves o o' ->
  VibexUseOperations.by_call authority tool key o' = VibexUseOperations.by_call authority tool key o.
Proof.
  unfold operation_moves, operation_identity. intros [= E1 E2 E3 E4 E5 E6].
  unfold VibexUseOperations.by_call, authority_key. by rewrite E2, E3, E4, E5.
Qed.

Lemma reserve_claimed o key db o1 db1 :
  VibexUseOperations.reserve o key db = (Ok (OperationClaimed o1), db1) ->
  VibexUseOperations.get_by_key db (authority_key o) (uo_tool o) key = None /\
  VibexUseOperations.get_by_key db1 (authority_key o) (uo_tool o) key = Some o1 /\
  uo_id o1 = uo_id o /\ uo_payload_fingerprint o1 = uo_payload_fingerprint o.
Proof.
  unfold VibexUseOperations.reserve. intros (existing & db2 & [= Hx <-] & H)%db_bind_ok.
  destruct existing as [x|].
  { unfold VibexUseOperations.answer_existing in H. by case_bool_decide. }
  apply db_bind_ok in H as (now & db2 & [= _ <-] & H). set (row := VibexUseOperations.stored_at now key o) in *.
  apply db_bind_ok in H as (taken & db2 & [= Ht <-] & H). destruct taken; [done|].
  apply db_bind_ok in H as (n & db2 & [= Hn <-] & H). cbn [t_rows t_put operations] in *.
  unfold sql_insert_or_ignore in H. unfold sql_exists in Hn.
  destruct (existsb (VibexUseOperations.by_identity row) (tm_operations db)).
  { subst n. apply db_bind_ok in H as (x & db2 & _ & H). destruct x as [x|]; [|done].
    unfold VibexUseOperations.answer_existing in H. by case_bool_decide. }
  subst n. apply db_bind_ok in H as (stored & db2 & [= Hs <-] & H). destruct stored as [s|]; [|done].
  injection H as -> <-. split; [done|].
  assert (o1 = row) as ->.
  { unfold VibexUseOperations.operation_get in Hs. cbn [tm_operations put_operations] in Hs. rewrite sql_first_app in Hs.
    destruct (sql_first (by_operation (uo_id o)) (tm_operations db)) eqn:E.
    - apply sql_first_some in E. rewrite <- not_true_iff_false in Ht. destruct Ht. apply existsb_elem. eauto.
    - unfold sql_first, by_operation in Hs. simpl in Hs. rewrite bool_decide_true in Hs by done. congruence. }
  split; [|done]. unfold VibexUseOperations.get_by_key in *. cbn [tm_operations put_operations].
  rewrite sql_first_app, Hx. unfold sql_first, VibexUseOperations.by_call, authority_key. simpl.
  by rewrite !bool_decide_true.
Qed.

(** C14. A request key is claimed once: from then on, whatever else happens, every
    request of that caller under that key is answered with the operation that
    was accepted, as a repeat when its payload is the same and as a conflict
    otherwise, and writes nothing. *)
Theorem operation_is_claimed_once (ops : list TeamOp) (db db1 : TeamDb) (o o1 : VibexUseOperation) (key : str) :
  VibexUseOperations.reserve o key db = (Ok (OperationClaimed o1), db1) ->
  uo_id o1 = uo_id o /\ VibexUseOperations.get_by_key db (authority_key o) (uo_tool o) key = None /\
  forall o2, authority_key o2 = authority_key o -> uo_tool o2 = uo_tool o ->
    exists o', operation_identity o' = operation_identity o1 /\
      VibexUseOperations.reserve o2 key (after ops db1) =
        (Ok (if bool_decide (uo_payload_fingerprint o2 = uo_payload_fingerprint o) then OperationExisting o'
             else OperationConflict o'), after ops db1).
Proof.
  intros (Hn & Hg & Hid & Hf)%reserve_claimed. split; [done|]. split; [done|]. intros o2 Ha Ht.
  destruct (grows_first _ _ (VibexUseOperations.by_call (authority_key o) (uo_tool o) key) _ _ _
              (by_call_moves _ _ _) (ev_operations _ _ _ _ (after_evolves ops db1)) Hg) as (o' & Ho' & Hm). exists o'. split; [done|].
  unfold VibexUseOperations.reserve, db_bind, db_read. rewrite Ha, Ht. unfold VibexUseOperations.get_by_key. rewrite Ho'.
  unfold VibexUseOperations.answer_existing, db_ret. injection Hm as _ _ _ _ _ ->. rewrite Hf.
  repeat case_bool_decide; congruence.
Qed.

(** ** References *)

Lemma resource_kind_round_trip k : resource_kind_parse (lit (resource_kind_as_str k)) = Some k.
Proof. by destruct k. Qed.
Lemma resource_kind_no_slash k : 47%N ∉ lit (resource_kind_as_str k).
Proof. by apply (bool_decide_unpack _); destruct k. Qed.

(** A reference that was understood is written in one canonical form, and
    that form is understood as the same reference. *)
Theorem reference_round_trip (value : str) (r : VibexUseRef) :
  VibexUseRef_parse value = Some r -> VibexUseRef_parse (as_uri r) = Some r.
Proof.
  intros Hp. assert (Hid : trim (rf_id r) = rf_id r /\
    is_empty (rf_id r) || (256 <? utf8_len (rf_id r)) || existsb is_control (rf_id r) = false).
  { unfold VibexUseRef_parse in Hp. cbv beta zeta in Hp.
    destruct (match strip_prefix (lit "vibex://") (trim value) with
              | Some rest => Some rest | None => strip_prefix (lit "vibex:") (trim value) end) as [rest|]; [|done].
    cbn [mbind option_bind] in Hp. destruct (split_once 47 rest) as [[kind id]|]; [|done]. cbn [mbind option_bind] in Hp.
    destruct (resource_kind_parse kind) as [k|]; [|done]. cbn [mbind option_bind] in Hp.
    destruct (is_empty (trim id) || _ || _) eqn:E; [done|]. injection Hp as <-. split; [apply trim_idem|done]. }
  destruct Hid as [Ht Hc]. destruct r as [k id]. cbn [rf_id] in *.
  assert (Hu : as_uri (mkRef k id) = lit "vibex://" ++ lit (resource_kind_as_str k) ++ 47%N :: id) by done.
  unfold VibexUseRef_parse. cbv beta zeta. rewrite trim_ends.
  - rewrite Hu, strip_prefix_app. cbn [mbind option_bind].
    rewrite (split_once_app _ _ _ (resource_kind_no_slash k)). cbn [mbind option_bind].
    rewrite resource_kind_round_trip. cbn [mbind option_bind]. by rewrite Ht, Hc.
  - by intros c [= <-].
  - intros c. destruct id as [|x id] using rev_ind; [done|]. rewrite Hu, app_comm_cons, !app_assoc, last_snoc.
    intros [= <-]. apply (trimmed_last _ x Ht). by rewrite last_snoc.
Qed.
