(* ===== verification/TeamTree.v ===== *)
(** The tree of tasks and its cancellation: the recursive query of
    db/src/vibex_use/cancellation.rs reads exactly the tasks below one task, and
    the cancellation of a task stops every one of them with the work they
    wait for, and no other task. *)
From stdpp Require Import prelude strings list gmap.
From Stdlib Require Import NArith ZArith Lia.
From S2P Require Import Prelude CoreTypes Rows Storage Ir Json Team TeamStore TeamWork TeamHistory TeamRounds TeamSafety.

(** ** The tasks below a task *)

(** [b] was started by the session of [a] while it worked on [a]. *)
Definition below (db : TeamDb) (a b : ident) : Prop := b ∈ child_tasks db a.

Section subtree.
Context (db : TeamDb).
Implicit Types (queue seen : list ident).

Lemma queue_new_spec seen ids :
  NoDup (queue_new seen ids) /\ (forall id, id ∈ queue_new seen ids <-> id ∈ ids /\ id ∉ seen).
Proof.
  unfold queue_new. enough (H : forall new, NoDup new -> (forall id, id ∈ new -> id ∉ seen) ->
    NoDup (foldl (fun new id => if bool_decide (id ∈ seen ++ new) then new else new ++ [id]) new ids) /\
    forall id, id ∈ foldl (fun new id => if bool_decide (id ∈ seen ++ new) then new else new ++ [id]) new ids <->
      id ∈ new \/ id ∈ ids /\ id ∉ seen).
  { destruct (H []) as [Hn Hi]; [constructor|set_solver|]. split; [done|]. intros id. rewrite Hi. set_solver. }
  induction ids as [|x ids IH]; intros new Hn Hs; simpl; [set_solver|]. case_bool_decide as E.
  - destruct (IH new Hn Hs) as [H1 H2]. split; [done|]. intros id. rewrite H2. set_solver.
  - apply not_elem_of_app in E as [E1 E2]. destruct (IH (new ++ [x])) as [H1 H2].
    + apply NoDup_app. split_and!; [done|set_solver|apply NoDup_singleton].
    + set_solver.
    + split; [done|]. intros id. rewrite H2. set_solver.
Qed.

(** The rows whose task was not queued yet. *)
Definition unseen seen : list AgentDelegation := List.filter (fun t => bool_decide (ad_id t ∉ seen)) (tm_tasks db).
Lemma unseen_cons seen x :
  x ∉ seen -> x ∈ ad_id <$> tm_tasks db -> length (unseen (seen ++ [x])) < length (unseen seen).
Proof.
  unfold unseen. intros Hx. induction (tm_tasks db) as [|t l IH]; [set_solver|].
  assert (Hle : length (List.filter (fun t => bool_decide (ad_id t ∉ seen ++ [x])) l) <=
                length (List.filter (fun t => bool_decide (ad_id t ∉ seen)) l)).
  { clear. induction l as [|t l IH]; simpl; [done|]. repeat case_bool_decide; simpl; try lia. set_solver. }
  rewrite fmap_cons, elem_of_cons. intros [->|Hl]; simpl.
  - rewrite (bool_decide_true (ad_id t ∉ seen)) by done. rewrite bool_decide_false by set_solver. simpl. lia.
  - specialize (IH Hl). repeat case_bool_decide; simpl; try lia. set_solver.
Qed.
Lemma unseen_app seen new :
  NoDup new -> (forall x, x ∈ new -> x ∉ seen /\ x ∈ ad_id <$> tm_tasks db) ->
  length (unseen (seen ++ new)) + length new <= length (unseen seen).
Proof.
  revert seen. induction new as [|x new IH]; intros seen Hn Hin; [rewrite app_nil_r; simpl; lia|].
  apply NoDup_cons in Hn as [Hx Hn]. destruct (Hin x) as [H1 H2]; [set_solver|].
  pose proof (unseen_cons seen x H1 H2). specialize (IH (seen ++ [x]) Hn).
  rewrite <- app_assoc in IH. simpl in *. enough (length (unseen (seen ++ x :: new)) + length new <= length (unseen (seen ++ [x]))) by lia.
  apply IH. intros y Hy. destruct (Hin y) as [? ?]; [set_solver|]. split; [|done].
  intros [?| ->%list_elem_of_singleton]%elem_of_app; done.
Qed.

Lemma child_is_task id x : x ∈ child_tasks db id -> x ∈ ad_id <$> tm_tasks db.
Proof.
  unfold child_tasks. intros (t & -> & [Ht _]%sql_where_elem)%list_elem_of_fmap. apply list_elem_of_fmap. by exists t.
Qed.

(** What is read is below what was queued; with the fuel given, nothing below
    is left out and nothing is read twice. *)
Lemma expand_sound fuel queue seen x :
  x ∈ expand_subtree fuel db queue seen -> exists q, q ∈ queue /\ rtc (below db) q x.
Proof.
  revert queue seen. induction fuel as [|fuel IH]; intros [|q queue] seen; simpl; try set_solver.
  intros [->|H]%elem_of_cons; [exists q; split; [set_solver|done]|].
  apply IH in H as (p & [Hp|Hp]%elem_of_app & Hr); [exists p; set_solver|].
  apply queue_new_spec in Hp as [Hp _]. exists q. split; [set_solver|]. by eapply rtc_l.
Qed.
Lemma expand_complete fuel queue seen :
  length queue + length (unseen seen) <= fuel -> (forall x, x ∈ queue -> x ∈ seen) ->
  let read := expand_subtree fuel db queue seen in
  (forall x, x ∈ queue -> x ∈ read) /\ (forall x y, x ∈ read -> below db x y -> y ∈ seen \/ y ∈ read).
Proof.
  revert queue seen. induction fuel as [|fuel IH]; intros [|q queue] seen Hf Hq; simpl in *; try lia; [set_solver..|].
  set (new := queue_new seen (child_tasks db q)). destruct (queue_new_spec seen (child_tasks db q)) as [Hn Hnew].
  assert (Hu : length (unseen (seen ++ new)) + length new <= length (unseen seen)).
  { apply unseen_app; [done|]. intros y [Hy ?]%Hnew. split; [done|]. by eapply child_is_task. }
  destruct (IH (queue ++ new) (seen ++ new)) as [H1 H2].
  { rewrite length_app. lia. }
  { intros z [Hz|Hz]%elem_of_app; apply elem_of_app; [left; apply Hq; set_solver|by right]. }
  assert (Hsub : forall y, y ∈ new -> y ∈ expand_subtree fuel db (queue ++ new) (seen ++ new)).
  { intros y Hy. apply H1, elem_of_app. by right. }
  split.
  - intros x [->|Hx]%elem_of_cons; [apply elem_of_cons; by left|]. apply elem_of_cons. right.
    apply H1, elem_of_app. by left.
  - intros x y Hx Hy. rewrite elem_of_cons. destruct (decide (y ∈ seen)) as [?|Hs]; [by left|right; right].
    apply elem_of_cons in Hx as [->|Hx]; [by apply Hsub, Hnew|].
    destruct (H2 x y Hx Hy) as [[?|?]%elem_of_app|?]; [done|by apply Hsub|done].
Qed.

(** The subtree of a task: the rows of exactly the tasks below it. *)
Lemma subtree_spec id t0 :
  delegation_get db id = Some t0 ->
  (forall x, rtc (below db) id x -> exists t, t ∈ task_subtree db id true /\ ad_id t = x) /\
  (forall t, t ∈ task_subtree db id true -> delegation_get db (ad_id t) = Some t /\ rtc (below db) id (ad_id t)).
Proof.
  intros H0. unfold task_subtree. rewrite sql_exists_first. unfold delegation_get in H0. rewrite H0, bool_decide_true by done.
  set (read := expand_subtree _ _ _ _).
  destruct (expand_complete (S (length (tm_tasks db))) [id] [id]) as [Hq Hc].
  { simpl. unfold unseen. pose proof (List.filter_length_le (fun t => bool_decide (ad_id t ∉ [id])) (tm_tasks db)). lia. }
  { done. }
  fold read in Hq, Hc.
  assert (Hget : forall x t, delegation_get db x = Some t -> ad_id t = x).
  { intros x t [_ E]%sql_first_some. by apply bool_decide_eq_true in E. }
  split.
  - intros x Hr. assert (x ∈ read /\ x ∈ ad_id <$> tm_tasks db) as [Hx Hin].
    { revert x Hr. apply rtc_ind_r.
      - split; [apply Hq; set_solver|]. apply sql_first_some in H0 as [H1 H2]. apply bool_decide_eq_true in H2.
        apply list_elem_of_fmap. by exists t0.
      - intros y z _ Hyz [Hy _]. split; [|by eapply child_is_task].
        destruct (Hc _ _ Hy Hyz) as [->%list_elem_of_singleton|?]; [apply Hq; set_solver|done]. }
    apply list_elem_of_fmap in Hin as (t & -> & Ht).
    destruct (sql_first_is_some (by_task (ad_id t)) _ t Ht) as [t' Ht']; [by apply bool_decide_true|].
    exists t'. split; [|by apply Hget]. apply list_elem_of_omap. by exists (ad_id t).
  - intros t (x & Hx & Ht)%list_elem_of_omap. rewrite (Hget _ _ Ht). split; [done|].
    apply expand_sound in Hx as (q & ->%list_elem_of_singleton & Hr). done.
Qed.
End subtree.

(** ** What a cancellation captures *)

(** The round [e] has not ended for certain, and was accepted for [task_id] or
    while its sender worked on it. *)
Definition unsettled (e : DelegationExecution) : bool :=
  bool_decide (ex_outcome e = OutQueued) || bool_decide (ex_outcome e = OutRunning)
  || bool_decide (ex_outcome e = OutAmbiguous).
Definition round_works (task_id : ident) (e : DelegationExecution) : bool :=
  bool_decide (ex_task_id e = Some task_id) || bool_decide (eo_origin_task_id (ex_origin e) = Some task_id).

(** [db'] is [db] with more captured rounds. *)
Definition captures (db db' : TeamDb) : Prop :=
  exists added, db' = put_cancellations (tm_cancellations db ++ added) db.
Lemma captures_refl db : captures db db.
Proof. exists []. rewrite app_nil_r. by destruct db. Qed.
Lemma captures_trans db1 db2 db3 : captures db1 db2 -> captures db2 db3 -> captures db1 db3.
Proof. intros [l ->] [l' ->]. exists (l ++ l'). simpl. by rewrite app_assoc. Qed.

Lemma capture_spec owner source db :
  exists db', capture owner source true db = (Ok tt, db') /\ captures db db' /\
    forall e, e ∈ tm_executions db -> unsettled e = true -> round_works source e = true ->
      (owner, ex_id e) ∈ tm_cancellations db'.
Proof.
  unfold capture, db_bind, db_read, db_each. set (ids := ex_id <$> _).
  assert (Hids : forall e, e ∈ tm_executions db -> unsettled e = true -> round_works source e = true -> ex_id e ∈ ids).
  { intros e He Hu Hw. apply list_elem_of_fmap. exists e. split; [done|]. apply sql_where_elem. split; [done|].
    fold (unsettled e). rewrite Hu. exact Hw. }
  clearbody ids. enough (forall db, exists db', db_for (fun (_ : unit) id =>
      let! _ := insert_or_ignore cancellations (fun c => bool_decide (c = (owner, id))) (owner, id) in db_ret tt) tt ids db
      = (Ok tt, db') /\ captures db db' /\ forall id, id ∈ ids -> (owner, id) ∈ tm_cancellations db') as H.
  { destruct (H db) as (db' & E & Hc & Hi). exists db'. split_and!; [exact E|done|auto]. }
  clear. induction ids as [|id ids IH]; intros db; [exists db; split_and!; [done|apply captures_refl|set_solver]|].
  cbn [db_for]. set (db1 := put_cancellations (sql_insert_or_ignore (fun c => bool_decide (c = (owner, id))) (owner, id) (tm_cancellations db)) db).
  assert (Hc1 : captures db db1 /\ (owner, id) ∈ tm_cancellations db1).
  { unfold db1, sql_insert_or_ignore. destruct (existsb _ _) eqn:E; simpl.
    - split; [exists []; by rewrite app_nil_r|]. apply existsb_elem in E as (c & Hc & ->%bool_decide_eq_true). done.
    - split; [by exists [(owner, id)]|set_solver]. }
  destruct Hc1 as [Hc1 Ho], (IH db1) as (db' & E & Hc & Hi). exists db'. split; [exact E|].
  split; [by eapply captures_trans|]. intros x [->|Hx]%elem_of_cons; [|by apply Hi]. destruct Hc as [l ->]. simpl. set_solver.
Qed.

(** Every task of the tree captures its own work, and the cancelled one captures
    all of it. *)
Definition capture_tree (owner : ident) (pending : list AgentDelegation) : db_call TeamDb unit :=
  db_each (fun source =>
    let! _ := capture owner (ad_id source) true in
    if bool_decide (ad_id source = owner) then db_ret tt else capture (ad_id source) (ad_id source) true) pending.
Lemma capture_tree_spec owner pending db :
  exists db', capture_tree owner pending db = (Ok tt, db') /\ captures db db' /\
    forall t e, t ∈ pending -> e ∈ tm_executions db -> unsettled e = true -> round_works (ad_id t) e = true ->
      (ad_id t, ex_id e) ∈ tm_cancellations db'.
Proof.
  unfold capture_tree, db_each. revert db. induction pending as [|s pending IH]; intros db.
  { exists db. split_and!; [done|apply captures_refl|set_solver]. }
  cbn [db_for]. unfold db_bind at 1 2.
  destruct (capture_spec owner (ad_id s) db) as (db1 & -> & Hc1 & Hi1).
  assert (exists db2, (if bool_decide (ad_id s = owner) then db_ret tt else capture (ad_id s) (ad_id s) true) db1 = (Ok tt, db2) /\
    captures db db2 /\ forall e, e ∈ tm_executions db -> unsettled e = true -> round_works (ad_id s) e = true ->
      (ad_id s, ex_id e) ∈ tm_cancellations db2) as (db2 & -> & Hc2 & Hi2).
  { case_bool_decide as E; [subst owner; by exists db1|].
    destruct (capture_spec (ad_id s) (ad_id s) db1) as (db2 & -> & Hc2 & Hi2). exists db2. split; [done|].
    split; [by eapply captures_trans|]. by destruct Hc1 as [l ->]. }
  destruct (IH db2) as (db' & E & Hc & Hi). exists db'. split; [exact E|]. split; [by eapply captures_trans|].
  destruct Hc2 as [l Hl]. assert (tm_executions db2 = tm_executions db) as He by (by rewrite Hl).
  intros t e [->|Ht]%elem_of_cons Hx Hu Hw; [|apply Hi; [done|by rewrite He|done..]].
  destruct Hc as [l' ->]. simpl. apply elem_of_app. left. by apply Hi2.
Qed.

(** ** What a fence leaves *)

(** [db'] follows [db] by fencing the tasks [ids]: other tasks, rounds and
    captures are untouched, and no message starts to wait. *)
Record fences (ids : list ident) (db db' : TeamDb) : Prop := mkFences {
  fe_evolves : forall hb, evolves hb false db db';
  fe_executions : tm_executions db' = tm_executions db;
  fe_cancellations : tm_cancellations db' = tm_cancellations db;
  fe_tasks : forall id, id ∉ ids -> delegation_get db' id = delegation_get db id;
  fe_waiting : forall x, x ∈ tm_submissions db' -> Rounds.queued (sb_status x) = true -> x ∈ tm_submissions db
}.
Lemma fences_refl ids db : fences ids db db.
Proof. constructor; try done. intros hb. apply evolves_refl. Qed.
Lemma fences_trans ids ids' db1 db2 db3 :
  fences ids db1 db2 -> fences ids' db2 db3 -> fences (ids ++ ids') db1 db3.
Proof.
  intros [] []. constructor; try congruence; [..|auto].
  - intros hb. by eapply evolves_trans.
  - intros id [H1 H2]%not_elem_of_app. rewrite fe_tasks1 by done. auto.
Qed.

Lemma closed_stays ids db db' id t :
  sound db -> fences ids db db' -> delegation_get db id = Some t ->
  exists t', delegation_get db' id = Some t' /\ (closed t = true -> closed t' = true).
Proof.
  intros Hs Hf Ht. destruct (grows_first _ _ (by_task id) _ _ _ (fun t t' => by_task_moves id t t')
    (ev_tasks _ _ _ _ (fe_evolves _ _ _ Hf (fun _ => false))) Ht) as (t' & Ht' & _ & Hm).
  destruct (Hm (sound_task _ _ _ _ Hs Ht)) as [Ha Hp]. exists t'. split; [done|].
  apply closed_moves; [apply phase_agrees, (sound_task _ _ _ _ Hs Ht)|by apply phase_agrees|done].
Qed.

(** The task is closed, and nothing that waits belongs to a round it captured. *)
Definition fenced_task (db : TeamDb) (id : ident) : Prop :=
  (exists t, delegation_get db id = Some t /\ closed t = true) /\
  forall e x, e ∈ tm_executions db -> unsettled e = true -> captured_for db id (ex_id e) = true ->
    x ∈ tm_submissions db -> sb_id x = ex_submission_id e -> Rounds.queued (sb_status x) = false.
Lemma fenced_task_stays ids db db' id : sound db -> fences ids db db' -> fenced_task db id -> fenced_task db' id.
Proof.
  intros Hs Hf [(t & Ht & Hc) Hw]. split.
  - destruct (closed_stays _ _ _ _ _ Hs Hf Ht) as (t' & Ht' & H). exists t'. auto.
  - rewrite (fe_executions _ _ _ Hf). unfold captured_for. rewrite (fe_cancellations _ _ _ Hf). intros e x He Hu Hcap Hx Hid.
    apply not_true_iff_false. intros Hq. pose proof (fe_waiting _ _ _ Hf x Hx Hq) as Hx'.
    rewrite (Hw e x He Hu Hcap Hx' Hid) in Hq. done.
Qed.

(** Asking a task to stop closes it, whatever its phase was. *)
Lemma request_cancel_spec id t db :
  sound db -> delegation_get db id = Some t ->
  exists t' rows, let db' := put_tasks rows db in
    Delegations.request_delegation_cancellation id db = (Ok (Some t'), db') /\
    delegation_get db' id = Some t' /\ closed t' = true /\ ad_id t' = id /\
    forall id', id' <> id -> delegation_get db' id' = delegation_get db id'.
Proof.
  intros Hs Ht. pose proof (phase_agrees _ (sound_task _ _ _ _ Hs Ht)) as Hp.
  assert (Hid : ad_id t = id) by (apply sql_first_some in Ht as [_ Hb]; by apply bool_decide_eq_true in Hb).
  unfold Delegations.request_delegation_cancellation, db_bind, db_read, execute. cbv beta iota.
  cbn [t_rows t_put tasks]. match goal with |- context [sql_update ?p' ?f' _] => set (p := p'); set (f := f') end.
  set (rows := sql_update _ _ _).
  assert (Hrow : forall q, (forall r, p r = true -> q (f r) = q r) ->
    sql_first q rows = (fun r => if p r then f r else r) <$> sql_first q (tm_tasks db)).
  { intros q Hq. by apply sql_first_update. }
  exists (if p t then f t else t), rows. simpl. unfold delegation_get in *. cbn [tm_tasks put_tasks].
  rewrite (Hrow (by_task id)), Ht by done. split_and!; [done|done| |by destruct (p t)|].
  - destruct (p t) eqn:E; [done|]. unfold p, by_task in E. rewrite bool_decide_true in E by done. simpl in E.
    unfold closed. rewrite Hp. apply andb_false_iff in E as [E|E]; apply negb_false_iff in E; rewrite E;
      [done|by rewrite orb_true_r].
  - intros id' Hd. rewrite (Hrow (by_task id')) by done. destruct (sql_first (by_task id') (tm_tasks db)) as [r|] eqn:E; [|done].
    apply sql_first_some in E as [_ E]. apply bool_decide_eq_true in E. simpl. unfold p, by_task.
    rewrite bool_decide_false by congruence. done.
Qed.

Lemma cancel_inputs_spec id db :
  exists rows, Rounds.cancel_task_inputs id db = (Ok tt, put_submissions rows db) /\
    (forall x, x ∈ rows -> Rounds.queued (sb_status x) = true -> x ∈ tm_submissions db) /\
    (forall e x, e ∈ executions_for_task db id -> x ∈ rows -> sb_id x = ex_submission_id e ->
       Rounds.queued (sb_status x) = false).
Proof.
  unfold Rounds.cancel_task_inputs, db_bind, db_read, execute. cbn [t_rows t_put submissions].
  eexists. split; [done|]. split.
  - intros x (y & Hy & ->)%elem_of_sql_update Hq. by destruct (_ && _).
  - intros e x He (y & Hy & ->)%elem_of_sql_update Hid. destruct (_ && _) eqn:E; [done|].
    rewrite bool_decide_true in E; [done|]. apply list_elem_of_fmap. by exists e.
Qed.

(** An unsettled round that a task captured keeps its cancellation unconfirmed. *)
Lemma captured_unconfirmed db id e :
  e ∈ tm_executions db -> unsettled e = true -> captured_for db id (ex_id e) = true -> is_confirmed db id = false.
Proof.
  intros He Hu Hc. apply not_true_iff_false. unfold is_confirmed. rewrite forallb_forall. intros H.
  assert (Hin : e ∈ executions_for_task db id) by (apply sql_where_elem; by rewrite Hc, orb_true_r).
  apply list_elem_of_In, H in Hin. unfold unsettled, is_settled in *. by destruct (ex_outcome e).
Qed.

Lemma fence_task_spec t t0 db :
  sound db -> delegation_get db (ad_id t) = Some t0 -> (phase_is_terminal (phase t) = true -> closed t0 = true) ->
  exists r db', Rounds.fence_task t db = (Ok r, db') /\ fences [ad_id t] db db' /\ fenced_task db' (ad_id t).
Proof.
  intros Hs Ht Hc. pose proof (fun hb => moves_fence hb false t db) as Hm. revert Hm.
  unfold Rounds.fence_task. rewrite bind_read.
  destruct (phase_is_terminal (phase t) && is_confirmed db (ad_id t)) eqn:Et.
  - apply andb_true_iff in Et as [Et Econf]. intros _. exists None, db. split; [done|]. split; [apply fences_refl|].
    split; [exists t0; auto|]. intros e x He Hu Hcap _ _. by rewrite (captured_unconfirmed db _ e He Hu Hcap) in Econf.
  - unfold db_bind. destruct (request_cancel_spec (ad_id t) t0 db Hs Ht) as (t' & tasks' & -> & Hg & Hcl & Hid & Hother).
    destruct (cancel_inputs_spec (ad_id t') (put_tasks tasks' db)) as (subs & -> & Hq & Hw).
    match goal with |- context [VibexUseEvent.append ?i ?r ?k ?a ?s ?n ?p ?d] =>
      destruct (append_spec i r k a s n p d) as (e & evs & ->) end.
    cbv beta iota delta [db_ret snd]. intros Hm. eexists _, _. split; [done|]. rewrite Hid in Hw. split.
    + constructor; try done. intros id Hd. apply Hother. set_solver.
    + split; [by exists t'|]. intros e' x He Hu Hcap Hx Hxe. apply (Hw e' x); [|done..].
      apply sql_where_elem. split; [done|]. apply orb_true_iff. right. exact Hcap.
Qed.

(** ** The cancellation of a tree *)

Definition fence_tree (pending : list AgentDelegation) (acc : list AgentDelegation) :=
  db_for (fun fenced task =>
    let! t := Rounds.fence_task task in
    db_ret (match t with Some t => fenced ++ [t] | None => fenced end)) acc pending.
Lemma fence_tree_spec pending acc db :
  sound db ->
  (forall t, t ∈ pending -> exists t0, delegation_get db (ad_id t) = Some t0 /\
     (phase_is_terminal (phase t) = true -> closed t0 = true)) ->
  exists r db', fence_tree pending acc db = (Ok r, db') /\ fences (ad_id <$> pending) db db' /\
    forall t, t ∈ pending -> fenced_task db' (ad_id t).
Proof.
  unfold fence_tree. revert acc db. induction pending as [|t pending IH]; intros acc db Hs Hp.
  { exists acc, db. split; [done|]. split; [apply fences_refl|set_solver]. }
  destruct (Hp t) as (t0 & Ht0 & Hc); [set_solver|].
  destruct (fence_task_spec t t0 db Hs Ht0 Hc) as (r & db1 & E1 & Hf1 & Hd1).
  assert (Hs1 : sound db1) by (by eapply sound_evolves; [apply (fe_evolves _ _ _ Hf1 (fun _ => false))|]).
  cbn [db_for]. unfold db_bind at 1 2. rewrite E1. cbv beta iota delta [db_ret].
  destruct (IH (match r with Some t => acc ++ [t] | None => acc end) db1 Hs1) as (r' & db' & E & Hf & Hd).
  - intros t' Ht'. destruct (Hp t') as (t1 & Ht1 & Hc1); [set_solver|].
    destruct (closed_stays _ _ _ _ _ Hs Hf1 Ht1) as (t2 & Ht2 & Hcl). exists t2. auto.
  - exists r', db'. split; [exact E|]. split; [by apply (fences_trans [ad_id t] _ db db1)|].
    intros t' [->|Ht']%elem_of_cons; [by apply (fenced_task_stays (ad_id <$> pending) db1)|by apply Hd].
Qed.

Lemma captures_evolves hb db db' : captures db db' -> evolves hb false db db'.
Proof. intros [l ->]. one_table. simpl. set_solver. Qed.

(** C9. The cancellation of a task reaches every task below it and no other: each
    is closed, and of the rounds that were accepted for it, or sent while it
    was worked on, none that had not ended waits any more or is ever sent,
    however the history goes on. *)
Theorem cancelled_tree_is_stopped (ops : list TeamOp) (db : TeamDb) (id : ident) (task : AgentDelegation) :
  sound db -> delegation_get db id = Some task ->
  exists fenced db', Rounds.request_delegation_tree_cancellation id true db = (Ok fenced, db') /\
  (forall sub, rtc (below db) id sub ->
     (exists t, delegation_get db' sub = Some t /\ closed t = true) /\
     forall e x, e ∈ tm_executions db -> unsettled e = true -> round_works sub e = true ->
       x ∈ tm_submissions db' -> sb_id x = ex_submission_id e ->
       Rounds.queued (sb_status x) = false /\
       is_ok (fst (Submissions.mark_about_to_prompt (sb_id x) (after ops db'))) = false) /\
  (forall other, ~ rtc (below db) id other -> delegation_get db' other = delegation_get db other).
Proof.
  intros Hs H0. assert (Hid : ad_id task = id) by (apply sql_first_some in H0 as [_ H]; by apply bool_decide_eq_true in H).
  destruct (subtree_spec db id task H0) as [Hall Hsub].
  destruct (capture_tree_spec id (task_subtree db id true) db) as (db1 & E1 & Hc & Hcap).
  pose proof (sound_evolves _ _ _ _ (captures_evolves (fun _ => false) _ _ Hc) Hs) as Hs1.
  destruct (fence_tree_spec (task_subtree db id true) [] db1 Hs1) as (r & db' & E & Hf & Hd).
  { intros t Ht. exists t. destruct Hc as [l ->]. split; [by apply Hsub|]. unfold closed. by intros ->. }
  exists (reverse r), db'. split.
  { unfold Rounds.request_delegation_tree_cancellation, db_transaction. rewrite bind_read, H0. simpl ok_or.
    unfold db_bind at 1, db_lift. rewrite bind_read, Hid. unfold db_bind at 1.
    unfold capture_tree in E1. rewrite E1. unfold db_bind at 1. unfold fence_tree in E. by rewrite E. }
  assert (Hex : tm_executions db' = tm_executions db) by (rewrite (fe_executions _ _ _ Hf); by destruct Hc as [l ->]).
  split.
  - intros sub Hr. destruct (Hall sub Hr) as (t & Ht & <-). destruct (Hd t Ht) as [Hcl Hw]. split; [done|].
    intros e x He Hu Hrw Hx Hxe. pose proof (Hcap t e Ht He Hu Hrw) as Hin. rewrite <- (fe_cancellations _ _ _ Hf) in Hin.
    pose proof (sound_evolves _ _ _ _ (fe_evolves _ _ _ Hf (fun _ => false)) Hs1) as Hs'. rewrite <- Hex in He. split.
    + apply (Hw e x); [done..| |done|done]. by apply bool_decide_true.
    + destruct (so_round_of _ _ Hs' e He) as (y & Hy & Hye & _ & _ & Hdel).
      assert (y = x) as -> by (apply (column_inj sb_id _ _ _ (so_ids _ _ Hs') Hy Hx); congruence).
      destruct (stopped_after ops db' x Hs' Hx) as (x' & Hx' & <- & Hd' & Hst').
      { left. exists e. split_and!; [done..|]. right. apply existsb_elem. exists (ad_id t, ex_id e).
        split; [done|]. by apply bool_decide_true. }
      apply stopped_is_unsent; [by apply after_sound|done|congruence|done].
  - intros other Hn. rewrite (fe_tasks _ _ _ Hf); [by destruct Hc as [l ->]|].
    intros (t & -> & Ht)%list_elem_of_fmap. by apply Hn, Hsub.
Qed.
