(* ===== verification/TeamScenario.v ===== *)
(** A lead session that gives a task to a worker session and sends it a message,
    on which the theorems of [TeamRounds], [TeamSafety] and [TeamTree] are
    instantiated. *)
From stdpp Require Import prelude strings list gmap.
From Stdlib Require Import NArith ZArith Lia.
From S2P Require Import Prelude CoreTypes Rows Storage Ir Json Team TeamStore TeamWork TeamHistory TeamDelete TeamInbox TeamRounds TeamSafety TeamTree.

(** ** The story *)

Definition uuid_at (n : nat) : str := replicate (S n) 97%N.
Lemma uuid_at_fresh m n : uuid_at m = uuid_at n -> m = n.
Proof. intros H. apply (f_equal length) in H. unfold uuid_at in H. rewrite !length_replicate in H. lia. Qed.
Definition story (ops : list TeamOp) : TeamDb := after ops (empty_db uuid_at).
Lemma story_sound ops : sound (story ops).
Proof. apply after_sound, empty_sound, uuid_at_fresh. Qed.

Definition lead : ident := lit "session_lead".
Definition worker : ident := lit "session_worker".
Definition the_task_id : ident := lit "delegation_1".
Definition first_message : ident := lit "submission_1".
Definition agent : ident := lit "agent_1".
Definition ask (key : string) : VibexUseOperation :=
  mkOperation (lit "operation_1") (lit "local") lead (lit "delegate") (lit key) (lit "print") OpAccepted None None false
    [] ∅ 0 0.
Definition new_task (policy : DelegationCompletionPolicy) : AgentDelegation :=
  mkDelegation
    (mkTerms the_task_id lead (lit "task key") (lit "title") (lit "summary") None policy OwnedChild None 1000 None)
    (mkProgress StatusStarting TaskStarting None None 1 None None None None)
    (mkWork None None [] [] None None [] 0 (Some lead) None) None None None 1000 None.
Definition selection : SessionRuntimeSelection :=
  mkSelection agent (AuthAgentAccount (lit "account")) AgentDefaultModel None None ∅.
Definition message (key : string) : SendAgentMessageRequest :=
  mkRequest worker (lit key) selection (lit "please") [] [] None None DeliverPrompt None
    (DelegatedInput (session_ref lead) (Some (task_ref the_task_id)) (mkRef RefOperation (lit "operation_1"))).
Definition session_of (s : ident) : AgentSessionRow := mkSessionRow s agent Idle None None 0 None.
Definition world (now : Z) : TeamOp := OpWorld now [session_of lead; session_of worker] [] [].

Definition hired (policy : DelegationCompletionPolicy) : list TeamOp :=
  [world 1000; OpReserveOperation (ask "k") (lit "k"); OpReserveTask (new_task policy) 4;
   OpAttachChild the_task_id worker agent lead].
Definition accepted (policy : DelegationCompletionPolicy) : list TeamOp :=
  hired policy ++ [OpEnqueue first_message (message "m1") None; OpAdvance first_message AwaitingRuntime ReadyToDispatch].
Definition prompted (policy : DelegationCompletionPolicy) : list TeamOp :=
  accepted policy ++ [OpAboutToPrompt first_message].
Definition round_id : ident := id_new VibexExecutionId (uuid_at 0).


(** What a look at the tables shows. *)
Definition summary (db : TeamDb) :=
  (phase <$> delegation_get db the_task_id, sb_status <$> tm_submissions db, ex_outcome <$> tm_executions db,
   (fun c => (sc_revision c, sc_human_controlled c)) <$> controller_get db worker, ev_kind <$> tm_events db).
Example accepted_summary :
  summary (story (accepted OwnerReview))
  = (Some TaskActive, [ReadyToDispatch], [OutQueued], Some (2%Z, false), [EvExecutionAccepted]).
Proof. vm_compute. reflexivity. Qed.
Example prompted_summary :
  summary (story (prompted OwnerReview))
  = (Some TaskActive, [AboutToPrompt], [OutRunning], Some (2%Z, false), [EvExecutionAccepted; EvExecutionStarted]).
Proof. vm_compute. reflexivity. Qed.

(** The rows of the story. *)
Definition the_message (db : TeamDb) : MessageSubmissionRecord :=
  default (Submissions.new_submission first_message (message "m1") SwitchAutomatic 0 0) (submission_get db first_message).
Definition the_controller (db : TeamDb) : SessionController :=
  default (mkController worker None None 0 false 0) (controller_get db worker).
Definition the_round (db : TeamDb) : DelegationExecution :=
  default (Rounds.queued_execution round_id (message "m1") None first_message lead 0 0)
    (sql_first (by_execution round_id) (tm_executions db)).
Definition the_task (db : TeamDb) : AgentDelegation := default (new_task OwnerReview) (delegation_get db the_task_id).
Definition has {A} (o : option A) : bool := match o with Some _ => true | None => false end.
Lemma has_some {A} (o : option A) (d : A) : has o = true -> o = Some (default d o).
Proof. by destruct o. Qed.
Lemma message_in db : has (submission_get db first_message) = true -> the_message db ∈ tm_submissions db.
Proof.
  unfold the_message. destruct (submission_get db first_message) eqn:E; [|done]. by apply submission_get_spec in E as [? _].
Qed.

(** ** The theorems at work *)

Definition prompt_ok (db : TeamDb) : bool := is_ok (fst (Submissions.mark_about_to_prompt (sb_id (the_message db)) db)).
Definition retries : list TeamOp :=
  [OpAboutToPrompt first_message; OpAdvance first_message ReadyToDispatch AboutToPrompt; OpAboutToPrompt first_message].
Lemma message_is_prompted_at_most_once_witness :
  sound (story (accepted OwnerReview)) /\ prompts first_message retries (story (accepted OwnerReview)) = 1 /\
  prompts first_message retries (story (accepted OwnerReview)) <= 1.
Proof.
  split; [apply story_sound|]. split; [vm_compute; reflexivity|].
  apply (message_is_prompted_at_most_once retries (story (accepted OwnerReview)) first_message (story_sound _)).
Defined.

(** The lead borrows a session that is not its child, and is deleted: its task and
    the round go, the message stays. *)
Definition borrowed_task : AgentDelegation :=
  mkDelegation
    (mkTerms the_task_id lead (lit "task key") (lit "title") (lit "summary") None OwnerReview ControlledExisting None 1000
       None)
    (mkProgress StatusRunning TaskActive None None 1 None None None None)
    (mkWork None None [] [] None None [] 0 (Some lead) None) (Some worker) (Some agent) None 1000 None.
Definition borrowed : list TeamEvent := Wrote <$>
  [world 1000; OpReserveOperation (ask "k") (lit "k"); OpReserveTask borrowed_task 4;
   OpGrant lead worker (lit "controlled") (lit "user"); OpClaim worker the_task_id lead None;
   OpEnqueue first_message (message "m1") None].
Definition lead_deleted : list TeamEvent := borrowed ++ [DeletedSession lead].
Lemma no_rows {A} (l : list A) x : l = [] -> ~ x ∈ l.
Proof. intros ->. apply not_elem_of_nil. Qed.

(** A person takes the worker's session over before the message is sent. *)
Definition taken_over : TeamDb := story (accepted OwnerReview ++ [OpTakeOver worker]).
Lemma taken_over_controller : controller_get taken_over worker = Some (the_controller taken_over).
Proof. apply has_some. vm_compute. reflexivity. Qed.
Lemma handback_revives_no_older_round_witness :
  prompt_ok (story (accepted OwnerReview)) = true /\ sound taken_over /\
  (sc_human_controlled <$> controller_get (after [OpReturnToAgent worker lead] taken_over) worker) = Some false /\
  is_ok (fst (Submissions.mark_about_to_prompt (sb_id (the_message taken_over))
                (after [OpReturnToAgent worker lead] taken_over))) = false.
Proof.
  split; [vm_compute; reflexivity|]. split; [apply story_sound|]. split; [vm_compute; reflexivity|].
  apply (handback_revives_no_older_round [OpReturnToAgent worker lead] taken_over (the_message taken_over)
           (the_controller taken_over) (story_sound _)).
  - apply message_in. vm_compute. reflexivity.
  - vm_compute. reflexivity.
  - etrans; [|apply taken_over_controller]. vm_compute. reflexivity.
  - vm_compute. reflexivity.
Defined.

Definition meanwhile : list TeamOp := [world 2000; OpClaim worker the_task_id lead None; OpAboutToPrompt first_message].
Lemma person_keeps_the_session_witness :
  sound taken_over /\ existsb (hands_back worker) meanwhile = false /\
  exists c', controller_get (after meanwhile taken_over) worker = Some c' /\ sc_human_controlled c' = true.
Proof.
  split; [apply story_sound|]. split; [vm_compute; reflexivity|].
  refine (proj1 (person_keeps_the_session meanwhile taken_over (the_controller taken_over) (story_sound _) _ _ _)).
  - etrans; [|apply taken_over_controller]. vm_compute. reflexivity.
  - vm_compute. reflexivity.
  - vm_compute. reflexivity.
Defined.

(** The round is interrupted before it is sent. *)
Definition stopped_story : TeamDb := story (accepted OwnerReview ++ [OpInterrupt round_id]).
Lemma stopped_work_is_never_sent_witness :
  sound stopped_story /\ stopped stopped_story (the_message stopped_story) /\
  is_ok (fst (Submissions.mark_about_to_prompt (sb_id (the_message stopped_story)) (after [world 3000] stopped_story)))
  = false.
Proof.
  assert (H : stopped stopped_story (the_message stopped_story)).
  { left. exists (the_round stopped_story).
    assert (E : sql_first (by_execution round_id) (tm_executions stopped_story) = Some (the_round stopped_story))
      by (apply has_some; vm_compute; reflexivity).
    apply sql_first_some in E as [E _]. split; [exact E|]. split; [vm_compute; reflexivity|].
    left. eexists. vm_compute. reflexivity. }
  split; [apply story_sound|]. split; [exact H|].
  refine (stopped_work_is_never_sent [world 3000] stopped_story (the_message stopped_story) (story_sound _) _ _ H).
  - apply message_in. vm_compute. reflexivity.
  - vm_compute. reflexivity.
Defined.

(** The task is rejected by its owner, and cancelled afterwards. *)
Definition rejected : TeamDb :=
  story (prompted OwnerReview ++
         [OpAdvance first_message AboutToPrompt Dispatched; OpAdvance first_message Dispatched SubmissionCompleted;
          OpSettleRound (with_result (mkResult OutCompleted None None (Some (lit "done")) [] [] UsageUnknown false None None)
                           (the_round (story (prompted OwnerReview))));
          OpFinish the_task_id None false None]).

(** The end of the round, as its observer reports it. *)
Definition running (policy : DelegationCompletionPolicy) : TeamDb := story (prompted policy).
Definition ended (db : TeamDb) : DelegationExecution :=
  with_result (mkResult OutCompleted None None (Some (lit "done")) [] [] UsageUnknown false None None) (the_round db).
Lemma settled_round_moves_its_task_witness :
  phase (the_task (running SingleTurnLegacy)) = TaskActive /\
  exists e db' t', Rounds.settle_vibex_use_execution (ended (running SingleTurnLegacy)) (running SingleTurnLegacy)
      = (Ok (Some e), db') /\
    delegation_get db' the_task_id = Some t' /\
    round_moves false SingleTurnLegacy TaskActive OutCompleted (phase t') /\
    tp_result_summary (ad_progress t') = Some (lit "done").
Proof.
  split; [vm_compute; reflexivity|].
  assert (E : delegation_get (running SingleTurnLegacy) the_task_id = Some (the_task (running SingleTurnLegacy)))
    by (apply has_some; vm_compute; reflexivity).
  destruct (settled_round_moves_its_task (running SingleTurnLegacy) (ended (running SingleTurnLegacy))
              (the_round (running SingleTurnLegacy)) the_task_id (the_task (running SingleTurnLegacy))
              (story_sound _) E) as (e & db' & t' & H & _ & _ & Ht & _ & _ & Hp & _).
  - by vm_compute.
  - vm_compute. reflexivity.
  - etrans; [|apply has_some; vm_compute; reflexivity]. vm_compute. reflexivity.
  - exists e, db', t'. split; [done|]. split; [done|].
    destruct Hp as (Hm & _ & _ & Hs & _); [by apply (bool_decide_unpack _); vm_compute|vm_compute; reflexivity|].
    split; [vm_compute in Hm; exact Hm|]. rewrite Hs. vm_compute. reflexivity.
Defined.

Definition claimed : VibexUseOperation := VibexUseOperations.stored_at 1000 (lit "k") (ask "k").
Definition claimed_db : TeamDb := snd (VibexUseOperations.reserve (ask "k") (lit "k") (story [world 1000])).
Lemma operation_is_claimed_once_witness :
  VibexUseOperations.reserve (ask "k") (lit "k") (story [world 1000]) = (Ok (OperationClaimed claimed), claimed_db) /\
  exists o', operation_identity o' = operation_identity claimed /\
    VibexUseOperations.reserve (ask "k") (lit "k") (after [OpCheckpoint (lit "operation_1") [] [] true] claimed_db)
    = (Ok (OperationExisting o'), after [OpCheckpoint (lit "operation_1") [] [] true] claimed_db).
Proof.
  assert (E : VibexUseOperations.reserve (ask "k") (lit "k") (story [world 1000])
              = (Ok (OperationClaimed claimed), claimed_db)) by (vm_compute; reflexivity).
  split; [exact E|].
  destruct (operation_is_claimed_once [OpCheckpoint (lit "operation_1") [] [] true] _ _ _ _ _ E) as (_ & _ & H).
  exact (H (ask "k") eq_refl eq_refl).
Defined.

Definition an_event : DelegationTaskEvent :=
  default (mkEvent 0 [] EvTaskFinished None None None 0 JNull 0) (head (tm_events (story (accepted OwnerReview)))).
(** One reader acknowledges the event, another was shown it and did not. *)
Definition inbox : TeamDb := after [OpDelivered (lit "reader") [ev_event_id an_event]] (story (accepted OwnerReview)).
Definition other_reads : list TeamOp :=
  [OpDelivered (lit "other") [ev_event_id an_event]; OpAcknowledge (lit "other") [ev_event_id an_event];
   OpAcknowledgeThrough (lit "reader") 0; OpAboutToPrompt first_message].
Lemma unacknowledged_event_stays_readable_witness :
  an_event ∈ tm_events inbox /\
  (an_event ∈ fst ∘ fst <$> VibexUseEvent.events_for_targets (after other_reads inbox) (lit "reader") lead 0 10 false [] [] \/
   length (fst ∘ fst <$> VibexUseEvent.events_for_targets (after other_reads inbox) (lit "reader") lead 0 10 false [] []) = 10) /\
  an_event ∉ fst ∘ fst <$> VibexUseEvent.events_for_targets
    (after [OpAcknowledgeThrough (lit "reader") (ev_cursor an_event)] (after other_reads inbox)) (lit "reader") lead 0 10
    false [] [].
Proof.
  assert (H : an_event ∈ tm_events inbox) by (vm_compute; apply list_elem_of_here).
  split; [exact H|].
  destruct (unacknowledged_event_stays_readable other_reads inbox an_event (lit "reader") lead 0 10 [] [])
    as (_ & Hpage & Hgone).
  - apply after_sound, story_sound.
  - apply (bool_decide_unpack _). vm_compute. reflexivity.
  - exact H.
  - vm_compute. reflexivity.
  - vm_compute. reflexivity.
  - vm_compute. reflexivity.
  - repeat constructor.
  - split; [destruct Hpage as [Hp|[Hl _]]; [by left|by right]|].
    apply Hgone; [vm_compute; reflexivity|]. eexists. vm_compute. reflexivity.
Defined.

Lemma reference_round_trip_witness :
  VibexUseRef_parse (lit " vibex:task/delegation_1 ") = Some (task_ref the_task_id) /\
  VibexUseRef_parse (as_uri (task_ref the_task_id)) = Some (task_ref the_task_id).
Proof.
  assert (E : VibexUseRef_parse (lit " vibex:task/delegation_1 ") = Some (task_ref the_task_id))
    by (vm_compute; reflexivity).
  split; [exact E|]. exact (reference_round_trip _ _ E).
Defined.

(** The worker, at work on its task, gives a helper a task of its own and a
    message that still waits when the first task is cancelled. *)
Definition helper : ident := lit "session_helper".
Definition sub_task_id : ident := lit "delegation_2".
Definition sub_message : ident := lit "submission_2".
Definition sub_task : AgentDelegation :=
  mkDelegation
    (mkTerms sub_task_id worker (lit "sub key") (lit "title") (lit "summary") None OwnerReview OwnedChild None 1500 None)
    (mkProgress StatusStarting TaskStarting None None 1 None None None None)
    (mkWork None None [] [] None None [] 0 (Some lead) None) None None None 1500 None.
Definition ask_helper : VibexUseOperation :=
  mkOperation (lit "operation_2") (lit "local") worker (lit "delegate") (lit "k2") (lit "print") OpAccepted None None false
    [] ∅ 0 0.
Definition message_to_helper : SendAgentMessageRequest :=
  mkRequest helper (lit "m2") selection (lit "help") [] [] None None DeliverPrompt None
    (DelegatedInput (session_ref worker) (Some (task_ref sub_task_id)) (mkRef RefOperation (lit "operation_2"))).
Definition tree : TeamDb :=
  story (prompted OwnerReview ++
    [OpWorld 1500 [session_of lead; session_of worker; session_of helper] [] [];
     OpReserveOperation ask_helper (lit "k2"); OpReserveTask sub_task 4;
     OpAttachChild sub_task_id helper agent worker; OpEnqueue sub_message message_to_helper None;
     OpAdvance sub_message AwaitingRuntime ReadyToDispatch]).
Definition sub_round (db : TeamDb) : DelegationExecution :=
  default (the_round db) (get_by_submission db sub_message).
Example tree_summary :
  (phase <$> delegation_get tree sub_task_id,
   (tt_parent_task_id ∘ ad_terms) <$> delegation_get tree sub_task_id,
   sb_status <$> submission_get tree sub_message,
   is_ok (fst (Submissions.mark_about_to_prompt sub_message tree)),
   (sb_status <$> submission_get (after [OpCancelTree the_task_id true] tree) sub_message))
  = (Some TaskActive, Some (Some the_task_id), Some ReadyToDispatch, true, Some SubmissionCancelled).
Proof. vm_compute. reflexivity. Qed.
Lemma cancelled_tree_is_stopped_witness :
  below tree the_task_id sub_task_id /\
  exists fenced db', Rounds.request_delegation_tree_cancellation the_task_id true tree = (Ok fenced, db') /\
    exists t, delegation_get db' sub_task_id = Some t /\ closed t = true.
Proof.
  assert (E : delegation_get tree the_task_id = Some (the_task tree)) by (apply has_some; vm_compute; reflexivity).
  assert (B : below tree the_task_id sub_task_id) by (vm_compute; apply list_elem_of_here).
  split; [exact B|].
  destruct (cancelled_tree_is_stopped [] tree the_task_id (the_task tree) (story_sound _) E) as (fenced & db' & H & Hsub & _).
  exists fenced, db'. split; [exact H|]. exact (proj1 (Hsub sub_task_id (rtc_once _ _ B))).
Defined.
