(* ===== verification/TrustScenario.v ===== *)
(** A desktop that gives out two codes and an offer, and two clients that use
    them, on which the theorems of [TrustHistory] are instantiated; and the race
    between two claims of one client. *)
From stdpp Require Import prelude strings list gmap.
From Stdlib Require Import NArith ZArith Lia.
From S2P Require Import Prelude CoreTypes Storage Trust TrustHistory.

(** Third-party code that a concrete run needs: a digest that separates the
    inputs at hand, hexadecimal for base64, and URLs read as their host. *)
Definition unhex_digit (c : N) : N := if (c <=? 57)%N then (c - 48)%N else (c - 87)%N.
Fixpoint unhex (text : str) : option (list N) :=
  match text with
  | [] => Some []
  | [_] => None
  | a :: b :: rest => (fun bytes => (unhex_digit a * 16 + unhex_digit b)%N :: bytes) <$> unhex rest
  end.
#[export] Instance toy_platform : Platform := {|
  sha256 := fun bytes => reverse bytes;
  base64url_encode := fun bytes => bytes ≫= hex_byte;
  base64url_decode := unhex;
  parse_url := fun text => Some (mkUrl (lit "https") (Some text) [] None None None text);
  offer_to_json := fun offer => Some (of_one_time_challenge offer)
|}.

Definition ids (call : nat) (i : nat) : str := decimal (Z.of_nat (call * 10 + i)).
Definition trust_tables (ops : list trust_op) : TrustDb := trust_run ops (mkTrustDb ∅ ∅ ∅ None 1000).
Definition code_request (level : RemoteDevicePermissionLevel) : RemoteCreatePairingCodeRequest :=
  mkCreateCode level None.
Definition code_of (call : nat) : str := generate_pairing_code (ids call 0).
Definition pairing_of (call : nat) : ident := id_new RequestId (ids call 1).
Definition client_key : str := base64url_encode (replicate 32 7%N).
Definition claim_code_request (call : nat) : RemoteClaimPairingCodeRequest :=
  mkClaimCode (code_of call) (lit " my phone ") (Some client_key).

(** Two codes, of full control and of reading. *)
Definition two_codes : list trust_op :=
  [OpCreateCode (ids 0) (code_request FullControl); OpCreateCode (ids 1) (code_request ReadOnly)].

Lemma empty_trust_wf now : trust_wf (mkTrustDb ∅ ∅ ∅ None now).
Proof. split; [intros ?? H|intros ?? H|intros ?? H|intros ???? H]; simpl in H; by rewrite lookup_empty in H. Qed.
Lemma trust_tables_wf ops : trust_wf (trust_tables ops).
Proof. apply run_wf, empty_trust_wf. Qed.

(** The phone pairs with the first code, then with the second: one row, the
    rights of the second. *)
Definition claims_in_turn : TrustDb :=
  (claim_pairing_code (ids 3) id (claim_code_request 1)
     (claim_pairing_code (ids 2) id (claim_code_request 0) (trust_tables two_codes)).2).2.
Example turns_pair_once :
  (fun r => (rd_display_name (dr_detail r), rd_permission_level (dr_detail r), rd_grant_revision (dr_detail r)))
    <$> (map_to_list (tr_devices claims_in_turn)).*2
  = [(lit "my phone", ReadOnly, 2%Z)].
Proof. vm_compute. reflexivity. Qed.

(** The race: the second claim is written between the first one's lookup of the
    client's key and its transaction. *)
Definition claims_at_once : TrustDb :=
  (claim_pairing_code (ids 2) (fun db => (claim_pairing_code (ids 3) id (claim_code_request 1) db).2)
     (claim_code_request 0) (trust_tables two_codes)).2.
Definition has_key (key : str) (db : TrustDb) (d : ident) : bool :=
  match tr_devices db !! d with Some r => bool_decide (rd_public_key (dr_detail r) = Some key) | None => false end.
Lemma two_rows_of_key key d e db :
  has_key key db d = true -> has_key key db e = true -> d <> e -> ~ one_row_per_key db.
Proof.
  unfold has_key. intros Hd He Hne Ho. destruct (tr_devices db !! d) as [r|] eqn:Ed; [|done].
  destruct (tr_devices db !! e) as [s|] eqn:Ee; [|done]. apply bool_decide_eq_true in Hd, He.
  by apply Hne, (Ho d e r s key).
Qed.
Lemma no_devices_typed db : trust_wf db -> tr_devices db = ∅ -> trust_typed db.
Proof. intros Hw E. split; [done|]. intros i j r s key Hr. by rewrite E, lookup_empty in Hr. Qed.
Lemma race_pairs_twice : trust_typed (trust_tables two_codes) /\ ~ one_row_per_key claims_at_once.
Proof.
  split; [apply no_devices_typed; [apply trust_tables_wf|vm_compute; reflexivity]|].
  apply (two_rows_of_key client_key (id_new DeviceId (ids 2 2)) (id_new DeviceId (ids 3 2)));
    [vm_compute; reflexivity..|]. by vm_compute.
Qed.

(** ** An offer, and what becomes of it *)

Definition desktop : RemoteIdentity := mkIdentity (lit "desk") (lit "key").
Definition seed : list N := replicate 32 9%N.
Definition with_offer : list trust_op :=
  [OpCreateOffer (ids 4) seed desktop (mkCreateOffer ApproveOnly None [] None)].
Definition offer_id_of (call : nat) : ident := id_new RequestId (ids call 0).
Definition claim_offer_request : RemoteClaimPairingOfferRequest :=
  mkClaimOffer (offer_id_of 4) (secure_secret "pair" seed) (lit "desk") (lit "key") (lit "tablet") client_key
    (lit "nonce-nonce-nonce").
Definition claim_offer_op : trust_op := OpClaimOffer (ids 5) seed claim_offer_request.
Definition tablet_id : ident := id_new DeviceId (ids 5 0).
Definition tablet_proof : RemoteAuthProof := mkAuthProof tablet_id (secure_secret "grant" seed).
Definition revoke_op : trust_op := OpRevoke (ids 6 0) (mkRevokeDevice tablet_id None).
Definition restore_op : trust_op := OpCommitRestore (ids 7 0) tablet_id (lit "found again") 1000.

(** In, out, in again. *)
Example tablet_in_and_out :
  (fun ops => is_ok (authenticate (ids 8 0) tablet_proof (trust_tables (with_offer ++ ops))).1) <$>
    [[]; [claim_offer_op]; [claim_offer_op; revoke_op]; [claim_offer_op; revoke_op; restore_op]]
  = [false; true; false; true].
Proof. vm_compute. reflexivity. Qed.
(** An offer that has run out is refused as such. *)
Example late_claim_refused :
  (claim_pairing_offer (ids 5) seed claim_offer_request (trust_tables (with_offer ++ [OpTime 500000]))).1
  = Err OFFER_EXPIRED.
Proof. vm_compute. reflexivity. Qed.

Lemma nothing_is_undone_witness :
  trust_wf (trust_tables with_offer) /\
  nothing_undone (trust_tables with_offer) (trust_run [claim_offer_op; revoke_op] (trust_tables with_offer)).
Proof. split; [apply trust_tables_wf|]. apply nothing_is_undone, trust_tables_wf. Defined.

Lemma pairing_is_claimed_once_witness :
  wins (offer_id_of 4) claim_offer_op (trust_tables with_offer) = true /\
  wins (offer_id_of 4) (OpClaimOffer (ids 9) seed claim_offer_request)
    (trust_run [revoke_op] (trust_step (trust_tables with_offer) claim_offer_op)) = false.
Proof.
  assert (E : wins (offer_id_of 4) claim_offer_op (trust_tables with_offer) = true) by (vm_compute; reflexivity).
  split; [exact E|].
  exact (proj1 (pairing_is_claimed_once (offer_id_of 4) claim_offer_op [revoke_op] (trust_tables with_offer)
    (trust_tables_wf with_offer) E) _).
Defined.

Lemma grants_follow_the_events_witness :
  let db := trust_tables with_offer in
  let ops := [claim_offer_op; revoke_op; restore_op] in
  trust_wf db /\
  trust_events ops db = [Granted tablet_id (hash_secret (secure_secret "grant" seed)) true;
                         GrantRevoked tablet_id; GrantRestored tablet_id] /\
  grants (trust_run ops db) = foldl grant_step (grants db) (trust_events ops db).
Proof.
  intros db ops. split; [apply trust_tables_wf|]. split; [vm_compute; reflexivity|].
  apply (grants_follow_the_events ops db (trust_tables_wf with_offer)).
Defined.

Lemma revoked_device_stays_out_witness :
  let db := trust_tables (with_offer ++ [claim_offer_op]) in
  is_ok (authenticate (ids 8 0) tablet_proof db).1 = true /\
  is_ok (authenticate (ids 8 0) tablet_proof
           (trust_run [OpAuthenticate (ids 9 0) tablet_proof; OpTime 2000] (trust_step db revoke_op))).1 = false.
Proof.
  intros db. split; [vm_compute; reflexivity|].
  refine (revoked_device_stays_out (ids 6 0) (mkRevokeDevice tablet_id None)
    [OpAuthenticate (ids 9 0) tablet_proof; OpTime 2000] db (trust_tables_wf _) _ (ids 8 0) _).
  vm_compute. reflexivity.
Defined.

Lemma one_client_one_row_witness :
  let db := trust_tables two_codes in
  trust_typed db /\ trust_typed (claim_pairing_code (ids 2) (trust_run [OpTime 2000]) (claim_code_request 0) db).2.
Proof.
  intros db. assert (Ht : trust_typed db).
  { apply no_devices_typed; [apply trust_tables_wf|vm_compute; reflexivity]. }
  split; [exact Ht|]. by apply (proj2 one_client_one_row).
Defined.

Lemma offer_is_claimed_by_its_terms_witness :
  let db := trust_tables with_offer in
  exists response db', claim_pairing_offer (ids 5) seed claim_offer_request db = (Ok response, db') /\
    Forall fst (request_terms claim_offer_request ++ offer_terms claim_offer_request db) /\
    admits (grants db') (mkAuthProof (rd_device_id (kr_device response)) (secure_secret "grant" seed)) = true.
Proof.
  intros db. assert (E : tr_audits db !! id_new RequestId (ids 5 1) = None) by (vm_compute; reflexivity).
  pose proof (offer_is_claimed_by_its_terms (ids 5) seed claim_offer_request db (trust_tables_wf _) E) as H.
  assert (Hok : is_ok (claim_pairing_offer (ids 5) seed claim_offer_request db).1 = true) by (vm_compute; reflexivity).
  destruct (claim_pairing_offer _ _ _ _) as [[response|e] db']; [|done].
  destruct H as (Ht & _ & _ & Ha). by exists response, db'.
Defined.
