(* ===== verification/RemoteScenario.v ===== *)
(** A desktop with its gateway, a phone that pairs over the local network and a
    peer that guesses, on which the theorems of [LanPairing], [PeerLimiter] and
    [RemoteHistory] are instantiated. *)
From stdpp Require Import prelude strings list gmap.
From Stdlib Require Import NArith ZArith Lia.
From S2P Require Import Prelude CoreTypes Storage Ir Json Trust TrustHistory LanPairing PeerLimiter RemoteGateway RemoteHistory TrustScenario.

#[export] Instance toy_lan_platform : LanPlatform := {|
  hmac_sha256 := fun key bytes => key ++ bytes;
  url_path := fun _ => [];
  url_origin := fun url => lit "https://" ++ default [] (url_host_str url)
|}.
(** A proof is written with its two fields; the only request that is read is the
    listing of devices, and an answer is one text. *)
Definition toy_proof_to_json (proof : RemoteAuthProof) : json :=
  JObject [(lit "deviceId", JString (ap_device_id proof)); (lit "authToken", JString (ap_auth_token proof))].
Definition toy_decode (payload : json) : option RemoteDeviceRequest :=
  data ← json_get (lit "data") payload;
  auth ← json_get (lit "auth") data;
  device ← string_field auth (lit "deviceId");
  token ← string_field auth (lit "authToken");
  Some (ListDevices (mkAuthProof device token)).
#[export] Instance toy_wire : WireFormat := {|
  proof_to_json := toy_proof_to_json;
  decode_device_request := toy_decode;
  reply_to_json := fun _ => Some (JString (lit "done"))
|}.

(** ** A window, a phone and a stranger *)

Definition the_offer : RemotePairingOffer :=
  mkOffer (mkOfferSummary 2 (mkVersionRange (mkProtocolVersion 2 0) (mkProtocolVersion 2 0)) (lit "desk") (lit "key") (offer_id_of 4)
             100000 [] None FullControl [] false None) (secure_secret "pair" seed).
Definition opened : LanPairingCoordinator :=
  lan_step (mkCoordinator (lit "k") None) (LanStartZero (lit "window") seed the_offer 4000 (lit "Desk") 1000).
Definition lan_secret (n : N) : str := lit "req-" ++ base64url_encode (replicate 16 n).
Definition lan_request (name : string) (n : N) : RemoteLanPairingRequest :=
  mkLanRequest (id_new RequestId (lit "window")) (base64url_encode (replicate 32 n)) (lit name)
    (lit "nonce-nonce-nonce") (lan_secret n) (lit "idempotent-" ++ decimal (Z.of_N n)).
Definition phone_request : lan_op := LanSubmit (lit "phone") (lan_request "Phone" 7) 2000.
Definition stranger_request : lan_op := LanSubmit (lit "stranger") (lan_request "Stranger" 8) 2100.
Definition phone_id : ident := id_new RequestId (lit "phone").
Definition stranger_id : ident := id_new RequestId (lit "stranger").
Definition two_requests : LanPairingCoordinator := lan_step (lan_step opened phone_request) stranger_request.
Definition poll (id : ident) (n : N) (now : Z) (c : LanPairingCoordinator) : VibexResult RemoteLanPairingStatusResponse :=
  (status (mkLanStatus id (lan_secret n)) now c).1.
Definition offered (answer : VibexResult RemoteLanPairingStatusResponse) : option (RemoteLanPairingRequestState * bool) :=
  match answer with Ok r => Some (lr_state r, bool_decide (lr_offer r <> None)) | Err _ => None end.

(** The operator approves the phone: the phone gets the offer, the stranger is
    rejected, and the stranger's secret does not open the phone's request. *)
Example phone_is_approved :
  let c := lan_step two_requests (LanApprove phone_id 3000) in
  (offered (poll phone_id 7 4000 two_requests), offered (poll phone_id 7 4000 c), offered (poll stranger_id 8 4000 c),
   offered (poll phone_id 8 4000 c))
  = (Some (LanPending, false), Some (LanApproved, true), Some (LanRejected, false), None).
Proof. vm_compute. reflexivity. Qed.

Lemma closed_ok key : lan_ok (mkCoordinator key None).
Proof. by intros w. Qed.
Lemma two_requests_ok : lan_ok two_requests.
Proof. unfold two_requests, opened. by repeat apply lan_step_ok. Qed.
Lemma lan_window_stays_sound_witness :
  lan_ok opened /\ size (default ∅ (lw_pending <$> lc_window (lan_run [phone_request; stranger_request] opened))) = 2 /\
  lan_ok (lan_run [phone_request; stranger_request] opened).
Proof.
  assert (H : lan_ok opened) by (unfold opened; apply lan_step_ok, closed_ok).
  split; [exact H|]. split; [vm_compute; reflexivity|].
  exact (lan_window_stays_sound [phone_request; stranger_request] opened H).
Defined.

Definition later : list lan_op := [LanPoll (mkLanStatus stranger_id (lan_secret 8)) 3500; LanReject stranger_id 3600].
Lemma offer_goes_to_the_approved_request_witness :
  lan_ok two_requests /\ is_ok (approve phone_id 3000 two_requests).1 = true /\ forallb (within phone_id) later = true /\
  exists w0 p0, lc_window two_requests = Some w0 /\ lw_pending w0 !! phone_id = Some p0 /\
    forall r now response offer,
      (status r now (lan_run later (approve phone_id 3000 two_requests).2)).1 = Ok response ->
      lr_offer response = Some offer ->
      ls_request_id r = phone_id /\
      verify_secret_hash (lc_secret_hash_key two_requests) (ls_request_secret r) (pr_request_secret_hash p0) = true /\
      offer = lw_offer w0 /\ (now < ld_expires_at_ms (lw_discovery w0))%Z.
Proof.
  assert (Ha : is_ok (approve phone_id 3000 two_requests).1 = true) by (vm_compute; reflexivity).
  assert (Hl : forallb (within phone_id) later = true) by (vm_compute; reflexivity).
  split; [exact two_requests_ok|]. split; [exact Ha|]. split; [exact Hl|].
  exact (offer_goes_to_the_approved_request phone_id 3000 later two_requests two_requests_ok Ha Hl).
Defined.

Lemma short_field_fits field : (N.of_nat (length (as_bytes field)) <? 2 ^ 64)%N = true -> field_fits field.
Proof. apply N.ltb_lt. Qed.
Lemma transcript_is_unambiguous_witness :
  let fields := [lit "ab"; lit "c"] in
  Forall field_fits fields /\
  (verification_transcript fields = verification_transcript [lit "ab"; lit "c"] ->
   as_bytes <$> fields = as_bytes <$> [lit "ab"; lit "c"]).
Proof.
  intros fields. assert (H : Forall field_fits fields).
  { repeat constructor; apply short_field_fits; vm_compute; reflexivity. }
  split; [exact H|]. exact (transcript_is_unambiguous fields [lit "ab"; lit "c"] H H).
Defined.
(** A name that ends where a key would start makes another transcript. *)
Example shifted_fields_differ :
  bool_decide (verification_transcript [lit "ab"; lit "c"] = verification_transcript [lit "a"; lit "bc"]) = false.
Proof. vm_compute. reflexivity. Qed.

(** ** A peer that guesses *)

(** Two failures a minute, and three peers in the map. *)
Definition tight : RemoteGatewayPeerLimits := mkPeerLimits 120 2 60000 3.
Definition no_guesses : LimiterRun := mkRun ∅ [].
Definition guess_at (i : nat) (peer : string) : Guess := mkGuess (lit peer) (1000 + Z.of_nat i) false.
(** Requests one after the other, and requests that are all checked before the
    first failure is recorded. *)
Definition in_turn (peers : list string) : list LimiterStep :=
  concat (imap (fun i peer => [Checked (guess_at i peer); Recorded (guess_at i peer)]) peers).
Definition at_once (peers : list string) : list LimiterStep :=
  imap (fun i peer => Checked (guess_at i peer)) peers ++ imap (fun i peer => Recorded (guess_at i peer)) peers.
Definition guessing : list string := ["eve"; "eve"; "eve"; "bob"; "eve"].
Lemma wrong_guesses_are_bounded_witness :
  (0 < pl_auth_failures_per_window tight <= u32_max)%Z /\ (0 < pl_window_ms tight <= i64_max)%Z /\
  guesses_tried tight (lit "eve") 1000 (in_turn guessing) no_guesses = 2 /\
  crowd tight (lit "eve") (in_turn guessing) no_guesses = 1 /\
  guesses_tried tight (lit "eve") 1000 (at_once guessing) no_guesses = 4 /\
  crowd tight (lit "eve") (at_once guessing) no_guesses = 4 /\
  (Z.of_nat (guesses_tried tight (lit "eve") 1000 (in_turn guessing) no_guesses) <= 2 * 2)%Z /\
  (Z.of_nat (guesses_tried tight (lit "eve") 1000 (at_once guessing) no_guesses) <= 2 * 5)%Z.
Proof.
  assert (Hf : (0 < pl_auth_failures_per_window tight <= u32_max)%Z) by (unfold u32_max; simpl; lia).
  assert (Hw : (0 < pl_window_ms tight <= i64_max)%Z) by (unfold i64_max; simpl; lia).
  split; [exact Hf|]. split; [exact Hw|]. do 4 (split; [vm_compute; reflexivity|]). split.
  - refine (wrong_guesses_are_bounded tight Hf Hw (lit "eve") (in_turn guessing) no_guesses 1000 _ _ _).
    + intros peer w Hp. cbn in Hp. by rewrite lookup_empty in Hp.
    + apply Nat.leb_le. vm_compute. reflexivity.
    + repeat constructor; simpl; lia.
  - refine (wrong_guesses_are_bounded tight Hf Hw (lit "eve") (at_once guessing) no_guesses 1000 _ _ _).
    + intros peer w Hp. cbn in Hp. by rewrite lookup_empty in Hp.
    + apply Nat.leb_le. vm_compute. reflexivity.
    + repeat constructor; simpl; lia.
Defined.

(** The map is bounded and the budget is not, for who has other addresses: the
    guesses from two of them push the third out of a map of two, and it starts
    over. *)
Definition two_peers : RemoteGatewayPeerLimits := mkPeerLimits 120 2 60000 2.
Example eviction_starts_over :
  let round := ["eve"; "eve"; "mallory"; "trudy"] in
  guesses_tried two_peers (lit "eve") 0 (in_turn (round ++ round ++ round)) no_guesses = 6.
Proof. vm_compute. reflexivity. Qed.

(** ** A gateway with one device *)

Definition desk_config : GatewayConfig :=
  mkGatewayConfig tight 30000 4 (lit "Vibex") desktop [] None 7.
Definition gateway_over (db : TrustDb) : GatewayState := mkGatewayState db ∅ ∅ ∅ ∅ [] ∅ (mkCoordinator (lit "k") None).
(** The tablet may approve, and no more. *)
Definition with_tablet : GatewayState := gateway_over (trust_tables (with_offer ++ [claim_offer_op])).
Definition list_payload : json := JObject [(lit "data", JObject [(lit "auth", toy_proof_to_json tablet_proof)])].
Definition no_source (r : RemoteDeviceRequest) : VibexResult json := Err PAYLOAD_INVALID.

Definition has_full_control (proof : RemoteAuthProof) (db : TrustDb) : bool :=
  match tr_devices db !! ap_device_id proof with
  | Some r => bool_decide (rd_permission_level (dr_detail r) = FullControl)
  | None => false
  end.
Lemma no_full_control proof db : has_full_control proof db = false -> ~ manages_devices proof db.
Proof. unfold has_full_control. intros H (_ & r & Hr & Hl). by rewrite Hr, Hl in H. Qed.
Lemma only_full_control_manages_witness :
  trust_wf (gs_db with_tablet) /\ decode_device_request list_payload = Some (ListDevices tablet_proof) /\
  ~ manages_devices tablet_proof (gs_db with_tablet) /\
  let '(result, s') :=
    process_device_management_rpc desk_config (ids 8) seed no_source (lit "request") None list_payload None with_tablet in
  is_ok result = false /\ same_but_db with_tablet s' /\ untouched (gs_db with_tablet) (gs_db s').
Proof.
  assert (Hw : trust_wf (gs_db with_tablet)) by apply trust_tables_wf.
  assert (Hd : decode_device_request list_payload = Some (ListDevices tablet_proof)) by (vm_compute; reflexivity).
  assert (Hm : ~ manages_devices tablet_proof (gs_db with_tablet)).
  { apply no_full_control. vm_compute. reflexivity. }
  split; [exact Hw|]. split; [exact Hd|]. split; [exact Hm|].
  exact (only_full_control_manages desk_config (ids 8) seed no_source (lit "request") None list_payload None
    (ListDevices tablet_proof) with_tablet Hw Hd Hm).
Defined.

(** ** A ticket *)

Definition issued : GatewayState := (issue_ws_ticket desk_config (ids 8 0) seed seed (lit "tablet") tablet_proof with_tablet).2.
Definition the_ticket : str := secure_secret "ws" seed.
Example ticket_is_used_once :
  let '(first, s) := consume_ws_ticket (ids 9 0) the_ticket issued in
  (is_ok first, is_ok (consume_ws_ticket (ids 10 0) the_ticket s).1) = (true, false).
Proof. vm_compute. reflexivity. Qed.
(** A device that is revoked between the ticket and its use stays out. *)
Example ticket_of_revoked_device :
  is_ok (consume_ws_ticket (ids 9 0) the_ticket (gw_step desk_config issued (GwTrust revoke_op))).1 = false.
Proof. vm_compute. reflexivity. Qed.
Lemma ticket_opens_once_witness :
  is_ok (consume_ws_ticket (ids 9 0) the_ticket issued).1 = true /\
  (consume_ws_ticket (ids 10 0) the_ticket
     (gw_run desk_config [GwTrust (OpTime 2000); GwRegister (lit "c") tablet_id]
        (consume_ws_ticket (ids 9 0) the_ticket issued).2)).1 = Err TICKET_INVALID.
Proof.
  split; [vm_compute; reflexivity|].
  pose proof (ticket_opens_once desk_config (ids 9 0) the_ticket
    [GwTrust (OpTime 2000); GwRegister (lit "c") tablet_id] issued) as H.
  destruct (consume_ws_ticket (ids 9 0) the_ticket issued) as [result s1].
  exact (proj2 H eq_refl (ids 10 0)).
Defined.

(** ** A commit that is sent twice *)

Definition commit_request (request : string) : RemoteRpcRequestV2 :=
  mkRpcRequest (lit request) None (lit "git") (Some (mkMutation (lit "key-1") None None))
    (Some (JObject [(lit "type", JString (lit "git_commit")); (lit "data", JObject [])])).
Definition commit_key : IdempotencyCacheKey := mkCacheKey tablet_id (lit "key-1").
Definition answers (text : string) : Dispatcher := fun _ _ => Some (Some (JString (lit text)), None).
Definition commit (request : string) (call : nat) (text : string) : gw_op :=
  GwRpc (ids call) seed no_source (answers text) tablet_proof (commit_request request).
Definition committed : GatewayState := gw_step desk_config with_tablet (commit "r1" 8 "first").
Definition a_minute_later : GatewayState := gw_step desk_config committed (GwTrust (OpTime 61000)).
Definition payload_of (result : VibexResult RemoteRpcResponseV2) : option json :=
  match result with Ok response => rr_payload response | Err _ => None end.
(** The second dispatcher is not asked, and one event is published. *)
Example commit_is_sent_twice :
  let '(result, s) := process_rpc_inner desk_config (ids 9) seed no_source (answers "second") tablet_proof
                        (commit_request "r2") a_minute_later in
  (payload_of result, length (gs_events s)) = (Some (JString (lit "first")), 1).
Proof. vm_compute. reflexivity. Qed.
(** The key is the device's, whatever the operation: a write of a file under the
    key of the commit is answered as the commit was. *)
Definition write_request : RemoteRpcRequestV2 :=
  mkRpcRequest (lit "r3") None (lit "workspace_file") (Some (mkMutation (lit "key-1") None None))
    (Some (JObject [(lit "type", JString (lit "file_write")); (lit "data", JObject [])])).
Example key_of_another_operation :
  payload_of (process_rpc_inner desk_config (ids 9) seed no_source (answers "written") tablet_proof write_request
                a_minute_later).1
  = Some (JString (lit "first")).
Proof. vm_compute. reflexivity. Qed.

Definition answers_again_test (proof : RemoteAuthProof) (key : IdempotencyCacheKey) (s : GatewayState) : bool :=
  match gs_idempotency s !! key, tr_devices (gs_db s) !! ap_device_id proof with
  | Some cached, Some r =>
      (tr_clock (gs_db s) - ca_created_at_ms cached <=? IDEMPOTENCY_CACHE_TTL_MS)%Z && admits (grants (gs_db s)) proof
      && bool_decide (rd_grant_revision (dr_detail r) = ca_grant_revision cached)
  | _, _ => false
  end.
Lemma answers_again_tested proof key cached s :
  answers_again_test proof key s = true -> gs_idempotency s !! key = Some cached -> answers_again proof key cached s.
Proof.
  unfold answers_again_test. intros H Hc. rewrite Hc in H.
  destruct (tr_devices (gs_db s) !! ap_device_id proof) as [r|] eqn:Er; [|done].
  apply andb_prop in H as [[Ht%Z.leb_le Ha]%andb_prop Hr%bool_decide_eq_true]. split_and!; [done..|]. by exists r.
Qed.
Lemma gw_steps_wf ops s : trust_wf (gs_db s) -> trust_wf (gs_db (gw_run desk_config ops s)).
Proof.
  intros Hw. apply (gw_run_keeps desk_config (fun s => trust_wf (gs_db s))) with (allowed := fun _ => true);
    try by intros.
  - intros s' op Hs. by apply (run_wf [op]).
  - by apply forallb_forall.
Qed.

Lemma trust_step_keeps_cache op s : gs_idempotency (gw_step desk_config s (GwTrust op)) = gs_idempotency s.
Proof. done. Qed.

Lemma repeated_mutation_is_applied_once_witness :
  dispatched_under tablet_proof commit_key (commit_request "r1") = true /\
  trust_wf (gs_db a_minute_later) /\ tr_audits (gs_db a_minute_later) !! id_new RequestId (ids 9 0) = None /\
  answers_again_test tablet_proof commit_key a_minute_later = true /\
  exists response,
    (process_rpc_inner desk_config (ids 8) seed no_source (answers "first") tablet_proof (commit_request "r1")
       with_tablet).1 = Ok response /\
    (process_rpc_inner desk_config (ids 9) seed no_source (answers "second") tablet_proof (commit_request "r2")
       a_minute_later).1 = Ok (answer_to (commit_request "r2") response).
Proof.
  assert (Hr : dispatched_under tablet_proof commit_key (commit_request "r1") = true) by (vm_compute; reflexivity).
  assert (Hr' : dispatched_under tablet_proof commit_key (commit_request "r2") = true) by (vm_compute; reflexivity).
  assert (Hw : trust_wf (gs_db a_minute_later)).
  { apply (gw_steps_wf [commit "r1" 8 "first"; GwTrust (OpTime 61000)]), trust_tables_wf. }
  assert (Hn : tr_audits (gs_db a_minute_later) !! id_new RequestId (ids 9 0) = None) by (vm_compute; reflexivity).
  assert (Ht : answers_again_test tablet_proof commit_key a_minute_later = true) by (vm_compute; reflexivity).
  split; [exact Hr|]. split; [exact Hw|]. split; [exact Hn|]. split; [exact Ht|].
  assert (Hok : is_ok (process_rpc_inner desk_config (ids 8) seed no_source (answers "first") tablet_proof
                         (commit_request "r1") with_tablet).1 = true) by (vm_compute; reflexivity).
  assert (E : process_rpc_inner desk_config (ids 8) seed no_source (answers "first") tablet_proof
                (commit_request "r1") with_tablet
              = ((process_rpc_inner desk_config (ids 8) seed no_source (answers "first") tablet_proof
                    (commit_request "r1") with_tablet).1, committed)).
  { unfold committed, commit. cbn [gw_step]. by destruct (process_rpc_inner _ _ _ _ _ _ _ with_tablet). }
  destruct (process_rpc_inner desk_config (ids 8) seed no_source (answers "first") tablet_proof
              (commit_request "r1") with_tablet).1 as [response|e]; [|discriminate Hok].
  exists response. split; [reflexivity|].
  destruct (repeated_mutation_is_applied_once desk_config (ids 8) (ids 9) seed seed no_source no_source (answers "first")
    (answers "second") tablet_proof commit_key (commit_request "r1") (commit_request "r2") with_tablet committed response
    Hr Hr' E) as (cached & Hc & H).
  rewrite <- (trust_step_keeps_cache (OpTime 61000)) in Hc. fold a_minute_later in Hc.
  specialize (H a_minute_later Hw Hn (answers_again_tested _ _ _ _ Ht Hc)).
  destruct (process_rpc_inner desk_config (ids 9) seed no_source (answers "second") tablet_proof (commit_request "r2")
    a_minute_later) as [result s']. exact (proj1 H).
Defined.
