(* ===== verification/ScheduleScenario.v ===== *)
(** One scheduled task, one run of it and one tick, on which the theorems of
    [Schedule] with hypotheses are instantiated. *)
From stdpp Require Import prelude strings list gmap.
From Stdlib Require Import NArith ZArith Lia.
From S2P Require Import Prelude CoreTypes Storage Schedule.

Definition nightly : ScheduledTaskDailySchedule := mkDaily 30 (lit "Asia/Shanghai") 0 None.
Definition often : ScheduledTaskIntervalSchedule := mkInterval 1 0 None.
Definition report_id : ident := id_new ScheduledTaskId (lit "report").
Definition report_with (schedule : ScheduledTaskSchedule) : ScheduledTask :=
  {| tk_id := report_id; tk_title := lit "report"; tk_prompt := lit "write the report";
     tk_project_id := None; tk_workspace_id := None; tk_workspace_root := lit "/work";
     tk_workspace_mode := CurrentCheckout; tk_provider_kind := Codex;
     tk_provider_profile_id := None; tk_schedule := schedule; tk_status := Active;
     tk_safety := workspace_write_ask_on_risk; tk_next_run_at_ms := Some 1000%Z;
     tk_created_at_ms := 0; tk_updated_at_ms := 0; tk_deleted_at_ms := None |}.
Definition report : ScheduledTask := report_with (Interval often).
Definition report_run : ScheduledTaskRun :=
  {| rn_id := id_new ScheduledTaskRunId (lit "r1"); rn_task_id := report_id;
     rn_status := RunRunning; rn_trigger := TriggerScheduler; rn_session_id := None;
     rn_due_at_ms := 1000; rn_started_at_ms := Some 1000%Z; rn_ended_at_ms := None;
     rn_attempt := 1; rn_error_code := None; rn_error_message := None;
     rn_redacted_diagnostics := []; rn_created_at_ms := 1000; rn_updated_at_ms := 1000 |}.
Definition idle_db : SchedDb := put_task report (mkSchedDb ∅ ∅ 1500).
Definition running_db : SchedDb := put_run report_run idle_db.
Definition quiet_setting : Setting :=
  mkSetting (fun _ => Settled (lit "session") Idle) (fun _ _ db => db) (fun _ => lit "r2").

Ltac evaluate := first [ by vm_compute | apply (bool_decide_unpack _); vm_compute; exact I ].

Lemma idle_keyed : keyed idle_db.
Proof. split; [apply map_Forall_insert_2; [done|apply map_Forall_empty]|apply map_Forall_empty]. Qed.
Lemma running_keyed : keyed running_db.
Proof. apply keyed_put_run, idle_keyed. Qed.

(** At half past midnight in Shanghai, after the epoch's first second. *)
Lemma daily_run_is_next_witness :
  exists t, least (fun t => at_local_minute 30 480 t /\ (1000 < t)%Z /\ (0 <= t)%Z) t /\
    next_run_after (Daily nightly) 0 1000 = Ok (Some t).
Proof.
  exact (daily_run_is_next nightly 1000 480 ltac:(split; evaluate) ltac:(evaluate)
           ltac:(unfold sane_ms; lia) ltac:(unfold sane_ms; cbn; lia)).
Defined.

Lemma interval_run_is_next_witness :
  exists t, least (fun t => (3500 < t)%Z /\ exists k, (0 <= k)%Z /\ (t = 2000 + k * 1000)%Z) t /\
    next_run_after (Interval often) 1000 3500 = Ok (Some t).
Proof.
  exact (interval_run_is_next often 1000 3500 ltac:(split; evaluate) ltac:(unfold sane_ms; lia)
           ltac:(unfold sane_ms; lia) ltac:(unfold sane_ms; cbn; lia)).
Defined.

(** The run claimed at 1500 is not claimed again after a pause and a resume whose
    statements interleave. *)
Definition half_read : Shared := mkShared idle_db ∅.
Definition toggles : list sched_op :=
  [OpReadTask 1 (WriteStatus report_id Paused); OpReadTask 2 (WriteStatus report_id Active); OpWrite 1; OpWrite 2].
Lemma occurrence_is_claimed_once_witness :
  exists task run db',
    claim_due report_id (lit "r2") 1500 idle_db = (Ok (Some (task, run)), db') /\
    (claim_due report_id (lit "r3") 2000 (sh_db (foldl sched_step (mkShared db' ∅) toggles))).1 = Ok None.
Proof.
  destruct (claim_due report_id (lit "r2") 1500 idle_db) as [[[[task run]|]|e] db'] eqn:E;
    [|exfalso; vm_compute in E; discriminate E..].
  exists task, run, db'. split; [reflexivity|].
  apply (occurrence_is_claimed_once report_id (lit "r2") (lit "r3") 1500 2000 half_read db' task run);
    [apply idle_keyed|exact E|].
  apply Forall_forall. intros op Hop. split; [|intros c _ (t & Ht & _); exact (lookup_empty_Some c _ Ht)].
  repeat (apply elem_of_cons in Hop as [->|Hop]; [by intros []|]). by apply elem_of_nil in Hop.
Defined.

(** A pause that read the row before the claim and writes it afterwards, and the
    resume that follows, have the same occurrence claimed again. *)
Definition late_pause : Shared := foldl sched_step half_read
  [OpReadTask 1 (WriteStatus report_id Paused); OpClaim report_id (lit "r2") 1500; OpWrite 1;
   OpReadTask 1 (WriteStatus report_id Active); OpWrite 1].
Example late_writer_has_it_claimed_again :
  match claim_due report_id (lit "r3") 2000 (sh_db late_pause) with
  | (Ok (Some (_, run)), _) => Some (rn_due_at_ms run)
  | _ => None
  end = Some 1000%Z.
Proof. by vm_compute. Qed.

Lemma completion_goes_by_the_claimed_task_witness :
  exists run' db',
    complete_run_success report report_run 1500 running_db = (Ok run', db') /\
    rn_status run' = RunSucceeded /\
    sd_tasks db' !! report_id = Some (task_with report Active (Some 2000%Z) 1500 None).
Proof.
  pose proof (completion_goes_by_the_claimed_task report report_run report_run 1500 running_db
    running_keyed ltac:(reflexivity)) as H.
  change (next_run_after (tk_schedule report) (rn_due_at_ms report_run) 1500)
    with (next_run_after (Interval often) 1000 1500) in H.
  assert (E : next_run_after (Interval often) 1000 1500 = Ok (Some 2000%Z)) by by vm_compute.
  rewrite E in H. change (find_task (tk_id report) false running_db) with (Some report) in H.
  destruct H as (run' & db' & H1 & H2 & _ & _ & _ & H3). exists run', db'.
  split; [exact H1|split; [exact H2|]]. rewrite H3. apply lookup_insert_eq.
Defined.

Lemma tick_accounts_for_its_runs_witness :
  exists r db', tick quiet_setting 10 60000 1500 idle_db = (Ok r, db') /\
    length (ti_outcomes r) = ti_recovered r + ti_claimed r.
Proof.
  destruct (tick quiet_setting 10 60000 1500 idle_db) as [[r|e] db'] eqn:E;
    [|exfalso; vm_compute in E; discriminate E].
  exists r, db'. split; [reflexivity|].
  apply (tick_accounts_for_its_runs quiet_setting 10 60000 1500 idle_db db' r E).
Defined.

Lemma recovery_rearms_the_task_witness :
  exists failed db' again db'',
    recover_run 1500 [] report_run running_db = (Ok [failed], db') /\
    rn_status failed = RunFailed /\ sd_runs db' !! rn_id report_run = Some failed /\
    claim_due report_id (lit "r2") 2000 db' = (Ok (Some again), db'').
Proof.
  apply (recovery_rearms_the_task report_run report 2000 1500 2000 (lit "r2") running_db);
    [apply running_keyed|evaluate..|done|evaluate].
Defined.
