(* ===== verification/AutomationScenario.v ===== *)
(** A graph of three nodes, a run of it that another connection cancels, one
    that waits at its gate, and one that waits for an answer nobody can give, on
    which the theorems of [AutomationGraph] and [Automation] with hypotheses are
    instantiated. *)
From stdpp Require Import prelude strings list gmap relations.
From Stdlib Require Import NArith ZArith Lia.
From S2P Require Import Prelude CoreTypes Storage AutomationGraph Automation.

Definition prompt_config : AutomationNodeConfig :=
  AgentPrompt (mkAgentPrompt (lit "review the diff") None None None None None).
Definition gate_config : AutomationNodeConfig :=
  ApprovalGate (mkApprovalGate (lit "go on?") (lit "merge") RiskFileWrite [Approve; Deny]).
Definition node_id (name : string) : ident := id_new AutomationNodeId (lit name).
Definition node_of (name : string) (kind : AutomationNodeKind) (config : AutomationNodeConfig)
  : AutomationNodeCreateRequest :=
  mkNodeCreate (Some (node_id name)) kind (lit name) config None.
Definition edge_of (source target : string) : AutomationEdgeCreateRequest :=
  mkEdgeCreate (node_id source) (node_id target) (mkEdgeCondition OnFailure None).
Definition numbered (i : nat) : str := decimal (Z.of_nat i).

Definition graph_id : ident := id_new AutomationGraphId (lit "nightly").
Definition create_of (nodes : list AutomationNodeCreateRequest) (edges : list AutomationEdgeCreateRequest)
  : AutomationGraphCreateRequest :=
  {| gc_title := lit "nightly"; gc_description := None; gc_project_id := None; gc_workspace_id := None;
     gc_workspace_root := lit "/work"; gc_workspace_mode := CurrentCheckout; gc_provider_kind := None;
     gc_provider_profile_id := None; gc_trigger := ManualTrigger; gc_nodes := nodes; gc_edges := edges |}.
Definition history (nodes : list AutomationNodeCreateRequest) (edges : list AutomationEdgeCreateRequest)
  : list graph_op :=
  [OpTime 5; OpCreate (lit "nightly") numbered numbered (create_of nodes edges)].
Definition tables (ops : list graph_op) : GraphDb := foldl graph_step (mkGraphDb ∅ ∅ ∅ 0) ops.

(** Two prompts around a gate, stored last node first. *)
Definition gated : list graph_op :=
  history [node_of "c" KindAgentPrompt prompt_config; node_of "b" KindApprovalGate gate_config;
           node_of "a" KindAgentPrompt prompt_config]
          [edge_of "b" "c"; edge_of "a" "b"].
Definition dummy : AutomationGraph :=
  {| gr_id := []; gr_title := []; gr_description := None; gr_project_id := None; gr_workspace_id := None;
     gr_workspace_root := []; gr_workspace_mode := CurrentCheckout; gr_provider_kind := None;
     gr_provider_profile_id := None; gr_trigger := ManualTrigger; gr_status := GraphDeleted; gr_version := 0;
     gr_nodes := []; gr_edges := []; gr_created_at_ms := 0; gr_updated_at_ms := 0; gr_deleted_at_ms := None |}.
Definition graph_of (ops : list graph_op) : AutomationGraph := default dummy (find_graph graph_id false (tables ops)).

Lemma empty_wf clock : graphs_wf (mkGraphDb ∅ ∅ ∅ clock).
Proof. split; intros ? ? H; simpl in H; by rewrite lookup_empty in H. Qed.
Lemma tables_wf ops : graphs_wf (tables ops).
Proof. apply (graph_history_grown (mkGraphDb ∅ ∅ ∅ 0)), grown_refl, empty_wf. Qed.

(** The gated graph is ordered a, b, c; with an edge back it is a cycle. *)
Definition cyclic : list graph_op :=
  history [node_of "a" KindAgentPrompt prompt_config; node_of "b" KindApprovalGate gate_config]
          [edge_of "b" "a"; edge_of "a" "b"].

Example gated_order :
  (match topological_order (graph_of gated) with Ok order => nd_title <$> order | Err _ => [] end)
  = [lit "a"; lit "b"; lit "c"].
Proof. vm_compute. reflexivity. Qed.
Example cyclic_refused : topological_order (graph_of cyclic) = Err CYCLE.
Proof. vm_compute. reflexivity. Qed.

Lemma stored_graph_is_ordered_or_cyclic_witness :
  kn_queue (kahn_end (graph_of gated)) = [] /\
  match topological_order (graph_of gated) with
  | Ok order => order ≡ₚ gr_nodes (graph_of gated) /\ respects (graph_of gated) order /\
      forall a, ~ tc (precedes (graph_of gated)) a a
  | Err e => e = CYCLE /\ exists a, tc (precedes (graph_of gated)) a a
  end.
Proof.
  exact (proj2 (stored_graph_is_ordered_or_cyclic gated 0 graph_id false (graph_of gated)
           ltac:(vm_compute; reflexivity))).
Defined.

(** Two editors loaded version 1; the first replaces the definition. *)
Definition first_draft : graph_call AutomationGraph :=
  replace_definition graph_id [node_of "d" KindAgentPrompt prompt_config] [] (Some 1%Z) numbered numbered.
Lemma stale_draft_is_refused_witness :
  gr_version (graph_of gated) = 1%Z /\
  let later := foldl graph_step (first_draft (tables gated)).2 [OpTime 9] in
  exists e, replace_definition graph_id [node_of "a" KindAgentPrompt prompt_config] [] (Some 1%Z)
              numbered numbered later = (Err e, later).
Proof.
  split; [vm_compute; reflexivity|].
  destruct (first_draft (tables gated)) as [[g|e] db'] eqn:E.
  - exact (stale_draft_is_refused graph_id 1 _ _ _ _ _ _ _ _ (tables gated) db' g [OpTime 9]
             (tables_wf gated) ltac:(done) E).
  - exfalso. assert (H : is_ok (first_draft (tables gated)).1 = true) by (vm_compute; reflexivity).
    rewrite E in H. done.
Defined.

(** ** Runs *)

Definition auto_db (ops : list graph_op) : AutoDb := mkAutoDb (tables ops) ∅ ∅ ∅.
Definition session_of (node : AutomationNode) : ident := lit "session:" ++ nd_title node.
Definition run_id : ident := id_new AutomationRunId (lit "run").

(** Prompts end in [state], gates are recorded, and another connection cancels
    the run while the runner waits for a prompt. *)
Definition cancel_request : AutomationRunCancelRequest := mkRunCancel run_id (Some 7%Z) (Some (lit "enough")).
Definition meanwhile (node : ident) (p : AutoPause) (db : AutoDb) : AutoDb :=
  match p with AwaitingNode => (cancel_run cancel_request db).2 | _ => db end.
Definition setting_of (state : AgentSessionState) (gate : ident -> GateTurn)
    (others : ident -> AutoPause -> AutoDb -> AutoDb) : AutoSetting :=
  {| st_prompt := fun node => Settled (session_of node) state;
     st_gate := fun node => gate (session_of node);
     st_others := others; st_run_uuid := lit "run"; st_step_uuid := id; st_request_uuid := id |}.
Definition alone (node : ident) (p : AutoPause) (db : AutoDb) : AutoDb := db.

Lemma meanwhile_spares run_id state gate : spares run_id (setting_of state gate meanwhile).
Proof.
  intros node p db Hk. destruct p; try done. simpl.
  destruct (cancel_run_spares cancel_request db Hk) as [H1 H2]. split; [done|]. unfold run_steps. by rewrite H2.
Qed.
Lemma alone_spares run_id state gate : spares run_id (setting_of state gate alone).
Proof. done. Qed.

Lemma empty_keyed ops : auto_keyed (auto_db ops).
Proof. split; intros ? ? H; simpl in H; by rewrite lookup_empty in H. Qed.
Lemma keyed_decided db :
  bool_decide (map_Forall (fun k r => ar_id r = k) (db_runs db)) = true ->
  bool_decide (map_Forall (fun k s => as_id s = k) (db_steps db)) = true -> auto_keyed db.
Proof. intros H1%bool_decide_eq_true H2%bool_decide_eq_true. split; [apply H1|apply H2]. Qed.

Definition start_request : AutomationRunStartRequest := mkRunStart graph_id ByManual None (Some 6%Z).
Definition started (state : AgentSessionState) (gate : ident -> GateTurn)
    (others : ident -> AutoPause -> AutoDb -> AutoDb) (ops : list graph_op) : VibexResult AutomationRun * AutoDb :=
  start_graph (setting_of state gate others) start_request (auto_db ops).

(** Two prompts: the run is cancelled twice and succeeds. *)
Definition prompts : list graph_op :=
  history [node_of "a" KindAgentPrompt prompt_config; node_of "b" KindAgentPrompt prompt_config]
          [edge_of "a" "b"].

Example cancelled_run_succeeds :
  let '(result, db) := started Idle GateRecorded meanwhile prompts in
  (match result with Ok run => Some (ar_status run) | Err _ => None end,
   ar_status <$> db_runs db !! run_id) = (Some ArSucceeded, Some ArSucceeded) /\
  (ar_status <$> db_runs (meanwhile [] AwaitingNode
      (put_automation_run (mkAutomationRun run_id [] ArRunning ByManual None None None None None None [] 0 0)
         (auto_db prompts))) !! run_id) = Some ArCanceled.
Proof. vm_compute. by split. Qed.

Lemma started_run_executes_a_prefix_witness :
  is_ok (started Idle GateRecorded meanwhile prompts).1 = true /\
  exists order, topological_order (graph_of prompts) = Ok order /\
  match started Idle GateRecorded meanwhile prompts with
  | (Ok run, db') => exists done last status,
      stopped_at run_id order done last db' /\
      run_outcome run_id (setting_of Idle GateRecorded meanwhile) order done last status /\
      row_written run_id status run db'
  | (Err _, db') => exists done last, stopped_at run_id order done last db'
  end.
Proof.
  split; [vm_compute; reflexivity|].
  exact (started_run_executes_a_prefix (setting_of Idle GateRecorded meanwhile) start_request (auto_db prompts)
    (graph_of prompts) (empty_keyed prompts) ltac:(vm_compute; reflexivity) ltac:(vm_compute; reflexivity)
    (meanwhile_spares _ _ _) ltac:(vm_compute; reflexivity) ltac:(vm_compute; reflexivity)
    ltac:(apply (bool_decide_eq_true_1 _); vm_compute; reflexivity) ltac:(vm_compute; reflexivity)).
Defined.

(** The gated run waits at its gate; the request is approved. *)
Definition dummy_run : AutomationRun :=
  mkAutomationRun [] [] ArQueued ByManual None None None None None None [] 0 0.
Definition dummy_step : AutomationRunStep := mkRunStep [] [] [] AsQueued None None None None None None [] 0 0.
Definition run_of (db : AutoDb) : AutomationRun := default dummy_run (db_runs db !! run_id).
Definition step_of (name : string) (db : AutoDb) : AutomationRunStep :=
  default dummy_step (db_steps db !! id_new AutomationRunStepId (node_id name)).
Definition order_of (ops : list graph_op) : list AutomationNode :=
  match topological_order (graph_of ops) with Ok order => order | Err _ => [] end.

Definition paused : AutoDb := (started Idle GateRecorded alone gated).2.
Definition request : ident := id_new RequestId (node_id "b").
Definition approval : PermissionResolution :=
  mkPermissionResolution request (lit "session:b") Approve None None None 8.
Definition approved : AutoDb := (resolve approval paused).2.
Definition resume_request : AutomationRunResumeRequest := mkRunResume run_id (Some 9%Z).

Example gated_run_waits_then_succeeds :
  (ar_status (run_of paused), as_status (step_of "b" paused),
   ar_status (run_of (resume_run (setting_of Idle GateRecorded alone) resume_request paused).2),
   ar_status (run_of (resume_run (setting_of Idle GateRecorded alone) resume_request approved).2))
  = (ArWaitingForApproval, AsWaitingForApproval, ArWaitingForApproval, ArSucceeded).
Proof. vm_compute. reflexivity. Qed.

(** A run cancelled after it has come to wait is returned as cancelled. *)
Example waiting_run_is_returned_as_cancelled :
  let others (node : ident) p (db : AutoDb) :=
    match p with Returning => (cancel_run cancel_request db).2 | _ => db end in
  (ar_status <$> match (started Idle GateRecorded others gated).1 with Ok run => Some run | Err _ => None end)
  = Some ArCanceled.
Proof. vm_compute. reflexivity. Qed.

Lemma approved_keyed : auto_keyed approved.
Proof. apply keyed_decided; vm_compute; reflexivity. Qed.
Lemma approved_trace :
  bool_decide (trace (run_steps run_id approved)
    ≡ₚ [(node_id "a", AsSucceeded); (node_id "b", AsWaitingForApproval)]) = true.
Proof. vm_compute. reflexivity. Qed.
Lemma approved_stopped :
  stopped_at run_id (order_of gated) (take 1 (order_of gated)) (Some AsWaitingForApproval) approved.
Proof.
  exists (drop 1 (order_of gated)). split; [by rewrite take_drop|].
  assert (E : nd_id <$> order_of gated = [node_id "a"; node_id "b"; node_id "c"]) by (vm_compute; reflexivity).
  destruct (order_of gated) as [|a [|b rest]] eqn:Eo; [done..|]. simpl in E. injection E as Ea Eb _.
  simpl. rewrite Ea, Eb. split; [done|]. split; [apply approved_keyed|].
  exact (bool_decide_eq_true_1 _ approved_trace).
Qed.

Lemma resumed_run_goes_by_the_answer_witness :
  (pq_status <$> find_request request approved) = Some PermApproved /\
  resumed (setting_of Idle GateRecorded alone) run_id (order_of gated) (take 1 (order_of gated)) (run_of approved) approved
    (pq_status <$> find_request request approved)
    (resume_run (setting_of Idle GateRecorded alone) resume_request approved).
Proof.
  split; [vm_compute; reflexivity|].
  exact (resumed_run_goes_by_the_answer (setting_of Idle GateRecorded alone) resume_request approved
    (run_of approved) (graph_of gated) (order_of gated) (take 1 (order_of gated)) (step_of "b" approved) request
    (alone_spares _ _ _) ltac:(vm_compute; reflexivity) ltac:(vm_compute; reflexivity)
    ltac:(vm_compute; reflexivity) ltac:(vm_compute; reflexivity)
    ltac:(apply (bool_decide_eq_true_1 _); vm_compute; reflexivity) ltac:(vm_compute; reflexivity)
    approved_stopped ltac:(vm_compute; reflexivity) ltac:(vm_compute; reflexivity) ltac:(vm_compute; reflexivity)).
Defined.

(** A prompt whose Agent asks a question without recording a request: the run
    waits, and resuming it reports success. *)
Definition single : list graph_op := history [node_of "a" KindAgentPrompt prompt_config] [].
Definition asked : AutoDb := (started NeedsInput GateRecorded alone single).2.

Example asked_run_succeeds :
  (ar_status (run_of asked), as_status (step_of "a" asked),
   let '(_, db) := resume_run (setting_of NeedsInput GateRecorded alone) resume_request asked in
   (ar_status (run_of db), as_status (step_of "a" db)))
  = (ArWaitingForApproval, AsWaitingForApproval, (ArSucceeded, AsWaitingForApproval)).
Proof. vm_compute. reflexivity. Qed.

Lemma asked_keyed : auto_keyed asked.
Proof. apply keyed_decided; vm_compute; reflexivity. Qed.
Definition node_a : AutomationNode := default
  (mkNode [] [] KindFileCheck [] (FileCheck [] []) None 0 0) (head (order_of single)).
Lemma asked_order : topological_order (graph_of single) = Ok [node_a].
Proof. vm_compute. reflexivity. Qed.
Lemma asked_stopped : stopped_at run_id [node_a] [] (Some AsWaitingForApproval) asked.
Proof.
  exists [node_a]. split; [done|]. split; [done|]. split; [apply asked_keyed|].
  apply (bool_decide_eq_true_1 _). vm_compute. reflexivity.
Qed.

Lemma unanswered_step_is_passed_over_witness :
  let '(result, db') := resume_run (setting_of NeedsInput GateRecorded alone) resume_request asked in
  stopped_at run_id [node_a] [] (Some AsWaitingForApproval) db' /\
  match result with Ok row => row_written run_id ArSucceeded row db' | Err _ => True end.
Proof.
  exact (unanswered_step_is_passed_over (setting_of NeedsInput GateRecorded alone) resume_request asked
    (run_of asked) (graph_of single) [] node_a (step_of "a" asked)
    (alone_spares _ _ _) ltac:(vm_compute; reflexivity) ltac:(vm_compute; reflexivity)
    ltac:(vm_compute; reflexivity) ltac:(vm_compute; reflexivity) asked_order
    asked_stopped ltac:(vm_compute; reflexivity) ltac:(vm_compute; reflexivity) ltac:(vm_compute; reflexivity)).
Defined.

(** A gate whose session cannot be opened: the call is an error, and the run and
    the step are left running. *)
Example failed_gate_leaves_the_run_running :
  let '(result, db) := started Idle (fun _ => GateNoSession (VibexError_storage (lit "x") (lit "y"))) alone gated in
  (is_ok result, ar_status (run_of db), as_status (step_of "b" db)) = (false, ArRunning, AsRunning).
Proof. vm_compute. reflexivity. Qed.
