(* ===== verification/StreamScenario.v ===== *)
(** A toy text format of JSON values that meets [JsonTextLaws], and one reply
    on which the theorems about streams are instantiated. *)
From stdpp Require Import prelude strings list countable.
From Stdlib Require Import NArith ZArith Lia.
From S2P Require Import Prelude CoreTypes GatewayTypes GatewayErrors Ir Json Upstream Sse Wire.
From S2P Require Import AnthropicStream ChatStream ToolNames Forward ResponsesStream.

(** ** A text format *)

(** Values as trees of texts. *)
Fixpoint json_tree (v : json) : gen_tree str :=
  match v with
  | JNull => GenNode 0 []
  | JBool false => GenNode 1 []
  | JBool true => GenNode 2 []
  | JNumber literal => GenNode 3 [GenLeaf literal]
  | JString s => GenNode 4 [GenLeaf s]
  | JArray items => GenNode 5 (json_tree <$> items)
  | JObject fields => GenNode 6 (fields ≫= fun f => [GenLeaf f.1; json_tree f.2])
  end.
Fixpoint tree_json (t : gen_tree str) : json :=
  let fix fields (l : list (gen_tree str)) : list (str * json) :=
    match l with
    | GenLeaf k :: v :: l => (k, tree_json v) :: fields l
    | _ => []
    end in
  match t with
  | GenNode 1 _ => JBool false
  | GenNode 2 _ => JBool true
  | GenNode 3 [GenLeaf literal] => JNumber literal
  | GenNode 4 [GenLeaf s] => JString s
  | GenNode 5 items => JArray (tree_json <$> items)
  | GenNode 6 l => JObject (fields l)
  | _ => JNull
  end.

Lemma tree_json_tree : forall v, tree_json (json_tree v) = v.
Proof.
  fix IH 1. intros [|[]|literal|s|items|fields]; [reflexivity..| |].
  - change (JArray (tree_json <$> (json_tree <$> items)) = JArray items). f_equal.
    induction items as [|v items IHl]; [reflexivity|]. cbn [fmap list_fmap]. f_equal; [apply IH|apply IHl].
  - cbn [json_tree tree_json]. f_equal.
    induction fields as [|[k v] fields IHl]; [reflexivity|]. cbn. f_equal; [|apply IHl]. f_equal. apply IH.
Qed.

#[export] Instance json_eq_dec : EqDecision json.
Proof.
  refine (fun a b => cast_if (decide (json_tree a = json_tree b))); [|by intros ->].
  by rewrite <- (tree_json_tree a), <- (tree_json_tree b), e.
Defined.

(** A tree as a number, a number as binary digits. *)
Fixpoint pos_digits (p : positive) : str :=
  match p with xH => [] | xO p => 48%N :: pos_digits p | xI p => 49%N :: pos_digits p end.
Fixpoint digits_pos (s : str) : positive :=
  match s with
  | [] => 1
  | c :: s => if (c =? 48)%N then (digits_pos s)~0 else (digits_pos s)~1
  end%positive.
Lemma digits_pos_digits p : digits_pos (pos_digits p) = p.
Proof. induction p as [p IH|p IH|]; simpl; by rewrite ?IH. Qed.
Lemma pos_digits_line p c : c ∈ pos_digits p -> c = 48%N \/ c = 49%N.
Proof. induction p as [p IH|p IH|]; simpl; set_solver. Qed.

#[export] Instance toy_json_text : JsonText := {
  json_to_string v := pos_digits (encode (json_tree v));
  json_from_str s := tree_json <$> decode (digits_pos s)
}.
#[export] Instance toy_json_text_laws : JsonTextLaws.
Proof.
  split.
  - intros v _. cbn. by rewrite digits_pos_digits, decode_encode; cbn; rewrite tree_json_tree.
  - intros v. split; intros H%pos_digits_line; by destruct H.
  - intros v E. assert (H : 91%N ∈ trim (json_to_string v)) by (rewrite E; left).
    apply elem_of_trim, pos_digits_line in H. by destruct H.
Qed.

(** ** A reply *)

Definition answer : list CanonicalEvent :=
  [Start (lit "msg_1") [] (mkUsage 12 0 5 0 0); ReasoningDelta (lit "look"); TextDelta (lit "I will ");
   TextDelta (lit "read it."); ToolCallStart (lit "call_1") (lit "read");
   ToolCallArgumentsDelta (lit "call_1") (lit "{path"); ToolCallArgumentsDelta [] (lit "}");
   ToolCallEnd (lit "call_1") JNull; UsageEvent (mkUsage 12 34 5 0 0); StopEvent ToolUse].

Ltac evaluate := first [ by vm_compute | apply (bool_decide_unpack _); vm_compute; exact I ].

Lemma reply_survives_the_anthropic_stream_witness :
  exists back,
    read_reply (T := AnthropicDecoder) (write_reply (T := AnthropicEncoder) (lit "m") answer) = Ok back /\
    ra_text (reply_of back) = lit "I will read it." /\
    ra_tool_calls (reply_of back) = [mkCall (lit "call_1") (lit "read") (lit "{path}")] /\
    ra_usage (reply_of back) = mkUsage 12 34 0 0 0.
Proof.
  destruct (reply_survives_the_anthropic_stream (lit "m") answer) as (back & Hr & H);
    [evaluate|repeat constructor; vm_compute; discriminate|evaluate|].
  exists back. split; [exact Hr|]. destruct H as (_ & _ & Ht & _ & Hc & _ & Hu).
  rewrite Ht, Hc, Hu. split; [|split]; vm_compute; reflexivity.
Defined.

(** ** The same reply as a Responses stream *)

#[export] Instance toy_stream_platform : StreamPlatform := {
  json_same a b := bool_decide (a = b);
  stream_sha256 b := take 32 (b ++ replicate 32 0%N)
}.
Lemma reply_survives_the_responses_stream_witness :
  exists back,
    read_reply (T := ResponsesDecoder) (write_reply (T := ResponsesEncoder) (lit "m") answer) = Ok back /\
    ra_text (reply_of back) = lit "I will read it." /\ ra_reasoning (reply_of back) = lit "look" /\
    ra_tool_calls (reply_of back) = [mkCall (lit "call_1") (lit "read") (lit "{path}")] /\
    ra_stop (reply_of back) = Some EndTurn /\ ra_usage (reply_of back) = mkUsage 12 34 5 0 0.
Proof.
  destruct (reply_survives_the_responses_stream (lit "m") answer) as (back & Hr & H);
    [evaluate|repeat constructor; vm_compute; discriminate|evaluate|].
  exists back. split; [exact Hr|]. destruct H as (_ & _ & Ht & Hre & Hc & Hs & Hu).
  rewrite Ht, Hre, Hc, Hs, Hu. split_and!; vm_compute; reflexivity.
Defined.

Lemma anthropic_blocks_are_bracketed_witness :
  let sent := frames_all anthropic_frames (AnthropicEncoder_new (lit "m")) answer in
  let '(last, e) := anthropic_end_frames sent.2 in
  follow (mkBlockClient 0 None false) (sent.1 ++ last) = Some (client_of e) /\
  (ae_terminal_emitted sent.2 = false -> ae_open e = None).
Proof. apply (anthropic_blocks_are_bracketed (lit "m") answer). evaluate. Defined.

(** ** Bytes of a stream *)

Lemma frames_do_not_depend_on_chunks_witness :
  stream_frames (as_bytes <$> [lit "da"; lit "ta: a" ++ [LF]; [LF]; lit "data: b"]) =
  [(None, lit "a"); (None, lit "b")].
Proof.
  rewrite (frames_do_not_depend_on_chunks [lit "da"; lit "ta: a" ++ [LF]; [LF]; lit "data: b"]).
  - vm_compute. reflexivity.
  - repeat constructor.
Defined.

Lemma crlf_frames_wait_for_the_end_witness :
  (push_all [] (as_bytes <$> [lit "data: a" ++ [CR; LF; CR; LF]; lit "data: b" ++ [CR; LF; CR; LF]])).1 = [] /\
  stream_frames (as_bytes <$> [lit "data: a" ++ [CR; LF; CR; LF]; lit "data: b" ++ [CR; LF; CR; LF]]) =
  [(None, lit "a"); (None, lit "b")].
Proof.
  destruct (crlf_frames_wait_for_the_end
    [lit "data: a" ++ [CR; LF; CR; LF]; lit "data: b" ++ [CR; LF; CR; LF]]) as [H1 H2].
  - repeat constructor.
  - intros a b E. eapply (proj1 (rsplit_blank_None _)); [|exists a, b; exact E]. vm_compute. reflexivity.
  - split; [exact H1|]. rewrite H2. vm_compute. reflexivity.
Defined.

Lemma written_frames_read_back_witness :
  parse_sse (sse_frame (Some (lit "ping")) JNull ++ sse_frame None (JBool true)) =
  [(Some (lit "ping"), json_to_string JNull); (None, json_to_string (JBool true))].
Proof.
  rewrite (written_frames_read_back (Some (lit "ping")) JNull).
  - vm_compute. reflexivity.
  - apply json_one_line.
  - apply json_one_line.
  - intros e [= <-]. split; evaluate.
Defined.

(** Two calls of one reply reach a Chat client as one. *)
Definition two_calls : list CanonicalEvent :=
  [Start (lit "msg_1") (lit "m") (mkUsage 12 0 0 0 0); TextDelta (lit "Both.");
   ToolCallStart (lit "call_1") (lit "read"); ToolCallArgumentsDelta [] (lit "{a}"); ToolCallEnd (lit "call_1") JNull;
   ToolCallStart (lit "call_2") (lit "list"); ToolCallArgumentsDelta [] (lit "{b}"); ToolCallEnd (lit "call_2") JNull;
   UsageEvent (mkUsage 12 34 0 0 0); StopEvent ToolUse].
Lemma chat_stream_keeps_one_call_witness :
  exists back,
    read_reply (T := ChatDecoder) (write_reply (T := ChatEncoder) (lit "m") two_calls) = Ok back /\
    ra_tool_calls (reply_of two_calls) =
      [mkCall (lit "call_1") (lit "read") (lit "{a}"); mkCall (lit "call_2") (lit "list") (lit "{b}")] /\
    ra_tool_calls (reply_of back) = [mkCall (lit "call_2") (lit "read") (lit "{a}{b}")].
Proof.
  destruct (chat_stream_keeps_one_call (lit "m") two_calls) as (back & Hr & H);
    [evaluate|repeat constructor; vm_compute; discriminate|].
  exists back. split; [exact Hr|]. destruct H as (_ & _ & _ & _ & _ & _ & Hc & _).
  split; [vm_compute; reflexivity|]. rewrite Hc. vm_compute. reflexivity.
Defined.

(** ** Tool names *)

Definition any_hash (name : str) : Z := Z.of_nat (length name).
Lemma wire_names_are_accepted_and_distinct_witness :
  let map := ToolNameMap_build any_hash dotted_request in
  wire_name map (lit "a.b") = lit "a_b" /\ wire_name map (lit "a_b") = lit "a_b_2" /\
  strict_name (wire_name map (lit "a.b")).
Proof.
  destruct (wire_names_are_accepted_and_distinct any_hash dotted_request) as [H _]; [vm_compute; discriminate|].
  split; [vm_compute; reflexivity|]. split; [vm_compute; reflexivity|]. apply H. evaluate.
Defined.
Lemma restored_name_is_the_clients_witness :
  restore_event (ToolNameMap_build any_hash dotted_request) (ToolCallStart (lit "c") (lit "a_b_2")) =
  ToolCallStart (lit "c") (lit "a_b").
Proof.
  destruct (restored_name_is_the_clients any_hash dotted_request (lit "c") (lit "a_b") JNull) as [H _];
    [vm_compute; discriminate|evaluate|].
  assert (E : wire_name (ToolNameMap_build any_hash dotted_request) (lit "a_b") = lit "a_b_2")
    by (vm_compute; reflexivity).
  rewrite E in H. exact H.
Defined.

(** ** The relay *)

Definition hello : list CanonicalEvent :=
  [Start (lit "m1") (lit "x") (mkUsage 0 0 0 0 0); TextDelta (lit "hi"); StopEvent EndTurn].
Definition hello_text : str := write_reply (T := ChatEncoder) (lit "x") hello.
Definition no_names : ToolNameMap := ToolNameMap_default.

Lemma ascii_scalar s : forallb (fun c => c <? 128)%N s = true -> Forall scalar s.
Proof.
  rewrite forallb_Forall, !Forall_forall. intros H c Hc%H%N.ltb_lt. left. lia.
Qed.

Lemma relay_is_decode_then_encode_witness :
  exists sent,
    forward (D := ChatDecoder) (E := AnthropicEncoder) no_names 100 false ChatCompletions (lit "x")
      [Bytes (as_bytes hello_text) false] = mkRelayed sent (Some (false, CanonicalUsage_default)) /\
    concat sent = as_bytes (write_reply (T := AnthropicEncoder) (lit "x") hello).
Proof.
  set (heard := decode_all (T := ChatDecoder) sd_new (datas_of (parse_sse (concat [hello_text])))).
  destruct (relay_is_decode_then_encode (D := ChatDecoder) (E := AnthropicEncoder) no_names 100 ChatCompletions
    (lit "x") [hello_text] hello [] heard.2) as (sent & H1 & H2).
  - apply Forall_singleton, ascii_scalar. vm_compute. reflexivity.
  - vm_compute. reflexivity.
  - vm_compute. reflexivity.
  - apply Nat.ltb_lt. vm_compute. reflexivity.
  - exists sent. split; [exact H1|exact H2].
Defined.

Lemma crlf_passthrough_counts_as_failed_witness :
  forward (D := ChatDecoder) (E := AnthropicEncoder) no_names 5 true GeminiGenerateContent (lit "x")
    [Bytes (as_bytes (lit "data: 1" ++ [CR; LF; CR; LF])) false] =
  mkRelayed [as_bytes (lit "data: 1" ++ [CR; LF; CR; LF]); as_bytes ERROR_FRAME] (Some (true, CanonicalUsage_default)).
Proof.
  apply (crlf_passthrough_counts_as_failed (D := ChatDecoder) (E := AnthropicEncoder) no_names 5
    GeminiGenerateContent (lit "x") [lit "data: 1" ++ [CR; LF; CR; LF]]).
  - apply Forall_singleton, ascii_scalar. reflexivity.
  - intros a b E. eapply (proj1 (rsplit_blank_None _)); [|exists a, b; exact E]. vm_compute. reflexivity.
  - apply Nat.ltb_lt. reflexivity.
Defined.
Lemma crlf_reply_is_gathered_empty_witness :
  rs_parts (gather_streamed (D := ChatDecoder) no_names ChatCompletions
    (as_bytes (lit "data: 1" ++ [CR; LF; CR; LF]))) = [].
Proof.
  apply (crlf_reply_is_gathered_empty (D := ChatDecoder) no_names ChatCompletions).
  - apply ascii_scalar. reflexivity.
  - intros a b E. eapply (proj1 (rsplit_blank_None _)); [|exists a, b; exact E]. vm_compute. reflexivity.
Defined.
Lemma broken_reply_is_closed_first_witness :
  let whole := forward (D := ChatDecoder) (E := AnthropicEncoder) no_names 5 false ChatCompletions (lit "x") [] in
  let broken := forward (D := ChatDecoder) (E := AnthropicEncoder) no_names 5 false ChatCompletions (lit "x") [Broken] in
  rd_sent broken = rd_sent whole ++ [as_bytes ERROR_FRAME] /\ rd_record broken = Some (true, CanonicalUsage_default).
Proof.
  pose proof (broken_reply_is_closed_first (D := ChatDecoder) (E := AnthropicEncoder) no_names 5 ChatCompletions
    (lit "x") [] (List.Forall_nil _)) as H.
  cbv zeta in H |- *. exact H.
Defined.
