(* ===== verification/BodyScenario.v ===== *)
(** A concrete conversation whose bodies cross protocols, with the theorems on
    bodies applied to it. *)
From stdpp Require Import prelude strings list.
From Stdlib Require Import NArith ZArith Lia.
From S2P Require Import Prelude CoreTypes GatewayTypes GatewayErrors Ir Json Upstream Wire AnthropicStream Bodies.
From S2P Require Import AnthropicBody ChatBody GeminiBody ResponsesBody ToolNames Renaming Crossing StreamScenario.

(** Numbers without a fraction stand for themselves. *)
#[export] Instance toy_numbers : JsonNumbers := { json_as_f64 := json_as_u64; json_f64 := json_u64 }.
#[export] Instance toy_numbers_laws : JsonNumbersLaws.
Proof.
  constructor. intros v z H. simpl in *. apply as_u64_of_u64. pose proof (u64_of_range (Some v)) as Hr. simpl in Hr.
  by rewrite H in Hr.
Qed.

Definition field (k : string) (v : json) : str * json := (lit k, v).
Definition reading_tool : json :=
  JObject [field "name" (jstr "fs.read"); field "description" (jstr "Reads a file");
           field "input_schema" (JObject [field "type" (jstr "object")])].
(** What an Anthropic client asks, in the middle of a turn. *)
Definition asked : json :=
  JObject [field "model" (jstr "mine"); field "max_tokens" (json_u64 64); field "temperature" (json_u64 1);
    field "system" (jstr "brief");
    field "messages" (JArray
      [JObject [field "role" (jstr "user");
                field "content" (JArray [text_block (lit "look");
                  JObject [field "type" (jstr "image");
                           field "source" (JObject [field "type" (jstr "url"); field "url" (jstr "http://x/y.png")])]])];
       JObject [field "role" (jstr "assistant");
                field "content" (JArray [text_block (lit "I will"); call_block (lit "c1") (lit "fs.read") (JObject [field "path" (jstr "a")])])];
       JObject [field "role" (jstr "user");
                field "content" (JArray [result_block (lit "c1") false (jstr "hello"); text_block (lit "go on")])]]);
    field "tools" (JArray [reading_tool]); field "stop_sequences" (JArray [jstr "END"])].
Definition asked_request : CanonicalRequest :=
  match anthropic_parse_request asked with Ok r => r | Err _ => CanonicalRequest_for_model [] end.
Definition row : list Hop :=
  [mkHop ChatCompletions false (lit "gpt") None; mkHop AnthropicMessages false (lit "claude") (Some (lit "off"));
   mkHop ChatCompletions false (lit "last") None].
Definition no_hash (name : str) : Z := 0.

Lemma conversation_crosses_protocols_witness :
  exists body' r', pass_on no_hash 0 AnthropicMessages asked row = Ok body' /\
    bc_parse_request (codec_of 0 ChatCompletions) body' = Ok r' /\
    td_name <$> cr_tools asked_request = [lit "fs.read"] /\ gi_tools (gist r') = [(lit "fs_read", lit "Reads a file",
      JObject [field "type" (jstr "object")])] /\
    gi_system (gist r') = lit "brief" /\ cr_model r' = lit "last" /\ sp_max_tokens (cr_sampling r') = Some 64%Z.
Proof.
  destruct (conversation_crosses_protocols 0 no_hash AnthropicMessages (mkHop ChatCompletions false (lit "gpt") None)
    (tail row) asked asked_request) as (body' & r' & Hb & Hr & Hg & _ & Hlast & Hmax).
  - repeat constructor; (by left) || (by right) || done.
  - vm_compute. reflexivity.
  - vm_compute. reflexivity.
  - unfold plain_calls. cbn. repeat constructor; simpl; try done; set_solver.
  - vm_compute. discriminate.
  - exists body', r'. split; [exact Hb|]. split; [exact Hr|].
    pose proof (f_equal gi_tools Hg) as Ht. pose proof (f_equal gi_system Hg) as Hs. split_and!.
    + vm_compute. reflexivity.
    + rewrite Ht. vm_compute. reflexivity.
    + rewrite Hs. vm_compute. reflexivity.
    + by apply (Hlast (mkHop ChatCompletions false (lit "last") None)).
    + apply Hmax; [vm_compute; reflexivity|split; vm_compute; discriminate].
Defined.

(** What a Gemini upstream answers a Chat client. *)
Definition gemini_answer : list (str * json) :=
  [field "candidates" (JArray [JObject
      [field "content" (JObject [field "role" (jstr "model");
         field "parts" (JArray [text_part (lit "found"); call_part (lit "fs_read") (JObject [field "path" (jstr "b")])])]);
       field "finishReason" (jstr "STOP")]]);
    field "usageMetadata" (JObject [field "promptTokenCount" (json_u64 9); field "candidatesTokenCount" (json_u64 4)]);
    field "modelVersion" (jstr "gemini")].
Definition answered : CanonicalResponse :=
  match gemini_parse_response (JObject gemini_answer) with Ok r => r | Err _ => CanonicalResponse_default end.

(** One tool called twice, and one whose name the ids cannot carry. *)
Definition response_of (name text : string) : json :=
  JObject [field "functionResponse" (JObject [field "name" (jstr name); field "response" (JObject [field "content" (jstr text)])])].
Definition gemini_asked : json :=
  JObject [field "model" (jstr "gemini");
    field "contents" (JArray
      [JObject [field "role" (jstr "user"); field "parts" (JArray [text_part (lit "read both")])];
       JObject [field "role" (jstr "model");
                field "parts" (JArray [call_part (lit "read_file") (JObject []); call_part (lit "read_file") (JObject []);
                                       call_part (lit "mcp__fs__list") (JObject [])])];
       JObject [field "role" (jstr "model"); field "parts" (JArray [response_of "read_file" "A"; response_of "read_file" "B"])]])].
Definition gemini_request : CanonicalRequest :=
  match gemini_parse_request gemini_asked with Ok r => r | Err _ => CanonicalRequest_for_model [] end.
Lemma gemini_calls_are_paired_witness :
  results_in (cr_messages gemini_request) `prefix_of` (calls_in (cr_messages gemini_request)).*1 /\
  gemini_call_name (lit "call_read_file__2") = lit "read_file" /\
  gemini_call_name (lit "call_mcp__fs__list") <> lit "mcp__fs__list".
Proof.
  pose proof (gemini_calls_are_paired gemini_asked gemini_request) as H.
  destruct H as (_ & Hpre & _ & _ & Hnames); [vm_compute; reflexivity|]. split_and!.
  - apply Hpre. by exists [lit "mcp__fs__list"].
  - apply (Hnames (lit "call_read_file__2") (lit "read_file")); [|done].
    right. left.
  - apply (Hnames (lit "call_mcp__fs__list") (lit "mcp__fs__list")); [|done]. right. right. left.
Defined.

Lemma responses_conversation_reads_back_witness :
  exists v r', build_upstream_request (responses_body 0) asked_request (lit "o4") true = Ok v /\ responses_parse_request v = Ok r' /\
    utterances (cr_messages r') = told <$> utterances (cr_messages asked_request) /\ cr_tools r' = cr_tools asked_request /\
    sp_stop (cr_sampling r') = [].
Proof.
  destruct (build_upstream_request (responses_body 0) asked_request (lit "o4") true) as [v|] eqn:E; [|by vm_compute in E].
  destruct (responses_conversation_reads_back 0 asked_request (lit "o4") true v)
    as (r' & Hr & Hm & _ & Ht & _ & _ & _ & _ & _ & _ & Hstop & _).
  - by apply (anthropic_reads_carried asked).
  - cbn. by repeat constructor.
  - unfold plain_calls. cbn. repeat constructor; simpl; try done; set_solver.
  - done.
  - exact E.
  - by exists v, r'.
Defined.

(** A Responses client's own body, with a tool only its vendor has. *)
Definition own_body : list (str * json) :=
  [field "model" (jstr "mine"); field "store" (JBool false);
   field "tools" (JArray [JObject [field "type" (jstr "web_search")]]); field "input" (jstr "hi")].
Definition own_hop : Hop := mkHop Responses true (lit "o4") None.
Lemma passthrough_keeps_the_body_witness :
  exists v, call_body no_hash 0 Responses (JObject own_body) asked_request own_hop = Ok v /\
    json_get (lit "store") v = Some (JBool false) /\ array_of (json_get (lit "tools") v) = None.
Proof.
  destruct (passthrough_keeps_the_body no_hash 0 own_hop own_body asked_request)
    as (v & Hv & _ & _ & Ht & Hk).
  - apply (bool_decide_unpack _). by vm_compute.
  - done.
  - done.
  - exists v. split_and!; [done| |by rewrite Ht]. by rewrite Hk by set_solver.
Defined.
