(* ===== verification/Scenario.v ===== *)
(** One concrete configuration of the gateway and of a relay pair, on which the
    theorems with hypotheses are instantiated: a model group over two
    Providers, a pinned conversation whose first member refuses, an account
    lane of one slot, and two relay peers over the toy instance of the
    cryptographic interface. *)
From stdpp Require Import prelude strings list gmap sorting countable.
From Stdlib Require Import NArith ZArith Lia Sorted.
From S2P Require Import Prelude CoreTypes GatewayTypes GatewayStore RouteModel Capabilities.
From S2P Require Import KeyPlan GatewayErrors Ir Json Upstream MemberPlan Breaker ModelResolve.
From S2P Require Import Failover Limiter Relay StreamScenario.

(** ** A route of two Providers *)

Definition alpha : ident := lit "model_provider_alpha".
Definition beta : ident := lit "model_provider_beta".
Definition wide_member (uuid : string) (profile : ident) (order weight : Z) : ModelRouteMember :=
  mkMember (id_new ModelRouteMemberId (lit uuid)) profile (lit "deep") true order None weight None None.
Definition team_rule (pause : bool) : ModelRouteRule :=
  {| ru_id := lit "r1";
     ru_use_member_id := if pause then None else Some (id_new ModelRouteMemberId (lit "b"));
     ru_more_member_ids := []; ru_use_effort := if pause then None else Some (lit "high");
     ru_tokens_min := None; ru_images := Some true; ru_effort := None; ru_agents := [];
     ru_intent := None; ru_compact := None; ru_time := None; ru_folders := [];
     ru_except_folders := []; ru_pause := pause |}.
Definition team_route : ModelRoute :=
  {| mr_id := id_new ModelRouteId (lit "team"); mr_display_name := lit "team";
     mr_description := None; mr_kind := ModelGroup;
     mr_members := [wide_member "a" alpha 0 3; wide_member "b" beta 1 1];
     mr_strategy := Ordered; mr_agent_model_id := Some (lit "team");
     mr_rules := [team_rule false]; mr_classifier := None; mr_effort := None;
     mr_patience_ms := Some 60000%Z; mr_sink := false; mr_unlists := false; mr_levels := [];
     mr_pick_member_id := None; mr_first_token_timeout_ms := None; mr_context_tokens := None;
     mr_pin := PinConversation; mr_failover := FailoverAsk;
     mr_token_limit := Some (mkTokenLimit WindowDay 1000); mr_status := RouteEnabled;
     mr_revision := 1; mr_created_at_ms := 0; mr_updated_at_ms := 0; mr_deleted_at_ms := None |}.
Definition team_profiles : Profiles :=
  [(alpha, mkProfile alpha (lit "Same Name") [] []); (beta, mkProfile beta (lit "same name") [] [])].
Definition any_endpoint : ModelProviderEndpoint :=
  mkEndpoint (lit "e") EndpointApi (lit "https://vendor.test/v1") None.
Definition key_of (uuid : string) : ModelProviderCredentialReference :=
  mkCredential (id_new RequestId (lit uuid)) [] [] [] None.
Definition team_upstream (profile : ident) (name uuid : string) : GatewayUpstream :=
  mkUpstream profile (lit name) [any_endpoint] [lit "deep"] [] [key_of uuid] [].
Definition team_upstreams : list GatewayUpstream :=
  [team_upstream alpha "Same Name" "ka"; team_upstream beta "same name" "kb"].
Definition team_snapshot : GatewaySnapshot :=
  snapshot_of ModelGatewaySettings_default team_upstreams 0 team_profiles [team_route].
Definition team_model : str := lit "group/model_route_team/team".
Definition image_turn : RouteRuleContext :=
  mkRuleContext None (Some 10%Z) true None false None None (Some 1%Z) (Some 0%Z).
Definition team_group : GatewayRouteGroup :=
  match build_group team_profiles team_route with
  | Some (_, g) => g
  | None => mkGroup [] [] Ordered KeyOrdered None PinOff FailoverAuto None [] [] None [] None None None
              false false [] None
  end.

(** Closed decidable facts, by evaluation. *)
Ltac evaluate :=
  first [ by vm_compute | apply (bool_decide_unpack _); vm_compute; exact I ].

Lemma team_route_served : served_route team_route.
Proof. split; [evaluate|]. split; [evaluate|]. split; evaluate. Qed.

(** ** Resolving a model *)

Lemma listed_upstream_resolves_witness :
  resolve_model id (upstream_alias team_upstreams (team_upstream alpha "Same Name" "ka")
                      ++ slash :: lit "deep") (model_namespaces team_snapshot)
  = ResolvedQualified alpha (lit "deep").
Proof.
  refine (proj1 (listed_upstream_resolves id team_snapshot
    (team_upstream alpha "Same Name" "ka") (lit "deep") _ _ _ _)).
  - evaluate.
  - repeat constructor; try (eexists; reflexivity); evaluate.
  - apply list_elem_of_here.
  - done.
Defined.

Lemma catalogue_is_reachable_witness :
  exists g, group_for_model team_snapshot (team_model ++ lit "-high") = Some (g, lit "team").
Proof.
  destruct (catalogue_is_reachable ModelGatewaySettings_default team_upstreams 0 team_profiles
    [team_route] (fun _ => []) (mkModelEntry team_model (lit "team") [] (lit "team")))
    as (g & _ & Hsuffix & _).
  - repeat constructor; apply team_route_served.
  - vm_compute. apply list_elem_of_here.
  - exists g. apply (Hsuffix (lit "-high")). evaluate.
Defined.

Lemma group_sources_are_served_witness :
  exists r member profile, r ∈ [team_route] /\ member ∈ mr_members r /\
    btree_get (rm_profile_id member) team_profiles = Some profile /\
    member_is_served profile (rm_model_id member) = true /\ pp_id profile = beta.
Proof.
  destruct (group_sources_are_served team_profiles [team_route] (mr_id team_route) team_group
    (mkMemberRef (Some (id_new ModelRouteMemberId (lit "b"))) beta (lit "deep") None 1 None None))
    as (r & member & profile & Hr & _ & _ & Hm & _ & Hp & Hs & _ & He & _).
  - vm_compute. apply list_elem_of_here.
  - vm_compute. apply list_elem_of_further, list_elem_of_here.
  - by exists r, member, profile.
Defined.


(** ** A pinned conversation whose first member refuses *)

Definition team_call (profile : ident) : MemberCall :=
  mkCall Responses true any_endpoint JNull.
Definition prepared_member (profile : ident) (uuid : string) : PreparedMember :=
  {| mp_profile_id := profile; mp_provider_name := lit "vendor"; mp_model := lit "deep";
     mp_model_aliases := []; mp_call := team_call profile; mp_alternates := [];
     mp_keys := [(CandidateKey_new profile (cd_id (key_of uuid)) 0, key_of uuid)];
     mp_skipped_cooling := 0; mp_skipped_over_limit := 0; mp_first_token_timeout_ms := Some 9000%Z |}.
Definition team_members : list PreparedMember := [prepared_member alpha "ka"; prepared_member beta "kb"].
Definition prepared (pinned : bool) (failover : GatewayFailover) : PreparedCall :=
  {| pc_inbound := Responses; pc_requested_model := team_model; pc_members := team_members;
     pc_agent_id := None; pc_stream := true; pc_group_id := Some (mr_id team_route);
     pc_probe := false; pc_request_id := id_new RequestId (lit "turn"); pc_failover := failover;
     pc_patience_ms := Some 60000%Z; pc_route_decision := GatewayRouteDecisionTrace_default;
     pc_pinned := pinned |}.
(** The first member answers 429; the second answers what [second] says. *)
Definition busy_world (second : WireReply) : World :=
  {| w_to_lowercase := id; w_parse_json := fun _ => None; w_secret := fun _ => SecretFound;
     w_slot := fun _ _ => None;
     w_reply := fun mi _ _ => mkTimed 10 (if mi =? 0 then Refused 429 (lit "slow down") else second);
     w_first_chunk := fun _ => mkTimed 10 Chunk; w_listening := true;
     w_answer := Some (mkTimed 100 AnswerStay) |}.
Definition idle_service : Service :=
  {| sv_breaker := mkBreakerState ∅ (RuntimeState_running 0 0 1); sv_inflight := [];
     sv_latency := ∅; sv_accounts := ∅; sv_windows := ∅; sv_ledger := []; sv_lessons := ∅;
     sv_routes := ∅; sv_settings := ModelGatewaySettings_default; sv_shutting_down := false |}.


Lemma marks_are_earned_witness :
  earned_by_some (busy_world Success) (prepared false FailoverAuto)
    (EffMarkFailure alpha (cd_id (key_of "ka")) KindRate).
Proof.
  apply marks_are_earned. vm_compute.
  apply list_elem_of_further, list_elem_of_here.
Defined.

Lemma every_key_is_accounted_witness :
  exists log a, (open_member_attempt (busy_world Success) (prepared false FailoverAuto) 0
      (prepared_member alpha "ka") (mkLogs [] [])).2 = log /\
    a ∈ wl_attempts log /\ at_credential_id a = cd_id (key_of "ka").
Proof.
  destruct (every_key_is_accounted (busy_world Success) (prepared false FailoverAuto) 0
    (prepared_member alpha "ka") (mkLogs [] []) _ _ eq_refl) as [H|(call & Hc & He)].
  - destruct (H (CandidateKey_new alpha (cd_id (key_of "ka")) 0, key_of "ka")) as (a & Ha & Hc).
    { apply list_elem_of_here. }
    by eexists _, a.
  - apply list_elem_of_singleton in Hc as ->. by vm_compute in He.
Defined.

Lemma some_answer_suffices_witness :
  exists won s, walk_members (busy_world Success) (prepared true FailoverAuto) = (Ok won, s).
Proof. by apply (some_answer_suffices _ _ 1 (prepared_member beta "kb")). Defined.

Lemma failure_is_recorded_once_witness :
  exists e s row, open_attempt (busy_world (Refused 500 [])) (prepared true FailoverAsk) [] 5 idle_service
      = (Err e, s) /\ sv_ledger s = [row] /\ lg_status row = Some 429%Z.
Proof.
  pose proof (failure_is_recorded_once (busy_world (Refused 500 [])) (prepared true FailoverAsk) [] 5
    idle_service eq_refl) as H.
  destruct (open_attempt _ _ _ _ _) as [[won|e] s] eqn:E; [by vm_compute in E|].
  destruct H as (_ & row & Hl & _ & _ & Hs & _). exists e, s, row.
  split; [done|]. split; [done|]. rewrite Hs. by vm_compute in E; simplify_eq.
Defined.

Lemma group_ceiling_is_blind_witness :
  check_ceiling (mkSnapshot ModelGatewaySettings_default team_upstreams 0
    (build_groups team_profiles [team_route])) team_model = Ok tt.
Proof.
  apply (group_ceiling_is_blind idle_service [] _ [alpha; beta] 0); try done.
  intros g limit Hg Hl. vm_compute in Hg. injection Hg as <-. vm_compute in Hl. by injection Hl as <-.
Defined.

Lemma patience_is_bounded_witness :
  patience_loop 12 (fun n => mkTimed 5 (if n =? 2 then Ok n else Err (AllKeysCooling [] None)))
    (patience_deadline (Some 60000%Z) 0) 0 [] 0 (Err (AllKeysCooling [] None)) = Some (Ok 2, 2, [2000; 4000]%Z).
Proof.
  destruct (patience_is_bounded (fun n => mkTimed 5 (if n =? 2 then Ok n else Err (AllKeysCooling [] None)))
    60000 0 0 (Err (AllKeysCooling [] None))) as (n & H & Hgo & Hend & Hn & _).
  - by intros [|k].
  - by unfold MAX_ROUTE_PATIENCE_MS.
  - done.
  - destruct n as [|[|[|n]]]; [destruct Hend; by vm_compute..|exact H|].
    exfalso. specialize (Hgo 2 ltac:(lia)). exact Hgo.
Defined.

Lemma perimeter_is_loopback_only_witness :
  perimeter (Some (lit "localhost:8080")) false = Ok tt.
Proof.
  apply (perimeter_is_loopback_only (lit "localhost") (lit "8080") false); evaluate.
Defined.

(** ** Keys, members and rows *)

Definition fresh_key (uuid : string) (priority : Z) : CandidateKey :=
  CandidateKey_new alpha (cd_id (key_of uuid)) priority.
Definition two_keys (strategy : GatewayRoutingStrategy) (pinned : option (ident * ident)) : RouteRequest :=
  mkRouteRequest [fresh_key "ka" 0; fresh_key "kb" 1] strategy 0 pinned.

Lemma pinned_key_leads_witness :
  exists c rest, attemptable (plan_route (two_keys KeyOrdered (Some (alpha, cd_id (key_of "kb"))))) = c :: rest
    /\ ck_credential c = cd_id (key_of "kb").
Proof.
  destruct (proj2 (pinned_key_leads (two_keys KeyOrdered (Some (alpha, cd_id (key_of "kb")))))
    ltac:(by vm_compute)) as (c & rest & H & Hp & _).
  exists c, rest. split; [done|]. vm_compute in H. injection H as <- <-. done.
Defined.

Lemma round_robin_is_fair_witness :
  omap (fun j => head (attemptable (plan_route
    (with_rotation (two_keys KeyRoundRobin None) (Z.of_nat 5 + Z.of_nat j))))) (seq 0 2)
  ≡ₚ [fresh_key "ka" 0; fresh_key "kb" 1].
Proof. apply (round_robin_is_fair (two_keys KeyRoundRobin None) 5); [done|done|evaluate]. Defined.

Lemma member_keys_sound_witness :
  exists keys plan, member_keys (team_upstream alpha "Same Name" "ka") GatewayPolicy_default 0 ∅ 5 team_model
      (lit "deep") KeyOrdered 0 None = Ok (keys, plan) /\ keys <> [] /\ keys.*1 = attemptable plan.
Proof.
  eexists _, _. split; [vm_compute; reflexivity|].
  edestruct (member_keys_sound (team_upstream alpha "Same Name" "ka") GatewayPolicy_default 0 ∅ 5 team_model
    (lit "deep") KeyOrdered 0 None) as (H1 & H2 & _);
    [evaluate|vm_compute; reflexivity|by split].
Defined.

Lemma choose_target_sound_witness :
  exists plan, choose_target AnthropicMessages (team_upstream alpha "Same Name" "ka") None
      GatewayPolicy_default = Ok plan /\
    is_Some (endpoint_for_call (team_upstream alpha "Same Name" "ka") (tp_target plan)) /\
    NoDup (tp_alternates plan).*1 /\ length (tp_alternates plan) = 3.
Proof.
  pose proof (choose_target_sound AnthropicMessages (team_upstream alpha "Same Name" "ka")
    GatewayPolicy_default) as H.
  destruct (choose_target _ _ _ _) as [plan|e] eqn:E; [|by vm_compute in E].
  destruct H as (H1 & _ & _ & H2 & _). exists plan. split; [done|]. split; [done|]. split; [done|].
  vm_compute in E. by injection E as <-.
Defined.

Lemma weighted_share_of_first_attempts_witness :
  let a := mkMemberRef None alpha (lit "deep") None 3 None None in
  let b := mkMemberRef None beta (lit "deep") None 1 None None in
  omap (fun j => head (plan_members [a; b] Weighted (Z.of_nat 7 + Z.of_nat j) [] None)) (seq 0 4)
  ≡ₚ [a; a; a; b].
Proof.
  intros a b. apply (weighted_share_of_first_attempts [a; b] 7 [] None). done.
Defined.

Lemma plan_members_reorders_witness :
  let a := mkMemberRef (Some (lit "m1")) alpha (lit "deep") None 3 None None in
  let b := mkMemberRef (Some (lit "m2")) beta (lit "deep") None 1 None None in
  plan_members [a; b] Manual 0 [] (Some (lit "m2")) =
  retain (fun m => bool_decide (mm_member_id m = Some (lit "m2"))) [a; b].
Proof.
  intros a b. by apply (proj1 (plan_members_reorders [a; b] Manual 0 [] (Some (lit "m2")))).
Defined.

Definition ledger_row (uuid : string) (at_ms : Z) : ModelGatewayRequestLog :=
  {| lg_request_id := id_new RequestId (lit uuid); lg_agent_id := None; lg_profile_id := alpha;
     lg_credential_id := None; lg_model_requested := team_model; lg_model_served := None;
     lg_wire_in := wire_protocol_id Responses; lg_wire_out := wire_protocol_id Responses;
     lg_status := Some 200%Z; lg_input_tokens := 1; lg_output_tokens := 1; lg_cached_read_tokens := 0;
     lg_cached_write_tokens := 0; lg_reasoning_tokens := 0; lg_latency_ms := None;
     lg_outcome := OutcomeOk; lg_route := None; lg_created_at_ms := at_ms |}.

Lemma ledger_pages_complete_witness :
  lg_request_id <$> ledger_pages [ledger_row "a" 1; ledger_row "b" 2; ledger_row "c" 2]
    (query_with_limit GatewayRequestQuery_default 2) 2 =
  [id_new RequestId (lit "b"); id_new RequestId (lit "c"); id_new RequestId (lit "a")].
Proof. rewrite ledger_pages_complete by evaluate. by vm_compute. Defined.

Lemma window_usage_is_the_sum_witness :
  default 0%Z (wu_used_tokens <$> window_current
    (window_run ∅ alpha WindowDay [(3, 10); (4, 20); (5, 86400001)]%Z) alpha WindowDay 50) = 7%Z.
Proof. rewrite window_usage_is_the_sum by (repeat constructor; done). by vm_compute. Defined.

Lemma auth_failure_is_permanent_witness :
  exists s, GatewayStore.account_run [OpFailure GatewayPolicy_default alpha (lit "ka") KindAuth 5;
      OpUpdate (mkAccountUpdate alpha (lit "ka") (Some false) None) 6;
      OpSuccess alpha (lit "kb") 7] ∅ !! (alpha, lit "ka") = Some s /\
    forall now, is_ready_at s now = false.
Proof.
  apply (auth_failure_is_permanent ∅ GatewayPolicy_default alpha (lit "ka") 5).
  - intros k s. by rewrite lookup_empty.
  - repeat constructor; simpl; first [done | by intros [= ?] | idtac].
Defined.

Lemma efforts_round_trip_witness :
  exists e, Efforts_parse (lit "off, low=minimal,max") = Ok (Some e) /\
    Efforts_parse (Efforts_display e) = Ok (Some e).
Proof.
  destruct (Efforts_parse (lit "off, low=minimal,max")) as [[e|]|] eqn:E; [|by vm_compute in E..].
  exists e. split; [done|]. apply (efforts_round_trip _ e E).
  vm_compute in E. injection E as <-. by vm_compute.
Defined.

Lemma group_model_id_round_trip_witness :
  serves_model_group_id team_route team_model = true.
Proof.
  by apply (group_model_id_round_trip team_route team_route team_model (proj1 team_route_served)
    (proj2 team_route_served)).
Defined.

Lemma conversation_key_is_stable_witness :
  let turn text role := JObject [(lit "role", JString (lit role)); (lit "content", JString (lit text))] in
  let body items := JObject [(lit "messages", JArray items)] in
  conversation_key id (fun _ => []) None [] (body [turn "hi" "user"; turn "hello" "assistant"]%string) =
  conversation_key id (fun _ => []) None [] (body [turn "hi" "user"]%string).
Proof.
  intros turn body.
  apply (conversation_key_is_stable id (fun _ => []) None [] _ _ (lit "messages") [turn "hi" "user"]%string
    [turn "hello" "assistant"]%string).
  - evaluate.
  - done.
  - done.
  - intros k Hk. simpl. unfold json_get. simpl. by rewrite !bool_decide_eq_false_2 by done.
  - eexists. by vm_compute.
Defined.

(** ** The breaker *)

Definition running : BreakerState := mkBreakerState ∅ (RuntimeState_running 0 0 1).

Lemma published_state_covers_witness :
  runtime_covers (breaker_run [OpNoteFailure team_model 1; OpNoteFailure team_model 2;
    OpNoteFailure team_model 3; OpBegin team_model; OpNoteSuccess team_model 9] running).
Proof.
  apply published_state_covers. split; [intros _; vm_compute; lia|].
  split; [done|]. intros [_ H]. by apply Nat.lt_irrefl in H.
Defined.

Lemma breaker_opens_after_three_witness :
  group_is_degraded (breaker_run [OpNoteFailure team_model 1000; OpNoteFailure team_model 2000;
    OpNoteFailure team_model 3000] running) team_model = true.
Proof. by apply (breaker_opens_after_three running team_model 1000 2000 3000 4000). Defined.

Lemma one_probe_at_a_time_witness :
  let failed := breaker_run [OpNoteFailure team_model 1000; OpNoteFailure team_model 2000;
                             OpNoteFailure team_model 3000] running in
  admits failed team_model = Ok true /\
  admits (breaker_run [OpNoteSuccess alpha 5; OpBegin team_model] (breaker_step failed (OpBegin team_model)))
    team_model = Err (NotConfigured STEPPED_ASIDE).
Proof.
  intros failed. split; [by vm_compute|]. apply one_probe_at_a_time; [by vm_compute|].
  constructor; [by right|]. constructor; [by left|constructor].
Defined.

(** ** The lane of an account *)

Lemma one_then_queue :
  exists a, account_run Account_idle [Arrive 1 (Some 5%Z); Arrive 1 (Some 5%Z); Release] a /\
    ac_permits a = 0 /\ ac_waiters a = [1%Z].
Proof.
  eexists. split.
  - eapply (run_snoc _ [Arrive 1 (Some 5%Z); Arrive 1 (Some 5%Z)] _ Release).
    + eapply (run_snoc _ [Arrive 1 (Some 5%Z)] _ (Arrive 1 (Some 5%Z))).
      * eapply (run_snoc _ [] _ (Arrive 1 (Some 5%Z))); [constructor|by apply step_granted].
      * by apply step_queued.
    + by apply step_release.
  - done.
Qed.

Lemma lane_is_bounded_witness :
  exists a, account_run Account_idle [Arrive 1 (Some 5%Z); Arrive 1 (Some 5%Z); Release] a /\
    (Z.of_nat (ac_permits a) <= 1)%Z /\ (Z.of_nat (queued (ac_entry a)) <= 5)%Z.
Proof.
  destruct one_then_queue as (a & Ha & _). exists a. split; [done|].
  destruct (lane_is_bounded 1 (Some 5%Z) _ a ltac:(lia) Ha) as (H1 & _ & H2).
  - repeat constructor.
  - split; [done|]. by apply (H2 5%Z).
Defined.

Lemma lane_refines_fifo_witness :
  exists a, fifo_run 1 (Some 5%Z) (mkFifo 0 [])
              [Arrive 1 (Some 5%Z); Arrive 1 (Some 5%Z); Release] (fifo_of a) /\
    (exists b, account_step a (Poll 1) b) /\ fifo_of a = mkFifo 0 [1%Z].
Proof.
  destruct one_then_queue as (a & Ha & Hp & Hw). exists a.
  assert (Hf : fifo_of a = mkFifo 0 [1%Z]) by (unfold fifo_of; by rewrite Hp, Hw).
  destruct (lane_refines_fifo 1 (Some 5%Z) _ a ltac:(lia) Ha) as [H1 H2]; [repeat constructor|repeat constructor|].
  split; [done|]. split; [|done]. rewrite Hf in H2.
  by apply (H2 _ (mkFifo 1 [])), (fifo_next 1 _ (mkFifo 0 [1%Z])).
Defined.

Lemma lane_is_fair_witness :
  exists a b, account_step a (Poll 1) b /\ ac_permits b = S (ac_permits a) /\
    exists rest, ac_waiters a = 1%Z :: rest /\ ac_waiters b = rest.
Proof.
  destruct one_then_queue as (a & Ha & Hp & Hw).
  destruct (free_slot_is_granted 1 (Some 5%Z) _ a 1 [] ltac:(lia) Ha) as (b & Hstep & Hb & _);
    [repeat constructor|repeat constructor|done|by rewrite Hp|].
  exists a, b. split; [done|]. split; [done|].
  destruct (lane_is_fair _ a b (Poll 1) Ha Hstep Hb) as (rest & H1 & H2 & _). by exists rest.
Defined.

Lemma minute_is_bounded_witness :
  length (starts_in 0 (reserve_run (-61000) [] 2 [-500; 0; 10; 20; 61000; 61005; 61010]%Z)) <= 2.
Proof. apply minute_is_bounded; [lia| |]; [repeat constructor; lia|]. vm_compute. discriminate. Defined.

(** ** A relay pair *)

(** A toy instance of the interface: it encrypts nothing and agrees on a
    constant, and writes an envelope as one number. *)
Definition toy_pad (n : nat) (b : bytes) : bytes := take n (b ++ replicate n 0%N).
Definition kind_index (k : RelayFrameKind) : nat :=
  match k with
  | PairRequest => 0 | PairResponse => 1 | Command => 2 | Response => 3
  | Event => 4 | Heartbeat => 5 | HeartbeatAck => 6 | ErrorFrame => 7
  end.
Definition index_kind (n : nat) : RelayFrameKind :=
  match n with
  | 0 => PairRequest | 1 => PairResponse | 2 => Command | 3 => Response
  | 4 => Event | 5 => Heartbeat | 6 => HeartbeatAck | _ => ErrorFrame
  end.
Definition envelope_tree (e : RelayPlaintextEnvelope) : gen_tree str :=
  GenNode (kind_index (en_kind e))
    [GenLeaf (en_room_id e); GenLeaf (en_session_id e); GenLeaf (en_sender_peer_id e);
     GenLeaf (en_recipient_peer_id e); GenNode 0 (GenLeaf <$> option_list (en_correlation_id e));
     json_tree (en_payload e)].
Definition tree_envelope (counter issued : Z) (t : gen_tree str) : option RelayPlaintextEnvelope :=
  match t with
  | GenNode k [GenLeaf r; GenLeaf s; GenLeaf p; GenLeaf q; GenNode _ c; v] =>
    Some (mkEnvelope r s p q (match c with [GenLeaf i] => Some i | _ => None end) (index_kind k)
            counter issued (tree_json v))
  | _ => None
  end.
Definition toy_encode (e : RelayPlaintextEnvelope) : option bytes :=
  Some [N.pos (encode (en_counter e, en_issued_at_ms e, envelope_tree e))].
Definition toy_decode (b : bytes) : option RelayPlaintextEnvelope :=
  match b with
  | [N.pos p] => '(counter, issued, t) ← decode p; tree_envelope counter issued t
  | _ => None
  end.
#[export] Instance toy_crypto : Crypto := {
  public_of b := toy_pad KEY_SIZE b;
  dh _ _ := [1%N];
  contributory b := negb (is_empty b);
  hkdf _ _ info n := Some (toy_pad n (reverse info));
  hmac key t := key ++ t;
  aead_encrypt _ _ _ msg := Some msg;
  aead_decrypt _ _ _ c := Some c;
  base64 b := b;
  base64_decode b := Some b;
  base64url b := b;
  base64url_decode b := Some b;
  encode_metadata m := Some (vi_room_id m);
  encode_envelope := toy_encode;
  decode_envelope := toy_decode;
  encode_json v := Some (match v with JString s => s | _ => [] end)
}.
Lemma toy_pad_length n b : length (toy_pad n b) = n.
Proof. unfold toy_pad. rewrite length_take, length_app, length_replicate. lia. Qed.
Lemma toy_decode_encode e b : toy_encode e = Some b -> toy_decode b = Some e.
Proof.
  intros [= <-]. unfold toy_decode. rewrite decode_encode. cbn.
  rewrite tree_json_tree. destruct e as [r s p q [c|] k n i v]; by destruct k.
Qed.
#[export] Instance toy_laws : CryptoLaws.
Proof.
  split; try done.
  - intros a. apply toy_pad_length.
  - intros salt ikm info n out [= <-]. apply toy_pad_length.
  - intros e b _. apply toy_decode_encode.
Qed.

Definition pc_config : RelaySessionConfig :=
  mkConfig (lit "room") (lit "session") (lit "pc") (lit "phone").
Definition pc_keys : RelayKeypair := mkKeypair [7%N].
Definition phone_keys : RelayKeypair := mkKeypair [9%N].
Definition commands : list Message :=
  [mkMessage Command (Some (lit "c1")) (JObject [(lit "path", JArray [JString (lit "a"); JNumber (lit "7")])])
     (replicate 24 0%N) [] 7 7;
   mkMessage Response (Some (lit "c1")) (JBool true) (replicate 24 0%N) [] 7 7].

Lemma peers_agree_on_keys_witness :
  exists a b, establish_with_suite pc_keys (public_key_base64 phone_keys) pc_config DirectionalV2
      (Some (lit " relay.test ")) = Ok a /\
    establish_with_suite phone_keys (public_key_base64 pc_keys) (mirror pc_config) DirectionalV2
      (Some (lit "relay.test")) = Ok b /\ matched a b.
Proof.
  destruct (proj1 (peers_agree_on_keys pc_keys phone_keys pc_config DirectionalV2
    (Some (lit " relay.test ")) (Some (lit "relay.test")) [] [] _ ltac:(by vm_compute)) eq_refl)
    as (b & Hb & Hm & _).
  by eexists _, b.
Defined.

Definition pc_session (suite : RelayCryptoSuite) : RelaySession :=
  mkSession pc_config suite (replicate 32 1%N) (replicate 32 2%N) 1 1.
Definition phone_session (suite : RelayCryptoSuite) : RelaySession :=
  mkSession (mirror pc_config) suite (replicate 32 2%N) (replicate 32 1%N) 1 1.

Lemma commands_are_sendable :
  Forall (fun m => length (ms_random m) = NONCE_SIZE /\ sendable (ms_payload m)) commands.
Proof.
  constructor; [|constructor; [|constructor]].
  - split; [reflexivity|]. split; [|vm_compute; lia]. split.
    + constructor; [|constructor]. by intros H%elem_of_nil.
    + split; [|done]. split; [done|]. split; [|done].
      exists 7%Z. split; [vm_compute; split; discriminate|reflexivity].
  - split; [reflexivity|]. split; [exact I|vm_compute; lia].
Qed.

Lemma sealed_stream_opens_witness :
  exists frames a' envelopes b', seal_all (pc_session DirectionalV2) commands = (Ok <$> frames, a') /\
    length frames = 2 /\
    open_all (phone_session DirectionalV2) frames = (Ok <$> envelopes, b') /\
    en_payload <$> envelopes = ms_payload <$> commands.
Proof.
  assert (Hs : exists frames a', seal_all (pc_session DirectionalV2) commands = (Ok <$> frames, a') /\
                                 length frames = 2).
  { eexists [_; _], _. split; [vm_compute; reflexivity|done]. }
  destruct Hs as (frames & a' & Hs & Hlen). exists frames, a'.
  destruct (sealed_stream_opens (pc_session DirectionalV2) (phone_session DirectionalV2) a' commands frames)
    as (envelopes & b' & Ho & Hk & _); [by split|done|exact commands_are_sendable|done|].
  exists envelopes, b'. split_and!; [done|done|done|].
  apply (f_equal (fmap (fun x => x.2))) in Hk. by rewrite <- !list_fmap_compose in Hk.
Defined.

Lemma no_frame_is_accepted_twice_witness :
  exists f a' rs s', seal_json (pc_session LegacyV1) Command None JNull (replicate 24 0%N) [] 7 7 = (Ok f, a') /\
    open_all (phone_session LegacyV1) [f; f] = (rs, s') /\ en_counter <$> accepted rs = [1%Z].
Proof.
  destruct (seal_json (pc_session LegacyV1) Command None JNull (replicate 24 0%N) [] 7 7)
    as [[f|] a'] eqn:Ef; [|by vm_compute in Ef].
  destruct (open_all (phone_session LegacyV1) [f; f]) as [rs s'] eqn:Eo.
  exists f, a', rs, s'. split; [done|]. split; [done|].
  rewrite (proj1 (no_frame_is_accepted_twice _ _ _ _ Eo)).
  vm_compute in Ef. injection Ef as <- <-. vm_compute in Eo. by injection Eo as <- <-.
Defined.

Lemma handshake_proof_verifies_witness :
  exists tag, relay_handshake_authentication_tag pc_keys (public_key_base64 phone_keys) [1%N; 2%N] = Ok tag /\
    verify_relay_handshake_authentication_tag phone_keys (public_key_base64 pc_keys) [1%N; 2%N] tag = Ok tt.
Proof.
  eexists. split; [reflexivity|].
  by eapply (handshake_proof_verifies pc_keys phone_keys).
Defined.

Lemma canonical_json_ignores_field_order_witness :
  canonical_json_vec (JObject [(lit "b", JNull); (lit "a", JNull)]) =
  canonical_json_vec (JObject [(lit "a", JNull); (lit "b", JNull)]).
Proof.
  apply canonical_json_ignores_field_order.
  eapply same_object; [|evaluate|apply Permutation_swap].
  repeat constructor.
Defined.
